(* ===== verification/_CoqProject ===== *)
-Q . S2P
Prelude.v
ListH.v
Blocks.v
DefaultPmm.v
SwapFifo.v
Bitmap.v
Libs.v
Vmm.v
PageInit.v
ProcData.v
Sched.v
Sync.v
Process.v
RbTree.v
RbSched.v
Threads.v
FileTable.v
PageTable.v
PageFault.v
PmmFrames.v
Kmalloc.v
IoBuf.v
SfsDisk.v
Devs.v
Vfs.v
Sysfile.v
Exec.v
SfsFile.v
SysSfs.v
ExecSfs.v
Printfmt.v
Console.v
Monitor.v
Kdebug.v
Syscall.v
UserLib.v
UserFiles.v
SfsDir.v
SfsMount.v
Mksfs.v
MksfsTree.v
MksfsImage.v
MksfsPaths.v
Shell.v
Brk.v
