(* ===== verification/Prelude.v ===== *)
(** * HardCore: a verification development

    HardCore is a teaching kernel for 32-bit x86: physical and virtual memory
    management, processes and threads, scheduling, synchronisation, a virtual
    file system with a simple disk file system, and a small user library.
    This library models the parts of the kernel that carry its logic as Rocq
    functions and proves what makes them correct.

    *** How the code is modelled

    A C function is a function from the state of its component to a result
    and a new state.  [res] (below) is the outcome of kernel code: [Ok],
    [Panic] (a failed [assert], a [panic], or a dereference of a bad pointer
    where the component keeps a memory), [Spin] (the fuel of a loop ran out).
    Integers are [Z] with the wrap-around of their C type written out ([u32],
    [i32]).  Pointers are [Z] addresses; NULL is 0.  Code that another
    component provides is either required from its file or an argument; its
    calls are then recorded in an effect list.  Interrupt masking makes the
    masked region one step; a function that calls [schedule] is split there
    into the part before and the part after.

    *** Parts and files

    - libs/list.h: ListH (a heap of prev/next fields; the sequence a list
      holds; every operation as an operation on sequences).  The later files
      use sequences where nothing but these operations touches a list.
    - kern/mm/default_pmm.c: Blocks (the abstract free list: sorted disjoint
      blocks) and DefaultPmm (page descriptors and the linked free list; the
      functions refine the abstract list).
    - kern/mm/swap_fifo.c: SwapFifo (the three replacement policies).
    - kern/fs/sfs/bitmap.c: Bitmap (32-bit words).
    - libs/string.c, hash.c, rand.c and the assembly of libs/x86.h: Libs.
    - kern/mm/vmm.c: Vmm (areas of an address space).
    - kern/process/proc.h: ProcData; kern/schedule/sched.c: Sched, with the
      scheduling class as a record of functions and [SchedLaws] as its
      contract; kern/sync/wait.c and sem.c: Sync; kern/process/proc.c:
      Process.
    - libs/rbtree.c: RbTree (nodes in memory with the packed parent/colour
      word; trees and contexts describe it); kern/schedule/default_sched.c,
      cfs_sched.c and their tree files: RbSched, two instances of [SchedLaws].
      ([KeepsRest] in Process and [ThreadLaws] in Threads are further fields
      a class must leave alone; the instances for both are in Threads.)
    - libs/printfmt.c: Printfmt.  kern/mm/pmm.c: PageInit (page_init),
      PmmFrames (frames and their counts over the allocator), PageTable (the
      two-level tables in memory, and alloc_pages with the swapping out of
      swap.c that it falls back on; [FrameAlloc] is what it needs of an
      allocator, [SwapMgr] of a replacement policy).  do_pgfault and swap_in:
      PageFault.  kern/mm/kmalloc.c: Kmalloc.
    - threads and killing of process groups (proc.c): Threads; program
      loading (load_icode, do_execve): Exec over any file system and ExecSfs
      over the disk file system; do_brk: Brk.
    - kern/fs: IoBuf (transfer buffers), FileTable (descriptors), Devs (disk0,
      stdin, stdout and the IDE driver), Vfs (device list, paths, lookup),
      Sysfile (file.c and sysfile.c; [InodeOps] and [InodeLaws] are the table
      of inode operations and its contract), SfsDisk (blocks and the free
      map), SfsFile (reading, writing, truncating), SfsDir (directories and
      inodes in memory), SfsMount (mounting and syncing), SysSfs (the disk
      file system as an instance of [InodeLaws]).
    - kern/driver/console.c and kern/libs: Console ([Terminal] is the display
      and the keyboard seen by a client).  kern/sync/monitor.c and
      check_sync.c: Monitor (step relations for the philosophers, once with
      condition variables and once, in Module Sema, with semaphores).
      kern/debug/kdebug.c: Kdebug.
    - kern/trap/trap.c and kern/syscall/syscall.c: Syscall, as interaction
      trees over the events of the machine and of the kernel.  user/libs:
      UserLib, run against Syscall; UserFiles joins it with Sysfile.
      user/sh.c: Shell.
    - tools/mksfs.c: Mksfs (the program), MksfsTree (directory trees of the
      host and how the caches hold them), MksfsImage (the image as the kernel
      mounts it), MksfsPaths (paths looked up in it).

    *** What the theorems show

    Allocation: the free list stays sorted, disjoint and merged; each policy
    returns the block it should; freeing what was allocated restores the
    state; the bitmap gives out the least free block.  Address spaces: areas
    stay sorted and disjoint; lookup, mapping, unmapping and the user access
    check are exact.  Processes: pids are fresh and findable, fork, exit and
    wait keep the process list, the pid hash and the family links consistent
    on every path.  Scheduling: no runnable process is lost or run twice,
    timers fire when due, the stride and CFS queues run the least process;
    the red-black trees below them stay valid under insertion and removal at
    pointer level.  Synchronisation: semaphores grant first come first
    served.  Libraries: the assembly and the portable routines agree with
    their specification.
    Memory: copying and releasing of address spaces accounts for every frame,
    a swapped page comes back with its contents, page faults change exactly
    the pages they should and swap others out when they must, kmalloc never
    hands out overlapping blocks.  Files: the open file table and the inode counts stay
    balanced, up to the references vfs_open loses, which are counted; writing, truncating, linking, unlinking of
    regular files and looking up refine maps from names to byte sequences; syncing and mounting
    give the same file system; an image built by mksfs mounts and every file
    in it is read back by its path; a user program reads what it wrote,
    through library, trap, tables and disk.  Programs: load_icode builds the
    address space the ELF file describes; do_exit hands over the children,
    wakes whom it must and frees the stack slot of a thread.  System calls: every stub of the
    user library reaches the kernel function of its name.  Monitors: no two
    neighbouring philosophers eat, and each step leads on.  Output and input:
    vprintfmt prints what the format means, the console is a queue.  Debug
    tables: the search is exact on sorted tables and always ends.  Shell: the
    tokens cut in place are those of the line, and the strings given to open
    and exec are exactly its words (lines without quotes and bars, a
    redirection last).
    Theorems named [..._witness] apply a theorem to a concrete state and so
    show that its hypotheses can hold.

    *** Fuel

    Loops that are not structural carry fuel.  Every theorem that speaks of a
    result gives fuel that suffices: one step per list entry for list walks,
    the number of nodes for tree walks, [2 * MAX_PID] for the pid search (a
    free pid is at most one round trip away), the number of pages or words
    for the loops over ranges.
    The remaining loops: one round per page for unmapping, copying and the
    image of a program (rounds = pages + 2 in Exec), one per page table (704)
    for exit_range, the length of the path plus 1 for lookups, the depth of the
    directory for getcwd, 31 orders in kmalloc, the number of cells for its
    ring, one round per block for disk transfers, the length plus 1 for read
    and write, 2 or 3 pieces in copy_string, 65 digits for a number, one round
    per waiting byte for input, two rounds per stab for the binary search, the
    length of the line plus 1 in the shell.  The trees of Syscall use
    [ITree.iter] and mksfs recurses on the host tree, both without fuel.

    *** Not modelled

    The boot loader, segment and interrupt descriptor tables, the interrupt
    controller and clock, the switch of contexts and other assembly (no state
    the kernel's logic depends on); kernel start-up, which calls the
    initialisation functions in order (proc_init, init_main and user_main with
    it), the trap frames of new processes and the listing of processes for
    user space (get_pdb); the kernel monitor, panic messages and
    other output that is only read by people; the boot-time self tests
    (functions named check); the unfinished minix file system, the buddy
    allocator and the skew heap, which nothing uses; user programs other than
    the shell, and malloc, stdio and the lock of the user library.  Exec has
    the frames of the page tables and a map from pages to frames for what they
    hold, since PageTable treats the walk.  The byte offset of a disk block is
    taken without its wrap at 2^32 (SfsDisk), which a disk of at most 524288
    blocks does not reach.  do_exit ends where it calls schedule, which is in
    Sched.  The functions behind the system calls are opaque events in
    Syscall; what do_execve writes into the trap frame is not seen there.
*)
From stdpp Require Export base gmap list sorting.
From Stdlib Require Export ZArith Lia.

#[global] Open Scope Z_scope.

(** ** Outcome of kernel code

    [Ok a]: the function returned [a].  [Panic]: an [assert] failed or
    [panic] was called.  [Spin]: the fuel of a loop ran out (the loop had
    not ended). *)
Inductive res (A : Type) : Type :=
| Ok (a : A)
| Panic
| Spin.
Arguments Ok {A} a.
Arguments Panic {A}.
Arguments Spin {A}.

#[global] Instance res_ret : MRet res := @Ok.
#[global] Instance res_bind : MBind res := fun A B f m =>
  match m with Ok a => f a | Panic => Panic | Spin => Spin end.

(** [assert(b)] of [kern/debug/assert.h]: panics unless [b]. *)
Definition kassert (b : bool) : res unit := if b then Ok tt else Panic.

Definition is_ok {A} (r : res A) : bool :=
  match r with Ok _ => true | _ => false end.

Lemma res_bind_ok {A B} (a : A) (f : A -> res B) : (Ok a ≫= f) = f a.
Proof. reflexivity. Qed.

Lemma kassert_true (b : bool) : b = true -> kassert b = Ok tt.
Proof. intros ->. reflexivity. Qed.

Lemma res_bind_inv {A B} (m : res A) (f : A -> res B) b :
  (m ≫= f) = Ok b -> exists a, m = Ok a /\ f a = Ok b.
Proof. destruct m; simpl; try discriminate; eauto. Qed.

(** ** Machine integers *)
Definition u32 (z : Z) : Z := z mod 2 ^ 32.
Definition u64 (z : Z) : Z := z mod 2 ^ 64.
Definition i32 (z : Z) : Z := (z + 2 ^ 31) mod 2 ^ 32 - 2 ^ 31.

Lemma u32_small z : 0 <= z < 2 ^ 32 -> u32 z = z.
Proof. apply Z.mod_small. Qed.

Lemma u32_range z : 0 <= u32 z < 2 ^ 32.
Proof. apply Z.mod_pos_bound. lia. Qed.

Lemma i32_small z : - 2 ^ 31 <= z < 2 ^ 31 -> i32 z = z.
Proof. intros. unfold i32. rewrite Z.mod_small; lia. Qed.

Lemma i32_range z : - 2 ^ 31 <= i32 z < 2 ^ 31.
Proof. unfold i32. pose proof (Z.mod_pos_bound (z + 2 ^ 31) (2 ^ 32)). lia. Qed.

Lemma u32_i32 z : u32 (i32 z) = u32 z.
Proof.
  unfold u32, i32.
  rewrite Zminus_mod, Zmod_mod, <- Zminus_mod. f_equal. lia.
Qed.

Lemma i32_u32 z : i32 (u32 z) = i32 z.
Proof. unfold i32, u32. f_equal. by rewrite Zplus_mod_idemp_l. Qed.

#[global] Arguments Z.testbit : simpl never.
#[global] Arguments Z.setbit : simpl never.
#[global] Arguments Z.clearbit : simpl never.
#[global] Arguments Z.land : simpl never.
#[global] Arguments Z.lor : simpl never.
#[global] Arguments Z.shiftr : simpl never.
#[global] Arguments Z.shiftl : simpl never.
#[global] Arguments Z.pow : simpl never.
#[global] Arguments Z.eqb : simpl never.
#[global] Arguments Z.ltb : simpl never.
#[global] Arguments Z.leb : simpl never.
#[global] Arguments Z.lxor : simpl never.
#[global] Arguments u32 : simpl never.
#[global] Arguments i32 : simpl never.

Create HintDb kern.
Create Rewrite HintDb kern.
#[export] Hint Rewrite @res_bind_ok : kern.
#[export] Hint Resolve u32_range i32_range : kern.

(** ** Tactics of the development *)

(** Split every [bool] test of the goal into its arithmetic meaning. *)
Ltac zcase :=
  match goal with
  | |- context [?a =? ?b] => destruct (Z.eqb_spec a b)
  | |- context [?a <? ?b] => destruct (Z.ltb_spec a b)
  | |- context [?a <=? ?b] => destruct (Z.leb_spec a b)
  | |- context [?a >? ?b] => rewrite (Z.gtb_ltb a b)
  | |- context [?a >=? ?b] => rewrite (Z.geb_leb a b)
  end.

(** The same for the tests of a hypothesis. *)
Ltac zcase_in H :=
  match type of H with
  | context [?a =? ?b] => destruct (Z.eqb_spec a b)
  | context [?a <? ?b] => destruct (Z.ltb_spec a b)
  | context [?a <=? ?b] => destruct (Z.leb_spec a b)
  | context [?a >? ?b] => rewrite (Z.gtb_ltb a b) in H
  | context [?a >=? ?b] => rewrite (Z.geb_leb a b) in H
  end.

(** ** Lists *)
Lemma removelast_snoc {A} (l : list A) x : removelast (l ++ [x]) = l.
Proof. apply removelast_last. Qed.

Lemma list_snoc_cases {A} (x : A) (l : list A) :
  exists l' y, x :: l = l' ++ [y].
Proof.
  revert x. induction l as [|a l IH]; intros x; [by exists [], x|].
  destruct (IH a) as (l' & y & ->). by exists (x :: l'), y.
Qed.

Lemma elem_of_removelast {A} (x : A) l : x ∈ removelast l -> x ∈ l.
Proof.
  induction l as [|a [|b l] IH]; simpl; [set_solver..|].
  intros [->|H]%elem_of_cons; [set_solver|]. right. auto.
Qed.

(** Unlinking an element of a sequence without duplicates. *)
Lemma filter_ne_id (l : list Z) x : x ∉ l -> filter (fun y => y <> x) l = l.
Proof.
  induction l as [|y l IH]; intros Hx; [done|]. apply not_elem_of_cons in Hx as [Hy Hx].
  rewrite filter_cons_True by done. by rewrite IH.
Qed.

Lemma filter_ne_app (l1 l2 : list Z) x :
  x ∉ l1 -> x ∉ l2 -> filter (fun y => y <> x) (l1 ++ x :: l2) = l1 ++ l2.
Proof. intros H1 H2. rewrite filter_app, filter_cons_False by tauto. by rewrite !filter_ne_id. Qed.

Lemma filter_ne_cons (l : list Z) x : x ∉ l -> filter (fun y => y <> x) (x :: l) = l.
Proof. intros H. rewrite filter_cons_False by tauto. by apply filter_ne_id. Qed.

Lemma elem_snd {A B} (a : A) (b : B) l : (a, b) ∈ l -> b ∈ l.*2.
Proof. intros H. apply list_elem_of_fmap. by exists (a, b). Qed.

Lemma elem_fst {A B} (a : A) (b : B) l : (a, b) ∈ l -> a ∈ l.*1.
Proof. intros H. apply list_elem_of_fmap. by exists (a, b). Qed.
