(* ===== verification/ListH.v ===== *)
(** * libs/list.h: circular doubly linked lists

    A [list_entry_t] embedded in some structure is an address (a [Z]); the
    heap [links] maps an address to its [prev]/[next] fields, an address never
    written reads as [{0, 0}].  [ring L h es] says that the entries [es], in
    this order, form the list whose head is [h]. *)
From S2P Require Import Prelude.

Record list_entry := Entry { le_prev : Z; le_next : Z }.

Abbreviation links := (gmap Z list_entry).

Definition entry (L : links) (a : Z) : list_entry := default (Entry 0 0) (L !! a).

Definition list_next (L : links) (a : Z) : Z := le_next (entry L a).
Definition list_prev (L : links) (a : Z) : Z := le_prev (entry L a).

Definition set_next (a v : Z) (L : links) : links := <[a := Entry (list_prev L a) v]> L.
Definition set_prev (a v : Z) (L : links) : links := <[a := Entry v (list_next L a)]> L.

Definition list_init (elm : Z) (L : links) : links :=
  set_prev elm elm (set_next elm elm L).

Definition __list_add (elm prev next : Z) (L : links) : links :=
  let L := set_next prev elm (set_prev next elm L) in
  set_prev elm prev (set_next elm next L).

Definition __list_del (prev next : Z) (L : links) : links :=
  set_prev next prev (set_next prev next L).

Definition list_add_before (listelm elm : Z) (L : links) : links :=
  __list_add elm (list_prev L listelm) listelm L.

Definition list_add_after (listelm elm : Z) (L : links) : links :=
  __list_add elm listelm (list_next L listelm) L.

Definition list_add (listelm elm : Z) (L : links) : links := list_add_after listelm elm L.

Definition list_del (listelm : Z) (L : links) : links :=
  __list_del (list_prev L listelm) (list_next L listelm) L.

Definition list_del_init (listelm : Z) (L : links) : links :=
  list_init listelm (list_del listelm L).

Definition list_empty (L : links) (lst : Z) : bool := list_next L lst =? lst.

(** ** Field reads after writes *)
Lemma next_set_next a v L b :
  list_next (set_next a v L) b = if decide (a = b) then v else list_next L b.
Proof. unfold list_next, set_next, entry. rewrite lookup_insert. by case_decide. Qed.

Lemma prev_set_next a v L b : list_prev (set_next a v L) b = list_prev L b.
Proof.
  unfold list_prev, set_next, entry. rewrite lookup_insert.
  case_decide; subst; reflexivity.
Qed.

Lemma next_set_prev a v L b : list_next (set_prev a v L) b = list_next L b.
Proof.
  unfold list_next, set_prev, entry. rewrite lookup_insert.
  case_decide; subst; reflexivity.
Qed.

Lemma prev_set_prev a v L b :
  list_prev (set_prev a v L) b = if decide (a = b) then v else list_prev L b.
Proof. unfold list_prev, set_prev, entry. rewrite lookup_insert. by case_decide. Qed.

Create Rewrite HintDb links.
#[export] Hint Rewrite next_set_next prev_set_next next_set_prev prev_set_prev : links.

(** [fields]: evaluate every field read after the writes of the goal. *)
Ltac fields := autorewrite with links; repeat case_decide; subst; try congruence; try done.

(** ** Chains and rings *)
Fixpoint chain (L : links) (l : list Z) : Prop :=
  match l with
  | x :: (y :: _) as l' => list_next L x = y /\ list_prev L y = x /\ chain L l'
  | _ => True
  end.

Definition ring (L : links) (h : Z) (es : list Z) : Prop :=
  NoDup (h :: es) /\ chain L (h :: es ++ [h]).

Lemma chain_app L l1 x l2 :
  chain L (l1 ++ x :: l2) <-> chain L (l1 ++ [x]) /\ chain L (x :: l2).
Proof.
  induction l1 as [|a [|b l1] IH]; simpl in *; [tauto| |].
  - destruct l2; tauto.
  - tauto.
Qed.

Lemma chain_frame L L' l :
  (forall x, x ∈ removelast l -> list_next L' x = list_next L x) ->
  (forall x, x ∈ tail l -> list_prev L' x = list_prev L x) ->
  chain L l -> chain L' l.
Proof.
  induction l as [|a [|b l] IH]; simpl; [done|done|].
  intros Hn Hp (H1 & H2 & H3). split; [|split].
  - rewrite Hn; [done|set_solver].
  - rewrite Hp; [done|set_solver].
  - apply IH; [| |done].
    + intros x Hx. apply Hn. set_solver.
    + intros x Hx. apply Hp. set_solver.
Qed.

(** A ring cut between two neighbours [p], [n]. *)
Lemma ring_cut L h es1 es2 :
  ring L h (es1 ++ es2) ->
  exists l p n r, h :: es1 = l ++ [p] /\ es2 ++ [h] = n :: r /\
    chain L (l ++ [p]) /\ list_next L p = n /\ list_prev L n = p /\ chain L (n :: r).
Proof.
  intros [_ Hc].
  destruct (list_snoc_cases h es1) as (l & p & Hl).
  destruct (es2 ++ [h]) as [|n r] eqn:Hr; [by destruct es2|].
  exists l, p, n, r. do 2 (split; [done|]).
  rewrite <- app_assoc, Hr in Hc.
  change (chain L ((h :: es1) ++ n :: r)) in Hc. rewrite Hl, <- app_assoc in Hc. simpl in Hc.
  apply chain_app in Hc as [? Hc]. simpl in Hc. tauto.
Qed.

Lemma ring_glue L h es1 es2 l p n r :
  h :: es1 = l ++ [p] -> es2 ++ [h] = n :: r ->
  NoDup (h :: es1 ++ es2) ->
  chain L (l ++ [p]) -> list_next L p = n -> list_prev L n = p -> chain L (n :: r) ->
  ring L h (es1 ++ es2).
Proof.
  intros Hl Hr Hnd H1 H2 H3 H4. split; [done|].
  rewrite <- app_assoc, Hr. change (chain L ((h :: es1) ++ n :: r)).
  rewrite Hl, <- app_assoc. simpl. apply chain_app. simpl. tauto.
Qed.

(** Which fields an operation writes. *)
Lemma next_list_add_raw elm p n L b :
  list_next (__list_add elm p n L) b =
    if decide (b = elm) then n else if decide (b = p) then elm else list_next L b.
Proof. unfold __list_add. fields. Qed.

Lemma prev_list_add_raw elm p n L b :
  list_prev (__list_add elm p n L) b =
    if decide (b = elm) then p else if decide (b = n) then elm else list_prev L b.
Proof. unfold __list_add. fields. Qed.

Lemma next_list_del_raw p n L b :
  list_next (__list_del p n L) b = if decide (b = p) then n else list_next L b.
Proof. unfold __list_del. fields. Qed.

Lemma prev_list_del_raw p n L b :
  list_prev (__list_del p n L) b = if decide (b = n) then p else list_prev L b.
Proof. unfold __list_del. fields. Qed.

Lemma next_list_init e L b :
  list_next (list_init e L) b = if decide (b = e) then e else list_next L b.
Proof. unfold list_init. fields. Qed.

Lemma prev_list_init e L b :
  list_prev (list_init e L) b = if decide (b = e) then e else list_prev L b.
Proof. unfold list_init. fields. Qed.

Lemma chain_write L L' l p n :
  (forall x, x <> p -> x ∈ l -> list_next L' x = list_next L x) ->
  (forall x, x <> n -> x ∈ l -> list_prev L' x = list_prev L x) ->
  p ∉ removelast l -> n ∉ tail l ->
  chain L l -> chain L' l.
Proof.
  intros Hn Hp Hpl Hnl. apply chain_frame; intros x Hx.
  - apply Hn; [set_solver|by apply elem_of_removelast].
  - apply Hp; [set_solver|]. destruct l; [done|]. simpl in Hx. set_solver.
Qed.

(** The two halves of a cut ring avoid the cut fields. *)
Lemma cut_sides (h : Z) (es1 es2 l : list Z) (p n : Z) (r : list Z) :
  NoDup (h :: es1 ++ es2) -> h :: es1 = l ++ [p] -> es2 ++ [h] = n :: r ->
  p ∉ l /\ n ∉ es1 /\ p ∉ removelast (n :: r) /\ n ∉ r.
Proof.
  intros Hnd Hl Hr.
  assert (Hrl : removelast (n :: r) = es2) by (rewrite <- Hr; apply removelast_snoc).
  assert (Hp : p ∈ h :: es1) by (rewrite Hl; set_solver).
  apply NoDup_cons in Hnd as [Hh Hnd]. apply NoDup_app in Hnd as (H1 & H12 & H2).
  split; [|split; [|split]].
  - assert (Hn' : NoDup (h :: es1)) by (constructor; set_solver).
    rewrite Hl in Hn'. apply NoDup_app in Hn' as (_ & Hd & _).
    intros Hin. apply (Hd p Hin). set_solver.
  - destruct es2; simplify_eq/=; [set_solver|]. intros Hin. apply (H12 n Hin). set_solver.
  - rewrite Hrl. intros Hin. apply elem_of_cons in Hp as [->|Hp]; [set_solver|].
    by apply (H12 p).
  - destruct es2 as [|e es2]; simplify_eq/=; [set_solver|].
    apply NoDup_cons in H2 as [H2 _]. set_solver.
Qed.

Lemma ring_head_notin L h es : ring L h es -> h ∉ es.
Proof. intros [Hnd _]. by apply NoDup_cons in Hnd as [? ?]. Qed.

Lemma ring_nodup L h es : ring L h es -> NoDup es.
Proof. intros [Hnd _]. by apply NoDup_cons in Hnd as [? ?]. Qed.

(** Splice a fresh entry between the neighbours of a cut. *)
Lemma ring_splice L h es1 es2 l p n r e :
  ring L h (es1 ++ es2) -> h :: es1 = l ++ [p] -> es2 ++ [h] = n :: r ->
  chain L (l ++ [p]) -> chain L (n :: r) ->
  e ∉ h :: es1 ++ es2 ->
  ring (__list_add e p n L) h (es1 ++ e :: es2).
Proof.
  intros Hring Hl Hr Hc1 Hc2 He.
  destruct (cut_sides _ _ _ _ _ _ _ (proj1 Hring) Hl Hr) as (Hpl & Hn1 & Hp2 & Hnr).
  assert (Htl : tail (l ++ [p]) = es1) by (rewrite <- Hl; done).
  assert (He1 : e ∉ l ++ [p]) by (rewrite <- Hl; set_solver).
  assert (He2 : e ∉ n :: r) by (rewrite <- Hr; set_solver).
  assert (Hpn : e <> p) by (intros ->; set_solver).
  assert (Hen : e <> n) by (intros ->; set_solver).
  apply (ring_glue _ h es1 (e :: es2) l p e (n :: r)); [done|by rewrite <- Hr| | | | |].
  - destruct Hring as [Hnd _]. apply NoDup_cons in Hnd as [??].
    constructor; [set_solver|]. rewrite <- Permutation_middle. constructor; [set_solver|done].
  - apply (chain_write L _ _ p n).
    + intros x Hx Hin. rewrite next_list_add_raw. repeat case_decide; set_solver.
    + intros x Hx Hin. rewrite prev_list_add_raw. repeat case_decide; set_solver.
    + by rewrite removelast_snoc.
    + by rewrite Htl.
    + done.
  - rewrite next_list_add_raw. repeat case_decide; congruence.
  - rewrite prev_list_add_raw. repeat case_decide; congruence.
  - cut (chain (__list_add e p n L) (n :: r)).
    { intros Hc. split; [|split; [|done]].
      - rewrite next_list_add_raw. case_decide; congruence.
      - rewrite prev_list_add_raw. repeat case_decide; congruence. }
    apply (chain_write L _ _ p n); [| |done..].
    + intros x Hx Hin. rewrite next_list_add_raw. repeat case_decide; set_solver.
    + intros x Hx Hin. rewrite prev_list_add_raw. repeat case_decide; set_solver.
Qed.

Lemma last_snoc_eq (h : Z) es l p : h :: es = l ++ [p] -> List.last es h = p.
Proof.
  intros Hl. rewrite <- (List.last_last l p h), <- Hl. by destruct es.
Qed.

(** [list_add_after] after the last entry of [es1] (the head when it is empty). *)
Lemma ring_add_after L h es1 es2 e :
  ring L h (es1 ++ es2) -> e ∉ h :: es1 ++ es2 ->
  ring (list_add_after (List.last es1 h) e L) h (es1 ++ e :: es2).
Proof.
  intros Hring He. destruct (ring_cut _ _ _ _ Hring) as (l & p & n & r & Hl & Hr & ? & Hpn & ? & ?).
  rewrite (last_snoc_eq _ _ _ _ Hl).
  unfold list_add_after. rewrite Hpn. by eapply ring_splice.
Qed.

Lemma ring_add_before L h es1 es2 e :
  ring L h (es1 ++ es2) -> e ∉ h :: es1 ++ es2 ->
  ring (list_add_before (hd h es2) e L) h (es1 ++ e :: es2).
Proof.
  intros Hring He. destruct (ring_cut _ _ _ _ Hring) as (l & p & n & r & Hl & Hr & ? & Hpn & Hnp & ?).
  assert (hd h es2 = n) as -> by (destruct es2; simplify_eq/=; done).
  unfold list_add_before. rewrite Hnp. by eapply ring_splice.
Qed.

Lemma ring_add_tail L h es e :
  ring L h es -> e ∉ h :: es -> ring (list_add_before h e L) h (es ++ [e]).
Proof.
  intros Hr He. pose proof (ring_add_before L h es [] e) as H.
  rewrite app_nil_r in H. auto.
Qed.

Lemma ring_add_head L h es e :
  ring L h es -> e ∉ h :: es -> ring (list_add h e L) h (e :: es).
Proof. intros Hr He. exact (ring_add_after L h [] es e Hr He). Qed.

(** Neighbours of an entry. *)
Lemma ring_next L h es1 e es2 : ring L h (es1 ++ e :: es2) -> list_next L e = hd h es2.
Proof.
  intros [_ Hc]. rewrite <- app_assoc in Hc. simpl in Hc.
  change (chain L ((h :: es1) ++ e :: es2 ++ [h])) in Hc.
  apply chain_app in Hc as [_ Hc]. destruct es2; simpl in *; tauto.
Qed.

Lemma ring_prev L h es1 e es2 : ring L h (es1 ++ e :: es2) -> list_prev L e = List.last es1 h.
Proof.
  intros Hring. destruct (ring_cut _ _ es1 (e :: es2) Hring) as (l & p & n & r & Hl & Hr & ? & ? & Hp & ?).
  rewrite (last_snoc_eq _ _ _ _ Hl). by inversion Hr; subst.
Qed.

Lemma ring_head_next L h es : ring L h es -> list_next L h = hd h es.
Proof. intros [_ Hc]. destruct es; simpl in *; tauto. Qed.

Lemma ring_head_prev L h es : ring L h es -> list_prev L h = List.last es h.
Proof.
  intros Hr. rewrite <- (app_nil_r es) in Hr.
  destruct (ring_cut _ _ _ _ Hr) as (l & p & n & r & Hl & Hn & ? & ? & Hp & ?).
  rewrite (last_snoc_eq _ _ _ _ Hl). by inversion Hn; subst.
Qed.

Lemma ring_empty L h es : ring L h es -> list_empty L h = bool_decide (es = []).
Proof.
  intros Hr. unfold list_empty. rewrite (ring_head_next _ _ _ Hr).
  destruct es as [|e es]; simpl; [by rewrite Z.eqb_refl|].
  apply ring_head_notin in Hr.
  apply Z.eqb_neq. set_solver.
Qed.

Lemma ring_init L h : ring (list_init h L) h [].
Proof.
  split; [repeat constructor; set_solver|]. simpl.
  rewrite next_list_init, prev_list_init. by rewrite !decide_True.
Qed.

(** Writes outside a ring keep it. *)
Lemma ring_frame L L' h es :
  (forall x, x ∈ h :: es -> list_next L' x = list_next L x /\ list_prev L' x = list_prev L x) ->
  ring L h es -> ring L' h es.
Proof.
  intros Hf [Hnd Hc]. split; [done|].
  revert Hc. apply chain_frame; intros x Hx.
  - apply elem_of_removelast in Hx. apply Hf. set_solver.
  - apply Hf. simpl in Hx. set_solver.
Qed.

(** Unlink an entry: the ring loses it; its own fields still point to its
    former neighbours, so a second [list_del] changes nothing. *)
Lemma ring_del L h es1 e es2 :
  ring L h (es1 ++ e :: es2) -> ring (list_del e L) h (es1 ++ es2).
Proof.
  intros Hring. unfold list_del.
  rewrite (ring_prev _ _ _ _ _ Hring), (ring_next _ _ _ _ _ Hring).
  destruct (list_snoc_cases h es1) as (l & p & Hl). rewrite (last_snoc_eq _ _ _ _ Hl).
  destruct (es2 ++ [h]) as [|n r] eqn:Hr; [by destruct es2|].
  assert (hd h es2 = n) as -> by (destruct es2; simplify_eq/=; done).
  destruct Hring as [Hnd Hc].
  assert (Hnd' : NoDup (h :: es1 ++ es2)).
  { apply NoDup_cons in Hnd as [Hh Hnd]. constructor; [set_solver|].
    rewrite <- Permutation_middle in Hnd. by apply NoDup_cons in Hnd as [? ?]. }
  rewrite <- app_assoc in Hc. change (chain L ((h :: es1) ++ e :: es2 ++ [h])) in Hc.
  apply chain_app in Hc as [Hc1 Hc2]. rewrite Hr in Hc2. destruct Hc2 as (_ & _ & Hc2).
  rewrite Hl, <- app_assoc in Hc1. simpl in Hc1. apply chain_app in Hc1 as [Hc1 _].
  destruct (cut_sides _ _ _ _ _ _ _ Hnd' Hl Hr) as (Hpl & Hn1 & Hp2 & Hnr).
  apply (ring_glue _ h es1 es2 l p n r); [done..| | | |].
  - apply (chain_write L _ _ p n); [| |by rewrite removelast_snoc|by rewrite <- Hl|done].
    + intros x Hx _. rewrite next_list_del_raw. by case_decide.
    + intros x Hx _. rewrite prev_list_del_raw. by case_decide.
  - rewrite next_list_del_raw. by case_decide.
  - rewrite prev_list_del_raw. by case_decide.
  - apply (chain_write L _ _ p n); [| |done..].
    + intros x Hx _. rewrite next_list_del_raw. by case_decide.
    + intros x Hx _. rewrite prev_list_del_raw. by case_decide.
Qed.

(** The unlinked entry keeps its own fields (so a walk standing on it can go on). *)
Lemma entry_list_del_other x L b :
  b <> list_prev L x -> b <> list_next L x -> entry (list_del x L) b = entry L b.
Proof.
  intros Hp Hn. unfold list_del, __list_del, set_prev, set_next, entry.
  rewrite !lookup_insert_ne by congruence. done.
Qed.

Lemma ring_del_self L h es1 e es2 :
  ring L h (es1 ++ e :: es2) -> entry (list_del e L) e = entry L e.
Proof.
  intros Hring. pose proof (ring_prev _ _ _ _ _ Hring) as Hp.
  pose proof (ring_next _ _ _ _ _ Hring) as Hn.
  destruct Hring as [Hnd _]. apply NoDup_cons in Hnd as [Hh Hnd].
  apply NoDup_app in Hnd as (_ & Hd & Hnd). apply NoDup_cons in Hnd as [He _].
  apply entry_list_del_other; [rewrite Hp|rewrite Hn].
  - destruct es1 as [|a es1]; [simpl; set_solver|].
    destruct (list_snoc_cases a es1) as (l & p & Hl).
    rewrite Hl, List.last_last. intros <-. apply (Hd e); rewrite ?Hl; set_solver.
  - intros ->. destruct es2; simpl in *; set_solver.
Qed.

(** A walk standing after [es1] steps to the first entry of [es2]. *)
Lemma ring_step L h es1 es2 :
  ring L h (es1 ++ es2) -> list_next L (List.last es1 h) = hd h es2.
Proof.
  intros Hring. destruct (ring_cut _ _ _ _ Hring) as (l & p & n & r & Hl & Hr & ? & Hpn & ? & ?).
  rewrite (last_snoc_eq _ _ _ _ Hl), Hpn. by destruct es2; simplify_eq/=.
Qed.

Lemma ring_del_next L h es1 e es2 :
  ring L h (es1 ++ e :: es2) -> list_next (list_del e L) e = hd h es2.
Proof.
  intros Hring. unfold list_next. rewrite (ring_del_self _ _ _ _ _ Hring).
  by apply (ring_next _ _ _ _ _ Hring).
Qed.

(** Deleting an entry twice is deleting it once. *)
Lemma ring_del_twice L h es1 e es2 :
  ring L h (es1 ++ e :: es2) -> ring (list_del e (list_del e L)) h (es1 ++ es2).
Proof.
  intros Hring. pose proof (ring_del _ _ _ _ _ Hring) as Hd.
  pose proof (ring_del_self _ _ _ _ _ Hring) as Hs.
  assert (Hpn : list_prev (list_del e L) e = list_prev L e /\
                list_next (list_del e L) e = list_next L e).
  { unfold list_prev, list_next. by rewrite Hs. }
  destruct Hpn as [Hp Hn].
  revert Hd. apply ring_frame. intros x _. set (L1 := list_del e L) in *.
  unfold list_del. rewrite Hp, Hn, next_list_del_raw, prev_list_del_raw.
  unfold L1, list_del. rewrite next_list_del_raw, prev_list_del_raw. repeat case_decide; done.
Qed.

(** Unlink [p], hang [q] behind the unlinked [p], unlink [p] again: [q] has
    taken the place of [p]. *)
Lemma ring_replace L h es1 p q es2 :
  ring L h (es1 ++ p :: es2) -> q ∉ h :: es1 ++ p :: es2 ->
  ring (list_del p (list_add_after p q (list_del p L))) h (es1 ++ q :: es2).
Proof.
  intros Hring Hq. pose proof (ring_del _ _ _ _ _ Hring) as Hd.
  pose proof (ring_del_self _ _ _ _ _ Hring) as Hs.
  pose proof (ring_prev _ _ _ _ _ Hring) as Hp. pose proof (ring_next _ _ _ _ _ Hring) as Hn.
  assert (HpL : list_prev (list_del p L) p = List.last es1 h) by (unfold list_prev; by rewrite Hs).
  assert (HnL : list_next (list_del p L) p = hd h es2) by (unfold list_next; by rewrite Hs).
  assert (Hpo : p ∉ h :: es1 ++ q :: es2).
  { destruct Hring as [Hnd _]. apply NoDup_cons in Hnd as [Hh Hnd].
    rewrite <- Permutation_middle in Hnd. apply NoDup_cons in Hnd as [Hnd _]. set_solver. }
  pose proof (ring_add_after _ _ _ _ q Hd) as Ha. rewrite <- (ring_step _ _ _ _ Hd) in HnL.
  set (P := List.last es1 h) in *. set (L1 := list_del p L) in *. clearbody L1.
  assert (HPq : P <> q).
  { intros HP. unfold P in HP. destruct es1 as [|a es1]; [simpl in HP; set_solver|].
    destruct (list_snoc_cases a es1) as (l & z & Hl). rewrite Hl, List.last_last in HP.
    rewrite Hl in Hq. set_solver. }
  assert (Hnx : list_next L1 P <> p /\ list_next L1 P <> q).
  { unfold P. rewrite (ring_step _ _ _ _ Hd). destruct es2; simpl; set_solver. }
  destruct Hnx as [Hnp Hnq].
  apply (ring_frame (list_add_after P q L1)); [|apply Ha; set_solver].
  intros x Hx. assert (Hxp : x <> p) by (intros ->; done).
  unfold list_del. rewrite next_list_del_raw, prev_list_del_raw.
  unfold list_add_after. rewrite !next_list_add_raw, !prev_list_add_raw, HnL, HpL.
  rewrite (decide_False (P := p = q)) by set_solver.
  rewrite (decide_True (P := p = p)) by done.
  rewrite (decide_False (P := p = list_next L1 P)) by congruence.
  assert (p <> q) by set_solver. split; repeat case_decide; congruence.
Qed.
