(* ===== verification/Blocks.v ===== *)
(** * Free blocks: the abstract view of a contiguous page allocator

    A free memory is a list of blocks [(base, size)] in address order, no two
    of which touch.  [carve] and [insert_block] are what allocation and
    release mean on this view; the allocator of [DefaultPmm] is proved to
    implement them. *)
From S2P Require Import Prelude.

Abbreviation block := (Z * Z)%type.

(** [sep lo bs]: the blocks start at or after [lo], are not empty, are in
    address order and leave at least one page between neighbours. *)
Fixpoint sep (lo : Z) (bs : list block) : Prop :=
  match bs with
  | [] => True
  | (b, n) :: bs => lo <= b /\ 0 < n /\ sep (b + n + 1) bs
  end.

Fixpoint total (bs : list block) : Z :=
  match bs with
  | [] => 0
  | (_, n) :: bs => n + total bs
  end.

(** Page [x] is free. *)
Definition free_page (bs : list block) (x : Z) : Prop :=
  exists b n, (b, n) ∈ bs /\ b <= x < b + n.

(** [n] pages from [b] overlap no free block. *)
Definition fits (b n : Z) (bs : list block) : Prop :=
  forall p m, (p, m) ∈ bs -> p + m <= b \/ b + n <= p.

(** What is left of block [(b, n)] once its first [num] pages are taken. *)
Definition carve (b n num : Z) : list block :=
  if n >? num then [(b + num, n - num)] else [].

(** Release of a block: merged with the neighbours it touches. *)
Fixpoint insert_block (b n : Z) (bs : list block) : list block :=
  match bs with
  | [] => [(b, n)]
  | (p, m) :: r =>
      if b + n =? p then (b, n + m) :: r
      else if b + n <? p then (b, n) :: (p, m) :: r
      else if p + m =? b then insert_block p (m + n) r
      else (p, m) :: insert_block b n r
  end.

(** ** Facts on the abstract view *)
Lemma sep_weaken lo lo' bs : lo' <= lo -> sep lo bs -> sep lo' bs.
Proof. destruct bs as [|[b n] bs]; simpl; [done|]. intros ? (? & ? & ?). split_and!; [lia|done..]. Qed.

Lemma sep_elem lo bs b n : sep lo bs -> (b, n) ∈ bs -> lo <= b /\ 0 < n.
Proof.
  revert lo. induction bs as [|[p m] bs IH]; intros lo; simpl; [set_solver|].
  intros (? & ? & Hs) [[= -> ->]|Hin]%elem_of_cons; [done|].
  specialize (IH _ Hs Hin). lia.
Qed.

Lemma sep_app lo l b n r :
  sep lo (l ++ (b, n) :: r) <->
  sep lo l /\ (forall p m, (p, m) ∈ l -> p + m < b) /\ lo <= b /\ 0 < n /\ sep (b + n + 1) r.
Proof.
  revert lo. induction l as [|[p m] l IH]; intros lo; simpl.
  - split; [intros (? & ? & ?)|intros (_ & _ & ? & ? & ?)]; split_and!; try done. set_solver.
  - rewrite IH. split.
    + intros (? & ? & ? & Hl & ? & ? & ?). split_and!; try done; [|lia].
      intros p' m' [[= -> ->]|Hin]%elem_of_cons; [lia|]. eauto.
    + intros ((? & ? & ?) & Hl & ? & ? & ?). split_and!; try done.
      * intros. eapply Hl. set_solver.
      * assert (p + m < b) by (apply Hl; set_solver). lia.
Qed.

Lemma total_app l r : total (l ++ r) = total l + total r.
Proof. induction l as [|[b n] l IH]; simpl; lia. Qed.

Lemma total_nonneg lo bs : sep lo bs -> 0 <= total bs.
Proof.
  revert lo. induction bs as [|[b n] bs IH]; intros lo; simpl; [lia|].
  intros (? & ? & Hs). specialize (IH _ Hs). lia.
Qed.

Lemma total_pos bs : (forall b n, (b, n) ∈ bs -> 0 < n) -> 0 <= total bs.
Proof.
  induction bs as [|[b n] bs IH]; simpl; [lia|]. intros H.
  assert (0 < n) by (apply (H b); set_solver).
  enough (0 <= total bs) by lia. apply IH. set_solver.
Qed.

Lemma sep_length_total lo bs : sep lo bs -> Z.of_nat (length bs) <= total bs.
Proof.
  revert lo. induction bs as [|[b n] bs IH]; intros lo; simpl; [lia|].
  intros (? & ? & Hs). specialize (IH _ Hs). lia.
Qed.

Lemma total_elem lo bs b n : sep lo bs -> (b, n) ∈ bs -> n <= total bs.
Proof.
  revert lo. induction bs as [|[p m] bs IH]; intros lo; simpl; [set_solver|].
  intros (? & ? & Hs) [[= -> ->]|Hin]%elem_of_cons.
  - pose proof (total_nonneg _ _ Hs). lia.
  - specialize (IH _ Hs Hin). lia.
Qed.

Lemma sep_nodup lo bs : sep lo bs -> NoDup bs.*1.
Proof.
  revert lo. induction bs as [|[b n] bs IH]; intros lo; simpl; [constructor|].
  intros (? & ? & Hs). constructor; [|eauto].
  intros ([p m] & -> & Hin)%list_elem_of_fmap. apply (sep_elem _ _ _ _ Hs) in Hin. simpl in *. lia.
Qed.

(** Two blocks that share a page are the same. *)
Lemma sep_overlap lo bs b n p m x :
  sep lo bs -> (b, n) ∈ bs -> (p, m) ∈ bs -> b <= x < b + n -> p <= x < p + m ->
  b = p /\ n = m.
Proof.
  revert lo. induction bs as [|[q k] bs IH]; intros lo; simpl; [set_solver|].
  intros (? & ? & Hs) Hb Hp Hx1 Hx2.
  apply elem_of_cons in Hb as [Hb|Hb]; apply elem_of_cons in Hp as [Hp|Hp]; simplify_eq; [done| | |eauto].
  - apply (sep_elem _ _ _ _ Hs) in Hp. lia.
  - apply (sep_elem _ _ _ _ Hs) in Hb. lia.
Qed.

Lemma free_page_app l r x : free_page (l ++ r) x <-> free_page l x \/ free_page r x.
Proof. unfold free_page. set_solver. Qed.

Lemma free_page_cons b n r x : free_page ((b, n) :: r) x <-> b <= x < b + n \/ free_page r x.
Proof.
  unfold free_page. split.
  - intros (p & m & [[= -> ->]|Hin]%elem_of_cons & ?); eauto 6.
  - intros [?|(p & m & ? & ?)]; [exists b, n|exists p, m]; set_solver.
Qed.

Lemma free_page_nil x : ~ free_page [] x.
Proof. unfold free_page. set_solver. Qed.

(** ** Allocation *)
Lemma carve_sep lo l b n r num :
  0 < num <= n -> sep lo (l ++ (b, n) :: r) -> sep lo (l ++ carve b n num ++ r).
Proof.
  intros Hn (Hl & Hlt & ? & ? & Hr)%sep_app. unfold carve. zcase. zcase; simpl.
  - apply sep_app. split_and!; try done; try lia.
    + intros p m Hin. specialize (Hlt p m Hin). lia.
    + eapply sep_weaken; [|done]. lia.
  - destruct r as [|[p m] r]; [by rewrite app_nil_r|]. simpl in Hr.
    apply sep_app. split_and!; try done; try lia; try tauto.
    intros q k Hin. specialize (Hlt q k Hin). lia.
Qed.

Lemma carve_total l b n r num :
  0 < num <= n -> total (l ++ carve b n num ++ r) = total (l ++ (b, n) :: r) - num.
Proof.
  intros. unfold carve. zcase. zcase; rewrite !total_app; simpl; lia.
Qed.

(** Allocation takes exactly the pages [b .. b + num - 1]. *)
Lemma carve_free_page lo l b n r num x :
  0 < num <= n -> sep lo (l ++ (b, n) :: r) ->
  free_page (l ++ carve b n num ++ r) x <->
  free_page (l ++ (b, n) :: r) x /\ ~ (b <= x < b + num).
Proof.
  intros Hn Hs. rewrite !free_page_app, free_page_cons.
  assert (Hl : free_page l x -> x < b).
  { intros (p & m & Hin & ?). apply sep_app in Hs as (_ & Hlt & _).
    specialize (Hlt p m Hin). lia. }
  assert (Hr : free_page r x -> b + n < x).
  { intros (p & m & Hin & ?). apply sep_app in Hs as (_ & _ & _ & _ & Hr).
    apply (sep_elem _ _ _ _ Hr) in Hin. lia. }
  assert (Hc : free_page (carve b n num) x <-> b + num <= x < b + n).
  { unfold carve. zcase. zcase; [rewrite free_page_cons|]; pose proof (free_page_nil x); split; intuition lia. }
  rewrite Hc. destruct (decide (b <= x < b + num)); intuition lia.
Qed.

(** ** Release *)
Lemma fits_tail b n p m r : fits b n ((p, m) :: r) -> fits b n r.
Proof. unfold fits. set_solver. Qed.

Lemma fits_head b n p m r : fits b n ((p, m) :: r) -> p + m <= b \/ b + n <= p.
Proof. unfold fits. set_solver. Qed.

(** After merging with its left neighbour the block still fits the rest. *)
Lemma fits_merge_left lo b n p m r :
  sep lo ((p, m) :: r) -> fits b n ((p, m) :: r) -> p + m = b -> 0 < n ->
  fits p (m + n) r.
Proof.
  simpl. intros (? & ? & Hs) Hf Heq ? q k Hin.
  apply (sep_elem _ _ _ _ Hs) in Hin as Hq. destruct (Hf q k); [set_solver|lia..].
Qed.

Lemma insert_block_sep lo b n bs :
  lo <= b -> 0 < n -> sep lo bs -> fits b n bs -> sep lo (insert_block b n bs).
Proof.
  revert lo b n. induction bs as [|[p m] r IH]; intros lo b n Hb Hn Hs Hf; simpl; [done|].
  pose proof (fits_head _ _ _ _ _ Hf) as Hh. pose proof (fits_tail _ _ _ _ _ Hf) as Ht.
  pose proof Hs as (Hp & Hm & Hr). repeat zcase; simpl; try (exfalso; lia).
  - split_and!; try lia. eapply sep_weaken; [|done]. lia.
  - apply IH; try lia; [|by eapply fits_merge_left]. eapply sep_weaken; [|done]. lia.
  - split_and!; try lia; done.
  - split_and!; try lia. apply IH; auto; lia.
Qed.

Lemma insert_block_total b n bs : total (insert_block b n bs) = total bs + n.
Proof.
  revert b n. induction bs as [|[p m] r IH]; intros b n; simpl; [lia|].
  repeat zcase; simpl; rewrite ?IH; lia.
Qed.

(** Release frees exactly the pages of the block, and nothing else changes. *)
Lemma insert_block_free_page lo b n bs x :
  0 < n -> sep lo bs -> fits b n bs ->
  free_page (insert_block b n bs) x <-> free_page bs x \/ b <= x < b + n.
Proof.
  revert lo b n. induction bs as [|[p m] r IH]; intros lo b n Hn Hs Hf; simpl.
  - rewrite free_page_cons. pose proof (free_page_nil x). tauto.
  - pose proof (fits_head _ _ _ _ _ Hf) as Hh. pose proof (fits_tail _ _ _ _ _ Hf) as Ht.
    pose proof Hs as (Hp & Hm & Hr).
    repeat zcase; try (exfalso; lia); rewrite !free_page_cons.
    + intuition lia.
    + rewrite (IH (p + m + 1)); [intuition lia|lia|done|by eapply fits_merge_left].
    + intuition lia.
    + rewrite (IH (p + m + 1)) by auto. tauto.
Qed.

(** Freeing what was just allocated restores the list of blocks. *)
Lemma insert_carve lo l b n r num :
  0 < num <= n -> sep lo (l ++ (b, n) :: r) ->
  insert_block b num (l ++ carve b n num ++ r) = l ++ (b, n) :: r.
Proof.
  intros Hn. revert lo. induction l as [|[p m] l IH]; intros lo Hs; simpl.
  - simpl in Hs. destruct Hs as (_ & _ & Hr). unfold carve. zcase. zcase; simpl.
    + rewrite Z.eqb_refl. do 2 f_equal. lia.
    + destruct r as [|[q k] r]; simpl in *; [repeat f_equal; lia|].
      destruct Hr as (? & ? & ?). repeat zcase; try lia. repeat f_equal; lia.
  - pose proof Hs as (Hp & Hm & Hs'). simpl in Hs. rewrite (IH (p + m + 1)) by done.
    apply sep_app in Hs' as (_ & _ & ? & ? & _). repeat zcase; try lia. done.
Qed.
