(* ===== verification/DefaultPmm.v ===== *)
(** * kern/mm/default_pmm.c: the contiguous page allocator

    The state of the allocator is the array [pages] of page descriptors (the
    fields it uses of [struct Page], kern/mm/memlayout.h), the heap of their
    [page_link] entries and [free_area.nr_free].  A [struct Page *] is the
    index of the descriptor in [pages]; the entry [&page->page_link] has the
    same index, so that [le2page] is the identity, and [&free_area.free_list]
    is the address [free_list]. *)
From S2P Require Import Prelude ListH Blocks.

Record Page := MkPage { ref : Z; flags : Z; property : Z }.

Record pmm := Pmm { pages : gmap Z Page; plinks : gmap Z list_entry; nr_free : Z }.

Definition free_list : Z := -1.
Definition PG_reserved : Z := 0.
Definition PG_property : Z := 1.

(** ** Descriptor accesses (memlayout.h, pmm.h, libs/atomic.h) *)
Definition page (st : pmm) (p : Z) : Page := default (MkPage 0 0 0) (pages st !! p).

Definition upd_page (p : Z) (f : Page -> Page) (st : pmm) : pmm :=
  Pmm (<[p := f (page st p)]> (pages st)) (plinks st) (nr_free st).

Definition upd_links (f : links -> links) (st : pmm) : pmm :=
  Pmm (pages st) (f (plinks st)) (nr_free st).

Definition set_nr_free (n : Z) (st : pmm) : pmm := Pmm (pages st) (plinks st) n.

Definition test_bit (nr v : Z) : bool := Z.testbit v nr.
Definition set_bit (nr v : Z) : Z := Z.setbit v nr.
Definition clear_bit (nr v : Z) : Z := Z.clearbit v nr.

Definition PageReserved (st : pmm) (p : Z) : bool := test_bit PG_reserved (flags (page st p)).
Definition PageProperty (st : pmm) (p : Z) : bool := test_bit PG_property (flags (page st p)).

Definition with_flags (fl : Z) (pg : Page) : Page := MkPage (ref pg) fl (property pg).
Definition with_property (n : Z) (pg : Page) : Page := MkPage (ref pg) (flags pg) n.
Definition with_ref (n : Z) (pg : Page) : Page := MkPage n (flags pg) (property pg).

Definition SetPageReserved (p : Z) (st : pmm) : pmm :=
  upd_page p (fun pg => with_flags (set_bit PG_reserved (flags pg)) pg) st.
Definition SetPageProperty (p : Z) (st : pmm) : pmm :=
  upd_page p (fun pg => with_flags (set_bit PG_property (flags pg)) pg) st.
Definition ClearPageProperty (p : Z) (st : pmm) : pmm :=
  upd_page p (fun pg => with_flags (clear_bit PG_property (flags pg)) pg) st.
Definition set_flags (p fl : Z) (st : pmm) : pmm := upd_page p (with_flags fl) st.
Definition set_property (p n : Z) (st : pmm) : pmm := upd_page p (with_property n) st.
Definition set_page_ref (p n : Z) (st : pmm) : pmm := upd_page p (with_ref n) st.

Definition prop_of (st : pmm) (p : Z) : Z := property (page st p).

(** ** Operations *)
Definition default_init (st : pmm) : pmm :=
  set_nr_free 0 (upd_links (list_init free_list) st).

(** The loop of [default_init_memmap] over [n] descriptors from [p]. *)
Fixpoint init_pages (n : nat) (p : Z) (st : pmm) : res pmm :=
  match n with
  | O => Ok st
  | S n =>
      _ ← kassert (PageReserved st p);
      init_pages n (p + 1) (set_page_ref p 0 (set_property p 0 (set_flags p 0 st)))
  end.

Definition default_init_memmap (base n : Z) (st : pmm) : res pmm :=
  _ ← kassert (0 <? n);
  st ← init_pages (Z.to_nat n) base st;
  let st := SetPageProperty base (set_property base n st) in
  let st := set_nr_free (u32 (nr_free st + n)) st in
  Ok (upd_links (list_add_before free_list base) st).

(** The scan loops of the three allocation policies.  [le] is the entry the
    loop stands on. *)
Fixpoint first_fit_scan (fuel : nat) (st : pmm) (num le : Z) : res (option Z) :=
  match fuel with
  | O => Spin
  | S fuel =>
      let le := list_next (plinks st) le in
      if le =? free_list then Ok None
      else if prop_of st le >=? num then Ok (Some le)
      else first_fit_scan fuel st num le
  end.

(** [legal_page_min_size] is an [int]; the comparison with the unsigned
    [property] converts it to unsigned. *)
Fixpoint best_fit_scan (fuel : nat) (st : pmm) (num le legal_page_min_size : Z)
    (page : option Z) : res (option Z) :=
  match fuel with
  | O => Spin
  | S fuel =>
      let le := list_next (plinks st) le in
      if le =? free_list then Ok page
      else if (prop_of st le >=? num) && (prop_of st le <? u32 legal_page_min_size)
      then best_fit_scan fuel st num le (i32 (prop_of st le)) (Some le)
      else best_fit_scan fuel st num le legal_page_min_size page
  end.

Fixpoint worst_fit_scan (fuel : nat) (st : pmm) (num le max_page_size : Z)
    (page : option Z) : res (option Z) :=
  match fuel with
  | O => Spin
  | S fuel =>
      let le := list_next (plinks st) le in
      if le =? free_list then Ok page
      else if (prop_of st le >=? num) && (prop_of st le >=? u32 max_page_size)
      then worst_fit_scan fuel st num le (i32 (prop_of st le)) (Some le)
      else worst_fit_scan fuel st num le max_page_size page
  end.

(** The tail the three policies share: unlink [page], give the rest of its
    block back to the list, account for the pages. *)
Definition take_block (page num : Z) (st : pmm) : pmm :=
  let st := upd_links (list_del page) st in
  let st :=
    if prop_of st page >? num then
      let p := page + num in
      let st := SetPageProperty p (set_property p (u32 (prop_of st page - num)) st) in
      upd_links (list_add_after page p) st
    else st in
  let st := upd_links (list_del page) st in
  let st := set_nr_free (u32 (nr_free st - num)) st in
  ClearPageProperty page st.

(** Fuel of the walks: a free list holds at most one entry per free page. *)
Definition walk_fuel (st : pmm) : nat := S (Z.to_nat (nr_free st)).

Definition alloc_with (scan : pmm -> res (option Z)) (num : Z) (st : pmm)
    : res (option Z * pmm) :=
  _ ← kassert (0 <? num);
  if num >? nr_free st then Ok (None, st)
  else
    page ← scan st;
    match page with
    | None => Ok (None, st)
    | Some p => Ok (Some p, take_block p num st)
    end.

Definition default_alloc_pages (num : Z) : pmm -> res (option Z * pmm) :=
  alloc_with (fun st => first_fit_scan (walk_fuel st) st num free_list) num.

Definition default_alloc_pages_best_fit (num : Z) : pmm -> res (option Z * pmm) :=
  alloc_with (fun st => best_fit_scan (walk_fuel st) st num free_list (i32 0x7ffffffff) None) num.

Definition default_alloc_pages_worst_fit (num : Z) : pmm -> res (option Z * pmm) :=
  alloc_with (fun st => worst_fit_scan (walk_fuel st) st num free_list 0 None) num.

(** The three loops of [default_free_pages]. *)
Fixpoint release_pages (n : nat) (p : Z) (st : pmm) : res pmm :=
  match n with
  | O => Ok st
  | S n =>
      _ ← kassert (negb (PageReserved st p) && negb (PageProperty st p));
      release_pages n (p + 1) (set_page_ref p 0 (set_flags p 0 st))
  end.

Fixpoint coalesce (fuel : nat) (le base : Z) (st : pmm) : res (Z * pmm) :=
  match fuel with
  | O => Spin
  | S fuel =>
      let le := list_next (plinks st) le in
      if le =? free_list then Ok (base, st)
      else
        let ptr := le in
        if base + prop_of st base =? ptr then
          let st := set_property base (u32 (prop_of st base + prop_of st ptr)) st in
          let st := ClearPageProperty ptr st in
          coalesce fuel le base (upd_links (list_del ptr) st)
        else if ptr + prop_of st ptr =? base then
          let st := set_property ptr (u32 (prop_of st ptr + prop_of st base)) st in
          let st := ClearPageProperty base st in
          coalesce fuel le ptr (upd_links (list_del ptr) st)
        else coalesce fuel le base st
  end.

Fixpoint find_place (fuel : nat) (le base : Z) (st : pmm) : res Z :=
  match fuel with
  | O => Spin
  | S fuel =>
      let le := list_next (plinks st) le in
      if le =? free_list then Ok le
      else
        let ptr := le in
        if base + prop_of st base <=? ptr then
          _ ← kassert (negb (base + prop_of st base =? ptr)); Ok le
        else find_place fuel le base st
  end.

Definition default_free_pages (base num : Z) (st : pmm) : res pmm :=
  _ ← kassert (0 <? num);
  st ← release_pages (Z.to_nat num) base st;
  let st := SetPageProperty base (set_property base num st) in
  '(base, st) ← coalesce (walk_fuel st) free_list base st;
  let st := set_nr_free (u32 (nr_free st + num)) st in
  le ← find_place (walk_fuel st) free_list base st;
  Ok (upd_links (list_add_before le base) st).

Definition default_nr_free_pages (st : pmm) : Z := nr_free st.

(** ** Self checks, on a machine with [npage] descriptors all reserved. *)
Fixpoint reserve_pages (n : nat) (st : pmm) : pmm :=
  match n with
  | O => st
  | S n => SetPageReserved (Z.of_nat n) (reserve_pages n st)
  end.

Definition boot (base n : Z) (npage : nat) : res pmm :=
  default_init_memmap base n (default_init (reserve_pages npage (Pmm ∅ ∅ 0))).

(** ** Field reads after writes *)
Section fields.
Implicit Types st : pmm.

Lemma page_upd p f st q :
  page (upd_page p f st) q = if decide (p = q) then f (page st p) else page st q.
Proof. unfold page, upd_page; simpl. rewrite lookup_insert. by case_decide. Qed.

Lemma page_upd_links f st q : page (upd_links f st) q = page st q.
Proof. done. Qed.
Lemma page_set_nr_free n st q : page (set_nr_free n st) q = page st q.
Proof. done. Qed.
Lemma plinks_upd_page p f st : plinks (upd_page p f st) = plinks st.
Proof. done. Qed.
Lemma nr_free_upd_page p f st : nr_free (upd_page p f st) = nr_free st.
Proof. done. Qed.
End fields.

Create Rewrite HintDb pmm.
#[export] Hint Rewrite page_upd page_upd_links page_set_nr_free plinks_upd_page nr_free_upd_page : pmm.

(** [pf]: evaluate descriptor reads after writes. *)
Ltac pf :=
  unfold prop_of, PageReserved, PageProperty, SetPageProperty, ClearPageProperty,
    set_flags, set_property, set_page_ref, test_bit, set_bit, clear_bit,
    PG_reserved, PG_property in *;
  autorewrite with pmm in *; simpl in *; repeat case_decide; subst; simpl;
  rewrite ?Z.setbit_eq, ?Z.clearbit_eq by lia;
  rewrite ?Z.setbit_neq, ?Z.clearbit_neq by lia; try done.

(** ** The abstraction

    [rep st bs]: the free list of [st] holds the blocks [bs]. *)
Record rep (st : pmm) (bs : list block) : Prop := {
  rep_ring : ring (plinks st) free_list bs.*1;
  rep_prop : forall b n, (b, n) ∈ bs -> prop_of st b = n;
  rep_sep : sep 0 bs;
  rep_nr : nr_free st = total bs;
  rep_max : total bs < 2 ^ 32 - 1;
  rep_res : forall x, free_page bs x -> PageReserved st x = false;
  rep_flag : forall x, free_page bs x -> PageProperty st x = bool_decide (x ∈ bs.*1)
}.

(** A page handed out: neither reserved nor the head of a free block. *)
Definition owned (st : pmm) (x : Z) : Prop := PageReserved st x = false /\ PageProperty st x = false.

Lemma rep_fuel st bs : rep st bs -> (length bs < walk_fuel st)%nat.
Proof.
  intros H. unfold walk_fuel. rewrite (rep_nr _ _ H).
  pose proof (sep_length_total _ _ (rep_sep _ _ H)). lia.
Qed.

Lemma rep_head st bs b n : rep st bs -> (b, n) ∈ bs -> b <> free_list.
Proof. intros H Hin. apply (sep_elem _ _ _ _ (rep_sep _ _ H)) in Hin. unfold free_list. lia. Qed.

(** ** The scans *)
Section scans.
Context (st : pmm) (num : Z).

(** Walking from behind [bs1]. *)
Definition at_cut (bs1 bs2 : list block) (le : Z) : Prop :=
  ring (plinks st) free_list (bs1 ++ bs2).*1 /\ le = List.last bs1.*1 free_list /\
  forall b n, (b, n) ∈ bs1 ++ bs2 -> prop_of st b = n /\ 0 <= n < 2 ^ 32 - 1.

Lemma at_cut_end bs1 le : at_cut bs1 [] le -> list_next (plinks st) le = free_list.
Proof.
  intros (Hr & -> & _). rewrite fmap_app in Hr. by apply (ring_step _ _ _ _ Hr).
Qed.

Lemma at_cut_step bs1 b n bs2 le :
  at_cut bs1 ((b, n) :: bs2) le ->
  list_next (plinks st) le = b /\ b <> free_list /\ prop_of st b = n /\ 0 <= n < 2 ^ 32 - 1 /\
  at_cut (bs1 ++ [(b, n)]) bs2 b.
Proof.
  intros (Hr & -> & Hp). pose proof Hr as Hr'. rewrite fmap_app in Hr'.
  destruct (Hp b n) as [Hpn Hbn]; [set_solver|].
  split; [by apply (ring_step _ _ _ _ Hr')|]. split_and!; try done; try lia.
  - apply ring_head_notin in Hr'. simpl in Hr'. set_solver.
  - unfold at_cut. rewrite <- app_assoc. simpl. split_and!; try done.
    rewrite fmap_app. simpl. by rewrite List.last_last.
Qed.

Lemma first_fit_scan_spec bs2 bs1 fuel le :
  (length bs2 < fuel)%nat -> at_cut bs1 bs2 le ->
  exists r, first_fit_scan fuel st num le = Ok r /\
    match r with
    | None => forall b n, (b, n) ∈ bs2 -> n < num
    | Some p => exists l n rr, bs2 = l ++ (p, n) :: rr /\ num <= n /\
                  forall b' n', (b', n') ∈ l -> n' < num
    end.
Proof.
  revert bs1 fuel le. induction bs2 as [|[b n] bs2 IH]; intros bs1 fuel le Hf Hc;
    (destruct fuel as [|fuel]; [simpl in Hf; lia|]); simpl.
  - rewrite (at_cut_end _ _ Hc), Z.eqb_refl. eexists; split; [done|]. set_solver.
  - destruct (at_cut_step _ _ _ _ _ Hc) as (-> & Hb & -> & Hn & Hc').
    rewrite (proj2 (Z.eqb_neq _ _) Hb). zcase. zcase.
    + eexists; split; [done|]. exists [], n, bs2. split_and!; [done|lia|set_solver].
    + destruct (IH _ fuel b ltac:(simpl in Hf; lia) Hc') as ([p|] & -> & Hr); (eexists; split; [done|]).
      * destruct Hr as (l & m & rr & -> & ? & Hl). exists ((b, n) :: l), m, rr.
        split_and!; [done..|]. intros b' n' [[= -> ->]|Hin]%elem_of_cons; eauto.
      * intros b' n' [[= -> ->]|Hin]%elem_of_cons; eauto.
Qed.

(** [cur] is the best choice among [bs] so far, [lim] the value of
    [legal_page_min_size]. *)
Definition best_in (bs : list block) (lim : Z) (cur : option Z) : Prop :=
  match cur with
  | None => u32 lim = 2 ^ 32 - 1 /\ forall b n, (b, n) ∈ bs -> n < num
  | Some p => exists n, u32 lim = n /\ (p, n) ∈ bs /\ num <= n /\
                forall b' n', (b', n') ∈ bs -> num <= n' -> n <= n'
  end.

Lemma best_in_skip bs b n lim cur :
  ~ (num <= n < u32 lim) -> n < 2 ^ 32 - 1 -> best_in bs lim cur -> best_in (bs ++ [(b, n)]) lim cur.
Proof.
  intros Hn Hm. destruct cur as [p|]; simpl.
  - intros (m & Hl & Hin & ? & Hb). exists m. split_and!; [done|set_solver|done|].
    intros b' n' [?|[= -> ->]%list_elem_of_singleton]%elem_of_app; [eauto|lia].
  - intros [Hl Hb]. split; [done|].
    intros b' n' [?|[= -> ->]%list_elem_of_singleton]%elem_of_app; [eauto|lia].
Qed.

Lemma best_in_take bs b n lim cur :
  num <= n < u32 lim -> 0 <= n < 2 ^ 32 - 1 -> best_in bs lim cur ->
  best_in (bs ++ [(b, n)]) (i32 n) (Some b).
Proof.
  intros Hn Hm Hb. exists n. rewrite u32_i32, u32_small by lia.
  split_and!; [done|set_solver|lia|].
  intros b' n' [Hin|[= -> ->]%list_elem_of_singleton]%elem_of_app Hn'; [|lia].
  destruct cur as [p|].
  - destruct Hb as (m & Hl & _ & _ & Hb). specialize (Hb _ _ Hin Hn'). lia.
  - destruct Hb as [_ Hb]. specialize (Hb _ _ Hin). lia.
Qed.

Lemma best_fit_scan_spec bs2 bs1 fuel le lim cur :
  (length bs2 < fuel)%nat -> at_cut bs1 bs2 le -> best_in bs1 lim cur ->
  exists lim' r, best_fit_scan fuel st num le lim cur = Ok r /\ best_in (bs1 ++ bs2) lim' r.
Proof.
  revert bs1 fuel le lim cur. induction bs2 as [|[b n] bs2 IH]; intros bs1 fuel le lim cur Hf Hc Hb;
    (destruct fuel as [|fuel]; [simpl in Hf; lia|]); simpl.
  - rewrite (at_cut_end _ _ Hc), Z.eqb_refl. rewrite app_nil_r. eauto.
  - destruct (at_cut_step _ _ _ _ _ Hc) as (-> & Hne & -> & Hn & Hc').
    rewrite (proj2 (Z.eqb_neq _ _) Hne).
    assert (Hsplit : bs1 ++ (b, n) :: bs2 = (bs1 ++ [(b, n)]) ++ bs2) by (by rewrite <- app_assoc).
    rewrite Hsplit. simpl in Hf. rewrite Z.geb_leb.
    destruct (num <=? n) eqn:E1; [destruct (n <? u32 lim) eqn:E2|]; simpl;
      (apply IH; [lia|done|]).
    + eapply best_in_take; eauto; lia.
    + apply best_in_skip; [lia..|done].
    + apply best_in_skip; [lia..|done].
Qed.

Definition worst_in (bs : list block) (lim : Z) (cur : option Z) : Prop :=
  match cur with
  | None => lim = 0 /\ forall b n, (b, n) ∈ bs -> n < num
  | Some p => exists n, u32 lim = n /\ (p, n) ∈ bs /\ num <= n /\
                forall b' n', (b', n') ∈ bs -> n' <= n
  end.

Lemma worst_fit_scan_spec bs2 bs1 fuel le lim cur :
  (length bs2 < fuel)%nat -> at_cut bs1 bs2 le -> worst_in bs1 lim cur ->
  exists lim' r, worst_fit_scan fuel st num le lim cur = Ok r /\ worst_in (bs1 ++ bs2) lim' r.
Proof.
  revert bs1 fuel le lim cur. induction bs2 as [|[b n] bs2 IH]; intros bs1 fuel le lim cur Hf Hc Hb;
    (destruct fuel as [|fuel]; [simpl in Hf; lia|]); simpl.
  - rewrite (at_cut_end _ _ Hc), Z.eqb_refl. rewrite app_nil_r. eauto.
  - destruct (at_cut_step _ _ _ _ _ Hc) as (-> & Hne & -> & Hn & Hc').
    rewrite (proj2 (Z.eqb_neq _ _) Hne).
    assert (Hsplit : bs1 ++ (b, n) :: bs2 = (bs1 ++ [(b, n)]) ++ bs2) by (by rewrite <- app_assoc).
    rewrite Hsplit. simpl in Hf. rewrite !Z.geb_leb.
    assert (Hw : forall b' n', (b', n') ∈ bs1 ++ [(b, n)] -> (b', n') ∈ bs1 \/ n' = n) by set_solver.
    destruct (num <=? n) eqn:E1; [destruct (u32 lim <=? n) eqn:E2|]; simpl;
      (apply IH; [lia|done|]); destruct cur as [p|]; simpl in *.
    + exists n. destruct Hb as (m & ? & ? & ? & Hb). rewrite u32_i32, u32_small by lia.
      split_and!; [done|set_solver|lia|].
      intros b' n' [Hin| ->]%Hw; [specialize (Hb _ _ Hin)|]; lia.
    + exists n. destruct Hb as [-> Hb]. rewrite u32_i32, u32_small by lia.
      split_and!; [done|set_solver|lia|].
      intros b' n' [Hin| ->]%Hw; [specialize (Hb _ _ Hin)|]; lia.
    + destruct Hb as (m & ? & ? & ? & Hb). exists m. split_and!; [done|set_solver|lia|].
      intros b' n' [Hin| ->]%Hw; [eauto|lia].
    + destruct Hb as [-> Hb]. change (u32 0) with 0 in E2. lia.
    + destruct Hb as (m & ? & ? & ? & Hb). exists m. split_and!; [done|set_solver|lia|].
      intros b' n' [Hin| ->]%Hw; [eauto|lia].
    + destruct Hb as [-> Hb]. split; [done|]. intros b' n' [Hin| ->]%Hw; [eauto|lia].
Qed.
End scans.

(** ** Taking a block *)
Lemma take_block_nr p num st : nr_free (take_block p num st) = u32 (nr_free st - num).
Proof. unfold take_block. by case_match. Qed.

Lemma take_block_page p num st x :
  0 < num ->
  page (take_block p num st) x =
    if decide (x = p) then with_flags (Z.clearbit (flags (page st p)) 1) (page st p)
    else if decide (x = p + num /\ num < prop_of st p) then
      MkPage (ref (page st x)) (Z.setbit (flags (page st x)) 1) (u32 (prop_of st p - num))
    else page st x.
Proof.
  intros Hn. unfold take_block, prop_of. rewrite Z.gtb_ltb.
  autorewrite with pmm. destruct (Z.ltb_spec num (property (page st p))); pf; try lia; tauto.
Qed.

Lemma take_block_links p num st l n r :
  rep st (l ++ (p, n) :: r) -> 0 < num <= n ->
  ring (plinks (take_block p num st)) free_list (l ++ carve p n num ++ r).*1.
Proof.
  intros Hrep Hn. pose proof (rep_ring _ _ Hrep) as Hr. rewrite fmap_app in Hr. simpl in Hr.
  assert (Hp : prop_of st p = n) by (apply (rep_prop _ _ Hrep); set_solver).
  pose proof (rep_sep _ _ Hrep) as Hs. apply sep_app in Hs as (Hl & Hlt & Hp0 & Hn0 & Hsr).
  unfold take_block, prop_of in *. autorewrite with pmm. rewrite Hp. unfold carve.
  rewrite Z.gtb_ltb. destruct (Z.ltb_spec num n); rewrite !fmap_app; simpl.
  - apply ring_replace; [done|]. rewrite not_elem_of_cons, not_elem_of_app, not_elem_of_cons.
    split_and!; try (unfold free_list; lia).
    + intros ([q k] & Hq & Hin)%list_elem_of_fmap. specialize (Hlt _ _ Hin).
      apply (sep_elem _ _ _ _ Hl) in Hin. simpl in *. lia.
    + intros ([q k] & Hq & Hin)%list_elem_of_fmap. apply (sep_elem _ _ _ _ Hsr) in Hin.
      simpl in *. lia.
  - by apply ring_del_twice.
Qed.

(** Heads of the blocks that remain, compared with the blocks before. *)
Lemma carve_heads l p n r num x :
  sep 0 (l ++ (p, n) :: r) -> 0 < num <= n -> free_page (l ++ carve p n num ++ r) x ->
  (x ∈ (l ++ carve p n num ++ r).*1 <->
   x <> p /\ (x ∈ (l ++ (p, n) :: r).*1 \/ x = p + num /\ num < n)).
Proof.
  intros Hs Hn Hx. apply (carve_free_page 0 l p n r num x Hn Hs) in Hx as [Hx Hnot].
  unfold carve. zcase. destruct (Z.ltb_spec num n); rewrite !fmap_app; simpl; set_solver by lia.
Qed.

Section take.
Context (st : pmm) (l r : list block) (p n num : Z).
Hypothesis Hrep : rep st (l ++ (p, n) :: r).
Hypothesis Hn : 0 < num <= n.

Lemma take_prop : prop_of st p = n.
Proof. apply (rep_prop _ _ Hrep). set_solver. Qed.

Lemma take_size : n <= total (l ++ (p, n) :: r).
Proof. apply (total_elem 0 _ p); [apply (rep_sep _ _ Hrep)|set_solver]. Qed.

Lemma take_free x : p <= x < p + n -> free_page (l ++ (p, n) :: r) x.
Proof. intros Hx. exists p, n. set_solver. Qed.

Lemma take_inner x : p < x < p + n -> x ∉ (l ++ (p, n) :: r).*1.
Proof.
  intros Hx ([q k] & -> & Hin)%list_elem_of_fmap. simpl in *.
  pose proof (sep_elem _ _ _ _ (rep_sep _ _ Hrep) Hin).
  destruct (sep_overlap 0 _ p n q k q (rep_sep _ _ Hrep)) as [-> _]; [set_solver|done|lia..].
Qed.

Lemma take_left x :
  free_page (l ++ carve p n num ++ r) x ->
  free_page (l ++ (p, n) :: r) x /\ ~ (p <= x < p + num).
Proof. intros Hx. apply (carve_free_page 0); [done|apply (rep_sep _ _ Hrep)|done]. Qed.

Lemma take_block_props b m :
  (b, m) ∈ l ++ carve p n num ++ r -> prop_of (take_block p num st) b = m.
Proof.
  intros Hin. unfold prop_of. rewrite take_block_page by lia. rewrite take_prop.
  pose proof (rep_prop _ _ Hrep) as Hp. pose proof (rep_sep _ _ Hrep) as Hs.
  apply elem_of_app in Hin as [Hin|[Hin|Hin]%elem_of_app].
  - repeat case_decide; [apply Hp; set_solver| |apply Hp; set_solver].
    exfalso. apply (take_inner b); [lia|]. apply list_elem_of_fmap. exists (b, m). set_solver.
  - unfold carve in Hin. rewrite Z.gtb_ltb in Hin.
    destruct (Z.ltb_spec num n); [|set_solver]. apply list_elem_of_singleton in Hin as [= -> ->].
    pose proof take_size. pose proof (rep_max _ _ Hrep).
    repeat case_decide; try lia. simpl. apply u32_small. lia.
  - apply sep_app in Hs as (_ & _ & _ & _ & Hsr). apply (sep_elem _ _ _ _ Hsr) in Hin as Hb.
    repeat case_decide; try lia. apply Hp. set_solver.
Qed.

Lemma take_block_flags x :
  free_page (l ++ carve p n num ++ r) x ->
  PageReserved (take_block p num st) x = false /\
  PageProperty (take_block p num st) x = bool_decide (x ∈ (l ++ carve p n num ++ r).*1).
Proof.
  intros Hx. destruct (take_left x Hx) as [Hx1 Hx2].
  pose proof (rep_res _ _ Hrep x Hx1) as Hres. pose proof (rep_flag _ _ Hrep x Hx1) as Hfl.
  pose proof (carve_heads _ _ _ _ _ _ (rep_sep _ _ Hrep) Hn Hx) as Hh.
  unfold PageReserved, PageProperty, test_bit, PG_reserved, PG_property in *.
  rewrite take_block_page by lia. rewrite take_prop.
  destruct (decide (x = p)) as [->|Hxp]; [lia|].
  destruct (decide (x = p + num /\ num < n)) as [Hq|Hq]; simpl.
  - rewrite Z.setbit_eq, Z.setbit_neq by lia. split; [done|].
    symmetry. apply bool_decide_eq_true. apply Hh. split; [done|]. right. tauto.
  - split; [done|]. rewrite Hfl. apply bool_decide_ext. rewrite Hh. intuition lia.
Qed.

Lemma take_block_rep : rep (take_block p num st) (l ++ carve p n num ++ r).
Proof.
  pose proof take_size. pose proof (rep_max _ _ Hrep). pose proof (rep_sep _ _ Hrep).
  split.
  - by apply take_block_links.
  - apply take_block_props.
  - by apply carve_sep.
  - rewrite take_block_nr, carve_total, (rep_nr _ _ Hrep) by lia. apply u32_small. lia.
  - rewrite carve_total by lia. lia.
  - intros x Hx. by apply take_block_flags.
  - intros x Hx. by apply take_block_flags.
Qed.

Lemma take_block_owned x : p <= x < p + num -> owned (take_block p num st) x.
Proof.
  intros Hx. assert (Hfx : free_page (l ++ (p, n) :: r) x) by (apply take_free; lia).
  pose proof (rep_res _ _ Hrep x Hfx) as Hres. pose proof (rep_flag _ _ Hrep x Hfx) as Hfl.
  unfold owned, PageReserved, PageProperty, test_bit, PG_reserved, PG_property in *.
  rewrite take_block_page by lia.
  destruct (decide (x = p)) as [->|Hxp]; simpl.
  - rewrite Z.clearbit_neq, Z.clearbit_eq by lia. done.
  - rewrite decide_False by lia. split; [done|]. rewrite Hfl.
    apply bool_decide_eq_false. apply take_inner. lia.
Qed.

Lemma take_block_frame x :
  ~ free_page (l ++ (p, n) :: r) x -> page (take_block p num st) x = page st x.
Proof.
  intros Hx. rewrite take_block_page by lia. rewrite take_prop.
  repeat case_decide; try done; exfalso; apply Hx; apply take_free; lia.
Qed.
End take.

(** ** Allocation *)

(** What allocation of [num] pages at block [(p, n)] guarantees. *)
Definition allocated (st st' : pmm) (bs : list block) (p num : Z) : Prop :=
  exists l n r, bs = l ++ (p, n) :: r /\ num <= n /\
    rep st' (l ++ carve p n num ++ r) /\
    (forall x, p <= x < p + num -> owned st' x) /\
    (forall x, ~ free_page bs x -> page st' x = page st x).

Lemma rep_at_cut st bs : rep st bs -> at_cut st [] bs free_list.
Proof.
  intros H. split_and!; [apply (rep_ring _ _ H)|done|].
  intros b n Hin. simpl in Hin. split; [by apply (rep_prop _ _ H)|].
  pose proof (total_elem _ _ _ _ (rep_sep _ _ H) Hin). pose proof (rep_max _ _ H).
  pose proof (sep_elem _ _ _ _ (rep_sep _ _ H) Hin). lia.
Qed.

Lemma take_allocated st bs p n num :
  rep st bs -> 0 < num <= n -> (p, n) ∈ bs -> allocated st (take_block p num st) bs p num.
Proof.
  intros Hrep Hn (l & r & ->)%list_elem_of_split. exists l, n, r.
  split_and!; [done|lia|by apply take_block_rep| |].
  - intros x. by eapply take_block_owned.
  - intros x. by apply take_block_frame.
Qed.

(** A request that the counter refuses cannot be served by any block. *)
Lemma over_total st bs num b n : rep st bs -> nr_free st < num -> (b, n) ∈ bs -> n < num.
Proof.
  intros H Hn Hin. pose proof (total_elem _ _ _ _ (rep_sep _ _ H) Hin).
  rewrite (rep_nr _ _ H) in Hn. lia.
Qed.

(** The frame every policy shares: its scan decides. *)
Lemma alloc_with_spec scan num st bs (Q : Z -> Z -> Prop) :
  rep st bs -> 0 < num ->
  (exists r, scan st = Ok r /\
     match r with
     | None => forall b n, (b, n) ∈ bs -> n < num
     | Some p => exists n, (p, n) ∈ bs /\ num <= n /\ Q p n
     end) ->
  exists r st', alloc_with scan num st = Ok (r, st') /\
    match r with
    | None => st' = st /\ forall b n, (b, n) ∈ bs -> n < num
    | Some p => allocated st st' bs p num /\ exists n, (p, n) ∈ bs /\ num <= n /\ Q p n
    end.
Proof.
  intros Hrep Hn (r & Hr & Hsp). unfold alloc_with. rewrite kassert_true by lia. simpl.
  rewrite Z.gtb_ltb. destruct (Z.ltb_spec (nr_free st) num).
  - exists None, st. split_and!; try done. eauto using over_total.
  - rewrite Hr. simpl. destruct r as [p|]; [|by exists None, st].
    exists (Some p), (take_block p num st). split; [done|].
    destruct Hsp as (n & Hin & Hle & HQ). split; [|eauto].
    apply (take_allocated _ _ p n); [done|lia|done].
Qed.

Lemma best_fit_alloc st bs num :
  rep st bs -> 0 < num ->
  exists r st', default_alloc_pages_best_fit num st = Ok (r, st') /\
    match r with
    | None => st' = st /\ forall b n, (b, n) ∈ bs -> n < num
    | Some p => allocated st st' bs p num /\ exists n, (p, n) ∈ bs /\ num <= n /\
                  forall b' n', (b', n') ∈ bs -> num <= n' -> n <= n'
    end.
Proof.
  intros Hrep Hn. unfold default_alloc_pages_best_fit.
  apply (alloc_with_spec _ num st bs (fun _ n =>
    forall b' n', (b', n') ∈ bs -> num <= n' -> n <= n')); [done..|].
  destruct (best_fit_scan_spec st num bs [] (walk_fuel st) free_list (i32 0x7ffffffff) None)
    as (lim & r & Hsc & Hb).
  - by apply rep_fuel.
  - by apply rep_at_cut.
  - split; [by vm_compute|set_solver].
  - exists r. split; [done|]. destruct r as [p|]; simpl in Hb; [|tauto].
    destruct Hb as (n & _ & ? & ? & ?). eauto.
Qed.

Lemma first_fit_alloc st bs num :
  rep st bs -> 0 < num ->
  exists r st', default_alloc_pages num st = Ok (r, st') /\
    match r with
    | None => st' = st /\ forall b n, (b, n) ∈ bs -> n < num
    | Some p => allocated st st' bs p num /\ exists n, (p, n) ∈ bs /\ num <= n /\
                  forall b' n', (b', n') ∈ bs -> num <= n' -> p <= b'
    end.
Proof.
  intros Hrep Hn. unfold default_alloc_pages.
  apply (alloc_with_spec _ num st bs (fun p n =>
    forall b' n', (b', n') ∈ bs -> num <= n' -> p <= b')); [done..|].
  destruct (first_fit_scan_spec st num bs [] (walk_fuel st) free_list) as (r & Hsc & Hr).
  - by apply rep_fuel.
  - by apply rep_at_cut.
  - exists r. split; [done|]. destruct r as [p|]; [|done].
    destruct Hr as (l & n & rr & -> & Hnn & Hl). exists n. split_and!; [set_solver|done|].
    intros b' n' Hin Hn'. pose proof (rep_sep _ _ Hrep) as (_ & _ & ? & ? & Hs)%sep_app.
    apply elem_of_app in Hin as [Hin|[[= -> ->]|Hin]%elem_of_cons].
    + specialize (Hl _ _ Hin). lia.
    + lia.
    + apply (sep_elem _ _ _ _ Hs) in Hin. lia.
Qed.

Lemma worst_fit_alloc st bs num :
  rep st bs -> 0 < num ->
  exists r st', default_alloc_pages_worst_fit num st = Ok (r, st') /\
    match r with
    | None => st' = st /\ forall b n, (b, n) ∈ bs -> n < num
    | Some p => allocated st st' bs p num /\ exists n, (p, n) ∈ bs /\ num <= n /\
                  forall b' n', (b', n') ∈ bs -> n' <= n
    end.
Proof.
  intros Hrep Hn. unfold default_alloc_pages_worst_fit.
  apply (alloc_with_spec _ num st bs (fun _ n =>
    forall b' n', (b', n') ∈ bs -> n' <= n)); [done..|].
  destruct (worst_fit_scan_spec st num bs [] (walk_fuel st) free_list 0 None)
    as (lim & r & Hsc & Hb).
  - by apply rep_fuel.
  - by apply rep_at_cut.
  - split; [done|set_solver].
  - exists r. split; [done|]. destruct r as [p|]; simpl in Hb; [|tauto].
    destruct Hb as (n & _ & ? & ? & ?). eauto.
Qed.

(** ** Release *)

(** The merging walk on the abstract view: the blocks that stay and the block
    being released. *)
Fixpoint absorb (bs : list block) (b n : Z) : list block * block :=
  match bs with
  | [] => ([], (b, n))
  | (p, m) :: r =>
      if b + n =? p then absorb r b (n + m)
      else if p + m =? b then absorb r p (m + n)
      else let '(r', x) := absorb r b n in ((p, m) :: r', x)
  end.

(** Insertion in address order without merging. *)
Fixpoint place (b n : Z) (bs : list block) : list block :=
  match bs with
  | [] => [(b, n)]
  | (p, m) :: r => if b + n <=? p then (b, n) :: (p, m) :: r else (p, m) :: place b n r
  end.

Lemma absorb_far lo b n bs : sep lo bs -> b + n < lo -> 0 < n -> absorb bs b n = (bs, (b, n)).
Proof.
  revert lo. induction bs as [|[p m] r IH]; intros lo; simpl; [done|].
  intros (? & ? & Hs) ? ?. repeat zcase; try lia. rewrite (IH _ Hs) by lia. done.
Qed.

Lemma place_far lo b n bs : sep lo bs -> b + n <= lo -> place b n bs = (b, n) :: bs.
Proof. destruct bs as [|[p m] r]; simpl; [done|]. intros (? & ? & ?) ?. zcase; [done|lia]. Qed.

Lemma absorb_base lo b n bs : lo <= b -> sep lo bs -> lo <= (absorb bs b n).2.1.
Proof.
  revert lo b n. induction bs as [|[p m] r IH]; intros lo b n Hb; simpl; [done|].
  intros (? & ? & Hs). repeat zcase.
  - apply IH; [lia|]. eapply sep_weaken; [|done]. lia.
  - apply IH; [lia|]. eapply sep_weaken; [|done]. lia.
  - specialize (IH lo b n). destruct (absorb r b n) as [r' x]; simpl in *.
    apply IH; [lia|]. eapply sep_weaken; [|done]. lia.
Qed.

Lemma absorb_size lo b n bs : 0 < n -> sep lo bs -> 0 < (absorb bs b n).2.2.
Proof.
  revert lo b n. induction bs as [|[p m] r IH]; intros lo b n Hn; simpl; [done|].
  intros (? & ? & Hs). repeat zcase; [eapply IH; [lia|done]..|].
  specialize (IH _ b n Hn Hs). by destruct (absorb r b n) as [r' x].
Qed.

(** Absorb, then place: the released block as the specification inserts it. *)
Lemma absorb_place lo b n bs :
  0 < n -> sep lo bs -> fits b n bs ->
  (let '(bs', (b', n')) := absorb bs b n in place b' n' bs') = insert_block b n bs.
Proof.
  revert lo b n. induction bs as [|[p m] r IH]; intros lo b n Hn Hs Hf; simpl; [done|].
  pose proof (fits_head _ _ _ _ _ Hf) as Hh. pose proof (fits_tail _ _ _ _ _ Hf) as Ht.
  pose proof Hs as (Hp & Hm & Hr). repeat zcase; try (exfalso; lia).
  - rewrite (absorb_far (p + m + 1)) by (done || lia). rewrite (place_far (p + m + 1)) by (done || lia). done.
  - apply (IH (p + m + 1)); [lia|done|by eapply fits_merge_left].
  - rewrite (absorb_far (p + m + 1)) by (done || lia). simpl. zcase; [done|lia].
  - specialize (IH (p + m + 1) b n Hn Hr Ht).
    pose proof (absorb_base (p + m + 1) b n r ltac:(lia) Hr) as Hx.
    pose proof (absorb_size (p + m + 1) b n r Hn Hr) as Hy.
    destruct (absorb r b n) as [r' [b' n']]; simpl in *.
    zcase; [lia|]. by rewrite IH.
Qed.

Lemma absorb_elem bs b n :
  (absorb bs b n).2.1 ∈ b :: bs.*1 /\ (forall q, q ∈ (absorb bs b n).1 -> q ∈ bs).
Proof.
  revert b n. induction bs as [|[p m] r IH]; intros b n; simpl; [set_solver|]. repeat zcase.
  - destruct (IH b (n + m)) as [H1 H2]. set_solver.
  - destruct (IH p (m + n)) as [H1 H2]. set_solver.
  - destruct (IH b n) as [H1 H2]. destruct (absorb r b n) as [r' x]; simpl in *. set_solver.
Qed.

(** The walk may go on: it stands before [bs2], the block [(b, n)] being
    released is not on the list. *)
Record merging (st : pmm) (bs1 bs2 : list block) (le b n : Z) : Prop := {
  mg_ring : ring (plinks st) free_list (bs1 ++ bs2).*1;
  mg_next : list_next (plinks st) le = hd free_list bs2.*1;
  mg_base : b ∉ free_list :: (bs1 ++ bs2).*1;
  mg_prop : prop_of st b = n;
  mg_props : forall p m, (p, m) ∈ bs2 -> prop_of st p = m /\ 0 < m;
  mg_size : 0 < n /\ n + total bs2 < 2 ^ 32;
  mg_flag : forall x, x ∈ b :: bs2.*1 -> PageProperty st x = true
}.

(** Where it ends: [rest] stays on the list, [(b', n')] is the merged block. *)
Record merged (st st' : pmm) (bs1 bs2 rest : list block) (b b' n' : Z) : Prop := {
  md_ring : ring (plinks st') free_list (bs1 ++ rest).*1;
  md_base : b' ∉ free_list :: (bs1 ++ rest).*1;
  md_prop : prop_of st' b' = n';
  md_props : forall p m, (p, m) ∈ rest -> prop_of st' p = m;
  md_nr : nr_free st' = nr_free st;
  md_res : forall x, PageReserved st' x = PageReserved st x;
  md_frame : forall x, x ∉ b :: bs2.*1 -> page st' x = page st x;
  md_flag : forall x, x ∈ b :: bs2.*1 -> PageProperty st' x = bool_decide (x ∈ b' :: rest.*1)
}.

(** Taking block [(p, m)] off the list into the released block: the merged
    block is headed by [b'], the other head [o] loses its flag. *)
Definition fuse (b' o p s : Z) (st : pmm) : pmm :=
  upd_links (list_del p) (ClearPageProperty o (set_property b' s st)).

Lemma fuse_page b' o p s st x :
  b' <> o ->
  page (fuse b' o p s st) x =
    if decide (x = b') then with_property s (page st b')
    else if decide (x = o) then with_flags (Z.clearbit (flags (page st o)) 1) (page st o)
    else page st x.
Proof. intros. unfold fuse. pf. Qed.

Lemma merging_nodup st bs1 p m r le b n :
  merging st bs1 ((p, m) :: r) le b n ->
  p <> b /\ p ∉ r.*1 /\ b ∉ r.*1 /\ p ∉ free_list :: (bs1 ++ r).*1 /\ b ∉ free_list :: (bs1 ++ r).*1.
Proof.
  intros H. pose proof (mg_base _ _ _ _ _ _ H) as Hb. destruct (mg_ring _ _ _ _ _ _ H) as [Hnd _].
  rewrite !fmap_app in *. simpl in *. apply NoDup_cons in Hnd as [Hh Hnd].
  apply NoDup_app in Hnd as (_ & Hd & Hnd). apply NoDup_cons in Hnd as [Hp Hnd].
  split_and!; set_solver.
Qed.

(** Fusing keeps the walk going, for the left ([b' = p]) and the right
    ([b' = b]) neighbour alike. *)
Lemma fuse_merging st bs1 p m r le b n b' o s :
  merging st bs1 ((p, m) :: r) le b n ->
  (b' = b /\ o = p \/ b' = p /\ o = b) -> s = n + m ->
  merging (fuse b' o p s st) bs1 r p b' s.
Proof.
  intros H Hor ->. destruct (merging_nodup _ _ _ _ _ _ _ _ H) as (Hpb & Hpr & Hbr & Hp1 & Hb1).
  pose proof (mg_size _ _ _ _ _ _ H) as [Hn Hmax]. simpl in Hmax.
  destruct (mg_props _ _ _ _ _ _ H p m) as [Hpm Hm]; [set_solver|].
  assert (Hbo : b' <> o) by (destruct Hor as [[-> ->]|[-> ->]]; congruence).
  assert (Hr : ring (plinks st) free_list (bs1.*1 ++ p :: r.*1)).
  { pose proof (mg_ring _ _ _ _ _ _ H) as Hr. by rewrite fmap_app in Hr. }
  split.
  - rewrite fmap_app. by apply ring_del.
  - apply (ring_del_next _ _ _ _ _ Hr).
  - destruct Hor as [[-> ->]|[-> ->]]; done.
  - unfold prop_of. rewrite fuse_page by done. by case_decide.
  - intros q k Hin. destruct (mg_props _ _ _ _ _ _ H q k) as [Hq Hk]; [set_solver|].
    split; [|done]. assert (q ∈ r.*1) by (apply list_elem_of_fmap; by exists (q, k)).
    unfold prop_of in *. rewrite fuse_page by done.
    destruct Hor as [[-> ->]|[-> ->]]; repeat case_decide; subst; done.
  - lia.
  - intros x Hx. pose proof (mg_flag _ _ _ _ _ _ H x) as Hfl.
    unfold PageProperty, test_bit, PG_property in *. rewrite fuse_page by done.
    destruct Hor as [[-> ->]|[-> ->]]; (case_decide; [subst; apply Hfl; set_solver|]);
      (case_decide; [set_solver|]); apply Hfl; set_solver.
Qed.

Lemma fuse_merged st st' bs1 p m r rest le b n b' o s fb fn :
  merging st bs1 ((p, m) :: r) le b n ->
  (b' = b /\ o = p \/ b' = p /\ o = b) ->
  fb ∈ b' :: r.*1 -> (forall q, q ∈ rest -> q ∈ r) ->
  merged (fuse b' o p s st) st' bs1 r rest b' fb fn ->
  merged st st' bs1 ((p, m) :: r) rest b fb fn.
Proof.
  intros H Hor Hfb Hsub [M1 M2 M3 M4 M5 M6 M7 M8].
  destruct (merging_nodup _ _ _ _ _ _ _ _ H) as (Hpb & Hpr & Hbr & Hp1 & Hb1).
  assert (Hbo : b' <> o) by (destruct Hor as [[-> ->]|[-> ->]]; congruence).
  assert (Hor' : o ∉ b' :: r.*1) by (destruct Hor as [[-> ->]|[-> ->]]; set_solver).
  assert (Hrest : o ∉ rest.*1) by (intros ([q k] & -> & Hin%Hsub)%list_elem_of_fmap; set_solver).
  split; try done.
  - intros x. rewrite M6. unfold PageReserved, test_bit, PG_reserved. rewrite fuse_page by done.
    repeat case_decide; subst; simpl; rewrite ?Z.clearbit_neq by lia; done.
  - intros x Hx. rewrite M7, fuse_page by (done || destruct Hor as [[-> ->]|[-> ->]]; set_solver).
    destruct Hor as [[-> ->]|[-> ->]]; repeat case_decide; subst; set_solver.
  - intros x Hx. destruct (decide (x = o)) as [->|Hxo].
    + unfold PageProperty, test_bit, PG_property. rewrite M7, fuse_page by done.
      rewrite decide_False, decide_True by congruence. simpl. rewrite Z.clearbit_eq by lia.
      symmetry. apply bool_decide_eq_false. set_solver.
    + apply M8. destruct Hor as [[-> ->]|[-> ->]]; set_solver.
Qed.

Lemma skip_merging st bs1 p m r le b n :
  merging st bs1 ((p, m) :: r) le b n -> merging st (bs1 ++ [(p, m)]) r p b n.
Proof.
  intros H. destruct (merging_nodup _ _ _ _ _ _ _ _ H) as (Hpb & Hpr & Hbr & Hp1 & Hb1).
  destruct (mg_props _ _ _ _ _ _ H p m) as [_ Hm]; [set_solver|].
  destruct H as [Hr Hnx Hb Hpn Hps Hsz Hfl]. simpl in Hsz.
  split; try done; try (rewrite <- app_assoc; done).
  - rewrite fmap_app in Hr. apply (ring_next _ _ _ _ _ Hr).
  - intros q k Hin. apply Hps. set_solver.
  - lia.
  - intros x Hx. apply Hfl. set_solver.
Qed.

Lemma skip_merged st st' bs1 p m r rest le b n fb fn :
  merging st bs1 ((p, m) :: r) le b n ->
  merged st st' (bs1 ++ [(p, m)]) r rest b fb fn ->
  merged st st' bs1 ((p, m) :: r) ((p, m) :: rest) b fb fn.
Proof.
  intros H [M1 M2 M3 M4 M5 M6 M7 M8].
  destruct (merging_nodup _ _ _ _ _ _ _ _ H) as (Hpb & Hpr & Hbr & Hp1 & Hb1).
  rewrite <- app_assoc in M1, M2. simpl in M1, M2.
  assert (Hpp : page st' p = page st p) by (apply M7; set_solver).
  split; try done.
  - intros q k [[= -> ->]|Hin]%elem_of_cons; [|eauto].
    unfold prop_of. rewrite Hpp. apply (mg_props _ _ _ _ _ _ H p m). set_solver.
  - intros x Hx. apply M7. set_solver.
  - intros x Hx. destruct (decide (x = p)) as [->|Hxp].
    + pose proof (mg_flag _ _ _ _ _ _ H p) as Hfl. unfold PageProperty in *. rewrite Hpp.
      rewrite Hfl by set_solver. symmetry. apply bool_decide_eq_true. set_solver.
    + rewrite M8 by set_solver. apply bool_decide_ext. set_solver.
Qed.

(** The merging loop refines [absorb]. *)
Lemma coalesce_spec bs2 bs1 fuel le b n st :
  (length bs2 < fuel)%nat -> merging st bs1 bs2 le b n ->
  exists st', coalesce fuel le b st = Ok ((absorb bs2 b n).2.1, st') /\
    merged st st' bs1 bs2 (absorb bs2 b n).1 b (absorb bs2 b n).2.1 (absorb bs2 b n).2.2.
Proof.
  revert bs1 fuel le b n st. induction bs2 as [|[p m] r IH]; intros bs1 fuel le b n st Hf H;
    (destruct fuel as [|fuel]; [simpl in Hf; lia|]); simpl in Hf |- *;
    rewrite (mg_next _ _ _ _ _ _ H); simpl.
  - rewrite ?Z.eqb_refl. exists st. split; [done|]. destruct H as [Hr Hnx Hb Hpn Hps Hsz Hfl].
    split; try done; [set_solver|]. intros x Hx. rewrite Hfl by done. symmetry.
    by apply bool_decide_eq_true.
  - pose proof (ring_head_notin _ _ _ (mg_ring _ _ _ _ _ _ H)) as Hh. rewrite fmap_app in Hh.
    destruct (mg_props _ _ _ _ _ _ H p m) as [Hpm Hm]; [set_solver|].
    rewrite (proj2 (Z.eqb_neq p free_list)) by (simpl in Hh; set_solver).
    rewrite (mg_prop _ _ _ _ _ _ H), Hpm. pose proof (mg_size _ _ _ _ _ _ H) as [Hn Hmax].
    simpl in Hmax. assert (0 <= total r).
    { apply total_pos. intros q k Hin. apply (mg_props _ _ _ _ _ _ H q k). set_solver. }
    destruct (Z.eqb_spec (b + n) p); [|destruct (Z.eqb_spec (p + m) b)].
    + rewrite u32_small by lia. fold (fuse b p p (n + m) st).
      destruct (IH bs1 fuel p b (n + m) (fuse b p p (n + m) st)) as (st' & He & Hd); 
        [lia|eapply fuse_merging; [done|by left|done]|].
      exists st'. split; [done|]. destruct (absorb_elem r b (n + m)) as [He1 He2].
      eapply fuse_merged; [exact H|left; split; reflexivity| | |exact Hd]; done.
    + rewrite u32_small by lia. fold (fuse p b p (m + n) st).
      destruct (IH bs1 fuel p p (m + n) (fuse p b p (m + n) st)) as (st' & He & Hd);
        [lia|eapply fuse_merging; [done|by right|lia]|].
      exists st'. split; [done|]. destruct (absorb_elem r p (m + n)) as [He1 He2].
      eapply fuse_merged; [exact H|right; split; reflexivity| | |exact Hd]; done.
    + destruct (IH (bs1 ++ [(p, m)]) fuel p b n st) as (st' & He & Hd); [lia|by eapply skip_merging|].
      exists st'. destruct (absorb r b n) as [rest [fb fn]]; simpl in *. split; [done|].
      eapply skip_merged; eauto.
Qed.

(** Clearing the descriptors of the block. *)
Lemma release_pages_spec n p st :
  (forall x, p <= x < p + Z.of_nat n -> owned st x) ->
  exists st', release_pages n p st = Ok st' /\ plinks st' = plinks st /\ nr_free st' = nr_free st /\
    forall x, page st' x =
      if decide (p <= x < p + Z.of_nat n) then MkPage 0 0 (prop_of st x) else page st x.
Proof.
  revert p st. induction n as [|n IH]; intros p st Ho; simpl.
  - exists st. split_and!; try done. intros x. by rewrite decide_False by lia.
  - destruct (Ho p) as [Hr Hp]; [lia|]. rewrite kassert_true by (by rewrite Hr, Hp). simpl.
    assert (Hpg : forall x, page (set_page_ref p 0 (set_flags p 0 st)) x =
                     if decide (x = p) then MkPage 0 0 (prop_of st p) else page st x).
    { intros x. pf. }
    destruct (IH (p + 1) (set_page_ref p 0 (set_flags p 0 st))) as (st' & -> & Hl & Hn & Hx).
    + intros x Hx. specialize (Ho x ltac:(lia)). unfold owned, PageReserved, PageProperty in *.
      by rewrite Hpg, decide_False by lia.
    + exists st'. split_and!; try done. intros x. rewrite Hx. unfold prop_of. rewrite Hpg.
      destruct (decide (x = p)) as [->|?]; repeat case_decide; try done; lia.
Qed.

Lemma find_place_spec st b n bs2 bs1 fuel le :
  (length bs2 < fuel)%nat -> ring (plinks st) free_list (bs1 ++ bs2).*1 ->
  le = List.last bs1.*1 free_list -> prop_of st b = n ->
  (forall p m, (p, m) ∈ bs2 -> b + n <> p) ->
  exists l r, bs2 = l ++ r /\ place b n bs2 = l ++ (b, n) :: r /\
    find_place fuel le b st = Ok (hd free_list r.*1).
Proof.
  revert bs1 fuel le. induction bs2 as [|[p m] r IH]; intros bs1 fuel le Hf Hr -> Hb Hne;
    (destruct fuel as [|fuel]; [simpl in Hf; lia|]); cbn [find_place];
    rewrite fmap_app in Hr; rewrite (ring_step _ _ _ _ Hr); simpl in *.
  - by exists [], [].
  - rewrite (proj2 (Z.eqb_neq p free_list)) by (apply ring_head_notin in Hr; set_solver).
    rewrite Hb. destruct (Z.leb_spec (b + n) p) as [Hle|Hlt].
    + assert (b + n <> p) by (apply (Hne p m); set_solver).
      exists [], ((p, m) :: r). split_and!; [done..|].
      by rewrite (proj2 (Z.eqb_neq (b + n) p)).
    + destruct (IH (bs1 ++ [(p, m)]) fuel p) as (l & rr & -> & Hpl & Hfp); [lia| | |done|set_solver|].
      * by rewrite <- app_assoc, fmap_app.
      * rewrite fmap_app. simpl. by rewrite List.last_last.
      * exists ((p, m) :: l), rr. simpl. by rewrite Hpl.
Qed.

Lemma place_elem b n bs q : q ∈ place b n bs <-> q = (b, n) \/ q ∈ bs.
Proof.
  induction bs as [|[p m] r IH]; simpl; [set_solver|]. zcase; [set_solver|].
  rewrite elem_of_cons, IH. set_solver.
Qed.

Lemma sep_gap lo bs b n p m : sep lo bs -> (b, n) ∈ bs -> (p, m) ∈ bs -> b + n <> p.
Proof.
  revert lo. induction bs as [|[q k] r IH]; intros lo; simpl; [set_solver|].
  intros (? & ? & Hs) Hb Hp.
  apply elem_of_cons in Hb as [Hb|Hb]; apply elem_of_cons in Hp as [Hp|Hp]; simplify_eq; [lia| | |eauto].
  - apply (sep_elem _ _ _ _ Hs) in Hp. lia.
  - apply (sep_elem _ _ _ _ Hs) in Hb. lia.
Qed.

Section release.
Context (st : pmm) (bs : list block) (base num : Z).
Hypothesis Hrep : rep st bs.
Hypothesis Hnum : 0 < num.
Hypothesis Hbase : 0 <= base.
Hypothesis Hfit : fits base num bs.
Hypothesis Hown : forall x, base <= x < base + num -> owned st x.
Hypothesis Hmax : total bs + num < 2 ^ 32 - 1.

Lemma release_heads x : x ∈ bs.*1 -> ~ (base <= x < base + num).
Proof.
  intros ([p m] & -> & Hin)%list_elem_of_fmap. simpl.
  destruct (Hfit _ _ Hin); [|lia]. apply (sep_elem _ _ _ _ (rep_sep _ _ Hrep)) in Hin. lia.
Qed.

Lemma release_free x : free_page bs x -> ~ (base <= x < base + num).
Proof. intros (p & m & Hin & ?). destruct (Hfit _ _ Hin); lia. Qed.

(** The state in which the merging loop starts. *)
Lemma release_start :
  exists st0, release_pages (Z.to_nat num) base st = Ok st0 /\
    let st1 := SetPageProperty base (set_property base num st0) in
    merging st1 [] bs free_list base num /\ nr_free st1 = nr_free st /\
    (forall x, ~ (base <= x < base + num) -> page st1 x = page st x) /\
    (forall x, base <= x < base + num -> PageReserved st1 x = false /\
       PageProperty st1 x = bool_decide (x = base)).
Proof.
  destruct (release_pages_spec (Z.to_nat num) base st) as (st0 & Hr & Hl & Hn & Hx).
  { intros x. rewrite Z2Nat.id by lia. apply Hown. }
  rewrite Z2Nat.id in Hx by lia. exists st0. split; [done|].
  assert (Hout : forall x, ~ (base <= x < base + num) ->
            page (SetPageProperty base (set_property base num st0)) x = page st x).
  { intros x Hnx. pf; [lia|]. rewrite Hx. by rewrite decide_False. }
  assert (Hin : forall x, base <= x < base + num ->
            PageReserved (SetPageProperty base (set_property base num st0)) x = false /\
            PageProperty (SetPageProperty base (set_property base num st0)) x = bool_decide (x = base)).
  { intros x Hb. unfold PageReserved, PageProperty, SetPageProperty, set_property, set_bit, test_bit,
      PG_reserved, PG_property. rewrite !page_upd, !Hx, !(decide_True (P := base <= _ < _)) by lia.
    destruct (decide (base = x)) as [->|Hne].
    - rewrite !decide_True by done. simpl. rewrite Z.setbit_neq, Z.setbit_eq by lia.
      split; [done|]. symmetry. by apply bool_decide_eq_true.
    - simpl. rewrite !Z.bits_0. split; [done|]. symmetry. apply bool_decide_eq_false. congruence. }
  split_and!; [|done..]. split.
  - simpl. rewrite Hl. apply (rep_ring _ _ Hrep).
  - simpl. rewrite Hl. apply (ring_head_next _ _ _ (rep_ring _ _ Hrep)).
  - simpl. intros [Hf|Hf]%elem_of_cons; [unfold free_list in Hf; lia|].
    apply release_heads in Hf. lia.
  - pf.
  - intros p m Hp. split; [|apply (sep_elem _ _ _ _ (rep_sep _ _ Hrep) Hp)].
    unfold prop_of. rewrite Hout; [apply (rep_prop _ _ Hrep _ _ Hp)|].
    apply release_heads. apply list_elem_of_fmap. by exists (p, m).
  - pose proof (rep_max _ _ Hrep). lia.
  - intros x [->|Hh]%elem_of_cons.
    + destruct (Hin base) as [_ ->]; [lia|]. by apply bool_decide_eq_true.
    + unfold PageProperty. rewrite Hout by (by apply release_heads).
      fold (PageProperty st x). rewrite (rep_flag _ _ Hrep); [by apply bool_decide_eq_true|].
      apply list_elem_of_fmap in Hh as ([p m] & -> & Hp).
      apply (sep_elem _ _ _ _ (rep_sep _ _ Hrep)) in Hp as Hs. exists p, m. simpl. split; [done|lia].
Qed.

(** The blocks the merging loop leaves, put in order. *)
Lemma release_blocks :
  place (absorb bs base num).2.1 (absorb bs base num).2.2 (absorb bs base num).1 =
  insert_block base num bs.
Proof.
  pose proof (absorb_place 0 base num bs Hnum (rep_sep _ _ Hrep) Hfit) as H.
  by destruct (absorb bs base num) as [rest [b' n']].
Qed.

Lemma release_sep : sep 0 (insert_block base num bs).
Proof. apply insert_block_sep; [done..|apply (rep_sep _ _ Hrep)|done]. Qed.

Lemma release_flags st1 st2 rest b' n' x :
  (forall x, ~ (base <= x < base + num) -> page st1 x = page st x) ->
  (forall x, base <= x < base + num -> PageReserved st1 x = false /\
     PageProperty st1 x = bool_decide (x = base)) ->
  merged st1 st2 [] bs rest base b' n' ->
  b' ∈ base :: bs.*1 -> (forall q, q ∈ rest -> q ∈ bs) ->
  free_page bs x \/ base <= x < base + num ->
  PageReserved st2 x = false /\ PageProperty st2 x = bool_decide (x ∈ b' :: rest.*1).
Proof.
  intros Hout Hin M Hb' Hsub Hx. split.
  - rewrite (md_res _ _ _ _ _ _ _ _ M). destruct (decide (base <= x < base + num)) as [Hi|Hi].
    + apply (Hin x Hi).
    + unfold PageReserved. rewrite Hout by done. destruct Hx as [Hx|Hx]; [|done].
      apply (rep_res _ _ Hrep x Hx).
  - destruct (decide (x ∈ base :: bs.*1)) as [Hh|Hh]; [by apply (md_flag _ _ _ _ _ _ _ _ M)|].
    rewrite (bool_decide_eq_false_2 (x ∈ b' :: rest.*1)).
    + unfold PageProperty. rewrite (md_frame _ _ _ _ _ _ _ _ M x Hh).
      destruct (decide (base <= x < base + num)) as [Hi|Hi].
      * destruct (Hin x Hi) as [_ Hp]. unfold PageProperty in Hp. rewrite Hp.
        apply bool_decide_eq_false. set_solver.
      * rewrite Hout by done. destruct Hx as [Hx|Hx]; [|done].
        fold (PageProperty st x). rewrite (rep_flag _ _ Hrep x Hx).
        apply bool_decide_eq_false. set_solver.
    + intros [->|([p m] & -> & Hp%Hsub)%list_elem_of_fmap]%elem_of_cons; [done|].
      apply Hh. right. apply list_elem_of_fmap. by exists (p, m).
Qed.

(** The end of the call, from the state the merging loop leaves. *)
Section finish.
Context (st1 st2 : pmm) (rest : list block) (b' n' : Z).
Hypothesis Hn1 : nr_free st1 = nr_free st.
Hypothesis Hout : forall x, ~ (base <= x < base + num) -> page st1 x = page st x.
Hypothesis Hin : forall x, base <= x < base + num -> PageReserved st1 x = false /\
   PageProperty st1 x = bool_decide (x = base).
Hypothesis M : merged st1 st2 [] bs rest base b' n'.
Hypothesis Habs : absorb bs base num = (rest, (b', n')).

Definition counted : pmm := set_nr_free (u32 (nr_free st2 + num)) st2.

Lemma finish_blocks : insert_block base num bs = place b' n' rest.
Proof. pose proof release_blocks as Hbl. by rewrite Habs in Hbl. Qed.

Lemma finish_nr : nr_free counted = total bs + num.
Proof.
  simpl. rewrite (md_nr _ _ _ _ _ _ _ _ M), Hn1, (rep_nr _ _ Hrep). apply u32_small.
  pose proof (total_nonneg _ _ (rep_sep _ _ Hrep)). lia.
Qed.

Lemma place_length b n l : length (place b n l) = S (length l).
Proof. induction l as [|[p m] l IH]; simpl; [done|]. zcase; simpl; lia. Qed.

Lemma finish_find :
  exists l r, rest = l ++ r /\ insert_block base num bs = l ++ (b', n') :: r /\
    find_place (walk_fuel counted) free_list b' counted = Ok (hd free_list r.*1).
Proof.
  rewrite finish_blocks. apply (find_place_spec counted b' n' rest []).
  - unfold walk_fuel. rewrite finish_nr, <- (insert_block_total base num).
    pose proof (sep_length_total _ _ release_sep) as Hlen.
    rewrite finish_blocks, place_length in *. lia.
  - apply (md_ring _ _ _ _ _ _ _ _ M).
  - done.
  - apply (md_prop _ _ _ _ _ _ _ _ M).
  - intros p m Hp. pose proof release_sep as Hsep. rewrite finish_blocks in Hsep.
    apply (sep_gap 0 (place b' n' rest) b' n' p m Hsep); apply place_elem; auto.
Qed.

Lemma finish_rep l r :
  rest = l ++ r -> insert_block base num bs = l ++ (b', n') :: r ->
  rep (upd_links (list_add_before (hd free_list r.*1) b') counted) (insert_block base num bs).
Proof.
  intros Hlr Hib. destruct (absorb_elem bs base num) as [Hb' Hsub]. rewrite Habs in Hb', Hsub.
  assert (Hfree : forall x, free_page (insert_block base num bs) x ->
            PageReserved st2 x = false /\ PageProperty st2 x = bool_decide (x ∈ b' :: rest.*1)).
  { intros x Hx. apply (insert_block_free_page 0) in Hx; [|done|apply (rep_sep _ _ Hrep)|done].
    by apply (release_flags st1 st2 rest b' n'). }
  split.
  - rewrite Hib, fmap_app. simpl. pose proof (md_ring _ _ _ _ _ _ _ _ M) as Hr.
    pose proof (md_base _ _ _ _ _ _ _ _ M) as Hb. simpl in Hr, Hb. rewrite Hlr, fmap_app in Hr, Hb.
    by apply ring_add_before.
  - intros b n Hbn. rewrite finish_blocks in Hbn. apply place_elem in Hbn as [[= -> ->]|Hbn].
    + apply (md_prop _ _ _ _ _ _ _ _ M).
    + apply (md_props _ _ _ _ _ _ _ _ M _ _ Hbn).
  - apply release_sep.
  - rewrite insert_block_total. apply finish_nr.
  - rewrite insert_block_total. lia.
  - intros x Hx. by apply Hfree.
  - intros x Hx. destruct (Hfree x Hx) as [_ Hp].
    change (PageProperty st2 x = bool_decide (x ∈ (insert_block base num bs).*1)).
    rewrite Hp. apply bool_decide_ext. rewrite Hib, Hlr, !fmap_app. set_solver.
Qed.

Lemma finish_frame x : ~ free_page (insert_block base num bs) x -> page st2 x = page st x.
Proof.
  intros Hx. rewrite (insert_block_free_page 0) in Hx by (done || apply (rep_sep _ _ Hrep)).
  rewrite (md_frame _ _ _ _ _ _ _ _ M).
  - apply Hout. tauto.
  - intros [->|([p m] & -> & Hp)%list_elem_of_fmap]%elem_of_cons; apply Hx; [right; lia|].
    left. exists p, m. apply (sep_elem _ _ _ _ (rep_sep _ _ Hrep)) in Hp as ?. simpl. split; [done|lia].
Qed.
End finish.

Lemma free_pages_rep :
  exists st', default_free_pages base num st = Ok st' /\
    rep st' (insert_block base num bs) /\
    (forall x, ~ free_page (insert_block base num bs) x -> page st' x = page st x).
Proof.
  destruct release_start as (st0 & Hrel & Hmg & Hn1 & Hout & Hin).
  unfold default_free_pages. rewrite kassert_true by lia. rewrite res_bind_ok, Hrel, res_bind_ok.
  set (st1 := SetPageProperty base (set_property base num st0)) in *.
  destruct (coalesce_spec bs [] (walk_fuel st1) free_list base num st1) as (st2 & Hco & M);
    [unfold walk_fuel; rewrite Hn1; by apply rep_fuel|done|].
  cbv zeta. rewrite Hco, res_bind_ok. destruct (absorb bs base num) as [rest [b' n']] eqn:Habs.
  destruct (finish_find st1 st2 rest b' n' Hn1 M Habs) as (l & r & Hlr & Hib & Hfp).
  cbn [fst snd] in *. unfold counted in Hfp. rewrite Hfp, res_bind_ok.
  eexists. split; [done|]. split.
  - eapply (finish_rep st1 st2 rest b' n'); eauto.
  - intros x Hx. eapply (finish_frame st1 st2 rest b' n'); eauto.
Qed.
End release.

(** ** Initialisation *)
Lemma default_init_rep st : rep (default_init st) [].
Proof.
  split; simpl; try done; try set_solver.
  - apply ring_init.
  - intros x Hx. by apply free_page_nil in Hx.
  - intros x Hx. by apply free_page_nil in Hx.
Qed.

Lemma init_pages_spec n p st :
  (forall x, p <= x < p + Z.of_nat n -> PageReserved st x = true) ->
  exists st', init_pages n p st = Ok st' /\ plinks st' = plinks st /\ nr_free st' = nr_free st /\
    forall x, page st' x = if decide (p <= x < p + Z.of_nat n) then MkPage 0 0 0 else page st x.
Proof.
  revert p st. induction n as [|n IH]; intros p st Ho; simpl.
  - exists st. split_and!; try done. intros x. by rewrite decide_False by lia.
  - rewrite kassert_true by (apply Ho; lia). simpl.
    set (st1 := set_page_ref p 0 (set_property p 0 (set_flags p 0 st))).
    assert (Hpg : forall x, page st1 x = if decide (x = p) then MkPage 0 0 0 else page st x).
    { intros x. unfold st1. pf. }
    destruct (IH (p + 1) st1) as (st' & -> & Hl & Hn & Hx).
    + intros x Hx. unfold PageReserved. rewrite Hpg, decide_False by lia. apply Ho. lia.
    + exists st'. split_and!; try done. intros x. rewrite Hx, Hpg.
      destruct (decide (x = p)) as [->|?]; repeat case_decide; try done; lia.
Qed.

Section init.
Context (st : pmm) (bs : list block) (base n : Z).
Hypothesis Hrep : rep st bs.
Hypothesis Hn : 0 < n.
Hypothesis Hbase : 0 <= base.
Hypothesis Hafter : forall p m, (p, m) ∈ bs -> p + m < base.
Hypothesis Hmax : total bs + n < 2 ^ 32 - 1.
Hypothesis Hres : forall x, base <= x < base + n -> PageReserved st x = true.

Lemma init_outside x : free_page bs x -> ~ (base <= x < base + n).
Proof. intros (p & m & Hin & ?). specialize (Hafter _ _ Hin). lia. Qed.

Lemma init_heads x : x ∈ bs.*1 -> x < base /\ 0 <= x.
Proof.
  intros ([p m] & -> & Hin)%list_elem_of_fmap. simpl. specialize (Hafter _ _ Hin).
  apply (sep_elem _ _ _ _ (rep_sep _ _ Hrep)) in Hin. lia.
Qed.

Lemma init_memmap_rep :
  exists st', default_init_memmap base n st = Ok st' /\ rep st' (bs ++ [(base, n)]).
Proof.
  unfold default_init_memmap. rewrite kassert_true by lia. rewrite res_bind_ok.
  destruct (init_pages_spec (Z.to_nat n) base st) as (st0 & -> & Hl & Hnr & Hx);
    rewrite Z2Nat.id in * by lia; [done|]. rewrite res_bind_ok. eexists. split; [done|].
  set (st1 := SetPageProperty base (set_property base n st0)).
  assert (Hpg : forall x, page st1 x = if decide (x = base) then MkPage 0 2 n
            else if decide (base <= x < base + n) then MkPage 0 0 0 else page st x).
  { intros x. unfold st1, SetPageProperty, set_property. rewrite !page_upd, !Hx.
    destruct (decide (base = x)) as [->|?].
    - by rewrite !decide_True by lia.
    - by rewrite (decide_False (P := x = base)) by congruence. }
  split.
  - rewrite fmap_app. simpl. rewrite Hl. apply ring_add_tail; [apply (rep_ring _ _ Hrep)|].
    rewrite not_elem_of_cons. split; [unfold free_list; lia|]. intros Hh%init_heads. lia.
  - intros b m Hin. change (property (page st1 b) = m). rewrite Hpg.
    apply elem_of_app in Hin as [Hin|[= -> ->]%list_elem_of_singleton]; [|by rewrite decide_True].
    assert (b < base) by (apply init_heads, list_elem_of_fmap; by exists (b, m)).
    rewrite !decide_False by lia. apply (rep_prop _ _ Hrep _ _ Hin).
  - apply sep_app. split_and!; try done. apply (rep_sep _ _ Hrep).
  - simpl. rewrite Hnr, (rep_nr _ _ Hrep), total_app. simpl. rewrite Z.add_0_r. apply u32_small.
    pose proof (total_nonneg _ _ (rep_sep _ _ Hrep)). lia.
  - rewrite total_app. simpl. lia.
  - intros x Hfx. change (Z.testbit (flags (page st1 x)) 0 = false). rewrite Hpg.
    case_decide; [done|]. case_decide; [done|]. apply (rep_res _ _ Hrep).
    rewrite free_page_app, free_page_cons in Hfx. pose proof (free_page_nil x). tauto.
  - intros x Hfx. change (Z.testbit (flags (page st1 x)) 1 = bool_decide (x ∈ (bs ++ [(base, n)]).*1)).
    rewrite Hpg, fmap_app. simpl. destruct (decide (x = base)) as [->|Hne].
    { symmetry. apply bool_decide_eq_true. set_solver. }
    destruct (decide (base <= x < base + n)) as [Hb|Hb].
    { simpl. symmetry. apply bool_decide_eq_false. intros [Hh%init_heads|Hh]%elem_of_app; [lia|set_solver]. }
    change (PageProperty st x = bool_decide (x ∈ bs.*1 ++ [base])). rewrite (rep_flag _ _ Hrep).
    + apply bool_decide_ext. set_solver.
    + rewrite free_page_app, free_page_cons in Hfx. pose proof (free_page_nil x). tauto.
Qed.
End init.

(** ** The allocator as the rest of the kernel sees it (struct pmm_manager)

    The contract a page allocator owes its callers, in terms of free blocks. *)
Class PmmManager (alloc : Z -> pmm -> res (option Z * pmm))
    (free : Z -> Z -> pmm -> res pmm) : Prop := {
  pm_alloc_ok : forall st bs num, rep st bs -> 0 < num ->
    exists r st', alloc num st = Ok (r, st') /\
      match r with
      | None => st' = st /\ forall b n, (b, n) ∈ bs -> n < num
      | Some p => allocated st st' bs p num
      end;
  pm_free_ok : forall st bs base num, rep st bs -> 0 < num -> 0 <= base ->
    fits base num bs -> (forall x, base <= x < base + num -> owned st x) ->
    total bs + num < 2 ^ 32 - 1 ->
    exists st', free base num st = Ok st' /\ rep st' (insert_block base num bs) /\
      (forall x, ~ free_page (insert_block base num bs) x -> page st' x = page st x)
}.

#[export] Instance best_fit_manager : PmmManager default_alloc_pages_best_fit default_free_pages.
Proof.
  split.
  - intros st bs num Hr Hn. destruct (best_fit_alloc st bs num Hr Hn) as ([p|] & st' & He & Hs);
      eexists _, _; (split; [done|]); tauto.
  - intros. by apply free_pages_rep.
Qed.

#[export] Instance first_fit_manager : PmmManager default_alloc_pages default_free_pages.
Proof.
  split.
  - intros st bs num Hr Hn. destruct (first_fit_alloc st bs num Hr Hn) as ([p|] & st' & He & Hs);
      eexists _, _; (split; [done|]); tauto.
  - intros. by apply free_pages_rep.
Qed.

#[export] Instance worst_fit_manager : PmmManager default_alloc_pages_worst_fit default_free_pages.
Proof.
  split.
  - intros st bs num Hr Hn. destruct (worst_fit_alloc st bs num Hr Hn) as ([p|] & st' & He & Hs);
      eexists _, _; (split; [done|]); tauto.
  - intros. by apply free_pages_rep.
Qed.

Lemma allocated_fits st st' bs p num :
  rep st bs -> 0 < num -> allocated st st' bs p num ->
  exists l n r, bs = l ++ (p, n) :: r /\ 0 < num <= n /\ 0 <= p /\
    rep st' (l ++ carve p n num ++ r) /\ fits p num (l ++ carve p n num ++ r) /\
    total (l ++ carve p n num ++ r) + num < 2 ^ 32 - 1.
Proof.
  intros Hrep Hn (l & n & r & -> & Hle & Hr' & Ho & _). exists l, n, r.
  assert (Hn' : 0 < num <= n) by lia.
  pose proof (rep_sep _ _ Hrep) as Hs. split_and!; try done; try lia.
  - apply (sep_elem _ _ p n Hs). set_solver.
  - intros q k Hin. pose proof (sep_elem _ _ _ _ (rep_sep _ _ Hr') Hin) as [_ Hk].
    destruct (decide (q + k <= p)); [by left|]. destruct (decide (p + num <= q)); [by right|]. exfalso.
    assert (Hf : free_page (l ++ carve p n num ++ r) (Z.max p q)) by (exists q, k; split; [done|lia]).
    apply (carve_free_page 0 l p n r num _ Hn' Hs) in Hf as [_ Hf]. lia.
  - rewrite carve_total by done. pose proof (rep_max _ _ Hrep). lia.
Qed.

(** Allocate, then free the same pages: back to the same free blocks, for any
    allocator that honours the contract. *)
Lemma alloc_free_blocks alloc free `{!PmmManager alloc free} st bs num p st' :
  rep st bs -> 0 < num -> alloc num st = Ok (Some p, st') ->
  exists st'', free p num st' = Ok st'' /\ rep st'' bs.
Proof.
  intros Hrep Hn Ha. destruct (pm_alloc_ok st bs num Hrep Hn) as (r & s & He & Hs).
  rewrite Ha in He. injection He as <- <-. pose proof Hs as (_ & _ & _ & _ & _ & _ & Ho & _).
  destruct (allocated_fits _ _ _ _ _ Hrep Hn Hs) as (l & n & r & -> & Hn' & Hp & Hr' & Hf & Hm).
  destruct (pm_free_ok st' _ p num Hr' Hn Hp Hf Ho Hm) as (st'' & Hfr & Hr'' & _).
  exists st''. split; [done|].
  by rewrite (insert_carve 0) in Hr'' by (done || apply (rep_sep _ _ Hrep)).
Qed.

(** ** A booted machine of eight free pages, and three of them handed out *)
Definition demo0 : pmm := match boot 0 8 8 with Ok st => st | _ => default_init (Pmm ∅ ∅ 0) end.
Definition demo1 : pmm := take_block 0 3 demo0.

Lemma reserve_pages_reserved n st x :
  0 <= x < Z.of_nat n -> PageReserved (reserve_pages n st) x = true.
Proof.
  induction n as [|n IH]; [lia|]. intros Hx. simpl.
  unfold PageReserved, SetPageReserved, set_bit, test_bit, PG_reserved in *. rewrite page_upd.
  case_decide; simpl; subst.
  - apply Z.setbit_eq. lia.
  - apply IH. lia.
Qed.

Lemma default_init_reserved st x : PageReserved (default_init st) x = PageReserved st x.
Proof. reflexivity. Qed.

Lemma demo0_rep : rep demo0 [(0, 8)].
Proof.
  destruct (init_memmap_rep (default_init (reserve_pages 8 (Pmm ∅ ∅ 0))) [] 0 8) as (st & He & Hr);
    [apply default_init_rep|lia|lia|set_solver|simpl; lia| |].
  - intros x Hx. rewrite default_init_reserved. apply reserve_pages_reserved. lia.
  - unfold demo0, boot. by rewrite He.
Qed.

Lemma demo1_rep : rep demo1 [(3, 5)].
Proof. apply (take_block_rep demo0 [] [] 0 8 3); [apply demo0_rep|lia]. Qed.

Lemma demo1_owned x : 0 <= x < 3 -> owned demo1 x.
Proof. apply (take_block_owned demo0 [] [] 0 8 3); [apply demo0_rep|lia]. Qed.

Lemma demo1_fits : fits 0 3 [(3, 5)].
Proof. intros p m [= -> ->]%list_elem_of_singleton. lia. Qed.

(** ** Properties *)

(** C23: freeing [num] pages that belong to the caller and overlap no free
    block never panics and never loops; the free list then holds exactly the
    old blocks with the released block inserted in address order and merged
    with the neighbours it touches, the counter included, and no descriptor
    of a page that is still allocated is written. *)
Theorem default_free_pages_correct st bs base num :
  rep st bs -> 0 < num -> 0 <= base -> fits base num bs ->
  (forall x, base <= x < base + num -> owned st x) ->
  total bs + num < 2 ^ 32 - 1 ->
  exists st', default_free_pages base num st = Ok st' /\
    rep st' (insert_block base num bs) /\
    (forall x, free_page (insert_block base num bs) x <-> free_page bs x \/ base <= x < base + num) /\
    (forall x, ~ free_page (insert_block base num bs) x -> page st' x = page st x).
Proof.
  intros Hr Hn Hb Hf Ho Hm. destruct (free_pages_rep st bs base num Hr Hn Hb Hf Ho Hm) as (st' & ? & ? & ?).
  exists st'. split_and!; try done. intros x. by apply (insert_block_free_page 0); [|apply (rep_sep _ _ Hr)|].
Qed.

Lemma default_free_pages_witness :
  exists st', default_free_pages 0 3 demo1 = Ok st' /\ rep st' [(0, 8)].
Proof.
  destruct (default_free_pages_correct demo1 [(3, 5)] 0 3 demo1_rep eq_refl (Z.le_refl 0) demo1_fits
              demo1_owned eq_refl) as (st' & H1 & H2 & _).
  exists st'. split; [exact H1|exact H2].
Defined.

(** the configured allocator (best fit) returns NULL, changing nothing,
    exactly when no free block has [num] pages; otherwise it returns the head
    of a block of the smallest sufficient size, takes its first [num] pages
    and puts the rest of the block back in its place. *)
Theorem default_alloc_pages_best_fit_correct st bs num :
  rep st bs -> 0 < num ->
  exists r st', default_alloc_pages_best_fit num st = Ok (r, st') /\
    match r with
    | None => st' = st /\ forall b n, (b, n) ∈ bs -> n < num
    | Some p => allocated st st' bs p num /\
        exists n, (p, n) ∈ bs /\ num <= n /\ forall b' n', (b', n') ∈ bs -> num <= n' -> n <= n'
    end.
Proof. apply best_fit_alloc. Qed.

Lemma default_alloc_pages_best_fit_witness :
  exists st', default_alloc_pages_best_fit 2 demo1 = Ok (Some 3, st') /\ allocated demo1 st' [(3, 5)] 3 2.
Proof.
  destruct (default_alloc_pages_best_fit_correct demo1 [(3, 5)] 2 demo1_rep eq_refl) as (r & st' & H1 & H2).
  assert (Hr : r = Some 3) by (assert (Hc : exists s, default_alloc_pages_best_fit 2 demo1 = Ok (Some 3, s))
    by (eexists; vm_compute; reflexivity); destruct Hc as [s Hc]; congruence).
  subst r. exists st'. split; [exact H1|exact (proj1 H2)].
Defined.

(** the worst-fit policy takes a block of the largest size, under the
    same contract. *)
Theorem default_alloc_pages_worst_fit_correct st bs num :
  rep st bs -> 0 < num ->
  exists r st', default_alloc_pages_worst_fit num st = Ok (r, st') /\
    match r with
    | None => st' = st /\ forall b n, (b, n) ∈ bs -> n < num
    | Some p => allocated st st' bs p num /\
        exists n, (p, n) ∈ bs /\ num <= n /\ forall b' n', (b', n') ∈ bs -> n' <= n
    end.
Proof. apply worst_fit_alloc. Qed.

Lemma default_alloc_pages_worst_fit_witness :
  exists r st', default_alloc_pages_worst_fit 9 demo1 = Ok (r, st') /\ r = None.
Proof.
  destruct (default_alloc_pages_worst_fit_correct demo1 [(3, 5)] 9 demo1_rep eq_refl) as (r & st' & H1 & H2).
  exists r, st'. split; [exact H1|]. destruct r; [|reflexivity].
  exfalso. destruct H2 as [_ (n & Hn & Hle & _)]. apply list_elem_of_singleton in Hn. injection Hn as _ ->. lia.
Defined.

(** the first-fit policy takes the sufficient block of lowest address. *)
Theorem default_alloc_pages_correct st bs num :
  rep st bs -> 0 < num ->
  exists r st', default_alloc_pages num st = Ok (r, st') /\
    match r with
    | None => st' = st /\ forall b n, (b, n) ∈ bs -> n < num
    | Some p => allocated st st' bs p num /\
        exists n, (p, n) ∈ bs /\ num <= n /\ forall b' n', (b', n') ∈ bs -> num <= n' -> p <= b'
    end.
Proof. apply first_fit_alloc. Qed.

Lemma default_alloc_pages_witness :
  exists r st', default_alloc_pages 5 demo1 = Ok (r, st') /\
    match r with Some p => allocated demo1 st' [(3, 5)] p 5 | None => st' = demo1 end.
Proof.
  destruct (default_alloc_pages_correct demo1 [(3, 5)] 5 demo1_rep eq_refl) as (r & st' & H1 & H2).
  exists r, st'. split; [exact H1|]. destruct r; exact (proj1 H2).
Defined.

(** [init_memmap] on [n] reserved pages above the known blocks panics on
    nothing and adds exactly that block to the free memory. *)
Theorem default_init_memmap_correct st bs base n :
  rep st bs -> 0 < n -> 0 <= base -> (forall p m, (p, m) ∈ bs -> p + m < base) ->
  total bs + n < 2 ^ 32 - 1 ->
  (forall x, base <= x < base + n -> PageReserved st x = true) ->
  exists st', default_init_memmap base n st = Ok st' /\ rep st' (bs ++ [(base, n)]).
Proof. intros. by apply init_memmap_rep. Qed.

Lemma default_init_memmap_witness :
  exists st', default_init_memmap 0 8 (default_init (reserve_pages 8 (Pmm ∅ ∅ 0))) = Ok st' /\ rep st' [(0, 8)].
Proof.
  apply (default_init_memmap_correct (default_init (reserve_pages 8 (Pmm ∅ ∅ 0))) [] 0 8);
    [apply default_init_rep|lia|lia|intros ? ? Hin; set_solver|simpl; lia|].
  intros x Hx. rewrite default_init_reserved. apply reserve_pages_reserved. lia.
Defined.

(** against the contract of [struct pmm_manager] (which all three
    policies with [default_free_pages] meet): pages that were just allocated
    can be freed, and doing so restores the very list of free blocks. *)
Theorem alloc_then_free alloc free (H : PmmManager alloc free) st bs num p st' :
  rep st bs -> 0 < num -> alloc num st = Ok (Some p, st') ->
  exists st'', free p num st' = Ok st'' /\ rep st'' bs.
Proof. intros. by eapply alloc_free_blocks. Qed.

Lemma alloc_then_free_witness :
  exists p st' st'', default_alloc_pages_best_fit 4 demo1 = Ok (Some p, st') /\
    default_free_pages p 4 st' = Ok st'' /\ rep st'' [(3, 5)].
Proof.
  assert (Hc : exists p s, default_alloc_pages_best_fit 4 demo1 = Ok (Some p, s))
    by (eexists _, _; vm_compute; reflexivity).
  destruct Hc as (p & st' & Ha).
  destruct (alloc_then_free _ _ best_fit_manager demo1 [(3, 5)] 4 p st' demo1_rep eq_refl Ha)
    as (st'' & Hf & Hr).
  exists p, st', st''. split; [exact Ha|]. split; [exact Hf|exact Hr].
Defined.
