(* ===== verification/SwapFifo.v ===== *)
(** * kern/mm/swap_fifo.c: page replacement

    One global list [pra_list_head] holds the swappable pages, newest first.
    The state is the heap of the [pra_page_link] entries (an entry is named by
    its page), the field [pra_vaddr] of the pages and the page table entries
    of the address space, indexed by virtual address: [get_pte(mm->pgdir, va,
    0)] is the address [va] of that table, whose entry the clock algorithms
    read and write through the pointer.  [mm->sm_priv] is [Some
    pra_list_head] once [_fifo_init_mm] ran. *)
From S2P Require Import Prelude ListH.

Definition pra_list_head : Z := -1.
Definition PTE_A : Z := 0x20.
Definition PTE_D : Z := 0x40.

Record swapst := Swap {
  pra : gmap Z list_entry;
  pra_vaddr : gmap Z Z;
  ptes : gmap Z Z;
  sm_priv : option Z
}.

Definition upd_pra (f : links -> links) (st : swapst) : swapst :=
  Swap (f (pra st)) (pra_vaddr st) (ptes st) (sm_priv st).

Definition vaddr_of (st : swapst) (p : Z) : Z := default 0 (pra_vaddr st !! p).

(** [*get_pte(mm->pgdir, p->pra_vaddr, 0)], read and written. *)
Definition pte_of (st : swapst) (p : Z) : Z := default 0 (ptes st !! vaddr_of st p).
Definition set_pte (p v : Z) (st : swapst) : swapst :=
  Swap (pra st) (pra_vaddr st) (<[vaddr_of st p := v]> (ptes st)) (sm_priv st).

Definition accessed (pte : Z) : bool := negb (Z.land pte PTE_A =? 0).
Definition dirty (pte : Z) : bool := negb (Z.land pte PTE_D =? 0).

Definition _fifo_init_mm (st : swapst) : Z * swapst :=
  (0, Swap (list_init pra_list_head (pra st)) (pra_vaddr st) (ptes st) (Some pra_list_head)).

Definition _fifo_map_swappable (page : Z) (st : swapst) : res (Z * swapst) :=
  match sm_priv st with
  | None => Panic
  | Some head => Ok (0, upd_pra (list_add head page) st)
  end.

(** Remove [le] from the list and return its page. *)
Definition victim (le : Z) (st : swapst) : res (Z * swapst) := Ok (le, upd_pra (list_del le) st).

Definition _fifo_swap_out_victim (in_tick : Z) (st : swapst) : res (Z * swapst) :=
  match sm_priv st with
  | None => Panic
  | Some head =>
      _ ← kassert (in_tick =? 0);
      let le := list_prev (pra st) head in
      _ ← kassert (negb (head =? le));
      victim le st
  end.

(** A scan [while (le != head) { if (test) victim; touch; le = le->next }]:
    [inl] is the victim, [inr] the state in which the loop ended. *)
Fixpoint clock_scan (fuel : nat) (test : Z -> bool) (touch : Z -> Z) (head le : Z) (st : swapst)
    : res ((Z * swapst) + swapst) :=
  match fuel with
  | O => Spin
  | S fuel =>
      if le =? head then Ok (inr st)
      else if test (pte_of st le) then r ← victim le st; Ok (inl r)
      else clock_scan fuel test touch head (list_next (pra st) le) (set_pte le (touch (pte_of st le)) st)
  end.

(** The four loops of [_enhanced_clock]: the first starts at the oldest page
    ([head->prev]) and follows [next], the others start at [head->next].  When
    no loop returns, control reaches the end of the function ([None]). *)
Definition _enhanced_clock (fuel : nat) (in_tick : Z) (st : swapst) : res (option Z * swapst) :=
  match sm_priv st with
  | None => Panic
  | Some head =>
      _ ← kassert (in_tick =? 0);
      let le := list_prev (pra st) head in
      _ ← kassert (negb (head =? le));
      r1 ← clock_scan fuel (fun pte => negb (accessed pte) && negb (dirty pte)) id head le st;
      match r1 with inl (p, st) => Ok (Some p, st) | inr st =>
      r2 ← clock_scan fuel (fun pte => negb (accessed pte) && dirty pte)
             (fun pte => Z.lxor pte PTE_A) head (list_next (pra st) head) st;
      match r2 with inl (p, st) => Ok (Some p, st) | inr st =>
      r3 ← clock_scan fuel (fun pte => negb (dirty pte)) id head (list_next (pra st) head) st;
      match r3 with inl (p, st) => Ok (Some p, st) | inr st =>
      r4 ← clock_scan fuel dirty id head (list_next (pra st) head) st;
      match r4 with inl (p, st) => Ok (Some p, st) | inr st => Ok (None, st) end end end end
  end.

(** The loop of [_extended_clock]; [inr] covers both its [break] and its end. *)
Fixpoint extended_scan (fuel : nat) (head le : Z) (st : swapst) : res ((Z * swapst) + swapst) :=
  match fuel with
  | O => Spin
  | S fuel =>
      if le =? head then Ok (inr st)
      else if pte_of st le <? 0x1000 then Ok (inr st)
      else if negb (dirty (pte_of st le)) then r ← victim le st; Ok (inl r)
      else extended_scan fuel head (list_next (pra st) le)
             (set_pte le (Z.land (pte_of st le) 0xffffffbf) st)
  end.

Definition _extended_clock (fuel : nat) (in_tick : Z) (st : swapst) : res (Z * swapst) :=
  match sm_priv st with
  | None => Panic
  | Some head =>
      _ ← kassert (in_tick =? 0);
      let le := list_prev (pra st) head in
      _ ← kassert (negb (head =? le));
      r ← extended_scan fuel head le st;
      match r with
      | inl r => Ok r
      | inr st =>
          let le := list_prev (pra st) head in
          _ ← kassert (negb (head =? le));
          victim le st
      end
  end.

(** ** The list as a queue: [swappable st q] when the pages [q], oldest
    first, are the swappable ones. *)
Definition swappable (st : swapst) (q : list Z) : Prop :=
  sm_priv st = Some pra_list_head /\ ring (pra st) pra_list_head (rev q).

Lemma swappable_oldest st p q :
  swappable st (p :: q) -> list_prev (pra st) pra_list_head = p /\ p <> pra_list_head.
Proof.
  intros [_ Hr]. simpl in Hr. rewrite (ring_head_prev _ _ _ Hr), List.last_last.
  split; [done|]. apply ring_head_notin in Hr. set_solver.
Qed.

Lemma swappable_set_pte st q p v : swappable (set_pte p v st) q <-> swappable st q.
Proof. done. Qed.

Lemma swappable_del st q1 p q2 :
  swappable st (q1 ++ p :: q2) -> swappable (upd_pra (list_del p) st) (q1 ++ q2).
Proof.
  intros [Hs Hr]. split; [done|]. simpl.
  rewrite rev_app_distr in *. simpl in Hr. rewrite <- app_assoc in Hr. simpl in Hr.
  by apply ring_del.
Qed.

Lemma fifo_init_swappable st : swappable (snd (_fifo_init_mm st)) [].
Proof. split; [done|]. apply ring_init. Qed.

Lemma fifo_map_swappable st q p :
  swappable st q -> p ∉ pra_list_head :: q ->
  exists st', _fifo_map_swappable p st = Ok (0, st') /\ swappable st' (q ++ [p]).
Proof.
  intros [Hs Hr] Hp. unfold _fifo_map_swappable. rewrite Hs. eexists. split; [done|].
  split; [done|]. simpl. rewrite rev_app_distr. simpl. apply ring_add_head; [done|].
  rewrite not_elem_of_cons in *. rewrite list_elem_of_In, <- in_rev, <- list_elem_of_In. tauto.
Qed.

Lemma fifo_victim st p q :
  swappable st (p :: q) ->
  exists st', _fifo_swap_out_victim 0 st = Ok (p, st') /\ swappable st' q /\ ptes st' = ptes st.
Proof.
  intros Hsw. destruct (swappable_oldest _ _ _ Hsw) as [Hp Hne].
  unfold _fifo_swap_out_victim. rewrite (proj1 Hsw). simpl. rewrite Hp.
  rewrite (proj2 (Z.eqb_neq pra_list_head p)) by congruence. simpl.
  eexists. split; [done|]. split; [|done]. by apply (swappable_del st [] p q).
Qed.

(** Run a list of page faults (newly mapped pages) and evictions. *)
Inductive swap_ev := EMap (p : Z) | EEvict.

Fixpoint fifo_run (evs : list swap_ev) (st : swapst) : res (list Z * swapst) :=
  match evs with
  | [] => Ok ([], st)
  | EMap p :: evs => '(_, st) ← _fifo_map_swappable p st; fifo_run evs st
  | EEvict :: evs =>
      '(p, st) ← _fifo_swap_out_victim 0 st;
      '(ps, st) ← fifo_run evs st; Ok (p :: ps, st)
  end.

(** The pages mapped by a trace, in order. *)
Fixpoint mapped_pages (evs : list swap_ev) : list Z :=
  match evs with
  | [] => []
  | EMap p :: evs => p :: mapped_pages evs
  | EEvict :: evs => mapped_pages evs
  end.

Fixpoint evictions (evs : list swap_ev) : nat :=
  match evs with
  | [] => 0
  | EMap _ :: evs => evictions evs
  | EEvict :: evs => S (evictions evs)
  end.

(** Never evict from an empty memory. *)
Fixpoint feasible (n : nat) (evs : list swap_ev) : Prop :=
  match evs with
  | [] => True
  | EMap _ :: evs => feasible (S n) evs
  | EEvict :: evs => match n with O => False | S n => feasible n evs end
  end.

Lemma fifo_run_spec evs st q :
  swappable st q -> NoDup (q ++ mapped_pages evs) -> pra_list_head ∉ mapped_pages evs ->
  feasible (length q) evs ->
  exists st', fifo_run evs st = Ok (take (evictions evs) (q ++ mapped_pages evs), st') /\
    swappable st' (drop (evictions evs) (q ++ mapped_pages evs)).
Proof.
  revert st q. induction evs as [|[p|] evs IH]; intros st q Hsw Hnd Hh Hf; simpl in *.
  - exists st. rewrite app_nil_r. by rewrite drop_0.
  - destruct (fifo_map_swappable st q p) as (st1 & -> & Hsw1); [done| |].
    { rewrite not_elem_of_cons. apply NoDup_app in Hnd as (_ & Hd & _).
      split; [set_solver|]. intros Hin. apply (Hd p Hin). set_solver. }
    simpl. destruct (IH st1 (q ++ [p])) as (st' & -> & Hsw'); try done; try set_solver.
    + by rewrite <- app_assoc.
    + rewrite length_app. simpl. by rewrite Nat.add_1_r.
    + rewrite <- app_assoc in *. eauto.
  - destruct q as [|p q]; [done|]. destruct (fifo_victim st p q Hsw) as (st1 & -> & Hsw1 & _). simpl.
    destruct (IH st1 q) as (st' & -> & Hsw'); try done.
    + simpl in Hnd. by apply NoDup_cons in Hnd as [? ?].
    + simpl. eauto.
Qed.

(** ** The clock scans *)

(** Two states that differ in page table entries only. *)
Definition same_list (st st' : swapst) : Prop :=
  pra st' = pra st /\ pra_vaddr st' = pra_vaddr st /\ sm_priv st' = sm_priv st.

Lemma same_list_swappable st st' q : same_list st st' -> swappable st q -> swappable st' q.
Proof. intros (H1 & _ & H3) [Hs Hr]. unfold swappable. by rewrite H1, H3. Qed.

Lemma clock_scan_spec test touch h es2 es1 fuel st :
  (length es2 < fuel)%nat -> ring (pra st) h (es1 ++ es2) ->
  (exists l e r st', es2 = l ++ e :: r /\ same_list st st' /\
     clock_scan fuel test touch h (hd h es2) st = Ok (inl (e, upd_pra (list_del e) st'))) \/
  (exists st', same_list st st' /\ clock_scan fuel test touch h (hd h es2) st = Ok (inr st')).
Proof.
  revert es1 fuel st. induction es2 as [|e es2 IH]; intros es1 fuel st Hf Hr;
    (destruct fuel as [|fuel]; [simpl in Hf; lia|]); cbn [clock_scan hd].
  - rewrite Z.eqb_refl. right. by exists st.
  - assert (Hne : e <> h) by (apply ring_head_notin in Hr; set_solver).
    rewrite (proj2 (Z.eqb_neq e h) Hne).
    destruct (test (pte_of st e)); [left; by exists [], e, es2, st|].
    rewrite (ring_next _ _ _ _ _ Hr). simpl in Hf.
    destruct (IH (es1 ++ [e]) fuel (set_pte e (touch (pte_of st e)) st))
      as [(l & x & r & st' & -> & Hs & He)|(st' & Hs & He)]; [lia|by rewrite <- app_assoc| |].
    + left. by exists (e :: l), x, r, st'.
    + right. by exists st'.
Qed.

Lemma pte_of_set_id st p x : pte_of (set_pte p (pte_of st p) st) x = pte_of st x.
Proof.
  unfold pte_of, set_pte, vaddr_of; simpl. rewrite lookup_insert.
  case_decide as Hd; [|done]. by rewrite Hd.
Qed.

(** A scan that touches nothing and finds nothing has seen every page. *)
Lemma clock_scan_none test h es2 es1 fuel st st' :
  (length es2 < fuel)%nat -> ring (pra st) h (es1 ++ es2) ->
  clock_scan fuel test id h (hd h es2) st = Ok (inr st') ->
  forall x, pte_of st' x = pte_of st x /\ (x ∈ es2 -> test (pte_of st x) = false).
Proof.
  revert es1 fuel st. induction es2 as [|e es2 IH]; intros es1 fuel st Hf Hr;
    (destruct fuel as [|fuel]; [simpl in Hf; lia|]); cbn [clock_scan hd].
  - rewrite Z.eqb_refl. intros [= ->] x. split; [done|set_solver].
  - assert (Hne : e <> h) by (apply ring_head_notin in Hr; set_solver).
    rewrite (proj2 (Z.eqb_neq e h) Hne). destruct (test (pte_of st e)) eqn:Ht; [done|].
    rewrite (ring_next _ _ _ _ _ Hr). intros He x. simpl in Hf.
    destruct (IH (es1 ++ [e]) fuel (set_pte e (id (pte_of st e)) st) ltac:(lia)
                ltac:(by rewrite <- app_assoc) He x) as [H1 H2].
    unfold id in *. rewrite pte_of_set_id in *. split; [done|]. set_solver.
Qed.

(** The loops 2 to 4 walk the whole list, newest page first. *)
Lemma clock_round test touch fuel st q :
  swappable st q -> (length q < fuel)%nat ->
  (exists q1 p q2 st', q = q1 ++ p :: q2 /\ swappable st' (q1 ++ q2) /\
     clock_scan fuel test touch pra_list_head (list_next (pra st) pra_list_head) st = Ok (inl (p, st'))) \/
  (exists st', swappable st' q /\
     clock_scan fuel test touch pra_list_head (list_next (pra st) pra_list_head) st = Ok (inr st')).
Proof.
  intros Hsw Hf. destruct Hsw as [Hs Hr] eqn:E. rewrite (ring_head_next _ _ _ Hr).
  destruct (clock_scan_spec test touch pra_list_head (rev q) [] fuel st)
    as [(l & e & r & st' & Hq & Hsl & He)|(st' & Hsl & He)]; [by rewrite length_rev|done| |].
  - left. exists (rev r), e, (rev l), (upd_pra (list_del e) st'). split_and!; [| |done].
    + rewrite <- (rev_involutive q), Hq, rev_app_distr. simpl. by rewrite <- app_assoc.
    + apply swappable_del. eapply same_list_swappable; [done|]. split; [done|].
      rewrite rev_app_distr. simpl. rewrite !rev_involutive, <- app_assoc. simpl. by rewrite <- Hq.
  - right. exists st'. split; [|done]. by eapply same_list_swappable.
Qed.

(** The first loop sees the oldest page only. *)
Lemma clock_first (test : Z -> bool) touch fuel st p q :
  swappable st (p :: q) -> (1 < fuel)%nat ->
  if test (pte_of st p)
  then clock_scan fuel test touch pra_list_head p st = Ok (inl (p, upd_pra (list_del p) st))
  else clock_scan fuel test touch pra_list_head p st = Ok (inr (set_pte p (touch (pte_of st p)) st)).
Proof.
  intros Hsw Hf. destruct (swappable_oldest _ _ _ Hsw) as [_ Hne]. destruct Hsw as [_ Hr].
  simpl in Hr. destruct fuel as [|[|fuel]]; [lia..|]. cbn [clock_scan].
  rewrite (proj2 (Z.eqb_neq _ _) Hne). destruct (test (pte_of st p)); [done|].
  rewrite (ring_next _ _ _ _ _ Hr). cbn [hd]. by rewrite Z.eqb_refl.
Qed.

Lemma enhanced_clock_victim st p q fuel :
  swappable st (p :: q) -> (S (length q) < fuel)%nat ->
  exists q1 v q2 st', p :: q = q1 ++ v :: q2 /\
    _enhanced_clock fuel 0 st = Ok (Some v, st') /\ swappable st' (q1 ++ q2).
Proof.
  intros Hsw Hf. destruct (swappable_oldest _ _ _ Hsw) as [Hp Hne].
  unfold _enhanced_clock. rewrite (proj1 Hsw), Hp. change (kassert (0 =? 0)) with (Ok tt). rewrite res_bind_ok.
  rewrite (proj2 (Z.eqb_neq pra_list_head p)) by congruence. rewrite kassert_true by reflexivity.
  rewrite res_bind_ok.
  pose proof (clock_first (fun pte => negb (accessed pte) && negb (dirty pte)) id fuel st p q Hsw ltac:(lia)) as H1.
  destruct (negb (accessed (pte_of st p)) && negb (dirty (pte_of st p))); rewrite H1, res_bind_ok.
  { exists [], p, q. eexists. split_and!; [done..|]. by apply (swappable_del st [] p q). }
  apply (swappable_set_pte st _ p (id (pte_of st p))) in Hsw.
  destruct (clock_round (fun pte => negb (accessed pte) && dirty pte) (fun pte => Z.lxor pte PTE_A) fuel
              _ _ Hsw ltac:(simpl; lia)) as [(q1 & v & q2 & st2 & Hq & Hs2 & ->)|(st2 & Hs2 & ->)];
    rewrite res_bind_ok; [by exists q1, v, q2, st2|].
  destruct (clock_round (fun pte => negb (dirty pte)) id fuel _ _ Hs2 ltac:(simpl; lia))
    as [(q1 & v & q2 & st3 & Hq & Hs3 & ->)|(st3 & Hs3 & He3)];
    [rewrite res_bind_ok; by exists q1, v, q2, st3|]. rewrite He3, res_bind_ok.
  destruct (clock_round dirty id fuel _ _ Hs3 ltac:(simpl; lia))
    as [(q1 & v & q2 & st4 & Hq & Hs4 & ->)|(st4 & Hs4 & He4)];
    rewrite ?res_bind_ok; [by exists q1, v, q2, st4|]. exfalso.
  destruct Hs2 as [_ Hr2]. rewrite (ring_head_next _ _ _ Hr2) in He3.
  destruct (clock_scan_none _ pra_list_head (rev (p :: q)) [] fuel _ _ ltac:(rewrite length_rev; simpl; lia) Hr2 He3 p) as [E3 F3].
  destruct Hs3 as [_ Hr3]. rewrite (ring_head_next _ _ _ Hr3) in He4.
  destruct (clock_scan_none _ pra_list_head (rev (p :: q)) [] fuel _ _ ltac:(rewrite length_rev; simpl; lia) Hr3 He4 p) as [_ F4].
  assert (Hin : p ∈ rev (p :: q)) by (simpl; set_solver).
  specialize (F3 Hin). specialize (F4 Hin). rewrite E3 in F4. by rewrite F4 in F3.
Qed.

Lemma extended_clock_victim st p q fuel :
  swappable st (p :: q) -> (1 < fuel)%nat ->
  exists st', _extended_clock fuel 0 st = Ok (p, st') /\ swappable st' q.
Proof.
  intros Hsw Hf. destruct (swappable_oldest _ _ _ Hsw) as [Hp Hne].
  unfold _extended_clock. rewrite (proj1 Hsw), Hp. change (kassert (0 =? 0)) with (Ok tt). rewrite res_bind_ok.
  rewrite (proj2 (Z.eqb_neq pra_list_head p)) by congruence. rewrite kassert_true by reflexivity.
  rewrite res_bind_ok. pose proof Hsw as [_ Hr]. simpl in Hr.
  destruct fuel as [|[|fuel]]; [lia..|]. cbn [extended_scan].
  rewrite (proj2 (Z.eqb_neq _ _) Hne), (ring_next _ _ _ _ _ Hr). cbn [hd]. rewrite Z.eqb_refl.
  assert (Hdel : forall st', same_list st st' ->
    mbind (M := res) (fun _ : unit => victim (list_prev (pra st') pra_list_head) st')
      (kassert (negb (pra_list_head =? list_prev (pra st') pra_list_head))) = Ok (p, upd_pra (list_del p) st') /\
    swappable (upd_pra (list_del p) st') q).
  { intros st' Hsl. rewrite (proj1 Hsl), Hp.
    rewrite (proj2 (Z.eqb_neq pra_list_head p)) by congruence. split; [done|].
    apply (swappable_del st' [] p q). by eapply same_list_swappable. }
  destruct (pte_of st p <? 4096); [|destruct (negb (dirty (pte_of st p)))].
  - rewrite res_bind_ok. destruct (Hdel st) as [He Hs]; [done|]. eauto.
  - destruct (Hdel st) as [_ Hs]; [done|]. eexists. split; [reflexivity|done].
  - rewrite res_bind_ok. destruct (Hdel (set_pte p (Z.land (pte_of st p) 4294967231) st)) as [He Hs]; [done|]. eauto.
Qed.

(** ** Properties *)
Definition demo_swap : swapst :=
  upd_pra (fun L => list_add pra_list_head 12 (list_add pra_list_head 11 (list_add pra_list_head 10 L)))
    (Swap (pra (snd (_fifo_init_mm (Swap ∅ ∅ ∅ None))))
       (list_to_map [(10, 0x1000); (11, 0x2000); (12, 0x3000)])
       (list_to_map [(0x1000, 0x5041); (0x2000, 0x6001); (0x3000, 0x7021)]) (Some pra_list_head)).

Lemma demo_swappable : swappable demo_swap [10; 11; 12].
Proof.
  split; [reflexivity|]. unfold demo_swap. simpl.
  repeat (apply ring_add_head; [|set_solver]). apply ring_init.
Qed.

(** the replacement policy in use is a queue: for every sequence of page
    mappings and evictions that never evicts from an empty memory, no call
    panics and the pages are evicted in the order in which they were mapped;
    the pages left are the later ones, in order. *)
Theorem fifo_evicts_in_order evs st q :
  swappable st q -> NoDup (q ++ mapped_pages evs) -> pra_list_head ∉ mapped_pages evs ->
  feasible (length q) evs ->
  exists st', fifo_run evs st = Ok (take (evictions evs) (q ++ mapped_pages evs), st') /\
    swappable st' (drop (evictions evs) (q ++ mapped_pages evs)).
Proof. apply fifo_run_spec. Qed.

Lemma fifo_evicts_in_order_witness :
  exists st', fifo_run [EEvict; EMap 13; EEvict] demo_swap = Ok ([10; 11], st') /\ swappable st' [12; 13].
Proof.
  apply (fifo_evicts_in_order [EEvict; EMap 13; EEvict] demo_swap [10; 11; 12] demo_swappable);
    [|set_solver|exact I].
  apply (bool_decide_unpack (NoDup [10; 11; 12; 13])). vm_compute. exact I.
Defined.

(** [_enhanced_clock] never falls off its end and never loops: on a
    non-empty list it always removes exactly one page and returns it. *)
Theorem enhanced_clock_picks_one st p q fuel :
  swappable st (p :: q) -> (S (length q) < fuel)%nat ->
  exists q1 v q2 st', p :: q = q1 ++ v :: q2 /\
    _enhanced_clock fuel 0 st = Ok (Some v, st') /\ swappable st' (q1 ++ q2).
Proof. apply enhanced_clock_victim. Qed.

Lemma enhanced_clock_picks_one_witness :
  exists q1 v q2 st', [10; 11; 12] = q1 ++ v :: q2 /\
    _enhanced_clock 9 0 demo_swap = Ok (Some v, st') /\ swappable st' (q1 ++ q2).
Proof. apply (enhanced_clock_picks_one demo_swap 10 [11; 12] 9 demo_swappable). simpl; lia. Defined.

(** [_extended_clock] always evicts the page FIFO would evict, the oldest
    one, whatever the dirty bits: its scan starts at [head->prev] and follows
    [next], so it inspects a single page and then falls back to that page. *)
Theorem extended_clock_is_fifo st p q fuel :
  swappable st (p :: q) -> (1 < fuel)%nat ->
  (exists st', _extended_clock fuel 0 st = Ok (p, st') /\ swappable st' q) /\
  (exists st', _fifo_swap_out_victim 0 st = Ok (p, st') /\ swappable st' q).
Proof.
  intros Hsw Hf. split; [by apply extended_clock_victim|].
  destruct (fifo_victim st p q Hsw) as (st' & He & Hs & _). eauto.
Qed.

Lemma extended_clock_is_fifo_witness :
  exists st', _extended_clock 9 0 demo_swap = Ok (10, st') /\ swappable st' [11; 12].
Proof. apply (extended_clock_is_fifo demo_swap 10 [11; 12] 9 demo_swappable). lia. Defined.

(** although page 11 is neither accessed nor dirty, [_enhanced_clock]
    evicts the dirty page 10: its first loop inspects the oldest page only. *)
Theorem enhanced_clock_skips_clean :
  swappable demo_swap [10; 11; 12] /\
  accessed (pte_of demo_swap 11) = false /\ dirty (pte_of demo_swap 11) = false /\
  dirty (pte_of demo_swap 10) = true /\
  exists st', _enhanced_clock 9 0 demo_swap = Ok (Some 10, st').
Proof.
  split; [exact demo_swappable|]. do 3 (split; [vm_compute; reflexivity|]).
  eexists. vm_compute. reflexivity.
Qed.

(** ** The interface to swap.c *)
(** The policy as swap.c uses it: [sq_rep q l], the pages [l] are swappable. *)
Class SwapMgr := {
  sq : Type;
  sq_map : Z -> sq -> res (Z * sq);
  sq_victim : sq -> res (Z * sq);
  sq_rep : sq -> list Z -> Prop;
  sq_map_ok : forall q l p, sq_rep q l -> 0 <= p -> p ∉ l ->
    exists q', sq_map p q = Ok (0, q') /\ sq_rep q' (l ++ [p]);
  sq_victim_ok : forall q l, sq_rep q l -> l <> [] ->
    exists p q' l', sq_victim q = Ok (p, q') /\ sq_rep q' l' /\ l ≡ₚ p :: l'
}.

Lemma fifo_map_ok st l p :
  swappable st l -> 0 <= p -> p ∉ l -> exists st', _fifo_map_swappable p st = Ok (0, st') /\ swappable st' (l ++ [p]).
Proof.
  intros H Hp Hl. apply fifo_map_swappable; [done|]. apply not_elem_of_cons. split; [unfold pra_list_head; lia|done].
Qed.

Lemma fifo_victim_ok st l :
  swappable st l -> l <> [] ->
  exists p st' l', _fifo_swap_out_victim 0 st = Ok (p, st') /\ swappable st' l' /\ l ≡ₚ p :: l'.
Proof. destruct l as [|p l]; [done|]. intros H _. destruct (fifo_victim st p l H) as (st' & ? & ? & _). eauto 6. Qed.

#[export] Instance swap_manager_fifo : SwapMgr := {|
  sq := swapst; sq_map := _fifo_map_swappable; sq_victim := _fifo_swap_out_victim 0; sq_rep := swappable;
  sq_map_ok := fifo_map_ok; sq_victim_ok := fifo_victim_ok
|}.
