(* ===== verification/Bitmap.v ===== *)
(** * kern/fs/sfs/bitmap.c: the free block bitmap

    A set bit is a free block.  The words of the map are kept as unsigned
    32-bit integers; the outcome of the two [kmalloc] calls of
    [bitmap_create] is an argument. *)
From S2P Require Import Prelude.

Ltac Zify.zify_post_hook ::= Z.to_euclidean_division_equations.

Definition WORD_BITS : Z := 32.
Definition E_NO_MEM : Z := 4.

Record bitmap := Bitmap { nbits : Z; nwords : Z; map : list Z }.

Definition word (bm : bitmap) (ix : Z) : Z := default 0 (map bm !! Z.to_nat ix).

Definition set_word (ix v : Z) (bm : bitmap) : bitmap :=
  Bitmap (nbits bm) (nwords bm) (<[Z.to_nat ix := v]> (map bm)).

Definition mask_of (offset : Z) : Z := u32 (Z.shiftl 1 offset).

(** [for (; overbits < WORD_BITS; overbits ++) map[ix] ^= (1 << overbits)] *)
Fixpoint mark_leftover (n : nat) (overbits w : Z) : Z :=
  match n with
  | O => w
  | S n =>
      if overbits <? WORD_BITS then mark_leftover n (overbits + 1) (Z.lxor w (mask_of overbits)) else w
  end.

Definition ROUNDUP_DIV (a n : Z) : Z := u32 (a + n - 1) / n.

Definition bitmap_create (ok_bitmap ok_map : bool) (nb : Z) : res (option bitmap) :=
  _ ← kassert (negb (nb =? 0) && (u32 (nb + WORD_BITS) >? nb));
  if negb ok_bitmap then Ok None
  else
    let nw := ROUNDUP_DIV nb WORD_BITS in
    if negb ok_map then Ok None
    else
      let bm := Bitmap nb nw (replicate (Z.to_nat nw) 0xFFFFFFFF) in
      if negb (nb =? u32 (nw * WORD_BITS)) then
        let ix := nw - 1 in
        let overbits := nb - ix * WORD_BITS in
        _ ← kassert (nb / WORD_BITS =? ix);
        _ ← kassert ((overbits >? 0) && (overbits <? WORD_BITS));
        Ok (Some (set_word ix (mark_leftover 32 overbits (word bm ix)) bm))
      else Ok (Some bm).

(** The inner loop of [bitmap_alloc]: the first set bit at or after [offset]. *)
Fixpoint first_bit (n : nat) (offset w : Z) : option Z :=
  match n with
  | O => None
  | S n =>
      if offset <? WORD_BITS then
        if negb (Z.land w (mask_of offset) =? 0) then Some offset else first_bit n (offset + 1) w
      else None
  end.

Inductive alloc_res := AllocOk (index : Z) | AllocErr (e : Z).

(** The outer loop from word [ix]; [n] words remain. *)
Fixpoint alloc_words (n : nat) (ix : Z) (bm : bitmap) : res (alloc_res * bitmap) :=
  match n with
  | O => Ok (AllocErr (- E_NO_MEM), bm)
  | S n =>
      if negb (word bm ix =? 0) then
        match first_bit 32 0 (word bm ix) with
        | Some offset =>
            Ok (AllocOk (ix * WORD_BITS + offset),
                set_word ix (Z.lxor (word bm ix) (mask_of offset)) bm)
        | None => Panic
        end
      else alloc_words n (ix + 1) bm
  end.

Definition bitmap_alloc (bm : bitmap) : res (alloc_res * bitmap) := alloc_words (Z.to_nat (nwords bm)) 0 bm.

(** Word index and mask of a bit. *)
Definition bitmap_translate (bm : bitmap) (index : Z) : res (Z * Z) :=
  _ ← kassert (index <? nbits bm);
  Ok (index / WORD_BITS, mask_of (index mod WORD_BITS)).

Definition bitmap_test (bm : bitmap) (index : Z) : res Z :=
  '(ix, mask) ← bitmap_translate bm index;
  Ok (i32 (Z.land (word bm ix) mask)).

Definition bitmap_free (bm : bitmap) (index : Z) : res bitmap :=
  '(ix, mask) ← bitmap_translate bm index;
  _ ← kassert (negb (negb (Z.land (word bm ix) mask =? 0)));
  Ok (set_word ix (Z.lor (word bm ix) mask) bm).

Definition bitmap_getdata (bm : bitmap) : list Z * Z := (map bm, u32 (4 * nwords bm)).

(** ** The abstract view: the set of free indices *)
Definition free_bit (bm : bitmap) (i : Z) : bool := Z.testbit (word bm (i / 32)) (i mod 32).

Record bm_wf (bm : bitmap) : Prop := {
  wf_len : Z.of_nat (length (map bm)) = nwords bm;
  wf_nbits : 0 < nbits bm <= nwords bm * 32;
  wf_words : Forall (fun w => 0 <= w < 2 ^ 32) (map bm);
  wf_over : forall i, nbits bm <= i -> free_bit bm i = false
}.

(** ** Bits of a word *)
Lemma mask_bit o i : 0 <= o < 32 -> 0 <= i -> Z.testbit (mask_of o) i = (o =? i).
Proof.
  intros Ho Hi. unfold mask_of. rewrite Z.shiftl_1_l. rewrite u32_small.
  - apply Z.pow2_bits_eqb. lia.
  - split; [apply Z.pow_nonneg; lia|]. apply Z.pow_lt_mono_r; lia.
Qed.

Lemma land_mask w o : 0 <= o < 32 -> (Z.land w (mask_of o) =? 0) = negb (Z.testbit w o).
Proof.
  intros Ho. destruct (Z.testbit w o) eqn:Hb; simpl.
  - apply Z.eqb_neq. intros H. assert (Hz : Z.testbit (Z.land w (mask_of o)) o = false)
      by (rewrite H; apply Z.bits_0).
    rewrite Z.land_spec, Hb, mask_bit, Z.eqb_refl in Hz by lia. done.
  - apply Z.eqb_eq. apply Z.bits_inj'. intros i Hi. rewrite Z.land_spec, mask_bit, Z.bits_0 by lia.
    destruct (Z.eqb_spec o i); subst; [by rewrite Hb|by rewrite andb_false_r].
Qed.

Lemma word_bound w : 0 <= w -> (forall i, 32 <= i -> Z.testbit w i = false) -> w < 2 ^ 32.
Proof.
  intros Hw Hb. destruct (Z.eq_dec w 0) as [->|Hz]; [lia|].
  destruct (Z.lt_ge_cases w (2 ^ 32)) as [|Hge]; [done|]. exfalso.
  assert (Hl : 32 <= Z.log2 w) by (apply Z.log2_le_pow2; lia).
  specialize (Hb (Z.log2 w) Hl). rewrite Z.bit_log2 in Hb by lia. done.
Qed.

Lemma word_high w i : 0 <= w < 2 ^ 32 -> 32 <= i -> Z.testbit w i = false.
Proof.
  intros Hw Hi. destruct (Z.eq_dec w 0) as [->|Hz]; [apply Z.bits_0|].
  apply Z.bits_above_log2; [lia|]. assert (Z.log2 w < 32) by (apply Z.log2_lt_pow2; lia). lia.
Qed.

Lemma lxor_mask_range w o : 0 <= w < 2 ^ 32 -> 0 <= o < 32 -> 0 <= Z.lxor w (mask_of o) < 2 ^ 32.
Proof.
  intros Hw Ho. assert (Hm : 0 <= mask_of o) by (unfold mask_of; apply u32_range).
  assert (0 <= Z.lxor w (mask_of o)) by (apply Z.lxor_nonneg; lia).
  split; [done|]. apply word_bound; [done|]. intros i Hi.
  rewrite Z.lxor_spec, mask_bit, (word_high w) by lia.
  rewrite (proj2 (Z.eqb_neq o i)) by lia. done.
Qed.

Lemma lor_mask_range w o : 0 <= w < 2 ^ 32 -> 0 <= o < 32 -> 0 <= Z.lor w (mask_of o) < 2 ^ 32.
Proof.
  intros Hw Ho. assert (Hm : 0 <= mask_of o) by (unfold mask_of; apply u32_range).
  assert (0 <= Z.lor w (mask_of o)) by (apply Z.lor_nonneg; lia).
  split; [done|]. apply word_bound; [done|]. intros i Hi.
  rewrite Z.lor_spec, mask_bit, (word_high w) by lia.
  rewrite (proj2 (Z.eqb_neq o i)) by lia. done.
Qed.

Lemma land_range w m : 0 <= w < 2 ^ 32 -> 0 <= Z.land w m < 2 ^ 32.
Proof.
  intros Hw. assert (0 <= Z.land w m) by (apply Z.land_nonneg; lia).
  split; [done|]. apply word_bound; [done|]. intros i Hi.
  by rewrite Z.land_spec, (word_high w) by lia.
Qed.

(** A bit index and its word/offset pair. *)
Lemma index_split ix o i :
  0 <= o < 32 -> (i / 32 = ix /\ i mod 32 = o <-> i = ix * 32 + o).
Proof. intros Ho. split; [intros [<- <-]; lia|]. intros ->. split; lia. Qed.

Lemma word_set_word ix v bm j :
  0 <= ix < Z.of_nat (length (map bm)) -> 0 <= j ->
  word (set_word ix v bm) j = if decide (j = ix) then v else word bm j.
Proof.
  intros Hix Hj. unfold word, set_word; simpl. case_decide as Hd.
  - subst. rewrite list_lookup_insert_eq by lia. done.
  - rewrite list_lookup_insert_ne by lia. done.
Qed.

Lemma word_range bm ix : Forall (fun w => 0 <= w < 2 ^ 32) (map bm) -> 0 <= word bm ix < 2 ^ 32.
Proof.
  intros H. unfold word. destruct (map bm !! Z.to_nat ix) eqn:E; simpl; [|lia].
  by apply (Forall_lookup_1 _ _ _ _ H E).
Qed.

(** Changing bit [o] of word [ix] changes the bit [ix * 32 + o] only. *)
Lemma free_bit_set ix o v bm i :
  0 <= ix < Z.of_nat (length (map bm)) -> 0 <= o < 32 -> 0 <= i ->
  (forall j, 0 <= j < 32 -> j <> o -> Z.testbit v j = Z.testbit (word bm ix) j) ->
  free_bit (set_word ix v bm) i =
    if decide (i = ix * 32 + o) then Z.testbit v o else free_bit bm i.
Proof.
  intros Hix Ho Hi Hv. unfold free_bit. rewrite word_set_word by lia.
  destruct (decide (i = ix * 32 + o)) as [Heq|Hne].
  - apply (index_split ix o i Ho) in Heq as [H1 H2]. by rewrite H1, H2, decide_True.
  - case_decide as Hd; [|done]. rewrite Hv; [by rewrite Hd|lia|].
    intros Hm. apply Hne. apply (index_split ix o i Ho). done.
Qed.

(** ** Allocation *)
Lemma first_bit_spec n offset w :
  0 <= offset -> 32 <= offset + Z.of_nat n ->
  match first_bit n offset w with
  | Some o => offset <= o < 32 /\ Z.testbit w o = true /\ forall j, offset <= j < o -> Z.testbit w j = false
  | None => forall j, offset <= j < 32 -> Z.testbit w j = false
  end.
Proof.
  revert offset. induction n as [|n IH]; intros offset Ho Hn; simpl; [intros; lia|].
  unfold WORD_BITS. destruct (Z.ltb_spec offset 32); [|intros; lia].
  rewrite land_mask by lia. destruct (Z.testbit w offset) eqn:Hb; simpl.
  - split_and!; [lia|done|done|]. intros. lia.
  - specialize (IH (offset + 1) ltac:(lia) ltac:(lia)). destruct (first_bit n (offset + 1) w) as [o|].
    + destruct IH as (H1 & H2 & H3). split_and!; [lia|lia|done|].
      intros j Hj. destruct (decide (j = offset)); [by subst|]. apply H3. lia.
    + intros j Hj. destruct (decide (j = offset)); [by subst|]. apply IH. lia.
Qed.

#[local] Arguments first_bit : simpl never.

Lemma first_bit_none w : 0 <= w < 2 ^ 32 -> first_bit 32 0 w = None -> w = 0.
Proof.
  intros Hw Hn. pose proof (first_bit_spec 32 0 w ltac:(lia) ltac:(lia)) as H. rewrite Hn in H.
  apply Z.bits_inj'. intros i Hi. rewrite Z.bits_0.
  destruct (decide (i < 32)); [apply H; lia|apply word_high; lia].
Qed.

Lemma alloc_words_spec n ix bm :
  bm_wf bm -> 0 <= ix -> ix + Z.of_nat n = nwords bm ->
  (forall i, 0 <= i < ix * 32 -> free_bit bm i = false) ->
  exists r bm', alloc_words n ix bm = Ok (r, bm') /\
    match r with
    | AllocErr e => e = - E_NO_MEM /\ bm' = bm /\ forall i, 0 <= i -> free_bit bm i = false
    | AllocOk k => 0 <= k < nbits bm /\ free_bit bm k = true /\
        (forall i, 0 <= i < k -> free_bit bm i = false) /\
        (forall i, 0 <= i -> free_bit bm' i = if decide (i = k) then false else free_bit bm i) /\
        bm_wf bm'
    end.
Proof.
  intros Hwf. revert ix. induction n as [|n IH]; intros ix Hix Hn Hlow; simpl.
  { eexists _, _. split; [done|]. split_and!; [done..|]. intros i Hi.
    destruct (decide (i < ix * 32)); [apply Hlow; lia|]. apply (wf_over _ Hwf).
    pose proof (wf_nbits _ Hwf). lia. }
  pose proof (word_range bm ix (wf_words _ Hwf)) as Hw. pose proof (wf_len _ Hwf) as Hlen.
  destruct (Z.eqb_spec (word bm ix) 0) as [Hz|Hz]; simpl.
  { apply IH; [lia|lia|]. intros i Hi. destruct (decide (i < ix * 32)); [apply Hlow; lia|].
    unfold free_bit. replace (i / 32) with ix by lia. rewrite Hz. apply Z.bits_0. }
  pose proof (first_bit_spec 32 0 (word bm ix) ltac:(lia) ltac:(lia)) as Hf.
  destruct (first_bit 32 0 (word bm ix)) as [o|] eqn:Hfb; [|by apply first_bit_none in Hfb].
  destruct Hf as (Ho & Hbit & Hless). unfold WORD_BITS.
  assert (Hfree : free_bit bm (ix * 32 + o) = true).
  { unfold free_bit. by replace ((ix * 32 + o) / 32) with ix by lia; replace ((ix * 32 + o) mod 32) with o by lia. }
  assert (Hset : forall i, 0 <= i ->
    free_bit (set_word ix (Z.lxor (word bm ix) (mask_of o)) bm) i =
    if decide (i = ix * 32 + o) then false else free_bit bm i).
  { intros i Hi. rewrite (free_bit_set ix o) by (lia || (intros j Hj Hjo;
      rewrite Z.lxor_spec, mask_bit, (proj2 (Z.eqb_neq o j)) by lia; apply xorb_false_r)).
    case_decide; [|done]. by rewrite Z.lxor_spec, mask_bit, Z.eqb_refl, Hbit by lia. }
  exists (AllocOk (ix * 32 + o)), (set_word ix (Z.lxor (word bm ix) (mask_of o)) bm).
  split; [reflexivity|]. split_and!; [lia| |exact Hfree| |exact Hset|].
  - destruct (Z.lt_ge_cases (ix * 32 + o) (nbits bm)) as [|Hge]; [done|].
    by rewrite (wf_over _ Hwf _ Hge) in Hfree.
  - intros i Hi. destruct (decide (i < ix * 32)); [apply Hlow; lia|].
    unfold free_bit. replace (i / 32) with ix by lia. apply Hless. lia.
  - split; simpl; try apply Hwf.
    + by rewrite length_insert.
    + apply Forall_insert; [apply Hwf|]. apply lxor_mask_range; [done|lia].
    + intros i Hi. pose proof (wf_nbits _ Hwf). rewrite Hset by lia. case_decide; [done|]. by apply (wf_over _ Hwf).
Qed.

(** ** Creation *)
Lemma mark_leftover_bit n overbits w i :
  0 <= overbits -> 32 <= overbits + Z.of_nat n -> 0 <= i < 32 ->
  Z.testbit (mark_leftover n overbits w) i = if overbits <=? i then negb (Z.testbit w i) else Z.testbit w i.
Proof.
  revert overbits w. induction n as [|n IH]; intros overbits w Ho Hn Hi; simpl.
  - destruct (Z.leb_spec overbits i); [lia|done].
  - unfold WORD_BITS. destruct (Z.ltb_spec overbits 32).
    + rewrite IH by lia. rewrite Z.lxor_spec, mask_bit by lia.
      repeat zcase; try lia; destruct (Z.testbit w i); done.
    + zcase; [lia|done].
Qed.

Lemma mark_leftover_range n overbits w :
  0 <= overbits -> 0 <= w < 2 ^ 32 -> 0 <= mark_leftover n overbits w < 2 ^ 32.
Proof.
  revert overbits w. induction n as [|n IH]; intros overbits w Ho Hw; simpl; [done|].
  unfold WORD_BITS. destruct (Z.ltb_spec overbits 32); [|done]. apply IH; [lia|].
  apply lxor_mask_range; [done|lia].
Qed.

#[local] Arguments mark_leftover : simpl never.

Lemma word_replicate n v ix nb nw :
  0 <= ix < Z.of_nat n -> word (Bitmap nb nw (replicate n v)) ix = v.
Proof. intros H. unfold word; simpl. rewrite lookup_replicate_2 by lia. done. Qed.

Lemma ones_bit j : 0 <= j < 32 -> Z.testbit 0xFFFFFFFF j = true.
Proof. intros Hj. change 0xFFFFFFFF with (Z.ones 32). apply Z.ones_spec_low. lia. Qed.

Lemma word_outside bm ix : Z.of_nat (length (map bm)) <= ix -> word bm ix = 0.
Proof. intros H. unfold word. rewrite lookup_ge_None_2 by lia. done. Qed.

Lemma create_spec nb :
  0 < nb < 2 ^ 32 - 32 ->
  exists bm, bitmap_create true true nb = Ok (Some bm) /\ bm_wf bm /\ nbits bm = nb /\
    forall i, 0 <= i -> free_bit bm i = (i <? nb).
Proof.
  intros Hnb. unfold bitmap_create, WORD_BITS, ROUNDUP_DIV.
  rewrite (u32_small (nb + 32)), (u32_small (nb + 32 - 1)) by lia. rewrite (kassert_true (negb (nb =? 0) && (nb + 32 >? nb))) by lia. rewrite res_bind_ok. cbn [negb].
  set (nw := (nb + 32 - 1) / 32). assert (Hnw : nb <= nw * 32 < nb + 32) by (unfold nw; lia).
  rewrite (u32_small (nw * 32)) by lia. set (bm0 := Bitmap nb nw (replicate (Z.to_nat nw) 4294967295)).
  assert (Hlen : Z.of_nat (length (map bm0)) = nw) by (simpl; rewrite length_replicate; lia).
  assert (Hw0 : forall ix, 0 <= ix < nw -> word bm0 ix = 4294967295)
    by (intros; apply word_replicate; lia).
  assert (Hf0 : forall i, 0 <= i -> free_bit bm0 i = (i <? nw * 32)).
  { intros i Hi. unfold free_bit. destruct (Z.ltb_spec i (nw * 32)).
    - rewrite Hw0 by lia. apply ones_bit. lia.
    - rewrite word_outside by lia. apply Z.bits_0. }
  assert (Hall : Forall (fun w => 0 <= w < 2 ^ 32) (map bm0)) by (apply Forall_replicate; lia).
  destruct (Z.eqb_spec nb (nw * 32)) as [He|He]; cbn [negb].
  - exists bm0. split_and!; [done| |done|by rewrite He].
    split; try done; [simpl; lia|]. intros i Hi. rewrite Hf0 by (simpl in Hi; lia). apply Z.ltb_ge. simpl in Hi. lia.
  - rewrite kassert_true by lia. rewrite res_bind_ok. rewrite kassert_true by lia. rewrite res_bind_ok.
    rewrite Hw0 by lia. set (v := mark_leftover 32 (nb - (nw - 1) * 32) 4294967295).
    assert (Hf : forall i, 0 <= i -> free_bit (set_word (nw - 1) v bm0) i = (i <? nb)).
    { intros i Hi. unfold free_bit. rewrite word_set_word by lia. case_decide as Hd.
      - unfold v. rewrite mark_leftover_bit, ones_bit by lia. repeat zcase; done || lia.
      - fold (free_bit bm0 i). rewrite Hf0 by done. repeat zcase; done || lia. }
    eexists. split_and!; [done| |done|done]. split; simpl.
    + by rewrite length_insert.
    + lia.
    + apply Forall_insert; [done|]. apply mark_leftover_range; lia.
    + intros i Hi. rewrite Hf by lia. apply Z.ltb_ge. lia.
Qed.

(** ** Test and release *)
Lemma i32_nonzero z : 0 <= z < 2 ^ 32 -> (i32 z =? 0) = (z =? 0).
Proof.
  intros Hz. pose proof (u32_i32 z) as H. rewrite (u32_small z Hz) in H.
  destruct (Z.eqb_spec z 0) as [->|Hn]; [done|]. apply Z.eqb_neq. intros He.
  rewrite He in H. done.
Qed.

Lemma translate_ok bm i : 0 <= i < nbits bm ->
  bitmap_translate bm i = Ok (i / 32, mask_of (i mod 32)).
Proof. intros Hi. unfold bitmap_translate. rewrite kassert_true by lia. done. Qed.

Lemma free_mask bm i : 0 <= i ->
  (Z.land (word bm (i / 32)) (mask_of (i mod 32)) =? 0) = negb (free_bit bm i).
Proof. intros Hi. apply land_mask. lia. Qed.

Lemma set_bit_spec bm i : bm_wf bm -> 0 <= i < nbits bm ->
  let bm' := set_word (i / 32) (Z.lor (word bm (i / 32)) (mask_of (i mod 32))) bm in
  bm_wf bm' /\ forall j, 0 <= j -> free_bit bm' j = if decide (j = i) then true else free_bit bm j.
Proof.
  intros Hwf Hi bm'. pose proof (wf_len _ Hwf). pose proof (wf_nbits _ Hwf).
  assert (Hf : forall j, 0 <= j -> free_bit bm' j = if decide (j = i) then true else free_bit bm j).
  { intros j Hj. unfold bm'. rewrite (free_bit_set (i / 32) (i mod 32)) by (lia || (intros k Hk Hko;
      rewrite Z.lor_spec, mask_bit, (proj2 (Z.eqb_neq (i mod 32) k)) by lia; apply orb_false_r)).
    replace (i / 32 * 32 + i mod 32) with i by lia.
    case_decide; [|done]. rewrite Z.lor_spec, mask_bit, Z.eqb_refl by lia. apply orb_true_r. }
  split; [|done]. split; simpl.
  - by rewrite length_insert.
  - lia.
  - apply Forall_insert; [apply Hwf|]. apply lor_mask_range; [apply word_range, Hwf|lia].
  - intros j Hj. rewrite Hf by lia. rewrite decide_False by lia. by apply (wf_over _ Hwf).
Qed.

(** ** Properties *)

(** [bitmap_create] on any size it accepts builds a well formed map in
    which exactly the [nbits] existing blocks are free, the padding bits of
    the last word included among the used ones; neither of its assertions on
    the padding can fail. *)
Theorem bitmap_create_correct (nb : Z) :
  0 < nb < 2 ^ 32 - 32 ->
  exists bm, bitmap_create true true nb = Ok (Some bm) /\ bm_wf bm /\ nbits bm = nb /\
    forall i, 0 <= i -> free_bit bm i = (i <? nb).
Proof. apply create_spec. Qed.

Lemma bitmap_create_correct_witness :
  exists bm, bitmap_create true true 70 = Ok (Some bm) /\ bm_wf bm /\ nbits bm = 70 /\
    forall i, 0 <= i -> free_bit bm i = (i <? 70).
Proof. apply (bitmap_create_correct 70). lia. Defined.

Lemma bitmap_alloc_spec (bm : bitmap) :
  bm_wf bm ->
  exists r bm', bitmap_alloc bm = Ok (r, bm') /\
    match r with
    | AllocErr e => e = - E_NO_MEM /\ bm' = bm /\ forall i, 0 <= i -> free_bit bm i = false
    | AllocOk k => 0 <= k < nbits bm /\ free_bit bm k = true /\
        (forall i, 0 <= i < k -> free_bit bm i = false) /\
        (forall i, 0 <= i -> free_bit bm' i = if decide (i = k) then false else free_bit bm i) /\
        bm_wf bm'
    end.
Proof.
  intros Hwf. pose proof (wf_nbits _ Hwf). apply alloc_words_spec; [done|lia|lia|]. intros. lia.
Qed.

Lemma bitmap_free_spec (bm : bitmap) (index : Z) :
  bm_wf bm -> 0 <= index ->
  match bitmap_free bm index with
  | Ok bm' => index < nbits bm /\ free_bit bm index = false /\ bm_wf bm' /\
      (forall i, 0 <= i -> free_bit bm' i = if decide (i = index) then true else free_bit bm i) /\
      exists v, bitmap_test bm' index = Ok v /\ v <> 0
  | Panic => nbits bm <= index \/ free_bit bm index = true
  | Spin => False
  end.
Proof.
  intros Hwf Hi. destruct (decide (index < nbits bm)) as [Hlt|Hge].
  2: { unfold bitmap_free, bitmap_translate, kassert. destruct (Z.ltb_spec index (nbits bm)); [lia|]. left. lia. }
  destruct (set_bit_spec bm index Hwf ltac:(lia)) as [Hwf' Hf].
  unfold bitmap_free. rewrite translate_ok, res_bind_ok by lia. cbn beta iota.
  rewrite free_mask, negb_involutive by lia. destruct (free_bit bm index) eqn:Hb; [by right|].
  rewrite kassert_true, res_bind_ok by done. split_and!; [done..|].
  unfold bitmap_test. rewrite translate_ok, res_bind_ok by (simpl; lia). eexists. split; [done|].
  apply Z.eqb_neq. rewrite i32_nonzero by apply land_range, word_range, Hwf'.
  by rewrite free_mask, Hf, decide_True by lia.
Qed.

Lemma bitmap_alloc_nbits bm r bm' : bitmap_alloc bm = Ok (r, bm') -> nbits bm' = nbits bm.
Proof.
  unfold bitmap_alloc. generalize (Z.to_nat (nwords bm)) 0. intros n. induction n as [|n IH]; intros ix; simpl; [by intros [= _ <-]|].
  destruct (negb _); [|apply IH]. destruct (first_bit 32 0 (word bm ix)); [by intros [= _ <-]|done].
Qed.

Lemma bitmap_free_nbits bm i bm' : bitmap_free bm i = Ok bm' -> nbits bm' = nbits bm.
Proof.
  unfold bitmap_free, bitmap_translate. destruct (i <? nbits bm); [|done]. simpl. destruct (kassert _); [|done..]. by intros [= <-].
Qed.

(** [bitmap_test] sees exactly the free bits. *)
Lemma bitmap_test_spec (bm : bitmap) (i : Z) :
  bm_wf bm -> 0 <= i < nbits bm -> exists v, bitmap_test bm i = Ok v /\ (v =? 0) = negb (free_bit bm i).
Proof.
  intros Hwf Hi. unfold bitmap_test. rewrite translate_ok by lia. simpl. eexists. split; [done|].
  rewrite i32_nonzero by apply land_range, word_range, Hwf. apply free_mask. lia.
Qed.

(** [bitmap_alloc] takes the least free block of the map and marks only
    that block used; it reports [-E_NO_MEM], leaving the map alone, exactly
    when no block is free, and its [assert(0)] is unreachable. *)
Theorem bitmap_alloc_least (bm : bitmap) :
  bm_wf bm ->
  exists r bm', bitmap_alloc bm = Ok (r, bm') /\
    match r with
    | AllocErr e => e = - E_NO_MEM /\ bm' = bm /\ forall i, 0 <= i -> free_bit bm i = false
    | AllocOk k => 0 <= k < nbits bm /\ free_bit bm k = true /\
        (forall i, 0 <= i < k -> free_bit bm i = false) /\
        (forall i, 0 <= i -> free_bit bm' i = if decide (i = k) then false else free_bit bm i) /\
        bm_wf bm'
    end.
Proof. apply bitmap_alloc_spec. Qed.

(** [bitmap_free] panics on an index outside the map and on a block that
    is already free; otherwise it marks exactly that block free, keeps the
    map well formed, and [bitmap_test] then sees it free. *)
Theorem bitmap_free_correct (bm : bitmap) (index : Z) :
  bm_wf bm -> 0 <= index ->
  match bitmap_free bm index with
  | Ok bm' => index < nbits bm /\ free_bit bm index = false /\ bm_wf bm' /\
      (forall i, 0 <= i -> free_bit bm' i = if decide (i = index) then true else free_bit bm i) /\
      exists v, bitmap_test bm' index = Ok v /\ v <> 0
  | Panic => nbits bm <= index \/ free_bit bm index = true
  | Spin => False
  end.
Proof. apply bitmap_free_spec. Qed.

Definition demo_bitmap : bitmap := Bitmap 40 2 [0; 0x80].

Lemma demo_bitmap_wf : bm_wf demo_bitmap.
Proof.
  split; [done|simpl; lia|by repeat constructor|].
  intros i Hi. simpl in Hi. unfold free_bit.
  destruct (decide (i < 64)).
  - replace (i / 32) with 1 by lia. change (word demo_bitmap 1) with (2 ^ 7).
    rewrite Z.pow2_bits_eqb by lia. apply Z.eqb_neq. lia.
  - rewrite word_outside by (simpl; lia). apply Z.bits_0.
Defined.

Lemma bitmap_alloc_least_witness :
  bitmap_alloc demo_bitmap = Ok (AllocOk 39, Bitmap 40 2 [0; 0]) /\
  exists r bm', bitmap_alloc demo_bitmap = Ok (r, bm') /\
    match r with
    | AllocErr e => e = - E_NO_MEM /\ bm' = demo_bitmap /\ forall i, 0 <= i -> free_bit demo_bitmap i = false
    | AllocOk k => 0 <= k < nbits demo_bitmap /\ free_bit demo_bitmap k = true /\
        (forall i, 0 <= i < k -> free_bit demo_bitmap i = false) /\
        (forall i, 0 <= i -> free_bit bm' i = if decide (i = k) then false else free_bit demo_bitmap i) /\
        bm_wf bm'
    end.
Proof. split; [reflexivity|]. apply (bitmap_alloc_least demo_bitmap). exact demo_bitmap_wf. Defined.

Lemma bitmap_free_correct_witness :
  bitmap_free demo_bitmap 39 = Panic /\ bitmap_free demo_bitmap 40 = Panic /\
  match bitmap_free demo_bitmap 31 with
  | Ok bm' => 31 < nbits demo_bitmap /\ free_bit demo_bitmap 31 = false /\ bm_wf bm' /\
      (forall i, 0 <= i -> free_bit bm' i = if decide (i = 31) then true else free_bit demo_bitmap i) /\
      exists v, bitmap_test bm' 31 = Ok v /\ v <> 0
  | Panic => nbits demo_bitmap <= 31 \/ free_bit demo_bitmap 31 = true
  | Spin => False
  end.
Proof.
  split; [reflexivity|]. split; [reflexivity|].
  apply (bitmap_free_correct demo_bitmap 31); [exact demo_bitmap_wf|lia].
Defined.
