(* ===== verification/Libs.v ===== *)
(** * libs/string.c, libs/x86.h, libs/hash.c, libs/rand.c

    Memory is a function from addresses to bytes (0 to 255).  An object lies
    inside the address space, so addresses are not wrapped.  The compiled
    kernel uses the assembly routines of [x86.h] for [strcpy], [strcmp],
    [memset], [memmove] and [memcpy] ([__HAVE_ARCH_...] is defined); the
    portable bodies of [string.c] are kept beside them under the suffix
    [_c]. *)
From S2P Require Import Prelude.

Definition mem := Z -> Z.

Definition upd (m : mem) (a v : Z) : mem := fun b => if b =? a then v else m b.

(** ** Scanning *)
Fixpoint strlen_loop (fuel : nat) (m : mem) (s cnt : Z) : res Z :=
  match fuel with
  | O => Spin
  | S fuel => if negb (m s =? 0) then strlen_loop fuel m (s + 1) (u32 (cnt + 1)) else Ok cnt
  end.

Definition strlen (fuel : nat) (m : mem) (s : Z) : res Z := strlen_loop fuel m s 0.

(** [k] counts down the [len - cnt] steps the loop may still make. *)
Fixpoint strnlen_loop (k : nat) (m : mem) (s cnt : Z) : Z :=
  match k with
  | O => cnt
  | S k => if negb (m s =? 0) then strnlen_loop k m (s + 1) (cnt + 1) else cnt
  end.

Definition strnlen (m : mem) (s len : Z) : Z := strnlen_loop (Z.to_nat len) m s 0.

Fixpoint strchr (fuel : nat) (m : mem) (s c : Z) : res (option Z) :=
  match fuel with
  | O => Spin
  | S fuel =>
      if negb (m s =? 0) then
        if m s =? c then Ok (Some s) else strchr fuel m (s + 1) c
      else Ok None
  end.

Fixpoint strfind (fuel : nat) (m : mem) (s c : Z) : res Z :=
  match fuel with
  | O => Spin
  | S fuel =>
      if negb (m s =? 0) then
        if m s =? c then Ok s else strfind fuel m (s + 1) c
      else Ok s
  end.

(** ** Copying strings *)
Fixpoint strcpy_c (fuel : nat) (m : mem) (p src : Z) : res mem :=
  match fuel with
  | O => Spin
  | S fuel =>
      let m' := upd m p (m src) in
      if negb (m src =? 0) then strcpy_c fuel m' (p + 1) (src + 1) else Ok m'
  end.

(** [1: lodsb; stosb; testb %al, %al; jne 1b] *)
Fixpoint __strcpy (fuel : nat) (m : mem) (edi esi : Z) : res mem :=
  match fuel with
  | O => Spin
  | S fuel =>
      let al := m esi in
      let m' := upd m edi al in
      if negb (al =? 0) then __strcpy fuel m' (edi + 1) (esi + 1) else Ok m'
  end.

Definition strcpy (fuel : nat) (m : mem) (dst src : Z) : res mem := __strcpy fuel m dst src.

Definition strcat (fuel : nat) (m : mem) (dst src : Z) : res mem :=
  n ← strlen fuel m dst; strcpy fuel m (dst + n) src.

Fixpoint strncpy_loop (k : nat) (m : mem) (p src : Z) : mem :=
  match k with
  | O => m
  | S k =>
      let c := m src in
      strncpy_loop k (upd m p c) (p + 1) (if negb (c =? 0) then src + 1 else src)
  end.

Definition strncpy (m : mem) (dst src len : Z) : mem := strncpy_loop (Z.to_nat len) m dst src.

(** ** Comparing *)
Fixpoint strcmp_c (fuel : nat) (m : mem) (s1 s2 : Z) : res Z :=
  match fuel with
  | O => Spin
  | S fuel =>
      if negb (m s1 =? 0) && (m s1 =? m s2) then strcmp_c fuel m (s1 + 1) (s2 + 1)
      else Ok (m s1 - m s2)
  end.

(** [1: lodsb; scasb; jne 2f; testb %al, %al; jne 1b; xorl %eax, %eax; jmp 3f;
    2: sbbl %eax, %eax; orb $1, %al; 3:] where [scasb] sets the carry when
    [al] is below the byte compared with. *)
Fixpoint __strcmp (fuel : nat) (m : mem) (esi edi : Z) : res Z :=
  match fuel with
  | O => Spin
  | S fuel =>
      let al := m esi in
      if negb (al =? m edi) then
        let cf := if al <? m edi then 1 else 0 in
        Ok (Z.lor (- cf) 1)
      else if negb (al =? 0) then __strcmp fuel m (esi + 1) (edi + 1)
      else Ok 0
  end.

Definition strcmp (fuel : nat) (m : mem) (s1 s2 : Z) : res Z := __strcmp fuel m s1 s2.

Fixpoint strncmp_loop (k : nat) (m : mem) (s1 s2 : Z) : Z :=
  match k with
  | O => 0
  | S k =>
      if negb (m s1 =? 0) && (m s1 =? m s2) then strncmp_loop k m (s1 + 1) (s2 + 1)
      else m s1 - m s2
  end.

Definition strncmp (m : mem) (s1 s2 n : Z) : Z := strncmp_loop (Z.to_nat n) m s1 s2.

Fixpoint memcmp_loop (k : nat) (m : mem) (s1 s2 : Z) : Z :=
  match k with
  | O => 0
  | S k => if negb (m s1 =? m s2) then m s1 - m s2 else memcmp_loop k m (s1 + 1) (s2 + 1)
  end.

Definition memcmp (m : mem) (v1 v2 n : Z) : Z := memcmp_loop (Z.to_nat n) m v1 v2.

(** ** Filling and copying memory *)
Fixpoint fill (k : nat) (m : mem) (p c : Z) : mem :=
  match k with O => m | S k => fill k (upd m p c) (p + 1) c end.

Definition memset (m : mem) (s c n : Z) : mem := fill (Z.to_nat n) m s c.

(** [*d ++ = *s ++], [k] times ([rep movsb] with the direction flag clear). *)
Fixpoint copy_up (k : nat) (m : mem) (d s : Z) : mem :=
  match k with O => m | S k => copy_up k (upd m d (m s)) (d + 1) (s + 1) end.

(** [*-- d = *-- s], [k] times. *)
Fixpoint copy_down (k : nat) (m : mem) (d s : Z) : mem :=
  match k with O => m | S k => copy_down k (upd m (d - 1) (m (s - 1))) (d - 1) (s - 1) end.

(** One [movsl]: four bytes are read before the first is written. *)
Definition movsl (m : mem) (d s : Z) : mem :=
  upd (upd (upd (upd m d (m s)) (d + 1) (m (s + 1))) (d + 2) (m (s + 2))) (d + 3) (m (s + 3)).

Fixpoint rep_movsl (k : nat) (m : mem) (d s : Z) : mem :=
  match k with O => m | S k => rep_movsl k (movsl m d s) (d + 4) (s + 4) end.

Definition __memcpy (m : mem) (dst src n : Z) : mem :=
  let m' := rep_movsl (Z.to_nat (n / 4)) m dst src in
  let ecx := Z.land n 3 in
  if ecx =? 0 then m' else copy_up (Z.to_nat ecx) m' (dst + 4 * (n / 4)) (src + 4 * (n / 4)).

Definition memcpy_c (m : mem) (dst src n : Z) : mem := copy_up (Z.to_nat n) m dst src.

Definition memcpy (m : mem) (dst src n : Z) : mem := __memcpy m dst src n.

(** [std; rep; movsb; cld] from the last byte downwards. *)
Definition __memmove (m : mem) (dst src n : Z) : mem :=
  if dst <? src then __memcpy m dst src n
  else copy_down (Z.to_nat n) m (n - 1 + dst + 1) (n - 1 + src + 1).

Definition memmove_c (m : mem) (dst src n : Z) : mem :=
  if (src <? dst) && (src + n >? dst) then copy_down (Z.to_nat n) m (dst + n) (src + n)
  else copy_up (Z.to_nat n) m dst src.

Definition memmove (m : mem) (dst src n : Z) : mem := __memmove m dst src n.

(** ** strtol *)
Fixpoint skip_blanks (fuel : nat) (m : mem) (s : Z) : res Z :=
  match fuel with
  | O => Spin
  | S fuel => if (m s =? 32) || (m s =? 9) then skip_blanks fuel m (s + 1) else Ok s
  end.

(** The value of a digit or letter, [None] for any other character. *)
Definition digit (c : Z) : option Z :=
  if (48 <=? c) && (c <=? 57) then Some (c - 48)
  else if (97 <=? c) && (c <=? 122) then Some (c - 97 + 10)
  else if (65 <=? c) && (c <=? 90) then Some (c - 65 + 10)
  else None.

Fixpoint digits_loop (fuel : nat) (m : mem) (s base val : Z) : res (Z * Z) :=
  match fuel with
  | O => Spin
  | S fuel =>
      match digit (m s) with
      | None => Ok (val, s)
      | Some dig =>
          if dig >=? base then Ok (val, s)
          else digits_loop fuel m (s + 1) base (i32 (val * base + dig))
      end
  end.

(** Returns the value and the end pointer; the arithmetic of [long] wraps. *)
Definition strtol (fuel : nat) (m : mem) (s base : Z) : res (Z * Z) :=
  s ← skip_blanks fuel m s;
  let '(s, neg) := if m s =? 43 then (s + 1, false) else if m s =? 45 then (s + 1, true) else (s, false) in
  let '(s, base) :=
    if ((base =? 0) || (base =? 16)) && ((m s =? 48) && (m (s + 1) =? 120)) then (s + 2, 16)
    else if (base =? 0) && (m s =? 48) then (s + 1, 8)
    else if base =? 0 then (s, 10) else (s, base) in
  '(val, e) ← digits_loop fuel m s base 0;
  Ok (if neg : bool then i32 (- val) else val, e).

(** ** hash.c and rand.c *)
Definition GOLDEN_RATIO_PRIME_32 : Z := 0x9e370001.

Definition hash32 (val bits : Z) : Z := Z.shiftr (u32 (val * GOLDEN_RATIO_PRIME_32)) (32 - bits).

(** [do_div(n, base)]: quotient and remainder of a 64-bit value by two 32-bit
    [divl] steps; [None] is the divide error of [divl]. *)
Definition do_div (n base : Z) : option (Z * Z) :=
  let low := u32 n in
  let high := Z.shiftr n 32 in
  let '(upper, high') := if negb (high =? 0) then (high mod base, high / base) else (high, high) in
  let dividend := upper * 2 ^ 32 + low in
  if (base =? 0) || (dividend / base >=? 2 ^ 32) then None
  else Some (high' * 2 ^ 32 + dividend / base, dividend mod base).

Definition RAND_MAX : Z := 2147483647.

(** The new [next] and the result. *)
Definition rand (next : Z) : option (Z * Z) :=
  let next := Z.land (u64 (next * 0x5DEECE66D + 0xB)) (2 ^ 48 - 1) in
  match do_div (Z.shiftr next 12) (RAND_MAX + 1) with
  | Some (_, r) => Some (next, i32 r)
  | None => None
  end.

Definition srand (seed : Z) : Z := seed.

(** ** Reference meaning of a copy and of a string *)

(** Every byte of the destination is the byte the source held before. *)
Definition copied (m : mem) (dst src n : Z) (m' : mem) : Prop :=
  forall a, m' a = if (dst <=? a) && (a <? dst + n) then m (src + (a - dst)) else m a.

(** The bytes [l] lie at [s]. *)
Definition bytes_at (m : mem) (s : Z) (l : list Z) : Prop :=
  forall i c, l !! i = Some c -> m (s + Z.of_nat i) = c.

(** A NUL terminated string. *)
Definition cstr (m : mem) (s : Z) (l : list Z) : Prop :=
  bytes_at m s (l ++ [0]) /\ Forall (fun c => 0 < c < 256) l.

Fixpoint lex (l1 l2 : list Z) : comparison :=
  match l1, l2 with
  | [], [] => Eq
  | [], _ :: _ => Lt
  | _ :: _, [] => Gt
  | a :: l1, b :: l2 => match a ?= b with Eq => lex l1 l2 | c => c end
  end.

(** ** Memory *)
Lemma upd_eq m a v b : upd m a v b = if b =? a then v else m b.
Proof. reflexivity. Qed.

Lemma copy_up_spec k m d s :
  d <= s \/ s + Z.of_nat k <= d -> copied m d s (Z.of_nat k) (copy_up k m d s).
Proof.
  revert m d s. induction k as [|k IH]; intros m d s H a; cbn [copy_up].
  - repeat (zcase; simpl); done || lia.
  - rewrite IH by lia. rewrite !upd_eq.
    repeat (zcase; simpl); try lia; try done; f_equal; lia.
Qed.

Lemma copy_down_spec k m d s :
  s <= d \/ d + Z.of_nat k <= s ->
  copied m d s (Z.of_nat k) (copy_down k m (d + Z.of_nat k) (s + Z.of_nat k)).
Proof.
  revert m. induction k as [|k IH]; intros m H a; cbn [copy_down].
  - repeat (zcase; simpl); done || lia.
  - replace (d + Z.of_nat (S k) - 1) with (d + Z.of_nat k) by lia.
    replace (s + Z.of_nat (S k) - 1) with (s + Z.of_nat k) by lia.
    rewrite IH by lia. rewrite !upd_eq.
    repeat (zcase; simpl); try lia; try done; f_equal; lia.
Qed.

Lemma movsl_spec m d s : copied m d s 4 (movsl m d s).
Proof.
  intros a. unfold movsl. rewrite !upd_eq.
  repeat (zcase; simpl); subst; try lia; try done; f_equal; lia.
Qed.

Lemma rep_movsl_spec k m d s :
  d <= s \/ s + 4 * Z.of_nat k <= d -> copied m d s (4 * Z.of_nat k) (rep_movsl k m d s).
Proof.
  revert m d s. induction k as [|k IH]; intros m d s H a; cbn [rep_movsl].
  - repeat (zcase; simpl); done || lia.
  - rewrite IH by lia. rewrite !(movsl_spec m d s).
    repeat (zcase; simpl); try lia; try done; f_equal; lia.
Qed.

Lemma land_3 n : 0 <= n -> Z.land n 3 = n - 4 * (n / 4).
Proof.
  intros Hn. change 3 with (Z.ones 2). rewrite Z.land_ones by lia. change (2 ^ 2) with 4.
  pose proof (Z.div_mod n 4). lia.
Qed.

Lemma memcpy_asm_spec m dst src n :
  0 <= n -> dst <= src \/ src + n <= dst -> copied m dst src n (__memcpy m dst src n).
Proof.
  intros Hn H a. unfold __memcpy. rewrite land_3 by done.
  pose proof (Z.div_mod n 4 ltac:(lia)) as Hdm. pose proof (Z.mod_pos_bound n 4 ltac:(lia)) as Hb.
  set (q := n / 4) in *. assert (Hq : 0 <= q) by lia.
  assert (Hm : copied m dst src (4 * q) (rep_movsl (Z.to_nat q) m dst src)).
  { replace (4 * q) with (4 * Z.of_nat (Z.to_nat q)) by lia. apply rep_movsl_spec. lia. }
  destruct (Z.eqb_spec (n - 4 * q) 0) as [Hz|Hz].
  - rewrite Hm. repeat (zcase; simpl); try lia; try done.
  - rewrite (copy_up_spec (Z.to_nat (n - 4 * q))) by lia. rewrite !Hm.
    repeat (zcase; simpl); try lia; try done; f_equal; lia.
Qed.

Lemma copy_down_n m dst src n :
  0 <= n -> src <= dst \/ dst + n <= src -> copied m dst src n (copy_down (Z.to_nat n) m (dst + n) (src + n)).
Proof.
  intros Hn H. pose proof (copy_down_spec (Z.to_nat n) m dst src) as Hc.
  rewrite Z2Nat.id in Hc by done. apply Hc. lia.
Qed.

(** [memmove] moves a block correctly whatever the overlap of source and
    destination: the assembly version the kernel runs (upward in words of
    four when the destination is lower, else downward by bytes) and the
    portable loop of string.c both leave in the destination exactly the bytes
    the source held before, and change nothing else. *)
Theorem memmove_correct (m : mem) (dst src n : Z) :
  0 <= n -> copied m dst src n (memmove m dst src n) /\ copied m dst src n (memmove_c m dst src n).
Proof.
  intros Hn. split.
  - unfold memmove, __memmove. destruct (Z.ltb_spec dst src).
    + apply memcpy_asm_spec; lia.
    + replace (n - 1 + dst + 1) with (dst + n) by lia. replace (n - 1 + src + 1) with (src + n) by lia.
      apply copy_down_n; lia.
  - unfold memmove_c. destruct (Z.ltb_spec src dst), (Z.gtb_spec (src + n) dst); simpl;
      (apply copy_down_n; lia) || (replace n with (Z.of_nat (Z.to_nat n)) at 1 by lia; apply copy_up_spec; lia).
Qed.

Lemma memmove_correct_witness :
  let m : mem := fun a => a + 1 in
  memmove m 102 100 6 107 = 106 /\
  copied m 102 100 6 (memmove m 102 100 6) /\ copied m 102 100 6 (memmove_c m 102 100 6).
Proof. intros m. split; [reflexivity|]. apply (memmove_correct m 102 100 6). lia. Defined.

(** ** Strings *)
Lemma cstr_nil m s : cstr m s [] -> m s = 0.
Proof. intros [H _]. specialize (H 0%nat 0 eq_refl). by replace (s + Z.of_nat 0) with s in H by lia. Qed.

Lemma cstr_cons m s c l : cstr m s (c :: l) -> m s = c /\ 0 < c < 256 /\ cstr m (s + 1) l.
Proof.
  intros [H Hf]. apply Forall_cons in Hf as [Hc Hf]. split_and!.
  - specialize (H 0%nat c eq_refl). by replace (s + Z.of_nat 0) with s in H by lia.
  - lia.
  - lia.
  - split; [|done]. intros i d Hi. specialize (H (S i) d Hi).
    by replace (s + Z.of_nat (S i)) with (s + 1 + Z.of_nat i) in H by lia.
Qed.

Lemma lex_eq l1 l2 : lex l1 l2 = Eq <-> l1 = l2.
Proof.
  split.
  - revert l2. induction l1 as [|a l1 IH]; destruct l2 as [|b l2]; simpl; try done.
    destruct (Z.compare_spec a b); try done. intros. f_equal; auto.
  - intros <-. induction l1 as [|a l1 IH]; simpl; [done|]. by rewrite Z.compare_refl.
Qed.

Lemma strcmp_c_spec l1 l2 m s1 s2 fuel :
  cstr m s1 l1 -> cstr m s2 l2 -> (length l1 < fuel)%nat ->
  exists r, strcmp_c fuel m s1 s2 = Ok r /\ (r ?= 0) = lex l1 l2.
Proof.
  revert l2 s1 s2 fuel. induction l1 as [|a l1 IH]; intros l2 s1 s2 fuel H1 H2 Hf;
    (destruct fuel as [|fuel]; [simpl in Hf; lia|]); simpl.
  - apply cstr_nil in H1. rewrite H1. simpl. destruct l2 as [|b l2].
    + apply cstr_nil in H2. rewrite H2. by eexists.
    + apply cstr_cons in H2 as (-> & Hb & _). eexists. split; [done|]. apply Z.compare_lt_iff. lia.
  - apply cstr_cons in H1 as (-> & Ha & H1). rewrite (proj2 (Z.eqb_neq a 0)) by lia. simpl.
    destruct l2 as [|b l2].
    + apply cstr_nil in H2. rewrite H2. rewrite (proj2 (Z.eqb_neq a 0)) by lia.
      eexists. split; [done|]. apply Z.compare_gt_iff. lia.
    + apply cstr_cons in H2 as (-> & Hb & H2). simpl in Hf. destruct (Z.compare_spec a b) as [->|Hl|Hg].
      * rewrite Z.eqb_refl. apply IH; [done..|lia].
      * rewrite (proj2 (Z.eqb_neq a b)) by lia. eexists. split; [done|]. apply Z.compare_lt_iff. lia.
      * rewrite (proj2 (Z.eqb_neq a b)) by lia. eexists. split; [done|]. apply Z.compare_gt_iff. lia.
Qed.

Definition sign (c : comparison) : Z := match c with Lt => -1 | Eq => 0 | Gt => 1 end.

Lemma strcmp_asm_spec l1 l2 m s1 s2 fuel :
  cstr m s1 l1 -> cstr m s2 l2 -> (length l1 < fuel)%nat ->
  __strcmp fuel m s1 s2 = Ok (sign (lex l1 l2)).
Proof.
  revert l2 s1 s2 fuel. induction l1 as [|a l1 IH]; intros l2 s1 s2 fuel H1 H2 Hf;
    (destruct fuel as [|fuel]; [simpl in Hf; lia|]); simpl.
  - apply cstr_nil in H1. rewrite H1. destruct l2 as [|b l2].
    + apply cstr_nil in H2. rewrite H2. done.
    + apply cstr_cons in H2 as (-> & Hb & _). rewrite (proj2 (Z.eqb_neq 0 b)) by lia. simpl.
      by rewrite (proj2 (Z.ltb_lt 0 b)) by lia.
  - apply cstr_cons in H1 as (-> & Ha & H1). destruct l2 as [|b l2].
    + apply cstr_nil in H2. rewrite H2. rewrite (proj2 (Z.eqb_neq a 0)) by lia. simpl.
      by rewrite (proj2 (Z.ltb_ge a 0)) by lia.
    + apply cstr_cons in H2 as (-> & Hb & H2). simpl in Hf. destruct (Z.compare_spec a b) as [->|Hl|Hg].
      * rewrite Z.eqb_refl, (proj2 (Z.eqb_neq b 0)) by lia. simpl. apply IH; [done..|lia].
      * rewrite (proj2 (Z.eqb_neq a b)) by lia. simpl. by rewrite (proj2 (Z.ltb_lt a b)) by lia.
      * rewrite (proj2 (Z.eqb_neq a b)) by lia. simpl. by rewrite (proj2 (Z.ltb_ge a b)) by lia.
Qed.

(** on two NUL terminated strings the assembly [strcmp] returns -1, 0 or
    1 and the portable loop a number of the same sign, namely that of the
    lexicographic order of the strings as unsigned bytes; 0 means the strings
    are equal. *)
Theorem strcmp_correct (m : mem) (s1 s2 : Z) (l1 l2 : list Z) (fuel : nat) :
  cstr m s1 l1 -> cstr m s2 l2 -> (length l1 < fuel)%nat ->
  exists r, strcmp_c fuel m s1 s2 = Ok r /\ (r ?= 0) = lex l1 l2 /\
    strcmp fuel m s1 s2 = Ok (sign (lex l1 l2)) /\ (r = 0 <-> l1 = l2).
Proof.
  intros H1 H2 Hf. destruct (strcmp_c_spec _ _ _ _ _ _ H1 H2 Hf) as (r & Hr & Hc).
  exists r. split_and!; [done..|by apply strcmp_asm_spec|].
  rewrite <- lex_eq, <- Hc. symmetry. apply Z.compare_eq_iff.
Qed.

(** A memory holding "abc" at 0 and "abd" at 8. *)
Definition demo_mem : mem := fun a =>
  default 0 ([97; 98; 99; 0; 0; 0; 0; 0; 97; 98; 100; 0] !! Z.to_nat a).

Lemma strcmp_correct_witness :
  strcmp 4 demo_mem 0 8 = Ok (-1) /\
  exists r, strcmp_c 4 demo_mem 0 8 = Ok r /\ (r ?= 0) = lex [97; 98; 99] [97; 98; 100] /\
    strcmp 4 demo_mem 0 8 = Ok (sign (lex [97; 98; 99] [97; 98; 100])) /\
    (r = 0 <-> [97; 98; 99] = [97; 98; 100]).
Proof.
  split; [reflexivity|]. apply (strcmp_correct demo_mem 0 8 [97; 98; 99] [97; 98; 100] 4).
  - split; [|by repeat constructor]. intros i c H. do 4 (destruct i as [|i]; [by injection H as <-|]). done.
  - split; [|by repeat constructor]. intros i c H. do 4 (destruct i as [|i]; [by injection H as <-|]). done.
  - simpl. lia.
Defined.

(** ** Numbers *)

(** Value of a digit string from the left, in a base. *)
Definition value_from (base acc : Z) (ds : list Z) : Z := fold_left (fun v d => v * base + d) ds acc.

(** [cs] are characters whose digits in [base] are [ds]. *)
Definition spells (base : Z) (cs ds : list Z) : Prop :=
  Forall2 (fun c d => digit c = Some d /\ d < base) cs ds.

(** The character ends a number in [base]. *)
Definition stops (base c : Z) : Prop := match digit c with None => True | Some d => base <= d end.

Lemma bytes_at_cons m s c l : bytes_at m s (c :: l) -> m s = c /\ bytes_at m (s + 1) l.
Proof.
  intros H. split.
  - specialize (H 0%nat c eq_refl). by replace (s + Z.of_nat 0) with s in H by lia.
  - intros i d Hi. specialize (H (S i) d Hi).
    by replace (s + Z.of_nat (S i)) with (s + 1 + Z.of_nat i) in H by lia.
Qed.

Lemma i32_step v base d : i32 (i32 v * base + d) = i32 (v * base + d).
Proof.
  unfold i32. f_equal.
  set (w := (v + 2 ^ 31) mod 2 ^ 32 - 2 ^ 31).
  assert (Hw : exists k, w = v + k * 2 ^ 32).
  { exists (- ((v + 2 ^ 31) / 2 ^ 32)). unfold w. pose proof (Z.div_mod (v + 2 ^ 31) (2 ^ 32)). lia. }
  destruct Hw as [k ->].
  replace ((v + k * 2 ^ 32) * base + d + 2 ^ 31) with (v * base + d + 2 ^ 31 + (k * base) * 2 ^ 32) by ring.
  apply Z_mod_plus_full.
Qed.

Lemma digits_loop_spec cs ds m s base v stop fuel :
  spells base cs ds -> stops base stop -> bytes_at m s (cs ++ [stop]) -> (length cs < fuel)%nat ->
  digits_loop fuel m s base (i32 v) = Ok (i32 (value_from base v ds), s + Z.of_nat (length cs)).
Proof.
  intros Hs. revert s v fuel. induction Hs as [|c d cs ds [Hd Hlt] Hs IH]; intros s v fuel Hstop Hm Hf;
    (destruct fuel as [|fuel]; [simpl in Hf; lia|]); simpl.
  - apply bytes_at_cons in Hm as [-> _]. unfold stops in Hstop.
    replace (s + Z.of_nat 0) with s by lia. destruct (digit stop) as [d|]; [|done].
    rewrite Z.geb_leb. by rewrite (proj2 (Z.leb_le base d)) by lia.
  - apply bytes_at_cons in Hm as [-> Hm]. rewrite Hd, Z.geb_leb, (proj2 (Z.leb_gt base d)) by lia.
    rewrite i32_step, IH by (done || (simpl in Hf; lia)). do 2 f_equal. lia.
Qed.

Lemma skip_blanks_spec ws m s c fuel :
  Forall (fun b => b = 32 \/ b = 9) ws -> c <> 32 -> c <> 9 -> bytes_at m s (ws ++ [c]) ->
  (length ws < fuel)%nat -> skip_blanks fuel m s = Ok (s + Z.of_nat (length ws)).
Proof.
  intros Hw H1 H2. revert s fuel. induction Hw as [|b ws Hb Hw IH]; intros s fuel Hm Hf;
    (destruct fuel as [|fuel]; [simpl in Hf; lia|]); simpl.
  - apply bytes_at_cons in Hm as [-> _]. rewrite !(proj2 (Z.eqb_neq c _)) by done. simpl.
    by replace (s + Z.of_nat 0) with s by lia.
  - apply bytes_at_cons in Hm as [-> Hm]. replace ((b =? 32) || (b =? 9)) with true by lia.
    rewrite IH by (done || (simpl in Hf; lia)). f_equal. lia.
Qed.

Lemma bytes_at_app m s l1 l2 :
  bytes_at m s (l1 ++ l2) -> bytes_at m s l1 /\ bytes_at m (s + Z.of_nat (length l1)) l2.
Proof.
  intros H. split.
  - intros i c Hi. apply H. by apply lookup_app_l_Some.
  - intros i c Hi. replace (s + Z.of_nat (length l1) + Z.of_nat i) with (s + Z.of_nat (length l1 + i)) by lia.
    apply H. rewrite lookup_app_r by lia. by replace (length l1 + i - length l1)%nat with i by lia.
Qed.

Lemma digit_ranges c d : digit c = Some d -> 48 <= c <= 57 \/ 65 <= c <= 90 \/ 97 <= c <= 122.
Proof. unfold digit. repeat (zcase; simpl); intros Hd; try discriminate; lia. Qed.

Definition sign_chars (sg : option bool) : list Z :=
  match sg with None => [] | Some false => [43] | Some true => [45] end.

(** [strtol] in an explicit base other than 16 reads blanks, an optional
    sign and a non-empty run of digits of the base, and stops at the first
    character that is no such digit: it returns the signed value of the
    digits, wrapped to 32 bits when it does not fit, and the address of the
    stopping character. *)
Theorem strtol_correct (m : mem) (s base : Z) (ws : list Z) (sg : option bool)
    (cs ds : list Z) (stop : Z) (fuel : nat) :
  base <> 0 -> base <> 16 -> Forall (fun b => b = 32 \/ b = 9) ws ->
  cs <> [] -> spells base cs ds -> stops base stop ->
  bytes_at m s (ws ++ sign_chars sg ++ cs ++ [stop]) ->
  (length ws + length cs < fuel)%nat ->
  strtol fuel m s base =
    Ok (i32 ((if sg is Some true then -1 else 1) * value_from base 0 ds),
        s + Z.of_nat (length (ws ++ sign_chars sg ++ cs))).
Proof.
  intros Hb0 Hb16 Hws Hne Hsp Hst Hm Hf.
  destruct cs as [|c0 cs]; [done|]. pose proof Hsp as Hsp'.
  apply Forall2_cons_inv_l in Hsp' as (d0 & ds' & [Hd0 _] & _ & _).
  apply digit_ranges in Hd0.
  assert (Hblank : skip_blanks fuel m s = Ok (s + Z.of_nat (length ws))).
  { destruct sg as [[]|]; simpl in Hm;
      (eapply skip_blanks_spec; [exact Hws| | | |lia]; [| |rewrite cons_middle, app_assoc in Hm;
        apply bytes_at_app in Hm as [Hm _]; exact Hm]; lia). }
  apply bytes_at_app in Hm as [_ Hm]. unfold strtol. rewrite Hblank, res_bind_ok.
  set (s1 := s + Z.of_nat (length ws)) in *. rewrite !length_app.
  rewrite !(proj2 (Z.eqb_neq base _)) by done. cbn [orb andb].
  assert (Hdig : forall s2, bytes_at m s2 ((c0 :: cs) ++ [stop]) ->
    digits_loop fuel m s2 base 0 = Ok (i32 (value_from base 0 ds), s2 + Z.of_nat (length (c0 :: cs)))).
  { intros s2 H2. change 0 with (i32 0). eapply digits_loop_spec; [done..|lia]. }
  destruct sg as [[]|]; simpl in Hm; apply bytes_at_cons in Hm as [Hc Hm]; rewrite Hc.
  - change (45 =? 43) with false. rewrite Z.eqb_refl. rewrite (Hdig _ Hm), res_bind_ok.
    f_equal. f_equal; [|simpl; lia]. unfold i32 at 1.
    replace (- i32 (value_from base 0 ds)) with (i32 (value_from base 0 ds) * -1 + 0) by lia.
    fold (i32 (i32 (value_from base 0 ds) * -1 + 0)). rewrite i32_step. f_equal. lia.
  - rewrite Z.eqb_refl. rewrite (Hdig _ Hm), res_bind_ok. f_equal. f_equal; [f_equal; lia|simpl; lia].
  - rewrite !(proj2 (Z.eqb_neq c0 _)) by lia. rewrite (Hdig s1), res_bind_ok.
    + f_equal. f_equal; [f_equal; lia|simpl; lia].
    + intros [|i] c Hi; [injection Hi as <-; rewrite <- Hc; f_equal; lia|].
      rewrite <- (Hm i c Hi). f_equal. lia.
Qed.

(** A memory holding " -42;" at 0. *)
Definition demo_num : mem := fun a => default 0 ([32; 45; 52; 50; 59] !! Z.to_nat a).

Lemma strtol_correct_witness : strtol 4 demo_num 0 10 = Ok (-42, 4).
Proof.
  change (strtol 4 demo_num 0 10 = Ok (i32 (-1 * value_from 10 0 [4; 2]),
    0 + Z.of_nat (length ([32] ++ sign_chars (Some true) ++ [52; 50])))).
  apply (strtol_correct demo_num 0 10 [32] (Some true) [52; 50] [4; 2] 59 4); try done.
  - by repeat constructor.
  - by repeat constructor.
  - intros i c H. do 5 (destruct i as [|i]; [by injection H as <-|]). done.
  - simpl. lia.
Defined.

(** [hash32] with [bits] in 1..32 is an index of a table of [2^bits]
    chains, so the pid hash never indexes outside its table, and [rand]
    never divides by overflow and stays in [0, RAND_MAX]. *)
Theorem hash_rand_bounds (val bits next : Z) :
  0 < bits <= 32 ->
  0 <= hash32 val bits < 2 ^ bits /\
  exists next' r, rand next = Some (next', r) /\ 0 <= next' < 2 ^ 48 /\ 0 <= r <= RAND_MAX.
Proof.
  intros Hb. split.
  - unfold hash32. rewrite Z.shiftr_div_pow2 by lia. pose proof (u32_range (val * GOLDEN_RATIO_PRIME_32)).
    split; [apply Z.div_pos; [lia|apply Z.pow_pos_nonneg; lia]|].
    apply Z.div_lt_upper_bound; [apply Z.pow_pos_nonneg; lia|].
    rewrite <- Z.pow_add_r by lia. replace (32 - bits + bits) with 32 by lia. lia.
  - unfold rand. set (nx := Z.land _ _). assert (Hnx : 0 <= nx < 2 ^ 48).
    { unfold nx. change (2 ^ 48 - 1) with (Z.ones 48). rewrite Z.land_ones by lia. apply Z.mod_pos_bound. lia. }
    assert (Hn : 0 <= Z.shiftr nx 12 < 2 ^ 36).
    { rewrite Z.shiftr_div_pow2 by lia. split; [apply Z.div_pos; lia|apply Z.div_lt_upper_bound; lia]. }
    unfold do_div, RAND_MAX. change (2147483647 + 1) with (2 ^ 31).
    set (n := Z.shiftr nx 12) in *. pose proof (u32_range n) as Hlow.
    assert (Hh : 0 <= Z.shiftr n 32 < 16).
    { rewrite Z.shiftr_div_pow2 by lia. split; [apply Z.div_pos; lia|apply Z.div_lt_upper_bound; lia]. }
    set (h := Z.shiftr n 32) in *.
    assert (Hhm : h mod 2 ^ 31 = h) by (apply Z.mod_small; lia).
    replace (if negb (h =? 0) then (h mod 2 ^ 31, h / 2 ^ 31) else (h, h)) with (h, 0)
      by (destruct (Z.eqb_spec h 0) as [->|]; cbn [negb]; [done|]; rewrite Hhm, Z.div_small by lia; done).
    change (2 ^ 31 =? 0) with false. cbn [orb].
    assert (Hq : (h * 2 ^ 32 + u32 n) / 2 ^ 31 < 2 ^ 32) by (apply Z.div_lt_upper_bound; lia).
    rewrite Z.geb_leb, (proj2 (Z.leb_gt _ _)) by lia. eexists _, _. split; [done|].
    pose proof (Z.mod_pos_bound (h * 2 ^ 32 + u32 n) (2 ^ 31) ltac:(lia)).
    rewrite i32_small by lia. lia.
Qed.

Lemma hash_rand_bounds_witness :
  0 <= hash32 12345 10 < 2 ^ 10 /\
  exists next' r, rand 1 = Some (next', r) /\ 0 <= next' < 2 ^ 48 /\ 0 <= r <= RAND_MAX.
Proof. apply (hash_rand_bounds 12345 10 1). lia. Defined.
