(* ===== verification/Vmm.v ===== *)
(** * kern/mm/vmm.c: virtual memory areas of a process

    The areas live in a store indexed by their address; [mmap_list] is the
    sequence of the addresses linked in the list of that name (ListH proves
    that the list.h operations act on a ring as on this sequence).  [pool]
    holds the addresses the next [kmalloc] calls return; an empty pool is a
    NULL result.  The calls of [unmap_range] are recorded in [unmapped]. *)
From S2P Require Import Prelude Libs.

Definition PGSIZE : Z := 4096.
Definition USERBASE : Z := 0x00200000.
Definition USERTOP : Z := 0xB0000000.
Definition KERNBASE : Z := 0xC0000000.
Definition KERNTOP : Z := 0xF8000000.
Definition E_INVAL : Z := 3.
Definition E_NO_MEM : Z := 4.

Definition VM_READ : Z := 1.
Definition VM_WRITE : Z := 2.
Definition VM_EXEC : Z := 4.
Definition VM_STACK : Z := 8.

Definition ROUNDDOWN (a n : Z) : Z := a - a mod n.
Definition ROUNDUP (a n : Z) : Z := ROUNDDOWN (u32 (u32 (a + n) - 1)) n.

Definition USER_ACCESS (start end_ : Z) : bool :=
  (USERBASE <=? start) && (start <? end_) && (end_ <=? USERTOP).
Definition KERN_ACCESS (start end_ : Z) : bool :=
  (KERNBASE <=? start) && (start <? end_) && (end_ <=? KERNTOP).

Record vma_struct := Vma { vm_mm : Z; vm_start : Z; vm_end : Z; vm_flags : Z }.

Record mm_struct := Mm {
  mm_addr : Z;
  mmap_list : list Z;
  mmap_cache : option Z;
  map_count : Z;
  mm_count : Z
}.

Record vmst := Vmst {
  mm : mm_struct;
  vmas : gmap Z vma_struct;
  pool : list Z;
  unmapped : list (Z * Z)
}.

Definition null_vma : vma_struct := Vma 0 0 0 0.
Definition vma (st : vmst) (a : Z) : vma_struct := default null_vma (vmas st !! a).

Definition set_mm (f : mm_struct -> mm_struct) (st : vmst) : vmst :=
  Vmst (f (mm st)) (vmas st) (pool st) (unmapped st).
Definition set_vma (a : Z) (v : vma_struct) (st : vmst) : vmst :=
  Vmst (mm st) (<[a := v]> (vmas st)) (pool st) (unmapped st).
Definition set_cache (c : option Z) (m : mm_struct) : mm_struct :=
  Mm (mm_addr m) (mmap_list m) c (map_count m) (mm_count m).
Definition set_list (l : list Z) (n : Z) (m : mm_struct) : mm_struct :=
  Mm (mm_addr m) l (mmap_cache m) n (mm_count m).
Definition unmap_range (s e : Z) (st : vmst) : vmst :=
  Vmst (mm st) (vmas st) (pool st) (unmapped st ++ [(s, e)]).

(** ** Creation *)

(** [mm] is the address kmalloc returned; the semaphore and the swap manager
    fields belong to other components. *)
Definition mm_create (addr : Z) (store : gmap Z vma_struct) (heap : list Z) : vmst :=
  Vmst (Mm addr [] None 0 0) store heap [].

Definition vma_create (start end_ flags : Z) (st : vmst) : option Z * vmst :=
  match pool st with
  | [] => (None, st)
  | a :: rest =>
      (Some a, Vmst (mm st) (<[a := Vma (vm_mm (vma st a)) start end_ flags]> (vmas st)) rest (unmapped st))
  end.

(** ** Lookup *)
Definition contains (v : vma_struct) (address : Z) : bool :=
  (vm_start v <=? address) && (address <? vm_end v).

Fixpoint first_containing (st : vmst) (l : list Z) (address : Z) : option Z :=
  match l with
  | [] => None
  | a :: l => if contains (vma st a) address then Some a else first_containing st l address
  end.

Definition find_vma (st : vmst) (address : Z) : option Z * vmst :=
  let cached := match mmap_cache (mm st) with
                | Some c => if contains (vma st c) address then Some c else None
                | None => None
                end in
  let found := match cached with
               | Some c => Some c
               | None => first_containing st (mmap_list (mm st)) address
               end in
  match found with
  | Some v => (Some v, set_mm (set_cache (Some v)) st)
  | None => (None, st)
  end.

(** ** Insertion and removal *)
Definition check_vma_overlap (prev next : vma_struct) : res unit :=
  _ ← kassert (vm_start prev <? vm_end prev);
  _ ← kassert (vm_end prev <=? vm_start next);
  kassert (vm_start next <? vm_end next).

(** The entries up to [le_prev] and those from [le_next] on. *)
Fixpoint split_at (st : vmst) (l : list Z) (start : Z) : list Z * list Z :=
  match l with
  | [] => ([], [])
  | a :: l' =>
      if vm_start (vma st a) >? start then ([], l)
      else let '(p, n) := split_at st l' start in (a :: p, n)
  end.

Definition insert_vma_struct (st : vmst) (a : Z) : res vmst :=
  let v := vma st a in
  _ ← kassert (vm_start v <? vm_end v);
  let '(before, after) := split_at st (mmap_list (mm st)) (vm_start v) in
  _ ← match last before with
      | Some le_prev => check_vma_overlap (vma st le_prev) v
      | None => Ok tt
      end;
  _ ← match head after with
      | Some le_next => check_vma_overlap v (vma st le_next)
      | None => Ok tt
      end;
  let st := set_vma a (Vma (mm_addr (mm st)) (vm_start v) (vm_end v) (vm_flags v)) st in
  Ok (set_mm (set_list (before ++ a :: after) (i32 (map_count (mm st) + 1))) st).

Definition remove_vma_struct (st : vmst) (a : Z) : res vmst :=
  _ ← kassert (mm_addr (mm st) =? vm_mm (vma st a));
  let m := mm st in
  let cache := match mmap_cache m with
               | Some c => if c =? a then None else Some c
               | None => None
               end in
  Ok (set_mm (fun m => set_cache cache (set_list (filter (fun b => b <> a) (mmap_list m)) (i32 (map_count m - 1)) m)) st).

Definition vma_resize (st : vmst) (a start end_ : Z) : res vmst :=
  let v := vma st a in
  _ ← kassert ((start mod PGSIZE =? 0) && (end_ mod PGSIZE =? 0));
  _ ← kassert ((vm_start v <=? start) && (start <? end_) && (end_ <=? vm_end v));
  Ok (set_vma a (Vma (vm_mm v) start end_ (vm_flags v)) st).

(** [kfree] of the area. *)
Definition vma_destroy (st : vmst) (a : Z) : vmst :=
  Vmst (mm st) (base.delete a (vmas st)) (pool st) (unmapped st).

(** The list is emptied from its head and every area freed. *)
Definition mm_destroy (st : vmst) : res (gmap Z vma_struct) :=
  _ ← kassert (mm_count (mm st) =? 0);
  Ok (foldl (fun s a => base.delete a s) (vmas st) (mmap_list (mm st))).

(** ** Mapping *)
Definition mm_map (st : vmst) (addr len flags : Z) : res (Z * option Z * vmst) :=
  let start := ROUNDDOWN addr PGSIZE in
  let end_ := ROUNDUP (u32 (addr + len)) PGSIZE in
  if negb (USER_ACCESS start end_) then Ok (- E_INVAL, None, st)
  else
    let '(found, st) := find_vma st start in
    if match found with Some v => end_ >? vm_start (vma st v) | None => false end
    then Ok (- E_INVAL, None, st)
    else
      match vma_create start end_ flags st with
      | (None, st) => Ok (- E_NO_MEM, None, st)
      | (Some a, st) => st ← insert_vma_struct st a; Ok (0, Some a, st)
      end.

(** The element after [a] in the list. *)
Fixpoint next_of (l : list Z) (a : Z) : option Z :=
  match l with
  | [] => None
  | b :: l => if b =? a then head l else next_of l a
  end.

(** First loop of [mm_unmap]: move the areas that start below [end_] to the
    front of [free_list]. *)
Fixpoint collect (fuel : nat) (end_ v : Z) (free_list : list Z) (st : vmst) : res (list Z * vmst) :=
  match fuel with
  | O => Spin
  | S fuel =>
      if vm_start (vma st v) <? end_ then
        let le := next_of (mmap_list (mm st)) v in
        st ← remove_vma_struct st v;
        let free_list := v :: free_list in
        match le with
        | None => Ok (free_list, st)
        | Some w => collect fuel end_ w free_list st
        end
      else Ok (free_list, st)
  end.

(** Second loop: put back what lies outside [start, end_), free the rest. *)
Fixpoint release (free_list : list Z) (start end_ : Z) (st : vmst) : res vmst :=
  match free_list with
  | [] => Ok st
  | a :: rest =>
      let v := vma st a in
      if vm_start v <? start then
        let un_start := start in
        let un_end := vm_end v in
        st ← vma_resize st a (vm_start v) un_start;
        st ← insert_vma_struct st a;
        release rest start end_ (unmap_range un_start un_end st)
      else
        let un_start := vm_start v in
        if end_ <? vm_end v then
          st ← vma_resize st a end_ (vm_end v);
          st ← insert_vma_struct st a;
          release rest start end_ (unmap_range un_start end_ st)
        else release rest start end_ (unmap_range un_start (vm_end v) (vma_destroy st a))
  end.

Definition mm_unmap (st : vmst) (addr len : Z) : res (Z * vmst) :=
  let start := ROUNDDOWN addr PGSIZE in
  let end_ := ROUNDUP (u32 (addr + len)) PGSIZE in
  if negb (USER_ACCESS start end_) then Ok (- E_INVAL, st)
  else
    match find_vma st start with
    | (None, st) => Ok (0, st)
    | (Some a, st) =>
        let v := vma st a in
        if end_ <=? vm_start v then Ok (0, st)
        else if (vm_start v <? start) && (end_ <? vm_end v) then
          match vma_create (vm_start v) start (vm_flags v) st with
          | (None, st) => Ok (- E_NO_MEM, st)
          | (Some n, st) =>
              st ← vma_resize st a end_ (vm_end v);
              st ← insert_vma_struct st n;
              Ok (0, unmap_range start end_ st)
          end
        else
          '(free_list, st) ← collect (S (length (mmap_list (mm st)))) end_ a [] st;
          st ← release free_list start end_ st;
          Ok (0, st)
    end.

Definition find_vma_intersection (st : vmst) (start end_ : Z) : option Z * vmst :=
  match find_vma st start with
  | (Some v, st) => (if end_ <=? vm_start (vma st v) then None else Some v, st)
  | (None, st) => (None, st)
  end.

Definition mm_brk (st : vmst) (addr len : Z) : res (Z * vmst) :=
  let start := ROUNDDOWN addr PGSIZE in
  let end_ := ROUNDUP (u32 (addr + len)) PGSIZE in
  if negb (USER_ACCESS start end_) then Ok (- E_INVAL, st)
  else
    '(ret, st) ← mm_unmap st start (u32 (end_ - start));
    if negb (ret =? 0) then Ok (ret, st)
    else
      let flags := Z.lor VM_READ VM_WRITE in
      let '(found, st) := find_vma st (u32 (start - 1)) in
      let create :=
        match vma_create start end_ flags st with
        | (None, st) => Ok (- E_NO_MEM, st)
        | (Some a, st) => st ← insert_vma_struct st a; Ok (0, st)
        end in
      match found with
      | Some a =>
          let v := vma st a in
          if (vm_end v =? start) && (vm_flags v =? flags)
          then Ok (0, set_vma a (Vma (vm_mm v) (vm_start v) end_ (vm_flags v)) st)
          else create
      | None => create
      end.

(** ** Duplication and teardown *)

(** [copy_range] gives the result of the call for a range. *)
Fixpoint dup_loop (copy_range : Z -> Z -> Z) (le : list vma_struct) (to : vmst) : res (Z * vmst) :=
  match le with
  | [] => Ok (0, to)
  | v :: le =>
      match vma_create (vm_start v) (vm_end v) (vm_flags v) to with
      | (None, to) => Ok (- E_NO_MEM, to)
      | (Some nvma, to) =>
          to ← insert_vma_struct to nvma;
          if negb (copy_range (vm_start v) (vm_end v) =? 0) then Ok (- E_NO_MEM, to)
          else dup_loop copy_range le to
      end
  end.

(** From the tail of [from]'s list to its head. *)
Definition dup_mmap (copy_range : Z -> Z -> Z) (to from : vmst) : res (Z * vmst) :=
  dup_loop copy_range (rev (vma from <$> mmap_list (mm from))) to.

(** The ranges handed to [unmap_range], then those handed to [exit_range]. *)
Definition exit_mmap (st : vmst) : res (list (Z * Z) * list (Z * Z)) :=
  _ ← kassert (mm_count (mm st) =? 0);
  let ranges := (fun a => (vm_start (vma st a), vm_end (vma st a))) <$> mmap_list (mm st) in
  Ok (ranges, ranges).

(** ** Access checks and copies *)
Fixpoint mem_check_loop (fuel : nat) (st : vmst) (start end_ : Z) (write : bool) : res (bool * vmst) :=
  match fuel with
  | O => Spin
  | S fuel =>
      if start <? end_ then
        match find_vma st start with
        | (None, st) => Ok (false, st)
        | (Some a, st) =>
            let v := vma st a in
            if start <? vm_start v then Ok (false, st)
            else if Z.land (vm_flags v) (if write then VM_WRITE else VM_READ) =? 0 then Ok (false, st)
            else if write && negb (Z.land (vm_flags v) VM_STACK =? 0) && (start <? u32 (vm_start v + PGSIZE))
            then Ok (false, st)
            else mem_check_loop fuel st (vm_end v) end_ write
        end
      else Ok (true, st)
  end.

(** [None] is a NULL [mm]. *)
Definition user_mem_check (m : option vmst) (addr len : Z) (write : bool) : res (bool * option vmst) :=
  match m with
  | Some st =>
      if negb (USER_ACCESS addr (u32 (addr + len))) then Ok (false, m)
      else
        '(b, st) ← mem_check_loop (S (length (mmap_list (mm st)))) st addr (u32 (addr + len)) write;
        Ok (b, Some st)
  | None => Ok (KERN_ACCESS addr (u32 (addr + len)), None)
  end.

Definition copy_from_user (m : option vmst) (ram : mem) (dst src len : Z) (writable : bool) :
    res (bool * mem * option vmst) :=
  '(ok, m) ← user_mem_check m src len writable;
  if negb ok then Ok (false, ram, m) else Ok (true, memcpy ram dst src len, m).

Definition copy_to_user (m : option vmst) (ram : mem) (dst src len : Z) : res (bool * mem * option vmst) :=
  '(ok, m) ← user_mem_check m dst len true;
  if negb ok then Ok (false, ram, m) else Ok (true, memcpy ram dst src len, m).

Fixpoint copy_string_loop (fuel : nat) (m : option vmst) (ram : mem) (dst src maxn part : Z) :
    res (bool * mem * option vmst) :=
  match fuel with
  | O => Spin
  | S fuel =>
      let part := if part >? maxn then maxn else part in
      '(ok, m) ← user_mem_check m src part false;
      if negb ok then Ok (false, ram, m)
      else
        let alen := strnlen ram src part in
        if alen <? part then Ok (true, memcpy ram dst src (alen + 1), m)
        else if part =? maxn then Ok (false, ram, m)
        else
          copy_string_loop fuel m (memcpy ram dst src part)
            (u32 (dst + part)) (u32 (src + part)) (maxn - part) PGSIZE
  end.

Definition copy_string (fuel : nat) (m : option vmst) (ram : mem) (dst src maxn : Z) :
    res (bool * mem * option vmst) :=
  copy_string_loop fuel m ram dst src maxn (u32 (ROUNDDOWN (u32 (src + PGSIZE)) PGSIZE - src)).

(** ** Specification: an ordered sequence of disjoint areas *)

Definition before (u v : vma_struct) : Prop := vm_end u <= vm_start v.
Definition overlap (u v : vma_struct) : Prop := vm_start u < vm_end v /\ vm_start v < vm_end u.
Definition nonempty (v : vma_struct) : Prop := vm_start v < vm_end v.

#[global] Instance before_dec u v : Decision (before u v).
Proof. unfold before. apply _. Defined.
#[global] Instance nonempty_dec v : Decision (nonempty v).
Proof. unfold nonempty. apply _. Defined.

(** The flags of the area that covers an address. *)
Fixpoint cover (vs : list vma_struct) (a : Z) : option Z :=
  match vs with
  | [] => None
  | v :: vs => if contains v a then Some (vm_flags v) else cover vs a
  end.

(** [l] is the area list of [st], in order, with the addresses. *)
Record rep (st : vmst) (l : list (Z * vma_struct)) : Prop := {
  rep_list : mmap_list (mm st) = l.*1;
  rep_store : Forall (fun x => vmas st !! x.1 = Some x.2) l;
  rep_nodup : NoDup (l.*1 ++ pool st);
  rep_mm : Forall (fun x => vm_mm x.2 = mm_addr (mm st)) l;
  rep_cache : forall c, mmap_cache (mm st) = Some c -> c ∈ l.*1;
  rep_count : map_count (mm st) = i32 (Z.of_nat (length l));
  rep_wf : Forall nonempty l.*2;
  rep_sorted : StronglySorted before l.*2
}.

(** ** Sorted sequences *)
Lemma ss_app {A} (R : A -> A -> Prop) l1 l2 :
  StronglySorted R (l1 ++ l2) <->
  StronglySorted R l1 /\ StronglySorted R l2 /\ (forall x y, x ∈ l1 -> y ∈ l2 -> R x y).
Proof.
  induction l1 as [|a l1 IH]; csimpl.
  - split; [intros H; split_and!; [constructor|done|intros x y Hx; by apply elem_of_nil in Hx]|by intros (_ & H & _)].
  - split.
    + intros H. apply StronglySorted_inv in H as [H Ha]. apply IH in H as (H1 & H2 & H3).
      rewrite Forall_app in Ha. destruct Ha as [Ha1 Ha2]. split_and!; [by constructor|done|].
      intros x y [->|Hx]%elem_of_cons Hy; [|by apply H3]. by eapply Forall_forall in Ha2.
    + intros (H1 & H2 & H3). apply StronglySorted_inv in H1 as [H1 Ha]. constructor.
      * apply IH. split_and!; [done..|]. intros. apply H3; [by right|done].
      * apply Forall_app. split; [done|]. apply Forall_forall. intros y Hy. apply H3; [left|done].
Qed.

Lemma ss_cons {A} (R : A -> A -> Prop) x l :
  StronglySorted R (x :: l) <-> StronglySorted R l /\ Forall (R x) l.
Proof. split; [apply StronglySorted_inv|]. intros [??]. by constructor. Qed.

Lemma cover_app l1 l2 a :
  cover (l1 ++ l2) a = match cover l1 a with Some f => Some f | None => cover l2 a end.
Proof. induction l1 as [|v l1 IH]; csimpl; [done|]. by destruct (contains v a). Qed.

Lemma cover_none vs a : Forall (fun v => contains v a = false) vs -> cover vs a = None.
Proof. induction 1 as [|v vs Hv _ IH]; csimpl; [done|]. by rewrite Hv. Qed.

Lemma contains_spec v a : contains v a = true <-> vm_start v <= a < vm_end v.
Proof. unfold contains. lia. Qed.

(** Writing the record of another area. *)
Lemma store_keep (store : gmap Z vma_struct) a w (l : list (Z * vma_struct)) :
  a ∉ l.*1 -> Forall (fun x => store !! x.1 = Some x.2) l ->
  Forall (fun x => <[a := w]> store !! x.1 = Some x.2) l.
Proof.
  intros Hnin HF. apply Forall_forall. intros [b v] Hin. eapply Forall_forall in HF; [|exact Hin].
  csimpl in *. rewrite lookup_insert_ne; [done|]. intros ->. apply Hnin. by eapply elem_fst.
Qed.

(** ** Consequences of [rep] *)
Lemma rep_vma st l a v : rep st l -> (a, v) ∈ l -> vma st a = v.
Proof.
  intros Hr Hin. pose proof (rep_store _ _ Hr) as Hs.
  eapply Forall_forall in Hs; [|exact Hin]. unfold vma. csimpl in Hs. by rewrite Hs.
Qed.

Lemma rep_addr_inj st l a v w : rep st l -> (a, v) ∈ l -> (a, w) ∈ l -> v = w.
Proof. intros Hr H1 H2. by rewrite <- (rep_vma _ _ _ _ Hr H1), <- (rep_vma _ _ _ _ Hr H2). Qed.

Lemma rep_wf_in st l a v : rep st l -> (a, v) ∈ l -> vm_start v < vm_end v.
Proof. intros Hr Hin. pose proof (rep_wf _ _ Hr) as H. eapply Forall_forall in H; [done|by eapply elem_snd]. Qed.

(** The list part of a state: what [find_vma] leaves alone. *)
Lemma rep_set_cache st l c : rep st l -> c ∈ l.*1 -> rep (set_mm (set_cache (Some c)) st) l.
Proof. intros [] Hc. split; csimpl; try done. by intros c' [= <-]. Qed.

Lemma first_containing_spec st l a (x := first_containing st l.*1 a) :
  Forall (fun x => vmas st !! x.1 = Some x.2) l ->
  match x with
  | Some c => exists v, (c, v) ∈ l /\ contains v a = true
  | None => Forall (fun v => contains v a = false) l.*2
  end.
Proof.
  unfold x. clear x. induction 1 as [|[b v] l Hv Hl IH]; csimpl; [constructor|].
  csimpl in Hv. replace (vma st b) with v by (unfold vma; by rewrite Hv).
  destruct (contains v a) eqn:Hc.
  - exists v. split; [left|done].
  - destruct (first_containing st l.*1 a) as [c|].
    + destruct IH as (w & Hin & Hw). exists w. split; [by right|done].
    + by constructor.
Qed.

Lemma find_vma_spec st l a :
  rep st l ->
  match find_vma st a with
  | (Some c, st') => exists v, (c, v) ∈ l /\ contains v a = true /\
      st' = set_mm (set_cache (Some c)) st /\ rep st' l
  | (None, st') => st' = st /\ Forall (fun v => contains v a = false) l.*2
  end.
Proof.
  intros Hr. unfold find_vma.
  pose proof (first_containing_spec st l a (rep_store _ _ Hr)) as Hf. rewrite (rep_list _ _ Hr).
  assert (Hfin : forall c v, (c, v) ∈ l -> contains v a = true -> exists v, (c, v) ∈ l /\ contains v a = true /\
      set_mm (set_cache (Some c)) st = set_mm (set_cache (Some c)) st /\ rep (set_mm (set_cache (Some c)) st) l).
  { intros c v Hin Hc. exists v. split_and!; [done..|]. apply rep_set_cache; [done|]. by eapply elem_fst. }
  destruct (mmap_cache (mm st)) as [c|] eqn:Hcache.
  - destruct (contains (vma st c) a) eqn:Hc.
    + apply (rep_cache _ _ Hr) in Hcache. apply list_elem_of_fmap in Hcache as ([c' v] & -> & Hin).
      csimpl in *. rewrite (rep_vma _ _ _ _ Hr Hin) in Hc. by eapply Hfin.
    + destruct (first_containing st l.*1 a) as [d|]; [|done]. destruct Hf as (v & Hin & Hv). by eapply Hfin.
  - destruct (first_containing st l.*1 a) as [d|]; [|done]. destruct Hf as (v & Hin & Hv). by eapply Hfin.
Qed.

(** ** Insertion *)
Lemma split_at_spec st l start :
  Forall (fun x => vmas st !! x.1 = Some x.2) l ->
  exists l1 l2, l = l1 ++ l2 /\ split_at st l.*1 start = (l1.*1, l2.*1) /\
    Forall (fun x => vm_start x.2 <= start) l1 /\
    match head l2 with Some x => start < vm_start x.2 | None => True end.
Proof.
  induction 1 as [|[a v] l Hv Hl (l1 & l2 & -> & Hs & H1 & H2)]; csimpl.
  - by exists [], [].
  - csimpl in Hv. replace (vma st a) with v by (unfold vma; by rewrite Hv).
    rewrite Z.gtb_ltb. destruct (Z.ltb_spec start (vm_start v)).
    + by exists [], ((a, v) :: l1 ++ l2).
    + exists ((a, v) :: l1), l2. rewrite Hs. split_and!; try done. by constructor.
Qed.

Definition owned_by (m : Z) (v : vma_struct) : vma_struct := Vma m (vm_start v) (vm_end v) (vm_flags v).

(** Linking an area between the areas below and those above it. *)
Lemma rep_insert st l1 l2 a v :
  rep st (l1 ++ l2) -> vma st a = v -> nonempty v -> a ∉ (l1 ++ l2).*1 -> a ∉ pool st ->
  Forall (fun x => vm_end x.2 <= vm_start v) l1 -> Forall (fun x => vm_end v <= vm_start x.2) l2 ->
  rep (set_mm (set_list (l1.*1 ++ a :: l2.*1) (i32 (map_count (mm st) + 1)))
        (set_vma a (owned_by (mm_addr (mm st)) v) st))
      (l1 ++ (a, owned_by (mm_addr (mm st)) v) :: l2).
Proof.
  intros Hr Hv Hne Ha Hp H1 H2. destruct Hr as [Hl Hs Hn Hm Hc Hk Hw Hso].
  rewrite fmap_app in Ha, Hn. rewrite fmap_app in Hw, Hso. apply not_elem_of_app in Ha as [Ha1 Ha2].
  apply Forall_app in Hs as [Hs1 Hs2], Hm as [Hm1 Hm2], Hw as [Hw1 Hw2].
  apply ss_app in Hso as (So1 & So2 & So3).
  split; csimpl.
  - rewrite fmap_app. done.
  - apply Forall_app. split; [by apply store_keep|]. constructor; [csimpl; apply lookup_insert_eq|by apply store_keep].
  - rewrite fmap_app, <- app_assoc. csimpl. rewrite <- app_assoc in Hn.
    rewrite <- (Permutation_middle l1.*1 (l2.*1 ++ pool st) a). apply NoDup_cons. split; [|done].
    rewrite !elem_of_app. tauto.
  - apply Forall_app. split; [done|]. by constructor.
  - intros c Hcc. apply Hc in Hcc. rewrite fmap_app in *. set_solver.
  - rewrite Hk. replace (i32 (Z.of_nat (length (l1 ++ l2))) + 1) with (i32 (Z.of_nat (length (l1 ++ l2))) * 1 + 1) by lia.
    rewrite i32_step. f_equal. rewrite !length_app. csimpl. lia.
  - rewrite fmap_app. apply Forall_app. split; [done|]. by constructor.
  - rewrite fmap_app. apply ss_app. split_and!; [done| |].
    + apply ss_cons. split; [done|]. by apply Forall_fmap.
    + intros x y Hx [->|Hy]%elem_of_cons; [|by apply So3].
      apply list_elem_of_fmap in Hx as ([b w] & -> & Hin). by eapply Forall_forall in H1; [|exact Hin].
Qed.

Lemma check_overlap_ok u v : nonempty u -> before u v -> nonempty v -> check_vma_overlap u v = Ok tt.
Proof.
  unfold nonempty, before. intros. unfold check_vma_overlap.
  by rewrite !kassert_true by lia.
Qed.

Lemma check_overlap_bad u v : nonempty u -> nonempty v -> ~ before u v -> check_vma_overlap u v = Panic.
Proof.
  unfold nonempty, before. intros. unfold check_vma_overlap, kassert.
  destruct (Z.ltb_spec (vm_start u) (vm_end u)); [|lia].
  destruct (Z.leb_spec (vm_end u) (vm_start v)); [lia|done].
Qed.

Lemma last_fmap {A B} (f : A -> B) l : last (f <$> l) = f <$> last l.
Proof. induction l as [|x [|y l] IH]; [done..|]. exact IH. Qed.

Lemma head_fmap {A B} (f : A -> B) l : head (f <$> l) = f <$> head l.
Proof. by destruct l. Qed.

(** The neighbours decide for the whole sequence. *)
Lemma below_last l v :
  Forall nonempty l.*2 -> StronglySorted before l.*2 ->
  (forall x, last l = Some x -> before x.2 v) ->
  Forall (fun x : Z * vma_struct => vm_end x.2 <= vm_start v) l.
Proof.
  intros Hw Hs Hl. destruct l as [|x0 l0]; [constructor|].
  destruct (list_snoc_cases x0 l0) as (l & y & Heq). rewrite Heq in *. clear Heq.
  specialize (Hl y). rewrite last_snoc in Hl. specialize (Hl eq_refl).
  apply Forall_app. split; [|by constructor].
  rewrite fmap_app in Hs, Hw. apply ss_app in Hs as (_ & _ & Hs). apply Forall_app in Hw as [_ Hy].
  apply Forall_cons in Hy as [Hy _].
  apply Forall_forall. intros [a w] Hin. assert (Hb : before w y.2).
  { apply Hs; [by eapply elem_snd|]. csimpl. left. }
  unfold before, nonempty in *. csimpl. lia.
Qed.

Lemma above_head l v :
  Forall nonempty l.*2 -> StronglySorted before l.*2 ->
  (forall x, head l = Some x -> before v x.2) ->
  Forall (fun x : Z * vma_struct => vm_end v <= vm_start x.2) l.
Proof.
  intros Hw Hs Hl. destruct l as [|x l]; [constructor|]. specialize (Hl x eq_refl). csimpl in *.
  apply ss_cons in Hs as [_ Hs]. apply Forall_cons in Hw as [Hx _]. constructor; [done|].
  apply Forall_forall. intros [a w] Hin. eapply Forall_forall in Hs; [|by eapply elem_snd].
  unfold before, nonempty in *. csimpl. lia.
Qed.

(** The second half of the insertion, once the left neighbour is checked. *)
Lemma insert_tail st l1 l2 a v :
  rep st (l1 ++ l2) -> vma st a = v -> a ∉ (l1 ++ l2).*1 -> a ∉ pool st -> nonempty v ->
  Forall nonempty l1.*2 -> StronglySorted before l1.*2 -> Forall nonempty l2.*2 -> StronglySorted before l2.*2 ->
  (forall x, last l1 = Some x -> before x.2 v) ->
  match head l2 with Some x => vm_start v < vm_start x.2 | None => True end ->
  (forall x, head l2 = Some x -> vma st x.1 = x.2 /\ nonempty x.2 /\ x ∈ l2) ->
  match (_ ← match fst <$> head l2 with
             | Some le_next => check_vma_overlap v (vma st le_next)
             | None => Ok tt
             end;
         Ok (set_mm (set_list (l1.*1 ++ a :: l2.*1) (i32 (map_count (mm st) + 1)))
              (set_vma a (owned_by (mm_addr (mm st)) v) st)))
  with
  | Ok st' => nonempty v /\ exists l1' l2', l1 ++ l2 = l1' ++ l2' /\
      Forall (fun x => vm_end x.2 <= vm_start v) l1' /\ Forall (fun x => vm_end v <= vm_start x.2) l2' /\
      st' = set_mm (set_list (l1'.*1 ++ a :: l2'.*1) (i32 (map_count (mm st) + 1)))
              (set_vma a (owned_by (mm_addr (mm st)) v) st) /\
      rep st' (l1' ++ (a, owned_by (mm_addr (mm st)) v) :: l2')
  | Panic => ~ nonempty v \/ exists x, x ∈ l1 ++ l2 /\ overlap x.2 v
  | Spin => False
  end.
Proof.
  intros Hr Hv Ha Hp Hne Hw1 Hs1 Hw2 Hs2 Hlast Hgt Hhead.
  pose proof (below_last l1 v Hw1 Hs1 Hlast) as H1.
  assert (Hok : (forall x, head l2 = Some x -> before v x.2) ->
    exists l1' l2', l1 ++ l2 = l1' ++ l2' /\
      Forall (fun x => vm_end x.2 <= vm_start v) l1' /\ Forall (fun x => vm_end v <= vm_start x.2) l2' /\
      set_mm (set_list (l1.*1 ++ a :: l2.*1) (i32 (map_count (mm st) + 1)))
              (set_vma a (owned_by (mm_addr (mm st)) v) st) =
      set_mm (set_list (l1'.*1 ++ a :: l2'.*1) (i32 (map_count (mm st) + 1)))
              (set_vma a (owned_by (mm_addr (mm st)) v) st) /\
      rep (set_mm (set_list (l1.*1 ++ a :: l2.*1) (i32 (map_count (mm st) + 1)))
              (set_vma a (owned_by (mm_addr (mm st)) v) st))
        (l1' ++ (a, owned_by (mm_addr (mm st)) v) :: l2')).
  { intros Hh. pose proof (above_head l2 v Hw2 Hs2 Hh) as H2. exists l1, l2. split_and!; try done.
    by apply rep_insert. }
  destruct (head l2) as [y|] eqn:Hy; csimpl; [|split; [done|]; by apply Hok].
  destruct (Hhead y eq_refl) as (-> & Hyne & Hyin). destruct (decide (before v y.2)) as [Hb|Hb].
  - rewrite check_overlap_ok, res_bind_ok by done. split; [done|]. apply Hok. by intros ? [= <-].
  - rewrite check_overlap_bad by done. right. exists y. split; [set_solver|].
    unfold before, overlap, nonempty in *. lia.
Qed.

Lemma insert_spec st l a v :
  rep st l -> vma st a = v -> a ∉ l.*1 -> a ∉ pool st ->
  match insert_vma_struct st a with
  | Ok st' => nonempty v /\ exists l1 l2, l = l1 ++ l2 /\
      Forall (fun x => vm_end x.2 <= vm_start v) l1 /\ Forall (fun x => vm_end v <= vm_start x.2) l2 /\
      st' = set_mm (set_list (l1.*1 ++ a :: l2.*1) (i32 (map_count (mm st) + 1)))
              (set_vma a (owned_by (mm_addr (mm st)) v) st) /\
      rep st' (l1 ++ (a, owned_by (mm_addr (mm st)) v) :: l2)
  | Panic => ~ nonempty v \/ exists x, x ∈ l /\ overlap x.2 v
  | Spin => False
  end.
Proof.
  intros Hr Hv Ha Hp. unfold insert_vma_struct. rewrite Hv.
  destruct (decide (vm_start v < vm_end v)) as [Hne|Hne].
  2: { unfold kassert. rewrite (proj2 (Z.ltb_ge _ _)) by lia. left. done. }
  rewrite kassert_true by lia. rewrite res_bind_ok.
  destruct (split_at_spec st l (vm_start v) (rep_store _ _ Hr)) as (l1 & l2 & -> & Hsp & H1 & H2).
  rewrite (rep_list _ _ Hr), Hsp, last_fmap, head_fmap.
  pose proof (rep_wf _ _ Hr) as Hw. pose proof (rep_sorted _ _ Hr) as Hs.
  rewrite fmap_app in Hw, Hs. apply Forall_app in Hw as [Hw1 Hw2]. apply ss_app in Hs as (Hs1 & Hs2 & _).
  assert (Hlast : forall x, last l1 = Some x -> vma st x.1 = x.2 /\ nonempty x.2 /\ x ∈ l1).
  { intros [b w] Hx. apply last_Some in Hx as [l' ->]. split_and!; [|eapply (rep_wf_in st _ b); [done|]; set_solver|set_solver].
    eapply rep_vma; [exact Hr|]. set_solver. }
  assert (Hhead : forall x, head l2 = Some x -> vma st x.1 = x.2 /\ nonempty x.2 /\ x ∈ l2).
  { intros [b w] Hx. destruct l2 as [|y l2]; [done|]. injection Hx as ->.
    split_and!; [|eapply (rep_wf_in st _ b); [done|]; set_solver|set_solver]. eapply rep_vma; [exact Hr|]. set_solver. }
  destruct (last l1) as [x|] eqn:Hl; csimpl.
  - destruct (Hlast x eq_refl) as (-> & Hxne & Hxin). destruct (decide (before x.2 v)) as [Hb|Hb].
    2: { rewrite check_overlap_bad by done. right. exists x. split; [set_solver|].
         eapply Forall_forall in H1; [|exact Hxin]. unfold before, overlap, nonempty in *. lia. }
    rewrite check_overlap_ok, res_bind_ok by done. apply (insert_tail st l1 l2 a v); try done.
    intros y. rewrite Hl. by intros [= <-].
  - apply (insert_tail st l1 l2 a v); try done. intros y. by rewrite Hl.
Qed.

(** Inserting at a known place. *)
Lemma split_at_app st l1 l2 start :
  Forall (fun x => vmas st !! x.1 = Some x.2) (l1 ++ l2) ->
  Forall (fun x => vm_start x.2 <= start) l1 ->
  match head l2 with Some x => start < vm_start x.2 | None => True end ->
  split_at st (l1 ++ l2).*1 start = (l1.*1, l2.*1).
Proof.
  intros Hs H1 H2. induction H1 as [|[a v] l1 Hv H1 IH]; csimpl in *.
  - destruct l2 as [|[b w] l2]; csimpl in *; [done|]. apply Forall_cons in Hs as [Hs _]. csimpl in Hs.
    replace (vma st b) with w by (unfold vma; by rewrite Hs).
    rewrite Z.gtb_ltb, (proj2 (Z.ltb_lt _ _)) by lia. done.
  - apply Forall_cons in Hs as [Hsv Hs]. csimpl in Hsv.
    replace (vma st a) with v by (unfold vma; by rewrite Hsv).
    rewrite Z.gtb_ltb, (proj2 (Z.ltb_ge _ _)) by lia. by rewrite IH.
Qed.

Lemma insert_at st l1 l2 a v :
  rep st (l1 ++ l2) -> vma st a = v -> nonempty v ->
  Forall (fun x => vm_end x.2 <= vm_start v) l1 -> Forall (fun x => vm_end v <= vm_start x.2) l2 ->
  insert_vma_struct st a =
    Ok (set_mm (set_list (l1.*1 ++ a :: l2.*1) (i32 (map_count (mm st) + 1)))
          (set_vma a (owned_by (mm_addr (mm st)) v) st)).
Proof.
  intros Hr Hv Hne H1 H2. unfold insert_vma_struct. rewrite Hv. unfold nonempty in Hne.
  rewrite kassert_true, res_bind_ok by lia. rewrite (rep_list _ _ Hr), (split_at_app st l1 l2).
  - assert (Hin : forall b w, (b, w) ∈ l1 ++ l2 -> vma st b = w /\ nonempty w).
    { intros b w Hb. split; [by eapply rep_vma|by eapply rep_wf_in]. }
    assert (Hl : match last l1.*1 with Some p => check_vma_overlap (vma st p) v | None => Ok tt end = Ok tt).
    { rewrite last_fmap. destruct (last l1) as [[b w]|] eqn:Hl; [|done]. csimpl.
      apply last_Some in Hl as [l' ->]. destruct (Hin b w) as [-> Hw]; [set_solver|].
      apply check_overlap_ok; [done| |done]. apply Forall_app in H1 as [_ H1]. apply Forall_cons in H1 as [H1 _]. exact H1. }
    assert (Hh : match head l2.*1 with Some p => check_vma_overlap v (vma st p) | None => Ok tt end = Ok tt).
    { destruct l2 as [|[b w] l2]; [done|]. csimpl. destruct (Hin b w) as [-> Hw]; [set_solver|].
      apply check_overlap_ok; [done| |done]. apply Forall_cons in H2 as [H2 _]. exact H2. }
    by rewrite Hl, res_bind_ok, Hh, res_bind_ok.
  - apply (rep_store _ _ Hr).
  - apply Forall_forall. intros [b w] Hb. pose proof (rep_wf_in _ _ b w Hr ltac:(set_solver)).
    eapply Forall_forall in H1; [|exact Hb]. csimpl in *. lia.
  - destruct l2 as [|x l2]; [done|]. apply Forall_cons in H2 as [H2 _]. csimpl. lia.
Qed.

(** ** Allocation, removal, resizing *)
Lemma vma_create_spec st l s e f :
  rep st l ->
  match vma_create s e f st with
  | (None, st') => pool st = [] /\ st' = st
  | (Some a, st') => rep st' l /\ a ∉ l.*1 /\ a ∉ pool st' /\ (exists m, vma st' a = Vma m s e f) /\
      mm st' = mm st /\ unmapped st' = unmapped st /\ pool st = a :: pool st'
  end.
Proof.
  intros Hr. unfold vma_create. destruct (pool st) as [|a rest] eqn:Hp; [done|].
  pose proof (rep_nodup _ _ Hr) as Hn. rewrite Hp in Hn.
  rewrite <- Permutation_middle in Hn. apply NoDup_cons in Hn as [Ha Hn].
  rewrite elem_of_app in Ha. split_and!; csimpl; try done; try tauto.
  - destruct Hr as [Hl Hs _ Hm Hc Hk Hw Hso]. split; csimpl; try done.
    apply store_keep; [tauto|done].
  - eexists. unfold vma at 1. csimpl. by rewrite lookup_insert_eq.
Qed.

Lemma remove_spec st l1 l2 a v :
  rep st (l1 ++ (a, v) :: l2) ->
  exists st', remove_vma_struct st a = Ok st' /\ rep st' (l1 ++ l2) /\
    vmas st' = vmas st /\ pool st' = pool st /\ unmapped st' = unmapped st /\ mm_addr (mm st') = mm_addr (mm st) /\
    a ∉ (l1 ++ l2).*1.
Proof.
  intros Hr. assert (Hv : vma st a = v) by (eapply rep_vma; [done|set_solver]).
  destruct Hr as [Hl Hs Hn Hm Hc Hk Hw Hso]. unfold remove_vma_struct. rewrite Hv.
  apply Forall_app in Hs as [Hs1 Hs2], Hm as [Hm1 Hm2]. apply Forall_cons in Hm2 as [Hmv Hm2], Hs2 as [_ Hs2].
  csimpl in Hmv. rewrite Hmv, Z.eqb_refl, kassert_true, res_bind_ok by done. eexists. split; [done|].
  rewrite !fmap_app in *. csimpl in *. rewrite <- app_assoc in Hn. csimpl in Hn.
  rewrite <- Permutation_middle in Hn. apply NoDup_cons in Hn as [Ha Hn]. rewrite !elem_of_app in Ha.
  assert (Hfl : filter (fun b => b <> a) (mmap_list (mm st)) = l1.*1 ++ l2.*1)
    by (rewrite Hl; apply filter_ne_app; tauto).
  split_and!; csimpl; try done; [|rewrite elem_of_app; tauto].
  apply Forall_app in Hw as [Hw1 Hw2]. apply Forall_cons in Hw2 as [_ Hw2].
  apply ss_app in Hso as (So1 & So2 & So3). apply ss_cons in So2 as [So2 _].
  split; csimpl.
  - by rewrite fmap_app.
  - by apply Forall_app.
  - by rewrite fmap_app, <- app_assoc.
  - by apply Forall_app.
  - intros c. destruct (mmap_cache (mm st)) as [d|]; [|done]. specialize (Hc d eq_refl).
    destruct (Z.eqb_spec d a); [done|]. intros [= <-]. rewrite fmap_app. set_solver.
  - rewrite Hk. replace (i32 (Z.of_nat (length (l1 ++ (a, v) :: l2))) - 1)
      with (i32 (Z.of_nat (length (l1 ++ (a, v) :: l2))) * 1 + -1) by lia.
    rewrite i32_step. f_equal. rewrite !length_app. csimpl. lia.
  - rewrite fmap_app. by apply Forall_app.
  - rewrite fmap_app. apply ss_app. split_and!; try done. intros x y Hx Hy. apply So3; [done|by right].
Qed.

(** An area may take any bounds between its neighbours. *)
Lemma rep_change st l1 l2 a v s e :
  rep st (l1 ++ (a, v) :: l2) -> s < e -> Forall (fun x => vm_end x.2 <= s) l1 -> Forall (fun x => e <= vm_start x.2) l2 ->
  rep (set_vma a (Vma (vm_mm v) s e (vm_flags v)) st) (l1 ++ (a, Vma (vm_mm v) s e (vm_flags v)) :: l2).
Proof.
  intros Hr Hse Hprev Hnext. destruct Hr as [Hl Hs Hn Hm Hc Hk Hw Hso].
  rewrite !fmap_app in *. csimpl in *.
  apply Forall_app in Hs as [Hs1 Hs2], Hm as [Hm1 Hm2], Hw as [Hw1 Hw2].
  apply Forall_cons in Hm2 as [Hmv Hm2], Hs2 as [_ Hs2], Hw2 as [_ Hw2].
  pose proof Hn as Hn'. rewrite <- app_assoc in Hn'. csimpl in Hn'. rewrite <- Permutation_middle in Hn'.
  apply NoDup_cons in Hn' as [Ha _]. rewrite !elem_of_app in Ha.
  apply ss_app in Hso as (So1 & So2 & So3). apply ss_cons in So2 as [So2 Hva].
  split; csimpl; rewrite ?fmap_app; csimpl; try done.
  - apply Forall_app. split; [apply store_keep; tauto|]. constructor; [csimpl; apply lookup_insert_eq|apply store_keep; tauto].
  - apply Forall_app. split; [done|]. by constructor.
  - rewrite Hk, !length_app. done.
  - apply Forall_app. split; [done|]. constructor; [unfold nonempty; csimpl; lia|done].
  - apply ss_app. split_and!; [done| |].
    + apply ss_cons. split; [done|]. by rewrite Forall_fmap.
    + intros x y Hx [->|Hy]%elem_of_cons; [|apply So3; [done|by right]].
      apply list_elem_of_fmap in Hx as (z & -> & Hz). by apply (proj1 (Forall_forall _ _) Hprev).
Qed.

(** The areas before and behind one. *)
Lemma rep_around st l1 l2 a v : rep st (l1 ++ (a, v) :: l2) ->
  Forall (fun x => vm_end x.2 <= vm_start v) l1 /\ Forall (fun x => vm_end v <= vm_start x.2) l2.
Proof.
  intros Hr. pose proof (rep_sorted _ _ Hr) as Hs. rewrite fmap_app in Hs. csimpl in Hs. apply ss_app in Hs as (_ & S2 & S3).
  apply ss_cons in S2 as [_ S2]. rewrite Forall_fmap in S2. split; [|exact S2].
  apply Forall_forall. intros x Hx. apply (S3 x.2 v); [by apply list_elem_of_fmap_2|left].
Qed.

Lemma rep_resize st l1 l2 a v s e :
  rep st (l1 ++ (a, v) :: l2) -> vm_start v <= s -> s < e -> e <= vm_end v ->
  rep (set_vma a (Vma (vm_mm v) s e (vm_flags v)) st) (l1 ++ (a, Vma (vm_mm v) s e (vm_flags v)) :: l2).
Proof.
  intros Hr H1 H2 H3. destruct (rep_around _ _ _ _ _ Hr) as [Hp Hn].
  apply rep_change; [done|done|eapply Forall_impl; [exact Hp|]; simpl; lia|eapply Forall_impl; [exact Hn|]; simpl; lia].
Qed.

(** ** Unmapping *)

(** What [release] puts back of an area that meets [s, e), and the range it
    hands to [unmap_range]. *)
Definition piece (s e : Z) (x : Z * vma_struct) : list (Z * vma_struct) :=
  let '(a, v) := x in
  if vm_start v <? s then [(a, Vma (vm_mm v) (vm_start v) s (vm_flags v))]
  else if e <? vm_end v then [(a, Vma (vm_mm v) e (vm_end v) (vm_flags v))]
  else [].

Definition lost (s e : Z) (v : vma_struct) : Z * Z :=
  if vm_start v <? s then (s, vm_end v)
  else if e <? vm_end v then (vm_start v, e)
  else (vm_start v, vm_end v).

#[local] Arguments piece : simpl never.
#[local] Arguments lost : simpl never.

Definition aligned (v : vma_struct) : Prop := vm_start v mod PGSIZE = 0 /\ vm_end v mod PGSIZE = 0.

(** An area [mm_unmap] collects: it meets [s, e) and does not stick out on
    both sides. *)
Definition hit (s e : Z) (v : vma_struct) : Prop :=
  vm_start v < e /\ s < vm_end v /\ (s <= vm_start v \/ vm_end v <= e).

Definition in_ranges (a : Z) (rs : list (Z * Z)) : Prop := exists r, r ∈ rs /\ r.1 <= a < r.2.

Lemma resize_ok st a s e v :
  vma st a = v -> s mod PGSIZE = 0 -> e mod PGSIZE = 0 -> vm_start v <= s -> s < e -> e <= vm_end v ->
  vma_resize st a s e = Ok (set_vma a (Vma (vm_mm v) s e (vm_flags v)) st).
Proof.
  intros Hv H1 H2 H3 H4 H5. unfold vma_resize. rewrite Hv. rewrite H1, H2.
  rewrite !Z.eqb_refl. rewrite (kassert_true (true && true)), res_bind_ok by done.
  by rewrite kassert_true, res_bind_ok by lia.
Qed.

Lemma set_vma_lookup st a v : vma (set_vma a v st) a = v.
Proof. unfold vma, set_vma. csimpl. by rewrite lookup_insert_eq. Qed.

Lemma set_vma_rep st l a v : a ∉ l.*1 -> rep st l -> rep (set_vma a v st) l.
Proof. intros Ha []. split; csimpl; try done. by apply store_keep. Qed.

Lemma rep_unmap_range st l s e : rep st l -> rep (unmap_range s e st) l.
Proof. intros []. by split. Qed.

(** Putting a cut area back between its neighbours. *)
Lemma putback st pre post a v s e ss ee :
  rep st (pre ++ post) -> vma st a = v -> a ∉ (pre ++ post).*1 -> a ∉ pool st ->
  vm_mm v = mm_addr (mm st) ->
  ss mod PGSIZE = 0 -> ee mod PGSIZE = 0 -> vm_start v <= ss -> ss < ee -> ee <= vm_end v ->
  Forall (fun x => vm_end x.2 <= vm_start v) pre -> Forall (fun x => vm_end v <= vm_start x.2) post ->
  exists st', (st ← vma_resize st a ss ee; st ← insert_vma_struct st a; Ok (unmap_range s e st)) = Ok st' /\
    rep st' (pre ++ (a, Vma (vm_mm v) ss ee (vm_flags v)) :: post) /\
    vmas st' = <[a := Vma (vm_mm v) ss ee (vm_flags v)]> (vmas st) /\ pool st' = pool st /\
    mm_addr (mm st') = mm_addr (mm st) /\ unmapped st' = unmapped st ++ [(s, e)].
Proof.
  intros Hr Hv Ha Hp Hm H1 H2 H3 H4 H5 Hpre Hpost. rewrite (resize_ok st a ss ee v), res_bind_ok by done.
  set (w := Vma (vm_mm v) ss ee (vm_flags v)).
  assert (Hpre' : Forall (fun x : Z * vma_struct => vm_end x.2 <= vm_start w) pre)
    by (eapply Forall_impl; [exact Hpre|]; csimpl; lia).
  assert (Hpost' : Forall (fun x : Z * vma_struct => vm_end w <= vm_start x.2) post)
    by (eapply Forall_impl; [exact Hpost|]; csimpl; lia).
  pose proof (set_vma_rep st _ a w Ha Hr) as Hr'. pose proof (set_vma_lookup st a w) as Hw.
  rewrite (insert_at _ pre post a w), res_bind_ok by done.
  assert (Ho : owned_by (mm_addr (mm (set_vma a w st))) w = w) by (unfold w, owned_by; csimpl; by rewrite Hm).
  eexists. split; [done|]. pose proof (rep_insert _ pre post a w Hr' Hw H4 Ha Hp Hpre' Hpost') as Hi.
  rewrite Ho in *. split_and!; csimpl; try done.
  - by apply rep_unmap_range.
  - apply insert_insert_eq.
Qed.

Lemma piece_bounds s e x y : nonempty x.2 -> hit s e x.2 -> s < e -> y ∈ piece s e x ->
  y.1 = x.1 /\ vm_start x.2 <= vm_start y.2 < vm_end y.2 /\ vm_end y.2 <= vm_end x.2 /\
  vm_mm y.2 = vm_mm x.2 /\ (vm_end y.2 <= s \/ e <= vm_start y.2).
Proof.
  destruct x as [a v]. unfold nonempty, hit, piece. csimpl. intros Hne Hh Hse.
  repeat zcase; intros Hy; try (apply list_elem_of_singleton in Hy as ->; csimpl; repeat split; lia).
  by apply elem_of_nil in Hy.
Qed.

(** A step of [release] replaces one area by its piece. *)
Lemma release_step st pre post a v rest s e :
  rep st (pre ++ post) -> vma st a = v -> a ∉ (pre ++ post).*1 -> a ∉ pool st ->
  vm_mm v = mm_addr (mm st) -> nonempty v -> hit s e v -> s < e -> aligned v ->
  s mod PGSIZE = 0 -> e mod PGSIZE = 0 ->
  Forall (fun x => vm_end x.2 <= vm_start v) pre -> Forall (fun x => vm_end v <= vm_start x.2) post ->
  exists st', release (a :: rest) s e st = release rest s e st' /\
    rep st' (pre ++ piece s e (a, v) ++ post) /\
    (forall b, b <> a -> vmas st' !! b = vmas st !! b) /\ pool st' = pool st /\
    mm_addr (mm st') = mm_addr (mm st) /\ unmapped st' = unmapped st ++ [lost s e v].
Proof.
  intros Hr Hv Ha Hp Hm Hne Hh Hse [Hal1 Hal2] Hs He Hpre Hpost. unfold hit, nonempty in *.
  cbn [release]. unfold piece, lost. rewrite Hv. destruct (Z.ltb_spec (vm_start v) s); [|destruct (Z.ltb_spec e (vm_end v))].
  - destruct (putback st pre post a v s (vm_end v) (vm_start v) s) as (st' & Heq & Hr' & Hst & Hpo & Hma & Hu);
      try done; try lia. exists st'. split_and!; try done.
    + destruct (vma_resize st a (vm_start v) s) as [st1| |]; try done. csimpl in *.
      destruct (insert_vma_struct st1 a) as [st2| |]; try done. csimpl in *. by injection Heq as <-.
    + intros b Hb. rewrite Hst. by rewrite lookup_insert_ne.
  - destruct (putback st pre post a v (vm_start v) e e (vm_end v)) as (st' & Heq & Hr' & Hst & Hpo & Hma & Hu);
      try done; try lia. exists st'. split_and!; try done.
    + destruct (vma_resize st a e (vm_end v)) as [st1| |]; try done. csimpl in *.
      destruct (insert_vma_struct st1 a) as [st2| |]; try done. csimpl in *. by injection Heq as <-.
    + intros b Hb. rewrite Hst. by rewrite lookup_insert_ne.
  - eexists. split; [done|]. split_and!; csimpl; try done.
    + destruct Hr as [Hl Hsto Hn Hmm Hc Hk Hw Hso]. split; csimpl; try done.
      apply Forall_forall. intros [b w] Hin. eapply Forall_forall in Hsto; [|exact Hin]. csimpl in *.
      rewrite lookup_delete_ne; [done|]. intros ->. apply Ha. by eapply elem_fst.
    + intros b Hb. by rewrite lookup_delete_ne.
Qed.

#[local] Arguments release : simpl never.

Lemma release_spec s e pre seg :
  s < e -> s mod PGSIZE = 0 -> e mod PGSIZE = 0 ->
  forall post st,
  rep st (pre ++ post) ->
  Forall (fun x => vmas st !! x.1 = Some x.2 /\ vm_mm x.2 = mm_addr (mm st) /\
            x.1 ∉ (pre ++ post).*1 /\ x.1 ∉ pool st) seg ->
  NoDup seg.*1 -> StronglySorted before seg.*2 ->
  Forall (fun v => nonempty v /\ hit s e v /\ aligned v) seg.*2 ->
  (forall x y, x ∈ pre -> y ∈ seg -> before x.2 y.2) ->
  (forall x y, x ∈ seg -> y ∈ post -> before x.2 y.2) ->
  exists st', release (rev seg.*1) s e st = Ok st' /\
    rep st' (pre ++ (seg ≫= piece s e) ++ post) /\ pool st' = pool st /\
    unmapped st' = unmapped st ++ (lost s e <$> rev seg.*2).
Proof.
  intros Hse Hs He. induction seg as [|[a v] seg IH] using rev_ind; intros post st Hr Hst Hnd Hso Hok Hpre Hpost.
  { exists st. csimpl. rewrite app_nil_r. done. }
  rewrite !fmap_app in *. csimpl in *. rewrite !rev_app_distr. cbn [rev app].
  apply Forall_app in Hst as [Hst Hsa], Hok as [Hok Hoa]. apply Forall_cons in Hsa as [(H1 & H2 & H3 & H4) _].
  apply Forall_cons in Hoa as [(H5 & H6 & H7) _]. csimpl in *.
  apply NoDup_app in Hnd as (Hnd & Hna & _). apply ss_app in Hso as (Hso & _ & Hsv).
  destruct (release_step st pre post a v (rev seg.*1) s e) as (st1 & Heq & Hr1 & Hk1 & Hp1 & Hm1 & Hu1); try done.
  { unfold vma. by rewrite H1. }
  { by rewrite fmap_app. }
  { apply Forall_forall. intros x Hx. apply (Hpre x (a, v) Hx). set_solver. }
  { apply Forall_forall. intros x Hx. apply (Hpost (a, v) x); [set_solver|done]. }
  destruct (IH (piece s e (a, v) ++ post) st1) as (st' & Heq' & Hr' & Hp' & Hu'); try done.
  - apply Forall_forall. intros [b w] Hin. assert (Hb : b <> a).
    { intros ->. apply (Hna a); [by eapply elem_fst|left]. }
    eapply Forall_forall in Hst; [|exact Hin]. destruct Hst as (Q1 & Q2 & Q3 & Q4). csimpl in *.
    rewrite Hk1, Hm1, Hp1 by done. split_and!; try done. rewrite !fmap_app, !not_elem_of_app in *. split; [tauto|].
    split; [|tauto]. intros Hp. apply list_elem_of_fmap in Hp as (y & -> & Hy).
    by apply piece_bounds in Hy as (? & _); csimpl in *.
  - intros x y Hx Hy. apply Hpre; [done|set_solver].
  - intros x y Hx [Hy|Hy]%elem_of_app; [|apply Hpost; [set_solver|done]].
    apply piece_bounds in Hy as (_ & Hb & _); try done. csimpl in Hb.
    destruct x as [b w]. specialize (Hsv w v ltac:(by eapply elem_snd) ltac:(left)). unfold before in *. csimpl. lia.
  - exists st'. change (rev [a] ++ rev seg.*1) with (a :: rev seg.*1). rewrite Heq. split_and!; [done| | |].
    + by rewrite bind_app, bind_singleton, <- app_assoc.
    + by rewrite Hp', Hp1.
    + rewrite Hu', Hu1, <- app_assoc. done.
Qed.

Lemma next_of_app (l1 l2 : list Z) a : a ∉ l1 -> next_of (l1 ++ a :: l2) a = head l2.
Proof.
  induction l1 as [|b l1 IH]; csimpl; intros H.
  - by rewrite Z.eqb_refl.
  - apply not_elem_of_cons in H as [Hb H]. rewrite (proj2 (Z.eqb_neq b a)) by congruence. by apply IH.
Qed.

Lemma collect_spec e seg : forall fuel pre a v post free st,
  rep st (pre ++ (a, v) :: seg ++ post) ->
  Forall (fun x => vm_start x.2 < e) ((a, v) :: seg) ->
  match head post with Some x => e <= vm_start x.2 | None => True end ->
  (length seg + 1 < fuel)%nat ->
  exists st', collect fuel e a free st = Ok (rev ((a, v) :: seg).*1 ++ free, st') /\
    rep st' (pre ++ post) /\ vmas st' = vmas st /\ pool st' = pool st /\ unmapped st' = unmapped st /\
    mm_addr (mm st') = mm_addr (mm st).
Proof.
  induction seg as [|[b w] seg IH]; intros fuel pre a v post free st Hr Hlt Hpost Hf;
    (destruct fuel as [|fuel]; [lia|]); cbn [collect];
    apply Forall_cons in Hlt as [Ha Hlt]; csimpl in Ha;
    rewrite (rep_vma _ _ a v Hr) by set_solver; rewrite (proj2 (Z.ltb_lt _ _)) by lia;
    destruct (remove_spec _ _ _ _ _ Hr) as (st1 & Hrm & Hr1 & Hv1 & Hp1 & Hu1 & Hm1 & Hna);
    rewrite Hrm, res_bind_ok, (rep_list _ _ Hr), fmap_app; csimpl;
    rewrite next_of_app by (rewrite fmap_app in Hna; set_solver).
  - csimpl in *. destruct post as [|[c u] post]; csimpl.
    + exists st1. done.
    + destruct fuel as [|fuel]; [csimpl in Hf; lia|]. cbn [collect].
      rewrite (rep_vma _ _ c u Hr1) by set_solver. csimpl in Hpost.
      rewrite (proj2 (Z.ltb_ge _ _)) by lia. exists st1. done.
  - csimpl. destruct (IH fuel pre b w post (a :: free) st1) as (st' & Hc & Hr' & Hv' & Hp' & Hu' & Hm');
      [done|done|done|csimpl in Hf; lia|].
    exists st'. rewrite Hc. csimpl. rewrite <- !app_assoc. csimpl. split_and!; try done; congruence.
Qed.

Lemma cover_pieces s e (seg : list (Z * vma_struct)) a :
  s < e -> Forall (fun v => nonempty v /\ hit s e v) seg.*2 ->
  cover (seg ≫= piece s e).*2 a = if (s <=? a) && (a <? e) then None else cover seg.*2 a.
Proof.
  intros Hse. induction seg as [|[b v] seg IH]; csimpl; intros Hf.
  - by destruct ((s <=? a) && (a <? e)).
  - apply Forall_cons in Hf as [[Hne Hh] Hf]. rewrite fmap_app, cover_app, (IH Hf).
    unfold piece, nonempty, hit in *.
    repeat (zcase; csimpl); unfold contains; csimpl; repeat (zcase; csimpl); done || lia.
Qed.

Lemma lost_ranges s e (seg : list vma_struct) a :
  s < e -> Forall (fun v => nonempty v /\ hit s e v) seg ->
  in_ranges a (lost s e <$> seg) <-> s <= a < e /\ cover seg a <> None.
Proof.
  intros Hse. unfold in_ranges. induction seg as [|v seg IH]; intros Hf.
  - csimpl. split; [intros (r & Hr & _); by apply elem_of_nil in Hr|tauto].
  - apply Forall_cons in Hf as [[Hne Hh] Hf]. specialize (IH Hf).
    assert (Hv : (lost s e v).1 <= a < (lost s e v).2 <-> s <= a < e /\ contains v a = true).
    { unfold lost, nonempty, hit, contains in *. repeat (zcase; csimpl); lia. }
    csimpl. split.
    + intros (r & [->|Hr]%elem_of_cons & Ha).
      * apply Hv in Ha as [? ->]. done.
      * destruct IH as [IH _]. destruct IH as [? ?]; [by exists r|]. split; [done|]. by destruct (contains v a).
    + intros [Ha Hc]. destruct (contains v a) eqn:Hcv.
      * exists (lost s e v). split; [left|]. by apply Hv.
      * destruct IH as [_ IH]. destruct IH as (r & Hr & Hra); [done|]. exists r. split; [by right|done].
Qed.

Lemma rounddown_aligned a : ROUNDDOWN a PGSIZE mod PGSIZE = 0.
Proof.
  unfold ROUNDDOWN, PGSIZE. rewrite Zminus_mod, Zmod_mod, <- Zminus_mod, Z.sub_diag. done.
Qed.

Lemma split_below e (l : list (Z * vma_struct)) :
  exists seg post, l = seg ++ post /\ Forall (fun x => vm_start x.2 < e) seg /\
    match head post with Some x => e <= vm_start x.2 | None => True end.
Proof.
  induction l as [|x l (seg & post & -> & H1 & H2)].
  - by exists [], [].
  - destruct (Z.lt_ge_cases (vm_start x.2) e).
    + exists (x :: seg), post. split_and!; try done. by constructor.
    + by exists [], (x :: seg ++ post).
Qed.

(** An address outside every listed area. *)
Lemma cover_none_in (l : list (Z * vma_struct)) a :
  (forall x, x ∈ l -> vm_end x.2 <= a \/ a < vm_start x.2) -> cover l.*2 a = None.
Proof.
  intros H. apply cover_none. apply Forall_fmap, Forall_forall. intros x Hx. specialize (H x Hx).
  csimpl. unfold contains. lia.
Qed.

(** What [rep] says of a middle part of the list. *)
Lemma rep_middle st pre sg post :
  rep st (pre ++ sg ++ post) ->
  Forall (fun x => vmas st !! x.1 = Some x.2 /\ vm_mm x.2 = mm_addr (mm st) /\
            x.1 ∉ (pre ++ post).*1 /\ x.1 ∉ pool st) sg /\
  NoDup sg.*1 /\ StronglySorted before sg.*2 /\
  (forall x y, x ∈ pre -> y ∈ sg -> before x.2 y.2) /\
  (forall x y, x ∈ sg -> y ∈ post -> before x.2 y.2).
Proof.
  intros [_ Hsto Hn Hmm _ _ _ Hso]. rewrite !fmap_app in Hn. rewrite !fmap_app in Hso.
  apply Forall_app in Hsto as [_ Hsto], Hmm as [_ Hmm]. apply Forall_app in Hsto as [Hsto _], Hmm as [Hmm _].
  apply ss_app in Hso as (_ & Hso & So1). apply ss_app in Hso as (Hss & _ & So2).
  rewrite <- !app_assoc in Hn. apply NoDup_app in Hn as (_ & Hn1 & Hn). apply NoDup_app in Hn as (Hns & Hn2 & _).
  split_and!; try done.
  - apply Forall_forall. intros [b w] Hin. assert (b ∈ sg.*1) by (by eapply elem_fst). csimpl. rewrite fmap_app.
    split_and!; [exact (proj1 (Forall_forall _ _) Hsto _ Hin)|exact (proj1 (Forall_forall _ _) Hmm _ Hin)|set_solver|set_solver].
  - intros [? ?] [? ?] Hx Hy. csimpl. apply So1; [by eapply elem_snd|]. apply elem_of_app. left. by eapply elem_snd.
  - intros [? ?] [? ?] Hx Hy. csimpl. apply So2; by eapply elem_snd.
Qed.

(** The collected areas meet the range. *)
Lemma collected_hit st pre a v seg post s e :
  rep st (pre ++ ((a, v) :: seg) ++ post) -> s < e -> contains v s = true ->
  ~ (vm_start v < s /\ e < vm_end v) -> Forall (fun x => vm_start x.2 < e) seg ->
  Forall (fun w => nonempty w /\ hit s e w) ((a, v) :: seg).*2.
Proof.
  intros Hr Hse Hc Hnm Hseg. apply contains_spec in Hc.
  destruct (rep_middle _ _ _ _ Hr) as (_ & _ & Hss & _). apply ss_cons in Hss as [_ Hss].
  apply Forall_fmap, Forall_forall. intros [b w] Hin. csimpl.
  pose proof (rep_wf_in _ _ b w Hr ltac:(set_solver)). split; [done|]. unfold hit.
  apply elem_of_cons in Hin as [[= -> ->]|Hin]; [lia|].
  eapply Forall_forall in Hseg; [|exact Hin].
  eapply Forall_forall in Hss; [|by eapply elem_snd]. unfold before in Hss. csimpl in *. lia.
Qed.

(** The other areas do not. *)
Lemma others_missed st pre a v seg post s e b :
  rep st (pre ++ ((a, v) :: seg) ++ post) -> contains v s = true ->
  match head post with Some x => e <= vm_start x.2 | None => True end -> s <= b < e ->
  cover pre.*2 b = None /\ cover post.*2 b = None.
Proof.
  intros Hr Hc Hpost Hb. apply contains_spec in Hc.
  destruct (rep_middle _ _ _ _ Hr) as (_ & _ & _ & Hpre & _). split; apply cover_none_in; intros x Hx.
  - left. specialize (Hpre x (a, v) Hx ltac:(left)). unfold before in Hpre. csimpl in *. lia.
  - right. destruct post as [|y post]; [by apply elem_of_nil in Hx|]. csimpl in Hpost.
    apply elem_of_cons in Hx as [->|Hx]; [lia|].
    pose proof (rep_sorted _ _ Hr) as Hp. rewrite !fmap_app in Hp. apply ss_app in Hp as (_ & Hp & _).
    apply ss_app in Hp as (_ & Hp & _). csimpl in Hp. apply ss_cons in Hp as [_ Hp]. destruct x as [c u], y as [d w].
    eapply Forall_forall in Hp; [|by eapply elem_snd]. unfold before in Hp. csimpl in *.
    pose proof (rep_wf_in _ _ d w Hr ltac:(set_solver)). lia.
Qed.

Lemma in_ranges_rev a (f : vma_struct -> Z * Z) vs : in_ranges a (f <$> rev vs) <-> in_ranges a (f <$> vs).
Proof.
  unfold in_ranges. split; intros (r & Hr & Ha); exists r; (split; [|done]);
    apply list_elem_of_fmap in Hr as (v & -> & Hv); apply list_elem_of_fmap; exists v; (split; [done|]);
    [by apply list_elem_of_In, in_rev, list_elem_of_In in Hv|by apply list_elem_of_In, in_rev; rewrite rev_involutive; apply list_elem_of_In].
Qed.

(** The loop branch of [mm_unmap] on a state whose areas are known. *)
Lemma unmap_loop_spec st pre a v rest s e :
  rep st (pre ++ (a, v) :: rest) -> Forall aligned (pre ++ (a, v) :: rest).*2 ->
  s < e -> s mod PGSIZE = 0 -> e mod PGSIZE = 0 -> contains v s = true ->
  ~ (vm_start v < s /\ e < vm_end v) ->
  exists st' l', ('(free_list, st1) ← collect (S (length (mmap_list (mm st)))) e a [] st;
                  st2 ← release free_list s e st1; Ok (0, st2)) = Ok (0, st') /\
    rep st' l' /\
    (forall b, cover l'.*2 b = if (s <=? b) && (b <? e) then None else cover (pre ++ (a, v) :: rest).*2 b) /\
    exists rs, unmapped st' = unmapped st ++ rs /\
      forall b, in_ranges b rs <-> s <= b < e /\ cover (pre ++ (a, v) :: rest).*2 b <> None.
Proof.
  intros Hr Hal Hse Hs He Hc Hnm. pose proof (proj1 (contains_spec _ _) Hc) as Hcs.
  destruct (split_below e rest) as (seg & post & -> & Hseg & Hpost).
  destruct (collect_spec e seg (S (length (mmap_list (mm st)))) pre a v post [] st) as
    (st1 & Hcol & Hr1 & Hv1 & Hp1 & Hu1 & Hm1); [done|by constructor; [csimpl; lia|]|done| |].
  { rewrite (rep_list _ _ Hr), length_fmap, !length_app. csimpl. rewrite length_app. lia. }
  rewrite Hcol, res_bind_ok, app_nil_r.
  change (pre ++ (a, v) :: seg ++ post) with (pre ++ ((a, v) :: seg) ++ post) in *.
  pose proof (collected_hit _ _ _ _ _ _ _ _ Hr Hse Hc Hnm Hseg) as Hhit.
  assert (Hmiss : forall b, s <= b < e -> cover pre.*2 b = None /\ cover post.*2 b = None)
    by (intros b; by eapply others_missed).
  destruct (rep_middle _ _ _ _ Hr) as (Hsto & Hns & Hss & So1 & So2).
  set (sg := (a, v) :: seg) in *. clearbody sg.
  destruct (release_spec s e pre sg Hse Hs He post st1) as (st' & Hrel & Hr' & Hp' & Hu'); try done.
  - by rewrite Hv1, Hm1, Hp1.
  - rewrite !fmap_app in Hal. apply Forall_app in Hal as [_ Hal]. apply Forall_app in Hal as [Hal _].
    apply Forall_forall. intros w Hin. eapply Forall_forall in Hhit; [|exact Hin].
    eapply Forall_forall in Hal; [|exact Hin]. tauto.
  - exists st', (pre ++ (sg ≫= piece s e) ++ post). rewrite Hrel, res_bind_ok. split_and!; try done.
    + intros b. rewrite !fmap_app, !cover_app, cover_pieces by done.
      destruct (Z.leb_spec s b), (Z.ltb_spec b e); csimpl; try done.
      by destruct (Hmiss b ltac:(lia)) as [-> ->].
    + exists (lost s e <$> rev sg.*2). rewrite Hu', Hu1. split; [done|]. intros b.
      rewrite in_ranges_rev, lost_ranges by done. rewrite !fmap_app, !cover_app.
      split; (intros [Hb Hx]; split; [done|]; revert Hx); destruct (Hmiss b Hb) as [-> ->]; by destruct (cover sg.*2 b).
Qed.

(** The middle of an area is cut out. *)
Lemma cover_middle pre a v w n u rest s e b :
  Forall (fun x : Z * vma_struct => vm_end x.2 <= vm_start v) pre ->
  Forall (fun x : Z * vma_struct => vm_end v <= vm_start x.2) rest ->
  s < e -> vm_start v < s -> e < vm_end v ->
  vm_start u = vm_start v -> vm_end u = s -> vm_flags u = vm_flags v ->
  vm_start w = e -> vm_end w = vm_end v -> vm_flags w = vm_flags v ->
  cover (pre ++ (n, u) :: (a, w) :: rest).*2 b =
    if (s <=? b) && (b <? e) then None else cover (pre ++ (a, v) :: rest).*2 b.
Proof.
  intros Hpre Hrest Hse H1 H2 Hu1 Hu2 Hu3 Hw1 Hw2 Hw3. rewrite !fmap_app, !cover_app. csimpl.
  assert (Hp : vm_start v <= b -> cover pre.*2 b = None).
  { intros. apply cover_none_in. intros x Hx. eapply Forall_forall in Hpre; [|exact Hx]. csimpl in Hpre. lia. }
  assert (Hr : b < vm_end v -> cover rest.*2 b = None).
  { intros. apply cover_none_in. intros x Hx. eapply Forall_forall in Hrest; [|exact Hx]. csimpl in Hrest. lia. }
  unfold contains. rewrite Hu1, Hu2, Hu3, Hw1, Hw2, Hw3.
  repeat (zcase; csimpl); try lia; try done; rewrite ?Hp, ?Hr by lia; done.
Qed.

Lemma unmap_split_spec st pre a v rest s e n st1 :
  rep st (pre ++ (a, v) :: rest) -> Forall aligned (pre ++ (a, v) :: rest).*2 ->
  s < e -> s mod PGSIZE = 0 -> e mod PGSIZE = 0 -> vm_start v < s -> e < vm_end v ->
  vma_create (vm_start v) s (vm_flags v) st = (Some n, st1) ->
  exists st' l', (st2 ← vma_resize st1 a e (vm_end v); st3 ← insert_vma_struct st2 n;
                  Ok (0, unmap_range s e st3)) = Ok (0, st') /\
    rep st' l' /\
    (forall b, cover l'.*2 b = if (s <=? b) && (b <? e) then None else cover (pre ++ (a, v) :: rest).*2 b) /\
    exists rs, unmapped st' = unmapped st ++ rs /\
      forall b, in_ranges b rs <-> s <= b < e /\ cover (pre ++ (a, v) :: rest).*2 b <> None.
Proof.
  intros Hr Hal Hse Hs He H1 H2 Hcr. pose proof (vma_create_spec _ _ (vm_start v) s (vm_flags v) Hr) as Hc.
  rewrite Hcr in Hc. destruct Hc as (Hr1 & Hn & Hnp & [m Hvn] & Hmm & Hu & Hp).
  assert (Hvf : aligned v) by (eapply (proj1 (Forall_forall _ _) Hal), (elem_snd a); set_solver). destruct Hvf as [_ Hvf].
  rewrite (resize_ok st1 a e (vm_end v) v), res_bind_ok by (done || lia || (eapply rep_vma; [done|set_solver])).
  pose proof (rep_resize _ _ _ _ _ e (vm_end v) Hr1 ltac:(lia) ltac:(lia) ltac:(lia)) as Hr2.
  set (w := Vma (vm_mm v) e (vm_end v) (vm_flags v)) in *. set (st2 := set_vma a w st1) in *.
  assert (Hna : n <> a) by (intros ->; apply Hn; rewrite fmap_app; set_solver).
  assert (Hvn2 : vma st2 n = Vma m (vm_start v) s (vm_flags v)).
  { unfold vma, st2. csimpl. rewrite lookup_insert_ne by done. exact Hvn. }
  assert (Hpre : Forall (fun x : Z * vma_struct => vm_end x.2 <= vm_start v) pre).
  { destruct (rep_middle st pre [(a, v)] rest Hr) as (_ & _ & _ & Hb & _).
    apply Forall_forall. intros x Hx. apply (Hb x (a, v) Hx). left. }
  assert (Hrest : Forall (fun x : Z * vma_struct => vm_end v <= vm_start x.2) rest).
  { destruct (rep_middle st pre [(a, v)] rest Hr) as (_ & _ & _ & _ & Hb).
    apply Forall_forall. intros x Hx. apply (Hb (a, v) x); [left|done]. }
  assert (Hpost : Forall (fun x : Z * vma_struct => s <= vm_start x.2) ((a, w) :: rest)).
  { constructor; [csimpl; lia|]. eapply Forall_impl; [exact Hrest|]. csimpl. lia. }
  rewrite (insert_at st2 pre ((a, w) :: rest) n _ Hr2 Hvn2), res_bind_ok by (done || (unfold nonempty; csimpl; lia)).
  eexists _, _. split; [done|]. split_and!.
  - apply rep_unmap_range, (rep_insert st2 pre ((a, w) :: rest) n _ Hr2 Hvn2); try done.
    by rewrite fmap_app in *.
  - intros b. by apply cover_middle.
  - exists [(s, e)]. csimpl. rewrite Hu. split; [done|]. intros b. rewrite fmap_app, cover_app. csimpl.
    unfold in_ranges. split.
    + intros (r & ->%list_elem_of_singleton & Hb). csimpl in Hb. split; [done|].
      replace (contains v b) with true by (symmetry; apply contains_spec; lia). by destruct (cover pre.*2 b).
    + intros [Hb _]. exists (s, e). split; [left|done].
Qed.

(** ** Uniqueness *)
Lemma contains_unique st l a v a' v' x :
  rep st l -> (a, v) ∈ l -> (a', v') ∈ l -> contains v x = true -> contains v' x = true -> (a, v) = (a', v').
Proof.
  intros Hr Hin Hin' Hc Hc'. apply contains_spec in Hc, Hc'.
  apply list_elem_of_split in Hin as (l1 & l2 & ->).
  apply elem_of_app in Hin' as [Hin'|[Hin'|Hin']%elem_of_cons]; [|done|].
  - destruct (rep_middle st l1 [(a, v)] l2 Hr) as (_ & _ & _ & Hb & _).
    specialize (Hb _ (a, v) Hin' ltac:(left)). unfold before in Hb. csimpl in Hb. lia.
  - destruct (rep_middle st l1 [(a, v)] l2 Hr) as (_ & _ & _ & _ & Hb).
    specialize (Hb (a, v) _ ltac:(left) Hin'). unfold before in Hb. csimpl in Hb. lia.
Qed.

Lemma cover_in st l a v x :
  rep st l -> (a, v) ∈ l -> contains v x = true -> cover l.*2 x = Some (vm_flags v).
Proof.
  intros Hr Hin Hc. pose proof Hin as Hs. apply list_elem_of_split in Hs as (l1 & l2 & ->).
  rewrite fmap_app, cover_app. csimpl. rewrite Hc.
  rewrite cover_none; [done|]. apply Forall_fmap, Forall_forall. intros [b w] Hw. csimpl.
  destruct (contains w x) eqn:Hcw; [|done].
  destruct (rep_middle st l1 [(a, v)] l2 Hr) as (_ & _ & _ & Hb & _).
  specialize (Hb _ (a, v) Hw ltac:(left)). apply contains_spec in Hc, Hcw. unfold before in Hb. csimpl in Hb. lia.
Qed.

Lemma cover_some vs x f : cover vs x = Some f -> exists v, v ∈ vs /\ contains v x = true /\ vm_flags v = f.
Proof.
  induction vs as [|v vs IH]; csimpl; [done|]. destruct (contains v x) eqn:Hc.
  - intros [= <-]. exists v. split_and!; [left|done|done].
  - intros H. destruct (IH H) as (w & Hw & ? & ?). exists w. split_and!; [by right|done|done].
Qed.

(** ** Properties *)

(** [find_vma] returns the one area that contains the address and NULL
    when there is none; the one-entry cache never changes the answer, and
    the lookup leaves the areas as they are. *)
Theorem find_vma_correct (st : vmst) (l : list (Z * vma_struct)) (address : Z) :
  rep st l ->
  rep (find_vma st address).2 l /\
  (find_vma st address).1 = (find_vma (set_mm (set_cache None) st) address).1 /\
  match (find_vma st address).1 with
  | Some a => exists v, (a, v) ∈ l /\ contains v address = true /\ cover l.*2 address = Some (vm_flags v)
  | None => cover l.*2 address = None
  end.
Proof.
  intros Hr. assert (Hr' : rep (set_mm (set_cache None) st) l) by (destruct Hr; by split).
  pose proof (find_vma_spec _ _ address Hr) as H. pose proof (find_vma_spec _ _ address Hr') as H'.
  destruct (find_vma st address) as [[a|] st1], (find_vma (set_mm (set_cache None) st) address) as [[a'|] st1']; csimpl.
  - destruct H as (v & Hin & Hc & _ & Hr1), H' as (v' & Hin' & Hc' & _).
    assert ((a, v) = (a', v')) as [= <- <-] by (eapply contains_unique; eauto).
    split_and!; [done..|]. exists v. split_and!; [done..|]. by eapply cover_in.
  - destruct H as (v & Hin & Hc & _), H' as (_ & Hf). eapply Forall_forall in Hf; [|by eapply elem_snd]. congruence.
  - destruct H' as (v & Hin & Hc & _), H as (_ & Hf). eapply Forall_forall in Hf; [|by eapply elem_snd]. congruence.
  - destruct H as (-> & Hf). split_and!; [done..|]. by apply cover_none.
Qed.

(** [insert_vma_struct] links a new area exactly when it is not empty and
    overlaps no area of the process: the list stays sorted and disjoint, with
    the area in its place; in every other case one of its assertions stops
    the kernel. *)
Theorem insert_vma_struct_correct (st : vmst) (l : list (Z * vma_struct)) (a : Z) :
  rep st l -> a ∉ l.*1 -> a ∉ pool st ->
  match insert_vma_struct st a with
  | Ok st' => nonempty (vma st a) /\ (forall x, x ∈ l -> ~ overlap x.2 (vma st a)) /\
      exists l1 l2, l = l1 ++ l2 /\ rep st' (l1 ++ (a, owned_by (mm_addr (mm st)) (vma st a)) :: l2)
  | Panic => ~ nonempty (vma st a) \/ exists x, x ∈ l /\ overlap x.2 (vma st a)
  | Spin => False
  end.
Proof.
  intros Hr Ha Hp. pose proof (insert_spec st l a _ Hr eq_refl Ha Hp) as H.
  destruct (insert_vma_struct st a) as [st'| |]; [|done..].
  destruct H as (Hne & l1 & l2 & -> & H1 & H2 & _ & Hr'). split_and!; [done| |by exists l1, l2].
  intros x [Hx|Hx]%elem_of_app Ho; unfold overlap in Ho.
  - eapply Forall_forall in H1; [|exact Hx]. csimpl in H1. lia.
  - eapply Forall_forall in H2; [|exact Hx]. csimpl in H2. lia.
Qed.

Lemma cover_inserted l1 l2 a w b :
  Forall (fun x : Z * vma_struct => vm_end x.2 <= vm_start w) l1 ->
  cover (l1 ++ (a, w) :: l2).*2 b = if contains w b then Some (vm_flags w) else cover (l1 ++ l2).*2 b.
Proof.
  intros H1. rewrite !fmap_app, !cover_app. csimpl. destruct (contains w b) eqn:Hc; [|done].
  rewrite cover_none_in; [done|]. intros x Hx. eapply Forall_forall in H1; [|exact Hx].
  apply contains_spec in Hc. csimpl in H1. lia.
Qed.

Lemma mm_map_spec (st : vmst) (l : list (Z * vma_struct)) (addr len flags : Z) :
  rep st l ->
  let s := ROUNDDOWN addr PGSIZE in
  let e := ROUNDUP (u32 (addr + len)) PGSIZE in
  match mm_map st addr len flags with
  | Ok (ret, _, st') =>
      (ret = - E_INVAL /\ (USER_ACCESS s e = false \/ cover l.*2 s <> None) /\ rep st' l) \/
      (ret = - E_NO_MEM /\ pool st = [] /\ rep st' l) \/
      (ret = 0 /\ USER_ACCESS s e = true /\ exists l', rep st' l' /\
         forall b, cover l'.*2 b = if (s <=? b) && (b <? e) then Some flags else cover l.*2 b)
  | Panic => USER_ACCESS s e = true /\ cover l.*2 s = None /\
      exists x, x ∈ l /\ s < vm_start x.2 < e
  | Spin => False
  end.
Proof.
  intros Hr s e. unfold mm_map. fold s e. destruct (USER_ACCESS s e) eqn:Hua; cbn [negb].
  2: { left. split_and!; [done|by left|done]. }
  assert (Hse : s < e) by (unfold USER_ACCESS in Hua; lia).
  pose proof (find_vma_spec st l s Hr) as Hf. destruct (find_vma st s) as [[c|] st1].
  - destruct Hf as (v & Hin & Hc & _ & Hr1). rewrite (rep_vma _ _ _ _ Hr1 Hin).
    pose proof (proj1 (contains_spec _ _) Hc). rewrite Z.gtb_ltb, (proj2 (Z.ltb_lt _ _)) by lia.
    left. split_and!; [done| |done]. right. by rewrite (cover_in _ _ _ _ _ Hr Hin Hc).
  - destruct Hf as [-> Hf]. pose proof (vma_create_spec st l s e flags Hr) as Hcr.
    destruct (vma_create s e flags st) as [[a|] st1].
    2: { destruct Hcr as [Hp ->]. right. left. done. }
    destruct Hcr as (Hr1 & Ha & Hp & [m Hv] & Hmm & _). pose proof (insert_spec st1 l a _ Hr1 Hv Ha Hp) as Hi.
    destruct (insert_vma_struct st1 a) as [st2| |]; csimpl; [| |done].
    + destruct Hi as (_ & l1 & l2 & -> & H1 & H2 & _ & Hr2). right. right.
      split_and!; [done..|]. eexists. split; [exact Hr2|]. intros b. by rewrite cover_inserted.
    + destruct Hi as [Hn|(x & Hx & Ho)]; [by unfold nonempty in Hn; csimpl in Hn|].
      split_and!; [done|by apply cover_none|]. exists x. split; [done|]. unfold overlap in Ho. csimpl in Ho.
      rewrite Forall_fmap in Hf. eapply Forall_forall in Hf; [|exact Hx]. unfold contains in Hf. csimpl in Hf. lia.
Qed.

(** [mm_map] on every outcome.  It answers [-E_INVAL], changing nothing,
    when the page-rounded range leaves user space (so also when the sum
    wraps) or its first address is mapped; [-E_NO_MEM] when no area can be
    allocated; 0 when the range was wholly free, and then exactly its
    addresses become mapped with the flags.  A range whose first address is
    free but which meets a later area stops the kernel in the overlap
    assertion instead of being refused. *)
Theorem mm_map_correct (st : vmst) (l : list (Z * vma_struct)) (addr len flags : Z) :
  rep st l ->
  let s := ROUNDDOWN addr PGSIZE in
  let e := ROUNDUP (u32 (addr + len)) PGSIZE in
  match mm_map st addr len flags with
  | Ok (ret, _, st') =>
      (ret = - E_INVAL /\ (USER_ACCESS s e = false \/ cover l.*2 s <> None) /\ rep st' l) \/
      (ret = - E_NO_MEM /\ pool st = [] /\ rep st' l) \/
      (ret = 0 /\ USER_ACCESS s e = true /\ exists l', rep st' l' /\
         forall b, cover l'.*2 b = if (s <=? b) && (b <? e) then Some flags else cover l.*2 b)
  | Panic => USER_ACCESS s e = true /\ cover l.*2 s = None /\
      exists x, x ∈ l /\ s < vm_start x.2 < e
  | Spin => False
  end.
Proof. apply mm_map_spec. Qed.

Lemma mm_map_frame st addr len flags o st' :
  mm_map st addr len flags = Ok (0, o, st') -> pool st' = tail (pool st) /\ mm_count (mm st') = mm_count (mm st).
Proof.
  unfold mm_map. set (s := ROUNDDOWN addr PGSIZE). set (e := ROUNDUP _ PGSIZE). destruct (USER_ACCESS s e); cbn [negb]; [|done].
  assert (Hf : forall o' st1, find_vma st s = (o', st1) -> pool st1 = pool st /\ mm_count (mm st1) = mm_count (mm st)).
  { intros o' st1. unfold find_vma. destruct (match _ with Some c => Some c | None => _ end); by intros [= <- <-]. }
  destruct (find_vma st s) as [o' st1] eqn:Ef. destruct (Hf o' st1 eq_refl) as [<- <-].
  destruct (match o' with Some v => _ | None => _ end); [done|]. unfold vma_create. destruct (pool st1) as [|a rest]; [done|].
  intros H. apply res_bind_inv in H as (st2 & Hi & H). simplify_eq. unfold insert_vma_struct in Hi. apply res_bind_inv in Hi as (? & _ & Hi).
  destruct (split_at _ _ _). apply res_bind_inv in Hi as (? & _ & Hi). apply res_bind_inv in Hi as (? & _ & Hi). by simplify_eq.
Qed.

(** Mapping a range that is free. *)
Lemma mm_map_ok st l addr len flags :
  let s := ROUNDDOWN addr PGSIZE in let e := ROUNDUP (u32 (addr + len)) PGSIZE in
  rep st l -> USER_ACCESS s e = true -> (forall x, s <= x < e -> cover l.*2 x = None) -> pool st <> [] ->
  exists o st' l', mm_map st addr len flags = Ok (0, o, st') /\ rep st' l' /\
    (forall x, cover l'.*2 x = if (s <=? x) && (x <? e) then Some flags else cover l.*2 x) /\
    pool st' = tail (pool st) /\ mm_count (mm st') = mm_count (mm st).
Proof.
  intros s e Hr Hua Hfree Hp. pose proof (mm_map_spec st l addr len flags Hr) as Hm. cbv zeta in Hm. fold s e in Hm.
  assert (Hse : s < e) by (unfold USER_ACCESS in Hua; lia).
  destruct (mm_map st addr len flags) as [[[ret o] st']| |] eqn:He.
  - destruct Hm as [(_ & [Hb|Hb] & _)|[(_ & Hb & _)|(-> & _ & l' & Hr' & Hc)]]; [congruence|by rewrite Hfree in Hb by lia|done|].
    exists o, st', l'. split_and!; try done; by eapply mm_map_frame.
  - destruct Hm as (_ & _ & x & Hx & Hv). pose proof (Hfree (vm_start x.2) ltac:(lia)) as Hn.
    assert (Hne : nonempty x.2) by (eapply (proj1 (Forall_forall _ _) (rep_wf _ _ Hr)); destruct x; by eapply elem_snd).
    destruct x as [a v]. rewrite (cover_in _ _ _ _ _ Hr Hx) in Hn; [done|]. apply contains_spec. simpl in *. unfold nonempty in Hne. lia.
  - done.
Qed.

Lemma mm_unmap_spec (st : vmst) (l : list (Z * vma_struct)) (addr len : Z) :
  rep st l -> Forall aligned l.*2 ->
  let s := ROUNDDOWN addr PGSIZE in
  let e := ROUNDUP (u32 (addr + len)) PGSIZE in
  exists ret st', mm_unmap st addr len = Ok (ret, st') /\
    ((ret = - E_INVAL /\ USER_ACCESS s e = false /\ st' = st) \/
     (ret = 0 /\ cover l.*2 s = None /\ st' = st) \/
     (ret = - E_NO_MEM /\ pool st = [] /\ rep st' l) \/
     (ret = 0 /\ cover l.*2 s <> None /\ exists l', rep st' l' /\
        (forall b, cover l'.*2 b = if (s <=? b) && (b <? e) then None else cover l.*2 b) /\
        exists rs, unmapped st' = unmapped st ++ rs /\
          forall b, in_ranges b rs <-> s <= b < e /\ cover l.*2 b <> None)).
Proof.
  intros Hr Hal s e. unfold mm_unmap. fold s e. destruct (USER_ACCESS s e) eqn:Hua; cbn [negb].
  2: { eexists _, _. split; [done|]. left. done. }
  assert (Hse : s < e) by (unfold USER_ACCESS in Hua; lia).
  assert (Hs : s mod PGSIZE = 0) by apply rounddown_aligned.
  assert (He : e mod PGSIZE = 0) by apply rounddown_aligned.
  pose proof (find_vma_spec st l s Hr) as Hf. destruct (find_vma st s) as [[a|] st1].
  2: { destruct Hf as [-> Hf]. eexists _, _. split; [done|]. right. left. split_and!; [done|by apply cover_none|done]. }
  destruct Hf as (v & Hin & Hc & Hst1 & Hr1). rewrite (rep_vma _ _ _ _ Hr1 Hin).
  assert (Hcov : cover l.*2 s <> None) by (by rewrite (cover_in _ _ _ _ _ Hr Hin Hc)).
  pose proof (proj1 (contains_spec _ _) Hc). rewrite (proj2 (Z.leb_gt _ _)) by lia.
  apply list_elem_of_split in Hin as (pre & rest & ->).
  assert (Hu : unmapped st1 = unmapped st) by (by rewrite Hst1).
  assert (Hpl : pool st1 = pool st) by (by rewrite Hst1).
  destruct (Z.ltb_spec (vm_start v) s), (Z.ltb_spec e (vm_end v)); cbn [andb].
  2-4: destruct (unmap_loop_spec st1 pre a v rest s e) as (st' & l' & Heq & Hrest); try done; [lia|];
    rewrite Heq; eexists _, _; (split; [done|]); rewrite <- Hu; right; right; right;
    (split_and!; [done..|]); by exists l'.
  pose proof (vma_create_spec st1 _ (vm_start v) s (vm_flags v) Hr1) as Hcr.
  destruct (vma_create (vm_start v) s (vm_flags v) st1) as [[n|] st2] eqn:Hcreate.
  - destruct (unmap_split_spec st1 pre a v rest s e n st2) as (st' & l' & Heq & Hrest); try done.
    rewrite Heq. eexists _, _. split; [done|]. rewrite <- Hu. right. right. right.
    split_and!; [done..|]. by exists l'.
  - destruct Hcr as [Hp ->]. eexists _, _. split; [done|]. right. right. left. by rewrite <- Hpl.
Qed.

(** [mm_unmap] never panics on page aligned areas, and when the first
    address of the range is mapped (and no area is missing for a split) it
    removes exactly the addresses of the range from the areas of the process,
    keeping the flags of all others, and passes to [unmap_range] exactly the
    mapped addresses of the range.  When the first address is not mapped it
    reports success and does nothing at all, whatever the rest of the range
    holds. *)
Theorem mm_unmap_correct (st : vmst) (l : list (Z * vma_struct)) (addr len : Z) :
  rep st l -> Forall aligned l.*2 ->
  let s := ROUNDDOWN addr PGSIZE in
  let e := ROUNDUP (u32 (addr + len)) PGSIZE in
  exists ret st', mm_unmap st addr len = Ok (ret, st') /\
    ((ret = - E_INVAL /\ USER_ACCESS s e = false /\ st' = st) \/
     (ret = 0 /\ cover l.*2 s = None /\ st' = st) \/
     (ret = - E_NO_MEM /\ pool st = [] /\ rep st' l) \/
     (ret = 0 /\ cover l.*2 s <> None /\ exists l', rep st' l' /\
        (forall b, cover l'.*2 b = if (s <=? b) && (b <? e) then None else cover l.*2 b) /\
        exists rs, unmapped st' = unmapped st ++ rs /\
          forall b, in_ranges b rs <-> s <= b < e /\ cover l.*2 b <> None)).
Proof. apply mm_unmap_spec. Qed.

(** ** Access checks *)

(** A byte of an area may be accessed: the area has the flag, and a write to
    a stack leaves its lowest page alone. *)
Definition may_access (v : vma_struct) (a : Z) (write : bool) : Prop :=
  contains v a = true /\ Z.land (vm_flags v) (if write then VM_WRITE else VM_READ) <> 0 /\
  (write = true -> Z.land (vm_flags v) VM_STACK <> 0 -> vm_start v + PGSIZE <= a).

(** Areas that end above [start]: each step of the check passes one. *)
Fixpoint above (start : Z) (vs : list vma_struct) : nat :=
  match vs with [] => O | v :: vs => ((if (start <? vm_end v)%Z then 1 else 0) + above start vs)%nat end.

Lemma above_mono s s' vs : s <= s' -> (above s' vs <= above s vs)%nat.
Proof. intros H. induction vs as [|v vs IH]; csimpl; [lia|]. repeat zcase; lia. Qed.

Lemma above_step s v vs : v ∈ vs -> s < vm_end v -> (above (vm_end v) vs < above s vs)%nat.
Proof.
  intros Hin Hs. induction vs as [|w vs IH]; [by apply elem_of_nil in Hin|]. csimpl.
  apply elem_of_cons in Hin as [<-|Hin].
  - pose proof (above_mono s (vm_end v) vs). repeat zcase; lia.
  - specialize (IH Hin). repeat zcase; lia.
Qed.

Lemma above_length s vs : (above s vs <= length vs)%nat.
Proof. induction vs as [|v vs IH]; csimpl; [lia|]. zcase; lia. Qed.

Lemma mem_check_spec fuel : forall st l start end_ write,
  rep st l -> Forall (fun v => 0 <= vm_start v) l.*2 -> end_ <= USERTOP ->
  (above start l.*2 < fuel)%nat ->
  exists b st', mem_check_loop fuel st start end_ write = Ok (b, st') /\ rep st' l /\
    (b = true <-> forall a, start <= a < end_ -> exists v, v ∈ l.*2 /\ may_access v a write).
Proof.
  induction fuel as [|fuel IH]; intros st l start end_ write Hr Hpos Het Hf; [lia|]. cbn [mem_check_loop].
  destruct (Z.ltb_spec start end_) as [Hlt|Hge].
  2: { exists true, st. split_and!; [done..|]. split; [intros _ a Ha; lia|done]. }
  assert (Hno : forall st', rep st' l -> (forall v, v ∈ l.*2 -> ~ may_access v start write) ->
    exists b st'', Ok (false, st') = Ok (b, st'') /\ rep st'' l /\
      (b = true <-> forall a, start <= a < end_ -> exists v, v ∈ l.*2 /\ may_access v a write)).
  { intros st' Hr' Hbad. exists false, st'. split_and!; [done..|]. split; [done|]. intros H.
    destruct (H start ltac:(lia)) as (v & Hv & Hm). by destruct (Hbad v Hv). }
  pose proof (find_vma_spec st l start Hr) as Hfv. destruct (find_vma st start) as [[a|] st1].
  2: { destruct Hfv as [-> Hfv]. apply Hno; [done|]. intros v Hv (Hc & _). eapply Forall_forall in Hfv; [|exact Hv]. congruence. }
  destruct Hfv as (v & Hin & Hc & _ & Hr1). rewrite (rep_vma _ _ _ _ Hr1 Hin).
  assert (Hu : forall w, w ∈ l.*2 -> contains w start = true -> w = v).
  { intros w Hw Hcw. apply list_elem_of_fmap in Hw as ([b u] & -> & Hb). by injection (contains_unique _ _ _ _ _ _ _ Hr Hin Hb Hc Hcw). }
  pose proof (proj1 (contains_spec _ _) Hc) as Hcs. rewrite (proj2 (Z.ltb_ge _ _)) by lia.
  destruct (Z.eqb_spec (Z.land (vm_flags v) (if write then VM_WRITE else VM_READ)) 0) as [Hz|Hz].
  { apply Hno; [done|]. intros w Hw (Hcw & Hfl & _). rewrite (Hu w Hw Hcw) in Hfl. done. }
  assert (Hv0 : 0 <= vm_start v) by (eapply (proj1 (Forall_forall _ _) Hpos), elem_snd; exact Hin).
  rewrite (u32_small (vm_start v + PGSIZE)) by (unfold PGSIZE, USERTOP in *; lia).
  destruct (write && negb (Z.land (vm_flags v) VM_STACK =? 0) && (start <? vm_start v + PGSIZE)) eqn:Hst.
  { apply Hno; [done|]. intros w Hw (Hcw & _ & Hstk). rewrite (Hu w Hw Hcw) in Hstk.
    apply andb_true_iff in Hst as [[-> Hs]%andb_true_iff Hl]. specialize (Hstk eq_refl). lia. }
  destruct (IH st1 l (vm_end v) end_ write) as (b & st' & Heq & Hr' & Hb); [done..| |].
  { pose proof (above_step start v l.*2 ltac:(by eapply elem_snd)). lia. }
  exists b, st'. split_and!; [done..|]. rewrite Hb. split.
  - intros H x Hx. destruct (Z.lt_ge_cases x (vm_end v)); [|apply H; lia].
    exists v. split; [by eapply elem_snd|]. split_and!; [apply contains_spec; lia|done|].
    intros -> Hs. cbn [andb] in Hst. apply andb_false_iff in Hst as [Hst|Hst]; lia.
  - intros H x Hx. apply H. lia.
Qed.

Lemma user_mem_check_spec (st : vmst) (l : list (Z * vma_struct)) (addr len : Z) (write : bool) :
  rep st l -> Forall (fun v => 0 <= vm_start v) l.*2 -> 0 <= addr < 2 ^ 32 -> 0 <= len < 2 ^ 32 ->
  exists b st', user_mem_check (Some st) addr len write = Ok (b, Some st') /\ rep st' l /\
    (b = true <-> 0 < len /\ USERBASE <= addr /\ addr + len <= USERTOP /\
       forall a, addr <= a < addr + len -> exists v, v ∈ l.*2 /\ may_access v a write).
Proof.
  intros Hr Hpos Ha Hl. unfold user_mem_check.
  assert (Hua : USER_ACCESS addr (u32 (addr + len)) = true <->
    0 < len /\ USERBASE <= addr /\ addr + len <= USERTOP).
  { unfold USER_ACCESS, USERBASE, USERTOP. destruct (Z.lt_ge_cases (addr + len) (2 ^ 32)).
    - rewrite u32_small by lia. lia.
    - replace (u32 (addr + len)) with (addr + len - 2 ^ 32); [lia|]. unfold u32.
      replace (addr + len) with (addr + len - 2 ^ 32 + 1 * 2 ^ 32) at 2 by lia.
      rewrite Z_mod_plus_full, Z.mod_small by lia. done. }
  destruct (USER_ACCESS addr (u32 (addr + len))) eqn:Hacc; cbn [negb].
  - destruct Hua as [Hua _]. destruct (Hua eq_refl) as (H1 & H2 & H3).
    rewrite u32_small by (unfold USERTOP in H3; lia).
    destruct (mem_check_spec (S (length (mmap_list (mm st)))) st l addr (addr + len) write) as (b & st' & Heq & Hr' & Hb);
      try done; [rewrite (rep_list _ _ Hr), length_fmap; pose proof (above_length addr l.*2); rewrite length_fmap in *; lia|].
    rewrite Heq, res_bind_ok. exists b, st'. split_and!; [done..|]. rewrite Hb. tauto.
  - exists false, st. split_and!; [done..|]. split; [done|]. intros (H1 & H2 & H3 & _).
    destruct Hua as [_ Hua]. by specialize (Hua ltac:(done)).
Qed.

(** [user_mem_check] answers true exactly when the whole byte range lies
    in user space (a wrapping range never does) and every byte of it belongs
    to an area that grants the access, writes to a stack excluding its guard
    page; the loop over the areas always ends and the areas stay as they
    are. *)
Theorem user_mem_check_correct (st : vmst) (l : list (Z * vma_struct)) (addr len : Z) (write : bool) :
  rep st l -> Forall (fun v => 0 <= vm_start v) l.*2 -> 0 <= addr < 2 ^ 32 -> 0 <= len < 2 ^ 32 ->
  exists b st', user_mem_check (Some st) addr len write = Ok (b, Some st') /\ rep st' l /\
    (b = true <-> 0 < len /\ USERBASE <= addr /\ addr + len <= USERTOP /\
       forall a, addr <= a < addr + len -> exists v, v ∈ l.*2 /\ may_access v a write).
Proof. apply user_mem_check_spec. Qed.

(** ** Duplication *)
Definition shape (v : vma_struct) : Z * Z * Z := (vm_start v, vm_end v, vm_flags v).

Lemma dup_loop_spec copy_range (todo : list vma_struct) : forall to l dn,
  rep to l -> shape <$> l.*2 = shape <$> dn ->
  Forall nonempty (rev todo ++ dn) -> StronglySorted before (rev todo ++ dn) ->
  exists ret to', dup_loop copy_range todo to = Ok (ret, to') /\
    (exists l', rep to' l' /\ (ret = 0 -> shape <$> l'.*2 = shape <$> (rev todo ++ dn))) /\
    (ret = 0 <-> (length todo <= length (pool to))%nat /\
       Forall (fun v => copy_range (vm_start v) (vm_end v) = 0) todo) /\
    (ret = 0 \/ ret = - E_NO_MEM).
Proof.
  induction todo as [|v todo IH]; intros to l dn Hr Hsh Hw Hso; cbn [dup_loop].
  { exists 0, to. split_and!; [done|by exists l| |by left]. split; [split; [simpl; lia|constructor]|done]. }
  cbn [rev] in Hw, Hso. rewrite <- app_assoc in Hw, Hso. csimpl in Hw. csimpl in Hso.
  pose proof (vma_create_spec to l (vm_start v) (vm_end v) (vm_flags v) Hr) as Hc.
  destruct (vma_create (vm_start v) (vm_end v) (vm_flags v) to) as [[n|] to1].
  2: { destruct Hc as [Hp ->]. eexists _, to. split_and!; [done|by exists l| |by right]. rewrite Hp.
       split; [done|intros [? _]; csimpl in *; lia]. }
  destruct Hc as (Hr1 & Hn & Hnp & [m Hv] & Hmm & _ & Hp).
  assert (Hne : nonempty v) by (eapply (proj1 (Forall_forall _ _) Hw); set_solver).
  assert (Habove : Forall (fun x : Z * vma_struct => vm_end v <= vm_start x.2) l).
  { apply ss_app in Hso as (_ & Hso & _). apply ss_cons in Hso as [_ Hso].
    assert (Hd : Forall (fun t : Z * Z * Z => vm_end v <= t.1.1) (shape <$> dn)) by (by apply Forall_fmap).
    rewrite <- Hsh, !Forall_fmap in Hd. exact Hd. }
  rewrite (insert_at to1 [] l n _ Hr1 Hv), res_bind_ok by (done || constructor).
  assert (Hr2 := rep_insert to1 [] l n _ Hr1 Hv Hne Hn Hnp (List.Forall_nil _) Habove). csimpl in Hr2.
  match type of Hr2 with rep ?t ?x => set (to2 := t) in *; set (l2 := x) in * end.
  change (set_mm _ _) with to2.
  destruct (Z.eqb_spec (copy_range (vm_start v) (vm_end v)) 0) as [Hz|Hz]; cbn [negb].
  2: { eexists _, to2. split_and!; [done|by exists l2| |by right]. split; [done|intros [_ [? _]%Forall_cons]; done]. }
  destruct (IH to2 l2 (v :: dn)) as (ret & to' & Heq & (l' & Hr' & Hsh') & Hret & Hcase); [done| |done..|].
  { unfold l2. csimpl. by rewrite Hsh. }
  exists ret, to'. split_and!; [done| | |done].
  - exists l'. split; [done|]. intros H0. rewrite (Hsh' H0). cbn [rev]. by rewrite <- app_assoc.
  - rewrite Hret, Forall_cons, Hp. unfold to2. csimpl. split; intros [? ?]; split; try tauto; lia.
Qed.

(** [dup_mmap] into an empty address space succeeds exactly when an area
    can be allocated for each area of the parent and every page copy
    succeeds; the child then has the parent's areas, in order, with the same
    bounds and flags.  Otherwise it reports [-E_NO_MEM] and the child is
    still well formed; no assertion fails. *)
Theorem dup_mmap_correct (copy_range : Z -> Z -> Z) (to from : vmst) (lf : list (Z * vma_struct)) :
  rep to [] -> rep from lf ->
  exists ret to', dup_mmap copy_range to from = Ok (ret, to') /\
    (exists l', rep to' l' /\ (ret = 0 -> shape <$> l'.*2 = shape <$> lf.*2)) /\
    (ret = 0 <-> (length lf <= length (pool to))%nat /\
       Forall (fun v => copy_range (vm_start v) (vm_end v) = 0) lf.*2) /\
    (ret = 0 \/ ret = - E_NO_MEM).
Proof.
  intros Ht Hf. unfold dup_mmap. rewrite (rep_list _ _ Hf).
  assert (Hv : vma from <$> lf.*1 = lf.*2).
  { rewrite <- list_fmap_compose. apply list_fmap_ext. intros i [a v] Hi. csimpl.
    eapply rep_vma; [done|]. by eapply list_elem_of_lookup_2. }
  rewrite Hv. destruct (dup_loop_spec copy_range (rev lf.*2) to [] []) as (ret & to' & Heq & Hl & Hret & Hc);
    [done|done|rewrite rev_involutive, app_nil_r; apply Hf..|].
  rewrite rev_involutive, app_nil_r in Hl. rewrite length_rev, length_fmap in Hret.
  exists ret, to'. split_and!; try done. rewrite Hret.
  split; intros [? HF]; (split; [done|]); [rewrite <- (rev_involutive lf.*2)|]; by apply Forall_rev.
Qed.

(** ** A concrete process: two areas, two free records *)
Definition demo_areas : list (Z * vma_struct) :=
  [(100, Vma 64 0x400000 0x403000 3); (200, Vma 64 0x500000 0x501000 1)].

Definition demo : vmst :=
  Vmst (Mm 64 [100; 200] None 2 1)
    (<[100 := Vma 64 0x400000 0x403000 3]> (<[200 := Vma 64 0x500000 0x501000 1]>
      (<[500 := Vma 0 0x402000 0x404000 1]> ∅)))
    [300; 400] [].

Lemma demo_rep : rep demo demo_areas.
Proof.
  split; try done.
  - repeat constructor.
  - apply (bool_decide_unpack _). vm_compute. done.
  - repeat constructor.
  - repeat constructor.
  - repeat constructor; unfold before; simpl; lia.
Defined.

Lemma demo_empty_rep : rep (mm_create 64 ∅ [300; 400]) [].
Proof.
  split; [done|constructor|apply (bool_decide_unpack _); by vm_compute|constructor|done|done|constructor|constructor].
Defined.

Lemma demo_aligned : Forall aligned demo_areas.*2.
Proof. repeat constructor. Defined.

Lemma find_vma_correct_witness :
  (find_vma demo 0x402fff).1 = Some 100 /\ rep (find_vma demo 0x402fff).2 demo_areas.
Proof. split; [reflexivity|]. apply (find_vma_correct demo demo_areas 0x402fff). exact demo_rep. Defined.

Lemma insert_vma_struct_correct_witness :
  insert_vma_struct demo 500 = Panic /\
  match insert_vma_struct demo 500 with
  | Ok st' => nonempty (vma demo 500) /\ (forall x, x ∈ demo_areas -> ~ overlap x.2 (vma demo 500)) /\
      exists l1 l2, demo_areas = l1 ++ l2 /\ rep st' (l1 ++ (500, owned_by 64 (vma demo 500)) :: l2)
  | Panic => ~ nonempty (vma demo 500) \/ exists x, x ∈ demo_areas /\ overlap x.2 (vma demo 500)
  | Spin => False
  end.
Proof.
  split; [reflexivity|]. apply (insert_vma_struct_correct demo demo_areas 500); [exact demo_rep| |];
    apply (bool_decide_unpack _); vm_compute; done.
Defined.

(** The range [0x3ff000, 0x401000) starts free but meets the first area. *)
Lemma mm_map_correct_witness :
  mm_map demo 0x3ff000 0x2000 1 = Panic /\
  (USER_ACCESS (ROUNDDOWN 0x3ff000 PGSIZE) (ROUNDUP (u32 (0x3ff000 + 0x2000)) PGSIZE) = true /\
   cover demo_areas.*2 (ROUNDDOWN 0x3ff000 PGSIZE) = None /\
   exists x, x ∈ demo_areas /\
     ROUNDDOWN 0x3ff000 PGSIZE < vm_start x.2 < ROUNDUP (u32 (0x3ff000 + 0x2000)) PGSIZE).
Proof.
  split; [reflexivity|].
  pose proof (mm_map_correct demo demo_areas 0x3ff000 0x2000 1 demo_rep) as H.
  assert (E : mm_map demo 0x3ff000 0x2000 1 = Panic) by reflexivity. cbv zeta in H. rewrite E in H. exact H.
Defined.

(** Unmapping the middle page of the first area. *)
Lemma mm_unmap_correct_witness :
  exists ret st', mm_unmap demo 0x401000 0x1000 = Ok (ret, st') /\
    ((ret = - E_INVAL /\ USER_ACCESS 0x401000 0x402000 = false /\ st' = demo) \/
     (ret = 0 /\ cover demo_areas.*2 0x401000 = None /\ st' = demo) \/
     (ret = - E_NO_MEM /\ pool demo = [] /\ rep st' demo_areas) \/
     (ret = 0 /\ cover demo_areas.*2 0x401000 <> None /\ exists l', rep st' l' /\
        (forall b, cover l'.*2 b = if (0x401000 <=? b) && (b <? 0x402000) then None else cover demo_areas.*2 b) /\
        exists rs, unmapped st' = unmapped demo ++ rs /\
          forall b, in_ranges b rs <-> 0x401000 <= b < 0x402000 /\ cover demo_areas.*2 b <> None)).
Proof. exact (mm_unmap_correct demo demo_areas 0x401000 0x1000 demo_rep demo_aligned). Defined.

Lemma user_mem_check_correct_witness :
  exists b st', user_mem_check (Some demo) 0x400010 100 true = Ok (b, Some st') /\ rep st' demo_areas /\
    (b = true <-> 0 < 100 /\ USERBASE <= 0x400010 /\ 0x400010 + 100 <= USERTOP /\
       forall a, 0x400010 <= a < 0x400010 + 100 -> exists v, v ∈ demo_areas.*2 /\ may_access v a true).
Proof.
  apply (user_mem_check_correct demo demo_areas 0x400010 100 true); [exact demo_rep|by repeat constructor|lia|lia].
Defined.

Lemma dup_mmap_correct_witness :
  exists ret to', dup_mmap (fun _ _ => 0) (mm_create 64 ∅ [300; 400]) demo = Ok (ret, to') /\
    (exists l', rep to' l' /\ (ret = 0 -> shape <$> l'.*2 = shape <$> demo_areas.*2)) /\
    (ret = 0 <-> (length demo_areas <= 2)%nat /\ Forall (fun v => 0 = 0) demo_areas.*2) /\
    (ret = 0 \/ ret = - E_NO_MEM).
Proof.
  exact (dup_mmap_correct (fun _ _ => 0) (mm_create 64 ∅ [300; 400]) demo demo_areas demo_empty_rep demo_rep).
Defined.
