(* ===== verification/PageInit.v ===== *)
(** * Physical memory at boot

    [page_init] of kern/mm/pmm.c: the memory map of the BIOS becomes the free
    list of the page allocator. *)
From S2P Require Import Prelude Vmm Blocks DefaultPmm.

Definition KMEMSIZE : Z := 0x38000000.
Definition E820_ARM : Z := 1.
Definition SIZEOF_PAGE : Z := 36.

Record e820entry := E820 { e_addr : Z; e_size : Z; e_type : Z }.
Definition e_end (e : e820entry) : Z := u64 (e_addr e + e_size e).

(** ** page_init *)

(** The first loop. *)
Definition raise_maxpa (maxpa : Z) (e : e820entry) : Z :=
  if (e_type e =? E820_ARM) && ((maxpa <? e_end e) && (e_addr e <? KMEMSIZE)) then e_end e else maxpa.
Definition max_pa (l : list e820entry) : Z :=
  let maxpa := foldl raise_maxpa 0 l in if maxpa >? KMEMSIZE then KMEMSIZE else maxpa.

(** The body of the last loop, up to the call of [init_memmap]: the part of
    the entry to add, if there is one. *)
Definition clip (freemem : Z) (e : e820entry) : option (Z * Z) :=
  if e_type e =? E820_ARM then
    let begin := if e_addr e <? freemem then freemem else e_addr e in
    let end_ := if e_end e >? KMEMSIZE then KMEMSIZE else e_end e in
    if begin <? end_ then
      let begin := ROUNDUP begin PGSIZE in
      let end_ := ROUNDDOWN (u32 end_) PGSIZE in
      if begin <? end_ then Some (begin, end_) else None
    else None
  else None.

Definition pa2page (npage pa : Z) : res Z := if pa / PGSIZE >=? npage then Panic else Ok (pa / PGSIZE).

Fixpoint memmap_loop (l : list e820entry) (freemem npage : Z) (st : pmm) : res pmm :=
  match l with
  | [] => Ok st
  | e :: l =>
      st ← (match clip freemem e with
            | Some (begin, end_) => p ← pa2page npage begin; default_init_memmap p ((end_ - begin) / PGSIZE) st
            | None => Ok st
            end);
      memmap_loop l freemem npage st
  end.

Definition PADDR (kva : Z) : res Z := if kva <? KERNBASE then Panic else Ok (kva - KERNBASE).

(** [kend]: the end of the kernel image.  The results are [npage], [tpage]
    and the state of the allocator. *)
Definition page_init (kend : Z) (l : list e820entry) (st : pmm) : res (Z * Z * pmm) :=
  let npage := max_pa l / PGSIZE in
  let pages := ROUNDUP kend PGSIZE in
  let st := reserve_pages (Z.to_nat npage) st in
  freemem ← PADDR (u32 (pages + SIZEOF_PAGE * npage));
  st ← memmap_loop l freemem npage st;
  Ok (npage, default_nr_free_pages st, st).

(** ** Correctness *)
Record map_ok (l : list e820entry) : Prop := {
  mo_range : Forall (fun e => 0 <= e_addr e /\ 0 <= e_size e /\ e_addr e + e_size e < 2 ^ 64) l;
  mo_order : StronglySorted (fun a b => e_type a = E820_ARM -> e_type b = E820_ARM -> e_addr a + e_size a < e_addr b) l
}.

(** Page [x] is memory the BIOS lets the system use. *)
Definition usable (l : list e820entry) (x : Z) : Prop :=
  exists e, e ∈ l /\ e_type e = E820_ARM /\ e_addr e <= x * PGSIZE /\ (x + 1) * PGSIZE <= e_addr e + e_size e.

Lemma rounddown_le a : ROUNDDOWN a PGSIZE <= a /\ ROUNDDOWN a PGSIZE mod PGSIZE = 0 /\ a < ROUNDDOWN a PGSIZE + PGSIZE.
Proof.
  unfold ROUNDDOWN, PGSIZE. pose proof (Z.mod_pos_bound a 4096 ltac:(lia)). split_and!; [lia| |lia].
  rewrite Zminus_mod_idemp_r, Z.sub_diag. done.
Qed.

Lemma roundup_ge a : 0 <= a -> a + PGSIZE < 2 ^ 32 -> a <= ROUNDUP a PGSIZE /\ ROUNDUP a PGSIZE mod PGSIZE = 0 /\ ROUNDUP a PGSIZE < a + PGSIZE.
Proof.
  intros H0 H1. unfold ROUNDUP. unfold PGSIZE in *. rewrite (u32_small (a + 4096)), u32_small by lia.
  destruct (rounddown_le (a + 4096 - 1)) as (H2 & H3 & H4). unfold PGSIZE in *. split_and!; [lia|done|lia].
Qed.

Lemma mult_pages z : z mod PGSIZE = 0 -> z = z / PGSIZE * PGSIZE.
Proof. intros H. pose proof (Z.div_mod z PGSIZE ltac:(done)). lia. Qed.

(** What an entry contributes: the whole pages of it between [freemem] and
    the end of the memory the kernel maps. *)
Lemma clip_spec freemem e : 0 <= freemem -> freemem + PGSIZE < 2 ^ 32 -> 0 <= e_addr e -> 0 <= e_size e -> e_addr e + e_size e < 2 ^ 64 -> e_type e = E820_ARM ->
  let inside x := freemem <= x * PGSIZE /\ (x + 1) * PGSIZE <= KMEMSIZE /\ e_addr e <= x * PGSIZE /\ (x + 1) * PGSIZE <= e_addr e + e_size e in
  match clip freemem e with
  | Some (begin, end_) =>
      begin mod PGSIZE = 0 /\ end_ mod PGSIZE = 0 /\ e_addr e <= begin < end_ /\ end_ <= e_addr e + e_size e /\ end_ <= KMEMSIZE /\
      (forall x, begin / PGSIZE <= x < begin / PGSIZE + (end_ - begin) / PGSIZE <-> inside x)
  | None => forall x, ~ inside x
  end.
Proof.
  intros Hf0 Hf1 Ha Hs He Ht inside. unfold clip. rewrite Ht. change (E820_ARM =? E820_ARM) with true. cbn match.
  assert (Hend : e_end e = e_addr e + e_size e) by (unfold e_end, u64; apply Z.mod_small; lia). rewrite Hend.
  set (b := if e_addr e <? freemem then freemem else e_addr e). assert (Hb : b = Z.max (e_addr e) freemem) by (unfold b; destruct (Z.ltb_spec (e_addr e) freemem); lia).
  set (d := if e_addr e + e_size e >? KMEMSIZE then KMEMSIZE else e_addr e + e_size e).
  assert (Hd : d = Z.min (e_addr e + e_size e) KMEMSIZE) by (unfold d; destruct (Z.gtb_spec (e_addr e + e_size e) KMEMSIZE); lia). clearbody b d.
  assert (Hin : forall x, inside x <-> b <= x * PGSIZE /\ (x + 1) * PGSIZE <= d) by (intros x; unfold inside; lia).
  unfold KMEMSIZE, PGSIZE in *. destruct (Z.ltb_spec b d) as [Hbd|Hbd]; [|intros x; rewrite Hin; lia].
  rewrite (u32_small d) by lia. destruct (roundup_ge b) as (U1 & U2 & U3); [lia|unfold PGSIZE; lia|]. destruct (rounddown_le d) as (D1 & D2 & D3). unfold PGSIZE in *.
  set (begin := ROUNDUP b 4096) in *. set (end_ := ROUNDDOWN d 4096) in *.
  pose proof (Z.div_mod begin 4096 ltac:(done)). pose proof (Z.div_mod end_ 4096 ltac:(done)).
  assert (Hq : (end_ - begin) / 4096 = end_ / 4096 - begin / 4096).
  { replace (end_ - begin) with ((end_ / 4096 - begin / 4096) * 4096) by lia. by apply Z.div_mul. }
  destruct (Z.ltb_spec begin end_) as [Hbe|Hbe].
  - split_and!; try done; try lia. intros x. rewrite Hin, Hq. lia.
  - intros x. rewrite Hin. lia.
Qed.

Lemma raise_mono l : forall m, m <= foldl raise_maxpa m l.
Proof.
  induction l as [|e l IH]; intros m; cbn; [lia|]. etransitivity; [|apply IH]. unfold raise_maxpa.
  destruct (e_type e =? E820_ARM); cbn [andb]; [|lia]. destruct (Z.ltb_spec m (e_end e)); cbn [andb]; [|lia]. destruct (e_addr e <? KMEMSIZE); lia.
Qed.

Lemma maxpa_covers l e : e ∈ l -> e_type e = E820_ARM -> e_addr e < KMEMSIZE -> forall m, e_end e <= foldl raise_maxpa m l.
Proof.
  intros Hin Ht Ha. induction l as [|e' l IH]; intros m; [by apply elem_of_nil in Hin|]. cbn. apply elem_of_cons in Hin as [->|Hin]; [|by apply IH].
  etransitivity; [|apply raise_mono]. unfold raise_maxpa. rewrite Ht. change (E820_ARM =? E820_ARM) with true. replace (e_addr e' <? KMEMSIZE) with true by lia.
  destruct (Z.ltb_spec m (e_end e')); cbn [andb]; lia.
Qed.

Lemma memmap_frame base n st st' x : 0 < n -> default_init_memmap base n st = Ok st' -> (forall y, base <= y < base + n -> PageReserved st y = true) ->
  ~ (base <= x < base + n) -> page st' x = page st x.
Proof.
  intros Hn He Hres Hx. unfold default_init_memmap in He. rewrite kassert_true, res_bind_ok in He by lia.
  destruct (init_pages_spec (Z.to_nat n) base st) as (st0 & E & _ & _ & Hp); [rewrite Z2Nat.id by lia; done|]. rewrite E, res_bind_ok in He. injection He as <-.
  rewrite Z2Nat.id in Hp by lia. rewrite page_upd_links, page_set_nr_free. unfold SetPageProperty, set_property. rewrite !page_upd, !decide_False by lia.
  by rewrite Hp, decide_False.
Qed.

Lemma total_le lo hi bs : sep lo bs -> lo <= hi -> (forall p m, (p, m) ∈ bs -> p + m <= hi) -> total bs <= hi - lo.
Proof.
  revert lo. induction bs as [|[b n] bs IH]; intros lo; cbn; [lia|]. intros (Hb & Hn & Hs) Hlo Hall.
  assert (b + n <= hi) by (apply Hall; by left). destruct bs as [|[b' n'] bs]; [cbn; lia|].
  assert (b + n + 1 <= hi) by (destruct Hs as (? & ? & _); assert (b' + n' <= hi) by (apply Hall; right; by left); lia).
  specialize (IH (b + n + 1) Hs). assert (total ((b', n') :: bs) <= hi - (b + n + 1)); [|lia]. apply IH; [done|]. intros p m Hin. apply Hall. by right.
Qed.

(** A page of [l] the loop adds. *)
Definition added (freemem : Z) (l : list e820entry) (x : Z) : Prop :=
  usable l x /\ freemem <= x * PGSIZE /\ (x + 1) * PGSIZE <= KMEMSIZE.

Lemma added_cons freemem e l x :
  added freemem (e :: l) x <-> (e_type e = E820_ARM /\ freemem <= x * PGSIZE /\ (x + 1) * PGSIZE <= KMEMSIZE /\ e_addr e <= x * PGSIZE /\ (x + 1) * PGSIZE <= e_addr e + e_size e) \/
    added freemem l x.
Proof.
  unfold added, usable. split.
  - intros ((a & Hin & H1 & H2) & H3). apply elem_of_cons in Hin as [->|Hin]; [left; tauto|right]. split; [|done]. by exists a.
  - intros [(H1 & H2 & H3 & H4)|((a & Hin & H1) & H2)]; (split; [|done]); [exists e; split; [by left|done]|exists a; split; [by right|done]].
Qed.

Section loop.
Variables (freemem npage : Z).
Hypothesis Hf0 : 0 <= freemem.
Hypothesis Hf1 : freemem + PGSIZE < 2 ^ 32.
Hypothesis Hnp : 0 <= npage <= KMEMSIZE / PGSIZE.

(** The blocks so far lie below the entries still to come, and everything
    above them is still reserved. *)
Record so_far (l : list e820entry) (st : pmm) (bs : list block) : Prop := {
  sf_rep : rep st bs;
  sf_below : forall p m e, (p, m) ∈ bs -> e ∈ l -> e_type e = E820_ARM -> (p + m) * PGSIZE < e_addr e;
  sf_npage : forall p m, (p, m) ∈ bs -> p + m <= npage;
  sf_reserved : forall x, 0 <= x < npage -> (forall p m, (p, m) ∈ bs -> p + m <= x) -> PageReserved st x = true
}.

Lemma memmap_loop_ok l : forall st bs, map_ok l -> so_far l st bs ->
  (forall e, e ∈ l -> e_type e = E820_ARM -> e_addr e < KMEMSIZE -> Z.min (e_addr e + e_size e) KMEMSIZE < (npage + 1) * PGSIZE) ->
  exists st' bs', memmap_loop l freemem npage st = Ok st' /\ rep st' (bs ++ bs') /\ forall x, free_page bs' x <-> added freemem l x.
Proof.
  induction l as [|e l IH]; intros st bs [Hrg Hso] Hsf Hcov; cbn [memmap_loop].
  { exists st, []. rewrite app_nil_r. split_and!; [done|apply Hsf|]. intros x. split; [by intros ?%free_page_nil|].
    intros ((a & Hin & _) & _). by apply elem_of_nil in Hin. }
  apply Forall_cons in Hrg as [(Ha & Hs & Hz) Hrg]. apply StronglySorted_inv in Hso as [Hso Hlt]. rewrite Forall_forall in Hlt.
  assert (Hmo : map_ok l) by done. assert (Hcov' : forall a, a ∈ l -> e_type a = E820_ARM -> e_addr a < KMEMSIZE -> Z.min (e_addr a + e_size a) KMEMSIZE < (npage + 1) * PGSIZE)
    by (intros a Hin; apply Hcov; by right).
  assert (Hskip : so_far l st bs) by (destruct Hsf; split; try done; intros p m a Hin Hl; eapply sf_below0; [done|by right]).
  destruct (Z.eq_dec (e_type e) E820_ARM) as [Ht|Ht].
  2: { unfold clip. rewrite (proj2 (Z.eqb_neq _ _) Ht), res_bind_ok. destruct (IH st bs Hmo Hskip Hcov') as (st' & bs' & He & Hr & Hx).
       exists st', bs'. split_and!; [done..|]. intros x. rewrite added_cons, Hx. tauto. }
  pose proof (clip_spec freemem e Hf0 Hf1 Ha Hs Hz Ht) as Hc. cbv zeta in Hc. destruct (clip freemem e) as [[begin end_]|].
  2: { rewrite res_bind_ok. destruct (IH st bs Hmo Hskip Hcov') as (st' & bs' & He & Hr & Hx).
       exists st', bs'. split_and!; [done..|]. intros x. rewrite added_cons, Hx. specialize (Hc x). tauto. }
  destruct Hc as (Hb0 & He0 & Hbe & Hee & Hek & Hin). apply mult_pages in Hb0, He0. set (p := begin / PGSIZE) in *.
  assert (Hq : (end_ - begin) / PGSIZE = end_ / PGSIZE - p).
  { replace (end_ - begin) with ((end_ / PGSIZE - p) * PGSIZE) by lia. by apply Z.div_mul. }
  rewrite Hq in *. set (q := end_ / PGSIZE) in *. assert (Hpq : 0 <= p < q) by (unfold PGSIZE in *; lia).
  assert (Hqn : q <= npage). { assert (He1 : e_addr e < KMEMSIZE) by lia. pose proof (Hcov e ltac:(by left) Ht He1). unfold PGSIZE in *. lia. }
  unfold pa2page. fold p. destruct (Z.geb_spec p npage); [lia|]. rewrite res_bind_ok. destruct Hsf as [Hrep Hbel Hbn Hres].
  assert (Hbp : forall a m, (a, m) ∈ bs -> a + m < p).
  { intros a m Hab. specialize (Hbel a m e Hab ltac:(by left) Ht). unfold PGSIZE in *. lia. }
  assert (Hrs : forall x, p <= x < p + (q - p) -> PageReserved st x = true) by (intros x Hx; apply Hres; [lia|intros a m Hab; specialize (Hbp a m Hab); lia]).
  assert (Htot : total bs + (q - p) < 2 ^ 32 - 1).
  { pose proof (total_le 0 npage bs (rep_sep _ _ Hrep) ltac:(lia) Hbn). change (KMEMSIZE / PGSIZE) with 229376 in Hnp. lia. }
  destruct (init_memmap_rep st bs p (q - p) Hrep ltac:(lia) ltac:(lia) Hbp Htot Hrs) as (st1 & Hst1 & Hrep1). rewrite Hst1, res_bind_ok.
  destruct (IH st1 (bs ++ [(p, q - p)]) Hmo) as (st' & bs' & He & Hr & Hx); [|exact Hcov'|].
  { split; [done|..].
    - intros a m e' Hab Hel Ht'. apply elem_of_app in Hab as [Hab|[= -> ->]%list_elem_of_singleton]; [by apply (sf_below _ _ _ Hskip)|].
      apply list_elem_of_In in Hel as Hel'. specialize (Hlt e' Hel Ht Ht'). unfold PGSIZE in *. lia.
    - intros a m Hab. apply elem_of_app in Hab as [Hab|[= -> ->]%list_elem_of_singleton]; [by eapply Hbn|lia].
    - intros x Hx0 Hall. assert (Hq' : p + (q - p) <= x) by (apply Hall, elem_of_app; right; by apply list_elem_of_singleton).
      unfold PageReserved. rewrite (memmap_frame p (q - p) st st1 x) by (done || lia). apply Hres; [done|]. intros a m Hab. apply Hall, elem_of_app. by left. }
  exists st', ((p, q - p) :: bs'). rewrite <- app_assoc in Hr. split_and!; [done..|]. intros x. rewrite free_page_cons, added_cons, Hx, Hin. tauto.
Qed.
End loop.

(** on a memory map whose usable areas are in order and apart, [page_init]
    runs without a panic and hands to the allocator exactly the whole pages
    of usable memory that lie behind the kernel image and the array of page
    descriptors and below the limit of kernel memory; [tpage] is their
    number. *)
Theorem page_init_correct (kend : Z) (l : list e820entry) (st : pmm) :
  let npage := max_pa l / PGSIZE in
  let freemem := ROUNDUP kend PGSIZE + SIZEOF_PAGE * npage - KERNBASE in
  map_ok l -> KERNBASE <= kend -> kend + PGSIZE + SIZEOF_PAGE * npage < 2 ^ 32 ->
  exists st' bs, page_init kend l (default_init st) = Ok (npage, total bs, st') /\ rep st' bs /\
    (forall x, free_page bs x <-> usable l x /\ freemem <= x * PGSIZE /\ (x + 1) * PGSIZE <= KMEMSIZE).
Proof.
  intros npage freemem Hmo Hk Hke.
  assert (Hmax : 0 <= max_pa l <= KMEMSIZE).
  { unfold max_pa. pose proof (raise_mono l 0). destruct (Z.gtb_spec (foldl raise_maxpa 0 l) KMEMSIZE); unfold KMEMSIZE in *; lia. }
  assert (Hnp : 0 <= npage <= KMEMSIZE / PGSIZE) by (unfold npage; split; [apply Z.div_pos; [lia|done]|apply Z.div_le_mono; [done|lia]]).
  unfold SIZEOF_PAGE, KERNBASE, PGSIZE in *. destruct (roundup_ge kend) as (U1 & U2 & U3); [lia|unfold PGSIZE; lia|]. unfold PGSIZE in U1, U2, U3.
  assert (Hup : 4096 <= 2 ^ 32 - ROUNDUP kend 4096).
  { pose proof (Z.div_mod (ROUNDUP kend 4096) 4096 ltac:(done)). assert (ROUNDUP kend 4096 / 4096 < 2 ^ 20) by (apply Z.div_lt_upper_bound; lia). lia. }
  unfold page_init, SIZEOF_PAGE, PGSIZE. fold npage. unfold PADDR, KERNBASE. rewrite u32_small by lia.
  destruct (Z.ltb_spec (ROUNDUP kend 4096 + 36 * npage) 0xC0000000); [lia|]. rewrite res_bind_ok. fold freemem.
  set (st0 := reserve_pages (Z.to_nat npage) (default_init st)).
  assert (Hnot : forall n s, plinks (reserve_pages n s) = plinks s /\ nr_free (reserve_pages n s) = nr_free s) by (induction n as [|n IHn]; intros s; cbn; [done|apply IHn]).
  destruct (Hnot (Z.to_nat npage) (default_init st)) as [Hl Hn]. fold st0 in Hl, Hn.
  assert (Hrep : rep st0 []).
  { destruct (default_init_rep st) as [R1 R2 R3 R4 R5 R6 R7]. split; [by rewrite Hl|by intros b n ?%elem_of_nil|done|by rewrite Hn|done|..]; intros x Hx; by apply free_page_nil in Hx. }
  destruct (memmap_loop_ok freemem npage ltac:(unfold freemem; lia) ltac:(unfold freemem, PGSIZE; lia) Hnp l st0 []) as (st' & bs & He & Hr & Hx); [done|..].
  - split; [done|by intros p m e ?%elem_of_nil|by intros p m ?%elem_of_nil|]. intros x Hx _. apply reserve_pages_reserved. lia.
  - intros e Hin Ht Ha. pose proof (maxpa_covers l e Hin Ht Ha 0) as Hm. destruct (proj1 (Forall_forall _ _) (mo_range _ Hmo) e Hin) as (H1 & H2 & H3).
    assert (Hend : e_end e = e_addr e + e_size e) by (unfold e_end, u64; apply Z.mod_small; lia). rewrite Hend in Hm.
    assert (Z.min (e_addr e + e_size e) KMEMSIZE <= max_pa l) by (unfold max_pa; destruct (Z.gtb_spec (foldl raise_maxpa 0 l) KMEMSIZE); lia).
    pose proof (Z.div_mod (max_pa l) 4096 ltac:(done)). pose proof (Z.mod_pos_bound (max_pa l) 4096 ltac:(lia)). unfold npage, PGSIZE. lia.
  - rewrite He, res_bind_ok. exists st', bs. split_and!; [|done|exact Hx]. unfold default_nr_free_pages. by rewrite (rep_nr _ _ Hr).
Qed.

(** A machine of 128 megabytes. *)
Definition demo_map : list e820entry :=
  [E820 0 0x9fc00 1; E820 0x9fc00 0x400 2; E820 0xf0000 0x10000 2; E820 0x100000 0x7ee0000 1; E820 0x7fe0000 0x20000 2; E820 0xfffc0000 0x40000 2].

Lemma page_init_correct_witness :
  exists st' bs, page_init 0xC0150000 demo_map (default_init (Pmm ∅ ∅ 0)) = Ok (32736, total bs, st') /\ rep st' bs /\ free_page bs 0x300 /\ ~ free_page bs 0x100.
Proof.
  destruct (page_init_correct 0xC0150000 demo_map (Pmm ∅ ∅ 0)) as (st' & bs & He & Hr & Hx).
  - split; [repeat constructor; done|]. repeat apply SSorted_cons; repeat constructor; done.
  - done.
  - done.
  - exists st', bs. split_and!; [exact He|exact Hr|apply Hx|rewrite Hx].
    + split; [|vm_compute; split; discriminate]. exists (E820 0x100000 0x7ee0000 1). split_and!; [apply list_elem_of_In; cbn; tauto|done|vm_compute; discriminate..].
    + intros (_ & H & _). vm_compute in H. by apply H.
Defined.
