(* ===== verification/ProcData.v ===== *)
(** * kern/process/proc.h: the process control block

    The fields of [struct proc_struct] the modelled code reads or writes,
    with one update function per field.  Pointers to other processes are
    addresses, 0 being NULL.  Not kept: the machine context, trap frame, cr3
    and name, which no modelled operation tests. *)
From S2P Require Import Prelude.

Inductive proc_state := PROC_UNINIT | PROC_SLEEPING | PROC_RUNNABLE | PROC_ZOMBIE.

#[global] Instance proc_state_eq_dec : EqDecision proc_state.
Proof. solve_decision. Defined.

Record proc_struct := Proc {
  state : proc_state;
  pid : Z;
  runs : Z;
  kstack : Z;
  need_resched : bool;
  parent : Z;
  mm : Z;
  flags : Z;
  exit_code : Z;
  wait_state : Z;
  cptr : Z;
  yptr : Z;
  optr : Z;
  time_slice : Z;
  filesp : Z;
  vruntime : Z;
  cfs_prior : Z;
  stride : Z;
  stride_prior : Z;
  is_thread : Z;
  stack_num : Z;
  stack : list Z
}.

Definition set_state (v : proc_state) (p : proc_struct) : proc_struct :=
  Proc v (pid p) (runs p) (kstack p) (need_resched p) (parent p) (mm p) (flags p) (exit_code p) (wait_state p) (cptr p) (yptr p) (optr p) (time_slice p) (filesp p) (vruntime p) (cfs_prior p) (stride p) (stride_prior p) (is_thread p) (stack_num p) (stack p).
Definition set_pid (v : Z) (p : proc_struct) : proc_struct :=
  Proc (state p) v (runs p) (kstack p) (need_resched p) (parent p) (mm p) (flags p) (exit_code p) (wait_state p) (cptr p) (yptr p) (optr p) (time_slice p) (filesp p) (vruntime p) (cfs_prior p) (stride p) (stride_prior p) (is_thread p) (stack_num p) (stack p).
Definition set_runs (v : Z) (p : proc_struct) : proc_struct :=
  Proc (state p) (pid p) v (kstack p) (need_resched p) (parent p) (mm p) (flags p) (exit_code p) (wait_state p) (cptr p) (yptr p) (optr p) (time_slice p) (filesp p) (vruntime p) (cfs_prior p) (stride p) (stride_prior p) (is_thread p) (stack_num p) (stack p).
Definition set_kstack (v : Z) (p : proc_struct) : proc_struct :=
  Proc (state p) (pid p) (runs p) v (need_resched p) (parent p) (mm p) (flags p) (exit_code p) (wait_state p) (cptr p) (yptr p) (optr p) (time_slice p) (filesp p) (vruntime p) (cfs_prior p) (stride p) (stride_prior p) (is_thread p) (stack_num p) (stack p).
Definition set_need_resched (v : bool) (p : proc_struct) : proc_struct :=
  Proc (state p) (pid p) (runs p) (kstack p) v (parent p) (mm p) (flags p) (exit_code p) (wait_state p) (cptr p) (yptr p) (optr p) (time_slice p) (filesp p) (vruntime p) (cfs_prior p) (stride p) (stride_prior p) (is_thread p) (stack_num p) (stack p).
Definition set_parent (v : Z) (p : proc_struct) : proc_struct :=
  Proc (state p) (pid p) (runs p) (kstack p) (need_resched p) v (mm p) (flags p) (exit_code p) (wait_state p) (cptr p) (yptr p) (optr p) (time_slice p) (filesp p) (vruntime p) (cfs_prior p) (stride p) (stride_prior p) (is_thread p) (stack_num p) (stack p).
Definition set_mm (v : Z) (p : proc_struct) : proc_struct :=
  Proc (state p) (pid p) (runs p) (kstack p) (need_resched p) (parent p) v (flags p) (exit_code p) (wait_state p) (cptr p) (yptr p) (optr p) (time_slice p) (filesp p) (vruntime p) (cfs_prior p) (stride p) (stride_prior p) (is_thread p) (stack_num p) (stack p).
Definition set_flags (v : Z) (p : proc_struct) : proc_struct :=
  Proc (state p) (pid p) (runs p) (kstack p) (need_resched p) (parent p) (mm p) v (exit_code p) (wait_state p) (cptr p) (yptr p) (optr p) (time_slice p) (filesp p) (vruntime p) (cfs_prior p) (stride p) (stride_prior p) (is_thread p) (stack_num p) (stack p).
Definition set_exit_code (v : Z) (p : proc_struct) : proc_struct :=
  Proc (state p) (pid p) (runs p) (kstack p) (need_resched p) (parent p) (mm p) (flags p) v (wait_state p) (cptr p) (yptr p) (optr p) (time_slice p) (filesp p) (vruntime p) (cfs_prior p) (stride p) (stride_prior p) (is_thread p) (stack_num p) (stack p).
Definition set_wait_state (v : Z) (p : proc_struct) : proc_struct :=
  Proc (state p) (pid p) (runs p) (kstack p) (need_resched p) (parent p) (mm p) (flags p) (exit_code p) v (cptr p) (yptr p) (optr p) (time_slice p) (filesp p) (vruntime p) (cfs_prior p) (stride p) (stride_prior p) (is_thread p) (stack_num p) (stack p).
Definition set_cptr (v : Z) (p : proc_struct) : proc_struct :=
  Proc (state p) (pid p) (runs p) (kstack p) (need_resched p) (parent p) (mm p) (flags p) (exit_code p) (wait_state p) v (yptr p) (optr p) (time_slice p) (filesp p) (vruntime p) (cfs_prior p) (stride p) (stride_prior p) (is_thread p) (stack_num p) (stack p).
Definition set_yptr (v : Z) (p : proc_struct) : proc_struct :=
  Proc (state p) (pid p) (runs p) (kstack p) (need_resched p) (parent p) (mm p) (flags p) (exit_code p) (wait_state p) (cptr p) v (optr p) (time_slice p) (filesp p) (vruntime p) (cfs_prior p) (stride p) (stride_prior p) (is_thread p) (stack_num p) (stack p).
Definition set_optr (v : Z) (p : proc_struct) : proc_struct :=
  Proc (state p) (pid p) (runs p) (kstack p) (need_resched p) (parent p) (mm p) (flags p) (exit_code p) (wait_state p) (cptr p) (yptr p) v (time_slice p) (filesp p) (vruntime p) (cfs_prior p) (stride p) (stride_prior p) (is_thread p) (stack_num p) (stack p).
Definition set_time_slice (v : Z) (p : proc_struct) : proc_struct :=
  Proc (state p) (pid p) (runs p) (kstack p) (need_resched p) (parent p) (mm p) (flags p) (exit_code p) (wait_state p) (cptr p) (yptr p) (optr p) v (filesp p) (vruntime p) (cfs_prior p) (stride p) (stride_prior p) (is_thread p) (stack_num p) (stack p).
Definition set_filesp (v : Z) (p : proc_struct) : proc_struct :=
  Proc (state p) (pid p) (runs p) (kstack p) (need_resched p) (parent p) (mm p) (flags p) (exit_code p) (wait_state p) (cptr p) (yptr p) (optr p) (time_slice p) v (vruntime p) (cfs_prior p) (stride p) (stride_prior p) (is_thread p) (stack_num p) (stack p).
Definition set_vruntime (v : Z) (p : proc_struct) : proc_struct :=
  Proc (state p) (pid p) (runs p) (kstack p) (need_resched p) (parent p) (mm p) (flags p) (exit_code p) (wait_state p) (cptr p) (yptr p) (optr p) (time_slice p) (filesp p) v (cfs_prior p) (stride p) (stride_prior p) (is_thread p) (stack_num p) (stack p).
Definition set_cfs_prior (v : Z) (p : proc_struct) : proc_struct :=
  Proc (state p) (pid p) (runs p) (kstack p) (need_resched p) (parent p) (mm p) (flags p) (exit_code p) (wait_state p) (cptr p) (yptr p) (optr p) (time_slice p) (filesp p) (vruntime p) v (stride p) (stride_prior p) (is_thread p) (stack_num p) (stack p).
Definition set_stride (v : Z) (p : proc_struct) : proc_struct :=
  Proc (state p) (pid p) (runs p) (kstack p) (need_resched p) (parent p) (mm p) (flags p) (exit_code p) (wait_state p) (cptr p) (yptr p) (optr p) (time_slice p) (filesp p) (vruntime p) (cfs_prior p) v (stride_prior p) (is_thread p) (stack_num p) (stack p).
Definition set_stride_prior (v : Z) (p : proc_struct) : proc_struct :=
  Proc (state p) (pid p) (runs p) (kstack p) (need_resched p) (parent p) (mm p) (flags p) (exit_code p) (wait_state p) (cptr p) (yptr p) (optr p) (time_slice p) (filesp p) (vruntime p) (cfs_prior p) (stride p) v (is_thread p) (stack_num p) (stack p).
Definition set_is_thread (v : Z) (p : proc_struct) : proc_struct :=
  Proc (state p) (pid p) (runs p) (kstack p) (need_resched p) (parent p) (mm p) (flags p) (exit_code p) (wait_state p) (cptr p) (yptr p) (optr p) (time_slice p) (filesp p) (vruntime p) (cfs_prior p) (stride p) (stride_prior p) v (stack_num p) (stack p).
Definition set_stack_num (v : Z) (p : proc_struct) : proc_struct :=
  Proc (state p) (pid p) (runs p) (kstack p) (need_resched p) (parent p) (mm p) (flags p) (exit_code p) (wait_state p) (cptr p) (yptr p) (optr p) (time_slice p) (filesp p) (vruntime p) (cfs_prior p) (stride p) (stride_prior p) (is_thread p) v (stack p).
Definition set_stack (v : list Z) (p : proc_struct) : proc_struct :=
  Proc (state p) (pid p) (runs p) (kstack p) (need_resched p) (parent p) (mm p) (flags p) (exit_code p) (wait_state p) (cptr p) (yptr p) (optr p) (time_slice p) (filesp p) (vruntime p) (cfs_prior p) (stride p) (stride_prior p) (is_thread p) (stack_num p) v.

Definition MAX_PROCESS : Z := 4096.
Definition MAX_PID : Z := MAX_PROCESS * 2.
Definition MAX_THREAD : Z := 16.
Definition PF_EXITING : Z := 1.
Definition WT_INTERRUPTED : Z := 0x80000000.
Definition WT_CHILD : Z := Z.lor 1 WT_INTERRUPTED.
Definition WT_KSEM : Z := 0x100.
Definition WT_TIMER : Z := Z.lor 2 WT_INTERRUPTED.
Definition WT_KBD : Z := Z.lor 4 WT_INTERRUPTED.

(** The block [kmalloc] returns, before any field is set. *)
Definition blank_proc : proc_struct :=
  Proc PROC_UNINIT 0 0 0 false 0 0 0 0 0 0 0 0 0 0 0 0 0 0 0 0 [].

(** The table of all processes by address. *)
Abbreviation ptable := (gmap Z proc_struct).

Definition pget (t : ptable) (p : Z) : proc_struct := default blank_proc (t !! p).
Definition pupd (p : Z) (f : proc_struct -> proc_struct) (t : ptable) : ptable := <[p := f (pget t p)]> t.

Lemma pget_pupd t p f q : pget (pupd p f t) q = if decide (q = p) then f (pget t p) else pget t q.
Proof.
  unfold pupd, pget. case_decide as H.
  - subst. by rewrite lookup_insert_eq.
  - by rewrite lookup_insert_ne.
Qed.

Lemma pget_pupd_eq t p f : pget (pupd p f t) p = f (pget t p).
Proof. rewrite pget_pupd. by rewrite decide_True. Qed.

Lemma pget_pupd_ne t p q f : q <> p -> pget (pupd p f t) q = pget t q.
Proof. intros H. rewrite pget_pupd. by rewrite decide_False. Qed.
