(* ===== verification/Sched.v ===== *)
(** * kern/schedule/sched.c: run queue entry points and timers

    The scheduling class is the table of functions of [struct sched_class];
    the run queue type belongs to the class.  Timers are kept in a store by
    address; [timer_list] is the sequence linked in the list of that name. *)
From S2P Require Import Prelude ProcData.

Record timer_t := Timer { expires : Z; proc : Z }.

(** [struct sched_class]: each function may change the processes. *)
Record sched_class (RQ : Type) := SchedClass {
  sc_init : RQ -> RQ;
  sc_enqueue : Z -> RQ * ptable -> RQ * ptable;
  sc_dequeue : Z -> RQ * ptable -> RQ * ptable;
  sc_pick_next : RQ * ptable -> option Z * (RQ * ptable);
  sc_proc_tick : Z -> RQ * ptable -> res (RQ * ptable)
}.
Arguments sc_init {RQ} _ _.
Arguments sc_enqueue {RQ} _ _ _.
Arguments sc_dequeue {RQ} _ _ _.
Arguments sc_pick_next {RQ} _ _.
Arguments sc_proc_tick {RQ} _ _ _.

(** ** What a scheduling class promises

    [core] and [links] are fields a class must leave alone; [key] are those
    its queue may depend on.  [Q x l] says that the run queue and the process table [x]
    hold exactly the processes [l]. *)
Definition core (p : proc_struct) : proc_state * Z * Z := (state p, pid p, wait_state p).
Definition links (p : proc_struct) : Z * Z * Z * Z := (parent p, cptr p, yptr p, optr p).
Definition key (p : proc_struct) : Z * Z * Z * Z := (pid p, stride p, vruntime p, stride_prior p).

(** A process that may join the queue [l]: its pid is its own, and its
    priority is one a scheduler can divide by. *)
Definition joinable (t : ptable) (p : Z) (l : list Z) : Prop :=
  Forall (fun q => pid (pget t q) <> pid (pget t p)) l /\ u32 (20 - stride_prior (pget t p)) <> 0.

Class SchedLaws {RQ : Type} (class : sched_class RQ) (Q : RQ * ptable -> list Z -> Prop) := {
  enqueue_spec : forall p x l, Q x l -> p ∉ l -> joinable x.2 p l ->
    exists l', Q (sc_enqueue class p x) l' /\ l' ≡ₚ p :: l;
  pick_spec : forall x l, Q x l ->
    match sc_pick_next class x with
    | (None, x') => l = [] /\ Q x' []
    | (Some p, x') => exists l', Q (sc_dequeue class p x') l' /\ p :: l' ≡ₚ l
    end;
  enqueue_core : forall p x q, core (pget (sc_enqueue class p x).2 q) = core (pget x.2 q);
  enqueue_links : forall p x q, links (pget (sc_enqueue class p x).2 q) = links (pget x.2 q);
  dequeue_core : forall p x q, core (pget (sc_dequeue class p x).2 q) = core (pget x.2 q);
  pick_core : forall x q, core (pget (sc_pick_next class x).2.2 q) = core (pget x.2 q);
  queue_frame : forall r t t' l, Q (r, t) l ->
    (forall q, key (pget t' q) = key (pget t q)) -> Q (r, t') l
}.

Section Sched.
Context {RQ : Type} (class : sched_class RQ).

Record sched := Sched {
  rq : RQ;
  procs : ptable;
  idleproc : Z;
  current : Z;
  timers : gmap Z timer_t;
  timer_list : list Z
}.

Definition set_q (x : RQ * ptable) (s : sched) : sched :=
  Sched x.1 x.2 (idleproc s) (current s) (timers s) (timer_list s).
Definition set_procs (t : ptable) (s : sched) : sched :=
  Sched (rq s) t (idleproc s) (current s) (timers s) (timer_list s).
Definition set_current (p : Z) (s : sched) : sched :=
  Sched (rq s) (procs s) (idleproc s) p (timers s) (timer_list s).
Definition set_timers (t : gmap Z timer_t) (l : list Z) (s : sched) : sched :=
  Sched (rq s) (procs s) (idleproc s) (current s) t l.

Definition the_proc (s : sched) (p : Z) : proc_struct := pget (procs s) p.
Definition timer (s : sched) (t : Z) : timer_t := default (Timer 0 0) (timers s !! t).

(** ** The class behind the idle process test *)
Definition sched_class_enqueue (p : Z) (s : sched) : sched :=
  if negb (p =? idleproc s) then set_q (sc_enqueue class p (rq s, procs s)) s else s.

Definition sched_class_dequeue (p : Z) (s : sched) : sched :=
  set_q (sc_dequeue class p (rq s, procs s)) s.

Definition sched_class_pick_next (s : sched) : option Z * sched :=
  let '(next, q) := sc_pick_next class (rq s, procs s) in (next, set_q q s).

Definition sched_class_proc_tick (p : Z) (s : sched) : res sched :=
  if negb (p =? idleproc s) then
    q ← sc_proc_tick class p (rq s, procs s); Ok (set_q q s)
  else Ok (set_procs (pupd p (set_need_resched true) (procs s)) s).

(** [set_slice] writes the field [max_time_slice] of the run queue. *)
Definition sched_init (set_slice : Z -> RQ -> RQ) (s : sched) : sched :=
  let s := set_timers (timers s) [] s in
  set_q (sc_init class (set_slice 5 (rq s)), procs s) s.

(** ** Waking and switching *)
Definition wakeup_proc (p : Z) (s : sched) : res sched :=
  _ ← kassert (negb (bool_decide (state (the_proc s p) = PROC_ZOMBIE)));
  if negb (bool_decide (state (the_proc s p) = PROC_RUNNABLE)) then
    let s := set_procs (pupd p (fun q => set_wait_state 0 (set_state PROC_RUNNABLE q)) (procs s)) s in
    Ok (if negb (p =? current s) then sched_class_enqueue p s else s)
  else Ok s.

(** [proc_run] switches to the process. *)
Definition proc_run (p : Z) (s : sched) : sched :=
  if negb (p =? current s) then set_current p s else s.

Definition schedule (s : sched) : sched :=
  let cur := current s in
  let s := set_procs (pupd cur (set_need_resched false) (procs s)) s in
  let s := if bool_decide (state (the_proc s cur) = PROC_RUNNABLE) then sched_class_enqueue cur s else s in
  let '(next, s) := sched_class_pick_next s in
  let s := match next with Some p => sched_class_dequeue p s | None => s end in
  let next := match next with Some p => p | None => idleproc s end in
  let s := set_procs (pupd next (fun q => set_runs (i32 (runs q + 1)) q) (procs s)) s in
  if negb (next =? cur) then proc_run next s else s.

(** ** Timers *)

(** The loop of [add_timer]: the remaining [expires] of the new timer, the
    timers passed, and the rest from [le] on. *)
Fixpoint timer_place (ts : gmap Z timer_t) (l : list Z) (e : Z) : gmap Z timer_t * list Z * list Z * Z :=
  match l with
  | [] => (ts, [], [], e)
  | t :: l' =>
      let next := default (Timer 0 0) (ts !! t) in
      if e <? expires next then (<[t := Timer (expires next - e) (proc next)]> ts, [], l, e)
      else let '(ts', pre, post, e') := timer_place ts l' (e - expires next) in (ts', t :: pre, post, e')
  end.

Definition add_timer (t : Z) (s : sched) : res sched :=
  let tm := timer s t in
  _ ← kassert ((0 <? expires tm) && negb (proc tm =? 0));
  _ ← kassert (negb (bool_decide (t ∈ timer_list s)));
  let '(ts, pre, post, e) := timer_place (timers s) (timer_list s) (expires tm) in
  Ok (set_timers (<[t := Timer e (proc tm)]> ts) (pre ++ t :: post) s).

(** The element after [t]. *)
Fixpoint timer_after (l : list Z) (t : Z) : option Z :=
  match l with
  | [] => None
  | x :: l => if x =? t then head l else timer_after l t
  end.

Definition del_timer (t : Z) (s : sched) : sched :=
  if bool_decide (t ∈ timer_list s) then
    let tm := timer s t in
    let ts :=
      if negb (expires tm =? 0) then
        match timer_after (timer_list s) t with
        | Some n => <[n := Timer (u32 (expires (timer s n) + expires tm)) (proc (timer s n))]> (timers s)
        | None => timers s
        end
      else timers s in
    set_timers ts (filter (fun x => x <> t) (timer_list s)) s
  else s.

(** [while (timer->expires == 0)]; [le] is the rest of the list from the
    timer examined on. *)
Fixpoint expire (le : list Z) (s : sched) : res sched :=
  match le with
  | [] => Ok s
  | t :: rest =>
      if expires (timer s t) =? 0 then
        let p := proc (timer s t) in
        _ ← kassert ((wait_state (the_proc s p) =? 0) ||
                     negb (Z.land (wait_state (the_proc s p)) WT_INTERRUPTED =? 0));
        s ← wakeup_proc p s;
        expire rest (del_timer t s)
      else Ok s
  end.

Definition run_timer_list (s : sched) : res sched :=
  s ← match timer_list s with
      | [] => Ok s
      | t :: rest =>
          _ ← kassert (negb (expires (timer s t) =? 0));
          expire (t :: rest) (set_timers (<[t := Timer (expires (timer s t) - 1) (proc (timer s t))]> (timers s))
                                (timer_list s) s)
      end;
  sched_class_proc_tick (current s) s.

(** ** Deadlines

    The list stores differences; the deadline of a timer, in ticks from now,
    is the sum of the [expires] fields up to it. *)
Fixpoint deadlines (ts : gmap Z timer_t) (acc : Z) (l : list Z) : list (Z * Z) :=
  match l with
  | [] => []
  | t :: l =>
      let a := acc + expires (default (Timer 0 0) (ts !! t)) in
      (t, a) :: deadlines ts a l
  end.

Definition due (s : sched) : list (Z * Z) := deadlines (timers s) 0 (timer_list s).

Record timers_ok (s : sched) : Prop := {
  ok_nodup : NoDup (timer_list s);
  ok_diff : Forall (fun t => 0 <= expires (timer s t)) (timer_list s);
  ok_range : Forall (fun x => 0 < x.2 < 2 ^ 32) (due s)
}.

Lemma deadlines_ext ts ts' acc l :
  (forall t, t ∈ l -> ts' !! t = ts !! t) -> deadlines ts' acc l = deadlines ts acc l.
Proof.
  revert acc. induction l as [|t l IH]; intros acc H; simpl; [done|].
  rewrite (H t) by (by left). f_equal. apply IH. intros u Hu. apply H. by right.
Qed.

Lemma deadlines_fst ts acc l : (deadlines ts acc l).*1 = l.
Proof. revert acc. induction l as [|t l IH]; intros acc; csimpl; [done|]. by rewrite IH. Qed.

Lemma deadlines_ge ts acc l :
  Forall (fun t => 0 <= expires (default (Timer 0 0) (ts !! t))) l ->
  Forall (fun x => acc <= x.2) (deadlines ts acc l).
Proof.
  revert acc. induction l as [|t l IH]; intros acc H; simpl; [constructor|].
  apply Forall_cons in H as [Ht H]. constructor; [simpl; lia|].
  eapply Forall_impl; [by apply IH|]. simpl. lia.
Qed.

(** Lowering the first difference by [d] and the start by as much. *)
Lemma deadlines_shift ts acc d l :
  deadlines ts (acc - d) l = (fun x => (x.1, x.2 - d)) <$> deadlines ts acc l.
Proof.
  revert acc. induction l as [|t l IH]; intros acc; csimpl; [done|].
  f_equal; [f_equal; lia|]. rewrite <- IH. f_equal. lia.
Qed.

Lemma deadlines_app ts acc l1 l2 :
  exists acc', deadlines ts acc (l1 ++ l2) = deadlines ts acc l1 ++ deadlines ts acc' l2 /\
    (Forall (fun t => 0 <= expires (default (Timer 0 0) (ts !! t))) l1 -> acc <= acc') /\
    (forall ts', (forall t, t ∈ l1 -> ts' !! t = ts !! t) -> forall l2',
       deadlines ts' acc (l1 ++ l2') = deadlines ts acc l1 ++ deadlines ts' acc' l2').
Proof.
  revert acc. induction l1 as [|t l1 IH]; intros acc; simpl.
  - exists acc. split_and!; [done|done|]. intros. done.
  - destruct (IH (acc + expires (default (Timer 0 0) (ts !! t)))) as (acc' & H1 & H2 & H3).
    exists acc'. split_and!; [by rewrite H1| |].
    + intros H. apply Forall_cons in H as [? H]. specialize (H2 H). lia.
    + intros ts' Hts l2'. rewrite (Hts t) by (by left). f_equal. apply H3. intros u Hu. apply Hts. by right.
Qed.

Lemma timer_place_spec ts l t p : forall acc e,
  NoDup l -> t ∉ l -> Forall (fun u => 0 <= expires (default (Timer 0 0) (ts !! u))) l -> 0 <= e ->
  let '(ts', pre, post, e') := timer_place ts l e in
  l = pre ++ post /\ 0 <= e' /\ (forall u, u ∉ l -> ts' !! u = ts !! u) /\
  Forall (fun u => 0 <= expires (default (Timer 0 0) (ts' !! u))) l /\
  exists D1 D2, deadlines ts acc l = D1 ++ D2 /\
    deadlines (<[t := Timer e' p]> ts') acc (pre ++ t :: post) = D1 ++ (t, acc + e) :: D2 /\
    Forall (fun x => x.2 <= acc + e) D1 /\ Forall (fun x => acc + e < x.2) D2.
Proof.
  induction l as [|u l IH]; intros acc e Hnd Ht Hnn He; simpl.
  - split_and!; [done..|constructor|]. exists [], []. rewrite lookup_insert_eq. simpl. split_and!; constructor || done.
  - apply NoDup_cons in Hnd as [Hu Hnd]. apply not_elem_of_cons in Ht as [Htu Ht]. apply Forall_cons in Hnn as [Hnu Hnn].
    set (d := expires (default (Timer 0 0) (ts !! u))) in *. destruct (Z.ltb_spec e d) as [Hlt|Hge].
    + split_and!; [done|done| | |].
      * intros x Hx. apply not_elem_of_cons in Hx as [Hx _]. by rewrite lookup_insert_ne.
      * constructor; [rewrite lookup_insert_eq; simpl; lia|]. apply Forall_forall. intros x Hx.
        rewrite lookup_insert_ne by (intros ->; done). by eapply Forall_forall in Hnn.
      * exists [], ((u, acc + d) :: deadlines ts (acc + d) l). simpl.
        rewrite lookup_insert_eq, (lookup_insert_ne _ t u), lookup_insert_eq by done. simpl. fold d.
        split_and!; [done| |constructor|].
        -- do 2 f_equal; [f_equal; lia|]. replace (acc + e + (d - e)) with (acc + d) by lia.
           apply deadlines_ext. intros x Hx. rewrite !lookup_insert_ne; [done|..]; intros ->; done.
        -- constructor; [simpl; lia|]. eapply Forall_impl; [by apply deadlines_ge|]. simpl. lia.
    + specialize (IH (acc + d) (e - d) Hnd Ht Hnn ltac:(lia)).
      destruct (timer_place ts l (e - d)) as [[[ts' pre] post] e'].
      destruct IH as (-> & He' & Hfr & Hnn' & D1 & D2 & HD & HD' & H1 & H2).
      split_and!; [done|done| | |].
      * intros x Hx. apply not_elem_of_cons in Hx as [_ Hx]. by apply Hfr.
      * constructor; [|done]. rewrite Hfr by done. fold d. lia.
      * exists ((u, acc + d) :: D1), D2. rewrite HD. csimpl. rewrite lookup_insert_ne, Hfr by done. fold d. rewrite HD'.
        replace (acc + d + (e - d)) with (acc + e) in * by lia. split_and!; [done..| |done].
        constructor; [simpl; lia|done].
Qed.

Lemma add_timer_spec s t :
  timers_ok s -> t ∉ timer_list s -> 0 < expires (timer s t) < 2 ^ 32 -> proc (timer s t) <> 0 ->
  exists s', add_timer t s = Ok s' /\ timers_ok s' /\ exists D1 D2, due s = D1 ++ D2 /\
    due s' = D1 ++ (t, expires (timer s t)) :: D2 /\
    Forall (fun x => x.2 <= expires (timer s t)) D1 /\ Forall (fun x => expires (timer s t) < x.2) D2.
Proof.
  intros [Hnd Hnn Hrg] Ht He Hp. unfold add_timer.
  rewrite (kassert_true (_ && _)) by lia. rewrite res_bind_ok.
  rewrite bool_decide_eq_false_2 by done. rewrite kassert_true, res_bind_ok by done.
  pose proof (timer_place_spec (timers s) (timer_list s) t (proc (timer s t)) 0 (expires (timer s t)) Hnd Ht Hnn ltac:(lia)) as H.
  destruct (timer_place (timers s) (timer_list s) (expires (timer s t))) as [[[ts' pre] post] e'].
  destruct H as (Hl & He' & Hfr & Hnn' & D1 & D2 & HD & HD' & H1 & H2). rewrite Z.add_0_l in *.
  eexists. split; [done|]. split; [|by exists D1, D2]. rewrite Hl in Hnd, Ht, Hnn'. split; simpl.
  - rewrite <- Permutation_middle. by apply NoDup_cons.
  - apply not_elem_of_app in Ht as [Ht1 Ht2].
    assert (Hk : forall l, t ∉ l -> Forall (fun u => 0 <= expires (default (Timer 0 0) (ts' !! u))) l ->
      Forall (fun u => 0 <= expires (default (Timer 0 0) (<[t := Timer e' (proc (timer s t))]> ts' !! u))) l).
    { intros l Hnin HF. apply Forall_forall. intros u Hu. rewrite lookup_insert_ne by (intros ->; done).
      by eapply Forall_forall in HF. }
    apply Forall_app in Hnn' as [Hn1 Hn2]. apply Forall_app. split; [by apply Hk|].
    constructor; [|by apply Hk]. unfold timer. simpl. by rewrite lookup_insert_eq.
  - unfold due in *. simpl. rewrite HD'. rewrite HD in Hrg. apply Forall_app in Hrg as [Hr1 Hr2].
    apply Forall_app. split; [done|]. constructor; [simpl; lia|done].
Qed.

(** ** Removal *)
Lemma timer_after_app (l1 l2 : list Z) t : t ∉ l1 -> timer_after (l1 ++ t :: l2) t = head l2.
Proof.
  induction l1 as [|u l1 IH]; simpl; intros H.
  - by rewrite Z.eqb_refl.
  - apply not_elem_of_cons in H as [Hu H]. rewrite (proj2 (Z.eqb_neq u t)) by congruence. by apply IH.
Qed.

Lemma filter_deadlines t (D1 D2 : list (Z * Z)) a :
  t ∉ D1.*1 -> t ∉ D2.*1 -> filter (fun x : Z * Z => x.1 <> t) (D1 ++ (t, a) :: D2) = D1 ++ D2.
Proof.
  intros H1 H2. assert (Hid : forall l : list (Z * Z), t ∉ l.*1 -> filter (fun x : Z * Z => x.1 <> t) l = l).
  { induction l as [|b l IH]; csimpl; intros Ha; [done|]. apply not_elem_of_cons in Ha as [Hb Ha].
    rewrite filter_cons_True by done. by rewrite IH. }
  rewrite filter_app, filter_cons_False by (simpl; tauto). by rewrite !Hid.
Qed.

(** Taking a timer out moves its difference to the next one. *)
Lemma del_deadlines ts acc t l2 (ts' : gmap Z timer_t) :
  NoDup (t :: l2) ->
  ts' = (if negb (expires (default (Timer 0 0) (ts !! t)) =? 0) then
           match head l2 with
           | Some n => <[n := Timer (expires (default (Timer 0 0) (ts !! n)) + expires (default (Timer 0 0) (ts !! t)))
                               (proc (default (Timer 0 0) (ts !! n)))]> ts
           | None => ts
           end else ts) ->
  deadlines ts acc (t :: l2) = (t, acc + expires (default (Timer 0 0) (ts !! t))) :: deadlines ts' acc l2.
Proof.
  intros Hnd ->. simpl. f_equal. destruct (Z.eqb_spec (expires (default (Timer 0 0) (ts !! t))) 0) as [->|Hz]; simpl.
  - by rewrite Z.add_0_r.
  - destruct l2 as [|n l2]; [done|]. simpl. rewrite lookup_insert_eq. simpl.
    apply NoDup_cons in Hnd as [_ Hnd]. apply NoDup_cons in Hnd as [Hn _]. f_equal; [f_equal; lia|].
    symmetry. etransitivity; [apply (deadlines_ext ts)|f_equal; lia].
    intros u Hu. rewrite lookup_insert_ne; [done|]. intros ->. done.
Qed.

Lemma del_timer_spec s t :
  timers_ok s -> t ∈ timer_list s ->
  timers_ok (del_timer t s) /\ due (del_timer t s) = filter (fun x => x.1 <> t) (due s) /\
  t ∉ timer_list (del_timer t s) /\ procs (del_timer t s) = procs s.
Proof.
  intros [Hnd Hnn Hrg] Ht. unfold del_timer. rewrite bool_decide_eq_true_2 by done. unfold timer, due in *. cbv zeta.
  apply list_elem_of_split in Ht as (l1 & l2 & Hl). rewrite Hl in *.
  pose proof Hnd as Hnd'. apply NoDup_app in Hnd' as (Hn1 & Hn2 & Hn3).
  assert (Ht1 : t ∉ l1) by (intros Hx; apply (Hn2 t Hx); left).
  assert (Ht2 : t ∉ l2) by (apply NoDup_cons in Hn3; tauto).
  rewrite timer_after_app, filter_ne_app by done.
  destruct (deadlines_app (timers s) 0 l1 (t :: l2)) as (acc & HD & Hacc & Happ). rewrite HD in *.
  apply Forall_app in Hnn as [Hnn1 Hnn2]. specialize (Hacc Hnn1). apply Forall_cons in Hnn2 as [Hnt Hnn2].
  set (tm := default (Timer 0 0) (timers s !! t)) in *.
  set (ts' := if negb (expires tm =? 0) then _ else timers s).
  assert (Hts : ts' = (if negb (expires tm =? 0) then
     match head l2 with Some n => <[n := Timer (expires (default (Timer 0 0) (timers s !! n)) + expires tm)
        (proc (default (Timer 0 0) (timers s !! n)))]> (timers s) | None => timers s end else timers s)).
  { unfold ts'. destruct (negb (expires tm =? 0)); [|done]. destruct l2 as [|n l2]; [done|]. simpl.
    rewrite u32_small; [done|]. apply Forall_app in Hrg as [_ Hrg]. simpl in Hrg. fold tm in Hrg.
    apply Forall_cons in Hrg as [_ Hrg]. apply Forall_cons in Hrg as [Hrg _]. apply Forall_cons in Hnn2 as [? _]. simpl in *. lia. }
  rewrite (del_deadlines (timers s) acc t l2 ts' Hn3 Hts). fold tm.
  assert (Hfr : forall u, u ∈ l1 -> ts' !! u = timers s !! u).
  { intros u Hu. rewrite Hts. destruct (negb (expires tm =? 0)); [|done]. destruct l2 as [|n l2]; [done|]. simpl.
    rewrite lookup_insert_ne; [done|]. intros ->. apply (Hn2 u Hu). right. left. }
  assert (HD' : deadlines ts' 0 (l1 ++ l2) = deadlines (timers s) 0 l1 ++ deadlines ts' acc l2) by (by apply Happ).
  rewrite (del_deadlines (timers s) acc t l2 ts' Hn3 Hts) in Hrg. fold tm in Hrg.
  split_and!; [split; simpl|simpl|simpl; rewrite not_elem_of_app; done|done].
  - apply NoDup_app. apply NoDup_cons in Hn3 as [_ Hn3]. split_and!; try done. intros x Hx Hx2. apply (Hn2 x Hx). by right.
  - apply Forall_app. unfold timer. simpl. split.
    + apply Forall_forall. intros u Hu. rewrite Hfr by done. by eapply Forall_forall in Hnn1.
    + rewrite Hts. destruct (negb (expires tm =? 0)); [|done]. destruct l2 as [|n l2]; [done|]. simpl.
      apply Forall_cons in Hnn2 as [Hnh Hnn2]. constructor; [rewrite lookup_insert_eq; simpl; lia|].
      apply Forall_forall. intros u Hu. rewrite lookup_insert_ne; [by eapply Forall_forall in Hnn2|].
      intros ->. apply NoDup_cons in Hn3 as [_ Hn3]. apply NoDup_cons in Hn3 as [Hn3 _]. done.
  - unfold due. simpl. rewrite HD'. apply Forall_app in Hrg as [Hr1 Hr2]. apply Forall_app. split; [done|].
    by apply Forall_cons in Hr2 as [_ Hr2].
  - rewrite HD', filter_deadlines; [done|by rewrite deadlines_fst..].
Qed.

(** a timer set for [n] ticks gets the deadline [n], behind the timers due
    no later and before the later ones, without moving any other deadline;
    deleting it again restores every deadline. *)
Theorem add_timer_correct (s : sched) (t : Z) :
  timers_ok s -> t ∉ timer_list s -> 0 < expires (timer s t) < 2 ^ 32 -> proc (timer s t) <> 0 ->
  exists s', add_timer t s = Ok s' /\ timers_ok s' /\
    (exists D1 D2, due s = D1 ++ D2 /\ due s' = D1 ++ (t, expires (timer s t)) :: D2 /\
       Forall (fun x => x.2 <= expires (timer s t)) D1 /\ Forall (fun x => expires (timer s t) < x.2) D2) /\
    due (del_timer t s') = due s.
Proof.
  intros Hok Ht He Hp. destruct (add_timer_spec s t Hok Ht He Hp) as (s' & Heq & Hok' & D1 & D2 & HD & HD' & H1 & H2).
  exists s'. split_and!; [done|done|by exists D1, D2|].
  assert (Hl : (due s').*1 = timer_list s') by apply deadlines_fst.
  assert (Hin : t ∈ timer_list s') by (rewrite <- Hl, HD', fmap_app; set_solver).
  destruct (del_timer_spec s' t Hok' Hin) as (_ & -> & _). rewrite HD', HD.
  assert (Hn : t ∉ (D1 ++ D2).*1) by (rewrite <- HD; unfold due; by rewrite deadlines_fst).
  rewrite fmap_app in Hn. apply not_elem_of_app in Hn as [? ?]. by apply filter_deadlines.
Qed.

(** deleting an armed timer removes its deadline and no other, leaves the
    processes alone and keeps the list well formed. *)
Theorem del_timer_correct (s : sched) (t : Z) :
  timers_ok s -> t ∈ timer_list s ->
  timers_ok (del_timer t s) /\ due (del_timer t s) = filter (fun x => x.1 <> t) (due s) /\
  t ∉ timer_list (del_timer t s) /\ procs (del_timer t s) = procs s.
Proof. apply del_timer_spec. Qed.

(** ** Waking, with a lawful class *)
Section Laws.
Context (Q : RQ * ptable -> list Z -> Prop) `{!SchedLaws class Q}.

(** The run queue holds [l]: runnable processes, without the running one and
    the idle process. *)
Record sched_ok (s : sched) (l : list Z) : Prop := {
  ok_queue : Q (rq s, procs s) l;
  ok_distinct : NoDup l;
  ok_current : current s ∉ l;
  ok_idle : idleproc s ∉ l;
  ok_runnable : Forall (fun p => state (the_proc s p) = PROC_RUNNABLE) l
}.

Lemma joinable_key (t t' : ptable) p l :
  (forall q, key (pget t' q) = key (pget t q)) -> joinable t p l -> joinable t' p l.
Proof.
  intros Hk [Hp Hs]. assert (Hf : forall q, pid (pget t' q) = pid (pget t q) /\ stride_prior (pget t' q) = stride_prior (pget t q)).
  { intros q. specialize (Hk q). by injection Hk. }
  split; [|by destruct (Hf p) as [_ ->]]. destruct (Hf p) as [-> _]. eapply Forall_impl; [exact Hp|].
  intros q Hq. by destruct (Hf q) as [-> _].
Qed.

Lemma joinable_pupd (t : ptable) p q l f : (forall x, key (f x) = key x) -> joinable t p l -> joinable (pupd q f t) p l.
Proof. intros Hf. apply joinable_key. intros x. rewrite pget_pupd. case_decide; [subst; apply Hf|done]. Qed.

Lemma queue_pupd (r : RQ) (t : ptable) l p f :
  Q (r, t) l -> (forall x, key (f x) = key x) -> Q (r, pupd p f t) l.
Proof.
  intros HQ Hf. apply (queue_frame (class := class) r t); [done|]. intros q. rewrite pget_pupd.
  case_decide; [|done]. subst. apply Hf.
Qed.

(** The state of every process after [wakeup_proc]. *)
Lemma wakeup_core p s :
  state (the_proc s p) <> PROC_ZOMBIE ->
  exists s', wakeup_proc p s = Ok s' /\ timers s' = timers s /\ timer_list s' = timer_list s /\
    current s' = current s /\ idleproc s' = idleproc s /\ state (the_proc s' p) = PROC_RUNNABLE /\
    (wait_state (the_proc s' p) = 0 \/ wait_state (the_proc s' p) = wait_state (the_proc s p)) /\
    forall q, q <> p -> core (the_proc s' q) = core (the_proc s q).
Proof.
  intros Hz. unfold wakeup_proc. rewrite (bool_decide_eq_false_2 (_ = PROC_ZOMBIE)), kassert_true, res_bind_ok by done.
  destruct (bool_decide_reflect (state (the_proc s p) = PROC_RUNNABLE)) as [Hr|Hr]; cbn [negb].
  { exists s. split_and!; try done. by right. }
  eexists. split; [done|]. set (t := pupd p _ (procs s)).
  assert (Hp : core (pget t p) = (PROC_RUNNABLE, pid (the_proc s p), 0)) by (unfold t; by rewrite pget_pupd_eq).
  assert (Hq : forall q, q <> p -> core (pget t q) = core (the_proc s q)) by (intros; unfold t; by rewrite pget_pupd_ne).
  assert (Hall : forall t', (forall q, core (pget t' q) = core (pget t q)) ->
    state (pget t' p) = PROC_RUNNABLE /\ wait_state (pget t' p) = 0 /\
    forall q, q <> p -> core (pget t' q) = core (the_proc s q)).
  { intros t' Ht. pose proof (Ht p) as H. rewrite Hp in H. injection H as H1 _ H2.
    split_and!; [done..|]. intros q Hn. by rewrite Ht, Hq. }
  unfold sched_class_enqueue. simpl. destruct (p =? current s), (p =? idleproc s); simpl;
    (split_and!; try done); unfold the_proc in *; simpl;
    first [apply Hall; intros; apply enqueue_core | left; apply Hall; intros; apply enqueue_core
          | apply Hall; done | left; apply Hall; done].
Qed.

Lemma wakeup_links p s s' :
  wakeup_proc p s = Ok s' -> forall q, links (the_proc s' q) = links (the_proc s q).
Proof.
  unfold wakeup_proc. intros (_ & _ & H)%res_bind_inv q. revert H.
  set (t := pupd p _ (procs s)).
  assert (Ht : links (pget t q) = links (the_proc s q)) by (unfold t; rewrite pget_pupd; case_decide; subst; done).
  destruct (negb (bool_decide _)); intros [= <-]; [|done]. unfold sched_class_enqueue. simpl.
  destruct (p =? current s), (p =? idleproc s); simpl; try exact Ht.
  unfold the_proc. simpl. rewrite enqueue_links. exact Ht.
Qed.

Lemma wakeup_pid p s s' :
  wakeup_proc p s = Ok s' -> forall q, pid (the_proc s' q) = pid (the_proc s q).
Proof.
  unfold wakeup_proc. intros (_ & _ & H)%res_bind_inv q. revert H.
  set (t := pupd p _ (procs s)).
  assert (Ht : pid (pget t q) = pid (the_proc s q)) by (unfold t; rewrite pget_pupd; case_decide; subst; done).
  destruct (negb (bool_decide _)); intros [= <-]; [|done]. unfold sched_class_enqueue. simpl.
  destruct (p =? current s), (p =? idleproc s); simpl; try exact Ht.
  unfold the_proc. simpl. pose proof (enqueue_core (class := class) (Q := Q) p (rq s, t) q) as Hc. injection Hc as _ -> _. exact Ht.
Qed.

(** waking a process that is not a zombie never panics and makes it
    runnable; it joins the run queue unless it was already runnable (so never
    twice), is the one running, or is the idle process. *)
Theorem wakeup_proc_correct (p : Z) (s : sched) (l : list Z) :
  sched_ok s l -> state (the_proc s p) <> PROC_ZOMBIE ->
  (state (the_proc s p) <> PROC_RUNNABLE -> p ∉ l /\ joinable (procs s) p l) ->
  exists s' l', wakeup_proc p s = Ok s' /\ sched_ok s' l' /\ state (the_proc s' p) = PROC_RUNNABLE /\
    (if bool_decide (state (the_proc s p) = PROC_RUNNABLE \/ p = current s \/ p = idleproc s)
     then l' = l else l' ≡ₚ p :: l).
Proof.
  intros [HQ Hnd Hc Hi Hrun] Hz Hnew.
  destruct (wakeup_core p s Hz) as (s' & Heq & Ht & Htl & Hcur & Hidle & Hst & _ & Hoth).
  assert (Hkeep : forall q, state (the_proc s q) = PROC_RUNNABLE -> state (the_proc s' q) = PROC_RUNNABLE).
  { intros q Hq. destruct (decide (q = p)) as [->|Hn]; [done|]. specialize (Hoth q Hn). injection Hoth as -> _ _. done. }
  assert (Hrun' : Forall (fun q => state (the_proc s' q) = PROC_RUNNABLE) l) by (eapply Forall_impl; [exact Hrun|]; auto).
  assert (Hex : exists l', Q (rq s', procs s') l' /\
    (if bool_decide (state (the_proc s p) = PROC_RUNNABLE \/ p = current s \/ p = idleproc s)
     then l' = l else l' ≡ₚ p :: l)).
  { unfold wakeup_proc in Heq. rewrite (bool_decide_eq_false_2 (_ = PROC_ZOMBIE)) in Heq by done.
    rewrite kassert_true, res_bind_ok in Heq by done.
    destruct (bool_decide_reflect (state (the_proc s p) = PROC_RUNNABLE)) as [Hr|Hr]; cbn [negb] in Heq.
    { injection Heq as <-. exists l. split; [done|]. by rewrite bool_decide_eq_true_2 by tauto. }
    set (t := pupd p _ (procs s)) in Heq. assert (HQt : Q (rq s, t) l) by (by apply queue_pupd).
    injection Heq as <-. unfold sched_class_enqueue. simpl.
    destruct (Z.eqb_spec p (current s)); simpl; [exists l; split; [done|]; by rewrite bool_decide_eq_true_2 by tauto|].
    destruct (Z.eqb_spec p (idleproc s)); simpl; [exists l; split; [done|]; by rewrite bool_decide_eq_true_2 by tauto|].
    rewrite bool_decide_eq_false_2 by tauto.
    destruct (Hnew Hr) as [Hpn Hj].
    destruct (enqueue_spec p (rq s, t) l HQt Hpn) as (l' & HQ' & Hp); [by apply joinable_pupd|]. exists l'. split; [|done].
    by destruct (sc_enqueue class p (rq s, t)). }
  destruct Hex as (l' & HQ' & Hl'). exists s', l'. split_and!; try done.
  destruct (bool_decide_reflect (state (the_proc s p) = PROC_RUNNABLE \/ p = current s \/ p = idleproc s)) as [Hb|Hb].
  { subst l'. split; try done; by rewrite ?Hcur, ?Hidle. }
  split; [done|rewrite Hl'..].
  - apply NoDup_cons. split; [apply Hnew; tauto|done].
  - rewrite Hcur, elem_of_cons. intros [?|?]; [|done]. apply Hb. auto.
  - rewrite Hidle, elem_of_cons. intros [?|?]; [|done]. apply Hb. auto.
  - by constructor.
Qed.

Lemma switch_to next (s : sched) :
  (if negb (next =? current s) then proc_run next s else s) = set_current next s.
Proof.
  unfold proc_run. destruct (Z.eqb_spec next (current s)) as [->|]; simpl; [|done]. by destruct s.
Qed.

(** The first half of [schedule]: the current process is queued again. *)
Lemma requeue_spec s l :
  sched_ok s l -> joinable (procs s) (current s) l ->
  let t := pupd (current s) (set_need_resched false) (procs s) in
  let s1 := set_procs t s in
  let s2 := if bool_decide (state (the_proc s1 (current s)) = PROC_RUNNABLE) then sched_class_enqueue (current s) s1 else s1 in
  exists l2, Q (rq s2, procs s2) l2 /\
    l2 ≡ₚ (if bool_decide (state (the_proc s (current s)) = PROC_RUNNABLE /\ current s <> idleproc s)
          then current s :: l else l) /\
    (forall q, core (the_proc s2 q) = core (the_proc s q)) /\
    s2 = Sched (rq s2) (procs s2) (idleproc s) (current s) (timers s) (timer_list s).
Proof.
  intros [HQ Hnd Hc Hi Hrun] Hj t s1 s2. assert (HQt : Q (rq s, t) l) by (by apply queue_pupd).
  assert (Hcore : forall q, core (pget t q) = core (the_proc s q)).
  { intros q. unfold t. rewrite pget_pupd. case_decide; subst; done. }
  assert (Hst : state (the_proc s1 (current s)) = state (the_proc s (current s))).
  { specialize (Hcore (current s)). by injection Hcore. }
  unfold s2. rewrite Hst. unfold sched_class_enqueue. simpl.
  destruct (bool_decide_reflect (state (the_proc s (current s)) = PROC_RUNNABLE)) as [Hr|Hr].
  - destruct (Z.eqb_spec (current s) (idleproc s)) as [He|He]; simpl.
    + exists l. rewrite bool_decide_eq_false_2 by tauto. done.
    + rewrite bool_decide_eq_true_2 by tauto.
      destruct (enqueue_spec (current s) (rq s, t) l HQt Hc) as (l2 & HQ2 & Hp); [by apply joinable_pupd|].
      exists l2. split_and!; [by destruct (sc_enqueue class (current s) (rq s, t))|done| |done].
      intros q. rewrite <- Hcore. apply enqueue_core.
  - exists l. rewrite bool_decide_eq_false_2 by tauto. done.
Qed.

(** C33: [schedule] loses no process and runs none twice: the current process
    goes back to the queue if it is still runnable, exactly one process of
    the queue (or the idle process when the queue is empty) becomes current
    and leaves it, and the queue invariant holds again. *)
Theorem schedule_correct (s : sched) (l : list Z) :
  sched_ok s l -> joinable (procs s) (current s) l ->
  let l0 := if bool_decide (state (the_proc s (current s)) = PROC_RUNNABLE /\ current s <> idleproc s)
            then current s :: l else l in
  exists l', sched_ok (schedule s) l' /\
    ((l0 = [] /\ current (schedule s) = idleproc s /\ l' = []) \/
     (current (schedule s) :: l' ≡ₚ l0 /\ state (the_proc (schedule s) (current (schedule s))) = PROC_RUNNABLE)).
Proof.
  intros Hok Hj l0. pose proof Hok as [HQ Hnd Hc Hi Hrun].
  assert (Hl0 : NoDup l0 /\ idleproc s ∉ l0 /\ Forall (fun p => state (the_proc s p) = PROC_RUNNABLE) l0).
  { unfold l0. case_bool_decide as Hb; [|by split_and!]. split_and!; [by apply NoDup_cons| |by constructor; [tauto|]].
    rewrite elem_of_cons. intros [?|?]; [|done]. destruct Hb. congruence. }
  destruct (requeue_spec s l Hok Hj) as (l2 & HQ2 & Hl2 & Hcore2 & Hs2). fold l0 in Hl2.
  destruct Hl0 as (Hnd0 & Hi0 & Hrun0). clearbody l0. unfold schedule. cbv zeta. set (s2 := if bool_decide _ then _ else _) in *.
  clearbody s2. rewrite Hs2 in HQ2, Hcore2 |- *. clear Hs2. unfold sched_class_pick_next. cbn [rq procs current idleproc timers timer_list] in *.
  set (x2 := (rq s2, procs s2)) in *. pose proof (pick_spec x2 l2 HQ2) as Hpick.
  pose proof (pick_core (class := class) x2) as Hpc. destruct (sc_pick_next class x2) as [[p|] x3]; cbn [snd] in Hpc.
  - destruct Hpick as (l' & HQ' & Hp'). unfold sched_class_dequeue, set_q, set_procs.
    cbn [rq procs current idleproc timers timer_list]. destruct x3 as [r3 t3]. cbn [fst snd] in *.
    pose proof (dequeue_core (class := class) p (r3, t3)) as Hdc. destruct (sc_dequeue class p (r3, t3)) as [r4 t4]. cbn [fst snd] in *.
    match goal with |- context [proc_run p ?x] => set (s5 := x) end.
    change (current s) with (current s5). rewrite switch_to.
    assert (Hst : forall q, state (the_proc s q) = PROC_RUNNABLE -> state (the_proc (set_current p s5) q) = PROC_RUNNABLE).
    { intros q Hq. assert (Hcq : core (pget t4 q) = core (the_proc s q)) by (rewrite Hdc, Hpc; apply Hcore2).
      unfold the_proc, s5. simpl. rewrite pget_pupd. case_decide; [subst; cbn|]; injection Hcq as Hcq _ _; by rewrite <- Hq, <- Hcq. }
    rewrite Hl2 in Hp'. rewrite <- Hp' in Hnd0, Hi0, Hrun0. apply NoDup_cons in Hnd0 as [Hpn Hnd'].
    apply Forall_cons in Hrun0 as [Hrp Hrun']. apply not_elem_of_cons in Hi0 as [_ Hi'].
    exists l'. split; [|right; split; [done|by apply Hst]]. split; try done.
    + unfold s5. cbn [rq procs set_current]. by apply queue_pupd.
    + eapply Forall_impl; [exact Hrun'|]. intros q Hq. by apply Hst.
  - destruct Hpick as [Hl Hx3]. rewrite Hl in Hl2. symmetry in Hl2. apply Permutation_nil_r in Hl2.
    destruct x3 as [r3 t3]. unfold set_q, set_procs. cbn [rq procs current idleproc timers timer_list fst snd].
    match goal with |- context [proc_run (idleproc s) ?x] => set (s5 := x) end.
    change (current s) with (current s5). rewrite switch_to.
    exists []. split; [|left; done]. split; try done; try constructor; try apply not_elem_of_nil.
    unfold s5. cbn [rq procs set_current]. by apply queue_pupd.
Qed.
(** ** One tick *)
Lemma filter_tick (D : list (Z * Z)) :
  Forall (fun x => 0 < x.2 < 2 ^ 32) D ->
  filter (fun x => 0 < x.2) ((fun x => (x.1, x.2 - 1)) <$> D) =
    (fun x : Z * Z => (x.1, x.2 - 1)) <$> filter (fun x : Z * Z => x.2 <> 1) D.
Proof.
  induction 1 as [|x D Hx HD IH]; [done|]. csimpl. destruct (decide (x.2 = 1)) as [He|He].
  - rewrite filter_cons_False by (simpl; lia). rewrite filter_cons_False by tauto. done.
  - rewrite filter_cons_True by (simpl; lia). rewrite filter_cons_True by done. csimpl. by rewrite IH.
Qed.

Lemma list_filter_all (D : list (Z * Z)) :
  Forall (fun x => 0 < x.2) D -> filter (fun x : Z * Z => 0 < x.2) D = D.
Proof. induction 1 as [|x D Hx HD IH]; [done|]. rewrite filter_cons_True by done. by rewrite IH. Qed.

(** The sleepers the timers point to can be woken. *)
Definition sleepers_ok (s : sched) (l : list Z) : Prop :=
  Forall (fun t => let p := the_proc s (proc (timer s t)) in
            state p <> PROC_ZOMBIE /\ (wait_state p = 0 \/ Z.land (wait_state p) WT_INTERRUPTED <> 0)) l.

Lemma sleepers_step p s s' l :
  timers s' = timers s -> sleepers_ok s l ->
  state (the_proc s' p) = PROC_RUNNABLE ->
  (wait_state (the_proc s' p) = 0 \/ wait_state (the_proc s' p) = wait_state (the_proc s p)) ->
  (forall q, q <> p -> core (the_proc s' q) = core (the_proc s q)) -> sleepers_ok s' l.
Proof.
  intros Ht Hs Hst Hw Ho. eapply Forall_impl; [exact Hs|]. intros t [H1 H2]. cbv zeta. unfold timer in *.
  rewrite Ht. destruct (decide (proc (default (Timer 0 0) (timers s !! t)) = p)) as [He|He].
  - rewrite He in *. rewrite Hst. split; [done|]. destruct Hw as [->| ->]; [by left|done].
  - specialize (Ho _ He). injection Ho as -> _ ->. done.
Qed.

Lemma expire_spec l : forall s,
  timer_list s = l -> NoDup l -> Forall (fun t => 0 <= expires (timer s t)) l -> sleepers_ok s l ->
  exists s', expire l s = Ok s' /\ due s' = filter (fun x => 0 < x.2) (due s) /\
    timers s' = timers s /\ current s' = current s /\ (exists l1, timer_list s = l1 ++ timer_list s') /\
    (forall t, (t, 0) ∈ due s -> state (the_proc s' (proc (timer s t))) = PROC_RUNNABLE) /\
    (forall q, state (the_proc s q) = PROC_RUNNABLE -> state (the_proc s' q) = PROC_RUNNABLE).
Proof.
  induction l as [|t l IH]; intros s Hl Hnd Hnn Hsl; cbn [expire].
  { exists s. unfold due. rewrite Hl. split_and!; try done; [by exists []|]. intros t Ht. by apply elem_of_nil in Ht. }
  apply Forall_cons in Hnn as [Hnt Hnn]. destruct (Z.eqb_spec (expires (timer s t)) 0) as [Hz|Hz].
  2: { assert (Hpos : Forall (fun x => 0 < x.2) (due s)).
       { unfold due. rewrite Hl. simpl. unfold timer in *. constructor; [simpl; lia|].
         eapply Forall_impl; [by apply deadlines_ge|]. simpl. lia. }
       exists s. split_and!; try done; [symmetry; by apply list_filter_all| by exists []|].
       intros u Hu. eapply Forall_forall in Hpos; [|exact Hu]. simpl in Hpos. lia. }
  apply Forall_cons in Hsl as [[Hzo Hws] Hsl]. rewrite kassert_true by lia. rewrite res_bind_ok.
  destruct (wakeup_core _ s Hzo) as (s1 & Heq & Ht & Htl & Hcur & _ & Hst & Hw & Ho).
  rewrite Heq, res_bind_ok. apply NoDup_cons in Hnd as [Htn Hnd].
  assert (Hdel : del_timer t s1 = set_timers (timers s) l s1).
  { unfold del_timer, timer in *. rewrite Htl, Hl, Ht. rewrite bool_decide_eq_true_2 by apply list_elem_of_here. rewrite Hz.
    change (negb (0 =? 0)) with false. cbv iota. f_equal. by apply filter_ne_cons. }
  rewrite Hdel. destruct (IH (set_timers (timers s) l s1)) as (s' & Heq' & Hdue & Hts & Hcur' & [l1 Hl1] & Hwoken & Hkeep); try done.
  { apply (sleepers_step (proc (timer s t)) s); done. }
  simpl in Hl1. assert (Hd : due s = (t, 0) :: due (set_timers (timers s) l s1)).
  { unfold due. rewrite Hl. simpl. unfold timer in Hz. by rewrite Hz. }
  exists s'. split_and!; try done.
  - rewrite Hd, filter_cons_False by (simpl; lia). done.
  - by rewrite Hcur'.
  - exists (t :: l1). rewrite Hl, Hl1. done.
  - rewrite Hd. intros u [[= ->]|Hu]%elem_of_cons; [by apply Hkeep|].
    specialize (Hwoken u Hu). done.
  - intros q Hq. apply Hkeep. unfold the_proc. simpl. destruct (decide (q = proc (timer s t))) as [->|Hne]; [done|].
    specialize (Ho q Hne). injection Ho as Ho _ _. unfold the_proc in *. congruence.
Qed.

(** one clock tick lowers every timer's deadline by one: exactly the
    timers due at this tick leave the list, each of their processes is
    runnable afterwards, the other timers keep their order and their
    remaining time, and then the running process is charged the tick. *)
Theorem run_timer_list_correct (s : sched) :
  timers_ok s -> sleepers_ok s (timer_list s) ->
  exists s', run_timer_list s = sched_class_proc_tick (current s) s' /\ timers_ok s' /\
    due s' = (fun x => (x.1, x.2 - 1)) <$> filter (fun x => x.2 <> 1) (due s) /\
    (forall t, (t, 1) ∈ due s -> state (the_proc s' (proc (timer s t))) = PROC_RUNNABLE).
Proof.
  intros [Hnd Hnn Hrg] Hsl. unfold run_timer_list. destruct (timer_list s) as [|t l] eqn:Hl.
  { exists s. rewrite res_bind_ok. unfold due in *. rewrite Hl in *. split_and!; try done.
    - split; rewrite ?Hl; unfold due; rewrite ?Hl; constructor.
    - intros t Ht. by apply elem_of_nil in Ht. }
  unfold due in Hrg. rewrite Hl in Hrg. pose proof Hrg as Hrg'. apply Forall_cons in Hrg as [Hrt _]. simpl in Hrt.
  fold (timer s t) in Hrt. rewrite kassert_true, res_bind_ok by lia.
  set (ts := <[t := Timer (expires (timer s t) - 1) (proc (timer s t))]> (timers s)).
  apply NoDup_cons in Hnd as [Htn Hnd].
  assert (Hd : due (set_timers ts (t :: l) s) = (fun x => (x.1, x.2 - 1)) <$> due s).
  { assert (Hh : ts !! t = Some (Timer (expires (timer s t) - 1) (proc (timer s t)))) by apply lookup_insert_eq.
    unfold due. simpl. rewrite Hl. csimpl. rewrite Hh. simpl. fold (timer s t). f_equal. rewrite <- deadlines_shift.
    etransitivity; [apply (deadlines_ext (timers s))|f_equal; lia].
    intros u Hu. unfold ts. rewrite lookup_insert_ne; [done|]. intros ->. done. }
  assert (Hproc : forall u, proc (timer (set_timers ts (t :: l) s) u) = proc (timer s u)).
  { intros u. unfold timer at 1, ts. simpl. destruct (decide (u = t)) as [->|Hne];
      [by rewrite lookup_insert_eq|by rewrite lookup_insert_ne by congruence]. }
  assert (Hexp : Forall (fun u => 0 <= expires (timer (set_timers ts (t :: l) s) u)) (t :: l)).
  { apply Forall_cons in Hnn as [_ Hnn]. constructor; unfold timer, ts; simpl; [rewrite lookup_insert_eq; simpl; lia|].
    apply Forall_forall. intros u Hu. rewrite lookup_insert_ne by (intros ->; done). by eapply Forall_forall in Hnn. }
  destruct (expire_spec (t :: l) (set_timers ts (t :: l) s)) as (s' & Heq & Hdue & Hts & Hcur & [l1 Hl1] & Hwk & _); try done.
  { by apply NoDup_cons. }
  { eapply Forall_impl; [exact Hsl|]. intros u. cbv zeta. rewrite Hproc. done. }
  rewrite Heq, res_bind_ok, Hcur. simpl in Hl1, Hts. exists s'. split_and!; [done| | |].
  - assert (Hnd' : NoDup (l1 ++ timer_list s')) by (rewrite <- Hl1; by apply NoDup_cons).
    rewrite Hl1 in Hexp. apply Forall_app in Hexp as [_ Hexp]. apply NoDup_app in Hnd' as (_ & _ & Hnd').
    split; [done| |].
    + unfold timer in *. rewrite Hts. done.
    + rewrite Hdue, Hd. apply Forall_forall. intros x Hx. apply list_elem_of_filter in Hx as [Hx1 Hx2].
      apply list_elem_of_fmap in Hx2 as (y & -> & Hy). unfold due in Hy. rewrite Hl in Hy.
      eapply Forall_forall in Hrg'; [|exact Hy]. simpl in *. lia.
  - rewrite Hdue, Hd. apply filter_tick. unfold due. by rewrite Hl.
  - intros u Hu. rewrite <- Hproc. apply Hwk. rewrite Hd. apply list_elem_of_fmap. by exists (u, 1).
Qed.
End Laws.

End Sched.

(** ** A concrete machine

    A run queue that is a plain list satisfies the laws; the processes 1
    (running), 2 (queued) and 3 (asleep on timer 70) and the idle process 9. *)
Definition list_class : sched_class (list Z) :=
  SchedClass (list Z) (fun _ => []) (fun p x => (x.1 ++ [p], x.2))
    (fun p x => (filter (fun q => q <> p) x.1, x.2))
    (fun x => (head x.1, x)) (fun p x => Ok (x.1, pupd p (set_need_resched true) x.2)).

Definition list_queue (x : list Z * ptable) (l : list Z) : Prop := x.1 = l /\ NoDup l.

#[export] Instance list_class_laws : SchedLaws list_class list_queue.
Proof.
  split; try done.
  - intros p [r t] l [Hr Hnd] Hp. simpl in Hr. subst r. exists (l ++ [p]). split; [|symmetry; apply Permutation_cons_append].
    split; [done|]. rewrite <- Permutation_cons_append. by apply NoDup_cons.
  - intros [r t] l [Hr Hnd]. simpl in Hr. subst r. simpl. destruct l as [|p l]; [done|]. simpl. apply NoDup_cons in Hnd as [Hp Hnd].
    exists l. split; [|done]. split; [|done]. simpl. by apply filter_ne_cons.
Defined.

Definition demo_proc (n : Z) (st : proc_state) (w : Z) : proc_struct :=
  set_wait_state w (set_state st (set_pid n blank_proc)).

Definition demo : sched (RQ := list Z) :=
  Sched [2] (<[1 := demo_proc 1 PROC_RUNNABLE 0]> (<[2 := demo_proc 2 PROC_RUNNABLE 0]>
    (<[3 := demo_proc 3 PROC_SLEEPING WT_TIMER]> (<[9 := demo_proc 0 PROC_RUNNABLE 0]> ∅)))) 9 1
    (<[70 := Timer 1 3]> (<[71 := Timer 4 2]> (<[72 := Timer 3 3]> ∅))) [70; 71].

Lemma demo_timers_ok : timers_ok demo.
Proof.
  split.
  - apply (bool_decide_unpack _). by vm_compute.
  - by repeat constructor.
  - by repeat constructor.
Defined.

Lemma demo_ok : sched_ok list_queue demo [2].
Proof.
  split; apply (bool_decide_unpack _); by vm_compute.
Defined.

Lemma add_timer_correct_witness :
  exists s', add_timer 72 demo = Ok s' /\ timers_ok s' /\
    (exists D1 D2, due demo = D1 ++ D2 /\ due s' = D1 ++ (72, 3) :: D2 /\
       Forall (fun x => x.2 <= 3) D1 /\ Forall (fun x => 3 < x.2) D2) /\
    due (del_timer 72 s') = due demo.
Proof.
  apply (add_timer_correct demo 72); [exact demo_timers_ok| |done|done].
  apply (bool_decide_unpack _). by vm_compute.
Defined.

Lemma del_timer_correct_witness :
  due demo = [(70, 1); (71, 5)] /\ due (del_timer 70 demo) = [(71, 5)] /\ timers_ok (del_timer 70 demo).
Proof.
  split; [reflexivity|]. split; [reflexivity|]. apply (del_timer_correct demo 70); [exact demo_timers_ok|].
  apply (bool_decide_unpack _). by vm_compute.
Defined.

Lemma wakeup_proc_correct_witness :
  exists s' l', wakeup_proc list_class 3 demo = Ok s' /\ sched_ok list_queue s' l' /\
    state (the_proc s' 3) = PROC_RUNNABLE /\ l' ≡ₚ [3; 2].
Proof.
  apply (wakeup_proc_correct list_class list_queue 3 demo [2] demo_ok); [done|].
  intros _. split; [apply (bool_decide_unpack _); by vm_compute|]. split; [by repeat constructor|done].
Defined.

Lemma schedule_correct_witness :
  exists l', sched_ok list_queue (schedule list_class demo) l' /\
    ((current demo :: [2] = [] /\ current (schedule list_class demo) = idleproc demo /\ l' = []) \/
     (current (schedule list_class demo) :: l' ≡ₚ [1; 2] /\
      state (the_proc (schedule list_class demo) (current (schedule list_class demo))) = PROC_RUNNABLE)).
Proof. apply (schedule_correct list_class list_queue demo [2] demo_ok). split; [by repeat constructor|done]. Defined.

Lemma run_timer_list_correct_witness :
  exists s', run_timer_list list_class demo = sched_class_proc_tick list_class (current demo) s' /\ timers_ok s' /\
    due s' = (fun x => (x.1, x.2 - 1)) <$> filter (fun x => x.2 <> 1) (due demo) /\
    (forall t, (t, 1) ∈ due demo -> state (the_proc s' (proc (timer demo t))) = PROC_RUNNABLE).
Proof.
  apply (run_timer_list_correct list_class list_queue demo demo_timers_ok).
  repeat constructor; (done || (right; by vm_compute) || (left; done)).
Defined.
