(* ===== verification/Sync.v ===== *)
(** * kern/sync/wait.c and sem.c: wait queues and semaphores

    The queues are the sequences linked at each queue head; a wait record is
    linked when it occurs in one of them.  [down] has two halves around the
    call of [schedule]: [down_enter] runs up to it, [down_leave] from it on,
    when the process runs again.  What other processes do in between are
    further events of the system. *)
From S2P Require Import Prelude ProcData Sched.

Record wait_t := Wait { wproc : Z; wakeup_flags : Z; wait_queue : Z }.

Section Sync.
Context {RQ : Type} (class : sched_class RQ).

Record sync := Sync {
  sch : sched (RQ := RQ);
  waits : gmap Z wait_t;
  queues : gmap Z (list Z);
  values : gmap Z Z
}.

Definition set_sch (x : sched) (s : sync) : sync := Sync x (waits s) (queues s) (values s).
Definition set_wait (w : Z) (x : wait_t) (s : sync) : sync := Sync (sch s) (<[w := x]> (waits s)) (queues s) (values s).
Definition set_queue (q : Z) (l : list Z) (s : sync) : sync := Sync (sch s) (waits s) (<[q := l]> (queues s)) (values s).
Definition set_value (sem v : Z) (s : sync) : sync := Sync (sch s) (waits s) (queues s) (<[sem := v]> (values s)).

Definition wait (s : sync) (w : Z) : wait_t := default (Wait 0 0 0) (waits s !! w).
Definition queue (s : sync) (q : Z) : list Z := default [] (queues s !! q).
Definition value (s : sync) (sem : Z) : Z := default 0 (values s !! sem).

(** [!list_empty(&(wait->wait_link))] *)
Definition wait_in_queue (s : sync) (w : Z) : bool := bool_decide (map_Exists (fun _ l => w ∈ l) (queues s)).

(** ** wait.c *)
Definition wait_init (w p : Z) (s : sync) : sync := set_wait w (Wait p WT_INTERRUPTED (wait_queue (wait s w))) s.

Definition wait_queue_init (q : Z) (s : sync) : sync := set_queue q [] s.

Definition wait_queue_add (q w : Z) (s : sync) : res sync :=
  _ ← kassert (negb (wait_in_queue s w) && negb (wproc (wait s w) =? 0));
  let s := set_wait w (Wait (wproc (wait s w)) (wakeup_flags (wait s w)) q) s in
  Ok (set_queue q (queue s q ++ [w]) s).

Definition wait_queue_del (q w : Z) (s : sync) : res sync :=
  _ ← kassert (wait_in_queue s w && (wait_queue (wait s w) =? q));
  Ok (set_queue q (filter (fun x => x <> w) (queue s q)) s).

Fixpoint after (l : list Z) (w : Z) : option Z :=
  match l with [] => None | x :: l => if x =? w then head l else after l w end.

Definition wait_queue_next (q w : Z) (s : sync) : res (option Z) :=
  _ ← kassert (wait_in_queue s w && (wait_queue (wait s w) =? q));
  Ok (after (queue s q) w).

Definition wait_queue_prev (q w : Z) (s : sync) : res (option Z) :=
  _ ← kassert (wait_in_queue s w && (wait_queue (wait s w) =? q));
  Ok (after (rev (queue s q)) w).

Definition wait_queue_first (q : Z) (s : sync) : option Z := head (queue s q).
Definition wait_queue_last (q : Z) (s : sync) : option Z := last (queue s q).
Definition wait_queue_empty (q : Z) (s : sync) : bool := bool_decide (queue s q = []).

Definition wakeup_wait (q w flags : Z) (del : bool) (s : sync) : res sync :=
  s ← (if del then wait_queue_del q w s else Ok s);
  let s := set_wait w (Wait (wproc (wait s w)) flags (wait_queue (wait s w))) s in
  x ← wakeup_proc class (wproc (wait s w)) (sch s);
  Ok (set_sch x s).

Definition wakeup_first (q flags : Z) (del : bool) (s : sync) : res sync :=
  match wait_queue_first q s with
  | Some w => wakeup_wait q w flags del s
  | None => Ok s
  end.

(** [do wakeup_wait(queue, wait, wakeup_flags, 1) while first != NULL] *)
Fixpoint wakeup_all_del (fuel : nat) (q w flags : Z) (s : sync) : res sync :=
  match fuel with
  | O => Spin
  | S fuel =>
      s ← wakeup_wait q w flags true s;
      match wait_queue_first q s with
      | Some w' => wakeup_all_del fuel q w' flags s
      | None => Ok s
      end
  end.

Fixpoint wakeup_all (fuel : nat) (q w flags : Z) (s : sync) : res sync :=
  match fuel with
  | O => Spin
  | S fuel =>
      s ← wakeup_wait q w flags false s;
      n ← wait_queue_next q w s;
      match n with
      | Some w' => wakeup_all fuel q w' flags s
      | None => Ok s
      end
  end.

Definition wakeup_queue (q flags : Z) (del : bool) (s : sync) : res sync :=
  match wait_queue_first q s with
  | None => Ok s
  | Some w =>
      if del then wakeup_all_del (length (queue s q)) q w flags s
      else wakeup_all (length (queue s q)) q w flags s
  end.

Definition wait_current_set (q w wstate : Z) (s : sync) : res sync :=
  let cur := current (sch s) in
  _ ← kassert (negb (cur =? 0));
  let s := wait_init w cur s in
  let x := set_procs (pupd cur (fun p => set_wait_state wstate (set_state PROC_SLEEPING p)) (procs (sch s))) (sch s) in
  wait_queue_add q w (set_sch x s).

Definition wait_current_del (q w : Z) (s : sync) : res sync :=
  if wait_in_queue s w then wait_queue_del q w s else Ok s.

(** ** sem.c: the wait queue follows the value in the structure *)
Definition sem_queue (sem : Z) : Z := sem + 4.

Definition sem_init (sem v : Z) (s : sync) : sync := wait_queue_init (sem_queue sem) (set_value sem v s).

Definition __up (sem wstate : Z) (s : sync) : res sync :=
  match wait_queue_first (sem_queue sem) s with
  | None => Ok (set_value sem (i32 (value s sem + 1)) s)
  | Some w =>
      _ ← kassert (wait_state (the_proc (sch s) (wproc (wait s w))) =? wstate);
      wakeup_wait (sem_queue sem) w wstate true s
  end.

(** [inl]: [__down] returned 0 at once; [inr]: it calls [schedule]. *)
Definition __down_enter (sem w wstate : Z) (s : sync) : res (sync + sync) :=
  if value s sem >? 0 then Ok (inl (set_value sem (value s sem - 1) s))
  else s ← wait_current_set (sem_queue sem) w wstate s; Ok (inr s).

Definition __down_leave (sem w wstate : Z) (s : sync) : res (Z * sync) :=
  s ← wait_current_del (sem_queue sem) w s;
  let flags := wakeup_flags (wait s w) in
  Ok (if negb (flags =? wstate) then flags else 0, s).

Definition up (sem : Z) (s : sync) : res sync := __up sem WT_KSEM s.
Definition down_enter (sem w : Z) (s : sync) : res (sync + sync) := __down_enter sem w WT_KSEM s.
Definition down_leave (sem w : Z) (s : sync) : res sync :=
  '(flags, s) ← __down_leave sem w WT_KSEM s;
  _ ← kassert (flags =? 0);
  Ok s.

Definition try_down (sem : Z) (s : sync) : bool * sync :=
  if value s sem >? 0 then (true, set_value sem (value s sem - 1) s) else (false, s).

(** ** Histories of one semaphore

    [Down p w]: process [p], running, calls [down] with its record [w] on its
    stack.  A history returns the records whose [down] could return, in order,
    as read from the state: a [down] that does not wait returns at once; one
    that waits returns when its process is runnable again and the second half
    of [down], run then, comes to its end. *)
Inductive sem_ev := Up | Down (p w : Z).

Definition returns (sem : Z) (s : sync) (w : Z) : bool :=
  bool_decide (state (the_proc (sch s) (wproc (wait s w))) = PROC_RUNNABLE) &&
  match down_leave sem w s with Ok _ => true | _ => false end.

Definition step (sem : Z) (ev : sem_ev) (s : sync) : res (list Z * sync) :=
  match ev with
  | Up =>
      let waiting := queue s (sem_queue sem) in
      s ← up sem s;
      Ok (List.filter (returns sem s) waiting, s)
  | Down p w =>
      r ← down_enter sem w (set_sch (set_current p (sch s)) s);
      match r with inl s => Ok ([w], s) | inr s => Ok ([], s) end
  end.

Fixpoint history (sem : Z) (evs : list sem_ev) (s : sync) : res (list Z * sync) :=
  match evs with
  | [] => Ok ([], s)
  | ev :: evs =>
      '(g, s) ← step sem ev s;
      '(g', s) ← history sem evs s;
      Ok (g ++ g', s)
  end.

Fixpoint downs (evs : list sem_ev) : list Z :=
  match evs with [] => [] | Up :: evs => downs evs | Down _ w :: evs => w :: downs evs end.
Fixpoint callers (evs : list sem_ev) : list Z :=
  match evs with [] => [] | Up :: evs => callers evs | Down p _ :: evs => p :: callers evs end.
Fixpoint ups (evs : list sem_ev) : Z :=
  match evs with [] => 0 | Up :: evs => 1 + ups evs | Down _ _ :: evs => ups evs end.

(** ** The semaphore as a counter with a queue of (record, process) pairs *)
Record sem_inv (s : sync) (sem v : Z) (ws : list (Z * Z)) : Prop := {
  si_value : value s sem = v;
  si_nonneg : 0 <= v;
  si_queue : queue s (sem_queue sem) = ws.*1;
  si_records : NoDup ws.*1;
  si_sleepers : NoDup ws.*2;
  si_waits : Forall (fun x => wproc (wait s x.1) = x.2 /\ wait_queue (wait s x.1) = sem_queue sem) ws;
  si_states : Forall (fun x => state (the_proc (sch s) x.2) = PROC_SLEEPING /\
                               wait_state (the_proc (sch s) x.2) = WT_KSEM) ws;
  si_zero : ws <> [] -> v = 0
}.

(** No other queue holds the record. *)
Definition not_elsewhere (s : sync) (sem w : Z) : Prop :=
  forall q l, q <> sem_queue sem -> queues s !! q = Some l -> w ∉ l.

(** The calls a history may contain: no process calls [down] while it waits,
    and no record is reused while it is queued. *)
Fixpoint feasible (v : Z) (ws : list (Z * Z)) (evs : list sem_ev) : Prop :=
  match evs with
  | [] => True
  | Up :: evs => match ws with [] => feasible (v + 1) [] evs | _ :: ws => feasible v ws evs end
  | Down p w :: evs =>
      p <> 0 /\ p ∉ ws.*2 /\ w ∉ ws.*1 /\
      (if v >? 0 then feasible (v - 1) ws evs else feasible v (ws ++ [(w, p)]) evs)
  end.

Lemma wait_in_queue_spec s w : wait_in_queue s w = true <-> exists q l, queues s !! q = Some l /\ w ∈ l.
Proof. unfold wait_in_queue. rewrite bool_decide_eq_true. done. Qed.

Lemma queue_in s q w : w ∈ queue s q -> wait_in_queue s w = true.
Proof.
  unfold queue. intros H. apply wait_in_queue_spec. destruct (queues s !! q) as [l|] eqn:E; [|by apply elem_of_nil in H].
  by exists q, l.
Qed.

Lemma not_queued s sem w : not_elsewhere s sem w -> w ∉ queue s (sem_queue sem) -> wait_in_queue s w = false.
Proof.
  intros Hn Hq. destruct (wait_in_queue s w) eqn:E; [|done]. apply wait_in_queue_spec in E as (q & l & Hl & Hw).
  destruct (decide (q = sem_queue sem)) as [->|Hne]; [|by destruct (Hn q l Hne Hl)].
  unfold queue in Hq. by rewrite Hl in Hq.
Qed.

Lemma queue_set s q l : queue (set_queue q l s) q = l.
Proof. unfold queue. simpl. by rewrite lookup_insert_eq. Qed.

Lemma wait_set s w x u : wait (set_wait w x s) u = if decide (u = w) then x else wait s u.
Proof. unfold wait. simpl. case_decide; [subst; by rewrite lookup_insert_eq|by rewrite lookup_insert_ne]. Qed.

Section Laws.
Context (Q : RQ * ptable -> list Z -> Prop) `{!SchedLaws class Q}.

(** [up] with a waiter hands the semaphore to the first one. *)
Lemma up_wakes s sem v w p ws :
  sem_inv s sem v ((w, p) :: ws) ->
  exists s', up sem s = Ok s' /\ sem_inv s' sem v ws /\
    state (the_proc (sch s') p) = PROC_RUNNABLE /\ wait s' w = Wait p WT_KSEM (sem_queue sem) /\
    (forall u, not_elsewhere s sem u -> not_elsewhere s' sem u).
Proof.
  intros [Hv Hnn Hq Hnd1 Hnd2 Hw Hst Hz]. unfold up, __up, wait_queue_first. rewrite Hq. csimpl in *.
  apply Forall_cons in Hw as [[Hwp Hwq] Hw], Hst as [[Hs1 Hs2] Hst]. csimpl in *.
  apply NoDup_cons in Hnd1 as [Hwn Hnd1], Hnd2 as [Hpn Hnd2].
  rewrite Hwp, Hs2, Z.eqb_refl, kassert_true, res_bind_ok by done. unfold wakeup_wait, wait_queue_del.
  rewrite (queue_in s (sem_queue sem) w) by (rewrite Hq; left). rewrite Hwq, Z.eqb_refl, kassert_true, res_bind_ok by done.
  rewrite res_bind_ok, Hq, filter_ne_cons by done.
  change (wait (set_queue (sem_queue sem) ws.*1 s) w) with (wait s w). rewrite wait_set, decide_True by done.
  cbn [wproc]. rewrite Hwp. destruct (wakeup_core class Q p (sch s)) as (x & Heq & _ & _ & _ & _ & Hx & _ & Ho); [by rewrite Hs1|].
  change (sch (set_wait w _ _)) with (sch s). rewrite Heq, res_bind_ok. eexists. split; [done|]. split_and!; try done.
  - split; try done.
    + unfold queue. simpl. by rewrite lookup_insert_eq.
    + eapply Forall_impl; [exact (proj2 (Forall_and _ ws) (conj Hw (proj2 (Forall_forall (fun y => y ∈ ws) ws) (fun y Hy => Hy))))|].
      intros [u r] [[H1 H2] Hin]. csimpl in *. assert (u <> w) by (intros ->; apply Hwn; by eapply elem_fst).
      unfold wait in *. simpl. rewrite lookup_insert_ne by done. done.
    + apply Forall_forall. intros [u r] Hin. pose proof (proj1 (Forall_forall _ _) Hst _ Hin) as [H1 H2]. csimpl in *.
      assert (Hr : r <> p) by (intros ->; apply Hpn; by eapply elem_snd).
      specialize (Ho r Hr). injection Ho as -> _ ->. done.
    + intros _. by apply Hz.
  - rewrite <- Hwq. unfold wait. simpl. by rewrite lookup_insert_eq.
  - intros u Hu q l Hne. simpl. rewrite lookup_insert_ne by done. by apply Hu.
Qed.

Lemma up_counts s sem v :
  sem_inv s sem v [] -> v < 2 ^ 31 - 1 ->
  exists s', up sem s = Ok s' /\ sem_inv s' sem (v + 1) [] /\
    (forall u, not_elsewhere s sem u -> not_elsewhere s' sem u).
Proof.
  intros [Hv Hnn Hq _ _ _ _ _] Hlt. unfold up, __up, wait_queue_first. rewrite Hq. csimpl.
  rewrite Hv, i32_small by lia. eexists. split; [done|]. split; [|done].
  split; try done; try constructor; [|lia]. unfold value. simpl. by rewrite lookup_insert_eq.
Qed.

Lemma down_takes s sem v ws w p :
  sem_inv s sem v ws -> 0 < v ->
  exists s', down_enter sem w (set_sch (set_current p (sch s)) s) = Ok (inl s') /\ sem_inv s' sem (v - 1) ws /\
    (forall u, not_elsewhere s sem u -> not_elsewhere s' sem u).
Proof.
  intros [Hv Hnn Hq H1 H2 H3 H4 H5] Hpos. unfold down_enter, __down_enter.
  change (value (set_sch _ s) sem) with (value s sem). rewrite Hv, Z.gtb_ltb, (proj2 (Z.ltb_lt 0 v)) by lia.
  eexists. split; [done|]. split; [|done]. split; try done; [|lia|].
  - unfold value. simpl. by rewrite lookup_insert_eq.
  - intros Hne. specialize (H5 Hne). lia.
Qed.

Lemma down_blocks s sem ws w p :
  sem_inv s sem 0 ws -> p <> 0 -> p ∉ ws.*2 -> w ∉ ws.*1 -> not_elsewhere s sem w ->
  exists s', down_enter sem w (set_sch (set_current p (sch s)) s) = Ok (inr s') /\ sem_inv s' sem 0 (ws ++ [(w, p)]) /\
    (forall u, not_elsewhere s sem u -> not_elsewhere s' sem u).
Proof.
  intros [Hv Hnn Hq Hnd1 Hnd2 Hw Hst Hz] Hp Hps Hws Hne. unfold down_enter, __down_enter.
  change (value (set_sch _ s) sem) with (value s sem). rewrite Hv. change (0 >? 0) with false. cbv iota.
  unfold wait_current_set. cbn [sch set_sch current set_current].
  rewrite (proj2 (Z.eqb_neq p 0)), kassert_true, res_bind_ok by done. unfold wait_queue_add, wait_init.
  match goal with |- context [wait_in_queue ?x w] => assert (Hn : wait_in_queue x w = false) end.
  { apply (not_queued _ sem); [exact Hne|]. change (w ∉ queue s (sem_queue sem)). by rewrite Hq. }
  rewrite Hn. match goal with |- context [wait ?x w] => assert (Hw1 : wait x w = Wait p WT_INTERRUPTED (wait_queue (wait s w))) end.
  { unfold wait. simpl. by rewrite lookup_insert_eq. }
  rewrite Hw1. cbn [wproc wakeup_flags]. rewrite (proj2 (Z.eqb_neq p 0)), kassert_true, !res_bind_ok by done.
  eexists. split; [done|]. split; [|intros u Hu q l Hq'; simpl; rewrite lookup_insert_ne by done; by apply Hu].
  split; try done.
  - rewrite fmap_app, queue_set. unfold queue in *. simpl. by rewrite Hq.
  - rewrite fmap_app. apply NoDup_app. split_and!; [done| |apply NoDup_singleton]. csimpl. set_solver.
  - rewrite fmap_app. apply NoDup_app. split_and!; [done| |apply NoDup_singleton]. csimpl. set_solver.
  - apply Forall_app. split; [|constructor; [|constructor]].
    + apply Forall_forall. intros [u r] Hin. pose proof (proj1 (Forall_forall _ _) Hw _ Hin) as [H1 H2]. csimpl in *.
      assert (u <> w) by (intros ->; apply Hws; by eapply elem_fst). unfold wait in *. simpl.
      rewrite !lookup_insert_ne by done. done.
    + unfold wait. simpl. by rewrite lookup_insert_eq.
  - apply Forall_app. split; [|constructor; [|constructor]].
    + apply Forall_forall. intros [u r] Hin. pose proof (proj1 (Forall_forall _ _) Hst _ Hin) as [H1 H2]. csimpl in *.
      assert (r <> p) by (intros ->; apply Hps; by eapply elem_snd). unfold the_proc. simpl. by rewrite pget_pupd_ne.
    + csimpl. unfold the_proc. simpl. by rewrite pget_pupd_eq.
Qed.

(** The second half of [down] after [up] handed the semaphore over. *)
Lemma down_leaves s sem w p ws s' :
  sem_inv s sem 0 ((w, p) :: ws) -> sem_inv s' sem 0 ws -> wait s' w = Wait p WT_KSEM (sem_queue sem) -> not_elsewhere s' sem w ->
  down_leave sem w s' = Ok s'.
Proof.
  intros Hi Hi' Hw Hn. unfold down_leave, __down_leave, wait_current_del. rewrite (not_queued s' sem w Hn).
  - rewrite res_bind_ok, Hw. done.
  - rewrite (si_queue _ _ _ _ Hi'). pose proof (si_records _ _ _ _ Hi) as Hr. csimpl in Hr. by apply NoDup_cons in Hr as [? _].
Qed.

(** A process that waits cannot go on. *)
Lemma waiting_stays s sem v ws : sem_inv s sem v ws -> List.filter (returns sem s) ws.*1 = [].
Proof.
  intros Hi. assert (H : Forall (fun x => returns sem s x.1 = false) ws).
  { apply Forall_forall. intros [w p] Hin. pose proof (proj1 (Forall_forall _ _) (si_waits _ _ _ _ Hi) _ Hin) as [Hp _].
    pose proof (proj1 (Forall_forall _ _) (si_states _ _ _ _ Hi) _ Hin) as [Hs _]. csimpl in *.
    unfold returns. by rewrite Hp, Hs. }
  clear Hi. induction H as [|x ws Hx _ IH]; [done|]. csimpl. by rewrite Hx.
Qed.

Lemma up_lets_go s sem w p ws :
  sem_inv s sem 0 ((w, p) :: ws) -> not_elsewhere s sem w ->
  exists s', step sem Up s = Ok ([w], s') /\ sem_inv s' sem 0 ws /\ (forall u, not_elsewhere s sem u -> not_elsewhere s' sem u).
Proof.
  intros Hi Hn. destruct (up_wakes s sem 0 w p ws Hi) as (s' & Heq & Hi' & Hst & Hw & Hel). exists s'. split_and!; [|done|done].
  cbn [step]. rewrite Heq, res_bind_ok, (si_queue _ _ _ _ Hi). csimpl. rewrite (waiting_stays s' sem 0 ws Hi').
  unfold returns. rewrite Hw. cbn [wproc]. rewrite Hst, (down_leaves s sem w p ws s' Hi Hi' Hw) by (by apply Hel). done.
Qed.

Lemma history_spec sem evs : forall s v ws,
  sem_inv s sem v ws -> feasible v ws evs -> v + ups evs < 2 ^ 31 ->
  Forall (not_elsewhere s sem) (ws.*1 ++ downs evs) ->
  let asked := ws.*1 ++ downs evs in
  let k := Z.to_nat (v + ups evs) in
  exists s' v' ws', history sem evs s = Ok (take k asked, s') /\ sem_inv s' sem v' ws' /\
    ws'.*1 = drop k asked /\ v' = Z.max 0 (v + ups evs - Z.of_nat (length asked)).
Proof.
  induction evs as [|ev evs IH]; intros s v ws Hinv Hfe Hub Hne; cbn zeta.
  { pose proof (si_nonneg _ _ _ _ Hinv) as Hnn. pose proof (si_zero _ _ _ _ Hinv) as Hz. cbn [history ups downs] in *.
    rewrite app_nil_r. replace (v + 0) with v by lia. exists s, v, ws. destruct ws as [|x ws].
    - csimpl. rewrite take_nil, drop_nil. split_and!; try done. lia.
    - assert (v = 0) as -> by (by apply Hz). csimpl. split_and!; done. }
  assert (Hups : forall l, 0 <= ups l) by (induction l as [|[|]]; simpl; lia).
  pose proof (si_nonneg _ _ _ _ Hinv) as Hnn. pose proof (Hups evs) as Hue.
  destruct ev as [|p w]; cbn [history downs ups feasible] in *.
  - destruct ws as [|[w p] ws].
    + cbn [step]. rewrite (si_queue _ _ _ _ Hinv).
      destruct (up_counts s sem v Hinv ltac:(lia)) as (s1 & -> & Hinv1 & Hel). rewrite !res_bind_ok. csimpl.
      destruct (IH s1 (v + 1) [] Hinv1 Hfe ltac:(lia)) as (s' & v' & ws' & -> & Hr); [by eapply Forall_impl|].
      rewrite res_bind_ok. csimpl in Hr. csimpl. replace (v + (1 + ups evs)) with (v + 1 + ups evs) by lia. by exists s', v', ws'.
    + assert (v = 0) as -> by (by apply (si_zero _ _ _ _ Hinv)). csimpl in Hne. apply Forall_cons in Hne as [Hnw Hne].
      destruct (up_lets_go s sem w p ws Hinv Hnw) as (s1 & -> & Hinv1 & Hel). rewrite !res_bind_ok. csimpl.
      destruct (IH s1 0 ws Hinv1 Hfe ltac:(lia)) as (s' & v' & ws' & -> & Hi & Hd & Hv'); [by eapply Forall_impl|].
      rewrite res_bind_ok. exists s', v', ws'. replace (Z.to_nat (0 + (1 + ups evs))) with (S (Z.to_nat (0 + ups evs))) by lia.
      csimpl. split_and!; try done. rewrite Hv'. lia.
  - cbn [step]. destruct Hfe as (Hp & Hps & Hws & Hfe). apply Forall_app in Hne as [Hnws Hne]. apply Forall_cons in Hne as [Hnw Hne].
    rewrite Z.gtb_ltb in Hfe. destruct (Z.ltb_spec 0 v) as [Hpos|Hzero].
    + destruct (down_takes s sem v ws w p Hinv Hpos) as (s1 & -> & Hinv1 & Hel). rewrite !res_bind_ok. cbv iota.
      assert (ws = []) as -> by (destruct ws as [|x ws]; [done|]; pose proof (si_zero _ _ _ _ Hinv ltac:(done)); lia).
      destruct (IH s1 (v - 1) [] Hinv1 Hfe ltac:(lia)) as (s' & v' & ws' & -> & Hi & Hd & Hv'); [by eapply Forall_impl|].
      rewrite !res_bind_ok. exists s', v', ws'. csimpl in *.
      replace (Z.to_nat (v + ups evs)) with (S (Z.to_nat (v - 1 + ups evs))) by lia. csimpl. split_and!; try done. lia.
    + assert (v = 0) as -> by lia.
      destruct (down_blocks s sem ws w p Hinv Hp Hps Hws Hnw) as (s1 & -> & Hinv1 & Hel). rewrite !res_bind_ok. cbv iota.
      destruct (IH s1 0 (ws ++ [(w, p)]) Hinv1 Hfe ltac:(lia)) as (s' & v' & ws' & -> & Hi & Hd & Hv').
      { rewrite fmap_app, <- app_assoc. csimpl. apply Forall_app. split; [by eapply Forall_impl|]. constructor; [by apply Hel|by eapply Forall_impl]. }
      rewrite !res_bind_ok. exists s', v', ws'. rewrite fmap_app, <- app_assoc in *. csimpl in *. done.
Qed.

(** C28: over every history of [up] and [down] calls on a semaphore that starts
    with value [v] and no waiter, the calls of [down] come to their end first
    come first served: after [u] ups exactly the first [v + u] of them did
    (all, if there are fewer), in order.  One that had to wait does so at the
    [up] that makes its process runnable, and only then; the rest are asleep in
    the queue in order, and the value is what is left over; no assertion fails
    in between. *)
Theorem semaphore_fifo (sem v : Z) (evs : list sem_ev) (s : sync) :
  sem_inv s sem v [] -> feasible v [] evs -> v + ups evs < 2 ^ 31 ->
  Forall (not_elsewhere s sem) (downs evs) ->
  let k := Z.to_nat (v + ups evs) in
  exists s' v' ws', history sem evs s = Ok (take k (downs evs), s') /\ sem_inv s' sem v' ws' /\
    ws'.*1 = drop k (downs evs) /\ v' = Z.max 0 (v + ups evs - Z.of_nat (length (downs evs))).
Proof. intros Hi Hf Hu Hn. exact (history_spec sem evs s v [] Hi Hf Hu Hn). Qed.

(** a process that was put to sleep by [down] and then handed the
    semaphore by [up] finds its record unlinked and its wakeup flags as
    [down] expects them, so the second half of [down] returns and its
    assertion on the flags holds. *)
Theorem down_resumes (s : sync) (sem w p : Z) (ws : list (Z * Z)) :
  sem_inv s sem 0 ((w, p) :: ws) -> not_elsewhere s sem w ->
  exists s' s'', up sem s = Ok s' /\ state (the_proc (sch s') p) = PROC_RUNNABLE /\
    down_leave sem w s' = Ok s'' /\ s'' = s'.
Proof.
  intros Hi Hn. destruct (up_wakes s sem 0 w p ws Hi) as (s' & Heq & Hi' & Hst & Hw & Hel).
  exists s', s'. split_and!; try done. by apply (down_leaves s sem w p ws); [..|apply Hel].
Qed.
End Laws.

End Sync.

(** ** A concrete system: processes 1, 2, 3 and a semaphore at 500 *)
Definition demo_sync : sync (RQ := list Z) :=
  sem_init 500 1 (Sync (Sched [] (<[1 := demo_proc 1 PROC_RUNNABLE 0]> (<[2 := demo_proc 2 PROC_RUNNABLE 0]>
    (<[3 := demo_proc 3 PROC_RUNNABLE 0]> ∅))) 9 1 ∅ []) ∅ ∅ ∅).

Lemma demo_sem_inv : sem_inv demo_sync 500 1 [].
Proof. split; try done; constructor. Defined.

Lemma demo_not_elsewhere w : not_elsewhere demo_sync 500 w.
Proof.
  intros q l Hq Hl. unfold demo_sync, sem_init, wait_queue_init in Hl. simpl in Hl.
  rewrite lookup_insert_ne in Hl by done. by rewrite lookup_empty in Hl.
Defined.

Lemma semaphore_fifo_witness :
  let evs := [Down 1 31; Down 2 32; Down 3 33; Up] in
  exists s' v' ws', history list_class 500 evs demo_sync = Ok ([31; 32], s') /\ sem_inv s' 500 v' ws' /\
    ws'.*1 = [33] /\ v' = 0.
Proof.
  intros evs. apply (semaphore_fifo list_class list_queue 500 1 evs demo_sync).
  - exact demo_sem_inv.
  - simpl. repeat split; try lia; try done; apply (bool_decide_unpack _); by vm_compute.
  - simpl. lia.
  - apply Forall_forall. intros w _. apply demo_not_elsewhere.
Defined.

(** The same semaphore taken, with process 2 asleep on the record 32. *)
Definition demo_blocked : sync (RQ := list Z) :=
  Sync (Sched [] (<[1 := demo_proc 1 PROC_RUNNABLE 0]> (<[2 := demo_proc 2 PROC_SLEEPING WT_KSEM]> ∅)) 9 1 ∅ [])
    (<[32 := Wait 2 WT_INTERRUPTED 504]> ∅) (<[504 := [32]]> ∅) (<[500 := 0]> ∅).

Lemma down_resumes_witness :
  exists s' s'', up list_class 500 demo_blocked = Ok s' /\ state (the_proc (sch s') 2) = PROC_RUNNABLE /\
    down_leave 500 32 s' = Ok s'' /\ s'' = s'.
Proof.
  apply (down_resumes list_class list_queue demo_blocked 500 32 2 []).
  - split; try done; try (apply (bool_decide_unpack _); by vm_compute); by repeat constructor.
  - intros q l Hq Hl. unfold demo_blocked in Hl. simpl in Hl. rewrite lookup_insert_ne in Hl by done.
    by rewrite lookup_empty in Hl.
Defined.
