(* ===== verification/Process.v ===== *)
(** * kern/process/proc.c: process life cycle

    The scheduler state of Sched.v carries the process table; here are the
    process list, the pid hash chains, the pid allocator and the operations
    on processes.  Results of other subsystems (memory for the descriptor and
    the kernel stack, file table and address space copies) are arguments, and
    the resources taken and returned are recorded in [effects].  [kfree] of a
    descriptor leaves its last contents readable, as the memory does. *)
From S2P Require Import Prelude Libs ProcData Sched.

Definition E_BAD_PROC : Z := 2.
Definition E_INVAL : Z := 3.
Definition E_NO_MEM : Z := 4.
Definition E_NO_FREE_PROC : Z := 5.
Definition E_KILLED : Z := 9.
Definition CLONE_VM : Z := 0x100.
Definition CLONE_FS : Z := 0x800.
Definition HASH_SHIFT : Z := 10.
Definition pid_hashfn (x : Z) : Z := hash32 x HASH_SHIFT.

Inductive effect :=
| FilesInc (f : Z) | PutFs (f : Z) | FilesDestroy (f : Z)
| MmInc (m : Z) | MmDec (m : Z) | ExitMmap (m : Z) | PutPgdir (m : Z) | MmDestroy (m : Z)
| PutKstack (k : Z) | Kfree (p : Z).

(** ** What a scheduling class leaves alone besides [core] and [links] *)
Definition rest (p : proc_struct) : Z * Z * Z * Z * Z * Z * Z * list Z :=
  (kstack p, mm p, flags p, exit_code p, filesp p, is_thread p, stack_num p, stack p).

Class KeepsRest {RQ : Type} (class : sched_class RQ) := {
  enqueue_rest : forall p x q, rest (pget (sc_enqueue class p x).2 q) = rest (pget x.2 q)
}.

#[export] Instance list_rest : KeepsRest list_class.
Proof. by constructor. Defined.

(** ** Pids *)

(** One pass over the processes: [inl] is [goto repeat]. *)
Fixpoint pid_scan (pids : list Z) (last_pid next_safe : Z) : Z + (Z * Z) :=
  match pids with
  | [] => inr (last_pid, next_safe)
  | q :: pids =>
      if q =? last_pid then
        let last_pid := last_pid + 1 in
        if last_pid >=? next_safe then inl (if last_pid >=? MAX_PID then 1 else last_pid)
        else pid_scan pids last_pid next_safe
      else if (q >? last_pid) && (next_safe >? q) then pid_scan pids last_pid q
      else pid_scan pids last_pid next_safe
  end.

Fixpoint pid_repeat (fuel : nat) (pids : list Z) (last_pid : Z) : res (Z * Z) :=
  match fuel with
  | O => Spin
  | S fuel =>
      match pid_scan pids last_pid MAX_PID with
      | inl l => pid_repeat fuel pids l
      | inr r => Ok r
      end
  end.

(** The returned pid is the new [last_pid]; with it the new [next_safe]. *)
Definition get_pid (fuel : nat) (pids : list Z) (last_pid next_safe : Z) : res (Z * Z) :=
  let last_pid := last_pid + 1 in
  if last_pid >=? MAX_PID then pid_repeat fuel pids 1
  else if last_pid >=? next_safe then pid_repeat fuel pids last_pid
  else Ok (last_pid, next_safe).

(** A pid nobody uses, with the gap above it. *)
Definition gap (pids : list Z) (l n : Z) : Prop := Forall (fun q => q <= l \/ n <= q) pids.

Lemma pid_scan_spec pids : forall seen l n,
  Forall (fun q => q < l \/ n <= q) seen -> 1 <= l < n -> n <= MAX_PID ->
  match pid_scan pids l n with
  | inr (l', n') => 1 <= l' < n' /\ n' <= MAX_PID /\ Forall (fun q => q < l' \/ n' <= q) (seen ++ pids)
  | inl r => exists m, l < m <= MAX_PID /\ r = (if m >=? MAX_PID then 1 else m) /\ forall x, l <= x < m -> x ∈ pids
  end.
Proof.
  induction pids as [|q pids IH]; intros seen l n Hseen Hln Hn; cbn [pid_scan].
  { rewrite app_nil_r. done. }
  replace (seen ++ q :: pids) with ((seen ++ [q]) ++ pids) by (by rewrite <- app_assoc).
  assert (Hext : forall l' n', Forall (fun q => q < l' \/ n' <= q) seen -> q < l' \/ n' <= q ->
    Forall (fun q => q < l' \/ n' <= q) (seen ++ [q])) by (intros; apply Forall_app; split; [done|by constructor]).
  destruct (Z.eqb_spec q l) as [->|Hq].
  - rewrite Z.geb_leb. destruct (Z.leb_spec n (l + 1)).
    + exists (l + 1). split_and!; [lia..|done|]. intros x Hx. assert (x = l) as -> by lia. left.
    + specialize (IH (seen ++ [l]) (l + 1) n). destruct (pid_scan pids (l + 1) n) as [r|[l' n']].
      * destruct IH as (m & Hm & -> & Hall); [|lia|lia|].
        { apply Hext; [|lia]. eapply Forall_impl; [exact Hseen|]. simpl. lia. }
        exists m. split_and!; [lia..|done|]. intros x Hx. destruct (decide (x = l)) as [->|]; [left|]. right. apply Hall. lia.
      * apply IH; [|lia|lia]. apply Hext; [|lia]. eapply Forall_impl; [exact Hseen|]. simpl. lia.
  - assert (Hgo : forall n', (q < l \/ n' <= q) -> l < n' -> n' <= n ->
      match pid_scan pids l n' with
      | inr (l', n'') => 1 <= l' < n'' /\ n'' <= MAX_PID /\ Forall (fun q => q < l' \/ n'' <= q) ((seen ++ [q]) ++ pids)
      | inl r => exists m, l < m <= MAX_PID /\ r = (if m >=? MAX_PID then 1 else m) /\ forall x, l <= x < m -> x ∈ q :: pids
      end).
    { intros n' Hqn Hn1 Hn2. specialize (IH (seen ++ [q]) l n'). destruct (pid_scan pids l n') as [r|[l' n'']].
      - destruct IH as (m & Hm & -> & Hall); [|lia|lia|].
        { apply Hext; [|lia]. eapply Forall_impl; [exact Hseen|]. simpl. lia. }
        exists m. split_and!; [lia..|done|]. intros x Hx. right. apply Hall. lia.
      - apply IH; [|lia|lia]. apply Hext; [|lia]. eapply Forall_impl; [exact Hseen|]. simpl. lia. }
    destruct (Z.gtb_spec q l), (Z.gtb_spec n q); cbn [andb]; apply Hgo; lia.
Qed.

(** Steps until a free pid [f] is reached from [l], wrapping at [MAX_PID]. *)
Definition pid_distance (f l : Z) : Z := if l <=? f then f - l else MAX_PID - l + f.

Lemma pid_repeat_spec f pids fuel : forall l,
  f ∉ pids -> 1 <= f < MAX_PID -> 1 <= l < MAX_PID -> pid_distance f l < Z.of_nat fuel ->
  exists l' n', pid_repeat fuel pids l = Ok (l', n') /\ 1 <= l' < n' /\ n' <= MAX_PID /\
    Forall (fun q => q < l' \/ n' <= q) pids.
Proof.
  induction fuel as [|fuel IH]; intros l Hf Hfr Hl Hd; cbn [pid_repeat].
  { unfold pid_distance in Hd. destruct (Z.leb_spec l f); lia. }
  pose proof (pid_scan_spec pids [] l MAX_PID (List.Forall_nil _) ltac:(lia) ltac:(lia)) as Hs.
  destruct (pid_scan pids l MAX_PID) as [r|[l' n']].
  - destruct Hs as (m & Hm & -> & Hall). rewrite Z.geb_leb. unfold pid_distance in Hd.
    assert (Hfm : ~ (l <= f < m)) by (intros Hx; by apply Hf, Hall).
    destruct (Z.leb_spec MAX_PID m); apply IH; try done; unfold pid_distance in *; repeat zcase; repeat zcase_in Hd; unfold MAX_PID, MAX_PROCESS in *; lia.
  - exists l', n'. tauto.
Qed.

Lemma free_pid_exists pids : Z.of_nat (length pids) < MAX_PID - 1 -> exists f, 1 <= f < MAX_PID /\ f ∉ pids.
Proof.
  intros Hlen. destruct (decide (Forall (fun f => f ∈ pids) (seqZ 1 (MAX_PID - 1)))) as [Hall|Hn].
  - exfalso. assert (Hsub : seqZ 1 (MAX_PID - 1) ⊆+ pids).
    { apply NoDup_submseteq; [apply NoDup_seqZ|]. intros x Hx. by eapply Forall_forall in Hall. }
    apply submseteq_length in Hsub. rewrite length_seqZ in Hsub. unfold MAX_PID, MAX_PROCESS in *. lia.
  - apply not_Forall_Exists in Hn; [|apply _]. apply Exists_exists in Hn as (f & Hf & Hp).
    apply elem_of_seqZ in Hf. exists f. split; [lia|done].
Qed.

Lemma get_pid_spec pids last next :
  Z.of_nat (length pids) < MAX_PID - 1 -> 0 <= last -> next <= MAX_PID -> gap pids last next ->
  exists l n, get_pid (Z.to_nat (2 * MAX_PID)) pids last next = Ok (l, n) /\
    1 <= l < n /\ n <= MAX_PID /\ l ∉ pids /\ gap pids l n.
Proof.
  intros Hlen Hl Hn Hgap. destruct (free_pid_exists pids Hlen) as (f & Hf & Hfn). unfold get_pid.
  assert (Hrep : forall x, 1 <= x < MAX_PID -> exists l n, pid_repeat (Z.to_nat (2 * MAX_PID)) pids x = Ok (l, n) /\
    1 <= l < n /\ n <= MAX_PID /\ l ∉ pids /\ gap pids l n).
  { intros x Hx. destruct (pid_repeat_spec f pids (Z.to_nat (2 * MAX_PID)) x Hfn Hf Hx) as (l & n & Heq & Hln & Hnm & Hall).
    { unfold pid_distance, MAX_PID, MAX_PROCESS in *. zcase; lia. }
    exists l, n. split_and!; [done|lia|lia|lia| |].
    - intros Hin. eapply Forall_forall in Hall; [|exact Hin]. simpl in Hall. lia.
    - eapply Forall_impl; [exact Hall|]. simpl. lia. }
  rewrite !Z.geb_leb. destruct (Z.leb_spec MAX_PID (last + 1)); [apply Hrep; unfold MAX_PID, MAX_PROCESS; lia|].
  destruct (Z.leb_spec next (last + 1)); [apply Hrep; lia|].
  exists (last + 1), next. split_and!; [done|lia|lia|lia| |].
  - intros Hin. eapply Forall_forall in Hgap; [|exact Hin]. simpl in Hgap. lia.
  - eapply Forall_impl; [exact Hgap|]. simpl. lia.
Qed.

(** [get_pid] terminates and returns a pid in [1, MAX_PID) that no process
    of the list has, whenever a pid is left at all (with at most [MAX_PROCESS]
    processes there always is); the cached bound [next_safe] stays valid for
    the next call, also after the new process joins the list. *)
Theorem get_pid_fresh (pids : list Z) (last next : Z) :
  Z.of_nat (length pids) < MAX_PID - 1 -> 0 <= last -> next <= MAX_PID -> gap pids last next ->
  exists l n, get_pid (Z.to_nat (2 * MAX_PID)) pids last next = Ok (l, n) /\
    1 <= l < MAX_PID /\ l ∉ pids /\ l < n <= MAX_PID /\ gap (l :: pids) l n.
Proof.
  intros H1 H2 H3 H4. destruct (get_pid_spec pids last next H1 H2 H3 H4) as (l & n & Heq & Hl & Hn & Hnin & Hg).
  exists l, n. split_and!; try done; try lia. constructor; [lia|done].
Qed.

Lemma get_pid_fresh_witness :
  get_pid (Z.to_nat (2 * MAX_PID)) [8191; 2; 1] MAX_PID MAX_PID = Ok (3, 8191) /\
  exists l n, get_pid (Z.to_nat (2 * MAX_PID)) [8191; 2; 1] MAX_PID MAX_PID = Ok (l, n) /\
    1 <= l < MAX_PID /\ l ∉ [8191; 2; 1] /\ l < n <= MAX_PID /\ gap (l :: [8191; 2; 1]) l n.
Proof.
  split; [vm_compute; reflexivity|]. apply (get_pid_fresh [8191; 2; 1] MAX_PID MAX_PID); try done.
  repeat constructor; unfold MAX_PID, MAX_PROCESS; lia.
Defined.

Section Process.
Context {RQ : Type} (class : sched_class RQ).

Record kern := Kern {
  sc : sched (RQ := RQ);
  proc_list : list Z;
  hash_list : gmap Z (list Z);
  nr_process : Z;
  last_pid : Z;
  next_safe : Z;
  initproc : Z;
  effects : list effect
}.

Definition set_sc (x : sched) (k : kern) : kern :=
  Kern x (proc_list k) (hash_list k) (nr_process k) (last_pid k) (next_safe k) (initproc k) (effects k).
Definition set_lists (l : list Z) (n : Z) (k : kern) : kern :=
  Kern (sc k) l (hash_list k) n (last_pid k) (next_safe k) (initproc k) (effects k).
Definition set_hash (h : gmap Z (list Z)) (k : kern) : kern :=
  Kern (sc k) (proc_list k) h (nr_process k) (last_pid k) (next_safe k) (initproc k) (effects k).
Definition set_pids (l n : Z) (k : kern) : kern :=
  Kern (sc k) (proc_list k) (hash_list k) (nr_process k) l n (initproc k) (effects k).
Definition eff (e : effect) (k : kern) : kern :=
  Kern (sc k) (proc_list k) (hash_list k) (nr_process k) (last_pid k) (next_safe k) (initproc k) (effects k ++ [e]).

Definition pr (k : kern) (p : Z) : proc_struct := the_proc (sc k) p.
Definition upd_proc (p : Z) (f : proc_struct -> proc_struct) (k : kern) : kern :=
  set_sc (set_procs (pupd p f (procs (sc k))) (sc k)) k.
Definition cur (k : kern) : Z := current (sc k).
Definition chain (k : kern) (i : Z) : list Z := default [] (hash_list k !! i).

(** ** Creation *)
Definition fresh_proc (p : proc_struct) : proc_struct :=
  set_stack (1 :: replicate (Z.to_nat MAX_THREAD - 1) 0)
    (set_stack_num 0 (set_is_thread 0 (set_vruntime 0 (set_cfs_prior 19 (set_filesp 0
    (set_stride_prior 19 (set_stride 0 (set_time_slice 0 (set_yptr 0 (set_optr 0 (set_cptr 0
    (set_wait_state 0 (set_flags 0 (set_mm 0 (set_parent 0 (set_need_resched false
    (set_kstack 0 (set_runs 0 (set_pid (-1) (set_state PROC_UNINIT p)))))))))))))))))))).

Definition alloc_proc (block : option Z) (k : kern) : option Z * kern :=
  match block with
  | Some p => (Some p, upd_proc p fresh_proc k)
  | None => (None, k)
  end.

(** ** Family links *)
Definition set_links (p : Z) (k : kern) : kern :=
  let k := set_lists (p :: proc_list k) (nr_process k) k in
  let k := upd_proc p (set_yptr 0) k in
  let older := cptr (pr k (parent (pr k p))) in
  let k := upd_proc p (set_optr older) k in
  let k := if negb (older =? 0) then upd_proc older (set_yptr p) k else k in
  let k := upd_proc (parent (pr k p)) (set_cptr p) k in
  set_lists (proc_list k) (i32 (nr_process k + 1)) k.

Definition remove_links (p : Z) (k : kern) : kern :=
  let k := set_lists (filter (fun x => x <> p) (proc_list k)) (nr_process k) k in
  let k := if negb (optr (pr k p) =? 0) then upd_proc (optr (pr k p)) (set_yptr (yptr (pr k p))) k else k in
  let k := if negb (yptr (pr k p) =? 0) then upd_proc (yptr (pr k p)) (set_optr (optr (pr k p))) k
           else upd_proc (parent (pr k p)) (set_cptr (optr (pr k p))) k in
  set_lists (proc_list k) (i32 (nr_process k - 1)) k.

(** ** The pid hash *)
Definition hash_proc (p : Z) (k : kern) : kern :=
  let i := pid_hashfn (pid (pr k p)) in
  set_hash (<[i := p :: chain k i]> (hash_list k)) k.

(** [list_del] of the hash link: the chain is the one the entry is in. *)
Definition unhash_proc (p : Z) (k : kern) : kern :=
  set_hash (filter (fun x => x <> p) <$> hash_list k) k.

Fixpoint find_in (k : kern) (l : list Z) (n : Z) : option Z :=
  match l with
  | [] => None
  | p :: l => if pid (pr k p) =? n then Some p else find_in k l n
  end.

Definition find_proc (n : Z) (k : kern) : option Z :=
  if (0 <? n) && (n <? MAX_PID) then find_in k (chain k (pid_hashfn n)) n else None.

Definition new_pid (k : kern) : res (Z * kern) :=
  '(l, n) ← get_pid (Z.to_nat (2 * MAX_PID)) ((fun p => pid (pr k p)) <$> proc_list k) (last_pid k) (next_safe k);
  Ok (l, set_pids l n k).

(** ** fork *)
Record fork_env := ForkEnv {
  fe_block : option Z;     (* kmalloc of the descriptor *)
  fe_kstack : option Z;    (* alloc_pages(KSTACKPAGE) *)
  fe_files : option Z;     (* files_create *)
  fe_dup_files : Z;        (* dup_files *)
  fe_mm : option Z;        (* mm_create *)
  fe_pgdir : Z;            (* setup_pgdir *)
  fe_dup_mmap : Z          (* dup_mmap *)
}.

Definition setup_kstack (e : fork_env) (p : Z) (k : kern) : Z * kern :=
  match fe_kstack e with
  | Some s => (0, upd_proc p (set_kstack s) k)
  | None => (- E_NO_MEM, k)
  end.

Definition copy_fs (e : fork_env) (clone_flags p : Z) (k : kern) : res (Z * kern) :=
  let old := filesp (pr k (cur k)) in
  _ ← kassert (negb (old =? 0));
  let good f := upd_proc p (set_filesp f) (eff (FilesInc f) k) in
  Ok (if negb (Z.land clone_flags CLONE_FS =? 0) then (0, good old)
      else match fe_files e with
           | None => (- E_NO_MEM, k)
           | Some f =>
               if negb (fe_dup_files e =? 0) then (fe_dup_files e, eff (FilesDestroy f) k)
               else (0, good f)
           end).

Definition copy_mm (e : fork_env) (clone_flags p : Z) (k : kern) : Z * kern :=
  let old := mm (pr k (cur k)) in
  let good m := upd_proc p (set_mm m) (eff (MmInc m) k) in
  if old =? 0 then (0, k)
  else if negb (Z.land clone_flags CLONE_VM =? 0) then (0, good old)
  else match fe_mm e with
       | None => (- E_NO_MEM, k)
       | Some m =>
           if negb (fe_pgdir e =? 0) then (- E_NO_MEM, eff (MmDestroy m) k)
           else if negb (fe_dup_mmap e =? 0)
           then (fe_dup_mmap e, eff (MmDestroy m) (eff (PutPgdir m) (eff (ExitMmap m) k)))
           else (0, good m)
       end.

Definition put_fs (p : Z) (k : kern) : kern :=
  if negb (filesp (pr k p) =? 0) then eff (PutFs (filesp (pr k p))) k else k.
Definition put_kstack (p : Z) (k : kern) : kern := eff (PutKstack (kstack (pr k p))) k.

Definition do_fork (e : fork_env) (clone_flags : Z) (k : kern) : res (Z * kern) :=
  if nr_process k >=? MAX_PROCESS then Ok (- E_NO_FREE_PROC, k)
  else
    match alloc_proc (fe_block e) k with
    | (None, k) => Ok (- E_NO_MEM, k)
    | (Some p, k) =>
        let k := upd_proc p (set_parent (cur k)) k in
        _ ← kassert (wait_state (pr k (cur k)) =? 0);
        let '(r, k) := setup_kstack e p k in
        if negb (r =? 0) then Ok (- E_NO_MEM, eff (Kfree p) k)
        else
          '(r, k) ← copy_fs e clone_flags p k;
          if negb (r =? 0) then Ok (- E_NO_MEM, eff (Kfree p) (put_kstack p k))
          else
            let '(r, k) := copy_mm e clone_flags p k in
            if negb (r =? 0) then Ok (- E_NO_MEM, eff (Kfree p) (put_kstack p (put_fs p k)))
            else
              '(n, k) ← new_pid k;
              let k := upd_proc p (set_pid n) k in
              let k := set_links p (hash_proc p k) in
              x ← wakeup_proc class p (sc k);
              let k := set_sc x k in
              Ok (pid (pr k p), k)
    end.

(** ** exit *)

(** [while (father->is_thread) father = father->parent] *)
Fixpoint main_thread (fuel : nat) (k : kern) (p : Z) : res Z :=
  match fuel with
  | O => Spin
  | S fuel => if negb (is_thread (pr k p) =? 0) then main_thread fuel k (parent (pr k p)) else Ok p
  end.

Definition set_slot (i v : Z) (p : proc_struct) : proc_struct :=
  set_stack (<[Z.to_nat i := v]> (stack p)) p.

(** The child [p] of the exiting process is handed to [initproc]. *)
Definition adopt (p : Z) (k : kern) : kern :=
  let k := upd_proc (cur k) (set_cptr (optr (pr k p))) k in
  let k := upd_proc p (set_yptr 0) k in
  let older := cptr (pr k (initproc k)) in
  let k := upd_proc p (set_optr older) k in
  let k := if negb (older =? 0) then upd_proc older (set_yptr p) k else k in
  let k := upd_proc p (set_parent (initproc k)) k in
  upd_proc (initproc k) (set_cptr p) k.

Fixpoint reparent (fuel : nat) (k : kern) : res kern :=
  match fuel with
  | O => Spin
  | S fuel =>
      let p := cptr (pr k (cur k)) in
      if negb (p =? 0) then
        let k := adopt p k in
        k ← (if bool_decide (state (pr k p) = PROC_ZOMBIE) && (wait_state (pr k (initproc k)) =? WT_CHILD)
             then x ← wakeup_proc class (initproc k) (sc k); Ok (set_sc x k)
             else Ok k);
        reparent fuel k
      else Ok k
  end.

(** Up to the call of [schedule]; [last_user] is whether the reference count
    of the address space drops to 0. *)
Definition do_exit (fuel : nat) (last_user : bool) (error_code : Z) (k : kern) : res kern :=
  _ ← kassert (negb (cur k =? idleproc (sc k)));
  _ ← kassert (negb (cur k =? initproc k));
  let m := mm (pr k (cur k)) in
  let k := if negb (m =? 0) then
             let k := eff (MmDec m) k in
             let k := if last_user then eff (MmDestroy m) (eff (PutPgdir m) (eff (ExitMmap m) k)) else k in
             upd_proc (cur k) (set_mm 0) k
           else k in
  let k := put_fs (cur k) k in
  k ← (if negb (is_thread (pr k (cur k)) =? 0) then
         father ← main_thread fuel k (parent (pr k (cur k)));
         Ok (upd_proc father (set_slot (stack_num (pr k (cur k))) 0) k)
       else Ok k);
  let k := upd_proc (cur k) (fun p => set_exit_code error_code (set_state PROC_ZOMBIE p)) k in
  k ← (if wait_state (pr k (parent (pr k (cur k)))) =? WT_CHILD
       then x ← wakeup_proc class (parent (pr k (cur k))) (sc k); Ok (set_sc x k)
       else Ok k);
  reparent fuel k.

(** ** wait *)
Fixpoint zombie_child (fuel : nat) (k : kern) (p : Z) (haskid : bool) : res (option Z * bool) :=
  match fuel with
  | O => Spin
  | S fuel =>
      if negb (p =? 0) then
        if bool_decide (state (pr k p) = PROC_ZOMBIE) then Ok (Some p, true)
        else zombie_child fuel k (optr (pr k p)) true
      else Ok (None, haskid)
  end.

(** One pass from [repeat:]: the zombie found, and whether there is a child. *)
Definition wait_scan (fuel : nat) (n : Z) (k : kern) : res (option Z * bool) :=
  if negb (n =? 0) then
    Ok (match find_proc n k with
        | Some p =>
            if parent (pr k p) =? cur k
            then (if bool_decide (state (pr k p) = PROC_ZOMBIE) then Some p else None, true)
            else (None, false)
        | None => (None, false)
        end)
  else zombie_child fuel k (cptr (pr k (cur k))) false.

(** From [found:]: the exit code, after the child is unlinked and freed. *)
Definition reap (p : Z) (k : kern) : res (Z * kern) :=
  _ ← kassert (negb ((p =? idleproc (sc k)) || (p =? initproc k)));
  let code := exit_code (pr k p) in
  let k := remove_links p (unhash_proc p k) in
  Ok (code, eff (Kfree p) (put_kstack p k)).

Inductive wait_res := WaitDone (code : Z) | WaitErr (e : Z) | WaitSleeps.

(** From [repeat:] to the next [schedule] or return. *)
Definition wait_round (fuel : nat) (n : Z) (k : kern) : res (wait_res * kern) :=
  '(found, haskid) ← wait_scan fuel n k;
  match found with
  | Some p => '(code, k) ← reap p k; Ok (WaitDone code, k)
  | None =>
      if haskid : bool then
        Ok (WaitSleeps, upd_proc (cur k) (fun p => set_wait_state WT_CHILD (set_state PROC_SLEEPING p)) k)
      else Ok (WaitErr (- E_BAD_PROC), k)
  end.

(** The loop over the children reads [optr] of a child it has just freed. *)
Fixpoint kill_zombies (fuel : nat) (p : Z) (k : kern) : res kern :=
  match fuel with
  | O => Spin
  | S fuel' =>
      if negb (p =? 0) then
        k ← (if bool_decide (state (pr k p) = PROC_ZOMBIE)
             then '(_, k) ← wait_round fuel (pid (pr k p)) k; Ok k
             else Ok k);
        kill_zombies fuel' (optr (pr k p)) k
      else Ok k
  end.

Definition kill_all_zombie_ch_process (fuel : nat) (k : kern) : res kern :=
  kill_zombies fuel (cptr (pr k (cur k))) k.

(** [do_wait] from its start ([writable] is the result of [user_mem_check] on
    a non-NULL [code_store]) and from the return of [schedule]. *)
Definition do_wait (fuel : nat) (writable : bool) (n : Z) (k : kern) : res (wait_res * kern) :=
  if negb writable then Ok (WaitErr (- E_INVAL), k) else wait_round fuel n k.

Definition wait_resumes (fuel : nat) (last_user : bool) (n : Z) (k : kern) : res (option wait_res * kern) :=
  k ← kill_all_zombie_ch_process fuel k;
  if negb (Z.land (flags (pr k (cur k))) PF_EXITING =? 0) then
    k ← do_exit fuel last_user (- E_KILLED) k; Ok (None, k)
  else '(r, k) ← wait_round fuel n k; Ok (Some r, k).

(** ** kill, yield, sleep *)
Definition do_kill (n : Z) (k : kern) : res (Z * kern) :=
  match find_proc n k with
  | Some p =>
      if Z.land (flags (pr k p)) PF_EXITING =? 0 then
        let k := upd_proc p (fun q => set_flags (Z.lor (flags q) PF_EXITING) q) k in
        if negb (Z.land (wait_state (pr k p)) WT_INTERRUPTED =? 0) then
          x ← wakeup_proc class p (sc k); Ok (0, set_sc x k)
        else Ok (0, k)
      else Ok (- E_KILLED, k)
  | None => Ok (- E_INVAL, k)
  end.

Definition do_yield (k : kern) : kern := upd_proc (cur k) (set_need_resched true) k.

(** Up to [schedule]; [t] is the timer on the stack of the caller. *)
Definition do_sleep (t time : Z) (k : kern) : res (bool * kern) :=
  if time =? 0 then Ok (false, k)
  else
    let x := set_timers (<[t := Timer (u32 time) (cur k)]> (timers (sc k))) (timer_list (sc k)) (sc k) in
    let k := upd_proc (cur k) (fun p => set_wait_state WT_TIMER (set_state PROC_SLEEPING p)) (set_sc x k) in
    x ← add_timer t (sc k);
    Ok (true, set_sc x k).

Definition sleep_resumes (t : Z) (k : kern) : kern := set_sc (del_timer t (sc k)) k.

(** ** Threads *)

(** The first free stack slot from [i] on; [MAX_THREAD] when there is none. *)
Fixpoint free_slot (n : nat) (slots : list Z) (i : Z) : Z :=
  match n with
  | O => i
  | S n =>
      if i <? MAX_THREAD then
        if default 0 (slots !! Z.to_nat i) =? 0 then i else free_slot n slots (i + 1)
      else i
  end.

(** [pages] is whether both stack pages could be allocated. *)
Definition do_clone (fuel : nat) (e : fork_env) (pages : bool) (k : kern) : res (Z * kern) :=
  if nr_process k >=? MAX_PROCESS then Ok (- E_NO_FREE_PROC, k)
  else
    match alloc_proc (fe_block e) k with
    | (None, k) => Ok (- E_NO_MEM, k)
    | (Some p, k) =>
        let k := upd_proc p (set_is_thread 1) k in
        father ← main_thread fuel k (cur k);
        let k := upd_proc p (set_parent (cur k)) k in
        let slot := free_slot (Z.to_nat MAX_THREAD) (stack (pr k father)) 1 in
        let k := upd_proc p (set_stack_num slot) k in
        let k := if slot <? MAX_THREAD then upd_proc father (set_slot slot 1) k else k in
        _ ← kassert (negb (slot =? MAX_THREAD));
        _ ← kassert (wait_state (pr k (cur k)) =? 0);
        let '(r, k) := setup_kstack e p k in
        if negb (r =? 0) then Ok (- E_NO_MEM, eff (Kfree p) k)
        else
          '(r, k) ← copy_fs e CLONE_FS p k;
          if negb (r =? 0) then Ok (- E_NO_MEM, eff (Kfree p) (put_kstack p k))
          else
            let '(r, k) := copy_mm e CLONE_VM p k in
            if negb (r =? 0) then Ok (- E_NO_MEM, eff (Kfree p) (put_kstack p (put_fs p k)))
            else
              _ ← kassert pages;
              '(n, k) ← new_pid k;
              let k := upd_proc p (set_pid n) k in
              let k := set_links p (hash_proc p k) in
              x ← wakeup_proc class p (sc k);
              let k := set_sc x k in
              let k := upd_proc father (set_slot slot (pid (pr k p))) k in
              Ok (pid (pr k p), k)
    end.

Definition has_thread (p : proc_struct) : bool :=
  existsb (fun i => negb (default 0 (stack p !! i) =? 0)) (seq 1 (Z.to_nat MAX_THREAD - 1)).

Definition is_ancestral_thread (p : Z) (k : kern) : bool :=
  if negb (is_thread (pr k p) =? 0) then false else has_thread (pr k p).

Definition current_have_kid (k : kern) : bool := negb (cptr (pr k (cur k)) =? 0).

(** [slots] are the indices still to visit. *)
Fixpoint kill_threads (slots : list nat) (father : Z) (k : kern) : res kern :=
  match slots with
  | [] => Ok k
  | i :: slots =>
      let n := default 0 (stack (pr k father) !! i) in
      k ← (if negb (n =? 0) then
             match find_proc n k with
             | Some p => '(_, k) ← do_kill n (upd_proc p (set_is_thread 0) k); Ok k
             | None => Panic   (* a NULL pointer is written *)
             end
           else Ok k);
      kill_threads slots father k
  end.

Definition do_kill_all_thread (fuel : nat) (n : Z) (k : kern) : res (Z * kern) :=
  match find_proc n k with
  | None => Ok (- E_INVAL, k)
  | Some p =>
      if negb (negb (is_thread (pr k p) =? 0) || has_thread (pr k p)) then do_kill n k
      else
        father ← main_thread fuel k p;
        k ← kill_threads (seq 1 (Z.to_nat MAX_THREAD - 1)) father k;
        '(_, k) ← do_kill (pid (pr k father)) k;
        Ok (0, k)
  end.

(** ** Families

    The children of a process, youngest first: [cptr] points to the youngest,
    [optr] to the next older and [yptr] back to the next younger sibling. *)
Fixpoint siblings (k : kern) (y p : Z) (l : list Z) : Prop :=
  match l with
  | [] => p = 0
  | a :: l => p = a /\ a <> 0 /\ yptr (pr k a) = y /\ siblings k a (optr (pr k a)) l
  end.

Definition children (k : kern) (par : Z) (l : list Z) : Prop :=
  siblings k 0 (cptr (pr k par)) l /\ NoDup l /\ Forall (fun a => parent (pr k a) = par) l.

(** The [optr] chain alone. *)
Fixpoint older_chain (k : kern) (p : Z) (l : list Z) : Prop :=
  match l with
  | [] => p = 0
  | a :: l => p = a /\ a <> 0 /\ older_chain k (optr (pr k a)) l
  end.

Lemma pr_upd p f k q : pr (upd_proc p f k) q = if decide (q = p) then f (pr k p) else pr k q.
Proof. unfold pr, the_proc. simpl. apply pget_pupd. Qed.

Lemma siblings_ext k k' y p l :
  (forall a, a ∈ l -> yptr (pr k' a) = yptr (pr k a) /\ optr (pr k' a) = optr (pr k a)) ->
  siblings k y p l -> siblings k' y p l.
Proof.
  revert y p. induction l as [|a l IH]; intros y p Hext; simpl; [done|].
  intros (-> & Ha & Hy & Hs). destruct (Hext a ltac:(left)) as [-> ->]. split_and!; try done.
  apply IH; [|done]. intros b Hb. apply Hext. by right.
Qed.

Lemma older_ext k k' p l :
  (forall a, a ∈ l -> optr (pr k' a) = optr (pr k a)) -> older_chain k p l -> older_chain k' p l.
Proof.
  revert p. induction l as [|a l IH]; intros p Hext; simpl; [done|].
  intros (-> & Ha & Hs). rewrite (Hext a) by left. split_and!; try done.
  apply IH; [|done]. intros b Hb. apply Hext. by right.
Qed.

Lemma siblings_older k y p l : siblings k y p l -> older_chain k p l.
Proof. revert y p. induction l as [|a l IH]; intros y p; simpl; [done|]. intros (-> & Ha & _ & Hs). eauto. Qed.

(** What [set_links] writes. *)
Lemma set_links_fields p k q (par := parent (pr k p)) (older := cptr (pr k par)) :
  p <> par ->
  yptr (pr (set_links p k) q) = (if decide (q = older /\ older <> 0) then p else if decide (q = p) then 0 else yptr (pr k q)) /\
  optr (pr (set_links p k) q) = (if decide (q = p) then older else optr (pr k q)) /\
  cptr (pr (set_links p k) q) = (if decide (q = par) then p else cptr (pr k q)) /\
  parent (pr (set_links p k) q) = parent (pr k q) /\
  core (pr (set_links p k) q) = core (pr k q).
Proof.
  intros Hne. unfold set_links. cbv zeta.
  set (k1 := upd_proc p (set_yptr 0) _).
  assert (H1 : forall q, pr k1 q = if decide (q = p) then set_yptr 0 (pr k p) else pr k q) by (intros; unfold k1; by rewrite pr_upd).
  assert (Hpar : parent (pr k1 p) = par) by (rewrite H1, decide_True by done; done).
  rewrite Hpar. assert (Hol : cptr (pr k1 par) = older) by (rewrite H1, decide_False by done; done). rewrite Hol.
  set (k2 := upd_proc p (set_optr older) k1).
  assert (H2 : forall q, pr k2 q = if decide (q = p) then set_optr older (set_yptr 0 (pr k p)) else pr k q).
  { intros x. unfold k2. rewrite pr_upd. case_decide; [rewrite H1, decide_True by done; done|]. rewrite H1, decide_False by done. done. }
  set (k3 := if negb (older =? 0) then _ else k2).
  assert (H3 : forall q, pr k3 q = if decide (q = older /\ older <> 0) then set_yptr p (pr k2 q) else pr k2 q).
  { intros x. unfold k3. destruct (Z.eqb_spec older 0) as [Ho|Ho]; simpl.
    - rewrite decide_False by tauto. done.
    - rewrite pr_upd. repeat case_decide; subst; tauto. }
  clearbody k3. assert (Hp3 : parent (pr k3 p) = par).
  { rewrite H3, H2, (decide_True (P := p = p)) by done. by destruct (decide (p = older /\ older <> 0)). }
  rewrite Hp3. change (pr (set_lists _ _ ?x) q) with (pr x q). rewrite pr_upd.
  destruct (decide (q = par)) as [Hq|Hq]; [rewrite <- Hq|]; rewrite H3, H2;
    destruct (decide (q = p)) as [->|], (decide (_ = older /\ older <> 0)); try congruence; done.
Qed.

(** A new youngest sibling. *)
Lemma siblings_push k k' p older l :
  siblings k 0 older l -> NoDup l -> p ∉ l -> p <> 0 ->
  (forall q, yptr (pr k' q) = if decide (q = older /\ older <> 0) then p else if decide (q = p) then 0 else yptr (pr k q)) ->
  (forall q, optr (pr k' q) = if decide (q = p) then older else optr (pr k q)) ->
  siblings k' 0 p (p :: l).
Proof.
  intros Hs Hnd Hpl Hp0 Hy Ho. simpl.
  assert (Hnp : p = older -> older = 0).
  { destruct l as [|a l]; simpl in Hs; [done|]. destruct Hs as (-> & _). intros ->. exfalso. apply Hpl. left. }
  split_and!; [done|done| |].
  - rewrite Hy. rewrite decide_False by (intros [? ?]; tauto). by rewrite decide_True.
  - rewrite Ho, decide_True by done. destruct l as [|a l]; [exact Hs|]. simpl in Hs |- *.
    destruct Hs as (Hoa & Ha & _ & Hs).
    split_and!; [done|done|rewrite Hy, decide_True by (split; congruence); done|].
    rewrite Ho, decide_False by (intros ->; apply Hpl; left).
    apply (siblings_ext k); [|done]. intros b Hb. apply NoDup_cons in Hnd as [Hna _]. rewrite Hy, Ho.
    assert (b <> p) by (intros ->; apply Hpl; by right). assert (b <> older) by (intros ->; congruence).
    rewrite !decide_False by tauto. done.
Qed.

Lemma set_links_children p k l (par := parent (pr k p)) :
  children k par l -> p <> 0 -> p <> par -> p ∉ l -> children (set_links p k) par (p :: l).
Proof.
  intros (Hs & Hnd & Hpar) Hp0 Hpp Hpl. pose proof (fun q => set_links_fields p k q Hpp) as Hf. cbv zeta in Hf. fold par in Hf.
  set (k' := set_links p k) in *. split_and!; [|by apply NoDup_cons|].
  - destruct (Hf par) as (_ & _ & -> & _). rewrite decide_True by done.
    apply (siblings_push k k' p (cptr (pr k par))); try done; intros q; by destruct (Hf q) as (? & ? & _).
  - constructor; [by destruct (Hf p) as (_ & _ & _ & -> & _)|].
    eapply Forall_impl; [exact Hpar|]. intros a Ha. by destruct (Hf a) as (_ & _ & _ & -> & _).
Qed.

(** What [remove_links] writes. *)
Lemma remove_links_fields p k q (o := optr (pr k p)) (y := yptr (pr k p)) (par := parent (pr k p)) :
  o <> p ->
  yptr (pr (remove_links p k) q) = (if decide (q = o /\ o <> 0) then y else yptr (pr k q)) /\
  optr (pr (remove_links p k) q) = (if decide (q = y /\ y <> 0) then o else optr (pr k q)) /\
  cptr (pr (remove_links p k) q) = (if decide (q = par /\ y = 0) then o else cptr (pr k q)) /\
  parent (pr (remove_links p k) q) = parent (pr k q) /\
  core (pr (remove_links p k) q) = core (pr k q).
Proof.
  intros Hop. unfold remove_links. cbv zeta. set (k1 := set_lists _ (nr_process k) k).
  change (pr k1 p) with (pr k p). fold o y.
  set (k2 := if negb (o =? 0) then upd_proc o (set_yptr y) k1 else k1).
  assert (H2 : forall x, pr k2 x = if decide (x = o /\ o <> 0) then set_yptr y (pr k x) else pr k x).
  { intros x. unfold k2. destruct (Z.eqb_spec o 0) as [Ho|Ho]; simpl.
    - rewrite decide_False by tauto. done.
    - rewrite pr_upd. destruct (decide (x = o)) as [Hx|Hx], (decide (x = o /\ o <> 0)); try tauto. by rewrite Hx. }
  clearbody k2. assert (Hp : pr k2 p = pr k p) by (rewrite H2, decide_False by (intros [? ?]; congruence); done).
  rewrite !Hp. fold o y par. change (pr (set_lists _ _ ?x) q) with (pr x q).
  destruct (Z.eqb_spec y 0) as [Hy|Hy]; simpl; rewrite pr_upd.
  - rewrite (decide_False (P := q = y /\ y <> 0)) by tauto.
    destruct (decide (q = par)) as [Hq|Hq];
      [rewrite (decide_True (P := q = par /\ y = 0)) by tauto; rewrite <- Hq
      |rewrite (decide_False (P := q = par /\ y = 0)) by tauto]; rewrite H2; by destruct (decide (q = o /\ o <> 0)).
  - rewrite (decide_False (P := q = par /\ y = 0)) by tauto.
    destruct (decide (q = y)) as [Hq|Hq];
      [rewrite (decide_True (P := q = y /\ y <> 0)) by tauto; rewrite <- Hq
      |rewrite (decide_False (P := q = y /\ y <> 0)) by tauto]; rewrite H2; by destruct (decide (q = o /\ o <> 0)).
Qed.

Lemma siblings_in k y p l a : siblings k y p l -> a ∈ l -> a <> 0.
Proof.
  revert y p. induction l as [|b l IH]; intros y p; simpl; [intros _ H; by apply elem_of_nil in H|].
  intros (-> & Hb & _ & Hs) [->|Ha]%elem_of_cons; [done|eauto].
Qed.

(** Unlinking [p] from a sibling list whose fields change as [remove_links]
    changes them. *)
Lemma siblings_remove k k' p l2 (o := optr (pr k p)) (y := yptr (pr k p)) : forall l1 y0 q0,
  siblings k y0 q0 (l1 ++ p :: l2) -> NoDup (l1 ++ p :: l2) -> y0 ∉ l1 ++ p :: l2 ->
  (forall q, yptr (pr k' q) = if decide (q = o /\ o <> 0) then y else yptr (pr k q)) ->
  (forall q, optr (pr k' q) = if decide (q = y /\ y <> 0) then o else optr (pr k q)) ->
  siblings k' y0 (if l1 is [] then o else q0) (l1 ++ l2) /\ (y = if last l1 is Some z then z else y0) /\ o ∉ l1.
Proof.
  induction l1 as [|b l1 IH]; intros y0 q0 Hs Hnd Hy0 Hy Ho; simpl in *.
  - destruct Hs as (-> & Hp & Hyp & Hs). fold y in Hyp. fold o in Hs. split_and!; [|done|apply not_elem_of_nil].
    apply NoDup_cons in Hnd as [Hpn Hnd]. apply not_elem_of_cons in Hy0 as [Hyp0 Hy0].
    destruct l2 as [|a l2]; simpl in Hs |- *; [done|]. destruct Hs as (Hoa & Ha & Hya & Hs).
    split_and!; [done|done|rewrite Hy, decide_True by (split; congruence); done|].
    rewrite Ho, decide_False by (intros [Hay _]; apply Hy0; rewrite <- Hyp, <- Hay; left).
    apply (siblings_ext k); [|done]. intros c Hc. apply NoDup_cons in Hnd as [Han _]. rewrite Hy, Ho.
    rewrite !decide_False; [done|..]; intros [Hcy ?];
      [apply Hy0; rewrite <- Hyp, <- Hcy; by right|congruence].
  - destruct Hs as (-> & Hb & Hyb & Hs). apply NoDup_cons in Hnd as [Hbn Hnd]. apply not_elem_of_cons in Hy0 as [Hyb0 Hy0].
    destruct (IH b (optr (pr k b)) Hs Hnd Hbn Hy Ho) as (Hs' & Hlast & Hol).
    assert (Hob : o <> b).
    { intros Heq. apply Hbn. rewrite <- Heq. apply elem_of_app. right. right. revert Hs. clear -Heq Hb.
      intros Hs. assert (Hx : forall l y1 q1, siblings k y1 q1 (l ++ p :: l2) -> o ∈ l2 \/ o = 0).
      { induction l as [|c l IHl]; intros y1 q1; simpl.
        - intros (_ & _ & _ & H). fold o in H. destruct l2; simpl in H; [by right|left]. destruct H as (-> & _). left.
        - intros (_ & _ & _ & H). eauto. }
      destruct (Hx _ _ _ Hs) as [H|H]; [done|congruence]. }
    assert (Hyl : y = if last (b :: l1) is Some z then z else y0).
    { rewrite Hlast. destruct l1 as [|c l1]; [done|]. destruct (list_snoc_cases c l1) as (l & z & ->).
      rewrite last_snoc. change (b :: l ++ [z]) with ((b :: l) ++ [z]). by rewrite last_snoc. }
    split_and!; [done|done| |  |exact Hyl|apply not_elem_of_cons; done].
    + rewrite Hy, decide_False; [done|]. intros [? ?]. congruence.
    + rewrite Ho. destruct l1 as [|c l1].
      * rewrite decide_True by (simpl in Hyl; split; congruence). exact Hs'.
      * rewrite decide_False; [exact Hs'|]. intros [Hby _]. apply Hbn. rewrite Hby, Hlast.
        destruct (list_snoc_cases c l1) as (l & z & ->). rewrite last_snoc, !elem_of_app. left. right. left.
Qed.

(** No process is its own older sibling. *)
Lemma older_not_self k p l2 : forall l1 y0 q0,
  siblings k y0 q0 (l1 ++ p :: l2) -> NoDup (l1 ++ p :: l2) -> optr (pr k p) <> p.
Proof.
  induction l1 as [|b l1 IH]; intros y0 q0; simpl.
  - intros (_ & Hp & _ & Hs) Hnd Heq. apply NoDup_cons in Hnd as [Hpn _]. rewrite Heq in Hs.
    destruct l2 as [|a l2]; simpl in Hs; [done|]. destruct Hs as (-> & _). apply Hpn. left.
  - intros (_ & _ & _ & Hs) Hnd. apply NoDup_cons in Hnd as [_ Hnd]. eauto.
Qed.

Lemma remove_links_children p k l1 l2 (par := parent (pr k p)) :
  children k par (l1 ++ p :: l2) -> children (remove_links p k) par (l1 ++ l2).
Proof.
  intros (Hs & Hnd & Hpar).
  pose proof (older_not_self _ _ _ _ _ _ Hs Hnd) as Hop.
  assert (H0 : 0 ∉ l1 ++ p :: l2) by (intros H0; by apply (siblings_in _ _ _ _ _ Hs H0)).
  pose proof (fun q => remove_links_fields p k q Hop) as Hf. cbv zeta in Hf. fold par in Hf.
  set (k' := remove_links p k) in *.
  destruct (siblings_remove k k' p l2 l1 0 (cptr (pr k par)) Hs Hnd H0) as (Hs' & Hlast & _).
  { intros q. by destruct (Hf q) as (-> & _). }
  { intros q. by destruct (Hf q) as (_ & -> & _). }
  split_and!.
  - destruct (Hf par) as (_ & _ & -> & _). rewrite Hlast. destruct l1 as [|b l1].
    + rewrite decide_True by done. exact Hs'.
    + rewrite decide_False; [exact Hs'|]. intros [_ Hz]. apply H0. rewrite <- Hz.
      destruct (list_snoc_cases b l1) as (l & z & ->). rewrite last_snoc, !elem_of_app. left. right. left.
  - apply NoDup_app in Hnd as (H1 & H2 & H3). apply NoDup_cons in H3 as [_ H3]. apply NoDup_app. split_and!; try done.
    intros x Hx Hx2. apply (H2 x Hx). by right.
  - apply Forall_app in Hpar as [Hp1 Hp2]. apply Forall_cons in Hp2 as [_ Hp2].
    apply Forall_app. split; (eapply Forall_impl; [eassumption|]); intros a Ha; by destruct (Hf a) as (_ & _ & _ & -> & _).
Qed.

(** ** Handing the children over *)
Lemma adopt_fields p k q (o := optr (pr k p)) (older := cptr (pr k (initproc k))) :
  p <> cur k -> p <> initproc k -> initproc k <> cur k -> older <> p ->
  yptr (pr (adopt p k) q) = (if decide (q = older /\ older <> 0) then p else if decide (q = p) then 0 else yptr (pr k q)) /\
  optr (pr (adopt p k) q) = (if decide (q = p) then older else optr (pr k q)) /\
  cptr (pr (adopt p k) q) = (if decide (q = initproc k) then p else if decide (q = cur k) then o else cptr (pr k q)) /\
  parent (pr (adopt p k) q) = (if decide (q = p) then initproc k else parent (pr k q)) /\
  core (pr (adopt p k) q) = core (pr k q).
Proof.
  intros Hpc Hpi Hic Hop. unfold adopt. cbv zeta. fold o. set (k1 := upd_proc (cur k) (set_cptr o) k).
  assert (H1 : forall x, pr k1 x = if decide (x = cur k) then set_cptr o (pr k (cur k)) else pr k x) by (intros; apply pr_upd).
  set (k2 := upd_proc p (set_yptr 0) k1). change (initproc k2) with (initproc k).
  assert (H2 : forall x, pr k2 x = if decide (x = p) then set_yptr 0 (pr k p) else pr k1 x).
  { intros x. unfold k2. rewrite pr_upd. rewrite (H1 p), (decide_False (P := p = cur k)) by done. done. }
  assert (Hol : cptr (pr k2 (initproc k)) = older).
  { rewrite H2, decide_False, H1, decide_False by congruence. done. }
  rewrite Hol. set (k3 := upd_proc p (set_optr older) k2).
  assert (H3 : forall x, pr k3 x = if decide (x = p) then set_optr older (set_yptr 0 (pr k p)) else pr k1 x).
  { intros x. unfold k3. rewrite pr_upd, !H2. rewrite (decide_True (P := p = p)) by done. by destruct (decide (x = p)). }
  set (k4 := if negb (older =? 0) then upd_proc older (set_yptr p) k3 else k3).
  assert (H4 : forall x, pr k4 x = if decide (x = older /\ older <> 0) then set_yptr p (pr k3 x) else pr k3 x).
  { intros x. unfold k4. destruct (Z.eqb_spec older 0) as [Ho|Ho]; simpl.
    - rewrite decide_False by tauto. done.
    - rewrite pr_upd. destruct (decide (x = older)) as [Hx|Hx], (decide (x = older /\ older <> 0)); try tauto. by rewrite Hx. }
  assert (Hi4 : initproc k4 = initproc k) by (unfold k4; by destruct (negb (older =? 0))). rewrite Hi4.
  clearbody k1 k2 k3 k4. change (initproc (upd_proc p _ k4)) with (initproc k4). rewrite Hi4, !pr_upd.
  rewrite (decide_False (P := initproc k = p)) by done. rewrite !H4, !H3, !H1.
  rewrite (decide_True (P := p = p)), (decide_False (P := p = older /\ older <> 0)) by (done || (intros [? ?]; congruence)).
  rewrite (decide_False (P := initproc k = p)), (decide_False (P := initproc k = cur k)) by congruence.
  destruct (decide (q = initproc k)) as [->|Hq].
  - rewrite !(decide_False (P := initproc k = p)) by congruence. by destruct (decide (initproc k = older /\ older <> 0)).
  - destruct (decide (q = p)) as [->|Hqp].
    + rewrite !(decide_False (P := p = older /\ older <> 0)), !(decide_False (P := p = cur k)) by (congruence || (intros [? ?]; congruence)).
      done.
    + destruct (decide (q = older /\ older <> 0)), (decide (q = cur k)) as [->|]; done.
Qed.

(** Changing other fields of a process leaves what [rest] names. *)
Definition same_rest (k k' : kern) : Prop := forall q, rest (pr k' q) = rest (pr k q).

Lemma rest_upd p f k : (forall x, rest (f x) = rest x) -> same_rest k (upd_proc p f k).
Proof. intros Hf q. rewrite pr_upd. case_decide; [subst; apply Hf|done]. Qed.

Lemma adopt_rest p k : same_rest k (adopt p k).
Proof.
  intros q. unfold adopt. cbv zeta. case_match; rewrite !rest_upd by done; done.
Qed.

(** The ancestors [ts] of a thread, from [p] up to its main process. *)
Fixpoint up (k : kern) (p : Z) (ts : list Z) (father : Z) : Prop :=
  match ts with
  | [] => p = father /\ is_thread (pr k p) = 0
  | t :: ts => p = t /\ is_thread (pr k p) <> 0 /\ up k (parent (pr k p)) ts father
  end.

Lemma main_thread_spec k father ts : forall fuel p,
  up k p ts father -> (length ts < fuel)%nat -> main_thread fuel k p = Ok father.
Proof.
  induction ts as [|t ts IH]; intros [|fuel] p Hu Hf; simpl in *; try lia.
  - destruct Hu as [-> ->]. done.
  - destruct Hu as (_ & Ht & Hu). rewrite (proj2 (Z.eqb_neq _ _) Ht). cbn [negb]. apply IH; [done|lia].
Qed.

Lemma up_ext k k' father ts : forall p,
  (forall q, is_thread (pr k' q) = is_thread (pr k q) /\ parent (pr k' q) = parent (pr k q)) ->
  up k p ts father -> up k' p ts father.
Proof.
  induction ts as [|t ts IH]; intros p Hx; simpl; destruct (Hx p) as [Ha Hb]; rewrite ?Ha, ?Hb; [done|]. intros (? & ? & ?). auto.
Qed.

Section Laws.
Context (Q : RQ * ptable -> list Z -> Prop) `{!SchedLaws class Q} `{!KeepsRest class}.

Lemma wakeup_rest p (x x' : sched) :
  wakeup_proc class p x = Ok x' -> forall q, rest (the_proc x' q) = rest (the_proc x q).
Proof.
  unfold wakeup_proc. intros (_ & _ & H)%res_bind_inv q. revert H.
  set (t := pupd p _ (procs x)).
  assert (Ht : rest (pget t q) = rest (the_proc x q)) by (unfold t; rewrite pget_pupd; case_decide; subst; done).
  destruct (negb (bool_decide _)); intros [= <-]; [|done]. unfold sched_class_enqueue. simpl.
  destruct (p =? current x), (p =? idleproc x); simpl; try exact Ht.
  unfold the_proc. simpl. rewrite enqueue_rest. exact Ht.
Qed.

(** The tail of a step of [reparent]: waking [initproc] keeps the links. *)
Lemma maybe_wake_links (b : bool) p k :
  state (pr k p) <> PROC_ZOMBIE ->
  exists k', (if b then x ← wakeup_proc class p (sc k); Ok (set_sc x k) else Ok k) = Ok k' /\
    (forall q, links (pr k' q) = links (pr k q)) /\ cur k' = cur k /\ initproc k' = initproc k /\
    state (pr k' p) <> PROC_ZOMBIE /\ effects k' = effects k /\
    (forall q, q <> p -> core (pr k' q) = core (pr k q)) /\
    (if b then state (pr k' p) = PROC_RUNNABLE else core (pr k' p) = core (pr k p)) /\ same_rest k k'.
Proof.
  intros Hz. destruct b; [|by exists k].
  destruct (wakeup_core class Q p (sc k) Hz) as (x & Heq & _ & _ & Hc & _ & Hst & _ & Ho). rewrite Heq, res_bind_ok.
  exists (set_sc x k). split_and!; try done.
  - intros q. apply (wakeup_links class Q p (sc k) x Heq q).
  - unfold pr. simpl. by rewrite Hst.
  - intros q. by apply (wakeup_rest p (sc k) x).
Qed.

(** A child handed over is a zombie and [initproc] is waiting for one. *)
Definition orphan_wakes (k : kern) (l : list Z) : Prop :=
  wait_state (pr k (initproc k)) = WT_CHILD /\ Exists (fun a => state (pr k a) = PROC_ZOMBIE) l.
#[global] Instance orphan_wakes_dec k l : Decision (orphan_wakes k l).
Proof. unfold orphan_wakes. apply _. Defined.

Lemma children_links k k' p l :
  (forall q, links (pr k' q) = links (pr k q)) -> children k p l -> children k' p l.
Proof.
  intros Hl (Hs & Hnd & Hp). assert (Hf : forall q, parent (pr k' q) = parent (pr k q) /\ cptr (pr k' q) = cptr (pr k q) /\
    yptr (pr k' q) = yptr (pr k q) /\ optr (pr k' q) = optr (pr k q)).
  { intros q. specialize (Hl q). by injection Hl. }
  split_and!; [|done|].
  - destruct (Hf p) as (_ & -> & _). apply (siblings_ext k); [|done]. intros a _. by destruct (Hf a) as (_ & _ & -> & ->).
  - eapply Forall_impl; [exact Hp|]. intros a Ha. by destruct (Hf a) as (-> & _).
Qed.

Lemma reparent_spec l : forall fuel k m,
  older_chain k (cptr (pr k (cur k))) l -> children k (initproc k) m -> NoDup (l ++ m) ->
  initproc k <> cur k -> cur k ∉ l -> initproc k ∉ l -> state (pr k (initproc k)) <> PROC_ZOMBIE ->
  (length l < fuel)%nat ->
  exists k', reparent fuel k = Ok k' /\ children k' (initproc k) (rev l ++ m) /\
    cptr (pr k' (cur k)) = 0 /\ cur k' = cur k /\ effects k' = effects k /\
    (forall q, q <> initproc k -> state (pr k' q) = state (pr k q)) /\
    state (pr k' (initproc k)) = (if decide (orphan_wakes k l) then PROC_RUNNABLE else state (pr k (initproc k))) /\
    same_rest k k'.
Proof.
  induction l as [|a l IH]; intros fuel k m Hc Hm Hnd Hic Hcl Hil Hz Hf; (destruct fuel as [|fuel]; [simpl in Hf; lia|]);
    cbn [reparent]; simpl in Hc.
  { rewrite Hc. change (negb (0 =? 0)) with false. cbv iota. exists k. split_and!; try done.
    rewrite decide_False; [done|]. by intros [_ ?%Exists_nil]. }
  destruct Hc as (Ha & Ha0 & Hc). rewrite Ha. rewrite (proj2 (Z.eqb_neq a 0)) by done. cbn [negb].
  apply not_elem_of_cons in Hcl as [Hca Hcl], Hil as [Hia Hil].
  change ((a :: l) ++ m) with (a :: (l ++ m)) in Hnd. apply NoDup_cons in Hnd as [Han Hnd].
  pose proof Han as Hx. apply not_elem_of_app in Hx as [Hal Ham]. destruct Hm as (Hs & Hndm & Hpm).
  assert (Hol : cptr (pr k (initproc k)) <> a).
  { destruct m as [|b m]; simpl in Hs; [congruence|]. destruct Hs as (-> & _). intros ->. apply Ham. left. }
  pose proof (fun q => adopt_fields a k q ltac:(congruence) ltac:(congruence) Hic Hol) as Hfld. cbv zeta in Hfld.
  pose proof (adopt_rest a k) as Hra. set (k1 := adopt a k) in *.
  assert (Hi1 : initproc k1 = initproc k /\ cur k1 = cur k /\ effects k1 = effects k) by (unfold k1, adopt; cbv zeta; by destruct (negb _)).
  destruct Hi1 as (Hi1 & Hcu1 & He1). clearbody k1. rewrite Hi1.
  match goal with |- context [if ?b then _ else Ok k1] => destruct (maybe_wake_links b (initproc k) k1) as (k2 & Heq & Hl2 & Hcu2 & Hi2 & Hz2 & He2 & Hco2 & Hw2 & Hr2) end.
  { destruct (Hfld (initproc k)) as (_ & _ & _ & _ & Hco). injection Hco as -> _ _. done. }
  rewrite Heq, res_bind_ok.
  assert (Hfs : forall q, cptr (pr k2 q) = cptr (pr k1 q) /\ optr (pr k2 q) = optr (pr k1 q))
    by (intros q; specialize (Hl2 q); by injection Hl2).
  assert (Hst2 : forall q, q <> initproc k -> state (pr k2 q) = state (pr k q)).
  { intros q Hq. specialize (Hco2 q Hq). injection Hco2 as -> _ _. destruct (Hfld q) as (_ & _ & _ & _ & Hco). by injection Hco. }
  assert (Hco1 : core (pr k1 (initproc k)) = core (pr k (initproc k))) by apply Hfld.
  assert (Hsa : state (pr k1 a) = state (pr k a)) by (destruct (Hfld a) as (_ & _ & _ & _ & Hco); by injection Hco).
  destruct (IH fuel k2 (a :: m)) as (k' & Heq' & Hch & Hcp & Hcu' & He' & Hst' & Hsi & Hre).
  - rewrite Hcu2, Hcu1. destruct (Hfs (cur k)) as (-> & _). destruct (Hfld (cur k)) as (_ & _ & -> & _).
    rewrite decide_False, decide_True by congruence. apply (older_ext k); [|done].
    intros b Hb. destruct (Hfs b) as (_ & ->). destruct (Hfld b) as (_ & -> & _). rewrite decide_False; [done|].
    intros ->. done.
  - rewrite Hi2, Hi1. apply (children_links k1); [done|]. split_and!; [|by apply NoDup_cons|].
    + destruct (Hfld (initproc k)) as (_ & _ & -> & _). rewrite decide_True by done.
      apply (siblings_push k k1 a (cptr (pr k (initproc k)))); try done; intros q; by destruct (Hfld q) as (? & ? & _).
    + constructor; [destruct (Hfld a) as (_ & _ & _ & -> & _); by rewrite decide_True|].
      eapply Forall_impl; [exact Hpm|]. intros b Hb. destruct (Hfld b) as (_ & _ & _ & -> & _). by destruct (decide (b = a)).
  - rewrite <- Permutation_middle. by apply NoDup_cons.
  - by rewrite Hi2, Hi1, Hcu2, Hcu1.
  - by rewrite Hcu2, Hcu1.
  - by rewrite Hi2, Hi1.
  - by rewrite Hi2, Hi1.
  - simpl in Hf. lia.
  - assert (Ho : orphan_wakes k2 l <-> wait_state (pr k2 (initproc k)) = WT_CHILD /\ Exists (fun b => state (pr k2 b) = PROC_ZOMBIE) l)
      by (unfold orphan_wakes; by rewrite Hi2, Hi1).
    rewrite Hi2, Hi1, Hcu2, Hcu1 in *. exists k'. rewrite Heq'. split_and!; try done; [|congruence|..].
    + cbn [rev]. by rewrite <- app_assoc.
    + intros q Hq. rewrite Hst' by done. by apply Hst2.
    + rewrite Hsi. clear Hsi IH. injection Hco1 as Hs1 _ Hwt1. rewrite Hsa, Hwt1 in Hw2.
      assert (Hex : Exists (fun b => state (pr k2 b) = PROC_ZOMBIE) l <-> Exists (fun b => state (pr k b) = PROC_ZOMBIE) l).
      { rewrite !Exists_exists. split; intros (b & Hb & Hzb); exists b; (split; [done|]); rewrite <- Hzb; [symmetry|];
          apply Hst2; by intros ->. }
      assert (Hok : orphan_wakes k (a :: l) <-> wait_state (pr k (initproc k)) = WT_CHILD /\
        (state (pr k a) = PROC_ZOMBIE \/ Exists (fun b => state (pr k b) = PROC_ZOMBIE) l))
        by (unfold orphan_wakes; by rewrite Exists_cons).
      destruct (bool_decide_reflect (state (pr k a) = PROC_ZOMBIE)), (Z.eqb_spec (wait_state (pr k (initproc k))) WT_CHILD);
        cbn [andb] in Hw2; [rewrite Hw2, (decide_True (P := orphan_wakes k (a :: l))) by tauto; by destruct (decide (orphan_wakes k2 l))|..];
        injection Hw2 as Hs2 _ Hw2; rewrite Hs2, Hs1; rewrite Hw2, Hwt1 in Ho;
        destruct (decide (orphan_wakes k2 l)), (decide (orphan_wakes k (a :: l))); try done; exfalso; tauto.
    + intros q. by rewrite Hre, Hr2, Hra.
Qed.

(** ** Exit *)

(** What is released on exit, in this order: the use of the address space [m],
    the space itself with its last user, and the file table [f]. *)
Definition exit_effects (last_user : bool) (m f : Z) : list effect :=
  (if decide (m = 0) then [] else MmDec m :: if last_user then [ExitMmap m; PutPgdir m; MmDestroy m] else []) ++
  (if decide (f = 0) then [] else [PutFs f]).

(** The first part of [do_exit]: only [mm] of the process changes. *)
Lemma exit_release_spec (last_user : bool) k (m := mm (pr k (cur k)))
    (k1 := let k := if negb (m =? 0) then
             let k := eff (MmDec m) k in
             let k := if last_user then eff (MmDestroy m) (eff (PutPgdir m) (eff (ExitMmap m) k)) else k in
             upd_proc (cur k) (set_mm 0) k
           else k in put_fs (cur k) k) :
  (forall q, pr k1 q = if decide (q = cur k) then set_mm 0 (pr k q) else pr k q) /\
  cur k1 = cur k /\ initproc k1 = initproc k /\
  effects k1 = effects k ++ exit_effects last_user m (filesp (pr k (cur k))).
Proof.
  unfold k1, put_fs, exit_effects. cbv zeta.
  assert (H0 : m = 0 -> forall q, pr k q = if decide (q = cur k) then set_mm 0 (pr k q) else pr k q).
  { intros Hm q. case_decide; [|done]. subst q. unfold m in Hm. destruct (pr k (cur k)). simpl in *. by subst. }
  assert (Hu : forall k0 q, (forall x, pr k0 x = pr k x) ->
    pr (upd_proc (cur k) (set_mm 0) k0) q = if decide (q = cur k) then set_mm 0 (pr k q) else pr k q).
  { intros k0 q Hx. rewrite pr_upd, !Hx. case_decide; by subst. }
  destruct (Z.eqb_spec m 0) as [Hm|Hm]; cbn [negb].
  - rewrite (decide_True _ _ Hm). destruct (Z.eqb_spec (filesp (pr k (cur k))) 0) as [Hf|Hf]; cbn [negb];
      [rewrite decide_True by done|rewrite decide_False by done]; rewrite ?app_nil_r; (split_and!; try done; intros q; apply (H0 Hm)).
  - rewrite (decide_False _ _ Hm).
    assert (Hfs : forall k0, (forall x, pr k0 x = pr k x) -> filesp (pr (upd_proc (cur k) (set_mm 0) k0) (cur k)) = filesp (pr k (cur k))).
    { intros k0 Hx. rewrite (Hu k0 _ Hx), decide_True by done. done. }
    destruct last_user; cbn [cur eff]; rewrite Hfs by done;
      (destruct (Z.eqb_spec (filesp (pr k (cur k))) 0) as [Hf|Hf]; cbn [negb];
       [rewrite decide_True by done|rewrite decide_False by done]);
      (split_and!; [intros q; exact (Hu (eff (MmDec m) k) q (fun _ => eq_refl))|done|done|]);
      cbn [effects eff upd_proc set_sc]; by rewrite <- ?app_assoc.
Qed.

(** Whom the exit wakes: a parent waiting for a child, and a waiting
    [initproc] that is given a zombie among the children [l]. *)
Definition exit_wakes (k : kern) (l : list Z) (q : Z) : Prop :=
  wait_state (pr k q) = WT_CHILD /\
  (q = parent (pr k (cur k)) \/ (q = initproc k /\ Exists (fun a => state (pr k a) = PROC_ZOMBIE) l)).
#[global] Instance exit_wakes_dec k l q : Decision (exit_wakes k l q).
Proof. unfold exit_wakes. apply _. Defined.

(** From the zombie mark on. *)
Lemma exit_tail_spec (fuel : nat) (k : kern) (l m : list Z) :
  let par := parent (pr k (cur k)) in
  initproc k <> cur k -> par <> cur k ->
  children k (cur k) l -> children k (initproc k) m -> NoDup (l ++ m) ->
  cur k ∉ l -> initproc k ∉ l -> state (pr k (initproc k)) <> PROC_ZOMBIE -> state (pr k par) <> PROC_ZOMBIE ->
  (length l < fuel)%nat ->
  exists k', (k ← (if wait_state (pr k par) =? WT_CHILD then x ← wakeup_proc class par (sc k); Ok (set_sc x k) else Ok k);
              reparent fuel k) = Ok k' /\
    cptr (pr k' (cur k)) = 0 /\ children k' (initproc k) (rev l ++ m) /\ effects k' = effects k /\
    (forall q, state (pr k' q) = if decide (exit_wakes k l q) then PROC_RUNNABLE else state (pr k q)) /\
    same_rest k k'.
Proof.
  intros par Hinit Hpc Hl Hm Hnd Hcl Hil Hzi Hzp Hf.
  destruct (maybe_wake_links (wait_state (pr k par) =? WT_CHILD) par k Hzp) as
    (k3 & -> & Hl3 & Hcu3 & Hin3 & Hz3 & He3 & Hc3 & Hw3 & Hr3). rewrite res_bind_ok.
  assert (Hzz : forall q, state (pr k3 q) = PROC_ZOMBIE <-> state (pr k q) = PROC_ZOMBIE).
  { intros q. destruct (decide (q = par)) as [->|Hq]; [done|]. specialize (Hc3 q Hq). by injection Hc3 as -> _ _. }
  destruct (reparent_spec l fuel k3 m) as (k' & Heq' & Hch & Hcp & _ & He' & Hst & Hsi & Hre); rewrite ?Hcu3, ?Hin3 in *; try done.
  - apply (siblings_older k3 0). apply (children_links k k3 (cur k) l Hl3 Hl).
  - by apply (children_links k).
  - by rewrite Hzz.
  - exists k'. split_and!; try done; [congruence| |intros q; by rewrite Hre, Hr3].
    assert (Hex : Exists (fun a => state (pr k3 a) = PROC_ZOMBIE) l <-> Exists (fun a => state (pr k a) = PROC_ZOMBIE) l)
      by (rewrite !Exists_exists; split; intros (b & Hb & Hzb); exists b; (split; [done|]); by apply Hzz).
    assert (Ho : orphan_wakes k3 l <-> wait_state (pr k3 (initproc k)) = WT_CHILD /\ Exists (fun a => state (pr k a) = PROC_ZOMBIE) l)
      by (unfold orphan_wakes; by rewrite Hin3, Hex).
    assert (Hoth : forall q, q <> par -> state (pr k3 q) = state (pr k q) /\ wait_state (pr k3 q) = wait_state (pr k q)).
    { intros q Hq. specialize (Hc3 q Hq). by injection Hc3. }
    assert (Hpa : if decide (wait_state (pr k par) = WT_CHILD) then state (pr k3 par) = PROC_RUNNABLE
      else state (pr k3 par) = state (pr k par) /\ wait_state (pr k3 par) = wait_state (pr k par)).
    { destruct (Z.eqb_spec (wait_state (pr k par)) WT_CHILD); [by rewrite decide_True|rewrite decide_False by done]. by injection Hw3. }
    intros q. unfold exit_wakes. fold par. destruct (decide (q = par)) as [->|Hq].
    + destruct (decide (par = initproc k)) as [He|He].
      * rewrite <- He in *. rewrite Hsi. destruct (decide (wait_state (pr k par) = WT_CHILD)) as [Hw|Hw].
        { rewrite (decide_True (P := wait_state (pr k par) = WT_CHILD /\ _)) by tauto. rewrite Hpa. by destruct (decide (orphan_wakes k3 l)). }
        destruct Hpa as [Hsp Hwp]. rewrite Hsp, !decide_False by (rewrite ?Ho, ?Hwp; tauto). done.
      * rewrite Hst by done. destruct (decide (wait_state (pr k par) = WT_CHILD)) as [Hw|Hw];
          [rewrite decide_True by tauto|rewrite decide_False by tauto]; tauto.
    + destruct (Hoth q Hq) as [Hs Hw]. destruct (decide (q = initproc k)) as [->|He].
      * rewrite Hsi, Hs. rewrite Hw in Ho. destruct (decide (orphan_wakes k3 l)); [rewrite decide_True by tauto|rewrite decide_False by tauto]; done.
      * rewrite Hst, Hs by done. rewrite decide_False by tauto. done.
Qed.

(** The descriptors when the zombie mark is set. *)
Definition exit_mark (k : kern) (code father q : Z) : proc_struct :=
  let p := if decide (is_thread (pr k (cur k)) <> 0 /\ q = father)
           then set_slot (stack_num (pr k (cur k))) 0 (pr k q) else pr k q in
  if decide (q = cur k) then set_exit_code code (set_state PROC_ZOMBIE (set_mm 0 p)) else p.

Lemma exit_mark_fields k code father q :
  links (exit_mark k code father q) = links (pr k q) /\
  (q <> cur k -> core (exit_mark k code father q) = core (pr k q)).
Proof. unfold exit_mark. cbv zeta. split; [|intros ?]; repeat case_decide; try done. Qed.

(** The rest of [do_exit] runs with these. *)
Lemma exit_marks (fuel : nat) (last_user : bool) (code : Z) (k : kern) (ts : list Z) (father : Z) :
  let par := parent (pr k (cur k)) in
  cur k <> idleproc (sc k) -> initproc k <> cur k ->
  (is_thread (pr k (cur k)) <> 0 -> up k par ts father /\ (length ts < fuel)%nat) ->
  exists k', do_exit fuel last_user code k =
      (k ← (if wait_state (pr k' par) =? WT_CHILD then x ← wakeup_proc class par (sc k'); Ok (set_sc x k') else Ok k');
       reparent fuel k) /\
    cur k' = cur k /\ initproc k' = initproc k /\
    effects k' = effects k ++ exit_effects last_user (mm (pr k (cur k))) (filesp (pr k (cur k))) /\
    (forall q, pr k' q = exit_mark k code father q).
Proof.
  intros par Hidle Hinit Hth.
  unfold do_exit. rewrite (proj2 (Z.eqb_neq (cur k) (idleproc (sc k)))) by done.
  rewrite (proj2 (Z.eqb_neq (cur k) (initproc k))) by congruence.
  change (kassert (negb false)) with (Ok tt). rewrite !res_bind_ok.
  destruct (exit_release_spec last_user k) as (Hpr & Hcu & Hin & Heff). cbv zeta in *.
  set (k1 := put_fs _ _) in *. clearbody k1. rewrite Hcu in *.
  assert (Ht1 : is_thread (pr k1 (cur k)) = is_thread (pr k (cur k)) /\ stack_num (pr k1 (cur k)) = stack_num (pr k (cur k)) /\
    parent (pr k1 (cur k)) = par) by (rewrite Hpr, decide_True by done; done).
  destruct Ht1 as (Ht1 & Hn1 & Hp1). rewrite Ht1, Hn1, Hp1.
  assert (Hslot : exists k2, (if negb (is_thread (pr k (cur k)) =? 0) then
      father0 ← main_thread fuel k1 par; Ok (upd_proc father0 (set_slot (stack_num (pr k (cur k))) 0) k1) else Ok k1) = Ok k2 /\
    cur k2 = cur k /\ initproc k2 = initproc k /\ effects k2 = effects k1 /\
    forall q, pr k2 q = if decide (is_thread (pr k (cur k)) <> 0 /\ q = father)
                        then set_slot (stack_num (pr k (cur k))) 0 (pr k1 q) else pr k1 q).
  { destruct (Z.eqb_spec (is_thread (pr k (cur k))) 0) as [H0|H0]; cbn [negb].
    - exists k1. split_and!; try done. intros q. by rewrite decide_False by tauto.
    - destruct (Hth H0) as (Hup & Hts). rewrite (main_thread_spec k1 father ts), res_bind_ok; [..|done].
      + eexists. split_and!; try done. intros q. rewrite pr_upd. repeat case_decide; subst; tauto.
      + apply (up_ext k); [|done]. intros q. rewrite Hpr. by case_decide. }
  destruct Hslot as (k2 & -> & Hcu2 & Hin2 & He2 & Hpr2). rewrite res_bind_ok, Hcu2.
  assert (Hmark : forall q, pr (upd_proc (cur k) (fun p => set_exit_code code (set_state PROC_ZOMBIE p)) k2) q = exit_mark k code father q).
  { intros q. unfold exit_mark. cbv zeta. rewrite pr_upd, !Hpr2, !Hpr.
    destruct (decide (q = cur k)) as [->|]; [|done].
    rewrite (decide_True (P := cur k = cur k)) by done. by destruct (decide (is_thread (pr k (cur k)) <> 0 /\ cur k = father)). }
  set (k3 := upd_proc _ _ k2) in *. assert (Hcu3 : cur k3 = cur k) by exact Hcu2.
  assert (Hp3 : parent (pr k3 (cur k)) = par).
  { rewrite Hmark. destruct (exit_mark_fields k code father (cur k)) as [Hl _]. by injection Hl. }
  exists k3. rewrite Hcu3, Hp3. split_and!; try done. transitivity (effects k2); [done|congruence].
Qed.

(** C35: [do_exit], up to its call of [schedule], of a process that is neither
    idle nor init leaves it a zombie with the given exit code, no address
    space and no children.  Its children, in reverse order, are in front of
    the children of init, whose family list stays well formed.  Runnable
    again are exactly its parent, if that waits for a child, and init, if that
    does and one of the children given to it is a zombie; no other process
    changes state.  The address space is given up, destroyed with its last
    user, and the file table released.  If the process is a thread, its stack
    slot in the main process [father], reached over the threads [ts], is free
    again; no other stack slot and nothing else of [rest] changes. *)
Theorem do_exit_correct (fuel : nat) (last_user : bool) (code : Z) (k : kern) (l m ts : list Z) (father : Z) :
  let par := parent (pr k (cur k)) in
  cur k <> idleproc (sc k) -> initproc k <> cur k -> par <> cur k ->
  children k (cur k) l -> children k (initproc k) m -> NoDup (l ++ m) ->
  cur k ∉ l -> initproc k ∉ l ->
  state (pr k (initproc k)) <> PROC_ZOMBIE -> state (pr k par) <> PROC_ZOMBIE ->
  (is_thread (pr k (cur k)) <> 0 -> up k par ts father /\ (length ts < fuel)%nat /\
    0 <= stack_num (pr k (cur k)) < Z.of_nat (length (stack (pr k father)))) ->
  (length l < fuel)%nat ->
  exists k', do_exit fuel last_user code k = Ok k' /\
    exit_code (pr k' (cur k)) = code /\ mm (pr k' (cur k)) = 0 /\
    cptr (pr k' (cur k)) = 0 /\ children k' (initproc k) (rev l ++ m) /\
    (forall q, state (pr k' q) = if decide (q = cur k) then PROC_ZOMBIE
                                 else if decide (exit_wakes k l q) then PROC_RUNNABLE else state (pr k q)) /\
    effects k' = effects k ++ exit_effects last_user (mm (pr k (cur k))) (filesp (pr k (cur k))) /\
    (forall q, stack (pr k' q) = if decide (is_thread (pr k (cur k)) <> 0 /\ q = father)
                                 then <[Z.to_nat (stack_num (pr k (cur k))) := 0]> (stack (pr k q)) else stack (pr k q)) /\
    (forall q, q <> cur k -> rest (set_stack [] (pr k' q)) = rest (set_stack [] (pr k q))).
Proof.
  intros par Hidle Hinit Hpc Hl Hm Hnd Hcl Hil Hzi Hzp Hth Hf.
  destruct (exit_marks fuel last_user code k ts father) as (k1 & -> & Hcu & Hin & He & Hpr); [done|done|naive_solver|].
  assert (Hmf : forall q, links (pr k1 q) = links (pr k q) /\ (q <> cur k -> core (pr k1 q) = core (pr k q)))
    by (intros q; rewrite Hpr; apply exit_mark_fields).
  assert (Hl1 : forall q, links (pr k1 q) = links (pr k q)) by (intros q; apply Hmf).
  assert (Hp1 : parent (pr k1 (cur k1)) = par) by (rewrite Hcu; specialize (Hl1 (cur k)); by injection Hl1).
  assert (Hs1 : forall q, q <> cur k -> state (pr k1 q) = state (pr k q) /\ wait_state (pr k1 q) = wait_state (pr k q)).
  { intros q Hq. destruct (Hmf q) as [_ Hc]. specialize (Hc Hq). by injection Hc. }
  destruct (exit_tail_spec fuel k1 l m) as (k' & Heq & Hcp & Hch & He' & Hst & Hre);
    rewrite ?Hp1, ?Hcu, ?Hin; try done; try (by apply (children_links k)); try (by rewrite (proj1 (Hs1 _ Hpc))); try (by rewrite (proj1 (Hs1 _ Hinit))).
  rewrite Hp1 in Heq. rewrite Hcu in Hcp. rewrite Hin in Hch. exists k'.
  assert (Hz1 : state (pr k1 (cur k)) = PROC_ZOMBIE) by (rewrite Hpr; unfold exit_mark; by rewrite decide_True).
  assert (Hex : Exists (fun a => state (pr k1 a) = PROC_ZOMBIE) l <-> Exists (fun a => state (pr k a) = PROC_ZOMBIE) l).
  { rewrite !Exists_exists. split; intros (b & Hb & Hzb); exists b; (split; [done|]); rewrite <- Hzb; [symmetry|];
      apply Hs1; by intros ->. }
  pose proof (Hre (cur k)) as Hrc. unfold rest in Hrc. injection Hrc as _ Hmm _ Hec _ _ _ _.
  split_and!; try done.
  - rewrite Hec, Hpr. unfold exit_mark. by rewrite decide_True.
  - rewrite Hmm, Hpr. unfold exit_mark. by rewrite decide_True.
  - intros q. rewrite Hst. destruct (decide (q = cur k)) as [->|Hq].
    + rewrite Hz1, decide_False; [done|]. unfold exit_wakes. rewrite Hp1, Hin. intros [_ [?|[? _]]]; congruence.
    + assert (Hw : exit_wakes k1 l q <-> exit_wakes k l q) by (unfold exit_wakes; by rewrite Hp1, Hin, Hex, (proj2 (Hs1 q Hq))).
      rewrite (proj1 (Hs1 q Hq)). by apply decide_ext.
  - congruence.
  - intros q. specialize (Hre q). unfold rest in Hre. injection Hre as _ _ _ _ _ _ _ ->. rewrite Hpr. unfold exit_mark.
    repeat case_decide; done.
  - intros q Hq. specialize (Hre q). unfold rest in Hre |- *. cbn [kstack mm flags exit_code filesp is_thread stack_num stack set_stack]. injection Hre as -> -> -> -> -> -> -> _. rewrite Hpr. unfold exit_mark.
    rewrite (decide_False (P := q = cur k)) by done. by case_decide.
Qed.

(** ** The pid registry: the process list and the hash chains agree *)
Definition pids (k : kern) : list Z := (fun p => pid (pr k p)) <$> proc_list k.

Record registry (k : kern) : Prop := {
  reg_in : forall p, p ∈ proc_list k -> p ∈ chain k (pid_hashfn (pid (pr k p)));
  reg_out : forall i p, p ∈ chain k i -> p ∈ proc_list k;
  reg_pids : NoDup (pids k)
}.

Lemma find_in_spec k l n :
  match find_in k l n with Some p => p ∈ l /\ pid (pr k p) = n | None => forall p, p ∈ l -> pid (pr k p) <> n end.
Proof.
  induction l as [|q l IH]; simpl; [intros p Hp; by apply elem_of_nil in Hp|].
  destruct (Z.eqb_spec (pid (pr k q)) n) as [He|He]; [split; [left|done]|].
  destruct (find_in k l n) as [p|]; [destruct IH; split; [by right|done]|].
  intros p [->|Hp]%elem_of_cons; [done|by apply IH].
Qed.

Lemma pid_unique k p q : NoDup (pids k) -> p ∈ proc_list k -> q ∈ proc_list k -> pid (pr k p) = pid (pr k q) -> p = q.
Proof.
  intros Hnd Hp Hq He. apply list_elem_of_lookup in Hp as [i Hi], Hq as [j Hj].
  assert (i = j) as ->; [|congruence].
  eapply NoDup_lookup; [exact Hnd| |]; unfold pids; rewrite list_lookup_fmap; [rewrite Hi; reflexivity|rewrite Hj; simpl; by rewrite He].
Qed.

Lemma find_proc_spec k n :
  registry k -> 0 < n < MAX_PID ->
  match find_proc n k with
  | Some p => p ∈ proc_list k /\ pid (pr k p) = n
  | None => forall p, p ∈ proc_list k -> pid (pr k p) <> n
  end.
Proof.
  intros Hr Hn. unfold find_proc. rewrite (proj2 (Z.ltb_lt 0 n)), (proj2 (Z.ltb_lt n MAX_PID)) by lia. cbn [andb].
  pose proof (find_in_spec k (chain k (pid_hashfn n)) n) as H.
  destruct (find_in k (chain k (pid_hashfn n)) n) as [p|].
  - destruct H as [Hin Hp]. split; [by eapply reg_out|done].
  - intros p Hp He. apply (H p); [|done]. rewrite <- He. by apply reg_in.
Qed.

(** ** fork *)

(** Only the descriptor [p] and the effects changed. *)
Record only (p : Z) (k k' : kern) : Prop := {
  on_procs : forall q, q <> p -> pr k' q = pr k q;
  on_cur : cur k' = cur k;
  on_list : proc_list k' = proc_list k;
  on_hash : hash_list k' = hash_list k;
  on_last : last_pid k' = last_pid k;
  on_next : next_safe k' = next_safe k
}.

Lemma only_refl p k : only p k k.
Proof. by split. Qed.

Lemma only_upd p k k' f : only p k k' -> only p k (upd_proc p f k').
Proof. intros []. split; try done. intros q Hq. rewrite pr_upd, decide_False by done. auto. Qed.

Lemma only_eff p k k' e : only p k k' -> only p k (eff e k').
Proof. intros []. by split. Qed.

#[local] Hint Resolve only_refl only_upd only_eff : kern.

(** The three copies fill the descriptor or fail; which, is decided by these. *)
Definition files_ok (e : fork_env) (f : Z) : bool :=
  negb (Z.land f CLONE_FS =? 0) || (bool_decide (fe_files e <> None) && (fe_dup_files e =? 0)).
Definition mm_ok (e : fork_env) (f m : Z) : bool :=
  (m =? 0) || negb (Z.land f CLONE_VM =? 0) ||
  (bool_decide (fe_mm e <> None) && (fe_pgdir e =? 0) && (fe_dup_mmap e =? 0)).

(** [x] is the outcome of a copy into [p], started in [k]. *)
Record copied (p : Z) (k0 k : kern) (ok : bool) (x : Z * kern) : Prop := {
  cp_ok : (x.1 =? 0) = ok;
  cp_only : only p k0 x.2;
  cp_links : links (pr x.2 p) = links (pr k p);
  cp_core : core (pr x.2 p) = core (pr k p)
}.

Lemma setup_kstack_only e p k0 k :
  only p k0 k -> copied p k0 k (bool_decide (fe_kstack e <> None)) (setup_kstack e p k).
Proof.
  intros Ho. unfold setup_kstack. destruct (fe_kstack e); simpl; (split; simpl; [done|by auto with kern|..]); try done;
    by rewrite pr_upd, decide_True.
Qed.

Lemma copy_mm_only e f p k0 k :
  only p k0 k -> copied p k0 k (mm_ok e f (mm (pr k (cur k)))) (copy_mm e f p k).
Proof.
  intros Ho. unfold copy_mm, mm_ok. destruct (mm (pr k (cur k)) =? 0); [by split|].
  destruct (negb (Z.land f CLONE_VM =? 0)); simpl.
  { split; simpl; [done|by auto with kern|by rewrite pr_upd, decide_True..]. }
  destruct (fe_mm e) as [m|]; [|by split]. destruct (fe_pgdir e =? 0); simpl; [|split; simpl; [done|auto with kern|done..]].
  destruct (fe_dup_mmap e =? 0) eqn:Hd; simpl; [|split; simpl; [done|auto 6 with kern|done..]].
  split; simpl; [done|auto with kern|by rewrite pr_upd, decide_True..].
Qed.

Lemma copy_fs_only e f p k0 k :
  only p k0 k -> filesp (pr k (cur k)) <> 0 -> exists x, copy_fs e f p k = Ok x /\ copied p k0 k (files_ok e f) x.
Proof.
  intros Ho Hf. unfold copy_fs, files_ok. rewrite (proj2 (Z.eqb_neq _ 0) Hf). cbn [negb kassert]. rewrite res_bind_ok.
  eexists. split; [done|]. destruct (negb (Z.land f CLONE_FS =? 0)).
  { split; simpl; [done|by auto with kern|by rewrite pr_upd, decide_True..]. }
  destruct (fe_files e) as [x|]; [|by split].
  destruct (fe_dup_files e =? 0) eqn:Hd; simpl; [|split; simpl; [done|auto with kern|done..]].
  split; simpl; [done|auto with kern|by rewrite pr_upd, decide_True..].
Qed.

(** Taking a pid and linking the new process [p] in. *)
Record pid_cache (k : kern) : Prop := {
  pc_last : 0 <= last_pid k;
  pc_next : next_safe k <= MAX_PID;
  pc_gap : gap (pids k) (last_pid k) (next_safe k)
}.

Lemma only_pids p k k' : only p k k' -> p ∉ proc_list k -> pids k' = pids k.
Proof.
  intros Ho Hp. unfold pids. rewrite (on_list _ _ _ Ho). apply list_fmap_ext. intros i q Hi.
  rewrite (on_procs _ _ _ Ho); [done|]. intros ->. by eapply Hp, list_elem_of_lookup_2.
Qed.

(** The registry and the pid cache see only pids, lists and chains. *)
Lemma chain_hash_proc p k i : chain (hash_proc p k) i =
  if decide (i = pid_hashfn (pid (pr k p))) then p :: chain k i else chain k i.
Proof.
  unfold hash_proc, chain at 1. cbn [hash_list set_hash].
  destruct (decide (i = pid_hashfn (pid (pr k p)))) as [H|H].
  - subst. by rewrite lookup_insert_eq.
  - by rewrite lookup_insert_ne by congruence.
Qed.

Lemma pids_add p n k k' :
  p ∉ proc_list k -> proc_list k' = p :: proc_list k -> pid (pr k' p) = n ->
  (forall q, q <> p -> pid (pr k' q) = pid (pr k q)) -> pids k' = n :: pids k.
Proof.
  intros Hp Hl Hpid Hoth. unfold pids. rewrite Hl, fmap_cons, Hpid. f_equal. apply list_fmap_ext. intros j q Hj.
  apply Hoth. intros ->. by eapply Hp, list_elem_of_lookup_2.
Qed.

Lemma find_proc_in k p : registry k -> p ∈ proc_list k -> 0 < pid (pr k p) < MAX_PID -> find_proc (pid (pr k p)) k = Some p.
Proof.
  intros Hreg Hp Hn. pose proof (find_proc_spec k (pid (pr k p)) Hreg Hn) as Hf.
  destruct (find_proc (pid (pr k p)) k) as [q|]; [|by destruct (Hf p Hp)].
  destruct Hf as [Hq Hqn]. f_equal. apply (pid_unique k); [apply Hreg|done..].
Qed.

Lemma registry_add p n k k' :
  registry k -> p ∉ proc_list k -> n ∉ pids k ->
  proc_list k' = p :: proc_list k -> pid (pr k' p) = n -> (forall q, q <> p -> pid (pr k' q) = pid (pr k q)) ->
  (forall i, chain k' i = if decide (i = pid_hashfn n) then p :: chain k i else chain k i) -> registry k'.
Proof.
  intros [Hi Ho Hn] Hp Hfresh Hl Hpid Hoth Hch. split.
  - intros q Hq. rewrite Hl in Hq. rewrite Hch. apply elem_of_cons in Hq as [->|Hq].
    + rewrite Hpid, decide_True by done. left.
    + rewrite Hoth by (intros ->; done). case_decide; [right|]; auto.
  - intros i q Hq. rewrite Hch in Hq. rewrite Hl. case_decide; [apply elem_of_cons in Hq as [->|Hq]; [left|]|]; right; eauto.
  - rewrite (pids_add p n k) by done. by apply NoDup_cons.
Qed.

Lemma set_links_frame p k :
  proc_list (set_links p k) = p :: proc_list k /\ hash_list (set_links p k) = hash_list k /\
  cur (set_links p k) = cur k /\ last_pid (set_links p k) = last_pid k /\ next_safe (set_links p k) = next_safe k.
Proof. unfold set_links. cbv zeta. by match goal with |- context [negb ?b] => destruct b end. Qed.

(** The last part of [do_fork]: the pid is taken, the process linked and woken. *)
Lemma fork_link k p l n (k1 := set_links p (hash_proc p (upd_proc p (set_pid n) k))) :
  children k (cur k) l -> p <> 0 -> p <> cur k -> p ∉ l -> parent (pr k p) = cur k ->
  core (pr k1 p) = (state (pr k p), n, wait_state (pr k p)) /\
  (forall q, q <> p -> core (pr k1 q) = core (pr k q)) /\
  children k1 (cur k) (p :: l) /\
  (forall i, chain k1 i = if decide (i = pid_hashfn n) then p :: chain k i else chain k i) /\
  proc_list k1 = p :: proc_list k /\ cur k1 = cur k /\ last_pid k1 = last_pid k /\ next_safe k1 = next_safe k.
Proof.
  intros Hch Hp0 Hpc Hpl Hpar.
  set (k0 := hash_proc p (upd_proc p (set_pid n) k)) in *.
  destruct (set_links_frame p k0) as (Hfl & Hfh & Hfc & Hfla & Hfn).
  assert (H0 : forall q, pr k0 q = if decide (q = p) then set_pid n (pr k p) else pr k q) by (intros; apply pr_upd).
  assert (Hp0' : parent (pr k0 p) = cur k) by (rewrite H0, decide_True by done; exact Hpar).
  pose proof (fun q => set_links_fields p k0 q ltac:(congruence)) as Hf. cbv zeta in Hf.
  split_and!; [| | | |exact Hfl|exact Hfc|exact Hfla|exact Hfn].
  - unfold k1. destruct (Hf p) as (_ & _ & _ & _ & ->). by rewrite H0, decide_True.
  - intros q Hq. unfold k1. destruct (Hf q) as (_ & _ & _ & _ & ->). by rewrite H0, decide_False.
  - unfold k1. rewrite <- Hp0'. apply set_links_children; rewrite ?Hp0'; try done.
    destruct Hch as (Hs & Hnd & Hfa). split_and!; [|done|].
    + rewrite H0, decide_False by done. apply (siblings_ext k); [|done].
      intros a Ha. by rewrite H0, decide_False by (intros ->; done).
    + apply Forall_forall. intros a Ha. rewrite H0, decide_False by (intros ->; done).
      exact (proj1 (Forall_forall _ _) Hfa a Ha).
  - intros i. unfold chain at 1, k1. rewrite Hfh. fold (chain k0 i). unfold k0.
    rewrite chain_hash_proc, pr_upd, (decide_True (P := p = p)) by done. done.
Qed.

Lemma fork_wake k k1 p l n :
  registry k -> p ∉ proc_list k -> n ∉ pids k -> state (pr k p) <> PROC_ZOMBIE ->
  core (pr k1 p) = (state (pr k p), n, wait_state (pr k p)) ->
  (forall q, q <> p -> core (pr k1 q) = core (pr k q)) -> children k1 (cur k) (p :: l) ->
  (forall i, chain k1 i = if decide (i = pid_hashfn n) then p :: chain k i else chain k i) ->
  proc_list k1 = p :: proc_list k -> cur k1 = cur k ->
  exists x, wakeup_proc class p (sc k1) = Ok x /\
    pid (pr (set_sc x k1) p) = n /\ state (pr (set_sc x k1) p) = PROC_RUNNABLE /\ registry (set_sc x k1) /\
    children (set_sc x k1) (cur k) (p :: l) /\ (forall q, q <> p -> core (pr (set_sc x k1) q) = core (pr k q)) /\
    cur (set_sc x k1) = cur k.
Proof.
  intros Hreg Hp Hfresh Hz Hcp Hcq Hch1 Hchain Hl1 Hcu1. injection Hcp as Hst Hpn _.
  destruct (wakeup_core class Q p (sc k1)) as (x & Heq & _ & _ & Hcu & _ & Hrun & _ & Ho); [unfold pr in *; congruence|].
  exists x. split; [exact Heq|].
  assert (Hpid : forall q, pid (pr (set_sc x k1) q) = pid (pr k1 q)) by (exact (wakeup_pid class Q p (sc k1) x Heq)).
  split_and!; [congruence|exact Hrun| | | |].
  - apply (registry_add p n k); try done; [congruence|].
    intros q Hq. rewrite Hpid. specialize (Hcq q Hq). by injection Hcq.
  - apply (children_links k1); [exact (wakeup_links class Q p (sc k1) x Heq)|exact Hch1].
  - intros q Hq. rewrite <- (Hcq q Hq). apply Ho, Hq.
  - unfold cur at 1. cbn [sc set_sc]. rewrite Hcu. exact Hcu1.
Qed.

Lemma only_registry p k k' : only p k k' -> p ∉ proc_list k -> registry k -> registry k'.
Proof.
  intros Ho Hp [Hi Hu Hn]. assert (Hch : forall i, chain k' i = chain k i) by (intros; unfold chain; by rewrite (on_hash _ _ _ Ho)).
  split.
  - intros q. rewrite (on_list _ _ _ Ho), Hch. intros Hq. rewrite (on_procs _ _ _ Ho) by (intros ->; done). auto.
  - intros i q. rewrite (on_list _ _ _ Ho), Hch. eauto.
  - by rewrite (only_pids p k).
Qed.

Lemma only_children p k k' par l : only p k k' -> p <> par -> p ∉ l -> children k par l -> children k' par l.
Proof.
  intros Ho Hpp Hp (Hs & Hnd & Hf).
  assert (Hsame : forall a, a ∈ l -> pr k' a = pr k a) by (intros a Ha; apply (on_procs _ _ _ Ho); intros ->; done).
  split_and!; [|done|].
  - rewrite (on_procs _ _ _ Ho) by done. apply (siblings_ext k); [|done]. intros a Ha. by rewrite Hsame.
  - apply Forall_forall. intros a Ha. rewrite Hsame by done. exact (proj1 (Forall_forall _ _) Hf a Ha).
Qed.

(** What a caller of [do_fork] sees on success. *)
Record forked (p r : Z) (l : list Z) (k k' : kern) : Prop := {
  fk_pid : 0 < r < MAX_PID;
  fk_fresh : r ∉ pids k;
  fk_proc : pid (pr k' p) = r /\ state (pr k' p) = PROC_RUNNABLE;
  fk_list : proc_list k' = p :: proc_list k;
  fk_found : find_proc r k' = Some p;
  fk_registry : registry k';
  fk_cache : pid_cache k';
  fk_children : children k' (cur k) (p :: l);
  fk_others : forall q, q <> p -> core (pr k' q) = core (pr k q)
}.

Lemma pid_cache_add p n nx k k' :
  p ∉ proc_list k -> proc_list k' = p :: proc_list k -> pid (pr k' p) = n ->
  (forall q, q <> p -> core (pr k' q) = core (pr k q)) ->
  last_pid k' = n -> next_safe k' = nx -> 0 <= n < nx -> nx <= MAX_PID -> gap (pids k) n nx -> pid_cache k'.
Proof.
  intros Hp Hl Hpid Hoth Hla Hnx Hn Hm Hg. split; rewrite ?Hla, ?Hnx; [lia|lia|].
  rewrite (pids_add p n k); try done; [constructor; [lia|done]|]. intros q Hq. specialize (Hoth q Hq). by injection Hoth.
Qed.

Lemma forked_only p r l k k1 k' : only p k k1 -> p ∉ proc_list k -> forked p r l k1 k' -> forked p r l k k'.
Proof.
  intros Ho Hp [H1 H2 H3 H4 H5 H6 H7 H8 H9]. rewrite (only_pids p k k1) in H2 by done.
  rewrite (on_list _ _ _ Ho) in H4. rewrite (on_cur _ _ _ Ho) in H8. split; try done.
  intros q Hq. rewrite H9 by done. by rewrite (on_procs _ _ _ Ho).
Qed.

(** From the taking of the pid on. *)
Lemma fork_woken p n nx l k ks k1 x :
  ks = set_pids n nx k -> p ∉ proc_list k -> n ∉ pids k -> 0 < n < nx -> nx <= MAX_PID -> gap (pids k) n nx ->
  proc_list k1 = p :: proc_list ks -> last_pid k1 = last_pid ks -> next_safe k1 = next_safe ks ->
  pid (pr (set_sc x k1) p) = n -> state (pr (set_sc x k1) p) = PROC_RUNNABLE -> registry (set_sc x k1) ->
  children (set_sc x k1) (cur ks) (p :: l) -> (forall q, q <> p -> core (pr (set_sc x k1) q) = core (pr ks q)) ->
  forked p n l k (set_sc x k1).
Proof.
  intros -> Hp Hfresh Hn Hnx Hg Hl1 Hla1 Hn1 Hpid Hrun Hreg' Hch' Hoth.
  split; try done; [lia| |apply (pid_cache_add p n nx (set_pids n nx k)); done || lia].
  rewrite <- Hpid. apply find_proc_in; [done|cbn [proc_list set_sc]; rewrite Hl1; left|lia].
Qed.

Lemma fork_finish k p l :
  registry k -> pid_cache k -> children k (cur k) l -> p ∉ proc_list k -> p <> 0 -> p <> cur k -> p ∉ l ->
  parent (pr k p) = cur k -> state (pr k p) <> PROC_ZOMBIE -> Z.of_nat (length (proc_list k)) < MAX_PID - 1 ->
  exists n k', ('(n, k) ← new_pid k;
     let k := upd_proc p (set_pid n) k in
     let k := set_links p (hash_proc p k) in
     x ← wakeup_proc class p (sc k);
     let k := set_sc x k in
     Ok (pid (pr k p), k)) = Ok (n, k') /\ forked p n l k k'.
Proof.
  intros Hreg [Hla Hne Hgap] Hch Hp Hp0 Hpc Hpl Hpar Hz Hlen.
  destruct (get_pid_spec (pids k) (last_pid k) (next_safe k)) as (n & nx & Heq & Hn & Hnx & Hfresh & Hg); try done.
  { unfold pids. by rewrite length_fmap. }
  unfold new_pid. fold (pids k). rewrite Heq, !res_bind_ok. cbv beta iota zeta. rewrite ?res_bind_ok. cbv beta iota zeta.
  set (ks := set_pids n nx k).
  destruct (fork_link ks p l n (children_links k ks _ l (fun _ => eq_refl) Hch) Hp0 Hpc Hpl Hpar) as (Hcp & Hcq & Hch1 & Hchain & Hl1 & Hcu1 & Hla1 & Hn1).
  set (k1 := set_links p (hash_proc p (upd_proc p (set_pid n) ks))) in *. clearbody k1.
  destruct (fork_wake ks k1 p l n) as (x & -> & Hpid & Hrun & Hreg' & Hch' & Hoth & Hcu'); try done; [by destruct Hreg|].
  rewrite res_bind_ok. exists n, (set_sc x k1). split; [by rewrite Hpid|].
  apply (fork_woken p n nx l k ks k1 x eq_refl); done || lia.
Qed.

(** The outcome of every copy together. *)
Definition fork_ok (e : fork_env) (f : Z) (k : kern) : bool :=
  bool_decide (fe_kstack e <> None) && files_ok e f && mm_ok e f (mm (pr k (cur k))).

(** C6: [do_fork] with memory for a descriptor [p] always returns.  If the
    kernel stack, the file table and the address space could be copied, the
    result is a pid that no process had, under which [find_proc] now finds
    [p]; [p] is runnable, heads the process list and is the youngest child of
    the caller; the registry of pids and the pid cache stay valid, and no
    other process changed state.  Otherwise the result is [-E_NO_MEM] and
    nothing but the descriptor, which is freed last, was changed. *)
Theorem do_fork_correct (e : fork_env) (f p : Z) (l : list Z) (k : kern) :
  registry k -> pid_cache k -> children k (cur k) l -> nr_process k < MAX_PROCESS ->
  Z.of_nat (length (proc_list k)) <= MAX_PROCESS ->
  fe_block e = Some p -> p <> 0 -> p ∉ proc_list k -> p <> cur k -> p ∉ l ->
  filesp (pr k (cur k)) <> 0 -> wait_state (pr k (cur k)) = 0 ->
  exists r k', do_fork e f k = Ok (r, k') /\
    if fork_ok e f k then forked p r l k k'
    else r = - E_NO_MEM /\ only p k k' /\ last (effects k') = Some (Kfree p).
Proof.
  intros Hreg Hpc Hch Hnr Hlen He Hp0 Hp Hcur Hpl Hfiles Hws. unfold do_fork.
  rewrite Z.geb_leb, (proj2 (Z.leb_gt MAX_PROCESS _)) by lia. rewrite He. cbn [alloc_proc].
  set (k1 := upd_proc p (set_parent (cur (upd_proc p fresh_proc k))) (upd_proc p fresh_proc k)).
  assert (Ho1 : only p k k1) by (unfold k1; auto with kern).
  assert (Hp1 : links (pr k1 p) = (cur k, 0, 0, 0) /\ state (pr k1 p) = PROC_UNINIT).
  { unfold k1. rewrite !pr_upd, !decide_True by done. done. }
  assert (Hc1 : pr k1 (cur k1) = pr k (cur k)) by (change (cur k1) with (cur k); apply (on_procs _ _ _ Ho1); congruence).
  clearbody k1. rewrite Hc1, Hws. change (kassert (0 =? 0)) with (Ok tt). rewrite res_bind_ok. unfold fork_ok.
  destruct (setup_kstack_only e p k k1 Ho1) as [Hr2 Ho2 Hl2 Hs2]. destruct (setup_kstack e p k1) as [r2 k2]. cbn in Hr2, Ho2, Hl2, Hs2.
  rewrite Hr2. destruct (bool_decide (fe_kstack e <> None)); cbn [negb andb].
  2: { eexists _, _. split; [done|]. split_and!; [done|auto with kern|apply last_snoc]. }
  assert (Hcu : forall k', only p k k' -> pr k' (cur k') = pr k (cur k))
    by (intros k' H'; rewrite (on_cur _ _ _ H'); apply (on_procs _ _ _ H'); congruence).
  destruct (copy_fs_only e f p k k2 Ho2) as ([r3 k3] & -> & [Hr3 Ho3 Hl3 Hs3]); [by rewrite Hcu|]. cbn in Hr3, Ho3, Hl3, Hs3.
  rewrite res_bind_ok, Hr3. destruct (files_ok e f); cbn [negb andb].
  2: { eexists _, _. split; [done|]. unfold put_kstack. split_and!; [done|auto with kern|apply last_snoc]. }
  destruct (copy_mm_only e f p k k3 Ho3) as [Hr4 Ho4 Hl4 Hs4]. destruct (copy_mm e f p k3) as [r4 k4]. cbn in Hr4, Ho4, Hl4, Hs4.
  rewrite Hcu in Hr4 by done. rewrite Hr4. destruct (mm_ok e f (mm (pr k (cur k)))); cbn [negb].
  2: { eexists _, _. split; [done|]. unfold put_kstack, put_fs. split_and!; [done| |apply last_snoc].
       destruct (negb _); auto with kern. }
  rewrite Hl3, Hl2, (proj1 Hp1) in Hl4. injection Hl4 as Hpar _ _ _.
  assert (Hst : state (pr k4 p) = PROC_UNINIT) by (rewrite <- (proj2 Hp1); clear -Hs2 Hs3 Hs4; unfold core in *; congruence).
  destruct (fork_finish k4 p l) as (n & k' & Heq & Hfk); rewrite ?(on_list _ _ _ Ho4), ?(on_cur _ _ _ Ho4); try done.
  - by apply (only_registry p k).
  - split; rewrite ?(on_last _ _ _ Ho4), ?(on_next _ _ _ Ho4), ?(only_pids p k k4) by done; apply Hpc.
  - by apply (only_children p k).
  - by rewrite Hst.
  - unfold MAX_PID, MAX_PROCESS in *. lia.
  - exists n, k'. split; [exact Heq|]. by apply (forked_only p n l k k4 k').
Qed.

(** ** wait *)
Lemma remove_links_frame p k :
  proc_list (remove_links p k) = filter (fun x => x <> p) (proc_list k) /\ hash_list (remove_links p k) = hash_list k /\
  cur (remove_links p k) = cur k /\ effects (remove_links p k) = effects k.
Proof.
  assert (Hif : forall (b : bool) (x y : kern), proc_list x = proc_list y -> hash_list x = hash_list y -> cur x = cur y ->
    effects x = effects y -> let z := if b then x else y in
    proc_list z = proc_list y /\ hash_list z = hash_list y /\ cur z = cur y /\ effects z = effects y) by (by intros []).
  unfold remove_links. cbv zeta. set (k1 := set_lists _ (nr_process k) k).
  match goal with |- context [if ?b then upd_proc ?o ?f k1 else k1] =>
    destruct (Hif b (upd_proc o f k1) k1 eq_refl eq_refl eq_refl eq_refl) as (A1 & A2 & A3 & A4);
    set (k2 := if b then upd_proc o f k1 else k1) in * end.
  clearbody k2. change (proc_list k2 = filter (fun x => x <> p) (proc_list k)) in A1.
  change (hash_list k2 = hash_list k) in A2. change (cur k2 = cur k) in A3. change (effects k2 = effects k) in A4.
  rewrite <- A1, <- A2, <- A3, <- A4. by destruct (negb _).
Qed.

Lemma kstack_upd p f k q : (forall x, kstack (f x) = kstack x) -> kstack (pr (upd_proc p f k) q) = kstack (pr k q).
Proof. intros Hf. rewrite pr_upd. destruct (decide (q = p)) as [->|]; auto. Qed.

Lemma remove_links_kstack p k q : kstack (pr (remove_links p k) q) = kstack (pr k q).
Proof.
  unfold remove_links. cbv zeta. set (k1 := set_lists _ (nr_process k) k).
  set (k2 := if negb (optr (pr k1 p) =? 0) then _ else k1).
  assert (H2 : kstack (pr k2 q) = kstack (pr k q)) by (unfold k2; destruct (negb _); [rewrite kstack_upd by done|]; done).
  clearbody k2. rewrite <- H2. change (pr (set_lists _ _ ?x) q) with (pr x q).
  destruct (negb _); rewrite kstack_upd by done; done.
Qed.

Lemma chain_unhash p k i : chain (unhash_proc p k) i = filter (fun x => x <> p) (chain k i).
Proof. unfold chain, unhash_proc. cbn [hash_list set_hash]. rewrite lookup_fmap. by destruct (hash_list k !! i). Qed.

Lemma registry_remove p k k' :
  registry k -> proc_list k' = filter (fun x => x <> p) (proc_list k) ->
  (forall q, pid (pr k' q) = pid (pr k q)) -> (forall i, chain k' i = filter (fun x => x <> p) (chain k i)) -> registry k'.
Proof.
  intros [Hi Ho Hn] Hl Hpid Hch. split.
  - intros q. rewrite Hl, Hch, Hpid, !list_elem_of_filter. intros [Hq Hin]. auto.
  - intros i q. rewrite Hl, Hch, !list_elem_of_filter. intros [Hq Hin]. eauto.
  - unfold pids. rewrite Hl. rewrite (list_fmap_ext _ (fun q => pid (pr k q)) (filter (fun x => x <> p) (proc_list k)));
      [|intros; apply Hpid].
    eapply sublist_NoDup; [exact Hn|]. apply fmap_sublist, sublist_filter.
Qed.

Lemma registry_eff e k : registry k -> registry (eff e k).
Proof. intros []. by split. Qed.

Lemma reap_registry p k k' :
  registry k -> optr (pr k p) <> p -> k' = remove_links p (unhash_proc p k) ->
  registry k' /\ (forall q, pid (pr k' q) = pid (pr k q)) /\ proc_list k' = filter (fun x => x <> p) (proc_list k).
Proof.
  intros Hreg Hop Hk. destruct (remove_links_frame p (unhash_proc p k)) as (Hl & Hh & _ & _).
  assert (Hpid : forall q, pid (pr k' q) = pid (pr k q)).
  { intros q. destruct (remove_links_fields p (unhash_proc p k) q Hop) as (_ & _ & _ & _ & Hcore). cbv zeta in Hcore.
    rewrite <- Hk in Hcore. by injection Hcore. }
  rewrite <- Hk in Hl, Hh. split_and!; [|exact Hpid|exact Hl].
  apply (registry_remove p k); [done|exact Hl|exact Hpid|].
  intros i. rewrite <- chain_unhash. unfold chain. by rewrite Hh.
Qed.

Lemma find_proc_gone p n k k' :
  registry k -> registry k' -> (forall q, pid (pr k' q) = pid (pr k q)) ->
  proc_list k' = filter (fun x => x <> p) (proc_list k) -> p ∈ proc_list k -> pid (pr k p) = n -> 0 < n < MAX_PID ->
  find_proc n k' = None.
Proof.
  intros Hreg Hr' Hpid Hl Hp Hn Hr. pose proof (find_proc_spec k' n Hr' Hr) as Hsp.
  destruct (find_proc n k') as [q|]; [|done]. destruct Hsp as [Hq Hqn]. exfalso.
  rewrite Hl in Hq. apply list_elem_of_filter in Hq as [Hqp Hq]. apply Hqp.
  apply (pid_unique k); try done; [apply Hreg|]. by rewrite Hn, <- Hqn, Hpid.
Qed.

(** [do_wait] for the pid of a zombie child returns its exit code at once
    and takes the child out of the process list, the pid hash and the
    caller's list of children, which keeps its order; the pid is not found
    any more, the kernel stack and the descriptor are freed, in this order. *)
Theorem do_wait_reaps (fuel : nat) (n p : Z) (l1 l2 : list Z) (k : kern) :
  registry k -> find_proc n k = Some p -> children k (cur k) (l1 ++ p :: l2) ->
  state (pr k p) = PROC_ZOMBIE -> p <> idleproc (sc k) -> p <> initproc k ->
  exists k', do_wait fuel true n k = Ok (WaitDone (exit_code (pr k p)), k') /\
    children k' (cur k) (l1 ++ l2) /\ registry k' /\ find_proc n k' = None /\
    proc_list k' = filter (fun q => q <> p) (proc_list k) /\
    effects k' = effects k ++ [PutKstack (kstack (pr k p)); Kfree p].
Proof.
  intros Hreg Hfind Hch Hz Hidle Hinit.
  assert (Hn : 0 < n < MAX_PID).
  { revert Hfind. unfold find_proc. destruct (Z.ltb_spec 0 n), (Z.ltb_spec n MAX_PID); done. }
  pose proof (find_proc_spec k n Hreg Hn) as Hsp. rewrite Hfind in Hsp. destruct Hsp as [Hin Hpid].
  assert (Hpar : parent (pr k p) = cur k).
  { destruct Hch as (_ & _ & Hf). apply Forall_app in Hf as [_ Hf]. by apply Forall_cons in Hf as [? _]. }
  unfold do_wait, wait_round, wait_scan. rewrite (proj2 (Z.eqb_neq n 0)) by lia. cbn [negb].
  rewrite res_bind_ok, Hfind, Hpar, Z.eqb_refl, bool_decide_true by done. cbv iota. unfold reap.
  rewrite (proj2 (Z.eqb_neq p _) Hidle), (proj2 (Z.eqb_neq p _) Hinit). change (kassert (negb (false || false))) with (Ok tt).
  rewrite !res_bind_ok.
  assert (Hop : optr (pr k p) <> p) by (destruct Hch as (Hs & Hnd & _); exact (older_not_self _ _ _ _ _ _ Hs Hnd)).
  assert (Hchr : children (remove_links p (unhash_proc p k)) (cur k) (l1 ++ l2)).
  { rewrite <- Hpar. change (pr k p) with (pr (unhash_proc p k) p). apply remove_links_children.
    change (pr (unhash_proc p k) p) with (pr k p). rewrite Hpar. by apply (children_links k). }
  destruct (remove_links_frame p (unhash_proc p k)) as (_ & _ & _ & He).
  pose proof (remove_links_kstack p (unhash_proc p k) p) as Hks.
  destruct (reap_registry p k _ Hreg Hop eq_refl) as (Hr' & Hpid' & Hl').
  revert He Hks Hr' Hpid' Hl' Hchr. generalize (remove_links p (unhash_proc p k)). intros kr He Hks Hr' Hpid' Hl' Hchr.
  eexists. split; [done|]. split_and!.
  - by apply (children_links kr).
  - by apply registry_eff, registry_eff.
  - apply (find_proc_gone p n k); try done. by apply registry_eff, registry_eff.
  - exact Hl'.
  - unfold put_kstack, eff. cbn [effects]. rewrite He, Hks, <- app_assoc. done.
Qed.
End Laws.

End Process.

(** ** A concrete system: init (pid 1) at 10, its child (pid 2, running) at 20,
    whose child (pid 3, queued) is at 30; the idle process is at 9. *)
Definition demo_member (n par c f : Z) : proc_struct :=
  set_filesp f (set_cptr c (set_parent par (demo_proc n PROC_RUNNABLE 0))).

Definition demo_kern : kern (RQ := list Z) :=
  Kern (Sched [30] (<[9 := demo_proc 0 PROC_RUNNABLE 0]> (<[10 := set_cptr 20 (demo_proc 1 PROC_SLEEPING WT_CHILD)]>
      (<[20 := demo_member 2 10 30 7]> (<[30 := demo_member 3 20 0 8]> ∅)))) 9 20 ∅ [])
    [30; 20; 10] (<[pid_hashfn 1 := [10]]> (<[pid_hashfn 2 := [20]]> (<[pid_hashfn 3 := [30]]> ∅))) 3 3 MAX_PID 10 [].

(** The same system with pid 3 a zombie. *)
Definition demo_zombie : kern (RQ := list Z) :=
  upd_proc 30 (fun p => set_exit_code 42 (set_state PROC_ZOMBIE p)) demo_kern.

Lemma demo_children : children demo_kern 20 [30] /\ children demo_kern 10 [20].
Proof. split; (split; [repeat split; done|]); (split; [apply (bool_decide_unpack _); by vm_compute|by repeat constructor]). Defined.

Lemma demo_registry (k : kern (RQ := list Z)) :
  proc_list k = [30; 20; 10] -> hash_list k = hash_list demo_kern ->
  pid (pr k 30) = 3 -> pid (pr k 20) = 2 -> pid (pr k 10) = 1 -> registry k.
Proof.
  intros Hl Hh H3 H2 H1. split.
  - intros p. rewrite Hl, !elem_of_cons, elem_of_nil. unfold chain. rewrite Hh.
    intros [->|[->|[->|[]]]]; rewrite ?H3, ?H2, ?H1; apply (bool_decide_unpack _); by vm_compute.
  - intros i p. unfold chain. rewrite Hh, Hl. unfold demo_kern. cbn [hash_list].
    destruct (decide (i = pid_hashfn 1)) as [->|]; [rewrite lookup_insert_eq; simpl; set_solver|].
    rewrite lookup_insert_ne by congruence.
    destruct (decide (i = pid_hashfn 2)) as [->|]; [rewrite lookup_insert_eq; simpl; set_solver|].
    rewrite lookup_insert_ne by congruence.
    destruct (decide (i = pid_hashfn 3)) as [->|]; [rewrite lookup_insert_eq; simpl; set_solver|].
    rewrite lookup_insert_ne, lookup_empty by congruence. simpl. intros H. by apply elem_of_nil in H.
  - unfold pids. rewrite Hl. simpl. rewrite H3, H2, H1. apply (bool_decide_unpack _); by vm_compute.
Defined.

(** The same system with pid 2 a thread of init, in its stack slot 1. *)
Definition demo_thread : kern (RQ := list Z) :=
  upd_proc 10 (set_stack [0; 1; 1]) (upd_proc 20 (fun p => set_stack_num 1 (set_is_thread 1 p)) demo_zombie).

Lemma do_exit_correct_witness :
  exists k', do_exit list_class 4 true 7 demo_thread = Ok k' /\
    exit_code (pr k' 20) = 7 /\ mm (pr k' 20) = 0 /\ cptr (pr k' 20) = 0 /\ children k' 10 [30; 20] /\
    (forall q, state (pr k' q) = if decide (q = 20) then PROC_ZOMBIE
      else if decide (exit_wakes demo_thread [30] q) then PROC_RUNNABLE else state (pr demo_thread q)) /\
    effects k' = effects demo_thread ++ exit_effects true 0 7 /\
    (forall q, stack (pr k' q) = if decide (is_thread (pr demo_thread 20) <> 0 /\ q = 10)
      then <[Z.to_nat 1 := 0]> (stack (pr demo_thread q)) else stack (pr demo_thread q)) /\
    (forall q, q <> 20 -> rest (set_stack [] (pr k' q)) = rest (set_stack [] (pr demo_thread q))).
Proof.
  apply (do_exit_correct list_class list_queue 4 true 7 demo_thread [30] [20] [] 10);
    [done|done|done|..]; try done; try lia;
    try (apply (children_links demo_kern); [|apply demo_children]; intros q; unfold demo_thread, demo_zombie; rewrite !pr_upd;
         repeat case_decide; subst; done);
    try (apply (bool_decide_unpack _); by vm_compute).
Defined.

Lemma do_fork_correct_witness :
  let e := ForkEnv (Some 40) (Some 4096) (Some 77) 0 (Some 88) 0 0 in
  exists r k', do_fork list_class e 0 demo_kern = Ok (r, k') /\
    if fork_ok e 0 demo_kern then forked 40 r [30] demo_kern k'
    else r = - E_NO_MEM /\ only 40 demo_kern k' /\ last (effects k') = Some (Kfree 40).
Proof.
  intros e. apply (do_fork_correct list_class list_queue e 0 40 [30] demo_kern); try done; try lia.
  - by apply demo_registry.
  - split; [done|done|]. unfold gap. apply (bool_decide_unpack _); by vm_compute.
  - apply demo_children.
  - apply (bool_decide_unpack _); by vm_compute.
  - apply (bool_decide_unpack _); by vm_compute.
Defined.

Lemma do_wait_reaps_witness :
  exists k', do_wait 4 true 3 demo_zombie = Ok (WaitDone 42, k') /\
    children k' 20 ([] ++ []) /\ registry k' /\ find_proc 3 k' = None /\
    proc_list k' = filter (fun q => q <> 30) [30; 20; 10] /\ effects k' = [PutKstack 0; Kfree 30].
Proof.
  apply (do_wait_reaps 4 3 30 [] [] demo_zombie); try done.
  - by apply demo_registry.
  - split; [repeat split; done|]. split; [apply (bool_decide_unpack _); by vm_compute|by repeat constructor].
Defined.

(** [schedule] called from here. *)
Definition yield_cpu {RQ : Type} (class : sched_class RQ) (k : kern (RQ := RQ)) : kern := set_sc (schedule class (sc k)) k.

(** What the parent, the child and the parent again do when the parent waits
    before the child exits with status 42. *)
Definition wait_then_exit : res (wait_res * option wait_res * list effect) :=
  '(first, k) ← do_wait 4 true 3 demo_kern;
  k ← do_exit list_class 4 false 42 (yield_cpu list_class k);
  '(second, k) ← wait_resumes list_class 4 false 3 (yield_cpu list_class k);
  Ok (first, second, effects k).

(** a parent that waits for a running child does not get its exit code:
    when the child exits and wakes it, [kill_all_zombie_ch_process] reaps the
    child first, and the second round of [do_wait] answers [-E_BAD_PROC].
    Waiting for the same child when it is already a zombie returns 42. *)
Theorem do_wait_loses_status :
  wait_then_exit = Ok (WaitSleeps, Some (WaitErr (- E_BAD_PROC)), [PutFs 8; PutKstack 0; Kfree 30]) /\
  exists k, do_wait 4 true 3 demo_zombie = Ok (WaitDone 42, k).
Proof. split; [by vm_compute|]. eexists. vm_compute. reflexivity. Qed.
