(* ===== verification/RbTree.v ===== *)
(** * libs/rbtree.c, libs/rbtree.h: red-black trees on pointers

    Nodes live in a memory of [rb_node] records; the parent pointer and the
    colour share one word.  Reading or writing through NULL or a dead pointer
    is [Panic].  The two mirrored halves of the C functions are one definition
    over a side [d]: [child Lf] is [rb_left], [child Rt] is [rb_right]. *)
From S2P Require Import Prelude.

Create HintDb rb.
Create Rewrite HintDb rb.

Record rb_node := RbNode { rb_parent_color : Z; rb_right : Z; rb_left : Z }.
Record rbs := Rbs { mem : gmap Z rb_node; rb_root : Z }.

Definition RB_RED : Z := 0.
Definition RB_BLACK : Z := 1.

(** ** Fields *)
Definition rb_parent (r : rb_node) : Z := Z.land (rb_parent_color r) (Z.lnot 3).
Definition rb_color (r : rb_node) : Z := Z.land (rb_parent_color r) 1.
Definition rb_is_red (r : rb_node) : bool := rb_color r =? 0.
Definition rb_is_black (r : rb_node) : bool := negb (rb_color r =? 0).
Definition set_pc (x : Z) (r : rb_node) : rb_node := RbNode x (rb_right r) (rb_left r).
Definition rb_set_red (r : rb_node) : rb_node := set_pc (Z.land (rb_parent_color r) (Z.lnot 1)) r.
Definition rb_set_black (r : rb_node) : rb_node := set_pc (Z.lor (rb_parent_color r) 1) r.
Definition rb_set_parent (p : Z) (r : rb_node) : rb_node := set_pc (Z.lor (Z.land (rb_parent_color r) 3) p) r.
Definition rb_set_color (c : Z) (r : rb_node) : rb_node := set_pc (Z.lor (Z.land (rb_parent_color r) (Z.lnot 1)) c) r.

Inductive side := Lf | Rt.
#[export] Instance side_eq_dec : EqDecision side.
Proof. solve_decision. Defined.

Definition opp (d : side) : side := match d with Lf => Rt | Rt => Lf end.
Definition child (d : side) (r : rb_node) : Z := match d with Lf => rb_left r | Rt => rb_right r end.
Definition set_child (d : side) (x : Z) (r : rb_node) : rb_node :=
  match d with
  | Lf => RbNode (rb_parent_color r) (rb_right r) x
  | Rt => RbNode (rb_parent_color r) x (rb_left r)
  end.

(** ** Memory *)
Definition get (a : Z) (s : rbs) : res rb_node :=
  if a =? 0 then Panic else match mem s !! a with Some n => Ok n | None => Panic end.
Definition upd (a : Z) (f : rb_node -> rb_node) (s : rbs) : res rbs :=
  n ← get a s; Ok (Rbs (<[a := f n]> (mem s)) (rb_root s)).
Definition set_root (a : Z) (s : rbs) : rbs := Rbs (mem s) a.

(** [x && rb_is_red(x)] and [!x || rb_is_black(x)] *)
Definition is_red_at (a : Z) (s : rbs) : res bool :=
  if a =? 0 then Ok false else n ← get a s; Ok (rb_is_red n).
Definition is_black_at (a : Z) (s : rbs) : res bool :=
  if a =? 0 then Ok true else n ← get a s; Ok (rb_is_black n).

(** The link to [old] in its parent, or the root, is redirected to [new];
    the side [d] is tested first. *)
Definition relink (d : side) (parent old new : Z) (s : rbs) : res rbs :=
  if negb (parent =? 0) then
    p ← get parent s;
    upd parent (if old =? child d p then set_child d new else set_child (opp d) new) s
  else Ok (set_root new s).

(** ** Rotations: towards the side [d] *)
Definition rotate (d : side) (node : Z) (s : rbs) : res rbs :=
  n ← get node s;
  let right := child (opp d) n in
  let parent := rb_parent n in
  r ← get right s;
  s ← upd node (set_child (opp d) (child d r)) s;
  s ← (if negb (child d r =? 0) then upd (child d r) (rb_set_parent node) s else Ok s);
  s ← upd right (set_child d node) s;
  s ← upd right (rb_set_parent parent) s;
  s ← relink d parent node right s;
  upd node (rb_set_parent right) s.

Definition __rb_rotate_left : Z -> rbs -> res rbs := rotate Lf.
Definition __rb_rotate_right : Z -> rbs -> res rbs := rotate Rt.

(** ** Insertion *)
Definition rb_link_node (node parent : Z) (link : option side) (s : rbs) : res rbs :=
  s ← upd node (fun _ => RbNode parent 0 0) s;
  match link with
  | Some d => upd parent (set_child d node) s
  | None => Ok (set_root node s)
  end.

Fixpoint insert_loop (fuel : nat) (node : Z) (s : rbs) : res rbs :=
  match fuel with
  | O => Spin
  | S fuel =>
      n ← get node s;
      let parent := rb_parent n in
      if parent =? 0 then Ok s
      else
        p ← get parent s;
        if rb_is_red p then
          let gparent := rb_parent p in
          g ← get gparent s;
          let d := if parent =? rb_left g then Lf else Rt in
          let uncle := child (opp d) g in
          red ← is_red_at uncle s;
          if red : bool then
            s ← upd uncle rb_set_black s;
            s ← upd parent rb_set_black s;
            s ← upd gparent rb_set_red s;
            insert_loop fuel gparent s
          else
            '(node, parent, s) ←
              (if child (opp d) p =? node then s ← rotate d parent s; Ok (parent, node, s)
               else Ok (node, parent, s));
            s ← upd parent rb_set_black s;
            s ← upd gparent rb_set_red s;
            s ← rotate (opp d) gparent s;
            insert_loop fuel node s
        else Ok s
  end.

Definition rb_insert_color (fuel : nat) (node : Z) (s : rbs) : res rbs :=
  s ← insert_loop fuel node s;
  upd (rb_root s) rb_set_black s.

(** ** Removal *)
Definition set_black_if (node : Z) (s : rbs) : res rbs :=
  if negb (node =? 0) then upd node rb_set_black s else Ok s.

(** The body of the loop once the sibling [other] is black; [next] is the
    next round of the loop. *)
Definition erase_black_other (next : Z -> Z -> rbs -> res rbs) (d : side) (parent other : Z) (s : rbs) : res rbs :=
  o ← get other s;
  near ← is_black_at (child d o) s;
  far ← is_black_at (child (opp d) o) s;
  if near && far then
    s ← upd other rb_set_red s;
    p ← get parent s;
    next parent (rb_parent p) s
  else
    '(other, s) ←
      (if far : bool then
         s ← upd (child d o) rb_set_black s;
         s ← upd other rb_set_red s;
         s ← rotate (opp d) other s;
         p ← get parent s;
         Ok (child (opp d) p, s)
       else Ok (other, s));
    p ← get parent s;
    s ← upd other (rb_set_color (rb_color p)) s;
    s ← upd parent rb_set_black s;
    o ← get other s;
    s ← upd (child (opp d) o) rb_set_black s;
    s ← rotate d parent s;
    set_black_if (rb_root s) s.

(** [node] may be NULL; [parent] is its parent. *)
Fixpoint erase_color (fuel : nat) (node parent : Z) (s : rbs) : res rbs :=
  match fuel with
  | O => Spin
  | S fuel =>
      b ← is_black_at node s;
      if b && negb (node =? rb_root s) then
        p ← get parent s;
        let d := if rb_left p =? node then Lf else Rt in
        let other := child (opp d) p in
        o ← get other s;
        '(other, s) ←
          (if rb_is_red o then
             s ← upd other rb_set_black s;
             s ← upd parent rb_set_red s;
             s ← rotate d parent s;
             p ← get parent s;
             Ok (child (opp d) p, s)
           else Ok (other, s));
        erase_black_other (erase_color fuel) d parent other s
      else set_black_if node s
  end.

Definition __rb_erase_color : nat -> Z -> Z -> rbs -> res rbs := erase_color.

(** [while (n->rb_left) n = n->rb_left], for either side. *)
Fixpoint descend (fuel : nat) (d : side) (node : Z) (s : rbs) : res Z :=
  match fuel with
  | O => Spin
  | S fuel => n ← get node s; if negb (child d n =? 0) then descend fuel d (child d n) s else Ok node
  end.

(** The successor [node] takes the parent, the colour and the left child of [old]. *)
Definition take_place (old node : Z) (s : rbs) : res rbs :=
  o ← get old s;
  s ← upd node (set_pc (rb_parent_color o)) s;
  s ← upd node (set_child Lf (rb_left o)) s;
  upd (rb_left o) (rb_set_parent node) s.

(** The successor [node] leaves its place below [parent], and takes over the
    right child of [old]. *)
Definition detach (old node child parent : Z) (s : rbs) : res rbs :=
  s ← (if negb (child =? 0) then upd child (rb_set_parent parent) s else Ok s);
  s ← upd parent (set_child Lf child) s;
  o ← get old s;
  s ← upd node (set_child Rt (rb_right o)) s;
  upd (rb_right o) (rb_set_parent node) s.

(** The node has two children: its successor takes its place.  Returns the
    colour that left its place, and the child and parent there. *)
Definition splice_successor (fuel : nat) (old : Z) (s : rbs) : res (Z * Z * Z * rbs) :=
  o ← get old s;
  node ← descend fuel Lf (rb_right o) s;
  s ← relink Lf (rb_parent o) old node s;
  n ← get node s;
  let child := rb_right n in
  let parent := rb_parent n in
  let color := rb_color n in
  '(parent, s) ← (if parent =? old then Ok (node, s) else s ← detach old node child parent s; Ok (parent, s));
  s ← take_place old node s;
  Ok (color, child, parent, s).

(** The node has at most one child. *)
Definition splice_out (node child : Z) (s : rbs) : res (Z * Z * Z * rbs) :=
  n ← get node s;
  let parent := rb_parent n in
  let color := rb_color n in
  s ← (if negb (child =? 0) then upd child (rb_set_parent parent) s else Ok s);
  s ← relink Lf parent node child s;
  Ok (color, child, parent, s).

Definition rb_erase (fuel : nat) (node : Z) (s : rbs) : res rbs :=
  n ← get node s;
  '(color, child, parent, s) ←
    (if rb_left n =? 0 then splice_out node (rb_right n) s
     else if rb_right n =? 0 then splice_out node (rb_left n) s
     else splice_successor fuel node s);
  if color =? RB_BLACK then __rb_erase_color fuel child parent s else Ok s.

(** ** Walking *)
Definition rb_end (d : side) (fuel : nat) (s : rbs) : res Z :=
  if rb_root s =? 0 then Ok 0 else descend fuel d (rb_root s) s.
Definition rb_first : nat -> rbs -> res Z := rb_end Lf.
Definition rb_last : nat -> rbs -> res Z := rb_end Rt.

(** [while ((parent = rb_parent(node)) && node == parent->rb_right)] *)
Fixpoint climb (fuel : nat) (d : side) (node : Z) (s : rbs) : res Z :=
  match fuel with
  | O => Spin
  | S fuel =>
      n ← get node s;
      let parent := rb_parent n in
      if parent =? 0 then Ok 0
      else p ← get parent s; if node =? child d p then climb fuel d parent s else Ok parent
  end.

Definition rb_step (d : side) (fuel : nat) (node : Z) (s : rbs) : res Z :=
  n ← get node s;
  if rb_parent n =? node then Ok 0
  else if negb (child d n =? 0) then descend fuel (opp d) (child d n) s
  else climb fuel d node s.
Definition rb_next : nat -> Z -> rbs -> res Z := rb_step Rt.
Definition rb_prev : nat -> Z -> rbs -> res Z := rb_step Lf.

Definition rb_replace_node (victim new : Z) (s : rbs) : res rbs :=
  v ← get victim s;
  s ← relink Lf (rb_parent v) victim new s;
  s ← (if negb (rb_left v =? 0) then upd (rb_left v) (rb_set_parent new) s else Ok s);
  s ← (if negb (rb_right v =? 0) then upd (rb_right v) (rb_set_parent new) s else Ok s);
  v ← get victim s;
  upd new (fun _ => v) s.

(** ** Nodes in normal form: parent [p], black iff [c], children by side *)
Definition aligned (p : Z) : Prop := 0 <= p /\ p mod 4 = 0.
Definition mk (p : Z) (c : bool) (l r : Z) : rb_node := RbNode (p + Z.b2z c) r l.
Definition mkd (d : side) (p : Z) (c : bool) (x y : Z) : rb_node :=
  match d with Lf => mk p c x y | Rt => mk p c y x end.

Lemma pack_low p k n : aligned p -> 0 <= k < 4 -> 0 <= n <= 2 -> Z.land (p + k) (Z.ones n) = Z.land k (Z.ones n).
Proof.
  intros [Hp Hm] Hk Hn. rewrite !Z.land_ones by lia.
  apply Z.mod_divide in Hm as [q ->]; [|lia].
  assert (n = 0 \/ n = 1 \/ n = 2) as [-> | [-> | ->]] by lia.
  - by rewrite !Z.mod_1_r.
  - replace (q * 4 + k) with (k + q * 2 * 2 ^ 1) by lia. by rewrite Z_mod_plus_full.
  - replace (q * 4 + k) with (k + q * 2 ^ 2) by lia. by rewrite Z_mod_plus_full.
Qed.

Lemma pack_high p k : aligned p -> 0 <= k < 4 -> Z.land (p + k) (Z.lnot 3) = p.
Proof.
  intros [Hp Hm] Hk. change (Z.land ?x (Z.lnot 3)) with (Z.land x (Z.lnot (Z.ones 2))).
  rewrite <- Z.ldiff_land, Z.ldiff_ones_r, Z.shiftr_div_pow2, Z.shiftl_mul_pow2 by lia.
  apply Z.mod_divide in Hm as [q ->]; [|lia]. change (2 ^ 2) with 4.
  rewrite Z.div_add_l, Z.div_small by lia. lia.
Qed.

Lemma pack_lor p k : aligned p -> 0 <= k < 4 -> Z.lor k p = p + k.
Proof.
  intros Hp Hk. rewrite Z.lor_comm. pose proof (Z.add_lor_land p k) as H.
  assert (Z.land p k = 0) as H0; [|lia].
  assert (Hk2 : k = Z.land k (Z.ones 2)) by (rewrite Z.land_ones, Z.mod_small by lia; done).
  rewrite Hk2, (Z.land_comm k), Z.land_assoc, <- (Z.add_0_r p), pack_low by (done || lia). done.
Qed.

Section Fields.
Context (d : side) (p : Z) (c : bool) (x y : Z) (Hp : aligned p).

Lemma mkd_opp : mkd (opp d) p c x y = mkd d p c y x.
Proof. by destruct d. Qed.

Lemma parent_mkd : rb_parent (mkd d p c x y) = p.
Proof. destruct d; apply pack_high; try done; destruct c; simpl; lia. Qed.

Lemma color_mkd : rb_color (mkd d p c x y) = Z.b2z c.
Proof.
  assert (H : Z.land (p + Z.b2z c) (Z.ones 1) = Z.b2z c).
  { rewrite pack_low by (done || lia || (destruct c; simpl; lia)). by destruct c. }
  by destruct d.
Qed.

Lemma is_red_mkd : rb_is_red (mkd d p c x y) = negb c.
Proof. unfold rb_is_red. rewrite color_mkd. by destruct c. Qed.

Lemma is_black_mkd : rb_is_black (mkd d p c x y) = c.
Proof. unfold rb_is_black. rewrite color_mkd. by destruct c. Qed.

Lemma child_mkd : child d (mkd d p c x y) = x.
Proof. by destruct d. Qed.

Lemma child_opp_mkd : child (opp d) (mkd d p c x y) = y.
Proof. by destruct d. Qed.

Lemma set_child_mkd z : set_child d z (mkd d p c x y) = mkd d p c z y.
Proof. by destruct d. Qed.

Lemma set_child_opp_mkd z : set_child (opp d) z (mkd d p c x y) = mkd d p c x z.
Proof. by destruct d. Qed.

Lemma set_pc_mkd p' c' : set_pc (p' + Z.b2z c') (mkd d p c x y) = mkd d p' c' x y.
Proof. by destruct d. Qed.

Lemma pc_mkd : rb_parent_color (mkd d p c x y) = p + Z.b2z c.
Proof. by destruct d. Qed.

Lemma set_parent_mkd p' : aligned p' -> rb_set_parent p' (mkd d p c x y) = mkd d p' c x y.
Proof.
  intros Hp'. unfold rb_set_parent. rewrite pc_mkd. change 3 with (Z.ones 2).
  rewrite pack_low by (done || lia || (destruct c; simpl; lia)).
  replace (Z.land (Z.b2z c) (Z.ones 2)) with (Z.b2z c) by (by destruct c).
  rewrite pack_lor by (done || (destruct c; simpl; lia)). apply set_pc_mkd.
Qed.

Lemma clear_bit0 : Z.land (p + Z.b2z c) (Z.lnot 1) = p.
Proof.
  change 1 with (Z.ones 1). rewrite <- Z.ldiff_land, Z.ldiff_ones_r, Z.shiftr_div_pow2, Z.shiftl_mul_pow2 by lia.
  destruct Hp as [H0 Hm]. apply Z.mod_divide in Hm as [q ->]; [|lia]. change (2 ^ 1) with 2.
  replace (q * 4 + Z.b2z c) with (q * 2 * 2 + Z.b2z c) by lia. rewrite Z.div_add_l by lia.
  rewrite Z.div_small by (destruct c; simpl; lia). lia.
Qed.

Lemma set_color_mkd c' : rb_set_color (Z.b2z c') (mkd d p c x y) = mkd d p c' x y.
Proof.
  unfold rb_set_color. rewrite pc_mkd, clear_bit0, Z.lor_comm, pack_lor by (done || (destruct c'; simpl; lia)). apply set_pc_mkd.
Qed.

Lemma set_red_mkd : rb_set_red (mkd d p c x y) = mkd d p false x y.
Proof.
  unfold rb_set_red. rewrite pc_mkd, clear_bit0. rewrite <- (Z.add_0_r p) at 1. apply (set_pc_mkd p false).
Qed.

Lemma set_black_mkd : rb_set_black (mkd d p c x y) = mkd d p true x y.
Proof.
  unfold rb_set_black. rewrite pc_mkd. rewrite <- (set_pc_mkd p true). f_equal.
  rewrite <- (pack_lor p (Z.b2z c)) by (done || (destruct c; simpl; lia)). rewrite (Z.lor_comm _ p), <- Z.lor_assoc.
  replace (Z.lor (Z.b2z c) 1) with 1 by (by destruct c). rewrite Z.lor_comm. by apply pack_lor.
Qed.
End Fields.

#[export] Hint Rewrite mkd_opp child_mkd child_opp_mkd set_child_mkd set_child_opp_mkd : rb.
#[export] Hint Rewrite parent_mkd color_mkd is_red_mkd is_black_mkd set_parent_mkd set_color_mkd set_red_mkd set_black_mkd
  using (done || eauto with rb) : rb.

(** ** Trees and contexts

    A tree of addresses with colours, and the path from a subtree up to the
    root: a frame is a node with the hole on side [d] and its other child. *)
Inductive tree := E | T (c : bool) (l : tree) (a : Z) (r : tree).
#[export] Instance tree_eq_dec : EqDecision tree.
Proof. solve_decision. Defined.
Inductive frame := Fr (d : side) (c : bool) (a : Z) (s : tree).

Definition mkT (d : side) (c : bool) (a : Z) (x y : tree) : tree :=
  match d with Lf => T c x a y | Rt => T c y a x end.
Definition plug (f : frame) (t : tree) : tree := let '(Fr d c a s) := f in mkT d c a t s.
Fixpoint fill (k : list frame) (t : tree) : tree :=
  match k with [] => t | f :: k => fill k (plug f t) end.

Definition ptr (t : tree) : Z := match t with E => 0 | T _ _ a _ => a end.
Definition par (k : list frame) : Z := match k with [] => 0 | Fr _ _ a _ :: _ => a end.
Fixpoint root_of (k : list frame) (q : Z) : Z :=
  match k with [] => q | Fr _ _ a _ :: k => root_of k a end.

(** The nodes in order. *)
Fixpoint addrs (t : tree) : list Z :=
  match t with E => [] | T _ l a r => addrs l ++ a :: addrs r end.
Fixpoint kaddrs (k : list frame) : list Z :=
  match k with [] => [] | Fr _ _ a s :: k => a :: addrs s ++ kaddrs k end.

(** The memory holds the tree below a parent [p]; the path above a hole [q]. *)
Fixpoint rep (h : gmap Z rb_node) (p : Z) (t : tree) : Prop :=
  match t with
  | E => True
  | T c l a r => h !! a = Some (mk p c (ptr l) (ptr r)) /\ rep h a l /\ rep h a r
  end.
Fixpoint repk (h : gmap Z rb_node) (k : list frame) (q : Z) : Prop :=
  match k with
  | [] => True
  | Fr d c a s :: k => h !! a = Some (mkd d (par k) c q (ptr s)) /\ rep h a s /\ repk h k a
  end.

Definition addr_ok (a : Z) : Prop := 0 < a /\ a mod 4 = 0.
Definition good (l : list Z) : Prop := NoDup l /\ Forall addr_ok l.

(** The state holds exactly the tree [t]. *)
Definition shape (s : rbs) (t : tree) : Prop :=
  rep (mem s) 0 t /\ rb_root s = ptr t /\ good (addrs t).

(** The same, seen from the subtree [t] in the context [k]. *)
Record focus (s : rbs) (k : list frame) (t : tree) : Prop := {
  fo_rep : rep (mem s) (par k) t;
  fo_ctx : repk (mem s) k (ptr t);
  fo_root : rb_root s = root_of k (ptr t);
  fo_good : good (addrs t ++ kaddrs k)
}.

#[export] Instance good_perm : Proper ((≡ₚ) ==> iff) good.
Proof. intros l l' H. unfold good. by rewrite H. Qed.

Lemma rep_mkT h p d c a x y :
  rep h p (mkT d c a x y) <-> h !! a = Some (mkd d p c (ptr x) (ptr y)) /\ rep h a x /\ rep h a y.
Proof. destruct d; simpl; tauto. Qed.

Lemma ptr_mkT d c a x y : ptr (mkT d c a x y) = a.
Proof. by destruct d. Qed.

Lemma addrs_mkT d c a x y : addrs (mkT d c a x y) ≡ₚ a :: addrs x ++ addrs y.
Proof.
  destruct d; simpl; [by rewrite <- Permutation_middle|]. rewrite <- Permutation_middle. by rewrite (Permutation_app_comm (addrs x)).
Qed.

Lemma addrs_fill k : forall t, addrs (fill k t) ≡ₚ addrs t ++ kaddrs k.
Proof.
  induction k as [|[d c a s] k IH]; intros t; simpl; [by rewrite app_nil_r|].
  rewrite IH, addrs_mkT. simpl. rewrite <- app_assoc. apply Permutation_middle.
Qed.

Lemma rep_fill h k : forall t, rep h 0 (fill k t) <-> rep h (par k) t /\ repk h k (ptr t).
Proof.
  induction k as [|[d c a s] k IH]; intros t; simpl; [tauto|]. rewrite IH, rep_mkT, ptr_mkT. tauto.
Qed.

Lemma ptr_fill k : forall t, ptr (fill k t) = root_of k (ptr t).
Proof. induction k as [|[d c a s] k IH]; intros t; simpl; [done|]. by rewrite IH, ptr_mkT. Qed.

Lemma shape_focus s k t : shape s (fill k t) <-> focus s k t.
Proof.
  unfold shape. rewrite rep_fill, ptr_fill, addrs_fill.
  split; [intros ((? & ?) & ? & ?); by split|intros [? ? ? ?]; tauto].
Qed.

Lemma focus_up s d c a x k t : focus s (Fr d c a x :: k) t -> focus s k (mkT d c a t x).
Proof. by rewrite <- !shape_focus. Qed.

Lemma focus_down s d c a x k t : focus s k (mkT d c a t x) -> focus s (Fr d c a x :: k) t.
Proof. by rewrite <- !shape_focus. Qed.

Lemma addr_ok_ne a : addr_ok a -> a <> 0.
Proof. intros []. lia. Qed.

Lemma addr_ok_aligned a : addr_ok a -> aligned a.
Proof. intros []. split; [lia|done]. Qed.

Lemma aligned_0 : aligned 0.
Proof. done. Qed.
#[export] Hint Resolve addr_ok_aligned aligned_0 addr_ok_ne : rb.

Lemma good_ok l a : good l -> a ∈ l -> addr_ok a.
Proof. intros [_ H] Hin. exact (proj1 (Forall_forall _ _) H a Hin). Qed.

Lemma par_aligned s k t : focus s k t -> aligned (par k).
Proof.
  intros Hf. destruct k as [|[d c a x] k]; [done|]. simpl. apply addr_ok_aligned.
  eapply good_ok; [apply Hf|]. simpl. apply elem_of_app. right. left.
Qed.

(** Memory outside a subtree or context does not matter. *)
Lemma rep_ext h h' p t : (forall a, a ∈ addrs t -> h' !! a = h !! a) -> rep h p t -> rep h' p t.
Proof.
  revert p. induction t as [|c l IHl a r IHr]; intros p Hext; [done|]. intros (Ha & Hl & Hr). simpl in *.
  split_and!; [rewrite Hext; [done|]|apply IHl; [|done]|apply IHr; [|done]]; intros; try apply Hext; rewrite !elem_of_app, elem_of_cons; tauto.
Qed.

Lemma repk_ext h h' k q : (forall a, a ∈ kaddrs k -> h' !! a = h !! a) -> repk h k q -> repk h' k q.
Proof.
  revert q. induction k as [|[d c a s] k IH]; intros q Hext; [done|]. intros (Ha & Hs & Hk). simpl in *.
  split_and!; [rewrite Hext; [done|left]|apply (rep_ext h); [|done]|apply IH; [|done]];
    intros; apply Hext; right; rewrite elem_of_app; tauto.
Qed.

Lemma get_ok a h r n : h !! a = Some n -> a <> 0 -> get a (Rbs h r) = Ok n.
Proof. intros H Ha. unfold get. rewrite (proj2 (Z.eqb_neq a 0) Ha). simpl. by rewrite H. Qed.

Lemma upd_ok a f h r n : h !! a = Some n -> a <> 0 -> upd a f (Rbs h r) = Ok (Rbs (<[a := f n]> h) r).
Proof. intros H Ha. unfold upd. by rewrite (get_ok a h r n). Qed.

(** [flat_nd H] breaks a [NoDup] fact into inequalities and non-memberships. *)
Ltac flat_nd H :=
  lazymatch type of H with
  | NoDup (_ :: _) => let H1 := fresh "Hni" in let H2 := fresh "Hnd" in
      apply NoDup_cons in H as [H1 H2]; flat_nd H1; flat_nd H2
  | NoDup (_ ++ _) => let H1 := fresh "Hnd" in let H2 := fresh "Hdj" in let H3 := fresh "Hnd" in
      apply NoDup_app in H as (H1 & H2 & H3); flat_nd H1; flat_nd H3
  | NoDup [] => clear H
  | _ ∉ _ :: _ => let H1 := fresh "Hne" in let H2 := fresh "Hni" in
      apply not_elem_of_cons in H as [H1 H2]; flat_nd H2
  | _ ∉ _ ++ _ => let H1 := fresh "Hni" in let H2 := fresh "Hni" in
      apply not_elem_of_app in H as [H1 H2]; flat_nd H1; flat_nd H2
  | _ ∉ [] => clear H
  | _ => idtac
  end.

(** A subtree gets a new parent. *)
Lemma rep_reparent h h' p p' t :
  aligned p -> aligned p' -> rep h p t -> good (addrs t) ->
  (forall n, t <> E -> h !! ptr t = Some n -> h' !! ptr t = Some (rb_set_parent p' n)) ->
  (forall a, a ∈ addrs t -> a <> ptr t -> h' !! a = h !! a) -> rep h' p' t.
Proof.
  intros Hp Hp' Hrep [Hnd _] Hroot Hext. destruct t as [|c l a r]; [done|]. simpl in *. destruct Hrep as (Ha & Hl & Hr).
  apply NoDup_app in Hnd as (_ & Hla & Hra). apply NoDup_cons in Hra as [Hra _]. split_and!.
  - rewrite (Hroot _ ltac:(done) Ha). f_equal. by apply (set_parent_mkd Lf).
  - apply (rep_ext h); [|done]. intros b Hb. apply Hext; [by rewrite elem_of_app; left|].
    intros ->. by apply (Hla a Hb); left.
  - apply (rep_ext h); [|done]. intros b Hb. apply Hext; [rewrite elem_of_app, elem_of_cons; tauto|]. by intros ->.
Qed.

(** The hole of a context is filled by another node. *)
Lemma repk_relink h h' k q q' :
  repk h k q -> good (kaddrs k) ->
  (forall d c a s k0, k = Fr d c a s :: k0 -> h' !! a = Some (mkd d (par k0) c q' (ptr s))) ->
  (forall a, a ∈ kaddrs k -> a <> par k -> h' !! a = h !! a) -> repk h' k q'.
Proof.
  intros Hk [Hnd _] Hhole Hext. destruct k as [|[d c a s] k]; [done|]. simpl in *. destruct Hk as (_ & Hs & Hk).
  apply NoDup_cons in Hnd as [Hni _]. apply not_elem_of_app in Hni as [Hns Hnk]. split_and!.
  - by eapply Hhole.
  - apply (rep_ext h); [|done]. intros b Hb. apply Hext; [right; apply elem_of_app; by left|]. by intros ->.
  - apply (repk_ext h); [|done]. intros b Hb. apply Hext; [right; apply elem_of_app; by right|]. by intros ->.
Qed.

(** What [relink] does when the old child sits in the hole. *)
Lemma relink_spec d h k old new r :
  repk h k old -> old <> 0 -> good (old :: kaddrs k) -> aligned (par k) ->
  exists h', relink d (par k) old new (Rbs h r) = Ok (Rbs h' (if decide (k = []) then new else r)) /\
    (forall d0 c a s k0, k = Fr d0 c a s :: k0 -> h' !! a = Some (mkd d0 (par k0) c new (ptr s))) /\
    (forall a, a <> par k -> h' !! a = h !! a) /\ (k = [] -> h' = h).
Proof.
  intros Hk Hold Hg Hal. unfold relink. destruct k as [|[d0 c a s] k]; simpl.
  { exists h. by split_and!. }
  destruct Hk as (Ha & Hs & Hk).
  assert (Hok : addr_ok a) by (apply (good_ok _ a Hg); simpl; right; left).
  rewrite (proj2 (Z.eqb_neq a 0)) by (by apply addr_ok_ne). cbn [negb].
  rewrite (get_ok a h r _ Ha) by (by apply addr_ok_ne). rewrite res_bind_ok.
  rewrite (upd_ok a _ h r _ Ha) by (by apply addr_ok_ne). eexists. split; [done|].
  split_and!; [|by intros b Hb; rewrite lookup_insert_ne by congruence|done].
  intros d1 c1 a1 s1 k1 [= <- <- <- <- <-]. rewrite lookup_insert_eq. f_equal.
  assert (Hos : old <> ptr s).
  { destruct s as [|cs ls as_ rs]; [done|]. simpl. intros ->. destruct Hg as [Hnd _]. apply NoDup_cons in Hnd as [Hni _].
    apply Hni. right. simpl. rewrite !elem_of_app. left. right. left. }
  destruct d, d0; simpl; rewrite ?Z.eqb_refl, ?(proj2 (Z.eqb_neq old (ptr s)) Hos); done.
Qed.

(** [if (m) rb_set_parent(m, p)] *)
Lemma set_parent_if_spec h r q t p :
  rep h q t -> good (addrs t) ->
  exists h', (if negb (ptr t =? 0) then upd (ptr t) (rb_set_parent p) (Rbs h r) else Ok (Rbs h r)) = Ok (Rbs h' r) /\
    (forall n, t <> E -> h !! ptr t = Some n -> h' !! ptr t = Some (rb_set_parent p n)) /\
    (forall a, t = E \/ a <> ptr t -> h' !! a = h !! a).
Proof.
  intros Hr Hg. destruct t as [|c l a x]; simpl.
  { exists h. by split_and!. }
  destruct Hr as (Ha & _). assert (Hok : addr_ok a) by (apply (good_ok _ a Hg); simpl; rewrite elem_of_app; right; left).
  rewrite (proj2 (Z.eqb_neq a 0)) by (by apply addr_ok_ne). cbn [negb]. rewrite (upd_ok a _ h r _ Ha) by (by apply addr_ok_ne).
  eexists. split; [done|]. split; [intros n _ Hn; rewrite lookup_insert_eq; congruence|].
  intros b [|Hb]; [done|]. by rewrite lookup_insert_ne.
Qed.

Lemma ptr_in t : t <> E -> ptr t ∈ addrs t.
Proof. destruct t; [done|]. intros _. simpl. rewrite elem_of_app. right. left. Qed.

Lemma good_sub l l' : good l' -> l ⊆+ l' -> good l.
Proof.
  intros [Hnd Hf] [k Hs]%submseteq_Permutation. rewrite Hs in Hnd, Hf.
  apply NoDup_app in Hnd as (? & _). by apply Forall_app in Hf as [? _].
Qed.

Lemma good_app_l l l' : good (l ++ l') -> good l.
Proof. intros H. eapply good_sub; [exact H|]. apply submseteq_inserts_r. done. Qed.

Lemma good_app_r l l' : good (l ++ l') -> good l'.
Proof. intros H. eapply good_sub; [exact H|]. apply submseteq_inserts_l. done. Qed.

Lemma good_cons a l : good (a :: l) -> addr_ok a /\ a ∉ l /\ good l.
Proof. intros [Hnd Hf]. apply NoDup_cons in Hnd as [??]. apply Forall_cons in Hf as [??]. done. Qed.

Lemma good_disj l l' a : good (l ++ l') -> a ∈ l -> a ∈ l' -> False.
Proof. intros [Hnd _] H1 H2. apply NoDup_app in Hnd as (_ & H & _). by apply (H a). Qed.

(** The rotation of a focused subtree. *)
Lemma rotate_spec (d : side) (s : rbs) (k : list frame) (c c' : bool) (x y : Z) (A M B : tree) :
  focus s k (mkT d c x A (mkT d c' y M B)) ->
  exists s', rotate d x s = Ok s' /\ focus s' k (mkT d c' y (mkT d c x A M) B).
Proof.
  intros Hf. pose proof (par_aligned _ _ _ Hf) as HP. destruct Hf as [Hrep Hctx Hroot Hg]. destruct s as [h0 r0]. simpl in *.
  rewrite ptr_mkT in Hctx, Hroot. apply rep_mkT in Hrep as (Hx & HA & HMB). apply rep_mkT in HMB as (Hy & HM & HB).
  rewrite ptr_mkT in Hx. rewrite !addrs_mkT in Hg. set (P := par k) in *.
  assert (Hg' : good (x :: y :: addrs M ++ addrs A ++ addrs B ++ kaddrs k)).
  { eapply good_perm; [|exact Hg]. simpl. apply Permutation_cons; [done|]. rewrite <- !Permutation_middle. simpl.
    rewrite <- !app_assoc. apply Permutation_cons; [done|]. rewrite !app_assoc. do 2 f_equiv. apply Permutation_app_comm. }
  rename Hg into Hg0. apply good_cons in Hg' as (Hxok & Hxn & Hg). apply good_cons in Hg as (Hyok & Hyn & Hg).
  pose proof (good_app_l _ _ Hg) as HgM. pose proof (fun a => good_disj _ _ a Hg) as HdM. apply good_app_r in Hg.
  pose proof (fun a => good_disj _ _ a Hg) as HdA. pose proof (good_app_r _ _ Hg) as HgBk.
  pose proof (fun a => good_disj _ _ a HgBk) as HdB.
  assert (Hxy : x <> y) by (intros ->; apply Hxn; left). apply not_elem_of_cons in Hxn as [_ Hxn].
  assert (Hk_ok : good (x :: kaddrs k)).
  { split; [apply NoDup_cons; split; [|by apply (good_app_r _ _ HgBk)]|constructor; [done|by apply (good_app_r _ _ HgBk)]].
    rewrite !elem_of_app in Hxn. tauto. }
  unfold rotate. rewrite (get_ok x h0 r0 _ Hx) by auto with rb. rewrite res_bind_ok.
  rewrite child_opp_mkd, parent_mkd by done. rewrite (get_ok y h0 r0 _ Hy) by auto with rb.
  rewrite res_bind_ok, child_mkd. rewrite (upd_ok x _ h0 r0 _ Hx), res_bind_ok, set_child_opp_mkd by auto with rb.
  set (h1 := <[x := _]> h0).
  assert (HM1 : rep h1 y M).
  { apply (rep_ext h0); [|done]. intros b Hb. unfold h1. rewrite lookup_insert_ne; [done|]. intros ->.
    rewrite !elem_of_app in Hxn. tauto. }
  destruct (set_parent_if_spec h1 r0 y M x HM1 HgM) as (h2 & -> & HM2 & Hext2). rewrite res_bind_ok.
  assert (Hne : forall b, b ∉ addrs M -> h2 !! b = h1 !! b).
  { intros b Hb. apply Hext2. destruct (decide (M = E)); [by left|]. right. intros ->. by apply Hb, ptr_in. }
  rewrite !elem_of_app in Hxn, Hyn.
  assert (Hx2 : h2 !! x = Some (mkd d P c (ptr A) (ptr M))) by (rewrite Hne by tauto; unfold h1; by rewrite lookup_insert_eq).
  assert (Hy2 : h2 !! y = Some (mkd d x c' (ptr M) (ptr B))) by (rewrite Hne by tauto; unfold h1; by rewrite lookup_insert_ne).
  rewrite (upd_ok y _ h2 r0 _ Hy2), res_bind_ok, set_child_mkd by auto with rb.
  erewrite (upd_ok y _ _ r0); [|by rewrite lookup_insert_eq|by auto with rb]. rewrite res_bind_ok, insert_insert_eq, set_parent_mkd by auto with rb.
  set (h4 := <[y := _]> h2).
  assert (H4 : forall b, b <> x -> b <> y -> b ∉ addrs M -> h4 !! b = h0 !! b).
  { intros b Hb1 Hb2 Hb3. unfold h4. rewrite lookup_insert_ne, Hne by done. unfold h1. by rewrite lookup_insert_ne. }
  assert (Hctx4 : repk h4 k x).
  { apply (repk_ext h0); [|done]. intros b Hb. apply H4; [intros ->; tauto..|]. intros HbM. apply (HdM b); [done|]. rewrite !elem_of_app. tauto. }
  destruct (relink_spec d h4 k x y r0 Hctx4 ltac:(auto with rb) Hk_ok HP) as (h5 & Hrl & Hhole & Hext5 & Hnil).
  fold P in Hrl. rewrite Hrl, res_bind_ok. clear Hrl.
  assert (HPx : par k <> x \/ k = []).
  { destruct k as [|[d0 c0 a0 s0] k0]; [by right|left]. simpl. intros ->. apply good_cons in Hk_ok as (_ & Hn & _). apply Hn. left. }
  assert (H5 : forall b, b ∉ kaddrs k -> h5 !! b = h4 !! b).
  { intros b Hb. destruct k as [|[d0 c0 a0 s0] k0]; [by rewrite Hnil|]. apply Hext5. simpl. intros ->. apply Hb. left. }
  assert (Hx5 : h5 !! x = Some (mkd d P c (ptr A) (ptr M))).
  { rewrite H5 by tauto. unfold h4. by rewrite lookup_insert_ne by congruence. }
  assert (Hy5 : h5 !! y = Some (mkd d P c' x (ptr B))) by (rewrite H5 by tauto; unfold h4; by rewrite lookup_insert_eq).
  erewrite (upd_ok x); [|exact Hx5|by auto with rb]. rewrite set_parent_mkd by auto with rb.
  eexists. split; [done|]. set (h6 := <[x := _]> h5).
  assert (H6 : forall b, b <> x -> h6 !! b = h5 !! b) by (intros; unfold h6; by rewrite lookup_insert_ne).
  assert (Hsub : forall t, (forall b, b ∈ addrs t -> b ∉ addrs M /\ b ∉ kaddrs k /\ b <> x /\ b <> y) -> forall q, rep h0 q t -> rep h6 q t).
  { intros t Ht q. apply rep_ext. intros b Hb. destruct (Ht b Hb) as (? & ? & ? & ?). rewrite H6, H5, H4 by done. done. }
  split; simpl.
  - apply rep_mkT. rewrite ptr_mkT. split_and!; [rewrite H6 by done; exact Hy5| |].
    + apply rep_mkT. split_and!; [unfold h6; by rewrite lookup_insert_eq| |].
      * apply Hsub; [|done]. intros b Hb. split_and!; [intros ?|intros ?|intros ->; tauto..].
        -- apply (HdM b); [done|]. rewrite !elem_of_app. tauto.
        -- apply (HdA b); [done|]. rewrite !elem_of_app. tauto.
      * assert (HMsame : forall b, b ∈ addrs M -> h6 !! b = h2 !! b).
        { intros b Hb. rewrite H6 by (intros ->; tauto). rewrite H5 by (intros ?; apply (HdM b); [done|rewrite !elem_of_app; tauto]).
          unfold h4. rewrite lookup_insert_ne; [done|]. intros ->. tauto. }
        apply (rep_reparent h1 h6 y x M); auto with rb.
        -- intros n HE Hn. rewrite HMsame by (by apply ptr_in). by apply HM2.
        -- intros b Hb Hbm. rewrite HMsame by done. apply Hext2. by right.
    + apply Hsub; [|done]. intros b Hb. split_and!; [intros ?|intros ?|intros ->; tauto..].
      * apply (HdM b); [done|]. rewrite !elem_of_app. tauto.
      * apply (HdB b); done.
  - rewrite ptr_mkT. apply (repk_relink h4 h6 k x y); [done|by apply good_cons in Hk_ok as (_ & _ & ?)| |].
    + intros d0 c0 a0 s0 k0 ->. rewrite H6; [by eapply Hhole|]. destruct HPx as [HPx|]; [exact HPx|done].
    + intros b Hb Hbp. rewrite H6 by (intros ->; tauto). by apply Hext5.
  - rewrite ptr_mkT. destruct k as [|[d0 c0 a0 s0] k0]; [done|]. exact Hroot.
  - rewrite !addrs_mkT. eapply good_perm; [|exact Hg0]. simpl. rewrite <- !app_assoc. simpl.
    rewrite <- Permutation_middle, <- !app_assoc. apply Permutation_swap.
Qed.

(** ** Reading and recolouring at the focus *)
Definition black (t : tree) : bool := match t with E => true | T c _ _ _ => c end.

Lemma mkT_opp d c a x y : mkT (opp d) c a x y = mkT d c a y x.
Proof. by destruct d. Qed.

(** The same node seen from another side. *)
Lemma mkT_as (P : tree -> Prop) d' d c a x y :
  P x -> P y -> exists x' y', mkT d c a x y = mkT d' c a x' y' /\ P x' /\ P y'.
Proof. destruct d, d'; eauto. Qed.

Lemma black_mkT d c a x y : black (mkT d c a x y) = c.
Proof. by destruct d. Qed.

Lemma focus_swap s d c a x k t : focus s (Fr d c a x :: k) t -> focus s (Fr (opp d) c a t :: k) x.
Proof. intros Hf. apply focus_down. rewrite mkT_opp. by apply focus_up. Qed.

Lemma focus_addr s k d c a x y : focus s k (mkT d c a x y) -> addr_ok a.
Proof.
  intros Hf. eapply good_ok; [apply (fo_good _ _ _ Hf)|]. rewrite elem_of_app. left. rewrite addrs_mkT. left.
Qed.

Lemma focus_get s k d c a x y : focus s k (mkT d c a x y) -> get a s = Ok (mkd d (par k) c (ptr x) (ptr y)).
Proof.
  intros Hf. pose proof (focus_addr _ _ _ _ _ _ _ Hf) as Ha. destruct Hf as [Hr _ _ _]. destruct s as [h r].
  apply rep_mkT in Hr as (Hr & _). apply get_ok; auto with rb.
Qed.

Lemma focus_recolor f c' s k d c a x y :
  focus s k (mkT d c a x y) -> f (mkd d (par k) c (ptr x) (ptr y)) = mkd d (par k) c' (ptr x) (ptr y) ->
  exists s', upd a f s = Ok s' /\ focus s' k (mkT d c' a x y).
Proof.
  intros Hf Hc. pose proof (focus_addr _ _ _ _ _ _ _ Hf) as Ha. destruct Hf as [Hr Hk Hroot Hg]. destruct s as [h r]. simpl in *.
  apply rep_mkT in Hr as (Hr & Hx & Hy). rewrite (upd_ok a _ h r _ Hr), Hc by auto with rb. eexists. split; [done|].
  rewrite addrs_mkT in Hg. assert (Hn : a ∉ (addrs x ++ addrs y) ++ kaddrs k) by (by apply good_cons in Hg as (_ & ? & _)).
  rewrite !elem_of_app in Hn. rewrite ptr_mkT in *.
  assert (Hne : forall b, b <> a -> <[a := mkd d (par k) c' (ptr x) (ptr y)]> h !! b = h !! b) by (intros; by rewrite lookup_insert_ne).
  split; simpl.
  - apply rep_mkT. split_and!; [by rewrite lookup_insert_eq|apply (rep_ext h); [|done]|apply (rep_ext h); [|done]];
      intros b Hb; apply Hne; intros ->; tauto.
  - rewrite ptr_mkT. apply (repk_ext h); [|done]. intros b Hb. apply Hne. intros ->; tauto.
  - by rewrite ptr_mkT.
  - by rewrite addrs_mkT.
Qed.

Lemma focus_black s k d c a x y : focus s k (mkT d c a x y) ->
  exists s', upd a rb_set_black s = Ok s' /\ focus s' k (mkT d true a x y).
Proof. intros Hf. apply (focus_recolor _ true _ _ _ c); [done|]. apply set_black_mkd. by eapply par_aligned. Qed.

Lemma focus_red s k d c a x y : focus s k (mkT d c a x y) ->
  exists s', upd a rb_set_red s = Ok s' /\ focus s' k (mkT d false a x y).
Proof. intros Hf. apply (focus_recolor _ false _ _ _ c); [done|]. apply set_red_mkd. by eapply par_aligned. Qed.

Lemma focus_is_black s k t : focus s k t -> is_black_at (ptr t) s = Ok (black t).
Proof.
  intros Hf. destruct t as [|c l a r]; [done|]. unfold is_black_at. simpl.
  pose proof (focus_addr _ _ Lf c a l r Hf) as Ha. rewrite (proj2 (Z.eqb_neq a 0)) by auto with rb.
  rewrite (focus_get s k Lf c a l r Hf), res_bind_ok, is_black_mkd; [done|]. by eapply par_aligned.
Qed.

Lemma focus_is_red s k t : focus s k t -> is_red_at (ptr t) s = Ok (negb (black t)).
Proof.
  intros Hf. destruct t as [|c l a r]; [done|]. unfold is_red_at. simpl.
  pose proof (focus_addr _ _ Lf c a l r Hf) as Ha. rewrite (proj2 (Z.eqb_neq a 0)) by auto with rb.
  rewrite (focus_get s k Lf c a l r Hf), res_bind_ok, is_red_mkd; [done|]. by eapply par_aligned.
Qed.

(** The children of a node are different, unless both are missing. *)
Lemma ptr_ne s k d c a x y : focus s k (mkT d c a x y) -> x <> E \/ y <> E -> ptr x <> ptr y.
Proof.
  intros Hf Hne Heq. pose proof (fo_good _ _ _ Hf) as Hg. rewrite addrs_mkT in Hg. apply good_app_l in Hg.
  apply good_cons in Hg as (_ & _ & Hg).
  assert (Hz : forall t, t <> E -> t = x \/ t = y -> ptr t <> 0).
  { intros t Ht Hor. apply addr_ok_ne. apply (good_ok _ _ Hg). rewrite elem_of_app. destruct Hor as [-> | ->]; [left|right]; by apply ptr_in. }
  destruct (decide (x = E)) as [Hx|Hx], (decide (y = E)) as [Hy|Hy]; [tauto|..].
  - apply (Hz y); auto. by rewrite <- Heq, Hx.
  - apply (Hz x); auto. by rewrite Heq, Hy.
  - apply (good_disj _ _ (ptr x) Hg); [by apply ptr_in|]. rewrite Heq. by apply ptr_in.
Qed.

Lemma side_of_child d p c x y : x <> y -> (if x =? rb_left (mkd d p c x y) then Lf else Rt) = d.
Proof. intros H. destruct d; simpl; [by rewrite Z.eqb_refl|]. by rewrite (proj2 (Z.eqb_neq x y) H). Qed.

(** ** The red-black invariant: no red node has a red child, and every path
    down has the same number [n] of black nodes *)
Inductive rb : nat -> tree -> Prop :=
| rb_E : rb 0 E
| rb_R n l a r : rb n l -> rb n r -> black l = true -> black r = true -> rb n (T false l a r)
| rb_B n l a r : rb n l -> rb n r -> rb (S n) (T true l a r).

Definition top_black (k : list frame) : bool := match k with Fr _ c _ _ :: _ => c | [] => false end.

(** A context that makes a red-black tree of a black tree of height [n]. *)
Inductive kok : list frame -> nat -> Prop :=
| kok_nil n : kok [] n
| kok_B d a s k n : rb n s -> kok k (S n) -> kok (Fr d true a s :: k) n
| kok_R d a s k n : rb n s -> black s = true -> top_black k = true -> kok k n -> kok (Fr d false a s :: k) n.

Definition top_red (k : list frame) : bool := match k with Fr _ c _ _ :: _ => negb c | [] => false end.
Definition blacken (t : tree) : tree := match t with E => E | T _ l a r => T true l a r end.

Lemma rb_mkT_R d n a x y : rb n x -> rb n y -> black x = true -> black y = true -> rb n (mkT d false a x y).
Proof. intros. destruct d; by constructor. Qed.

Lemma rb_mkT_B d n a x y : rb n x -> rb n y -> rb (S n) (mkT d true a x y).
Proof. intros. destruct d; by constructor. Qed.

Lemma rb_mkT_inv d n c a x y : rb n (mkT d c a x y) ->
  if c then exists m, n = S m /\ rb m x /\ rb m y else rb n x /\ rb n y /\ black x = true /\ black y = true.
Proof. intros H. destruct d, c; inversion H; subst; eauto 6. Qed.

#[export] Hint Resolve rb_E rb_mkT_R rb_mkT_B black_mkT : rb.
#[export] Hint Constructors kok : rb.

Lemma fill_rb k : forall n t, kok k n -> rb n t -> (top_red k = true -> black t = true) -> k <> [] -> exists m, rb m (fill k t).
Proof.
  induction k as [|[d c a s] k IH]; intros n t Hk Ht Hc Hne; [done|]. simpl.
  assert (Hgo : forall m, rb m (mkT d c a t s) -> kok k m -> (top_red k = true -> c = true) -> exists m', rb m' (fill k (mkT d c a t s))).
  { intros m Hm Hkm Hcc. destruct k as [|f k]; [by exists m|]. apply (IH m); auto. rewrite black_mkT. auto. }
  inversion Hk; subst.
  - apply (Hgo (S n)); auto with rb.
  - apply (Hgo n); auto with rb. destruct k as [|[? [] ? ?] ?]; done.
Qed.

Lemma rb_blacken n t : rb n t -> exists m, rb m (blacken t).
Proof. intros [|m l a r|m l a r]; [exists 0%nat|exists (S m)|exists (S m)]; by constructor. Qed.

(** The loop may leave a red root. *)
Lemma fill_rb_root k n t : kok k n -> rb n t -> (top_red k = true -> black t = true) -> exists m, rb m (blacken (fill k t)).
Proof.
  intros Hk Ht Hc. destruct (decide (k = [])) as [->|Hne]; [by apply (rb_blacken n)|].
  destruct (fill_rb k n t Hk Ht Hc Hne) as [m Hm]. by apply (rb_blacken m).
Qed.

Lemma addrs_fill_eq k : forall t t', addrs t = addrs t' -> addrs (fill k t) = addrs (fill k t').
Proof.
  induction k as [|[d c a s] k IH]; intros t t' H; simpl; [done|]. apply IH. destruct d; simpl; by rewrite H.
Qed.

Lemma addrs_rotate d c c' x y A M B c1 c2 :
  addrs (mkT d c x A (mkT d c' y M B)) = addrs (mkT d c1 y (mkT d c2 x A M) B).
Proof. destruct d; simpl; rewrite <- !app_assoc; done. Qed.

Lemma addrs_color d c c' a x y : addrs (mkT d c a x y) = addrs (mkT d c' a x y).
Proof. by destruct d. Qed.

(** The loop ends at once under a black parent or at the root. *)
Lemma insert_stop fuel s k d c a x y :
  focus s k (mkT d c a x y) -> top_red k = false -> insert_loop (S fuel) a s = Ok s.
Proof.
  intros Hf Hk. cbn [insert_loop]. rewrite (focus_get _ _ _ _ _ _ _ Hf), res_bind_ok, parent_mkd by (by eapply par_aligned).
  destruct k as [|[d1 [] p sib] k]; [done| |done]. apply focus_up in Hf. simpl.
  rewrite (proj2 (Z.eqb_neq p 0)) by (eapply addr_ok_ne, focus_addr, Hf).
  rewrite (focus_get _ _ _ _ _ _ _ Hf), res_bind_ok, is_red_mkd by (by eapply par_aligned). done.
Qed.

(** The outer rotation: black parent on top of two red nodes. *)
Lemma insert_finish fuel s k d g u p q A B C :
  focus s (Fr d true g u :: k) (mkT d false p (mkT d false q A B) C) ->
  exists s', (s ← upd p rb_set_black s; s ← upd g rb_set_red s; s ← rotate (opp d) g s; insert_loop (S fuel) q s) = Ok s' /\
    focus s' k (mkT d true p (mkT d false q A B) (mkT d false g C u)).
Proof.
  intros Hf. destruct (focus_black _ _ _ _ _ _ _ Hf) as (s1 & -> & Hf1). rewrite res_bind_ok. apply focus_up in Hf1.
  destruct (focus_red _ _ _ _ _ _ _ Hf1) as (s2 & -> & Hf2). rewrite res_bind_ok.
  rewrite <- mkT_opp, <- (mkT_opp d true) in Hf2.
  destruct (rotate_spec _ _ _ _ _ _ _ _ _ _ Hf2) as (s3 & -> & Hf3). rewrite res_bind_ok. rewrite !mkT_opp in Hf3.
  exists s3. split; [|done]. apply focus_down, (insert_stop fuel) in Hf3; done.
Qed.

(** One step of the loop, below a red parent and its black parent [g]. *)
Lemma insert_loop_red fuel s k d1 d2 p g sib u d a x y :
  focus s (Fr d1 false p sib :: Fr d2 true g u :: k) (mkT d false a x y) ->
  insert_loop (S fuel) a s =
    (if negb (black u) then
       s ← upd (ptr u) rb_set_black s; s ← upd p rb_set_black s; s ← upd g rb_set_red s; insert_loop fuel g s
     else
       '(node, parent, s) ← (if decide (d1 = opp d2) then s ← rotate d2 p s; Ok (p, a, s) else Ok (a, p, s));
       s ← upd parent rb_set_black s; s ← upd g rb_set_red s; s ← rotate (opp d2) g s; insert_loop fuel node s).
Proof.
  intros Hf. pose proof (focus_up _ _ _ _ _ _ _ Hf) as Hp. pose proof (focus_up _ _ _ _ _ _ _ Hp) as Hg.
  assert (Ha : a <> 0) by (eapply addr_ok_ne, focus_addr, Hf).
  assert (Hp0 : p <> 0) by (eapply addr_ok_ne, focus_addr, Hp).
  assert (Hg0 : g <> 0) by (eapply addr_ok_ne, focus_addr, Hg).
  pose proof (par_aligned _ _ _ Hf) as Al1. pose proof (par_aligned _ _ _ Hp) as Al2. pose proof (par_aligned _ _ _ Hg) as Al3.
  assert (HneT : forall dd cc aa (t1 t2 : tree), mkT dd cc aa t1 t2 <> E) by (by intros []).
  pose proof (ptr_ne _ _ _ _ _ _ _ Hp (or_introl (HneT _ _ _ _ _))) as Hn1. rewrite ptr_mkT in Hn1.
  pose proof (ptr_ne _ _ _ _ _ _ _ Hg (or_introl (HneT _ _ _ _ _))) as Hn2. rewrite ptr_mkT in Hn2.
  cbn [insert_loop]. rewrite (focus_get _ _ _ _ _ _ _ Hf), res_bind_ok, parent_mkd by done. cbn [par].
  rewrite (proj2 (Z.eqb_neq p 0) Hp0). rewrite (focus_get _ _ _ _ _ _ _ Hp), res_bind_ok, is_red_mkd by done. cbn [negb].
  rewrite parent_mkd by done. cbn [par]. rewrite (focus_get _ _ _ _ _ _ _ Hg), res_bind_ok, !ptr_mkT.
  rewrite side_of_child, child_opp_mkd by done.
  rewrite (focus_is_red s (Fr (opp d2) true g (mkT d1 false p (mkT d false a x y) sib) :: k) u), res_bind_ok
    by (by apply focus_swap, focus_down).
  destruct (black u); cbn [negb]; [|done]. f_equal.
  destruct d1, d2; simpl; rewrite ?Z.eqb_refl, ?(Z.eqb_sym (ptr sib)), ?(proj2 (Z.eqb_neq a (ptr sib)) Hn1); done.
Qed.

(** The outer rotation completes the repair. *)
Lemma insert_rotated fuel s k n d g u p q A B C l :
  focus s (Fr d true g u :: k) (mkT d false p (mkT d false q A B) C) ->
  rb n A -> rb n B -> rb n C -> rb n u -> black A = true -> black B = true -> black C = true -> black u = true -> kok k (S n) ->
  l = addrs (fill (Fr d true g u :: k) (mkT d false p (mkT d false q A B) C)) ->
  exists s' t', (s ← upd p rb_set_black s; s ← upd g rb_set_red s; s ← rotate (opp d) g s; insert_loop (S fuel) q s) = Ok s' /\
    shape s' t' /\ addrs t' = l /\ exists m, rb m (blacken t').
Proof.
  intros Hf HA HB HC Hu HbA HbB HbC Hbu Hk ->.
  destruct (insert_finish fuel s k d g u p q A B C Hf) as (s' & -> & Hf').
  exists s'. eexists. split; [done|]. split; [by apply shape_focus|]. split; [|apply (fill_rb_root k (S n)); auto with rb].
  simpl. apply addrs_fill_eq. destruct d; simpl; rewrite <- ?app_assoc; simpl; rewrite <- ?app_assoc; done.
Qed.

(** The loop repairs one red node under a red parent. *)
Lemma insert_loop_spec fuel : forall s k n d a x y,
  (length k + 2 <= fuel)%nat -> focus s k (mkT d false a x y) -> rb n (mkT d false a x y) -> kok k n ->
  exists s' t', insert_loop fuel a s = Ok s' /\ shape s' t' /\
    addrs t' = addrs (fill k (mkT d false a x y)) /\ exists m, rb m (blacken t').
Proof.
  induction fuel as [fuel IH] using lt_wf_ind. intros s k n d a x y Hfuel Hf Hrb Hk.
  destruct fuel as [|fuel]; [lia|].
  destruct (top_red k) eqn:Htr.
  2: { exists s, (fill k (mkT d false a x y)). split_and!; [by eapply insert_stop|by apply shape_focus|done|].
       apply (fill_rb_root k n); try done. congruence. }
  destruct k as [|[d1 [] p sib] k]; [done..|]. inversion Hk as [| |? ? ? ? ? Hsib Hsb Htb Hk1]; subst.
  destruct k as [|[d2 [] g u] k]; [done| |done]. inversion Hk1 as [|? ? ? ? ? Hu Hk2|]; subst.
  rewrite (insert_loop_red fuel s k d1 d2 p g sib u d a x y Hf). destruct (black u) eqn:Hub; cbn [negb].
  - destruct fuel as [|fuel]; [simpl in Hfuel; lia|].
    apply rb_mkT_inv in Hrb as (Hx & Hy & Hbx & Hby).
    destruct (mkT_as (fun t => rb n t /\ black t = true) d2 d false a x y) as (x' & y' & Hmk & [Hx' Hbx'] & [Hy' Hby']); [by split..|].
    rewrite Hmk in *. apply focus_up in Hf. destruct (decide (d1 = opp d2)) as [->|Hd].
    + rewrite mkT_opp in Hf.
      destruct (rotate_spec _ _ _ _ _ _ _ _ _ _ Hf) as (s1 & -> & Hf1). rewrite !res_bind_ok.
      apply (insert_rotated fuel s1 k n d2 g u a p sib x' y'); try done.
      cbn [fill plug]. rewrite mkT_opp. apply addrs_fill_eq. destruct d2; simpl; rewrite <- ?app_assoc; simpl; rewrite <- ?app_assoc; done.
    + assert (d1 = d2) as -> by (by destruct d1, d2). rewrite res_bind_ok.
      by apply (insert_rotated fuel s k n d2 g u p a x' y' sib).
  - destruct u as [|[] ul ua ur]; [done..|]. change (T false ul ua ur) with (mkT Lf false ua ul ur) in *.
    apply focus_up, focus_swap in Hf. rewrite ptr_mkT. destruct (focus_black _ _ _ _ _ _ _ Hf) as (s1 & -> & Hf1).
    rewrite res_bind_ok. apply focus_swap in Hf1. replace (opp (opp d2)) with d2 in Hf1 by (by destruct d2).
    destruct (focus_black _ _ _ _ _ _ _ Hf1) as (s2 & -> & Hf2). rewrite res_bind_ok. apply focus_up in Hf2.
    destruct (focus_red _ _ _ _ _ _ _ Hf2) as (s3 & -> & Hf3). rewrite res_bind_ok.
    apply rb_mkT_inv in Hu as (Hul & Hur & _ & _).
    destruct (IH fuel ltac:(lia) s3 k (S n) d2 g (mkT d1 true p (mkT d false a x y) sib) (mkT Lf true ua ul ur)) as
      (s' & t' & -> & Hs & Had & Hm); [simpl in Hfuel; lia|done| |done|].
    + auto with rb.
    + exists s', t'. split_and!; try done. rewrite Had. simpl. apply addrs_fill_eq. by destruct d1, d2.
Qed.

(** A red-black tree with a black root splits at any place. *)
Lemma kok_fill k : forall m t, rb m (fill k t) -> black (fill k t) = true ->
  exists n, kok k n /\ rb n t /\ (top_red k = true -> black t = true) /\ (k = [] -> black t = true).
Proof.
  induction k as [|[d c a s] k IH]; intros m t Hm Hb; simpl in *.
  { exists m. split_and!; auto with rb. }
  destruct (IH m _ Hm Hb) as (n & Hk & Hn & Htr & Hnil). rewrite black_mkT in *. apply rb_mkT_inv in Hn. destruct c; simpl.
  - destruct Hn as (n' & -> & Ht & Hs). exists n'. split_and!; auto with rb; done.
  - destruct Hn as (Ht & Hs & Hbt & Hbs). exists n. split_and!; try done. constructor; try done.
    destruct k as [|[? [] ? ?] k]; [by specialize (Hnil eq_refl)|done|by specialize (Htr eq_refl)].
Qed.

(** The hole of a context is a place in the order. *)
Fixpoint kbefore (k : list frame) : list Z :=
  match k with [] => [] | Fr Lf _ _ _ :: k => kbefore k | Fr Rt _ a s :: k => kbefore k ++ addrs s ++ [a] end.
Fixpoint kafter (k : list frame) : list Z :=
  match k with [] => [] | Fr Lf _ a s :: k => a :: addrs s ++ kafter k | Fr Rt _ _ _ :: k => kafter k end.

Lemma addrs_hole k : forall t, addrs (fill k t) = kbefore k ++ addrs t ++ kafter k.
Proof.
  induction k as [|[d c a s] k IH]; intros t; simpl; [by rewrite app_nil_r|].
  rewrite IH. destruct d; simpl; rewrite <- !app_assoc; done.
Qed.

Definition link_side (k : list frame) : option side := match k with [] => None | Fr d _ _ _ :: _ => Some d end.

(** Linking a fresh node below the hole of the tree. *)
Lemma link_focus s k a n0 :
  focus s k E -> mem s !! a = Some n0 -> addr_ok a -> a ∉ kaddrs k ->
  exists s', rb_link_node a (par k) (link_side k) s = Ok s' /\ focus s' k (T false E a E).
Proof.
  intros [_ Hk Hr Hg] Ha Hok Hn. destruct s as [h r]. simpl in *. unfold rb_link_node.
  rewrite (upd_ok a _ h r _ Ha), res_bind_ok by auto with rb.
  assert (Hg' : good (a :: kaddrs k)) by (destruct Hg; split; [by apply NoDup_cons|by constructor]).
  destruct k as [|[d c b t] k]; simpl in *.
  { eexists. split; [done|]. split; simpl; [split_and!; [by rewrite lookup_insert_eq|done|done]|done|done|done]. }
  destruct Hk as (Hb & Ht & Hk). apply not_elem_of_cons in Hn as [Hab Hn]. rewrite elem_of_app in Hn.
  assert (Hbok : addr_ok b) by (apply (good_ok _ b Hg'); right; left).
  assert (Hb' : b ∉ addrs t ++ kaddrs k) by (apply good_cons in Hg as (_ & ? & _); done). rewrite elem_of_app in Hb'.
  erewrite (upd_ok b); [|by rewrite lookup_insert_ne|by auto with rb]. rewrite set_child_mkd. eexists. split; [done|].
  split; simpl; [split_and!| |done|done].
  - rewrite lookup_insert_ne, lookup_insert_eq by done. unfold mk. simpl. by rewrite Z.add_0_r.
  - done.
  - done.
  - split_and!; [by rewrite lookup_insert_eq| |].
    + apply (rep_ext h); [|done]. intros x Hx. rewrite !lookup_insert_ne; [done|intros ->; tauto..].
    + apply (repk_ext h); [|done]. intros x Hx. rewrite !lookup_insert_ne; [done|intros ->; tauto..].
Qed.

(** Linking and rebalancing. *)
Lemma rb_insert_spec s k m fuel a n0 :
  shape s (fill k E) -> rb m (fill k E) -> black (fill k E) = true ->
  mem s !! a = Some n0 -> addr_ok a -> a ∉ addrs (fill k E) -> (length k + 2 <= fuel)%nat ->
  exists s' t', (s ← rb_link_node a (par k) (link_side k) s; rb_insert_color fuel a s) = Ok s' /\
    shape s' t' /\ (exists m', rb m' t') /\ black t' = true /\ addrs t' = addrs (fill k (T false E a E)).
Proof.
  intros Hs Hrb Hb Ha Hok Hn Hfuel. apply shape_focus in Hs. rewrite addrs_fill in Hn.
  destruct (kok_fill k m E Hrb Hb) as (n & Hk & H0 & _). inversion H0; subst.
  destruct (link_focus s k a n0 Hs Ha Hok Hn) as (s1 & -> & Hf1). rewrite res_bind_ok. unfold rb_insert_color.
  destruct (insert_loop_spec fuel s1 k 0 Lf a E E Hfuel Hf1) as (s2 & t & -> & Ht & Had & m' & Hm'); [by repeat constructor|done|].
  rewrite res_bind_ok. simpl in Had.
  destruct t as [|c l b r]; [rewrite addrs_hole in Had; by destruct (kbefore k)|]. pose proof Ht as (_ & -> & _). apply (shape_focus s2 []) in Ht.
  destruct (focus_black s2 [] Lf c b l r Ht) as (s3 & Heq & Hf3). simpl. rewrite Heq.
  exists s3, (T true l b r). split_and!; try done; [by apply (shape_focus s3 [])|by exists m'].
Qed.

(** C34: linking a fresh node at an empty place of a red-black tree and calling
    [rb_insert_color] never faults and ends, and the result is again a
    red-black tree with a black root whose nodes, in order, are those before
    the place, the new one and those after it. *)
Theorem rb_insert_correct (s : rbs) (k : list frame) (m fuel : nat) (a : Z) (n0 : rb_node) :
  shape s (fill k E) -> rb m (fill k E) -> black (fill k E) = true ->
  mem s !! a = Some n0 -> addr_ok a -> a ∉ addrs (fill k E) -> (length k + 2 <= fuel)%nat ->
  exists s' t', (s ← rb_link_node a (par k) (link_side k) s; rb_insert_color fuel a s) = Ok s' /\
    shape s' t' /\ (exists m', rb m' t') /\ black t' = true /\
    addrs (fill k E) = kbefore k ++ kafter k /\ addrs t' = kbefore k ++ a :: kafter k.
Proof.
  intros Hs Hrb Hb Ha Hok Hn Hfuel. destruct (rb_insert_spec s k m fuel a n0 Hs Hrb Hb Ha Hok Hn Hfuel) as (s' & t' & Heq & H1 & H2 & H3 & Had).
  exists s', t'. rewrite Had, !addrs_hole. done.
Qed.

(** ** Removal *)
Lemma focus_color s k d c c' a x y : focus s k (mkT d c a x y) ->
  exists s', upd a (rb_set_color (Z.b2z c')) s = Ok s' /\ focus s' k (mkT d c' a x y).
Proof. intros Hf. apply (focus_recolor _ c' _ _ _ c); [done|]. apply set_color_mkd. by eapply par_aligned. Qed.

(** The result of a removal: a red-black tree with the given nodes in order. *)
Definition settled (r : res rbs) (l : list Z) : Prop :=
  exists s t, r = Ok s /\ shape s t /\ addrs t = l /\ (exists m, rb m t) /\ black t = true.

Lemma fill_black k n t : kok k n -> k <> [] -> black (fill k t) = true.
Proof.
  revert n t. induction k as [|[d c a s] k IH]; intros n t Hk Hne; [done|]. simpl.
  destruct (decide (k = [])) as [->|Hk']; [inversion Hk; subst; [by destruct d|done]|].
  inversion Hk; subst; by eapply IH.
Qed.

(** A balanced subtree in its context is a red-black tree. *)
Lemma settled_focus s k n t :
  focus s k t -> kok k n -> rb n t -> (top_red k = true -> black t = true) -> (k = [] -> black t = true) ->
  settled (Ok s) (addrs (fill k t)).
Proof.
  intros Hf Hk Ht Htr Hnil. exists s, (fill k t). split_and!; try done; [by apply shape_focus| |];
    (destruct (decide (k = [])) as [->|Hne]; [eauto|]); [by eapply fill_rb|by eapply fill_black].
Qed.

Lemma set_black_settled s t : shape s t -> (exists m, rb m t) -> black t = true -> settled (set_black_if (rb_root s) s) (addrs t).
Proof.
  intros Hs Hm Hb. pose proof Hs as (_ & Hr & _). rewrite Hr. unfold set_black_if.
  destruct t as [|c l a r]; simpl in *; [by exists s, E|]. subst c.
  apply (shape_focus s []) in Hs. rewrite (proj2 (Z.eqb_neq a 0)) by (eapply addr_ok_ne, (focus_addr s [] Lf), Hs). cbn [negb].
  destruct (focus_black s [] Lf true a l r Hs) as (s' & -> & Hf). exists s', (T true l a r). split_and!; try done.
  by apply (shape_focus s' []).
Qed.

(** The far child of the black sibling is red: one rotation ends it. *)
Lemma erase_far s k n d c p oa X ya Y1 Y2 t :
  focus s (Fr d c p (mkT d true oa X (mkT d false ya Y1 Y2)) :: k) t ->
  kok (Fr d c p (mkT d true oa X (mkT d false ya Y1 Y2)) :: k) (S n) -> rb n t ->
  settled (p' ← get p s; s ← upd oa (rb_set_color (rb_color p')) s; s ← upd p rb_set_black s; o ← get oa s;
     s ← upd (child (opp d) o) rb_set_black s; s ← rotate d p s; set_black_if (rb_root s) s)
    (addrs (fill (Fr d c p (mkT d true oa X (mkT d false ya Y1 Y2)) :: k) t)).
Proof.
  intros Hf Hk Ht. apply focus_up in Hf. rewrite (focus_get _ _ _ _ _ _ _ Hf), res_bind_ok, color_mkd by (by eapply par_aligned).
  apply focus_down, focus_swap in Hf. destruct (focus_color _ _ _ _ c _ _ _ Hf) as (s1 & -> & Hf1). rewrite res_bind_ok.
  apply focus_up in Hf1. rewrite mkT_opp in Hf1. destruct (focus_black _ _ _ _ _ _ _ Hf1) as (s2 & -> & Hf2). rewrite res_bind_ok.
  apply focus_down, focus_swap in Hf2. rewrite (focus_get _ _ _ _ _ _ _ Hf2), res_bind_ok, child_opp_mkd, ptr_mkT.
  apply focus_down, focus_swap in Hf2. destruct (focus_black _ _ _ _ _ _ _ Hf2) as (s3 & -> & Hf3). rewrite res_bind_ok.
  do 2 apply focus_up in Hf3. rewrite !mkT_opp in Hf3.
  destruct (rotate_spec _ _ _ _ _ _ _ _ _ _ Hf3) as (s4 & -> & Hf4). rewrite res_bind_ok.
  assert (Hfin : settled (Ok s4) (addrs (fill k (mkT d c oa (mkT d true p t X) (mkT d true ya Y1 Y2))))).
  { inversion Hk as [|? ? ? ? ? Ho Hk'|? ? ? ? ? Ho Hob Htop Hk']; subst; apply rb_mkT_inv in Ho as (n' & [= <-] & HX & HY);
      apply rb_mkT_inv in HY as (HY1 & HY2 & _ & _); eapply settled_focus; try done; rewrite ?black_mkT; try done; auto with rb.
    - destruct k as [|[? [] ? ?] ?]; done.
    - by intros ->. }
  destruct Hfin as (s5 & t5 & [= <-] & Hs5 & Ha5 & Hm5 & Hb5).
  replace (addrs (fill (Fr d c p (mkT d true oa X (mkT d false ya Y1 Y2)) :: k) t)) with (addrs t5).
  - by apply set_black_settled.
  - rewrite Ha5. simpl. apply addrs_fill_eq. destruct d; simpl; rewrite <- ?app_assoc; simpl; rewrite <- ?app_assoc; done.
Qed.

(** The body of the loop for a black sibling. *)
Lemma erase_black_other_spec next s k n d c p oa X Y t :
  focus s (Fr d c p (mkT d true oa X Y) :: k) t -> kok (Fr d c p (mkT d true oa X Y) :: k) (S n) -> rb n t ->
  (forall s1, focus s1 k (mkT d c p t (mkT d false oa X Y)) -> black X = true -> black Y = true ->
     settled (next p (par k) s1) (addrs (fill k (mkT d c p t (mkT d false oa X Y))))) ->
  settled (erase_black_other next d p oa s) (addrs (fill (Fr d c p (mkT d true oa X Y) :: k) t)).
Proof.
  intros Hf Hk Ht Hnext. unfold erase_black_other.
  pose proof (focus_swap _ _ _ _ _ _ _ Hf) as Ho. rewrite (focus_get _ _ _ _ _ _ _ Ho), res_bind_ok, child_mkd, child_opp_mkd.
  pose proof (focus_down _ _ _ _ _ _ _ Ho) as HX. pose proof (focus_swap _ _ _ _ _ _ _ HX) as HY.
  rewrite (focus_is_black _ _ _ HX), res_bind_ok, (focus_is_black _ _ _ HY), res_bind_ok.
  destruct (black Y) eqn:HbY; rewrite ?andb_true_r, ?andb_false_r.
  - destruct (black X) eqn:HbX.
    + destruct (focus_red _ _ _ _ _ _ _ Ho) as (s1 & -> & Hf1). rewrite res_bind_ok. apply focus_up in Hf1. rewrite mkT_opp in Hf1.
      rewrite (focus_get _ _ _ _ _ _ _ Hf1), res_bind_ok, parent_mkd by (by eapply par_aligned).
      replace (addrs (fill _ t)) with (addrs (fill k (mkT d c p t (mkT d false oa X Y)))); [by apply Hnext|].
      simpl. apply addrs_fill_eq. by destruct d.
    + destruct X as [|[] X1' xa X2']; [done..|].
      destruct (mkT_as (fun _ => True) d Lf false xa X1' X2' I I) as (X1 & X2 & HXe & _). simpl in HXe. rewrite HXe in *.
      rewrite ptr_mkT. destruct (focus_black _ _ _ _ _ _ _ HX) as (s1 & -> & Hf1). rewrite res_bind_ok. apply focus_up in Hf1.
      destruct (focus_red _ _ _ _ _ _ _ Hf1) as (s2 & -> & Hf2). rewrite res_bind_ok.
      rewrite <- (mkT_opp d false), <- (mkT_opp d true xa) in Hf2.
      destruct (rotate_spec _ _ _ _ _ _ _ _ _ _ Hf2) as (s3 & -> & Hf3). rewrite res_bind_ok, !mkT_opp in *.
      apply focus_up in Hf3. rewrite mkT_opp in Hf3. rewrite (focus_get _ _ _ _ _ _ _ Hf3), !res_bind_ok, child_opp_mkd, ptr_mkT.
      replace (addrs (fill _ t)) with (addrs (fill (Fr d c p (mkT d true xa X1 (mkT d false oa X2 Y)) :: k) t)).
      * apply (erase_far _ _ n); [by apply focus_down| |done].
        assert (Hnew : rb (S n) (mkT d true oa (mkT d false xa X1 X2) Y) -> rb (S n) (mkT d true xa X1 (mkT d false oa X2 Y))).
        { intros H. apply rb_mkT_inv in H as (m & [= <-] & H1 & H2). apply rb_mkT_inv in H1 as (? & ? & ? & ?). auto with rb. }
        inversion Hk; subst; constructor; auto with rb.
      * simpl. apply addrs_fill_eq. destruct d; simpl; rewrite <- ?app_assoc; simpl; rewrite <- ?app_assoc; done.
  - destruct Y as [|[] Y1' ya Y2']; [done..|].
    destruct (mkT_as (fun _ => True) d Lf false ya Y1' Y2' I I) as (Y1 & Y2 & HYe & _). simpl in HYe. rewrite HYe in *.
    rewrite res_bind_ok. by apply (erase_far _ _ n).
Qed.

(** The loop is entered at a black subtree one short, or left at a red one. *)
Definition deficit (n : nat) (t : tree) : Prop := if black t then rb n t else rb (S n) (blacken t).

Lemma root_ne s k t : focus s k t -> k <> [] -> ptr t <> rb_root s.
Proof.
  intros [_ _ -> Hg] Hk. assert (Hin : root_of k (ptr t) ∈ kaddrs k).
  { clear Hg. generalize (ptr t). induction k as [|[d c a x] k IH]; [done|]. intros q. simpl.
    destruct (decide (k = [])) as [->|Hne]; [left|]. right. rewrite elem_of_app. right. by apply IH. }
  destruct (decide (t = E)) as [->|Ht]; intros Heq.
  - apply (good_ok _ _ (good_app_r _ _ Hg)) in Hin. rewrite <- Heq in Hin. by apply addr_ok_ne in Hin.
  - apply (good_disj _ _ (ptr t) Hg); [by apply ptr_in|]. by rewrite Heq.
Qed.

Lemma side_of_hole d p c x y : x <> y -> (if rb_left (mkd d p c x y) =? x then Lf else Rt) = d.
Proof. intros H. rewrite Z.eqb_sym. by apply side_of_child. Qed.

Lemma erase_color_spec fuel : forall s k n t,
  focus s k t -> kok k (S n) -> deficit n t -> ((if black t then length k else 0) < fuel)%nat ->
  settled (erase_color fuel (ptr t) (par k) s) (addrs (fill k t)).
Proof.
  induction fuel as [|fuel IH]; intros s k n t Hf Hk Hd Hfuel; [lia|]. cbn [erase_color].
  rewrite (focus_is_black _ _ _ Hf), res_bind_ok. unfold deficit in Hd. destruct (black t) eqn:Hb; cbn [andb].
  2: { destruct t as [|[] l a r]; [done..|]. unfold set_black_if. simpl.
       rewrite (proj2 (Z.eqb_neq a 0)) by (eapply addr_ok_ne, (focus_addr s k Lf), Hf). cbn [negb].
       destruct (focus_black s k Lf false a l r Hf) as (s' & -> & Hf'). rewrite (addrs_fill_eq k (T false l a r) (T true l a r)) by done.
       by eapply settled_focus. }
  destruct k as [|[d c p o] k].
  { pose proof (fo_root _ _ _ Hf) as Hr. simpl in Hr. rewrite <- Hr, Z.eqb_refl. simpl.
    apply set_black_settled; [by apply (shape_focus s [])|by exists n|done]. }
  rewrite (proj2 (Z.eqb_neq _ _) (root_ne _ _ _ Hf ltac:(done))). cbn [negb par].
  assert (Hor : rb (S n) o) by (by inversion Hk). assert (HoE : o <> E) by (intros ->; inversion Hor).
  pose proof (focus_up _ _ _ _ _ _ _ Hf) as Hp. rewrite (focus_get _ _ _ _ _ _ _ Hp), res_bind_ok.
  rewrite side_of_hole by (eapply ptr_ne; [exact Hp|by right]). rewrite child_opp_mkd.
  destruct o as [|co Xo oa Yo]; [done|]. pose proof (focus_swap _ _ _ _ _ _ _ Hf) as Ho.
  destruct (mkT_as (fun _ => True) d Lf co oa Xo Yo I I) as (X & Y & Hoe & _). simpl in Hoe. rewrite Hoe in *. rewrite ptr_mkT.
  rewrite (focus_get _ _ _ _ _ _ _ Ho), res_bind_ok, is_red_mkd by (by eapply par_aligned). destruct co; cbn [negb].
  - rewrite res_bind_ok. apply (erase_black_other_spec _ _ _ n); try done. intros s1 Hf1 HbX HbY.
    apply rb_mkT_inv in Hor as (m & [= <-] & HX & HY).
    pose proof (IH s1 k (if c then S n else n) (mkT d c p t (mkT d false oa X Y)) Hf1) as IH1. rewrite ptr_mkT in IH1. apply IH1.
    + inversion Hk; subst; done.
    + unfold deficit. rewrite black_mkT. destruct c; [auto with rb|]. destruct d; simpl; constructor; try done; by apply (rb_mkT_R Lf) || by apply (rb_mkT_R Rt).
    + rewrite black_mkT. simpl in Hfuel. destruct c; lia.
  - destruct (focus_black _ _ _ _ _ _ _ Ho) as (s1 & -> & Hf1). rewrite res_bind_ok. apply focus_up in Hf1. rewrite mkT_opp in Hf1.
    destruct (focus_red _ _ _ _ _ _ _ Hf1) as (s2 & -> & Hf2). rewrite res_bind_ok.
    destruct (rotate_spec _ _ _ _ _ _ _ _ _ _ Hf2) as (s3 & -> & Hf3). rewrite res_bind_ok. apply focus_down in Hf3.
    rewrite (focus_get _ _ _ _ _ _ _ Hf3), !res_bind_ok, child_opp_mkd. apply rb_mkT_inv in Hor as (HX & HY & HbX & HbY).
    assert (c = true /\ kok k (S (S n))) as [-> Hk'] by (inversion Hk; subst; [done|]; rewrite black_mkT in *; done).
    destruct X as [|[] X1' xa X2']; [inversion HX| |done].
    destruct (mkT_as (fun _ => True) d Lf true xa X1' X2' I I) as (X1 & X2 & HXe & _). simpl in HXe. rewrite HXe in *. rewrite ptr_mkT.
    replace (addrs (fill (Fr d true p _ :: k) t)) with
      (addrs (fill (Fr d false p (mkT d true xa X1 X2) :: Fr d true oa Y :: k) t)).
    + apply (erase_black_other_spec _ _ _ n); [by apply focus_down|by constructor; auto with rb|done|].
      intros s4 Hf4 HbX1 HbX2. apply rb_mkT_inv in HX as (m & [= <-] & HX1 & HX2).
      pose proof (IH s4 _ n _ Hf4) as IH4. rewrite ptr_mkT in IH4. apply IH4.
      * by constructor; auto with rb.
      * unfold deficit. rewrite black_mkT. destruct d; simpl; constructor; try done; by apply (rb_mkT_R Lf) || by apply (rb_mkT_R Rt).
      * rewrite black_mkT. simpl in Hfuel. lia.
    + simpl. apply addrs_fill_eq. destruct d; simpl; rewrite <- ?app_assoc; simpl; rewrite <- ?app_assoc; done.
Qed.

Lemma fill_app k1 : forall k2 t, fill (k1 ++ k2) t = fill k2 (fill k1 t).
Proof. induction k1 as [|f k1 IH]; intros k2 t; simpl; [done|apply IH]. Qed.

Lemma focus_in s k kk t : focus s k (fill kk t) -> focus s (kk ++ k) t.
Proof. rewrite <- !shape_focus, fill_app. done. Qed.

Definition on_side (d : side) (f : frame) : Prop := let '(Fr d' _ _ _) := f in d' = d.

(** [descend] finds the last node on the side [d]. *)
Lemma descend_spec d fuel : forall s k t, focus s k t -> t <> E -> (length (addrs t) <= fuel)%nat ->
  exists kk c a x, t = fill kk (mkT d c a E x) /\ Forall (on_side d) kk /\ descend fuel d (ptr t) s = Ok a.
Proof.
  induction fuel as [|fuel IH]; intros s k t Hf Ht Hlen.
  { destruct t as [|c l a r]; [done|]. simpl in Hlen. rewrite length_app in Hlen. simpl in Hlen. lia. }
  destruct t as [|c l a r]; [done|]. destruct (mkT_as (fun _ => True) d Lf c a l r I I) as (y & x & Heq & _). simpl in Heq.
  rewrite Heq in *. rewrite addrs_mkT in Hlen. simpl in Hlen. rewrite length_app in Hlen. rewrite ptr_mkT. cbn [descend].
  rewrite (focus_get _ _ _ _ _ _ _ Hf), res_bind_ok, child_mkd. apply focus_down in Hf.
  destruct (decide (y = E)) as [->|Hy]; [exists [], c, a, x; by split_and!|].
  assert (Hy0 : ptr y <> 0).
  { apply addr_ok_ne. apply (good_ok _ _ (fo_good _ _ _ Hf)). rewrite elem_of_app. left. by apply ptr_in. }
  rewrite (proj2 (Z.eqb_neq _ 0) Hy0). cbn [negb]. destruct (IH _ _ _ Hf Hy ltac:(lia)) as (kk & c' & a' & x' & -> & Hkk & ->).
  exists (kk ++ [Fr d c a x]), c', a', x'. split_and!; [by rewrite fill_app|apply Forall_app; split; [done|by constructor]|done].
Qed.

(** Taking out a node with at most one child. *)
Lemma splice_out_spec s k d c a x :
  focus s k (mkT d c a x E) ->
  exists s', splice_out a (ptr x) s = Ok (Z.b2z c, ptr x, par k, s') /\ focus s' k x.
Proof.
  intros Hf. unfold splice_out. pose proof (par_aligned _ _ _ Hf) as HP.
  rewrite (focus_get _ _ _ _ _ _ _ Hf), res_bind_ok, parent_mkd, color_mkd by done.
  destruct Hf as [Hr Hk Hroot Hg]. destruct s as [h0 r0]. simpl in *. rewrite ptr_mkT in *. apply rep_mkT in Hr as (Ha & Hx & _).
  rewrite addrs_mkT, app_nil_r in Hg. apply good_cons in Hg as (Haok & Han & Hg). rewrite elem_of_app in Han.
  pose proof (fun b => good_disj _ _ b Hg) as Hdj.
  destruct (set_parent_if_spec h0 r0 a x (par k) Hx (good_app_l _ _ Hg)) as (h1 & -> & Hx1 & Hext1). rewrite res_bind_ok.
  assert (Hne : forall b, b ∉ addrs x -> h1 !! b = h0 !! b).
  { intros b Hb. apply Hext1. destruct (decide (x = E)); [by left|]. right. intros ->. by apply Hb, ptr_in. }
  assert (Hk1 : repk h1 k a) by (apply (repk_ext h0); [|done]; intros b Hb; apply Hne; intros ?; by apply (Hdj b)).
  assert (Hgk : good (a :: kaddrs k)).
  { pose proof (good_app_r _ _ Hg) as [? ?]. split; [apply NoDup_cons; tauto|by constructor]. }
  destruct (relink_spec Lf h1 k a (ptr x) r0 Hk1 ltac:(auto with rb) Hgk HP) as (h2 & -> & Hhole & Hext2 & Hnil).
  rewrite res_bind_ok. eexists. split; [done|].
  assert (Hx2 : forall b, b ∈ addrs x -> h2 !! b = h1 !! b).
  { intros b Hb. destruct k as [|[d0 c0 a0 s0] k0]; [by rewrite Hnil|]. apply Hext2. simpl. intros ->. apply (Hdj a0); [done|left]. }
  split; simpl.
  - apply (rep_reparent h0 h2 a (par k) x); auto with rb; [by apply (good_app_l _ _ Hg)|..].
    + intros n HE Hn. rewrite Hx2 by (by apply ptr_in). by apply Hx1.
    + intros b Hb Hbx. rewrite Hx2 by done. apply Hext1. by right.
  - apply (repk_relink h1 h2 k a (ptr x)); [done|by apply (good_app_r _ _ Hg)|done|]. intros b _ Hb. by apply Hext2.
  - destruct k as [|[d0 c0 a0 s0] k0]; done.
  - done.
Qed.

(** The path of a hole up to a node with parent [b]. *)
Definition parb (b : Z) (k : list frame) : Z := match k with [] => b | Fr _ _ a _ :: _ => a end.
Fixpoint seg (h : gmap Z rb_node) (b : Z) (k : list frame) (q : Z) : Prop :=
  match k with
  | [] => True
  | Fr d c a s :: k => h !! a = Some (mkd d (parb b k) c q (ptr s)) /\ rep h a s /\ seg h b k a
  end.

Lemma rep_fill_seg h b k : forall t, rep h b (fill k t) <-> rep h (parb b k) t /\ seg h b k (ptr t).
Proof. induction k as [|[d c a s] k IH]; intros t; simpl; [tauto|]. rewrite IH, rep_mkT, ptr_mkT. tauto. Qed.

Lemma seg_ext h h' b k q : (forall a, a ∈ kaddrs k -> h' !! a = h !! a) -> seg h b k q -> seg h' b k q.
Proof.
  revert q. induction k as [|[d c a s] k IH]; intros q Hext; [done|]. intros (Ha & Hs & Hk). simpl in *.
  split_and!; [rewrite Hext; [done|left]|apply (rep_ext h); [|done]|apply IH; [|done]];
    intros; apply Hext; right; rewrite elem_of_app; tauto.
Qed.

(** The successor takes the place of the removed node. *)
Lemma take_place_spec h rt k c old sx l r z n :
  h !! old = Some (mkd Lf (par k) c (ptr l) z) -> h !! sx = Some n -> rb_right n = ptr r ->
  rep h old l -> rep h sx r -> repk h k sx -> l <> E -> addr_ok old -> aligned (par k) ->
  good (sx :: addrs l ++ addrs r ++ kaddrs k) -> rt = root_of k sx ->
  exists s', take_place old sx (Rbs h rt) = Ok s' /\ focus s' k (T c l sx r).
Proof.
  intros Hold Hsx Hrr Hl Hr Hk HlE Hook HP Hg ->. pose proof (good_cons _ _ Hg) as (Hsok & Hsn & Hg').
  rewrite !elem_of_app in Hsn. pose proof (fun b => good_disj _ _ b Hg') as Hdj. pose proof (good_app_l _ _ Hg') as Hgl.
  unfold take_place. rewrite (get_ok old _ _ _ Hold), res_bind_ok, pc_mkd by auto with rb.
  rewrite (upd_ok sx _ h _ _ Hsx), res_bind_ok by auto with rb.
  erewrite (upd_ok sx); [|by rewrite lookup_insert_eq|by auto with rb]. rewrite res_bind_ok, insert_insert_eq.
  change (rb_left (mkd Lf (par k) c (ptr l) z)) with (ptr l).
  replace (set_child Lf (ptr l) (set_pc (par k + Z.b2z c) n)) with (mk (par k) c (ptr l) (ptr r)) by (destruct n; simpl in *; by subst).
  set (h1 := <[sx := _]> h).
  assert (H1 : forall b, b <> sx -> h1 !! b = h !! b) by (intros; unfold h1; by rewrite lookup_insert_ne).
  assert (Hl1 : rep h1 old l) by (apply (rep_ext h); [|done]; intros b Hb; apply H1; intros ->; tauto).
  assert (Hpl : addr_ok (ptr l)) by (apply (good_ok _ _ Hgl); by apply ptr_in).
  assert (exists nl, h1 !! ptr l = Some nl) as [nl Hnl] by (destruct l; [done|]; destruct Hl1; eauto).
  rewrite (upd_ok (ptr l) _ h1 _ _ Hnl) by auto with rb. eexists. split; [done|].
  assert (Hpls : ptr l <> sx) by (intros Heq; apply Hsn; left; rewrite <- Heq; by apply ptr_in).
  assert (H2 : forall b, b ∉ addrs l -> <[ptr l := rb_set_parent sx nl]> h1 !! b = h1 !! b).
  { intros b Hb. rewrite lookup_insert_ne; [done|]. intros <-. by apply Hb, ptr_in. }
  split; simpl.
  - split_and!; [rewrite H2 by tauto; unfold h1; by rewrite lookup_insert_eq| |].
    + apply (rep_reparent h1 _ old sx l); auto with rb.
      * intros n' _ Hn'. rewrite lookup_insert_eq. congruence.
      * intros b _ Hb. by rewrite lookup_insert_ne.
    + apply (rep_ext h); [|done]. intros b Hb. rewrite H2, H1; [done|intros ->; tauto|].
      intros Hbl. apply (Hdj b); [done|]. rewrite elem_of_app. tauto.
  - apply (repk_ext h); [|done]. intros b Hb. rewrite H2, H1; [done|intros ->; tauto|].
    intros Hbl. apply (Hdj b); [done|]. rewrite elem_of_app. tauto.
  - done.
  - eapply good_perm; [|exact Hg]. rewrite <- app_assoc. simpl. by rewrite <- Permutation_middle.
Qed.

Lemma fill_ne k t : k <> [] -> fill k t <> E.
Proof.
  revert t. induction k as [|[d c a s] k IH]; intros t Hk; [done|]. simpl.
  destruct (decide (k = [])) as [->|Hne]; [by destruct d|by apply IH].
Qed.

(** The successor is taken out of the right subtree, which becomes its own. *)
Lemma detach_spec h rt P c old l kk cs sx rs (t := fill kk (T cs E sx rs)) (t' := fill kk rs) :
  kk <> [] -> Forall (on_side Lf) kk -> h !! old = Some (mkd Lf P c l (ptr t)) -> rep h old t -> good (old :: addrs t) ->
  exists h' n, detach old sx (ptr rs) (parb old kk) (Rbs h rt) = Ok (Rbs h' rt) /\ h' !! sx = Some n /\ rb_right n = ptr t' /\
    rep h' sx t' /\ forall b, b ∉ addrs t -> h' !! b = h !! b.
Proof.
  intros Hkk Hside Hold Hrep Hg. apply good_cons in Hg as (Hook & Hon & Hg).
  assert (Hptr : ptr t = ptr t') by (unfold t, t'; rewrite !ptr_fill; by destruct kk as [|[? ? ? ?] ?]).
  assert (Hga : good (sx :: addrs rs ++ kaddrs kk)) by (unfold t in Hg; by rewrite addrs_fill in Hg).
  assert (Hta : forall b, b ∈ addrs t <-> b = sx \/ b ∈ addrs rs \/ b ∈ kaddrs kk).
  { intros b. unfold t. rewrite addrs_fill. simpl. rewrite elem_of_cons, elem_of_app. tauto. }
  rewrite Hta in Hon. apply rep_fill_seg in Hrep as [(Hsx & _ & Hrs) Hseg]. simpl in Hsx, Hseg.
  destruct kk as [|[dp cp pa sp] kk]; [done|]. apply Forall_cons in Hside as [Hd _]. simpl in Hd. subst dp.
  destruct Hseg as (Hpa & Hsp & Hseg). cbn [parb] in *.
  pose proof (good_cons _ _ Hga) as (Hsok & Hsn & Hg1). rewrite elem_of_app in Hsn. pose proof (fun b => good_disj _ _ b Hg1) as Hdj.
  pose proof (good_app_r _ _ Hg1) as Hgk. pose proof (good_cons _ _ Hgk) as (Hpok & Hpn & _). rewrite elem_of_app in Hpn.
  destruct (set_parent_if_spec h rt sx rs pa Hrs (good_app_l _ _ Hg1)) as (h1 & Heq1 & Hr1 & Hext1).
  unfold detach. rewrite Heq1, res_bind_ok.
  assert (Hne : forall b, b ∉ addrs rs -> h1 !! b = h !! b).
  { intros b Hb. apply Hext1. destruct (decide (rs = E)); [by left|]. right. intros ->. by apply Hb, ptr_in. }
  assert (Hpars : pa ∉ addrs rs) by (intros ?; apply (Hdj pa); [done|left]).
  rewrite (upd_ok pa _ h1 rt _ (eq_trans (Hne pa Hpars) Hpa)), res_bind_ok, set_child_mkd by auto with rb.
  set (h2 := <[pa := _]> h1).
  assert (H2 : forall b, b ∉ addrs rs -> b <> pa -> h2 !! b = h !! b) by (intros; unfold h2; rewrite lookup_insert_ne by done; auto).
  assert (Hrep2 : rep h2 old t').
  { apply rep_fill_seg. split; simpl; [|split_and!; [unfold h2; by rewrite lookup_insert_eq| |]].
    - apply (rep_reparent h h2 sx pa rs); auto with rb; [by apply (good_app_l _ _ Hg1)|..].
      + intros n HE Hn. unfold h2. rewrite lookup_insert_ne; [by apply Hr1|]. intros ->. by apply Hpars, ptr_in.
      + intros b Hb Hbr. unfold h2. rewrite lookup_insert_ne by (intros ->; done). apply Hext1. by right.
    - apply (rep_ext h); [|done]. intros b Hb. apply H2; [|by intros ->; tauto]. intros ?. apply (Hdj b); [done|]. simpl. rewrite elem_of_cons, elem_of_app. tauto.
    - apply (seg_ext h); [|done]. intros b Hb. apply H2; [|by intros ->; tauto]. intros ?. apply (Hdj b); [done|]. simpl. rewrite elem_of_cons, elem_of_app. tauto. }
  assert (Hold2 : h2 !! old = h !! old).
  { apply H2; [tauto|]. intros ->. apply Hon. right. right. left. }
  rewrite Hold in Hold2. rewrite (get_ok old _ _ _ Hold2), res_bind_ok by auto with rb.
  change (rb_right (mkd Lf P c l (ptr t))) with (ptr t).
  assert (Hsx2 : h2 !! sx = h !! sx) by (apply H2; [tauto|]; intros ->; apply Hsn; right; left).
  rewrite Hsx in Hsx2. rewrite (upd_ok sx _ _ _ _ Hsx2), res_bind_ok by auto with rb.
  assert (Ht'a : forall b, b ∈ addrs t' -> b <> sx /\ b ∈ addrs t).
  { intros b. unfold t'. rewrite addrs_fill, Hta, elem_of_app. intros Hb. split; [intros ->; tauto|tauto]. }
  assert (Ht'E : t' <> E) by (by apply fill_ne). rewrite Hptr. set (h3 := <[sx := _]> h2).
  assert (Hrep3 : rep h3 old t').
  { apply (rep_ext h2); [|done]. intros b Hb. unfold h3. rewrite lookup_insert_ne; [done|]. by destruct (Ht'a b Hb). }
  assert (Hgt' : good (addrs t')) by (unfold t'; rewrite addrs_fill; exact Hg1).
  assert (Hpok' : addr_ok (ptr t')) by (apply (good_ok _ _ Hgt'); by apply ptr_in).
  assert (exists n, h3 !! ptr t' = Some n) as [n Hn] by (destruct t' as [|? ? ? ?]; [done|]; destruct Hrep3; eauto).
  assert (Hps : ptr t' <> sx) by (by destruct (Ht'a (ptr t') (ptr_in t' Ht'E))).
  rewrite (upd_ok _ _ _ _ _ Hn) by auto with rb. eexists _, _. split; [done|]. split_and!.
  - rewrite lookup_insert_ne by done. unfold h3. by rewrite lookup_insert_eq.
  - done.
  - apply (rep_reparent h3 _ old sx t'); auto with rb.
    + intros n' _ Hn'. rewrite lookup_insert_eq. congruence.
    + intros b _ Hb. by rewrite lookup_insert_ne.
  - intros b Hb. rewrite lookup_insert_ne by (intros <-; by apply Hb, Ht'a, ptr_in). unfold h3.
    rewrite lookup_insert_ne by (intros <-; apply Hb, Hta; tauto).
    apply H2; [intros ?; apply Hb, Hta; tauto|]. intros ->. apply Hb, Hta. right. right. left.
Qed.

(** Removal of a node with two children, up to the recolouring. *)
Lemma splice_successor_spec fuel s k c l old r :
  focus s k (T c l old r) -> l <> E -> r <> E -> (length (addrs r) <= fuel)%nat ->
  exists kk cs sx rs s', r = fill kk (T cs E sx rs) /\ Forall (on_side Lf) kk /\
    splice_successor fuel old s = Ok (Z.b2z cs, ptr rs, par (kk ++ Fr Rt c sx l :: k), s') /\
    focus s' (kk ++ Fr Rt c sx l :: k) rs.
Proof.
  intros Hf Hl Hr Hfuel. pose proof (par_aligned _ _ _ Hf) as HP.
  unfold splice_successor. rewrite (focus_get s k Lf c old l r Hf), res_bind_ok, parent_mkd by done.
  destruct (descend_spec Lf fuel s (Fr Rt c old l :: k) r) as (kk & cs & sx & rs & -> & Hside & Hdesc); [by apply (focus_down _ Rt)|done|done|].
  change (rb_right (mkd Lf (par k) c (ptr l) ?x)) with x. rewrite Hdesc, res_bind_ok. clear Hdesc.
  change (mkT Lf cs sx E rs) with (T cs E sx rs) in *. set (r := fill kk (T cs E sx rs)) in *.
  pose proof (focus_addr s k Lf c old l r Hf) as Hook. destruct s as [h0 r0].
  destruct Hf as [(Hold & Hlr & Hrr) Hk Hroot Hg]. simpl in *.
  assert (Hg' : good (old :: addrs l ++ addrs r ++ kaddrs k)).
  { eapply good_perm; [|exact Hg]. rewrite <- app_assoc. simpl. apply Permutation_middle. }
  pose proof (good_cons _ _ Hg') as (_ & Hon & Hg1). rewrite !elem_of_app in Hon.
  pose proof (fun b => good_disj _ _ b Hg1) as Hdl. pose proof (good_app_r _ _ Hg1) as Hgrk.
  pose proof (fun b => good_disj _ _ b Hgrk) as Hdr.
  assert (Hgok : good (old :: kaddrs k)).
  { pose proof (good_app_r _ _ Hgrk) as [? ?]. split; [apply NoDup_cons; tauto|by constructor]. }
  destruct (relink_spec Lf h0 k old sx r0 Hk ltac:(auto with rb) Hgok HP) as (h1 & -> & Hhole & Hext & Hnil). rewrite res_bind_ok.
  assert (H1 : forall b, b ∉ kaddrs k -> h1 !! b = h0 !! b).
  { intros b Hb. destruct k as [|[d0 c0 a0 s0] k0]; [by rewrite Hnil|]. apply Hext. simpl. intros ->. apply Hb. left. }
  assert (Hk1 : repk h1 k sx) by (apply (repk_relink h0 h1 k old sx); auto; by apply (good_app_r _ _ Hgrk)).
  assert (Hl1 : rep h1 old l) by (apply (rep_ext h0); [|done]; intros b Hb; apply H1; intros ?; apply (Hdl b); [done|rewrite elem_of_app; tauto]).
  assert (Hr1 : rep h1 old r) by (apply (rep_ext h0); [|done]; intros b Hb; apply H1; intros ?; by apply (Hdr b)).
  assert (Hold1 : h1 !! old = Some (mkd Lf (par k) c (ptr l) (ptr r))) by (rewrite H1 by tauto; done).
  set (rt := if decide (k = []) then sx else r0).
  assert (Hrt : rt = root_of k sx) by (unfold rt; destruct k as [|[? ? ? ?] ?]; done). clearbody rt.
  pose proof Hr1 as Hr1'. apply rep_fill_seg in Hr1' as [(Hsx1 & _ & Hrs1) Hseg1]. simpl in Hsx1, Hseg1.
  assert (Hgr : good (sx :: addrs rs ++ kaddrs kk)) by (pose proof (good_app_l _ _ Hgrk) as Hx; unfold r in Hx; by rewrite addrs_fill in Hx).
  pose proof (good_cons _ _ Hgr) as (Hsok & Hsn & _).
  assert (Hin : forall b, b ∈ addrs r <-> b = sx \/ b ∈ addrs rs \/ b ∈ kaddrs kk).
  { intros b. unfold r. rewrite addrs_fill. simpl. rewrite elem_of_cons, elem_of_app. tauto. }
  assert (Hal : aligned (parb old kk)).
  { destruct kk as [|[d0 c0 a0 s0] kk0]; simpl; [auto with rb|]. apply addr_ok_aligned, (good_ok _ _ Hgr). right. rewrite elem_of_app. right. left. }
  rewrite (get_ok sx _ _ _ Hsx1), res_bind_ok by auto with rb.
  change (mk (parb old kk) cs 0 (ptr rs)) with (mkd Lf (parb old kk) cs 0 (ptr rs)) in *. rewrite parent_mkd, color_mkd by done.
  change (rb_right (mkd Lf (parb old kk) cs 0 (ptr rs))) with (ptr rs).
  assert (Hgfin : forall t', addrs t' ≡ₚ addrs rs ++ kaddrs kk -> good (sx :: addrs l ++ addrs t' ++ kaddrs k)).
  { intros t' Ht'. rewrite Ht'. eapply good_perm; [|exact Hg1]. unfold r. rewrite addrs_fill. simpl. by rewrite <- Permutation_middle. }
  destruct (decide (kk = [])) as [->|Hkk].
  - rewrite Z.eqb_refl, res_bind_ok. simpl in *.
    destruct (take_place_spec h1 rt k c old sx l rs (ptr r) _ Hold1 Hsx1 eq_refl) as (s' & -> & Hf'); try done.
    { apply (Hgfin rs). by rewrite app_nil_r. }
    rewrite res_bind_ok. exists [], cs, sx, rs, s'. split_and!; [done|done|done|]. by apply (focus_down _ Rt).
  - assert (Hne : parb old kk <> old).
    { destruct kk as [|[d0 c0 a0 s0] kk0]; [done|]. simpl. intros ->. apply Hon. right. left. rewrite Hin. right. right. left. }
    rewrite (proj2 (Z.eqb_neq _ _) Hne).
    destruct (detach_spec h1 rt (par k) c old (ptr l) kk cs sx rs Hkk Hside Hold1 Hr1) as (h2 & n & -> & Hn & Hnr & Hr2 & Hext2).
    { pose proof (good_app_l _ _ Hgrk) as [? ?]. fold r. split; [apply NoDup_cons; tauto|by constructor]. }
    fold r in Hext2. rewrite !res_bind_ok.
    destruct (take_place_spec h2 rt k c old sx l (fill kk rs) (ptr r) n) as (s' & -> & Hf'); try done.
    + rewrite Hext2; [done|tauto].
    + apply (rep_ext h1); [|done]. intros b Hb. apply Hext2. intros ?. apply (Hdl b); [done|]. rewrite elem_of_app. tauto.
    + apply (repk_ext h1); [|done]. intros b Hb. apply Hext2. intros ?. by apply (Hdr b).
    + apply Hgfin. apply addrs_fill.
    + rewrite res_bind_ok. exists kk, cs, sx, rs, s'. split_and!; [done|done| |].
      * by destruct kk as [|[? ? ? ?] ?].
      * apply focus_in. by apply (focus_down _ Rt).
Qed.

Lemma find_focus t : forall a, a ∈ addrs t -> exists k c l r, t = fill k (T c l a r).
Proof.
  induction t as [|c l IHl b r IHr]; intros a Ha; simpl in Ha; [by apply elem_of_nil in Ha|].
  rewrite elem_of_app, elem_of_cons in Ha. destruct Ha as [Ha|[->|Ha]]; [|by exists [], c, l, r|].
  - destruct (IHl a Ha) as (k & c' & l' & r' & ->). exists (k ++ [Fr Lf c b r]), c', l', r'. by rewrite fill_app.
  - destruct (IHr a Ha) as (k & c' & l' & r' & ->). exists (k ++ [Fr Rt c b l]), c', l', r'. by rewrite fill_app.
Qed.

(** Heights do not depend on which node carries a frame. *)
Lemma kok_rename kk d c a a' s k : forall n, kok (kk ++ Fr d c a s :: k) n -> kok (kk ++ Fr d c a' s :: k) n.
Proof.
  induction kk as [|f kk IH]; intros n Hk; simpl in *; inversion Hk; subst; constructor; auto.
  destruct kk as [|[? ? ? ?] ?]; done.
Qed.

Lemma left_hole kk : Forall (on_side Lf) kk -> exists B, forall t, addrs (fill kk t) = addrs t ++ B.
Proof.
  induction kk as [|[d c a s] kk IH]; intros Hs; [exists []; intros t; by rewrite app_nil_r|].
  apply Forall_cons in Hs as [Hd Hs]. simpl in Hd. subst d. destruct (IH Hs) as [B HB]. exists (a :: addrs s ++ B).
  intros t. simpl. rewrite HB. simpl. by rewrite <- app_assoc.
Qed.

Lemma kaddrs_length k : (length k <= length (kaddrs k))%nat.
Proof. induction k as [|[d c a s] k IH]; simpl; [lia|]. rewrite length_app. lia. Qed.

Lemma rb_deficit n t : rb n t -> deficit n t.
Proof. intros H. unfold deficit. destruct H; simpl; [constructor|constructor; done|by constructor]. Qed.

(** A node of colour [c] left its place to its child [x]. *)
Lemma erase_finish fuel s K n c d a x :
  focus s K x -> kok K n -> rb n (mkT d c a x E) -> (length K < fuel)%nat ->
  settled (if Z.b2z c =? RB_BLACK then __rb_erase_color fuel (ptr x) (par K) s else Ok s) (addrs (fill K x)).
Proof.
  intros Hf Hk Hrb Hfuel. apply rb_mkT_inv in Hrb. destruct c; simpl.
  - destruct Hrb as (m & -> & Hx & _). unfold __rb_erase_color. change (1 =? RB_BLACK) with true. cbv iota.
    apply (erase_color_spec fuel s K m x); [done|done|by apply rb_deficit|destruct (black x); lia].
  - destruct Hrb as (Hx & _ & Hb & _). by eapply settled_focus.
Qed.

Lemma rb_erase_spec s t m fuel a :
  shape s t -> rb m t -> black t = true -> a ∈ addrs t -> (length (addrs t) < fuel)%nat ->
  exists s' t' l1 l2, rb_erase fuel a s = Ok s' /\ shape s' t' /\ (exists m', rb m' t') /\ black t' = true /\
    addrs t = l1 ++ a :: l2 /\ addrs t' = l1 ++ l2.
Proof.
  intros Hs Hrb Hb Ha Hfuel. destruct (find_focus t a Ha) as (k & c & l & r & ->).
  pose proof (addrs_hole k) as Hh. apply shape_focus in Hs as Hf.
  assert (Hgoal : forall S0 la lb x, settled S0 (addrs (fill k x)) -> addrs (T c l a r) = la ++ a :: lb -> addrs x = la ++ lb ->
    exists s' t' l1 l2, S0 = Ok s' /\ shape s' t' /\ (exists m', rb m' t') /\ black t' = true /\
      addrs (fill k (T c l a r)) = l1 ++ a :: l2 /\ addrs t' = l1 ++ l2).
  { intros S0 la lb x (s' & t' & -> & Hs' & Had & Hm & Hbt) H1 H2. exists s', t', (kbefore k ++ la), (lb ++ kafter k).
    split_and!; try done; rewrite ?Had, Hh, ?H1, ?H2, <- !app_assoc; done. }
  assert (Hlen : (length k < fuel)%nat).
  { rewrite addrs_fill, length_app in Hfuel. pose proof (kaddrs_length k). lia. }
  destruct (kok_fill k m _ Hrb Hb) as (n & Hk & Hn & Htr & Hnil).
  unfold rb_erase. rewrite (focus_get s k Lf c a l r Hf), res_bind_ok.
  change (rb_left (mkd Lf (par k) c (ptr l) (ptr r))) with (ptr l). change (rb_right (mkd Lf (par k) c (ptr l) (ptr r))) with (ptr r).
  assert (Hz : forall t', t' = l \/ t' = r -> t' <> E -> ptr t' <> 0).
  { intros t' Ht' HE. apply addr_ok_ne, (good_ok _ _ (fo_good _ _ _ Hf)). rewrite elem_of_app. left. simpl.
    rewrite elem_of_app, elem_of_cons. destruct Ht' as [-> | ->]; [left|right; right]; by apply ptr_in. }
  destruct (decide (l = E)) as [->|Hl].
  { destruct (splice_out_spec s k Rt c a r Hf) as (s1 & Heq & Hf1). simpl. rewrite Heq, res_bind_ok.
    apply (Hgoal _ [] (addrs r) r); [|done|done]. by apply (erase_finish fuel s1 k n c Rt a r). }
  rewrite (proj2 (Z.eqb_neq _ 0)) by (apply Hz; auto). destruct (decide (r = E)) as [->|Hr].
  { destruct (splice_out_spec s k Lf c a l Hf) as (s1 & Heq & Hf1). simpl. rewrite Heq, res_bind_ok.
    apply (Hgoal _ (addrs l) [] l); [|done|by rewrite app_nil_r]. by apply (erase_finish fuel s1 k n c Lf a l). }
  rewrite (proj2 (Z.eqb_neq _ 0)) by (apply Hz; auto).
  assert (Hlr : (length (addrs r) <= fuel)%nat).
  { rewrite addrs_fill, length_app in Hfuel. simpl in Hfuel. rewrite length_app in Hfuel. simpl in Hfuel. lia. }
  destruct (splice_successor_spec fuel s k c l a r Hf Hl Hr Hlr) as (kk & cs & sx & rs & s1 & -> & Hside & -> & Hf1).
  rewrite res_bind_ok. destruct (left_hole kk Hside) as [B HB].
  apply (Hgoal _ (addrs l) (sx :: addrs rs ++ B) (T c l sx (fill kk rs))).
  - assert (Hre : fill k (T c l a (fill kk (T cs E sx rs))) = fill (kk ++ Fr Rt c a l :: k) (T cs E sx rs)) by (by rewrite fill_app).
    rewrite Hre in Hrb, Hb, Hfuel. destruct (kok_fill _ m _ Hrb Hb) as (n' & Hk' & Hn' & _ & _).
    replace (fill k (T c l sx (fill kk rs))) with (fill (kk ++ Fr Rt c sx l :: k) rs) by (by rewrite fill_app).
    apply (erase_finish fuel s1 _ n' cs Rt sx rs); [done|by eapply kok_rename|done|].
    rewrite addrs_fill, length_app in Hfuel. pose proof (kaddrs_length (kk ++ Fr Rt c a l :: k)) as Hkl.
    rewrite length_app in *. simpl in *. lia.
  - simpl. rewrite HB. done.
  - simpl. rewrite HB. done.
Qed.

(** C1: [rb_erase] of any node of a red-black tree never faults and ends, and
    the result is a red-black tree with a black root that holds the other
    nodes in their order. *)
Theorem rb_erase_correct (s : rbs) (t : tree) (m fuel : nat) (a : Z) :
  shape s t -> rb m t -> black t = true -> a ∈ addrs t -> (length (addrs t) < fuel)%nat ->
  exists s' t' l1 l2, rb_erase fuel a s = Ok s' /\ shape s' t' /\ (exists m', rb m' t') /\ black t' = true /\
    addrs t = l1 ++ a :: l2 /\ addrs t' = l1 ++ l2.
Proof. exact (rb_erase_spec s t m fuel a). Qed.

(** ** A concrete tree: 8 with the red children 4 and 12, and a spare node 16 *)
Definition demo_mem : gmap Z rb_node :=
  <[4 := RbNode 8 0 0]> (<[8 := RbNode 1 12 4]> (<[12 := RbNode 8 0 0]> (<[16 := RbNode 0 0 0]> ∅))).
Definition demo_tree : tree := T true (T false E 4 E) 8 (T false E 12 E).

Lemma demo_shape : shape (Rbs demo_mem 8) demo_tree.
Proof.
  split; [repeat split; reflexivity|]. split; [done|]. split; [apply (bool_decide_unpack _); by vm_compute|].
  repeat constructor; done.
Defined.

Lemma demo_rb : rb 1 demo_tree.
Proof. repeat constructor. Defined.

Lemma rb_insert_correct_witness :
  let k := [Fr Rt false 12 E; Fr Rt true 8 (T false E 4 E)] in
  exists s' t', (s ← rb_link_node 16 12 (Some Rt) (Rbs demo_mem 8); rb_insert_color 8 16 s) = Ok s' /\
    shape s' t' /\ (exists m', rb m' t') /\ black t' = true /\ addrs (fill k E) = [4; 8; 12] /\ addrs t' = [4; 8; 12; 16].
Proof.
  intros k. apply (rb_insert_correct (Rbs demo_mem 8) k 1 8 16 (RbNode 0 0 0));
    [exact demo_shape|exact demo_rb|done|reflexivity|done| |simpl; lia].
  apply (bool_decide_unpack _); by vm_compute.
Defined.

Lemma rb_erase_correct_witness :
  exists s' t' l1 l2, rb_erase 8 8 (Rbs demo_mem 8) = Ok s' /\ shape s' t' /\ (exists m', rb m' t') /\ black t' = true /\
    [4; 8; 12] = l1 ++ 8 :: l2 /\ addrs t' = l1 ++ l2.
Proof.
  apply (rb_erase_correct (Rbs demo_mem 8) demo_tree 1 8 8); [exact demo_shape|exact demo_rb|done| |simpl; lia].
  apply (bool_decide_unpack _); by vm_compute.
Defined.
