(* ===== verification/RbSched.v ===== *)
(** * kern/schedule: the stride and the CFS scheduling classes

    default_sched.c with stride_rb_tree.c, and cfs_sched.c with
    cfs_rb_tree.c.  The two pairs of files differ in the comparison, in
    [pick_next] and in [proc_tick]; what they share is one definition over the
    comparison [cmp].  A run queue is the tree of its class with the process
    each tree node stands for.  The address of a new node comes from [kmalloc],
    an argument; a fault (a NULL pointer, a division by 0) inside a class
    leaves the queue as it is, and the theorems show that there is none. *)
From S2P Require Import Prelude ProcData Sched RbTree.

Record tree_rq := TreeRq { tr : rbs; node_proc : gmap Z Z; proc_num : Z; max_time_slice : Z }.

Definition set_tr (s : rbs) (r : tree_rq) : tree_rq := TreeRq s (node_proc r) (proc_num r) (max_time_slice r).
Definition set_num (n : Z) (r : tree_rq) : tree_rq := TreeRq (tr r) (node_proc r) n (max_time_slice r).

(** ** Comparisons *)
Definition compare_stride_node (a b : proc_struct) : Z :=
  let c := i32 (stride a - stride b) in
  if negb (c =? 0) then (if c >? 0 then 1 else -1)
  else if pid a >? pid b then 1 else -1.

Definition compare_cfs_node (a b : proc_struct) : Z :=
  if negb (vruntime a =? vruntime b) then (if vruntime a >? vruntime b then 1 else -1)
  else if pid a >? pid b then 1 else -1.

Section Tree.
Context (cmp : proc_struct -> proc_struct -> Z) (kmalloc : gmap Z rb_node -> Z).

(** [data->proc] of a tree node. *)
Definition owner (r : tree_rq) (a : Z) : Z := default 0 (node_proc r !! a).

(** Enough for every path of the tree. *)
Definition fuel_of (s : rbs) : nat := S (S (size (mem s))).

(** ** stride_search, cfs_search *)
Fixpoint search_loop (fuel : nat) (r : tree_rq) (t : ptable) (node p : Z) : res (option Z) :=
  match fuel with
  | O => Spin
  | S fuel =>
      if negb (node =? 0) then
        n ← get node (tr r);
        let this := pget t (owner r node) in
        if pid this =? pid (pget t p) then Ok (Some node)
        else if negb (cmp this (pget t p) =? 0) then search_loop fuel r t (rb_left n) p
        else search_loop fuel r t (rb_right n) p
      else Ok None
  end.

Definition tree_search (r : tree_rq) (t : ptable) (p : Z) : res (option Z) :=
  search_loop (fuel_of (tr r)) r t (rb_root (tr r)) p.

(** ** stride_insert, cfs_insert *)

(** The loop: the place of the new node below [parent], or [None] when an
    equal process is met. *)
Fixpoint place (fuel : nat) (r : tree_rq) (t : ptable) (parent : Z) (link : option side) (new p : Z) : res (option (Z * option side)) :=
  match fuel with
  | O => Spin
  | S fuel =>
      if negb (new =? 0) then
        n ← get new (tr r);
        let result := cmp (pget t p) (pget t (owner r new)) in
        if result <? 0 then place fuel r t new (Some Lf) (rb_left n) p
        else if result >? 0 then place fuel r t new (Some Rt) (rb_right n) p
        else Ok None
      else Ok (Some (parent, link))
  end.

Definition tree_insert (r : tree_rq) (t : ptable) (p : Z) : res tree_rq :=
  let data := kmalloc (mem (tr r)) in
  let s := Rbs (<[data := RbNode 0 0 0]> (mem (tr r))) (rb_root (tr r)) in
  let r := TreeRq s (<[data := p]> (node_proc r)) (proc_num r) (max_time_slice r) in
  pos ← place (fuel_of s) r t 0 None (rb_root s) p;
  match pos with
  | None => Ok r
  | Some (parent, link) =>
      s ← rb_link_node data parent link s;
      s ← rb_insert_color (fuel_of s) data s;
      Ok (set_tr s r)
  end.

(** ** stride_find_min, cfs_find_min *)
Definition tree_find_min (r : tree_rq) : res (option Z) :=
  if rb_root (tr r) =? 0 then Ok None
  else a ← descend (fuel_of (tr r)) Lf (rb_root (tr r)) (tr r); Ok (Some (owner r a)).

(** ** stride_node_free, cfs_node_free *)
Definition tree_node_free (a : Z) (r : tree_rq) : tree_rq :=
  TreeRq (Rbs (delete a (mem (tr r))) (rb_root (tr r))) (delete a (node_proc r)) (proc_num r) (max_time_slice r).

(** ** The class operations *)
Definition tree_init (r : tree_rq) : tree_rq := set_num 0 (set_tr (Rbs (mem (tr r)) 0) r).

Definition refill (slice : Z) (p : proc_struct) : proc_struct :=
  if (time_slice p =? 0) || (time_slice p >? slice) then set_time_slice slice p else p.

Definition tree_enqueue (p : Z) (x : tree_rq * ptable) : res (tree_rq * ptable) :=
  let '(r, t) := x in
  r ← tree_insert r t p;
  Ok (set_num (u32 (proc_num r + 1)) r, pupd p (refill (max_time_slice r)) t).

Definition tree_dequeue (p : Z) (x : tree_rq * ptable) : res (tree_rq * ptable) :=
  let '(r, t) := x in
  data ← tree_search r t p;
  match data with
  | Some a =>
      s ← rb_erase (fuel_of (tr r)) a (tr r);
      let r := tree_node_free a (set_tr s r) in
      Ok (set_num (u32 (proc_num r - 1)) r, t)
  | None => Ok (r, t)
  end.

(** A faulting operation has no result. *)
Definition or_same {A} (r : res A) (x : A) : A := match r with Ok y => y | _ => x end.
End Tree.

Definition BIG_STRIDE : Z := 0x7FFFFFFF.

(** ** default_sched.c *)
Definition stride_init : tree_rq -> tree_rq := tree_init.
Definition stride_enqueue (kmalloc : gmap Z rb_node -> Z) : Z -> tree_rq * ptable -> res (tree_rq * ptable) :=
  tree_enqueue compare_stride_node kmalloc.
Definition stride_dequeue : Z -> tree_rq * ptable -> res (tree_rq * ptable) := tree_dequeue compare_stride_node.

(** The unsigned division faults for the priority 20. *)
Definition pass (p : proc_struct) : res Z :=
  let d := u32 (20 - stride_prior p) in if d =? 0 then Panic else Ok (u32 (stride p + BIG_STRIDE / d)).

Definition stride_pick_next (x : tree_rq * ptable) : res (option Z * (tree_rq * ptable)) :=
  let '(r, t) := x in
  m ← tree_find_min r;
  match m with
  | Some p => v ← pass (pget t p); Ok (Some p, (r, pupd p (set_stride v) t))
  | None => Ok (None, x)
  end.

Definition stride_proc_tick (p : Z) (x : tree_rq * ptable) : res (tree_rq * ptable) :=
  let '(r, t) := x in
  let t := if time_slice (pget t p) >? 0 then pupd p (fun q => set_time_slice (time_slice q - 1) q) t else t in
  Ok (r, if time_slice (pget t p) =? 0 then pupd p (set_need_resched true) t else t).

(** ** cfs_sched.c *)
Definition cfs_init : tree_rq -> tree_rq := tree_init.
Definition cfs_enqueue (kmalloc : gmap Z rb_node -> Z) : Z -> tree_rq * ptable -> res (tree_rq * ptable) :=
  tree_enqueue compare_cfs_node kmalloc.
Definition cfs_dequeue : Z -> tree_rq * ptable -> res (tree_rq * ptable) := tree_dequeue compare_cfs_node.

Definition cfs_pick_next (x : tree_rq * ptable) : res (option Z * (tree_rq * ptable)) :=
  let '(r, t) := x in m ← tree_find_min r; Ok (m, x).

Definition cfs_proc_tick (p : Z) (x : tree_rq * ptable) : res (tree_rq * ptable) :=
  let '(r, t) := x in
  _ ← kassert (negb (cfs_prior (pget t p) =? 0));
  let t := pupd p (fun q => set_vruntime (u32 (vruntime q + cfs_prior q)) q) t in
  let t := if time_slice (pget t p) >? 0 then pupd p (fun q => set_time_slice (time_slice q - 1) q) t else t in
  Ok (r, if time_slice (pget t p) =? 0 then pupd p (set_need_resched true) t else t).

Definition default_sched_class (kmalloc : gmap Z rb_node -> Z) : sched_class tree_rq :=
  SchedClass tree_rq stride_init (fun p x => or_same (stride_enqueue kmalloc p x) x)
    (fun p x => or_same (stride_dequeue p x) x) (fun x => or_same (stride_pick_next x) (None, x)) stride_proc_tick.

Definition cfs_sched_class (kmalloc : gmap Z rb_node -> Z) : sched_class tree_rq :=
  SchedClass tree_rq cfs_init (fun p x => or_same (cfs_enqueue kmalloc p x) x)
    (fun p x => or_same (cfs_dequeue p x) x) (fun x => or_same (cfs_pick_next x) (None, x)) cfs_proc_tick.

#[local] Arguments fuel_of : simpl never.

(** ** The queue held by a tree *)
Lemma rep_dom h p t a : rep h p t -> a ∈ addrs t -> exists n, h !! a = Some n.
Proof.
  revert p. induction t as [|c l IHl b r IHr]; intros p Hr Ha; simpl in *; [by apply elem_of_nil in Ha|].
  destruct Hr as (Hb & Hl & Hr). rewrite elem_of_app, elem_of_cons in Ha. destruct Ha as [Ha|[->|Ha]]; eauto.
Qed.

Lemma shape_size s t : shape s t -> (length (addrs t) <= size (mem s))%nat.
Proof.
  intros (Hr & _ & Hnd & _). rewrite <- (size_list_to_set (C := gset Z) (addrs t)) by done.
  rewrite <- size_dom. apply subseteq_size. intros a Ha. apply elem_of_list_to_set in Ha.
  destruct (rep_dom _ _ _ _ Hr Ha) as [n Hn]. apply elem_of_dom. eauto.
Qed.

(** The tree [T] of the queue [r] holds the processes [l], in this order. *)
Record holds (r : tree_rq) (t : ptable) (T : tree) (l : list Z) : Prop := {
  ho_shape : shape (tr r) T;
  ho_rb : exists m, rb m T;
  ho_black : black T = true;
  ho_procs : owner r <$> addrs T = l;
  ho_pids : NoDup ((fun p => pid (pget t p)) <$> l);
  ho_prior : Forall (fun p => u32 (20 - stride_prior (pget t p)) <> 0) l
}.

Definition tree_queue (x : tree_rq * ptable) (l : list Z) : Prop := exists T, holds x.1 x.2 T l.

Section TreeProofs.
Context (cmp : proc_struct -> proc_struct -> Z) (kmalloc : gmap Z rb_node -> Z).
Hypothesis cmp_nz : forall a b, cmp a b <> 0.
Hypothesis kmalloc_fresh : forall h, addr_ok (kmalloc h) /\ h !! kmalloc h = None.

(** The frames of a path on which [p] turned as the comparison says. *)
Definition turned (r : tree_rq) (t : ptable) (p : Z) (f : frame) : Prop :=
  let '(Fr d _ a _) := f in
  match d with
  | Lf => cmp (pget t p) (pget t (owner r a)) < 0
  | Rt => 0 < cmp (pget t p) (pget t (owner r a))
  end.

Lemma place_spec r t p fuel : forall k T,
  focus (tr r) k T -> (length (addrs T) < fuel)%nat ->
  exists kk, T = fill kk E /\ Forall (turned r t p) kk /\
    place cmp fuel r t (par k) (link_side k) (ptr T) p = Ok (Some (par (kk ++ k), link_side (kk ++ k))).
Proof.
  induction fuel as [|fuel IH]; intros k T Hf Hlen; [lia|]. destruct T as [|c l a x]; cbn [place ptr].
  { exists []. by split_and!. }
  rewrite (proj2 (Z.eqb_neq a 0)) by (eapply addr_ok_ne, (focus_addr _ k Lf), Hf). cbn [negb].
  rewrite (focus_get _ k Lf c a l x Hf), res_bind_ok. simpl in Hlen. rewrite length_app in Hlen. simpl in Hlen.
  set (cm := cmp (pget t p) (pget t (owner r a))). assert (Hcm : cm <> 0) by apply cmp_nz.
  destruct (Z.ltb_spec cm 0) as [Hlt|Hge].
  - destruct (IH (Fr Lf c a x :: k) l) as (kk & -> & Hkk & Heq); [by apply (focus_down _ Lf)|lia|].
    exists (kk ++ [Fr Lf c a x]). rewrite fill_app, <- app_assoc. split_and!; [done|apply Forall_app; split; [done|by repeat constructor]|exact Heq].
  - rewrite Z.gtb_ltb, (proj2 (Z.ltb_lt 0 cm)) by lia.
    destruct (IH (Fr Rt c a l :: k) x) as (kk & -> & Hkk & Heq); [by apply (focus_down _ Rt)|lia|].
    exists (kk ++ [Fr Rt c a l]). rewrite fill_app, <- app_assoc.
    split_and!; [done|apply Forall_app; split; [done|constructor; [simpl; fold cm; lia|done]]|exact Heq].
Qed.

(** A new node in the memory changes nothing in the tree. *)
Lemma shape_insert s t a n : shape s t -> a ∉ addrs t -> shape (Rbs (<[a := n]> (mem s)) (rb_root s)) t.
Proof.
  intros (Hr & Hroot & Hg) Ha. split_and!; [|done|done]. apply (rep_ext (mem s)); [|done].
  intros b Hb. simpl. rewrite lookup_insert_ne; [done|]. by intros ->.
Qed.

Lemma shape_delete s t a : shape s t -> a ∉ addrs t -> shape (Rbs (delete a (mem s)) (rb_root s)) t.
Proof.
  intros (Hr & Hroot & Hg) Ha. split_and!; [|done|done]. apply (rep_ext (mem s)); [|done].
  intros b Hb. simpl. rewrite lookup_delete_ne; [done|]. by intros ->.
Qed.

Lemma fresh_addr r T : shape (tr r) T -> kmalloc (mem (tr r)) ∉ addrs T.
Proof.
  intros (Hr & _) Hin. destruct (rep_dom _ _ _ _ Hr Hin) as [n Hn]. destruct (kmalloc_fresh (mem (tr r))) as [_ Hf]. congruence.
Qed.

#[local] Arguments place : simpl never.

(** Insertion: where the comparisons lead, the new process is put. *)
Lemma tree_insert_spec r t p T :
  shape (tr r) T -> (exists m, rb m T) -> black T = true ->
  let a := kmalloc (mem (tr r)) in
  exists r' T' k, tree_insert cmp kmalloc r t p = Ok r' /\ T = fill k E /\
    Forall (fun f => let '(Fr _ _ b _) := f in b ∈ addrs T -> turned r t p f) k /\
    shape (tr r') T' /\ (exists m, rb m T') /\ black T' = true /\ addrs T' = addrs (fill k (RbTree.T false E a E)) /\
    node_proc r' = <[a := p]> (node_proc r) /\ proc_num r' = proc_num r /\ max_time_slice r' = max_time_slice r.
Proof.
  intros Hs [m Hm] Hb a. pose proof (fresh_addr r T Hs) as Hna. fold a in Hna. destruct (kmalloc_fresh (mem (tr r))) as [Hok _]. fold a in Hok.
  unfold tree_insert. fold a. cbv zeta. set (s1 := Rbs (<[a := RbNode 0 0 0]> (mem (tr r))) (rb_root (tr r))).
  set (r1 := TreeRq s1 (<[a := p]> (node_proc r)) (proc_num r) (max_time_slice r)).
  assert (Hs1 : shape s1 T) by (by apply shape_insert). pose proof (shape_size s1 T Hs1) as Hsz.
  destruct (place_spec r1 t p (fuel_of s1) [] T) as (k & HT & Hturn & Heq).
  { by apply (shape_focus s1 []). }
  { unfold fuel_of. lia. }
  rewrite app_nil_r in Heq. cbn [par link_side] in Heq. rewrite (proj1 (proj2 Hs1)). rewrite Heq, res_bind_ok.
  assert (Hlen : (length k <= size (mem s1))%nat).
  { rewrite HT, addrs_fill, length_app in Hsz. pose proof (kaddrs_length k). lia. }
  rewrite HT in Hs1, Hm, Hb, Hna.
  assert (Hlink : exists s2, rb_link_node a (par k) (link_side k) s1 = Ok s2 /\ (length k + 2 <= fuel_of s2)%nat).
  { destruct (link_focus s1 k a (RbNode 0 0 0)) as (s2 & Hl2 & Hf2); [by apply shape_focus|by (unfold s1; simpl; rewrite lookup_insert_eq)|done|by rewrite addrs_fill in Hna|].
    exists s2. split; [done|]. apply shape_focus in Hf2. pose proof (shape_size s2 _ Hf2) as Hsz2. rewrite addrs_fill, length_app in Hsz2.
    unfold fuel_of. pose proof (kaddrs_length k). lia. }
  destruct Hlink as (s2 & Hl2 & Hfuel).
  destruct (rb_insert_spec s1 k m (fuel_of s2) a (RbNode 0 0 0)) as (s' & T' & Hins & HsT & HmT & HbT & Had);
    [done|done|done|by (unfold s1; simpl; rewrite lookup_insert_eq)|done|done|done|].
  rewrite Hl2 in Hins |- *. cbn [mbind res_bind] in Hins. rewrite res_bind_ok, Hins, res_bind_ok. exists (set_tr s' r1), T', k. split_and!; try done.
  eapply Forall_impl; [exact Hturn|]. intros [d c b x] Hd Hb'. simpl in *. unfold owner in *.
  assert (b <> a) by (intros ->; apply Hna; by rewrite <- HT). simpl in Hd. rewrite lookup_insert_ne in Hd by done. done.
Qed.

Lemma holds_same r t t' T l :
  (forall q, pid (pget t' q) = pid (pget t q) /\ stride_prior (pget t' q) = stride_prior (pget t q)) -> holds r t T l -> holds r t' T l.
Proof.
  intros Hf [H1 H2 H3 H4 H5 H6]. split; try done.
  - rewrite (list_fmap_ext _ (fun p => pid (pget t p)) l); [done|]. intros i q _. by destruct (Hf q).
  - eapply Forall_impl; [exact H6|]. intros q Hq. by destruct (Hf q) as [_ ->].
Qed.

Lemma holds_key r t t' T l : (forall q, key (pget t' q) = key (pget t q)) -> holds r t T l -> holds r t' T l.
Proof. intros Hk. apply holds_same. intros q. specialize (Hk q). by injection Hk. Qed.

Lemma refill_key slice p : key (refill slice p) = key p.
Proof. unfold refill. by destruct (_ || _). Qed.

(** What the tree holds on both sides of a path. *)
Definition before (r : tree_rq) (k : list frame) : list Z := owner r <$> kbefore k.
Definition after (r : tree_rq) (k : list frame) : list Z := owner r <$> kafter k.

Lemma tree_enqueue_spec p r t T l :
  holds r t T l -> p ∉ l -> joinable t p l ->
  exists r' T' k, tree_enqueue cmp kmalloc p (r, t) = Ok (r', pupd p (refill (max_time_slice r)) t) /\
    T = fill k E /\ l = before r k ++ after r k /\
    Forall (fun f => let '(Fr _ _ b _) := f in b ∈ addrs T -> turned r t p f) k /\
    holds r' (pupd p (refill (max_time_slice r)) t) T' (before r k ++ p :: after r k).
Proof.
  intros [Hs Hm Hb Hl Hnd Hpr] Hp [Hpid Hprior]. unfold tree_enqueue.
  destruct (tree_insert_spec r t p T Hs Hm Hb) as (r' & T' & k & -> & HT & Hturn & Hs' & Hm' & Hb' & Had & Hnp & Hnum & Hsl).
  rewrite res_bind_ok, Hsl. exists (set_num (u32 (proc_num r' + 1)) r'), T', k. set (a := kmalloc (mem (tr r))) in *.
  assert (Hlk : l = before r k ++ after r k).
  { rewrite <- Hl, HT, addrs_hole. unfold before, after. by rewrite fmap_app. }
  assert (Hna : a ∉ addrs T) by (by apply fresh_addr). rewrite HT, addrs_hole in Hna. simpl in Hna. rewrite elem_of_app in Hna.
  split_and!; try done. apply (holds_key _ t).
  { intros q. rewrite pget_pupd. case_decide; [subst; apply refill_key|done]. }
  assert (Hperm : before r k ++ p :: after r k ≡ₚ p :: l) by (rewrite Hlk; by rewrite <- Permutation_middle).
  split; simpl; try done.
  - rewrite Had, addrs_hole, fmap_app. simpl. unfold owner at 2. simpl. rewrite Hnp, lookup_insert_eq. simpl.
    f_equal; [|f_equal]; apply list_fmap_ext; intros i b Hi; unfold owner; simpl; rewrite Hnp, lookup_insert_ne; try done;
      intros <-; apply list_elem_of_lookup_2 in Hi; tauto.
  - rewrite Hperm. simpl. apply NoDup_cons. split; [|done]. rewrite list_elem_of_fmap. intros (q & Hq & Hin).
    exact (proj1 (Forall_forall _ _) Hpid q Hin (eq_sym Hq)).
  - rewrite Hperm. by constructor.
Qed.

(** The leftmost node is what [find_min] and the search of its process find. *)
Lemma tree_find_min_spec r t T l : holds r t T l -> tree_find_min r = Ok (head l).
Proof.
  intros [Hs _ _ Hl _ _]. unfold tree_find_min. rewrite (proj1 (proj2 Hs)).
  destruct (decide (T = E)) as [->|HT]; [by subst l|].
  pose proof (shape_size _ _ Hs) as Hsz. apply (shape_focus (tr r) []) in Hs.
  assert (Hp : ptr T <> 0) by (apply addr_ok_ne, (good_ok _ _ (fo_good _ _ _ Hs)); rewrite elem_of_app; left; by apply ptr_in).
  rewrite (proj2 (Z.eqb_neq _ 0) Hp).
  destruct (descend_spec Lf (fuel_of (tr r)) (tr r) [] T Hs HT) as (kk & c & a & x & -> & Hside & Heq); [unfold fuel_of; lia|].
  rewrite Heq, res_bind_ok. destruct (left_hole kk Hside) as [B HB]. rewrite <- Hl, HB. done.
Qed.

Lemma search_spec r t p fuel : forall k T a,
  focus (tr r) k T -> head (addrs T) = Some a -> (length (addrs T) < fuel)%nat ->
  pid (pget t (owner r a)) = pid (pget t p) ->
  (forall b, b ∈ addrs T -> pid (pget t (owner r b)) = pid (pget t p) -> b = a) ->
  search_loop cmp fuel r t (ptr T) p = Ok (Some a).
Proof.
  induction fuel as [|fuel IH]; intros k T a Hf Hh Hlen Ha Huniq; [lia|]. destruct T as [|c l b x]; [done|]. cbn [search_loop ptr].
  rewrite (proj2 (Z.eqb_neq b 0)) by (eapply addr_ok_ne, (focus_addr _ k Lf), Hf). cbn [negb].
  rewrite (focus_get _ k Lf c b l x Hf), res_bind_ok. simpl in Hlen. rewrite length_app in Hlen. simpl in Hlen, Hh.
  destruct (decide (l = E)) as [->|Hl]; [simpl in Hh; injection Hh as ->; by rewrite Ha, Z.eqb_refl|].
  assert (Hhl : head (addrs l) = Some a) by (pose proof (ptr_in l Hl) as Hpi; destruct (addrs l); [by apply elem_of_nil in Hpi|done]).
  assert (Hin : a ∈ addrs l) by (destruct (addrs l); [done|]; injection Hhl as ->; left).
  assert (Hba : b <> a).
  { intros ->. pose proof (good_app_l _ _ (fo_good _ _ _ Hf)) as Hg. simpl in Hg. apply (good_disj _ _ a Hg); [done|left]. }
  destruct (Z.eqb_spec (pid (pget t (owner r b))) (pid (pget t p))) as [He|He].
  { exfalso. apply Hba, Huniq; [|done]. simpl. rewrite elem_of_app. right. left. }
  rewrite (proj2 (Z.eqb_neq (cmp _ _) 0)) by apply cmp_nz. cbn [negb].
  apply (IH (Fr Lf c b x :: k) l a); [by apply (focus_down _ Lf)|done|lia|done|].
  intros z Hz. apply Huniq. simpl. rewrite elem_of_app. by left.
Qed.

#[local] Arguments search_loop : simpl never.

Lemma pids_inj t (f : Z -> Z) (L : list Z) :
  NoDup ((fun p => pid (pget t p)) <$> (f <$> L)) -> forall x y, x ∈ L -> y ∈ L -> pid (pget t (f x)) = pid (pget t (f y)) -> x = y.
Proof.
  intros Hnd x y Hx Hy He. apply list_elem_of_lookup in Hx as [i Hi], Hy as [j Hj].
  assert (i = j) as ->; [|congruence]. eapply NoDup_lookup; [exact Hnd| |]; rewrite !list_lookup_fmap, ?Hi, ?Hj; simpl; [done|by rewrite He].
Qed.

(** Dequeuing the least process takes exactly it. *)
Lemma tree_dequeue_spec p r t T l :
  holds r t T (p :: l) -> exists r' T', tree_dequeue cmp p (r, t) = Ok (r', t) /\ holds r' t T' l.
Proof.
  intros Hh. pose proof Hh as [Hs [m Hm] Hb Hl Hnd Hpr]. unfold tree_dequeue, tree_search.
  destruct (addrs T) as [|a L] eqn:HL; [done|]. simpl in Hl. injection Hl as Ha Hl.
  pose proof (shape_size _ _ Hs) as Hsz. rewrite (proj1 (proj2 Hs)).
  rewrite (search_spec r t p (fuel_of (tr r)) [] T a), res_bind_ok; rewrite ?HL, ?Ha in *; try done.
  2: { by apply (shape_focus (tr r) []). }
  2: { unfold fuel_of. simpl in *. lia. }
  2: { intros b Hbin He. apply (pids_inj t (owner r) (a :: L)); [simpl; by rewrite Ha, Hl|done|left|]. by rewrite Ha. }
  destruct (rb_erase_spec (tr r) T m (fuel_of (tr r)) a Hs Hm Hb) as (s' & T' & l1 & l2 & -> & Hs' & Hm' & Hb' & Had & Had');
    [rewrite HL; left|rewrite HL; unfold fuel_of; simpl in *; lia|]. rewrite res_bind_ok.
  assert (HndT : NoDup (addrs T)) by (by destruct Hs as (_ & _ & ? & _)).
  assert (l1 = []) as ->.
  { destruct l1 as [|z l1]; [done|]. rewrite HL in Had, HndT. injection Had as <- Had. rewrite Had in HndT.
    apply NoDup_cons in HndT as [Hn _]. exfalso. apply Hn. rewrite elem_of_app. right. left. }
  rewrite HL in Had, HndT. injection Had as Had. simpl in Had'. apply NoDup_cons in HndT as [HaL HndL].
  eexists _, T'. split; [done|]. apply NoDup_cons in Hnd as [_ Hnd]. apply Forall_cons in Hpr as [_ Hpr].
  split; simpl; try done.
  - apply shape_delete; [done|]. by rewrite Had', <- Had.
  - rewrite Had', <- Had, <- Hl. apply list_fmap_ext. intros i b Hi. unfold owner. simpl. rewrite lookup_delete_ne; [done|].
    intros <-. by apply HaL, list_elem_of_lookup_2 with i.
Qed.

(** The laws both classes share. *)
Lemma tree_enqueue_law p x l : tree_queue x l -> p ∉ l -> joinable x.2 p l ->
  exists l', tree_queue (or_same (tree_enqueue cmp kmalloc p x) x) l' /\ l' ≡ₚ p :: l.
Proof.
  destruct x as [r t]. intros [T HT] Hp Hj. destruct (tree_enqueue_spec p r t T l HT Hp Hj) as (r' & T' & k & -> & _ & -> & _ & H').
  exists (before r k ++ p :: after r k). split; [by exists T'|by rewrite <- Permutation_middle].
Qed.

Lemma tree_enqueue_fields p x q :
  core (pget (or_same (tree_enqueue cmp kmalloc p x) x).2 q) = core (pget x.2 q) /\
  links (pget (or_same (tree_enqueue cmp kmalloc p x) x).2 q) = links (pget x.2 q).
Proof.
  destruct x as [r t]. unfold tree_enqueue. destruct (tree_insert cmp kmalloc r t p) as [r'| |]; simpl; try done.
  rewrite pget_pupd. case_decide; [|done]. subst. unfold refill. by destruct (_ || _).
Qed.

Lemma tree_dequeue_fields p x q : core (pget (or_same (tree_dequeue cmp p x) x).2 q) = core (pget x.2 q).
Proof.
  destruct x as [r t]. unfold tree_dequeue. destruct (tree_search cmp r t p) as [[a|]| |]; simpl; try done.
  by destruct (rb_erase _ _ _).
Qed.
End TreeProofs.

Lemma compare_stride_nz a b : compare_stride_node a b <> 0.
Proof. unfold compare_stride_node. repeat zcase; simpl; done. Qed.

Lemma compare_cfs_nz a b : compare_cfs_node a b <> 0.
Proof. unfold compare_cfs_node. repeat zcase; simpl; done. Qed.

#[local] Arguments tree_dequeue : simpl never.
#[local] Arguments stride_dequeue : simpl never.
#[local] Arguments cfs_dequeue : simpl never.

Section Laws.
Context (kmalloc : gmap Z rb_node -> Z).
Hypothesis kmalloc_fresh : forall h, addr_ok (kmalloc h) /\ h !! kmalloc h = None.

Lemma stride_pick_spec r t T p l :
  holds r t T (p :: l) -> exists v, pass (pget t p) = Ok v /\
    stride_pick_next (r, t) = Ok (Some p, (r, pupd p (set_stride v) t)) /\ holds r (pupd p (set_stride v) t) T (p :: l).
Proof.
  intros Hh. unfold stride_pick_next. rewrite (tree_find_min_spec r t T _ Hh), res_bind_ok. simpl.
  pose proof (ho_prior _ _ _ _ Hh) as Hpr. apply Forall_cons in Hpr as [Hpr _].
  exists (u32 (stride (pget t p) + BIG_STRIDE / u32 (20 - stride_prior (pget t p)))).
  assert (Hpass : pass (pget t p) = Ok (u32 (stride (pget t p) + BIG_STRIDE / u32 (20 - stride_prior (pget t p))))).
  { unfold pass. by rewrite (proj2 (Z.eqb_neq _ 0) Hpr). }
  rewrite Hpass, res_bind_ok. split_and!; try done. eapply holds_same; [|exact Hh].
  intros q. rewrite pget_pupd. case_decide; subst; done.
Qed.

#[export] Instance stride_laws : SchedLaws (default_sched_class kmalloc) tree_queue.
Proof.
  split; simpl.
  - intros p x l. apply (tree_enqueue_law _ _ compare_stride_nz kmalloc_fresh).
  - intros [r t] l [T Hh]. destruct l as [|p l].
    + unfold stride_pick_next. rewrite (tree_find_min_spec r t T _ Hh), res_bind_ok. simpl. split; [done|by exists T].
    + destruct (stride_pick_spec r t T p l Hh) as (v & _ & -> & Hh'). simpl.
      destruct (tree_dequeue_spec _ compare_stride_nz p r _ T l Hh') as (r' & T' & Heq & Hh2). exists l.
      unfold stride_dequeue. rewrite Heq. split; [by exists T'|done].
  - intros p x q. apply tree_enqueue_fields.
  - intros p x q. apply tree_enqueue_fields.
  - intros p x q. apply tree_dequeue_fields.
  - intros [r t] q. unfold stride_pick_next. destruct (tree_find_min r) as [[p|]| |]; simpl; try done.
    destruct (pass (pget t p)); simpl; try done. rewrite pget_pupd. case_decide; subst; done.
  - intros r t t' l [T Hh] Hk. exists T. by eapply holds_key.
Qed.

#[export] Instance cfs_laws : SchedLaws (cfs_sched_class kmalloc) tree_queue.
Proof.
  split; simpl.
  - intros p x l. apply (tree_enqueue_law _ _ compare_cfs_nz kmalloc_fresh).
  - intros [r t] l [T Hh]. unfold cfs_pick_next. rewrite (tree_find_min_spec r t T _ Hh), res_bind_ok. destruct l as [|p l]; simpl.
    + split; [done|by exists T].
    + destruct (tree_dequeue_spec _ compare_cfs_nz p r t T l Hh) as (r' & T' & Heq & Hh2). exists l.
      unfold cfs_dequeue. rewrite Heq. split; [by exists T'|done].
  - intros p x q. apply tree_enqueue_fields.
  - intros p x q. apply tree_enqueue_fields.
  - intros p x q. apply tree_dequeue_fields.
  - intros [r t] q. unfold cfs_pick_next. by destruct (tree_find_min r).
  - intros r t t' l [T Hh] Hk. exists T. by eapply holds_key.
Qed.
End Laws.

(** ** The order of the queue *)
Definition lex (a b : Z * Z) : Prop := a.1 < b.1 \/ (a.1 = b.1 /\ a.2 < b.2).

Definition in_order (rank : proc_struct -> Z * Z) (t : ptable) (l : list Z) : Prop :=
  StronglySorted (fun p q => lex (rank (pget t p)) (rank (pget t q))) l.

Lemma lex_trans a b c : lex a b -> lex b c -> lex a c.
Proof. unfold lex. lia. Qed.

Section Order.
Context (cmp : proc_struct -> proc_struct -> Z) (kmalloc : gmap Z rb_node -> Z) (rank : proc_struct -> Z * Z).
Hypothesis cmp_nz : forall a b, cmp a b <> 0.
Hypothesis kmalloc_fresh : forall h, addr_ok (kmalloc h) /\ h !! kmalloc h = None.
Hypothesis rank_key : forall a b, key a = key b -> rank a = rank b.

(** The comparison of [p] with the processes of [l] is the order of ranks. *)
Definition agrees (t : ptable) (p : Z) (l : list Z) : Prop :=
  Forall (fun q => (cmp (pget t p) (pget t q) < 0 -> lex (rank (pget t p)) (rank (pget t q))) /\
                   (0 < cmp (pget t p) (pget t q) -> lex (rank (pget t q)) (rank (pget t p)))) l.

Lemma path_order r t p k : forall X,
  in_order rank t (before r k ++ X ++ after r k) -> agrees t p (before r k ++ after r k) -> Forall (turned cmp r t p) k ->
  Forall (fun q => lex (rank (pget t q)) (rank (pget t p))) (before r k) /\
  Forall (fun q => lex (rank (pget t p)) (rank (pget t q))) (after r k).
Proof.
  induction k as [|[d c a s] k IH]; intros X Hs Ha Ht; [by split|]. apply Forall_cons in Ht as [Htu Ht].
  unfold before, after in *. destruct d; simpl in *; rewrite ?fmap_app in *; simpl in *.
  - destruct (IH (X ++ owner r a :: (owner r <$> addrs s))) as [H1 H2]; [by rewrite <- !app_assoc| |done|].
    { unfold agrees in *. rewrite Forall_app, Forall_cons, Forall_app in Ha. rewrite Forall_app. tauto. }
    split; [done|]. apply Forall_app in Ha as [_ Ha]. apply Forall_cons in Ha as [[Hlt _] _]. specialize (Hlt Htu).
    constructor; [done|]. apply Forall_app. split; [|done]. apply Forall_forall. intros q Hq.
    apply (lex_trans _ _ _ Hlt). replace ((owner r <$> kbefore k) ++ X ++ owner r a :: (owner r <$> addrs s) ++ (owner r <$> kafter k))
      with (((owner r <$> kbefore k) ++ X ++ [owner r a]) ++ (owner r <$> addrs s) ++ (owner r <$> kafter k)) in Hs
      by (by rewrite <- !app_assoc).
    apply (StronglySorted_app_1_elem_of _ _ _ _ _ Hs); [rewrite !elem_of_app; right; right; left|rewrite elem_of_app; by left].
  - destruct (IH ((owner r <$> addrs s) ++ owner r a :: X)) as [H1 H2].
    { rewrite <- !app_assoc in *. exact Hs. }
    { unfold agrees in *. rewrite !Forall_app in Ha. apply Forall_app. tauto. }
    { done. }
    split; [|done]. rewrite <- app_assoc in Ha. apply Forall_app in Ha as [_ Ha]. rewrite <- app_assoc in Ha.
    apply Forall_app in Ha as [_ Ha]. apply Forall_cons in Ha as [[_ Hgt] _]. specialize (Hgt Htu).
    apply Forall_app. split; [done|]. apply Forall_app. split; [|by apply Forall_singleton]. apply Forall_forall. intros q Hq.
    refine (lex_trans _ _ _ _ Hgt).
    replace (((owner r <$> kbefore k) ++ (owner r <$> addrs s) ++ [owner r a]) ++ X ++ (owner r <$> kafter k))
      with (((owner r <$> kbefore k) ++ (owner r <$> addrs s)) ++ (owner r a :: X) ++ (owner r <$> kafter k)) in Hs
      by (by rewrite <- !app_assoc).
    apply (StronglySorted_app_1_elem_of _ _ _ _ _ Hs); [rewrite elem_of_app; by right|left].
Qed.

Lemma in_order_key t t' l : (forall q, q ∈ l -> rank (pget t' q) = rank (pget t q)) -> in_order rank t l -> in_order rank t' l.
Proof.
  intros Hk Hs. induction Hs as [|p l Hs IH Hf]; [constructor|]. constructor.
  - apply IH. intros q Hq. apply Hk. by right.
  - apply Forall_forall. intros q Hq. rewrite (Hk p) by left. rewrite (Hk q) by (by right).
    exact (proj1 (Forall_forall _ _) Hf q Hq).
Qed.

(** Enqueuing keeps the order. *)
Lemma tree_enqueue_order p r t T l :
  holds r t T l -> in_order rank t l -> p ∉ l -> joinable t p l -> agrees t p l ->
  exists r' T' l', tree_enqueue cmp kmalloc p (r, t) = Ok (r', pupd p (refill (max_time_slice r)) t) /\
    holds r' (pupd p (refill (max_time_slice r)) t) T' l' /\ l' ≡ₚ p :: l /\ in_order rank (pupd p (refill (max_time_slice r)) t) l'.
Proof.
  intros Hh Hord Hp Hj Hag. destruct (tree_enqueue_spec cmp kmalloc cmp_nz kmalloc_fresh p r t T l Hh Hp Hj) as (r' & T' & k & -> & HT & Hl & Ht & Hh').
  exists r', T', (before r k ++ p :: after r k). split; [done|]. split; [done|].
  split; [rewrite Hl; by rewrite <- Permutation_middle|]. apply (in_order_key t).
  { intros q _. apply rank_key. rewrite pget_pupd. case_decide; [subst; apply refill_key|done]. }
  rewrite Hl in Hord, Hag. destruct (path_order r t p k [] Hord Hag) as [Hbe Haf].
  { apply Forall_forall. intros f Hf. pose proof (proj1 (Forall_forall _ _) Ht f Hf) as Hx. destruct f as [d c a s]. apply Hx.
    rewrite HT, addrs_fill. simpl. clear -Hf. induction k as [|[d' c' a' s'] k IH]; [by apply elem_of_nil in Hf|].
    apply elem_of_cons in Hf as [[= -> -> -> ->]|Hf]; simpl; [left|right; rewrite elem_of_app; right; auto]. }
  unfold in_order in *. apply StronglySorted_app in Hord as (Hx & Hs1 & Hs2). apply StronglySorted_app. split_and!; [|done|by constructor].
  intros x y H1 [->|H2]%elem_of_cons; [exact (proj1 (Forall_forall _ _) Hbe x H1)|by apply Hx].
Qed.
End Order.

(** ** CFS *)
Definition cfs_rank (p : proc_struct) : Z * Z := (vruntime p, pid p).

Lemma cfs_agrees t p l : joinable t p l -> agrees compare_cfs_node cfs_rank t p l.
Proof.
  intros [Hp _]. eapply Forall_impl; [exact Hp|]. intros q Hq. simpl in *. unfold compare_cfs_node, lex. simpl.
  repeat zcase; simpl; lia.
Qed.

(** in a CFS queue ordered by virtual run time (and pid) a process that
    joins takes its place in the order; [pick_next] returns the process that
    is least in it, and the dequeue that follows removes exactly that process.
    No step faults. *)
Theorem cfs_runs_least (kmalloc : gmap Z rb_node -> Z) (r : tree_rq) (t : ptable) (T : tree) (l : list Z) :
  (forall h, addr_ok (kmalloc h) /\ h !! kmalloc h = None) -> holds r t T l -> in_order cfs_rank t l ->
  (forall p, p ∉ l -> joinable t p l -> exists r' T' l', let t' := pupd p (refill (max_time_slice r)) t in
     cfs_enqueue kmalloc p (r, t) = Ok (r', t') /\ holds r' t' T' l' /\ l' ≡ₚ p :: l /\ in_order cfs_rank t' l') /\
  (forall p l0, l = p :: l0 -> cfs_pick_next (r, t) = Ok (Some p, (r, t)) /\
     Forall (fun q => lex (cfs_rank (pget t p)) (cfs_rank (pget t q))) l0 /\
     exists r' T', cfs_dequeue p (r, t) = Ok (r', t) /\ holds r' t T' l0 /\ in_order cfs_rank t l0) /\
  (l = [] -> cfs_pick_next (r, t) = Ok (None, (r, t))).
Proof.
  intros Hfresh Hh Hord. split_and!.
  - intros p Hp Hj. cbv zeta. apply (tree_enqueue_order _ kmalloc cfs_rank compare_cfs_nz Hfresh) with T; try done; [|by apply cfs_agrees].
    intros a b H. unfold cfs_rank. by injection H as -> _ -> _.
  - intros p l0 ->. unfold cfs_pick_next. rewrite (tree_find_min_spec r t T _ Hh). split; [done|].
    inversion Hord; subst. split; [done|].
    destruct (tree_dequeue_spec _ compare_cfs_nz p r t T l0 Hh) as (r' & T' & Heq & Hh'). by exists r', T'.
  - intros ->. unfold cfs_pick_next. by rewrite (tree_find_min_spec r t T _ Hh).
Qed.

(** ** Stride *)
Definition stride_rank (base : Z) (p : proc_struct) : Z * Z := (u32 (stride p - base), pid p).

(** All passes lie in one half of the 32-bit circle, from [base] on. *)
Definition window (base : Z) (t : ptable) (l : list Z) : Prop :=
  Forall (fun q => u32 (stride (pget t q) - base) < 2 ^ 31) l.

Lemma i32_mod a b : u32 a = u32 b -> i32 a = i32 b.
Proof. unfold u32, i32. intros H. rewrite <- (Zplus_mod_idemp_l a), <- (Zplus_mod_idemp_l b). by rewrite H. Qed.

Lemma stride_diff base a b :
  u32 (a - base) < 2 ^ 31 -> u32 (b - base) < 2 ^ 31 -> i32 (a - b) = u32 (a - base) - u32 (b - base).
Proof.
  intros Ha Hb. pose proof (u32_range (a - base)). pose proof (u32_range (b - base)).
  rewrite <- (i32_small (u32 (a - base) - u32 (b - base))) by lia. apply i32_mod. unfold u32.
  rewrite <- Zminus_mod. f_equal. lia.
Qed.

Lemma stride_agrees base t p l :
  joinable t p l -> window base t (p :: l) -> agrees compare_stride_node (stride_rank base) t p l.
Proof.
  intros [Hp _] Hw. apply Forall_cons in Hw as [Hwp Hw]. apply Forall_forall. intros q Hq.
  pose proof (proj1 (Forall_forall _ _) Hp q Hq) as Hpq. pose proof (proj1 (Forall_forall _ _) Hw q Hq) as Hwq. simpl in Hpq, Hwq.
  unfold compare_stride_node, lex, stride_rank. simpl. rewrite (stride_diff base) by done.
  repeat zcase; simpl; lia.
Qed.

(** as long as the passes in a stride queue span less than half of the
    32-bit range, the signed difference orders them rightly across
    wrap-around: a process that joins takes its place in the order of passes
    (and pids), [pick_next] returns the least one and advances only its pass,
    and the dequeue that follows removes exactly that process.  No step
    faults. *)
Theorem stride_runs_least (kmalloc : gmap Z rb_node -> Z) (base : Z) (r : tree_rq) (t : ptable) (T : tree) (l : list Z) :
  (forall h, addr_ok (kmalloc h) /\ h !! kmalloc h = None) -> holds r t T l -> in_order (stride_rank base) t l ->
  (forall p, p ∉ l -> joinable t p l -> window base t (p :: l) -> exists r' T' l', let t' := pupd p (refill (max_time_slice r)) t in
     stride_enqueue kmalloc p (r, t) = Ok (r', t') /\ holds r' t' T' l' /\ l' ≡ₚ p :: l /\ in_order (stride_rank base) t' l') /\
  (forall p l0, l = p :: l0 -> Forall (fun q => lex (stride_rank base (pget t p)) (stride_rank base (pget t q))) l0 /\
     exists v r' T', let t' := pupd p (set_stride v) t in
       pass (pget t p) = Ok v /\ stride_pick_next (r, t) = Ok (Some p, (r, t')) /\
       stride_dequeue p (r, t') = Ok (r', t') /\ holds r' t' T' l0 /\ in_order (stride_rank base) t' l0) /\
  (l = [] -> stride_pick_next (r, t) = Ok (None, (r, t))).
Proof.
  intros Hfresh Hh Hord. split_and!.
  - intros p Hp Hj Hw. cbv zeta. apply (tree_enqueue_order _ kmalloc (stride_rank base) compare_stride_nz Hfresh) with T; try done;
      [|by apply stride_agrees]. intros a b H. unfold stride_rank. by injection H as -> -> _ _.
  - intros p l0 ->. pose proof Hord as Hord'. inversion Hord' as [|? ? Hs Hf]; subst. split; [done|].
    destruct (stride_pick_spec r t T p l0 Hh) as (v & Hv & Hpick & Hh1).
    destruct (tree_dequeue_spec _ compare_stride_nz p r _ T l0 Hh1) as (r' & T' & Heq & Hh').
    exists v, r', T'. cbv zeta. split_and!; try done. apply (in_order_key _ t); [|done]. intros q Hq. rewrite pget_pupd_ne; [done|].
    intros ->. pose proof (ho_pids _ _ _ _ Hh) as Hnd. csimpl in Hnd. apply NoDup_cons in Hnd as [Hn _].
    apply Hn. apply list_elem_of_fmap. by exists p.
  - intros ->. unfold stride_pick_next. by rewrite (tree_find_min_spec r t T _ Hh).
Qed.

(** ** A concrete queue: processes 2 and 3 in a two-node tree *)
Definition demo_alloc (h : gmap Z rb_node) : Z := 4 * (1 + map_fold (fun a _ m => Z.max a m) 0 h).

Lemma demo_alloc_fresh h : addr_ok (demo_alloc h) /\ h !! demo_alloc h = None.
Proof.
  assert (Hmax : 0 <= map_fold (fun a (_ : rb_node) m => Z.max a m) 0 h /\ forall a n, h !! a = Some n -> a <= map_fold (fun a _ m => Z.max a m) 0 h).
  { apply (map_fold_weak_ind (fun m (h : gmap Z rb_node) => 0 <= m /\ forall a n, h !! a = Some n -> a <= m)).
    - split; [done|]. intros a n H. by rewrite lookup_empty in H.
    - intros i x h' m Hi [H0 IH]. split; [lia|]. intros a n. destruct (decide (a = i)) as [->|Hne]; [lia|].
      rewrite lookup_insert_ne by done. intros H. specialize (IH a n H). lia. }
  unfold demo_alloc. set (m := map_fold _ 0 h) in *. destruct Hmax as [H0 Hle]. split.
  - split; [lia|]. rewrite Z.mul_comm. by apply Z.mod_mul.
  - destruct (h !! (4 * (1 + m))) as [n|] eqn:Hn; [|done]. specialize (Hle _ _ Hn). lia.
Defined.

Definition demo_table : ptable :=
  <[1 := set_stride 7 (set_vruntime 25 (demo_proc 1 PROC_RUNNABLE 0))]>
  (<[2 := set_stride 0xFFFFFFF0 (set_vruntime 20 (demo_proc 2 PROC_RUNNABLE 0))]>
  (<[3 := set_stride 5 (set_vruntime 30 (demo_proc 3 PROC_RUNNABLE 0))]> ∅)).
Definition demo_rq : tree_rq :=
  TreeRq (Rbs (<[8 := RbNode 1 12 0]> (<[12 := RbNode 8 0 0]> ∅)) 8) (<[8 := 2]> (<[12 := 3]> ∅)) 2 5.
Definition demo_rq_tree : tree := T true E 8 (T false E 12 E).

Lemma demo_holds : holds demo_rq demo_table demo_rq_tree [2; 3].
Proof.
  split; [|exists 1%nat; repeat constructor|done|done|apply (bool_decide_unpack _); by vm_compute|by repeat constructor].
  split; [repeat split; reflexivity|]. split; [done|]. split; [apply (bool_decide_unpack _); by vm_compute|by repeat constructor].
Defined.

Lemma cfs_runs_least_witness :
  cfs_pick_next (demo_rq, demo_table) = Ok (Some 2, (demo_rq, demo_table)) /\
  exists r' T' l', let t' := pupd 1 (refill 5) demo_table in
    cfs_enqueue demo_alloc 1 (demo_rq, demo_table) = Ok (r', t') /\ holds r' t' T' l' /\ l' ≡ₚ [1; 2; 3] /\ in_order cfs_rank t' l'.
Proof.
  assert (Hord : in_order cfs_rank demo_table [2; 3]) by (repeat constructor).
  pose proof (cfs_runs_least demo_alloc demo_rq demo_table demo_rq_tree [2; 3] demo_alloc_fresh demo_holds Hord) as (He & Hp & _).
  split; [apply (Hp 2 [3] eq_refl)|]. apply (He 1).
  - apply (bool_decide_unpack _); by vm_compute.
  - split; [by repeat constructor|done].
Defined.

(** The pass of process 2 is 16 before the wrap-around, the others just after. *)
Lemma stride_runs_least_witness :
  exists r' T' l', let t' := pupd 1 (refill 5) demo_table in
    stride_enqueue demo_alloc 1 (demo_rq, demo_table) = Ok (r', t') /\ holds r' t' T' l' /\ l' ≡ₚ [1; 2; 3] /\
    in_order (stride_rank 0xFFFFFFF0) t' l'.
Proof.
  assert (Hord : in_order (stride_rank 0xFFFFFFF0) demo_table [2; 3]) by (repeat constructor).
  pose proof (stride_runs_least demo_alloc 0xFFFFFFF0 demo_rq demo_table demo_rq_tree [2; 3] demo_alloc_fresh demo_holds Hord) as (He & _).
  apply (He 1).
  - apply (bool_decide_unpack _); by vm_compute.
  - split; [by repeat constructor|done].
  - by repeat constructor.
Defined.
