(* ===== verification/Threads.v ===== *)
(** * Killing every thread of a process

    [do_kill_all_thread] of kern/process/proc.c (modelled in Process) and
    [kill_all_thread] of kern/trap/trap.c, which the page fault handler calls
    for a process it cannot serve. *)
From S2P Require Import Prelude ProcData Sched Process RbSched.

(** ** What a scheduling class leaves alone besides *)
Definition marks (p : proc_struct) : Z * Z * list Z := (flags p, is_thread p, stack p).

Class ThreadLaws {RQ : Type} (class : sched_class RQ) := {
  enqueue_marks : forall p x q, marks (pget (sc_enqueue class p x).2 q) = marks (pget x.2 q)
}.

#[export] Instance list_marks : ThreadLaws list_class.
Proof. by constructor. Defined.

Lemma tree_enqueue_marks cmp kmalloc p x q : marks (pget (or_same (tree_enqueue cmp kmalloc p x) x).2 q) = marks (pget x.2 q).
Proof.
  destruct x as [r t]. unfold tree_enqueue. destruct (tree_insert cmp kmalloc r t p) as [r'| |]; simpl; try done.
  rewrite pget_pupd. case_decide; [|done]. subst. unfold refill. by destruct (_ || _).
Qed.

Lemma tree_enqueue_rest cmp kmalloc p x q : rest (pget (or_same (tree_enqueue cmp kmalloc p x) x).2 q) = rest (pget x.2 q).
Proof.
  destruct x as [r t]. unfold tree_enqueue. destruct (tree_insert cmp kmalloc r t p) as [r'| |]; simpl; try done.
  rewrite pget_pupd. case_decide; [|done]. subst. unfold refill. by destruct (_ || _).
Qed.

#[export] Instance stride_rest kmalloc : KeepsRest (default_sched_class kmalloc).
Proof. constructor. intros. apply tree_enqueue_rest. Qed.
#[export] Instance cfs_rest kmalloc : KeepsRest (cfs_sched_class kmalloc).
Proof. constructor. intros. apply tree_enqueue_rest. Qed.

#[export] Instance stride_marks kmalloc : ThreadLaws (default_sched_class kmalloc).
Proof. constructor. intros. apply tree_enqueue_marks. Qed.
#[export] Instance cfs_marks kmalloc : ThreadLaws (cfs_sched_class kmalloc).
Proof. constructor. intros. apply tree_enqueue_marks. Qed.

Section Threads.
Context {RQ : Type} (class : sched_class RQ).

Definition kill_all_thread (fuel : nat) (last_user : bool) (k : kern (RQ := RQ)) : res kern :=
  if negb (negb (is_thread (pr k (cur k)) =? 0) || has_thread (pr k (cur k))) then do_exit class fuel last_user (- E_KILLED) k
  else
    father ← main_thread fuel k (cur k);
    k ← kill_threads class (seq 1 (Z.to_nat MAX_THREAD - 1)) father k;
    '(_, k) ← do_kill class (pid (pr k father)) k;
    do_exit class fuel last_user (- E_KILLED) k.

Context (Q : RQ * ptable -> list Z -> Prop) `{!SchedLaws class Q} `{!ThreadLaws class}.
Implicit Type k : kern (RQ := RQ).

Definition exiting (p : proc_struct) : Prop := Z.land (flags p) PF_EXITING <> 0.

(** The processes and their names stay, and nobody dies. *)
Record stays k k' : Prop := {
  st_list : proc_list k' = proc_list k;
  st_hash : hash_list k' = hash_list k;
  st_pid : forall q, pid (pr k' q) = pid (pr k q);
  st_alive : forall q, state (pr k q) <> PROC_ZOMBIE -> state (pr k' q) <> PROC_ZOMBIE;
  st_stack : forall q, stack (pr k' q) = stack (pr k q);
  st_exit : forall q, exiting (pr k q) -> exiting (pr k' q)
}.

Lemma stays_refl k : stays k k.
Proof. by split. Qed.
Lemma stays_trans k1 k2 k3 : stays k1 k2 -> stays k2 k3 -> stays k1 k3.
Proof. intros [] []. split; intros; [congruence..|eauto|congruence|eauto]. Qed.

Lemma registry_stays k k' : registry k -> stays k k' -> registry k'.
Proof.
  intros [Hi Ho Hn] [Hl Hh Hp _ _ _]. assert (Hc : forall i, chain k' i = chain k i) by (intros i; unfold chain; by rewrite Hh). split.
  - intros p Hin. rewrite Hc, Hp. apply Hi. by rewrite <- Hl.
  - intros i p. rewrite Hc, Hl. apply Ho.
  - unfold pids. rewrite Hl. erewrite list_fmap_ext; [exact Hn|]. intros. apply Hp.
Qed.

Lemma wakeup_marks p s s' : wakeup_proc class p s = Ok s' -> forall q, marks (the_proc s' q) = marks (the_proc s q).
Proof.
  unfold wakeup_proc. intros (_ & _ & H)%res_bind_inv q. revert H.
  set (t := pupd p _ (procs s)).
  assert (Ht : marks (pget t q) = marks (the_proc s q)) by (unfold t; rewrite pget_pupd; case_decide; subst; done).
  destruct (negb (bool_decide _)); intros [= <-]; [|done]. unfold sched_class_enqueue. simpl.
  destruct (p =? current s), (p =? idleproc s); simpl; try exact Ht. unfold the_proc. simpl. rewrite enqueue_marks. exact Ht.
Qed.

Lemma exiting_lor f : Z.land (Z.lor f PF_EXITING) PF_EXITING <> 0.
Proof. rewrite Z.land_lor_distr_l, Z.land_diag. intros [_ H]%Z.lor_eq_0_iff. done. Qed.

(** ** One process *)
Lemma do_kill_ok k p : registry k -> p ∈ proc_list k -> 0 < pid (pr k p) < MAX_PID -> state (pr k p) <> PROC_ZOMBIE ->
  exists r k', do_kill class (pid (pr k p)) k = Ok (r, k') /\ stays k k' /\ exiting (pr k' p) /\
    (forall q, is_thread (pr k' q) = is_thread (pr k q)) /\ (forall q, q <> p -> flags (pr k' q) = flags (pr k q)).
Proof.
  intros Hreg Hp Hn Hz. unfold do_kill. rewrite (find_proc_in k p) by done.
  destruct (Z.eqb_spec (Z.land (flags (pr k p)) PF_EXITING) 0) as [Hf|Hf]; [|exists (- E_KILLED), k; by split_and!].
  set (k1 := upd_proc p _ k).
  assert (H1 : forall q, pr k1 q = if decide (q = p) then set_flags (Z.lor (flags (pr k p)) PF_EXITING) (pr k p) else pr k q) by (intros q; unfold k1; by rewrite pr_upd).
  assert (Hs1 : stays k k1).
  { split; [done|done|..]; intros q; rewrite H1; (destruct (decide (q = p)) as [->|]; [|done]); done. }
  destruct (negb _).
  - destruct (wakeup_core class Q p (sc k1)) as (s' & Hw & _ & _ & _ & _ & Hr & _ & Hoth); [by apply (st_alive _ _ Hs1)|]. rewrite Hw, res_bind_ok.
    pose proof (wakeup_marks _ _ _ Hw) as Hm. pose proof (wakeup_pid class Q _ _ _ Hw) as Hpid.
    set (k2 := set_sc s' k1). assert (Hm2 : forall q, marks (pr k2 q) = marks (pr k1 q)) by exact Hm. clear Hm.
    assert (Hfl : forall q, flags (pr k2 q) = flags (pr k1 q)) by (intros q; specialize (Hm2 q); unfold marks in Hm2; congruence).
    assert (Hit : forall q, is_thread (pr k2 q) = is_thread (pr k1 q)) by (intros q; specialize (Hm2 q); unfold marks in Hm2; congruence).
    assert (Hsk : forall q, stack (pr k2 q) = stack (pr k1 q)) by (intros q; specialize (Hm2 q); unfold marks in Hm2; congruence).
    exists 0, k2. split; [done|]. split_and!.
    + apply (stays_trans _ k1); [done|]. split; try done.
      * intros q Hq. destruct (decide (q = p)) as [->|Hne]; [change (pr k2 p) with (the_proc s' p); by rewrite Hr|].
        specialize (Hoth q Hne). injection Hoth as Ho _ _. change (pr k2 q) with (the_proc s' q). by rewrite Ho.
      * intros q. unfold exiting. by rewrite Hfl.
    + unfold exiting. rewrite Hfl, H1, decide_True by done. apply exiting_lor.
    + intros q. rewrite Hit, H1. by destruct (decide (q = p)) as [->|].
    + intros q Hq. by rewrite Hfl, H1, decide_False by done.
  - exists 0, k1. split; [done|]. split_and!; [done| |..].
    + unfold exiting. rewrite H1, decide_True by done. apply exiting_lor.
    + intros q. rewrite H1. by destruct (decide (q = p)) as [->|].
    + intros q Hq. by rewrite H1, decide_False by done.
Qed.

(** ** Every thread *)

(** The slots [l] of the main thread [father] hold threads that live. *)
Definition threads_ok k (father : Z) (l : list nat) : Prop :=
  forall i n, i ∈ l -> stack (pr k father) !! i = Some n -> n <> 0 ->
    exists p, p ∈ proc_list k /\ pid (pr k p) = n /\ 0 < n < MAX_PID /\ state (pr k p) <> PROC_ZOMBIE.

(** [p] is one of them. *)
Definition thread_in k (father : Z) (l : list nat) (p : Z) : Prop :=
  p ∈ proc_list k /\ pid (pr k p) <> 0 /\ exists i, i ∈ l /\ stack (pr k father) !! i = Some (pid (pr k p)).

Lemma threads_ok_stays k k' f l : threads_ok k f l -> stays k k' -> threads_ok k' f l.
Proof.
  intros H [Hl _ Hp Ha Hs _] i n Hi. rewrite Hs. intros Hn Hn0. destruct (H i n Hi Hn Hn0) as (p & Hin & <- & Hr & Hz).
  exists p. rewrite Hl, Hp. split_and!; try done; [lia..|]. by apply Ha.
Qed.

Lemma thread_in_stays k k' f l p : stays k k' -> thread_in k f l p <-> thread_in k' f l p.
Proof. intros [Hl _ Hp _ Hs _]. unfold thread_in. by rewrite Hl, Hp, Hs. Qed.

Lemma set_thread_stays p k : stays k (upd_proc p (set_is_thread 0) k).
Proof. split; try done; intros q; rewrite pr_upd; by destruct (decide (q = p)) as [->|]. Qed.

Lemma kill_threads_ok father l k : registry k -> threads_ok k father l ->
  exists k', kill_threads class l father k = Ok k' /\ stays k k' /\
    (forall p, thread_in k father l p -> exiting (pr k' p) /\ is_thread (pr k' p) = 0) /\
    (forall p, p ∈ proc_list k -> ~ thread_in k father l p -> flags (pr k' p) = flags (pr k p) /\ is_thread (pr k' p) = is_thread (pr k p)) /\
    (forall p, is_thread (pr k p) = 0 -> is_thread (pr k' p) = 0).
Proof.
  revert k. induction l as [|i l IH]; intros k Hreg Hok; cbn [kill_threads].
  { exists k. split_and!; [done|apply stays_refl| |done..]. intros p (_ & _ & j & Hj & _). by apply elem_of_nil in Hj. }
  destruct (Z.eqb_spec (default 0 (stack (pr k father) !! i)) 0) as [Hi|Hi]; cbn [negb].
  - rewrite res_bind_ok. assert (Hok' : threads_ok k father l) by (intros j n Hj; apply Hok; by right).
    assert (Hin : forall p, thread_in k father (i :: l) p <-> thread_in k father l p).
    { intros p. split; intros (H1 & H2 & j & H3 & H4); (split_and!; [done..|]); [|exists j; split; [by right|done]].
      apply elem_of_cons in H3 as [->|H3]; [by rewrite H4 in Hi|by exists j]. }
    destruct (IH k Hreg Hok') as (k' & He & Hs & Hk & Ho & Hz). exists k'. split_and!; try done; intros p; rewrite Hin; [apply Hk|apply Ho].
  - destruct (stack (pr k father) !! i) as [n|] eqn:En; [|done]. cbn [default id] in Hi |- *. change (id n) with n in *.
    destruct (Hok i n) as (p & Hp & Hpn & Hn & Hz); [by left|done..|]. subst n. rewrite (find_proc_in k p) by done.
    set (k1 := upd_proc p (set_is_thread 0) k). assert (Hs1 : stays k k1) by apply set_thread_stays.
    assert (Hr1 : registry k1) by (by eapply registry_stays).
    assert (Ht1 : forall q, is_thread (pr k1 q) = if decide (q = p) then 0 else is_thread (pr k q)) by (intros q; unfold k1; rewrite pr_upd; by destruct (decide (q = p))).
    assert (Hf1 : forall q, flags (pr k1 q) = flags (pr k q)) by (intros q; unfold k1; rewrite pr_upd; by destruct (decide (q = p)) as [->|]).
    rewrite <- (st_pid _ _ Hs1 p). destruct (do_kill_ok k1 p) as (r & k2 & -> & Hs2 & Hx & Ht2 & Hf2); [done| |by rewrite (st_pid _ _ Hs1)|by apply (st_alive _ _ Hs1)|].
    { by rewrite (st_list _ _ Hs1). }
    rewrite !res_bind_ok. assert (Hs : stays k k2) by (by eapply stays_trans).
    destruct (IH k2) as (k' & He & Hs' & Hk & Ho & Hz'); [by eapply registry_stays| |].
    { eapply threads_ok_stays; [|exact Hs]. intros j n Hj. apply Hok. by right. }
    exists k'. split_and!; [done|by eapply stays_trans|..].
    + intros q (Hq1 & Hq2 & j & Hj & Hjn). apply elem_of_cons in Hj as [->|Hj].
      * rewrite En in Hjn. injection Hjn as Hjn. assert (q = p) as ->; [by apply (pid_unique k); [apply Hreg|..]|].
        split; [by apply (st_exit _ _ Hs')|]. apply Hz'. by rewrite Ht2, Ht1, decide_True.
      * apply Hk. apply (thread_in_stays k k2); [done|]. split_and!; [done..|by exists j].
    + intros q Hq Hni. assert (Hqp : q <> p) by (intros ->; apply Hni; split_and!; [done|lia|exists i; split; [by left|done]]).
      assert (Hni2 : ~ thread_in k2 father l q).
      { rewrite <- (thread_in_stays k k2) by done. intros (H1 & H2 & j & H3 & H4). apply Hni. split_and!; [done..|]. exists j. split; [by right|done]. }
      destruct (Ho q) as [-> ->]; [by rewrite (st_list _ _ Hs)|done|]. by rewrite Hf2, Hf1, Ht2, Ht1, decide_False by done.
    + intros q Hq. apply Hz'. rewrite Ht2, Ht1. by destruct (decide (q = p)).
Qed.

(** C36: [do_kill_all_thread] on a process with threads marks every living
    thread of it and its main thread for exit, makes the threads
    independent of the main thread (so that none gives its stack back to a
    process that is gone), and touches the flags of nobody else. *)
Theorem do_kill_all_thread_correct (fuel : nat) (n p father : Z) k :
  let slots := seq 1 (Z.to_nat MAX_THREAD - 1) in
  registry k -> find_proc n k = Some p -> main_thread fuel k p = Ok father ->
  is_thread (pr k p) <> 0 \/ has_thread (pr k p) = true ->
  father ∈ proc_list k -> 0 < pid (pr k father) < MAX_PID -> state (pr k father) <> PROC_ZOMBIE -> threads_ok k father slots ->
  exists k', do_kill_all_thread class fuel n k = Ok (0, k') /\ registry k' /\ proc_list k' = proc_list k /\
    exiting (pr k' father) /\
    (forall q, thread_in k father slots q -> exiting (pr k' q) /\ is_thread (pr k' q) = 0) /\
    (forall q, q ∈ proc_list k -> q <> father -> ~ thread_in k father slots q ->
       flags (pr k' q) = flags (pr k q) /\ is_thread (pr k' q) = is_thread (pr k q)).
Proof.
  intros slots Hreg Hfind Hmain Hth Hfa Hfn Hfz Hok. unfold do_kill_all_thread. rewrite Hfind.
  replace (negb (is_thread (pr k p) =? 0) || has_thread (pr k p)) with true.
  2: { symmetry. destruct Hth as [Hth| ->]; [|apply orb_true_r]. by rewrite (proj2 (Z.eqb_neq _ 0) Hth). }
  cbn [negb]. rewrite Hmain, res_bind_ok. destruct (kill_threads_ok father slots k Hreg Hok) as (k1 & He & Hs & Hk & Ho & Hz). fold slots. rewrite He, res_bind_ok.
  destruct (do_kill_ok k1 father) as (r & k2 & -> & Hs2 & Hx & Ht2 & Hf2);
    [by eapply registry_stays|by rewrite (st_list _ _ Hs)|by rewrite (st_pid _ _ Hs)|by apply (st_alive _ _ Hs)|].
  rewrite res_bind_ok. exists k2. split_and!; [done|by do 2 (eapply registry_stays; [|done])|by rewrite (st_list _ _ Hs2), (st_list _ _ Hs)|done|..].
  - intros q Hq. destruct (Hk q Hq) as [H1 H2]. split; [by apply (st_exit _ _ Hs2)|by rewrite Ht2].
  - intros q Hq Hne Hni. rewrite Ht2, Hf2 by done. by apply Ho.
Qed.
End Threads.

(** The process at 20 with a thread at 30 that sleeps. *)
Definition demo_threads : kern (RQ := list Z) :=
  upd_proc 20 (set_stack (1 :: 3 :: replicate 14 0))
    (upd_proc 30 (fun p => set_is_thread 1 (set_wait_state WT_TIMER (set_state PROC_SLEEPING p))) demo_kern).

Lemma do_kill_all_thread_correct_witness :
  exists k', do_kill_all_thread list_class 4 3 demo_threads = Ok (0, k') /\ exiting (pr k' 20) /\ exiting (pr k' 30) /\ is_thread (pr k' 30) = 0.
Proof.
  destruct (do_kill_all_thread_correct list_class list_queue 4 3 30 20 demo_threads) as (k' & He & _ & _ & Hx & Ht & _);
    [by apply demo_registry|done|done|by left|apply (bool_decide_unpack _); by vm_compute|done|done| |].
  - intros i n Hi Hn Hn0. assert (n = 3) as ->.
    { destruct i as [|[|i]]; [|by injection Hn as <-|].
      - apply elem_of_seq in Hi. lia.
      - change (stack (pr demo_threads 20)) with (1 :: 3 :: replicate 14 0) in Hn.
        change (replicate 14 0 !! i = Some n) in Hn. apply lookup_replicate in Hn as [-> _]. done. }
    exists 30. split_and!; [apply (bool_decide_unpack _); by vm_compute|done..].
  - exists k'. split_and!; [exact He|exact Hx|..]; apply (Ht 30); (split_and!; [apply (bool_decide_unpack _); by vm_compute|done|]); exists 1%nat;
      (split; [apply elem_of_seq; vm_compute; lia|done]).
Defined.
