(* ===== verification/FileTable.v ===== *)
(** * kern/fs/file.c, fs.c, vfs/inode.c, vfs/vfsfile.c: open files

    The table of open files of a process (shared by its threads), and the
    reference and open counts of the inodes it points to.  An entry of the
    table is named by its index.  What the file system below answers (the
    [vop_] functions and the path lookups) are arguments; that a lookup hands
    out a counted reference is its contract and is part of the step.  The
    functions that call into the file system between [fd_array_acquire] and
    [fd_array_release] may sleep there, so they are split into the part before
    and the part after, and other threads may run in between; [file_open] is
    split where it has its descriptor and calls [vfs_open]. *)
From S2P Require Import Prelude.

Definition E_INVAL : Z := 3.
Definition E_NOENT : Z := 16.
Definition E_BUSY : Z := 15.
Definition E_MAX_OPEN : Z := 22.
Definition E_EXISTS : Z := 23.
Definition O_RDONLY : Z := 0.
Definition O_WRONLY : Z := 1.
Definition O_RDWR : Z := 2.
Definition O_CREAT : Z := 4.
Definition O_EXCL : Z := 8.
Definition O_TRUNC : Z := 16.
Definition O_APPEND : Z := 32.
Definition O_ACCMODE : Z := 3.
Definition NO_FD : Z := - 0x9527.
Definition LSEEK_SET : Z := 0.
Definition LSEEK_CUR : Z := 1.
Definition LSEEK_END : Z := 2.
Definition MAX_INODE_COUNT : Z := 0x10000.

(** [(PGSIZE - sizeof(struct files_struct)) / sizeof(struct file)] *)
Definition FILES_STRUCT_NENTRY : Z := (4096 - 24) / 28.

(** ** inode.c: reference and open counts *)
Record inode := Inode { ref_count : Z; open_count : Z }.
Inductive vop := VopClose (n : Z) | VopReclaim (n : Z).
Record vfs := Vfs { inodes : gmap Z inode; calls : list vop }.

Definition inode_at (v : vfs) (n : Z) : inode := default (Inode 0 0) (inodes v !! n).
Definition set_inode (n : Z) (i : inode) (v : vfs) : vfs := Vfs (<[n := i]> (inodes v)) (calls v).
Definition call (c : vop) (v : vfs) : vfs := Vfs (inodes v) (calls v ++ [c]).

Definition inode_init (n : Z) (v : vfs) : vfs := set_inode n (Inode 1 0) v.

(** The test of every [vop_] macro. *)
Definition inode_check (n : Z) (v : vfs) : res unit :=
  _ ← kassert (negb (n =? 0));
  let i := inode_at v n in
  _ ← kassert ((open_count i <=? ref_count i) && (0 <=? open_count i));
  kassert ((ref_count i <? MAX_INODE_COUNT) && (open_count i <? MAX_INODE_COUNT)).

Definition inode_kill (n : Z) (v : vfs) : res vfs :=
  _ ← kassert (ref_count (inode_at v n) =? 0);
  _ ← kassert (open_count (inode_at v n) =? 0);
  Ok (Vfs (delete n (inodes v)) (calls v)).

Definition inode_ref_inc (n : Z) (v : vfs) : vfs :=
  let i := inode_at v n in set_inode n (Inode (ref_count i + 1) (open_count i)) v.

Definition inode_ref_dec (n : Z) (v : vfs) : res vfs :=
  let i := inode_at v n in
  _ ← kassert (0 <? ref_count i);
  let v := set_inode n (Inode (ref_count i - 1) (open_count i)) v in
  if ref_count i - 1 =? 0 then _ ← inode_check n v; Ok (call (VopReclaim n) v) else Ok v.

Definition inode_open_inc (n : Z) (v : vfs) : vfs :=
  let i := inode_at v n in set_inode n (Inode (ref_count i) (open_count i + 1)) v.

Definition inode_open_dec (n : Z) (v : vfs) : res vfs :=
  let i := inode_at v n in
  _ ← kassert (0 <? open_count i);
  let v := set_inode n (Inode (ref_count i) (open_count i - 1)) v in
  if open_count i - 1 =? 0 then _ ← inode_check n v; Ok (call (VopClose n) v) else Ok v.

(** ** vfsfile.c *)
Definition vfs_close (n : Z) (v : vfs) : res vfs :=
  v ← inode_open_dec n v; inode_ref_dec n v.

(** What the file system answers during an open. *)
Record open_env := OpenEnv {
  oe_lookup : Z;       (* vfs_lookup *)
  oe_parent : Z;       (* vfs_lookup_parent *)
  oe_dir : Z;          (* the parent directory *)
  oe_create : Z;       (* vop_create *)
  oe_node : Z;         (* the inode looked up or created *)
  oe_open : Z;         (* vop_open *)
  oe_truncate : Z;     (* vop_truncate *)
  oe_fstat : Z;        (* vop_fstat *)
  oe_size : Z          (* its st_size *)
}.

Definition has (flags bit : Z) : bool := negb (Z.land flags bit =? 0).

(** From the point where the inode is known. *)
Definition vfs_open_node (e : open_env) (open_flags : Z) (v : vfs) : res (Z * vfs) :=
  _ ← kassert (negb (oe_node e =? 0));
  _ ← inode_check (oe_node e) v;
  if negb (oe_open e =? 0) then v ← inode_ref_dec (oe_node e) v; Ok (oe_open e, v)
  else
    let v := inode_open_inc (oe_node e) v in
    if has open_flags O_TRUNC || has open_flags O_CREAT then
      _ ← inode_check (oe_node e) v;
      if negb (oe_truncate e =? 0) then
        v ← inode_open_dec (oe_node e) v; v ← inode_ref_dec (oe_node e) v; Ok (oe_truncate e, v)
      else Ok (0, v)
    else Ok (0, v).

(** The reference of the parent directory is not given back; neither is the
    one of an existing file when [-E_EXISTS] is returned. *)
Definition vfs_open (e : open_env) (open_flags : Z) (v : vfs) : res (Z * vfs) :=
  let mode := Z.land open_flags O_ACCMODE in
  let can_write := (mode =? O_WRONLY) || (mode =? O_RDWR) in
  if negb ((mode =? O_RDONLY) || can_write) then Ok (- E_INVAL, v)
  else if has open_flags O_TRUNC && negb can_write then Ok (- E_INVAL, v)
  else
    let excl := has open_flags O_EXCL in
    let create := has open_flags O_CREAT in
    if negb (oe_lookup e =? 0) then
      if (oe_lookup e =? - E_NOENT) && create then
        if negb (oe_parent e =? 0) then Ok (oe_parent e, v)
        else
          let v := inode_ref_inc (oe_dir e) v in
          _ ← inode_check (oe_dir e) v;
          let v := if oe_create e =? 0 then inode_ref_inc (oe_node e) v else v in
          vfs_open_node e open_flags v
      else Ok (oe_lookup e, v)
    else
      let v := inode_ref_inc (oe_node e) v in
      if excl && create then Ok (- E_EXISTS, v) else vfs_open_node e open_flags v.

(** ** file.c: the table *)
Inductive fd_status := FD_NONE | FD_INIT | FD_OPENED | FD_CLOSED.
#[export] Instance fd_status_eq_dec : EqDecision fd_status.
Proof. solve_decision. Defined.

Record file := File {
  status : fd_status; readable : bool; writable : bool; fd : Z; pos : Z; node : Z; fcount : Z
}.

Definition set_status (x : fd_status) (f : file) : file :=
  File x (readable f) (writable f) (fd f) (pos f) (node f) (fcount f).
Definition set_pos (x : Z) (f : file) : file :=
  File (status f) (readable f) (writable f) (fd f) x (node f) (fcount f).
Definition set_node (x : Z) (f : file) : file :=
  File (status f) (readable f) (writable f) (fd f) (pos f) x (fcount f).
Definition set_fcount (x : Z) (f : file) : file :=
  File (status f) (readable f) (writable f) (fd f) (pos f) (node f) x.
Definition set_modes (r w : bool) (f : file) : file :=
  File (status f) r w (fd f) (pos f) (node f) (fcount f).

Definition is_status (x : fd_status) (f : file) : bool := bool_decide (status f = x).

(** The table of the current process, with its [files_count]. *)
Record fstate := FState { fv : vfs; tab : list file; files_count : Z }.

Definition blank_file : file := File FD_NONE false false 0 0 0 0.
Definition ent (s : fstate) (i : Z) : file := default blank_file (tab s !! Z.to_nat i).
Definition set_ent (i : Z) (f : file) (s : fstate) : fstate :=
  FState (fv s) (<[Z.to_nat i := f]> (tab s)) (files_count s).
Definition set_fv (v : vfs) (s : fstate) : fstate := FState v (tab s) (files_count s).

Definition testfd (n : Z) : bool := (0 <=? n) && (n <? FILES_STRUCT_NENTRY).
Definition get_fd_array (s : fstate) : res unit := kassert (0 <? files_count s).

Definition fopen_count_inc (f : file) : file := set_fcount (fcount f + 1) f.
Definition fopen_count_dec (f : file) : file := set_fcount (fcount f - 1) f.

Definition fd_array_init (l : list file) : list file :=
  imap (fun i f => File FD_NONE (readable f) (writable f) (Z.of_nat i) (pos f) (node f) 0) l.

(** The first entry with status [FD_NONE] from index [i] on. *)
Fixpoint first_free (l : list file) (i : Z) : option Z :=
  match l with
  | [] => None
  | f :: l => if is_status FD_NONE f then Some i else first_free l (i + 1)
  end.

(** The error, or the entry taken. *)
Definition fd_array_alloc (n : Z) (s : fstate) : res ((Z + Z) * fstate) :=
  let found i :=
    _ ← kassert (fcount (ent s i) =? 0);
    Ok (inr i, set_ent i (set_node 0 (set_status FD_INIT (ent s i))) s) in
  _ ← get_fd_array s;
  if n =? NO_FD then
    match first_free (tab s) 0 with Some i => found i | None => Ok (inl (- E_MAX_OPEN), s) end
  else if testfd n then
    if is_status FD_NONE (ent s n) then found n else Ok (inl (- E_BUSY), s)
  else Ok (inl (- E_INVAL), s).

Definition fd_array_free (i : Z) (s : fstate) : res fstate :=
  _ ← kassert (is_status FD_INIT (ent s i) || is_status FD_CLOSED (ent s i));
  _ ← kassert (fcount (ent s i) =? 0);
  s ← (if is_status FD_CLOSED (ent s i) then v ← vfs_close (node (ent s i)) (fv s); Ok (set_fv v s) else Ok s);
  Ok (set_ent i (set_status FD_NONE (ent s i)) s).

Definition fd_array_acquire (i : Z) (s : fstate) : res fstate :=
  _ ← kassert (is_status FD_OPENED (ent s i));
  Ok (set_ent i (fopen_count_inc (ent s i)) s).

Definition fd_array_release (i : Z) (s : fstate) : res fstate :=
  _ ← kassert (is_status FD_OPENED (ent s i) || is_status FD_CLOSED (ent s i));
  _ ← kassert (0 <? fcount (ent s i));
  let s := set_ent i (fopen_count_dec (ent s i)) s in
  if fcount (ent s i) =? 0 then fd_array_free i s else Ok s.

Definition fd_array_open (f : file) : res file :=
  _ ← kassert (is_status FD_INIT f && negb (node f =? 0));
  Ok (fopen_count_inc (set_status FD_OPENED f)).

Definition fd_array_close (i : Z) (s : fstate) : res fstate :=
  _ ← kassert (is_status FD_OPENED (ent s i));
  _ ← kassert (0 <? fcount (ent s i));
  let s := set_ent i (fopen_count_dec (set_status FD_CLOSED (ent s i))) s in
  if fcount (ent s i) =? 0 then fd_array_free i s else Ok s.

(** The entry [to] becomes a copy of [from], which may be in another table. *)
Definition fd_array_dup (to from : file) (v : vfs) : res (file * vfs) :=
  _ ← kassert (is_status FD_INIT to && is_status FD_OPENED from);
  let to := set_modes (readable from) (writable from) (set_pos (pos from) to) in
  let v := inode_open_inc (node from) (inode_ref_inc (node from) v) in
  f ← fd_array_open (set_node (node from) to);
  Ok (f, v).

Definition fd2file (n : Z) (s : fstate) : res (option Z) :=
  if testfd n then
    _ ← get_fd_array s;
    Ok (if is_status FD_OPENED (ent s n) && (fd (ent s n) =? n) then Some n else None)
  else Ok None.

Definition file_testfd (n : Z) (r w : bool) (s : fstate) : res bool :=
  f ← fd2file n s;
  Ok (match f with
      | None => false
      | Some i => negb (r && negb (readable (ent s i))) && negb (w && negb (writable (ent s i)))
      end).

(** ** file.c: operations *)

(** The last lines of [file_open]. *)
Definition open_finish (n : Z) (r w : bool) (i : Z) (s : fstate) : res (Z * fstate) :=
  f ← fd_array_open (set_modes r w (set_node n (ent s i)));
  Ok (fd f, set_ent i f s).

(** [file_open] up to its call of [vfs_open]: the error, or the entry taken. *)
Definition file_open_enter (open_flags : Z) (s : fstate) : res ((Z + Z) * fstate) :=
  let mode := Z.land open_flags O_ACCMODE in
  if negb ((mode =? O_RDONLY) || (mode =? O_WRONLY) || (mode =? O_RDWR)) then Ok (inl (- E_INVAL), s)
  else fd_array_alloc NO_FD s.

(** From that call on. *)
Definition file_open_leave (e : open_env) (open_flags i : Z) (s : fstate) : res (Z * fstate) :=
  let mode := Z.land open_flags O_ACCMODE in
  let r := (mode =? O_RDONLY) || (mode =? O_RDWR) in
  let w := (mode =? O_WRONLY) || (mode =? O_RDWR) in
  '(ret, v) ← vfs_open e open_flags (fv s);
  let s := set_fv v s in
  if negb (ret =? 0) then s ← fd_array_free i s; Ok (ret, s)
  else
    let s := set_ent i (set_pos 0 (ent s i)) s in
    if has open_flags O_APPEND then
      _ ← inode_check (oe_node e) (fv s);
      if negb (oe_fstat e =? 0) then
        v ← vfs_close (oe_node e) (fv s);
        s ← fd_array_free i (set_fv v s);
        Ok (oe_fstat e, s)
      else open_finish (oe_node e) r w i (set_ent i (set_pos (i32 (oe_size e)) (ent s i)) s)
    else open_finish (oe_node e) r w i s.

Definition file_open (e : open_env) (open_flags : Z) (s : fstate) : res (Z * fstate) :=
  '(a, s) ← file_open_enter open_flags s;
  match a with
  | inl ret => Ok (ret, s)
  | inr i => file_open_leave e open_flags i s
  end.

Definition file_close (n : Z) (s : fstate) : res (Z * fstate) :=
  f ← fd2file n s;
  match f with
  | None => Ok (- E_INVAL, s)
  | Some i => s ← fd_array_close i s; Ok (0, s)
  end.

(** The operations on an open file, up to their call into the file system:
    the error, or the entry in use.  [allowed] is the mode they ask for. *)
Definition file_enter (allowed : file -> bool) (n : Z) (s : fstate) : res ((Z + Z) * fstate) :=
  f ← fd2file n s;
  match f with
  | None => Ok (inl (- E_INVAL), s)
  | Some i =>
      if negb (allowed (ent s i)) then Ok (inl (- E_INVAL), s)
      else s ← fd_array_acquire i s; _ ← inode_check (node (ent s i)) (fv s); Ok (inr i, s)
  end.

Definition file_read_enter : Z -> fstate -> res ((Z + Z) * fstate) := file_enter readable.
Definition file_write_enter : Z -> fstate -> res ((Z + Z) * fstate) := file_enter writable.
Definition file_fstat_enter : Z -> fstate -> res ((Z + Z) * fstate) := file_enter (fun _ => true).
Definition file_fsync_enter : Z -> fstate -> res ((Z + Z) * fstate) := file_enter (fun _ => true).
Definition file_getdirentry_enter : Z -> fstate -> res ((Z + Z) * fstate) := file_enter (fun _ => true).
Definition file_seek_enter : Z -> fstate -> res ((Z + Z) * fstate) := file_enter (fun _ => true).

(** After the transfer of [copied] bytes; [file_fstat] and the like only
    release the entry. *)
Definition file_read_leave (i copied : Z) (s : fstate) : res fstate :=
  let s := if is_status FD_OPENED (ent s i) then set_ent i (set_pos (i32 (pos (ent s i) + copied)) (ent s i)) s else s in
  fd_array_release i s.
Definition file_write_leave : Z -> Z -> fstate -> res fstate := file_read_leave.
Definition file_fstat_leave : Z -> fstate -> res fstate := fd_array_release.

(** [file_seek]: the new position is computed at the start ([LSEEK_CUR]) or
    from the size the file system reports ([LSEEK_END]). *)
Definition seek_base (i p whence : Z) (s : fstate) : Z :=
  if whence =? LSEEK_CUR then i32 (p + pos (ent s i)) else p.
Definition file_seek_leave (i p whence fstat size tryseek : Z) (s : fstate) : res (Z * fstate) :=
  let known := (whence =? LSEEK_SET) || (whence =? LSEEK_CUR) || (whence =? LSEEK_END) in
  let ret := if negb known then - E_INVAL else if whence =? LSEEK_END then fstat else 0 in
  let p := if (whence =? LSEEK_END) && (fstat =? 0) then i32 (p + size) else p in
  if ret =? 0 then
    let s := if tryseek =? 0 then set_ent i (set_pos p (ent s i)) s else s in
    s ← fd_array_release i s; Ok (tryseek, s)
  else s ← fd_array_release i s; Ok (ret, s).

Definition file_dup (fd1 fd2 : Z) (s : fstate) : res (Z * fstate) :=
  f ← fd2file fd1 s;
  match f with
  | None => Ok (- E_INVAL, s)
  | Some i =>
      '(a, s) ← fd_array_alloc fd2 s;
      match a with
      | inl ret => Ok (ret, s)
      | inr j => '(g, v) ← fd_array_dup (ent s j) (ent s i) (fv s); Ok (fd g, set_ent j g (set_fv v s))
      end
  end.

(** ** fs.c *)
Definition files_create (block : option (list file)) (v : vfs) : option fstate :=
  match block with Some l => Some (FState v (fd_array_init l) 0) | None => None end.

(** Closing the entries of [ids] that are open; [strict] is the assertion of
    [files_destroy]. *)
Fixpoint close_range (strict : bool) (ids : list Z) (s : fstate) : res fstate :=
  match ids with
  | [] => Ok s
  | i :: ids =>
      s ← (if is_status FD_OPENED (ent s i) then fd_array_close i s else Ok s);
      _ ← kassert (negb strict || is_status FD_NONE (ent s i));
      close_range strict ids s
  end.

Definition files_destroy (pwd : Z) (s : fstate) : res fstate :=
  _ ← kassert (files_count s =? 0);
  s ← (if negb (pwd =? 0) then v ← inode_ref_dec pwd (fv s); Ok (set_fv v s) else Ok s);
  close_range true (seqZ 0 FILES_STRUCT_NENTRY) s.

Definition files_closeall (s : fstate) : res fstate :=
  _ ← kassert (0 <? files_count s);
  close_range false (seqZ 2 (FILES_STRUCT_NENTRY - 2)) s.

Fixpoint dup_entries (from to : list file) (v : vfs) : res (list file * vfs) :=
  match from, to with
  | f :: from, t :: to =>
      '(t, v) ← (if is_status FD_OPENED f then fd_array_dup (set_status FD_INIT t) f v else Ok (t, v));
      '(to, v) ← dup_entries from to v;
      Ok (t :: to, v)
  | _, _ => Ok (to, v)
  end.

Definition dup_files (pwd : Z) (to from : fstate) : res fstate :=
  _ ← kassert ((files_count to =? 0) && (0 <? files_count from));
  let v := if negb (pwd =? 0) then inode_ref_inc pwd (fv from) else fv from in
  '(l, v) ← dup_entries (tab from) (tab to) v;
  Ok (FState v l (files_count to)).


(** ** Counts of inodes *)
#[local] Arguments FILES_STRUCT_NENTRY : simpl never.
#[local] Arguments MAX_INODE_COUNT : simpl never.

(** The open count of [n] is [o n], its reference count [r n]. *)
Definition counts (o r : Z -> Z) (v : vfs) : Prop := forall n, inode_at v n = Inode (r n) (o n).
Definition bump (f : Z -> Z) (n d : Z) : Z -> Z := fun m => f m + (if m =? n then d else 0).

Lemma counts_ext o r o' r' v :
  counts o r v -> (forall n, o' n = o n) -> (forall n, r' n = r n) -> counts o' r' v.
Proof. intros H Ho Hr n. by rewrite Ho, Hr. Qed.

Lemma inode_at_set n i v m : inode_at (set_inode n i v) m = if m =? n then i else inode_at v m.
Proof.
  unfold inode_at, set_inode; simpl. zcase; subst; [by rewrite lookup_insert_eq|by rewrite lookup_insert_ne].
Qed.

Lemma counts_set o r v n x y :
  counts o r v -> counts (bump o n y) (bump r n x) (set_inode n (Inode (r n + x) (o n + y)) v).
Proof. intros H m. rewrite inode_at_set. unfold bump. zcase; subst; [done|]. by rewrite H, !Z.add_0_r. Qed.

Lemma counts_call o r v c : counts o r v -> counts o r (call c v).
Proof. done. Qed.

Lemma bump_0 f n m : bump f n 0 m = f m.
Proof. unfold bump. repeat zcase; lia. Qed.

Lemma counts_ref_inc o r v n : counts o r v -> counts o (bump r n 1) (inode_ref_inc n v).
Proof.
  intros H. unfold inode_ref_inc. rewrite (H n); simpl.
  eapply counts_ext; [rewrite <- (Z.add_0_r (o n)); by apply counts_set| |done]. intros; by rewrite bump_0.
Qed.

Lemma counts_open_inc o r v n : counts o r v -> counts (bump o n 1) r (inode_open_inc n v).
Proof.
  intros H. unfold inode_open_inc. rewrite (H n); simpl.
  eapply counts_ext; [rewrite <- (Z.add_0_r (r n)); by apply counts_set|done|]. intros; by rewrite bump_0.
Qed.

Lemma inode_check_ok o r v n :
  counts o r v -> n <> 0 -> 0 <= o n <= r n -> r n < MAX_INODE_COUNT -> inode_check n v = Ok tt.
Proof.
  intros H Hn Ho Hr. unfold inode_check. rewrite (H n); simpl. rewrite !kassert_true; [done|..]; repeat zcase; lia || done.
Qed.

Lemma inode_ref_dec_ok o r v n :
  counts o r v -> n <> 0 -> 0 <= o n <= r n - 1 -> r n < MAX_INODE_COUNT ->
  exists v', inode_ref_dec n v = Ok v' /\ counts o (bump r n (-1)) v'.
Proof.
  intros H Hn Ho Hr. unfold inode_ref_dec. rewrite (H n); simpl.
  rewrite kassert_true by (zcase; lia). simpl.
  assert (Hv : counts o (bump r n (-1)) (set_inode n (Inode (r n - 1) (o n)) v)).
  { eapply counts_ext; [rewrite <- (Z.add_0_r (o n)); by apply counts_set| |done]. intros; by rewrite bump_0. }
  zcase; [|by eauto]. rewrite (inode_check_ok _ _ _ n Hv); simpl; [by eauto|done|..]; unfold bump; repeat zcase; lia.
Qed.

Lemma inode_open_dec_ok o r v n :
  counts o r v -> n <> 0 -> 0 < o n <= r n -> r n < MAX_INODE_COUNT ->
  exists v', inode_open_dec n v = Ok v' /\ counts (bump o n (-1)) r v'.
Proof.
  intros H Hn Ho Hr. unfold inode_open_dec. rewrite (H n); simpl.
  rewrite kassert_true by (zcase; lia). simpl.
  assert (Hv : counts (bump o n (-1)) r (set_inode n (Inode (r n) (o n - 1)) v)).
  { eapply counts_ext; [rewrite <- (Z.add_0_r (r n)); by apply counts_set|done|]. intros; by rewrite bump_0. }
  zcase; [|by eauto]. rewrite (inode_check_ok _ _ _ n Hv); simpl; [by eauto|done|..]; unfold bump; repeat zcase; lia.
Qed.

Lemma vfs_close_ok o r v n :
  counts o r v -> n <> 0 -> 0 < o n <= r n -> r n < MAX_INODE_COUNT ->
  exists v', vfs_close n v = Ok v' /\ counts (bump o n (-1)) (bump r n (-1)) v'.
Proof.
  intros H Hn Ho Hr. unfold vfs_close. destruct (inode_open_dec_ok _ _ _ n H) as (v1 & -> & H1); [done..|]. simpl.
  apply inode_ref_dec_ok; [done..| |done]. unfold bump; repeat zcase; lia.
Qed.

(** What [vfs_open] needs of the file system below, and what it gives: a
    success adds one opening and one reference to the node; besides, the
    references of [lost] are kept.  [vop_create], whose answer [vfs_open] does
    not look at, is assumed to succeed. *)
Definition codes_ok (e : open_env) : Prop :=
  oe_lookup e <= 0 /\ oe_parent e <= 0 /\ oe_open e <= 0 /\ oe_truncate e <= 0 /\ oe_fstat e <= 0.
Definition answers_ok (e : open_env) : Prop :=
  oe_node e <> 0 /\ (oe_lookup e <> 0 -> oe_dir e <> 0 /\ oe_create e = 0) /\ codes_ok e.

Definition leaks (flags : Z) : Z := if has flags O_CREAT then 1 else 0.

(** The references to [n] that an open never gives back: that of a file that
    exists already when [O_CREAT] asks for a new one only, and that of the
    directory in which a file is created. *)
Definition lost (e : open_env) (flags n : Z) : Z :=
  let mode := Z.land flags O_ACCMODE in
  if negb (has flags O_CREAT) || (mode =? O_ACCMODE) || (has flags O_TRUNC && (mode =? O_RDONLY)) then 0
  else if oe_lookup e =? 0 then if has flags O_EXCL && (n =? oe_node e) then 1 else 0
  else if (oe_lookup e =? - E_NOENT) && (oe_parent e =? 0) && (n =? oe_dir e) then 1 else 0.

Lemma lost_range e flags n : 0 <= lost e flags n <= leaks flags.
Proof.
  unfold lost, leaks. destruct (has flags O_CREAT); simpl; [|lia]. repeat (case_match; try lia).
Qed.

Lemma vfs_open_node_ok e flags o r v :
  counts o r v -> oe_node e <> 0 -> codes_ok e -> 0 <= o (oe_node e) <= r (oe_node e) - 1 -> r (oe_node e) < MAX_INODE_COUNT ->
  exists ret v', vfs_open_node e flags v = Ok (ret, v') /\
    (ret = 0 /\ counts (bump o (oe_node e) 1) r v' \/ ret < 0 /\ counts o (bump r (oe_node e) (-1)) v').
Proof.
  intros H Hn (_ & _ & Heo & Het & _) Ho Hr. unfold vfs_open_node. set (n := oe_node e) in *.
  rewrite kassert_true by (zcase; done). simpl. rewrite (inode_check_ok _ _ _ n H); [|lia..]. simpl.
  destruct (Z.eqb_spec (oe_open e) 0) as [_|Hne]; simpl.
  2: { destruct (inode_ref_dec_ok _ _ _ n H) as (v1 & -> & H1); [done..|]. simpl. eexists _, _; split; [done|]. right; split; [lia|done]. }
  pose proof (counts_open_inc _ _ _ n H) as H1.
  assert (Hb : bump o n 1 n = o n + 1) by (unfold bump; repeat zcase; lia).
  destruct (has flags O_TRUNC || has flags O_CREAT); [|by eauto 6].
  rewrite (inode_check_ok _ _ _ n H1); [|lia..]. simpl.
  destruct (Z.eqb_spec (oe_truncate e) 0) as [_|Hne]; simpl; [by eauto 6|].
  destruct (vfs_close_ok _ _ _ n H1) as (v2 & Hc & H2); [lia..|]. unfold vfs_close in Hc.
  apply res_bind_inv in Hc as (v3 & -> & Hc). simpl. rewrite Hc. simpl. eexists _, _; split; [done|]. right; split; [lia|].
  eapply counts_ext; [exact H2| |done]. intros m. unfold bump. repeat zcase; lia.
Qed.

Definition good_mode (flags : Z) : bool := negb (Z.land flags O_ACCMODE =? O_ACCMODE).

Lemma mode_cases flags :
  let m := Z.land flags O_ACCMODE in
  ((m =? O_RDONLY) || (m =? O_WRONLY) || (m =? O_RDWR)) = good_mode flags /\
  (good_mode flags = true -> ((m =? O_RDONLY) || (m =? O_RDWR)) = negb (m =? O_WRONLY) /\
                             ((m =? O_WRONLY) || (m =? O_RDWR)) = negb (m =? O_RDONLY)).
Proof.
  intros m. assert (0 <= m < 4).
  { unfold m. change O_ACCMODE with (Z.ones 2). rewrite Z.land_ones by done. apply Z.mod_pos_bound. done. }
  unfold good_mode. fold m. assert (m = 0 \/ m = 1 \/ m = 2 \/ m = 3) as [E|[E|[E|E]]] by lia; rewrite E; done.
Qed.

(** The guards at the head of [vfs_open]. *)
Definition open_refused (flags : Z) : bool :=
  (Z.land flags O_ACCMODE =? O_ACCMODE) || (has flags O_TRUNC && (Z.land flags O_ACCMODE =? O_RDONLY)).

Lemma vfs_open_guard e flags v :
  vfs_open e flags v =
  if open_refused flags then Ok (- E_INVAL, v)
  else if negb (oe_lookup e =? 0) then
    if (oe_lookup e =? - E_NOENT) && has flags O_CREAT then
      if negb (oe_parent e =? 0) then Ok (oe_parent e, v)
      else
        let v := inode_ref_inc (oe_dir e) v in
        _ ← inode_check (oe_dir e) v;
        let v := if oe_create e =? 0 then inode_ref_inc (oe_node e) v else v in
        vfs_open_node e flags v
    else Ok (oe_lookup e, v)
  else
    let v := inode_ref_inc (oe_node e) v in
    if has flags O_EXCL && has flags O_CREAT then Ok (- E_EXISTS, v) else vfs_open_node e flags v.
Proof.
  unfold vfs_open, open_refused. destruct (mode_cases flags) as [Hm Hg]. rewrite orb_assoc, Hm. unfold good_mode in *.
  destruct (Z.land flags O_ACCMODE =? O_ACCMODE); [done|]. destruct (Hg eq_refl) as [_ ->]. simpl. by rewrite negb_involutive.
Qed.

Lemma lost_guard e flags n :
  lost e flags n =
  if negb (has flags O_CREAT) || open_refused flags then 0
  else if oe_lookup e =? 0 then if has flags O_EXCL && (n =? oe_node e) then 1 else 0
  else if (oe_lookup e =? - E_NOENT) && (oe_parent e =? 0) && (n =? oe_dir e) then 1 else 0.
Proof. unfold lost, open_refused. by rewrite orb_assoc. Qed.

Lemma vfs_open_ok e flags o r v :
  counts o r v -> answers_ok e -> (forall n, 0 <= o n <= r n /\ r n + 1 + leaks flags < MAX_INODE_COUNT) ->
  exists ret v', vfs_open e flags v = Ok (ret, v') /\
    let r' := fun n => r n + lost e flags n in
    (ret = 0 /\ counts (bump o (oe_node e) 1) (bump r' (oe_node e) 1) v' \/ ret < 0 /\ counts o r' v').
Proof.
  intros H (Hn & Hc & Hcodes) Hb. pose proof Hcodes as (Hel & Hep & _). rewrite vfs_open_guard.
  pose proof (lost_guard e flags) as Hlost. set (n := oe_node e) in *.
  assert (Hno : forall z, z < 0 -> (forall m, lost e flags m = 0) -> exists ret v', Ok (z, v) = Ok (ret, v') /\
    let r' := fun n => r n + lost e flags n in
    (ret = 0 /\ counts (bump o n 1) (bump r' n 1) v' \/ ret < 0 /\ counts o r' v')).
  { intros z Hz Hl. exists z, v. split; [done|]. right; split; [done|].
    eapply counts_ext; [exact H|done|]. intros; rewrite Hl; lia. }
  destruct (open_refused flags); [apply Hno; [done|]; intros; rewrite Hlost; by rewrite orb_true_r|]. rewrite orb_false_r in Hlost.
  destruct (Z.eqb_spec (oe_lookup e) 0) as [_|Hlk]; cbn [negb].
  - pose proof (counts_ref_inc _ _ _ n H) as H1. destruct (has flags O_EXCL && has flags O_CREAT) eqn:Hex.
    + exists (- E_EXISTS), (inode_ref_inc n v). split; [done|].
      apply andb_true_iff in Hex as [Hex Hcr]. rewrite Hex, Hcr in Hlost. simpl in Hlost.
      right; split; [done|]. eapply counts_ext; [exact H1|done|]. intros; rewrite Hlost; unfold bump; repeat zcase; lia.
    + assert (Hl0 : forall m, lost e flags m = 0)
        by (intros m; rewrite Hlost; destruct (has flags O_EXCL), (has flags O_CREAT); done).
      destruct (vfs_open_node_ok e flags _ _ _ H1) as (ret & v' & -> & Hr); [done|done|..].
      1-2: fold n; specialize (Hb n); pose proof (lost_range e flags n); unfold bump; repeat zcase; lia.
      exists ret, v'. split; [done|]. fold n in Hr.
      destruct Hr as [[-> Hr]|[Hr' Hr]]; [left|right]; split; try done; eapply counts_ext; try exact Hr; try done;
        intros; unfold bump; rewrite ?Hl0; repeat zcase; lia.
  - destruct (Hc Hlk) as [Hd ->].
    destruct (Z.eqb_spec (oe_lookup e) (- E_NOENT)); cbn [andb] in *; [|apply Hno; [lia|intros; rewrite Hlost; by destruct (negb _)]].
    destruct (has flags O_CREAT) eqn:Hcr; cbn [negb andb] in *; [|by apply Hno; [lia|]].
    destruct (Z.eqb_spec (oe_parent e) 0); cbn [negb andb] in *; [|by apply Hno; [lia|]].
    assert (Hl1 : leaks flags = 1) by (unfold leaks; by rewrite Hcr). rewrite Hl1 in *.
    pose proof (counts_ref_inc _ _ _ (oe_dir e) H) as H0. pose proof (counts_ref_inc _ _ _ n H0) as H1. cbv zeta.
    rewrite (inode_check_ok _ _ _ (oe_dir e) H0); cbn [mbind res_bind]; [|done|specialize (Hb (oe_dir e)); unfold bump; repeat zcase; lia..].
    destruct (vfs_open_node_ok e flags _ _ _ H1) as (ret & v' & Hv & Hr); [done|done|..].
    1-2: fold n; specialize (Hb n); unfold bump; repeat zcase; lia.
    change (0 =? 0) with true. cbv iota. rewrite Hv. exists ret, v'. split; [done|]. fold n in Hr.
    destruct Hr as [[-> Hr]|[Hr' Hr]]; [left|right]; split; try done; eapply counts_ext; try exact Hr; try done;
        intros; unfold bump; rewrite ?Hlost; repeat zcase; lia.
Qed.

(** ** The table *)

(** An entry that holds an opening of [n]. *)
Definition holds (n : Z) (f : file) : Z :=
  if (is_status FD_OPENED f || is_status FD_CLOSED f) && (node f =? n) then 1 else 0.
Definition uses (n : Z) (l : list file) : Z := foldr (fun f a => holds n f + a) 0 l.

Lemma holds_range n f : 0 <= holds n f <= 1.
Proof. unfold holds. destruct (_ && _); lia. Qed.

Lemma uses_range n l : 0 <= uses n l <= Z.of_nat (length l).
Proof.
  induction l as [|f l IH]; [done|]. unfold uses in *. cbn [foldr length].
  pose proof (holds_range n f). lia.
Qed.

Lemma uses_insert n l i f g :
  l !! i = Some f -> uses n (<[i := g]> l) = uses n l - holds n f + holds n g.
Proof.
  revert i. induction l as [|h l IH]; intros [|i] H; try done; simplify_eq/=; unfold uses in *; cbn [foldr].
  - lia.
  - rewrite (IH _ H). lia.
Qed.

Lemma holds_idle n f : is_status FD_OPENED f = false -> is_status FD_CLOSED f = false -> holds n f = 0.
Proof. unfold holds. by intros -> ->. Qed.

Lemma holds_uses n l i f : l !! i = Some f -> holds n f <= uses n l.
Proof.
  revert i. induction l as [|h l IH]; intros [|i] H; try done; simplify_eq/=; unfold uses in *; cbn [foldr].
  - pose proof (uses_range n l). unfold uses in *. lia.
  - pose proof (holds_range n h). pose proof (IH _ H). lia.
Qed.

(** The threads that are inside an operation: with an entry between
    [fd_array_acquire] and [fd_array_release], or inside [file_open] with an
    entry that is reserved and not yet filled in. *)
Inductive fuser := Using (i : Z) | Opening (i flags : Z).
Definition who (u : fuser) : Z := match u with Using i => i | Opening i _ => i end.
Definition in_use (i : Z) (u : fuser) : Z := match u with Using j => if j =? i then 1 else 0 | Opening _ _ => 0 end.
Definition opening (i : Z) (u : fuser) : Z := match u with Using _ => 0 | Opening j _ => if j =? i then 1 else 0 end.

Definition total (f : fuser -> Z) (us : list fuser) : Z := foldr (fun u a => f u + a) 0 us.
Definition count (i : Z) (us : list fuser) : Z := total (in_use i) us.
Definition pending (i : Z) (us : list fuser) : Z := total (opening i) us.

Lemma total_delete f us (k : nat) u : us !! k = Some u -> total f us = f u + total f (delete k us).
Proof.
  revert k. induction us as [|w us IH]; intros [|k] H; try done; simplify_eq/=; [done|]. unfold total in *. cbn [foldr].
  rewrite (IH _ H). lia.
Qed.

Lemma sum_nonneg f us : (forall u, 0 <= f u) -> 0 <= total f us.
Proof. intros Hf. induction us as [|u us IH]; [done|]. unfold total in *. cbn [foldr]. specialize (Hf u). lia. Qed.

Lemma count_nonneg i us : 0 <= count i us.
Proof. apply sum_nonneg. intros []; simpl; repeat zcase; lia. Qed.

Lemma pending_nonneg i us : 0 <= pending i us.
Proof. apply sum_nonneg. intros []; simpl; repeat zcase; lia. Qed.

(** The entry [i] has the same users in both. *)
Definition same_users (i : Z) (us us' : list fuser) : Prop := count i us' = count i us /\ pending i us' = pending i us.

Lemma same_users_cons u us i : i <> who u -> same_users i us (u :: us).
Proof. unfold same_users, count, pending, total. destruct u; simpl; intros; repeat zcase; lia. Qed.

Lemma same_users_delete us (m : nat) u i : us !! m = Some u -> i <> who u -> same_users i us (delete m us).
Proof.
  intros Hm Hi. unfold same_users, count, pending. rewrite !(total_delete _ us m u Hm).
  destruct u; simpl in *; repeat zcase; lia.
Qed.

Definition vfd (i : Z) : Prop := 0 <= i < FILES_STRUCT_NENTRY.
Definition sized (s : fstate) : Prop := Z.of_nat (length (tab s)) = FILES_STRUCT_NENTRY.

Lemma ent_lookup s i : sized s -> vfd i -> tab s !! Z.to_nat i = Some (ent s i).
Proof.
  unfold sized, vfd. intros Hs Hi. unfold ent. destruct (lookup_lt_is_Some_2 (tab s) (Z.to_nat i)) as [f ->]; [lia|done].
Qed.

Lemma ent_set s i f : sized s -> vfd i -> ent (set_ent i f s) i = f.
Proof. unfold sized, vfd, ent, set_ent. simpl. intros Hs Hi. rewrite list_lookup_insert_eq; [done|lia]. Qed.

Lemma ent_set_ne s i j f : vfd i -> vfd j -> i <> j -> ent (set_ent i f s) j = ent s j.
Proof. unfold vfd, ent, set_ent. simpl. intros Hi Hj Hij. rewrite list_lookup_insert_ne; [done|lia]. Qed.

Lemma set_ent_set i f g s : set_ent i g (set_ent i f s) = set_ent i g s.
Proof. unfold set_ent. simpl. by rewrite list_insert_insert_eq. Qed.

Lemma sized_set i f s : sized s -> sized (set_ent i f s).
Proof. unfold sized, set_ent. simpl. by rewrite length_insert. Qed.

(** The entry [i] with [c] users and [p] threads opening it. *)
Definition entry_ok (i c p : Z) (f : file) : Prop :=
  fd f = i /\
  match status f with
  | FD_NONE => fcount f = 0 /\ c = 0 /\ p = 0
  | FD_INIT => fcount f = 0 /\ c = 0 /\ p = 1
  | FD_OPENED => fcount f = 1 + c /\ node f <> 0 /\ p = 0
  | FD_CLOSED => fcount f = c /\ 0 < c /\ node f <> 0 /\ p = 0
  end.

(** [eo], [er]: openings and references held elsewhere; [k]: how many more
    references may be lost. *)
Record finv (eo er : Z -> Z) (us : list fuser) (k : Z) (s : fstate) : Prop := {
  fi_len : sized s;
  fi_live : 0 < files_count s;
  fi_ent : forall i, vfd i -> entry_ok i (count i us) (pending i us) (ent s i);
  fi_counts : counts (fun n => eo n + uses n (tab s)) (fun n => er n + uses n (tab s)) (fv s);
  fi_ext : forall n, 0 <= eo n <= er n /\ er n + k + FILES_STRUCT_NENTRY + 2 < MAX_INODE_COUNT;
  fi_k : 0 <= k;
  fi_us : Forall (fun u => vfd (who u)) us
}.

Lemma finv_uses eo er us k s n : finv eo er us k s -> 0 <= uses n (tab s) <= FILES_STRUCT_NENTRY.
Proof. intros H. pose proof (fi_len _ _ _ _ _ H) as Hl. unfold sized in Hl. rewrite <- Hl. apply uses_range. Qed.

Lemma finv_bounds eo er us k s n :
  finv eo er us k s ->
  0 <= eo n + uses n (tab s) <= er n + uses n (tab s) /\ er n + uses n (tab s) + 2 + k < MAX_INODE_COUNT.
Proof. intros H. pose proof (finv_uses _ _ _ _ _ n H). pose proof (fi_ext _ _ _ _ _ H n). lia. Qed.

(** One entry replaced, with the counts moved along. *)
Lemma finv_update eo er us k s i f us' er' k' v :
  finv eo er us k s -> vfd i -> entry_ok i (count i us') (pending i us') f -> Forall (fun u => vfd (who u)) us' ->
  (forall j, j <> i -> same_users j us us') ->
  counts (fun n => eo n + (uses n (tab s) - holds n (ent s i) + holds n f))
         (fun n => er' n + (uses n (tab s) - holds n (ent s i) + holds n f)) v ->
  (forall n, er n <= er' n <= er n + (k - k')) -> 0 <= k' ->
  finv eo er' us' k' (set_ent i f (set_fv v s)).
Proof.
  intros H Hi Hf Hus Hj Hv Her Hk. pose proof (fi_len _ _ _ _ _ H) as Hs. constructor.
  - by apply sized_set.
  - apply (fi_live _ _ _ _ _ H).
  - intros j Hjv. destruct (decide (j = i)) as [->|Hne].
    + by rewrite ent_set.
    + rewrite ent_set_ne by done. destruct (Hj j Hne) as [-> ->]. by apply (fi_ent _ _ _ _ _ H).
  - simpl. eapply counts_ext; [exact Hv|..]; intros n; simpl; by rewrite (uses_insert _ _ _ _ _ (ent_lookup _ _ Hs Hi)).
  - intros n. pose proof (fi_ext _ _ _ _ _ H n). specialize (Her n). lia.
  - done.
  - done.
Qed.

Lemma is_status_true x f : status f = x -> is_status x f = true.
Proof. apply bool_decide_eq_true_2. Qed.
Lemma is_status_false x f : status f <> x -> is_status x f = false.
Proof. apply bool_decide_eq_false_2. Qed.

Lemma finv_holds eo er us k s i :
  finv eo er us k s -> vfd i -> status (ent s i) = FD_OPENED \/ status (ent s i) = FD_CLOSED ->
  node (ent s i) <> 0 /\ 0 < fcount (ent s i) /\ (forall n, holds n (ent s i) = if n =? node (ent s i) then 1 else 0) /\
  0 < uses (node (ent s i)) (tab s).
Proof.
  intros H Hi Hst. pose proof (fi_ent _ _ _ _ _ H i Hi) as [_ He].
  assert (Hh : forall n, holds n (ent s i) = if n =? node (ent s i) then 1 else 0).
  { intros n. unfold holds. rewrite Z.eqb_sym. destruct Hst as [Hst|Hst].
    - by rewrite (is_status_true FD_OPENED).
    - rewrite (is_status_true FD_CLOSED) by done. by rewrite orb_true_r. }
  pose proof (count_nonneg i us).
  pose proof (holds_uses (node (ent s i)) _ _ _ (ent_lookup _ _ (fi_len _ _ _ _ _ H) Hi)) as Hu.
  rewrite Hh, Z.eqb_refl in Hu.
  destruct Hst as [Hst|Hst]; rewrite Hst in He; split_and!; (done || tauto || lia).

Qed.

(** The last user of a closed entry gives the inode back. *)
Lemma fd_array_free_closed eo er us k s i g :
  finv eo er us k s -> vfd i -> status (ent s i) = FD_OPENED \/ status (ent s i) = FD_CLOSED ->
  status g = FD_CLOSED -> fcount g = 0 -> node g = node (ent s i) ->
  exists v, fd_array_free i (set_ent i g s) = Ok (set_ent i (set_status FD_NONE g) (set_fv v s)) /\
    counts (fun n => eo n + (uses n (tab s) - holds n (ent s i)))
           (fun n => er n + (uses n (tab s) - holds n (ent s i))) v.
Proof.
  intros H Hi Hst Hg Hc Hn. pose proof (fi_len _ _ _ _ _ H) as Hs.
  destruct (finv_holds _ _ _ _ _ _ H Hi Hst) as (Hn0 & _ & Hh & Hu).
  unfold fd_array_free. rewrite ent_set by done. rewrite (is_status_true FD_CLOSED), orb_true_r by done. simpl.
  rewrite Hc. change (kassert (0 =? 0)) with (Ok tt). simpl. rewrite Hn.
  pose proof (finv_bounds _ _ _ _ _ (node (ent s i)) H). pose proof (fi_k _ _ _ _ _ H).
  pose proof (fi_ext _ _ _ _ _ H (node (ent s i))).
  destruct (vfs_close_ok _ _ _ (node (ent s i)) (fi_counts _ _ _ _ _ H)) as (v & -> & Hv); [done|lia..|]. simpl.
  exists v. split.
  - unfold set_fv, set_ent; simpl. do 2 f_equal. rewrite list_insert_insert_eq. do 3 f_equal.
    unfold ent; simpl. unfold sized, vfd in *. rewrite list_lookup_insert_eq by lia. done.
  - eapply counts_ext; [exact Hv|..]; intros m; unfold bump; rewrite Hh; zcase; lia.
Qed.

Lemma set_fv_id s : set_fv (fv s) s = s.
Proof. by destruct s. Qed.

(** A user leaves, or the descriptor is closed: [g] is the entry with its
    count already lowered, [us'] the remaining users. *)
Lemma drop_ok eo er us k s i g us' :
  finv eo er us k s -> vfd i -> status (ent s i) = FD_OPENED \/ status (ent s i) = FD_CLOSED ->
  fd g = i -> node g = node (ent s i) -> Forall (fun u => vfd (who u)) us' ->
  (forall j, j <> i -> same_users j us us') ->
  match status g with
  | FD_OPENED => fcount g = 1 + count i us' /\ pending i us' = 0
  | FD_CLOSED => fcount g = count i us' /\ pending i us' = 0
  | _ => False
  end ->
  exists s', (if fcount g =? 0 then fd_array_free i (set_ent i g s) else Ok (set_ent i g s)) = Ok s' /\
    finv eo er us' k s' /\ (forall j, vfd j -> j <> i -> ent s' j = ent s j) /\ files_count s' = files_count s /\
    status (ent s' i) = (if fcount g =? 0 then FD_NONE else status g).
Proof.
  intros H Hi Hst Hfd Hn Hus Hj Hg. pose proof (fi_len _ _ _ _ _ H) as Hs. pose proof (count_nonneg i us').
  pose proof (fi_k _ _ _ _ _ H). destruct (finv_holds _ _ _ _ _ _ H Hi Hst) as (Hn0 & _ & Hh & Hu).
  destruct (Z.eqb_spec (fcount g) 0) as [Hz|Hz].
  - assert (Hcl : status g = FD_CLOSED) by (destruct (status g); lia || done). rewrite Hcl in Hg.
    destruct (fd_array_free_closed _ _ _ _ _ _ g H Hi Hst) as (v & -> & Hv); [done..|].
    eexists; split; [done|]. split; [|split; [|split; [done|by rewrite ent_set]]].
    + apply (finv_update eo er us k s i _ us' er k v); try done; [by split; [|simpl; lia]| |intros; lia].
      eapply counts_ext; [exact Hv|..]; intros n; rewrite (holds_idle n (set_status _ _)) by done; lia.
    + intros j Hjv Hne. by rewrite ent_set_ne.
  - eexists; split; [done|]. split; [|split; [|split; [done|by rewrite ent_set]]].
    2: intros j Hjv Hne; by rewrite ent_set_ne.
    rewrite <- (set_fv_id s). apply (finv_update eo er us k s i _ us' er k); try done; [|..|intros; lia].
    + split; [done|]. destruct (status g); try done; rewrite Hn; split_and?; lia || done || tauto.
    + assert (Hhg : forall n, holds n g = holds n (ent s i)).
      { intros n. rewrite Hh. unfold holds. rewrite Hn, Z.eqb_sym. unfold is_status. by destruct (status g). }
      eapply counts_ext; [apply (fi_counts _ _ _ _ _ H)|..]; intros n; rewrite Hhg; lia.
Qed.

Lemma fd2file_ok eo er us k s n :
  finv eo er us k s ->
  fd2file n s = Ok (if testfd n && is_status FD_OPENED (ent s n) then Some n else None).
Proof.
  intros H. unfold fd2file, get_fd_array. rewrite kassert_true by (apply Z.ltb_lt, (fi_live _ _ _ _ _ H)). simpl.
  destruct (testfd n) eqn:Ht; [|done]. simpl. unfold testfd in Ht. apply andb_true_iff in Ht as [?%Z.leb_le ?%Z.ltb_lt].
  pose proof (fi_ent _ _ _ _ _ H n) as [-> _]; [done|]. by rewrite Z.eqb_refl, andb_true_r.
Qed.

Lemma fd2file_some n s b : testfd n && is_status FD_OPENED (ent s n) = b -> b = true -> vfd n /\ status (ent s n) = FD_OPENED.
Proof.
  intros <- [Ht Ho%bool_decide_eq_true]%andb_true_iff. unfold testfd in Ht.
  apply andb_true_iff in Ht as [?%Z.leb_le ?%Z.ltb_lt]. done.
Qed.

Lemma fd_array_close_ok eo er us k s i :
  finv eo er us k s -> vfd i -> status (ent s i) = FD_OPENED ->
  exists s', fd_array_close i s = Ok s' /\ finv eo er us k s' /\
    (forall j, vfd j -> j <> i -> ent s' j = ent s j) /\ files_count s' = files_count s /\
    status (ent s' i) = (if count i us =? 0 then FD_NONE else FD_CLOSED).
Proof.
  intros H Hi Ho. pose proof (fi_len _ _ _ _ _ H) as Hs. pose proof (fi_ent _ _ _ _ _ H i Hi) as [Hfd He]. rewrite Ho in He.
  destruct (finv_holds _ _ _ _ _ _ H Hi (or_introl Ho)) as (Hn0 & Hc & _).
  unfold fd_array_close. rewrite (is_status_true FD_OPENED) by done. simpl. rewrite kassert_true by (by apply Z.ltb_lt). simpl.
  rewrite ent_set by done.
  destruct (drop_ok _ _ _ _ _ i (fopen_count_dec (set_status FD_CLOSED (ent s i))) us H Hi (or_introl Ho))
    as (s' & Hd & Hinv & Hrest & Hfc & Hst); [done|done|apply (fi_us _ _ _ _ _ H)|done|simpl; lia|].
  exists s'. split_and!; try done. rewrite Hst. simpl. repeat zcase; lia || done.
Qed.

Lemma file_close_ok eo er us k s n :
  finv eo er us k s -> exists ret s', file_close n s = Ok (ret, s') /\ finv eo er us k s'.
Proof.
  intros H. unfold file_close. rewrite (fd2file_ok _ _ _ _ _ n H). simpl.
  destruct (_ && _) eqn:Ht; [|by eauto]. destruct (fd2file_some _ _ _ Ht eq_refl) as [Hi Ho].
  destruct (fd_array_close_ok _ _ _ _ _ _ H Hi Ho) as (s' & -> & Hs' & _). simpl. eauto.
Qed.

Lemma file_enter_ok eo er us k s n allowed :
  finv eo er us k s ->
  exists a s', file_enter allowed n s = Ok (a, s') /\
    match a with inl _ => s' = s | inr i => finv eo er (Using i :: us) k s' end.
Proof.
  intros H. unfold file_enter. rewrite (fd2file_ok _ _ _ _ _ n H). simpl.
  destruct (_ && _) eqn:Ht; [|by eexists (inl _), _]. destruct (fd2file_some _ _ _ Ht eq_refl) as [Hi Ho].
  destruct (allowed (ent s n)); simpl; [|by eexists (inl _), _].
  pose proof (fi_len _ _ _ _ _ H) as Hs. pose proof (fi_k _ _ _ _ _ H).
  destruct (finv_holds _ _ _ _ _ _ H Hi (or_introl Ho)) as (Hn0 & Hc & Hh & Hu).
  unfold fd_array_acquire. rewrite (is_status_true FD_OPENED) by done. simpl. rewrite ent_set by done. simpl.
  rewrite (inode_check_ok _ _ _ _ (fi_counts _ _ _ _ _ H)); [|done|..].
  2-3: pose proof (finv_bounds _ _ _ _ _ (node (ent s n)) H); lia.
  simpl. eexists (inr _), _; split; [done|]. rewrite <- (set_fv_id s) at 2.
  apply (finv_update eo er us k s n _ (Using n :: us) er k); try done; [| | |..|intros; lia].
  - destruct (fi_ent _ _ _ _ _ H n Hi) as [Hfd He]. rewrite Ho in He. split; [done|]. simpl. rewrite Ho.
    unfold count, pending, total in *. cbn [foldr in_use opening]. rewrite Z.eqb_refl. lia.
  - constructor; [done|apply (fi_us _ _ _ _ _ H)].
  - intros j Hj. by apply same_users_cons.
  - assert (Hhg : forall m, holds m (fopen_count_inc (ent s n)) = holds m (ent s n)) by done.
    eapply counts_ext; [apply (fi_counts _ _ _ _ _ H)|..]; intros m; rewrite Hhg; lia.
Qed.

(** [h]: the entry after the change of position some operations make. *)
Lemma fd_array_release_ok eo er us k s (m : nat) i h :
  finv eo er us k s -> us !! m = Some (Using i) ->
  fd h = fd (ent s i) -> status h = status (ent s i) -> node h = node (ent s i) -> fcount h = fcount (ent s i) ->
  exists s', fd_array_release i (set_ent i h s) = Ok s' /\ finv eo er (delete m us) k s'.
Proof.
  intros H Hm Hfd Hst Hn Hc. pose proof (fi_len _ _ _ _ _ H) as Hs.
  pose proof (proj1 (Forall_lookup _ _) (fi_us _ _ _ _ _ H) _ _ Hm) as Hi. simpl in Hi.
  assert (Hci : count i us = 1 + count i (delete m us) /\ pending i us = pending i (delete m us)).
  { unfold count, pending. rewrite !(total_delete _ us m _ Hm). cbn [in_use opening]. rewrite Z.eqb_refl. lia. }
  pose proof (count_nonneg i (delete m us)).
  pose proof (fi_ent _ _ _ _ _ H i Hi) as [Hfdi He].
  assert (Hst2 : status (ent s i) = FD_OPENED \/ status (ent s i) = FD_CLOSED) by (destruct (status (ent s i)); auto; lia).
  destruct (finv_holds _ _ _ _ _ _ H Hi Hst2) as (Hn0 & Hpos & _).
  unfold fd_array_release. rewrite (ent_set s i h) by done.
  rewrite (kassert_true (is_status FD_OPENED h || is_status FD_CLOSED h)) by (unfold is_status; rewrite Hst; destruct Hst2 as [E|E]; rewrite E; reflexivity). simpl.
  rewrite Hc, kassert_true by (by apply Z.ltb_lt). simpl. rewrite set_ent_set, ent_set by done.
  destruct (drop_ok _ _ _ _ _ i (fopen_count_dec h) (delete m us) H Hi Hst2) as (s' & Hd & Hinv & _).
  - simpl. congruence.
  - done.
  - apply Forall_delete, (fi_us _ _ _ _ _ H).
  - intros j Hj. by eapply same_users_delete.
  - simpl. rewrite Hst, Hc. destruct Hst2 as [E|E]; rewrite E in *; lia.
  - simpl in Hd |- *. rewrite Hd. eauto.
Qed.

Lemma first_free_some l i j :
  first_free l i = Some j ->
  exists f, i <= j /\ l !! Z.to_nat (j - i) = Some f /\ status f = FD_NONE /\
    forall m f', (m < Z.to_nat (j - i))%nat -> l !! m = Some f' -> status f' <> FD_NONE.
Proof.
  revert i. induction l as [|f l IH]; intros i H; [done|]. cbn [first_free] in H.
  unfold is_status in H. case_bool_decide as Hf.
  - injection H as <-. exists f. rewrite Z.sub_diag. split_and!; [lia|done|done|]. intros m f' Hm. simpl in Hm. lia.
  - apply IH in H as (g & Hij & Hg & Hs & Hlt). exists g.
    replace (Z.to_nat (j - i)) with (S (Z.to_nat (j - (i + 1)))) by lia. split_and!; [lia|done|done|].
    intros [|m] f' Hm Hl; simplify_eq/=; [done|]. apply (Hlt m); [lia|done].
Qed.

Lemma first_free_none l i f : first_free l i = None -> f ∈ l -> status f <> FD_NONE.
Proof.
  revert i. induction l as [|g l IH]; intros i H Hf; [by apply not_elem_of_nil in Hf|]. cbn [first_free] in H.
  unfold is_status in H. case_bool_decide as Hg; [done|]. apply elem_of_cons in Hf as [->|Hf]; [done|]. by eapply IH.
Qed.

(** The entry that [fd_array_alloc] takes for [n]. *)
Definition alloc_takes (n i : Z) (s : fstate) : Prop :=
  vfd i /\ status (ent s i) = FD_NONE /\ (n <> NO_FD -> i = n) /\
  (n = NO_FD -> forall j, 0 <= j < i -> status (ent s j) <> FD_NONE).

Definition alloc_fails (n ret : Z) (s : fstate) : Prop :=
  (n = NO_FD -> ret = - E_MAX_OPEN /\ forall j, vfd j -> status (ent s j) <> FD_NONE) /\
  (n <> NO_FD -> vfd n -> ret = - E_BUSY /\ status (ent s n) <> FD_NONE) /\
  (n <> NO_FD -> ~ vfd n -> ret = - E_INVAL).

Lemma fd_array_alloc_ok eo er us k s n :
  finv eo er us k s ->
  (exists ret, fd_array_alloc n s = Ok (inl ret, s) /\ ret < 0 /\ alloc_fails n ret s) \/
  (exists i, fd_array_alloc n s = Ok (inr i, set_ent i (set_node 0 (set_status FD_INIT (ent s i))) s) /\ alloc_takes n i s).
Proof.
  intros H. pose proof (fi_len _ _ _ _ _ H) as Hs. unfold fd_array_alloc, get_fd_array.
  rewrite (kassert_true (0 <? _)) by (apply Z.ltb_lt, (fi_live _ _ _ _ _ H)). simpl.
  assert (Hfound : forall i, vfd i -> status (ent s i) = FD_NONE -> kassert (fcount (ent s i) =? 0) = Ok tt).
  { intros i Hi E. pose proof (fi_ent _ _ _ _ _ H i Hi) as [_ He]. rewrite E in He. apply kassert_true. zcase; lia. }
  destruct (Z.eqb_spec n NO_FD) as [->|Hn].
  - unfold alloc_takes. destruct (first_free (tab s) 0) as [i|] eqn:Hf.
    + right. apply first_free_some in Hf as (f & Hi & Hl & Hst & Hlt). rewrite Z.sub_0_r in Hl, Hlt.
      assert (Hv : vfd i) by (pose proof (lookup_lt_Some _ _ _ Hl); unfold vfd, sized in *; lia).
      rewrite (ent_lookup _ _ Hs Hv) in Hl. injection Hl as E. rewrite <- E in Hst. exists i. rewrite Hfound by done. split; [done|].
      split_and!; [done|done|done|]. intros _ j Hj. apply (Hlt (Z.to_nat j)); [lia|]. apply ent_lookup; [done|unfold vfd in *; lia].
    + left. unfold alloc_fails. eexists; split_and!; [done|done|..]; try done. intros _. split; [done|]. intros j Hj.
      eapply first_free_none; [done|]. eapply list_elem_of_lookup_2, ent_lookup; done.
  - unfold testfd. destruct ((0 <=? n) && (n <? FILES_STRUCT_NENTRY)) eqn:Hv.
    + apply andb_true_iff in Hv as [?%Z.leb_le ?%Z.ltb_lt]. assert (Hv : vfd n) by done.
      unfold is_status. case_bool_decide as Hst.
      * right. unfold alloc_takes. exists n. rewrite Hfound by done. split; [done|]. split_and!; done.
      * left. unfold alloc_fails. eexists; split_and!; [done|done|..]; done.
    + left. unfold alloc_fails. eexists; split_and!; [done|done|..]; try done. intros _ [Hv1 Hv2]. exfalso.
      revert Hv. repeat zcase; simpl; lia || done.
Qed.

(** A free or reserved entry filled in; [us'] are the users afterwards. *)
Lemma finv_fresh eo er us us' k s i f er' k' v :
  finv eo er us k s -> vfd i -> status (ent s i) = FD_NONE \/ status (ent s i) = FD_INIT ->
  Forall (fun u => vfd (who u)) us' -> (forall j, j <> i -> same_users j us us') ->
  count i us' = 0 -> pending i us' = 0 ->
  status f = FD_OPENED -> fd f = i -> fcount f = 1 -> node f <> 0 ->
  counts (bump (fun n => eo n + uses n (tab s)) (node f) 1) (bump (fun n => er' n + uses n (tab s)) (node f) 1) v ->
  (forall n, er n <= er' n <= er n + (k - k')) -> 0 <= k' ->
  finv eo er' us' k' (set_ent i f (set_fv v s)).
Proof.
  intros H Hi Hno Hus Hj Hc0 Hp0 Hst Hfd Hc Hn Hv Her Hk.
  apply (finv_update eo er us k s i f us' er' k' v); try done.
  - split; [done|]. rewrite Hst. split_and!; [lia|done|done].
  - eapply counts_ext; [exact Hv|..]; intros n;
      (rewrite (holds_idle n (ent s i)) by (apply is_status_false; destruct Hno; congruence));
      unfold holds, bump; rewrite (is_status_true FD_OPENED) by done; rewrite (Z.eqb_sym n); simpl; zcase; lia.
Qed.

Lemma no_users eo er us k s i :
  finv eo er us k s -> vfd i -> status (ent s i) = FD_NONE -> count i us = 0 /\ pending i us = 0.
Proof. intros H Hi Hno. pose proof (fi_ent _ _ _ _ _ H i Hi) as [_ He]. rewrite Hno in He. tauto. Qed.

Lemma same_users_refl i us : same_users i us us.
Proof. done. Qed.
#[local] Hint Resolve same_users_refl : core.

Lemma file_dup_ok eo er us k s fd1 fd2 :
  finv eo er us k s ->
  exists ret s', file_dup fd1 fd2 s = Ok (ret, s') /\ finv eo er us k s' /\
    (ret < 0 /\ s' = s \/
     alloc_takes fd2 ret s /\ vfd fd1 /\ status (ent s fd1) = FD_OPENED /\ ent s' ret = File FD_OPENED (readable (ent s fd1)) (writable (ent s fd1)) ret
       (pos (ent s fd1)) (node (ent s fd1)) 1 /\ (forall j, vfd j -> j <> ret -> ent s' j = ent s j)).
Proof.
  intros H. pose proof (fi_len _ _ _ _ _ H) as Hs. unfold file_dup. rewrite (fd2file_ok _ _ _ _ _ fd1 H). simpl.
  destruct (_ && _) eqn:Ht; [|by eexists _, _; split; [done|]; split; [done|left]].
  destruct (fd2file_some _ _ _ Ht eq_refl) as [Hi Ho].
  destruct (fd_array_alloc_ok _ _ _ _ _ fd2 H) as [(ret & -> & Hneg & _)|(j & -> & Htk)]; simpl.
  { eexists _, _; split; [done|]. split; [done|by left]. }
  pose proof Htk as (Hj & Hno & _). assert (Hij : fd1 <> j) by congruence.
  destruct (finv_holds _ _ _ _ _ _ H Hi (or_introl Ho)) as (Hn0 & _).
  rewrite ent_set, ent_set_ne by done. unfold fd_array_dup. rewrite (is_status_true FD_OPENED (ent s fd1)) by done.
  rewrite (is_status_true FD_INIT) by done. simpl. unfold fd_array_open. rewrite (is_status_true FD_INIT) by done. simpl.
  rewrite kassert_true by (zcase; done). simpl.
  pose proof (fi_ent _ _ _ _ _ H j Hj) as [Hfd He]. rewrite Hno in He. destruct He as [Hfc He].
  eexists _, _; split; [done|]. rewrite Hfd. unfold set_modes, set_pos, set_node, set_status, fopen_count_inc, set_fcount; simpl.
  rewrite Hfd, Hfc. split.
  - change (set_fv ?v (set_ent ?i ?f ?t)) with (set_ent i f (set_fv v t)). rewrite set_ent_set.
    eapply finv_fresh; [exact H|done|by left|apply (fi_us _ _ _ _ _ H)|done|tauto|tauto|done..| |intros; lia|apply (fi_k _ _ _ _ _ H)]. simpl.
    eapply counts_ext; [apply counts_open_inc, counts_ref_inc, (fi_counts _ _ _ _ _ H)|done..].
  - right. split_and!; [done|done|done|rewrite ent_set; [done|by apply sized_set|done]|].
    intros m Hm Hne. unfold ent, set_ent, set_fv; simpl. unfold vfd in *. by rewrite !list_lookup_insert_ne by lia.
Qed.

Lemma set_fv_ent v i f s : set_fv v (set_ent i f s) = set_ent i f (set_fv v s).
Proof. done. Qed.

(** A reserved entry given back: the descriptor is free again. *)
Lemma fd_array_free_init s i f :
  sized s -> vfd i -> status f = FD_INIT -> fcount f = 0 ->
  fd_array_free i (set_ent i f s) = Ok (set_ent i (set_status FD_NONE f) s).
Proof.
  intros Hs Hi Hf Hc. unfold fd_array_free. rewrite ent_set by done. rewrite (is_status_true FD_INIT) by done. simpl.
  rewrite Hc. change (kassert (0 =? 0)) with (Ok tt). simpl. rewrite (is_status_false FD_CLOSED) by congruence. simpl.
  by rewrite ent_set, set_ent_set.
Qed.

(** No descriptor has changed hands. *)
Definition same_table (s s' : fstate) : Prop :=
  forall j, vfd j -> ent s' j = ent s j \/ status (ent s' j) = FD_NONE /\ status (ent s j) = FD_NONE.

Lemma finv_abandon eo er us us' k s i er' k' v f :
  finv eo er us k s -> vfd i -> status (ent s i) = FD_INIT ->
  Forall (fun u => vfd (who u)) us' -> (forall j, j <> i -> same_users j us us') ->
  count i us' = 0 -> pending i us' = 0 ->
  counts (fun n => eo n + uses n (tab s)) (fun n => er' n + uses n (tab s)) v ->
  (forall n, er n <= er' n <= er n + (k - k')) -> 0 <= k' ->
  fd f = i -> status f = FD_NONE -> fcount f = 0 ->
  finv eo er' us' k' (set_ent i f (set_fv v s)).
Proof.
  intros H Hi Hno Hus Hj Hc0 Hp0 Hv Her Hk Hfd Hst Hc.
  apply (finv_update eo er us k s i f us' er' k' v); try done.
  - split; [done|]. rewrite Hst. tauto.
  - eapply counts_ext; [exact Hv|..]; intros n; rewrite !holds_idle by (apply is_status_false; congruence); lia.
Qed.

(** What a successful open puts into the table. *)
Definition opened_as (e : open_env) (flags i : Z) : file :=
  let mode := Z.land flags O_ACCMODE in
  File FD_OPENED (negb (mode =? O_WRONLY)) (negb (mode =? O_RDONLY)) i
    (if has flags O_APPEND then i32 (oe_size e) else 0) (oe_node e) 1.

Definition open_result (e : open_env) (flags : Z) (s : fstate) (ret : Z) (s' : fstate) : Prop :=
  (ret < 0 /\ same_table s s') \/
  (alloc_takes NO_FD ret s /\ good_mode flags = true /\ ent s' ret = opened_as e flags ret /\
   forall j, vfd j -> j <> ret -> ent s' j = ent s j).

Lemma open_finish_ok n r w i g s :
  sized s -> vfd i -> status g = FD_INIT -> n <> 0 ->
  open_finish n r w i (set_ent i g s) = Ok (fd g, set_ent i (File FD_OPENED r w (fd g) (pos g) n (fcount g + 1)) s).
Proof.
  intros Hs Hi Hg Hn. unfold open_finish. rewrite ent_set by done. unfold fd_array_open. rewrite (is_status_true FD_INIT) by done.
  rewrite kassert_true by (simpl; zcase; done). simpl. by rewrite set_ent_set.
Qed.

Lemma set_ent_id s i : sized s -> vfd i -> set_ent i (ent s i) s = s.
Proof. intros Hs Hi. unfold set_ent. rewrite list_insert_id by (by apply ent_lookup). by destruct s. Qed.

Lemma finv_le eo er us k k' s : finv eo er us k s -> 0 <= k' <= k -> finv eo er us k' s.
Proof. intros [] Hk. constructor; try done; [|lia]. intros n. specialize (fi_ext0 n). lia. Qed.

Lemma file_open_enter_ok eo er us k s flags :
  finv eo er us k s ->
  (exists ret, file_open_enter flags s = Ok (inl ret, s) /\ ret < 0) \/
  (exists i s', file_open_enter flags s = Ok (inr i, s') /\ good_mode flags = true /\ alloc_takes NO_FD i s /\
     finv eo er (Opening i flags :: us) k s' /\ forall j, vfd j -> j <> i -> ent s' j = ent s j).
Proof.
  intros H. pose proof (fi_len _ _ _ _ _ H) as Hs. unfold file_open_enter. destruct (mode_cases flags) as [-> _].
  destruct (good_mode flags); simpl; [|by left; eexists].
  destruct (fd_array_alloc_ok _ _ _ _ _ NO_FD H) as [(ret & -> & Hneg & _)|(i & -> & Htk)]; [by left; eauto|right].
  pose proof Htk as (Hi & Hno & _). destruct (no_users _ _ _ _ _ i H Hi Hno) as [Hc0 Hp0].
  pose proof (fi_ent _ _ _ _ _ H i Hi) as [Hfd He]. rewrite Hno in He. destruct He as [Hfc _].
  eexists i, _. split_and!; [done|done|done| |].
  2: intros j Hj Hne; by rewrite ent_set_ne.
  rewrite <- (set_fv_id s) at 2. eapply (finv_update eo er us k s i); try done; [| | | |intros; lia|apply (fi_k _ _ _ _ _ H)].
  - split; [done|]. simpl. unfold count, pending, total in *. cbn [foldr in_use opening]. rewrite Z.eqb_refl. lia.
  - constructor; [done|apply (fi_us _ _ _ _ _ H)].
  - intros j Hj. by apply same_users_cons.
  - eapply counts_ext; [apply (fi_counts _ _ _ _ _ H)|..]; intros n;
      rewrite !holds_idle by (apply is_status_false; simpl; congruence); lia.
Qed.

(** A thread that reserved the entry [i] comes back from the file system:
    the entry is filled in or given up. *)
Lemma file_open_leave_ok eo er us k s (m : nat) i e flags :
  finv eo er us k s -> us !! m = Some (Opening i flags) -> answers_ok e -> leaks flags <= k ->
  exists ret s', file_open_leave e flags i s = Ok (ret, s') /\
    finv eo (fun n => er n + lost e flags n) (delete m us) (k - leaks flags) s' /\
    (ret < 0 /\ status (ent s' i) = FD_NONE \/ ret = i /\ ent s' i = opened_as e flags i) /\
    (forall j, vfd j -> j <> i -> ent s' j = ent s j).
Proof.
  intros H Hm He Hk. pose proof (fi_len _ _ _ _ _ H) as Hs.
  pose proof (proj1 (Forall_lookup _ _) (fi_us _ _ _ _ _ H) _ _ Hm) as Hi. simpl in Hi.
  assert (Hcp : count i us = count i (delete m us) /\ pending i us = 1 + pending i (delete m us)).
  { unfold count, pending. rewrite !(total_delete _ us m _ Hm). cbn [in_use opening]. rewrite Z.eqb_refl. lia. }
  pose proof (pending_nonneg i (delete m us)) as Hpn. pose proof (fi_ent _ _ _ _ _ H i Hi) as [Hfd Hent].
  assert (Hst : status (ent s i) = FD_INIT) by (destruct (status (ent s i)); lia || done). rewrite Hst in Hent.
  assert (Hus : Forall (fun u => vfd (who u)) (delete m us)) by apply Forall_delete, (fi_us _ _ _ _ _ H).
  assert (Hsu : forall j, j <> i -> same_users j us (delete m us)) by (intros j Hj; by eapply same_users_delete).
  set (er' := fun n => er n + lost e flags n).
  assert (Her : forall n, er n <= er' n <= er n + (k - (k - leaks flags)))
    by (intros n; pose proof (lost_range e flags n); unfold er'; lia).
  (* the two ways out *)
  assert (Hgive : forall v f, counts (fun n => eo n + uses n (tab s)) (fun n => er' n + uses n (tab s)) v ->
    fd f = i -> fcount f = 0 -> exists s', fd_array_free i (set_ent i (set_status FD_INIT f) (set_fv v s)) = Ok s' /\
      finv eo er' (delete m us) (k - leaks flags) s' /\ status (ent s' i) = FD_NONE /\
      forall j, vfd j -> j <> i -> ent s' j = ent s j).
  { intros v f Hv Hf Hc. rewrite fd_array_free_init by done. eexists; split; [done|].
    split_and!; [|by rewrite ent_set|intros j Hj Hne; by rewrite ent_set_ne].
    apply (finv_abandon eo er us _ k s i er' _ v); try done; lia. }
  assert (Htake : forall v f, node f <> 0 -> status f = FD_OPENED -> fd f = i -> fcount f = 1 ->
    counts (bump (fun n => eo n + uses n (tab s)) (node f) 1) (bump (fun n => er' n + uses n (tab s)) (node f) 1) v ->
    finv eo er' (delete m us) (k - leaks flags) (set_ent i f (set_fv v s))).
  { intros v f Hn Hf Hf' Hc Hv. apply (finv_fresh eo er us _ k s i f er' _ v); try done; [by right|lia..]. }
  unfold file_open_leave.
  destruct (vfs_open_ok e flags _ _ _ (fi_counts _ _ _ _ _ H) He) as (ret & v & Hopen & Hret).
  { intros n. pose proof (finv_bounds _ _ _ _ _ n H). lia. }
  assert (Hmode : ret = 0 -> good_mode flags = true).
  { intros ->. rewrite vfs_open_guard in Hopen. unfold open_refused in Hopen. unfold good_mode.
    destruct (Z.land flags O_ACCMODE =? O_ACCMODE); done. }
  rewrite Hopen. cbn [mbind res_bind]. clear Hopen. assert (Hsid : ent (set_fv v s) i = ent s i) by done.
  assert (Hinit : set_status FD_INIT (ent s i) = ent s i) by (unfold set_status; rewrite <- Hst; by destruct (ent s i)).
  destruct Hret as [[-> Hv]|[Hneg Hv]].
  2: { rewrite (proj2 (Z.eqb_neq ret 0)) by lia. cbn [negb].
       destruct (Hgive v (ent s i)) as (s' & Hs' & Hfin & Hno & Ho); [|done|tauto|].
       - eapply counts_ext; [exact Hv|done|]. intros n; unfold er'; lia.
       - rewrite Hinit, <- Hsid, (set_ent_id (set_fv v s) i) in Hs' by done. rewrite Hs'. simpl. eauto 8. }
  change (negb (0 =? 0)) with false. cbv iota. specialize (Hmode eq_refl). destruct (mode_cases flags) as [_ Hrw].
  destruct (Hrw Hmode) as [-> ->]. rewrite Hsid.
  assert (Hv2 : counts (bump (fun n => eo n + uses n (tab s)) (oe_node e) 1) (bump (fun n => er' n + uses n (tab s)) (oe_node e) 1) v).
  { eapply counts_ext; [exact Hv|done|]. intros n. unfold bump, er'; simpl. lia. }
  assert (Hok : exists ret s', Ok (i, set_ent i (opened_as e flags i) (set_fv v s)) = Ok (ret, s') /\
    finv eo er' (delete m us) (k - leaks flags) s' /\
    (ret < 0 /\ status (ent s' i) = FD_NONE \/ ret = i /\ ent s' i = opened_as e flags i) /\
    (forall j, vfd j -> j <> i -> ent s' j = ent s j)).
  { eexists _, _; split; [done|]. split_and!; [|right; by rewrite ent_set|intros j Hj Hne; by rewrite ent_set_ne].
    apply Htake; try done. by destruct He. }
  pose proof He as (Hn0 & _ & _ & _ & _ & _ & Hst0).
  destruct (has flags O_APPEND) eqn:Happ.
  2: { rewrite open_finish_ok by done. cbn [fd set_pos fcount]. destruct Hent as (Hfc & _). rewrite Hfd, Hfc.
       unfold opened_as in Hok |- *. rewrite Happ in Hok |- *. exact Hok. }
  cbn [fv set_ent set_fv]. pose proof (finv_bounds _ _ _ _ _ (oe_node e) H). pose proof (lost_range e flags (oe_node e)).
  rewrite (inode_check_ok _ _ _ (oe_node e) Hv2); [|done|unfold bump, er'; repeat zcase; lia..]. cbn [mbind res_bind].
  rewrite ent_set by done. destruct (Z.eqb_spec (oe_fstat e) 0) as [Hz|Hz]; cbn [negb].
  - rewrite set_ent_set, open_finish_ok by done. cbn [fd set_pos fcount pos]. destruct Hent as (Hfc & _). rewrite Hfd, Hfc.
    unfold opened_as in Hok |- *. rewrite Happ in Hok |- *. exact Hok.
  - destruct (vfs_close_ok _ _ _ (oe_node e) Hv2) as (v' & -> & Hv'); [done|unfold bump, er'; repeat zcase; lia..|]. cbn [mbind res_bind].
    change (set_fv v' (set_ent i ?f (set_fv v s))) with (set_ent i f (set_fv v' s)).
    destruct (Hgive v' (set_pos 0 (ent s i))) as (s' & Hs' & Hfin & Hno & Ho); [|done|simpl; tauto|].
    + eapply counts_ext; [exact Hv'|..]; intros n; unfold bump, er'; zcase; lia.
    + replace (set_status FD_INIT (set_pos 0 (ent s i))) with (set_pos 0 (ent s i)) in Hs' by (unfold set_status, set_pos; simpl; by rewrite Hst).
      rewrite Hs'. simpl. eexists _, _; split; [done|]. split_and!; [done|left; split; [lia|done]|done].
Qed.

(** Both parts without another thread in between. *)
Lemma file_open_spec eo er us k s e flags :
  finv eo er us k s -> answers_ok e -> leaks flags <= k ->
  exists ret s' er', file_open e flags s = Ok (ret, s') /\ finv eo er' us (k - leaks flags) s' /\
    (forall n, er n <= er' n <= er n + lost e flags n) /\ open_result e flags s ret s'.
Proof.
  intros H He Hk. unfold file_open. pose proof (fun n => lost_range e flags n) as Hl.
  destruct (file_open_enter_ok _ _ _ _ _ flags H) as [(ret & -> & Hneg)|(i & s1 & -> & Hg & Htk & H1 & Ho1)]; cbn [mbind res_bind].
  { eexists _, s, er. split_and!; [done| |intros n; specialize (Hl n); lia|left; split; [done|by left]].
    eapply finv_le; [done|]. unfold leaks in *. case_match; lia. }
  destruct (file_open_leave_ok _ _ _ _ _ 0 i e flags H1 eq_refl He Hk) as (ret & s' & -> & H' & Hr & Ho).
  eexists _, _, _. split_and!; [done|exact H'|intros n; specialize (Hl n); simpl; lia|].
  pose proof Htk as (Hi & Hno & _). destruct Hr as [[Hneg Hst]|[-> Hent]].
  - left. split; [done|]. intros j Hj. destruct (decide (j = i)) as [->|Hne]; [by right|left]. by rewrite Ho, Ho1.
  - right. split_and!; try done. intros j Hj Hne. by rewrite Ho, Ho1.
Qed.

(** ** Histories

    The operations of the threads that share a table.  A thread is named by
    its position among the threads that are inside a file operation. *)
Inductive leave :=
| LRead (copied : Z) | LWrite (copied : Z) | LStat | LSeek (p whence fstat size tryseek : Z).
Inductive fop :=
| FOpen (flags : Z) | FOpened (m : nat) (e : open_env) | FClose (n : Z) | FDup (fd1 fd2 : Z)
| FRead (n : Z) | FWrite (n : Z) | FStat (n : Z) | FLeave (m : nat) (l : leave).

Definition enter_user (inside : Z -> fuser) (r : res ((Z + Z) * fstate)) (us : list fuser) : res (list fuser * fstate) :=
  '(a, s) ← r; Ok (match a with inl _ => us | inr i => inside i :: us end, s).

Definition leave_user (i : Z) (l : leave) (s : fstate) : res fstate :=
  match l with
  | LRead c => file_read_leave i c s
  | LWrite c => file_write_leave i c s
  | LStat => file_fstat_leave i s
  | LSeek p w f z t => '(_, s) ← file_seek_leave i p w f z t s; Ok s
  end.

Definition fstep (o : fop) (us : list fuser) (s : fstate) : res (list fuser * fstate) :=
  match o with
  | FOpen flags => enter_user (fun i => Opening i flags) (file_open_enter flags s) us
  | FOpened m e =>
      match us !! m with
      | Some (Opening i flags) => '(_, s) ← file_open_leave e flags i s; Ok (delete m us, s)
      | _ => Ok (us, s)
      end
  | FClose n => '(_, s) ← file_close n s; Ok (us, s)
  | FDup a b => '(_, s) ← file_dup a b s; Ok (us, s)
  | FRead n => enter_user Using (file_read_enter n s) us
  | FWrite n => enter_user Using (file_write_enter n s) us
  | FStat n => enter_user Using (file_fstat_enter n s) us
  | FLeave m l =>
      match us !! m with
      | Some (Using i) => s ← leave_user i l s; Ok (delete m us, s)
      | _ => Ok (us, s)
      end
  end.

Fixpoint frun (ops : list fop) (us : list fuser) (s : fstate) : res (list fuser * fstate) :=
  match ops with
  | [] => Ok (us, s)
  | o :: ops => '(us, s) ← fstep o us s; frun ops us s
  end.

Definition fop_ok (o : fop) : Prop := match o with FOpened _ e => answers_ok e | _ => True end.

(** The references to [n] that a history loses, and a bound on them. *)
Definition fop_lost (o : fop) (us : list fuser) (n : Z) : Z :=
  match o with
  | FOpened m e => match us !! m with Some (Opening _ flags) => lost e flags n | _ => 0 end
  | _ => 0
  end.
Fixpoint run_lost (ops : list fop) (us : list fuser) (s : fstate) (n : Z) : Z :=
  match ops with
  | [] => 0
  | o :: ops => fop_lost o us n + match fstep o us s with Ok (us, s) => run_lost ops us s n | _ => 0 end
  end.
Definition fop_leaks (o : fop) : Z := match o with FOpened _ _ => 1 | _ => 0 end.
Definition run_leaks (ops : list fop) : Z := foldr (fun o a => fop_leaks o + a) 0 ops.

Lemma enter_user_ok eo er us k s n allowed :
  finv eo er us k s ->
  exists us' s', enter_user Using (file_enter allowed n s) us = Ok (us', s') /\ finv eo er us' k s'.
Proof.
  intros H. destruct (file_enter_ok _ _ _ _ _ n allowed H) as (a & s' & E & Ha). unfold enter_user. rewrite E. simpl.
  destruct a; subst; eauto.
Qed.

Lemma leave_user_ok eo er us k s (m : nat) i l :
  finv eo er us k s -> us !! m = Some (Using i) ->
  exists s', leave_user i l s = Ok s' /\ finv eo er (delete m us) k s'.
Proof.
  intros H Hm. pose proof (fi_len _ _ _ _ _ H) as Hs.
  pose proof (proj1 (Forall_lookup _ _) (fi_us _ _ _ _ _ H) _ _ Hm) as Hi. simpl in Hi.
  assert (Hrel : forall p, exists s', fd_array_release i (set_ent i (set_pos p (ent s i)) s) = Ok s' /\ finv eo er (delete m us) k s')
    by (intros p; by eapply fd_array_release_ok).
  assert (Hrel0 : exists s', fd_array_release i s = Ok s' /\ finv eo er (delete m us) k s').
  { pose proof (fd_array_release_ok _ _ _ _ _ m i (ent s i) H Hm eq_refl eq_refl eq_refl eq_refl) as Hr. by rewrite set_ent_id in Hr. }
  assert (Hread : forall c, exists s', file_read_leave i c s = Ok s' /\ finv eo er (delete m us) k s')
    by (intros c; unfold file_read_leave; destruct (is_status _ _); done).
  destruct l as [c|c| |p w f z t]; simpl; [apply Hread..|done|]. unfold file_seek_leave.
  destruct (_ =? 0); [destruct (t =? 0)|]; [destruct (Hrel (if (w =? LSEEK_END) && (f =? 0) then i32 (p + z) else p)) as (s' & -> & ?)
    |destruct Hrel0 as (s' & -> & ?)..]; simpl; eauto.
Qed.

Lemma leaks_nonneg flags : 0 <= leaks flags.
Proof. unfold leaks. destruct (has _ _); lia. Qed.

Lemma finv_ext eo er er' us k s : finv eo er us k s -> (forall n, er' n = er n) -> finv eo er' us k s.
Proof.
  intros [] E. constructor; try done; [|intros n; rewrite E; apply fi_ext0]. eapply counts_ext; [done|done|]. intros n. simpl. by rewrite E.
Qed.

Lemma fstep_ok o eo er us k s :
  finv eo er us k s -> fop_ok o -> fop_leaks o <= k ->
  exists us' s', fstep o us s = Ok (us', s') /\ finv eo (fun n => er n + fop_lost o us n) us' (k - fop_leaks o) s'.
Proof.
  intros H Ho Hk.
  assert (Hid : forall us' s', finv eo er us' k s' -> finv eo (fun n => er n + 0) us' (k - 0) s')
    by (intros us' s' H'; rewrite Z.sub_0_r; eapply finv_ext; [done|]; intros; lia).
  destruct o as [flags|m e|n|a b|n|n|n|m l]; simpl in *.
  - destruct (file_open_enter_ok _ _ _ _ _ flags H) as [(ret & -> & _)|(i & s1 & -> & _ & _ & H1 & _)]; simpl; eauto.
  - assert (Hskip : finv eo (fun n => er n + 0) us (k - 1) s)
      by (eapply finv_ext; [eapply finv_le; [done|lia]|]; intros; lia).
    destruct (us !! m) as [[i|i flags]|] eqn:Hm; [by eauto| |by eauto].
    assert (Hl : leaks flags <= 1) by (unfold leaks; case_match; lia).
    destruct (file_open_leave_ok _ _ _ _ _ m i e flags H Hm Ho) as (ret & s' & -> & H' & _); [lia|]. simpl.
    eexists _, _; split; [done|]. eapply finv_le; [done|]. lia.
  - destruct (file_close_ok _ _ _ _ _ n H) as (ret & s' & -> & H'). simpl. eauto.
  - destruct (file_dup_ok _ _ _ _ _ a b H) as (ret & s' & -> & H' & _). simpl. eauto.
  - destruct (enter_user_ok _ _ _ _ _ n readable H) as (us' & s' & ? & ?). eauto.
  - destruct (enter_user_ok _ _ _ _ _ n writable H) as (us' & s' & ? & ?). eauto.
  - destruct (enter_user_ok _ _ _ _ _ n (fun _ => true) H) as (us' & s' & ? & ?). eauto.
  - destruct (us !! m) as [[i|i flags]|] eqn:Hm; [|by eauto..].
    destruct (leave_user_ok _ _ _ _ _ _ _ l H Hm) as (s' & -> & H'). simpl. eauto.
Qed.

Lemma run_leaks_nonneg ops : 0 <= run_leaks ops.
Proof.
  induction ops as [|o ops IH]; [done|]. unfold run_leaks in *. cbn [foldr].
  assert (0 <= fop_leaks o) by (destruct o; simpl; lia). lia.
Qed.

(** C8: Whatever the threads of a process do with their descriptors (opens,
    closes, dups, and reads, writes, seeks and stats, where an open and a
    transfer overlap each other and the closing of the file they use), no
    assertion of file.c, inode.c or vfsfile.c fails; every entry's count stays
    one for the open descriptor plus one per thread inside an operation, an
    entry reserved by an unfinished open belongs to that thread alone; and
    every inode has exactly one opening and one reference per entry that holds
    it, besides those held elsewhere ([eo], [er]) and the references that
    [vfs_open] is known to lose ([run_lost]: with [O_CREAT] the one of the
    parent directory of a file it creates, or of the existing file when
    [O_EXCL] refuses it; without [O_CREAT] none).  Assumed: the file system
    below answers as [answers_ok] says, which includes that [vop_create]
    succeeds where it is called (its result is not checked), and the counts
    have room for one lost reference per open. *)
Theorem file_table_safe eo er us k s ops :
  finv eo er us k s -> Forall fop_ok ops -> run_leaks ops <= k ->
  exists us' s', frun ops us s = Ok (us', s') /\
    finv eo (fun n => er n + run_lost ops us s n) us' (k - run_leaks ops) s'.
Proof.
  revert er us k s. induction ops as [|o ops IH]; intros er us k s H Ho Hk.
  { exists us, s. split; [done|]. rewrite Z.sub_0_r. eapply finv_ext; [done|]. intros n. simpl. lia. }
  apply Forall_cons in Ho as [Ho Hops]. change (run_leaks (o :: ops)) with (fop_leaks o + run_leaks ops) in *.
  pose proof (run_leaks_nonneg ops).
  destruct (fstep_ok o _ _ _ _ _ H Ho) as (us1 & s1 & Hs1 & H1); [lia|]. cbn [frun run_lost]. rewrite Hs1. cbn [mbind res_bind].
  destruct (IH _ _ _ _ H1 Hops) as (us' & s' & -> & H'); [lia|].
  exists us', s'. split; [done|]. replace (k - (fop_leaks o + run_leaks ops)) with (k - fop_leaks o - run_leaks ops) by lia.
  eapply finv_ext; [done|]. intros n. simpl. lia.
Qed.

(** A fresh table, no inode known, and a file system that finds every path. *)
Definition table0 : fstate := FState (Vfs ∅ []) (fd_array_init (replicate 145 blank_file)) 1.
Definition answers0 : open_env := OpenEnv 0 0 0 0 7 0 0 0 100.

Lemma answers0_ok : answers_ok answers0.
Proof. unfold answers_ok, codes_ok. simpl. lia. Qed.

Lemma uses_idle n l : Forall (fun f => status f = FD_NONE) l -> uses n l = 0.
Proof.
  induction 1 as [|f l Hf _ IH]; [done|]. unfold uses in *. cbn [foldr]. rewrite IH, holds_idle; [done|..];
    apply is_status_false; congruence.
Qed.

Lemma fd_array_init_lookup l (i : nat) f :
  fd_array_init l !! i = Some f -> status f = FD_NONE /\ fd f = Z.of_nat i /\ fcount f = 0.
Proof. unfold fd_array_init. rewrite list_lookup_imap. destruct (l !! i); simpl; intros [= <-]. done. Qed.

Lemma fd_array_init_idle l : Forall (fun f => status f = FD_NONE) (fd_array_init l).
Proof. apply Forall_lookup. intros i f H. by apply fd_array_init_lookup in H as (? & _). Qed.

(** A table fresh from [files_create], once a process uses it. *)
Lemma finv_created v l c eo er k :
  Z.of_nat (length l) = FILES_STRUCT_NENTRY -> 0 < c -> 0 <= k -> counts eo er v ->
  (forall n, 0 <= eo n <= er n /\ er n + k + FILES_STRUCT_NENTRY + 2 < MAX_INODE_COUNT) ->
  finv eo er [] k (FState v (fd_array_init l) c).
Proof.
  intros Hl Hc Hk Hv Hb. assert (Hs : sized (FState v (fd_array_init l) c)).
  { unfold sized, fd_array_init. simpl. by rewrite length_imap. }
  constructor; try done.
  - intros i Hi. pose proof (ent_lookup _ _ Hs Hi) as Hf. apply fd_array_init_lookup in Hf as (Hst & Hfd & Hfc).
    split; [unfold vfd in Hi; lia|]. rewrite Hst. done.
  - simpl. eapply counts_ext; [exact Hv|..]; intros n; rewrite uses_idle by apply fd_array_init_idle; lia.
Qed.

Lemma table0_ok k : 0 <= k <= 1000 -> finv (fun _ => 0) (fun _ => 0) [] k table0.
Proof.
  intros Hk. apply finv_created; [done|done|lia|done|].
  intros n. change FILES_STRUCT_NENTRY with 145. change MAX_INODE_COUNT with 65536. lia.
Qed.

(** The same with one open descriptor, on inode 7; inode 8 is the working
    directory. *)
Definition table1 : fstate :=
  set_ent 0 (File FD_OPENED true true 0 0 7 1) (set_fv (Vfs {[ 7 := Inode 1 1; 8 := Inode 1 0 ]} []) table0).

Lemma inodes1 n : inode_at (fv table1) n = Inode (if (n =? 8) || (n =? 7) then 1 else 0) (if n =? 7 then 1 else 0).
Proof.
  unfold inode_at. simpl. destruct (Z.eqb_spec n 7) as [->|H7]; [done|]. rewrite lookup_insert_ne by done.
  destruct (Z.eqb_spec n 8) as [->|H8]; [done|]. by rewrite lookup_singleton_ne.
Qed.

Lemma table1_ok k : 0 <= k <= 999 -> finv (fun _ => 0) (fun n => if n =? 8 then 1 else 0) [] k table1.
Proof.
  intros Hk. apply (finv_fresh (fun _ => 0) (fun _ => 0) [] [] (k + 1)); try done; [apply table0_ok; lia|by left|..|intros n; zcase; lia|lia].
  intros n. change (Vfs _ _) with (fv table1). rewrite inodes1. unfold bump. rewrite uses_idle by apply fd_array_init_idle.
  cbn [node]. repeat zcase; lia || done.
Qed.

Definition ops0 : list fop :=
  [FOpen O_RDWR; FOpen O_RDONLY; FClose 0; FOpened 1 answers0; FDup 0 NO_FD; FRead 0; FRead 0; FClose 0; FOpened 2 answers0;
   FLeave 0 (LRead 10); FClose 5; FLeave 0 (LSeek 3 LSEEK_END 0 100 0); FOpen (O_WRONLY + O_CREAT + O_EXCL); FOpened 0 answers0;
   FOpen (O_WRONLY + O_CREAT + O_APPEND); FOpened 0 (OpenEnv (- E_NOENT) 0 9 0 11 0 0 0 0); FClose 1].

Lemma file_table_safe_witness :
  (run_lost ops0 [] table0 7 = 1 /\ run_lost ops0 [] table0 9 = 1 /\ run_lost ops0 [] table0 11 = 0) /\
  exists us' s', frun ops0 [] table0 = Ok (us', s') /\
    finv (fun _ => 0) (fun n => 0 + run_lost ops0 [] table0 n) us' (4 - run_leaks ops0) s'.
Proof.
  split; [by vm_compute|].
  apply (file_table_safe _ (fun _ => 0)); [by apply table0_ok| |by vm_compute].
  repeat (apply Forall_cons; split; [first [exact I|unfold fop_ok, answers_ok, codes_ok; simpl; unfold E_NOENT; lia]|]). by apply Forall_nil.
Defined.

(** [file_open] with any flags and any answers of the file system either
    returns an error and leaves every descriptor as it was, or returns the
    least free descriptor, now open on the file with the access the flags ask
    for, at position 0 or, with [O_APPEND], at the end of the file; no other
    descriptor changes and the counts stay exact up to the references that
    [lost] names. *)
Theorem file_open_correct eo er us k s e flags :
  finv eo er us k s -> answers_ok e -> leaks flags <= k ->
  exists ret s' er', file_open e flags s = Ok (ret, s') /\ finv eo er' us (k - leaks flags) s' /\
    (forall n, er n <= er' n <= er n + lost e flags n) /\ open_result e flags s ret s'.
Proof. apply file_open_spec. Qed.

Lemma file_open_correct_witness :
  exists ret s' er', file_open answers0 (O_RDWR + O_APPEND) table0 = Ok (ret, s') /\
    finv (fun _ => 0) er' [] (0 - leaks (O_RDWR + O_APPEND)) s' /\
    (forall n, 0 <= er' n <= 0 + lost answers0 (O_RDWR + O_APPEND) n) /\ open_result answers0 (O_RDWR + O_APPEND) table0 ret s'.
Proof. apply (file_open_correct _ (fun _ => 0)); [by apply table0_ok|exact answers0_ok|by vm_compute]. Defined.

(** The reference that an exclusive open of an existing file keeps. *)
Lemma open_exists_leaks :
  vfs_open answers0 (O_RDWR + O_CREAT + O_EXCL) (fv table0) = Ok (- E_EXISTS, inode_ref_inc 7 (fv table0)).
Proof. reflexivity. Qed.

(** ** fs.c: the end of a table *)
Definition with_count (c : Z) (s : fstate) : fstate := FState (fv s) (tab s) c.

Lemma fd_array_free_count c i s :
  fd_array_free i (with_count c s) = (s ← fd_array_free i s; Ok (with_count c s)).
Proof.
  unfold fd_array_free. change (ent (with_count c s) i) with (ent s i).
  destruct (is_status FD_INIT (ent s i) || _); [|done]. simpl. destruct (kassert (fcount (ent s i) =? 0)); [|done..]. simpl.
  destruct (is_status FD_CLOSED (ent s i)); [|done]. by destruct (vfs_close (node (ent s i)) (fv s)).
Qed.

Lemma fd_array_close_count c i s :
  fd_array_close i (with_count c s) = (s ← fd_array_close i s; Ok (with_count c s)).
Proof.
  unfold fd_array_close. change (ent (with_count c s) i) with (ent s i).
  destruct (is_status FD_OPENED (ent s i)); [|done]. simpl. destruct (kassert (0 <? fcount (ent s i))); [|done..]. simpl.
  change (set_ent i ?f (with_count c s)) with (with_count c (set_ent i f s)).
  change (ent (with_count c ?t) i) with (ent t i). destruct (_ =? 0); [|done]. apply fd_array_free_count.
Qed.

Lemma close_range_count c b ids s :
  close_range b ids (with_count c s) = (s ← close_range b ids s; Ok (with_count c s)).
Proof.
  revert s. induction ids as [|i ids IH]; intros s; [done|]. cbn [close_range].
  change (ent (with_count c s) i) with (ent s i).
  assert (Hg : forall t, (_ ← kassert (negb b || is_status FD_NONE (ent (with_count c t) i)); close_range b ids (with_count c t)) =
    ((_ ← kassert (negb b || is_status FD_NONE (ent t i)); close_range b ids t) ≫= fun s => Ok (with_count c s))).
  { intros t. change (ent (with_count c t) i) with (ent t i). destruct (kassert _); simpl; [apply IH|done..]. }
  destruct (is_status FD_OPENED (ent s i)); [|by apply Hg]. rewrite fd_array_close_count.
  destruct (fd_array_close i s); simpl; [apply Hg|done..].
Qed.

(** Without users inside, closing leaves no open entry among [ids]. *)
Lemma close_range_ok eo er k b ids s :
  finv eo er [] k s -> Forall vfd ids ->
  exists s', close_range b ids s = Ok s' /\ finv eo er [] k s' /\ files_count s' = files_count s /\
    (forall j, vfd j -> j ∈ ids -> status (ent s' j) = FD_NONE) /\
    (forall j, vfd j -> j ∉ ids -> ent s' j = ent s j).
Proof.
  intros H Hids. revert s H. induction Hids as [|i ids Hi Hids IH]; intros s H.
  { exists s. split_and!; try done. intros j _ Hj. by apply not_elem_of_nil in Hj. }
  cbn [close_range].
  assert (exists s1, (if is_status FD_OPENED (ent s i) then fd_array_close i s else Ok s) = Ok s1 /\ finv eo er [] k s1 /\
    files_count s1 = files_count s /\ status (ent s1 i) = FD_NONE /\ forall j, vfd j -> j <> i -> ent s1 j = ent s j)
    as (s1 & -> & H1 & Hc1 & Hn1 & Ho1).
  { unfold is_status. case_bool_decide as Hst.
    - destruct (fd_array_close_ok _ _ _ _ _ i H Hi Hst) as (s1 & E & H1 & Ho & Hc & Hn). eauto 10.
    - exists s. split_and!; try done. pose proof (fi_ent _ _ _ _ _ H i Hi) as [_ He].
      destruct (status (ent s i)); try done; [destruct He as (_ & _ & He)|destruct He as (_ & He & _)]; by vm_compute in He. }
  simpl. rewrite (is_status_true FD_NONE) by done. rewrite orb_true_r. simpl.
  destruct (IH s1 H1) as (s' & -> & H' & Hc & Hn & Ho). exists s'. split_and!; try done; [congruence|..].
  - intros j Hj Hin. destruct (decide (j ∈ ids)); [auto|]. rewrite (Ho j) by done.
    apply elem_of_cons in Hin as [->|?]; done.
  - intros j Hj [Hne Hin]%not_elem_of_cons. rewrite (Ho j), (Ho1 j); done.
Qed.

Lemma finv_pwd eo er us k s pwd v :
  finv eo er us k s -> counts (fun n => eo n + uses n (tab s)) (bump (fun n => er n + uses n (tab s)) pwd (-1)) v ->
  eo pwd < er pwd -> finv eo (bump er pwd (-1)) us k (set_fv v s).
Proof.
  intros [] Hv Hp. constructor; try done.
  - simpl. eapply counts_ext; [exact Hv|done|]. intros n. unfold bump. lia.
  - intros n. specialize (fi_ext0 n). unfold bump. zcase; subst; lia.
Qed.

(** When the last process of a table leaves, [files_destroy] closes every
    descriptor without a failed assertion, each entry is free afterwards, and
    every inode is left with exactly the openings and references that others
    hold; the working directory's reference is given back. *)
Theorem files_destroy_correct eo er k s pwd :
  finv eo er [] k s -> (pwd <> 0 -> eo pwd < er pwd) ->
  exists s', files_destroy pwd (with_count 0 s) = Ok s' /\
    (forall j, vfd j -> status (ent s' j) = FD_NONE) /\
    counts eo (bump er pwd (if pwd =? 0 then 0 else -1)) (fv s').
Proof.
  intros H Hp. unfold files_destroy. change (kassert (files_count (with_count 0 s) =? 0)) with (Ok tt).
  assert (Hids : Forall vfd (seqZ 0 FILES_STRUCT_NENTRY)) by (apply Forall_forall; intros x Hx; apply elem_of_seqZ in Hx; unfold vfd; lia).
  assert (Hend : forall er' t, finv eo er' [] k t -> exists s', close_range true (seqZ 0 FILES_STRUCT_NENTRY) (with_count 0 t) = Ok s' /\
    (forall j, vfd j -> status (ent s' j) = FD_NONE) /\ counts eo er' (fv s')).
  { intros er' t Ht. rewrite close_range_count. destruct (close_range_ok _ _ _ true _ _ Ht Hids) as (s1 & -> & H1 & _ & Hn & _).
    simpl. exists (with_count 0 s1). split; [done|].
    assert (Hall : forall j, vfd j -> status (ent s1 j) = FD_NONE) by (intros j Hj; apply Hn; [done|]; apply elem_of_seqZ; unfold vfd in Hj; lia).
    split; [done|]. eapply counts_ext; [apply (fi_counts _ _ _ _ _ H1)|..]; intros n; cbv beta; rewrite uses_idle; try lia;
      apply Forall_lookup; intros i f Hf; pose proof (lookup_lt_Some _ _ _ Hf); pose proof (fi_len _ _ _ _ _ H1) as Hl; unfold sized in Hl;
      (assert (Hi : vfd (Z.of_nat i)) by (unfold vfd; lia)); pose proof (Hall _ Hi) as Hh; unfold ent in Hh; rewrite Nat2Z.id, Hf in Hh; done. }
  simpl. zcase; simpl.
  - destruct (Hend er s H) as (s' & Hs' & Hn & Hc). exists s'. split_and!; [done|done|].
    eapply counts_ext; [exact Hc|done|]. intros n. apply bump_0.
  - pose proof (finv_bounds _ _ _ _ _ pwd H). pose proof (fi_k _ _ _ _ _ H).
    destruct (inode_ref_dec_ok _ _ _ pwd (fi_counts _ _ _ _ _ H)) as (v & -> & Hv); [done|specialize (Hp n); lia..|]. simpl.
    change (set_fv v (with_count 0 s)) with (with_count 0 (set_fv v s)). apply Hend. by apply finv_pwd; auto.
Qed.

Lemma files_destroy_correct_witness :
  exists s', files_destroy 8 (with_count 0 table1) = Ok s' /\
    (forall j, vfd j -> status (ent s' j) = FD_NONE) /\
    counts (fun _ => 0) (bump (fun n => if n =? 8 then 1 else 0) 8 (-1)) (fv s').
Proof. apply (files_destroy_correct (fun _ => 0) _ 0); [exact (table1_ok 0 ltac:(lia))|done]. Defined.

(** ** fs.c: the copy of a table *)

(** The entry [t] of the new table for the entry [f] of the old one. *)
Definition dup_of (f t : file) : file :=
  if is_status FD_OPENED f then File FD_OPENED (readable f) (writable f) (fd t) (pos f) (node f) (fcount t + 1) else t.

Lemma dup_entries_ok from to v o r :
  length from = length to -> counts o r v ->
  Forall (fun f => status f = FD_OPENED -> node f <> 0) from -> Forall (fun t => status t = FD_NONE) to ->
  exists v', dup_entries from to v = Ok (zip_with dup_of from to, v') /\
    counts (fun n => o n + uses n (zip_with dup_of from to)) (fun n => r n + uses n (zip_with dup_of from to)) v'.
Proof.
  revert to v o r. induction from as [|f from IH]; intros [|t to] v o r Hlen Hv Hf Ht; try done; simpl.
  { exists v. split; [done|]. eapply counts_ext; [exact Hv|..]; intros; unfold uses; simpl; lia. }
  apply Forall_cons in Hf as [Hf Hfs]. apply Forall_cons in Ht as [Ht Hts]. injection Hlen as Hlen.
  assert (exists v1, (if is_status FD_OPENED f then fd_array_dup (set_status FD_INIT t) f v else Ok (t, v)) = Ok (dup_of f t, v1) /\
    counts (fun n => o n + holds n (dup_of f t)) (fun n => r n + holds n (dup_of f t)) v1) as (v1 & -> & Hv1).
  { unfold dup_of, is_status. case_bool_decide as Ho.
    - unfold fd_array_dup. rewrite (is_status_true FD_OPENED f), (is_status_true FD_INIT) by done. simpl.
      unfold fd_array_open. rewrite (is_status_true FD_INIT) by done. rewrite kassert_true by (simpl; specialize (Hf Ho); zcase; done).
      simpl. eexists; split; [done|].
      eapply counts_ext; [apply counts_open_inc, counts_ref_inc, Hv|..]; intros n; unfold bump, holds; simpl; rewrite (Z.eqb_sym n);
        zcase; simpl; lia.
    - exists v. split; [done|]. eapply counts_ext; [exact Hv|..]; intros n; rewrite holds_idle; try lia; apply is_status_false; congruence. }
  simpl. destruct (IH to v1 _ _ Hlen Hv1 Hfs Hts) as (v' & -> & Hv'). simpl. exists v'. split; [done|].
  eapply counts_ext; [exact Hv'|..]; intros n; unfold uses; simpl; lia.
Qed.

(** The inode counts seen from another table that holds [x] more. *)
Lemma finv_others eo er us k s v x y k' :
  finv eo er us k s -> (forall n, 0 <= x n <= y n) -> (forall n, y n <= k - k') -> 0 <= k' ->
  counts (fun n => eo n + x n + uses n (tab s)) (fun n => er n + y n + uses n (tab s)) v ->
  finv (fun n => eo n + x n) (fun n => er n + y n) us k' (set_fv v s).
Proof.
  intros [] Hx Hy Hk Hv. constructor; try done. intros n. specialize (fi_ext0 n). specialize (Hx n). specialize (Hy n). lia.
Qed.

Lemma finv_nodes eo er us k s : finv eo er us k s -> Forall (fun f => status f = FD_OPENED -> node f <> 0) (tab s).
Proof.
  intros H. apply Forall_lookup. intros i f Hf Ho. pose proof (lookup_lt_Some _ _ _ Hf). pose proof (fi_len _ _ _ _ _ H) as Hl. unfold sized in Hl.
  assert (Hi : vfd (Z.of_nat i)) by (unfold vfd; lia). pose proof (fi_ent _ _ _ _ _ H _ Hi) as [_ He].
  unfold ent in He. rewrite Nat2Z.id, Hf in He. simpl in He. rewrite Ho in He. tauto.
Qed.

(** [dup_files] (fork) gives the new process a copy of every open
    descriptor with the same number, file, access and position, and free
    entries otherwise, without a failed assertion; the table of either process
    is then well-formed with the other's openings and references counted as
    held elsewhere, so both may go on independently. *)
Theorem dup_files_correct eo er us k k' s l c pwd :
  finv eo er us k s -> length l = length (tab s) -> 0 < c -> 0 <= k' <= k - FILES_STRUCT_NENTRY - 1 ->
  exists t, dup_files pwd (FState (fv s) (fd_array_init l) 0) s = Ok t /\
    let held n := if (n =? pwd) && negb (pwd =? 0) then 1 else 0 in
    tab t = zip_with dup_of (tab s) (fd_array_init l) /\
    finv (fun n => eo n + uses n (tab s)) (fun n => er n + held n + uses n (tab s)) [] k' (with_count c t) /\
    finv (fun n => eo n + uses n (tab t)) (fun n => er n + (held n + uses n (tab t))) us k' (set_fv (fv t) s).
Proof.
  intros H Hlen Hc Hk. unfold dup_files. pose proof (fi_live _ _ _ _ _ H) as Hlive. pose proof (fi_len _ _ _ _ _ H) as Hs.
  simpl. rewrite kassert_true by (by apply Z.ltb_lt). simpl. set (held := fun n => if (n =? pwd) && negb (pwd =? 0) then 1 else 0).
  assert (Hli : length (tab s) = length (fd_array_init l)) by (unfold fd_array_init; by rewrite length_imap).
  assert (Hv : counts (fun n => eo n + uses n (tab s)) (fun n => er n + held n + uses n (tab s))
                 (if negb (pwd =? 0) then inode_ref_inc pwd (fv s) else fv s)).
  { pose proof (fi_counts _ _ _ _ _ H) as Hv. unfold held. destruct (Z.eqb_spec pwd 0) as [E|E]; simpl.
    - eapply counts_ext; [exact Hv|done|]. intros n. rewrite andb_false_r. lia.
    - eapply counts_ext; [apply counts_ref_inc, Hv|done|]. intros n. unfold bump. rewrite andb_true_r. lia. }
  destruct (dup_entries_ok _ _ _ _ _ Hli Hv (finv_nodes _ _ _ _ _ H) (fd_array_init_idle l)) as (v' & -> & Hv').
  simpl. set (l' := zip_with dup_of (tab s) (fd_array_init l)) in *. eexists; split; [done|]. simpl.
  assert (Hl' : length l' = length (tab s)) by (unfold l'; rewrite length_zip_with; lia).
  assert (Hu : forall n, 0 <= uses n l' <= FILES_STRUCT_NENTRY) by (intros n; pose proof (uses_range n l'); unfold sized in Hs; lia).
  assert (Hh : forall n, 0 <= held n <= 1) by (intros n; unfold held; destruct (_ && _); lia).
  split_and!; [done| |].
  - constructor; try done.
    + unfold sized. simpl. unfold sized in Hs. lia.
    + intros i Hi. pose proof (ent_lookup _ _ Hs Hi) as Hf.
      destruct (lookup_lt_is_Some_2 (fd_array_init l) (Z.to_nat i)) as [t Ht]; [unfold vfd, sized in *; lia|].
      unfold ent at 1. simpl. unfold l'. rewrite (lookup_zip_with dup_of). rewrite Hf. simpl. rewrite Ht. simpl.
      apply fd_array_init_lookup in Ht as (Hst & Hfd & Hfc). unfold dup_of, is_status.
      case_bool_decide as Ho; split; simpl; try (unfold vfd in Hi; lia); [|rewrite Hst; done].
      rewrite Hfc. split; [done|]. pose proof (fi_ent _ _ _ _ _ H i Hi) as [_ He]. rewrite Ho in He. tauto.
    + intros n. pose proof (fi_ext _ _ _ _ _ H n). pose proof (finv_uses _ _ _ _ _ n H). specialize (Hh n). unfold held in Hh. lia.
    + lia.
  - eapply finv_others; [done|..|lia|].
    + intros n. specialize (Hu n). specialize (Hh n). unfold held in Hh. lia.
    + intros n. specialize (Hu n). specialize (Hh n). unfold held in Hh. lia.
    + eapply counts_ext; [exact Hv'|..]; intros n; unfold held; simpl; lia.
Qed.

Lemma dup_files_correct_witness :
  exists t, dup_files 8 (FState (fv table1) (fd_array_init (replicate 145 blank_file)) 0) table1 = Ok t /\
    let held n := if (n =? 8) && negb (8 =? 0) then 1 else 0 in
    tab t = zip_with dup_of (tab table1) (fd_array_init (replicate 145 blank_file)) /\
    finv (fun n => 0 + uses n (tab table1)) (fun n => (if n =? 8 then 1 else 0) + held n + uses n (tab table1)) [] 5 (with_count 1 t) /\
    finv (fun n => 0 + uses n (tab t)) (fun n => (if n =? 8 then 1 else 0) + (held n + uses n (tab t))) [] 5 (set_fv (fv t) table1).
Proof.
  apply (dup_files_correct (fun _ => 0) (fun n => if n =? 8 then 1 else 0) [] 300); [exact (table1_ok 300 ltac:(lia))|by vm_compute|done|].
  change FILES_STRUCT_NENTRY with 145. lia.
Defined.
