(* ===== verification/PageTable.v ===== *)
(** * kern/mm/pmm.c and pmm.h: two-level page tables

    Physical memory as frames of 1024 words, the reference count of each
    frame's [struct Page], and the page allocator as an interface
    ([FrameAlloc]) that [default_pmm.c] implements (PmmFrames).  A page is
    named by its frame number ([page - pages]), a page directory by the frame
    it occupies, an entry of a table by its frame and index.  The TLB is not
    part of the state: [tlb_invalidate] has no effect here. *)
From S2P Require Import Prelude Libs SwapFifo Vmm.

Definition PTSIZE : Z := PGSIZE * 1024.
Definition PTE_P : Z := 1.
Definition PTE_W : Z := 2.
Definition PTE_U : Z := 4.
Definition PTE_USER : Z := 7.

Definition PDX (la : Z) : Z := Z.land (Z.shiftr la 22) 0x3FF.
Definition PTX (la : Z) : Z := Z.land (Z.shiftr la 12) 0x3FF.
Definition PPN (la : Z) : Z := Z.shiftr la 12.
Definition PTE_ADDR (pte : Z) : Z := Z.land pte 0xFFFFF000.

(** The page allocator, one page at a time.  [fa_rep U p F]: in the state [p]
    the frames [F] of those it manages, [U], are free. *)
Class FrameAlloc := {
  fa_state : Type;
  fa_alloc : fa_state -> res (option Z * fa_state);
  fa_free : Z -> fa_state -> res fa_state;
  fa_rep : gset Z -> fa_state -> gset Z -> Prop;
  fa_sub : forall U p F, fa_rep U p F -> F ⊆ U;
  fa_alloc_ok : forall U p F, fa_rep U p F ->
    exists r p', fa_alloc p = Ok (r, p') /\
      match r with
      | None => p' = p /\ F = ∅
      | Some f => f ∈ F /\ fa_rep U p' (F ∖ {[ f ]})
      end;
  fa_free_ok : forall U p F f, fa_rep U p F -> f ∈ U -> f ∉ F ->
    exists p', fa_free f p = Ok p' /\ fa_rep U p' ({[ f ]} ∪ F)
}.

Section page_table.
Context `{FA : FrameAlloc} `{SM : SwapMgr}.

(** What swap.c keeps.  [check_mm_struct] is the page directory of the address
    space that pointer names; [writes] says of each write to the swap device
    to come whether it succeeds. *)
Record swapping := Swapping {
  sw_queue : sq;
  sw_vaddrs : gmap Z Z;              (* pra_vaddr of the pages *)
  sw_slots : gmap Z (gmap Z Z);      (* the swap device *)
  sw_max_offset : Z;
  sw_init_ok : bool;
  sw_check_mm : option Z;
  sw_writes : list bool
}.

(** [npage]: the number of frames. *)
Record pm := Pm {
  frames : gmap Z (gmap Z Z);
  refs : gmap Z Z;
  fpool : fa_state;
  npage : Z;
  swp : swapping
}.

Definition queue (s : pm) : sq := sw_queue (swp s).
Definition slots (s : pm) : gmap Z (gmap Z Z) := sw_slots (swp s).
Definition max_swap_offset (s : pm) : Z := sw_max_offset (swp s).
Definition swap_init_ok (s : pm) : bool := sw_init_ok (swp s).
Definition check_mm_struct (s : pm) : option Z := sw_check_mm (swp s).
Definition writes (s : pm) : list bool := sw_writes (swp s).
Definition pra_vaddr (s : pm) (p : Z) : Z := default 0 (sw_vaddrs (swp s) !! p).

Definition set_swp (w : swapping) (s : pm) : pm := Pm (frames s) (refs s) (fpool s) (npage s) w.
Definition set_queue (q : sq) (s : pm) : pm :=
  let w := swp s in set_swp (Swapping q (sw_vaddrs w) (sw_slots w) (sw_max_offset w) (sw_init_ok w) (sw_check_mm w) (sw_writes w)) s.
Definition set_vaddr (p a : Z) (s : pm) : pm :=
  let w := swp s in set_swp (Swapping (sw_queue w) (<[p := a]> (sw_vaddrs w)) (sw_slots w) (sw_max_offset w) (sw_init_ok w) (sw_check_mm w) (sw_writes w)) s.
Definition set_slot (o : Z) (c : gmap Z Z) (s : pm) : pm :=
  let w := swp s in set_swp (Swapping (sw_queue w) (sw_vaddrs w) (<[o := c]> (sw_slots w)) (sw_max_offset w) (sw_init_ok w) (sw_check_mm w) (sw_writes w)) s.
Definition set_writes (l : list bool) (s : pm) : pm :=
  let w := swp s in set_swp (Swapping (sw_queue w) (sw_vaddrs w) (sw_slots w) (sw_max_offset w) (sw_init_ok w) (sw_check_mm w) l) s.

Definition frame (s : pm) (f : Z) : gmap Z Z := default ∅ (frames s !! f).
Definition word (s : pm) (f i : Z) : Z := default 0 (frame s f !! i).
Definition page_ref (s : pm) (f : Z) : Z := default 0 (refs s !! f).

Definition set_frame (f : Z) (c : gmap Z Z) (s : pm) : pm := Pm (<[f := c]> (frames s)) (refs s) (fpool s) (npage s) (swp s).
Definition set_word (f i w : Z) (s : pm) : pm := set_frame f (<[i := w]> (frame s f)) s.
Definition set_page_ref (f n : Z) (s : pm) : pm := Pm (frames s) (<[f := n]> (refs s)) (fpool s) (npage s) (swp s).
Definition set_fpool (p : fa_state) (s : pm) : pm := Pm (frames s) (refs s) p (npage s) (swp s).

Definition page_ref_inc (f : Z) (s : pm) : pm := set_page_ref f (page_ref s f + 1) s.
Definition page_ref_dec (f : Z) (s : pm) : pm := set_page_ref f (page_ref s f - 1) s.

Definition page2pa (f : Z) : Z := Z.shiftl f 12.
Definition pa2page (s : pm) (pa : Z) : res Z := _ ← kassert (negb (npage s <=? PPN pa)); Ok (PPN pa).
(** The frame behind [KADDR(pa)], for a page-aligned [pa]. *)
Definition KADDR (s : pm) (pa : Z) : res Z := _ ← kassert (negb (npage s <=? PPN pa)); Ok (PPN pa).
Definition page2kva (s : pm) (f : Z) : res Z := KADDR s (page2pa f).
Definition pte2page (s : pm) (pte : Z) : res Z :=
  _ ← kassert (negb (Z.land pte PTE_P =? 0)); pa2page s (PTE_ADDR pte).
Definition pde2page (s : pm) (pde : Z) : res Z := pa2page s (PTE_ADDR pde).

(** The allocator resets the reference count of a page it takes back. *)
Definition free_page (f : Z) (s : pm) : res pm :=
  p ← fa_free f (fpool s); Ok (set_page_ref f 0 (set_fpool p s)).

(** [get_pte], whose call of [alloc_page] is [alloc]. *)
Definition get_pte_by (alloc : pm -> res (option Z * pm)) (pgdir la : Z) (create : bool) (s : pm) : res (option (Z * Z) * pm) :=
  let found s := t ← KADDR s (PTE_ADDR (word s pgdir (PDX la))); Ok (Some (t, PTX la), s) in
  if Z.land (word s pgdir (PDX la)) PTE_P =? 0 then
    if negb create then Ok (None, s)
    else
      '(r, s) ← alloc s;
      match r with
      | None => Ok (None, s)
      | Some page =>
          let s := set_page_ref page 1 s in
          let pa := page2pa page in
          t ← KADDR s pa;
          let s := set_frame t ∅ s in
          found (set_word pgdir (PDX la) (Z.lor (Z.lor (Z.lor pa PTE_U) PTE_W) PTE_P) s)
      end
  else found s.

(** [get_pte(pgdir, la, 0)], which allocates nothing. *)
Definition find_pte (pgdir la : Z) (s : pm) : res (option (Z * Z) * pm) :=
  get_pte_by (fun s => Ok (None, s)) pgdir la false s.

Definition pte_at (s : pm) (ptep : Z * Z) : Z := word s ptep.1 ptep.2.
Definition set_pte (ptep : Z * Z) (w : Z) (s : pm) : pm := set_word ptep.1 ptep.2 w s.

(** ** swapfs.c and swap.c *)
Definition swap_offset (s : pm) (entry : Z) : res Z :=
  let offset := Z.shiftr entry 8 in
  _ ← kassert ((0 <? offset) && (offset <? max_swap_offset s)); Ok offset.

(** The result code and the state; [ok]: the device did the transfer. *)
Definition swapfs_read (ok : bool) (entry page : Z) (s : pm) : res (Z * pm) :=
  o ← swap_offset s entry;
  f ← page2kva s page;
  Ok (if ok then (0, set_frame f (default ∅ (slots s !! o)) s) else (-1, s)).
Definition swapfs_write (ok : bool) (entry page : Z) (s : pm) : res (Z * pm) :=
  o ← swap_offset s entry;
  f ← page2kva s page;
  Ok (if ok then (0, set_slot o (frame s f) s) else (-1, s)).

Definition swap_map_swappable (page : Z) (s : pm) : res (Z * pm) :=
  '(r, q) ← sq_map page (queue s); Ok (r, set_queue q s).

(** The swap entry of the page at virtual address [v]. *)
Definition slot_entry (v : Z) : Z := u32 (Z.shiftl (v / PGSIZE + 1) 8).

(** The loop from round [i] on; the victim function of the policies returns 0
    whenever it returns.  [ok]: which transfers succeed, one per round. *)
Fixpoint swap_out_loop (pgdir i n : Z) (ok : list bool) (s : pm) : res (Z * pm) :=
  if i =? n then Ok (i, s)
  else
    match ok with
    | [] => Spin
    | b :: ok =>
        '(page, q) ← sq_victim (queue s);
        let s := set_queue q s in
        let v := pra_vaddr s page in
        '(ptep, s) ← find_pte pgdir v s;
        match ptep with
        | None => Panic
        | Some e =>
            _ ← kassert (negb (Z.land (pte_at s e) PTE_P =? 0));
            '(r, s) ← swapfs_write b (slot_entry (pra_vaddr s page)) page s;
            if negb (r =? 0) then
              '(_, s) ← swap_map_swappable page s; swap_out_loop pgdir (i + 1) n ok s
            else
              let s := set_pte e (slot_entry (pra_vaddr s page)) s in
              s ← free_page page s;
              swap_out_loop pgdir (i + 1) n ok s
        end
    end.
Definition swap_out (pgdir n : Z) (ok : list bool) (s : pm) : res (Z * pm) := swap_out_loop pgdir 0 n ok s.

(** ** pmm.c: [alloc_pages(1)]

    Once swapping is set up a page is swapped out until a frame is free.  With
    [check_mm_struct] NULL, [swap_out] reads [mm->sm_priv] through NULL: a
    fault in the kernel, which panics.  The loop goes round as often as [ws]
    has writes, one for each round. *)
Fixpoint alloc_retry (ws : list bool) (s : pm) : res (option Z * pm) :=
  '(r, p) ← fa_alloc (fpool s);
  let s := set_fpool p s in
  if bool_decide (r <> None) || negb (swap_init_ok s) then Ok (r, s)
  else
    match check_mm_struct s with
    | None => Panic
    | Some pgdir =>
        match ws with
        | [] => Spin
        | w :: ws => '(_, s) ← swap_out pgdir 1 [w] (set_writes ws s); alloc_retry ws s
        end
    end.
Definition alloc_page (s : pm) : res (option Z * pm) := alloc_retry (writes s) s.

Definition get_pte (pgdir la : Z) (create : bool) (s : pm) : res (option (Z * Z) * pm) := get_pte_by alloc_page pgdir la create s.

Definition get_page (pgdir la : Z) (s : pm) : res (option Z * option (Z * Z) * pm) :=
  '(ptep, s) ← get_pte pgdir la false s;
  match ptep with
  | Some e =>
      if negb (Z.land (pte_at s e) PTE_P =? 0) then p ← pte2page s (pte_at s e); Ok (Some p, ptep, s)
      else Ok (None, ptep, s)
  | None => Ok (None, ptep, s)
  end.

Definition page_remove_pte (ptep : Z * Z) (s : pm) : res pm :=
  if negb (Z.land (pte_at s ptep) PTE_P =? 0) then
    page ← pte2page s (pte_at s ptep);
    let s := page_ref_dec page s in
    s ← (if page_ref s page =? 0 then free_page page s else Ok s);
    Ok (set_pte ptep 0 s)
  else Ok s.

Definition page_remove (pgdir la : Z) (s : pm) : res pm :=
  '(ptep, s) ← get_pte pgdir la false s;
  match ptep with Some e => page_remove_pte e s | None => Ok s end.

Definition page_insert (pgdir page la perm : Z) (s : pm) : res (Z * pm) :=
  '(ptep, s) ← get_pte pgdir la true s;
  match ptep with
  | None => Ok (- E_NO_MEM, s)
  | Some e =>
      let s := page_ref_inc page s in
      s ← (if negb (Z.land (pte_at s e) PTE_P =? 0) then
             p ← pte2page s (pte_at s e);
             if p =? page then Ok (page_ref_dec page s) else page_remove_pte e s
           else Ok s);
      Ok (0, set_pte e (Z.lor (Z.lor (page2pa page) PTE_P) perm) s)
  end.

(** [fuel] bounds the number of rounds. *)
Fixpoint unmap_loop (fuel : nat) (pgdir start end_ : Z) (s : pm) : res pm :=
  match fuel with
  | O => Spin
  | S fuel =>
      '(ptep, s) ← get_pte pgdir start false s;
      '(start, s) ← match ptep with
                    | None => Ok (ROUNDDOWN (u32 (start + PTSIZE)) PTSIZE, s)
                    | Some e =>
                        s ← (if negb (pte_at s e =? 0) then page_remove_pte e s else Ok s);
                        Ok (u32 (start + PGSIZE), s)
                    end;
      if negb (start =? 0) && (start <? end_) then unmap_loop fuel pgdir start end_ s else Ok s
  end.

Definition range_ok (start end_ : Z) : bool :=
  (start mod PGSIZE =? 0) && (end_ mod PGSIZE =? 0) && USER_ACCESS start end_.

Definition unmap_range (fuel : nat) (pgdir start end_ : Z) (s : pm) : res pm :=
  _ ← kassert (range_ok start end_); unmap_loop fuel pgdir start end_ s.

Fixpoint exit_loop (fuel : nat) (pgdir start end_ : Z) (s : pm) : res pm :=
  match fuel with
  | O => Spin
  | S fuel =>
      s ← (if negb (Z.land (word s pgdir (PDX start)) PTE_P =? 0) then
             t ← pde2page s (word s pgdir (PDX start));
             s ← free_page t s;
             Ok (set_word pgdir (PDX start) 0 s)
           else Ok s);
      let start := u32 (start + PTSIZE) in
      if negb (start =? 0) && (start <? end_) then exit_loop fuel pgdir start end_ s else Ok s
  end.

Definition exit_range (fuel : nat) (pgdir start end_ : Z) (s : pm) : res pm :=
  _ ← kassert (range_ok start end_); exit_loop fuel pgdir (ROUNDDOWN start PTSIZE) end_ s.

Fixpoint copy_loop (fuel : nat) (to from start end_ : Z) (s : pm) : res (Z * pm) :=
  match fuel with
  | O => Spin
  | S fuel =>
      let next start s := if negb (start =? 0) && (start <? end_) then copy_loop fuel to from start end_ s else Ok (0, s) in
      '(ptep, s) ← get_pte from start false s;
      match ptep with
      | None => next (ROUNDDOWN (u32 (start + PTSIZE)) PTSIZE) s
      | Some e =>
          if negb (Z.land (pte_at s e) PTE_P =? 0) then
            '(nptep, s) ← get_pte to start true s;
            match nptep with
            | None => Ok (- E_NO_MEM, s)
            | Some _ =>
                let perm := Z.land (pte_at s e) PTE_USER in
                page ← pte2page s (pte_at s e);
                '(n, s) ← alloc_page s;
                match n with
                | None => Panic
                | Some npage =>
                    src ← page2kva s page;
                    dst ← page2kva s npage;
                    let s := set_frame dst (frame s src) s in
                    '(ret, s) ← page_insert to npage start perm s;
                    _ ← kassert (ret =? 0);
                    next (u32 (start + PGSIZE)) s
                end
            end
          else next (u32 (start + PGSIZE)) s
      end
  end.

Definition copy_range (fuel : nat) (to from start end_ : Z) (s : pm) : res (Z * pm) :=
  _ ← kassert (range_ok start end_); copy_loop fuel to from start end_ s.

Definition pgdir_alloc_page (pgdir la perm : Z) (s : pm) : res (option Z * pm) :=
  '(r, s) ← alloc_page s;
  match r with
  | None => Ok (None, s)
  | Some page =>
      '(ret, s) ← page_insert pgdir page la perm s;
      if negb (ret =? 0) then s ← free_page page s; Ok (None, s)
      else if swap_init_ok s && bool_decide (check_mm_struct s <> None) then
        '(_, s) ← swap_map_swappable page s;
        let s := set_vaddr page la s in
        _ ← kassert (page_ref s page =? 1);
        Ok (Some page, s)
      else Ok (Some page, s)
  end.

End page_table.

(** ** Words of a table *)
Lemma lor_low p x : 0 <= x < 4096 -> Z.lor (Z.shiftl p 12) x = p * 4096 + x.
Proof.
  intros Hx. assert (Hl : Z.land (Z.shiftl p 12) x = 0).
  { apply Z.bits_inj'. intros n Hn. rewrite Z.land_spec, Z.bits_0. destruct (decide (n < 12)).
    - by rewrite Z.shiftl_spec_low by done.
    - rewrite (Z.testbit_eqb x), Z.div_small; [by rewrite andb_false_r| |done].
      assert (2 ^ 12 <= 2 ^ n) by (apply Z.pow_le_mono_r; lia). lia. }
  rewrite <- Z.lxor_lor, <- Z.add_nocarry_lxor by done. rewrite Z.shiftl_mul_pow2 by lia. done.
Qed.

Lemma ppn_addr e : 0 <= e < 2 ^ 32 -> PPN (PTE_ADDR e) = e / 4096.
Proof.
  intros He. unfold PPN, PTE_ADDR. rewrite Z.shiftr_land. change (Z.shiftr 0xFFFFF000 12) with (Z.ones 20).
  rewrite Z.land_ones, Z.shiftr_div_pow2 by lia. change (2 ^ 12) with 4096. apply Z.mod_small. split; [apply Z.div_pos; lia|].
  apply Z.div_lt_upper_bound; lia.
Qed.

Lemma ppn_pa p : PPN (page2pa p) = p.
Proof. unfold PPN, page2pa. rewrite Z.shiftr_shiftl_l by lia. apply Z.shiftl_0_r. Qed.

Lemma present_odd e : (Z.land e PTE_P =? 0) = negb (Z.odd e).
Proof. unfold PTE_P. change 1 with (Z.ones 1). rewrite Z.land_ones, Z.pow_1_r, Zmod_odd by lia. by destruct (Z.odd e). Qed.

Lemma pdx_page v : 0 <= v < 2 ^ 20 -> PDX (v * 4096) = v / 1024.
Proof.
  intros Hv. unfold PDX. change 0x3FF with (Z.ones 10). rewrite Z.land_ones, Z.shiftr_div_pow2 by lia.
  change (2 ^ 22) with (1024 * 4096). rewrite Z.div_mul_cancel_r by lia. apply Z.mod_small.
  split; [apply Z.div_pos; lia|]. apply Z.div_lt_upper_bound; lia.
Qed.

Lemma ptx_page v : PTX (v * 4096) = v mod 1024.
Proof.
  unfold PTX. change 0x3FF with (Z.ones 10). rewrite Z.land_ones, Z.shiftr_div_pow2 by lia.
  change (2 ^ 12) with 4096. by rewrite Z.div_mul by lia.
Qed.

(** The frame a present entry points to. *)
Definition page_of (e : Z) : option Z := if Z.odd e then Some (e / 4096) else None.

Lemma page_of_entry p x : 0 <= x < 4096 -> Z.odd x = true -> page_of (p * 4096 + x) = Some p.
Proof.
  intros Hx Ho. unfold page_of. replace (p * 4096 + x) with (x + 2 * (p * 2048)) by lia. rewrite Z.odd_add_mul_2, Ho.
  f_equal. replace (x + 2 * (p * 2048)) with (p * 4096 + x) by lia. rewrite Z.div_add_l by lia. rewrite Z.div_small; lia.
Qed.

Lemma leaf_entry p perm :
  0 <= perm < 8 -> Z.lor (Z.lor (page2pa p) PTE_P) perm = p * 4096 + Z.lor 1 perm /\ 0 <= Z.lor 1 perm < 8 /\ Z.odd (Z.lor 1 perm) = true.
Proof.
  intros Hp. rewrite <- Z.lor_assoc. assert (0 <= Z.lor 1 perm < 8 /\ Z.odd (Z.lor 1 perm) = true) as [H1 H2].
  { assert (perm = 0 \/ perm = 1 \/ perm = 2 \/ perm = 3 \/ perm = 4 \/ perm = 5 \/ perm = 6 \/ perm = 7) as Hc by lia.
    by destruct_or! Hc; subst. }
  split; [|done]. apply lor_low. lia.
Qed.

Lemma table_entry p : Z.lor (Z.lor (Z.lor (page2pa p) PTE_U) PTE_W) PTE_P = p * 4096 + 7.
Proof. rewrite <- !Z.lor_assoc. apply (lor_low p 7). lia. Qed.

Definition user_vpn (v : Z) : Prop := 0 <= v < USERTOP / 4096.
Definition user_pdx (d : Z) : Prop := 0 <= d < USERTOP / PTSIZE.

Lemma user_vpn_pdx v : user_vpn v -> 0 <= v < 2 ^ 20 /\ user_pdx (v / 1024).
Proof.
  unfold user_vpn, user_pdx. change (USERTOP / 4096) with 720896. change (USERTOP / PTSIZE) with 704. intros H.
  split; [lia|]. split; [apply Z.div_pos; lia|apply Z.div_lt_upper_bound; lia].
Qed.

(** ** Frames held by a map *)
Definition held (g : Z -> option Z) (m : gmap Z Z) : list Z := omap (fun kv => g kv.2) (map_to_list m).

Lemma held_insert g m k e : m !! k = None -> held g (<[k := e]> m) ≡ₚ option_list (g e) ++ held g m.
Proof. intros H. unfold held. rewrite map_to_list_insert by done. simpl. by destruct (g e). Qed.

Lemma held_delete g m k e : m !! k = Some e -> held g m ≡ₚ option_list (g e) ++ held g (delete k m).
Proof. intros H. unfold held. rewrite <- (map_to_list_delete m k e H). simpl. by destruct (g e). Qed.

Lemma held_elem g m k e f : m !! k = Some e -> g e = Some f -> f ∈ held g m.
Proof. intros H Hg. unfold held. apply list_elem_of_omap. exists (k, e). by rewrite elem_of_map_to_list. Qed.

Lemma held_inv g m f : f ∈ held g m -> exists k e, m !! k = Some e /\ g e = Some f.
Proof. unfold held. intros ([k e] & H & Hg)%list_elem_of_omap. apply elem_of_map_to_list in H. eauto. Qed.

(** The directory, the tables and the mapped pages of an address space. *)
Definition owned (pgdir : Z) (T M : gmap Z Z) : list Z := pgdir :: held Some T ++ held page_of M.

Section address_space.
Context `{FA : FrameAlloc} `{SM : SwapMgr}.

(** [T]: the table frames by directory index.  [M]: the nonzero entries by
    page number.  [U]: the frames the allocator manages, [F]: the free ones.
    Every table and page is held once and counted once. *)
Record AS (U F : gset Z) (s : pm) (pgdir : Z) (T M : gmap Z Z) : Prop := {
  as_pool : fa_rep U (fpool s) F;
  as_univ : forall f, f ∈ U -> 0 <= f < npage s /\ npage s <= 2 ^ 20;
  as_tab : forall d, user_pdx d -> word s pgdir d = from_option (fun f => f * 4096 + 7) 0 (T !! d);
  as_dom : forall d f, T !! d = Some f -> user_pdx d;
  as_ent : forall v f, user_vpn v -> T !! (v / 1024) = Some f -> word s f (v mod 1024) = default 0 (M !! v);
  as_in : forall v e, M !! v = Some e -> user_vpn v /\ is_Some (T !! (v / 1024)) /\ 0 < e < 2 ^ 32;
  as_nodup : NoDup (owned pgdir T M);
  as_own : forall f, f ∈ owned pgdir T M -> f ∈ U /\ f ∉ F;
  as_ref : forall f, f ∈ held Some T ++ held page_of M -> page_ref s f = 1;
  as_free : forall f, f ∈ F -> page_ref s f = 0
}.

(** Outside [L] nothing but the pool has changed. *)
Definition keeps (L : list Z) (s s' : pm) : Prop :=
  (npage s' = npage s /\ swp s' = swp s) /\ forall f, f ∉ L -> frame s' f = frame s f /\ page_ref s' f = page_ref s f.

Lemma word_frame (s s' : pm) f i : frame s' f = frame s f -> word s' f i = word s f i.
Proof. unfold word. by intros ->. Qed.

Lemma frame_set s f c g : frame (set_frame f c s) g = if g =? f then c else frame s g.
Proof. unfold frame, set_frame; simpl. zcase; subst; [by rewrite lookup_insert_eq|by rewrite lookup_insert_ne]. Qed.

Lemma word_set s f i w g j :
  word (set_word f i w s) g j = if (g =? f) && (j =? i) then w else word s g j.
Proof.
  unfold word, set_word. rewrite frame_set. destruct (Z.eqb_spec g f) as [->|Hne]; [|done].
  zcase; simpl; subst; [by rewrite lookup_insert_eq|by rewrite lookup_insert_ne].
Qed.

Lemma ref_set s f n g : page_ref (set_page_ref f n s) g = if g =? f then n else page_ref s g.
Proof. unfold page_ref, set_page_ref; simpl. zcase; subst; [by rewrite lookup_insert_eq|by rewrite lookup_insert_ne]. Qed.

(** An address space does not notice changes elsewhere. *)
Lemma AS_frame U F s pgdir T M L s' F' :
  AS U F s pgdir T M -> keeps L s s' -> fa_rep U (fpool s') F' ->
  (forall f, f ∈ owned pgdir T M -> f ∉ L /\ f ∉ F') -> (forall f, f ∈ F' -> page_ref s' f = 0) -> AS U F' s' pgdir T M.
Proof.
  intros H [[Hn _] Hk] Hp HL HF. assert (Hw : forall f i, f ∈ owned pgdir T M -> word s' f i = word s f i).
  { intros f i Hf. apply word_frame, Hk, HL, Hf. }
  constructor; try apply H; try done.
  - rewrite Hn. apply H.
  - intros d Hd. rewrite Hw by (unfold owned; set_solver). by apply H.
  - intros v f Hv Hf. rewrite Hw; [by apply H|]. unfold owned. right. apply elem_of_app; left. by eapply held_elem.
  - intros f Hf. split; [by apply H|by apply HL].
  - intros f Hf. destruct (Hk f) as [_ ->]; [apply HL; by right|]. by apply H.
Qed.

Lemma kaddr_ok U F s pgdir T M f : AS U F s pgdir T M -> f ∈ U -> KADDR s (page2pa f) = Ok f.
Proof.
  intros H Hf. unfold KADDR. rewrite ppn_pa. destruct (as_univ _ _ _ _ _ _ H f Hf). rewrite kassert_true; [done|]. zcase; lia || done.
Qed.

Lemma table_frame f : 0 <= f < 2 ^ 20 -> PPN (PTE_ADDR (f * 4096 + 7)) = f.
Proof. intros Hf. rewrite ppn_addr by lia. rewrite Z.div_add_l by lia. change (7 / 4096) with 0. lia. Qed.

Lemma kaddr_table U F s pgdir T M f : AS U F s pgdir T M -> f ∈ U -> KADDR s (PTE_ADDR (f * 4096 + 7)) = Ok f.
Proof.
  intros H Hf. destruct (as_univ _ _ _ _ _ _ H f Hf). unfold KADDR. rewrite table_frame by lia.
  rewrite kassert_true; [done|]. zcase; lia || done.
Qed.

Lemma as_table_in U F s pgdir T M d f : AS U F s pgdir T M -> T !! d = Some f -> f ∈ owned pgdir T M /\ f ∈ U /\ f ∉ F /\ f <> pgdir.
Proof.
  intros H Hf. assert (f ∈ owned pgdir T M) by (right; apply elem_of_app; left; by eapply held_elem).
  split; [done|]. destruct (as_own _ _ _ _ _ _ H f) as [? ?]; [done|]. split_and!; try done.
  pose proof (as_nodup _ _ _ _ _ _ H) as [Hnd _]%NoDup_cons. intros ->. apply Hnd. apply elem_of_app; left. by eapply held_elem.
Qed.

Lemma get_pte_found U F s pgdir T M v f create :
  AS U F s pgdir T M -> user_vpn v -> T !! (v / 1024) = Some f ->
  get_pte pgdir (v * 4096) create s = Ok (Some (f, v mod 1024), s).
Proof.
  intros H Hv Hf. destruct (user_vpn_pdx v Hv) as [Hv2 Hd]. unfold get_pte, get_pte_by. rewrite pdx_page, ptx_page by done.
  rewrite (as_tab _ _ _ _ _ _ H), Hf by done. simpl.
  rewrite present_odd. replace (f * 4096 + 7) with (1 + 2 * (f * 2048 + 3)) by lia. rewrite Z.odd_add_mul_2. simpl.
  replace (1 + 2 * (f * 2048 + 3)) with (f * 4096 + 7) by lia. rewrite (kaddr_table _ _ _ _ _ _ _ H); [done|].
  by eapply as_table_in.
Qed.

Lemma get_pte_missing U F s pgdir T M v :
  AS U F s pgdir T M -> user_vpn v -> T !! (v / 1024) = None -> get_pte pgdir (v * 4096) false s = Ok (None, s).
Proof.
  intros H Hv Hf. destruct (user_vpn_pdx v Hv) as [Hv2 Hd]. unfold get_pte, get_pte_by. rewrite pdx_page by done.
  by rewrite (as_tab _ _ _ _ _ _ H), Hf by done.
Qed.

(** With a free frame, or before swapping is set up. *)
Lemma alloc_page_ok U F s : fa_rep U (fpool s) F -> (F = ∅ -> swap_init_ok s = false) ->
  (F = ∅ /\ alloc_page s = Ok (None, s)) \/
  exists f p, f ∈ F /\ alloc_page s = Ok (Some f, set_fpool p s) /\ fa_rep U p (F ∖ {[ f ]}).
Proof.
  intros H Hoff. unfold alloc_page. assert (He : exists r p, fa_alloc (fpool s) = Ok (r, p) /\
    (r = None -> swap_init_ok s = false) /\ match r with None => p = fpool s /\ F = ∅ | Some f => f ∈ F /\ fa_rep U p (F ∖ {[ f ]}) end).
  { destruct (fa_alloc_ok _ _ _ H) as (r & p & Hf & Hr). exists r, p. split; [done|]. split; [|done]. intros ->. apply Hoff, Hr. }
  destruct He as (r & p & Hf & Ho & Hr).
  assert (Ha : alloc_retry (writes s) s = Ok (r, set_fpool p s)).
  { destruct (writes s); cbn [alloc_retry]; rewrite Hf; cbn [mbind res_bind]; change (swap_init_ok (set_fpool p s)) with (swap_init_ok s);
      (destruct r; [by rewrite bool_decide_eq_true_2|by rewrite (Ho eq_refl), orb_true_r]). }
  rewrite Ha. destruct r as [f|].
  - right. exists f, p. tauto.
  - destruct Hr as [-> ->]. left. split; [done|]. by destruct s.
Qed.

Lemma word_empty s f i : word (set_frame f ∅ s) f i = 0.
Proof. unfold word. by rewrite frame_set, Z.eqb_refl, lookup_empty. Qed.

Lemma as_no_table U F s pgdir T M v : AS U F s pgdir T M -> T !! (v / 1024) = None -> M !! v = None.
Proof.
  intros H Ht. destruct (M !! v) as [e|] eqn:E; [|done]. destruct (as_in _ _ _ _ _ _ H _ _ E) as (_ & [f Hf] & _). congruence.
Qed.

Lemma AS_alloc U F s pgdir T M q p :
  AS U F s pgdir T M -> fa_rep U p (F ∖ {[ q ]}) -> AS U (F ∖ {[ q ]}) (set_fpool p s) pgdir T M.
Proof.
  intros H Hp. eapply (AS_frame U F s pgdir T M []); [done|done|done|..].
  - intros f Hf. destruct (as_own _ _ _ _ _ _ H f Hf). set_solver.
  - intros f Hf. apply H. set_solver.
Qed.

Lemma alloc_fresh U F s pgdir T M q : AS U F s pgdir T M -> q ∈ F -> q ∈ U /\ 0 <= q /\ q ∉ owned pgdir T M /\ page_ref s q = 0.
Proof.
  intros H Hq. assert (q ∈ U) by (eapply fa_sub; [apply H|done]). split; [done|].
  split; [by eapply as_univ|]. split; [intros Ho; by destruct (as_own _ _ _ _ _ _ H q Ho)|by apply H].
Qed.

Lemma AS_swp U F s pgdir T M w : AS U F s pgdir T M -> AS U F (set_swp w s) pgdir T M.
Proof. intros []. by constructor. Qed.

(** A table in the frame [f] that [alloc_page] has returned. *)
Lemma get_pte_create U F0 M0 s0 F s pgdir T M v f :
  AS U F0 s0 pgdir T M0 -> user_vpn v -> T !! (v / 1024) = None -> alloc_page s0 = Ok (Some f, s) ->
  AS U F s pgdir T M -> f ∈ U -> f ∉ F -> f ∉ owned pgdir T M ->
  exists s', get_pte pgdir (v * 4096) true s0 = Ok (Some (f, v mod 1024), s') /\
    AS U F s' pgdir (<[v / 1024 := f]> T) M /\ keeps [pgdir; f] s s'.
Proof.
  intros H0 Hv Ht Ha H HfU Hf Hfo. destruct (user_vpn_pdx v Hv) as [Hv2 Hd]. pose proof (as_pool _ _ _ _ _ _ H) as Hp.
  destruct (as_univ _ _ _ _ _ _ H f HfU) as [Hfn Hnp].
  assert (Hfd : f <> pgdir) by (intros ->; apply Hfo; by left).
  unfold get_pte, get_pte_by. rewrite pdx_page, ptx_page by done. rewrite (as_tab _ _ _ _ _ _ H0), Ht by done.
  cbn [from_option]. change (Z.land 0 PTE_P =? 0) with true. cbn [negb]. cbv iota. rewrite Ha. simpl.
  assert (Hk : forall t, npage t = npage s -> KADDR t (page2pa f) = Ok f).
  { intros t E. unfold KADDR. rewrite ppn_pa, E. rewrite kassert_true; [done|]. zcase; lia || done. }
  rewrite Hk by done. simpl. rewrite word_set, !Z.eqb_refl, table_entry. simpl.
  assert (Hk2 : forall t, npage t = npage s -> KADDR t (PTE_ADDR (f * 4096 + 7)) = Ok f).
  { intros t E. unfold KADDR. rewrite table_frame, E by lia. rewrite kassert_true; [done|]. zcase; lia || done. }
  rewrite Hk2 by done. simpl. eexists; split; [done|].
  set (s' := set_word _ _ _ _). assert (Hkeep : keeps [pgdir; f] s s').
  { split; [done|]. intros g Hg. apply not_elem_of_cons in Hg as [Hg1 Hg2]. apply not_elem_of_cons in Hg2 as [Hg2 _]. split.
    - unfold s', set_word. rewrite frame_set. zcase; [done|]. rewrite frame_set. zcase; [done|done].
    - change (page_ref s' g) with (page_ref (set_page_ref f 1 s) g). rewrite ref_set. by zcase. }
  split; [|done].
  assert (Hheld : held Some (<[v / 1024 := f]> T) ≡ₚ f :: held Some T) by (by rewrite held_insert).
  assert (Hown : owned pgdir (<[v / 1024 := f]> T) M ≡ₚ f :: owned pgdir T M).
  { unfold owned. rewrite Hheld. simpl. by rewrite Permutation_swap. }
  constructor; try done.
  - apply H.
  - intros d Hdd. unfold s'. rewrite word_set, Z.eqb_refl. simpl. zcase; subst.
    + by rewrite lookup_insert_eq.
    + rewrite lookup_insert_ne by done. unfold word at 1. rewrite frame_set. zcase; [congruence|]. by apply H.
  - intros d g. destruct (decide (d = v / 1024)) as [->|Hne]; [done|]. rewrite lookup_insert_ne by done. apply H.
  - intros w g Hw. unfold s'. rewrite word_set. destruct (decide (w / 1024 = v / 1024)) as [E|Hne].
    + rewrite E, lookup_insert_eq. intros [= <-]. rewrite (proj2 (Z.eqb_neq f pgdir)) by done. simpl. rewrite word_empty.
      rewrite (as_no_table _ _ _ _ _ _ w H) by congruence. done.
    + rewrite lookup_insert_ne by done. intros Hg. destruct (as_table_in _ _ _ _ _ _ _ _ H Hg) as (Hgo & _ & _ & Hgp).
      rewrite (proj2 (Z.eqb_neq g pgdir)) by done. simpl. unfold word. rewrite frame_set.
      rewrite (proj2 (Z.eqb_neq g f)) by (intros ->; done). by apply H.
  - intros w e E. destruct (as_in _ _ _ _ _ _ H _ _ E) as (? & [g Hg] & ?). split; [done|]. split; [|done].
    destruct (decide (v / 1024 = w / 1024)) as [->|Hne]; [by rewrite lookup_insert_eq|by rewrite lookup_insert_ne].
  - rewrite Hown. constructor; [done|apply H].
  - intros g. rewrite Hown. intros [->|Hg]%elem_of_cons; [set_solver|]. destruct (as_own _ _ _ _ _ _ H g Hg). set_solver.
  - intros g. rewrite Hheld. simpl. intros [->|Hg]%elem_of_cons.
    + change (page_ref s' f) with (page_ref (set_page_ref f 1 s) f). by rewrite ref_set, Z.eqb_refl.
    + destruct Hkeep as [_ Hkeep]. destruct (Hkeep g) as [_ ->]; [|by apply H].
      pose proof (as_nodup _ _ _ _ _ _ H) as [Hnd _]%NoDup_cons.
      apply not_elem_of_cons; split; [by intros ->|]. apply not_elem_of_cons; split; [|by apply not_elem_of_nil].
      intros ->. apply Hfo. by right.
  - intros g Hg. destruct Hkeep as [_ Hkeep]. destruct (Hkeep g) as [_ ->]; [|by apply H].
    apply not_elem_of_cons; split; [|intros ->%list_elem_of_singleton; done]. intros ->. destruct (as_own _ _ _ _ _ _ H pgdir) as [_ ?]; [by left|done].
Qed.

(** The entry of [v] replaced in a table; [M'] differs at [v] only. *)
Lemma AS_write U F s pgdir T M v f w M' :
  AS U F s pgdir T M -> user_vpn v -> T !! (v / 1024) = Some f -> 0 <= w < 2 ^ 32 ->
  M' = (if w =? 0 then delete v M else <[v := w]> M) ->
  NoDup (owned pgdir T M') -> (forall g, g ∈ held page_of M' -> g ∈ U /\ g ∉ F /\ page_ref s g = 1) ->
  AS U F (set_pte (f, v mod 1024) w s) pgdir T M' /\ keeps [f] s (set_pte (f, v mod 1024) w s).
Proof.
  intros H Hv Hf Hw HM' Hnd Hpg. assert (HM : forall u, M' !! u = if decide (u = v) then (if w =? 0 then None else Some w) else M !! u).
  { intros u. rewrite HM'. case_decide; subst; destruct (w =? 0); by rewrite ?lookup_delete_eq, ?lookup_insert_eq, ?lookup_delete_ne, ?lookup_insert_ne. }
  clear HM'. destruct (as_table_in _ _ _ _ _ _ _ _ H Hf) as (Hfo & HfU & HfF & Hfp).
  assert (Hkeep : keeps [f] s (set_pte (f, v mod 1024) w s)).
  { split; [done|]. intros g Hg. apply not_elem_of_cons in Hg as [Hg _]. split; [|done]. unfold set_pte, set_word. rewrite frame_set. by zcase. }
  split; [|done]. constructor; try apply H; try done.
  - intros d Hd. rewrite (word_frame s); [by apply H|]. apply Hkeep. apply not_elem_of_cons; split; [done|by apply not_elem_of_nil].
  - intros u g Hu Hg. unfold set_pte. simpl. rewrite word_set, HM. case_decide as E; subst.
    + replace g with f by congruence. rewrite !Z.eqb_refl. simpl. zcase; subst; done.
    + destruct ((g =? f) && (u mod 1024 =? v mod 1024)) eqn:Hc; [|by apply H]. exfalso.
      apply andb_true_iff in Hc as [->%Z.eqb_eq Hm%Z.eqb_eq]. apply E.
      rewrite (Z.div_mod u 1024), (Z.div_mod v 1024) by lia. rewrite Hm. f_equal. f_equal.
      (* two indices with the same frame *)
      destruct (decide (u / 1024 = v / 1024)) as [|Hne]; [done|]. exfalso.
      pose proof (as_nodup _ _ _ _ _ _ H) as [_ [Hn1 _]%NoDup_app]%NoDup_cons.
      rewrite (held_delete Some T (v / 1024) f Hf) in Hn1. simpl in Hn1. apply NoDup_cons in Hn1 as [Hn1 _]. apply Hn1.
      eapply held_elem; [rewrite lookup_delete_ne; [exact Hg|done]|done].
  - intros u e. rewrite HM. case_decide; subst; [|apply H]. zcase; [done|]. intros [= <-]. split; [done|]. split; [by eexists|lia].
  - intros g. unfold owned. intros Hg. apply elem_of_cons in Hg as [->|Hg]; [apply H; by left|].
    apply elem_of_app in Hg as [Hg|Hg]; [apply H; right; apply elem_of_app; by left|]. by destruct (Hpg g Hg) as (? & ? & _).
  - intros g [Hg|Hg]%elem_of_app.
    + change (page_ref (set_pte (f, v mod 1024) w s) g) with (page_ref s g). apply H. apply elem_of_app; by left.
    + by destruct (Hpg g Hg) as (_ & _ & ?).
Qed.

(** The frames that are free or held by the address space. *)
Definition acct (F : gset Z) (pgdir : Z) (T M : gmap Z Z) : gset Z := F ∪ list_to_set (owned pgdir T M).

Lemma elem_of_owned pgdir T M f : f ∈ owned pgdir T M <-> f = pgdir \/ f ∈ held Some T \/ f ∈ held page_of M.
Proof. unfold owned. by rewrite elem_of_cons, elem_of_app. Qed.

Lemma owned_delete pgdir T M v e :
  M !! v = Some e -> owned pgdir T M ≡ₚ option_list (page_of e) ++ owned pgdir T (delete v M).
Proof.
  intros E. unfold owned. rewrite (held_delete page_of M v e E). destruct (page_of e) as [p|]; simpl; [|done].
  rewrite <- Permutation_middle. by rewrite Permutation_swap.
Qed.

Lemma owned_insert pgdir T M v e :
  M !! v = None -> owned pgdir T (<[v := e]> M) ≡ₚ option_list (page_of e) ++ owned pgdir T M.
Proof. intros E. rewrite (owned_delete _ _ _ v e) by apply lookup_insert_eq. by rewrite delete_insert_id. Qed.

Lemma acct_give F pgdir T M T' M' p :
  owned pgdir T M ≡ₚ p :: owned pgdir T' M' -> acct ({[ p ]} ∪ F) pgdir T' M' = acct F pgdir T M.
Proof.
  intros H. unfold acct. rewrite (list_to_set_perm_L _ _ H), list_to_set_cons. generalize (owned pgdir T' M'). clear. intros l.
  apply set_eq. intros x. rewrite !elem_of_union. tauto.
Qed.

Lemma acct_take F pgdir T M T' M' p :
  owned pgdir T' M' ≡ₚ p :: owned pgdir T M -> acct F pgdir T' M' = {[ p ]} ∪ acct F pgdir T M.
Proof.
  intros H. unfold acct. rewrite (list_to_set_perm_L _ _ H), list_to_set_cons. generalize (owned pgdir T M). clear. intros l.
  apply set_eq. intros x. rewrite !elem_of_union. tauto.
Qed.

Lemma AS_clear U F s pgdir T M v e f :
  AS U F s pgdir T M -> M !! v = Some e -> T !! (v / 1024) = Some f ->
  AS U F (set_pte (f, v mod 1024) 0 s) pgdir T (delete v M) /\ keeps [f] s (set_pte (f, v mod 1024) 0 s).
Proof.
  intros H E Hf. destruct (as_in _ _ _ _ _ _ H _ _ E) as (Hv & _ & _). apply AS_write with (M := M); try done.
  - pose proof (as_nodup _ _ _ _ _ _ H) as Hnd. rewrite (owned_delete _ _ _ _ _ E) in Hnd. by apply NoDup_app in Hnd as (_ & _ & ?).
  - intros g Hg. assert (g ∈ owned pgdir T M) as Ho.
    { rewrite (owned_delete _ _ _ _ _ E), elem_of_app, elem_of_owned. auto. }
    destruct (as_own _ _ _ _ _ _ H g Ho). split_and!; try done. apply H. apply elem_of_app; right.
    rewrite (held_delete _ _ _ _ E). apply elem_of_app. by right.
Qed.

Lemma as_page U F s pgdir T M v e p :
  AS U F s pgdir T M -> M !! v = Some e -> page_of e = Some p ->
  p ∈ U /\ p ∉ F /\ page_ref s p = 1 /\ p ∉ owned pgdir T (delete v M) /\ p <> pgdir /\ p ∉ held Some T /\ p ∈ owned pgdir T M.
Proof.
  intros H E Hp. pose proof (as_nodup _ _ _ _ _ _ H) as Hnd. rewrite (owned_delete _ _ _ _ _ E), Hp in Hnd. simpl in Hnd.
  apply NoDup_cons in Hnd as [Hno _]. pose proof (held_elem page_of M v e p E Hp) as Hh.
  assert (p ∈ owned pgdir T M) by (apply elem_of_owned; auto). destruct (as_own _ _ _ _ _ _ H p) as [? ?]; [done|].
  split_and!; try done; [apply H; apply elem_of_app; by right|..]; intros ?; apply Hno; apply elem_of_owned; subst; auto.
Qed.

Lemma AS_free U F s pgdir T M p :
  AS U F s pgdir T M -> p ∈ U -> p ∉ F -> p ∉ owned pgdir T M ->
  exists s', free_page p s = Ok s' /\ AS U ({[ p ]} ∪ F) s' pgdir T M /\ keeps [p] s s'.
Proof.
  intros H HU HF Ho. unfold free_page. destruct (fa_free_ok _ _ _ _ (as_pool _ _ _ _ _ _ H) HU HF) as (q & -> & Hq). simpl.
  eexists; split; [done|]. assert (Hk : keeps [p] s (set_page_ref p 0 (set_fpool q s))).
  { split; [done|]. intros g Hg. apply not_elem_of_cons in Hg as [Hg _]. split; [done|]. rewrite ref_set. by zcase. }
  split; [|done]. eapply AS_frame; [done|done|done|..].
  - intros f Hf. destruct (as_own _ _ _ _ _ _ H f Hf).
    assert (f <> p) by congruence. set_solver.
  - intros f Hf. rewrite ref_set. zcase; [done|]. apply H. set_solver.
Qed.

Lemma keeps_trans L L' s s1 s2 : keeps L s s1 -> keeps L' s1 s2 -> keeps (L ++ L') s s2.
Proof.
  intros [[Hn1 Hw1] H1] [[Hn2 Hw2] H2]. split; [split; congruence|]. intros f Hf. apply not_elem_of_app in Hf as [Hf1 Hf2].
  destruct (H1 f Hf1), (H2 f Hf2). split; congruence.
Qed.

Lemma keeps_sub L L' s s' : L ⊆ L' -> keeps L s s' -> keeps L' s s'.
Proof. intros Hs [Hn H]. split; [done|]. intros f Hf. apply H. set_solver. Qed.

Lemma page_of_present e : negb (Z.land e PTE_P =? 0) = bool_decide (is_Some (page_of e)).
Proof.
  rewrite present_odd, negb_involutive. unfold page_of. destruct (Z.odd e).
  - by rewrite bool_decide_eq_true_2 by eauto.
  - rewrite bool_decide_eq_false_2; [done|]. by intros [? ?].
Qed.

Lemma pte2page_ok U F s pgdir T M e p :
  AS U F s pgdir T M -> 0 <= e < 2 ^ 32 -> page_of e = Some p -> p ∈ U -> pte2page s e = Ok p.
Proof.
  intros H He Hp HU. unfold pte2page, pa2page. rewrite page_of_present, bool_decide_eq_true_2 by eauto. simpl.
  rewrite ppn_addr by done. unfold page_of in Hp. destruct (Z.odd e); [|done]. injection Hp as ->.
  destruct (as_univ _ _ _ _ _ _ H p HU). rewrite kassert_true; [done|]. zcase; lia || done.
Qed.

Lemma free_page_frames p s s' g : free_page p s = Ok s' -> frame s' g = frame s g.
Proof. unfold free_page. destruct (fa_free p (fpool s)); [|done..]. by intros [= <-]. Qed.

Lemma free_page_pte p e w s : free_page p (set_pte e w s) = (s ← free_page p s; Ok (set_pte e w s)).
Proof. unfold free_page. simpl. by destruct (fa_free p (fpool s)). Qed.

Lemma pte_at_ent U F s pgdir T M v f :
  AS U F s pgdir T M -> user_vpn v -> T !! (v / 1024) = Some f -> pte_at s (f, v mod 1024) = default 0 (M !! v).
Proof. intros H. apply H. Qed.

(** Removing a mapping frees its page. *)
Lemma page_remove_pte_present U F s pgdir T M v e f p :
  AS U F s pgdir T M -> M !! v = Some e -> T !! (v / 1024) = Some f -> page_of e = Some p ->
  exists s', page_remove_pte (f, v mod 1024) s = Ok s' /\ AS U ({[ p ]} ∪ F) s' pgdir T (delete v M) /\
    keeps [f; p] s s' /\ acct ({[ p ]} ∪ F) pgdir T (delete v M) = acct F pgdir T M /\
    (forall g, g <> f -> frame s' g = frame s g).
Proof.
  intros H E Hf Hp. destruct (as_in _ _ _ _ _ _ H _ _ E) as (Hv & _ & He).
  destruct (as_page _ _ _ _ _ _ _ _ _ H E Hp) as (HU & HF & Hr & Hno & _).
  unfold page_remove_pte. rewrite (pte_at_ent _ _ _ _ _ _ _ _ H Hv Hf), E. simpl.
  rewrite page_of_present, bool_decide_eq_true_2 by eauto. rewrite (pte2page_ok _ _ _ _ _ _ _ p H) by (done || lia). simpl.
  unfold page_ref_dec at 1. rewrite ref_set, Z.eqb_refl, Hr. simpl.
  destruct (AS_clear _ _ _ _ _ _ _ _ _ H E Hf) as [H1 K1]. set (s1 := set_pte (f, v mod 1024) 0 s) in *.
  assert (K2 : keeps [p] s1 (page_ref_dec p s1)).
  { split; [done|]. intros g Hg. apply not_elem_of_cons in Hg as [Hg _]. split; [done|]. unfold page_ref_dec. rewrite ref_set. by zcase. }
  assert (H2 : AS U F (page_ref_dec p s1) pgdir T (delete v M)).
  { eapply AS_frame; [exact H1|exact K2|apply H1|..].
    - intros g Hg. destruct (as_own _ _ _ _ _ _ H1 g Hg). assert (g <> p) by congruence. set_solver.
    - intros g Hg. destruct K2 as [_ K2]. destruct (K2 g) as [_ ->]; [|by apply H1]. assert (g <> p) by congruence. set_solver. }
  destruct (AS_free _ _ _ _ _ _ p H2) as (s3 & Hs3 & H3 & K3); [done..|].
  assert (Fr : forall g, frame s3 g = frame s1 g) by (intros g; by apply (free_page_frames _ _ _ g) in Hs3).
  change (page_ref_dec p s1) with (set_pte (f, v mod 1024) 0 (page_ref_dec p s)) in Hs3. rewrite free_page_pte in Hs3.
  change (1 - 1 =? 0) with true. cbv iota. apply res_bind_inv in Hs3 as (s2 & -> & [= <-]). simpl. eexists; split; [done|].
  split; [done|]. split.
  - eapply keeps_sub; [|eapply keeps_trans; [exact K1|eapply keeps_trans; [exact K2|exact K3]]]. set_solver.
  - split; [apply acct_give; by rewrite (owned_delete pgdir T M v e E), Hp|]. intros g Hg.
    rewrite Fr. apply K1. set_solver.
Qed.

Lemma page_remove_pte_absent U F s pgdir T M v f :
  AS U F s pgdir T M -> user_vpn v -> T !! (v / 1024) = Some f -> page_of (default 0 (M !! v)) = None ->
  page_remove_pte (f, v mod 1024) s = Ok s.
Proof.
  intros H Hv Hf Hp. unfold page_remove_pte. rewrite (pte_at_ent _ _ _ _ _ _ _ _ H Hv Hf), page_of_present, Hp. done.
Qed.

(** ** Ranges *)

(** What is left of [M] when the pages from [lo] to [hi] are unmapped; entries
    of pages that are swapped out stay. *)
Definition cut (lo hi : Z) (M : gmap Z Z) : gmap Z Z :=
  filter (fun kv => ~ (lo <= kv.1 < hi /\ is_Some (page_of kv.2))) M.

Lemma cut_lookup lo hi M v :
  cut lo hi M !! v = match M !! v with
                     | Some e => if bool_decide (lo <= v < hi /\ is_Some (page_of e)) then None else Some e
                     | None => None
                     end.
Proof.
  unfold cut. destruct (M !! v) as [e|] eqn:E.
  - case_bool_decide as Hc.
    + apply map_lookup_filter_None. right. intros e' He'. simplify_eq. simpl. tauto.
    + apply map_lookup_filter_Some. done.
  - apply map_lookup_filter_None. by left.
Qed.

Lemma cut_absent lo hi M :
  (forall e, M !! lo = Some e -> page_of e = None) -> cut lo hi M = cut (lo + 1) hi M.
Proof.
  intros Hp. apply map_eq. intros v. rewrite !cut_lookup. destruct (M !! v) as [e|] eqn:E; [|done].
  rewrite (bool_decide_ext _ (lo + 1 <= v < hi /\ is_Some (page_of e))); [done|]. split; intros [? Hs]; (split; [|done]); [|lia].
  destruct (decide (v = lo)) as [->|?]; [|lia]. rewrite (Hp _ E) in Hs. by destruct Hs.
Qed.

Lemma cut_present lo hi M e :
  lo < hi -> M !! lo = Some e -> is_Some (page_of e) -> cut lo hi M = cut (lo + 1) hi (delete lo M).
Proof.
  intros Hlt E Hp. rewrite <- (cut_absent lo hi (delete lo M)) by (intros e'; by rewrite lookup_delete_eq).
  apply map_eq. intros v. rewrite !cut_lookup. destruct (decide (v = lo)) as [->|Hne].
  - rewrite lookup_delete_eq, E. by rewrite bool_decide_eq_true_2 by (split; [lia|done]).
  - by rewrite lookup_delete_ne.
Qed.

Lemma cut_skip U F s pgdir T M lo hi nx :
  AS U F s pgdir T M -> T !! (lo / 1024) = None -> nx = (lo / 1024 + 1) * 1024 -> cut lo hi M = cut nx hi M.
Proof.
  intros H Ht ->. apply map_eq. intros v. rewrite !cut_lookup. destruct (M !! v) as [e|] eqn:E; [|done].
  destruct (as_in _ _ _ _ _ _ H _ _ E) as (_ & [f Hf] & _).
  assert (v / 1024 <> lo / 1024) by congruence.
  rewrite (bool_decide_ext _ ((lo / 1024 + 1) * 1024 <= v < hi /\ is_Some (page_of e))); [done|].
  split; intros [? ?]; (split; [|done]).
  - split; [|lia]. assert (lo / 1024 <= v / 1024) by (apply Z.div_le_mono; lia).
    pose proof (Z.mul_div_le v 1024). lia.
  - pose proof (Z.mul_succ_div_gt lo 1024). lia.
Qed.

Lemma next_table lo : 0 <= lo < 720896 -> ROUNDDOWN (u32 (lo * 4096 + PTSIZE)) PTSIZE = (lo / 1024 + 1) * 1024 * 4096.
Proof.
  intros Hlo. change PTSIZE with 4194304. rewrite u32_small by lia. unfold ROUNDDOWN.
  replace (lo * 4096 + 4194304) with (lo * 4096 + 1 * 4194304) by lia. rewrite Z.mod_add by lia.
  replace 4194304 with (1024 * 4096) by lia. rewrite Z.mul_mod_distr_r by lia. pose proof (Z.div_mod lo 1024). lia.
Qed.

Lemma next_page lo : 0 <= lo < 720896 -> u32 (lo * 4096 + PGSIZE) = (lo + 1) * 4096.
Proof. intros Hlo. change PGSIZE with 4096. rewrite u32_small by lia. lia. Qed.

Lemma more_pages nx hi : 0 < nx -> negb (nx * 4096 =? 0) && (nx * 4096 <? hi * 4096) = (nx <? hi).
Proof. intros Hn. repeat zcase; simpl; lia || done. Qed.

Lemma div_next lo : 0 <= lo -> lo < (lo / 1024 + 1) * 1024.
Proof. intros. pose proof (Z.mul_succ_div_gt lo 1024). lia. Qed.

Lemma unmap_loop_ok U pgdir T fuel : forall F s M lo hi,
  AS U F s pgdir T M -> 0 <= lo < hi -> hi <= 720896 -> (Z.to_nat (hi - lo) <= fuel)%nat ->
  exists s' F', unmap_loop fuel pgdir (lo * 4096) (hi * 4096) s = Ok s' /\ AS U F' s' pgdir T (cut lo hi M) /\
    keeps (owned pgdir T M) s s' /\ acct F' pgdir T (cut lo hi M) = acct F pgdir T M.
Proof.
  induction fuel as [|fuel IH]; intros F s M lo hi H Hlo Hhi Hfuel; [lia|]. simpl.
  assert (Hv : user_vpn lo) by (unfold user_vpn; change (USERTOP / 4096) with 720896; lia).
  (* the rest of the loop from [nx] on, after one round *)
  assert (Hrest : forall nx F1 s1 M1, lo < nx -> AS U F1 s1 pgdir T M1 -> cut lo hi M = cut nx hi M1 ->
    keeps (owned pgdir T M) s s1 -> acct F1 pgdir T M1 = acct F pgdir T M -> (forall f, f ∈ owned pgdir T M1 -> f ∈ owned pgdir T M) ->
    exists s' F', (if negb (nx * 4096 =? 0) && (nx * 4096 <? hi * 4096) then unmap_loop fuel pgdir (nx * 4096) (hi * 4096) s1 else Ok s1) = Ok s' /\
      AS U F' s' pgdir T (cut lo hi M) /\ keeps (owned pgdir T M) s s' /\ acct F' pgdir T (cut lo hi M) = acct F pgdir T M).
  { intros nx F1 s1 M1 Hnx H1 Hc K1 A1 Hsub. rewrite more_pages by lia. zcase.
    - destruct (IH F1 s1 M1 nx hi H1) as (s' & F' & -> & H' & K' & A'); [lia..|]. rewrite Hc. exists s', F'. split_and!; try done.
      + eapply keeps_sub; [|eapply keeps_trans; [exact K1|exact K']]. set_solver.
      + congruence.
    - exists s1, F1. rewrite Hc. replace (cut nx hi M1) with M1; [done|]. apply map_eq. intros v. rewrite cut_lookup.
      destruct (M1 !! v) as [e|]; [|done]. by rewrite bool_decide_eq_false_2 by lia. }
  assert (K0 : keeps (owned pgdir T M) s s) by done.
  destruct (T !! (lo / 1024)) as [f|] eqn:Hf.
  - rewrite (get_pte_found _ _ _ _ _ _ _ _ _ H Hv Hf). simpl. rewrite (pte_at_ent _ _ _ _ _ _ _ _ H Hv Hf).
    destruct (M !! lo) as [e|] eqn:E; simpl.
    + destruct (as_in _ _ _ _ _ _ H _ _ E) as (_ & _ & He). rewrite (proj2 (Z.eqb_neq e 0)) by lia. simpl.
      destruct (page_of e) as [p|] eqn:Hp.
      * destruct (page_remove_pte_present _ _ _ _ _ _ _ _ _ _ H E Hf Hp) as (s1 & -> & H1 & K1 & A1 & _). simpl.
        rewrite next_page by lia. eapply Hrest; [lia|exact H1| |..|exact A1|].
        -- eapply cut_present; [lia|done|]. rewrite Hp. eauto.
        -- eapply keeps_sub; [|exact K1]. intros g [->|[->|[]%elem_of_nil]%elem_of_cons]%elem_of_cons.
           ++ by eapply as_table_in.
           ++ by eapply as_page.
        -- intros g Hg. rewrite (owned_delete _ _ _ _ _ E). apply elem_of_app. by right.
      * rewrite (page_remove_pte_absent _ _ _ _ _ _ _ _ H Hv Hf) by (by rewrite E). simpl. rewrite next_page by lia.
        eapply Hrest; [lia|exact H| |done..]. apply cut_absent. congruence.
    + rewrite next_page by lia. eapply Hrest; [lia|exact H| |done..]. apply cut_absent. congruence.
  - rewrite (get_pte_missing _ _ _ _ _ _ _ H Hv Hf). simpl. rewrite next_table by lia.
    eapply Hrest; [apply div_next; lia|exact H| |done..]. by eapply cut_skip.
Qed.

(** The tables, and the entries in them, that [exit_range] leaves when it
    starts at the table [a]. *)
Definition in_tables (a hi d : Z) : Prop := a <= d /\ d * 1024 < hi.
Definition drop_tables (a hi : Z) (T : gmap Z Z) : gmap Z Z := filter (fun kv => ~ in_tables a hi kv.1) T.
Definition drop_entries (a hi : Z) (M : gmap Z Z) : gmap Z Z := filter (fun kv => ~ in_tables a hi (kv.1 / 1024)) M.

Lemma held_filter g (P : Z * Z -> Prop) `{!forall x, Decision (P x)} m :
  (forall k e, m !! k = Some e -> ~ P (k, e) -> g e = None) -> held g (filter P m) ≡ₚ held g m.
Proof.
  induction m as [|k e m Hk IH] using map_ind; intros Hn; [done|].
  assert (IH' : held g (filter P m) ≡ₚ held g m).
  { apply IH. intros k' e' E. apply Hn. rewrite lookup_insert_ne; [done|]. intros ->. congruence. }
  destruct (decide (P (k, e))) as [Hp|Hp].
  - rewrite map_filter_insert_True by done. rewrite !held_insert; [by rewrite IH'|done|]. apply map_lookup_filter_None. by left.
  - rewrite map_filter_insert_not' by (done || (intros y Hy; congruence)). rewrite held_insert by done.
    rewrite (Hn k e); [done|apply lookup_insert_eq|done].
Qed.

(** One table given back. *)
Lemma AS_drop U F s pgdir T M d f :
  AS U F s pgdir T M -> T !! d = Some f ->
  (forall v e, M !! v = Some e -> v / 1024 = d -> page_of e = None) ->
  let M' := filter (fun kv => kv.1 / 1024 <> d) M in
  exists s', (s ← free_page f s; Ok (set_word pgdir d 0 s)) = Ok s' /\ AS U ({[ f ]} ∪ F) s' pgdir (delete d T) M' /\
    keeps [f; pgdir] s s' /\ acct ({[ f ]} ∪ F) pgdir (delete d T) M' = acct F pgdir T M /\ owned pgdir T M ≡ₚ f :: owned pgdir (delete d T) M'.
Proof.
  intros H Hf Hn M'. destruct (as_table_in _ _ _ _ _ _ _ _ H Hf) as (Hfo & HfU & HfF & Hfp).
  assert (HM : held page_of M' ≡ₚ held page_of M).
  { unfold M'. apply held_filter. intros v e E Hd. simpl in Hd. apply (Hn v e E). lia. }
  assert (HT : held Some T ≡ₚ f :: held Some (delete d T)) by (by rewrite (held_delete Some T d f Hf)).
  assert (Hown : owned pgdir T M ≡ₚ f :: owned pgdir (delete d T) M').
  { unfold owned. rewrite HT, HM. simpl. by rewrite Permutation_swap. }
  pose proof (as_nodup _ _ _ _ _ _ H) as Hnd. rewrite Hown in Hnd. apply NoDup_cons in Hnd as [Hfn Hnd].
  unfold free_page. destruct (fa_free_ok _ _ _ _ (as_pool _ _ _ _ _ _ H) HfU HfF) as (q & -> & Hq). simpl.
  eexists; split; [done|]. set (s1 := set_page_ref f 0 (set_fpool q s)).
  assert (K : keeps [f; pgdir] s (set_word pgdir d 0 s1)).
  { split; [done|]. intros g Hg. apply not_elem_of_cons in Hg as [Hg1 Hg2]. apply not_elem_of_cons in Hg2 as [Hg2 _]. split.
    - unfold set_word. rewrite frame_set. zcase; [done|]. done.
    - change (page_ref (set_word pgdir d 0 s1) g) with (page_ref s1 g). unfold s1. rewrite ref_set. by zcase. }
  assert (HMl : forall v, M' !! v = if decide (v / 1024 = d) then None else M !! v).
  { intros v. unfold M'. case_decide as Hv.
    - apply map_lookup_filter_None. right. intros e _. simpl. tauto.
    - destruct (M !! v) as [e|] eqn:E; [by apply map_lookup_filter_Some|]. apply map_lookup_filter_None. by left. }
  split; [|split; [exact K|split; [|exact Hown]]].
  - constructor; try done.
    + apply H.
    + intros d' Hd'. rewrite word_set, Z.eqb_refl. simpl. destruct (Z.eqb_spec d' d) as [->|Hne].
      * by rewrite lookup_delete_eq.
      * rewrite lookup_delete_ne by done. by apply H.
    + intros d' g. rewrite lookup_delete_Some. intros [_ Hg]. by eapply as_dom.
    + intros v g Hv. rewrite lookup_delete_Some. intros [Hne Hg]. rewrite word_set.
      destruct (as_table_in _ _ _ _ _ _ _ _ H Hg) as (_ & _ & _ & Hgp). rewrite (proj2 (Z.eqb_neq g pgdir)) by done. simpl.
      change (word s1 g (v mod 1024)) with (word s g (v mod 1024)). rewrite HMl, decide_False by congruence. by apply H.
    + intros v e. rewrite HMl. case_decide; [done|]. intros E. destruct (as_in _ _ _ _ _ _ H _ _ E) as (? & ? & ?).
      split; [done|]. split; [|done]. by rewrite lookup_delete_ne.
    + intros g Hg. assert (g ∈ owned pgdir T M) as Ho by (rewrite Hown; by right). destruct (as_own _ _ _ _ _ _ H g Ho).
      split; [done|]. assert (g <> f) by congruence. set_solver.
    + intros g Hg. change (page_ref (set_word pgdir d 0 s1) g) with (page_ref s1 g). unfold s1. rewrite ref_set. zcase; subst.
      * exfalso. apply Hfn. unfold owned. by right.
      * change (page_ref (set_fpool q s) g) with (page_ref s g). apply H. rewrite HT, <- HM. simpl. by right.
    + intros g Hg. change (page_ref (set_word pgdir d 0 s1) g) with (page_ref s1 g). unfold s1. rewrite ref_set. zcase; [done|].
      apply (as_free _ _ _ _ _ _ H). set_solver.
  - by apply acct_give.
Qed.

Lemma drop_tables_end a hi T : ~ (a * 1024 < hi) -> drop_tables a hi T = T.
Proof. intros H. apply map_filter_id. intros d f _ [? ?]. simpl in *. nia. Qed.
Lemma drop_entries_end a hi M : ~ (a * 1024 < hi) -> drop_entries a hi M = M.
Proof. intros H. apply map_filter_id. intros d f _ [? ?]. simpl in *. nia. Qed.

Lemma drop_tables_step a hi T : a * 1024 < hi -> drop_tables a hi T = drop_tables (a + 1) hi (delete a T).
Proof.
  intros Ha. apply map_eq. intros d. apply option_eq. intros f. unfold drop_tables. rewrite !map_lookup_filter_Some, lookup_delete_Some.
  unfold in_tables. simpl. split; intros Hd.
  - destruct Hd as [Hd1 Hd2]. split_and!; [|done|]; intros ?; subst; lia.
  - destruct Hd as [[Hd1 Hd2] Hd3]. split; [done|]. intros ?. lia.
Qed.
Lemma drop_entries_step a hi M :
  a * 1024 < hi -> drop_entries a hi M = drop_entries (a + 1) hi (filter (fun kv => kv.1 / 1024 <> a) M).
Proof.
  intros Ha. apply map_eq. intros d. apply option_eq. intros f. unfold drop_entries. rewrite !map_lookup_filter_Some.
  unfold in_tables. simpl. split; intros Hd.
  - destruct Hd as [Hd1 Hd2]. split_and!; [done| |]; intros ?; subst; lia.
  - destruct Hd as [[Hd1 Hd2] Hd3]. split; [done|]. intros ?. lia.
Qed.

Lemma next_exit a : 0 <= a < 704 -> u32 (a * 1024 * 4096 + PTSIZE) = (a + 1) * 1024 * 4096.
Proof. intros Ha. change PTSIZE with 4194304. rewrite u32_small by lia. lia. Qed.

Lemma exit_loop_ok U pgdir fuel : forall F s T M a hi,
  AS U F s pgdir T M -> 0 <= a -> a * 1024 < hi -> hi <= 720896 -> (Z.to_nat (704 - a) <= fuel)%nat ->
  (forall v e, M !! v = Some e -> in_tables a hi (v / 1024) -> page_of e = None) ->
  exists s' F', exit_loop fuel pgdir (a * 1024 * 4096) (hi * 4096) s = Ok s' /\
    AS U F' s' pgdir (drop_tables a hi T) (drop_entries a hi M) /\ keeps (owned pgdir T M) s s' /\
    acct F' pgdir (drop_tables a hi T) (drop_entries a hi M) = acct F pgdir T M.
Proof.
  induction fuel as [|fuel IH]; intros F s T M a hi H Ha Hhi Hu Hfuel Hn; [lia|]. simpl.
  assert (Hd : user_pdx a) by (unfold user_pdx; change (USERTOP / PTSIZE) with 704; lia).
  assert (Hpdx : PDX (a * 1024 * 4096) = a) by (rewrite pdx_page by lia; by rewrite Z.div_mul by lia).
  rewrite Hpdx, (as_tab _ _ _ _ _ _ H a Hd), next_exit by lia.
  set (T1 := delete a T). set (M1 := filter (fun kv => kv.1 / 1024 <> a) M).
  assert (Hone : exists s1 F1, (if negb (Z.land (from_option (fun f => f * 4096 + 7) 0 (T !! a)) PTE_P =? 0) then
       t ← pde2page s (from_option (fun f => f * 4096 + 7) 0 (T !! a)); s ← free_page t s; Ok (set_word pgdir a 0 s) else Ok s) = Ok s1 /\
     AS U F1 s1 pgdir T1 M1 /\ keeps (owned pgdir T M) s s1 /\ acct F1 pgdir T1 M1 = acct F pgdir T M /\
     (forall f, f ∈ owned pgdir T1 M1 -> f ∈ owned pgdir T M)).
  { destruct (T !! a) as [f|] eqn:Hf; simpl.
    - destruct (as_table_in _ _ _ _ _ _ _ _ H Hf) as (Hfo & HfU & _). destruct (as_univ _ _ _ _ _ _ H f HfU) as [Hfn Hnp].
      rewrite page_of_present, bool_decide_eq_true_2 by (rewrite page_of_entry by done; eauto).
      unfold pde2page, pa2page. rewrite table_frame by lia. rewrite kassert_true by (zcase; lia || done). simpl.
      destruct (AS_drop _ _ _ _ _ _ a f H Hf) as (s1 & Hs1 & H1 & K1 & A1 & P1).
      { intros v e E Hv. apply (Hn v e E). unfold in_tables. lia. }
      exists s1, ({[ f ]} ∪ F). split; [exact Hs1|]. split; [exact H1|]. split; [|split; [exact A1|]].
      + eapply keeps_sub; [|exact K1]. intros g [->|[->|[]%elem_of_nil]%elem_of_cons]%elem_of_cons; [done|]. by left.
      + intros g Hg. rewrite P1. by right.
    - exists s, F. unfold T1, M1. rewrite delete_id by done. rewrite map_filter_id.
      + by split_and!.
      + intros v e E. simpl. intros Hv. rewrite (as_no_table _ _ _ _ _ _ v H) in E; [done|congruence]. }
  destruct Hone as (s1 & F1 & -> & H1 & K1 & A1 & Hsub). simpl.
  rewrite drop_tables_step, drop_entries_step by done. fold T1 M1.
  replace ((a + 1) * 1024 * 4096) with (((a + 1) * 1024) * 4096) by lia. rewrite more_pages by lia. zcase.
  - destruct (IH F1 s1 T1 M1 (a + 1) hi H1) as (s' & F' & -> & H' & K' & A'); [lia..| |].
    { intros v e E [Hv1 Hv2]. unfold M1 in E. apply map_lookup_filter_Some in E as [E _]. apply (Hn v e E). unfold in_tables. lia. }
    exists s', F'. split_and!; try done; [|congruence]. eapply keeps_sub; [|eapply keeps_trans; [exact K1|exact K']]. set_solver.
  - rewrite drop_tables_end, drop_entries_end by lia. exists s1, F1. done.
Qed.

(** ** Insertion *)

Lemma AS_put U F s pgdir T M v f p x :
  AS U F s pgdir T M -> user_vpn v -> T !! (v / 1024) = Some f -> page_of (default 0 (M !! v)) = None ->
  p ∈ U -> p ∉ F -> p ∉ owned pgdir T M -> page_ref s p = 1 -> 0 <= x < 8 -> Z.odd x = true ->
  AS U F (set_pte (f, v mod 1024) (p * 4096 + x) s) pgdir T (<[v := p * 4096 + x]> M) /\
  keeps [f] s (set_pte (f, v mod 1024) (p * 4096 + x) s) /\
  owned pgdir T (<[v := p * 4096 + x]> M) ≡ₚ p :: owned pgdir T M.
Proof.
  intros H Hv Hf Hold HU HF Ho Hr Hx Hodd. destruct (as_univ _ _ _ _ _ _ H p HU) as [Hp Hn].
  assert (Hpg : page_of (p * 4096 + x) = Some p) by (apply page_of_entry; [lia|done]).
  assert (Hw : p * 4096 + x <> 0) by (intros E; rewrite E in Hpg; done).
  assert (Hown : owned pgdir T (<[v := p * 4096 + x]> M) ≡ₚ p :: owned pgdir T M).
  { rewrite <- insert_delete_eq, owned_insert by apply lookup_delete_eq. rewrite Hpg. simpl. constructor.
    destruct (M !! v) as [e|] eqn:E.
    - simpl in Hold. rewrite (owned_delete pgdir T M v e E), Hold. done.
    - by rewrite delete_id. }
  assert (Hheld : forall g, g ∈ held page_of (<[v := p * 4096 + x]> M) -> g = p \/ g ∈ held page_of M).
  { intros g (k & e & E & Hg)%held_inv. destruct (decide (k = v)) as [->|Hne].
    - rewrite lookup_insert_eq in E. simplify_eq. by left.
    - rewrite lookup_insert_ne in E by done. right. by eapply held_elem. }
  edestruct (AS_write U F s pgdir T M v f (p * 4096 + x) (<[v := p * 4096 + x]> M)) as [H1 K1]; try done.
  - lia.
  - by rewrite (proj2 (Z.eqb_neq _ 0)) by done.
  - rewrite Hown. constructor; [done|apply H].
  - intros g Hg. destruct (Hheld g Hg) as [->|Hg']; [done|].
    assert (g ∈ owned pgdir T M) as Hgo by (apply elem_of_owned; auto). destruct (as_own _ _ _ _ _ _ H g Hgo).
    split_and!; try done. apply H. apply elem_of_app; by right.
Qed.

Lemma page_ref_set_keeps p n s : keeps [p] s (set_page_ref p n s).
Proof. split; [done|]. intros g Hg. apply not_elem_of_cons in Hg as [Hg _]. split; [done|]. rewrite ref_set. by zcase. Qed.

Lemma AS_ref U F s pgdir T M p n :
  AS U F s pgdir T M -> p ∉ owned pgdir T M -> p ∉ F -> AS U F (set_page_ref p n s) pgdir T M.
Proof.
  intros H Hp HF. eapply AS_frame; [exact H|apply page_ref_set_keeps|apply H|..].
  - intros f Hf. destruct (as_own _ _ _ _ _ _ H f Hf). assert (f <> p) by congruence. set_solver.
  - intros f Hf. rewrite ref_set. zcase; [congruence|]. by apply H.
Qed.

(** The new entry for a page that no one holds; a page mapped there before is
    freed. *)
Lemma insert_entry_ok U F s pgdir T M v f p perm :
  AS U F s pgdir T M -> user_vpn v -> T !! (v / 1024) = Some f ->
  p ∈ U -> p ∉ F -> p ∉ owned pgdir T M -> page_ref s p = 0 -> 0 <= perm < 8 ->
  exists s' F', (let s := page_ref_inc p s in
     s ← (if negb (Z.land (pte_at s (f, v mod 1024)) PTE_P =? 0) then
            q ← pte2page s (pte_at s (f, v mod 1024));
            if q =? p then Ok (page_ref_dec p s) else page_remove_pte (f, v mod 1024) s
          else Ok s);
     Ok (0, set_pte (f, v mod 1024) (Z.lor (Z.lor (page2pa p) PTE_P) perm) s)) = Ok (0, s') /\
    AS U F' s' pgdir T (<[v := p * 4096 + Z.lor 1 perm]> M) /\ keeps (p :: owned pgdir T M) s s' /\
    acct F' pgdir T (<[v := p * 4096 + Z.lor 1 perm]> M) = {[ p ]} ∪ acct F pgdir T M /\
    F ⊆ F' /\ (page_of (default 0 (M !! v)) = None -> F' = F) /\ (forall g, g <> f -> frame s' g = frame s g).
Proof.
  intros H Hv Hf HU HF Ho Hr Hperm. destruct (leaf_entry p perm Hperm) as (-> & Hx & Hodd). unfold page_ref_inc. rewrite Hr. cbv zeta. change (0 + 1) with 1.
  set (s0 := set_page_ref p 1 s). assert (H0 : AS U F s0 pgdir T M) by (by apply AS_ref).
  assert (K0 : keeps [p] s s0) by apply page_ref_set_keeps.
  assert (Hr0 : page_ref s0 p = 1) by (unfold s0; by rewrite ref_set, Z.eqb_refl).
  rewrite (pte_at_ent _ _ _ _ _ _ _ _ H0 Hv Hf), page_of_present.
  destruct (as_table_in _ _ _ _ _ _ _ _ H Hf) as (Hfo & _).
  case_bool_decide as Hpres.
  - destruct (M !! v) as [e|] eqn:E; simpl in *; [|by destruct Hpres]. destruct Hpres as [q Hq].
    destruct (as_in _ _ _ _ _ _ H _ _ E) as (_ & _ & He). destruct (as_page _ _ _ _ _ _ _ _ _ H0 E Hq) as (HqU & _ & _ & _ & _ & _ & Hqo).
    rewrite (pte2page_ok _ _ _ _ _ _ _ q H0) by (done || lia). simpl. rewrite (proj2 (Z.eqb_neq q p)) by congruence.
    destruct (page_remove_pte_present _ _ _ _ _ _ _ _ _ _ H0 E Hf Hq) as (s1 & -> & H1 & K1 & A1 & Fr1). simpl.
    assert (Hpf : p ∉ [f; q]) by (intros [->|[->|[]%elem_of_nil]%elem_of_cons]%elem_of_cons; done).
    assert (Hpo : p ∉ owned pgdir T (delete v M)).
    { intros Hp. apply Ho. rewrite (owned_delete _ _ _ _ _ E). apply elem_of_app. by right. }
    edestruct (AS_put U ({[ q ]} ∪ F) s1 pgdir T (delete v M) v f p) as (H2 & K2 & O2); try done.
    { by rewrite lookup_delete_eq. }
    { intros [->%elem_of_singleton|?]%elem_of_union; done. }
    { destruct K1 as [_ K1]. by destruct (K1 p Hpf) as [_ ->]. }
    rewrite insert_delete_eq in H2, O2. eexists _, _. split; [done|]. split; [exact H2|]. split.
    + eapply keeps_sub; [|eapply keeps_trans; [exact K0|eapply keeps_trans; [exact K1|exact K2]]]. set_solver.
    + rewrite (acct_take _ _ _ _ _ _ _ O2), A1. split; [done|]. split; [by apply union_subseteq_r|]. split.
      * by rewrite Hq.
      * intros g Hg. transitivity (frame s1 g); [apply K2; set_solver|]. by rewrite Fr1.
  - simpl. edestruct (AS_put U F s0 pgdir T M v f p) as (H2 & K2 & O2); try done.
    { destruct (page_of _); [exfalso; eauto|done]. }
    eexists _, _. split; [done|]. split; [exact H2|]. split.
    + eapply keeps_sub; [|eapply keeps_trans; [exact K0|exact K2]]. set_solver.
    + rewrite (acct_take _ _ _ _ _ _ _ O2). split; [done|]. split; [done|]. split; [done|].
      intros g Hg. transitivity (frame s0 g); [|done]. apply K2. set_solver.
Qed.

Lemma page_insert_found U F s pgdir T M v f p perm :
  AS U F s pgdir T M -> user_vpn v -> T !! (v / 1024) = Some f ->
  p ∈ U -> p ∉ F -> p ∉ owned pgdir T M -> page_ref s p = 0 -> 0 <= perm < 8 ->
  exists s' F', page_insert pgdir p (v * 4096) perm s = Ok (0, s') /\
    AS U F' s' pgdir T (<[v := p * 4096 + Z.lor 1 perm]> M) /\ keeps (p :: owned pgdir T M) s s' /\
    acct F' pgdir T (<[v := p * 4096 + Z.lor 1 perm]> M) = {[ p ]} ∪ acct F pgdir T M /\
    F ⊆ F' /\ (page_of (default 0 (M !! v)) = None -> F' = F) /\ (forall g, g <> f -> frame s' g = frame s g).
Proof.
  intros H Hv Hf HU HF Ho Hr Hperm. destruct (insert_entry_ok _ _ _ _ _ _ _ _ _ _ H Hv Hf HU HF Ho Hr Hperm) as (s' & F' & Hs' & Hrest).
  exists s', F'. split; [|exact Hrest]. unfold page_insert. by rewrite (get_pte_found _ _ _ _ _ _ _ _ true H Hv Hf).
Qed.

(** A table for [v], allocated when there is none. *)
Lemma get_pte_true U F s pgdir T M v :
  AS U F s pgdir T M -> user_vpn v -> (F = ∅ -> swap_init_ok s = false) ->
  (F = ∅ /\ T !! (v / 1024) = None /\ get_pte pgdir (v * 4096) true s = Ok (None, s)) \/
  exists f s' F' T', get_pte pgdir (v * 4096) true s = Ok (Some (f, v mod 1024), s') /\ AS U F' s' pgdir T' M /\
    T' !! (v / 1024) = Some f /\ F' ⊆ F /\ (size F <= size F' + 1)%nat /\ keeps (owned pgdir T M ++ elements F) s s' /\
    acct F' pgdir T' M = acct F pgdir T M /\ T ⊆ T' /\
    (forall g, g <> pgdir -> g ∉ F -> frame s' g = frame s g).
Proof.
  intros H Hv Hoff. destruct (T !! (v / 1024)) as [f|] eqn:Hf.
  { right. exists f, s, F, T. rewrite (get_pte_found _ _ _ _ _ _ _ _ _ H Hv Hf). split_and!; try done. lia. }
  destruct (alloc_page_ok U F s (as_pool _ _ _ _ _ _ H) Hoff) as [[-> Ha]|(f & p & HfF & Ha & Hp)].
  - left. split_and!; try done. destruct (user_vpn_pdx v Hv) as [Hv2 Hd]. unfold get_pte, get_pte_by. rewrite pdx_page by done.
    rewrite (as_tab _ _ _ _ _ _ H), Hf by done. cbn [from_option]. change (Z.land 0 PTE_P =? 0) with true. cbn [negb]. cbv iota. by rewrite Ha.
  - right. destruct (alloc_fresh _ _ _ _ _ _ _ H HfF) as (HfU & _ & Hfo & _).
    destruct (get_pte_create U F M s (F ∖ {[ f ]}) (set_fpool p s) pgdir T M v f H Hv Hf Ha) as (s' & Hg & H' & K);
      [by apply AS_alloc|done|set_solver|done|].
    exists f, s', (F ∖ {[ f ]}), (<[v / 1024 := f]> T). split; [done|]. split; [done|]. split; [apply lookup_insert_eq|].
    split; [set_solver|]. split; [|split; [|split; [|split]]].
    + rewrite size_difference by set_solver. rewrite size_singleton. lia.
    + eapply keeps_sub; [|exact K]. unfold owned. intros g [->|[->|[]%elem_of_nil]%elem_of_cons]%elem_of_cons; [by left|].
      apply elem_of_app; right. by apply elem_of_elements.
    + symmetry. rewrite (union_difference_L {[ f ]} F) at 1 by set_solver. 
      assert (O : owned pgdir (<[v / 1024 := f]> T) M ≡ₚ f :: owned pgdir T M).
      { unfold owned. rewrite held_insert by done. simpl. by rewrite Permutation_swap. }
      rewrite (acct_take _ _ _ _ _ _ _ O). unfold acct. by rewrite (assoc_L (∪)).
    + by apply insert_subseteq.
    + intros g Hg1 Hg2. apply K. apply not_elem_of_cons; split; [done|]. apply not_elem_of_cons; split; [congruence|by apply not_elem_of_nil].
Qed.

Lemma held_sub T T' f : T ⊆ T' -> f ∈ held Some T -> f ∈ held Some T'.
Proof. intros Hs (k & e & E & Hg)%held_inv. eapply held_elem; [by eapply lookup_weaken|done]. Qed.

Lemma page_insert_spec U F s pgdir T M v p perm :
  AS U F s pgdir T M -> user_vpn v -> (F = ∅ -> swap_init_ok s = false) -> p ∈ U -> p ∉ F -> p ∉ owned pgdir T M -> page_ref s p = 0 -> 0 <= perm < 8 ->
  (F = ∅ /\ T !! (v / 1024) = None /\ page_insert pgdir p (v * 4096) perm s = Ok (- E_NO_MEM, s)) \/
  exists s' F' T', page_insert pgdir p (v * 4096) perm s = Ok (0, s') /\
    AS U F' s' pgdir T' (<[v := p * 4096 + Z.lor 1 perm]> M) /\
    acct F' pgdir T' (<[v := p * 4096 + Z.lor 1 perm]> M) = {[ p ]} ∪ acct F pgdir T M.
Proof.
  intros H Hv Hoff HU HF Ho Hr Hperm. unfold page_insert.
  destruct (get_pte_true _ _ _ _ _ _ v H Hv Hoff) as [(-> & Ht & ->)|(f & s1 & F1 & T1 & -> & H1 & Hf & HF1 & _ & K1 & A1 & _)]; [by left|right].
  simpl. assert (Hacct : p ∉ acct F1 pgdir T1 M).
  { rewrite A1. unfold acct. rewrite elem_of_union, elem_of_list_to_set. tauto. }
  unfold acct in Hacct. rewrite elem_of_union, elem_of_list_to_set in Hacct.
  edestruct (insert_entry_ok U F1 s1 pgdir T1 M v f p perm) as (s' & F' & Hs' & H' & _ & A' & _); try done; try tauto.
  { destruct K1 as [_ K1]. destruct (K1 p) as [_ ->]; [|done]. rewrite elem_of_app, elem_of_elements. tauto. }
  exists s', F', T1. split; [exact Hs'|]. split; [exact H'|]. by rewrite A', A1.
Qed.

(** ** Copying *)

(** The entries that copying adds to [MB] for the pages of [MA], with the
    contents of the pages. *)
Definition copied (s : pm) (MA : gmap Z Z) (lo hi : Z) (s' : pm) (MB MB' : gmap Z Z) : Prop :=
  forall v, match MA !! v with
            | Some e => if bool_decide (lo <= v < hi) then
                          match page_of e with
                          | Some p => exists q, MB' !! v = Some (q * 4096 + Z.land e PTE_USER) /\ frame s' q = frame s p
                          | None => MB' !! v = MB !! v
                          end
                        else MB' !! v = MB !! v
            | None => MB' !! v = MB !! v
            end.

Lemma user_perm e : Z.odd e = true -> 0 <= Z.land e PTE_USER < 8 /\ Z.lor 1 (Z.land e PTE_USER) = Z.land e PTE_USER.
Proof.
  intros Ho. change PTE_USER with (Z.ones 3). rewrite Z.land_ones by lia.
  pose proof (Z.mod_pos_bound e (2 ^ 3)) as Hb. change (2 ^ 3) with 8 in *. split; [lia|].
  assert (Z.odd (e mod 8) = true) as Hm.
  { rewrite (Z.div_mod e 8) in Ho by lia. replace (8 * (e / 8) + e mod 8) with (e mod 8 + 2 * (4 * (e / 8))) in Ho by lia.
    by rewrite Z.odd_add_mul_2 in Ho. }
  assert (e mod 8 = 0 \/ e mod 8 = 1 \/ e mod 8 = 2 \/ e mod 8 = 3 \/ e mod 8 = 4 \/ e mod 8 = 5 \/ e mod 8 = 6 \/ e mod 8 = 7) as Hc by lia.
  destruct_or! Hc; rewrite Hc in *; done.
Qed.

(** One page: a table if needed, a frame, the copy and the entry. *)
Definition copy_one (A B v : Z) (e : Z * Z) (s : pm) (k : pm -> res (Z * pm)) : res (Z * pm) :=
  '(nptep, s) ← get_pte B (v * 4096) true s;
  match nptep with
  | None => Ok (- E_NO_MEM, s)
  | Some _ =>
      let perm := Z.land (pte_at s e) PTE_USER in
      page ← pte2page s (pte_at s e);
      '(n, s) ← alloc_page s;
      match n with
      | None => Panic
      | Some np =>
          src ← page2kva s page;
          dst ← page2kva s np;
          let s := set_frame dst (frame s src) s in
          '(ret, s) ← page_insert B np (v * 4096) perm s;
          _ ← kassert (ret =? 0);
          k s
      end
  end.

Definition two_spaces (U F : gset Z) (s : pm) (A : Z) (TA MA : gmap Z Z) (B : Z) (TB MB : gmap Z Z) : Prop :=
  AS U F s A TA MA /\ AS U F s B TB MB /\ (forall f, f ∈ owned A TA MA -> f ∉ owned B TB MB).

Lemma copy_one_ok U F s A TA MA B TB MB v fA e p k :
  two_spaces U F s A TA MA B TB MB -> user_vpn v -> TA !! (v / 1024) = Some fA -> MA !! v = Some e -> page_of e = Some p ->
  page_of (default 0 (MB !! v)) = None -> (2 <= size F)%nat ->
  exists s' F' TB' q, copy_one A B v (fA, v mod 1024) s k = k s' /\
    two_spaces U F' s' A TA MA B TB' (<[v := q * 4096 + Z.land e PTE_USER]> MB) /\
    F' ⊆ F /\ (size F <= size F' + 2)%nat /\ frame s' q = frame s p /\ q ∉ F' /\
    page_of (q * 4096 + Z.land e PTE_USER) = Some q /\ TB ⊆ TB' /\
    acct F' B TB' (<[v := q * 4096 + Z.land e PTE_USER]> MB) = acct F B TB MB /\
    (forall g, g ∉ F -> g ∉ B :: held Some TB -> frame s' g = frame s g).
Proof.
  intros (HA & HB & Hdis) Hv HfA HE Hp Hold Hsz. unfold copy_one.
  destruct (as_in _ _ _ _ _ _ HA _ _ HE) as (_ & _ & He). destruct (as_page _ _ _ _ _ _ _ _ _ HA HE Hp) as (HpU & HpF & _ & _ & _ & _ & HpA).
  destruct (as_table_in _ _ _ _ _ _ _ _ HA HfA) as (HfAo & _).
  assert (HFne : F <> ∅) by (intros ->; rewrite size_empty in Hsz; lia).
  destruct (get_pte_true _ _ _ _ _ _ v HB Hv) as [(-> & _)|(f & s1 & F1 & T1 & -> & H1 & Hf & HF1 & Hs1 & K1 & A1 & HT1 & Fr1)].
  { done. }
  { done. }
  simpl. assert (HAout : forall g, g ∈ owned A TA MA -> g ∉ owned B TB MB ++ elements F).
  { intros g Hg. rewrite elem_of_app, elem_of_elements. intros [Hg'|Hg']; [by eapply Hdis|]. by destruct (as_own _ _ _ _ _ _ HA g Hg). }
  assert (HA1 : AS U F1 s1 A TA MA).
  { eapply AS_frame; [exact HA|exact K1|apply H1| |apply H1]. intros g Hg. split; [by apply HAout|].
    intros Hg'. apply (HAout g Hg). rewrite elem_of_app, elem_of_elements. right. set_solver. }
  rewrite (pte_at_ent _ _ _ _ _ _ _ _ HA1 Hv HfA), HE. simpl.
  rewrite (pte2page_ok _ _ _ _ _ _ _ p HA1) by (done || lia). simpl.
  destruct (alloc_page_ok U F1 s1 (as_pool _ _ _ _ _ _ H1)) as [[-> _]|(q & pl & HqF & -> & Hpl)].
  { intros ->. exfalso. rewrite size_empty in Hs1. lia. }
  { exfalso. rewrite size_empty in Hs1. lia. }
  simpl. assert (HqU : q ∈ U) by (eapply fa_sub; [apply H1|done]).
  assert (Hkv : forall g, g ∈ U -> page2kva (set_fpool pl s1) g = Ok g) by (intros g Hg; by apply (kaddr_ok _ _ _ _ _ _ _ H1)).
  rewrite !Hkv by done. simpl. change (frame (set_fpool pl s1) p) with (frame s1 p).
  set (s2 := set_frame q (frame s1 p) (set_fpool pl s1)). set (F2 := F1 ∖ {[ q ]}).
  assert (K2 : keeps [q] s1 s2).
  { split; [done|]. intros g Hg. apply not_elem_of_cons in Hg as [Hg _]. split; [|done]. unfold s2. rewrite frame_set. by zcase. }
  assert (HqB : q ∉ owned B T1 MB) by (intros Hq; by destruct (as_own _ _ _ _ _ _ H1 q Hq)).
  assert (HqA : q ∉ owned A TA MA) by (intros Hq; by destruct (as_own _ _ _ _ _ _ HA1 q Hq)).
  assert (Hz2 : forall g, g ∈ F2 -> page_ref s2 g = 0) by (intros g Hg; apply H1; set_solver).
  assert (H2 : forall D TD MD, AS U F1 s1 D TD MD -> q ∉ owned D TD MD -> AS U F2 s2 D TD MD).
  { intros D TD MD HD Hq. eapply AS_frame; [exact HD|exact K2|exact Hpl| |exact Hz2]. intros g Hg. destruct (as_own _ _ _ _ _ _ HD g Hg).
    assert (g <> q) by congruence. set_solver. }
  pose proof (H2 _ _ _ H1 HqB) as HB2. pose proof (H2 _ _ _ HA1 HqA) as HA2.
  unfold page_of in Hp. destruct (Z.odd e) eqn:Hodd; [|done]. destruct (user_perm e Hodd) as [Hperm Hlor].
  edestruct (page_insert_found U F2 s2 B T1 MB v f q (Z.land e PTE_USER)) as (s' & F' & Hs' & H' & K' & A' & _ & HFeq & Fr'); try done.
  { set_solver. }
  { change (page_ref s2 q) with (page_ref s1 q). by apply H1. }
  rewrite Hs'. simpl. rewrite Hlor in *. rewrite (HFeq Hold) in *. exists s', F2, T1, q. split; [done|].
  assert (HF2 : F2 ⊆ F) by set_solver.
  assert (HAB : forall g, g ∈ owned A TA MA -> g ∉ q :: owned B T1 MB).
  { intros g Hg Hg'. apply elem_of_cons in Hg' as [->|Hg']; [done|]. apply (HAout g Hg).
    assert (g ∈ acct F1 B T1 MB) as Ha by (unfold acct; rewrite elem_of_union, elem_of_list_to_set; by right).
    rewrite A1 in Ha. unfold acct in Ha. rewrite elem_of_union, elem_of_list_to_set in Ha. rewrite elem_of_app, elem_of_elements. tauto. }
  assert (Hqq : page_of (q * 4096 + Z.land e PTE_USER) = Some q).
  { apply page_of_entry; [lia|]. rewrite <- Hlor. by apply leaf_entry. }
  assert (Hfne : forall g, g ∉ F -> g ∉ B :: held Some TB -> frame s' g = frame s g).
  { intros g Hg1 Hg2. apply not_elem_of_cons in Hg2 as [Hg2 Hg3].
    destruct (decide (g = f)) as [->|Hgf].
    - exfalso. assert (f ∈ acct F1 B T1 MB) as Ha.
      { unfold acct. rewrite elem_of_union, elem_of_list_to_set. right. by eapply as_table_in. }
      rewrite A1 in Ha. unfold acct in Ha. rewrite elem_of_union, elem_of_list_to_set, elem_of_owned in Ha.
      destruct Ha as [?|[?|[?|Ha]]]; try done.
      (* a table frame of T1 is no page of MB *)
      pose proof (as_nodup _ _ _ _ _ _ H1) as [_ [_ [Hd _]]%NoDup_app]%NoDup_cons.
      apply (Hd f); [by eapply held_elem|done].
    - rewrite Fr' by done. destruct K2 as [_ K2]. destruct (K2 g) as [-> _]; [set_solver|]. by apply Fr1. }
  split.
  { split_and!; [|done|].
    - eapply AS_frame; [exact HA2|exact K'|apply H'| |apply H']. intros g Hg. split; [by apply HAB|].
      by destruct (as_own _ _ _ _ _ _ HA2 g Hg).
    - intros g Hg Hg'. apply (HAB g Hg). rewrite elem_of_owned in Hg'. destruct Hg' as [->|[Hg'|Hg']].
      + right. by left.
      + right. apply elem_of_owned. auto.
      + apply held_inv in Hg' as (v' & e' & E' & Hp'). destruct (decide (v' = v)) as [->|Hne].
        * rewrite lookup_insert_eq in E'. injection E' as <-. rewrite Hqq in Hp'. injection Hp' as <-. by left.
        * rewrite lookup_insert_ne in E' by done. right. apply elem_of_owned. right. right. by eapply held_elem. }
  split; [done|]. split; [unfold F2; rewrite size_difference by set_solver; rewrite size_singleton; lia|].
  assert (Hqs : frame s' q = frame s1 p).
  { rewrite Fr' by (intros ->; apply HqB; by eapply as_table_in). unfold s2. by rewrite frame_set, Z.eqb_refl. }
  split; [|split; [set_solver|split; [done|split; [done|split; [|exact Hfne]]]]].
  - rewrite Hqs. injection Hp as Hp. apply Fr1; [|done]. intros E. apply (Hdis p); [done|]. rewrite E. by left.
  - rewrite A', <- A1. unfold acct.
    assert (E2 : F1 = {[ q ]} ∪ F2) by (unfold F2; apply union_difference_L; set_solver).
    rewrite E2. apply set_eq. intros x. rewrite !elem_of_union. tauto.
Qed.

Lemma copy_loop_eq fuel B A lo hi s :
  0 <= lo < 720896 ->
  copy_loop (S fuel) B A (lo * 4096) (hi * 4096) s =
  ('(ptep, s) ← get_pte A (lo * 4096) false s;
   let next nx s := if nx <? hi then copy_loop fuel B A (nx * 4096) (hi * 4096) s else Ok (0, s) in
   match ptep with
   | None => next ((lo / 1024 + 1) * 1024) s
   | Some e =>
       if negb (Z.land (pte_at s e) PTE_P =? 0) then copy_one A B lo e s (next (lo + 1)) else next (lo + 1) s
   end).
Proof.
  intros Hlo. cbn [copy_loop]. rewrite next_table, next_page by lia.
  destruct (get_pte A (lo * 4096) false s) as [[[e|] s1]| |]; [|simpl..]; [|by rewrite more_pages by (pose proof (div_next lo); lia)|done..].
  cbn [mbind res_bind]. rewrite more_pages by lia. unfold copy_one. done.
Qed.

Lemma copied_step s MA lo hi s1 s' MB MB1 MB' e p q :
  lo < hi -> MA !! lo = Some e -> page_of e = Some p -> MB1 = <[lo := q * 4096 + Z.land e PTE_USER]> MB ->
  frame s' q = frame s p -> (forall v e' p', MA !! v = Some e' -> page_of e' = Some p' -> frame s1 p' = frame s p') ->
  copied s1 MA (lo + 1) hi s' MB1 MB' -> copied s MA lo hi s' MB MB'.
Proof.
  intros Hlt E Hp -> Hq Hfr Hc v. specialize (Hc v). destruct (MA !! v) as [e'|] eqn:Ev.
  - destruct (decide (v = lo)) as [->|Hne].
    + rewrite bool_decide_eq_false_2 in Hc by lia. rewrite bool_decide_eq_true_2 by lia. simplify_eq. rewrite Hp.
      exists q. rewrite Hc. by rewrite lookup_insert_eq.
    + rewrite lookup_insert_ne in Hc by done. rewrite (bool_decide_ext _ (lo + 1 <= v < hi)) by lia.
      case_bool_decide; [|done]. destruct (page_of e') as [p'|] eqn:Hp'; [|done]. destruct Hc as (q' & Hc1 & Hc2).
      exists q'. split; [done|]. rewrite Hc2. by eapply Hfr.
  - destruct (decide (v = lo)) as [->|Hne]; [congruence|]. by rewrite lookup_insert_ne in Hc.
Qed.

Lemma copied_skip s MA lo nx hi s' MB MB' :
  lo < nx -> (forall v e, lo <= v < nx -> MA !! v = Some e -> page_of e = None) -> copied s MA nx hi s' MB MB' -> copied s MA lo hi s' MB MB'.
Proof.
  intros Hlt Hn Hc v. specialize (Hc v). destruct (MA !! v) as [e|] eqn:E; [|done]. destruct (decide (lo <= v < hi)).
  - rewrite (bool_decide_eq_true_2 (lo <= v < hi)) by lia. destruct (decide (nx <= v)).
    + rewrite bool_decide_eq_true_2 in Hc by lia. done.
    + rewrite bool_decide_eq_false_2 in Hc by lia. rewrite (Hn v e); [done|lia|done].
  - rewrite (bool_decide_eq_false_2 (lo <= v < hi)) by lia. rewrite bool_decide_eq_false_2 in Hc by lia. done.
Qed.

Lemma copy_loop_ok U A TA MA B fuel : forall F s TB MB lo hi,
  two_spaces U F s A TA MA B TB MB -> 0 <= lo < hi -> hi <= 720896 -> (Z.to_nat (hi - lo) <= fuel)%nat ->
  (forall v, lo <= v < hi -> page_of (default 0 (MB !! v)) = None) -> (Z.to_nat (2 * (hi - lo)) <= size F)%nat ->
  exists s' F' TB' MB', copy_loop fuel B A (lo * 4096) (hi * 4096) s = Ok (0, s') /\
    two_spaces U F' s' A TA MA B TB' MB' /\ copied s MA lo hi s' MB MB' /\ acct F' B TB' MB' = acct F B TB MB /\
    (forall g, g ∉ F -> g ∉ B :: held Some TB -> frame s' g = frame s g).
Proof.
  induction fuel as [|fuel IH]; intros F s TB MB lo hi H Hlo Hhi Hfuel Hold Hsz; [lia|].
  rewrite copy_loop_eq by lia. assert (Hv : user_vpn lo) by (unfold user_vpn; change (USERTOP / 4096) with 720896; lia).
  pose proof H as (HA & HB & Hdis).
  assert (Hskip : forall nx, lo < nx -> (forall v e, lo <= v < nx -> MA !! v = Some e -> page_of e = None) ->
    exists s' F' TB' MB', (if nx <? hi then copy_loop fuel B A (nx * 4096) (hi * 4096) s else Ok (0, s)) = Ok (0, s') /\
      two_spaces U F' s' A TA MA B TB' MB' /\ copied s MA lo hi s' MB MB' /\ acct F' B TB' MB' = acct F B TB MB /\
      (forall g, g ∉ F -> g ∉ B :: held Some TB -> frame s' g = frame s g)).
  { intros nx Hnx Hn. zcase.
    - destruct (IH F s TB MB nx hi H) as (s' & F' & TB' & MB' & Hs' & H' & Hc & Ha & Hfr); [lia..|intros v Hv'; apply Hold; lia|lia|].
      exists s', F', TB', MB'. split; [done|]. split; [done|]. split; [by eapply copied_skip|]. done.
    - exists s, F, TB, MB. split; [done|]. split; [done|]. split; [|done]. intros v. destruct (MA !! v) as [e|] eqn:E; [|done].
      case_bool_decide; [|done]. rewrite (Hn v e); [done|lia|done]. }
  destruct (TA !! (lo / 1024)) as [f|] eqn:Hf.
  2: { rewrite (get_pte_missing _ _ _ _ _ _ _ HA Hv Hf). simpl. apply Hskip; [apply div_next; lia|]. intros v e Hv' E.
       exfalso. assert (v / 1024 = lo / 1024) as Ed.
       { pose proof (Z.div_mod v 1024). pose proof (Z.mod_pos_bound v 1024). pose proof (Z.div_mod lo 1024). pose proof (Z.mod_pos_bound lo 1024). lia. }
       rewrite (as_no_table _ _ _ _ _ _ v HA) in E; [done|congruence]. }
  rewrite (get_pte_found _ _ _ _ _ _ _ _ _ HA Hv Hf). cbn [mbind res_bind]. cbv zeta.
  rewrite (pte_at_ent _ _ _ _ _ _ _ _ HA Hv Hf), page_of_present. case_bool_decide as Hpres.
  2: { apply Hskip; [lia|]. intros v e Hv' E. assert (v = lo) as -> by lia. rewrite E in Hpres. simpl in Hpres.
       destruct (page_of e); [exfalso; eauto|done]. }
  destruct (MA !! lo) as [e|] eqn:E; simpl in Hpres; [|by destruct Hpres]. destruct Hpres as [p Hp].
  edestruct (copy_one_ok U F s A TA MA B TB MB lo f e p) as (s1 & F1 & TB1 & q & Hs1 & H1 & HF1 & Hsz1 & Hq & HqF & Hqq & HT1 & Ha1 & Hfr1);
    [done..|apply Hold; lia|lia|]. rewrite Hs1.
  assert (Hpages : forall g, g ∉ F -> g ∉ B :: held Some TB -> g ∉ F1) by set_solver.
  assert (HpA : forall v e' p', MA !! v = Some e' -> page_of e' = Some p' -> frame s1 p' = frame s p').
  { intros v e' p' E' Hp'. destruct (as_page _ _ _ _ _ _ _ _ _ HA E' Hp') as (_ & HpF & _ & _ & _ & _ & Ho). apply Hfr1; [done|].
    intros Hin. apply (Hdis p' Ho). apply elem_of_owned. apply elem_of_cons in Hin. tauto. }
  assert (Hnew : forall g, g ∉ F -> g ∈ held Some TB1 -> g ∈ B :: held Some TB).
  { intros g HgF Hg. assert (g ∈ acct F1 B TB1 (<[lo := q * 4096 + Z.land e PTE_USER]> MB)) as Hin.
    { unfold acct. rewrite elem_of_union, elem_of_list_to_set, elem_of_owned. auto. }
    rewrite Ha1 in Hin. unfold acct in Hin. rewrite elem_of_union, elem_of_list_to_set, elem_of_owned in Hin.
    destruct Hin as [?|[->|[?|Hin]]]; [done|by left|by right|]. exfalso.
    (* a page of MB is still a page, hence no table *)
    apply held_inv in Hin as (v' & e' & E' & Hp'). destruct H1 as (_ & HB1 & _).
    pose proof (as_nodup _ _ _ _ _ _ HB1) as [_ (_ & Hd & _)%NoDup_app]%NoDup_cons. apply (Hd g); [done|].
    eapply (held_elem _ _ v'); [|exact Hp']. rewrite lookup_insert_ne; [done|]. intros <-. specialize (Hold lo).
    rewrite E' in Hold. simpl in Hold. rewrite Hold in Hp' by lia. done. }
  zcase.
  - destruct (IH F1 s1 TB1 _ (lo + 1) hi H1) as (s' & F' & TB' & MB' & Hs' & H' & Hc & Ha' & Hfr'); [lia..| |lia|].
    { intros v Hv'. rewrite lookup_insert_ne by lia. apply Hold. lia. }
    exists s', F', TB', MB'. split; [done|]. split; [done|]. split; [|split; [congruence|]].
    + eapply copied_step; [lia|exact E|exact Hp|done| |exact HpA|exact Hc]. rewrite <- Hq. apply Hfr'; [done|].
      intros Hin. destruct H1 as (_ & HB1 & _). pose proof (as_nodup _ _ _ _ _ _ HB1) as [HBn (_ & Hd & _)%NoDup_app]%NoDup_cons.
      assert (q ∈ held page_of (<[lo := q * 4096 + Z.land e PTE_USER]> MB)) as Hqh by (eapply held_elem; [apply lookup_insert_eq|done]).
      apply elem_of_cons in Hin as [->|Hin]; [apply HBn; rewrite elem_of_app; by right|]. by apply (Hd q).
    + intros g Hg1 Hg2. rewrite <- (Hfr1 g Hg1 Hg2). apply Hfr'; [by apply Hpages|].
      intros Hin. apply elem_of_cons in Hin as [->|Hin]; [apply Hg2; by left|]. apply Hg2. by apply Hnew.
  - exists s1, F1, TB1, (<[lo := q * 4096 + Z.land e PTE_USER]> MB). split; [done|]. split; [done|]. split; [|done].
    assert (hi = lo + 1) as -> by lia. eapply copied_step; [lia|exact E|exact Hp|done|done|exact HpA|].
    intros v. destruct (MA !! v); [|done]. by rewrite bool_decide_eq_false_2 by lia.
Qed.

(** ** The operations on ranges *)
Lemma range_pages start end_ :
  range_ok start end_ = true ->
  exists lo hi, start = lo * 4096 /\ end_ = hi * 4096 /\ 512 <= lo < hi /\ hi <= 720896.
Proof.
  unfold range_ok, USER_ACCESS. intros [[?%Z.eqb_eq ?%Z.eqb_eq]%andb_true_iff Hu]%andb_true_iff.
  apply andb_true_iff in Hu as [[?%Z.leb_le ?%Z.ltb_lt]%andb_true_iff ?%Z.leb_le].
  exists (start / 4096), (end_ / 4096). pose proof (Z.div_mod start 4096). pose proof (Z.div_mod end_ 4096).
  unfold PGSIZE, USERBASE, USERTOP in *. lia.
Qed.

Lemma unmap_range_spec U F s pgdir T M fuel start end_ :
  AS U F s pgdir T M -> range_ok start end_ = true -> (Z.to_nat ((end_ - start) / 4096) <= fuel)%nat ->
  exists s' F', unmap_range fuel pgdir start end_ s = Ok s' /\ AS U F' s' pgdir T (cut (start / 4096) (end_ / 4096) M) /\
    keeps (owned pgdir T M) s s' /\ acct F' pgdir T (cut (start / 4096) (end_ / 4096) M) = acct F pgdir T M.
Proof.
  intros H Hr Hfuel. unfold unmap_range. rewrite Hr. simpl. destruct (range_pages _ _ Hr) as (lo & hi & -> & -> & Hlo & Hhi).
  rewrite !Z.div_mul by lia. rewrite <- Z.mul_sub_distr_r, Z.div_mul in Hfuel by lia. apply unmap_loop_ok; done || lia.
Qed.

Lemma exit_range_spec U F s pgdir T M start end_ :
  AS U F s pgdir T M -> range_ok start end_ = true -> (forall v e, M !! v = Some e -> page_of e = None) ->
  let a := start / PTSIZE in let hi := end_ / 4096 in
  exists s' F', exit_range 704 pgdir start end_ s = Ok s' /\ AS U F' s' pgdir (drop_tables a hi T) (drop_entries a hi M) /\
    acct F' pgdir (drop_tables a hi T) (drop_entries a hi M) = acct F pgdir T M.
Proof.
  intros H Hr Hn a hi. unfold exit_range. rewrite Hr. cbn [kassert mbind res_bind]. unfold a, hi.
  destruct (range_pages _ _ Hr) as (lo & h & -> & -> & Hlo & Hhi). rewrite Z.div_mul by lia.
  change PTSIZE with (1024 * 4096). rewrite Z.div_mul_cancel_r by lia.
  unfold ROUNDDOWN. rewrite Z.mul_mod_distr_r by lia.
  replace (lo * 4096 - lo mod 1024 * 4096) with (lo / 1024 * 1024 * 4096) by (pose proof (Z.div_mod lo 1024); lia).
  pose proof (Z.div_mod lo 1024). pose proof (Z.mod_pos_bound lo 1024).
  destruct (exit_loop_ok U pgdir 704 F s T M (lo / 1024) h H) as (s' & F' & Hs' & H' & _ & A'); [lia..|by eauto|]. eauto.
Qed.

(** [exit_mmap] on the page tables: its two loops, with the ranges that the
    model of the area list hands out. *)
Fixpoint unmap_all (fuel : nat) (pgdir : Z) (rs : list (Z * Z)) (s : pm) : res pm :=
  match rs with [] => Ok s | r :: rs => s ← unmap_range fuel pgdir r.1 r.2 s; unmap_all fuel pgdir rs s end.
Fixpoint exit_all (pgdir : Z) (rs : list (Z * Z)) (s : pm) : res pm :=
  match rs with [] => Ok s | r :: rs => s ← exit_range 704 pgdir r.1 r.2 s; exit_all pgdir rs s end.
Definition exit_mmap_pages (fuel : nat) (st : vmst) (pgdir : Z) (s : pm) : res pm :=
  '(us, es) ← exit_mmap st; s ← unmap_all fuel pgdir us s; exit_all pgdir es s.

Lemma unmap_all_ok U pgdir T rs : forall F s M,
  AS U F s pgdir T M -> Forall (fun r => range_ok r.1 r.2 = true) rs ->
  exists s' F' M', unmap_all (Z.to_nat 720896) pgdir rs s = Ok s' /\ AS U F' s' pgdir T M' /\ acct F' pgdir T M' = acct F pgdir T M /\
    (forall v e, M' !! v = Some e -> M !! v = Some e /\ (is_Some (page_of e) -> ~ in_ranges (v * 4096) rs)).
Proof.
  induction rs as [|r rs IH]; intros F s M H Hr; cbn [unmap_all].
  { exists s, F, M. split_and!; try done. intros v e E. split; [done|]. intros _ (x & []%elem_of_nil & _). }
  apply Forall_cons in Hr as [Hr Hrs]. destruct (range_pages _ _ Hr) as (lo & hi & E1 & E2 & Hlo & Hhi).
  destruct (unmap_range_spec U F s pgdir T M (Z.to_nat 720896) r.1 r.2 H Hr) as (s1 & F1 & -> & H1 & _ & A1).
  { rewrite E1, E2, <- Z.mul_sub_distr_r, Z.div_mul by lia. lia. }
  cbn [mbind res_bind]. destruct (IH _ _ _ H1 Hrs) as (s' & F' & M' & -> & H' & A' & HM').
  exists s', F', M'. split; [done|]. split; [done|]. split; [congruence|]. intros v e Ev. destruct (HM' v e Ev) as [Ev1 Hn].
  rewrite cut_lookup in Ev1. destruct (M !! v) as [e0|]; [|done]. case_bool_decide as Hc; [done|]. simplify_eq.
  split; [done|]. intros Hp (x & Hx & Hin). apply elem_of_cons in Hx as [->|Hx]; [|by apply Hn; [|exists x]].
  apply Hc. split; [|done]. rewrite E1, E2, !Z.div_mul by lia. rewrite E1, E2 in Hin. lia.
Qed.

Lemma exit_all_ok U pgdir rs : forall F s T M,
  AS U F s pgdir T M -> Forall (fun r => range_ok r.1 r.2 = true) rs -> (forall v e, M !! v = Some e -> page_of e = None) ->
  exists s' F' T' M', exit_all pgdir rs s = Ok s' /\ AS U F' s' pgdir T' M' /\ acct F' pgdir T' M' = acct F pgdir T M /\
    (forall d f, T' !! d = Some f -> T !! d = Some f /\ forall r, r ∈ rs -> ~ in_tables (r.1 / PTSIZE) (r.2 / 4096) d).
Proof.
  induction rs as [|r rs IH]; intros F s T M H Hr Hn; cbn [exit_all].
  { exists s, F, T, M. split_and!; try done. intros d f E. split; [done|]. intros x Hx. by apply elem_of_nil in Hx. }
  apply Forall_cons in Hr as [Hr Hrs].
  destruct (exit_range_spec U F s pgdir T M r.1 r.2 H Hr Hn) as (s1 & F1 & -> & H1 & A1). cbn [mbind res_bind].
  destruct (IH _ _ _ _ H1 Hrs) as (s' & F' & T' & M' & -> & H' & A' & HT').
  { intros v e E. apply map_lookup_filter_Some in E as [E _]. by eapply Hn. }
  exists s', F', T', M'. split; [done|]. split; [done|]. split; [congruence|]. intros d f E. destruct (HT' d f E) as [E1 Hn1].
  apply map_lookup_filter_Some in E1 as [E1 Hn2]. split; [done|]. intros x [->|Hx]%elem_of_cons; [done|by apply Hn1].
Qed.

Lemma exit_mmap_ranges st l :
  rep st l -> mm_count (mm st) = 0 ->
  exit_mmap st = Ok ((fun v => (vm_start v, vm_end v)) <$> l.*2, (fun v => (vm_start v, vm_end v)) <$> l.*2).
Proof.
  intros H Hc. unfold exit_mmap. rewrite Hc. simpl. rewrite (rep_list _ _ H), <- !list_fmap_compose.
  assert (Hm : (fun a => (vm_start (vma st a), vm_end (vma st a))) ∘ fst <$> l = (fun v => (vm_start v, vm_end v)) ∘ snd <$> l).
  { apply list_fmap_ext. intros i [a v] Hi. simpl. by rewrite (rep_vma _ _ a v H) by (by eapply list_elem_of_lookup_2). }
  by rewrite Hm.
Qed.

(** ** Theorems *)

(** [unmap_range] on a page-aligned user range ends without a panic, within
    one round per page, and removes exactly the present pages of the range from
    the address space; it frees exactly their frames, once each: every frame
    that was free or held by the address space still is, and none is both. *)
Theorem unmap_range_correct U F s pgdir T M fuel start end_ :
  AS U F s pgdir T M -> range_ok start end_ = true -> (Z.to_nat ((end_ - start) / 4096) <= fuel)%nat ->
  exists s' F', unmap_range fuel pgdir start end_ s = Ok s' /\ AS U F' s' pgdir T (cut (start / 4096) (end_ / 4096) M) /\
    keeps (owned pgdir T M) s s' /\ acct F' pgdir T (cut (start / 4096) (end_ / 4096) M) = acct F pgdir T M.
Proof. apply unmap_range_spec. Qed.

(** [page_insert] of an unshared page at a user address maps exactly that
    address to the page, with the given permission, creating the table if it is
    missing and freeing a page that was mapped there before; it fails with
    [-E_NO_MEM], changing nothing, only when a table is needed and no frame is
    free. *)
Theorem page_insert_correct U F s pgdir T M v p perm :
  AS U F s pgdir T M -> user_vpn v -> (F = ∅ -> swap_init_ok s = false) -> p ∈ U -> p ∉ F -> p ∉ owned pgdir T M -> page_ref s p = 0 -> 0 <= perm < 8 ->
  (F = ∅ /\ T !! (v / 1024) = None /\ page_insert pgdir p (v * 4096) perm s = Ok (- E_NO_MEM, s)) \/
  exists s' F' T', page_insert pgdir p (v * 4096) perm s = Ok (0, s') /\
    AS U F' s' pgdir T' (<[v := p * 4096 + Z.lor 1 perm]> M) /\
    acct F' pgdir T' (<[v := p * 4096 + Z.lor 1 perm]> M) = {[ p ]} ∪ acct F pgdir T M.
Proof. apply page_insert_spec. Qed.

(** C13: [copy_range], with two free frames per page of the range, ends with 0
    and gives the target address space, at each present page of the source in
    the range, a frame of its own with the same contents and user permissions;
    the source and every other page are unchanged, no frame is shared by the
    two, and no frame is lost. *)
Theorem copy_range_correct U F s A TA MA B TB MB fuel start end_ :
  two_spaces U F s A TA MA B TB MB -> range_ok start end_ = true ->
  (Z.to_nat ((end_ - start) / 4096) <= fuel)%nat ->
  (forall v, start / 4096 <= v < end_ / 4096 -> page_of (default 0 (MB !! v)) = None) ->
  (Z.to_nat (2 * ((end_ - start) / 4096)) <= size F)%nat ->
  exists s' F' TB' MB', copy_range fuel B A start end_ s = Ok (0, s') /\
    two_spaces U F' s' A TA MA B TB' MB' /\ copied s MA (start / 4096) (end_ / 4096) s' MB MB' /\
    acct F' B TB' MB' = acct F B TB MB /\
    (forall g, g ∉ F -> g ∉ B :: held Some TB -> frame s' g = frame s g).
Proof.
  intros H Hr Hfuel Hold Hsz. unfold copy_range. rewrite Hr. cbn [kassert mbind res_bind].
  destruct (range_pages _ _ Hr) as (lo & hi & -> & -> & Hlo & Hhi). rewrite !Z.div_mul in * by lia.
  rewrite <- Z.mul_sub_distr_r, Z.div_mul in Hfuel, Hsz by lia. apply copy_loop_ok; done || lia.
Qed.

(** C22: [exit_mmap] gives back all of an address space whose pages and tables
    lie in its areas: afterwards it has no table and no page left, and the free
    frames are those that were free before and all it held but the directory. *)
Theorem exit_mmap_releases U F s pgdir T M st l :
  AS U F s pgdir T M -> rep st l -> mm_count (mm st) = 0 ->
  Forall (fun v => range_ok (vm_start v) (vm_end v) = true) l.*2 ->
  (forall v e, M !! v = Some e -> is_Some (page_of e) -> is_Some (cover l.*2 (v * 4096))) ->
  (forall d f, T !! d = Some f -> exists v, v ∈ l.*2 /\ in_tables (vm_start v / PTSIZE) (vm_end v / 4096) d) ->
  exists s' F', exit_mmap_pages (Z.to_nat 720896) st pgdir s = Ok s' /\ AS U F' s' pgdir ∅ ∅ /\
    F' = acct F pgdir T M ∖ {[ pgdir ]}.
Proof.
  intros H Hl Hc Hr Hpages Htabs. unfold exit_mmap_pages. rewrite (exit_mmap_ranges _ _ Hl Hc). cbn [mbind res_bind].
  set (rs := (fun v => (vm_start v, vm_end v)) <$> l.*2).
  assert (Hrs : Forall (fun r => range_ok r.1 r.2 = true) rs) by (apply Forall_fmap; exact Hr).
  destruct (unmap_all_ok U pgdir T rs _ _ _ H Hrs) as (s1 & F1 & M1 & -> & H1 & A1 & HM1). cbn [mbind res_bind].
  assert (Hnp : forall v e, M1 !! v = Some e -> page_of e = None).
  { intros v e E. destruct (HM1 v e E) as [E0 Hn]. destruct (page_of e) eqn:Hp; [|done]. exfalso. apply Hn; [eauto|].
    destruct (Hpages v e E0) as [fl Hf]; [rewrite Hp; eauto|]. apply cover_some in Hf as (a & Ha & Hin & _).
    exists (vm_start a, vm_end a). split; [|by apply contains_spec]. apply list_elem_of_fmap. eauto. }
  destruct (exit_all_ok U pgdir rs _ _ _ _ H1 Hrs Hnp) as (s' & F' & T' & M' & -> & H' & A' & HT').
  assert (T' = ∅) as ->.
  { apply map_empty. intros d. destruct (T' !! d) as [f|] eqn:E; [|done]. destruct (HT' d f E) as [E0 Hn].
    destruct (Htabs d f E0) as (v & Hv & Hin). exfalso. apply (Hn (vm_start v, vm_end v)); [|done]. apply list_elem_of_fmap. eauto. }
  assert (M' = ∅) as ->.
  { apply map_empty. intros v. destruct (M' !! v) as [e|] eqn:E; [|done]. by destruct (as_in _ _ _ _ _ _ H' _ _ E) as (_ & [? ?] & _). }
  exists s', F'. split; [done|]. split; [done|]. rewrite <- A1, <- A'. unfold acct, owned, held. rewrite !map_to_list_empty. simpl.
  destruct (as_own _ _ _ _ _ _ H' pgdir) as [_ ?]; [by left|]. set_solver.
Qed.
End address_space.
