(* ===== verification/PageFault.v ===== *)
(** * kern/mm/vmm.c [do_pgfault] and [swap_in] of kern/mm/swap.c

    Page faults on top of the area list (Vmm) and the page tables and the
    swapping out of PageTable.  The replacement policy is the interface
    [SwapMgr] that the FIFO policy of swap_fifo.c implements (SwapFifo).  The
    swap device is a map from slots to page contents; whether a transfer
    succeeds is an argument. *)
From S2P Require Import Prelude Libs ListH SwapFifo Vmm PageTable.

Section fault.
Context `{FA : FrameAlloc} `{SM : SwapMgr}.

(** The result of the read is not acted upon. *)
Definition swap_in (pgdir addr : Z) (ok : bool) (s : pm) : res (Z * pm) :=
  '(r, s) ← alloc_page s;
  match r with
  | None => Panic
  | Some result =>
      '(ptep, s) ← get_pte pgdir addr false s;
      match ptep with
      | None => Panic
      | Some e => '(_, s) ← swapfs_read ok (pte_at s e) result s; Ok (result, s)
      end
  end.

(** ** vmm.c: do_pgfault *)

(** The test of the error code against the flags of the area. *)
Definition fault_allowed (error_code flags : Z) : bool :=
  let k := Z.land error_code 3 in
  if k =? 1 then false
  else if k =? 0 then negb (Z.land flags (Z.lor VM_READ VM_EXEC) =? 0)
  else negb (Z.land flags VM_WRITE =? 0).

Definition fault_perm (flags : Z) : Z := if negb (Z.land flags VM_WRITE =? 0) then Z.lor PTE_U PTE_W else PTE_U.

(** A fault at [addr] (page aligned) in an area that allows it. *)
Definition fault_page (pgdir addr perm : Z) (ok : bool) (s : pm) : res (Z * pm) :=
  '(ptep, s) ← get_pte pgdir addr true s;
  match ptep with
  | None => Ok (- E_NO_MEM, s)
  | Some e =>
      if pte_at s e =? 0 then
        '(r, s) ← pgdir_alloc_page pgdir addr perm s;
        match r with None => Ok (- E_NO_MEM, s) | Some _ => Ok (0, s) end
      else if negb (Z.land (pte_at s e) PTE_P =? 0) then Panic
      else if swap_init_ok s then
        '(page, s) ← swap_in pgdir addr ok s;
        '(_, s) ← page_insert pgdir page addr perm s;
        '(_, s) ← swap_map_swappable page s;
        Ok (0, set_vaddr page addr s)
      else Ok (- E_NO_MEM, s)
  end.

Definition do_pgfault (st : vmst) (pgdir error_code addr : Z) (ok : bool) (s : pm) : res (Z * vmst * pm) :=
  let '(found, st) := find_vma st addr in
  match found with
  | None => Ok (- E_INVAL, st, s)
  | Some a =>
      let v := vma st a in
      if vm_start v >? addr then Ok (- E_INVAL, st, s)
      else if negb (fault_allowed error_code (vm_flags v)) then Ok (- E_INVAL, st, s)
      else
        '(ret, s) ← fault_page pgdir (ROUNDDOWN addr PGSIZE) (fault_perm (vm_flags v)) ok s;
        Ok (ret, st, s)
  end.

Lemma acct_difference F pgdir T M q : q ∈ F -> {[ q ]} ∪ acct (F ∖ {[ q ]}) pgdir T M = acct F pgdir T M.
Proof. intros Hq. unfold acct. rewrite (assoc_L (∪)). by rewrite <- union_difference_L by set_solver. Qed.

(** ** Pages on the swap device *)
Lemma slot_entry_val v : 0 <= v < 720896 -> slot_entry (v * 4096) = (v + 1) * 256.
Proof.
  intros Hv. unfold slot_entry. change PGSIZE with 4096. rewrite Z.div_mul, Z.shiftl_mul_pow2 by lia. change (2 ^ 8) with 256.
  apply u32_small. lia.
Qed.

Lemma slot_entry_absent v : page_of ((v + 1) * 256) = None.
Proof. unfold page_of. replace ((v + 1) * 256) with (0 + 2 * ((v + 1) * 128)) by lia. by rewrite Z.odd_add_mul_2. Qed.

Lemma swap_offset_ok x v : 0 <= v -> v + 1 < max_swap_offset x -> swap_offset x ((v + 1) * 256) = Ok (v + 1).
Proof.
  intros Hv Hm. unfold swap_offset. rewrite Z.shiftr_div_pow2 by lia. change (2 ^ 8) with 256. rewrite Z.div_mul by lia.
  rewrite kassert_true; [done|]. repeat zcase; lia || done.
Qed.

(** Replacing a present entry by a swap entry leaves its page to be freed. *)
Lemma AS_swap U F s pgdir T M v f e p :
  AS U F s pgdir T M -> M !! v = Some e -> T !! (v / 1024) = Some f -> page_of e = Some p ->
  let M' := <[v := (v + 1) * 256]> M in
  AS U F (PageTable.set_pte (f, v mod 1024) ((v + 1) * 256) s) pgdir T M' /\ owned pgdir T M ≡ₚ p :: owned pgdir T M'.
Proof.
  intros H E Hf Hp M'. destruct (as_in _ _ _ _ _ _ H _ _ E) as (Hv & _ & _).
  assert (0 <= v < 720896) as Hvr by exact Hv.
  assert (Hown : owned pgdir T M ≡ₚ p :: owned pgdir T M').
  { rewrite (owned_delete _ _ _ _ _ E), Hp. simpl. constructor. unfold M'. rewrite <- insert_delete_eq.
    rewrite owned_insert by apply lookup_delete_eq. by rewrite slot_entry_absent. }
  split; [|done]. apply (AS_write U F s pgdir T M); [done|done|done|lia| |..].
  - by rewrite (proj2 (Z.eqb_neq _ 0)) by lia.
  - pose proof (as_nodup _ _ _ _ _ _ H) as Hnd. rewrite Hown in Hnd. by apply NoDup_cons in Hnd as [_ ?].
  - intros g Hg. assert (g ∈ owned pgdir T M) as Ho by (rewrite Hown; right; apply elem_of_owned; auto).
    destruct (as_own _ _ _ _ _ _ H g Ho). split; [done|]. split; [done|]. apply H. apply elem_of_app; right.
    apply held_inv in Hg as (k & e' & E' & Hg). destruct (decide (k = v)) as [->|Hne].
    + unfold M' in E'. rewrite lookup_insert_eq in E'. simplify_eq. by rewrite slot_entry_absent in Hg.
    + unfold M' in E'. rewrite lookup_insert_ne in E' by done. by eapply held_elem.
Qed.

(** The swappable pages are mapped where [pra_vaddr] says, at addresses the
    swap device has room for. *)
Definition resident (x : pm) (M : gmap Z Z) (l : list Z) : Prop :=
  forall p, p ∈ l -> exists v e, pra_vaddr x p = v * 4096 /\ v + 1 < max_swap_offset x /\ M !! v = Some e /\ page_of e = Some p.

(** What eviction of the pages [ps] does to the entries and the device. *)
Definition evicted (x : pm) (M : gmap Z Z) (ps : list Z) (x' : pm) (M' : gmap Z Z) : Prop :=
  forall v, match M !! v ≫= page_of with
            | Some p => if bool_decide (p ∈ ps) then M' !! v = Some ((v + 1) * 256) /\ slots x' !! (v + 1) = Some (frame x p)
                        else M' !! v = M !! v
            | None => M' !! v = M !! v
            end.

(** The pages still there have their contents, the device the rest of its own. *)
Definition evicts (x : pm) (M : gmap Z Z) (ps : list Z) (x' : pm) (M' : gmap Z Z) : Prop :=
  evicted x M ps x' M' /\ (forall g, g ∈ held page_of M' -> frame x' g = frame x g) /\
  (forall v, M !! v ≫= page_of = None -> slots x' !! (v + 1) = slots x !! (v + 1)).

Lemma evicted_page x M ps x' M' v g :
  evicted x M ps x' M' -> M' !! v ≫= page_of = Some g -> M !! v ≫= page_of = Some g /\ g ∉ ps.
Proof.
  intros He Hg. specialize (He v). destruct (M !! v ≫= page_of) as [p|] eqn:E; [|congruence].
  case_bool_decide as Hp; [|split; [congruence|]].
  - destruct He as [He _]. rewrite He in Hg. simpl in Hg. by rewrite slot_entry_absent in Hg.
  - assert (p = g) as <- by congruence. done.
Qed.

Lemma evicted_nil x M x' : evicted x M [] x' M.
Proof.
  intros v. destruct (M !! v ≫= page_of) as [p|]; [|done]. rewrite bool_decide_eq_false_2; [done|]. apply not_elem_of_nil.
Qed.

Lemma evicts_nil x M x' :
  (forall g, g ∈ held page_of M -> frame x' g = frame x g) -> slots x' = slots x -> evicts x M [] x' M.
Proof. intros Hf Hs. split; [apply evicted_nil|split; [done|by rewrite Hs]]. Qed.

Lemma evicts_trans x M ps x1 M1 ps' x2 M2 :
  evicts x M ps x1 M1 -> evicts x1 M1 ps' x2 M2 -> evicts x M (ps ++ ps') x2 M2.
Proof.
  intros (He1 & Hf1 & Hs1) (He2 & Hf2 & Hs2). split; [|split].
  - intros v. pose proof (He1 v) as H1. pose proof (He2 v) as H2.
    destruct (M !! v ≫= page_of) as [p|] eqn:E; [|by rewrite H1, E in H2; rewrite H2].
    rewrite (bool_decide_ext _ (p ∈ ps \/ p ∈ ps')) by apply elem_of_app. case_bool_decide as Hp.
    + destruct H1 as [H1 Hsl]. rewrite bool_decide_eq_true_2 by tauto.
      assert (Hno : M1 !! v ≫= page_of = None) by (rewrite H1; apply slot_entry_absent). rewrite Hno in H2.
      split; [congruence|]. by rewrite Hs2.
    + rewrite H1, E in H2. case_bool_decide as Hp'.
      * rewrite bool_decide_eq_true_2 by tauto. destruct H2 as [-> Hsl]. split; [done|]. rewrite Hsl. f_equal. apply Hf1.
        apply bind_Some in E as (e & E & Hpe). rewrite <- H1 in E. by eapply held_elem.
      * rewrite bool_decide_eq_false_2 by tauto. congruence.
  - intros g Hg. rewrite Hf2 by done. apply Hf1. apply held_inv in Hg as (v & e & E & Hg).
    destruct (evicted_page _ _ _ _ _ v g He2) as [Hg1 _]; [by rewrite E|]. apply bind_Some in Hg1 as (e' & E' & Hg1). by eapply held_elem.
  - intros v Hv. specialize (He1 v). rewrite Hv in He1. rewrite Hs2 by (by rewrite He1). by apply Hs1.
Qed.

Lemma resident_inj U F x pgdir T M v v' e e' p :
  AS U F x pgdir T M -> M !! v = Some e -> page_of e = Some p -> M !! v' = Some e' -> page_of e' = Some p -> v = v'.
Proof.
  intros H E Hp E' Hp'. destruct (decide (v = v')) as [|Hne]; [done|]. exfalso.
  destruct (as_page _ _ _ _ _ _ _ _ _ H E Hp) as (_ & _ & _ & Hno & _). apply Hno. apply elem_of_owned. right. right.
  eapply (held_elem _ _ v'); [|done]. by rewrite lookup_delete_ne.
Qed.

(** What swapping a page out leaves as it is. *)
Definition settings (x : pm) : Z * bool * option Z := (max_swap_offset x, swap_init_ok x, check_mm_struct x).

Lemma find_pte_found U F s pgdir T M v f :
  AS U F s pgdir T M -> user_vpn v -> T !! (v / 1024) = Some f -> find_pte pgdir (v * 4096) s = Ok (Some (f, v mod 1024), s).
Proof.
  intros H Hv Hf. rewrite <- (get_pte_found _ _ _ _ _ _ _ _ false H Hv Hf). unfold find_pte, get_pte, get_pte_by.
  by destruct (_ =? 0).
Qed.

(** One round of [swap_out]. *)
Lemma swap_round U F x pgdir T M l i n ok :
  AS U F x pgdir T M -> sq_rep (queue x) l -> NoDup l -> l <> [] -> resident x M l -> i <> n ->
  exists p l' v e x', l ≡ₚ p :: l' /\ M !! v = Some e /\ page_of e = Some p /\
    swap_out_loop pgdir i n (true :: ok) x = swap_out_loop pgdir (i + 1) n ok x' /\
    let M' := <[v := (v + 1) * 256]> M in
    AS U ({[ p ]} ∪ F) x' pgdir T M' /\ acct ({[ p ]} ∪ F) pgdir T M' = acct F pgdir T M /\
    sq_rep (queue x') l' /\ resident x' M' l' /\ evicts x M [p] x' M' /\
    settings x' = settings x /\ writes x' = writes x.
Proof.
  intros H Hq Hnd Hne Hres Hi. cbn [swap_out_loop]. rewrite (proj2 (Z.eqb_neq i n)) by done.
  destruct (sq_victim_ok _ _ Hq Hne) as (p & q' & l' & -> & Hq' & Hl). cbn [mbind res_bind].
  destruct (Hres p) as (v & e & Hva & Hm & E & Hp); [rewrite Hl; by left|].
  destruct (as_in _ _ _ _ _ _ H _ _ E) as (Hv & [f Hf] & He). assert (Hvr : 0 <= v < 720896) by exact Hv.
  destruct (as_page _ _ _ _ _ _ _ _ _ H E Hp) as (HpU & HpF & _ & _ & _ & HpT & _).
  change (pra_vaddr (set_queue q' x) p) with (pra_vaddr x p). rewrite Hva.
  assert (H0 : AS U F (set_queue q' x) pgdir T M) by (by apply AS_swp).
  rewrite (find_pte_found _ _ _ _ _ _ _ _ H0 Hv Hf). cbn [mbind res_bind].
  change (pra_vaddr (set_queue q' x) p) with (pra_vaddr x p). rewrite Hva.
  rewrite (pte_at_ent _ _ _ _ _ _ _ _ H0 Hv Hf), E. cbn [default from_option id].
  rewrite page_of_present, bool_decide_eq_true_2 by (rewrite Hp; eauto). cbn [kassert mbind res_bind].
  unfold swapfs_write. rewrite slot_entry_val by done. rewrite swap_offset_ok by (done || lia). cbn [mbind res_bind].
  unfold page2kva. rewrite (kaddr_ok _ _ _ _ _ _ _ H0 HpU). cbn [mbind res_bind]. change (negb (0 =? 0)) with false. cbv iota.
  change (frame (set_queue q' x) p) with (frame x p).
  set (x0 := set_slot (v + 1) (frame x p) (set_queue q' x)). assert (H1 : AS U F x0 pgdir T M) by (by apply AS_swp).
  change (pra_vaddr x0 p) with (pra_vaddr x p). rewrite Hva, slot_entry_val by done.
  destruct (AS_swap _ _ _ _ _ _ _ _ _ _ H1 E Hf Hp) as [H2 Hown]. set (M' := <[v := (v + 1) * 256]> M) in *.
  assert (Hpo : p ∉ owned pgdir T M').
  { pose proof (as_nodup _ _ _ _ _ _ H) as Hnd'. rewrite Hown in Hnd'. by apply NoDup_cons in Hnd' as [? _]. }
  destruct (AS_free _ _ _ _ _ _ p H2 HpU HpF Hpo) as (s2 & Hs2 & H3 & [[_ Hw] _]). rewrite Hs2. cbn [mbind res_bind].
  change (swp s2 = swp x0) in Hw.
  exists p, l', v, e, s2. split; [done|]. split; [done|]. split; [done|]. split; [done|].
  split; [exact H3|]. split; [by apply acct_give|]. split; [unfold queue; by rewrite Hw|].
  split; [|split; [split; [|split]|unfold settings, max_swap_offset, swap_init_ok, check_mm_struct, writes; by rewrite Hw]].
  - intros p' Hp'. destruct (Hres p') as (v' & e' & Hva' & Hm' & E' & Hpg'); [rewrite Hl; by right|].
    exists v', e'. unfold pra_vaddr, max_swap_offset. rewrite Hw. split; [done|]. split; [done|]. split; [|done].
    unfold M'. rewrite lookup_insert_ne; [done|]. intros <-. simplify_eq.
    rewrite Hl in Hnd. by apply NoDup_cons in Hnd as [? _].
  - intros u. unfold slots. rewrite Hw. destruct (decide (u = v)) as [->|Hu].
    + rewrite E. simpl. rewrite Hp, bool_decide_eq_true_2 by (by left). unfold M'. rewrite !lookup_insert_eq. done.
    + unfold M'. rewrite lookup_insert_ne by done. destruct (M !! u ≫= page_of) as [p'|] eqn:Eu; [|done].
      rewrite bool_decide_eq_false_2; [done|]. intros ->%list_elem_of_singleton. apply Hu.
      apply bind_Some in Eu as (e' & Eu & Hp'). exact (resident_inj _ _ _ _ _ _ _ _ _ _ _ H Eu Hp' E Hp).
  - intros g Hg. rewrite (free_page_frames _ _ _ g Hs2). unfold PageTable.set_pte, set_word.
    rewrite frame_set. zcase; [|done]. subst. exfalso.
    pose proof (as_nodup _ _ _ _ _ _ H3) as [_ (_ & Hd & _)%NoDup_app]%NoDup_cons. apply (Hd f); [by eapply held_elem|done].
  - intros u Hu. unfold slots. rewrite Hw. simpl. rewrite lookup_insert_ne; [done|]. intros Heq.
    assert (u = v) as -> by lia. rewrite E in Hu. simpl in Hu. congruence.
Qed.

Lemma swap_out_loop_ok U pgdir T n : forall ps x F M l i,
  AS U F x pgdir T M -> sq_rep (queue x) l -> NoDup l -> resident x M l ->
  i + Z.of_nat ps = n -> (ps <= length l)%nat ->
  exists vs l' x' M', l ≡ₚ vs ++ l' /\ length vs = ps /\
    swap_out_loop pgdir i n (replicate ps true) x = Ok (n, x') /\
    AS U (list_to_set vs ∪ F) x' pgdir T M' /\ acct (list_to_set vs ∪ F) pgdir T M' = acct F pgdir T M /\
    sq_rep (queue x') l' /\ resident x' M' l' /\ evicts x M vs x' M' /\ settings x' = settings x /\ writes x' = writes x.
Proof.
  induction ps as [|k IH]; intros x F M l i H Hq Hnd Hres Hin Hlen.
  { exists [], l, x, M. cbn [swap_out_loop replicate]. rewrite (proj2 (Z.eqb_eq i n)) by lia.
    assert (i = n) as -> by lia. simpl. rewrite union_empty_l_L. split_and!; try done. by apply evicts_nil. }
  destruct (swap_round U F x pgdir T M l i n (replicate k true)) as (p & l1 & v & e & x1 & Hl & E & Hp & Hstep & H1 & A1 & Hq1 & Hres1 & Hev1 & Hse & Hwr);
    [done|done|done|by destruct l; simpl in *; [lia|]|done|lia|].
  cbn [replicate]. rewrite Hstep. set (M1 := <[v := (v + 1) * 256]> M) in *.
  assert (Hnd1 : NoDup (p :: l1)) by (by rewrite <- Hl). apply NoDup_cons in Hnd1 as [Hpl Hnd1].
  destruct (IH x1 _ M1 l1 (i + 1) H1 Hq1 Hnd1 Hres1) as (vs & l' & x' & M' & Hl' & Hlv & Hrun & H' & A' & Hq' & Hres' & Hev & Hse' & Hwr');
    [lia|rewrite Hl in Hlen; simpl in Hlen; lia|].
  assert (Eset : (list_to_set (p :: vs) ∪ F : gset Z) = list_to_set vs ∪ ({[ p ]} ∪ F)) by (rewrite list_to_set_cons, (comm_L (∪) {[ p ]}), (assoc_L (∪)); done).
  exists (p :: vs), l', x', M'. rewrite Eset.
  split; [by rewrite Hl, Hl'|]. split; [simpl; lia|]. split; [done|]. split; [done|]. split; [congruence|].
  split; [done|]. split; [done|]. split; [|split; congruence].
  by apply (evicts_trans x M [p] x1 M1).
Qed.

(** A fault on a page that is on the device. *)
Lemma fault_page_swapped U F x pgdir T M v perm l c :
  AS U F x pgdir T M -> M !! v = Some ((v + 1) * 256) -> v + 1 < max_swap_offset x -> 0 <= perm < 8 ->
  swap_init_ok x = true -> slots x !! (v + 1) = Some c -> F <> ∅ -> sq_rep (queue x) l -> resident x M l ->
  exists q x', fault_page pgdir (v * 4096) perm true x = Ok (0, x') /\ q ∈ F /\
    let M' := <[v := q * 4096 + Z.lor 1 perm]> M in
    AS U (F ∖ {[ q ]}) x' pgdir T M' /\ acct (F ∖ {[ q ]}) pgdir T M' = acct F pgdir T M /\
    frame x' q = c /\ sq_rep (queue x') (l ++ [q]) /\ resident x' M' (l ++ [q]).
Proof.
  intros H E Hm Hperm Hok Hc HF Hq Hres. destruct (as_in _ _ _ _ _ _ H _ _ E) as (Hv & [f Hf] & He). assert (Hvr : 0 <= v < 720896) by exact Hv.
  unfold fault_page. rewrite (get_pte_found _ _ _ _ _ _ _ _ _ H Hv Hf). cbn [mbind res_bind].
  rewrite (pte_at_ent _ _ _ _ _ _ _ _ H Hv Hf), E. cbn [default from_option id].
  rewrite (proj2 (Z.eqb_neq _ 0)) by lia. rewrite page_of_present, slot_entry_absent, bool_decide_eq_false_2 by (by intros [? ?]).
  rewrite Hok. unfold swap_in.
  destruct (alloc_page_ok U F x (as_pool _ _ _ _ _ _ H)) as [[? _]|(q & p & HqF & -> & Hp)]; [done|done|]. cbn [mbind res_bind].
  destruct (alloc_fresh _ _ _ _ _ _ _ H HqF) as (HqU & Hq0 & Hqo & Hqr).
  pose proof (AS_alloc _ _ _ _ _ _ _ _ H Hp) as H1. rewrite (get_pte_found _ _ _ _ _ _ _ _ _ H1 Hv Hf). cbn [mbind res_bind].
  rewrite (pte_at_ent _ _ _ _ _ _ _ _ H1 Hv Hf), E. cbn [default from_option id].
  unfold swapfs_read. rewrite swap_offset_ok by (done || lia). cbn [mbind res_bind]. unfold page2kva.
  rewrite (kaddr_ok _ _ _ _ _ _ _ H1 HqU). cbn [mbind res_bind].
  change (slots (set_fpool p x)) with (slots x). rewrite Hc. cbn [default from_option id].
  set (s2 := set_frame q c (set_fpool p x)).
  assert (H2 : AS U (F ∖ {[ q ]}) s2 pgdir T M).
  { eapply (AS_frame _ _ _ _ _ _ [q]); [exact H1| |apply H1| |apply H1].
    - split; [done|]. intros g Hg. apply not_elem_of_cons in Hg as [Hg _]. split; [|done]. unfold s2. rewrite frame_set. by zcase.
    - intros g Hg. split; [|by eapply as_own]. apply not_elem_of_cons. split; [congruence|apply not_elem_of_nil]. }
  destruct (page_insert_found U (F ∖ {[ q ]}) s2 pgdir T M v f q perm H2 Hv Hf HqU) as (s3 & F3 & -> & H3 & [[_ Hw3] _] & A3 & _ & HF3 & Fr3);
    [set_solver|done|done|done|]. rewrite HF3 in * by (rewrite E; apply slot_entry_absent).
  cbn [mbind res_bind]. unfold swap_map_swappable. unfold queue at 1. rewrite Hw3. change (sw_queue (swp s2)) with (queue x).
  assert (Hql : q ∉ l).
  { intros Hin. destruct (Hres q Hin) as (w & e' & _ & _ & E' & Hp'). apply Hqo. apply elem_of_owned. right. right. by eapply held_elem. }
  destruct (sq_map_ok _ _ q Hq Hq0 Hql) as (q' & -> & Hq'). cbn [mbind res_bind].
  eexists q, _. split; [done|]. split; [done|]. cbv zeta. split; [by do 2 apply AS_swp|]. split; [by rewrite A3, acct_difference|].
  destruct (leaf_entry q perm Hperm) as (_ & Hx & Hodd).
  split; [|split; [done|]].
  - change (frame s3 q = c). rewrite Fr3; [unfold s2; by rewrite frame_set, Z.eqb_refl|]. intros ->. apply Hqo. by eapply as_table_in.
  - intros p' [Hp'| ->%list_elem_of_singleton]%elem_of_app.
    + destruct (Hres p' Hp') as (w & e' & Hva & Hmw & E' & Hpg). exists w, e'. split_and!; try done.
      * unfold pra_vaddr. simpl. rewrite Hw3, lookup_insert_ne; [done|]. congruence.
      * unfold max_swap_offset. simpl. by rewrite Hw3.
      * rewrite lookup_insert_ne; [done|]. intros <-. rewrite E in E'. simplify_eq. by rewrite slot_entry_absent in Hpg.
    + exists v, (q * 4096 + Z.lor 1 perm). split_and!; [|unfold max_swap_offset; simpl; by rewrite Hw3|by rewrite lookup_insert_eq|by apply page_of_entry; [lia|]].
      unfold pra_vaddr. simpl. by rewrite lookup_insert_eq.
Qed.

(** ** Frames for a page that was never there

    While [check_mm_struct] is the address space: the pages [l] can be swapped
    out, and the next [k] writes will succeed. *)
Record swapper (x : pm) (pgdir : Z) (M : gmap Z Z) (l : list Z) (k : nat) : Prop := {
  sr_on : swap_init_ok x = true;
  sr_mm : check_mm_struct x = Some pgdir;
  sr_queue : sq_rep (queue x) l;
  sr_nodup : NoDup l;
  sr_res : resident x M l;
  sr_len : (k <= length l)%nat;
  sr_writes : exists ws, writes x = replicate k true ++ ws
}.

Lemma swapper_swp x x' pgdir M l k : swapper x pgdir M l k -> swp x' = swp x -> swapper x' pgdir M l k.
Proof.
  intros [] Hw. assert (Hp : forall p, pra_vaddr x' p = pra_vaddr x p) by (intros; unfold pra_vaddr; by rewrite Hw).
  split; unfold swap_init_ok, check_mm_struct, queue, writes in *; rewrite ?Hw; try done.
  intros p Hin. rewrite Hp. unfold max_swap_offset. rewrite Hw. by apply sr_res0.
Qed.

(** A frame, free before or free by swapping a page out. *)
Record got (U F : gset Z) (x : pm) (pgdir : Z) (T M : gmap Z Z) (l : list Z) (k : nat)
    (q : Z) (x' : pm) (F' : gset Z) (M' : gmap Z Z) (vs l' : list Z) : Prop := {
  got_as : AS U F' x' pgdir T M';
  got_in : q ∈ U /\ 0 <= q /\ q ∉ F' /\ q ∉ owned pgdir T M' /\ page_ref x' q = 0;
  got_acct : {[ q ]} ∪ acct F' pgdir T M' = acct F pgdir T M;
  got_sub : F' ⊆ F;
  got_src : q ∈ F \/ q ∈ vs;
  got_evicts : evicts x M vs x' M';
  got_perm : l ≡ₚ vs ++ l';
  got_swapper : swapper x' pgdir M' l' (k - length vs);
  got_size : (length vs <= k)%nat /\ (length vs <= 1)%nat /\ (size F + k <= size F' + (k - length vs) + 1)%nat /\ (vs = [] \/ F = ∅)
}.

Lemma alloc_page_any U F x pgdir T M l k :
  AS U F x pgdir T M -> swapper x pgdir M l k -> (1 <= size F + k)%nat ->
  exists q x' F' M' vs l', alloc_page x = Ok (Some q, x') /\ got U F x pgdir T M l k q x' F' M' vs l'.
Proof.
  intros H HS Hk. destruct (decide (F = ∅)) as [HF|HF].
  - subst F. destruct HS as [Hon Hmm Hq Hnd Hres Hlen [ws Hws]]. rewrite size_empty in Hk. destruct k as [|k]; [lia|]. simpl in Hws.
    destruct (fa_alloc_ok _ _ _ (as_pool _ _ _ _ _ _ H)) as (r & p0 & Ha & Hr).
    destruct r as [f|]; [by destruct Hr as [?%elem_of_empty _]|]. destruct Hr as [-> _].
    set (x0 := set_writes (replicate k true ++ ws) x). assert (H0 : AS U ∅ x0 pgdir T M) by (by apply AS_swp).
    destruct (swap_round U ∅ x0 pgdir T M l 0 1 []) as (p & l' & v & e & x1 & Hl & E & Hp & Hstep & H1 & A1 & Hq1 & Hres1 & Hev1 & Hse & Hwr);
      [done|done|done|by destruct l; simpl in *; [lia|]|done|done|]. cbv zeta in *. set (M1 := <[v := (v + 1) * 256]> M) in *.
    injection Hse as Hmx Hon1 Hmm1.
    assert (Hne : ({[ p ]} ∪ ∅ : gset Z) <> ∅) by (clear; set_solver).
    assert (Hnil : ({[ p ]} ∪ ∅ : gset Z) ∖ {[ p ]} = ∅) by (clear; set_solver).
    destruct (alloc_page_ok U _ x1 (as_pool _ _ _ _ _ _ H1)) as [[Hx _]|(q & pl & HqF & Ha1 & Hp1)]; [done|done|].
    assert (q = p) as -> by (clear -HqF; set_solver). destruct (alloc_fresh _ _ _ _ _ _ _ H1 HqF) as (HqU & Hq0 & Hqo & Hqr).
    rewrite Hl in Hnd. apply NoDup_cons in Hnd as [_ Hnd].
    exists p, (set_fpool pl x1), ∅, M1, [p], l'. split.
    { unfold alloc_page. rewrite Hws. cbn [alloc_retry]. rewrite Ha. cbn [mbind res_bind].
      assert (Hx : set_fpool (fpool x) x = x) by (by destruct x). rewrite Hx, Hon, Hmm. rewrite bool_decide_eq_false_2 by tauto. cbn [negb orb].
      unfold swap_out. fold x0. rewrite Hstep. cbn [swap_out_loop]. change (0 + 1 =? 1) with true. cbv iota. cbn [mbind res_bind].
      unfold alloc_page in Ha1. rewrite Hwr in Ha1. exact Ha1. }
    split.
    + rewrite <- Hnil. by apply AS_alloc.
    + done.
    + by rewrite <- A1, <- (acct_difference _ _ _ _ p HqF), Hnil.
    + done.
    + right. by left.
    + destruct Hev1 as (He & Hf & Hs). by split.
    + done.
    + split; try done; [exact (eq_trans Hon1 Hon)|exact (eq_trans Hmm1 Hmm)| |].
      * rewrite Hl in Hlen. simpl in *. lia.
      * exists ws. change (writes x1 = replicate (S k - 1) true ++ ws). rewrite Hwr. simpl. by rewrite Nat.sub_0_r.
    + rewrite size_empty. simpl. split_and!; [lia|lia|lia|by right].
  - destruct (alloc_page_ok U F x (as_pool _ _ _ _ _ _ H)) as [[? _]|(q & pl & HqF & Ha & Hp)]; [done|done|].
    destruct (alloc_fresh _ _ _ _ _ _ _ H HqF) as (HqU & Hq0 & Hqo & Hqr).
    exists q, (set_fpool pl x), (F ∖ {[ q ]}), M, [], l. split; [done|]. split.
    + by apply AS_alloc.
    + split_and!; try done. clear. set_solver.
    + by apply acct_difference.
    + clear. set_solver.
    + by left.
    + by apply evicts_nil.
    + done.
    + rewrite Nat.sub_0_r. by apply (swapper_swp x).
    + rewrite size_difference, size_singleton by (clear -HqF; set_solver). assert (size F <> 0%nat) by (apply size_non_empty_iff; by intros ?%leibniz_equiv).
      simpl. split_and!; [lia|lia|lia|by left].
Qed.

(** The table for [v]. *)
Lemma get_pte_any U F x pgdir T M v l k :
  AS U F x pgdir T M -> user_vpn v -> swapper x pgdir M l k -> (1 <= size F + k)%nat ->
  exists f x' F' T' M' vs l', get_pte pgdir (v * 4096) true x = Ok (Some (f, v mod 1024), x') /\
    AS U F' x' pgdir T' M' /\ T' !! (v / 1024) = Some f /\ acct F' pgdir T' M' = acct F pgdir T M /\ F' ⊆ F /\
    evicts x M vs x' M' /\ l ≡ₚ vs ++ l' /\ swapper x' pgdir M' l' (k - length vs) /\
    (length vs <= k)%nat /\ (length vs <= 1)%nat /\ (size F + k <= size F' + (k - length vs) + 1)%nat /\ (vs = [] \/ F = ∅).
Proof.
  intros H Hv HS Hk. destruct (T !! (v / 1024)) as [f|] eqn:Hf.
  { exists f, x, F, T, M, [], l. rewrite (get_pte_found _ _ _ _ _ _ _ _ _ H Hv Hf), Nat.sub_0_r. simpl.
    split_and!; try done; try lia; [by apply evicts_nil|by left]. }
  destruct (alloc_page_any _ _ _ _ _ _ _ _ H HS Hk) as (f & x1 & F1 & M1 & vs & l' & Ha & [H1 (HfU & _ & HfF & Hfo & _) A1 Hsub _ Hev Hl HS1 (Hl1 & Hl0 & Hl2 & Hl3)]).
  destruct (get_pte_create U F M x F1 x1 pgdir T M1 v f H Hv Hf Ha H1 HfU HfF Hfo) as (x' & -> & H' & [[Hn Hw] K]).
  exists f, x', F1, (<[v / 1024 := f]> T), M1, vs, l'. split_and!; try done.
  - apply lookup_insert_eq.
  - assert (O : owned pgdir (<[v / 1024 := f]> T) M1 ≡ₚ f :: owned pgdir T M1).
    { unfold owned. rewrite held_insert by done. simpl. by rewrite Permutation_swap. }
    by rewrite (acct_take _ _ _ _ _ _ _ O).
  - rewrite <- (app_nil_r vs). apply (evicts_trans x M vs x1 M1); [done|]. apply evicts_nil; [|unfold slots; by rewrite Hw].
    intros g Hg. apply K. apply not_elem_of_cons. split; [|intros ->%list_elem_of_singleton; apply Hfo, elem_of_owned; auto].
    intros ->. pose proof (as_nodup _ _ _ _ _ _ H1) as [Hx _]%NoDup_cons. apply Hx. apply elem_of_app. by right.
  - by apply (swapper_swp x1).
Qed.

(** The page [q] entered at [v] and, while [check_mm_struct] is set, made
    swappable. *)
Definition registers (x : pm) (l : list Z) (q v : Z) (x' : pm) : Prop :=
  slots x' = slots x /\
  if swap_init_ok x && bool_decide (check_mm_struct x <> None)
  then sq_rep (queue x') (l ++ [q]) /\ pra_vaddr x' q = v * 4096
  else swp x' = swp x.

Lemma insert_register U F x pgdir T M v f q perm l x0 :
  AS U F x pgdir T M -> user_vpn v -> T !! (v / 1024) = Some f -> M !! v = None -> 0 <= perm < 8 ->
  q ∈ U /\ 0 <= q /\ q ∉ F /\ q ∉ owned pgdir T M /\ page_ref x q = 0 ->
  (swap_init_ok x && bool_decide (check_mm_struct x <> None) = true -> sq_rep (queue x) l /\ q ∉ l) ->
  alloc_page x0 = Ok (Some q, x) ->
  exists x', pgdir_alloc_page pgdir (v * 4096) perm x0 = Ok (Some q, x') /\
    AS U F x' pgdir T (<[v := q * 4096 + Z.lor 1 perm]> M) /\
    acct F pgdir T (<[v := q * 4096 + Z.lor 1 perm]> M) = {[ q ]} ∪ acct F pgdir T M /\ registers x l q v x'.
Proof.
  intros H Hv Hf HM Hperm (HqU & Hq0 & HqF & Hqo & Hqr) Hreg Ha. unfold pgdir_alloc_page. rewrite Ha. cbn [mbind res_bind].
  destruct (page_insert_found U F x pgdir T M v f q perm H Hv Hf HqU HqF Hqo Hqr Hperm) as (x1 & F1 & -> & H1 & [[_ Hw] _] & A1 & _ & HF1 & _).
  rewrite HF1 in * by (by rewrite HM). cbn [mbind res_bind]. change (negb (0 =? 0)) with false. cbv iota.
  unfold registers, slots, swap_init_ok, check_mm_struct, swap_map_swappable, queue in *. rewrite Hw.
  destruct (sw_init_ok (swp x) && _); [|by exists x1; rewrite Hw].
  destruct (Hreg eq_refl) as [Hq Hql]. destruct (sq_map_ok _ _ q Hq Hq0 Hql) as (q' & -> & Hq'). cbn [mbind res_bind].
  set (x2 := set_vaddr q (v * 4096) _). assert (H2 : AS U F x2 pgdir T (<[v := q * 4096 + Z.lor 1 perm]> M)) by (by do 2 apply AS_swp).
  destruct (leaf_entry q perm Hperm) as (_ & Hx & Hodd).
  assert (Hr : page_ref x2 q = 1).
  { apply H2. apply elem_of_app. right. eapply (held_elem _ _ v); [apply lookup_insert_eq|by apply page_of_entry; [lia|]]. }
  rewrite Hr. change (kassert (1 =? 1)) with (Ok tt). cbn [mbind res_bind]. exists x2. split_and!; try done.
  - unfold x2. simpl. by rewrite Hw.
  - unfold PageTable.pra_vaddr, x2. simpl. by rewrite lookup_insert_eq.
Qed.

(** Swapping is not set up; or it is, for no address space, and two frames are
    free; or it is for this one, and two frames are free or can be made free. *)
Definition can_serve (F : gset Z) (x : pm) (pgdir : Z) (M : gmap Z Z) (l : list Z) (k : nat) : Prop :=
  swap_init_ok x = false \/ (check_mm_struct x = None /\ (2 <= size F)%nat) \/
  (swapper x pgdir M l k /\ (2 <= size F + k)%nat).

(** The outcome of a fault that brings in a page.  Swapping not set up and
    fewer than two frames free: nothing but a table more.  Otherwise: the page
    mapped in a frame that was free, or that one of the pages [vs] swapped out
    for it had, no more of them than frames were missing; the page is then the
    last of those that can be swapped out. *)
Definition fault_result (U F : gset Z) (x : pm) (pgdir : Z) (T M : gmap Z Z) (v perm : Z) (l : list Z) (ret : Z) (x' : pm) : Prop :=
  (ret = - E_NO_MEM /\ swap_init_ok x = false /\ (size F <= 1)%nat /\
     exists F' T', AS U F' x' pgdir T' M /\ acct F' pgdir T' M = acct F pgdir T M) \/
  (ret = 0 /\ exists q F' T' M' vs, (q ∈ F \/ q ∈ vs) /\
     AS U F' x' pgdir T' (<[v := q * 4096 + Z.lor 1 perm]> M') /\
     acct F' pgdir T' (<[v := q * 4096 + Z.lor 1 perm]> M') = acct F pgdir T M /\
     evicted x M vs x' M' /\ (length vs <= 2 - size F)%nat /\
     if swap_init_ok x && bool_decide (check_mm_struct x <> None)
     then exists l', l ≡ₚ vs ++ l' /\ sq_rep (queue x') (l' ++ [q]) /\ pra_vaddr x' q = v * 4096
     else vs = [] /\ swp x' = swp x).

Lemma fault_page_free U F x pgdir T M v perm ok l :
  AS U F x pgdir T M -> user_vpn v -> M !! v = None -> 0 <= perm < 8 ->
  swap_init_ok x = false \/ (check_mm_struct x = None /\ (2 <= size F)%nat) ->
  exists ret x', fault_page pgdir (v * 4096) perm ok x = Ok (ret, x') /\ fault_result U F x pgdir T M v perm l ret x'.
Proof.
  intros H Hv HM Hperm Hsw. unfold fault_page.
  assert (Hoff : swap_init_ok x && bool_decide (check_mm_struct x <> None) = false).
  { destruct Hsw as [-> |[-> _]]; [done|]. rewrite bool_decide_eq_false_2 by tauto. apply andb_false_r. }
  destruct (get_pte_true _ _ _ _ _ _ v H Hv) as [(-> & Ht & ->)|(f & s1 & F1 & T1 & -> & H1 & Hf & HF1 & Hsz & [[_ Hw1] K1] & A1 & _ & Fr1)].
  { intros ->. destruct Hsw as [?|[_ Hx]]; [done|]. rewrite size_empty in Hx. lia. }
  { cbn [mbind res_bind]. eexists _, _; split; [done|]. left. rewrite size_empty in *. split; [done|].
    split; [destruct Hsw as [?|[_ ?]]; [done|lia]|]. split; [lia|]. eauto. }
  cbn [mbind res_bind]. rewrite (pte_at_ent _ _ _ _ _ _ _ _ H1 Hv Hf), HM. change (default 0 None =? 0) with true. cbv iota.
  assert (Hsw1 : swap_init_ok s1 = swap_init_ok x /\ check_mm_struct s1 = check_mm_struct x) by (unfold swap_init_ok, check_mm_struct; by rewrite Hw1).
  destruct Hsw1 as [Hon1 Hmm1].
  destruct (alloc_page_ok U F1 s1 (as_pool _ _ _ _ _ _ H1)) as [[-> Ha]|(q & pl & HqF & Ha & Hp)].
  { intros ->. rewrite Hon1. destruct Hsw as [?|[_ ?]]; [done|]. rewrite size_empty in Hsz. lia. }
  - unfold pgdir_alloc_page. rewrite Ha. cbn [mbind res_bind]. eexists _, _; split; [done|]. left. rewrite size_empty in Hsz.
    split; [done|]. split; [destruct Hsw as [?|[_ ?]]; [done|lia]|]. split; [lia|]. by exists ∅, T1.
  - destruct (alloc_fresh _ _ _ _ _ _ _ H1 HqF) as (HqU & Hq0 & Hqo & Hqr). pose proof (AS_alloc _ _ _ _ _ _ _ _ H1 Hp) as H2.
    destruct (insert_register U (F1 ∖ {[ q ]}) (set_fpool pl s1) pgdir T1 M v f q perm l s1 H2 Hv Hf HM Hperm) as (x' & -> & H' & A' & Hreg).
    { split_and!; try done. clear. set_solver. }
    { unfold swap_init_ok, check_mm_struct in *. simpl. rewrite Hw1, Hoff. done. }
    { done. }
    cbn [mbind res_bind]. eexists _, _; split; [done|]. right. split; [done|]. exists q, (F1 ∖ {[ q ]}), T1, M, [].
    destruct Hreg as [Hsl Hreg]. unfold swap_init_ok, check_mm_struct in Hreg, Hoff. simpl in Hreg. rewrite Hw1, Hoff in Hreg.
    split_and!; [left; set_solver|done|by rewrite A', acct_difference|apply evicted_nil|simpl; lia|].
    unfold swap_init_ok, check_mm_struct. rewrite Hoff. split; [done|]. by rewrite Hreg.
Qed.

Lemma fault_page_swapping U F x pgdir T M v perm ok l k :
  AS U F x pgdir T M -> user_vpn v -> M !! v = None -> 0 <= perm < 8 -> swapper x pgdir M l k -> (2 <= size F + k)%nat ->
  exists ret x', fault_page pgdir (v * 4096) perm ok x = Ok (ret, x') /\ fault_result U F x pgdir T M v perm l ret x'.
Proof.
  intros H Hv HM Hperm HS Hk. unfold fault_page.
  destruct (get_pte_any _ _ _ _ _ _ v _ _ H Hv HS) as (f & x1 & F1 & T1 & M1 & vs1 & l1 & -> & H1 & Hf & A1 & HF1 & Hev1 & Hl1 & HS1 & Hn1 & Ho1 & Hz1 & Hor1); [lia|].
  cbn [mbind res_bind]. assert (HM1 : M1 !! v = None) by (destruct Hev1 as (He & _); specialize (He v); rewrite HM in He; exact He).
  rewrite (pte_at_ent _ _ _ _ _ _ _ _ H1 Hv Hf), HM1. change (default 0 None =? 0) with true. cbv iota.
  destruct (alloc_page_any _ _ _ _ _ _ _ _ H1 HS1) as (q & x2 & F2 & M2 & vs2 & l2 & Ha & [H2 Hq A2 HF2 Hsrc Hev2 Hl2 HS2 (Hn2 & Ho2 & Hz2 & Hor2)]); [lia|].
  assert (HM2 : M2 !! v = None) by (destruct Hev2 as (He & _); specialize (He v); rewrite HM1 in He; exact He).
  assert (Hql : q ∉ l2).
  { intros Hin. destruct (sr_res _ _ _ _ _ HS2 q Hin) as (w & e & _ & _ & E & Hp). destruct Hq as (_ & _ & _ & Hqo & _).
    apply Hqo, elem_of_owned. right. right. by eapply held_elem. }
  destruct (insert_register U F2 x2 pgdir T1 M2 v f q perm l2 x1 H2 Hv Hf HM2 Hperm Hq) as (x' & -> & H' & A' & Hreg).
  { intros _. split; [apply HS2|done]. }
  { done. }
  cbn [mbind res_bind]. eexists _, _; split; [done|]. right. split; [done|]. exists q, F2, T1, M2, (vs1 ++ vs2).
  unfold registers in Hreg. rewrite (sr_on _ _ _ _ _ HS2), (sr_mm _ _ _ _ _ HS2), bool_decide_eq_true_2 in Hreg by done.
  rewrite (sr_on _ _ _ _ _ HS), (sr_mm _ _ _ _ _ HS), bool_decide_eq_true_2 by done. destruct Hreg as (Hsl & Hqq & Hva).
  pose proof (evicts_trans _ _ _ _ _ _ _ _ Hev1 Hev2) as (Hev & _).
  split_and!; [|done|congruence| | |].
  - destruct Hsrc as [?|?]; [left; by apply HF1|right; apply elem_of_app; by right].
  - intros u. specialize (Hev u). by rewrite Hsl.
  - rewrite length_app. destruct Hor1 as [-> | ->]; [|rewrite size_empty; lia].
    destruct Hor2 as [-> | ->]; [simpl; lia|]. rewrite size_empty in Hz1. simpl in *. lia.
  - exists l2. split; [|done]. by rewrite Hl1, Hl2, app_assoc.
Qed.

(** ** Theorems *)
Lemma fault_perm_range flags : 0 <= fault_perm flags < 8.
Proof. unfold fault_perm. by destruct (negb _). Qed.

Lemma area_vpn l addr flags :
  Forall (fun v => range_ok (vm_start v) (vm_end v) = true) l -> cover l addr = Some flags ->
  user_vpn (addr / 4096) /\ ROUNDDOWN addr PGSIZE = addr / 4096 * 4096.
Proof.
  intros Hl Hc. apply cover_some in Hc as (a & Ha & Hin & _). apply contains_spec in Hin.
  rewrite Forall_forall in Hl. destruct (range_pages _ _ (Hl a Ha)) as (lo & hi & E1 & E2 & Hlo & Hhi).
  split; [|unfold ROUNDDOWN; change PGSIZE with 4096; pose proof (Z.div_mod addr 4096); lia].
  unfold user_vpn. change (USERTOP / 4096) with 720896. pose proof (Z.div_mod addr 4096). pose proof (Z.mod_pos_bound addr 4096). lia.
Qed.

(** [do_pgfault] is the lookup of the area, the test of the access, and
    [fault_page]. *)
Lemma do_pgfault_eq st l pgdir ec addr ok x :
  rep st l ->
  exists st', rep st' l /\
    do_pgfault st pgdir ec addr ok x =
    match cover l.*2 addr with
    | Some flags =>
        if fault_allowed ec flags then
          '(ret, x) ← fault_page pgdir (ROUNDDOWN addr PGSIZE) (fault_perm flags) ok x; Ok (ret, st', x)
        else Ok (- E_INVAL, st', x)
    | None => Ok (- E_INVAL, st', x)
    end.
Proof.
  intros Hr. unfold do_pgfault. pose proof (find_vma_spec st l addr Hr) as Hf. destruct (find_vma st addr) as [[a|] st'].
  - destruct Hf as (v & Hin & Hc & _ & Hr'). exists st'. split; [done|]. rewrite (cover_in _ _ _ _ _ Hr Hin Hc).
    rewrite (rep_vma _ _ _ _ Hr' Hin). apply contains_spec in Hc. rewrite (Z.gtb_ltb (vm_start v)), (proj2 (Z.ltb_ge _ _)) by lia.
    by destruct (fault_allowed ec (vm_flags v)).
  - destruct Hf as [-> Hf]. exists st. split; [done|]. by rewrite (cover_none _ _ Hf).
Qed.


(** With swapping set up but [check_mm_struct] NULL, as the kernel runs once
    [check_swap] is over, a fault with no frame free is never answered with
    [-E_NO_MEM]: [alloc_pages] calls [swap_out] on the NULL pointer and the
    kernel stops. *)
Theorem do_pgfault_no_frame_panics U x pgdir T M st l ec addr ok flags :
  AS U ∅ x pgdir T M -> rep st l -> Forall (fun v => range_ok (vm_start v) (vm_end v) = true) l.*2 ->
  M !! (addr / 4096) = None -> swap_init_ok x = true -> check_mm_struct x = None ->
  cover l.*2 addr = Some flags -> fault_allowed ec flags = true ->
  do_pgfault st pgdir ec addr ok x = Panic.
Proof.
  intros H Hr Hl HM Hon Hmm Hc Hal. destruct (do_pgfault_eq st l pgdir ec addr ok x Hr) as (st' & _ & ->). rewrite Hc, Hal.
  destruct (area_vpn _ _ _ Hl Hc) as [Hv ->].
  assert (Hp : alloc_page x = Panic).
  { destruct (fa_alloc_ok _ _ _ (as_pool _ _ _ _ _ _ H)) as (r & p & Ha & Hx).
    destruct r as [f|]; [by destruct Hx as [?%elem_of_empty _]|]. destruct Hx as [-> _].
    assert (Hx : set_fpool (fpool x) x = x) by (by destruct x).
    unfold alloc_page. destruct (writes x); cbn [alloc_retry]; rewrite Ha; cbn [mbind res_bind]; by rewrite Hx, Hon, Hmm, bool_decide_eq_false_2 by tauto. }
  unfold fault_page. destruct (T !! (addr / 4096 / 1024)) as [f|] eqn:Hf.
  - rewrite (get_pte_found _ _ _ _ _ _ _ _ _ H Hv Hf). cbn [mbind res_bind].
    rewrite (pte_at_ent _ _ _ _ _ _ _ _ H Hv Hf), HM. change (default 0 None =? 0) with true. cbv iota.
    unfold pgdir_alloc_page. by rewrite Hp.
  - destruct (user_vpn_pdx _ Hv) as [Hv2 Hd]. unfold get_pte, get_pte_by. rewrite pdx_page by done.
    rewrite (as_tab _ _ _ _ _ _ H), Hf by done. cbn [from_option]. change (Z.land 0 PTE_P =? 0) with true. cbn [negb]. cbv iota. by rewrite Hp.
Qed.

(** C12: Swapping out and back: [swap_out] of [n] pages (each transfer done)
    evicts [n] of the swappable pages, frees their frames, and leaves every
    other mapping alone; a later allowed access to an evicted page makes
    [do_pgfault] return 0 with the page mapped again at the same address in a
    frame with the contents it had when it was evicted. *)
Theorem swap_roundtrip U F x pgdir T M q0 n :
  AS U F x pgdir T M -> sq_rep (queue x) q0 -> NoDup q0 -> resident x M q0 -> swap_init_ok x = true ->
  (n <= length q0)%nat ->
  exists vs x' M', swap_out pgdir (Z.of_nat n) (replicate n true) x = Ok (Z.of_nat n, x') /\
    length vs = n /\ vs ⊆ q0 /\ AS U (list_to_set vs ∪ F) x' pgdir T M' /\ evicted x M vs x' M' /\
    forall v e p st l ec addr flags,
      M !! v = Some e -> page_of e = Some p -> p ∈ vs -> rep st l ->
      Forall (fun a => range_ok (vm_start a) (vm_end a) = true) l.*2 -> addr / 4096 = v ->
      cover l.*2 addr = Some flags -> fault_allowed ec flags = true ->
      exists q st' x'' F'' M'', do_pgfault st pgdir ec addr true x' = Ok (0, st', x'') /\
        AS U F'' x'' pgdir T M'' /\ M'' = <[v := q * 4096 + Z.lor 1 (fault_perm flags)]> M' /\
        frame x'' q = frame x p.
Proof.
  intros H Hq Hnd Hres Hok Hn.
  destruct (swap_out_loop_ok U pgdir T (Z.of_nat n) n x F M q0 0 H Hq Hnd Hres) as (vs & l' & x' & M' & Hl & Hlen & Hrun & H' & _ & Hq' & Hres' & (Hev & _) & Hse & _);
    [lia|done|].
  injection Hse as Hmx Hok' _.
  exists vs, x', M'. split; [exact Hrun|]. split; [done|]. split; [intros p Hp; rewrite Hl; apply elem_of_app; by left|].
  split; [done|]. split; [done|]. intros v e p st l ec addr flags E Hp Hin Hr Hareas Haddr Hc Hal.
  destruct (do_pgfault_eq st l pgdir ec addr true x' Hr) as (st' & _ & ->). rewrite Hc, Hal.
  destruct (area_vpn _ _ _ Hareas Hc) as [_ ->]. rewrite Haddr.
  pose proof (Hev v) as Hv. rewrite E in Hv. simpl in Hv. rewrite Hp, bool_decide_eq_true_2 in Hv by done. destruct Hv as [Hv1 Hv2].
  assert (Hm : v + 1 < max_swap_offset x').
  { rewrite Hmx. destruct (Hres p) as (w & e' & _ & Hm & E' & Hp'); [rewrite Hl; apply elem_of_app; by left|].
    by rewrite (resident_inj _ _ _ _ _ _ _ _ _ _ _ H E Hp E' Hp'). }
  destruct (fault_page_swapped U _ x' pgdir T M' v (fault_perm flags) l' (frame x p) H' Hv1 Hm (fault_perm_range flags)) as (q & x'' & -> & _ & H'' & _ & Hfr & _);
    [congruence|exact Hv2|set_solver|done|done|].
  simpl. eexists q, st', x'', _, _. split; [done|]. split; [exact H''|]. split; [done|]. done.
Qed.
End fault.
