(* ===== verification/PmmFrames.v ===== *)
(** * The page allocator of default_pmm.c below the page tables

    [default_pmm.c] with best fit meets the interface that the page tables are
    proved against; and a small machine on it, on which the theorems of
    PageTable are applied. *)
From S2P Require Import Prelude Blocks DefaultPmm Libs SwapFifo Vmm PageTable PageFault.

(** The free frames [F] are the free pages of the block list; every other
    managed frame is handed out. *)
Definition pmm_frames (U : gset Z) (st : DefaultPmm.pmm) (F : gset Z) : Prop :=
  exists bs, DefaultPmm.rep st bs /\ (forall x, x ∈ F <-> Blocks.free_page bs x) /\ F ⊆ U /\
    (forall x, x ∈ U -> 0 <= x) /\ (forall x, x ∈ U -> x ∉ F -> DefaultPmm.owned st x) /\
    Blocks.total bs = Z.of_nat (size F) /\ Z.of_nat (size U) < 2 ^ 32 - 1.

Lemma same_page_owned st st' x :
  DefaultPmm.page st' x = DefaultPmm.page st x -> DefaultPmm.owned st x -> DefaultPmm.owned st' x.
Proof. unfold DefaultPmm.owned, DefaultPmm.PageReserved, DefaultPmm.PageProperty. by intros ->. Qed.

Lemma pmm_alloc_frame U st F :
  pmm_frames U st F ->
  exists r st', DefaultPmm.default_alloc_pages_best_fit 1 st = Ok (r, st') /\
    match r with
    | None => st' = st /\ F = ∅
    | Some f => f ∈ F /\ pmm_frames U st' (F ∖ {[ f ]})
    end.
Proof.
  intros (bs & Hr & HF & HU & Hpos & Hown & Htot & Hsz).
  destruct (@pm_alloc_ok _ _ best_fit_manager st bs 1 Hr) as (r & st' & He & Hs); [lia|]. exists r, st'. split; [done|].
  pose proof (DefaultPmm.rep_sep _ _ Hr) as Hsep. destruct r as [f|].
  - destruct Hs as (l & n & r & Hbs & Hn & Hr' & Ho & Hkeep).
    assert (Hin : (f, n) ∈ bs) by (rewrite Hbs; apply elem_of_app; right; by left).
    assert (HfF : f ∈ F) by (apply HF; exists f, n; split; [done|lia]). split; [done|].
    assert (Hfree : forall x, Blocks.free_page (l ++ Blocks.carve f n 1 ++ r) x <-> x ∈ F ∖ {[ f ]}).
    { intros x. rewrite (Blocks.carve_free_page 0) by (lia || by rewrite <- Hbs). rewrite <- Hbs, <- HF.
      rewrite elem_of_difference, elem_of_singleton. assert (f <= x < f + 1 <-> x = f) by lia. tauto. }
    exists (l ++ Blocks.carve f n 1 ++ r). split; [done|]. split; [intros x; by rewrite Hfree|]. split; [set_solver|]. split; [done|].
    split; [|split; [|done]].
    + intros x HxU HxF. destruct (decide (x = f)) as [->|Hne]; [apply Ho; lia|].
      apply (same_page_owned st); [apply Hkeep; rewrite <- HF; set_solver|]. apply Hown; set_solver.
    + rewrite Blocks.carve_total by lia. rewrite <- Hbs, Htot, size_difference by set_solver. rewrite size_singleton.
      assert (size F <> 0%nat) by (apply size_non_empty_iff; set_solver). lia.
  - destruct Hs as [-> Hn]. split; [done|]. apply set_eq. intros x. split; [|set_solver]. rewrite HF. intros (b & n & Hin & Hx).
    specialize (Hn b n Hin). lia.
Qed.

Lemma pmm_free_frame U st F f :
  pmm_frames U st F -> f ∈ U -> f ∉ F ->
  exists st', DefaultPmm.default_free_pages f 1 st = Ok st' /\ pmm_frames U st' ({[ f ]} ∪ F).
Proof.
  intros (bs & Hr & HF & HU & Hpos & Hown & Htot & Hsz) HfU HfF. pose proof (DefaultPmm.rep_sep _ _ Hr) as Hsep.
  assert (Hfits : Blocks.fits f 1 bs).
  { intros p m Hin. destruct (decide (p + m <= f)); [by left|]. destruct (decide (f + 1 <= p)); [by right|]. exfalso.
    apply HfF, HF. exists p, m. split; [done|lia]. }
  assert (HFU : (size ({[ f ]} ∪ F) <= size U)%nat) by (apply subseteq_size; set_solver).
  rewrite size_union in HFU by set_solver. rewrite size_singleton in HFU.
  destruct (@pm_free_ok _ _ best_fit_manager st bs f 1 Hr) as (st' & He & Hr' & Hkeep); [lia|by apply Hpos|done| |lia|].
  { intros x Hx. assert (x = f) as -> by lia. by apply Hown. }
  exists st'. split; [done|]. exists (Blocks.insert_block f 1 bs).
  assert (Hfree : forall x, Blocks.free_page (Blocks.insert_block f 1 bs) x <-> x ∈ ({[ f ]} ∪ F : gset Z)).
  { intros x. rewrite (Blocks.insert_block_free_page 0) by (done || lia || (by apply Hpos)).
    rewrite <- HF, elem_of_union, elem_of_singleton. assert (f <= x < f + 1 <-> x = f) by lia. tauto. }
  split; [done|]. split; [intros x; by rewrite Hfree|]. split; [set_solver|]. split; [done|]. split; [|split; [|done]].
  - intros x HxU HxF. apply (same_page_owned st); [apply Hkeep; by rewrite Hfree|]. apply Hown; [done|set_solver].
  - rewrite Blocks.insert_block_total, Htot. rewrite size_union by set_solver. rewrite size_singleton. lia.
Qed.

Lemma pmm_frames_sub U st F : pmm_frames U st F -> F ⊆ U.
Proof. by intros (bs & _ & _ & HU & _). Qed.

#[export] Instance pmm_frame_alloc : FrameAlloc := {|
  fa_state := DefaultPmm.pmm;
  fa_alloc := DefaultPmm.default_alloc_pages_best_fit 1;
  fa_free := fun f => DefaultPmm.default_free_pages f 1;
  fa_rep := pmm_frames;
  fa_sub := pmm_frames_sub;
  fa_alloc_ok := pmm_alloc_frame;
  fa_free_ok := pmm_free_frame
|}.

(** ** A machine of eight frames

    Frame 0 is the directory of a process, 1 its table for the addresses from
    0x800000 on, 2 the page at 0x800000; frame 3 is the directory of another
    process; 4 to 7 are free.  Swapping is set up for the first process: the
    page at 0x800000 is swappable, the swap device has room for 4096 pages and
    the next write to it succeeds. *)
Definition pool4 : DefaultPmm.pmm := DefaultPmm.take_block 0 4 DefaultPmm.demo0.
Definition all_frames : gset Z := list_to_set (seqZ 0 8).
Definition free_frames : gset Z := list_to_set (seqZ 4 4).
Definition queue0 : swapst := Swap (ListH.list_add pra_list_head 2 (ListH.list_init pra_list_head ∅)) ∅ ∅ (Some pra_list_head).
Definition machine0 : pm :=
  Pm {[ 0 := {[ 2 := 4096 + 7 ]}; 1 := {[ 0 := 2 * 4096 + 7 ]}; 2 := {[ 0 := 42 ]} ]} {[ 1 := 1; 2 := 1 ]} pool4 8
    (Swapping queue0 {[ 2 := 0x800000 ]} ∅ 4096 true (Some 0) [true]).
Definition tables0 : gmap Z Z := {[ 2 := 1 ]}.
Definition pages0 : gmap Z Z := {[ 2048 := 2 * 4096 + 7 ]}.

Lemma pool4_frames : pmm_frames all_frames pool4 free_frames.
Proof.
  exists [(4, 4)]. split; [apply (DefaultPmm.take_block_rep DefaultPmm.demo0 [] [] 0 8 4); [apply DefaultPmm.demo0_rep|lia]|].
  split.
  { intros x. unfold free_frames. rewrite elem_of_list_to_set, elem_of_seqZ. split.
    - intros Hx. exists 4, 4. split; [by left|lia].
    - intros (b & n & [= -> ->]%list_elem_of_singleton & Hx). lia. }
  split; [by apply (bool_decide_unpack _); vm_compute|].
  split; [intros x; unfold all_frames; rewrite elem_of_list_to_set, elem_of_seqZ; lia|].
  split; [|by vm_compute].
  intros x. unfold all_frames, free_frames. rewrite !elem_of_list_to_set, !elem_of_seqZ. intros Hx Hn.
  apply (DefaultPmm.take_block_owned DefaultPmm.demo0 [] [] 0 8 4); [apply DefaultPmm.demo0_rep|lia|lia].
Qed.

Lemma div_2048 v : v / 1024 = 2 -> v mod 1024 = 0 -> v = 2048.
Proof. intros. pose proof (Z.div_mod v 1024). lia. Qed.

Lemma word_table0 i : word machine0 1 i = if i =? 0 then 2 * 4096 + 7 else 0.
Proof. unfold word. change (frame machine0 1) with ({[ 0 := 2 * 4096 + 7 ]} : gmap Z Z). zcase; subst; [done|]. by rewrite lookup_singleton_ne. Qed.

Lemma machine0_A : AS all_frames free_frames machine0 0 tables0 pages0.
Proof.
  constructor.
  - exact pool4_frames.
  - intros f. unfold all_frames. rewrite elem_of_list_to_set, elem_of_seqZ. simpl. lia.
  - intros d _. unfold word. change (frame machine0 0) with ({[ 2 := 4096 + 7 ]} : gmap Z Z). unfold tables0.
    destruct (decide (d = 2)) as [->|Hne]; [done|]. by rewrite !lookup_singleton_ne.
  - unfold tables0. intros d f [<- <-]%lookup_singleton_Some. unfold user_pdx. change (USERTOP / PTSIZE) with 704. lia.
  - unfold tables0. intros v f Hv [Hd <-]%lookup_singleton_Some. rewrite word_table0. unfold pages0. zcase.
    + by rewrite (div_2048 v), lookup_singleton_eq.
    + rewrite lookup_singleton_ne; [done|]. by intros <-.
  - unfold pages0. intros v e [<- <-]%lookup_singleton_Some. split; [|split; [by eexists|lia]]. unfold user_vpn. change (USERTOP / 4096) with 720896. lia.
  - apply (bool_decide_unpack _). by vm_compute.
  - intros f Hf. change (f ∈ [0; 1; 2]) in Hf. unfold all_frames, free_frames. rewrite !elem_of_list_to_set, !elem_of_seqZ. set_unfold in Hf. lia.
  - intros f Hf. change (f ∈ [1; 2]) in Hf. set_unfold in Hf. by destruct_or! Hf; subst.
  - intros f. unfold free_frames. rewrite elem_of_list_to_set, elem_of_seqZ. intros Hf. unfold page_ref. simpl.
    by rewrite lookup_insert_ne, lookup_singleton_ne by lia.
Qed.

Lemma machine0_B : AS all_frames free_frames machine0 3 ∅ ∅.
Proof.
  constructor; try (intros; done); try apply machine0_A.
  - apply (bool_decide_unpack _). by vm_compute.
  - intros f Hf. change (f ∈ [3]) in Hf. apply list_elem_of_singleton in Hf as ->.
    unfold all_frames, free_frames. rewrite !elem_of_list_to_set, !elem_of_seqZ. lia.
  - intros f Hf. by apply elem_of_nil in Hf.
Qed.

Lemma machine0_two : two_spaces all_frames free_frames machine0 0 tables0 pages0 3 ∅ ∅.
Proof.
  split_and!; [apply machine0_A|apply machine0_B|]. intros f Hf. change (f ∈ [0; 1; 2]) in Hf. change (f ∉ [3]).
  set_unfold in Hf. rewrite list_elem_of_singleton. lia.
Qed.

Lemma unmap_range_correct_witness :
  exists s' F', unmap_range 4 0 0x800000 0x802000 machine0 = Ok s' /\
    AS all_frames F' s' 0 tables0 (cut (0x800000 / 4096) (0x802000 / 4096) pages0) /\
    keeps (owned 0 tables0 pages0) machine0 s' /\
    acct F' 0 tables0 (cut (0x800000 / 4096) (0x802000 / 4096) pages0) = acct free_frames 0 tables0 pages0.
Proof. apply unmap_range_correct; [exact machine0_A|reflexivity|vm_compute; lia]. Defined.

Lemma page_insert_correct_witness :
  (free_frames = ∅ /\ (∅ : gmap Z Z) !! (4096 / 1024) = None /\ page_insert 3 2 (4096 * 4096) 6 (set_page_ref 2 0 machine0) = Ok (- E_NO_MEM, set_page_ref 2 0 machine0)) \/
  exists s' F' T', page_insert 3 2 (4096 * 4096) 6 (set_page_ref 2 0 machine0) = Ok (0, s') /\
    AS all_frames F' s' 3 T' (<[4096 := 2 * 4096 + Z.lor 1 6]> ∅) /\
    acct F' 3 T' (<[4096 := 2 * 4096 + Z.lor 1 6]> ∅) = {[ 2 ]} ∪ acct free_frames 3 ∅ ∅.
Proof.
  apply page_insert_correct; [apply AS_ref; [exact machine0_B|by apply (bool_decide_unpack _); vm_compute..]| |by intros ?%(f_equal size)|by apply (bool_decide_unpack _); vm_compute..|reflexivity|lia].
  split; [done|reflexivity].
Defined.

Lemma copy_range_correct_witness :
  exists s' F' TB' MB', copy_range 2 3 0 0x800000 0x802000 machine0 = Ok (0, s') /\
    two_spaces all_frames F' s' 0 tables0 pages0 3 TB' MB' /\
    copied machine0 pages0 (0x800000 / 4096) (0x802000 / 4096) s' ∅ MB' /\
    acct F' 3 TB' MB' = acct free_frames 3 ∅ ∅ /\
    (forall g, g ∉ free_frames -> g ∉ 3 :: held Some ∅ -> frame s' g = frame machine0 g).
Proof. apply copy_range_correct; [exact machine0_two|reflexivity|vm_compute; lia|intros v _; reflexivity|vm_compute; lia]. Defined.

(** The process of [machine0] with the one area from 0x800000 to 0x802000. *)
Definition area0 : vma_struct := Vma 64 0x800000 0x802000 3.
Definition space0 : vmst := Vmst (Mm 64 [100] None 1 0) {[ 100 := area0 ]} [] [].

Lemma space0_rep : Vmm.rep space0 [(100, area0)].
Proof.
  constructor; try done; try (by apply Forall_singleton).
  - apply (bool_decide_unpack _). by vm_compute.
  - by repeat constructor.
Qed.

Lemma exit_mmap_releases_witness :
  exists s' F', exit_mmap_pages (Z.to_nat 720896) space0 0 machine0 = Ok s' /\ AS all_frames F' s' 0 ∅ ∅ /\
    F' = acct free_frames 0 tables0 pages0 ∖ {[ 0 ]}.
Proof.
  apply (exit_mmap_releases _ _ _ _ _ _ _ [(100, area0)]); [exact machine0_A|exact space0_rep|reflexivity|by apply Forall_singleton|..].
  - unfold pages0. intros v e [<- <-]%lookup_singleton_Some _. by eexists.
  - unfold tables0. intros d f [<- <-]%lookup_singleton_Some. exists area0. split; [by left|]. split; vm_compute; done.
Defined.

(** ** Faults and swapping on the same machine *)
Lemma queue0_swappable : swappable queue0 [2].
Proof. split; [done|]. apply (ListH.ring_add_head _ _ []); [apply ListH.ring_init|set_solver by done]. Qed.

Lemma machine0_resident : resident machine0 pages0 [2].
Proof. intros p ->%list_elem_of_singleton. exists 2048, (2 * 4096 + 7). done. Qed.

Lemma machine0_swapper : swapper machine0 0 pages0 [2] 1.
Proof.
  split; try done; [exact queue0_swappable|by apply NoDup_singleton|exact machine0_resident|by exists []].
Qed.


Lemma swap_roundtrip_witness :
  exists vs x' M', swap_out 0 (Z.of_nat 1) (replicate 1 true) machine0 = Ok (Z.of_nat 1, x') /\
    length vs = 1%nat /\ vs ⊆ [2] /\ AS all_frames (list_to_set vs ∪ free_frames) x' 0 tables0 M' /\ evicted machine0 pages0 vs x' M' /\
    forall v e p st l ec addr flags,
      pages0 !! v = Some e -> page_of e = Some p -> p ∈ vs -> Vmm.rep st l ->
      Forall (fun a => range_ok (vm_start a) (vm_end a) = true) l.*2 -> addr / 4096 = v ->
      cover l.*2 addr = Some flags -> fault_allowed ec flags = true ->
      exists q st' x'' F'' M'', do_pgfault st 0 ec addr true x' = Ok (0, st', x'') /\
        AS all_frames F'' x'' 0 tables0 M'' /\ M'' = <[v := q * 4096 + Z.lor 1 (fault_perm flags)]> M' /\
        frame x'' q = frame machine0 p.
Proof.
  apply (swap_roundtrip all_frames free_frames machine0 0 tables0 pages0 [2] 1);
    [exact machine0_A|exact queue0_swappable|by apply NoDup_singleton|exact machine0_resident|reflexivity|done].
Defined.

(** No frame is free: the page at 0x800000 goes to slot 2049 of the swap
    device, and its frame 2 to the page at 0x801000. *)
Definition machine_full : pm := set_fpool (DefaultPmm.take_block 0 8 DefaultPmm.demo0) machine0.

Example fault_swaps_out :
  match do_pgfault space0 0 2 0x801234 true machine_full with
  | Ok (r, _, x) => (r, word x 1 0, word x 1 1, slots x !! 2049) = (0, 2049 * 256, 2 * 4096 + 7, Some {[ 0 := 42 ]})
  | _ => False
  end.
Proof. by vm_compute. Qed.
