(* ===== verification/Kmalloc.v ===== *)
(** * kern/mm/kmalloc.c: the SLOB allocator

    Addresses of blocks count units of [sizeof(slob_t)], 8 bytes; a page is
    512 units.  [mem] holds the headers ([units] and [next]) that have been
    written.  [supply] are the results of the next [alloc_pages] calls, in
    order, as addresses; when they are used up there is no page.  [released]
    collects the pages given back.  Interrupt masking makes each function one
    step.  The size of an address space bounds no pointer here: additions on
    addresses do not wrap around. *)
From S2P Require Import Prelude Blocks.

Definition PAGE_SIZE : Z := 4096.
Definition SLOB_UNIT : Z := 8.
Definition SLOB_UNITS (size : Z) : Z := (size + SLOB_UNIT - 1) / SLOB_UNIT.

Record slob_t := Slob { units : Z; next : Z }.

(** [bb] is the address of the record itself. *)
Record bigblock_t := Big { bb : Z; order : Z; pages : Z }.

Record heap := Heap {
  mem : gmap Z slob_t;
  slobfree : Z;
  bigblocks : list bigblock_t;
  supply : list (option Z);
  released : list (Z * Z)
}.

Definition rd (h : heap) (p : Z) : slob_t := default (Slob 0 0) (mem h !! p).
Definition wr (p : Z) (b : slob_t) (h : heap) : heap := Heap (<[p := b]> (mem h)) (slobfree h) (bigblocks h) (supply h) (released h).
Definition set_units (p u : Z) (h : heap) : heap := wr p (Slob u (next (rd h p))) h.
Definition set_next (p n : Z) (h : heap) : heap := wr p (Slob (units (rd h p)) n) h.
Definition set_slobfree (p : Z) (h : heap) : heap := Heap (mem h) p (bigblocks h) (supply h) (released h).
Definition set_bigblocks (l : list bigblock_t) (h : heap) : heap := Heap (mem h) (slobfree h) l (supply h) (released h).
Definition set_supply (l : list (option Z)) (h : heap) : heap := Heap (mem h) (slobfree h) (bigblocks h) l (released h).

(** One page or [2^order] pages. *)
Definition __slob_get_free_pages (order : Z) (h : heap) : Z * heap :=
  match supply h with
  | [] => (0, h)
  | o :: l => (default 0 o, set_supply l h)
  end.

Definition __slob_free_pages (kva order : Z) (h : heap) : heap :=
  Heap (mem h) (slobfree h) (bigblocks h) (supply h) ((kva, order) :: released h).

(** The loop that looks for the block before [b]; [n] rounds. *)
Fixpoint free_scan (n : nat) (cur b : Z) (h : heap) : res Z :=
  match n with
  | O => Spin
  | S n =>
      let nx := next (rd h cur) in
      if (b >? cur) && (b <? nx) then Ok cur
      else if (cur >=? nx) && ((b >? cur) || (b <? nx)) then Ok cur
      else free_scan n nx b h
  end.

(** The ring visits no header twice, so it has no more blocks than [mem]. *)
Definition ring_fuel (h : heap) : nat := S (size (mem h)).

Definition slob_free (b size : Z) (h : heap) : res heap :=
  if b =? 0 then Ok h
  else
    let h := if negb (size =? 0) then set_units b (SLOB_UNITS size) h else h in
    cur ← free_scan (ring_fuel h) (slobfree h) b h;
    let cn := next (rd h cur) in
    let h :=
      if b + units (rd h b) =? cn then
        let h := set_units b (units (rd h b) + units (rd h cn)) h in set_next b (next (rd h cn)) h
      else set_next b cn h in
    let h :=
      if cur + units (rd h cur) =? b then
        let h := set_units cur (units (rd h cur) + units (rd h b)) h in set_next cur (next (rd h b)) h
      else set_next cur b h in
    Ok (set_slobfree cur h).

(** ** Allocation *)
Definition ALIGN (addr size : Z) : Z := Z.land (u32 (addr + size - 1)) (u32 (Z.lnot (size - 1))).

(** How many units [cur] is before the next aligned address. *)
Definition align_delta (align cur : Z) : Z :=
  if negb (align =? 0) then ALIGN (cur * SLOB_UNIT) align / SLOB_UNIT - cur else 0.

(** The block is there: its fragment in front is split off, then its rest. *)
Definition slob_take (prev cur delta u : Z) (h : heap) : Z * heap :=
  let '(prev, cur, h) :=
    if negb (delta =? 0) then
      let aligned := cur + delta in
      let h := set_units aligned (units (rd h cur) - delta) h in
      let h := set_next aligned (next (rd h cur)) h in
      let h := set_next cur aligned h in
      let h := set_units cur delta h in
      (cur, aligned, h)
    else (prev, cur, h) in
  let h :=
    if units (rd h cur) =? u then set_next prev (next (rd h cur)) h
    else
      let rest := cur + u in
      let h := set_next prev rest h in
      let h := set_units rest (units (rd h cur) - u) h in
      let h := set_next rest (next (rd h cur)) h in
      set_units cur u h in
  (cur, set_slobfree prev h).

(** The walk from [cur], after [prev]: a block taken, or [None] at [slobfree]. *)
Fixpoint alloc_scan (n : nat) (prev cur align u : Z) (h : heap) : res (option (Z * heap)) :=
  match n with
  | O => Spin
  | S n =>
      let delta := align_delta align cur in
      if units (rd h cur) >=? u + delta then Ok (Some (slob_take prev cur delta u h))
      else if cur =? slobfree h then Ok None
      else alloc_scan n cur (next (rd h cur)) align u h
  end.

(** A walk, and another one after each page that could be had; a walk that
    finds nothing uses one result of [supply] up. *)
Fixpoint alloc_pass (s : list (option Z)) (size align u : Z) (h : heap) : res (Z * heap) :=
  r ← alloc_scan (ring_fuel h) (slobfree h) (next (rd h (slobfree h))) align u h;
  match r with
  | Some q => Ok q
  | None =>
      if size =? PAGE_SIZE then Ok (0, h)
      else
        match s with
        | [] => Ok (0, h)
        | o :: s =>
            let '(cur, h) := __slob_get_free_pages 0 h in
            if cur =? 0 then Ok (0, h)
            else h ← slob_free cur PAGE_SIZE h; alloc_pass s size align u h
        end
  end.

Definition slob_alloc (size align : Z) (h : heap) : res (Z * heap) :=
  _ ← kassert (u32 (size + SLOB_UNIT) <? PAGE_SIZE);
  alloc_pass (supply h) size align (SLOB_UNITS size) h.

(** ** The interface *)
Fixpoint find_order_from (n : nat) (size order : Z) : Z :=
  match n with
  | O => order
  | S n => if size >? 4096 then find_order_from n (Z.shiftr size 1) (order + 1) else order
  end.
(** A size below [2^31] is halved at most 19 times. *)
Definition find_order (size : Z) : Z := find_order_from 31 size 0.

Definition BIGBLOCK_SIZE : Z := 12.

Definition __kmalloc (size : Z) (h : heap) : res (Z * heap) :=
  if size <? PAGE_SIZE - SLOB_UNIT then
    '(m, h) ← slob_alloc (size + SLOB_UNIT) 0 h;
    Ok (if negb (m =? 0) then m + 1 else 0, h)
  else
    '(p, h) ← slob_alloc BIGBLOCK_SIZE 0 h;
    if p =? 0 then Ok (0, h)
    else
      let o := find_order (i32 size) in
      let '(pg, h) := __slob_get_free_pages o h in
      if negb (pg =? 0) then Ok (pg, set_bigblocks (Big p o pg :: bigblocks h) h)
      else h ← slob_free p BIGBLOCK_SIZE h; Ok (0, h).

Definition kmalloc (size : Z) (h : heap) : res (Z * heap) := __kmalloc size h.

(** The record of a page block and the others. *)
Fixpoint find_big (block : Z) (l : list bigblock_t) : option (bigblock_t * list bigblock_t) :=
  match l with
  | [] => None
  | b :: l => if pages b =? block then Some (b, l) else '(x, r) ← find_big block l; Some (x, b :: r)
  end.

Definition page_aligned (block : Z) : bool := Z.land (block * SLOB_UNIT) (PAGE_SIZE - 1) =? 0.

Definition kfree (block : Z) (h : heap) : res heap :=
  if block =? 0 then Ok h
  else
    match (if page_aligned block then find_big block (bigblocks h) else None) with
    | Some (b, l) =>
        let h := __slob_free_pages block (order b) (set_bigblocks l h) in
        slob_free (bb b) BIGBLOCK_SIZE h
    | None => slob_free (block - 1) 0 h
    end.

Definition ksize (block : Z) (h : heap) : Z :=
  if block =? 0 then 0
  else
    match (if page_aligned block then find_big block (bigblocks h) else None) with
    | Some (b, _) => u32 (Z.shiftl PAGE_SIZE (order b))
    | None => u32 (units (rd h (block - 1)) * SLOB_UNIT)
    end.

(** ** The ring of free blocks

    [seg m L k]: the headers of the blocks [L] are in [m], each pointing to
    the one after it and the last one to [k].  [L] gives a block as its
    address and its units. *)
Definition hd (k : Z) (L : list block) : Z := match L with [] => k | x :: _ => x.1 end.

Fixpoint seg (m : gmap Z slob_t) (L : list block) (k : Z) : Prop :=
  match L with
  | [] => True
  | x :: L => m !! x.1 = Some (Slob x.2 (hd k L)) /\ seg m L k
  end.

Lemma hd_app k L1 L2 : hd k (L1 ++ L2) = hd (hd k L2) L1.
Proof. by destruct L1. Qed.

Lemma seg_app m L1 L2 k : seg m (L1 ++ L2) k <-> seg m L1 (hd k L2) /\ seg m L2 k.
Proof. induction L1 as [|x L1 IH]; simpl; [tauto|]. rewrite hd_app, IH. tauto. Qed.

Lemma seg_frame m m' L k : (forall x, x ∈ L.*1 -> m' !! x = m !! x) -> seg m L k -> seg m' L k.
Proof.
  induction L as [|x L IH]; simpl; [done|]. intros H [Hx HL]. split.
  - rewrite H; [done|]. set_solver.
  - apply IH; [|done]. intros y Hy. apply H. set_solver.
Qed.

Lemma seg_insert m L k p v : p ∉ L.*1 -> seg m L k -> seg (<[p := v]> m) L k.
Proof. intros Hp. apply seg_frame. intros x Hx. apply lookup_insert_ne. by intros ->. Qed.

Lemma seg_lookup m L k c n : seg m L k -> (c, n) ∈ L -> exists q, m !! c = Some (Slob n q) /\ (q = k \/ q ∈ L.*1).
Proof.
  induction L as [|x L IH]; simpl; [set_solver|]. intros [Hx HL] [<-|Hin]%elem_of_cons.
  - exists (hd k L). split; [done|]. destruct L; [by left|right; set_solver].
  - destruct (IH HL Hin) as (q & ? & Hq). exists q. split; [done|]. set_solver.
Qed.

Lemma seg_size m L k : NoDup L.*1 -> seg m L k -> (length L <= size m)%nat.
Proof.
  intros Hnd HL. rewrite <- (length_fmap fst), <- (size_list_to_set (C := gset Z)) by done.
  rewrite <- size_dom. apply subseteq_size. intros x Hx.
  apply elem_of_list_to_set, list_elem_of_fmap in Hx as ([c n] & -> & Hin).
  destruct (seg_lookup _ _ _ _ _ HL Hin) as (q & Hq & _). apply elem_of_dom. by eexists.
Qed.

(** Memory reads after writes. *)
Lemma rd_wr p v h q : rd (wr p v h) q = if q =? p then v else rd h q.
Proof. unfold rd, wr; simpl. zcase; [subst; by rewrite lookup_insert_eq|by rewrite lookup_insert_ne]. Qed.

Lemma rd_lookup h p b : mem h !! p = Some b -> rd h p = b.
Proof. unfold rd. by intros ->. Qed.

Lemma rd_slobfree p q h : rd (set_slobfree q h) p = rd h p.
Proof. done. Qed.

(** The blocks in address order around a free address [b]. *)
Definition before (b : Z) (L : list block) : Prop := forall p m, (p, m) ∈ L -> p + m <= b.
Definition after (b : Z) (L : list block) : Prop := forall p m, (p, m) ∈ L -> b <= p.

Lemma fits_split lo b u c n L :
  sep lo ((c, n) :: L) -> fits b u ((c, n) :: L) -> 0 < u -> c < b ->
  exists P q k Q, (c, n) :: L = P ++ (q, k) :: Q /\ q + k <= b /\ after (b + u) Q.
Proof.
  revert lo c n. induction L as [|[d k] L IH]; intros lo c n Hs Hf Hu Hc.
  - exists [], c, n, []. split_and!; [done| |by intros ? ? ?%elem_of_nil]. destruct (fits_head _ _ _ _ _ Hf); lia.
  - pose proof (fits_head _ _ _ _ _ Hf). pose proof (fits_tail _ _ _ _ _ Hf) as Ht.
    pose proof (fits_head _ _ _ _ _ Ht). pose proof Hs as (_ & _ & Hs').
    destruct (Z.lt_ge_cases d b) as [Hd|Hd].
    + destruct (IH _ _ _ Hs' Ht Hu Hd) as (P & q & k' & Q & -> & ? & ?). by exists ((c, n) :: P), q, k', Q.
    + exists [], c, n, ((d, k) :: L). split_and!; [done|lia|].
      intros p m [[= -> ->]|Hin]%elem_of_cons; [simpl in Hs'; lia|].
      destruct Hs' as (_ & ? & Hs'). pose proof (sep_elem _ _ _ _ Hs' Hin). lia.
Qed.

(** The walk up to the block before [b]. *)
Lemma free_scan_fwd h A b q k Q e lo n :
  seg (mem h) (A ++ (q, k) :: Q) e -> sep lo (A ++ (q, k) :: Q) -> q < b -> after b Q -> (e < b) -> e <= q ->
  (length A < n)%nat -> (Q = [] \/ b < hd e Q) ->
  free_scan n (hd e (A ++ (q, k) :: Q)) b h = Ok q.
Proof.
  intros Hseg Hsep Hq HQ Heb Heq Hn HQ'. revert lo n Hseg Hsep Hn. induction A as [|[a m] A IH]; intros lo n Hseg Hsep Hn.
  - simpl in *. destruct n as [|n]; [lia|]. destruct Hseg as [Hr _]. simpl. rewrite (rd_lookup _ _ _ Hr). simpl.
    destruct HQ' as [->|HQ']; simpl.
    + replace ((b >? q) && (b <? e)) with false by (rewrite Z.gtb_ltb; destruct (Z.ltb_spec q b), (Z.ltb_spec b e); simpl; lia).
      replace ((q >=? e) && ((b >? q) || (b <? e))) with true; [done|].
      rewrite Z.gtb_ltb, Z.geb_leb. destruct (Z.ltb_spec q b), (Z.leb_spec e q); simpl; lia.
    + replace ((b >? q) && (b <? hd e Q)) with true; [done|].
      rewrite Z.gtb_ltb. destruct (Z.ltb_spec q b), (Z.ltb_spec b (hd e Q)); simpl; lia.
  - destruct n as [|n]; [simpl in Hn; lia|]. destruct Hseg as [Hr Hseg]. cbn [hd app fst snd free_scan] in *.
    rewrite (rd_lookup _ _ _ Hr). cbn [next].
    destruct Hsep as (? & ? & Hsep).
    set (x := hd e (A ++ (q, k) :: Q)) in *.
    assert (Hx : a < x /\ x <= q).
    { unfold x. destruct A as [|[a' m'] A]; simpl in *; [lia|]. destruct Hsep as (? & ? & Hsep).
      destruct (sep_elem _ _ q k Hsep); [set_solver|lia]. }
    replace ((b >? a) && (b <? x)) with false by (rewrite Z.gtb_ltb; destruct (Z.ltb_spec a b), (Z.ltb_spec b x); simpl; lia).
    replace (a >=? x) with false by (rewrite Z.geb_leb; destruct (Z.leb_spec x a); lia). cbn [andb].
    apply (IH (a + m + 1)); [done|done|simpl in Hn; lia].
Qed.

(** The walk from a block above [b] round to the first one. *)
Lemma free_scan_wrap h Q b e lo n :
  seg (mem h) Q e -> sep lo Q -> b < lo -> e < b ->
  free_scan (length Q + n) (hd e Q) b h = free_scan n e b h.
Proof.
  revert lo. induction Q as [|[a m] Q IH]; intros lo Hseg Hsep Hlo He; [done|].
  destruct Hseg as [Hr Hseg]. destruct Hsep as (? & ? & Hsep). cbn [hd app fst snd length Nat.add free_scan] in *.
  rewrite (rd_lookup _ _ _ Hr). cbn [next].
  replace (b >? a) with false by (rewrite Z.gtb_ltb; destruct (Z.ltb_spec a b); lia). cbn [andb orb].
  rewrite <- (IH (a + m + 1)) by (done || lia).
  destruct Q as [|[a' m'] Q]; cbn [hd fst] in *.
  - replace (b <? e) with false by (destruct (Z.ltb_spec b e); lia). by rewrite andb_false_r.
  - destruct Hsep as (? & ? & _). replace (a >=? a') with false by (rewrite Z.geb_leb; destruct (Z.leb_spec a' a); lia). done.
Qed.

(** What joining block [(b, u)] between [(c, n)] and [Q] gives. *)
Definition join_right (b u : Z) (Q : list block) : list block :=
  match Q with
  | (q, k) :: Q' => if b + u =? q then (b, u + k) :: Q' else (b, u) :: Q
  | [] => [(b, u)]
  end.
Definition join (c n : Z) (R : list block) : list block :=
  match R with
  | (b, u) :: Q => if c + n =? b then (c, n + u) :: Q else (c, n) :: R
  | [] => [(c, n)]
  end.

Lemma insert_block_join lo b u P c n Q :
  sep lo (P ++ (c, n) :: Q) -> 0 < u -> c + n <= b -> after (b + u) Q ->
  insert_block b u (P ++ (c, n) :: Q) = P ++ join c n (join_right b u Q).
Proof.
  revert lo. induction P as [|[p m] P IH]; intros lo Hs Hu Hc HQ.
  - destruct Hs as (? & ? & Hs). cbn [app insert_block]. destruct Q as [|[q k] Q]; simpl; [repeat zcase; try lia; done|].
    assert (b + u <= q) by (apply (HQ q k); set_solver).
    repeat zcase; simpl; repeat zcase; try lia; try done; do 2 f_equal; lia.
  - destruct Hs as (? & ? & Hs). assert (p + m + 1 <= c) by (eapply (sep_elem _ _ c n Hs); set_solver).
    pose proof (sep_elem _ _ c n Hs ltac:(set_solver)).
    cbn [app insert_block]. repeat zcase; try lia. f_equal. by apply (IH (p + m + 1)).
Qed.

(** The heap the kernel starts with. *)
Definition init_heap (arena : Z) (s : list (option Z)) : heap :=
  Heap {[arena := Slob 1 arena]} arena [] s [].

(** ** The heap and its free blocks

    [arena] is the address of the static block the ring starts from; it lies
    below every page. *)
Section heap.
Context (arena : Z).
Abbreviation ringl bs := ((arena, 1) :: bs).

Record heap_inv (h : heap) (bs : list block) : Prop := {
  hi_ring : seg (mem h) (ringl bs) arena;
  hi_sep : sep arena (ringl bs);
  hi_free : slobfree h ∈ (ringl bs).*1;
  hi_pos : 0 < arena
}.

Lemma free_scan_ok h bs b u :
  heap_inv h bs -> fits b u (ringl bs) -> 0 < u -> arena < b ->
  exists P q k Q, ringl bs = P ++ (q, k) :: Q /\ q + k <= b /\ after (b + u) Q /\
    free_scan (ring_fuel h) (slobfree h) b h = Ok q.
Proof.
  intros [Hring Hsep Hsf _] Hf Hu Hb.
  destruct (fits_split _ _ _ _ _ _ Hsep Hf Hu Hb) as (P & q & k & Q & HL & Hq & HQ).
  exists P, q, k, Q. split_and!; [done..|].
  pose proof (seg_size _ _ _ (sep_nodup _ _ Hsep) Hring) as Hsz.
  assert (Hhd : hd arena (ringl bs) = arena) by done.
  rewrite HL in Hring, Hsep, Hsf, Hsz, Hhd.
  assert (Hk : 0 < k) by (eapply (sep_elem _ _ q k Hsep); set_solver).
  assert (Hqa : arena <= q) by (eapply (sep_elem _ _ q k Hsep); set_solver).
  assert (HQb : after b Q) by (intros p m Hin; specialize (HQ p m Hin); lia).
  assert (HQ' : Q = [] \/ b < hd arena Q).
  { destruct Q as [|[x y] Q']; [by left|right]. specialize (HQ x y ltac:(set_solver)). simpl. lia. }
  assert (Hfrom : forall P1 A n, P = P1 ++ A -> (length A < n)%nat ->
            free_scan n (hd arena (A ++ (q, k) :: Q)) b h = Ok q).
  { intros P1 A n -> Hn. rewrite <- app_assoc in Hring, Hsep. apply seg_app in Hring as [_ Hring].
    assert (Hs2 : exists lo, sep lo (A ++ (q, k) :: Q)).
    { clear -Hsep. revert Hsep. generalize arena. induction P1 as [|[a m] P1 IH]; intros lo; simpl; [by eauto|]. intros (_ & _ & H). eauto. }
    destruct Hs2 as [lo Hs2]. eapply free_scan_fwd; (done || lia). }
  apply list_elem_of_fmap in Hsf as ([s n] & Hs & Hin). simpl in Hs. rewrite Hs. unfold ring_fuel.
  rewrite length_app in Hsz. cbn [length] in Hsz.
  apply elem_of_app in Hin as [Hin|Hin]; [|apply elem_of_cons in Hin as [[= -> ->]|Hin]].
  - apply list_elem_of_split in Hin as (P1 & P2 & HP).
    assert (HP2 : P = P1 ++ (s, n) :: P2) by done.
    replace s with (hd arena (((s, n) :: P2) ++ (q, k) :: Q)) by done. apply (Hfrom P1); [done|].
    rewrite HP2, length_app in Hsz. lia.
  - replace q with (hd arena ([] ++ (q, k) :: Q)) at 1 by done. apply (Hfrom P); [by rewrite app_nil_r|simpl; lia].
  - apply list_elem_of_split in Hin as (Q1 & Q2 & HQ2).
    replace s with (hd arena ((s, n) :: Q2)) by done.
    replace (S (size (mem h))) with (length ((s, n) :: Q2) + (S (size (mem h)) - length ((s, n) :: Q2)))%nat
      by (rewrite HQ2, length_app in Hsz; lia).
    assert (Hs2 : sep s ((s, n) :: Q2)).
    { rewrite HQ2, app_comm_cons, app_assoc in Hsep. apply sep_app in Hsep as (_ & _ & ? & ? & ?). simpl. split_and!; (done || lia). }
    rewrite (free_scan_wrap _ _ _ _ s); [|..|lia].
    + rewrite <- Hhd. apply (Hfrom [] P); [done|]. rewrite HQ2, length_app in Hsz. simpl in *. lia.
    + rewrite HQ2, app_comm_cons, app_assoc in Hring. by apply seg_app in Hring as [_ Hring].
    + done.
    + specialize (HQ s n). rewrite HQ2 in HQ. specialize (HQ ltac:(set_solver)). lia.
Qed.

(** The headers [slob_free] leaves at [b] and at the block [c] before it. *)
Definition link_b (m : gmap Z slob_t) (b u cn : Z) : slob_t :=
  if b + u =? cn then let q := default (Slob 0 0) (m !! cn) in Slob (u + units q) (next q) else Slob u cn.
Definition link_c (c n b : Z) (v : slob_t) : slob_t := if c + n =? b then Slob (n + units v) (next v) else Slob n b.

Lemma link_mem h c n cn b u nx :
  mem h !! c = Some (Slob n cn) -> mem h !! b = Some (Slob u nx) -> b <> c -> b <> cn ->
  let h1 := if b + units (rd h b) =? cn then
        let h := set_units b (units (rd h b) + units (rd h cn)) h in set_next b (next (rd h cn)) h
      else set_next b cn h in
  let h2 := if c + units (rd h1 c) =? b then
        let h := set_units c (units (rd h1 c) + units (rd h1 b)) h1 in set_next c (next (rd h b)) h
      else set_next c b h1 in
  mem h2 = <[c := link_c c n b (link_b (mem h) b u cn)]> (<[b := link_b (mem h) b u cn]> (mem h)) /\
  bigblocks h2 = bigblocks h /\ supply h2 = supply h /\ released h2 = released h /\ slobfree h2 = slobfree h.
Proof.
  intros Hc Hb Hbc Hbn h1 h2.
  assert (H1 : h1 = wr b (link_b (mem h) b u cn) h \/ exists v, h1 = wr b (link_b (mem h) b u cn) (wr b v h)).
  { unfold h1, link_b. rewrite (rd_lookup _ _ _ Hb). cbn [units].
    zcase; [right|left].
    - eexists. cbv zeta. unfold set_next, set_units.
      rewrite (rd_lookup _ _ _ Hb). rewrite !rd_wr. destruct (Z.eqb_spec cn b); [congruence|]. rewrite Z.eqb_refl. cbn [units next]. reflexivity.
    - unfold set_next. by rewrite (rd_lookup _ _ _ Hb). }
  assert (Hrb : rd h1 b = link_b (mem h) b u cn) by (destruct H1 as [->|[v ->]]; by rewrite rd_wr, Z.eqb_refl).
  assert (Hrc : rd h1 c = Slob n cn).
  { destruct H1 as [->|[v ->]]; rewrite !rd_wr; destruct (Z.eqb_spec c b); try congruence; by apply rd_lookup. }
  assert (Hm : mem h1 = <[b := link_b (mem h) b u cn]> (mem h)) by (destruct H1 as [->|[v ->]]; simpl; [done|by rewrite insert_insert_eq]).
  assert (Hx : bigblocks h1 = bigblocks h /\ supply h1 = supply h /\ released h1 = released h /\ slobfree h1 = slobfree h)
    by (by destruct H1 as [->|[v ->]]).
  clearbody h1. unfold h2, link_c. rewrite Hrc. cbn [units]. zcase.
  - cbv zeta. unfold set_next, set_units. rewrite !rd_wr, Z.eqb_refl. destruct (Z.eqb_spec b c); [congruence|].
    rewrite Hrb, Hrc. cbn [units wr mem bigblocks supply released slobfree]. rewrite Hm. split_and!; try apply Hx. by rewrite insert_insert_eq.
  - unfold set_next. rewrite Hrc. cbn [units wr mem bigblocks supply released slobfree]. rewrite Hm. split_and!; try apply Hx. done.
Qed.

Lemma seg_link m lo P c n Q e b u :
  seg m (P ++ (c, n) :: Q) e -> sep lo (P ++ (c, n) :: Q) -> 0 < u -> c + n <= b -> after (b + u) Q -> e < b ->
  let v := link_b m b u (hd e Q) in
  seg (<[c := link_c c n b v]> (<[b := v]> m)) (P ++ join c n (join_right b u Q)) e.
Proof.
  intros Hseg Hsep Hu Hcb HQ He v. apply sep_app in Hsep as (HP & HPc & _ & Hn & HsQ). apply seg_app in Hseg as [HsP [Hc HsegQ]].
  cbn [hd fst snd] in *.
  assert (HbP : forall x, x ∈ P.*1 -> x < c).
  { intros x ([p m'] & -> & Hin)%list_elem_of_fmap. pose proof (sep_elem _ _ _ _ HP Hin). specialize (HPc _ _ Hin). simpl in *. lia. }
  assert (HbQ : forall x, x ∈ Q.*1 -> b < x).
  { intros x ([p m'] & -> & Hin)%list_elem_of_fmap. specialize (HQ _ _ Hin). simpl in *. lia. }
  assert (HQ2 : seg (<[c := link_c c n b v]> (<[b := v]> m)) Q e).
  { apply seg_insert; [intros H; specialize (HbQ _ H); lia|]. apply seg_insert; [intros H; specialize (HbQ _ H); lia|]. done. }
  assert (HP2 : seg (<[c := link_c c n b v]> (<[b := v]> m)) P c).
  { apply seg_insert; [intros H; specialize (HbP _ H); lia|]. apply seg_insert; [intros H; specialize (HbP _ H); lia|]. done. }
  assert (Hb2 : <[c := link_c c n b v]> (<[b := v]> m) !! b = Some v) by (rewrite lookup_insert_ne, lookup_insert_eq; [done|lia]).
  assert (HR : exists R, join_right b u Q = (b, units v) :: R /\ next v = hd e R /\ seg (<[c := link_c c n b v]> (<[b := v]> m)) R e).
  { destruct Q as [|[q k] Q]; cbn [join_right hd fst] in *.
    - exists []. unfold v, link_b. by destruct (Z.eqb_spec (b + u) e); [lia|].
    - unfold v, link_b in *. destruct (Z.eqb_spec (b + u) q).
      + destruct HsegQ as [Hq _]. cbn [fst snd] in Hq. rewrite Hq in *. cbn [default units next] in *. exists Q. split_and!; [done..|]. apply HQ2.
      + by exists ((q, k) :: Q). }
  destruct HR as (R & -> & Hnx & HR). apply seg_app. unfold join, link_c in *. destruct (Z.eqb_spec (c + n) b); cbn [seg hd fst snd].
  - split; [done|]. split; [|done]. by rewrite lookup_insert_eq, Hnx.
  - split; [done|]. split_and!; [by rewrite lookup_insert_eq| |done]. rewrite Hb2. destruct v; cbn [units next] in *. by subst.
Qed.

(** Nothing of the heap but headers of free blocks has changed. *)
Definition same_rest (h h' : heap) : Prop := bigblocks h' = bigblocks h /\ released h' = released h.

Lemma slob_free_ok h bs b size u :
  heap_inv h bs -> fits b u (ringl bs) -> 0 < u -> arena + 1 < b ->
  (size <> 0 /\ u = SLOB_UNITS size \/ size = 0 /\ exists nx, mem h !! b = Some (Slob u nx)) ->
  exists h', slob_free b size h = Ok h' /\ heap_inv h' (insert_block b u bs) /\
    same_rest h h' /\ supply h' = supply h /\
    (forall x, ~ free_page (ringl bs) x -> x <> b -> mem h' !! x = mem h !! x).
Proof.
  intros Hi Hf Hu Hb Hsz. unfold slob_free. pose proof (hi_pos _ _ Hi).
  destruct (Z.eqb_spec b 0) as [?|_]; [lia|].
  set (h1 := if negb (size =? 0) then set_units b (SLOB_UNITS size) h else h).
  assert (HbL : b ∉ (ringl bs).*1).
  { intros ([p m] & -> & Hin)%list_elem_of_fmap. pose proof (sep_elem _ _ _ _ (hi_sep _ _ Hi) Hin). destruct (Hf _ _ Hin); simpl in *; lia. }
  assert (H1 : (exists nx, mem h1 !! b = Some (Slob u nx)) /\ slobfree h1 = slobfree h /\ same_rest h h1 /\ supply h1 = supply h /\
    forall x, x <> b -> mem h1 !! x = mem h !! x).
  { unfold h1. destruct Hsz as [[Hs ->]|[-> Hs]].
    - destruct (Z.eqb_spec size 0); [done|]. simpl. split_and!; try done; [eexists; by rewrite lookup_insert_eq|].
      intros x Hx. by rewrite lookup_insert_ne.
    - by split_and!. }
  destruct H1 as ([nx Hbm] & Hsf & Hsr & Hsu & Hfr). clearbody h1.
  assert (Hi1 : heap_inv h1 bs).
  { destruct Hi as [Hr Hs Hsl Hp]. split; [|done|by rewrite Hsf|done].
    eapply seg_frame; [|done]. intros x Hx. apply Hfr. by intros ->. }
  destruct (free_scan_ok _ _ b u Hi1 Hf Hu ltac:(lia)) as (P & c & n & Q & HL & Hc & HQ & ->). rewrite res_bind_ok.
  destruct Hi1 as [Hring Hsep Hfree Hpos].
  assert (Hcm : mem h1 !! c = Some (Slob n (hd arena Q))).
  { rewrite HL in Hring. apply seg_app in Hring as [_ [Hring _]]. done. }
  assert (Hne : b <> hd arena Q).
  { destruct Q as [|[q k] Q]; simpl; [lia|]. specialize (HQ q k ltac:(set_solver)). lia. }
  assert (Hcn : 0 < n /\ arena <= c) by (pose proof (sep_elem _ _ c n Hsep ltac:(rewrite HL; set_solver)); lia).
  rewrite (rd_lookup _ _ _ Hcm). cbn [next].
  pose proof (link_mem h1 c n (hd arena Q) b u nx Hcm Hbm ltac:(lia) Hne) as Hl. cbv zeta in Hl |- *.
  match type of Hl with mem ?x = _ /\ _ => set (h2 := x) in Hl |- * end. clearbody h2.
  destruct Hl as (Hm2 & Hbb & Hsu2 & Hrel & _).
  exists (set_slobfree c h2). split; [done|].
  assert (Hins : insert_block b u (ringl bs) = ringl (insert_block b u bs)).
  { simpl. repeat zcase; try lia; done. }
  assert (Hseg : seg (mem h2) (ringl (insert_block b u bs)) arena).
  { rewrite <- Hins, HL, Hm2. rewrite (insert_block_join arena) by (done || rewrite <- HL; done || lia).
    eapply seg_link; rewrite <- ?HL; (done || lia). }
  split_and!.
  - split; [done| | |done].
    + rewrite <- Hins. apply insert_block_sep; (done || lia).
    + cbn [set_slobfree slobfree]. rewrite <- Hins, HL, (insert_block_join arena) by (rewrite <- ?HL; done || lia).
      rewrite fmap_app. apply elem_of_app. right. unfold join. destruct (join_right b u Q) as [|[? ?] ?]; [set_solver|]. zcase; set_solver.
  - destruct Hsr. split; simpl; congruence.
  - simpl. congruence.
  - intros x Hx Hxb. simpl. rewrite Hm2, lookup_insert_ne, lookup_insert_ne; [by apply Hfr|done|].
    intros <-. apply Hx. exists c, n. split; [rewrite HL; set_solver|lia].
Qed.

(** ** Taking a block out of the ring *)
Lemma slob_take_mem h p k c n cn u :
  mem h !! p = Some (Slob k c) -> mem h !! c = Some (Slob n cn) -> p <> c -> 0 < u <= n -> p <> c + u ->
  slob_take p c 0 u h =
    (c, set_slobfree p (Heap (if n =? u then <[p := Slob k cn]> (mem h)
         else <[c := Slob u cn]> (<[c + u := Slob (n - u) cn]> (<[p := Slob k (c + u)]> (mem h))))
         (slobfree h) (bigblocks h) (supply h) (released h))).
Proof.
  intros Hp Hc Hpc Hu Hpu. unfold slob_take. change (negb (0 =? 0)) with false. cbv iota beta zeta.
  rewrite (rd_lookup _ _ _ Hc). cbn [units next]. f_equal. zcase.
  - unfold set_next. rewrite (rd_lookup _ _ _ Hp). done.
  - unfold set_next, set_units. rewrite !rd_wr. rewrite !Z.eqb_refl.
    destruct (Z.eqb_spec c (c + u)); [lia|]. destruct (Z.eqb_spec c p); [congruence|].
    destruct (Z.eqb_spec (c + u) p); [congruence|].
    rewrite (rd_lookup _ _ _ Hc), (rd_lookup _ _ _ Hp). cbn [units next wr mem slobfree bigblocks supply released set_slobfree].
    unfold wr; simpl. by rewrite insert_insert_eq.
Qed.

Lemma seg_take m lo P p k c n Q e u :
  seg m (P ++ (p, k) :: (c, n) :: Q) e -> sep lo (P ++ (p, k) :: (c, n) :: Q) -> 0 < u <= n ->
  seg (if n =? u then <[p := Slob k (hd e Q)]> m
       else <[c := Slob u (hd e Q)]> (<[c + u := Slob (n - u) (hd e Q)]> (<[p := Slob k (c + u)]> m)))
    (P ++ (p, k) :: carve c n u ++ Q) e.
Proof.
  intros Hseg Hsep Hu. apply seg_app in Hseg as (HP & Hp & Hc & HQ). cbn [hd fst snd] in *.
  apply sep_app in Hsep as (HsP & HPp & _ & Hk & Hpc & Hn & HsQ).
  assert (HbP : forall x, x ∈ P.*1 -> x < p).
  { intros x ([y m'] & -> & Hin)%list_elem_of_fmap. pose proof (sep_elem _ _ _ _ HsP Hin). specialize (HPp _ _ Hin). simpl in *. lia. }
  assert (HbQ : forall x, x ∈ Q.*1 -> c + n < x).
  { intros x ([y m'] & -> & Hin)%list_elem_of_fmap. pose proof (sep_elem _ _ _ _ HsQ Hin). simpl in *. lia. }
  assert (Hin : forall x v w L, (x ∈ L.*1 -> False) -> seg w L e -> seg (<[x := v]> w) L e) by (intros; by apply seg_insert).
  unfold carve. destruct (Z.eqb_spec n u) as [->|Hnu].
  - rewrite Z.gtb_ltb, Z.ltb_irrefl. apply seg_app. cbn [app seg hd fst snd]. split_and!.
    + apply seg_insert; [intros H; specialize (HbP _ H); lia|done].
    + by rewrite lookup_insert_eq.
    + apply seg_insert; [intros H; specialize (HbQ _ H); lia|done].
  - rewrite Z.gtb_ltb. destruct (Z.ltb_spec u n); [|lia]. apply seg_app. cbn [app seg hd fst snd]. split_and!.
    + do 3 (apply seg_insert; [intros HH; specialize (HbP _ HH); lia|]). done.
    + rewrite !lookup_insert_ne, lookup_insert_eq by lia. done.
    + rewrite lookup_insert_ne, lookup_insert_eq by lia. done.
    + do 3 (apply seg_insert; [intros HH; specialize (HbQ _ HH); lia|]). done.
Qed.

Lemma seg_next m L e p : seg m L e -> p ∈ L.*1 ->
  exists L1 k L2, L = L1 ++ (p, k) :: L2 /\ m !! p = Some (Slob k (hd e L2)).
Proof.
  intros HL ([q k] & -> & Hin)%list_elem_of_fmap. apply list_elem_of_split in Hin as (L1 & L2 & ->).
  exists L1, k, L2. split; [done|]. by apply seg_app in HL as (_ & ? & _).
Qed.

Lemma align_delta_0 c : align_delta 0 c = 0.
Proof. done. Qed.

(** The walk over the blocks [V] up to the one at [slobfree]. *)
Lemma alloc_scan_walk h u s n e V prev fuel :
  seg (mem h) (V ++ [(s, n)]) e -> slobfree h = s -> s ∉ V.*1 -> (length V < fuel)%nat ->
  next (rd h prev) = hd e (V ++ [(s, n)]) ->
  alloc_scan fuel prev (hd e (V ++ [(s, n)])) 0 u h = Ok None /\ (forall c m, (c, m) ∈ V ++ [(s, n)] -> m < u) \/
  exists c m p, (c, m) ∈ V ++ [(s, n)] /\ u <= m /\ next (rd h p) = c /\ p ∈ prev :: V.*1 /\
    alloc_scan fuel prev (hd e (V ++ [(s, n)])) 0 u h = Ok (Some (slob_take p c 0 u h)).
Proof.
  intros Hseg Hs. revert prev fuel Hseg. induction V as [|[c m] V IH]; intros prev fuel Hseg Hns Hf Hp; (destruct fuel as [|fuel]; [simpl in Hf; lia|]).
  - destruct Hseg as [Hr _]. cbn [app hd fst snd alloc_scan] in *. rewrite align_delta_0, (rd_lookup _ _ _ Hr), Z.geb_leb, Z.add_0_r.
    cbn [units]. destruct (Z.leb_spec u n).
    + right. exists s, n, prev. split_and!; try done; by (apply elem_of_cons; left).
    + left. rewrite Hs, Z.eqb_refl. split; [done|]. intros c m [= -> ->]%list_elem_of_singleton. done.
  - destruct Hseg as [Hr Hseg]. cbn [app hd fst snd alloc_scan] in *. rewrite align_delta_0, (rd_lookup _ _ _ Hr), Z.geb_leb, Z.add_0_r.
    cbn [units next]. destruct (Z.leb_spec u m).
    + right. exists c, m, prev. split_and!; try done; by (apply elem_of_cons; left).
    + rewrite Hs. destruct (Z.eqb_spec c s) as [->|_]; [set_solver|].
      destruct (IH c fuel Hseg ltac:(set_solver) ltac:(simpl in Hf; lia)) as [[-> Hall]|(c' & m' & p & Hin & ? & ? & Hpi & ->)].
      * by rewrite (rd_lookup _ _ _ Hr).
      * left. split; [done|]. intros x y [[= -> ->]|Hin]%elem_of_cons; eauto.
      * right. exists c', m', p. split_and!; try done; [by apply elem_of_cons; right|]. rewrite fmap_cons. set_solver.
Qed.

(** One walk finds a block of [u] units if there is one. *)
Lemma alloc_scan_ok h bs u :
  heap_inv h bs -> 2 <= u ->
  let r := alloc_scan (ring_fuel h) (slobfree h) (next (rd h (slobfree h))) 0 u h in
  r = Ok None /\ (forall c m, (c, m) ∈ bs -> m < u) \/
  exists X c m Q h', bs = X ++ (c, m) :: Q /\ u <= m /\ r = Ok (Some (c, h')) /\
    heap_inv h' (X ++ carve c m u ++ Q) /\ same_rest h h' /\ supply h' = supply h /\
    (exists nx, mem h' !! c = Some (Slob u nx)) /\
    (forall x, ~ free_page (ringl bs) x -> mem h' !! x = mem h !! x).
Proof.
  intros Hi Hu. pose proof (sep_nodup _ _ (hi_sep _ _ Hi)) as Hnd. destruct Hi as [Hring Hsep Hsf Hpos].
  destruct (seg_next _ _ _ _ Hring Hsf) as (A & n & B & HL & Hs).
  pose proof (seg_size _ _ _ Hnd Hring) as Hsz.
  assert (Hhd : forall e, hd e (A ++ [(slobfree h, n)]) = arena).
  { intros e. destruct A as [|[a ?] A]; simpl in HL; injection HL; by intros. }
  assert (Hrot : seg (mem h) ((B ++ A) ++ [(slobfree h, n)]) (hd arena B)).
  { rewrite <- app_assoc. apply seg_app. rewrite Hhd.
    rewrite HL in Hring. change ((slobfree h, n) :: B) with ([(slobfree h, n)] ++ B) in Hring. rewrite app_assoc in Hring.
    apply seg_app in Hring as [? ?]. done. }
  assert (Hns : slobfree h ∉ (B ++ A).*1).
  { rewrite HL, fmap_app in Hnd. apply NoDup_app in Hnd as (_ & Hd & [Hn _]%NoDup_cons). rewrite fmap_app, elem_of_app. intros [?|?]; [done|].
    apply (Hd (slobfree h)); [done|]. set_solver. }
  assert (Hnx : next (rd h (slobfree h)) = hd (hd arena B) ((B ++ A) ++ [(slobfree h, n)])).
  { rewrite (rd_lookup _ _ _ Hs), <- app_assoc, hd_app, Hhd. by destruct B. }
  assert (Hmem : forall x, x ∈ (B ++ A) ++ [(slobfree h, n)] <-> x ∈ ringl bs) by (rewrite HL; set_solver).
  cbv zeta. rewrite Hnx.
  assert (Hlen : (length (B ++ A) < ring_fuel h)%nat).
  { unfold ring_fuel. rewrite HL, length_app in Hsz. rewrite length_app. cbn [length] in Hsz. lia. }
  destruct (alloc_scan_walk h u _ n _ (B ++ A) (slobfree h) (ring_fuel h) Hrot eq_refl Hns Hlen Hnx)
    as [[-> Hall]|(c & m & p & Hin & Hum & Hpn & Hpi & ->)].
  - left. split; [done|]. intros c m Hin. apply (Hall c m), Hmem. set_solver.
  - right. apply Hmem in Hin.
    assert (Hpk : p ∈ (ringl bs).*1).
    { apply elem_of_cons in Hpi as [->|Hpi]; [done|]. apply list_elem_of_fmap in Hpi as (y & -> & Hy).
      apply list_elem_of_fmap. exists y. split; [done|]. apply Hmem. set_solver. }
    destruct (seg_next _ _ _ _ Hring Hpk) as (P & k & R & HL2 & Hp). rewrite (rd_lookup _ _ _ Hp) in Hpn. cbn [next] in Hpn.
    assert (Hca : (c, m) ∈ bs) by (apply elem_of_cons in Hin as [[= -> ->]|]; [lia|done]).
    assert (Hac : c <> arena).
    { intros ->. simpl in Hnd. apply NoDup_cons in Hnd as [Hn _]. apply Hn. by eapply elem_fst. }
    destruct R as [|[c' m'] Q]; simpl in Hpn; [congruence|]. subst c'.
    assert (Hm : mem h !! c = Some (Slob m' (hd arena Q))).
    { rewrite HL2 in Hring. by apply seg_app in Hring as (_ & _ & ? & _). }
    assert (m' = m) as -> by (destruct (seg_lookup _ _ _ _ _ Hring Hin) as (q & Hq & _); congruence).
    assert (HX : exists X, ringl X = P ++ [(p, k)]).
    { destruct P as [|x P]; simpl in HL2; injection HL2; intros; simplify_eq; [by exists []|by exists (P ++ [(p, k)])]. }
    destruct HX as [X HX].
    assert (Hbs : bs = X ++ (c, m) :: Q).
    { change ((p, k) :: (c, m) :: Q) with ([(p, k)] ++ (c, m) :: Q) in HL2. rewrite app_assoc, <- HX in HL2. simpl in HL2. congruence. }
    assert (HXL : forall Y, ringl (X ++ Y) = P ++ (p, k) :: Y).
    { intros Y. rewrite app_comm_cons, HX, <- app_assoc. done. }
    pose proof Hsep as Hsep2. rewrite HL2 in Hsep2. pose proof Hsep2 as (_ & _ & _ & Hk0 & Hk & _)%sep_app.
    rewrite (slob_take_mem h p k c m (hd arena Q) u) by (done || lia).
    eexists X, c, m, Q, _. split_and!; [done|done|reflexivity|..].
    + split.
      * cbn [mem set_slobfree]. rewrite HXL. apply (seg_take _ arena); [by rewrite <- HL2|done|lia].
      * change (ringl (X ++ carve c m u ++ Q)) with ((ringl X) ++ carve c m u ++ Q). apply carve_sep; [lia|].
        by rewrite <- app_comm_cons, <- Hbs.
      * cbn [slobfree set_slobfree]. rewrite HXL. rewrite fmap_app. apply elem_of_app. right. rewrite fmap_cons. apply elem_of_cons. by left.
      * done.
    + done.
    + done.
    + cbn [mem set_slobfree]. destruct (Z.eqb_spec m u) as [->|]; eexists; [rewrite lookup_insert_ne by lia; done|by rewrite lookup_insert_eq].
    + intros x Hx. cbn [mem set_slobfree].
      assert (x <> p) by (intros ->; apply Hx; exists p, k; split; [rewrite HL2; apply elem_of_app; right; apply elem_of_cons; by left|lia]).
      assert (~ (c <= x < c + m)) by (intros ?; apply Hx; exists c, m; split; [set_solver|lia]).
      destruct (Z.eqb_spec m u); rewrite !lookup_insert_ne by lia; done.
Qed.

(** ** Allocation with at most one more page *)

(** The free blocks [bs0] an allocation took from: those there were, or those
    with a new page, which is taken only if no block was large enough. *)
Definition grown (u : Z) (h h' : heap) (bs bs0 : list block) : Prop :=
  bs0 = bs /\ supply h' = supply h \/
  exists pg s, supply h = Some pg :: s /\ supply h' = s /\ bs0 = insert_block pg 512 bs /\ forall c m, (c, m) ∈ bs -> m < u.

(** No block is large enough and there is no page. *)
Definition exhausted (u : Z) (h : heap) (bs : list block) : Prop :=
  (forall c m, (c, m) ∈ bs -> m < u) /\ (supply h = [] \/ head (supply h) = Some None).

(** The next page, if any, is a page that is not in use. *)
Definition fresh_page (n : Z) (h : heap) (l : list block) : Prop :=
  forall pg s, supply h = Some pg :: s -> fits pg n l /\ arena + 1 < pg.

Record took (u : Z) (h h' : heap) (bs0 : list block) (c : Z) (bs' : list block) : Prop := {
  tk_split : exists X m Q, bs0 = X ++ (c, m) :: Q /\ u <= m /\ bs' = X ++ carve c m u ++ Q;
  tk_inv : heap_inv h' bs';
  tk_hdr : exists nx, mem h' !! c = Some (Slob u nx);
  tk_frame : forall x, ~ free_page (ringl bs0) x -> mem h' !! x = mem h !! x
}.

Lemma insert_block_big b n bs : exists c m, (c, m) ∈ insert_block b n bs /\ (0 < n -> (forall p k, (p, k) ∈ bs -> 0 < k) -> n <= m).
Proof.
  revert b n. induction bs as [|[p k] bs IH]; intros b n; simpl.
  - exists b, n. split; [set_solver|lia].
  - assert (Hk : (forall p' k', (p', k') ∈ (p, k) :: bs -> 0 < k') -> 0 < k) by (intros H; apply (H p); set_solver).
    destruct (Z.eqb_spec (b + n) p); [|destruct (Z.ltb_spec (b + n) p); [|destruct (Z.eqb_spec (p + k) b)]].
    + exists b, (n + k). split; [set_solver|]. intros ? H'. specialize (Hk H'). lia.
    + exists b, n. split; [set_solver|lia].
    + destruct (IH p (k + n)) as (c & m & ? & Hm). exists c, m. split; [done|]. intros ? H'. specialize (Hk H').
      enough (k + n <= m) by lia. apply Hm; [lia|]. intros p' k' ?. apply (H' p'). apply elem_of_cons. by right.
    + destruct (IH b n) as (c & m & ? & Hm). exists c, m. split; [apply elem_of_cons; by right|]. intros ? H'. apply Hm; [done|].
      intros p' k' ?. apply (H' p'). apply elem_of_cons. by right.
Qed.

Lemma set_supply_inv l h bs : heap_inv h bs -> heap_inv (set_supply l h) bs.
Proof. by intros []. Qed.

Lemma same_rest_trans h1 h2 h3 : same_rest h1 h2 -> same_rest h2 h3 -> same_rest h1 h3.
Proof. intros [] []; split; congruence. Qed.

Lemma SLOB_UNITS_bounds size : 0 <= size -> size <= 8 * SLOB_UNITS size < size + 8.
Proof.
  intros. unfold SLOB_UNITS, SLOB_UNIT. pose proof (Z.div_mod (size + 8 - 1) 8 ltac:(lia)). pose proof (Z.mod_pos_bound (size + 8 - 1) 8). lia.
Qed.

(** A walk that finds a block. *)
Lemma alloc_pass_hit s h bs size u :
  heap_inv h bs -> 2 <= u -> (exists c m, (c, m) ∈ bs /\ u <= m) ->
  exists c h' bs', alloc_pass s size 0 u h = Ok (c, h') /\ same_rest h h' /\ supply h' = supply h /\ took u h h' bs c bs'.
Proof.
  intros Hi Hu (c0 & m0 & Hin & Hm0).
  destruct (alloc_scan_ok h bs u Hi Hu) as [[_ Hall]|(X & c & m & Q & h' & ? & ? & He & ? & ? & ? & ? & ?)].
  { specialize (Hall _ _ Hin). lia. }
  cbv zeta in He. exists c, h', (X ++ carve c m u ++ Q). split.
  - destruct s; cbn [alloc_pass]; rewrite He; done.
  - split_and!; try done. split; try done. by exists X, m, Q.
Qed.

Lemma slob_alloc_ok h bs size :
  heap_inv h bs -> 9 <= size < 4088 -> fresh_page 512 h (ringl bs) ->
  let u := SLOB_UNITS size in
  exists c h', slob_alloc size 0 h = Ok (c, h') /\ same_rest h h' /\
    (c = 0 /\ heap_inv h' bs /\ mem h' = mem h /\ exhausted u h bs \/
     exists bs0 bs', grown u h h' bs bs0 /\ took u h h' bs0 c bs').
Proof.
  intros Hi Hsz Hpg u. pose proof (SLOB_UNITS_bounds size ltac:(lia)) as Hub. fold u in Hub.
  unfold slob_alloc. rewrite kassert_true; [|rewrite u32_small; unfold SLOB_UNIT, PAGE_SIZE; [|lia]; apply Z.ltb_lt; lia].
  rewrite res_bind_ok. fold u. assert (Hu : 2 <= u) by lia. clearbody u.
  assert (Hdec : (exists c m, (c, m) ∈ bs /\ u <= m) \/ forall c m, (c, m) ∈ bs -> m < u).
  { clear. induction bs as [|[c m] bs IH]; [right; set_solver|]. destruct (Z.le_gt_cases u m) as [H|H]; [left; exists c, m; set_solver|].
    destruct IH as [(c' & m' & ? & ?)|IH]; [left; exists c', m'; set_solver|right]. intros c' m' [[= -> ->]|?]%elem_of_cons; [lia|eauto]. }
  destruct Hdec as [Hex|Hall].
  { destruct (alloc_pass_hit (supply h) h bs size u Hi Hu Hex) as (c & h' & bs' & -> & ? & ? & ?).
    exists c, h'. split_and!; [done..|]. right. exists bs, bs'. split; [by left|done]. }
  assert (Hno : alloc_scan (ring_fuel h) (slobfree h) (next (rd h (slobfree h))) 0 u h = Ok None).
  { destruct (alloc_scan_ok h bs u Hi Hu) as [[? _]|(X & c & m & Q & h' & -> & ? & _)]; [done|].
    specialize (Hall c m ltac:(set_solver)). lia. }
  destruct (supply h) as [|o s] eqn:Hs; cbn [alloc_pass]; rewrite Hno, res_bind_ok; unfold PAGE_SIZE;
    (destruct (Z.eqb_spec size 4096) as [|_]; [lia|]).
  { exists 0, h. split_and!; [done..|]. left. split_and!; try done. split; [done|]. rewrite Hs. by left. }
  unfold __slob_get_free_pages. rewrite Hs. destruct o as [pg|]; cbn [default].
  2: { change (0 =? 0) with true. cbv iota. exists 0, (set_supply s h). split_and!; [done..|]. left.
       split_and!; [done|by apply set_supply_inv|done|]. split; [done|]. rewrite Hs. by right. }
  destruct (Hpg pg s Hs) as [Hf Hpa]. pose proof (hi_pos _ _ Hi). unfold id. destruct (Z.eqb_spec pg 0) as [|_]; [lia|].
  destruct (slob_free_ok (set_supply s h) bs pg 4096 512 (set_supply_inv _ _ _ Hi) Hf ltac:(lia) Hpa ltac:(left; done))
    as (h1 & -> & Hi1 & Hr1 & Hs1 & Hm1). rewrite res_bind_ok.
  assert (Hbig : exists c m, (c, m) ∈ insert_block pg 512 bs /\ u <= m).
  { destruct (insert_block_big pg 512 bs) as (c & m & ? & Hm). exists c, m. split; [done|].
    enough (512 <= m) by lia. apply Hm; [lia|]. intros p k Hin. destruct (hi_sep _ _ Hi) as (_ & _ & Hss). eapply (sep_elem _ _ _ _ Hss Hin). }
  destruct (alloc_pass_hit s h1 _ size u Hi1 Hu Hbig) as (c & h' & bs' & -> & ? & Hs' & Htk).
  exists c, h'. split; [done|]. split; [by eapply same_rest_trans|]. right. exists (insert_block pg 512 bs), bs'. split.
  - right. exists pg, s. split_and!; try done. by rewrite Hs', Hs1.
  - destruct Htk as [? ? ? Hfr]. split; try done. intros x Hx. rewrite Hfr by done.
    assert (Hfree : free_page (ringl (insert_block pg 512 bs)) x <-> free_page (ringl bs) x \/ pg <= x < pg + 512).
    { destruct (hi_sep _ _ Hi) as (_ & _ & Hss). rewrite !free_page_cons, (insert_block_free_page _ pg 512 bs x ltac:(lia) Hss (fits_tail _ _ _ _ _ Hf)). tauto. }
    rewrite Hfree in Hx. rewrite Hm1; [done|tauto|]. intros ->. apply Hx. right. lia.
Qed.

(** ** Allocated blocks *)
Fixpoint apart (l : list block) : Prop :=
  match l with
  | [] => True
  | (b, n) :: l => fits b n l /\ apart l
  end.

Lemma fits_app b n l r : fits b n (l ++ r) <-> fits b n l /\ fits b n r.
Proof. unfold fits. setoid_rewrite elem_of_app. naive_solver. Qed.

Lemma fits_iff b n bs : 0 < n -> (forall p m, (p, m) ∈ bs -> 0 < m) ->
  fits b n bs <-> forall x, b <= x < b + n -> ~ free_page bs x.
Proof.
  intros Hn Hpos. split.
  - intros Hf x Hx (p & m & Hin & ?). destruct (Hf _ _ Hin); lia.
  - intros Hf p m Hin. destruct (Z.le_gt_cases (p + m) b); [by left|]. destruct (Z.le_gt_cases (b + n) p); [by right|].
    exfalso. specialize (Hpos _ _ Hin). apply (Hf (Z.max b p)); [lia|]. exists p, m. split; [done|lia].
Qed.

Lemma fits_perm b n l l' : l ≡ₚ l' -> fits b n l -> fits b n l'.
Proof. intros Hp Hf p m Hin. apply (Hf p m). by rewrite Hp. Qed.

Lemma apart_perm l l' : l ≡ₚ l' -> apart l -> apart l'.
Proof.
  induction 1 as [|[b n] l l' Hp IH|[b n] [c m] l|l1 l2 l3 _ IH1 _ IH2]; simpl; [done|..].
  - intros [? ?]. split; [by eapply fits_perm|auto].
  - intros (H1 & H2 & H3). pose proof (fits_head _ _ _ _ _ H1). split_and!; [|by eapply fits_tail|done].
    intros p k [[= -> ->]|Hin]%elem_of_cons; [lia|by apply H2].
  - auto.
Qed.

Lemma apart_elem l c u d k : apart ((c, u) :: l) -> (d, k) ∈ l -> d + k <= c \/ c + u <= d.
Proof. intros [H _] Hin. by apply H. Qed.

Lemma ring_pos bs : sep arena (ringl bs) -> forall p m, (p, m) ∈ ringl bs -> 0 < m.
Proof. intros Hs p m Hin. by eapply sep_elem. Qed.

Lemma grown_free u h h' bs bs0 x :
  heap_inv h bs -> fresh_page 512 h (ringl bs) -> grown u h h' bs bs0 ->
  free_page (ringl bs0) x <-> free_page (ringl bs) x \/ exists pg, head (supply h) = Some (Some pg) /\ bs0 <> bs /\ pg <= x < pg + 512.
Proof.
  intros Hi Hf [[-> _]|(pg & s & Hs & _ & -> & _)]; [naive_solver|]. destruct (Hf _ _ Hs) as [Hfit _].
  destruct (hi_sep _ _ Hi) as (_ & _ & Hss). rewrite !free_page_cons.
  rewrite (insert_block_free_page _ pg 512 bs x ltac:(lia) Hss (fits_tail _ _ _ _ _ Hfit)).
  assert (Hne : insert_block pg 512 bs <> bs).
  { intros He. pose proof (insert_block_total pg 512 bs) as Ht. rewrite He in Ht. lia. }
  rewrite Hs. simpl. naive_solver.
Qed.

(** What [slob_alloc] gives beside a set [O] of blocks in use. *)
Record gave (u : Z) (h h' : heap) (bs0 O : list block) (c : Z) (bs' : list block) : Prop := {
  gv_inv : heap_inv h' bs';
  gv_hdr : exists nx, mem h' !! c = Some (Slob u nx);
  gv_above : arena + 1 < c;
  gv_free : fits c u (ringl bs');
  gv_new : fits c u O;
  gv_old : forall d k, (d, k) ∈ O -> fits d k (ringl bs') /\ mem h' !! d = mem h !! d;
  gv_back : insert_block c u bs' = bs0
}.

Lemma slob_alloc_gave h bs O size :
  heap_inv h bs -> (forall c u, (c, u) ∈ O -> fits c u (ringl bs) /\ 0 < u) -> fresh_page 512 h (ringl bs ++ O) ->
  9 <= size < 4088 ->
  let u := SLOB_UNITS size in
  exists c h', slob_alloc size 0 h = Ok (c, h') /\ same_rest h h' /\
    (c = 0 /\ heap_inv h' bs /\ mem h' = mem h /\ exhausted u h bs \/
     exists bs0 bs', grown u h h' bs bs0 /\ gave u h h' bs0 O c bs').
Proof.
  intros Hi HO Hfr Hsz u.
  assert (Hfr' : fresh_page 512 h (ringl bs)) by (intros pg s Hs; destruct (Hfr pg s Hs) as [[? ?]%fits_app ?]; done).
  destruct (slob_alloc_ok h bs size Hi Hsz Hfr') as (c & h' & -> & Hr & [H|(bs0 & bs' & Hg & Htk)]);
    exists c, h'; split_and!; [done..|by left|done|done|right].
  exists bs0, bs'. split; [done|]. fold u in Hg, Htk. pose proof (SLOB_UNITS_bounds size ltac:(lia)) as Hu. fold u in Hu. clearbody u.
  destruct Htk as [(X & m & Q & -> & Hum & ->) Hi' Hh Hframe].
  pose proof (hi_sep _ _ Hi) as Hsep. pose proof (hi_sep _ _ Hi') as Hsep'.
  assert (Hsep0 : sep arena (ringl (X ++ (c, m) :: Q))).
  { destruct Hg as [[-> _]|(pg & s & Hs & _ & -> & _)]; [done|]. destruct (Hfr' _ _ Hs) as [Hf Hp]. destruct Hsep as (? & ? & Hss).
    simpl. split_and!; [lia..|]. apply insert_block_sep; [lia|lia|done|by eapply fits_tail]. }
  pose proof Hsep0 as (_ & _ & Hss0).
  assert (Hcf : forall x, free_page (ringl (X ++ carve c m u ++ Q)) x <-> free_page (ringl (X ++ (c, m) :: Q)) x /\ ~ (c <= x < c + u)).
  { intros x. apply (carve_free_page arena ((arena, 1) :: X) c m Q u x); [lia|done]. }
  assert (HOf : forall d k x, (d, k) ∈ O -> d <= x < d + k -> ~ free_page (ringl (X ++ (c, m) :: Q)) x).
  { intros d k x Hin Hx. rewrite (grown_free u h h' bs _ x Hi Hfr' Hg). destruct (HO _ _ Hin) as [Hd Hk].
    intros [Hfp|(pg & Hhd & _ & Hpx)].
    - revert Hfp. by apply (proj1 (fits_iff d k _ Hk (ring_pos _ Hsep)) Hd).
    - destruct (supply h) as [|o s] eqn:Es; simplify_eq/=. destruct (Hfr pg s Es) as [[_ HfO]%(fits_app pg 512 (ringl bs) O) _]. destruct (HfO _ _ Hin); lia. }
  assert (Hcin : (c, m) ∈ X ++ (c, m) :: Q) by set_solver.
  split; [done|done|..].
  - pose proof (sep_elem _ _ _ _ Hss0 Hcin). lia.
  - apply fits_iff; [lia|by apply ring_pos|]. intros x Hx. rewrite Hcf. tauto.
  - apply fits_iff; [lia|by apply HO|]. intros x Hx (d & k & Hin & Hdx). apply (HOf _ _ _ Hin Hdx).
    exists c, m. split; [set_solver|lia].
  - intros d k Hin. destruct (HO _ _ Hin) as [_ Hk]. split.
    + apply fits_iff; [lia|by apply ring_pos|]. intros x Hx. rewrite Hcf. intros [Hfp _]. by apply (HOf _ _ _ Hin Hx).
    + apply Hframe. apply (HOf _ _ _ Hin). lia.
  - apply (insert_carve (arena + 1 + 1)); [lia|done].
Qed.

(** ** The interface *)

(** The blocks in use: the blocks [small] handed out for small requests, the
    records of page blocks and the page blocks. *)
Definition record_of (b : bigblock_t) : block := (bb b, 2).
Definition pages_of (b : bigblock_t) : block := (pages b, 512 * 2 ^ order b).
Definition owned (h : heap) (small : list block) : list block :=
  small ++ (record_of <$> bigblocks h) ++ (pages_of <$> bigblocks h).

Record heap_ok (h : heap) (bs small : list block) : Prop := {
  ok_inv : heap_inv h bs;
  ok_hdr : forall c u, (c, u) ∈ small -> 2 <= u /\ exists nx, mem h !! c = Some (Slob u nx);
  ok_apart : apart (owned h small);
  ok_fits : forall c u, (c, u) ∈ owned h small -> fits c u (ringl bs) /\ arena + 1 < c /\ 0 < u
}.

Lemma heap_ok_perm h bs small small' : small ≡ₚ small' -> heap_ok h bs small -> heap_ok h bs small'.
Proof.
  intros Hp [Hi Hh Ha Hf]. assert (Ho : owned h small ≡ₚ owned h small') by (unfold owned; by rewrite Hp).
  split; [done|..].
  - intros c u Hin. apply Hh. by rewrite Hp.
  - by eapply apart_perm.
  - intros c u Hin. apply Hf. by rewrite Ho.
Qed.

Lemma same_rest_owned h h' small : same_rest h h' -> owned h' small = owned h small.
Proof. intros [Hb _]. unfold owned. by rewrite Hb. Qed.

(** A new block beside those in use. *)
Lemma heap_ok_new h h' bs bs0 bs' small u c :
  heap_ok h bs small -> same_rest h h' -> 2 <= u -> gave u h h' bs0 (owned h small) c bs' -> heap_ok h' bs' ((c, u) :: small).
Proof.
  intros [Hi Hh Ha Hf] Hr Hu [Hi' Hc Hac Hfc Hnew Hold Hback].
  assert (Ho : owned h' ((c, u) :: small) = (c, u) :: owned h small) by (rewrite (same_rest_owned h h') by done; done).
  split; [done|..]; rewrite ?Ho.
  - intros d k [[= -> ->]|Hin]%elem_of_cons; [done|]. destruct (Hh _ _ Hin) as [? [nx Hm]]. split; [done|]. exists nx.
    destruct (Hold d k) as [_ ->]; [|done]. unfold owned. apply elem_of_app. by left.
  - by split.
  - intros d k [[= -> ->]|Hin]%elem_of_cons; [split_and!; (done || lia)|]. destruct (Hf _ _ Hin) as (_ & ? & ?).
    split_and!; try done. by apply Hold.
Qed.

(** Nothing was allocated. *)
Lemma heap_ok_same h h' bs small :
  heap_ok h bs small -> same_rest h h' -> heap_inv h' bs -> mem h' = mem h -> heap_ok h' bs small.
Proof. intros [Hi Hh Ha Hf] Hr Hi' Hm. split; rewrite ?(same_rest_owned h h') by done; [done| |done..]. by rewrite Hm. Qed.

(** A block that is in use is given back to the free blocks. *)
Lemma slob_free_owned h bs c u O size :
  heap_inv h bs -> (forall d k, (d, k) ∈ (c, u) :: O -> fits d k (ringl bs) /\ arena + 1 < d /\ 0 < k) -> apart ((c, u) :: O) ->
  (size <> 0 /\ u = SLOB_UNITS size \/ size = 0 /\ exists nx, mem h !! c = Some (Slob u nx)) ->
  exists h', slob_free c size h = Ok h' /\ heap_inv h' (insert_block c u bs) /\ same_rest h h' /\ supply h' = supply h /\
    (forall d k, (d, k) ∈ O -> fits d k (ringl (insert_block c u bs)) /\ mem h' !! d = mem h !! d).
Proof.
  intros Hi Hf [Hd _] Hsz. destruct (Hf c u) as (Hfc & Hac & Hu); [by apply elem_of_cons; left|].
  destruct (slob_free_ok h bs c size u Hi Hfc Hu Hac Hsz) as (h' & -> & Hi' & Hr & Hsu & Hfr).
  exists h'. split_and!; [done..|]. intros d k Hin. destruct (Hf d k) as (Hfd & _ & Hk); [by apply elem_of_cons; right|].
  pose proof (Hd _ _ Hin) as Hcd.
  pose proof (hi_sep _ _ Hi) as Hsep. pose proof (proj1 (fits_iff d k _ Hk (ring_pos _ Hsep)) Hfd) as Hnd.
  split.
  - apply fits_iff; [done|apply ring_pos, (hi_sep _ _ Hi')|]. intros x Hx. destruct Hsep as (? & ? & Hss).
    rewrite free_page_cons, (insert_block_free_page _ c u bs x Hu Hss (fits_tail _ _ _ _ _ Hfc)).
    specialize (Hnd x Hx). rewrite free_page_cons in Hnd. intros [?|[?|?]]; [tauto|tauto|lia].
  - apply Hfr; [apply Hnd; lia|]. lia.
Qed.

Lemma kmalloc_small_spec h bs small size :
  heap_ok h bs small -> 1 <= size < 4080 -> fresh_page 512 h (ringl bs ++ owned h small) ->
  let u := SLOB_UNITS (size + 8) in
  exists p h', kmalloc size h = Ok (p, h') /\ same_rest h h' /\
    (p = 0 /\ heap_ok h' bs small /\ exhausted u h bs \/
     exists bs0 bs', 0 < p /\ size <= 8 * (u - 1) /\ grown u h h' bs bs0 /\ heap_ok h' bs' ((p - 1, u) :: small) /\
       insert_block (p - 1) u bs' = bs0).
Proof.
  intros Hok Hsz Hfr u. pose proof Hok as [Hi Hh Ha Hf].
  pose proof (SLOB_UNITS_bounds (size + 8) ltac:(lia)) as Hu. fold u in Hu.
  unfold kmalloc, __kmalloc. unfold PAGE_SIZE, SLOB_UNIT. destruct (Z.ltb_spec size (4096 - 8)) as [_|]; [|lia].
  destruct (slob_alloc_gave h bs (owned h small) (size + 8) Hi) as (c & h' & -> & Hr & [(-> & Hi' & Hm & Hex)|(bs0 & bs' & Hg & Hgv)]).
  - intros c k Hin. destruct (Hf _ _ Hin) as (? & ? & ?). done.
  - done.
  - lia.
  - exists 0, h'. split_and!; [done..|]. left. split_and!; [done| |done]. by apply (heap_ok_same h).
  - fold u in Hg, Hgv. pose proof (gv_above _ _ _ _ _ _ _ Hgv). pose proof (hi_pos _ _ Hi).
    exists (c + 1), h'. rewrite res_bind_ok. destruct (Z.eqb_spec c 0); [lia|]. cbn [negb].
    split_and!; [done..|]. right. exists bs0, bs'. replace (c + 1 - 1) with c by lia.
    split_and!; [lia|lia|done| |apply (gv_back _ _ _ _ _ _ _ Hgv)]. eapply heap_ok_new; (done || lia).
Qed.

Lemma find_big_spec p l b r : find_big p l = Some (b, r) -> l ≡ₚ b :: r /\ pages b = p.
Proof.
  revert r. induction l as [|x l IH]; intros r; simpl; [done|]. zcase; [by intros [= -> ->]|].
  destruct (find_big p l) as [[y s]|]; simpl; [|done]. intros [= -> <-]. destruct (IH s eq_refl) as [-> ?]. split; [|done]. apply Permutation_swap.
Qed.

Lemma find_big_none p l : (forall b, b ∈ l -> pages b <> p) -> find_big p l = None.
Proof.
  induction l as [|x l IH]; intros H; simpl; [done|]. destruct (Z.eqb_spec (pages x) p) as [He|_].
  - by destruct (H x ltac:(set_solver)).
  - rewrite IH; [done|]. set_solver.
Qed.

Lemma find_big_some p l b : b ∈ l -> pages b = p -> exists c r, find_big p l = Some (c, r).
Proof.
  intros Hin Hp. induction l as [|x l IH]; [by apply elem_of_nil in Hin|]. simpl. destruct (Z.eqb_spec (pages x) p); [by eauto|].
  apply elem_of_cons in Hin as [->|Hin]; [done|]. destruct (IH Hin) as (c & r & ->). simpl. eauto.
Qed.

Lemma kfree_small_spec h bs small p u :
  heap_ok h bs ((p - 1, u) :: small) ->
  exists h', kfree p h = Ok h' /\ heap_ok h' (insert_block (p - 1) u bs) small /\ same_rest h h' /\ supply h' = supply h.
Proof.
  intros [Hi Hh Ha Hf]. destruct (Hh (p - 1) u) as [Hu Hhd]; [by apply elem_of_cons; left|].
  change (owned h ((p - 1, u) :: small)) with ((p - 1, u) :: owned h small) in Ha, Hf.
  destruct (Hf (p - 1) u) as (_ & Hp & _); [by apply elem_of_cons; left|]. pose proof (hi_pos _ _ Hi).
  unfold kfree. destruct (Z.eqb_spec p 0); [lia|].
  assert (Hno : find_big p (bigblocks h) = None).
  { apply find_big_none. intros b Hb He. assert (Hin : pages_of b ∈ owned h small).
    { unfold owned. rewrite !elem_of_app. right. right. by apply list_elem_of_fmap_2. }
    assert (Hin2 : (p, 512 * 2 ^ order b) ∈ owned h small) by (unfold pages_of in Hin; by rewrite He in Hin).
    destruct (Hf p (512 * 2 ^ order b)) as (_ & _ & ?); [by apply elem_of_cons; right|].
    pose proof (apart_elem _ _ _ _ _ Ha Hin2). lia. }
  rewrite Hno. replace (if page_aligned p then None else None) with (@None (bigblock_t * list bigblock_t)) by by destruct (page_aligned p).
  destruct (slob_free_owned h bs (p - 1) u (owned h small) 0 Hi Hf Ha) as (h' & -> & Hi' & Hr & Hs & Hold); [by right|].
  exists h'. split; [done|]. split; [|done]. split; rewrite ?(same_rest_owned h h') by done.
  - done.
  - intros c k Hin. destruct (Hh c k) as [? [nx Hm]]; [by apply elem_of_cons; right|]. split; [done|]. exists nx. rewrite <- Hm.
    apply (Hold c k). unfold owned. apply elem_of_app. by left.
  - apply Ha.
  - intros c k Hin. destruct (Hf c k) as (_ & ? & ?); [by apply elem_of_cons; right|]. split_and!; try done. by apply Hold.
Qed.

(** ** Page blocks *)

(** The pages that may be used for the record and for the block of [2^o]
    pages: the next one or two results of the page allocator. *)
Definition fresh_pages (o : Z) (h : heap) (l : list block) : Prop :=
  fresh_page 512 h l /\ fresh_page (512 * 2 ^ o) h l /\
  (forall x s, supply h = x :: s -> fresh_page (512 * 2 ^ o) (set_supply s h) l) /\
  (forall p q s, supply h = Some p :: Some q :: s -> fits q (512 * 2 ^ o) [(p, 512)]).

Lemma find_order_nonneg size : 0 <= find_order size.
Proof.
  unfold find_order. enough (forall n s o, 0 <= o -> 0 <= find_order_from n s o) by (apply H; lia).
  induction n as [|n IH]; intros s o Ho; simpl; [done|]. zcase. zcase; [apply IH; lia|done].
Qed.

(** The pages after the record: beside everything the heap uses. *)
Lemma fresh_after o h h' bs bs0 bs' O c s pg :
  heap_inv h bs -> fresh_pages o h (ringl bs ++ O) -> 0 <= o -> grown 2 h h' bs bs0 ->
  gave 2 h h' bs0 O c bs' -> supply h' = Some pg :: s ->
  fits pg (512 * 2 ^ o) (ringl bs' ++ (c, 2) :: O) /\ arena + 1 < pg.
Proof.
  intros Hi (Hf1 & Hf2 & Hf3 & Hf4) Ho Hg Hgv Hs. assert (Hpos : 0 < 512 * 2 ^ o) by (pose proof (Z.pow_pos_nonneg 2 o); lia).
  assert (Hpg : fits pg (512 * 2 ^ o) (ringl bs ++ O) /\ arena + 1 < pg /\
                (bs0 <> bs -> forall p, head (supply h) = Some (Some p) -> fits pg (512 * 2 ^ o) [(p, 512)])).
  { destruct Hg as [[-> Hs']|(p & s' & Hs0 & Hs' & -> & _)].
    - destruct (Hf2 pg s) as [? ?]; [congruence|]. split_and!; done.
    - subst s'. destruct (Hf3 _ _ Hs0 pg s) as [? ?]; [done|]. split_and!; [done..|].
      intros _ q. rewrite Hs0. intros [= ->]. apply (Hf4 q pg s). by rewrite Hs0, Hs. }
  destruct Hpg as (Hfit & Hpa & Hdis). split; [|done].
  assert (Hfr : fresh_page 512 h (ringl bs)) by (intros p' s' Hs'; destruct (Hf1 p' s' Hs') as [[? ?]%(fits_app p' 512 (ringl bs) O) ?]; done).
  apply (fits_app pg _ (ringl bs) O) in Hfit as [Hfb HfO].
  pose proof (hi_sep _ _ Hi) as Hsep. pose proof (hi_sep _ _ (gv_inv _ _ _ _ _ _ _ Hgv)) as Hsep'.
  (* the new free blocks and the record lie in the old free blocks and the new page *)
  assert (H0 : forall x, pg <= x < pg + 512 * 2 ^ o -> ~ free_page (ringl bs0) x).
  { intros x Hx. rewrite (grown_free 2 h h' bs bs0 x Hi Hfr Hg). intros [Hfp|(p & Hh & Hne & Hpx)].
    - by apply (proj1 (fits_iff pg _ _ Hpos (ring_pos _ Hsep)) Hfb x Hx).
    - destruct (Hdis Hne p Hh p 512 ltac:(by apply list_elem_of_singleton)); lia. }
  assert (Hback : forall x, free_page (ringl bs0) x <-> free_page (ringl bs') x \/ c <= x < c + 2).
  { intros x. rewrite <- (gv_back _ _ _ _ _ _ _ Hgv). destruct Hsep' as (_ & _ & Hss).
    pose proof (gv_free _ _ _ _ _ _ _ Hgv) as Hfc. rewrite !free_page_cons, (insert_block_free_page _ c 2 bs' x ltac:(lia) Hss (fits_tail _ _ _ _ _ Hfc)). tauto. }
  apply fits_app. split.
  - apply fits_iff; [done|by apply ring_pos|]. intros x Hx Hfp. apply (H0 x Hx), Hback. by left.
  - intros d k [[= -> ->]|Hin]%elem_of_cons; [|by apply HfO].
    enough (fits pg (512 * 2 ^ o) [(c, 2)]) as H by (apply H; by apply list_elem_of_singleton).
    apply fits_iff; [done|intros ? ? [= -> ->]%list_elem_of_singleton; lia|]. intros x Hx (p & m & [= -> ->]%list_elem_of_singleton & ?).
    apply (H0 x Hx), Hback. by right.
Qed.

(** There are no pages for the block: its record goes back. *)
Lemma record_back h h1 bs bs0 bs' small c s :
  heap_ok h bs small -> same_rest h h1 -> gave 2 h h1 bs0 (owned h small) c bs' ->
  exists p h', (h2 ← slob_free c BIGBLOCK_SIZE (set_supply s h1); Ok (0, h2)) = Ok (p, h') /\
    p = 0 /\ bigblocks h' = bigblocks h /\ supply h' = s /\ heap_ok h' bs0 small.
Proof.
  intros Hok Hr Hgv. pose proof (heap_ok_new h h1 bs bs0 bs' small 2 c Hok Hr ltac:(lia) Hgv) as [Hi1 Hh1 Ha1 Hf1].
  assert (Hown1 : owned h1 ((c, 2) :: small) = (c, 2) :: owned h small) by (rewrite (same_rest_owned h h1) by done; done).
  rewrite Hown1 in Ha1, Hf1. pose proof (ok_fits _ _ _ Hok) as Hf.
  destruct (slob_free_owned (set_supply s h1) bs' c 2 (owned h small) BIGBLOCK_SIZE (set_supply_inv _ _ _ Hi1) Hf1 Ha1) as (h2 & -> & Hi2 & Hr2 & Hs2 & Hold); [by left|].
  exists 0, h2. rewrite res_bind_ok. split_and!; [done|done|destruct Hr, Hr2; simpl in *; congruence|done|].
  rewrite (gv_back _ _ _ _ _ _ _ Hgv) in Hi2, Hold.
  assert (Ho2 : owned h2 small = owned h small) by (apply same_rest_owned; destruct Hr, Hr2; split; simpl in *; congruence).
  split; rewrite ?Ho2; [done| |by destruct Ha1|].
  - intros d k Hin. destruct (Hh1 d k) as [? [nx Hnx]]; [by apply elem_of_cons; right|]. split; [done|]. exists nx. rewrite <- Hnx.
    apply (Hold d k). unfold owned. apply elem_of_app. by left.
  - intros d k Hin. destruct (Hf _ _ Hin) as (_ & ? & ?). split_and!; try done. by apply Hold.
Qed.

Lemma kmalloc_big_spec h bs small size :
  heap_ok h bs small -> 4088 <= size < 2 ^ 31 -> fresh_pages (find_order size) h (ringl bs ++ owned h small) ->
  exists p h', kmalloc size h = Ok (p, h') /\
    (p = 0 /\ bigblocks h' = bigblocks h /\ (forall x y s, supply h <> Some x :: Some y :: s) /\
       (exists bs0, (bs0 = bs \/ exists s, grown 2 h (set_supply s h') bs bs0) /\ heap_ok h' bs0 small) \/
     exists b bs', bigblocks h' = b :: bigblocks h /\ pages b = p /\ 0 < p /\ order b = find_order size /\ heap_ok h' bs' small).
Proof.
  intros Hok Hsz Hfr. set (o := find_order size) in *. pose proof Hok as [Hi Hh Ha Hf].
  assert (Ho : 0 <= o) by apply find_order_nonneg.
  unfold kmalloc, __kmalloc. unfold PAGE_SIZE at 1, SLOB_UNIT at 1. destruct (Z.ltb_spec size (4096 - 8)) as [|_]; [lia|].
  rewrite i32_small by lia. fold o. clearbody o. clear Hsz size.
  destruct (slob_alloc_gave h bs (owned h small) BIGBLOCK_SIZE Hi) as (c & h1 & -> & Hr & Hcase).
  { intros c k Hin. destruct (Hf _ _ Hin) as (? & ? & ?). done. }
  { apply Hfr. }
  { unfold BIGBLOCK_SIZE. lia. }
  change (SLOB_UNITS BIGBLOCK_SIZE) with 2 in Hcase. rewrite res_bind_ok.
  destruct Hcase as [(-> & Hi' & Hm & Hex)|(bs0 & bs' & Hg & Hgv)].
  { rewrite Z.eqb_refl. exists 0, h1. split; [done|]. left. split_and!; [done|apply Hr| |].
    - intros x y s Hs. destruct Hex as [_ [Hs'|Hs']]; rewrite Hs in Hs'; done.
    - exists bs. split; [by left|]. by apply (heap_ok_same h). }
  pose proof (gv_above _ _ _ _ _ _ _ Hgv). pose proof (hi_pos _ _ Hi). destruct (Z.eqb_spec c 0) as [|_]; [lia|].
  pose proof (heap_ok_new h h1 bs bs0 bs' small 2 c Hok Hr ltac:(lia) Hgv) as Hok1.
  assert (Hown1 : owned h1 ((c, 2) :: small) = (c, 2) :: owned h small) by (rewrite (same_rest_owned h h1) by done; done).
  unfold __slob_get_free_pages.
  assert (Hfail := fun s => record_back h h1 bs bs0 bs' small c s Hok Hr Hgv).
  assert (Hgs : forall h' s, supply h' = s -> grown 2 h (set_supply (supply h1) h') bs bs0).
  { intros h' s _. destruct Hg as [[-> Hs']|(p & s' & Hs0 & Hs' & -> & ?)]; [by left|right; by exists p, s']. }
  assert (Hno : match supply h1 with Some _ :: _ => True | _ => forall x y s, supply h <> Some x :: Some y :: s end).
  { destruct Hg as [[_ Hs']|(p & s' & Hs0 & Hs' & _)]; rewrite Hs'; [|rewrite Hs0]; [destruct (supply h) as [|[]]|destruct s' as [|[]]]; try done; intros x y s E; done. }
  destruct (supply h1) as [|[pg|] s] eqn:Hs1; cbn [default].
  - rewrite Z.eqb_refl. cbn [negb]. assert (He : h1 = set_supply [] h1) by (destruct h1; simpl in *; by subst). rewrite He.
    destruct (Hfail []) as (p & h' & Heq & -> & ? & ? & ?). exists 0, h'. split; [done|]. left. split_and!; [done|done|done|]. exists bs0. split; [|done].
    right. exists []. by apply (Hgs h' []).
  - unfold id. destruct (fresh_after o h h1 bs bs0 bs' (owned h small) c s pg Hi Hfr Ho Hg Hgv Hs1) as [Hfit Hpa].
    destruct (Z.eqb_spec pg 0) as [|_]; [lia|]. cbn [negb]. eexists pg, _. split; [done|]. right. eexists (Big c o pg), bs'. cbn [set_bigblocks set_supply bigblocks pages order].
    split_and!; [destruct Hr; congruence|done|lia|done|].
    pose proof Hok1 as [Hi1 Hh1 Ha1 Hf1]. rewrite Hown1 in Ha1, Hf1. apply fits_app in Hfit as [Hfr1 Hfo].
    assert (Hop : (pg, 512 * 2 ^ o) :: (c, 2) :: owned h small ≡ₚ owned (set_bigblocks (Big c o pg :: bigblocks h1) (set_supply s h1)) small).
    { unfold owned. cbn [set_bigblocks set_supply bigblocks]. destruct Hr as [-> _]. cbn [fmap list_fmap].
      change (record_of (Big c o pg)) with (c, 2). change (pages_of (Big c o pg)) with (pg, 512 * 2 ^ o). solve_Permutation. }
    split.
    + by destruct Hi1.
    + intros d k Hin. apply Hh1. apply elem_of_cons. by right.
    + eapply apart_perm; [exact Hop|]. by split.
    + intros d k Hin. rewrite <- Hop in Hin. apply elem_of_cons in Hin as [[= -> ->]|Hin]; [|by apply Hf1].
      pose proof (Z.pow_pos_nonneg 2 o). split_and!; (done || lia).
  - rewrite Z.eqb_refl. cbn [negb]. destruct (Hfail s) as (p & h' & Heq & -> & ? & Hs' & ?). rewrite Heq.
    exists 0, h'. split; [done|]. left. split_and!; [done..|]. exists bs0. split; [|done]. right. exists (None :: s). by apply (Hgs h' s).
Qed.

Lemma kfree_big_spec h bs small b :
  heap_ok h bs small -> b ∈ bigblocks h -> page_aligned (pages b) = true ->
  exists h', kfree (pages b) h = Ok h' /\ heap_ok h' (insert_block (bb b) 2 bs) small /\
    bigblocks h ≡ₚ b :: bigblocks h' /\ released h' = (pages b, order b) :: released h /\ supply h' = supply h.
Proof.
  intros [Hi Hh Ha Hf] Hb Hal.
  assert (Hpin : pages_of b ∈ owned h small) by (unfold owned; rewrite !elem_of_app; right; right; by apply list_elem_of_fmap_2).
  destruct (Hf (pages b) (512 * 2 ^ order b) Hpin) as (_ & Hpa & Hpp). pose proof (hi_pos _ _ Hi).
  unfold kfree. destruct (Z.eqb_spec (pages b) 0) as [|_]; [lia|]. rewrite Hal.
  destruct (find_big_some (pages b) (bigblocks h) b Hb eq_refl) as (b' & r & Hfb). rewrite Hfb.
  destruct (find_big_spec _ _ _ _ Hfb) as [Hperm Hpg].
  assert (Ho' : pages_of b' :: record_of b' :: (small ++ (record_of <$> r) ++ (pages_of <$> r)) ≡ₚ owned h small).
  { unfold owned. rewrite Hperm. cbn [fmap list_fmap]. solve_Permutation. }
  assert (Hbb : b' = b).
  { rewrite Hperm in Hb. apply elem_of_cons in Hb as [->|Hb]; [done|]. exfalso.
    apply (apart_perm _ _ (symmetry Ho')) in Ha. unfold pages_of at 1 in Ha.
    assert (Hin : pages_of b ∈ record_of b' :: small ++ (record_of <$> r) ++ (pages_of <$> r)).
    { apply elem_of_cons. right. rewrite !elem_of_app. right. right. by apply list_elem_of_fmap_2. }
    pose proof (apart_elem _ _ _ _ _ Ha Hin). destruct (Hf (pages b') (512 * 2 ^ order b')) as (_ & _ & ?); [|lia].
    rewrite <- Ho'. apply elem_of_cons. by left. }
  subst b'. set (h0 := __slob_free_pages (pages b) (order b) (set_bigblocks r h)).
  assert (Hi0 : heap_inv h0 bs) by by destruct Hi.
  apply (apart_perm _ _ (symmetry Ho')) in Ha. destruct Ha as [_ Ha].
  assert (Hf' : forall d k, (d, k) ∈ record_of b :: owned h0 small -> fits d k (ringl bs) /\ arena + 1 < d /\ 0 < k).
  { intros d k Hin. apply Hf. rewrite <- Ho'. apply elem_of_cons. by right. }
  destruct (slob_free_owned h0 bs (bb b) 2 (owned h0 small) BIGBLOCK_SIZE Hi0 Hf' Ha) as (h' & -> & Hi' & Hr & Hs & Hold); [by left|].
  exists h'. split; [done|]. destruct Hr as [Hbb Hrel]. split_and!; [|by rewrite Hbb|by rewrite Hrel|done].
  assert (Hown : owned h' small = owned h0 small) by (by apply same_rest_owned).
  split; rewrite ?Hown; [done| |by destruct Ha|].
  - intros d k Hin. destruct (Hh _ _ Hin) as [? [nx Hnx]]. split; [done|]. exists nx. rewrite <- Hnx.
    apply (Hold d k). unfold owned. apply elem_of_app. by left.
  - intros d k Hin. destruct (Hf' d k) as (_ & ? & ?); [apply elem_of_cons; by right|]. split_and!; try done. by apply Hold.
Qed.

(** C19: [kmalloc] of 1 to 4079 bytes, and of 4088 bytes up to [2^31 - 1]
    where the power of two of pages that [find_order] chooses is large enough,
    on a heap whose free blocks and blocks in use are disjoint.  It returns.
    A small request gets a block of at least that many bytes (after its
    header) that overlaps no free block and no block in use, with at most one
    new page added to the free blocks and then only if no free block was large
    enough; or NULL, the heap unchanged, and only if no free block is large
    enough and there is no page.  A large request gets [2^order] pages of at
    least that many bytes that overlap no free block and no block in use, and
    is entered, with its order, on the list of page blocks; or NULL, with
    nothing more in use than before, and only if the page allocator does not
    give a page for the record and then the pages.  (For the sizes left out
    [kmalloc] is wrong: see [kmalloc_bad_sizes].) *)
Theorem kmalloc_correct h bs small size :
  heap_ok h bs small ->
  (1 <= size < 4080 -> fresh_page 512 h (ringl bs ++ owned h small) ->
   let u := SLOB_UNITS (size + 8) in
   exists p h', kmalloc size h = Ok (p, h') /\
     (p = 0 /\ heap_ok h' bs small /\ exhausted u h bs \/
      exists bs0 bs', 0 < p /\ size <= 8 * (u - 1) /\ grown u h h' bs bs0 /\ heap_ok h' bs' ((p - 1, u) :: small))) /\
  (4088 <= size < 2 ^ 31 -> size <= PAGE_SIZE * 2 ^ find_order size ->
   fresh_pages (find_order size) h (ringl bs ++ owned h small) ->
   exists p h', kmalloc size h = Ok (p, h') /\
     (p = 0 /\ bigblocks h' = bigblocks h /\ (exists bs0, heap_ok h' bs0 small) /\ (forall x y s, supply h <> Some x :: Some y :: s) \/
      exists b bs', bigblocks h' = b :: bigblocks h /\ pages b = p /\ 0 < p /\ size <= 8 * (pages_of b).2 /\ heap_ok h' bs' small)).
Proof.
  intros Hok. split.
  - intros Hsz Hfr u. destruct (kmalloc_small_spec h bs small size Hok Hsz Hfr) as (p & h' & -> & _ & [?|(bs0 & bs' & ? & ? & ? & ? & _)]);
      exists p, h'; split; [done|by left|done|right]. by exists bs0, bs'.
  - intros Hsz Hsize Hfr. destruct (kmalloc_big_spec h bs small size Hok Hsz Hfr) as (p & h' & -> & [(? & ? & ? & bs0 & _ & ?)|(b & bs' & ? & ? & ? & Ho & ?)]);
      exists p, h'; (split; [done|]); [left; split_and!; [done..|by exists bs0|done]|right]. exists b, bs'. split_and!; try done.
    unfold pages_of. cbn [snd]. rewrite Ho. unfold PAGE_SIZE in Hsize. lia.
Qed.

(** [kfree] of the block [kmalloc] gave restores the free blocks from
    which it was taken, whatever else is in use: the free list is the one
    before [kmalloc], or the one with the new page if a page was needed. *)
Theorem kmalloc_kfree_roundtrip h bs small size :
  heap_ok h bs small -> 1 <= size < 4080 -> fresh_page 512 h (ringl bs ++ owned h small) ->
  exists p h1, kmalloc size h = Ok (p, h1) /\
    (p = 0 \/ exists bs0 h2, grown (SLOB_UNITS (size + 8)) h h1 bs bs0 /\ kfree p h1 = Ok h2 /\ heap_ok h2 bs0 small /\ supply h2 = supply h1).
Proof.
  intros Hok Hsz Hfr. destruct (kmalloc_small_spec h bs small size Hok Hsz Hfr) as (p & h1 & -> & _ & [[-> ?]|(bs0 & bs' & Hp & _ & Hg & Hok1 & Hb)]);
    eexists _, h1; (split; [done|]); [by left|right].
  destruct (kfree_small_spec h1 bs' small p _ Hok1) as (h2 & -> & Hok2 & _ & Hs). rewrite Hb in Hok2. by exists bs0, h2.
Qed.

(** [kmalloc] of a page block: it returns a block of [2^order] pages,
    disjoint from every free block and every block in use, with its record on
    the list of page blocks, or NULL with nothing in use but what was before;
    [kfree] of a page block takes the record off the list, frees it and gives
    exactly these pages back. *)
Theorem kmalloc_pages_correct h bs small size :
  heap_ok h bs small ->
  (4088 <= size < 2 ^ 31 -> fresh_pages (find_order size) h (ringl bs ++ owned h small) ->
   exists p h', kmalloc size h = Ok (p, h') /\
     (p = 0 /\ bigblocks h' = bigblocks h /\ (exists bs0, heap_ok h' bs0 small) \/
      exists b bs', bigblocks h' = b :: bigblocks h /\ pages b = p /\ 0 < p /\ order b = find_order size /\ heap_ok h' bs' small)) /\
  (forall b, b ∈ bigblocks h -> page_aligned (pages b) = true ->
   exists h', kfree (pages b) h = Ok h' /\ heap_ok h' (insert_block (bb b) 2 bs) small /\
     bigblocks h ≡ₚ b :: bigblocks h' /\ released h' = (pages b, order b) :: released h).
Proof.
  intros Hok. split.
  - intros Hsz Hfr. destruct (kmalloc_big_spec h bs small size Hok Hsz Hfr) as (p & h' & -> & [(? & ? & _ & bs0 & _ & ?)|?]);
      exists p, h'; (split; [done|]); [left|by right]. split_and!; [done..|by exists bs0].
  - intros b Hb Hal. destruct (kfree_big_spec h bs small b Hok Hb Hal) as (h' & ? & ? & ? & ? & _). by exists h'.
Qed.
End heap.

(** ** A heap at work *)
Lemma init_heap_ok arena s : 0 < arena -> heap_ok arena (init_heap arena s) [] [].
Proof.
  intros Ha. split; [|by intros ? ? ?%elem_of_nil|done|by intros ? ? ?%elem_of_nil]. split; simpl; [|lia|set_solver|done].
  by rewrite lookup_singleton_eq.
Qed.

Lemma fresh_two (arena p q n : Z) l s (h : heap) :
  supply h = Some p :: Some q :: s -> fits p n l -> arena + 1 < p -> fresh_page arena n h l.
Proof. intros Hs Hf Hp pg t H'. rewrite Hs in H'. injection H' as <- <-. done. Qed.

Lemma fits_one p n c k : p + n <= c \/ c + k <= p -> fits p n [(c, k)].
Proof. intros H x y [= -> ->]%list_elem_of_singleton. lia. Qed.

Lemma fresh_pages_ex : fresh_pages 100 1 (init_heap 100 [Some 1024; Some 2048]) ((100, 1) :: [] ++ owned (init_heap 100 [Some 1024; Some 2048]) []).
Proof.
  split_and!.
  - eapply fresh_two; [reflexivity|apply fits_one; lia|lia].
  - eapply fresh_two; [reflexivity|apply fits_one; lia|lia].
  - intros x s [= <- <-] pg t [= <- <-]. split; [apply fits_one; lia|lia].
  - intros p q s [= <- <- <-]. apply fits_one. lia.
Qed.

Lemma kmalloc_correct_witness :
  (exists p h', kmalloc 10 (init_heap 100 [Some 1024; Some 2048]) = Ok (p, h') /\
    (p = 0 /\ heap_ok 100 h' [] [] /\ exhausted (SLOB_UNITS 18) (init_heap 100 [Some 1024; Some 2048]) [] \/
     exists bs0 bs', 0 < p /\ 10 <= 8 * (SLOB_UNITS 18 - 1) /\
       grown (SLOB_UNITS 18) (init_heap 100 [Some 1024; Some 2048]) h' [] bs0 /\ heap_ok 100 h' bs' [(p - 1, SLOB_UNITS 18)])) /\
  (exists p h', kmalloc 8000 (init_heap 100 [Some 1024; Some 2048]) = Ok (p, h') /\
     exists b bs', bigblocks h' = [b] /\ pages b = p /\ 0 < p /\ 8000 <= 8 * (pages_of b).2 /\ heap_ok 100 h' bs' []).
Proof.
  split.
  - apply (kmalloc_correct 100 (init_heap 100 [Some 1024; Some 2048]) [] [] 10); [by apply init_heap_ok|lia|].
    eapply fresh_two; [reflexivity|apply fits_one; lia|lia].
  - destruct (kmalloc_correct 100 (init_heap 100 [Some 1024; Some 2048]) [] [] 8000) as [_ H]; [by apply init_heap_ok|].
    destruct H as (p & h' & E & [(_ & _ & _ & Hn)|H]); [lia|change (find_order 8000) with 1; unfold PAGE_SIZE; lia| | |].
    + change (find_order 8000) with 1. exact fresh_pages_ex.
    + by destruct (Hn 1024 2048 []).
    + exists p, h'. split; [exact E|exact H].
Defined.

Lemma kmalloc_kfree_roundtrip_witness :
  exists p h1, kmalloc 10 (init_heap 100 [Some 1024; Some 2048]) = Ok (p, h1) /\
    (p = 0 \/ exists bs0 h2, grown (SLOB_UNITS 18) (init_heap 100 [Some 1024; Some 2048]) h1 [] bs0 /\ kfree p h1 = Ok h2 /\ heap_ok 100 h2 bs0 [] /\ supply h2 = supply h1).
Proof.
  apply (kmalloc_kfree_roundtrip 100 (init_heap 100 [Some 1024; Some 2048]) [] [] 10); [by apply init_heap_ok|lia|].
  eapply fresh_two; [reflexivity|apply fits_one; lia|lia].
Defined.

Lemma kmalloc_pages_correct_witness :
  exists p h', kmalloc 8000 (init_heap 100 [Some 1024; Some 2048]) = Ok (p, h') /\
     (p = 0 /\ bigblocks h' = [] /\ (exists bs0, heap_ok 100 h' bs0 []) \/
      exists b bs', bigblocks h' = [b] /\ pages b = p /\ 0 < p /\ order b = find_order 8000 /\ heap_ok 100 h' bs' []).
Proof.
  apply (kmalloc_pages_correct 100 (init_heap 100 [Some 1024; Some 2048]) [] [] 8000); [by apply init_heap_ok|lia|].
  change (find_order 8000) with 1. exact fresh_pages_ex.
Defined.

(** the sizes [kmalloc] gets wrong: 4080 to 4087 bytes fail the assertion
    of [slob_alloc], on every heap; 8193 bytes are given two pages, 8192
    bytes; and 0 bytes on the initial heap are given the static block of the
    ring itself, twice in a row, whose [kfree] walks the ring for ever. *)
Theorem kmalloc_bad_sizes arena s (h : heap) :
  Forall (fun size => kmalloc size h = Panic) [4080; 4081; 4082; 4083; 4084; 4085; 4086; 4087] /\
  PAGE_SIZE * 2 ^ find_order 8193 = 8192 /\
  kmalloc 0 (init_heap arena s) = Ok (if arena =? 0 then 0 else arena + 1, init_heap arena s) /\
  (forall n, free_scan n (slobfree (init_heap arena s)) arena (init_heap arena s) = Spin).
Proof.
  split_and!.
  - repeat constructor.
  - reflexivity.
  - unfold kmalloc, __kmalloc, slob_alloc. change (0 <? PAGE_SIZE - SLOB_UNIT) with true. cbv iota.
    change (kassert (u32 (0 + SLOB_UNIT + SLOB_UNIT) <? PAGE_SIZE)) with (Ok tt). rewrite res_bind_ok.
    change (SLOB_UNITS (0 + SLOB_UNIT)) with 1.
    assert (Hr : rd (init_heap arena s) arena = Slob 1 arena) by (apply rd_lookup; apply lookup_singleton_eq).
    assert (Hscan : forall n, alloc_scan (S n) arena arena 0 1 (init_heap arena s) = Ok (Some (arena, init_heap arena s))).
    { intros n. cbn [alloc_scan]. rewrite align_delta_0, Hr. cbn [units]. change (1 >=? 1 + 0) with true. cbv iota.
      unfold slob_take. change (negb (0 =? 0)) with false. cbv iota beta zeta. rewrite Hr. cbn [units next]. rewrite Z.eqb_refl.
      unfold set_next. rewrite Hr. unfold wr, init_heap, set_slobfree. cbn [mem slobfree bigblocks supply released units].
      do 4 f_equal. by rewrite insert_singleton_eq. }
    assert (Hpass : forall t, alloc_pass t (0 + SLOB_UNIT) 0 1 (init_heap arena s) = Ok (arena, init_heap arena s)).
    { intros t. destruct t; cbn [alloc_pass]; unfold ring_fuel; change (slobfree (init_heap arena s)) with arena;
        rewrite Hr; cbn [next]; by rewrite Hscan. }
    rewrite Hpass, res_bind_ok. by destruct (arena =? 0).
  - intros n. cbn [init_heap slobfree].
    assert (Hr : rd (init_heap arena s) arena = Slob 1 arena) by (apply rd_lookup; apply lookup_singleton_eq).
    induction n as [|n IH]; [done|]. cbn [free_scan]. rewrite Hr. cbn [next]. rewrite Z.gtb_ltb, Z.ltb_irrefl. cbn [orb]. rewrite !andb_false_r. exact IH.
Qed.
