(* ===== verification/IoBuf.v ===== *)
(** * kern/fs/iobuf.c: transfer buffers

    [io_buf] is the memory of the caller from the first address of the buffer
    on; [io_base] is the position in it the C pointer stands for. *)
From S2P Require Import Prelude.

Definition E_NO_MEM : Z := 4.

Record iobuf := Iobuf { io_buf : list Z; io_base : Z; io_offset : Z; io_len : Z; io_resid : Z }.

Definition iobuf_init (buf : list Z) (len offset : Z) : iobuf := Iobuf buf 0 offset len len.

Definition iobuf_used (iob : iobuf) : Z := u32 (io_len iob - io_resid iob).

Definition iobuf_skip (n : Z) (iob : iobuf) : res iobuf :=
  _ ← kassert (n <=? io_resid iob);
  Ok (Iobuf (io_buf iob) (io_base iob + n) (i32 (io_offset iob + n)) (io_len iob) (io_resid iob - n)).

(** [n] bytes at the base, and the bytes [l] stored there. *)
Definition peek (n : Z) (iob : iobuf) : list Z := take (Z.to_nat n) (drop (Z.to_nat (io_base iob)) (io_buf iob)).
Definition poke (l : list Z) (iob : iobuf) : iobuf :=
  Iobuf (take (Z.to_nat (io_base iob)) (io_buf iob) ++ l ++ drop (Z.to_nat (io_base iob) + length l) (io_buf iob))
    (io_base iob) (io_offset iob) (io_len iob) (io_resid iob).

(** The result, the number of bytes moved, the memory at [data] and the buffer. *)
Definition iobuf_move (data : list Z) (len : Z) (m2b : bool) (iob : iobuf) : res (Z * Z * list Z * iobuf) :=
  let alen := if io_resid iob >? len then len else io_resid iob in
  if alen >? 0 then
    let '(data, iob) :=
      if m2b then (data, poke (take (Z.to_nat alen) data) iob)
      else (peek alen iob ++ drop (Z.to_nat alen) data, iob) in
    iob ← iobuf_skip alen iob;
    Ok (if len - alen =? 0 then 0 else - E_NO_MEM, alen, data, iob)
  else Ok (if len =? 0 then 0 else - E_NO_MEM, alen, data, iob).

Definition iobuf_move_zeros (len : Z) (iob : iobuf) : res (Z * Z * iobuf) :=
  let alen := if io_resid iob >? len then len else io_resid iob in
  if alen >? 0 then
    iob ← iobuf_skip alen (poke (replicate (Z.to_nat alen) 0) iob);
    Ok (if len - alen =? 0 then 0 else - E_NO_MEM, alen, iob)
  else Ok (if len =? 0 then 0 else - E_NO_MEM, alen, iob).

(** The rest of the buffer lies inside the memory. *)
Definition iob_ok (iob : iobuf) : Prop :=
  0 <= io_base iob /\ 0 <= io_resid iob <= io_len iob /\ io_len iob < 2 ^ 32 /\ io_base iob + io_resid iob <= Z.of_nat (length (io_buf iob)).

Lemma iobuf_skip_ok n iob : 0 <= n <= io_resid iob -> 
  iobuf_skip n iob = Ok (Iobuf (io_buf iob) (io_base iob + n) (i32 (io_offset iob + n)) (io_len iob) (io_resid iob - n)).
Proof. intros Hn. unfold iobuf_skip. by rewrite kassert_true by (apply Z.leb_le; lia). Qed.

Lemma peek_length n iob : iob_ok iob -> 0 <= n <= io_resid iob -> Z.of_nat (length (peek n iob)) = n.
Proof. intros (H1 & H2 & _ & H3) Hn. unfold peek. rewrite length_take, length_drop. lia. Qed.

Lemma peek_poke l iob : iob_ok iob -> Z.of_nat (length l) <= io_resid iob -> peek (Z.of_nat (length l)) (poke l iob) = l.
Proof.
  intros (H1 & H2 & _ & H3) Hl. unfold peek, poke. simpl. rewrite drop_app_length' by (rewrite length_take; lia).
  by rewrite Nat2Z.id, take_app_length.
Qed.

Lemma poke_length l iob : iob_ok iob -> Z.of_nat (length l) <= io_resid iob -> length (io_buf (poke l iob)) = length (io_buf iob).
Proof. intros (H1 & H2 & _ & H3) Hl. unfold poke. simpl. rewrite !length_app, length_take, length_drop. lia. Qed.

Lemma move_len a b : (if a >? b then b else a) = Z.min a b.
Proof. rewrite Z.gtb_ltb. zcase; lia. Qed.

(** Where a buffer stands after a transfer of [n] bytes. *)
Definition moved (n : Z) (iob : iobuf) : iobuf :=
  Iobuf (io_buf iob) (io_base iob + n) (i32 (io_offset iob + n)) (io_len iob) (io_resid iob - n).

Lemma moved_ok n iob : iob_ok iob -> 0 <= n <= io_resid iob -> iob_ok (moved n iob).
Proof. unfold iob_ok, moved. simpl. lia. Qed.

(** A move is cut at the room that is left and then reports -E_NO_MEM. *)
Lemma iobuf_move_in data iob n :
  n = Z.min (io_resid iob) (Z.of_nat (length data)) -> 0 < n ->
  iobuf_move data (Z.of_nat (length data)) true iob =
    Ok (if Z.of_nat (length data) <=? io_resid iob then 0 else - E_NO_MEM, n, data, moved n (poke (take (Z.to_nat n) data) iob)).
Proof.
  intros Hn Hp. unfold iobuf_move. rewrite move_len, <- Hn, Z.gtb_ltb, (proj2 (Z.ltb_lt 0 n)) by done.
  rewrite iobuf_skip_ok by (simpl; lia). cbn [mbind res_bind]. repeat f_equal.
  destruct (Z.eqb_spec (Z.of_nat (length data) - n) 0); destruct (Z.leb_spec (Z.of_nat (length data)) (io_resid iob)); lia || done.
Qed.

Lemma iobuf_move_out data iob n :
  n = Z.min (io_resid iob) (Z.of_nat (length data)) -> 0 < n ->
  iobuf_move data (Z.of_nat (length data)) false iob =
    Ok (if Z.of_nat (length data) <=? io_resid iob then 0 else - E_NO_MEM, n, peek n iob ++ drop (Z.to_nat n) data, moved n iob).
Proof.
  intros Hn Hp. unfold iobuf_move. rewrite move_len, <- Hn, Z.gtb_ltb, (proj2 (Z.ltb_lt 0 n)) by done.
  rewrite iobuf_skip_ok by (simpl; lia). cbn [mbind res_bind]. repeat f_equal.
  destruct (Z.eqb_spec (Z.of_nat (length data) - n) 0); destruct (Z.leb_spec (Z.of_nat (length data)) (io_resid iob)); lia || done.
Qed.
