(* ===== verification/SfsDisk.v ===== *)
(** * kern/fs/sfs/sfs_io.c and the block allocation of sfs_inode.c

    The disk as blocks of bytes (a byte never written is 0), the superblock
    and the free map in memory.  [results] are the results of the next device
    operations, in order; when they are used up the device works.  A device
    operation that fails leaves the disk alone.  The locks around the
    operations make each of them one step and are not part of the state. *)
From S2P Require Import Prelude Bitmap.

Definition SFS_MAGIC : Z := 0x2f8dbe2a.
Definition SFS_BLKSIZE : Z := 4096.
Definition SFS_NDIRECT : Z := 12.
Definition SFS_BLK_NENTRY : Z := SFS_BLKSIZE / 4.
Definition SFS_BLKN_SUPER : Z := 0.
Definition SFS_BLKN_ROOT : Z := 1.
Definition SFS_BLKN_FREEMAP : Z := 2.
Definition SFS_BLKBITS : Z := SFS_BLKSIZE * 8.
Definition SFS_MAX_FNAME_LEN : Z := 255.
Definition SFS_MAX_FILE_SIZE : Z := 1024 * 1024 * 128.

Abbreviation blk := (gmap Z Z).

Record sfs := Sfs {
  blocks : Z;
  unused_blocks : Z;
  info : list Z;
  super_dirty : bool;
  freemap : bitmap;
  disk : gmap Z blk;
  results : list Z
}.

Definition set_unused (n : Z) (d : bool) (s : sfs) : sfs := Sfs (blocks s) n (info s) d (freemap s) (disk s) (results s).
Definition set_super_dirty (d : bool) (s : sfs) : sfs := set_unused (unused_blocks s) d s.
Definition set_freemap (m : bitmap) (s : sfs) : sfs := Sfs (blocks s) (unused_blocks s) (info s) (super_dirty s) m (disk s) (results s).
Definition set_results (r : list Z) (s : sfs) : sfs := Sfs (blocks s) (unused_blocks s) (info s) (super_dirty s) (freemap s) (disk s) r.
Definition block (s : sfs) (n : Z) : blk := default ∅ (disk s !! n).
Definition set_block (n : Z) (b : blk) (s : sfs) : sfs :=
  Sfs (blocks s) (unused_blocks s) (info s) (super_dirty s) (freemap s) (<[n := b]> (disk s)) (results s).

(** ** Bytes *)
Definition byte (b : blk) (i : Z) : Z := default 0 (b !! i).
Definition slice (b : blk) (off len : Z) : list Z := (fun i => byte b (off + i)) <$> seqZ 0 len.
Fixpoint patch (off : Z) (data : list Z) (b : blk) : blk :=
  match data with [] => b | x :: data => <[off := x]> (patch (off + 1) data b) end.

(** [uint32_t] in memory, least significant byte first. *)
Definition to_le32 (x : Z) : list Z := [x mod 256; x / 256 mod 256; x / 65536 mod 256; x / 16777216 mod 256].
Definition le32 (l : list Z) : Z :=
  match l with [a; b; c; d] => a + 256 * b + 65536 * c + 16777216 * d | _ => 0 end.

(** ** sfs_io.c *)
Definition next_result (s : sfs) : Z * sfs :=
  match results s with [] => (0, s) | r :: rs => (r, set_results rs s) end.

(** The result, the buffer and the state.  The code computes the offset on the
    device as [blkno * SFS_BLKSIZE] in 32 bits; blocks are named by their number
    here, which is the same as long as the disk has at most 524288 blocks. *)
Definition sfs_rwblock_nolock (buf : blk) (blkno : Z) (write check : bool) (s : sfs) : res (Z * blk * sfs) :=
  _ ← kassert ((negb (blkno =? 0) || negb check) && (blkno <? blocks s));
  let '(r, s) := next_result s in
  if negb (r =? 0) then Ok (r, buf, s)
  else if write then Ok (0, buf, set_block blkno buf s) else Ok (0, block s blkno, s).

(** The loops of [sfs_rwblock], for the buffers [bufs] and for [n] blocks. *)
Fixpoint sfs_wblock (bufs : list blk) (blkno : Z) (s : sfs) : res (Z * sfs) :=
  match bufs with
  | [] => Ok (0, s)
  | b :: bufs =>
      '(r, _, s) ← sfs_rwblock_nolock b blkno true true s;
      if negb (r =? 0) then Ok (r, s) else sfs_wblock bufs (blkno + 1) s
  end.
Fixpoint sfs_rblock (n : nat) (blkno : Z) (s : sfs) : res (Z * list blk * sfs) :=
  match n with
  | O => Ok (0, [], s)
  | S n =>
      '(r, b, s) ← sfs_rwblock_nolock ∅ blkno false true s;
      if negb (r =? 0) then Ok (r, [], s)
      else '(r, bs, s) ← sfs_rblock n (blkno + 1) s; Ok (r, b :: bs, s)
  end.

Definition buf_range (len offset : Z) : bool :=
  (0 <=? offset) && (offset <? SFS_BLKSIZE) && (offset + len <=? SFS_BLKSIZE).

Definition sfs_rbuf (len blkno offset : Z) (s : sfs) : res (Z * list Z * sfs) :=
  _ ← kassert (buf_range len offset);
  '(r, buffer, s) ← sfs_rwblock_nolock ∅ blkno false true s;
  Ok (if r =? 0 then (0, slice buffer offset len, s) else (r, [], s)).

Definition sfs_wbuf (data : list Z) (blkno offset : Z) (s : sfs) : res (Z * sfs) :=
  _ ← kassert (buf_range (Z.of_nat (length data)) offset);
  '(r, buffer, s) ← sfs_rwblock_nolock ∅ blkno false true s;
  if r =? 0 then
    '(r, _, s) ← sfs_rwblock_nolock (patch offset data buffer) blkno true true s; Ok (r, s)
  else Ok (r, s).

Definition super_bytes (s : sfs) : list Z :=
  to_le32 SFS_MAGIC ++ to_le32 (blocks s) ++ to_le32 (unused_blocks s) ++ info s.

Definition sfs_sync_super (s : sfs) : res (Z * sfs) :=
  '(r, _, s) ← sfs_rwblock_nolock (patch 0 (super_bytes s) ∅) SFS_BLKN_SUPER true false s; Ok (r, s).

(** The words of the free map, one buffer per block. *)
Definition sfs_freemap_blocks (s : sfs) : Z := ROUNDUP_DIV (blocks s) SFS_BLKBITS.
Definition freemap_block (ws : list Z) (i : Z) : blk :=
  patch 0 (mjoin (to_le32 <$> take 1024 (drop (Z.to_nat (1024 * i)) ws))) ∅.
Definition sfs_sync_freemap (s : sfs) : res (Z * sfs) :=
  sfs_wblock (freemap_block (fst (bitmap_getdata (freemap s))) <$> seqZ 0 (sfs_freemap_blocks s)) SFS_BLKN_FREEMAP s.

Definition sfs_clear_block (blkno : Z) (nblks : nat) (s : sfs) : res (Z * sfs) :=
  sfs_wblock (replicate nblks ∅) blkno s.

(** ** sfs_inode.c: blocks *)
Definition sfs_block_inuse (s : sfs) (ino : Z) : res bool :=
  if negb (ino =? 0) && (ino <? blocks s) then t ← bitmap_test (freemap s) ino; Ok (t =? 0) else Panic.

Definition assert_inuse (s : sfs) (ino : Z) : res unit := b ← sfs_block_inuse s ino; kassert b.

(** Its result is not used. *)
Definition sfs_super_sync (s : sfs) : res sfs :=
  if super_dirty s then
    '(r, s) ← sfs_sync_super (set_super_dirty false s);
    if negb (r =? 0) then Ok (set_super_dirty true s)
    else
      '(r, s) ← sfs_sync_freemap s;
      if negb (r =? 0) then Ok (set_super_dirty true s) else Ok s
  else Ok s.

(** The result and, when it is 0, the block. *)
Definition sfs_block_alloc (s : sfs) : res (Z * Z * sfs) :=
  '(r, m) ← bitmap_alloc (freemap s);
  match r with
  | AllocErr e => Ok (e, 0, s)
  | AllocOk ino =>
      let s := set_freemap m s in
      _ ← kassert (0 <? unused_blocks s);
      s ← sfs_super_sync (set_unused (unused_blocks s - 1) true s);
      _ ← assert_inuse s ino;
      '(r, s) ← sfs_clear_block ino 1 s;
      Ok (r, ino, s)
  end.

Definition sfs_block_free (ino : Z) (s : sfs) : res sfs :=
  _ ← assert_inuse s ino;
  m ← bitmap_free (freemap s) ino;
  let s := set_freemap m s in
  sfs_super_sync (set_unused (u32 (unused_blocks s + 1)) true s).

(** ** Bytes *)
Lemma patch_byte data off b i :
  byte (patch off data b) i = if decide (off <= i < off + Z.of_nat (length data)) then default 0 (data !! Z.to_nat (i - off)) else byte b i.
Proof.
  revert off. induction data as [|x data IH]; intros off; cbn [patch length].
  { by rewrite decide_False by lia. }
  unfold byte at 1. destruct (decide (i = off)) as [->|Hne].
  - rewrite lookup_insert_eq, decide_True by lia. by rewrite Z.sub_diag.
  - rewrite lookup_insert_ne by done. change (default 0 (patch (off + 1) data b !! i)) with (byte (patch (off + 1) data b) i). rewrite IH.
    destruct (decide (off + 1 <= i < off + 1 + Z.of_nat (length data))).
    + rewrite decide_True by lia. replace (Z.to_nat (i - off)) with (S (Z.to_nat (i - (off + 1)))) by lia. done.
    + by rewrite decide_False by lia.
Qed.

Lemma slice_length b off len : length (slice b off len) = Z.to_nat len.
Proof. unfold slice. by rewrite length_fmap, length_seqZ. Qed.

Lemma slice_lookup b off len (i : nat) : (i < Z.to_nat len)%nat -> slice b off len !! i = Some (byte b (off + Z.of_nat i)).
Proof. intros Hi. unfold slice. rewrite list_lookup_fmap, lookup_seqZ_lt by lia. done. Qed.

Lemma slice_ext b c off len : (forall i, off <= i < off + len -> byte b i = byte c i) -> slice b off len = slice c off len.
Proof. intros H. unfold slice. apply list_fmap_ext. intros i x Hx. apply lookup_seqZ in Hx as [-> Hx]. apply H. lia. Qed.

Lemma slice_patch data off b : slice (patch off data b) off (Z.of_nat (length data)) = data.
Proof.
  apply list_eq_same_length with (n := length data); [done|by rewrite slice_length, Nat2Z.id|].
  intros i x y Hi Hx Hy. rewrite slice_lookup in Hx by (rewrite Nat2Z.id; done). injection Hx as <-.
  rewrite patch_byte, decide_True by lia. replace (Z.to_nat (off + Z.of_nat i - off)) with i by lia. by rewrite Hy.
Qed.

Lemma le32_to_le32 x : 0 <= x < 2 ^ 32 -> le32 (to_le32 x) = x.
Proof. intros Hx. unfold le32, to_le32. lia. Qed.

Lemma slice4_zero b off : (forall i, off <= i < off + 4 -> byte b i = 0) -> le32 (slice b off 4) = 0.
Proof.
  intros H. change (slice b off 4) with [byte b (off + 0); byte b (off + 1); byte b (off + 2); byte b (off + 3)].
  by rewrite !H by lia.
Qed.

(** ** Well-formed file systems *)

(** The free blocks, counted. *)
Definition free_list_of (m : bitmap) : list Z := filter (fun i => free_bit m i = true) (seqZ 0 (nbits m)).
Definition nfree (s : sfs) : Z := Z.of_nat (length (free_list_of (freemap s))).

(** The first block after the superblock, the root inode and the free map. *)
Definition first_data (s : sfs) : Z := SFS_BLKN_FREEMAP + sfs_freemap_blocks s.

Record fs_ok (s : sfs) : Prop := {
  fo_map : bm_wf (freemap s);
  fo_bits : blocks s <= nbits (freemap s) < 2 ^ 32;
  fo_free : forall i, 0 <= i -> free_bit (freemap s) i = true -> first_data s <= i < blocks s;
  fo_unused : unused_blocks s = nfree s;
  fo_data : 2 <= first_data s <= blocks s;
  fo_works : results s = []
}.

(** A block of a file: the root inode or in the data area, and in use. *)
Definition used (s : sfs) (b : Z) : Prop := ((b = 1 \/ first_data s <= b) /\ b < blocks s) /\ free_bit (freemap s) b = false.

(** Outside [L] the data blocks are as they were. *)
Definition same_blocks (L : list Z) (s s' : sfs) : Prop := forall b, (b = 1 \/ first_data s <= b) -> b ∉ L -> block s' b = block s b.
Definition same_super (s s' : sfs) : Prop := blocks s' = blocks s /\ first_data s' = first_data s.

Lemma block_set s n b m : block (set_block n b s) m = if m =? n then b else block s m.
Proof. unfold block, set_block; simpl. zcase; subst; [by rewrite lookup_insert_eq|by rewrite lookup_insert_ne]. Qed.

Lemma rw_write s buf n (check : bool) :
  results s = [] -> 0 <= n < blocks s -> (check = true -> n <> 0) ->
  sfs_rwblock_nolock buf n true check s = Ok (0, buf, set_block n buf s).
Proof.
  intros Hr Hn Hc. unfold sfs_rwblock_nolock. rewrite kassert_true.
  2: { destruct check; simpl; [specialize (Hc eq_refl)|rewrite orb_true_r; simpl]; repeat zcase; lia || done. }
  simpl. unfold next_result. by rewrite Hr.
Qed.

Lemma rw_read s buf n : results s = [] -> 0 < n < blocks s -> sfs_rwblock_nolock buf n false true s = Ok (0, block s n, s).
Proof.
  intros Hr Hn. unfold sfs_rwblock_nolock. rewrite kassert_true by (repeat zcase; lia || done). simpl. unfold next_result. by rewrite Hr.
Qed.

Lemma rbuf_ok s len n off :
  results s = [] -> 0 < n < blocks s -> 0 <= off < SFS_BLKSIZE -> off + len <= SFS_BLKSIZE ->
  sfs_rbuf len n off s = Ok (0, slice (block s n) off len, s).
Proof.
  intros Hr Hn Ho Hl. unfold sfs_rbuf, buf_range. rewrite kassert_true by (repeat zcase; lia || done). simpl. by rewrite rw_read.
Qed.

Lemma wbuf_ok s data n off :
  results s = [] -> 0 < n < blocks s -> 0 <= off < SFS_BLKSIZE -> off + Z.of_nat (length data) <= SFS_BLKSIZE ->
  sfs_wbuf data n off s = Ok (0, set_block n (patch off data (block s n)) s).
Proof.
  intros Hr Hn Ho Hl. unfold sfs_wbuf, buf_range. rewrite kassert_true by (repeat zcase; lia || done). simpl. rewrite rw_read by done. simpl.
  rewrite rw_write; [done|done|lia|lia].
Qed.

Lemma wblocks_disk bufs : forall s n, results s = [] -> 0 < n -> n + Z.of_nat (length bufs) <= blocks s ->
  exists s', sfs_wblock bufs n s = Ok (0, s') /\ (forall b, b < n \/ n + Z.of_nat (length bufs) <= b -> disk s' !! b = disk s !! b) /\
    blocks s' = blocks s /\ unused_blocks s' = unused_blocks s /\ info s' = info s /\ super_dirty s' = super_dirty s /\
    freemap s' = freemap s /\ results s' = [] /\ (forall b i, bufs !! i = Some b -> disk s' !! (n + Z.of_nat i) = Some b).
Proof.
  induction bufs as [|b bufs IH]; intros s n Hr Hn Hl; cbn [sfs_wblock length] in *.
  { exists s. split_and!; done. }
  rewrite rw_write by (done || lia). simpl.
  destruct (IH (set_block n b s) (n + 1)) as (s' & -> & Hb & H1 & H2 & H3 & H4 & H5 & H6 & H7); [done|lia|simpl; lia|].
  exists s'. split; [done|]. split_and!; try done.
  - intros c Hc. rewrite Hb by lia. simpl. by rewrite lookup_insert_ne by lia.
  - intros c [|i] Hi; simplify_eq/=.
    + rewrite Z.add_0_r, Hb by lia. simpl. by rewrite lookup_insert_eq.
    + rewrite <- (H7 c i Hi). f_equal. lia.
Qed.

Lemma wblocks_ok bufs s n : results s = [] -> 0 < n -> n + Z.of_nat (length bufs) <= blocks s ->
  exists s', sfs_wblock bufs n s = Ok (0, s') /\ (forall b, b < n \/ n + Z.of_nat (length bufs) <= b -> block s' b = block s b) /\
    blocks s' = blocks s /\ unused_blocks s' = unused_blocks s /\ info s' = info s /\ super_dirty s' = super_dirty s /\
    freemap s' = freemap s /\ results s' = [].
Proof.
  intros Hr Hn Hl. destruct (wblocks_disk bufs s n Hr Hn Hl) as (s' & E & Hb & H1 & H2 & H3 & H4 & H5 & H6 & _).
  exists s'. split_and!; try done. intros b Hr'. unfold block. by rewrite Hb.
Qed.

(** Writing back the superblock and the free map touches no data block. *)
Lemma super_sync_ok s :
  results s = [] -> 2 <= first_data s <= blocks s ->
  exists s', sfs_super_sync s = Ok s' /\ same_blocks [] s s' /\ blocks s' = blocks s /\ unused_blocks s' = unused_blocks s /\
    freemap s' = freemap s /\ results s' = [] /\ info s' = info s /\ super_dirty s' = false.
Proof.
  intros Hr Hd. unfold sfs_super_sync. destruct (super_dirty s) eqn:Hdirty; [|exists s; split_and!; done].
  unfold sfs_sync_super. rewrite rw_write by (done || simpl; unfold SFS_BLKN_SUPER; lia). simpl.
  unfold sfs_sync_freemap. set (s1 := set_block _ _ _). 
  assert (Hlen : Z.of_nat (length (freemap_block (bitmap_getdata (freemap s1)).1 <$> seqZ 0 (sfs_freemap_blocks s1))) = sfs_freemap_blocks s).
  { rewrite length_fmap, length_seqZ. change (sfs_freemap_blocks s1) with (sfs_freemap_blocks s). unfold first_data, SFS_BLKN_FREEMAP in Hd. lia. }
  unfold first_data, SFS_BLKN_FREEMAP in Hd.
  destruct (wblocks_ok (freemap_block (bitmap_getdata (freemap s1)).1 <$> seqZ 0 (sfs_freemap_blocks s1)) s1 SFS_BLKN_FREEMAP)
    as (s' & -> & Hb & H1 & H2 & H3 & H4 & H5 & H6); [done|unfold SFS_BLKN_FREEMAP; lia|rewrite Hlen; unfold SFS_BLKN_FREEMAP; simpl; lia|].
  simpl. exists s'. split; [done|]. split_and!; try done.
  intros b Hb1 _. unfold first_data, SFS_BLKN_FREEMAP in Hb1. rewrite Hb by (rewrite Hlen; unfold SFS_BLKN_FREEMAP; lia).
  unfold s1. rewrite block_set. unfold SFS_BLKN_SUPER. zcase; [lia|done].
Qed.

Lemma elem_of_free_list m i : i ∈ free_list_of m <-> 0 <= i < nbits m /\ free_bit m i = true.
Proof. unfold free_list_of. rewrite list_elem_of_filter, elem_of_seqZ. split; [intros [? ?]|intros [? ?]]; (split; [lia || done|lia || done]). Qed.

Lemma free_list_flip m m' k :
  nbits m' = nbits m -> 0 <= k < nbits m -> free_bit m k = true -> free_bit m' k = false ->
  (forall i, 0 <= i -> i <> k -> free_bit m' i = free_bit m i) -> free_list_of m ≡ₚ k :: free_list_of m'.
Proof.
  intros Hn Hk H1 H2 Ho. assert (Hnd : forall m, NoDup (free_list_of m)) by (intros; apply NoDup_filter, NoDup_seqZ).
  apply NoDup_Permutation; [done| |].
  - constructor; [|done]. rewrite elem_of_free_list. intros [_ ?]. congruence.
  - intros i. rewrite elem_of_cons, !elem_of_free_list, Hn. destruct (decide (i = k)) as [->|Hne]; [tauto|].
    split; [intros [? ?]; right; split; [done|rewrite Ho by (done || lia); done]|].
    intros [?|[? Hi]]; [done|]. split; [done|]. rewrite Ho in Hi by (done || lia). done.
Qed.

Lemma inuse_ok s b : bm_wf (freemap s) -> blocks s <= nbits (freemap s) -> 0 < b < blocks s ->
  sfs_block_inuse s b = Ok (negb (free_bit (freemap s) b)).
Proof.
  intros Hm Hn Hb. unfold sfs_block_inuse. rewrite (proj2 (Z.eqb_neq b 0)), (proj2 (Z.ltb_lt _ _)) by lia. simpl.
  destruct (bitmap_test_spec (freemap s) b Hm) as (v & -> & Hv); [lia|]. simpl. by rewrite Hv.
Qed.

Lemma assert_inuse_ok s b : fs_ok s -> used s b -> assert_inuse s b = Ok tt.
Proof.
  intros H [Hb Hf]. pose proof (fo_data _ H). unfold assert_inuse. rewrite inuse_ok by (apply H || lia). simpl. by rewrite Hf.
Qed.

Lemma used_pos s b : fs_ok s -> used s b -> 0 < b < blocks s.
Proof. intros H [Hb _]. pose proof (fo_data _ H). lia. Qed.

Definition same_map (s s' : sfs) : Prop := forall i, 0 <= i -> free_bit (freemap s') i = free_bit (freemap s) i.

Lemma first_data_blocks s s' : blocks s' = blocks s -> first_data s' = first_data s.
Proof. unfold first_data, sfs_freemap_blocks. by intros ->. Qed.

Lemma fs_ok_set_block s n b : fs_ok s -> fs_ok (set_block n b s).
Proof. intros []. by constructor. Qed.

Lemma sfs_block_alloc_ok s :
  fs_ok s ->
  (nfree s = 0 /\ sfs_block_alloc s = Ok (- E_NO_MEM, 0, s)) \/
  exists b s', sfs_block_alloc s = Ok (0, b, s') /\ fs_ok s' /\ blocks s' = blocks s /\
    first_data s <= b < blocks s /\ free_bit (freemap s) b = true /\ used s' b /\ nfree s = nfree s' + 1 /\
    (forall i, 0 <= i -> free_bit (freemap s') i = if decide (i = b) then false else free_bit (freemap s) i) /\
    block s' b = ∅ /\ same_blocks [b] s s'.
Proof.
  intros H. pose proof (fo_data _ H) as Hd. unfold sfs_block_alloc.
  destruct (bitmap_alloc_spec (freemap s) (fo_map _ H)) as (r & m & Ha & Hr). pose proof (bitmap_alloc_nbits _ _ _ Ha) as Hnb.
  rewrite Ha. cbn [mbind res_bind]. destruct r as [b|e].
  2: { left. destruct Hr as (-> & -> & Hno). split; [|done]. unfold nfree.
       destruct (free_list_of (freemap s)) as [|i l] eqn:E; [done|]. exfalso.
       assert (i ∈ free_list_of (freemap s)) as Hi by (rewrite E; by left). apply elem_of_free_list in Hi as [Hi1 Hi2].
       rewrite Hno in Hi2 by lia. done. }
  right. destruct Hr as (Hb & Hfb & _ & Hbits & Hwf). pose proof (fo_free _ H b ltac:(lia) Hfb) as Hbd.
  assert (Hfl : free_list_of (freemap s) ≡ₚ b :: free_list_of m).
  { apply free_list_flip; [done|done|done|by rewrite Hbits, decide_True by lia|]. intros i Hi Hne. by rewrite Hbits, decide_False by done. }
  assert (Hnf : nfree s = Z.of_nat (length (free_list_of m)) + 1) by (unfold nfree; rewrite Hfl; simpl; lia).
  cbv zeta. simpl. rewrite kassert_true by (apply Z.ltb_lt; rewrite (fo_unused _ H); lia). simpl.
  destruct (super_sync_ok (set_unused (unused_blocks s - 1) true (set_freemap m s))) as (s1 & -> & Hsb & H1 & H2 & H3 & H4 & _);
    [apply (fo_works _ H)|exact Hd|]. simpl. simpl in H1, H2, H3.
  assert (Hin : assert_inuse s1 b = Ok tt).
  { unfold assert_inuse. rewrite inuse_ok; rewrite ?H1, ?H3; simpl; [by rewrite Hbits, decide_True by lia|done|rewrite Hnb; apply H|lia]. }
  rewrite Hin. simpl. unfold sfs_clear_block. cbn [replicate sfs_wblock]. rewrite rw_write by (done || (rewrite ?H1; simpl; lia)). simpl.
  exists b, (set_block b ∅ s1). split; [done|].
  assert (Hfd : first_data s1 = first_data s) by (by apply first_data_blocks).
  split.
  { constructor; simpl; rewrite ?H1, ?H3; simpl; try done; try (change (first_data (set_block b ∅ s1)) with (first_data s1); rewrite Hfd).
    - rewrite Hnb. apply H.
    - intros i Hi. rewrite Hbits by done. case_decide; [done|]. by apply H.
    - rewrite H2. simpl. rewrite (fo_unused _ H). unfold nfree at 2. simpl. rewrite H3. simpl. lia.
    - done. }
  split; [done|]. split; [done|]. split; [done|]. split.
  { split; [change (first_data (set_block b ∅ s1)) with (first_data s1); rewrite Hfd; simpl; rewrite H1; simpl; lia|].
    simpl. rewrite H3. simpl. by rewrite Hbits, decide_True by lia. }
  split; [unfold nfree at 2; simpl; rewrite H3; simpl; lia|]. split; [intros i Hi; simpl; rewrite H3; simpl; by apply Hbits|].
  split; [by rewrite block_set, Z.eqb_refl|].
  intros c Hc Hne. rewrite block_set. apply not_elem_of_cons in Hne as [Hne _]. zcase; [done|]. apply Hsb; [done|apply not_elem_of_nil].
Qed.

Lemma sfs_block_free_ok s b :
  fs_ok s -> used s b -> first_data s <= b ->
  exists s', sfs_block_free b s = Ok s' /\ fs_ok s' /\ blocks s' = blocks s /\ nfree s' = nfree s + 1 /\
    (forall i, 0 <= i -> free_bit (freemap s') i = if decide (i = b) then true else free_bit (freemap s) i) /\ same_blocks [] s s'.
Proof.
  intros H Hu Hfb. pose proof (fo_data _ H) as Hd. pose proof (used_pos _ _ H Hu) as Hbp. unfold sfs_block_free. rewrite assert_inuse_ok by done. simpl.
  pose proof (bitmap_free_spec (freemap s) b (fo_map _ H) ltac:(lia)) as Hf. destruct Hu as [Hb Hub].
  destruct (bitmap_free (freemap s) b) as [m| |] eqn:Em; [|destruct Hf as [Hf|Hf]; [pose proof (fo_bits _ H); lia|congruence]|done].
  pose proof (bitmap_free_nbits _ _ _ Em) as Hnb. destruct Hf as (_ & _ & Hwf & Hbits & _). simpl.
  assert (Hfl : free_list_of m ≡ₚ b :: free_list_of (freemap s)).
  { apply free_list_flip; [done|pose proof (fo_bits _ H); lia|by rewrite Hbits, decide_True by lia|done|].
    intros i Hi Hne. by rewrite Hbits, decide_False by done. }
  assert (Hle : Z.of_nat (length (free_list_of m)) <= nbits m).
  { unfold free_list_of. pose proof (length_filter (fun i => free_bit m i = true) (seqZ 0 (nbits m))) as Hlf.
    rewrite length_seqZ in Hlf. pose proof (wf_nbits _ Hwf). lia. }
  rewrite Hfl in Hle. simpl in Hle. pose proof (fo_bits _ H) as Hbits2.
  assert (Hun : u32 (unused_blocks s + 1) = Z.of_nat (length (free_list_of m))).
  { rewrite (fo_unused _ H), Hfl. unfold nfree. simpl. rewrite u32_small; lia. }
  rewrite Hun.
  destruct (super_sync_ok (set_unused (Z.of_nat (length (free_list_of m))) true (set_freemap m s))) as (s1 & -> & Hsb & H1 & H2 & H3 & H4 & _);
    [apply (fo_works _ H)|exact Hd|]. simpl in H1, H2, H3.
  assert (Hfd : first_data s1 = first_data s) by (by apply first_data_blocks).
  exists s1. split; [done|]. split; [|split; [done|split; [|split; [by rewrite H3|]]]].
  - constructor; rewrite ?Hfd, ?H1, ?H3; simpl; try done.
    + by rewrite Hnb.
    + intros i Hi. rewrite Hbits by done. case_decide; [subst; intros _; lia|]. by apply H.
    + rewrite H2. unfold nfree. by rewrite H3.
  - unfold nfree. rewrite H3. simpl. rewrite Hfl. simpl. lia.
  - intros c Hc Hne. by apply Hsb.
Qed.
