(* ===== verification/Devs.v ===== *)
(** * kern/driver/ide.c and kern/fs/devs: disks, the console input, devices

    The disks behind the IDE channels as bytes; the registers of a channel as
    the driver writes them, with their meaning from the ATA standard (28-bit
    block addresses); [disk0_io] on top; the buffer of console input with the
    processes that wait for it; and the operations of device inodes.  The lock
    of [disk0] makes its transfer one step. *)
From S2P Require Import Prelude IoBuf SfsDisk.

(** ** ide.c *)
Definition SECTSIZE : Z := 512.
Definition MAX_IDE : Z := 4.
Definition MAX_NSECS : Z := 128.
Definition MAX_DISK_NSECS : Z := 0x10000000.
Definition IDE_BSY : Z := 0x80.
Definition IDE_DF : Z := 0x20.
Definition IDE_ERR : Z := 0x01.
Definition IDE_CMD_READ : Z := 0x20.
Definition IDE_CMD_WRITE : Z := 0x30.

Record ide_device := IdeDevice { valid : bool; size : Z }.

(** The registers of a channel; [outb] stores 8 bits. *)
Record channel := Channel { seccnt : Z; sector : Z; cyl_lo : Z; cyl_hi : Z; sdh : Z; command : Z }.

(** [status]: what the next reads of the status register give, a ready disk
    without error (64) when used up. *)
Record ide := Ide {
  ide_devices : list ide_device;
  channels : list channel;
  media : gmap Z blk;
  status : list Z
}.

Definition outb (x : Z) : Z := x mod 256.
Definition dev_at (s : ide) (n : Z) : ide_device := default (IdeDevice false 0) (ide_devices s !! Z.to_nat n).
Definition VALID_IDE (s : ide) (ideno : Z) : bool := (0 <=? ideno) && (ideno <? MAX_IDE) && valid (dev_at s ideno).
Definition disk_at (s : ide) (n : Z) : blk := default ∅ (media s !! n).
Definition set_disk (n : Z) (b : blk) (s : ide) : ide := Ide (ide_devices s) (channels s) (<[n := b]> (media s)) (status s).
Definition set_channel (c : Z) (r : channel) (s : ide) : ide := Ide (ide_devices s) (<[Z.to_nat c := r]> (channels s)) (media s) (status s).
Definition channel_at (s : ide) (c : Z) : channel := default (Channel 0 0 0 0 0 0) (channels s !! Z.to_nat c).

Definition ide_device_valid (s : ide) (ideno : Z) : bool := VALID_IDE s ideno.
Definition ide_device_size (s : ide) (ideno : Z) : Z := if ide_device_valid s ideno then size (dev_at s ideno) else 0.

(** The status register is read until the disk is not busy. *)
Fixpoint ide_wait_ready_from (l : list Z) (check_error : bool) : Z * list Z :=
  match l with
  | [] => (0, [])
  | r :: l =>
      if negb (Z.land r IDE_BSY =? 0) then ide_wait_ready_from l check_error
      else if check_error && negb (Z.land r (Z.lor IDE_DF IDE_ERR) =? 0) then (-1, l)
      else (0, l)
  end.
Definition ide_wait_ready (check_error : bool) (s : ide) : Z * ide :=
  let '(r, l) := ide_wait_ready_from (status s) check_error in (r, Ide (ide_devices s) (channels s) (media s) l).

(** The command of a transfer. *)
Definition ide_command (cmd ideno secno nsecs : Z) : channel :=
  Channel (outb nsecs) (outb (Z.land secno 0xFF)) (outb (Z.land (Z.shiftr secno 8) 0xFF)) (outb (Z.land (Z.shiftr secno 16) 0xFF))
    (outb (Z.lor (Z.lor 0xE0 (Z.shiftl (Z.land ideno 1) 4)) (Z.land (Z.shiftr secno 24) 0xF))) (outb cmd).

(** What the disk makes of the registers: the drive, the first block, the
    number of blocks. *)
Definition reg_drive (r : channel) : Z := Z.land (Z.shiftr (sdh r) 4) 1.
Definition reg_lba (r : channel) : Z := sector r + 256 * cyl_lo r + 65536 * cyl_hi r + 16777216 * Z.land (sdh r) 0xF.
Definition reg_count (r : channel) : Z := if seccnt r =? 0 then 256 else seccnt r.

(** [n] sectors moved through the data register from sector [lba] on. *)
Fixpoint insl_secs (n : nat) (d lba : Z) (s : ide) : Z * list Z * ide :=
  match n with
  | O => (0, [], s)
  | S n =>
      let '(r, s) := ide_wait_ready true s in
      if negb (r =? 0) then (r, [], s)
      else
        let '(r, l, s') := insl_secs n d (lba + 1) s in
        (r, slice (disk_at s d) (lba * SECTSIZE) SECTSIZE ++ l, s')
  end.
Fixpoint outsl_secs (n : nat) (d lba : Z) (src : list Z) (s : ide) : Z * ide :=
  match n with
  | O => (0, s)
  | S n =>
      let '(r, s) := ide_wait_ready true s in
      if negb (r =? 0) then (r, s)
      else outsl_secs n d (lba + 1) (drop 512 src) (set_disk d (patch (lba * SECTSIZE) (take 512 src) (disk_at s d)) s)
  end.

Definition ide_check (ideno secno nsecs : Z) (s : ide) : res unit :=
  _ ← kassert ((nsecs <=? MAX_NSECS) && VALID_IDE s ideno);
  kassert ((secno <? MAX_DISK_NSECS) && (u32 (secno + nsecs) <=? MAX_DISK_NSECS)).

Definition ide_read_secs (ideno secno nsecs : Z) (s : ide) : res (Z * list Z * ide) :=
  _ ← ide_check ideno secno nsecs s;
  let '(_, s) := ide_wait_ready false s in
  let c := Z.shiftr ideno 1 in
  let s := set_channel c (ide_command IDE_CMD_READ ideno secno nsecs) s in
  let r := channel_at s c in
  Ok (insl_secs (Z.to_nat nsecs) (2 * c + reg_drive r) (reg_lba r) s).

Definition ide_write_secs (ideno secno : Z) (src : list Z) (nsecs : Z) (s : ide) : res (Z * ide) :=
  _ ← ide_check ideno secno nsecs s;
  let '(_, s) := ide_wait_ready false s in
  let c := Z.shiftr ideno 1 in
  let s := set_channel c (ide_command IDE_CMD_WRITE ideno secno nsecs) s in
  let r := channel_at s c in
  Ok (outsl_secs (Z.to_nat nsecs) (2 * c + reg_drive r) (reg_lba r) src s).

(** ** dev.h, dev.c: devices *)
Definition E_INVAL : Z := 3.
Definition E_UNIMP : Z := 20.
Definition E_NOENT : Z := 16.
Definition O_RDONLY : Z := 0.
Definition O_WRONLY : Z := 1.
Definition O_CREAT : Z := 4.
Definition O_EXCL : Z := 8.
Definition O_TRUNC : Z := 16.
Definition O_APPEND : Z := 32.
Definition S_IFCHR : Z := 0x4000.
Definition S_IFBLK : Z := 0x5000.

Record device := Device { d_blocks : Z; d_blocksize : Z }.

Definition dev_open (dop_open : Z -> Z) (open_flags : Z) : Z :=
  if negb (Z.land open_flags (Z.lor (Z.lor (Z.lor O_CREAT O_TRUNC) O_EXCL) O_APPEND) =? 0) then - E_INVAL
  else dop_open open_flags.
Definition dev_gettype (d : device) : Z := if d_blocks d >? 0 then S_IFBLK else S_IFCHR.
(** The fields of [struct stat]. *)
Definition dev_fstat (d : device) : Z * Z * Z * Z := (dev_gettype d, 1, d_blocks d, u32 (d_blocks d * d_blocksize d)).
Definition dev_tryseek (d : device) (pos : Z) : Z :=
  if d_blocks d >? 0 then
    if u32 pos mod d_blocksize d =? 0 then
      if (0 <=? pos) && (u32 pos <? u32 (d_blocks d * d_blocksize d)) then 0 else - E_INVAL
    else - E_INVAL
  else - E_INVAL.

Definition disk0_open (open_flags : Z) : Z := 0.
Definition stdin_open (open_flags : Z) : Z := if negb (open_flags =? O_RDONLY) then - E_INVAL else 0.
Definition stdout_open (open_flags : Z) : Z := if negb (open_flags =? O_WRONLY) then - E_INVAL else 0.

(** ** dev_disk0.c *)
Definition DISK0_DEV_NO : Z := 2.
Definition DISK0_BLKSIZE : Z := 4096.
Definition DISK0_BUFSIZE : Z := 4 * DISK0_BLKSIZE.
Definition DISK0_BLK_NSECT : Z := DISK0_BLKSIZE / SECTSIZE.

Record disk0 := Disk0 { drive : ide; disk0_buffer : list Z }.

Definition disk0_read_blks_nolock (blkno nblks : Z) (s : disk0) : res disk0 :=
  '(ret, l, d) ← ide_read_secs DISK0_DEV_NO (u32 (blkno * DISK0_BLK_NSECT)) (u32 (nblks * DISK0_BLK_NSECT)) (drive s);
  if negb (ret =? 0) then Panic else Ok (Disk0 d (l ++ drop (length l) (disk0_buffer s))).

Definition disk0_write_blks_nolock (blkno nblks : Z) (s : disk0) : res disk0 :=
  '(ret, d) ← ide_write_secs DISK0_DEV_NO (u32 (blkno * DISK0_BLK_NSECT)) (disk0_buffer s) (u32 (nblks * DISK0_BLK_NSECT)) (drive s);
  if negb (ret =? 0) then Panic else Ok (Disk0 d (disk0_buffer s)).

(** One round moves at most the buffer. *)
Fixpoint disk0_loop (n : nat) (write : bool) (iob : iobuf) (resid blkno : Z) (s : disk0) : res (iobuf * disk0) :=
  if resid =? 0 then Ok (iob, s)
  else
    match n with
    | O => Spin
    | S n =>
        '(copied, nblks, iob, s) ←
          (if write then
             '(_, copied, data, iob) ← iobuf_move (disk0_buffer s) DISK0_BUFSIZE false iob;
             _ ← kassert (negb (copied =? 0) && (copied <=? resid) && (copied mod DISK0_BLKSIZE =? 0));
             s ← disk0_write_blks_nolock blkno (copied / DISK0_BLKSIZE) (Disk0 (drive s) data);
             Ok (copied, copied / DISK0_BLKSIZE, iob, s)
           else
             let alen := if DISK0_BUFSIZE >? resid then resid else DISK0_BUFSIZE in
             s ← disk0_read_blks_nolock blkno (alen / DISK0_BLKSIZE) s;
             '(_, copied, _, iob) ← iobuf_move (take (Z.to_nat alen) (disk0_buffer s)) alen true iob;
             _ ← kassert ((copied =? alen) && (copied mod DISK0_BLKSIZE =? 0));
             Ok (copied, alen / DISK0_BLKSIZE, iob, s));
        disk0_loop n write iob (resid - copied) (u32 (blkno + nblks)) s
    end.

Definition disk0_io (d : device) (iob : iobuf) (write : bool) (s : disk0) : res (Z * iobuf * disk0) :=
  let offset := io_offset iob in
  let resid := io_resid iob in
  let blkno := u32 (Z.quot offset DISK0_BLKSIZE) in
  let nblks := resid / DISK0_BLKSIZE in
  if negb (Z.rem offset DISK0_BLKSIZE =? 0) || negb (resid mod DISK0_BLKSIZE =? 0) then Ok (- E_INVAL, iob, s)
  else if u32 (blkno + nblks) >? d_blocks d then Ok (- E_INVAL, iob, s)
  else if nblks =? 0 then Ok (0, iob, s)
  else '(iob, s) ← disk0_loop (Z.to_nat nblks) write iob resid blkno s; Ok (0, iob, s).
Definition disk0_ioctl (op : Z) : Z := - E_UNIMP.

(** ** dev_stdin.c *)
Definition STDIN_BUFSIZE : Z := 4096.

(** [p_rpos], [p_wpos] are 32-bit ([off_t] is [intptr_t]); [asleep] is the
    wait queue, [awake] the processes the last key presses woke. *)
Record stdin := Stdin { stdin_buffer : blk; p_rpos : Z; p_wpos : Z; asleep : list Z; awake : list Z }.

Definition stdin_init : stdin := Stdin ∅ 0 0 [] [].

Definition dev_stdin_write (c : Z) (s : stdin) : stdin :=
  if negb (c =? 0) then
    let b := <[Z.rem (p_wpos s) STDIN_BUFSIZE := c]> (stdin_buffer s) in
    let w := if i32 (p_wpos s - p_rpos s) <? STDIN_BUFSIZE then i32 (p_wpos s + 1) else p_wpos s in
    if negb (bool_decide (asleep s = [])) then Stdin b (p_rpos s) w [] (awake s ++ asleep s)
    else Stdin b (p_rpos s) w (asleep s) (awake s)
  else s.

(** The loop of [dev_stdin_read] up to [n] more bytes or an empty buffer. *)
Fixpoint stdin_take (n : nat) (s : stdin) : list Z * stdin :=
  match n with
  | O => ([], s)
  | S n =>
      if p_rpos s <? p_wpos s then
        let c := byte (stdin_buffer s) (Z.rem (p_rpos s) STDIN_BUFSIZE) in
        let '(l, s) := stdin_take n (Stdin (stdin_buffer s) (i32 (p_rpos s + 1)) (p_wpos s) (asleep s) (awake s)) in (c :: l, s)
      else ([], s)
  end.

(** The bytes it takes before it returns or sleeps; it sleeps when bytes are
    missing, and resumes with those still wanted, or gives up when it was
    woken for another reason. *)
Definition dev_stdin_read (proc : Z) (n : nat) (s : stdin) : list Z * bool * stdin :=
  let '(l, s) := stdin_take n s in
  if (length l =? n)%nat then (l, false, s)
  else (l, true, Stdin (stdin_buffer s) (p_rpos s) (p_wpos s) (asleep s ++ [proc]) (awake s)).

(** After [wait_current_del], when the wait ended for another reason. *)
Definition stdin_unwait (proc : Z) (s : stdin) : stdin :=
  Stdin (stdin_buffer s) (p_rpos s) (p_wpos s) (filter (fun p => p <> proc) (asleep s)) (awake s).

(** ** The registers *)
Lemma sdh_check : forallb (fun b => forallb (fun k =>
    let x := outb (Z.lor (Z.lor 0xE0 (Z.shiftl b 4)) k) in (Z.land (Z.shiftr x 4) 1 =? b) && (Z.land x 0xF =? k)) (seqZ 0 16)) (seqZ 0 2) = true.
Proof. vm_compute. reflexivity. Qed.

Lemma sdh_ok b k : 0 <= b < 2 -> 0 <= k < 16 ->
  let x := outb (Z.lor (Z.lor 0xE0 (Z.shiftl b 4)) k) in Z.land (Z.shiftr x 4) 1 = b /\ Z.land x 0xF = k.
Proof.
  intros Hb Hk. pose proof sdh_check as H.
  pose proof (proj1 (forallb_forall _ _) H b ltac:(apply list_elem_of_In, elem_of_seqZ; lia)) as H1. cbv beta in H1.
  pose proof (proj1 (forallb_forall _ _) H1 k ltac:(apply list_elem_of_In, elem_of_seqZ; lia)) as H2. cbv beta zeta in H2.
  apply andb_true_iff in H2 as [H2 H3]. split; by apply Z.eqb_eq.
Qed.

Lemma land_ff x : Z.land x 0xFF = x mod 256.
Proof. change 0xFF with (Z.ones 8). by rewrite Z.land_ones by lia. Qed.
Lemma land_f x : Z.land x 0xF = x mod 16.
Proof. change 0xF with (Z.ones 4). by rewrite Z.land_ones by lia. Qed.
Lemma land_one x : Z.land x 1 = x mod 2.
Proof. change (Z.land x 1) with (Z.land x (Z.ones 1)). by rewrite Z.land_ones by lia. Qed.

(** The registers name the drive, the sector and the number of sectors the
    driver was asked for. *)
Lemma ide_command_ok cmd ideno secno nsecs :
  0 <= ideno < MAX_IDE -> 0 <= secno < MAX_DISK_NSECS -> 1 <= nsecs <= MAX_NSECS ->
  let r := ide_command cmd ideno secno nsecs in
  2 * Z.shiftr ideno 1 + reg_drive r = ideno /\ reg_lba r = secno /\ reg_count r = nsecs.
Proof.
  intros Hi Hs Hn r. unfold MAX_IDE, MAX_DISK_NSECS, MAX_NSECS in *. unfold reg_drive, reg_lba, reg_count, r, ide_command.
  cbn [sector cyl_lo cyl_hi sdh seccnt].
  assert (Hk : 0 <= Z.land (Z.shiftr secno 24) 0xF < 16) by (rewrite land_f; apply Z.mod_pos_bound; lia).
  assert (Hb : 0 <= Z.land ideno 1 < 2) by (rewrite land_one; apply Z.mod_pos_bound; lia).
  destruct (sdh_ok _ _ Hb Hk) as [-> ->]. rewrite !land_ff, land_f, land_one. unfold outb. rewrite !Zmod_mod.
  rewrite !Z.shiftr_div_pow2 by lia.
  change (2 ^ 1) with 2. change (2 ^ 8) with 256. change (2 ^ 16) with (256 * 256). change (2 ^ 24) with (256 * 256 * 256).
  rewrite <- !Z.div_div by lia. rewrite (Z.mod_small (secno / 256 / 256 / 256) 16) by
    (split; [repeat apply Z.div_pos; lia|repeat apply Z.div_lt_upper_bound; lia]).
  rewrite (Z.mod_small nsecs) by lia. split_and!.
  - pose proof (Z.div_mod ideno 2). lia.
  - pose proof (Z.div_mod secno 256). pose proof (Z.div_mod (secno / 256) 256). pose proof (Z.div_mod (secno / 256 / 256) 256). lia.
  - destruct (Z.eqb_spec nsecs 0); lia.
Qed.

(** ** Sectors *)
Lemma slice_app b off m n : 0 <= m -> 0 <= n -> slice b off (m + n) = slice b off m ++ slice b (off + m) n.
Proof.
  intros Hm Hn. unfold slice. rewrite seqZ_app by lia. rewrite fmap_app. f_equal.
  replace (0 + m) with (m + 0) by lia. rewrite <- (fmap_add_seqZ m 0 n). rewrite <- list_fmap_compose. apply list_fmap_ext.
  intros i x _. simpl. f_equal. lia.
Qed.

Lemma insl_secs_ok n d lba s : status s = [] ->
  insl_secs n d lba s = (0, slice (disk_at s d) (lba * SECTSIZE) (Z.of_nat n * SECTSIZE), s).
Proof.
  intros Hs. revert lba. induction n as [|n IH]; intros lba; [done|]. cbn [insl_secs]. unfold ide_wait_ready. rewrite Hs. cbn [ide_wait_ready_from].
  change (negb (0 =? 0)) with false. cbv iota. destruct s as [dv ch md st]. simpl in Hs. subst st. cbn [ide_devices channels media] in *.
  rewrite IH. f_equal. f_equal. replace (Z.of_nat (S n) * SECTSIZE) with (SECTSIZE + Z.of_nat n * SECTSIZE) by lia.
  rewrite slice_app by (unfold SECTSIZE; lia). do 2 f_equal. unfold SECTSIZE. lia.
Qed.

(** The bytes [l] stored from [a] on. *)
Definition stored (a : Z) (l : list Z) (b b' : blk) : Prop :=
  forall i, byte b' i = if decide (a <= i < a + Z.of_nat (length l)) then default 0 (l !! Z.to_nat (i - a)) else byte b i.

Lemma patch_stored a l b : stored a l b (patch a l b).
Proof. intros i. apply patch_byte. Qed.

Lemma stored_app a l r b b1 b2 : stored a l b b1 -> stored (a + Z.of_nat (length l)) r b1 b2 -> stored a (l ++ r) b b2.
Proof.
  intros H1 H2 i. rewrite (H2 i), (H1 i), length_app. repeat case_decide; try lia; try done.
  - f_equal. rewrite lookup_app_r by lia. f_equal. lia.
  - f_equal. rewrite lookup_app_l by lia. done.
Qed.

Lemma stored_nil a b : stored a [] b b.
Proof. intros i. simpl. by rewrite decide_False by lia. Qed.

Definition healthy (s : ide) : Prop := status s = [] /\ valid (dev_at s DISK0_DEV_NO) = true /\ (2 <= length (channels s))%nat.

Lemma disk_set s d b e : disk_at (set_disk d b s) e = if e =? d then b else disk_at s e.
Proof. unfold disk_at, set_disk; simpl. zcase; [subst; by rewrite lookup_insert_eq|by rewrite lookup_insert_ne]. Qed.

Lemma outsl_secs_ok n d lba src s : status s = [] -> Z.of_nat (length src) >= Z.of_nat n * SECTSIZE ->
  exists s', outsl_secs n d lba src s = (0, s') /\ status s' = [] /\ ide_devices s' = ide_devices s /\ channels s' = channels s /\
    stored (lba * SECTSIZE) (take (n * 512) src) (disk_at s d) (disk_at s' d) /\ (forall e, e <> d -> disk_at s' e = disk_at s e).
Proof.
  unfold SECTSIZE. revert lba src s. induction n as [|n IH]; intros lba src s Hs Hl.
  { exists s. split_and!; try done. apply stored_nil. }
  cbn [outsl_secs]. unfold ide_wait_ready. rewrite Hs. cbn [ide_wait_ready_from]. change (negb (0 =? 0)) with false. cbv iota.
  assert (He : Ide (ide_devices s) (channels s) (media s) [] = s) by (destruct s; simpl in *; by subst). rewrite He.
  destruct (IH (lba + 1) (drop 512 src) (set_disk d (patch (lba * SECTSIZE) (take 512 src) (disk_at s d)) s)) as (s' & -> & H1 & H2 & H3 & H4 & H5).
  { done. } { rewrite length_drop. lia. }
  exists s'. split_and!; try done.
  - replace (S n * 512)%nat with (512 + n * 512)%nat by lia. rewrite <- (take_take_drop src 512 (n * 512)).
    eapply stored_app; [apply patch_stored|]. rewrite disk_set, Z.eqb_refl in H4.
    replace (lba * 512 + Z.of_nat (length (take 512 src))) with ((lba + 1) * 512) by (rewrite length_take; lia). exact H4.
  - intros e Hne. rewrite H5 by done. rewrite disk_set. destruct (Z.eqb_spec e d); done.
Qed.

(** ** The driver on a disk without errors *)
Abbreviation disk0_media s := (disk_at s DISK0_DEV_NO).

Lemma ide_check_ok secno nsecs s :
  healthy s -> 0 <= secno -> 0 <= nsecs <= MAX_NSECS -> secno + nsecs <= MAX_DISK_NSECS -> secno < MAX_DISK_NSECS ->
  ide_check DISK0_DEV_NO secno nsecs s = Ok tt.
Proof.
  intros (_ & Hv & _) H1 H2 H3 H4. unfold ide_check, VALID_IDE. rewrite Hv. change ((0 <=? DISK0_DEV_NO) && (DISK0_DEV_NO <? MAX_IDE)) with true.
  rewrite (proj2 (Z.leb_le nsecs MAX_NSECS)) by lia. cbn [andb kassert]. rewrite res_bind_ok.
  unfold MAX_DISK_NSECS in *. rewrite u32_small by lia. by rewrite (proj2 (Z.ltb_lt secno _)), (proj2 (Z.leb_le (secno + nsecs) _)) by lia.
Qed.

(** The channel is programmed; nothing else changes. *)
Lemma select_ok cmd secno nsecs s :
  healthy s -> 0 <= secno < MAX_DISK_NSECS -> 1 <= nsecs <= MAX_NSECS ->
  let s' := set_channel (Z.shiftr DISK0_DEV_NO 1) (ide_command cmd DISK0_DEV_NO secno nsecs) s in
  let r := channel_at s' (Z.shiftr DISK0_DEV_NO 1) in
  2 * Z.shiftr DISK0_DEV_NO 1 + reg_drive r = DISK0_DEV_NO /\ reg_lba r = secno /\ healthy s' /\ (forall d, disk_at s' d = disk_at s d).
Proof.
  intros (Hs & Hv & Hc) H1 H2 s' r.
  assert (Hr : r = ide_command cmd DISK0_DEV_NO secno nsecs).
  { unfold r, channel_at, s', set_channel. cbn [channels]. change (Z.to_nat (Z.shiftr DISK0_DEV_NO 1)) with 1%nat.
    rewrite list_lookup_insert_eq by lia. done. }
  rewrite Hr. destruct (ide_command_ok cmd DISK0_DEV_NO secno nsecs) as (? & ? & _); [unfold DISK0_DEV_NO, MAX_IDE; lia|done|done|].
  split_and!; try done. split_and!; try done. unfold s', set_channel. cbn [channels]. by rewrite length_insert.
Qed.

Lemma wait_ready_ok s c : healthy s -> ide_wait_ready c s = (0, s).
Proof. intros (Hs & _ & _). unfold ide_wait_ready. rewrite Hs. destruct s; simpl in *. by subst. Qed.

Lemma ide_read_ok secno nsecs s :
  healthy s -> 0 <= secno -> 1 <= nsecs <= MAX_NSECS -> secno + nsecs <= MAX_DISK_NSECS ->
  exists s', ide_read_secs DISK0_DEV_NO secno nsecs s = Ok (0, slice (disk0_media s) (secno * 512) (nsecs * 512), s') /\
    healthy s' /\ (forall d, disk_at s' d = disk_at s d).
Proof.
  intros Hh H1 H2 H3. unfold ide_read_secs. rewrite ide_check_ok by (done || lia). rewrite res_bind_ok, wait_ready_ok by done.
  destruct (select_ok IDE_CMD_READ secno nsecs s) as (-> & -> & Hh' & Hd); [done|lia|done|].
  eexists. rewrite insl_secs_ok by apply Hh'. rewrite Hd, Z2Nat.id by lia. done.
Qed.

Lemma ide_write_ok secno src nsecs s :
  healthy s -> 0 <= secno -> 1 <= nsecs <= MAX_NSECS -> secno + nsecs <= MAX_DISK_NSECS -> nsecs * 512 <= Z.of_nat (length src) ->
  exists s', ide_write_secs DISK0_DEV_NO secno src nsecs s = Ok (0, s') /\ healthy s' /\
    stored (secno * 512) (take (Z.to_nat (nsecs * 512)) src) (disk0_media s) (disk0_media s') /\
    (forall d, d <> DISK0_DEV_NO -> disk_at s' d = disk_at s d).
Proof.
  intros Hh H1 H2 H3 H4. unfold ide_write_secs. rewrite ide_check_ok by (done || lia). rewrite res_bind_ok, wait_ready_ok by done.
  destruct (select_ok IDE_CMD_WRITE secno nsecs s) as (-> & -> & Hh' & Hd); [done|lia|done|].
  edestruct (outsl_secs_ok (Z.to_nat nsecs) DISK0_DEV_NO secno src) as (s' & He & Hs & Hdev & Hch & Hst & Ho).
  { apply Hh'. } { unfold SECTSIZE. lia. }
  rewrite He. exists s'. split_and!; [done| | |].
  - split_and!; [done|unfold dev_at; rewrite Hdev; apply Hh'|rewrite Hch; apply Hh'].
  - rewrite Hd in Hst. replace (Z.to_nat (nsecs * 512)) with (Z.to_nat nsecs * 512)%nat by lia. exact Hst.
  - intros d Hne. by rewrite Ho.
Qed.

(** ** disk0 *)
Record disk0_ok (s : disk0) : Prop := { dk_drive : healthy (drive s); dk_buf : length (disk0_buffer s) = Z.to_nat DISK0_BUFSIZE }.

Lemma blk_secs blkno : 0 <= blkno < 2 ^ 25 -> u32 (blkno * DISK0_BLK_NSECT) = blkno * 8.
Proof. intros H. change DISK0_BLK_NSECT with 8. apply u32_small. lia. Qed.

Lemma disk0_read_blks_ok blkno nblks s :
  disk0_ok s -> 0 <= blkno -> 1 <= nblks <= 4 -> blkno + nblks <= 2 ^ 25 ->
  exists s', disk0_read_blks_nolock blkno nblks s = Ok s' /\ disk0_ok s' /\ (forall d, disk_at (drive s') d = disk_at (drive s) d) /\
    take (Z.to_nat (nblks * 4096)) (disk0_buffer s') = slice (disk0_media (drive s)) (blkno * 4096) (nblks * 4096).
Proof.
  intros [Hh Hb] H1 H2 H3. unfold disk0_read_blks_nolock. rewrite !blk_secs by lia.
  destruct (ide_read_ok (blkno * 8) (nblks * 8) (drive s)) as (d & -> & Hh' & Hd); [done|lia|unfold MAX_NSECS; lia|unfold MAX_DISK_NSECS; lia|].
  rewrite res_bind_ok. change (negb (0 =? 0)) with false. cbv iota. eexists. split; [reflexivity|].
  replace (blkno * 8 * 512) with (blkno * 4096) by lia. replace (nblks * 8 * 512) with (nblks * 4096) by lia.
  pose proof (slice_length (disk0_media (drive s)) (blkno * 4096) (nblks * 4096)) as Hl.
  split_and!; cbn [drive disk0_buffer].
  - split; [done|]. cbn [disk0_buffer]. rewrite length_app, length_drop, Hl, Hb. unfold DISK0_BUFSIZE, DISK0_BLKSIZE. lia.
  - done.
  - by rewrite take_app_length' by done.
Qed.

Lemma disk0_write_blks_ok blkno nblks s :
  disk0_ok s -> 0 <= blkno -> 1 <= nblks <= 4 -> blkno + nblks <= 2 ^ 25 ->
  exists s', disk0_write_blks_nolock blkno nblks s = Ok s' /\ disk0_ok s' /\
    stored (blkno * 4096) (take (Z.to_nat (nblks * 4096)) (disk0_buffer s)) (disk0_media (drive s)) (disk0_media (drive s')) /\
    (forall d, d <> DISK0_DEV_NO -> disk_at (drive s') d = disk_at (drive s) d).
Proof.
  intros [Hh Hb] H1 H2 H3. unfold disk0_write_blks_nolock. rewrite !blk_secs by lia.
  destruct (ide_write_ok (blkno * 8) (disk0_buffer s) (nblks * 8) (drive s)) as (d & -> & Hh' & Hst & Ho);
    [done|lia|unfold MAX_NSECS; lia|unfold MAX_DISK_NSECS; lia|rewrite Hb; unfold DISK0_BUFSIZE, DISK0_BLKSIZE; lia|].
  rewrite res_bind_ok. change (negb (0 =? 0)) with false. cbv iota. eexists. split; [reflexivity|]. split_and!; cbn [drive disk0_buffer]; try done.
  replace (blkno * 4096) with (blkno * 8 * 512) by lia. by replace (nblks * 4096) with (nblks * 8 * 512) by lia.
Qed.

(** Consecutive transfers into a buffer. *)
Lemma poke_moved l r iob :
  iob_ok iob -> Z.of_nat (length l) + Z.of_nat (length r) <= io_resid iob ->
  poke r (moved (Z.of_nat (length l)) (poke l iob)) = moved (Z.of_nat (length l)) (poke (l ++ r) iob).
Proof.
  intros (H1 & H2 & _ & H3) Hl. unfold poke, moved. cbn [io_buf io_base io_offset io_len io_resid]. f_equal.
  set (b := io_buf iob) in *. set (k := Z.to_nat (io_base iob)).
  replace (Z.to_nat (io_base iob + Z.of_nat (length l))) with (k + length l)%nat by lia.
  assert (Hk : length (take k b) = k) by (rewrite length_take; lia).
  rewrite (app_assoc (take k b) l). rewrite take_app_length' by (rewrite length_app; lia).
  rewrite drop_app_ge by (rewrite length_app; lia). rewrite drop_drop, !length_app, <- !app_assoc. do 4 f_equal. lia.
Qed.

Lemma moved_moved m n iob : 0 <= io_offset iob -> 0 <= m -> 0 <= n -> io_offset iob + m + n < 2 ^ 31 -> moved n (moved m iob) = moved (m + n) iob.
Proof. intros. unfold moved; simpl. rewrite (i32_small (io_offset iob + m)), !i32_small by lia. f_equal; lia. Qed.

Lemma poke_nil iob : poke [] iob = iob.
Proof. unfold poke. destruct iob as [b k o l r]; simpl. by rewrite Nat.add_0_r, take_drop. Qed.

Lemma moved_0 iob : 0 <= io_offset iob < 2 ^ 31 -> moved 0 iob = iob.
Proof. intros. unfold moved. destruct iob; simpl in *. rewrite i32_small by lia. f_equal; lia. Qed.

Lemma peek_moved m n iob : iob_ok iob -> 0 <= m -> 0 <= n -> m + n <= io_resid iob ->
  peek (m + n) iob = peek m iob ++ peek n (moved m iob).
Proof.
  intros (H1 & _) Hm Hn _. unfold peek, moved. cbn [io_base io_buf].
  replace (Z.to_nat (io_base iob + m)) with (Z.to_nat (io_base iob) + Z.to_nat m)%nat by lia.
  rewrite <- drop_drop, take_take_drop. f_equal. lia.
Qed.

(** The number of whole blocks of a round. *)
Lemma round_blocks resid : 0 < resid -> resid mod 4096 = 0 ->
  let alen := if DISK0_BUFSIZE >? resid then resid else DISK0_BUFSIZE in
  alen = Z.min resid 16384 /\ 4096 <= alen <= resid /\ alen mod 4096 = 0 /\ 1 <= alen / 4096 <= 4 /\ alen = alen / 4096 * 4096 /\
  (resid - alen) mod 4096 = 0 /\ (resid - alen) / 4096 = resid / 4096 - alen / 4096.
Proof.
  intros Hr Hm alen. assert (Ha : alen = Z.min resid 16384).
  { unfold alen, DISK0_BUFSIZE, DISK0_BLKSIZE. rewrite Z.gtb_ltb. destruct (Z.ltb_spec resid (4 * 4096)); lia. }
  clearbody alen. pose proof (Z.div_mod resid 4096). pose proof (Z.mod_pos_bound resid 4096). pose proof (Z.div_mod alen 4096). pose proof (Z.mod_pos_bound alen 4096).
  assert (Hmod : alen mod 4096 = 0).
  { destruct (Z.min_spec resid 16384) as [[_ He]|[_ He]]; rewrite Ha, He; done. }
  assert (Hd : (resid - alen) = (resid / 4096 - alen / 4096) * 4096) by lia.
  split_and!; lia.
Qed.

Lemma disk0_loop_read n : forall iob resid blkno s,
  disk0_ok s -> iob_ok iob -> io_resid iob = resid -> resid mod 4096 = 0 -> resid / 4096 <= Z.of_nat n ->
  0 <= io_offset iob -> io_offset iob + resid < 2 ^ 31 -> 0 <= blkno -> blkno + resid / 4096 <= 2 ^ 25 ->
  exists s', disk0_loop n false iob resid blkno s = Ok (moved resid (poke (slice (disk0_media (drive s)) (blkno * 4096) resid) iob), s') /\
    disk0_ok s' /\ (forall d, disk_at (drive s') d = disk_at (drive s) d).
Proof.
  induction n as [|n IH]; intros iob resid blkno s Hs Hio Hr Hm Hn Ho1 Ho2 Hb1 Hb2; cbn [disk0_loop];
    (destruct (Z.eqb_spec resid 0) as [->|Hne]; [exists s; split; [|done]; by rewrite poke_nil, moved_0 by lia|]).
  { pose proof Hio as (_ & ? & _). pose proof (Z.div_mod resid 4096). lia. }
  pose proof Hio as (Hio1 & Hio2 & Hio3 & Hio4).
  destruct (round_blocks resid) as (Ha & Ha1 & Ham & Ha2 & Ha3 & Hrm & Hrd); [lia|done|].
  set (alen := if DISK0_BUFSIZE >? resid then resid else DISK0_BUFSIZE) in *. unfold DISK0_BLKSIZE in *.
  destruct (disk0_read_blks_ok blkno (alen / 4096) s) as (s1 & -> & Hs1 & Hd1 & Hbuf); [done|lia|lia|lia|].
  rewrite res_bind_ok. rewrite <- Ha3 in Hbuf. rewrite Hbuf.
  set (L := slice (disk0_media (drive s)) (blkno * 4096) alen) in *.
  assert (HL : Z.of_nat (length L) = alen) by (unfold L; rewrite slice_length; lia).
  pose proof (iobuf_move_in L iob alen ltac:(lia) ltac:(lia)) as Hmv. rewrite HL in Hmv. rewrite Hmv, res_bind_ok.
  rewrite Ham, !Z.eqb_refl. cbn [andb kassert]. rewrite !res_bind_ok.
  rewrite (take_ge L) by lia. rewrite u32_small by lia.
  assert (Hio' : iob_ok (moved alen (poke L iob))).
  { unfold iob_ok, moved. cbn [io_base io_resid io_len io_buf poke]. rewrite !length_app, length_take, length_drop. lia. }
  destruct (IH (moved alen (poke L iob)) (resid - alen) (blkno + alen / 4096) s1) as (s' & -> & Hs' & Hd'); try done; try lia.
  { cbn [moved poke io_resid]. lia. }
  { cbn [moved poke io_offset]. rewrite i32_small by lia. lia. }
  { cbn [moved poke io_offset]. rewrite i32_small by lia. lia. }
  exists s'. split; [|split; [done|intros d; by rewrite Hd', Hd1]].
  do 2 f_equal. rewrite Hd1.
  replace (moved alen (poke L iob)) with (moved (Z.of_nat (length L)) (poke L iob)) by (by rewrite HL).
  rewrite poke_moved; [|done|rewrite slice_length; lia]. rewrite HL, moved_moved by (cbn [poke io_offset]; lia).
  replace (alen + (resid - alen)) with resid by lia. do 2 f_equal. unfold L.
  replace ((blkno + alen / 4096) * 4096) with (blkno * 4096 + alen) by lia. rewrite <- slice_app by lia. f_equal. lia.
Qed.

Lemma disk0_loop_write n : forall iob resid blkno s,
  disk0_ok s -> iob_ok iob -> io_resid iob = resid -> resid mod 4096 = 0 -> resid / 4096 <= Z.of_nat n ->
  0 <= io_offset iob -> io_offset iob + resid < 2 ^ 31 -> 0 <= blkno -> blkno + resid / 4096 <= 2 ^ 25 ->
  exists s', disk0_loop n true iob resid blkno s = Ok (moved resid iob, s') /\ disk0_ok s' /\
    stored (blkno * 4096) (peek resid iob) (disk0_media (drive s)) (disk0_media (drive s')) /\
    (forall d, d <> DISK0_DEV_NO -> disk_at (drive s') d = disk_at (drive s) d).
Proof.
  induction n as [|n IH]; intros iob resid blkno s Hs Hio Hr Hm Hn Ho1 Ho2 Hb1 Hb2; cbn [disk0_loop];
    (destruct (Z.eqb_spec resid 0) as [->|Hne]; [exists s; split; [by rewrite moved_0 by lia|]; split_and!; [done|apply stored_nil|done]|]).
  { pose proof Hio as (_ & ? & _). pose proof (Z.div_mod resid 4096). lia. }
  pose proof Hio as (Hio1 & Hio2 & Hio3 & Hio4). pose proof Hs as [Hh Hbl].
  destruct (round_blocks resid) as (Ha & Ha1 & Ham & Ha2 & Ha3 & Hrm & Hrd); [lia|done|].
  set (alen := if DISK0_BUFSIZE >? resid then resid else DISK0_BUFSIZE) in *.
  assert (HB : Z.of_nat (length (disk0_buffer s)) = DISK0_BUFSIZE) by (rewrite Hbl; unfold DISK0_BUFSIZE, DISK0_BLKSIZE; lia).
  pose proof (iobuf_move_out (disk0_buffer s) iob alen ltac:(rewrite HB; unfold DISK0_BUFSIZE, DISK0_BLKSIZE; lia) ltac:(lia)) as Hmv.
  rewrite HB in Hmv. rewrite Hmv, res_bind_ok. unfold DISK0_BLKSIZE in *.
  replace (negb (alen =? 0) && (alen <=? resid) && (alen mod 4096 =? 0)) with true
    by (destruct (Z.eqb_spec alen 0), (Z.leb_spec alen resid), (Z.eqb_spec (alen mod 4096) 0); simpl; lia).
  cbn [kassert]. rewrite res_bind_ok.
  set (data := peek alen iob ++ drop (Z.to_nat alen) (disk0_buffer s)).
  assert (Hpl : length (peek alen iob) = Z.to_nat alen) by (pose proof (peek_length alen iob Hio ltac:(lia)); lia).
  assert (Hs0 : disk0_ok (Disk0 (drive s) data)).
  { split; [done|]. cbn [disk0_buffer]. unfold data. rewrite length_app, length_drop, Hpl, Hbl. unfold DISK0_BUFSIZE, DISK0_BLKSIZE in *. lia. }
  destruct (disk0_write_blks_ok blkno (alen / 4096) _ Hs0) as (s1 & -> & Hs1 & Hst & Hot); [lia|lia|lia|].
  rewrite !res_bind_ok, u32_small by lia. cbn [drive disk0_buffer] in Hst, Hot.
  rewrite <- Ha3 in Hst. unfold data in Hst. rewrite take_app_length' in Hst by lia.
  destruct (IH (moved alen iob) (resid - alen) (blkno + alen / 4096) s1) as (s' & -> & Hs' & Hst' & Hot'); try done; try lia.
  { apply moved_ok; [done|lia]. }
  { cbn [moved io_resid]. lia. }
  { cbn [moved io_offset]. rewrite i32_small by lia. lia. }
  { cbn [moved io_offset]. rewrite i32_small by lia. lia. }
  exists s'. split_and!.
  - rewrite moved_moved by lia. do 3 f_equal. lia.
  - done.
  - replace resid with (alen + (resid - alen)) at 1 by lia. rewrite peek_moved by (done || lia).
    eapply stored_app; [exact Hst|]. rewrite Hpl, Z2Nat.id by lia.
    by replace (blkno * 4096 + alen) with ((blkno + alen / 4096) * 4096) by lia.
  - intros d Hd. by rewrite Hot', Hot.
Qed.

(** The transfers [disk0_io] accepts: whole blocks inside the disk. *)
Definition whole (d : device) (off resid : Z) : bool :=
  (off mod 4096 =? 0) && (resid mod 4096 =? 0) && ((off + resid) / 4096 <=? d_blocks d).

(** C26: [disk0_io] on a disk without errors: a transfer of whole blocks inside
    the disk reads exactly the bytes of the disk from the offset of the buffer
    on, in rounds of at most four blocks, or stores exactly the bytes of the
    buffer there and changes no other byte and no other disk; any other
    transfer is refused with [-E_INVAL] and moves nothing. *)
Theorem disk0_io_correct d iob s :
  disk0_ok s -> iob_ok iob -> 0 <= io_offset iob -> io_offset iob + io_resid iob < 2 ^ 31 -> 0 <= d_blocks d <= 2 ^ 25 ->
  let off := io_offset iob in let n := io_resid iob in
  if whole d off n then
    (exists s', disk0_io d iob false s = Ok (0, moved n (poke (slice (disk0_media (drive s)) off n) iob), s') /\ disk0_ok s' /\
       forall e, disk_at (drive s') e = disk_at (drive s) e) /\
    (exists s', disk0_io d iob true s = Ok (0, moved n iob, s') /\ disk0_ok s' /\
       stored off (peek n iob) (disk0_media (drive s)) (disk0_media (drive s')) /\
       forall e, e <> DISK0_DEV_NO -> disk_at (drive s') e = disk_at (drive s) e)
  else forall w, disk0_io d iob w s = Ok (- E_INVAL, iob, s).
Proof.
  intros Hs Hio Ho1 Ho2 Hd off n. pose proof Hio as (_ & Hn & _). fold n in Hn. unfold disk0_io. fold off n.
  unfold DISK0_BLKSIZE. rewrite Z.quot_div_nonneg, Z.rem_mod_nonneg by lia.
  pose proof (Z.div_mod off 4096). pose proof (Z.div_mod n 4096). pose proof (Z.mod_pos_bound off 4096). pose proof (Z.mod_pos_bound n 4096).
  assert (Hq : 0 <= off / 4096 < 2 ^ 31 /\ 0 <= n / 4096 < 2 ^ 31) by lia.
  rewrite (u32_small (off / 4096)), (u32_small (off / 4096 + n / 4096)) by lia.
  unfold whole. destruct (Z.eqb_spec (off mod 4096) 0) as [Hom|Hom]; cbn [andb negb orb]; [|done].
  destruct (Z.eqb_spec (n mod 4096) 0) as [Hnm|Hnm]; cbn [andb negb]; [|done].
  assert (Hsum : (off + n) / 4096 = off / 4096 + n / 4096) by lia. rewrite Hsum, Z.gtb_ltb, (Z.leb_antisym (d_blocks d)).
  destruct (Z.ltb_spec (d_blocks d) (off / 4096 + n / 4096)); cbn [negb]; [done|].
  assert (Hoff : off / 4096 * 4096 = off) by lia.
  destruct (Z.eqb_spec (n / 4096) 0) as [Hz|Hz].
  - assert (Hn0 : n = 0) by lia. rewrite Hn0. split; exists s; (split; [|split_and!; done || apply stored_nil]).
    + by rewrite poke_nil, moved_0 by lia.
    + by rewrite moved_0 by lia.
  - destruct (disk0_loop_read (Z.to_nat (n / 4096)) iob n (off / 4096) s) as (s1 & -> & Hs1 & Hd1); try done; try lia.
    destruct (disk0_loop_write (Z.to_nat (n / 4096)) iob n (off / 4096) s) as (s2 & -> & Hs2 & Hst & Hd2); try done; try lia.
    rewrite !res_bind_ok, Hoff in *. split; [by exists s1|by exists s2].
Qed.

(** ** Console input as a queue *)
Definition unread (s : stdin) : list Z :=
  (fun i => byte (stdin_buffer s) (i mod STDIN_BUFSIZE)) <$> seqZ (p_rpos s) (p_wpos s - p_rpos s).

Record stdin_ok (s : stdin) : Prop := {
  so_pos : 0 <= p_rpos s <= p_wpos s;
  so_room : p_wpos s - p_rpos s <= STDIN_BUFSIZE;
  so_max : p_wpos s < 2 ^ 31 - 1
}.

Lemma mod_ne i j : i <> j -> Z.abs (i - j) < 4096 -> i mod 4096 <> j mod 4096.
Proof. intros Hne Ha He. pose proof (Z.div_mod i 4096). pose proof (Z.div_mod j 4096). lia. Qed.

Lemma unread_ext b b' r w a a' k k' :
  (forall i, r <= i < w -> byte b' (i mod 4096) = byte b (i mod 4096)) -> unread (Stdin b' r w a k) = unread (Stdin b r w a' k').
Proof.
  intros H. unfold unread. cbn [p_rpos p_wpos stdin_buffer]. apply list_fmap_ext. intros j x Hx. apply lookup_seqZ in Hx as [-> Hj].
  apply H. lia.
Qed.

Lemma unread_cons b r w a k : r < w -> unread (Stdin b r w a k) = byte b (r mod 4096) :: unread (Stdin b (r + 1) w a k).
Proof.
  intros H. unfold unread. cbn [p_rpos p_wpos stdin_buffer]. rewrite (seqZ_cons r) by lia. simpl. do 2 f_equal.
  replace (Z.pred (w - r)) with (w - (r + 1)) by lia. by replace (Z.succ r) with (r + 1) by lia.
Qed.

Lemma unread_snoc b r w a k : r <= w -> unread (Stdin b r (w + 1) a k) = unread (Stdin b r w a k) ++ [byte b (w mod 4096)].
Proof.
  intros H. unfold unread. cbn [p_rpos p_wpos stdin_buffer]. replace (w + 1 - r) with ((w - r) + 1) by lia.
  rewrite seqZ_app by lia. rewrite fmap_app. f_equal. replace (r + (w - r)) with w by lia. done.
Qed.

Lemma byte_insert b i j x : byte (<[i := x]> b) j = if j =? i then x else byte b j.
Proof. unfold byte. zcase; [subst; by rewrite lookup_insert_eq|by rewrite lookup_insert_ne]. Qed.

(** A key press: a byte is appended, or, when the buffer is full, replaces
    the oldest byte that has not been read; everyone waiting is woken. *)
Lemma stdin_write_ok c s :
  stdin_ok s -> c <> 0 ->
  let s' := dev_stdin_write c s in
  0 <= Z.rem (p_wpos s) STDIN_BUFSIZE < STDIN_BUFSIZE /\ p_rpos s' = p_rpos s /\ asleep s' = [] /\ awake s' = awake s ++ asleep s /\
  (if Z.of_nat (length (unread s)) <? STDIN_BUFSIZE
   then unread s' = unread s ++ [c] /\ p_wpos s' = p_wpos s + 1
   else unread s' = c :: tail (unread s) /\ p_wpos s' = p_wpos s).
Proof.
  destruct s as [b r w a k]. intros [Hpos Hroom Hmax] Hc s'. cbn [p_rpos p_wpos asleep awake] in *. unfold STDIN_BUFSIZE in *.
  rewrite Z.rem_mod_nonneg by lia. split; [apply Z.mod_pos_bound; lia|].
  assert (Hlen : Z.of_nat (length (unread (Stdin b r w a k))) = w - r) by (unfold unread; rewrite length_fmap, length_seqZ; simpl; lia).
  rewrite Hlen. unfold s', dev_stdin_write. destruct (Z.eqb_spec c 0) as [|_]; [done|]. cbn [negb p_rpos p_wpos stdin_buffer asleep awake]. unfold STDIN_BUFSIZE.
  rewrite Z.rem_mod_nonneg, (i32_small (w - r)), (i32_small (w + 1)) by lia.
  assert (Hcase : forall a' k', (if w - r <? 4096
     then unread (Stdin (<[w mod 4096 := c]> b) r (if w - r <? 4096 then w + 1 else w) a' k') = unread (Stdin b r w a k) ++ [c] /\ (if w - r <? 4096 then w + 1 else w) = w + 1
     else unread (Stdin (<[w mod 4096 := c]> b) r (if w - r <? 4096 then w + 1 else w) a' k') = c :: tail (unread (Stdin b r w a k)) /\ (if w - r <? 4096 then w + 1 else w) = w)).
  { intros a' k'. destruct (Z.ltb_spec (w - r) 4096).
    - split; [|done]. rewrite unread_snoc by lia. rewrite byte_insert, Z.eqb_refl. f_equal. apply unread_ext.
      intros i Hi. rewrite byte_insert. destruct (Z.eqb_spec (i mod 4096) (w mod 4096)) as [He|]; [|done]. exfalso. revert He. apply mod_ne; lia.
    - split; [|done]. assert (Hw : w = r + 1 * 4096) by lia. rewrite !(unread_cons _ r) by lia. cbn [tail].
      assert (Hwm : w mod 4096 = r mod 4096) by (rewrite Hw; apply Z_mod_plus_full). rewrite Hwm, byte_insert, Z.eqb_refl. f_equal.
      apply unread_ext. intros i Hi. rewrite byte_insert. destruct (Z.eqb_spec (i mod 4096) (r mod 4096)) as [He|]; [|done].
      exfalso. revert He. apply mod_ne; lia. }
  destruct (decide (a = [])) as [->|Ha].
  - rewrite bool_decide_true by done. cbn [negb p_rpos asleep awake p_wpos]. rewrite app_nil_r. split_and!; try done. apply Hcase.
  - rewrite bool_decide_false by done. cbn [negb p_rpos asleep awake p_wpos]. split_and!; try done. apply Hcase.
Qed.

Lemma stdin_write_keeps c s : stdin_ok s -> c <> 0 -> p_wpos s + 1 < 2 ^ 31 - 1 -> stdin_ok (dev_stdin_write c s).
Proof.
  intros H Hc Hmax. pose proof (stdin_write_ok c s H Hc) as (_ & Hr & _ & _ & Hcase). destruct H as [Hp Hroom Hm].
  assert (Hlen : Z.of_nat (length (unread s)) = p_wpos s - p_rpos s) by (unfold unread; rewrite length_fmap, length_seqZ; lia).
  rewrite Hlen in Hcase. unfold STDIN_BUFSIZE in *.
  destruct (Z.ltb_spec (p_wpos s - p_rpos s) 4096); destruct Hcase as [_ Hw]; split; rewrite ?Hr, ?Hw; unfold STDIN_BUFSIZE; lia.
Qed.

(** Reading takes the oldest bytes. *)
Lemma stdin_take_ok n s :
  stdin_ok s ->
  let '(l, s') := stdin_take n s in
  l = take n (unread s) /\ unread s' = drop n (unread s) /\ stdin_ok s' /\ p_wpos s' = p_wpos s /\ asleep s' = asleep s /\ awake s' = awake s.
Proof.
  revert s. induction n as [|n IH]; intros [b r w a k] [Hpos Hroom Hmax]; cbn [p_rpos p_wpos stdin_buffer asleep awake] in *; unfold STDIN_BUFSIZE in *.
  { cbn [stdin_take]. split_and!; done. }
  cbn [stdin_take p_rpos p_wpos stdin_buffer asleep awake]. destruct (Z.ltb_spec r w).
  - unfold STDIN_BUFSIZE. rewrite Z.rem_mod_nonneg, i32_small by lia.
    specialize (IH (Stdin b (r + 1) w a k) ltac:(split; cbn [p_rpos p_wpos]; unfold STDIN_BUFSIZE; lia)).
    destruct (stdin_take n (Stdin b (r + 1) w a k)) as [l s']. destruct IH as (-> & Hu & Hok & Hw & Ha & Hk).
    rewrite (unread_cons b r w a k) by lia. by split_and!.
  - assert (w = r) as -> by lia. assert (Hn : unread (Stdin b r r a k) = []) by (unfold unread; cbn; by rewrite Z.sub_diag).
    rewrite Hn. by split_and!.
Qed.

(** ** Key presses and reads in any order *)
Inductive event := Key (c : Z) | Read (proc : Z) (n : nat).

Definition step (e : event) (s : stdin) : list Z * stdin :=
  match e with
  | Key c => ([], dev_stdin_write c s)
  | Read p n => let '(l, _, s) := dev_stdin_read p n s in (l, s)
  end.
Fixpoint run (es : list event) (s : stdin) : list Z * stdin :=
  match es with [] => ([], s) | e :: es => let '(l, s) := step e s in let '(r, s) := run es s in (l ++ r, s) end.

Definition typed (e : event) : list Z := match e with Key c => if c =? 0 then [] else [c] | Read _ _ => [] end.

(** No key is pressed while the buffer is full. *)
Fixpoint roomy (es : list event) (s : stdin) : bool :=
  match es with
  | [] => true
  | e :: es => (match e with Key _ => Z.of_nat (length (unread s)) <? STDIN_BUFSIZE | _ => true end) && roomy es (step e s).2
  end.

Definition no_lost_wakeup (s : stdin) : Prop := asleep s <> [] -> unread s = [].

Lemma step_ok e s :
  stdin_ok s -> no_lost_wakeup s -> p_wpos s + Z.of_nat (length (typed e)) < 2 ^ 31 - 1 ->
  (match e with Key _ => Z.of_nat (length (unread s)) <? STDIN_BUFSIZE | _ => true end) = true ->
  let '(l, s') := step e s in
  l ++ unread s' = unread s ++ typed e /\ stdin_ok s' /\ no_lost_wakeup s' /\ p_wpos s' = p_wpos s + Z.of_nat (length (typed e)).
Proof.
  intros Hok Hnl Hmax Hroom. destruct e as [c|p n]; cbn [step typed] in *.
  - destruct (Z.eqb_spec c 0) as [->|Hc].
    { unfold dev_stdin_write. change (negb (0 =? 0)) with false. cbv iota. rewrite app_nil_r. split_and!; try done. simpl. lia. }
    pose proof (stdin_write_ok c s Hok Hc) as (_ & Hr & Ha & _ & Hcase). rewrite Hroom in Hcase. destruct Hcase as [-> Hw].
    split_and!; [done|by apply stdin_write_keeps; [..|simpl in Hmax; lia]| |rewrite Hw; simpl; lia]. intros Hne. by rewrite Ha in Hne.
  - unfold dev_stdin_read. pose proof (stdin_take_ok n s Hok) as Ht. destruct (stdin_take n s) as [l s1].
    destruct Ht as (-> & Hu & Hok1 & Hw & Ha & _). destruct (Nat.eqb_spec (length (take n (unread s))) n) as [Hl|Hl].
    + rewrite Hu, take_drop, app_nil_r. split_and!; [done|done| |simpl; lia]. intros Hne. rewrite Hu. rewrite Ha in Hne. by rewrite (Hnl Hne), drop_nil.
    + assert (Hsh : (length (unread s) <= n)%nat) by (rewrite length_take in Hl; lia).
      assert (Hn : unread s1 = []) by (rewrite Hu; by apply drop_ge).
      assert (Hn' : forall x y, unread (Stdin (stdin_buffer s1) (p_rpos s1) (p_wpos s1) x y) = []) by done.
      rewrite Hn', !app_nil_r, take_ge by done. split_and!; [done|by destruct Hok1|intros _; apply Hn'|simpl; lia].
Qed.

(** console input, whatever the order of key presses and reads: as long as
    no key is pressed while the buffer is full, the bytes read, in the order
    of the reads, followed by those still in the buffer, are the bytes that
    were there followed by those typed; and no process sleeps while there are
    bytes to read. *)
Theorem stdin_fifo es s :
  stdin_ok s -> no_lost_wakeup s -> p_wpos s + Z.of_nat (length (mjoin (typed <$> es))) < 2 ^ 31 - 1 -> roomy es s = true ->
  let '(l, s') := run es s in
  l ++ unread s' = unread s ++ mjoin (typed <$> es) /\ stdin_ok s' /\ no_lost_wakeup s'.
Proof.
  revert s. induction es as [|e es IH]; intros s Hok Hnl Hmax Hroom; cbn [run roomy] in *.
  { change (mjoin (typed <$> [])) with (@nil Z). by rewrite app_nil_r. }
  apply andb_true_iff in Hroom as [Hr1 Hr2]. change (mjoin (typed <$> e :: es)) with (typed e ++ mjoin (typed <$> es)) in *.
  rewrite length_app in Hmax. pose proof (step_ok e s Hok Hnl ltac:(lia) Hr1) as Hst. destruct (step e s) as [l s1].
  destruct Hst as (He & Hok1 & Hnl1 & Hw). cbn [snd] in Hr2. specialize (IH s1 Hok1 Hnl1 ltac:(lia) Hr2).
  destruct (run es s1) as [r s2]. destruct IH as (He2 & ? & ?). split_and!; [|done..].
  by rewrite <- app_assoc, He2, app_assoc, He, <- app_assoc.
Qed.

(** what the comments of dev_stdin.c rule out.  A key pressed while 4096
    bytes are unread replaces the oldest of them, not the newest: it is read
    before them, and the byte it replaces is lost.  And the positions are 32
    bits wide: once 2^31 - 1 bytes have been read, further bytes are never
    delivered, and the third one is stored 4095 bytes before the buffer. *)
Theorem stdin_limits s b :
  stdin_ok s -> Z.of_nat (length (unread s)) = STDIN_BUFSIZE ->
  unread (dev_stdin_write 65 s) = 65 :: tail (unread s) /\
  (let late := Stdin b (2 ^ 31 - 1) (2 ^ 31 - 1) [] [] in
   let s1 := dev_stdin_write 66 late in
   let s3 := dev_stdin_write 68 (dev_stdin_write 67 s1) in
   (stdin_take 1 s1).1 = [] /\ (stdin_take 1 s3).1 = [] /\ byte (stdin_buffer s3) (- 4095) = 68).
Proof.
  intros Hok Hl. split.
  - pose proof (stdin_write_ok 65 s Hok ltac:(lia)) as (_ & _ & _ & _ & Hcase). rewrite Hl, Z.ltb_irrefl in Hcase. apply Hcase.
  - cbv zeta. split_and!; [done..|]. unfold dev_stdin_write at 1.
    assert (Hw : p_wpos (dev_stdin_write 67 (dev_stdin_write 66 (Stdin b (2 ^ 31 - 1) (2 ^ 31 - 1) [] []))) = - 2 ^ 31 + 1) by done.
    rewrite Hw. change (Z.rem (- 2 ^ 31 + 1) STDIN_BUFSIZE) with (- 4095). change (negb (68 =? 0)) with true. cbv iota.
    case_bool_decide; cbn [negb stdin_buffer]; by rewrite byte_insert, Z.eqb_refl.
Qed.

(** ** Examples *)
Definition ide0 : ide := Ide [IdeDevice false 0; IdeDevice false 0; IdeDevice true 1024; IdeDevice false 0] [Channel 0 0 0 0 0 0; Channel 0 0 0 0 0 0] ∅ [].
Definition disk0_0 : disk0 := Disk0 ide0 (replicate (Z.to_nat DISK0_BUFSIZE) 0).

Lemma disk0_0_ok : disk0_ok disk0_0.
Proof. split; [split_and!; [done..|simpl; lia]|]. apply length_replicate. Qed.

Lemma disk0_io_correct_witness :
  let iob := Iobuf (replicate (Z.to_nat 4096) 7) 0 8192 4096 4096 in
  exists s', disk0_io (Device 128 4096) iob true disk0_0 = Ok (0, moved 4096 iob, s') /\ disk0_ok s' /\
       stored 8192 (peek 4096 iob) (disk0_media (drive disk0_0)) (disk0_media (drive s')) /\
       forall e, e <> DISK0_DEV_NO -> disk_at (drive s') e = disk_at (drive disk0_0) e.
Proof.
  pose proof (disk0_io_correct (Device 128 4096) (Iobuf (replicate (Z.to_nat 4096) 7) 0 8192 4096 4096) disk0_0 disk0_0_ok) as H.
  cbn [io_offset io_resid d_blocks] in H. apply H; [|lia..].
  split_and!; cbn [io_base io_resid io_len io_buf]; rewrite ?length_replicate; lia.
Defined.

Lemma stdin_fifo_witness :
  let '(l, s') := run [Key 97; Read 1 3; Key 98; Key 99; Read 1 2] stdin_init in
  l ++ unread s' = unread stdin_init ++ mjoin (typed <$> [Key 97; Read 1 3; Key 98; Key 99; Read 1 2]) /\ stdin_ok s' /\ no_lost_wakeup s'.
Proof.
  apply (stdin_fifo [Key 97; Read 1 3; Key 98; Key 99; Read 1 2] stdin_init); [split; simpl; unfold STDIN_BUFSIZE; lia|by intros []|simpl; lia|reflexivity].
Defined.

Lemma stdin_limits_witness :
  unread (dev_stdin_write 65 (Stdin ∅ 0 4096 [] [])) = 65 :: tail (unread (Stdin ∅ 0 4096 [] [])) /\
  (let late := Stdin ∅ (2 ^ 31 - 1) (2 ^ 31 - 1) [] [] in
   let s1 := dev_stdin_write 66 late in
   let s3 := dev_stdin_write 68 (dev_stdin_write 67 s1) in
   (stdin_take 1 s1).1 = [] /\ (stdin_take 1 s3).1 = [] /\ byte (stdin_buffer s3) (- 4095) = 68).
Proof.
  apply (stdin_limits (Stdin ∅ 0 4096 [] []) ∅); [split; simpl; unfold STDIN_BUFSIZE; lia|].
  unfold unread. rewrite length_fmap, length_seqZ. simpl. unfold STDIN_BUFSIZE. lia.
Defined.
