(* ===== verification/Vfs.v ===== *)
(** * kern/fs/vfs: devices, the working directory, path names

    The list of devices, the boot file system and the working directory of
    the current process, over the reference counts of FileTable.  The file
    systems below are arguments: what [vop_lookup] and the like answer.  That
    a lookup and [fs_get_root] hand out a counted reference is their contract
    (SfsDir proves it for SFS) and part of the step.  A path is its characters
    up to the terminating zero.  The locks make each function one step. *)
From S2P Require Import Prelude IoBuf FileTable.

Definition E_NO_DEV : Z := 13.
Definition E_NA_DEV : Z := 14.
Definition E_NOTDIR : Z := 18.
Definition E_TOO_BIG : Z := 12.
Definition E_UNIMP : Z := 20.
Definition FS_MAX_DNAME_LEN : Z := 31.
Definition SLASH : Z := 47.
Definition COLON : Z := 58.
Definition S_IFMT : Z := 28672.
Definition S_IFDIR : Z := 8192.
Definition S_ISDIR (mode : Z) : bool := Z.land mode S_IFMT =? S_IFDIR.

Abbreviation str := (list Z).

(** [devnode], [dfs]: 0 is NULL. *)
Record vfs_dev_t := Vdev { devname : str; devnode : Z; dfs : Z; mountable : bool }.

Record vst := Vst { nodes : vfs; vdev_list : list vfs_dev_t; bootfs_node : Z; pwd : Z }.

Definition set_nodes (v : vfs) (s : vst) : vst := Vst v (vdev_list s) (bootfs_node s) (pwd s).
Definition set_vdevs (l : list vfs_dev_t) (s : vst) : vst := Vst (nodes s) l (bootfs_node s) (pwd s).
Definition set_bootfs_node (n : Z) (s : vst) : vst := Vst (nodes s) (vdev_list s) n (pwd s).
Definition set_cwd_nolock (n : Z) (s : vst) : vst := Vst (nodes s) (vdev_list s) (bootfs_node s) n.
Definition get_cwd_nolock (s : vst) : Z := pwd s.

Definition ref_inc (n : Z) (s : vst) : vst := set_nodes (inode_ref_inc n (nodes s)) s.
Definition ref_dec (n : Z) (s : vst) : res vst := v ← inode_ref_dec n (nodes s); Ok (set_nodes v s).

(** The file systems below.  [vop_unlink], [vop_link] and [vop_mkdir] give the
    result and the inodes of which they keep a reference they took. *)
Class FsOps := {
  in_fs : Z -> Z;
  fs_get_root : Z -> Z;
  vop_lookup : Z -> str -> Z * Z;
  vop_lookup_parent : Z -> str -> Z * Z * str;
  vop_gettype : Z -> Z * Z;
  vop_unlink : Z -> str -> Z * list Z;
  vop_link : Z -> str -> Z -> Z * list Z;
  vop_mkdir : Z -> str -> Z * list Z;
  vop_namefile : Z -> iobuf -> Z * iobuf;
  fs_sync : Z -> Z;
  fs_unmount : Z -> Z
}.

Section vfs.
Context `{FO : FsOps}.

(** ** vfsdev.c *)
Definition vfs_devlist_init (s : vst) : vst := set_vdevs [] s.

Definition str_eqb (a b : str) : bool := bool_decide (a = b).

Fixpoint find_dev (p : vfs_dev_t -> bool) (l : list vfs_dev_t) : option vfs_dev_t :=
  match l with [] => None | d :: l => if p d then Some d else find_dev p l end.

Definition fsop_get_root (fs : Z) (s : vst) : Z * vst := (fs_get_root fs, ref_inc (fs_get_root fs) s).

(** The error and the inode. *)
Definition vfs_get_root (name : str) (s : vst) : Z * Z * vst :=
  match find_dev (fun d => str_eqb name (devname d)) (vdev_list s) with
  | None => (- E_NO_DEV, 0, s)
  | Some d =>
      let '(found, s) :=
        if negb (dfs d =? 0) then fsop_get_root (dfs d) s
        else if negb (mountable d) then (devnode d, ref_inc (devnode d) s)
        else (0, s) in
      if negb (found =? 0) then (0, found, s) else (- E_NA_DEV, 0, s)
  end.

Definition vfs_get_devname (fs : Z) (s : vst) : res (option str) :=
  _ ← kassert (negb (fs =? 0)); Ok (devname <$> find_dev (fun d => dfs d =? fs) (vdev_list s)).

(** True when the name is free. *)
Definition check_devname_conflict (name : str) (s : vst) : bool :=
  match find_dev (fun d => str_eqb (devname d) name) (vdev_list s) with Some _ => false | None => true end.

(** [mem]: [strdup] and [kmalloc] succeed; [is_device]: the inode is one of a
    device. *)
Definition vfs_do_add (mem : bool * bool) (is_device : bool) (name : str) (node fs : Z) (mnt : bool) (s : vst) : res (Z * vst) :=
  _ ← kassert (((node =? 0) && negb mnt) || (negb (node =? 0) && is_device));
  if Z.of_nat (length name) >? FS_MAX_DNAME_LEN then Ok (- E_TOO_BIG, s)
  else if negb mem.1 then Ok (- E_NO_MEM, s)
  else if negb mem.2 then Ok (- E_NO_MEM, s)
  else if negb (check_devname_conflict name s) then Ok (- E_EXISTS, s)
  else Ok (0, set_vdevs (Vdev name node fs mnt :: vdev_list s) s).
Definition vfs_add_fs (mem : bool * bool) (name : str) (fs : Z) : vst -> res (Z * vst) := vfs_do_add mem true name 0 fs false.
Definition vfs_add_dev (mem : bool * bool) (is_device : bool) (name : str) (node : Z) (mnt : bool) : vst -> res (Z * vst) :=
  vfs_do_add mem is_device name node 0 mnt.

(** The entry and the entries before and after it. *)
Fixpoint find_mount (name : str) (l : list vfs_dev_t) : option (list vfs_dev_t * vfs_dev_t * list vfs_dev_t) :=
  match l with
  | [] => None
  | d :: l =>
      if mountable d && str_eqb (devname d) name then Some ([], d, l)
      else '(p, x, r) ← find_mount name l; Some (d :: p, x, r)
  end.

(** [mountfunc]: the result and the file system of the mount function. *)
Definition vfs_mount (name : str) (mountfunc : Z -> Z * Z) (s : vst) : res (Z * vst) :=
  match find_mount name (vdev_list s) with
  | None => Ok (- E_NO_DEV, s)
  | Some (p, d, r) =>
      if negb (dfs d =? 0) then Ok (- E_BUSY, s)
      else
        let '(ret, fs) := mountfunc (devnode d) in
        if ret =? 0 then
          _ ← kassert (negb (fs =? 0));
          Ok (0, set_vdevs (p ++ Vdev (devname d) (devnode d) fs (mountable d) :: r) s)
        else Ok (ret, s)
  end.

Definition unmount_dev (d : vfs_dev_t) : Z * vfs_dev_t :=
  if negb (fs_sync (dfs d) =? 0) then (fs_sync (dfs d), d)
  else if negb (fs_unmount (dfs d) =? 0) then (fs_unmount (dfs d), d)
  else (0, Vdev (devname d) (devnode d) 0 (mountable d)).

Definition vfs_unmount (name : str) (s : vst) : Z * vst :=
  match find_mount name (vdev_list s) with
  | None => (- E_NO_DEV, s)
  | Some (p, d, r) =>
      if dfs d =? 0 then (- E_INVAL, s)
      else let '(ret, d) := unmount_dev d in (ret, set_vdevs (p ++ d :: r) s)
  end.

Definition vfs_unmount_all (s : vst) : vst :=
  set_vdevs ((fun d => if mountable d && negb (dfs d =? 0) then (unmount_dev d).2 else d) <$> vdev_list s) s.

(** ** vfspath.c, vfs.c *)
Definition vfs_get_curdir (s : vst) : Z * Z * vst :=
  let node := get_cwd_nolock s in
  if negb (node =? 0) then (0, node, ref_inc node s) else (- E_NOENT, 0, s).

Definition vfs_set_curdir (dir : Z) (s : vst) : res (Z * vst) :=
  let old := get_cwd_nolock s in
  let change s :=
    let s := set_cwd_nolock dir s in
    s ← (if negb (old =? 0) then ref_dec old s else Ok s); Ok (0, s) in
  if negb (old =? dir) then
    if negb (dir =? 0) then
      let '(ret, type) := vop_gettype dir in
      if negb (ret =? 0) then Ok (ret, s)
      else if negb (S_ISDIR type) then Ok (- E_NOTDIR, s)
      else change (ref_inc dir s)
    else change s
  else Ok (0, s).

Definition vfs_get_bootfs (s : vst) : Z * Z * vst :=
  if negb (bootfs_node s =? 0) then (0, bootfs_node s, ref_inc (bootfs_node s) s) else (- E_NOENT, 0, s).

Definition change_bootfs (node : Z) (s : vst) : res vst :=
  let old := bootfs_node s in
  let s := set_bootfs_node node s in
  if negb (old =? 0) then ref_dec old s else Ok s.

(** ** vfslookup.c *)

(** The loop of [get_device]: the first colon or slash. *)
Fixpoint scan_path (i : Z) (path : str) : Z * Z :=
  match path with
  | [] => (-1, -1)
  | c :: path => if c =? COLON then (i, -1) else if c =? SLASH then (-1, i) else scan_path (i + 1) path
  end.
Fixpoint skip_slashes (path : str) : str :=
  match path with c :: p => if c =? SLASH then skip_slashes p else path | [] => [] end.

(** The error, the inode, the rest of the path. *)
Definition get_device (path : str) (s : vst) : res (Z * Z * str * vst) :=
  let '(colon, slash) := scan_path 0 path in
  if (colon <? 0) && negb (slash =? 0) then
    let '(ret, node, s) := vfs_get_curdir s in Ok (ret, node, path, s)
  else if colon >? 0 then
    let '(ret, node, s) := vfs_get_root (take (Z.to_nat colon) path) s in
    Ok (ret, node, skip_slashes (drop (S (Z.to_nat colon)) path), s)
  else
    let sub := skip_slashes (tail path) in
    if default 0 (head path) =? SLASH then
      let '(ret, node, s) := vfs_get_bootfs s in Ok (ret, node, sub, s)
    else
      _ ← kassert (default 0 (head path) =? COLON);
      let '(ret, node, s) := vfs_get_curdir s in
      if negb (ret =? 0) then Ok (ret, 0, sub, s)
      else
        _ ← kassert (negb (in_fs node =? 0));
        let '(root, s) := fsop_get_root (in_fs node) s in
        s ← ref_dec node s;
        Ok (0, root, sub, s).

Definition vfs_lookup (path : str) (s : vst) : res (Z * Z * vst) :=
  '(ret, node, sub, s) ← get_device path s;
  if negb (ret =? 0) then Ok (ret, 0, s)
  else if negb (bool_decide (sub = [])) then
    let '(ret, found) := vop_lookup node sub in
    let s := if ret =? 0 then ref_inc found s else s in
    s ← ref_dec node s;
    Ok (ret, if ret =? 0 then found else 0, s)
  else Ok (0, node, s).

Definition vfs_lookup_parent (path : str) (s : vst) : res (Z * Z * str * vst) :=
  '(ret, node, sub, s) ← get_device path s;
  if negb (ret =? 0) then Ok (ret, 0, [], s)
  else
    let '(ret, found, name) := if negb (bool_decide (sub = [])) then vop_lookup_parent node sub else (- E_INVAL, 0, []) in
    let s := if ret =? 0 then ref_inc found s else s in
    s ← ref_dec node s;
    Ok (ret, if ret =? 0 then found else 0, name, s).

(** ** The operations on paths *)
Definition vfs_chdir (path : str) (s : vst) : res (Z * vst) :=
  '(ret, node, s) ← vfs_lookup path s;
  if ret =? 0 then
    '(ret, s) ← vfs_set_curdir node s;
    s ← ref_dec node s; Ok (ret, s)
  else Ok (ret, s).

Definition vfs_set_bootfs (fsname : option str) (s : vst) : res (Z * vst) :=
  match fsname with
  | None => s ← change_bootfs 0 s; Ok (0, s)
  | Some name =>
      if bool_decide (last name = Some COLON /\ COLON ∉ removelast name) then
        '(ret, s) ← vfs_chdir name s;
        if negb (ret =? 0) then Ok (ret, s)
        else
          let '(ret, node, s) := vfs_get_curdir s in
          if negb (ret =? 0) then Ok (ret, s) else s ← change_bootfs node s; Ok (0, s)
      else Ok (- E_INVAL, s)
  end.

Definition vfs_getcwd (iob : iobuf) (s : vst) : res (Z * iobuf * vst) :=
  let '(ret, node, s) := vfs_get_curdir s in
  if negb (ret =? 0) then Ok (ret, iob, s)
  else
    _ ← kassert (negb (in_fs node =? 0));
    o ← vfs_get_devname (in_fs node) s;
    match o with
    | None => Panic
    | Some name =>
        '(ret, _, _, iob) ← iobuf_move name (Z.of_nat (length name)) true iob;
        '(ret, iob) ← (if negb (ret =? 0) then Ok (ret, iob)
                       else
                         '(ret, _, _, iob) ← iobuf_move [COLON] 1 true iob;
                         Ok (if negb (ret =? 0) then (ret, iob) else vop_namefile node iob));
        s ← ref_dec node s; Ok (ret, iob, s)
    end.

Definition keep (l : list Z) (s : vst) : vst := foldr ref_inc s l.

Definition vfs_unlink (path : str) (s : vst) : res (Z * vst) :=
  '(ret, dir, name, s) ← vfs_lookup_parent path s;
  if negb (ret =? 0) then Ok (ret, s)
  else let '(ret, kept) := vop_unlink dir name in s ← ref_dec dir (keep kept s); Ok (ret, s).

Definition vfs_mkdir (path : str) (s : vst) : res (Z * vst) :=
  '(ret, dir, name, s) ← vfs_lookup_parent path s;
  if negb (ret =? 0) then Ok (ret, s)
  else let '(ret, kept) := vop_mkdir dir name in s ← ref_dec dir (keep kept s); Ok (ret, s).

Definition vfs_link (old_path new_path : str) (s : vst) : res (Z * vst) :=
  '(ret, node, s) ← vfs_lookup old_path s;
  if negb (ret =? 0) then Ok (ret, s)
  else
    '(ret, dir, name, s) ← vfs_lookup_parent new_path s;
    if negb (ret =? 0) then s ← ref_dec node s; Ok (ret, s)
    else
      let '(ret, kept) := vop_link dir name node in
      s ← ref_dec dir (keep kept s); s ← ref_dec node s; Ok (ret, s).

Definition vfs_rename (old_path new_path : str) : Z := - E_UNIMP.
Definition vfs_symlink (old_path new_path : str) : Z := - E_UNIMP.
Definition vfs_readlink (path : str) : Z := - E_UNIMP.
End vfs.

(** ** What a path names *)
Inductive target :=
| Cwd (sub : str)                (* relative to the working directory *)
| Boot (sub : str)               (* /sub: in the boot file system *)
| Here (sub : str)               (* :sub: from the root of the current file system *)
| Dev (name sub : str).          (* name:sub *)

(** The characters before the first colon or slash, and the rest. *)
Fixpoint span_sep (path : str) : str * str :=
  match path with
  | [] => ([], [])
  | c :: p => if (c =? COLON) || (c =? SLASH) then ([], path) else let '(a, b) := span_sep p in (c :: a, b)
  end.

(** Without its leading slashes. *)
Fixpoint leading (path : str) : nat :=
  match path with c :: p => if c =? SLASH then S (leading p) else O | [] => O end.
Definition strip (path : str) : str := drop (leading path) path.

Definition parse (path : str) : target :=
  match span_sep path with
  | ([], c :: r) => if c =? SLASH then Boot (strip r) else Here (strip r)
  | (pre, c :: r) => if c =? COLON then Dev pre (strip r) else Cwd path
  | (_, []) => Cwd path
  end.

Definition rest (t : target) : str := match t with Cwd p | Boot p | Here p | Dev _ p => p end.

Lemma strip_skip p : strip p = skip_slashes p.
Proof. induction p as [|c p IH]; [done|]. unfold strip in *. simpl. by destruct (c =? SLASH). Qed.

Lemma span_app path : let '(a, b) := span_sep path in path = a ++ b.
Proof. induction path as [|c p IH]; simpl; [done|]. destruct ((c =? COLON) || (c =? SLASH)); [done|]. destruct (span_sep p). simpl. by subst. Qed.

Lemma scan_span i path :
  let '(a, b) := span_sep path in
  scan_path i path = match b with
                     | [] => (-1, -1)
                     | c :: _ => if c =? COLON then (i + Z.of_nat (length a), -1) else (-1, i + Z.of_nat (length a))
                     end /\ (forall c r, b = c :: r -> c = COLON \/ c = SLASH).
Proof.
  revert i. induction path as [|c p IH]; intros i; simpl; [done|].
  destruct (Z.eqb_spec c COLON) as [->|H1]; simpl; [split; [f_equal; lia|naive_solver]|].
  destruct (Z.eqb_spec c SLASH) as [->|H2]; simpl; [split; [f_equal; lia|naive_solver]|].
  specialize (IH (i + 1)). destruct (span_sep p) as [a b]. destruct IH as [-> IH]. split; [|done].
  destruct b as [|x b]; [done|]. simpl. destruct (x =? COLON); f_equal; lia.
Qed.

Section paths.
Context `{FO : FsOps}.

(** Where a lookup starts: the working directory, the boot directory, the root
    of the file system of the working directory, the root of the file system on
    the first device of the name, or the device itself; or the error. *)
Definition origin (t : target) (s : vst) : Z + Z :=
  match t with
  | Cwd _ => if decide (pwd s = 0) then inl (- E_NOENT) else inr (pwd s)
  | Boot _ => if decide (bootfs_node s = 0) then inl (- E_NOENT) else inr (bootfs_node s)
  | Here _ => if decide (pwd s = 0) then inl (- E_NOENT) else inr (fs_get_root (in_fs (pwd s)))
  | Dev name _ =>
      match list_find (fun d => devname d = name) (vdev_list s) with
      | None => inl (- E_NO_DEV)
      | Some (_, d) =>
          if decide (dfs d <> 0) then inr (fs_get_root (dfs d))
          else if mountable d then inl (- E_NA_DEV)
          else if decide (devnode d = 0) then inl (- E_NA_DEV) else inr (devnode d)
      end
  end.

(** What a lookup of the path gives: an error, or an inode. *)
Definition resolve (path : str) (s : vst) : Z + Z :=
  match origin (parse path) s with
  | inl e => inl e
  | inr n =>
      if decide (rest (parse path) = []) then inr n
      else let '(e, found) := vop_lookup n (rest (parse path)) in if decide (e = 0) then inr found else inl e
  end.

(** The code of [get_device] by the kind of path. *)
Definition start_of (t : target) (s : vst) : res (Z * Z * str * vst) :=
  match t with
  | Cwd sub => let '(ret, node, s) := vfs_get_curdir s in Ok (ret, node, sub, s)
  | Boot sub => let '(ret, node, s) := vfs_get_bootfs s in Ok (ret, node, sub, s)
  | Dev name sub => let '(ret, node, s) := vfs_get_root name s in Ok (ret, node, sub, s)
  | Here sub =>
      let '(ret, node, s) := vfs_get_curdir s in
      if negb (ret =? 0) then Ok (ret, 0, sub, s)
      else
        _ ← kassert (negb (in_fs node =? 0));
        let '(root, s) := fsop_get_root (in_fs node) s in
        s ← ref_dec node s; Ok (0, root, sub, s)
  end.

Lemma get_device_parse path s : get_device path s = start_of (parse path) s.
Proof.
  unfold get_device, parse. pose proof (scan_span 0 path) as Hs. pose proof (span_app path) as Ha.
  destruct (span_sep path) as [a [|c r]]; destruct Hs as [-> Hc]; [by destruct a|]. specialize (Hc c r eq_refl).
  destruct (Z.eqb_spec c COLON) as [->|Hne].
  - destruct a as [|x a]; simpl in Ha; subst path.
    + cbn -[strip skip_slashes]. by rewrite strip_skip.
    + replace ((0 + Z.of_nat (length (x :: a)) <? 0)) with false by (destruct (Z.ltb_spec (0 + Z.of_nat (length (x :: a))) 0); lia || done).
      cbn [andb]. replace (0 + Z.of_nat (length (x :: a)) >? 0) with true by (rewrite Z.gtb_ltb; destruct (Z.ltb_spec 0 (0 + Z.of_nat (length (x :: a)))); simpl in *; lia || done).
      cbn [start_of]. replace (Z.to_nat (0 + Z.of_nat (length (x :: a)))) with (length (x :: a)) by lia.
      change (x :: a ++ COLON :: r) with ((x :: a) ++ COLON :: r). rewrite take_app_length.
      rewrite (drop_app_ge (x :: a)) by lia. replace (S (length (x :: a)) - length (x :: a))%nat with 1%nat by lia. by rewrite strip_skip.
  - destruct Hc as [?| ->]; [done|]. destruct a as [|x a]; simpl in Ha; subst path.
    + cbn -[strip skip_slashes]. by rewrite strip_skip.
    + replace (0 + Z.of_nat (length (x :: a)) =? 0) with false by (destruct (Z.eqb_spec (0 + Z.of_nat (length (x :: a))) 0); simpl in *; lia || done).
      done.
Qed.
End paths.

(** ** References

    [refs base x s]: every inode has the references others hold ([base], at
    least its open files), one for the working directory, one for the boot
    file system, and those of the list [x], which the running code holds. *)
Class FsLaws `{FsOps} : Prop := {
  root_nz : forall fs, fs <> 0 -> fs_get_root fs <> 0;
  lookup_nz : forall n p r, vop_lookup n p = (0, r) -> r <> 0;
  parent_nz : forall n p r e, vop_lookup_parent n p = (0, r, e) -> r <> 0;
  dir_fs : forall n t, vop_gettype n = (0, t) -> S_ISDIR t = true -> in_fs n <> 0
}.

Definition rc (s : vst) (n : Z) : Z := ref_count (inode_at (nodes s) n).
Definition opn (s : vst) (n : Z) : Z := open_count (inode_at (nodes s) n).
Definition one (m n : Z) : Z := if m =? n then 1 else 0.
Definition held (s : vst) (n : Z) : Z := one (pwd s) n + one (bootfs_node s) n.
Fixpoint cnt (x : list Z) (n : Z) : Z := match x with [] => 0 | m :: x => one m n + cnt x n end.

Definition refs (base : Z -> Z) (x : list Z) (s : vst) : Prop :=
  forall n, n <> 0 -> rc s n = base n + held s n + cnt x n /\ 0 <= opn s n <= base n.

(** The working directory lies in a file system. *)
Definition cwd_ok `{FsOps} (s : vst) : Prop := pwd s <> 0 -> in_fs (pwd s) <> 0.

Lemma one_nonneg m n : 0 <= one m n.
Proof. unfold one. zcase; lia. Qed.
Lemma cnt_nonneg x n : 0 <= cnt x n.
Proof. induction x as [|m x IH]; simpl; [lia|]. pose proof (one_nonneg m n). lia. Qed.

Lemma ref_inc_refs base x s n : refs base x s -> refs base (n :: x) (ref_inc n s).
Proof.
  intros H m Hm. specialize (H m Hm) as [H1 H2]. unfold rc, opn, held in *. unfold ref_inc, set_nodes, inode_ref_inc. cbn [nodes pwd bootfs_node cnt].
  rewrite inode_at_set. unfold one in *. destruct (Z.eqb_spec m n) as [->|Hne]; cbn [ref_count open_count].
  - rewrite Z.eqb_refl. lia.
  - destruct (Z.eqb_spec n m); [congruence|]. lia.
Qed.

(** A reference that is held can be given back. *)
Lemma ref_dec_refs base x s n :
  n <> 0 -> refs base (n :: x) s -> exists s', ref_dec n s = Ok s' /\ refs base x s' /\ vdev_list s' = vdev_list s /\ pwd s' = pwd s /\ bootfs_node s' = bootfs_node s.
Proof.
  intros Hn H. pose proof (H n Hn) as [H1 H2]. cbn [cnt] in H1. unfold one at 1 in H1. rewrite Z.eqb_refl in H1.
  pose proof (cnt_nonneg x n). assert (0 <= held s n) by (unfold held; pose proof (one_nonneg (pwd s) n); pose proof (one_nonneg (bootfs_node s) n); lia).
  unfold ref_dec, inode_ref_dec. fold (rc s n). rewrite (kassert_true (0 <? rc s n)) by (apply Z.ltb_lt; lia). rewrite res_bind_ok.
  set (v := set_inode n (Inode (rc s n - 1) (open_count (inode_at (nodes s) n))) (nodes s)).
  assert (Hv : forall c, refs base x (set_nodes (Vfs (inodes v) c) s)).
  { intros c m Hm. destruct (H m Hm) as [G1 G2]. cbn [cnt] in G1. unfold rc, opn, held in *. unfold set_nodes. cbn [nodes pwd bootfs_node].
    change (inode_at (Vfs (inodes v) c) m) with (inode_at v m). unfold v. rewrite inode_at_set. unfold one in *.
    destruct (Z.eqb_spec m n) as [->|Hne]; cbn [ref_count open_count].
    - rewrite Z.eqb_refl in *. lia.
    - destruct (Z.eqb_spec n m); [congruence|]. lia. }
  destruct (Z.eqb_spec (rc s n - 1) 0) as [Hz|Hz].
  - assert (Hchk : inode_check n v = Ok tt).
    { unfold inode_check. destruct (Z.eqb_spec n 0); [done|]. cbn [negb kassert]. rewrite res_bind_ok. unfold v. rewrite inode_at_set, Z.eqb_refl.
      cbn [ref_count open_count]. fold (opn s n). assert (opn s n = 0) by lia. rewrite Hz. replace (opn s n) with 0 by lia. done. }
    rewrite Hchk. eexists. split; [reflexivity|]. split; [|done]. apply (Hv (calls v ++ [VopReclaim n])).
  - eexists. split; [reflexivity|]. split; [|done]. apply (Hv (calls v)).
Qed.

Lemma refs_perm base x y s : x ≡ₚ y -> refs base x s -> refs base y s.
Proof.
  intros Hp H n Hn. destruct (H n Hn) as [H1 H2]. split; [|done]. rewrite H1. f_equal.
  clear -Hp. induction Hp as [|m x y _ IH|m k x|x y z _ IH1 _ IH2]; simpl; lia.
Qed.

(** Node 0 stands for no reference. *)
Lemma refs_zero base x s : refs base (0 :: x) s <-> refs base x s.
Proof. unfold refs. simpl. split; intros H n Hn; destruct (H n Hn) as [H1 H2]; (split; [|done]); unfold one in *; destruct (Z.eqb_spec 0 n); lia. Qed.

(** [same s s']: nothing but counts differs. *)
Definition same (s s' : vst) : Prop := vdev_list s' = vdev_list s /\ pwd s' = pwd s /\ bootfs_node s' = bootfs_node s.

Lemma same_trans s1 s2 s3 : same s1 s2 -> same s2 s3 -> same s1 s3.
Proof. intros (? & ? & ?) (? & ? & ?). split_and!; congruence. Qed.
Lemma same_inc n s : same s (ref_inc n s).
Proof. done. Qed.

Section balance.
Context `{FO : FsOps} {FL : FsLaws}.

(** The references after a function that returns an inode on success. *)
Definition got (base : Z -> Z) (x : list Z) (s : vst) (ret node : Z) (s' : vst) : Prop :=
  same s s' /\ (ret = 0 -> node <> 0 /\ refs base (node :: x) s') /\ (ret <> 0 -> refs base x s').

Lemma curdir_refs base x s : refs base x s -> let '(ret, node, s') := vfs_get_curdir s in got base x s ret node s' /\ (ret = 0 -> node = pwd s).
Proof.
  intros H. unfold vfs_get_curdir, get_cwd_nolock. destruct (Z.eqb_spec (pwd s) 0); cbn [negb].
  - split; [|done]. split_and!; try done.
  - split; [|done]. split_and!; try done. intros _. split; [done|by apply ref_inc_refs].
Qed.

Lemma bootfs_refs base x s : refs base x s -> let '(ret, node, s') := vfs_get_bootfs s in got base x s ret node s'.
Proof.
  intros H. unfold vfs_get_bootfs. destruct (Z.eqb_spec (bootfs_node s) 0); cbn [negb]; split_and!; try done.
  intros _. split; [done|by apply ref_inc_refs].
Qed.

Lemma get_root_refs base x s name : refs base x s -> let '(ret, node, s') := vfs_get_root name s in got base x s ret node s'.
Proof.
  intros H. unfold vfs_get_root. destruct (find_dev _ (vdev_list s)) as [d|]; [|by split_and!].
  destruct (Z.eqb_spec (dfs d) 0) as [He|He]; cbn [negb].
  - destruct (mountable d); cbn [negb].
    + change (negb (0 =? 0)) with false. cbv iota. by split_and!.
    + destruct (Z.eqb_spec (devnode d) 0) as [Hz|Hz]; cbn [negb]; split_and!; try done.
      * intros _. rewrite Hz. apply refs_zero. by apply ref_inc_refs.
      * intros _. split; [done|by apply ref_inc_refs].
  - unfold fsop_get_root. pose proof (root_nz _ He). destruct (Z.eqb_spec (fs_get_root (dfs d)) 0); [done|]. cbn [negb].
    split_and!; try done. intros _. split; [done|by apply ref_inc_refs].
Qed.

Lemma device_refs base x s path :
  refs base x s -> cwd_ok s -> exists ret node sub s', get_device path s = Ok (ret, node, sub, s') /\ got base x s ret node s'.
Proof.
  intros H Hc. rewrite get_device_parse. destruct (parse path) as [sub|sub|sub|name sub]; cbn [start_of].
  - pose proof (curdir_refs base x s H) as Hg. destruct (vfs_get_curdir s) as [[ret node] s']. destruct Hg as [Hg _]. by eexists _, _, _, _.
  - pose proof (bootfs_refs base x s H) as Hg. destruct (vfs_get_bootfs s) as [[ret node] s']. by eexists _, _, _, _.
  - pose proof (curdir_refs base x s H) as Hg. destruct (vfs_get_curdir s) as [[ret node] s1]. destruct Hg as [(Hs & Hok & Hbad) Hn].
    destruct (Z.eqb_spec ret 0) as [->|Hr]; cbn [negb].
    + destruct (Hok eq_refl) as [Hnz Hr1]. rewrite (Hn eq_refl) in *. pose proof (Hc Hnz) as Hfs.
      destruct (Z.eqb_spec (in_fs (pwd s)) 0); [done|]. cbn [negb kassert]. rewrite res_bind_ok. unfold fsop_get_root.
      pose proof (ref_inc_refs base _ _ (fs_get_root (in_fs (pwd s))) Hr1) as Hr2.
      apply (refs_perm _ _ (pwd s :: fs_get_root (in_fs (pwd s)) :: x)) in Hr2; [|apply Permutation_swap].
      destruct (ref_dec_refs base _ _ _ Hnz Hr2) as (s3 & -> & Hr3 & Hsame). rewrite res_bind_ok. eexists _, _, _, _. split; [done|].
      split; [by eapply same_trans; [exact Hs|]|]. split; [|done]. intros _. split; [by apply root_nz|done].
    + eexists _, _, _, _. split; [done|]. by split_and!; [..|intros ->|intros _; apply Hbad].
  - pose proof (get_root_refs base x s name H) as Hg. destruct (vfs_get_root name s) as [[ret node] s']. by eexists _, _, _, _.
Qed.

Lemma lookup_refs base x s path :
  refs base x s -> cwd_ok s -> exists ret node s', vfs_lookup path s = Ok (ret, node, s') /\ got base x s ret node s'.
Proof.
  intros H Hc. unfold vfs_lookup. destruct (device_refs base x s path H Hc) as (ret & node & sub & s1 & -> & Hs & Hok & Hbad).
  rewrite res_bind_ok. destruct (Z.eqb_spec ret 0) as [->|Hr]; cbn [negb].
  2: { eexists _, _, _. split; [done|]. by split_and!; [..|intros ->|intros _; apply Hbad]. }
  destruct (Hok eq_refl) as [Hnz Hr1]. case_bool_decide; cbn [negb].
  { eexists _, _, _. split; [done|]. by split_and!. }
  destruct (vop_lookup node sub) as [ret found] eqn:Hl. destruct (Z.eqb_spec ret 0) as [->|Hr].
  - pose proof (ref_inc_refs base _ _ found Hr1) as Hr2. apply (refs_perm _ _ (node :: found :: x)) in Hr2; [|apply Permutation_swap].
    destruct (ref_dec_refs base _ _ _ Hnz Hr2) as (s3 & -> & Hr3 & Hsame). rewrite res_bind_ok. eexists _, _, _. split; [done|].
    split; [by eapply same_trans; [exact Hs|]|]. split; [|done]. intros _. split; [by eapply lookup_nz|done].
  - destruct (ref_dec_refs base _ _ _ Hnz Hr1) as (s3 & -> & Hr3 & Hsame). rewrite res_bind_ok. eexists _, _, _. split; [done|].
    split; [by eapply same_trans; [exact Hs|]|]. by split.
Qed.

Lemma lookup_parent_refs base x s path :
  refs base x s -> cwd_ok s -> exists ret node name s', vfs_lookup_parent path s = Ok (ret, node, name, s') /\ got base x s ret node s'.
Proof.
  intros H Hc. unfold vfs_lookup_parent. destruct (device_refs base x s path H Hc) as (ret & node & sub & s1 & -> & Hs & Hok & Hbad).
  rewrite res_bind_ok. destruct (Z.eqb_spec ret 0) as [->|Hr]; cbn [negb].
  2: { eexists _, _, _, _. split; [done|]. by split_and!; [..|intros ->|intros _; apply Hbad]. }
  destruct (Hok eq_refl) as [Hnz Hr1].
  destruct (if negb (bool_decide (sub = [])) then vop_lookup_parent node sub else (- E_INVAL, 0, [])) as [[ret found] name] eqn:Hl.
  destruct (Z.eqb_spec ret 0) as [->|Hr].
  - pose proof (ref_inc_refs base _ _ found Hr1) as Hr2. apply (refs_perm _ _ (node :: found :: x)) in Hr2; [|apply Permutation_swap].
    destruct (ref_dec_refs base _ _ _ Hnz Hr2) as (s3 & -> & Hr3 & Hsame). rewrite res_bind_ok. eexists _, _, _, _. split; [done|].
    split; [by eapply same_trans; [exact Hs|]|]. split; [|done]. intros _. split; [|done].
    case_bool_decide; simpl in Hl; [by simplify_eq|]. by eapply parent_nz.
  - destruct (ref_dec_refs base _ _ _ Hnz Hr1) as (s3 & -> & Hr3 & Hsame). rewrite res_bind_ok. eexists _, _, _, _. split; [done|].
    split; [by eapply same_trans; [exact Hs|]|]. by split.
Qed.

Lemma set_cwd_refs base x s dir : refs base (dir :: x) s -> refs base (pwd s :: x) (set_cwd_nolock dir s).
Proof. intros H n Hn. destruct (H n Hn) as [H1 H2]. split; [|done]. unfold rc, held in *. cbn [set_cwd_nolock nodes pwd bootfs_node cnt] in *. lia. Qed.

Lemma set_boot_refs base x s n : refs base (n :: x) s -> refs base (bootfs_node s :: x) (set_bootfs_node n s).
Proof. intros H m Hm. destruct (H m Hm) as [H1 H2]. split; [|done]. unfold rc, held in *. cbn [set_bootfs_node nodes pwd bootfs_node cnt] in *. lia. Qed.

(** Giving back a reference that may be none. *)
Lemma drop_refs base x s n :
  refs base (n :: x) s -> exists s', (if negb (n =? 0) then ref_dec n s else Ok s) = Ok s' /\ refs base x s' /\ same s s'.
Proof.
  intros H. destruct (Z.eqb_spec n 0) as [->|Hn]; cbn [negb].
  - exists s. split; [done|]. split; [by apply refs_zero|done].
  - destruct (ref_dec_refs base x s n Hn H) as (s' & -> & ? & ?). by exists s'.
Qed.

Lemma set_curdir_refs base x s dir :
  refs base x s -> cwd_ok s -> dir <> 0 ->
  exists ret s', vfs_set_curdir dir s = Ok (ret, s') /\ refs base x s' /\ cwd_ok s' /\ vdev_list s' = vdev_list s /\ bootfs_node s' = bootfs_node s /\
    pwd s' = (if ret =? 0 then dir else pwd s).
Proof.
  intros H Hc Hd. unfold vfs_set_curdir, get_cwd_nolock. destruct (Z.eqb_spec (pwd s) dir) as [He|He]; cbn [negb].
  { exists 0, s. split_and!; try done. }
  destruct (Z.eqb_spec dir 0) as [|_]; [done|]. cbn [negb].
  destruct (vop_gettype dir) as [ret t] eqn:Ht. destruct (Z.eqb_spec ret 0) as [->|Hr]; cbn [negb].
  2: { exists ret, s. split_and!; try done. destruct (Z.eqb_spec ret 0); done. }
  destruct (S_ISDIR t) eqn:Hdir; cbn [negb].
  2: { exists (- E_NOTDIR), s. split_and!; try done. }
  pose proof (set_cwd_refs base x (ref_inc dir s) dir (ref_inc_refs _ _ _ _ H)) as H2. cbn [ref_inc set_nodes pwd] in H2.
  destruct (drop_refs base x _ (pwd s) H2) as (s' & -> & H3 & Hv & Hp & Hb). rewrite res_bind_ok. exists 0, s'. split_and!; try done.
  intros _. rewrite Hp. by eapply dir_fs.
Qed.

Lemma chdir_refs base s path :
  refs base [] s -> cwd_ok s ->
  exists ret s', vfs_chdir path s = Ok (ret, s') /\ refs base [] s' /\ cwd_ok s' /\ vdev_list s' = vdev_list s /\ bootfs_node s' = bootfs_node s /\
    (ret <> 0 -> pwd s' = pwd s) /\ (ret = 0 -> pwd s' <> 0 /\ exists s1, vfs_lookup path s = Ok (0, pwd s', s1)).
Proof.
  intros H Hc. unfold vfs_chdir. destruct (lookup_refs base [] s path H Hc) as (ret & node & s1 & Hl & (Hv & Hp & Hb) & Hok & Hbad). rewrite Hl, res_bind_ok.
  destruct (Z.eqb_spec ret 0) as [->|Hr].
  2: { exists ret, s1. split_and!; try done; [by apply Hbad|]. unfold cwd_ok. by rewrite Hp. }
  destruct (Hok eq_refl) as [Hnz H1].
  destruct (set_curdir_refs base [node] s1 node H1) as (ret2 & s2 & -> & H2 & Hc2 & Hv2 & Hb2 & Hp2); [unfold cwd_ok; by rewrite Hp|done|].
  rewrite res_bind_ok. destruct (ref_dec_refs base [] s2 node Hnz H2) as (s3 & -> & H3 & Hv3 & Hp3 & Hb3). rewrite res_bind_ok.
  exists ret2, s3. split_and!; try done; try congruence.
  - unfold cwd_ok. by rewrite Hp3.
  - intros Hne. rewrite Hp3, Hp2. destruct (Z.eqb_spec ret2 0); [done|congruence].
  - intros ->. rewrite Hp3, Hp2. change (0 =? 0) with true. cbv iota. split; [done|]. by exists s1.
Qed.

(** A function gives back every reference it takes. *)
Definition balanced {A} (base : Z -> Z) (r : res (A * vst)) : Prop := exists a s', r = Ok (a, s') /\ refs base [] s' /\ cwd_ok s'.

Lemma same_cwd s s' : same s s' -> cwd_ok s -> cwd_ok s'.
Proof. intros (_ & Hp & _) H. unfold cwd_ok. by rewrite Hp. Qed.

(** References that a file system keeps. *)
Definition plus (base : Z -> Z) (kept : list Z) (n : Z) : Z := base n + cnt kept n.

Lemma cnt_app x y n : cnt (x ++ y) n = cnt x n + cnt y n.
Proof. induction x as [|m x IH]; simpl; lia. Qed.
Lemma refs_plus base kept x s : refs base (kept ++ x) s -> refs (plus base kept) x s.
Proof. intros H n Hn. destruct (H n Hn) as [H1 H2]. rewrite cnt_app in H1. pose proof (cnt_nonneg kept n). unfold plus. lia. Qed.
Lemma keep_refs base kept x s : refs base x s -> refs (plus base kept) x (keep kept s) /\ same s (keep kept s).
Proof.
  intros H. enough (refs base (kept ++ x) (keep kept s) /\ same s (keep kept s)) as [? ?] by (split; [by apply refs_plus|done]).
  induction kept as [|n kept [IH Hs]]; [done|]. split; [by apply ref_inc_refs|done].
Qed.
Lemma refs_nil base x s : refs base x s -> refs (plus base []) x s.
Proof. apply (refs_plus base [] x). Qed.

(** The common shape of [vfs_unlink] and [vfs_mkdir], and what is kept. *)
Definition kept_in_parent (f : Z -> str -> Z * list Z) (path : str) (s : vst) : list Z :=
  match vfs_lookup_parent path s with Ok (0, dir, name, _) => (f dir name).2 | _ => [] end.

Lemma parent_op_balanced base s path (f : Z -> str -> Z * list Z) :
  refs base [] s -> cwd_ok s ->
  balanced (plus base (kept_in_parent f path s)) ('(ret, dir, name, s) ← vfs_lookup_parent path s;
    if negb (ret =? 0) then Ok (ret, s) else let '(ret, kept) := f dir name in s ← ref_dec dir (keep kept s); Ok (ret, s)).
Proof.
  intros H Hc. unfold kept_in_parent.
  destruct (lookup_parent_refs base [] s path H Hc) as (ret & node & name & s1 & -> & Hs & Hok & Hbad). rewrite res_bind_ok.
  destruct (Z.eqb_spec ret 0) as [->|Hr]; cbn [negb].
  - destruct (Hok eq_refl) as [Hnz H1]. destruct (f node name) as [ret kept]. cbn [snd].
    destruct (keep_refs base kept [node] s1 H1) as [H2 Hs2].
    destruct (ref_dec_refs _ [] _ node Hnz H2) as (s2 & -> & H3 & Hs3). rewrite res_bind_ok.
    eexists _, s2. split; [done|]. split; [done|]. eapply same_cwd; [|exact Hc]. eapply same_trans; [|exact Hs3]. by eapply same_trans.
  - exists ret, s1. split; [done|]. split; [|by eapply same_cwd]. destruct ret; [done|by apply refs_nil, Hbad..].
Qed.

(** What [vop_link] keeps. *)
Definition kept_by_link (old new : str) (s : vst) : list Z :=
  match vfs_lookup old s with
  | Ok (0, node, s) => kept_in_parent (fun dir name => vop_link dir name node) new s
  | _ => []
  end.

Lemma link_balanced base s old new :
  refs base [] s -> cwd_ok s -> balanced (plus base (kept_by_link old new s)) (vfs_link old new s).
Proof.
  intros H Hc. unfold vfs_link, kept_by_link, kept_in_parent.
  destruct (lookup_refs base [] s old H Hc) as (ret & node & s1 & -> & Hs & Hok & Hbad). rewrite res_bind_ok.
  destruct (Z.eqb_spec ret 0) as [->|Hr]; cbn [negb].
  2: { exists ret, s1. split; [done|]. split; [|by eapply same_cwd]. destruct ret; [done|by apply refs_nil, Hbad..]. }
  destruct (Hok eq_refl) as [Hnz H1]. pose proof (same_cwd _ _ Hs Hc) as Hc1.
  destruct (lookup_parent_refs base [node] s1 new H1 Hc1) as (ret & dir & name & s2 & -> & Hs2 & Hok2 & Hbad2). rewrite res_bind_ok.
  pose proof (same_cwd _ _ Hs2 Hc1) as Hc2. destruct (Z.eqb_spec ret 0) as [->|Hr]; cbn [negb].
  - destruct (Hok2 eq_refl) as [Hdz H2]. destruct (vop_link dir name node) as [ret kept]. cbn [snd].
    destruct (keep_refs base kept _ s2 H2) as [H3 Hs3].
    destruct (ref_dec_refs _ [node] _ dir Hdz H3) as (s4 & -> & H4 & Hs4). rewrite res_bind_ok.
    destruct (ref_dec_refs _ [] s4 node Hnz H4) as (s5 & -> & H5 & Hs5). rewrite res_bind_ok.
    eexists _, s5. split; [done|]. split; [done|]. eapply same_cwd; [|exact Hc2]. eapply same_trans; [exact Hs3|]. by eapply same_trans.
  - destruct (ref_dec_refs base [] s2 node Hnz (Hbad2 Hr)) as (s3 & -> & H3 & Hs3). rewrite res_bind_ok.
    eexists _, s3. split; [done|]. split; [|by eapply same_cwd]. destruct ret; [done|by apply refs_nil..].
Qed.

Lemma set_bootfs_balanced base s o : refs base [] s -> cwd_ok s -> balanced base (vfs_set_bootfs o s).
Proof.
  assert (Hch : forall s n, refs base [n] s -> cwd_ok s -> balanced base (s ← change_bootfs n s; Ok (0, s))).
  { intros s' n H Hc. unfold change_bootfs. pose proof (set_boot_refs base [] s' n H) as H1.
    destruct (drop_refs base [] _ _ H1) as (s2 & -> & H2 & Hs2). rewrite res_bind_ok. eexists _, s2. split; [done|]. split; [done|].
    by eapply (same_cwd (set_bootfs_node n s')). }
  intros H Hc. unfold vfs_set_bootfs. destruct o as [name|].
  2: { apply Hch; [by apply refs_zero|done]. }
  case_bool_decide; [|by eexists _, s].
  destruct (chdir_refs base s name H Hc) as (ret & s1 & -> & H1 & Hc1 & _). rewrite res_bind_ok.
  destruct (Z.eqb_spec ret 0) as [->|Hr]; cbn [negb]; [|by eexists _, s1].
  pose proof (curdir_refs base [] s1 H1) as Hg. destruct (vfs_get_curdir s1) as [[ret node] s2]. destruct Hg as [(Hs & Hok & Hbad) _].
  pose proof (same_cwd _ _ Hs Hc1) as Hc2. destruct (Z.eqb_spec ret 0) as [->|Hr]; cbn [negb].
  - destruct (Hok eq_refl) as [_ H2]. by apply Hch.
  - eexists _, s2. split; [done|]. split; [by apply Hbad|done].
Qed.

Lemma iobuf_move_total data m2b iob : exists r a d i, iobuf_move data (Z.of_nat (length data)) m2b iob = Ok (r, a, d, i).
Proof.
  unfold iobuf_move. rewrite move_len. destruct (Z.gtb_spec (Z.min (io_resid iob) (Z.of_nat (length data))) 0); [|by eexists _, _, _, _].
  destruct m2b; (rewrite iobuf_skip_ok by (cbn [poke io_resid]; lia)); rewrite res_bind_ok; by eexists _, _, _, _.
Qed.

Lemma getcwd_balanced base s iob :
  refs base [] s -> cwd_ok s -> (pwd s <> 0 -> exists d, d ∈ vdev_list s /\ dfs d = in_fs (pwd s)) -> balanced base (vfs_getcwd iob s).
Proof.
  intros H Hc Hdev. unfold vfs_getcwd. pose proof (curdir_refs base [] s H) as Hg. destruct (vfs_get_curdir s) as [[ret node] s1].
  destruct Hg as [((Hv & Hp & Hb) & Hok & Hbad) Hn]. pose proof (same_cwd s s1 (conj Hv (conj Hp Hb)) Hc) as Hc1.
  destruct (Z.eqb_spec ret 0) as [->|Hr]; cbn [negb].
  2: { exists (ret, iob), s1. split; [done|]. split; [by apply Hbad|done]. }
  destruct (Hok eq_refl) as [Hnz H1]. rewrite (Hn eq_refl) in *. pose proof (Hc Hnz) as Hfs.
  destruct (Z.eqb_spec (in_fs (pwd s)) 0); [done|]. cbn [negb kassert]. rewrite res_bind_ok. unfold vfs_get_devname.
  destruct (Z.eqb_spec (in_fs (pwd s)) 0); [done|]. cbn [negb kassert]. rewrite !res_bind_ok, Hv.
  destruct (Hdev Hnz) as (d & Hin & Hd).
  assert (Hfd : is_Some (find_dev (fun d => dfs d =? in_fs (pwd s)) (vdev_list s))).
  { clear -Hin Hd. induction (vdev_list s) as [|e l IH]; [by apply elem_of_nil in Hin|]. simpl. destruct (Z.eqb_spec (dfs e) (in_fs (pwd s))); [by eexists|].
    apply elem_of_cons in Hin as [->|Hin]; [done|by apply IH]. }
  destruct Hfd as [e ->]. cbn [fmap option_fmap option_map].
  destruct (iobuf_move_total (devname e) true iob) as (r1 & a1 & d1 & i1 & ->). rewrite res_bind_ok.
  assert (Hin2 : exists r i, (if negb (r1 =? 0) then Ok (r1, i1) else
     '(ret, _, _, iob) ← iobuf_move [COLON] 1 true i1; Ok (if negb (ret =? 0) then (ret, iob) else vop_namefile (pwd s) iob)) = Ok (r, i)).
  { destruct (r1 =? 0); cbn [negb]; [|by eexists _, _]. destruct (iobuf_move_total [COLON] true i1) as (r2 & a2 & d2 & i2 & Hm).
    change (Z.of_nat (length [COLON])) with 1 in Hm. rewrite Hm, res_bind_ok. destruct (r2 =? 0); cbn [negb]; [|by eexists _, _].
    destruct (vop_namefile (pwd s) i2). by eexists _, _. }
  destruct Hin2 as (r2 & i2 & ->). rewrite res_bind_ok.
  destruct (ref_dec_refs base [] s1 (pwd s) Hnz H1) as (s2 & -> & H2 & Hs2). rewrite res_bind_ok. exists (r2, i2), s2. split; [done|]. split; [done|].
  by eapply same_cwd.
Qed.

(** C21: the references of the path operations balance on every path, errors
    included.  Changing the directory, setting the boot file system and naming
    the directory end without a failed assertion and leave every inode with
    exactly the references of its other holders, of the working directory and
    of the boot file system.  Unlinking, making a directory and linking do the
    same up to the references that [vop_unlink], [vop_mkdir] and [vop_link] of
    the file system keep for themselves, and lose none of their own.
    ([vfs_open], which does lose references, is treated in FileTable.) *)
Theorem vfs_refs_balanced base s path path2 (fsname : option str) iob :
  refs base [] s -> cwd_ok s -> (pwd s <> 0 -> exists d, d ∈ vdev_list s /\ dfs d = in_fs (pwd s)) ->
  balanced base (vfs_chdir path s) /\ balanced base (vfs_set_bootfs fsname s) /\ balanced base (vfs_getcwd iob s) /\
  balanced (plus base (kept_in_parent vop_unlink path s)) (vfs_unlink path s) /\
  balanced (plus base (kept_in_parent vop_mkdir path s)) (vfs_mkdir path s) /\
  balanced (plus base (kept_by_link path path2 s)) (vfs_link path path2 s).
Proof.
  intros H Hc Hd. split_and!.
  - destruct (chdir_refs base s path H Hc) as (ret & s' & ? & ? & ? & _). by exists ret, s'.
  - by apply set_bootfs_balanced.
  - by apply getcwd_balanced.
  - by apply parent_op_balanced.
  - by apply parent_op_balanced.
  - by apply link_balanced.
Qed.

(** ** Lookup *)
Lemma find_dev_list name l :
  find_dev (fun d => str_eqb name (devname d)) l = snd <$> list_find (fun d => devname d = name) l.
Proof.
  induction l as [|d l IH]; [done|]. cbn [find_dev list_find]. unfold str_eqb at 1. destruct (decide (devname d = name)) as [E|E].
  - by rewrite bool_decide_true.
  - rewrite bool_decide_false by congruence. rewrite IH. by destruct (list_find _ l) as [[i x]|].
Qed.

(** [get_device] stops at the place the path names. *)
Lemma device_origin base s path : refs base [] s -> cwd_ok s ->
  exists ret node s', get_device path s = Ok (ret, node, rest (parse path), s') /\
    match origin (parse path) s with inl e => ret = e /\ e <> 0 | inr n => ret = 0 /\ node = n end.
Proof.
  intros H Hc. destruct (device_refs base [] s path H Hc) as (ret & node & sub & s' & E & _). rewrite get_device_parse in E |- *.
  destruct (parse path) as [sub'|sub'|sub'|name sub']; cbn [start_of origin rest] in *.
  - unfold vfs_get_curdir, get_cwd_nolock in *. case_decide as D; rewrite ?D in *; [by eexists _, _, _|].
    rewrite (proj2 (Z.eqb_neq _ _) D) in *. by eexists _, _, _.
  - unfold vfs_get_bootfs in *. case_decide as D; rewrite ?D in *; [by eexists _, _, _|].
    rewrite (proj2 (Z.eqb_neq _ _) D) in *. by eexists _, _, _.
  - unfold vfs_get_curdir, get_cwd_nolock in *. case_decide as D; rewrite ?D in *; [by eexists _, _, _|].
    rewrite (proj2 (Z.eqb_neq _ _) D) in *. cbn [negb] in *. change (negb (0 =? 0)) with false in *. cbv iota in *.
    apply res_bind_inv in E as (u & Ek & E). rewrite Ek, res_bind_ok. unfold fsop_get_root in *.
    apply res_bind_inv in E as (s3 & Ed & E). rewrite Ed, res_bind_ok. by eexists _, _, _.
  - unfold vfs_get_root in *. rewrite find_dev_list in *. destruct (list_find _ (vdev_list s)) as [[i d]|]; cbn [fmap option_fmap option_map snd] in *; [|by eexists _, _, _].
    case_decide as D; cbn [snd] in *.
    + rewrite (proj2 (Z.eqb_neq _ _) D) in *. cbn [negb] in *. unfold fsop_get_root in *.
      rewrite (proj2 (Z.eqb_neq _ _) (root_nz _ D)) in *. by eexists _, _, _.
    + rewrite D in *. change (negb (0 =? 0)) with false in *. cbv iota in *.
      destruct (mountable d); cbn [negb] in *; [by eexists _, _, _|]. case_decide as N.
      * rewrite N in *. by eexists _, _, _.
      * rewrite (proj2 (Z.eqb_neq _ _) N) in *. by eexists _, _, _.
Qed.

(** C25: path names.  [vfs_lookup] answers what the path means: it starts at
    the working directory, at the boot directory for [/p], at the root of the
    file system of the working directory for [:p], and for [d:p] at the root of
    the file system on the device [d] (or at the device itself when it cannot
    be mounted), and gives what the file system finds for the rest of the path
    there, or the error.  On success the caller holds exactly one more
    reference, to the inode returned, on failure none. *)
Theorem vfs_lookup_correct base s path :
  refs base [] s -> cwd_ok s ->
  exists ret node s', vfs_lookup path s = Ok (ret, node, s') /\ same s s' /\
    match resolve path s with
    | inl e => ret = e /\ e <> 0 /\ refs base [] s'
    | inr n => ret = 0 /\ node = n /\ n <> 0 /\ refs base [n] s'
    end.
Proof.
  intros H Hc. destruct (lookup_refs base [] s path H Hc) as (ret & node & s' & Hl & Hs & Hok & Hbad). exists ret, node, s'. split_and!; try done; try apply Hs.
  destruct (device_origin base s path H Hc) as (r0 & n0 & s0 & He & Ho). unfold vfs_lookup in Hl. rewrite He, res_bind_ok in Hl. unfold resolve.
  destruct (origin (parse path) s) as [e|n]; destruct Ho as [-> Ho].
  - rewrite (proj2 (Z.eqb_neq _ _) Ho) in Hl. cbn [negb] in Hl. simplify_eq. split_and!; [done|done|by apply Hbad].
  - subst n0. change (negb (0 =? 0)) with false in Hl. cbv iota in Hl. case_decide as D.
    + rewrite (bool_decide_true _ D) in Hl. cbn [negb] in Hl. simplify_eq. destruct (Hok eq_refl). by split_and!.
    + rewrite (bool_decide_false _ D) in Hl. cbn [negb] in Hl. destruct (vop_lookup n (rest (parse path))) as [r f].
      apply res_bind_inv in Hl as (s2 & _ & Hl). simplify_eq. case_decide as R.
      * subst ret. destruct (Hok eq_refl). by split_and!.
      * split_and!; [done|done|by apply Hbad].
Qed.
End balance.

(** ** Devices *)
Section devices.
Context `{FO : FsOps}.

Definition names (l : list vfs_dev_t) : list str := devname <$> l.

Lemma find_mount_some name l p d r : find_mount name l = Some (p, d, r) -> l = p ++ d :: r /\ mountable d = true /\ devname d = name.
Proof.
  revert p. induction l as [|e l IH]; intros p; simpl; [done|]. destruct (mountable e && str_eqb (devname e) name) eqn:He.
  - intros [= <- <- <-]. apply andb_true_iff in He as [? Hn]. unfold str_eqb in Hn. by apply bool_decide_eq_true in Hn.
  - destruct (find_mount name l) as [[[p' x] y]|]; simpl; [|done]. intros [= <- <- <-]. destruct (IH p' eq_refl) as (-> & ? & ?). done.
Qed.

Lemma find_mount_here name p d r :
  mountable d = true -> devname d = name -> name ∉ names p -> find_mount name (p ++ d :: r) = Some (p, d, r).
Proof.
  intros Hm Hn Hp. induction p as [|e p IH]; simpl.
  - rewrite Hm. unfold str_eqb. by rewrite bool_decide_true.
  - simpl in Hp. apply not_elem_of_cons in Hp as [He Hp]. unfold str_eqb. rewrite (bool_decide_false (devname e = name)) by congruence.
    rewrite andb_false_r, IH by done. done.
Qed.

Lemma find_dev_here name p d r :
  devname d = name -> name ∉ names p -> find_dev (fun e => str_eqb name (devname e)) (p ++ d :: r) = Some d.
Proof.
  intros Hn Hp. induction p as [|e p IH]; simpl.
  - unfold str_eqb. by rewrite bool_decide_true.
  - simpl in Hp. apply not_elem_of_cons in Hp as [He Hp]. unfold str_eqb. rewrite bool_decide_false by congruence. by apply IH.
Qed.

Lemma find_dev_other name p d d' r :
  devname d = devname d' -> name <> devname d ->
  find_dev (fun e => str_eqb name (devname e)) (p ++ d :: r) = find_dev (fun e => str_eqb name (devname e)) (p ++ d' :: r).
Proof.
  intros He Hn. induction p as [|e p IH]; simpl; [|by rewrite IH].
  unfold str_eqb. by rewrite !bool_decide_false by congruence.
Qed.

Lemma add_names mem isd name node fs mnt s ret s' :
  NoDup (names (vdev_list s)) -> vfs_do_add mem isd name node fs mnt s = Ok (ret, s') -> NoDup (names (vdev_list s')).
Proof.
  intros Hnd H. unfold vfs_do_add in H. apply res_bind_inv in H as (u & _ & H).
  destruct (Z.of_nat (length name) >? FS_MAX_DNAME_LEN); [by simplify_eq|]. destruct mem as [[] []]; cbn [negb fst snd] in H; try by simplify_eq.
  unfold check_devname_conflict in H. destruct (find_dev (fun d => str_eqb (devname d) name) (vdev_list s)) eqn:Hf; cbn [negb] in H; simplify_eq; [done|].
  simpl. apply NoDup_cons. split; [|done]. intros (d & Hd & Hin)%list_elem_of_fmap. clear -Hf Hd Hin.
  induction (vdev_list s) as [|e l IH]; [by apply elem_of_nil in Hin|]. simpl in Hf. unfold str_eqb in Hf. case_bool_decide; [done|].
  apply elem_of_cons in Hin as [->|Hin]; [congruence|by apply IH].
Qed.

(** mounting, with device names that differ: it succeeds exactly when the
    device is there, can be mounted and is not, and the mount function
    succeeds; then the name leads to the root of the new file system and every
    other name to where it did, names still differ, and unmounting restores
    the list of devices. *)
Theorem vfs_mount_correct s name f :
  NoDup (names (vdev_list s)) -> (forall n, (f n).1 = 0 -> (f n).2 <> 0 /\ fs_get_root (f n).2 <> 0 /\ fs_sync (f n).2 = 0 /\ fs_unmount (f n).2 = 0) ->
  exists ret s', vfs_mount name f s = Ok (ret, s') /\ NoDup (names (vdev_list s')) /\
    (ret <> 0 -> s' = s) /\
    (ret = 0 -> exists d, d ∈ vdev_list s /\ mountable d = true /\ devname d = name /\ dfs d = 0 /\
       let root := fs_get_root (f (devnode d)).2 in
       vfs_get_root name s' = (0, root, ref_inc root s') /\
       (forall other, other <> name -> find_dev (fun e => str_eqb other (devname e)) (vdev_list s') = find_dev (fun e => str_eqb other (devname e)) (vdev_list s)) /\
       vfs_unmount name s' = (0, s)).
Proof.
  intros Hnd Hf. unfold vfs_mount. destruct (find_mount name (vdev_list s)) as [[[p d] r]|] eqn:Hm; [|by exists (- E_NO_DEV), s].
  destruct (find_mount_some _ _ _ _ _ Hm) as (Hl & Hmt & Hn).
  assert (Hnp : name ∉ names p).
  { rewrite Hl in Hnd. unfold names in *. rewrite fmap_app in Hnd. apply NoDup_app in Hnd as (_ & Hd & _). intros Hin. apply (Hd _ Hin).
    rewrite fmap_cons. apply elem_of_cons. by left. }
  destruct (Z.eqb_spec (dfs d) 0) as [Hz|Hz]; cbn [negb]; [|by exists (- E_BUSY), s].
  destruct (f (devnode d)) as [ret fs] eqn:Hfd. destruct (Z.eqb_spec ret 0) as [->|Hr]; [|by exists ret, s].
  destruct (Hf (devnode d)) as (Hfs & Hroot & Hsync & Hun); [by rewrite Hfd|]. rewrite Hfd in Hfs, Hroot, Hsync, Hun. cbn [snd] in *.
  destruct (Z.eqb_spec fs 0) as [|_]; [done|]. cbn [negb kassert]. rewrite res_bind_ok.
  set (d' := Vdev (devname d) (devnode d) fs (mountable d)). eexists 0, _. split; [reflexivity|]. split_and!; try done.
  { cbn [set_vdevs vdev_list]. rewrite Hl in Hnd. unfold names in *. rewrite fmap_app, fmap_cons in *. done. }
  intros _. exists d. split_and!; try done; [rewrite Hl; apply elem_of_app; right; apply elem_of_cons; by left| | |].
  - rewrite Hfd. unfold vfs_get_root. cbn [set_vdevs vdev_list]. rewrite (find_dev_here name p d' r) by done. cbn [d' dfs].
    destruct (Z.eqb_spec fs 0) as [|_]; [done|]. cbn [negb]. unfold fsop_get_root. cbn [snd]. destruct (Z.eqb_spec (fs_get_root fs) 0); done.
  - intros other Ho. cbn [set_vdevs vdev_list]. rewrite Hl. apply find_dev_other; [done|]. cbn [d' devname]. congruence.
  - unfold vfs_unmount. cbn [set_vdevs vdev_list]. rewrite (find_mount_here name p d' r) by done. cbn [d' dfs].
    destruct (Z.eqb_spec fs 0) as [|_]; [done|]. unfold unmount_dev. cbn [d' dfs]. rewrite Hsync, Hun. change (negb (0 =? 0)) with false. cbv iota.
    f_equal. unfold set_vdevs. cbn [nodes bootfs_node pwd devname devnode mountable]. destruct s as [v l b w]. cbn [vdev_list nodes bootfs_node pwd] in *. subst l.
    f_equal. f_equal. destruct d; simpl in *; subst; done.
Qed.
End devices.

(** ** A small system: one disk with one file system *)
Module demo.
Definition ops : FsOps := {|
  in_fs n := 7;
  fs_get_root fs := 20;
  vop_lookup n p := if n =? 20 then (0, 21) else (- E_NOENT, 0);
  vop_lookup_parent n p := if n =? 20 then (0, 20, p) else (- E_NOENT, 0, []);
  vop_gettype n := (0, S_IFDIR);
  vop_unlink n p := (0, [21]);
  vop_link n p m := (0, []);
  vop_mkdir n p := (0, []);
  vop_namefile n i := (0, i);
  fs_sync fs := 0;
  fs_unmount fs := 0
|}.
#[global] Existing Instance ops.
#[global] Instance laws : FsLaws.
Proof.
  split; simpl.
  - done.
  - intros n p r. by destruct (n =? 20); intros [= <-].
  - intros n p r e. by destruct (n =? 20); intros [= <- <-].
  - done.
Qed.

Definition disk : str := [100; 105; 115; 107; 48].
Definition sys : vst := Vst (Vfs {[ 20 := Inode 3 0 ]} []) [Vdev disk 5 7 true] 20 20.
Definition base (n : Z) : Z := if n =? 20 then 1 else 0.

Lemma sys_refs : refs base [] sys.
Proof.
  intros n Hn. unfold rc, opn, held, one, base, inode_at, sys. cbn [nodes pwd bootfs_node cnt inodes].
  destruct (Z.eqb_spec n 20) as [->|Hne].
  - rewrite lookup_singleton_eq. simpl. lia.
  - rewrite lookup_singleton_ne by done. destruct (Z.eqb_spec 20 n); [congruence|]. simpl. lia.
Qed.
End demo.
#[local] Existing Instance demo.ops.

Lemma vfs_refs_balanced_witness :
  kept_in_parent vop_unlink (demo.disk ++ [58; 47; 98]) demo.sys = [21] /\
  balanced demo.base (vfs_chdir (demo.disk ++ [58; 47; 98]) demo.sys) /\
  balanced (plus demo.base (kept_in_parent vop_unlink (demo.disk ++ [58; 47; 98]) demo.sys)) (vfs_unlink (demo.disk ++ [58; 47; 98]) demo.sys).
Proof.
  destruct (vfs_refs_balanced demo.base demo.sys (demo.disk ++ [58; 47; 98]) [] None (iobuf_init [] 0 0)) as (H1 & _ & _ & H2 & _); [exact demo.sys_refs|done| |].
  - intros _. exists (Vdev demo.disk 5 7 true). split; [by apply list_elem_of_singleton|done].
  - split_and!; [vm_compute; reflexivity|exact H1|exact H2].
Defined.

Lemma vfs_lookup_correct_witness :
  parse (demo.disk ++ [58; 47; 98]) = Dev demo.disk [98] /\ resolve (demo.disk ++ [58; 47; 98]) demo.sys = inr 21 /\
  exists ret node s', vfs_lookup (demo.disk ++ [58; 47; 98]) demo.sys = Ok (ret, node, s') /\ same demo.sys s' /\
    match resolve (demo.disk ++ [58; 47; 98]) demo.sys with
    | inl e => ret = e /\ e <> 0 /\ refs demo.base [] s'
    | inr n => ret = 0 /\ node = n /\ n <> 0 /\ refs demo.base [n] s'
    end.
Proof.
  split; [done|]. split; [vm_compute; reflexivity|].
  apply (vfs_lookup_correct demo.base demo.sys (demo.disk ++ [58; 47; 98])); [exact demo.sys_refs|done].
Defined.

Lemma vfs_mount_correct_witness :
  exists ret s', vfs_mount demo.disk (fun _ => (0, 7)) (Vst (Vfs ∅ []) [Vdev demo.disk 5 0 true] 0 0) = Ok (ret, s') /\ NoDup (names (vdev_list s')).
Proof.
  destruct (vfs_mount_correct (Vst (Vfs ∅ []) [Vdev demo.disk 5 0 true] 0 0) demo.disk (fun _ => (0, 7))) as (ret & s' & ? & ? & _).
  - apply NoDup_singleton.
  - done.
  - by exists ret, s'.
Defined.
