(* ===== verification/Sysfile.v ===== *)
(** * kern/fs/sysfile.c: the system calls on files

    The entry points of the file system for user programs, over the table of
    open files (FileTable), the path layer (Vfs), the user access checks and
    copies (Vmm) and the inode operations of the file systems, which are an
    interface.  [file_read] and the like of file.c, which FileTable splits at
    their call into the file system, are put together here: a call runs
    without other threads of the process touching the same table.  Kernel
    memory comes from a supply of [kmalloc] results; the buffers a call holds
    are recorded. *)
From S2P Require Import Prelude Libs Vmm IoBuf FileTable Vfs.

Definition E_INVAL : Z := 3.
Definition E_NO_MEM : Z := 4.
Definition E_UNIMP : Z := 20.
Definition IOBUF_SIZE : Z := 4096.
Definition FS_MAX_FPATH_LEN : Z := 4095.
Definition FS_MAX_FNAME_LEN : Z := 255.
(** [sizeof(struct stat)], [sizeof(struct dirent)]. *)
Definition STAT_SIZE : Z := 16.
Definition DIRENT_SIZE : Z := 4 + (FS_MAX_FNAME_LEN + 1).

(** The bytes at [a], and [l] stored at [a]. *)
Definition load (m : mem) (a n : Z) : list Z := (fun k => m (a + k)) <$> seqZ 0 n.
Definition store (m : mem) (a : Z) (l : list Z) : mem :=
  fun b => if (a <=? b) && (b <? a + Z.of_nat (length l)) then default 0 (l !! Z.to_nat (b - a)) else m b.

(** The characters of a C string, up to [n] of them. *)
Fixpoint cstring (n : nat) (m : mem) (a : Z) : list Z :=
  match n with O => [] | S n => if m a =? 0 then [] else m a :: cstring n m (a + 1) end.

Definition le32_at (m : mem) (a : Z) : Z := m a + 2 ^ 8 * m (a + 1) + 2 ^ 16 * m (a + 2) + 2 ^ 24 * m (a + 3).
Definition le32_bytes (z : Z) : list Z := (fun k => Z.shiftr (u32 z) (8 * k) mod 256) <$> [0; 1; 2; 3].

(** ** The inode operations of the file systems *)
Class InodeOps (D : Type) := {
  vop_read : Z -> iobuf -> D -> res (Z * iobuf * D);
  vop_write : Z -> iobuf -> D -> res (Z * iobuf * D);
  vop_fstat : Z -> D -> res (Z * list Z);       (* the result, the four fields *)
  vop_fsync : Z -> D -> res (Z * D);
  vop_tryseek : Z -> Z -> D -> res (Z * D);
  vop_getdirentry : Z -> iobuf -> D -> res (Z * iobuf);
  open_answers : list Z -> D -> open_env        (* what an open of a path meets *)
}.

(** [um]: [current->mm] (none for a kernel thread); [supply]: what the next
    calls of [kmalloc] return; [held]: the buffers not yet freed. *)
Record sys (D : Type) := Sys {
  ft : fstate; vdevs : list vfs_dev_t; boot : Z; cwd : Z;
  um : option vmst; ram : mem; dsk : D; supply : list (option Z); bufs : list Z
}.
Arguments Sys {D}.
Arguments ft {D}. Arguments vdevs {D}. Arguments boot {D}. Arguments cwd {D}. Arguments um {D}. Arguments ram {D}.
Arguments dsk {D}. Arguments supply {D}. Arguments bufs {D}.

Section sysfile.
Context {D : Type} `{IO : InodeOps D} `{FO : FsOps}.
Implicit Type s : sys D.

Definition set_ft (f : fstate) s : sys D := Sys f (vdevs s) (boot s) (cwd s) (um s) (ram s) (dsk s) (supply s) (bufs s).
Definition set_user (u : option vmst) (m : mem) s : sys D := Sys (ft s) (vdevs s) (boot s) (cwd s) u m (dsk s) (supply s) (bufs s).
Definition set_ram (m : mem) s : sys D := set_user (um s) m s.
Definition set_dsk (d : D) s : sys D := Sys (ft s) (vdevs s) (boot s) (cwd s) (um s) (ram s) d (supply s) (bufs s).
Definition set_heap (u : list (option Z)) (b : list Z) s : sys D := Sys (ft s) (vdevs s) (boot s) (cwd s) (um s) (ram s) (dsk s) u b.

Definition kmalloc s : Z * sys D :=
  match supply s with
  | Some a :: u => (a, set_heap u (a :: bufs s) s)
  | None :: u => (0, set_heap u (bufs s) s)
  | [] => (0, s)
  end.
Definition kfree (a : Z) s : sys D := set_heap (supply s) (filter (fun b => b <> a) (bufs s)) s.

(** The path layer works on the inode counts of the file table. *)
Definition on_vfs {A} (op : vst -> res (A * vst)) s : res (A * sys D) :=
  '(r, v) ← op (Vst (fv (ft s)) (vdevs s) (boot s) (cwd s));
  Ok (r, Sys (set_fv (nodes v) (ft s)) (vdev_list v) (bootfs_node v) (pwd v) (um s) (ram s) (dsk s) (supply s) (bufs s)).

Definition to_user (dst src len : Z) s : res (bool * sys D) :=
  '(ok, m, u) ← copy_to_user (um s) (ram s) dst src len; Ok (ok, set_user u m s).
Definition from_user (dst src len : Z) (writable : bool) s : res (bool * sys D) :=
  '(ok, m, u) ← copy_from_user (um s) (ram s) dst src len writable; Ok (ok, set_user u m s).

(** ** file.c, with the inode operations called *)

(** The result, the bytes moved. *)
Definition file_read (n base len : Z) s : res (Z * Z * sys D) :=
  '(e, f) ← file_read_enter n (ft s);
  match e with
  | inl ret => Ok (ret, 0, set_ft f s)
  | inr i =>
      let iob := iobuf_init (load (ram s) base len) len (pos (ent f i)) in
      '(ret, iob, d) ← vop_read (node (ent f i)) iob (dsk s);
      let copied := iobuf_used iob in
      f ← file_read_leave i copied f;
      Ok (ret, copied, set_ft f (set_dsk d (set_ram (store (ram s) base (io_buf iob)) s)))
  end.

Definition file_write (n base len : Z) s : res (Z * Z * sys D) :=
  '(e, f) ← file_write_enter n (ft s);
  match e with
  | inl ret => Ok (ret, 0, set_ft f s)
  | inr i =>
      let iob := iobuf_init (load (ram s) base len) len (pos (ent f i)) in
      '(ret, iob, d) ← vop_write (node (ent f i)) iob (dsk s);
      let copied := iobuf_used iob in
      f ← file_write_leave i copied f;
      Ok (ret, copied, set_ft f (set_dsk d s))
  end.

Definition file_seek (n p whence : Z) s : res (Z * sys D) :=
  '(e, f) ← file_seek_enter n (ft s);
  match e with
  | inl ret => Ok (ret, set_ft f s)
  | inr i =>
      let p := seek_base i p whence f in
      '(fstat, st) ← (if whence =? LSEEK_END then vop_fstat (node (ent f i)) (dsk s) else Ok (0, []));
      let size := default 0 (st !! 3%nat) in
      let p' := if (whence =? LSEEK_END) && (fstat =? 0) then i32 (p + size) else p in
      let known := (whence =? LSEEK_SET) || (whence =? LSEEK_CUR) || (whence =? LSEEK_END) in
      '(tryseek, d) ← (if known && (negb (whence =? LSEEK_END) || (fstat =? 0)) then vop_tryseek (node (ent f i)) p' (dsk s) else Ok (0, dsk s));
      '(ret, f) ← file_seek_leave i p whence fstat size tryseek f;
      Ok (ret, set_ft f (set_dsk d s))
  end.

(** The four fields of the [struct stat] go to [stat]. *)
Definition file_fstat (n stat : Z) s : res (Z * sys D) :=
  '(e, f) ← file_fstat_enter n (ft s);
  match e with
  | inl ret => Ok (ret, set_ft f s)
  | inr i =>
      '(ret, st) ← vop_fstat (node (ent f i)) (dsk s);
      let m := if ret =? 0 then store (ram s) stat (concat (le32_bytes <$> st)) else ram s in
      f ← file_fstat_leave i f;
      Ok (ret, set_ft f (set_ram m s))
  end.

Definition file_fsync (n : Z) s : res (Z * sys D) :=
  '(e, f) ← file_fsync_enter n (ft s);
  match e with
  | inl ret => Ok (ret, set_ft f s)
  | inr i =>
      '(ret, d) ← vop_fsync (node (ent f i)) (dsk s);
      f ← file_fstat_leave i f;
      Ok (ret, set_ft f (set_dsk d s))
  end.

Definition file_getdirentry (n direntp : Z) s : res (Z * sys D) :=
  '(e, f) ← file_getdirentry_enter n (ft s);
  match e with
  | inl ret => Ok (ret, set_ft f s)
  | inr i =>
      let offset := i32 (le32_at (ram s) direntp) in
      let iob := iobuf_init (load (ram s) (direntp + 4) (FS_MAX_FNAME_LEN + 1)) (FS_MAX_FNAME_LEN + 1) offset in
      '(ret, iob) ← vop_getdirentry (node (ent f i)) iob (dsk s);
      let m := store (ram s) (direntp + 4) (io_buf iob) in
      let m := if ret =? 0 then store m direntp (le32_bytes (offset + iobuf_used iob)) else m in
      f ← file_fstat_leave i f;
      Ok (ret, set_ft f (set_ram m s))
  end.

(** ** sysfile.c *)

(** The result and the buffer; a path has at most two page pieces. *)
Definition copy_path (from : Z) s : res (Z * Z * sys D) :=
  let '(buffer, s) := kmalloc s in
  if buffer =? 0 then Ok (- E_NO_MEM, 0, s)
  else
    '(ok, m, u) ← copy_string 3 (um s) (ram s) buffer from (FS_MAX_FPATH_LEN + 1);
    let s := set_user u m s in
    if negb ok then Ok (- E_INVAL, 0, kfree buffer s) else Ok (0, buffer, s).

Definition path_at (buffer : Z) s : list Z := cstring (Z.to_nat (FS_MAX_FPATH_LEN + 1)) (ram s) buffer.

Definition sysfile_open (__path open_flags : Z) s : res (Z * sys D) :=
  '(ret, path, s) ← copy_path __path s;
  if negb (ret =? 0) then Ok (ret, s)
  else
    '(ret, f) ← file_open (open_answers (path_at path s) (dsk s)) open_flags (ft s);
    Ok (ret, kfree path (set_ft f s)).

Definition sysfile_close (n : Z) s : res (Z * sys D) := '(ret, f) ← file_close n (ft s); Ok (ret, set_ft f s).

(** [ret] and [copied] at the end of the loop of [sysfile_read]. *)
Fixpoint read_loop (fuel : nat) (n buffer base len copied : Z) s : res (Z * Z * sys D) :=
  match fuel with
  | O => Spin
  | S fuel =>
      if len =? 0 then Ok (0, copied, s)
      else
        let alen := if IOBUF_SIZE >? len then len else IOBUF_SIZE in
        '(ret, alen, s) ← file_read n buffer alen s;
        if negb (alen =? 0) then
          '(ok, s) ← to_user base buffer alen s;
          if negb ok then Ok (if ret =? 0 then - E_INVAL else ret, copied, s)
          else
            _ ← kassert (alen <=? len);
            if negb (ret =? 0) then Ok (ret, copied + alen, s)
            else read_loop fuel n buffer (u32 (base + alen)) (len - alen) (copied + alen) s
        else Ok (ret, copied, s)
  end.

Definition sysfile_read (n base len : Z) s : res (Z * sys D) :=
  if len =? 0 then Ok (0, s)
  else
    ok ← file_testfd n true false (ft s);
    if negb ok then Ok (- E_INVAL, s)
    else
      let '(buffer, s) := kmalloc s in
      if buffer =? 0 then Ok (- E_NO_MEM, s)
      else
        '(ret, copied, s) ← read_loop (S (Z.to_nat len)) n buffer base len 0 s;
        let s := kfree buffer s in
        Ok (if negb (copied =? 0) then i32 copied else ret, s).

Fixpoint write_loop (fuel : nat) (n buffer base len copied : Z) s : res (Z * Z * sys D) :=
  match fuel with
  | O => Spin
  | S fuel =>
      if len =? 0 then Ok (0, copied, s)
      else
        let alen := if IOBUF_SIZE >? len then len else IOBUF_SIZE in
        '(ok, s) ← from_user buffer base alen false s;
        if negb ok then Ok (- E_INVAL, copied, s)
        else
          '(ret, alen, s) ← file_write n buffer alen s;
          if negb (alen =? 0) then
            _ ← kassert (alen <=? len);
            if negb (ret =? 0) then Ok (ret, copied + alen, s)
            else write_loop fuel n buffer (u32 (base + alen)) (len - alen) (copied + alen) s
          else Ok (ret, copied, s)
  end.

Definition sysfile_write (n base len : Z) s : res (Z * sys D) :=
  if len =? 0 then Ok (0, s)
  else
    ok ← file_testfd n false true (ft s);
    if negb ok then Ok (- E_INVAL, s)
    else
      let '(buffer, s) := kmalloc s in
      if buffer =? 0 then Ok (- E_NO_MEM, s)
      else
        '(ret, copied, s) ← write_loop (S (Z.to_nat len)) n buffer base len 0 s;
        let s := kfree buffer s in
        Ok (if negb (copied =? 0) then i32 copied else ret, s).

Definition sysfile_seek (n p whence : Z) s : res (Z * sys D) := file_seek n p whence s.

(** [local]: the address of the kernel's own [struct stat]. *)
Definition sysfile_fstat (local n __stat : Z) s : res (Z * sys D) :=
  '(ret, s) ← file_fstat n local s;
  if negb (ret =? 0) then Ok (ret, s)
  else '(ok, s) ← to_user __stat local STAT_SIZE s; Ok (if negb ok then - E_INVAL else 0, s).

Definition sysfile_fsync (n : Z) s : res (Z * sys D) := file_fsync n s.

(** The calls that hand one path to the path layer. *)
Definition with_path (op : list Z -> vst -> res (Z * vst)) (__path : Z) s : res (Z * sys D) :=
  '(ret, path, s) ← copy_path __path s;
  if negb (ret =? 0) then Ok (ret, s)
  else '(ret, s) ← on_vfs (op (path_at path s)) s; Ok (ret, kfree path s).
Definition sysfile_chdir : Z -> sys D -> res (Z * sys D) := with_path vfs_chdir.
Definition sysfile_mkdir : Z -> sys D -> res (Z * sys D) := with_path vfs_mkdir.
Definition sysfile_unlink : Z -> sys D -> res (Z * sys D) := with_path vfs_unlink.

Definition with_paths (op : list Z -> list Z -> vst -> res (Z * vst)) (__path1 __path2 : Z) s : res (Z * sys D) :=
  '(ret, old_path, s) ← copy_path __path1 s;
  if negb (ret =? 0) then Ok (ret, s)
  else
    '(ret, new_path, s) ← copy_path __path2 s;
    if negb (ret =? 0) then Ok (ret, kfree old_path s)
    else
      '(ret, s) ← on_vfs (op (path_at old_path s) (path_at new_path s)) s;
      Ok (ret, kfree new_path (kfree old_path s)).
Definition sysfile_link : Z -> Z -> sys D -> res (Z * sys D) := with_paths vfs_link.
Definition sysfile_rename : Z -> Z -> sys D -> res (Z * sys D) := with_paths (fun a b v => Ok (vfs_rename a b, v)).

Definition sysfile_getcwd (buf len : Z) s : res (Z * sys D) :=
  if len =? 0 then Ok (- E_INVAL, s)
  else
    '(ok, u) ← user_mem_check (um s) buf len true;
    let s := set_user u (ram s) s in
    if negb ok then Ok (- E_INVAL, s)
    else
      '(r, s) ← on_vfs (fun v => '(ret, iob, v) ← vfs_getcwd (iobuf_init (load (ram s) buf len) len 0) v; Ok (ret, iob, v)) s;
      Ok (r.1, set_ram (store (ram s) buf (io_buf r.2)) s).

Definition sysfile_getdirentry (n __direntp : Z) s : res (Z * sys D) :=
  let '(direntp, s) := kmalloc s in
  if direntp =? 0 then Ok (- E_NO_MEM, s)
  else
    '(ok, s) ← from_user direntp __direntp 4 true s;
    if negb ok then Ok (- E_INVAL, kfree direntp s)
    else
      '(ret, s) ← file_getdirentry n direntp s;
      if negb (ret =? 0) then Ok (ret, kfree direntp s)
      else '(ok, s) ← to_user __direntp direntp DIRENT_SIZE s; Ok (if negb ok then - E_INVAL else 0, kfree direntp s).

Definition sysfile_dup (fd1 fd2 : Z) s : res (Z * sys D) := '(ret, f) ← file_dup fd1 fd2 (ft s); Ok (ret, set_ft f s).
Definition sysfile_pipe (fd_store : Z) s : res (Z * sys D) := Ok (- E_UNIMP, s).
Definition sysfile_mkfifo (name open_flags : Z) s : res (Z * sys D) := Ok (- E_UNIMP, s).
End sysfile.

(** ** The contract of regular files

    [holds d n b cap]: inode [n] is a regular file with the bytes [b] that may
    grow to [cap] bytes.  Positions stay below [limit]. *)
Class InodeLaws (D : Type) `{InodeOps D} := {
  holds : D -> Z -> list Z -> Z -> Prop;
  limit : Z;
  limit_range : 0 < limit < 2 ^ 31;
  read_law d n b cap iob :
    holds d n b cap -> iob_ok iob -> 0 < io_resid iob -> 0 <= io_offset iob -> io_offset iob + io_resid iob < limit ->
    let k := Z.max 0 (Z.min (io_resid iob) (Z.of_nat (length b) - io_offset iob)) in
    vop_read n iob d = Ok (0, moved k (poke (take (Z.to_nat k) (drop (Z.to_nat (io_offset iob)) b)) iob), d);
  write_law d n b cap iob :
    holds d n b cap -> iob_ok iob -> 0 < io_resid iob -> 0 <= io_offset iob <= Z.of_nat (length b) ->
    io_offset iob + io_resid iob <= cap ->
    exists d', vop_write n iob d = Ok (0, moved (io_resid iob) iob, d') /\
      holds d' n (take (Z.to_nat (io_offset iob)) b ++ peek (io_resid iob) iob ++ drop (Z.to_nat (io_offset iob + io_resid iob)) b) cap;
  seek_law d n b cap p : holds d n b cap -> 0 <= p <= Z.of_nat (length b) -> vop_tryseek n p d = Ok (0, d);
  cap_limit d n b cap : holds d n b cap -> Z.of_nat (length b) <= cap < limit
}.

(** ** Memory *)
Lemma length_load m a n : Z.of_nat (length (load m a n)) = Z.max 0 n.
Proof. unfold load. rewrite length_fmap, length_seqZ. lia. Qed.

Lemma load_ext m m' a n : (forall k, 0 <= k < n -> m (a + k) = m' (a + k)) -> load m a n = load m' a n.
Proof. intros H. unfold load. apply list_fmap_ext. intros i k Hk. apply lookup_seqZ in Hk as [-> ?]. apply H. lia. Qed.

Lemma load_shift m m' a a' n : (forall k, 0 <= k < n -> m (a + k) = m' (a' + k)) -> load m a n = load m' a' n.
Proof. intros H. unfold load. apply list_fmap_ext. intros i k Hk. apply lookup_seqZ in Hk as [-> ?]. apply H. lia. Qed.

Lemma load_app m a n k : 0 <= n -> 0 <= k -> load m a (n + k) = load m a n ++ load m (a + n) k.
Proof.
  intros Hn Hk. unfold load. rewrite (seqZ_app 0 n k) by done. rewrite fmap_app. f_equal.
  rewrite <- (Z.add_0_r (0 + n)), <- fmap_add_seqZ, <- list_fmap_compose. apply list_fmap_ext. intros i x _. simpl. f_equal. lia.
Qed.

Lemma lookup_load m a n i : 0 <= Z.of_nat i < n -> load m a n !! i = Some (m (a + Z.of_nat i)).
Proof. intros H. unfold load. rewrite list_lookup_fmap, lookup_seqZ_lt by lia. done. Qed.

Lemma load_store m a l : load (store m a l) a (Z.of_nat (length l)) = l.
Proof.
  apply list_eq_same_length with (length l); [done|pose proof (length_load (store m a l) a (Z.of_nat (length l))); lia|].
  intros i x y Hi. rewrite lookup_load by lia. intros Hx Hy. simplify_eq. unfold store.
  replace (a + Z.of_nat i - a) with (Z.of_nat i) by lia. rewrite Nat2Z.id, Hy.
  destruct (Z.leb_spec a (a + Z.of_nat i)), (Z.ltb_spec (a + Z.of_nat i) (a + Z.of_nat (length l))); simpl; lia || done.
Qed.

Lemma store_other m a l b : b < a \/ a + Z.of_nat (length l) <= b -> store m a l b = m b.
Proof. intros H. unfold store. destruct (Z.leb_spec a b), (Z.ltb_spec b (a + Z.of_nat (length l))); simpl; try done; lia. Qed.

Lemma load_take m a n k : 0 <= k <= n -> take (Z.to_nat k) (load m a n) = load m a k.
Proof.
  intros H. replace n with (k + (n - k)) by lia. rewrite load_app by lia. rewrite take_app_length'; [done|].
  pose proof (length_load m a k). lia.
Qed.

(** A copy between memory of the user and a buffer of the kernel. *)
Lemma memcpy_load m dst src n :
  0 <= n -> dst + n <= src \/ src + n <= dst ->
  load (memcpy m dst src n) dst n = load m src n /\ (forall b, b < dst \/ dst + n <= b -> memcpy m dst src n b = m b).
Proof.
  intros Hn Hd. pose proof (memcpy_asm_spec m dst src n Hn ltac:(lia)) as Hc. unfold copied in Hc. unfold memcpy. split.
  - apply load_shift. intros k Hk. rewrite Hc. destruct (Z.leb_spec dst (dst + k)), (Z.ltb_spec (dst + k) (dst + n)); simpl; try lia. f_equal. lia.
  - intros b Hb. rewrite Hc. destruct (Z.leb_spec dst b), (Z.ltb_spec b (dst + n)); simpl; lia || done.
Qed.

(** ** An open file *)

(** Descriptor [i] is open on inode [n] at position [p]. *)
Record opened (f : fstate) (i n p : Z) (r w : bool) : Prop := {
  op_range : testfd i = true;
  op_tab : (Z.to_nat i < length (tab f))%nat;
  op_files : 0 < files_count f;
  op_ent : exists c, 1 <= c /\ ent f i = File FD_OPENED r w i p n c;
  op_node : inode_check n (fv f) = Ok tt
}.

Definition at_pos (i p : Z) (f : fstate) : fstate := set_ent i (set_pos p (ent f i)) f.

Lemma ent_set_ent f i x : (Z.to_nat i < length (tab f))%nat -> ent (set_ent i x f) i = x.
Proof. intros H. unfold ent, set_ent. simpl. by rewrite list_lookup_insert_eq. Qed.

Lemma set_ent_twice f i x y : set_ent i x (set_ent i y f) = set_ent i x f.
Proof. unfold set_ent. simpl. by rewrite list_insert_insert_eq. Qed.

Lemma at_pos_opened f i n p p' r w : opened f i n p r w -> opened (at_pos i p' f) i n p' r w.
Proof.
  intros []. destruct op_ent0 as (c & Hc & He). constructor; try done; unfold at_pos.
  - unfold set_ent. simpl. by rewrite length_insert.
  - exists c. split; [done|]. by rewrite ent_set_ent, He.
Qed.

Lemma at_pos_twice f i n p p' p'' r w : opened f i n p r w -> at_pos i p'' (at_pos i p' f) = at_pos i p'' f.
Proof. intros []. unfold at_pos. by rewrite ent_set_ent, set_ent_twice. Qed.

Lemma at_pos_same f i n p r w : opened f i n p r w -> at_pos i p f = f.
Proof.
  intros []. destruct op_ent0 as (c & _ & He). unfold at_pos, set_ent. rewrite He. unfold set_pos. cbn [status readable writable fd node fcount]. rewrite <- He.
  destruct f as [v t k]. cbn [fv tab files_count]. f_equal. unfold ent. cbn [tab]. apply list_insert_id.
  cbn [tab] in op_tab0. destruct (lookup_lt_is_Some_2 t (Z.to_nat i) op_tab0) as [x ->]. done.
Qed.

Lemma enter_leave allowed f i n p r w :
  opened f i n p r w -> allowed (ent f i) = true ->
  exists f1, file_enter allowed i f = Ok (inr i, f1) /\ node (ent f1 i) = n /\ pos (ent f1 i) = p /\
    (forall k, file_read_leave i k f1 = Ok (at_pos i (i32 (p + k)) f)) /\ (forall q, fd_array_release i (at_pos i q f1) = Ok (at_pos i q f)).
Proof.
  intros [] Ha. destruct op_ent0 as (c & Hc & He). unfold file_enter, fd2file, get_fd_array. rewrite op_range0, kassert_true by (by apply Z.ltb_lt).
  rewrite He in Ha. cbn [mbind res_bind]. rewrite He. unfold is_status. cbn [status fd]. rewrite bool_decide_true, Z.eqb_refl by done.
  cbn [andb negb mbind res_bind]. rewrite He, Ha. cbn [negb].
  unfold fd_array_acquire. rewrite He. unfold is_status. cbn [status kassert mbind res_bind]. rewrite bool_decide_true by done. cbn [kassert mbind res_bind].
  set (f1 := set_ent i (fopen_count_inc (File FD_OPENED r w i p n c)) f).
  assert (Hf1 : ent f1 i = File FD_OPENED r w i p n (c + 1)) by (unfold f1; by rewrite ent_set_ent).
  assert (Ht1 : (Z.to_nat i < length (tab f1))%nat) by (unfold f1, set_ent; simpl; by rewrite length_insert).
  rewrite Hf1. cbn [node]. change (fv f1) with (fv f). rewrite op_node0. cbn [mbind res_bind]. exists f1. rewrite !Hf1. cbn [node pos].
  assert (Hrel : forall q, fd_array_release i (set_ent i (File FD_OPENED r w i q n (c + 1)) f1) = Ok (at_pos i q f)).
  { intros q. unfold fd_array_release. rewrite (ent_set_ent f1) by done. unfold is_status. cbn [status fcount]. rewrite bool_decide_true by done. cbn [orb kassert mbind res_bind].
    rewrite kassert_true by (apply Z.ltb_lt; lia). rewrite res_bind_ok. unfold fopen_count_dec. cbn [fcount]. unfold set_fcount. cbn [status readable writable fd pos node fcount].
    rewrite set_ent_twice, ent_set_ent by done. cbn [fcount]. destruct (Z.eqb_spec (c + 1 - 1) 0); [lia|]. f_equal. unfold f1, at_pos. rewrite set_ent_twice, He.
    unfold set_pos. cbn [status readable writable fd pos node fcount]. do 2 f_equal. lia. }
  split_and!; try done.
  - intros k. unfold file_read_leave. rewrite Hf1. unfold is_status. cbn [status pos]. rewrite bool_decide_true by done. apply Hrel.
  - intros q. unfold at_pos. rewrite Hf1. apply Hrel.
Qed.

(** ** Access to the memory of the user *)

(** The whole range may be read (or written) by the process. *)
Record user_range (l : list (Z * vma_struct)) (base len : Z) (write : bool) : Prop := {
  ur_pos : Forall (fun v => 0 <= vm_start v) l.*2;
  ur_user : USERBASE <= base /\ base + len <= USERTOP;
  ur_all : forall a, base <= a < base + len -> exists v, v ∈ l.*2 /\ may_access v a write
}.

Lemma user_range_sub l base len write base' len' :
  user_range l base len write -> base <= base' -> base' + len' <= base + len -> user_range l base' len' write.
Proof. intros [] H1 H2. constructor; [done|lia|]. intros a Ha. apply ur_all0. lia. Qed.

(** What [user_mem_check] lets through: a range of the process, or, without
    an address space, a range of the kernel. *)
Definition access (u : option vmst) (l : list (Z * vma_struct)) (base len : Z) (write : bool) : Prop :=
  match u with
  | Some st => rep st l /\ user_range l base len write
  | None => KERNBASE <= base /\ base + len <= KERNTOP
  end.

(** The check may only change the cache of the lookup. *)
Definition same_user (l : list (Z * vma_struct)) (u u' : option vmst) : Prop :=
  match u, u' with Some st, Some st' => rep st l -> rep st' l | None, None => True | _, _ => False end.

Lemma same_user_refl l u : same_user l u u.
Proof. destruct u; simpl; auto. Qed.
Lemma same_user_trans l u1 u2 u3 : same_user l u1 u2 -> same_user l u2 u3 -> same_user l u1 u3.
Proof. destruct u1, u2, u3; simpl; auto; tauto. Qed.

Lemma access_same l u u' base len write : same_user l u u' -> access u l base len write -> access u' l base len write.
Proof. destruct u, u'; simpl; try done. intros H [? ?]. auto. Qed.

Lemma access_sub l u base len write base' len' :
  access u l base len write -> base <= base' -> base' + len' <= base + len -> access u l base' len' write.
Proof. destruct u; simpl; [|lia]. intros [? ?] ? ?. split; [done|]. by eapply user_range_sub. Qed.

Lemma access_range l u base len write : access u l base len write -> 0 <= base /\ base + len < 2 ^ 32.
Proof. destruct u; simpl; [intros [_ []]|]; unfold USERBASE, USERTOP, KERNBASE, KERNTOP in *; lia. Qed.

Lemma access_check l u base len write :
  access u l base len write -> 0 < len -> exists u', user_mem_check u base len write = Ok (true, u') /\ same_user l u u'.
Proof.
  intros Ha Hl. destruct u as [st|]; simpl in Ha.
  - destruct Ha as [Hr []]. unfold USERBASE, USERTOP in *. destruct (user_mem_check_spec st l base len write) as (b & st' & He & Hr' & Hb); try done; [lia..|].
    assert (b = true) as -> by (apply Hb; unfold USERBASE, USERTOP; split_and!; try lia; done). exists (Some st'). simpl. auto.
  - exists None. split; [|done]. unfold user_mem_check. unfold KERN_ACCESS, KERNBASE, KERNTOP in *. rewrite u32_small by lia. do 2 f_equal.
    rewrite !andb_true_iff, !Z.leb_le, Z.ltb_lt. lia.
Qed.

(** ** Reading and writing *)
Section transfer.
Context {D : Type} `{IL : InodeLaws D} `{FO : FsOps}.
Variables (l : list (Z * vma_struct)) (i n buf : Z).

(** A range that is not part of the buffer. *)
Definition apart (base len : Z) : Prop := base + len <= buf \/ buf + 4096 <= base.
Implicit Type s : sys D.

(** What a transfer leaves alone. *)
Record kept s s' : Prop := {
  kp_vdevs : vdevs s' = vdevs s; kp_boot : boot s' = boot s; kp_cwd : cwd s' = cwd s;
  kp_supply : supply s' = supply s; kp_bufs : bufs s' = bufs s;
  kp_user : same_user l (um s) (um s')
}.

Lemma kept_trans s1 s2 s3 : kept s1 s2 -> kept s2 s3 -> kept s1 s3.
Proof. intros [] []. constructor; try congruence. by eapply same_user_trans. Qed.
Lemma kept_refl s : kept s s.
Proof. constructor; try done. apply same_user_refl. Qed.

(** The bytes of the file [b] from [p] on, at most [len] of them. *)
Definition avail (b : list Z) (p len : Z) : Z := Z.max 0 (Z.min len (Z.of_nat (length b) - p)).
Definition part (b : list Z) (p k : Z) : list Z := take (Z.to_nat k) (drop (Z.to_nat p) b).

Lemma part_length b p len : 0 <= p -> 0 <= len -> Z.of_nat (length (part b p (avail b p len))) = avail b p len.
Proof. intros. unfold part, avail. rewrite length_take, length_drop. lia. Qed.

Lemma part_app b p k j : 0 <= p -> 0 <= k -> 0 <= j -> part b p (k + j) = part b p k ++ part b (p + k) j.
Proof.
  intros Hp Hk Hj. unfold part. rewrite !Z2Nat.inj_add by lia. rewrite <- drop_drop, <- take_take_drop. done.
Qed.

Lemma iob_init_ok m len off : 0 <= len < 2 ^ 32 -> iob_ok (iobuf_init (load m buf len) len off).
Proof. intros Hl. unfold iob_ok. simpl. pose proof (length_load m buf len). lia. Qed.

Lemma file_read_step s p b cap len w :
  opened (ft s) i n p true w -> holds (dsk s) n b cap -> 0 < len <= 4096 -> 0 <= p -> p + len < limit ->
  let k := avail b p len in
  exists m, file_read i buf len s = Ok (0, k, set_ft (at_pos i (p + k) (ft s)) (set_ram m s)) /\
    load m buf k = part b p k /\ (forall a, a < buf \/ buf + len <= a -> m a = ram s a).
Proof.
  intros Ho Hh Hl Hp Hlim k. pose proof limit_range. destruct (enter_leave readable (ft s) i n p true w Ho) as (f1 & He & Hn & Hps & Hlv & _).
  { destruct Ho. destruct op_ent0 as (c & _ & ->). done. }
  assert (Hpl : Z.of_nat (length (part b p k)) = k) by (apply part_length; lia).
  assert (Hk : 0 <= k <= len) by (unfold k, avail; lia).
  set (io := poke (part b p k) (iobuf_init (load (ram s) buf len) len p)).
  assert (Hlen : Z.of_nat (length (io_buf io)) = len).
  { unfold io. rewrite poke_length by (simpl; lia || (apply iob_init_ok; lia)). simpl. rewrite length_load. lia. }
  exists (store (ram s) buf (io_buf io)). split.
  { unfold file_read, file_read_enter. rewrite He. cbn [mbind res_bind]. rewrite Hn, Hps.
    rewrite (read_law (dsk s) n b cap) by first [done|apply iob_init_ok; lia|simpl; lia]. cbn [mbind res_bind io_resid io_offset iobuf_init].
    fold (avail b p len). fold k. fold (part b p k). change (Iobuf _ 0 p len len) with (iobuf_init (load (ram s) buf len) len p). fold io.
    assert (Hu : iobuf_used (moved k io) = k) by (unfold iobuf_used, io, moved; simpl; rewrite u32_small; lia).
    rewrite Hu, Hlv. cbn [mbind res_bind]. rewrite i32_small by lia. done. }
  split.
  - rewrite <- (load_take _ buf len k) by lia. rewrite <- Hlen at 1. rewrite load_store. unfold io, poke. simpl.
    rewrite take_app_length' by lia. done.
  - intros a Ha. apply store_other. lia.
Qed.

Lemma to_user_ok s base len :
  access (um s) l base len true -> apart base len -> 0 < len <= 4096 ->
  exists m u, to_user base buf len s = Ok (true, set_user u m s) /\ kept s (set_user u m s) /\
    load m base len = load (ram s) buf len /\ (forall a, a < base \/ base + len <= a -> m a = ram s a).
Proof.
  intros Ha Hp Hl. destruct (access_check l (um s) base len true Ha) as (u & He & Hu); [lia|].
  unfold to_user, copy_to_user. rewrite He. cbn [mbind res_bind negb]. unfold apart in Hp.
  destruct (memcpy_load (ram s) base buf len) as [H1 H2]; [lia..|].
  exists (memcpy (ram s) base buf len), u. by split_and!.
Qed.

Lemma from_user_ok s base len :
  access (um s) l base len false -> apart base len -> 0 < len <= 4096 ->
  exists m u, from_user buf base len false s = Ok (true, set_user u m s) /\ kept s (set_user u m s) /\
    load m buf len = load (ram s) base len /\ (forall a, a < buf \/ buf + len <= a -> m a = ram s a).
Proof.
  intros Ha Hp Hl. destruct (access_check l (um s) base len false Ha) as (u & He & Hu); [lia|].
  unfold from_user, copy_from_user. rewrite He. cbn [mbind res_bind negb]. unfold apart in Hp.
  destruct (memcpy_load (ram s) buf base len) as [H1 H2]; [lia..|].
  exists (memcpy (ram s) buf base len), u. by split_and!.
Qed.

(** The state after [r] bytes at [p] went to [base]. *)
Record read_done s (b : list Z) (p base r : Z) s' : Prop := {
  rd_kept : kept s s';
  rd_ft : ft s' = at_pos i (p + r) (ft s);
  rd_dsk : dsk s' = dsk s;
  rd_bytes : load (ram s') base r = part b p r;
  rd_rest : forall a, a < base \/ base + r <= a -> a < buf \/ buf + 4096 <= a -> ram s' a = ram s a
}.

Lemma read_round s p b cap base len w :
  opened (ft s) i n p true w -> access (um s) l base len true -> apart base len -> holds (dsk s) n b cap ->
  0 < len <= 4096 -> 0 <= p -> p + len < limit ->
  exists s1, file_read i buf len s = Ok (0, avail b p len, s1) /\
    (avail b p len = 0 -> read_done s b p base 0 s1) /\
    (0 < avail b p len -> exists s2, to_user base buf (avail b p len) s1 = Ok (true, s2) /\ read_done s b p base (avail b p len) s2).
Proof.
  intros Ho Hac Hap Hh Hl Hp Hlim. destruct (file_read_step s p b cap len w) as (m & Hf & Hb & Hm); try done.
  set (k := avail b p len) in *. assert (Hk : 0 <= k <= len) by (unfold k, avail; lia).
  exists (set_ft (at_pos i (p + k) (ft s)) (set_ram m s)). split; [done|]. split.
  - intros Hk0. rewrite Hk0. constructor; try done; [|intros a _ Ha; apply Hm; lia]. constructor; try done. apply same_user_refl.
  - intros Hkp. destruct (to_user_ok (set_ft (at_pos i (p + k) (ft s)) (set_ram m s)) base k) as (m2 & u2 & Ht & Hk2 & Hb2 & Hm2); try done.
    { apply (access_sub l (um s) base len true); [done|lia..]. } { unfold apart in *. lia. } { lia. }
    eexists. split; [exact Ht|]. constructor; try done; [|by simpl in *; rewrite Hb2|].
    + destruct Hk2. constructor; done.
    + intros a Ha1 Ha2. simpl. rewrite Hm2 by done. apply Hm. lia.
Qed.

Lemma read_done_trans s b p base r1 r2 s1 s2 w :
  opened (ft s) i n p true w -> 0 <= p -> 0 <= r1 -> 0 <= r2 -> apart base (r1 + r2) ->
  read_done s b p base r1 s1 -> read_done s1 b (p + r1) (base + r1) r2 s2 -> read_done s b p base (r1 + r2) s2.
Proof.
  intros Ho Hp H1 H2 Hap [] []. unfold apart in Hap. constructor.
  - by eapply kept_trans.
  - rewrite rd_ft1, rd_ft0. erewrite at_pos_twice by done. f_equal. lia.
  - congruence.
  - rewrite load_app, part_app by done. rewrite rd_bytes1, <- rd_bytes0. f_equal. apply load_ext. intros k Hk. apply rd_rest1; lia.
  - intros a Ha1 Ha2. rewrite rd_rest1 by lia. apply rd_rest0; lia.
Qed.

Lemma avail_step b p len c : 0 <= p -> 0 < c <= len -> avail b p c = c -> avail b p len = c + avail b (p + c) (len - c).
Proof. unfold avail. lia. Qed.

Lemma read_loop_ok b cap w fuel : forall s p base len copied,
  (Z.to_nat len < fuel)%nat -> 0 <= len -> opened (ft s) i n p true w -> access (um s) l base len true -> apart base len ->
  holds (dsk s) n b cap -> 0 <= p -> p + len < limit ->
  exists s', read_loop fuel i buf base len copied s = Ok (0, copied + avail b p len, s') /\ read_done s b p base (avail b p len) s'.
Proof.
  induction fuel as [|fuel IH]; intros s p base len copied Hf Hl Ho Hac Hap Hh Hp Hlim; [lia|]. cbn [read_loop].
  destruct (Z.eqb_spec len 0) as [->|Hz].
  { exists s. replace (avail b p 0) with 0 by (unfold avail; lia). rewrite Z.add_0_r. split; [done|]. constructor; try done.
    - apply kept_refl. - rewrite Z.add_0_r. symmetry. by eapply at_pos_same. }
  set (c := if IOBUF_SIZE >? len then len else IOBUF_SIZE). assert (Hc : c = Z.min len 4096) by (unfold c, IOBUF_SIZE; rewrite Z.gtb_ltb; zcase; lia).
  destruct (read_round s p b cap base c w) as (s1 & Hfr & H0 & H1); try done; [| |lia..|].
  { apply (access_sub l (um s) base len true); [done|lia..]. } { unfold apart in *. lia. }
  rewrite Hfr. cbn [mbind res_bind]. destruct (Z.eqb_spec (avail b p c) 0) as [Ha|Ha]; cbn [negb].
  { exists s1. replace (avail b p len) with 0 by (unfold avail in *; lia). rewrite Z.add_0_r. split; [done|by apply H0]. }
  assert (Hav : 0 < avail b p c <= c) by (unfold avail in *; lia).
  destruct (H1 ltac:(lia)) as (s2 & Ht & Hd). rewrite Ht. cbn [mbind res_bind negb]. rewrite kassert_true by (apply Z.leb_le; lia). cbn [mbind res_bind].
  change (0 =? 0) with true. cbn [negb]. pose proof (access_range _ _ _ _ _ Hac). rewrite u32_small by lia.
  destruct (IH s2 (p + avail b p c) (base + avail b p c) (len - avail b p c) (copied + avail b p c)) as (s3 & Hl3 & Hd3); try done; try lia.
  { rewrite (rd_ft _ _ _ _ _ _ Hd). by eapply at_pos_opened. }
  { eapply access_same; [apply (rd_kept _ _ _ _ _ _ Hd)|]. apply (access_sub l (um s) base len true); [done|lia..]. }
  { unfold apart in *. lia. }
  { by rewrite (rd_dsk _ _ _ _ _ _ Hd). }
  assert (Hsum : avail b p len = avail b p c + avail b (p + avail b p c) (len - avail b p c)) by (unfold avail in *; lia).
  exists s3. rewrite Hl3, Hsum. split; [do 3 f_equal; lia|]. eapply read_done_trans; try done; unfold apart, avail in *; lia.
Qed.

(** The bytes [b] with [d] stored at [p]. *)
Definition splice (b : list Z) (p : Z) (d : list Z) : list Z :=
  take (Z.to_nat p) b ++ d ++ drop (Z.to_nat (p + Z.of_nat (length d))) b.

Lemma splice_nil b p : 0 <= p -> splice b p [] = b.
Proof. intros Hp. unfold splice. simpl. rewrite Z.add_0_r. apply take_drop. Qed.

Lemma splice_length b p d : 0 <= p <= Z.of_nat (length b) -> Z.of_nat (length (splice b p d)) = Z.max (Z.of_nat (length b)) (p + Z.of_nat (length d)).
Proof. intros Hp. unfold splice. rewrite !length_app, length_take, length_drop. lia. Qed.

Lemma splice_app b p d e :
  0 <= p <= Z.of_nat (length b) -> splice (splice b p d) (p + Z.of_nat (length d)) e = splice b p (d ++ e).
Proof.
  intros Hp. unfold splice. set (k := length d). rewrite length_app. fold k.
  rewrite (app_assoc (take _ b) d). rewrite take_app_length' by (rewrite length_app, length_take; fold k; lia). rewrite <- !app_assoc. do 3 f_equal.
  rewrite drop_app_ge by (rewrite length_take; lia). rewrite length_take, drop_app_ge by (fold k; lia). rewrite drop_drop. f_equal. fold k. lia.
Qed.

Lemma part_splice b p d : 0 <= p <= Z.of_nat (length b) -> part (splice b p d) p (Z.of_nat (length d)) = d.
Proof.
  intros Hp. unfold part, splice. rewrite drop_app_length' by (rewrite length_take; lia). rewrite Nat2Z.id. by rewrite take_app_length.
Qed.

Lemma file_write_step s p b cap len r :
  opened (ft s) i n p r true -> holds (dsk s) n b cap -> 0 < len <= 4096 -> 0 <= p <= Z.of_nat (length b) -> p + len <= cap ->
  exists d', file_write i buf len s = Ok (0, len, set_ft (at_pos i (p + len) (ft s)) (set_dsk d' s)) /\
    holds d' n (splice b p (load (ram s) buf len)) cap.
Proof.
  intros Ho Hh Hl Hp Hlim. pose proof limit_range. pose proof (cap_limit _ _ _ _ Hh).
  destruct (enter_leave writable (ft s) i n p r true Ho) as (f1 & He & Hn & Hps & Hlv & _).
  { destruct Ho. destruct op_ent0 as (c & _ & ->). done. }
  destruct (write_law (dsk s) n b cap (iobuf_init (load (ram s) buf len) len p)) as (d' & Hw & Hh'); try done; [apply iob_init_ok; lia|simpl; lia..|].
  exists d'. unfold file_write, file_write_enter. rewrite He. cbn [mbind res_bind]. rewrite Hn, Hps, Hw. cbn [mbind res_bind].
  assert (Hu : iobuf_used (moved len (iobuf_init (load (ram s) buf len) len p)) = len) by (unfold iobuf_used, moved; simpl; rewrite u32_small; lia).
  cbn [io_resid iobuf_init] in *. change (Iobuf _ 0 p len len) with (iobuf_init (load (ram s) buf len) len p) in *. rewrite Hu. unfold file_write_leave. rewrite Hlv.
  cbn [mbind res_bind]. rewrite i32_small by lia. split; [done|]. unfold splice.
  replace (peek len (iobuf_init (load (ram s) buf len) len p)) with (load (ram s) buf len) in Hh'.
  { rewrite length_load, (Z.max_r 0 len) by lia. exact Hh'. }
  unfold peek. cbn [io_base io_buf iobuf_init]. change (Z.to_nat 0) with 0%nat. rewrite drop_0, take_ge; [done|]. pose proof (length_load (ram s) buf len). lia.
Qed.

(** The state after [c] bytes at [base] went to the file at [p]. *)
Record write_done s (b : list Z) (cap p base c : Z) s' : Prop := {
  wd_kept : kept s s';
  wd_ft : ft s' = at_pos i (p + c) (ft s);
  wd_dsk : holds (dsk s') n (splice b p (load (ram s) base c)) cap;
  wd_ram : forall a, a < buf \/ buf + 4096 <= a -> ram s' a = ram s a
}.

Lemma write_round s p b cap base len r :
  opened (ft s) i n p r true -> access (um s) l base len false -> apart base len -> holds (dsk s) n b cap ->
  0 < len <= 4096 -> 0 <= p <= Z.of_nat (length b) -> p + len <= cap ->
  exists s1 s2, from_user buf base len false s = Ok (true, s1) /\ file_write i buf len s1 = Ok (0, len, s2) /\ write_done s b cap p base len s2.
Proof.
  intros Ho Hac Hap Hh Hl Hp Hlim. destruct (from_user_ok s base len) as (m & u & Hf & Hk & Hb & Hm); try done.
  destruct (file_write_step (set_user u m s) p b cap len r) as (d' & Hw & Hh'); try done.
  eexists _, _. split_and!; [exact Hf|exact Hw|]. constructor; try done.
  - destruct Hk. by constructor.
  - simpl in *. by rewrite <- Hb.
  - intros a Ha. simpl. apply Hm. lia.
Qed.

Lemma write_loop_ok cap r fuel : forall s p b base len copied,
  (Z.to_nat len < fuel)%nat -> 0 <= len -> opened (ft s) i n p r true -> access (um s) l base len false -> apart base len ->
  holds (dsk s) n b cap -> 0 <= p <= Z.of_nat (length b) -> p + len <= cap ->
  exists s', write_loop fuel i buf base len copied s = Ok (0, copied + len, s') /\ write_done s b cap p base len s'.
Proof.
  induction fuel as [|fuel IH]; intros s p b base len copied Hf Hl Ho Hac Hap Hh Hp Hlim; [lia|]. cbn [write_loop].
  destruct (Z.eqb_spec len 0) as [->|Hz].
  { exists s. rewrite Z.add_0_r. split; [done|]. constructor; try done.
    - apply kept_refl. - rewrite Z.add_0_r. symmetry. by eapply at_pos_same.
    - unfold load. simpl. by rewrite splice_nil by lia. }
  set (c := if IOBUF_SIZE >? len then len else IOBUF_SIZE). assert (Hc : c = Z.min len 4096) by (unfold c, IOBUF_SIZE; rewrite Z.gtb_ltb; zcase; lia).
  destruct (write_round s p b cap base c r) as (s1 & s2 & Hf1 & Hw1 & Hd); try done; [| |lia..|].
  { apply (access_sub l (um s) base len false); [done|lia..]. } { unfold apart in *. lia. }
  rewrite Hf1. cbn [mbind res_bind negb]. rewrite Hw1. cbn [mbind res_bind]. destruct (Z.eqb_spec c 0); [lia|]. cbn [negb].
  rewrite kassert_true by (apply Z.leb_le; lia). cbn [mbind res_bind]. change (0 =? 0) with true. cbn [negb].
  pose proof (access_range _ _ _ _ _ Hac). rewrite u32_small by lia.
  destruct Hd as [Hk1 Hft1 Hd1 Hm1]. pose proof (length_load (ram s) base c).
  destruct (IH s2 (p + c) (splice b p (load (ram s) base c)) (base + c) (len - c) (copied + c)) as (s3 & Hl3 & [Hk3 Hft3 Hd3 Hm3]); try done; try lia.
  { rewrite Hft1. by eapply at_pos_opened. }
  { eapply access_same; [apply Hk1|]. apply (access_sub l (um s) base len false); [done|lia..]. }
  { unfold apart in *. lia. }
  { rewrite splice_length; lia. }
  exists s3. rewrite Hl3. split; [do 3 f_equal; lia|]. constructor.
  - by eapply kept_trans.
  - rewrite Hft3, Hft1. erewrite at_pos_twice by done. f_equal. lia.
  - replace len with (c + (len - c)) at 1 by lia. rewrite load_app by lia. rewrite <- splice_app by lia.
    replace (p + Z.of_nat (length (load (ram s) base c))) with (p + c) by lia.
    replace (load (ram s) (base + c) (len - c)) with (load (ram s2) (base + c) (len - c)); [done|]. apply load_ext. intros k Hk. apply Hm1. unfold apart in *. lia.
  - intros a Ha. rewrite Hm3 by done. by apply Hm1.
Qed.
End transfer.

(** ** The calls *)
Section calls.
Context {D : Type} `{IL : InodeLaws D} `{FO : FsOps}.
Implicit Type s : sys D.

(** Descriptor [i] is open at [p] on inode [n], which holds [b]; the next
    kernel buffer is [buf]. *)
Record ready s (i n p : Z) (b : list Z) (cap buf : Z) (r w : bool) : Prop := {
  ry_open : opened (ft s) i n p r w;
  ry_file : holds (dsk s) n b cap;
  ry_buf : exists rest, supply s = Some buf :: rest;
  ry_kernel : KERNBASE <= buf /\ buf + 4096 <= 2 ^ 32;
  ry_fresh : buf ∉ bufs s
}.

Lemma testfd_opened s i n p r w rd wr :
  opened (ft s) i n p r w -> (rd = true -> r = true) -> (wr = true -> w = true) -> file_testfd i rd wr (ft s) = Ok true.
Proof.
  intros [] Hr Hw. destruct op_ent0 as (c & _ & He). unfold file_testfd, fd2file, get_fd_array. rewrite op_range0, kassert_true by (by apply Z.ltb_lt).
  cbn [mbind res_bind]. rewrite He. unfold is_status. cbn [status fd]. rewrite bool_decide_true, Z.eqb_refl by done. cbn [andb]. rewrite He. cbn [readable writable].
  destruct rd, wr, r, w; naive_solver.
Qed.

(** What a call with one buffer leaves alone. *)
Definition call_kept s s' (l : list (Z * vma_struct)) : Prop :=
  vdevs s' = vdevs s /\ boot s' = boot s /\ cwd s' = cwd s /\ bufs s' = bufs s /\ same_user l (um s) (um s').

Lemma read_spec_ok s l i n p b cap buf base len w :
  ready s i n p b cap buf true w -> access (um s) l base len true -> apart buf base len -> 0 < len -> 0 <= p -> p + len < limit ->
  let r := avail b p len in
  exists s', sysfile_read i base len s = Ok (r, s') /\ call_kept s s' l /\ supply s' = tail (supply s) /\
    ft s' = at_pos i (p + r) (ft s) /\ dsk s' = dsk s /\ load (ram s') base r = part b p r /\
    (forall a, a < base \/ base + r <= a -> a < buf \/ buf + 4096 <= a -> ram s' a = ram s a).
Proof.
  intros [Ho Hh (rest & Hs) Hk Hfr] Hac Hap Hl Hp Hlim r. pose proof limit_range.
  unfold sysfile_read. destruct (Z.eqb_spec len 0); [lia|]. erewrite testfd_opened by done. cbn [mbind res_bind negb].
  unfold kmalloc. rewrite Hs. destruct (Z.eqb_spec buf 0); [unfold KERNBASE in *; lia|].
  destruct (read_loop_ok l i n buf b cap w (S (Z.to_nat len)) (set_heap rest (buf :: bufs s) s) p base len 0) as (s' & He & [Hkp Hft Hd Hb Hm]); try done; [lia..|].
  rewrite He. cbn [mbind res_bind]. fold r in Hft, Hb, Hm |- *. assert (Hrr : 0 <= r <= len) by (unfold r, avail; lia).
  exists (kfree buf s'). split.
  { rewrite i32_small by (unfold r, avail in *; lia). destruct (Z.eqb_spec (0 + r) 0) as [E|E]; cbn [negb]; do 3 f_equal; lia. }
  destruct Hkp. simpl in *. split_and!; try done.
  - split_and!; try done. simpl. rewrite kp_bufs0. by apply filter_ne_cons.
Qed.

Lemma write_spec_ok s l i n p b cap buf base len r :
  ready s i n p b cap buf r true -> access (um s) l base len false -> apart buf base len -> 0 < len -> 0 <= p <= Z.of_nat (length b) -> p + len <= cap ->
  exists s', sysfile_write i base len s = Ok (len, s') /\ call_kept s s' l /\ supply s' = tail (supply s) /\
    ft s' = at_pos i (p + len) (ft s) /\ holds (dsk s') n (splice b p (load (ram s) base len)) cap /\
    (forall a, a < buf \/ buf + 4096 <= a -> ram s' a = ram s a).
Proof.
  intros [Ho Hh (rest & Hs) Hk Hfr] Hac Hap Hl Hp Hlim. pose proof limit_range. pose proof (cap_limit _ _ _ _ Hh).
  unfold sysfile_write. destruct (Z.eqb_spec len 0); [lia|]. erewrite testfd_opened by done. cbn [mbind res_bind negb].
  unfold kmalloc. rewrite Hs. destruct (Z.eqb_spec buf 0); [unfold KERNBASE in *; lia|].
  destruct (write_loop_ok l i n buf cap r (S (Z.to_nat len)) (set_heap rest (buf :: bufs s) s) p b base len 0) as (s' & He & [Hkp Hft Hd Hm]); try done; [lia..|].
  rewrite He. cbn [mbind res_bind]. exists (kfree buf s'). split.
  { rewrite i32_small by lia. destruct (Z.eqb_spec (0 + len) 0); [lia|]. done. }
  destruct Hkp. simpl in *. split_and!; try done.
  - split_and!; try done. simpl. rewrite kp_bufs0. by apply filter_ne_cons.
Qed.

Lemma seek_spec_ok s i n p q b cap r w :
  opened (ft s) i n p r w -> holds (dsk s) n b cap -> 0 <= q <= Z.of_nat (length b) ->
  sysfile_seek i q LSEEK_SET s = Ok (0, set_ft (at_pos i q (ft s)) s).
Proof.
  intros Ho Hh Hq. destruct (enter_leave (fun _ => true) (ft s) i n p r w Ho eq_refl) as (f1 & He & Hn & Hps & _ & Hrel).
  unfold sysfile_seek, file_seek, file_seek_enter. rewrite He. cbn [mbind res_bind]. unfold seek_base. change (LSEEK_SET =? LSEEK_CUR) with false.
  change (LSEEK_SET =? LSEEK_END) with false. change (LSEEK_SET =? LSEEK_SET) with true. cbn [andb orb negb mbind res_bind]. rewrite Hn.
  rewrite (seek_law (dsk s) n b cap) by done. cbn [mbind res_bind]. unfold file_seek_leave. change (LSEEK_SET =? LSEEK_CUR) with false.
  change (LSEEK_SET =? LSEEK_END) with false. change (LSEEK_SET =? LSEEK_SET) with true. cbn [andb orb negb]. change (0 =? 0) with true. cbn match.
  fold (at_pos i q f1). rewrite Hrel. cbn [mbind res_bind]. destruct s. done.
Qed.

(** ** Buffers of the kernel *)
Definition heap_kept s s' : Prop := supply s' = supply s /\ bufs s' = bufs s.

Lemma heap_kept_refl s : heap_kept s s.
Proof. done. Qed.
Lemma heap_kept_trans s1 s2 s3 : heap_kept s1 s2 -> heap_kept s2 s3 -> heap_kept s1 s3.
Proof. intros [] []. split; congruence. Qed.

Ltac res_inv H :=
  let x := fresh "x" in let E := fresh "E" in
  apply res_bind_inv in H as (x & E & H);
  repeat match goal with y : (_ * _)%type |- _ => destruct y end;
  cbn beta iota in H.
Ltac if_inv H :=
  match type of H with
  | context [if negb ?b then _ else _] => destruct b eqn:?; cbn [negb] in H
  | context [if ?b then _ else _] => destruct b eqn:?; cbn beta iota in H
  end.

Lemma to_user_heap dst src k s ok s' : to_user dst src k s = Ok (ok, s') -> heap_kept s s'.
Proof. intros He. unfold to_user in He. res_inv He. by simplify_eq. Qed.
Lemma from_user_heap dst src k wr s ok s' : from_user dst src k wr s = Ok (ok, s') -> heap_kept s s'.
Proof. intros He. unfold from_user in He. res_inv He. by simplify_eq. Qed.
Lemma on_vfs_heap {A} (op : vst -> res (A * vst)) s r s' : on_vfs op s = Ok (r, s') -> heap_kept s s'.
Proof. intros He. unfold on_vfs in He. res_inv He. by simplify_eq. Qed.
Lemma file_read_heap i base k s r c s' : file_read i base k s = Ok (r, c, s') -> heap_kept s s'.
Proof. intros He. unfold file_read in He. res_inv He. destruct s0; [by simplify_eq|]. do 2 res_inv He. by simplify_eq. Qed.
Lemma file_write_heap i base k s r c s' : file_write i base k s = Ok (r, c, s') -> heap_kept s s'.
Proof. intros He. unfold file_write in He. res_inv He. destruct s0; [by simplify_eq|]. do 2 res_inv He. by simplify_eq. Qed.
Lemma getdirentry_heap i base s r s' : file_getdirentry i base s = Ok (r, s') -> heap_kept s s'.
Proof. intros He. unfold file_getdirentry in He. res_inv He. destruct s0; [by simplify_eq|]. do 2 res_inv He. by simplify_eq. Qed.

Lemma read_loop_heap fuel : forall i buf base k c s r c' s', read_loop fuel i buf base k c s = Ok (r, c', s') -> heap_kept s s'.
Proof.
  induction fuel as [|fuel IH]; intros i buf base k c s r c' s' He; [done|]. cbn [read_loop] in He. if_inv He; [by simplify_eq|].
  res_inv He. apply file_read_heap in E. if_inv He; [by simplify_eq|]. res_inv He. apply to_user_heap in E0.
  assert (Hk : heap_kept s s1) by (by eapply heap_kept_trans). if_inv He; [|by simplify_eq]. res_inv He.
  if_inv He; [|by simplify_eq]. by eapply heap_kept_trans, IH.
Qed.

Lemma write_loop_heap fuel : forall i buf base k c s r c' s', write_loop fuel i buf base k c s = Ok (r, c', s') -> heap_kept s s'.
Proof.
  induction fuel as [|fuel IH]; intros i buf base k c s r c' s' He; [done|]. cbn [write_loop] in He. if_inv He; [by simplify_eq|].
  res_inv He. apply from_user_heap in E. if_inv He; [|by simplify_eq]. res_inv He. apply file_write_heap in E0.
  assert (Hk : heap_kept s s1) by (by eapply heap_kept_trans). if_inv He; [by simplify_eq|]. res_inv He.
  if_inv He; [|by simplify_eq]. by eapply heap_kept_trans, IH.
Qed.

(** The buffers to come are new. *)
Definition heap_fresh s : Prop := NoDup (omap id (supply s) ++ bufs s) /\ 0 ∉ omap id (supply s).

(** What [kmalloc] returned. *)
Lemma kmalloc_spec s a s1 :
  heap_fresh s -> kmalloc s = (a, s1) ->
  (a = 0 /\ bufs s1 = bufs s) \/ (a <> 0 /\ a ∉ bufs s /\ bufs s1 = a :: bufs s /\ heap_fresh s1).
Proof.
  intros [Hnd H0] He. unfold kmalloc in He. destruct (supply s) as [|[c|] u] eqn:Hs; simplify_eq/=; [by left| |by left]. right.
  unfold heap_fresh. simpl in *. apply NoDup_cons in Hnd as [Hc Hnd]. apply not_elem_of_cons in H0 as [? ?]. split_and!; try done; [set_solver|].
  rewrite <- Permutation_middle. apply NoDup_cons. split; [set_solver|done].
Qed.

Lemma kfree_kept a bs s : a ∉ bs -> bufs s = a :: bs -> bufs (kfree a s) = bs.
Proof. intros Ha Hb. simpl. rewrite Hb. by apply filter_ne_cons. Qed.

Lemma heap_fresh_kept s s' : heap_kept s s' -> heap_fresh s -> heap_fresh s'.
Proof. unfold heap_fresh. by intros [-> ->]. Qed.

Lemma copy_path_heap from s ret a s' :
  heap_fresh s -> copy_path from s = Ok (ret, a, s') ->
  (ret <> 0 /\ bufs s' = bufs s) \/ (ret = 0 /\ a ∉ bufs s /\ bufs s' = a :: bufs s /\ heap_fresh s').
Proof.
  intros Hf He. unfold copy_path in He. destruct (kmalloc s) as [c s1] eqn:Hk. destruct (kmalloc_spec _ _ _ Hf Hk) as [[-> Hb]|(Hc & Hn & Hb & Hf1)].
  { change (0 =? 0) with true in He. cbn beta iota in He. simplify_eq. left. split; [unfold E_NO_MEM; lia|done]. }
  destruct (Z.eqb_spec c 0); [done|]. res_inv He. if_inv He; simplify_eq.
  - by right.
  - left. split; [unfold E_INVAL; lia|]. by apply kfree_kept.
Qed.

(** Whatever a call returns, it holds no more buffers than before. *)
Definition no_leak (call : sys D -> res (Z * sys D)) s : Prop := forall ret s', call s = Ok (ret, s') -> bufs s' = bufs s.

Lemma with_path_no_leak op path s : heap_fresh s -> no_leak (with_path op path) s.
Proof.
  intros Hf ret s' He. unfold with_path in He. res_inv He. destruct (copy_path_heap _ _ _ _ _ Hf E) as [[Hr Hb]|(-> & Hn & Hb & _)].
  { rewrite (proj2 (Z.eqb_neq _ 0) Hr) in He. by simplify_eq/=. }
  change (0 =? 0) with true in He. cbn [negb] in He. res_inv He. apply on_vfs_heap in E0 as [_ Hb2]. simplify_eq. apply kfree_kept; congruence.
Qed.

Lemma with_paths_no_leak op path path2 s : heap_fresh s -> no_leak (with_paths op path path2) s.
Proof.
  intros Hf ret s' He. unfold with_paths in He. res_inv He. destruct (copy_path_heap _ _ _ _ _ Hf E) as [[Hr Hb]|(-> & Hn & Hb & Hf1)].
  { rewrite (proj2 (Z.eqb_neq _ 0) Hr) in He. by simplify_eq/=. }
  change (0 =? 0) with true in He. cbn [negb] in He. res_inv He. destruct (copy_path_heap _ _ _ _ _ Hf1 E0) as [[Hr2 Hb2]|(-> & Hn2 & Hb2 & _)].
  { rewrite (proj2 (Z.eqb_neq _ 0) Hr2) in He. simplify_eq/=. by rewrite Hb2, Hb, filter_ne_cons. }
  change (0 =? 0) with true in He. cbn [negb] in He. res_inv He. apply on_vfs_heap in E1 as [_ Hb3]. simplify_eq/=.
  rewrite Hb in Hn2. apply not_elem_of_cons in Hn2 as [? ?]. rewrite Hb3, Hb2, Hb. rewrite filter_cons_True by done.
  by rewrite (filter_ne_cons (bufs s)), filter_ne_cons.
Qed.

Lemma rw_no_leak (loop : nat -> Z -> Z -> Z -> Z -> sys D -> res (Z * Z * sys D)) (testfd : sys D -> res bool) base len s :
  (forall fuel buf b k c s r c' s', loop fuel buf b k c s = Ok (r, c', s') -> heap_kept s s') -> heap_fresh s ->
  no_leak (fun s => if len =? 0 then Ok (0, s)
                    else
                      ok ← testfd s;
                      if negb ok then Ok (- E_INVAL, s)
                      else
                        let '(buffer, s) := kmalloc s in
                        if buffer =? 0 then Ok (- E_NO_MEM, s)
                        else
                          '(ret, copied, s) ← loop (S (Z.to_nat len)) buffer base len 0 s;
                          let s := kfree buffer s in
                          Ok (if negb (copied =? 0) then i32 copied else ret, s)) s.
Proof.
  intros Hl Hf ret s' He. destruct (len =? 0); [by simplify_eq|]. res_inv He. if_inv He; [|by simplify_eq]. destruct (kmalloc s) as [a s1] eqn:Hk.
  destruct (kmalloc_spec _ _ _ Hf Hk) as [[-> Hb]|(Ha & Hn & Hb & _)].
  { change (0 =? 0) with true in He. cbn beta iota in He. by simplify_eq. }
  rewrite (proj2 (Z.eqb_neq a 0) Ha) in He. res_inv He. apply Hl in E0 as [_ Hb2]. simplify_eq. apply kfree_kept; congruence.
Qed.

Lemma getdirentry_no_leak i dp s : heap_fresh s -> no_leak (sysfile_getdirentry i dp) s.
Proof.
  intros Hf ret s' He. unfold sysfile_getdirentry in He. destruct (kmalloc s) as [a s1] eqn:Hk.
  destruct (kmalloc_spec _ _ _ Hf Hk) as [[-> Hb]|(Ha & Hn & Hb & _)].
  { change (0 =? 0) with true in He. cbn beta iota in He. by simplify_eq. }
  rewrite (proj2 (Z.eqb_neq a 0) Ha) in He. res_inv He. apply from_user_heap in E as [_ Hb1].
  if_inv He; [|simplify_eq; apply kfree_kept; congruence]. res_inv He. apply getdirentry_heap in E as [_ Hb2].
  if_inv He; [|simplify_eq; apply kfree_kept; congruence]. res_inv He. apply to_user_heap in E as [_ Hb3].
  simplify_eq. apply kfree_kept; congruence.
Qed.

Lemma open_no_leak path flags s : heap_fresh s -> no_leak (sysfile_open path flags) s.
Proof.
  intros Hf ret s' He. unfold sysfile_open in He. res_inv He. destruct (copy_path_heap _ _ _ _ _ Hf E) as [[Hr Hb]|(-> & Hn & Hb & _)].
  { rewrite (proj2 (Z.eqb_neq _ 0) Hr) in He. by simplify_eq/=. }
  change (0 =? 0) with true in He. cbn [negb] in He. res_inv He. simplify_eq. by apply kfree_kept.
Qed.

(** C20: a read puts the bytes of the file from its position on, up to [len] of
    them or the end of the file, into the user's buffer, in as many rounds of
    the kernel's buffer as it takes; it moves the position past them and
    touches no other byte of the process. *)
Theorem sysfile_read_correct s l i n p b cap buf base len w :
  ready s i n p b cap buf true w -> access (um s) l base len true -> apart buf base len -> 0 < len -> 0 <= p -> p + len < limit ->
  let r := avail b p len in
  exists s', sysfile_read i base len s = Ok (r, s') /\ call_kept s s' l /\ supply s' = tail (supply s) /\
    ft s' = at_pos i (p + r) (ft s) /\ dsk s' = dsk s /\ load (ram s') base r = part b p r /\
    (forall a, a < base \/ base + r <= a -> a < buf \/ buf + 4096 <= a -> ram s' a = ram s a).
Proof. apply read_spec_ok. Qed.

(** what a process writes to a file, it reads back: a write that fits stores
    the bytes of the user's buffer at the position of the file and keeps the
    rest of it; after seeking back a read of the same length into another
    buffer brings exactly those bytes. *)
Theorem sysfile_write_read_roundtrip s l i n p b cap buf buf2 rest base base2 len :
  ready s i n p b cap buf true true -> supply s = Some buf :: Some buf2 :: rest ->
  KERNBASE <= buf2 /\ buf2 + 4096 <= 2 ^ 32 -> buf2 ∉ bufs s ->
  access (um s) l base len false -> access (um s) l base2 len true -> apart buf base len -> apart buf2 base2 len ->
  0 < len -> 0 <= p <= Z.of_nat (length b) -> p + len <= cap ->
  exists s1 s3, sysfile_write i base len s = Ok (len, s1) /\
    holds (dsk s1) n (splice b p (load (ram s) base len)) cap /\
    sysfile_seek i p LSEEK_SET s1 = Ok (0, set_ft (ft s) s1) /\
    sysfile_read i base2 len (set_ft (ft s) s1) = Ok (len, s3) /\
    load (ram s3) base2 len = load (ram s) base len /\ dsk s3 = dsk s1 /\ bufs s3 = bufs s.
Proof.
  intros Hrd Hs2 Hk2 Hn2 Hr1 Hr2 Hap1 Hap2 Hl Hp Hcap. destruct (write_spec_ok s l i n p b cap buf base len true) as (s1 & Hw & (_ & _ & _ & Hb1 & Hu1) & Hs1 & Hft1 & Hd1 & Hm1); try done.
  pose proof (length_load (ram s) base len) as Hll. pose proof (splice_length b p (load (ram s) base len) Hp) as Hsl.
  pose proof (cap_limit _ _ _ _ Hd1) as Hcl. destruct Hrd as [Ho _ _ Hk Hfr].
  assert (Ho1 : opened (ft s1) i n (p + len) true true) by (rewrite Hft1; by eapply at_pos_opened).
  assert (Hsk : sysfile_seek i p LSEEK_SET s1 = Ok (0, set_ft (ft s) s1)).
  { rewrite (seek_spec_ok s1 i n (p + len) p (splice b p (load (ram s) base len)) cap true true); [|done|done|lia].
    rewrite Hft1. erewrite at_pos_twice, at_pos_same by done. done. }
  destruct (read_spec_ok (set_ft (ft s) s1) l i n p (splice b p (load (ram s) base len)) cap buf2 base2 len true) as (s3 & Hr & (_ & _ & _ & Hb3 & _) & _ & _ & Hd3 & Hm3 & _); try done; [| |lia..|].
  2: { by eapply access_same. }
  { constructor; try done; simpl; [|by rewrite Hb1]. exists rest. by rewrite Hs1, Hs2. }
  assert (Hav : avail (splice b p (load (ram s) base len)) p len = len) by (unfold avail; lia). rewrite Hav in Hr, Hm3.
  exists s1, s3. split_and!; try done; [|by rewrite Hb3; simpl; rewrite Hb1]. rewrite Hm3.
  replace len with (Z.of_nat (length (load (ram s) base len))) at 2 by lia. by apply part_splice.
Qed.

(** C31: no call on files leaks a kernel buffer: whatever it returns, the buffers
    it got are freed, and no other is. *)
Theorem sysfile_no_leak s i base len path path2 flags :
  heap_fresh s ->
  no_leak (sysfile_open path flags) s /\ no_leak (sysfile_read i base len) s /\ no_leak (sysfile_write i base len) s /\
  no_leak (sysfile_chdir path) s /\ no_leak (sysfile_mkdir path) s /\ no_leak (sysfile_unlink path) s /\
  no_leak (sysfile_link path path2) s /\ no_leak (sysfile_rename path path2) s /\ no_leak (sysfile_getdirentry i base) s.
Proof.
  intros Hf. split_and!; try (by apply with_path_no_leak); try (by apply with_paths_no_leak).
  - by apply open_no_leak.
  - apply (rw_no_leak (fun fuel buf b k c s => read_loop fuel i buf b k c s) (fun s => file_testfd i true false (ft s))); [|done]. intros. by eapply read_loop_heap.
  - apply (rw_no_leak (fun fuel buf b k c s => write_loop fuel i buf b k c s) (fun s => file_testfd i false true (ft s))); [|done]. intros. by eapply write_loop_heap.
  - by apply getdirentry_no_leak.
Qed.

(** a read into memory the process may not write returns [-E_INVAL] and
    leaves its memory alone, but the position of the file has moved past the
    bytes that were lost. *)
Theorem sysfile_read_bad_buffer s st l i n p b cap buf base len w :
  ready s i n p b cap buf true w -> um s = Some st -> rep st l -> Forall (fun v => 0 <= vm_start v) l.*2 -> 0 <= base < 2 ^ 32 -> 0 < len <= 4096 ->
  (forall v, v ∈ l.*2 -> ~ may_access v base true) -> 0 <= p < Z.of_nat (length b) -> p + len < limit ->
  exists s', sysfile_read i base len s = Ok (- E_INVAL, s') /\ ft s' = at_pos i (p + avail b p len) (ft s) /\
    (forall a, a < KERNBASE -> ram s' a = ram s a).
Proof.
  intros [Ho Hh (rest & Hs) Hk Hfr] Hu Hr Hpos Hb Hl Hno Hp Hlim. pose proof limit_range.
  unfold sysfile_read. destruct (Z.eqb_spec len 0); [lia|]. erewrite testfd_opened by done. cbn [mbind res_bind negb].
  unfold kmalloc. rewrite Hs. destruct (Z.eqb_spec buf 0); [unfold KERNBASE in *; lia|].
  cbn [read_loop]. destruct (Z.eqb_spec len 0); [lia|]. replace (if IOBUF_SIZE >? len then len else IOBUF_SIZE) with len by (unfold IOBUF_SIZE; rewrite Z.gtb_ltb; zcase; lia).
  destruct (file_read_step i n buf (set_heap rest (buf :: bufs s) s) p b cap len w) as (m & Hf & _ & Hm); try done; [lia|].
  rewrite Hf. cbn [mbind res_bind]. set (k := avail b p len) in *. assert (0 < k <= len) by (unfold k, avail; lia).
  destruct (Z.eqb_spec k 0); [lia|]. cbn [negb]. unfold to_user, copy_to_user. simpl um. rewrite Hu.
  destruct (user_mem_check_spec st l base k true) as (ok & st' & He & Hr' & Hok); try done; [lia|].
  rewrite He. cbn [mbind res_bind]. destruct ok.
  { destruct (proj1 Hok eq_refl) as (_ & _ & _ & Hall). destruct (Hall base ltac:(lia)) as (v & Hv & Hm'). by destruct (Hno v Hv). }
  cbn [negb mbind res_bind]. change (0 =? 0) with true. cbn [negb]. eexists. split; [done|]. split; [done|]. intros a Ha. simpl. apply Hm. lia.
Qed.
End calls.
