(* ===== verification/Exec.v ===== *)
(** * kern/process/proc.c: loading a program

    [load_icode] and [do_execve], over the system calls on files (Sysfile),
    the areas of an address space (Vmm) and the frames the new pages get.
    [pages] is what the page directory of the process maps: the address of a
    page, to the kernel address of its frame and the permission.  [tables] are
    the frames of its page tables, by directory index; what the tables hold is
    [pages] (PageTable has their words).  The bytes of a frame of a page are
    the kernel's memory at that address.  [next_pages] and [next_tables] are
    what the page allocator has for the next allocations of a page or
    directory and of a table; [taken] are the frames of directory and pages
    that the process holds.  [check_mm_struct] is set only in the checks the
    kernel makes before the first process runs, so here it is NULL: a page is
    not registered with swap.c, and once swapping is set up an allocation that
    finds no frame faults in [swap_out]. *)
From S2P Require Import Prelude Libs Vmm IoBuf FileTable Vfs Sysfile.

Definition E_INVAL : Z := 3.
Definition E_NO_MEM : Z := 4.
Definition E_INVAL_ELF : Z := 8.
Definition PTE_P : Z := 1.
Definition PTE_W : Z := 2.
Definition PTE_U : Z := 4.
Definition PTE_USER : Z := Z.lor PTE_U (Z.lor PTE_W PTE_P).
Definition USTACKTOP : Z := USERTOP.
Definition USTACKSIZE : Z := 256 * PGSIZE.
Definition ELF_MAGIC : Z := 0x464C457F.
Definition ELF_PT_LOAD : Z := 1.
Definition ELF_PF_X : Z := 1.
Definition ELF_PF_W : Z := 2.
Definition ELF_PF_R : Z := 4.
Definition EXEC_MAX_ARG_NUM : Z := 32.
Definition EXEC_MAX_ARG_LEN : Z := 4095.
Definition PROC_NAME_LEN : Z := 50.
Definition FL_IF : Z := 0x200.
Definition USER_CS : Z := Z.lor (Z.shiftl 3 3) 3.
Definition USER_DS : Z := Z.lor (Z.shiftl 4 3) 3.
Definition PDX (la : Z) : Z := Z.land (Z.shiftr la 22) 0x3FF.

Definition le16_at (m : mem) (a : Z) : Z := m a + 2 ^ 8 * m (a + 1).

(** The fields the loader reads. *)
Record elfhdr := Elfhdr { e_magic : Z; e_entry : Z; e_phoff : Z; e_phnum : Z }.
Record proghdr := Proghdr { p_type : Z; p_offset : Z; p_va : Z; p_filesz : Z; p_memsz : Z; p_flags : Z }.
Definition ELFHDR_SIZE : Z := 52.
Definition PROGHDR_SIZE : Z := 32.
Definition elf_at (m : mem) (a : Z) : elfhdr :=
  Elfhdr (le32_at m a) (le32_at m (a + 24)) (le32_at m (a + 28)) (le16_at m (a + 44)).
Definition ph_at (m : mem) (a : Z) : proghdr :=
  Proghdr (le32_at m a) (le32_at m (a + 4)) (le32_at m (a + 8)) (le32_at m (a + 16)) (le32_at m (a + 20)) (le32_at m (a + 24)).

(** The trap frame of the new program; its other fields are 0. *)
Record trapframe := Tf { tf_cs : Z; tf_ds : Z; tf_es : Z; tf_ss : Z; tf_esp : Z; tf_eip : Z; tf_eflags : Z }.

Record supplies := Supplies {
  next_pages : list (option Z); next_tables : list (option Z); tables : gmap Z Z; swap_init_ok : bool
}.

Record est (D : Type) := Est {
  xs : sys D; nmm : vmst; pages : gmap Z (Z * Z); frames : supplies; taken : gset Z
}.
Arguments Est {D}. Arguments xs {D}. Arguments nmm {D}. Arguments pages {D}. Arguments frames {D}. Arguments taken {D}.

Section exec.
Context {D : Type} `{IO : InodeOps D} `{FO : FsOps}.
Implicit Type s : est D.

Definition set_xs (x : sys D) s : est D := Est x (nmm s) (pages s) (frames s) (taken s).
Definition set_nmm (m : vmst) s : est D := Est (xs s) m (pages s) (frames s) (taken s).
Definition kram s : mem := ram (xs s).
Definition set_kram (m : mem) s : est D := set_xs (set_ram m (xs s)) s.

Definition set_tables (t : gmap Z Z) s : est D :=
  Est (xs s) (nmm s) (pages s) (Supplies (next_pages (frames s)) (next_tables (frames s)) t (swap_init_ok (frames s))) (taken s).

(** No frame for [alloc_page]: NULL, or a fault in [swap_out]. *)
Definition no_frame s : res (option Z * est D) := if swap_init_ok (frames s) then Panic else Ok (None, s).

(** [alloc_page], [free_page]: the kernel address of the frame. *)
Definition alloc_page s : res (option Z * est D) :=
  let rest r := Supplies r (next_tables (frames s)) (tables (frames s)) (swap_init_ok (frames s)) in
  match next_pages (frames s) with
  | Some k :: r => Ok (Some k, Est (xs s) (nmm s) (pages s) (rest r) ({[k]} ∪ taken s))
  | None :: r => no_frame (Est (xs s) (nmm s) (pages s) (rest r) (taken s))
  | [] => no_frame s
  end.
Definition free_page (k : Z) s : est D := Est (xs s) (nmm s) (pages s) (frames s) (taken s ∖ {[k]}).

(** [get_pte(pgdir, la, 1)]: whether there is a table for [la] now. *)
Definition get_pte (la : Z) s : res (bool * est D) :=
  let rest r := Supplies (next_pages (frames s)) r (tables (frames s)) (swap_init_ok (frames s)) in
  let none s := '(_, s) ← no_frame s; Ok (false, s) in
  match tables (frames s) !! PDX la with
  | Some _ => Ok (true, s)
  | None =>
      match next_tables (frames s) with
      | Some t :: r => Ok (true, set_tables (<[PDX la := t]> (tables (frames s))) (Est (xs s) (nmm s) (pages s) (rest r) (taken s)))
      | None :: r => none (Est (xs s) (nmm s) (pages s) (rest r) (taken s))
      | [] => none s
      end
  end.

(** A page that was mapped at [la] before goes back. *)
Definition page_insert (k la perm : Z) s : res (Z * est D) :=
  '(ok, s) ← get_pte la s;
  if negb ok then Ok (- E_NO_MEM, s)
  else
    let s := match pages s !! la with Some (old, _) => if old =? k then s else free_page old s | None => s end in
    Ok (0, Est (xs s) (nmm s) (<[la := (k, perm)]> (pages s)) (frames s) (taken s)).

Definition pgdir_alloc_page (la perm : Z) s : res (option Z * est D) :=
  '(o, s) ← alloc_page s;
  match o with
  | None => Ok (None, s)
  | Some k =>
      '(ret, s) ← page_insert k la perm s;
      Ok (if negb (ret =? 0) then (None, free_page k s) else (Some k, s))
  end.

(** [setup_pgdir]: the frame of the directory, which maps the kernel. *)
Definition setup_pgdir s : res (option Z * est D) := alloc_page s.
Definition put_pgdir (dir : Z) s : est D := free_page dir s.

(** [exit_mmap]: the pages that lie in the areas of the address space go back,
    then the tables of the areas, with whatever else they map. *)
Definition in_ranges (a : Z) (rs : list (Z * Z)) : bool := existsb (fun r => (r.1 <=? a) && (a <? r.2)) rs.
Definition in_tables (d : Z) (rs : list (Z * Z)) : bool := existsb (fun r => (PDX r.1 <=? d) && (Z.shiftl d 22 <? r.2)) rs.
Definition free_areas s : res (est D) :=
  '(rs, _) ← exit_mmap (nmm s);
  let gone := filter (fun x => in_ranges x.1 rs = true) (pages s) in
  let left := filter (fun x => in_tables (PDX x.1) rs = false) (pages s ∖ gone) in
  let s := set_tables (filter (fun x => in_tables x.1 rs = false) (tables (frames s))) s in
  Ok (Est (xs s) (nmm s) left (frames s) (taken s ∖ list_to_set ((fun x => x.2.1) <$> map_to_list gone))).

(** ** load_icode *)
Definition load_icode_read (n buf len offset : Z) s : res (Z * est D) :=
  '(ret, x) ← sysfile_seek n (i32 offset) LSEEK_SET (xs s);
  if negb (ret =? 0) then Ok (ret, set_xs x s)
  else
    '(ret, x) ← sysfile_read n buf len x;
    Ok (if negb (u32 ret =? len) then if ret <? 0 then ret else -1 else 0, set_xs x s).

(** Where a segment has got to: [start], [la], the frame of the last page. *)
Record cursor := Cur { c_start : Z; c_la : Z; c_page : Z }.

(** The piece of the page at [la] that is filled next. *)
Definition piece (c : cursor) (end_ : Z) : Z * Z :=
  let off := u32 (c_start c - c_la c) in
  let size := u32 (PGSIZE - off) in
  let la := u32 (c_la c + PGSIZE) in
  (off, if end_ <? la then u32 (size - (la - end_)) else size).

Fixpoint load_file (fuel : nat) (n end_ offset perm : Z) (c : cursor) s : res (Z * cursor * est D) :=
  match fuel with
  | O => Spin
  | S fuel =>
      if c_start c <? end_ then
        '(o, s) ← pgdir_alloc_page (c_la c) perm s;
        match o with
        | None => Ok (- E_NO_MEM, c, s)
        | Some k =>
            let '(off, size) := piece c end_ in
            let c := Cur (u32 (c_start c + size)) (u32 (c_la c + PGSIZE)) k in
            '(ret, s) ← load_icode_read n (k + off) size offset s;
            if negb (ret =? 0) then Ok (ret, c, s)
            else load_file fuel n end_ (u32 (offset + size)) perm c s
        end
      else Ok (0, c, s)
  end.

Fixpoint load_zero (fuel : nat) (end_ perm : Z) (c : cursor) s : res (Z * est D) :=
  match fuel with
  | O => Spin
  | S fuel =>
      if c_start c <? end_ then
        '(o, s) ← pgdir_alloc_page (c_la c) perm s;
        match o with
        | None => Ok (- E_NO_MEM, s)
        | Some k =>
            let '(off, size) := piece c end_ in
            let s := set_kram (memset (kram s) (k + off) 0 size) s in
            load_zero fuel end_ perm (Cur (u32 (c_start c + size)) (u32 (c_la c + PGSIZE)) k) s
        end
      else Ok (0, s)
  end.

(** The rest of the last page of the file; [None] when the segment is done. *)
Definition load_tail (end_ : Z) (c : cursor) s : res (option cursor * est D) :=
  if c_start c <? c_la c then
    if c_start c =? end_ then Ok (None, s)
    else
      let off := u32 (c_start c + PGSIZE - c_la c) in
      let size := u32 (PGSIZE - off) in
      let size := if end_ <? c_la c then u32 (size - (c_la c - end_)) else size in
      let s := set_kram (memset (kram s) (c_page c + off) 0 size) s in
      let start := u32 (c_start c + size) in
      _ ← kassert (((end_ <? c_la c) && (start =? end_)) || ((c_la c <=? end_) && (start =? c_la c)));
      Ok (Some (Cur start (c_la c) (c_page c)), s)
  else Ok (Some c, s).

Definition seg_flags (ph : proghdr) : Z :=
  Z.lor (Z.lor (if Z.land (p_flags ph) ELF_PF_X =? 0 then 0 else VM_EXEC) (if Z.land (p_flags ph) ELF_PF_W =? 0 then 0 else VM_WRITE))
    (if Z.land (p_flags ph) ELF_PF_R =? 0 then 0 else VM_READ).
Definition seg_perm (ph : proghdr) : Z := if Z.land (seg_flags ph) VM_WRITE =? 0 then PTE_U else Z.lor PTE_U PTE_W.

(** One segment; the fuel is one round per page. *)
Definition rounds (la end_ : Z) : nat := S (S (Z.to_nat ((end_ - la) / PGSIZE))).
Definition load_seg (n : Z) (ph : proghdr) s : res (Z * est D) :=
  '(ret, _, m) ← mm_map (nmm s) (p_va ph) (p_memsz ph) (seg_flags ph);
  let s := set_nmm m s in
  if negb (ret =? 0) then Ok (ret, s)
  else
    let la := ROUNDDOWN (p_va ph) PGSIZE in
    let end_ := u32 (p_va ph + p_filesz ph) in
    '(ret, c, s) ← load_file (rounds la end_) n end_ (p_offset ph) (seg_perm ph) (Cur (p_va ph) la 0) s;
    if negb (ret =? 0) then Ok (ret, s)
    else
      let end_ := u32 (p_va ph + p_memsz ph) in
      '(o, s) ← load_tail end_ c s;
      match o with None => Ok (0, s) | Some c => load_zero (rounds (c_la c) end_) end_ (seg_perm ph) c s end.

(** The program headers from [phnum] on, [k] of them; [loc]: the address of
    the kernel's own [struct proghdr]. *)
Fixpoint load_phs (k : nat) (n loc phoff phnum : Z) s : res (Z * est D) :=
  match k with
  | O => Ok (0, s)
  | S k =>
      '(ret, s) ← load_icode_read n loc PROGHDR_SIZE (u32 (phoff + PROGHDR_SIZE * phnum)) s;
      if negb (ret =? 0) then Ok (ret, s)
      else
        let ph := ph_at (kram s) loc in
        if negb (p_type ph =? ELF_PT_LOAD) then load_phs k n loc phoff (phnum + 1) s
        else if p_memsz ph <? p_filesz ph then Ok (- E_INVAL_ELF, s)
        else if p_filesz ph =? 0 then load_phs k n loc phoff (phnum + 1) s
        else
          '(ret, s) ← load_seg n ph s;
          if negb (ret =? 0) then Ok (ret, s) else load_phs k n loc phoff (phnum + 1) s
  end.

(** A store of the kernel to an address of the process; a page of the stack
    that is not there yet is brought in by the page fault. *)
Definition upoke (a v : Z) s : res (est D) :=
  let la := a - a mod PGSIZE in
  match pages s !! la with
  | Some (k, _) => Ok (set_kram (upd (kram s) (k + a mod PGSIZE) v) s)
  | None =>
      '(o, s) ← pgdir_alloc_page la (Z.lor PTE_U PTE_W) s;
      match o with Some k => Ok (set_kram (upd (kram s) (k + a mod PGSIZE) v) s) | None => Panic end
  end.
Fixpoint upokes (a : Z) (l : list Z) s : res (est D) :=
  match l with [] => Ok s | v :: l => s ← upoke a v s; upokes (a + 1) l s end.

(** The arguments, as the kernel has them. *)
Definition arg_at (kargv : Z) s : list Z := cstring (Z.to_nat (EXEC_MAX_ARG_LEN + 1)) (kram s) kargv.
Definition arg_size (kargv : list Z) s : Z := foldl (fun z k => u32 (z + (Z.of_nat (length (arg_at k s)) + 1))) 0 kargv.

(** The strings go up from [stacktop], the pointers to [uargv]. *)
Fixpoint put_args (kargv : list Z) (uargv stacktop argv_size : Z) s : res (est D) :=
  match kargv with
  | [] => Ok s
  | k :: kargv =>
      let arg := arg_at k s in
      s ← upokes (stacktop + argv_size) (arg ++ [0]) s;
      s ← upokes uargv (le32_bytes (stacktop + argv_size)) s;
      put_args kargv (uargv + 4) stacktop (u32 (argv_size + (Z.of_nat (length arg) + 1))) s
  end.

Definition setup_args (kargv : list Z) s : res (Z * est D) :=
  let argc := Z.of_nat (length kargv) in
  let stacktop := u32 (USTACKTOP - (arg_size kargv s / 4 + 1) * 4) in
  let uargv := u32 (stacktop - argc * 4) in
  s ← put_args kargv uargv stacktop 0 s;
  let stacktop := u32 (uargv - 4) in
  s ← upokes stacktop (le32_bytes argc) s;
  Ok (stacktop, s).

(** The four stack pages that are mapped at once. *)
Definition stack_pages s : res (est D) :=
  let page k s := '(o, s) ← pgdir_alloc_page (USTACKTOP - k * PGSIZE) PTE_USER s; match o with Some _ => Ok s | None => Panic end in
  s ← page 1 s; s ← page 2 s; s ← page 3 s; page 4 s.

(** Give back what was built so far. *)
Definition bad_cleanup_mmap (dir ret : Z) s : res (Z * option trapframe * est D) :=
  s ← free_areas s;
  let s := put_pgdir dir s in
  _ ← mm_destroy (nmm s);
  Ok (ret, None, s).
Definition bad_elf_cleanup_pgdir (dir ret : Z) s : res (Z * option trapframe * est D) :=
  let s := put_pgdir dir s in _ ← mm_destroy (nmm s); Ok (ret, None, s).

(** [mm_count_inc], [mm_count_dec]. *)
Definition mm_count_add (d : Z) (m : vmst) : vmst :=
  Vmst (Mm (mm_addr (mm m)) (mmap_list (mm m)) (mmap_cache (mm m)) (map_count (mm m)) (mm_count (mm m) + d)) (vmas m) (pool m) (unmapped m).

(** The memory of the process after [lcr3]: what its pages hold. *)
Definition view s (a : Z) : option Z := x ← pages s !! (a - a mod PGSIZE); Some (kram s (x.1 + a mod PGSIZE)).
Definition run_with (m : vmst) s : est D :=
  let mem' a := if a <? KERNBASE then default (kram s a) (view s a) else kram s a in
  set_nmm m (set_xs (set_user (Some m) mem' (xs s)) s).

(** The state seen from the address space [m], in which nothing is mapped. *)
Definition new_space (m : vmst) s : est D := set_tables ∅ (Est (xs s) m ∅ (frames s) (taken s)).

(** [newmm]: what [mm_create] returns; [locs]: the addresses of the kernel's
    own [struct elfhdr] and [struct proghdr].  The result, and the trap frame
    of the new program. *)
Definition load_icode (newmm : option vmst) (locs : Z * Z) (n : Z) (kargv : list Z) s : res (Z * option trapframe * est D) :=
  _ ← kassert (Z.of_nat (length kargv) <=? EXEC_MAX_ARG_NUM);
  _ ← kassert (match um (xs s) with None => true | Some _ => false end);
  match newmm with
  | None => Ok (- E_NO_MEM, None, s)
  | Some m =>
      let s := new_space m s in
      '(o, s) ← setup_pgdir s;
      match o with
      | None => _ ← mm_destroy (nmm s); Ok (- E_NO_MEM, None, s)
      | Some dir =>
          '(ret, s) ← load_icode_read n locs.1 ELFHDR_SIZE 0 s;
          let elf := elf_at (kram s) locs.1 in
          if negb (ret =? 0) then bad_elf_cleanup_pgdir dir ret s
          else if negb (e_magic elf =? ELF_MAGIC) then bad_elf_cleanup_pgdir dir (- E_INVAL_ELF) s
          else
            '(ret, s) ← load_phs (Z.to_nat (e_phnum elf)) n locs.2 (e_phoff elf) 0 s;
            if negb (ret =? 0) then bad_cleanup_mmap dir ret s
            else
              '(_, x) ← sysfile_close n (xs s);
              '(ret, _, m) ← mm_map (nmm s) (USTACKTOP - USTACKSIZE) USTACKSIZE (Z.lor VM_READ (Z.lor VM_WRITE VM_STACK));
              let s := set_nmm m (set_xs x s) in
              if negb (ret =? 0) then bad_cleanup_mmap dir ret s
              else
                s ← stack_pages s;
                '(esp, s) ← setup_args kargv s;
                Ok (0, Some (Tf USER_CS USER_DS USER_DS USER_DS esp (e_entry elf) FL_IF), run_with (mm_count_add 1 (nmm s)) s)
      end
  end.

(** ** do_execve *)
Definition put_kargv (kargv : list Z) s : est D := set_xs (foldr kfree (xs s) kargv) s.

(** The result and the copies, [i] of [argc] done. *)
Fixpoint copy_args (k : nat) (argv : Z) (kargv : list Z) s : res (Z * list Z * est D) :=
  match k with
  | O => Ok (0, kargv, s)
  | S k =>
      let '(buffer, x) := kmalloc (xs s) in
      if buffer =? 0 then Ok (- E_NO_MEM, [], put_kargv kargv (set_xs x s))
      else
        '(ok, m, u) ← copy_string 3 (um x) (ram x) buffer (le32_at (ram x) argv) (EXEC_MAX_ARG_LEN + 1);
        let x := set_user u m x in
        if negb ok then Ok (- E_INVAL, [], put_kargv kargv (set_xs (kfree buffer x) s))
        else copy_args k (argv + 4) (kargv ++ [buffer]) (set_xs x s)
  end.
Definition copy_kargv (argc argv : Z) s : res (Z * list Z * est D) :=
  '(ok, u) ← user_mem_check (um (xs s)) argv (4 * argc) false;
  let s := set_xs (set_user u (kram s) (xs s)) s in
  if negb ok then Ok (- E_INVAL, [], s) else copy_args (Z.to_nat argc) argv [] s.

(** Leave the old address space; [olddir]: the frame of its directory. *)
Definition drop_mm (olddir : Z) s : res (est D) :=
  match um (xs s) with
  | None => Ok s
  | Some m =>
      let m := mm_count_add (-1) m in
      s ← (if mm_count (mm m) =? 0 then s ← free_areas (set_nmm m s); _ ← mm_destroy m; Ok (put_pgdir olddir s) else Ok s);
      Ok (set_xs (set_user None (kram s) (xs s)) s)
  end.

(** It returns, or ends in [do_exit]. *)
Inductive exec_end := Returns (ret : Z) | Exits (code : Z).

(** [lname]: the address of the kernel's copy of the name; [null_name]: what
    [snprintf] stores there when there is no name. *)
Definition do_execve (newmm : option vmst) (locs : Z * Z) (olddir lname : Z) (null_name : list Z) (name argc argv : Z) s :
    res (exec_end * option trapframe * est D) :=
  if negb ((1 <=? argc) && (argc <=? EXEC_MAX_ARG_NUM)) then Ok (Returns (- E_INVAL), None, s)
  else
    let s := set_kram (memset (kram s) lname 0 (PROC_NAME_LEN + 1)) s in
    '(ok, m, u) ← (if name =? 0 then Ok (true, store (kram s) lname null_name, um (xs s))
                   else copy_string 2 (um (xs s)) (kram s) lname name (PROC_NAME_LEN + 1));
    let s := set_xs (set_user u m (xs s)) s in
    if negb ok then Ok (Returns (- E_INVAL), None, s)
    else
      '(ret, kargv, s) ← copy_kargv argc argv s;
      if negb (ret =? 0) then Ok (Returns ret, None, s)
      else
        let path := le32_at (kram s) argv in
        '(fd, x) ← sysfile_open path O_RDONLY (xs s);
        let s := set_xs x s in
        if fd <? 0 then Ok (Exits fd, None, put_kargv kargv s)
        else
          s ← drop_mm olddir s;
          '(ret, tf, s) ← load_icode newmm locs fd kargv s;
          Ok (if ret =? 0 then Returns 0 else Exits ret, tf, put_kargv kargv s).
End exec.

(** ** Decoding of the headers from the bytes of the file *)
Definition mem_of (l : list Z) : mem := fun a => default 0 (l !! Z.to_nat a).
Definition elf_dec (l : list Z) : elfhdr := elf_at (mem_of l) 0.
Definition ph_dec (l : list Z) : proghdr := ph_at (mem_of l) 0.

Lemma load_mem m a n l k : load m a n = l -> 0 <= k < n -> m (a + k) = mem_of l (0 + k).
Proof. intros <- Hk. unfold mem_of. rewrite lookup_load by lia. simpl. f_equal. lia. Qed.

Lemma le32_load m a n l k : load m a n = l -> 0 <= k -> k + 4 <= n -> le32_at m (a + k) = le32_at (mem_of l) (0 + k).
Proof.
  intros Hl H0 H1. unfold le32_at. rewrite <- !Z.add_assoc. by rewrite !(load_mem m a n l) by (done || lia).
Qed.

Lemma elf_load m a l : load m a ELFHDR_SIZE = l -> elf_at m a = elf_dec l.
Proof.
  intros Hl. unfold elf_dec, elf_at, ELFHDR_SIZE in *.
  pose proof (le32_load m a 52 l 0 Hl) as H0. rewrite !Z.add_0_r in H0. rewrite H0 by lia.
  rewrite (le32_load m a 52 l 24), (le32_load m a 52 l 28) by (done || lia). f_equal.
  unfold le16_at. rewrite <- !Z.add_assoc. by rewrite !(load_mem m a 52 l) by (done || lia).
Qed.

Lemma ph_load m a l : load m a PROGHDR_SIZE = l -> ph_at m a = ph_dec l.
Proof.
  intros Hl. unfold ph_dec, ph_at, PROGHDR_SIZE in *.
  pose proof (le32_load m a 32 l 0 Hl) as H0. rewrite !Z.add_0_r in H0. rewrite H0 by lia.
  rewrite (le32_load m a 32 l 4), (le32_load m a 32 l 8), (le32_load m a 32 l 16), (le32_load m a 32 l 20), (le32_load m a 32 l 24) by (done || lia). done.
Qed.

(** ** Kernel pages *)
Definition kpage (k : Z) : Prop := k mod PGSIZE = 0 /\ KERNBASE <= k /\ k + PGSIZE <= KERNTOP.
Definition within (k x : Z) : Prop := k <= x < k + PGSIZE.

Lemma kpage_apart k k' x : kpage k -> kpage k' -> within k x -> within k' x -> k = k'.
Proof.
  unfold kpage, within, PGSIZE. intros (H1 & _) (H2 & _) H3 H4. pose proof (Z.div_mod k 4096 ltac:(lia)). pose proof (Z.div_mod k' 4096 ltac:(lia)). lia.
Qed.

(** The address of the page of [a]. *)
Lemma page_unique la a : la mod PGSIZE = 0 -> la <= a < la + PGSIZE -> a - a mod PGSIZE = la /\ a mod PGSIZE = a - la.
Proof.
  unfold PGSIZE. intros Hm Ha. pose proof (Z.div_mod la 4096 ltac:(lia)). pose proof (Z.div_mod a 4096 ltac:(lia)). pose proof (Z.mod_pos_bound a 4096 ltac:(lia)). lia.
Qed.

Lemma page_of a : (a - a mod PGSIZE) mod PGSIZE = 0 /\ a - a mod PGSIZE <= a < a - a mod PGSIZE + PGSIZE.
Proof.
  unfold PGSIZE. pose proof (Z.mod_pos_bound a 4096 ltac:(lia)). split; [|lia]. pose proof (Z.div_mod a 4096 ltac:(lia)).
  replace (a - a mod 4096) with (a / 4096 * 4096) by lia. apply Z.mod_mul. lia.
Qed.

Section loading.
Context {D : Type} `{IL : InodeLaws D} `{FO : FsOps}.
(** The descriptor, its inode and bytes; the buffer of [sysfile_read]; the
    page with the kernel's own headers; the copies of the arguments; the
    frames for page tables. *)
Variables (n nd : Z) (b : list Z) (cap : Z) (wr : bool) (kb lp : Z) (kargv ts : list Z).
Hypotheses (kb_page : kpage kb) (lp_page : kpage lp) (kb_lp : kb <> lp).
Implicit Type s : est D.

(** The next [k] reads find their buffer. *)
Record reader s (k : nat) : Prop := {
  rr_open : exists p, opened (ft (xs s)) n nd p true wr /\ 0 < open_count (inode_at (fv (ft (xs s))) nd);
  rr_user : um (xs s) = None;
  rr_file : holds (dsk (xs s)) nd b cap;
  rr_supply : exists rest, supply (xs s) = replicate k (Some kb) ++ rest;
  rr_bufs : kb ∉ bufs (xs s)
}.

(** [fs]: frames to come, with as many of [ts]: those before are the tables,
    one for each directory index with a page.  The frames to come, the buffer, the headers and the frames in
    use are different pages of the kernel. *)
Record layout s (fs : list Z) : Prop := {
  ly_frames : exists rest, next_pages (frames s) = (Some <$> fs) ++ rest;
  ly_tables : exists i rest, next_tables (frames s) = (Some <$> drop i ts) ++ rest /\ (length fs + i <= length ts)%nat /\
    (map_to_list (tables (frames s))).*2 ≡ₚ take i ts;
  ly_dirs : forall d, is_Some (tables (frames s) !! d) <-> exists la, is_Some (pages s !! la) /\ PDX la = d;
  ly_nodup : NoDup fs;
  ly_new : forall k, k ∈ fs -> kpage k /\ k <> kb /\ k <> lp /\ k ∉ kargv;
  ly_used : forall la x, pages s !! la = Some x -> la mod PGSIZE = 0 /\ kpage x.1 /\ x.1 <> kb /\ x.1 <> lp /\ x.1 ∉ fs /\ x.1 ∉ kargv;
  ly_inj : forall la la' x x', pages s !! la = Some x -> pages s !! la' = Some x' -> x.1 = x'.1 -> la = la'
}.

(** Memory outside the pages of [F] is as before. *)
Definition kmem_kept (F : list Z) s s' : Prop := forall x, (forall k, k ∈ F -> ~ within k x) -> kram s' x = kram s x.

Lemma kmem_kept_trans F F' s1 s2 s3 : kmem_kept F s1 s2 -> kmem_kept F' s2 s3 -> kmem_kept (F ++ F') s1 s3.
Proof. intros H1 H2 x Hx. rewrite H2, H1; [done| |]; intros k Hk; apply Hx, elem_of_app; auto. Qed.

Lemma kmem_kept_sub F F' s s' : kmem_kept F s s' -> (forall k, k ∈ F -> k ∈ F') -> kmem_kept F' s s'.
Proof. intros Hk HF x Hx. apply Hk. intros k ?. by apply Hx, HF. Qed.

(** A store into a part of the frame of one page. *)
Lemma view_write s s' fs la k perm off size :
  layout s fs -> pages s !! la = Some (k, perm) -> pages s' = pages s -> 0 <= off -> off + size <= PGSIZE ->
  (forall x, ~ (k + off <= x < k + off + size) -> ~ within kb x -> ~ within lp x -> kram s' x = kram s x) ->
  forall a, view s' a = if decide (la + off <= a < la + off + size) then Some (kram s' (k + (a - la))) else view s a.
Proof.
  intros Hly Hla Hpg Ho Hsz Hm a. destruct (ly_used _ _ Hly _ _ Hla) as (Hal & Hk & Hkb & Hlp & _). simpl in *.
  unfold view. rewrite Hpg. destruct (page_of a) as [Hp1 Hp2]. set (pa := a - a mod PGSIZE) in *. assert (Hoff : a mod PGSIZE = a - pa) by lia. rewrite Hoff.
  destruct (pages s !! pa) as [[k' pm]|] eqn:Hpa; simpl.
  2: { rewrite decide_False; [done|]. intros Ha. destruct (page_unique la a Hal) as [E _]; [unfold PGSIZE in *; lia|]. fold pa in E. congruence. }
  destruct (ly_used _ _ Hly _ _ Hpa) as (_ & Hk' & Hkb' & Hlp' & _). simpl in *.
  assert (Hnb : ~ within kb (k' + (a - pa))). { intros Hw. apply Hkb'. eapply kpage_apart; try done. unfold within. lia. }
  assert (Hnl : ~ within lp (k' + (a - pa))). { intros Hw. apply Hlp'. eapply kpage_apart; try done. unfold within. lia. }
  destruct (decide (la + off <= a < la + off + size)) as [Ha|Ha].
  - destruct (page_unique la a Hal) as [E _]; [unfold PGSIZE in *; lia|]. fold pa in E. rewrite E in *. simplify_eq. done.
  - f_equal. apply Hm; [|done|done]. intros Hx. destruct (decide (pa = la)) as [->|Hne].
    + simplify_eq. lia.
    + apply Hne, (ly_inj _ _ Hly _ _ _ _ Hpa Hla). simpl. eapply (kpage_apart k' k (k' + (a - pa))); try done; unfold within; lia.
Qed.

(** A change of memory the pages do not see. *)
Lemma view_kept s s' fs :
  layout s fs -> pages s' = pages s -> (forall x, ~ within kb x -> ~ within lp x -> kram s' x = kram s x) -> forall a, view s' a = view s a.
Proof.
  intros Hly Hpg Hm a. unfold view. rewrite Hpg. destruct (page_of a) as [Hp1 Hp2]. set (pa := a - a mod PGSIZE) in *.
  destruct (pages s !! pa) as [[k' pm]|] eqn:Hpa; simpl; [|done]. destruct (ly_used _ _ Hly _ _ Hpa) as (_ & Hk' & Hkb' & Hlp' & _). simpl in *.
  f_equal. apply Hm; intros Hw; [apply Hkb'|apply Hlp']; eapply kpage_apart; try done; unfold within; lia.
Qed.

Lemma layout_same s s' fs : layout s fs -> pages s' = pages s -> frames s' = frames s -> layout s' fs.
Proof. intros [] Hp Hf. constructor; rewrite ?Hp, ?Hf; done. Qed.

(** The table for a new page. *)
Lemma table_ready s k fs la perm :
  layout s (k :: fs) -> pages s !! la = None ->
  exists f, (forall s1, pages s1 = pages s -> next_tables (frames s1) = next_tables (frames s) -> tables (frames s1) = tables (frames s) ->
      exists r t, page_insert k la perm s1 =
        Ok (0, Est (xs s1) (nmm s1) (<[la := (k, perm)]> (pages s)) (Supplies (next_pages (frames s1)) r t (swap_init_ok (frames s1))) (taken s1)) /\
        (r, t) = f) /\
    (exists i rest, f.1 = (Some <$> drop i ts) ++ rest /\ (length fs + i <= length ts)%nat /\ (map_to_list f.2).*2 ≡ₚ take i ts) /\
    (forall d, is_Some (f.2 !! d) <-> exists la', is_Some (<[la := (k, perm)]> (pages s) !! la') /\ PDX la' = d).
Proof.
  intros Hly Hno. destruct (ly_tables _ _ Hly) as (i & rest & Hn & Hi & Hp). simpl in Hi. pose proof (ly_dirs _ _ Hly) as Hd.
  assert (Hdir : forall t : gmap Z Z, (forall d, is_Some (t !! d) <-> is_Some (tables (frames s) !! d) \/ d = PDX la) ->
    forall d, is_Some (t !! d) <-> exists la', is_Some (<[la := (k, perm)]> (pages s) !! la') /\ PDX la' = d).
  { intros t Ht d. rewrite Ht, Hd. split.
    - intros [(la' & H1 & H2)| ->]; [|exists la; by rewrite lookup_insert_eq].
      exists la'. split; [|done]. rewrite lookup_insert_ne; [done|]. intros <-. rewrite Hno in H1. by destruct H1.
    - intros (la' & H1 & H2). destruct (decide (la' = la)) as [->|Hne]; [by right|]. rewrite lookup_insert_ne in H1 by done. left. eauto. }
  destruct (tables (frames s) !! PDX la) as [t0|] eqn:Ht.
  - exists (next_tables (frames s), tables (frames s)). split; [|split].
    + intros s1 E1 E2 E3. unfold page_insert, get_pte. rewrite E3, Ht. cbn [mbind res_bind negb]. rewrite E1, Hno.
      exists (next_tables (frames s)), (tables (frames s)). split; [|done]. rewrite <- E1, <- E2, <- E3. by destruct (frames s1).
    + exists i, rest. split_and!; try done. lia.
    + apply Hdir. intros d. cbn [snd]. split; [by left|]. intros [?| ->]; [done|by rewrite Ht].
  - assert (Hlt : (i < length ts)%nat) by lia. destruct (lookup_lt_is_Some_2 ts i Hlt) as [t0 Ht0].
    pose proof (drop_S _ _ _ Ht0) as Hdr. rewrite Hdr in Hn. cbn [fmap list_fmap app] in Hn.
    exists ((Some <$> drop (S i) ts) ++ rest, <[PDX la := t0]> (tables (frames s))). split; [|split].
    + intros s1 E1 E2 E3. unfold page_insert, get_pte. rewrite E3, Ht, E2, Hn. cbn [mbind res_bind negb pages set_tables]. rewrite E1, Hno.
      eexists _, _. split; done.
    + exists (S i), rest. split_and!; [done|lia|]. cbn [snd]. rewrite map_to_list_insert by done. cbn [fmap list_fmap snd]. rewrite Hp.
      rewrite (take_S_r _ _ _ Ht0). by rewrite Permutation_cons_append.
    + apply Hdir. intros d. cbn [snd]. destruct (decide (d = PDX la)) as [->|Hne].
      * rewrite lookup_insert_eq. split; [by right|by eexists].
      * rewrite lookup_insert_ne by done. split; [by left|]. by intros [?|?].
Qed.

(** A new page. *)
Lemma alloc_layout s k fs la perm :
  layout s (k :: fs) -> la mod PGSIZE = 0 -> pages s !! la = None ->
  exists s', pgdir_alloc_page la perm s = Ok (Some k, s') /\ layout s' fs /\ pages s' = <[la := (k, perm)]> (pages s) /\
    xs s' = xs s /\ nmm s' = nmm s /\ taken s' = {[k]} ∪ taken s /\
    (forall a, ~ within la a -> view s' a = view s a).
Proof.
  intros Hly Hal Hno. destruct (table_ready s k fs la perm Hly Hno) as ([r t] & Hins & Htab & Hdir).
  destruct Hly as [[rest Hf] _ _ Hnd Hnew Hus Hinj]. apply NoDup_cons in Hnd as [Hk Hnd].
  unfold pgdir_alloc_page, alloc_page. rewrite Hf. cbn [fmap list_fmap app mbind res_bind].
  match goal with |- context [page_insert k la perm ?s1] => destruct (Hins s1) as (r' & t' & -> & [= -> ->]); [done..|] end.
  cbn [mbind res_bind]. change (negb (0 =? 0)) with false. cbv iota. eexists. split; [done|]. cbn [pages xs nmm taken].
  destruct (Hnew k) as (Hkp & Hkb & Hkl & Hka); [by left|]. split_and!; try done.
  - constructor; simpl; [by eexists|done|done|done|intros; by apply Hnew; right| |].
    + intros la' x Hx. destruct (decide (la' = la)) as [->|Hne].
      * rewrite lookup_insert_eq in Hx. by simplify_eq.
      * rewrite lookup_insert_ne in Hx by done. destruct (Hus _ _ Hx) as (? & ? & ? & ? & Hn & ?). split_and!; try done. intros ?. apply Hn. by right.
    + intros la1 la2 x x' H1 H2 He. destruct (decide (la1 = la)) as [->|N1], (decide (la2 = la)) as [->|N2]; [done| | |].
      * rewrite lookup_insert_eq in H1. rewrite lookup_insert_ne in H2 by done. destruct (Hus _ _ H2) as (_ & _ & _ & _ & Hn & _). simplify_eq/=. destruct Hn. by left.
      * rewrite lookup_insert_eq in H2. rewrite lookup_insert_ne in H1 by done. destruct (Hus _ _ H1) as (_ & _ & _ & _ & Hn & _). simplify_eq/=. destruct Hn. by left.
      * rewrite lookup_insert_ne in H1, H2 by done. by eapply Hinj.
  - intros a Ha. unfold view. simpl. destruct (page_of a) as [_ Hp2]. rewrite lookup_insert_ne; [done|]. intros E. apply Ha. unfold within. rewrite <- E in Hp2. lia.
Qed.

(** A read of [len] bytes of the file at [off]. *)
Lemma icode_read_ok s k buf len off :
  reader s (S k) -> KERNBASE <= buf -> buf + len <= KERNTOP -> buf + len <= kb \/ kb + PGSIZE <= buf -> 0 < len ->
  0 <= off -> off + len <= Z.of_nat (length b) ->
  exists s', load_icode_read n buf len off s = Ok (0, s') /\ reader s' k /\
    pages s' = pages s /\ frames s' = frames s /\ nmm s' = nmm s /\ taken s' = taken s /\
    load (kram s') buf len = part b off len /\
    (forall x, ~ (buf <= x < buf + len) -> ~ within kb x -> kram s' x = kram s x).
Proof.
  intros [(p & Ho & Hoc) Hu Hh (rest & Hs) Hb] H1 H2 Hap Hl Hof Hlen. pose proof limit_range. pose proof (cap_limit _ _ _ _ Hh).
  assert (Hav : avail b off len = len) by (unfold avail; lia).
  unfold load_icode_read. rewrite i32_small by lia. rewrite (seek_spec_ok (xs s) n nd p off b cap true wr) by (done || lia). cbn [mbind res_bind].
  change (negb (0 =? 0)) with false. cbv iota. set (x1 := set_ft (at_pos n off (ft (xs s))) (xs s)).
  destruct (read_spec_ok x1 [] n nd off b cap kb buf len wr) as (x' & Hr & (_ & _ & _ & Hb' & Hu') & Hs' & Hft & Hd & Hld & Hm).
  { constructor; try done; [by eapply at_pos_opened|simpl; rewrite Hs; by eexists|unfold kpage, PGSIZE, KERNTOP in *; lia]. }
  { simpl. rewrite Hu. done. } { unfold apart, PGSIZE in *. lia. } { done. } { done. } { lia. }
  rewrite Hav in Hr, Hft, Hld, Hm. rewrite Hr. cbn [mbind res_bind]. rewrite u32_small by lia. rewrite Z.eqb_refl. cbn [negb].
  exists (set_xs x' s). split; [done|]. split_and!; try done.
  - simpl in Hu', Hs', Hft, Hd, Hb'. constructor; cbn [xs set_xs].
    + exists (off + len). rewrite Hft. split; [|done]. eapply at_pos_opened, at_pos_opened. done.
    + rewrite Hu in Hu'. by destruct (um x').
    + by rewrite Hd.
    + exists rest. by rewrite Hs', Hs.
    + by rewrite Hb'.
  - intros x Hx Hx2. apply Hm; [lia|]. unfold within, PGSIZE in Hx2. lia.
Qed.

(** ** One segment *)

(** The bytes [start .. end_) of the process are those of the file from [off]
    on. *)
Definition file_at s (start end_ off : Z) : Prop :=
  forall a, start <= a < end_ -> view s a = b !! Z.to_nat (off + (a - start)).
Definition zero_at s (start end_ : Z) : Prop := forall a, start <= a < end_ -> view s a = Some 0.

(** What is outside of [lo .. hi) stays. *)
Definition view_outside s s' (lo hi : Z) : Prop := forall a, ~ (lo <= a < hi) -> view s' a = view s a.

(** Pages [lo .. hi) are new. *)
Definition pages_new s (lo hi : Z) : Prop := forall la, lo <= la < hi -> pages s !! la = None.
Definition pages_outside s s' (lo hi : Z) : Prop := forall la, ~ (lo <= la < hi) -> pages s' !! la = pages s !! la.

Lemma piece_ok start la pg end_ :
  0 <= la -> la <= start < la + PGSIZE -> start < end_ -> la + PGSIZE < 2 ^ 32 -> end_ < 2 ^ 32 ->
  piece (Cur start la pg) end_ = (start - la, Z.min (la + PGSIZE) end_ - start).
Proof.
  unfold piece, PGSIZE. intros H0 H1 H2 H3 H4. cbn [c_start c_la]. rewrite (u32_small (start - la)) by lia. rewrite (u32_small (4096 - _)) by lia.
  rewrite (u32_small (la + 4096)) by lia. f_equal. destruct (Z.ltb_spec end_ (la + 4096)); [rewrite u32_small; lia|lia].
Qed.

Record file_done s s' (start la end_ off perm : Z) (used : list Z) (c : cursor) : Prop := {
  fd_start : c_start c = end_;
  fd_la : c_la c mod PGSIZE = 0 /\ la + PGSIZE <= c_la c /\ c_la c - PGSIZE < end_ <= c_la c;
  fd_page : pages s' !! (c_la c - PGSIZE) = Some (c_page c, perm);
  fd_used : c_page c ∈ used;
  fd_file : file_at s' start end_ off;
  fd_view : view_outside s s' la (c_la c);
  fd_pages : pages_outside s s' la (c_la c);
  fd_len : Z.of_nat (length used) * PGSIZE = c_la c - la;
  fd_nmm : nmm s' = nmm s;
  fd_taken : taken s' = list_to_set used ∪ taken s;
  fd_kmem : kmem_kept (kb :: used) s s'
}.

Lemma load_part m a len off j x : load m a len = part b off len -> 0 <= off -> 0 <= j < len -> x = a + j -> Some (m x) = b !! Z.to_nat (off + j).
Proof.
  intros Hl Ho Hj ->. replace (a + j) with (a + Z.of_nat (Z.to_nat j)) by lia. rewrite <- (lookup_load m a len) by lia. rewrite Hl. unfold part. rewrite lookup_take_lt, lookup_drop by lia.
  f_equal. lia.
Qed.

(** One page of the file part. *)
Lemma file_page s f fs start la end_ off perm k pg fuel :
  layout s (f :: fs) -> reader s (S k) -> la mod PGSIZE = 0 -> 0 <= la -> la <= start < la + PGSIZE -> start < end_ -> end_ <= USERTOP ->
  0 <= off -> off + (end_ - start) <= Z.of_nat (length b) -> pages s !! la = None ->
  let stop := Z.min (la + PGSIZE) end_ in
  exists s', load_file (S fuel) n end_ off perm (Cur start la pg) s = load_file fuel n end_ (off + (stop - start)) perm (Cur stop (la + PGSIZE) f) s' /\
    layout s' fs /\ reader s' k /\ pages s' = <[la := (f, perm)]> (pages s) /\ nmm s' = nmm s /\ taken s' = {[f]} ∪ taken s /\
    file_at s' start stop off /\ view_outside s s' la (la + PGSIZE) /\ kmem_kept [kb; f] s s'.
Proof.
  intros Hly Hrd Hal H0 Hst Hlt Hend Hof Hlen Hno stop. pose proof limit_range. pose proof (cap_limit _ _ _ _ (rr_file _ _ Hrd)).
  destruct (ly_new _ _ Hly f) as (Hfp & Hfb & Hfl & _); [by left|]. destruct (alloc_layout s f fs la perm Hly Hal Hno) as (s1 & Ha & Hly1 & Hpg1 & Hxs1 & Hnm1 & Htk1 & Hv1).
  assert (Hsz : 0 < stop - start <= PGSIZE) by (unfold stop, PGSIZE in *; lia). unfold kpage in Hfp. unfold USERTOP in *.
  destruct (icode_read_ok s1 k (f + (start - la)) (stop - start) off) as (s2 & He & Hrd2 & Hpg2 & Hfr2 & Hnm2 & Htk2 & Hl2 & Hm2); try (unfold PGSIZE in *; lia).
  { destruct Hrd. constructor; by rewrite Hxs1. }
  { destruct (decide (kb < f)); [right|left]; [|assert (f < kb) by lia]; unfold kpage, PGSIZE in *;
      pose proof (Z.div_mod f 4096 ltac:(lia)); pose proof (Z.div_mod kb 4096 ltac:(lia)); unfold stop in *; lia. }
  exists s2. split.
  { cbn [load_file c_start c_la]. rewrite (proj2 (Z.ltb_lt start end_)), Ha by done. cbn [mbind res_bind]. rewrite piece_ok by (done || unfold PGSIZE in *; lia). fold stop.
    rewrite He. cbn [mbind res_bind]. change (negb (0 =? 0)) with false. cbv iota. rewrite !u32_small by (unfold stop, PGSIZE in *; lia).
    replace (start + (stop - start)) with stop by lia. done. }
  assert (Hvw : forall a, view s2 a = if decide (la + (start - la) <= a < la + (start - la) + (stop - start)) then Some (kram s2 (f + (a - la))) else view s1 a).
  { apply (view_write s1 s2 fs la f perm (start - la) (stop - start)); try done.
    - by rewrite Hpg1, lookup_insert_eq. - lia. - unfold stop. lia.
    - intros x Hx Hxb _. apply Hm2; [lia|done]. }
  split_and!; try congruence; try done.
  - by eapply layout_same.
  - intros a Hr. rewrite Hvw, decide_True by lia. eapply load_part; [done|done|lia|lia].
  - intros a Hr. rewrite Hvw, decide_False by (unfold stop in *; lia). apply Hv1. unfold within. lia.
  - intros x Hx. rewrite Hm2; [unfold kram; by rewrite Hxs1| |apply Hx; by left].
    intros Hr. apply (Hx f); [right; by left|]. unfold within, stop in *. lia.
Qed.

Lemma load_file_ok m : forall s fs start la end_ off perm k pg fuel,
  layout s fs -> reader s k -> la mod PGSIZE = 0 -> 0 <= la -> la <= start < la + PGSIZE -> start < end_ -> end_ <= USERTOP ->
  0 <= off -> off + (end_ - start) <= Z.of_nat (length b) -> pages_new s la end_ ->
  Z.of_nat m * PGSIZE < end_ - la <= Z.of_nat (S m) * PGSIZE -> (S m <= length fs)%nat -> (S m <= k)%nat -> (S m < fuel)%nat ->
  exists c s', load_file fuel n end_ off perm (Cur start la pg) s = Ok (0, c, s') /\ layout s' (drop (S m) fs) /\ reader s' (k - S m) /\
    file_done s s' start la end_ off perm (take (S m) fs) c.
Proof.
  induction m as [|m IH]; intros s fs start la end_ off perm k pg fuel Hly Hrd Hal H0 Hst Hlt Hend Hof Hlen Hnew Hm Hfs Hk Hfu;
    (destruct fuel as [|fuel]; [lia|]); (destruct fs as [|f fs]; [simpl in Hfs; lia|]); (destruct k as [|k]; [lia|]);
    (destruct (file_page s f fs start la end_ off perm k pg fuel) as (s1 & He & Hly1 & Hrd1 & Hpg1 & Hnm1 & Htk1 & Hfa1 & Hv1 & Hkm1);
      [done..|apply Hnew; lia|]); rewrite He.
  - replace (Z.min (la + PGSIZE) end_) with end_ in * by lia. destruct fuel as [|fuel]; [lia|]. cbn [load_file c_start]. rewrite Z.ltb_irrefl.
    exists (Cur end_ (la + PGSIZE) f), s1. split; [done|]. split; [done|]. split; [by rewrite Nat.sub_succ, Nat.sub_0_r|].
    constructor; cbn [c_start c_la c_page]; try done.
    + split_and!; [|lia|unfold PGSIZE in *; lia|lia]. unfold PGSIZE in *. rewrite <- Z.add_mod_idemp_l by lia. by rewrite Hal.
    + replace (la + PGSIZE - PGSIZE) with la by lia. by rewrite Hpg1, lookup_insert_eq.
    + by left.
    + intros a Ha. rewrite Hpg1, lookup_insert_ne; [done|]. unfold PGSIZE in *. lia.
    + rewrite length_take. cbn [length]. unfold PGSIZE. lia.
    + rewrite Htk1. cbn. set_solver.
  - replace (Z.min (la + PGSIZE) end_) with (la + PGSIZE) in * by (unfold PGSIZE in *; lia).
    assert (Hal' : (la + PGSIZE) mod PGSIZE = 0) by (unfold PGSIZE in *; rewrite <- Z.add_mod_idemp_l by lia; by rewrite Hal).
    destruct (IH s1 fs (la + PGSIZE) (la + PGSIZE) end_ (off + (la + PGSIZE - start)) perm k f fuel) as (c & s2 & He2 & Hly2 & Hrd2 & Hd2); try done;
      try (unfold PGSIZE in *; lia); [|simpl in Hfs; lia|].
    { intros x Hx. rewrite Hpg1, lookup_insert_ne by (unfold PGSIZE in *; lia). apply Hnew. unfold PGSIZE in *. lia. }
    exists c, s2. split; [done|]. split; [done|]. split; [by rewrite Nat.sub_succ|]. destruct Hd2 as [D1 D2 D3 D3' D4 D5 D6 D7 D8 D9 D10].
    constructor; try done.
    + split_and!; try apply D2. unfold PGSIZE in *. lia.
    + cbn [take]. by right.
    + intros a Ha. destruct (decide (a < la + PGSIZE)) as [Hlo|Hhi].
      * rewrite D5 by lia. apply Hfa1. lia.
      * rewrite D4 by lia. f_equal. lia.
    + intros a Ha. rewrite D5 by (unfold PGSIZE in *; lia). apply Hv1. lia.
    + intros a Ha. rewrite D6 by (unfold PGSIZE in *; lia). rewrite Hpg1, lookup_insert_ne; [done|]. unfold PGSIZE in *. lia.
    + rewrite length_take in *. cbn [length] in *. unfold PGSIZE in *. lia.
    + congruence.
    + rewrite D9, Htk1. cbn. set_solver.
    + eapply kmem_kept_sub; [eapply kmem_kept_trans; [exact Hkm1|exact D10]|]. cbn. intros x Hx. set_solver.
Qed.

Lemma fill_at j : forall m p c x, fill j m p c x = if decide (p <= x < p + Z.of_nat j) then c else m x.
Proof.
  induction j as [|j IH]; intros m p c x; cbn [fill]; [rewrite decide_False by lia; done|]. rewrite IH. unfold upd.
  destruct (decide (p + 1 <= x < p + 1 + Z.of_nat j)), (decide (p <= x < p + Z.of_nat (S j))); try lia; try done; destruct (Z.eqb_spec x p); try lia; done.
Qed.
Lemma memset_at m p c k x : 0 <= k -> memset m p c k x = if decide (p <= x < p + k) then c else m x.
Proof. intros Hk. unfold memset. rewrite fill_at. by rewrite Z2Nat.id. Qed.

Lemma reader_ram s k m : reader s k -> reader (set_kram m s) k.
Proof. intros []. by constructor. Qed.

(** Zero bytes stored into a part of a page. *)
Lemma memset_view s fs la k perm off size :
  layout s fs -> pages s !! la = Some (k, perm) -> 0 <= off -> 0 <= size -> off + size <= PGSIZE ->
  let s' := set_kram (memset (kram s) (k + off) 0 size) s in
  (forall a, view s' a = if decide (la + off <= a < la + off + size) then Some 0 else view s a) /\ kmem_kept [k] s s'.
Proof.
  intros Hly Hla Ho Hs Hsz s'. split.
  - intros a. rewrite (view_write s s' fs la k perm off size); try done.
    + destruct (decide _); [|done]. f_equal. unfold s', kram. simpl. rewrite memset_at, decide_True by lia. done.
    + intros x Hx _ _. unfold s', kram. simpl. by rewrite memset_at, decide_False by lia.
  - intros x Hx. unfold s', kram. simpl. rewrite memset_at by done. rewrite decide_False; [done|]. intros Hr. apply (Hx k); [by left|]. unfold within. lia.
Qed.

Record zero_done s s' (la end_ hi : Z) (used : list Z) : Prop := {
  zd_zero : zero_at s' la end_;
  zd_view : view_outside s s' la hi;
  zd_pages : pages_outside s s' la hi;
  zd_nmm : nmm s' = nmm s;
  zd_taken : taken s' = list_to_set used ∪ taken s;
  zd_kmem : kmem_kept used s s'
}.

Lemma load_zero_ok m : forall s fs la end_ perm k pg fuel,
  layout s fs -> reader s k -> la mod PGSIZE = 0 -> 0 <= la <= end_ -> end_ <= USERTOP -> pages_new s la end_ ->
  (Z.of_nat m - 1) * PGSIZE < end_ - la <= Z.of_nat m * PGSIZE -> (m <= length fs)%nat -> (m < fuel)%nat ->
  exists s', load_zero fuel end_ perm (Cur la la pg) s = Ok (0, s') /\ layout s' (drop m fs) /\ reader s' k /\
    zero_done s s' la end_ (la + Z.of_nat m * PGSIZE) (take m fs).
Proof.
  induction m as [|m IH]; intros s fs la end_ perm k pg fuel Hly Hrd Hal H0 Hend Hnew Hm Hfs Hfu; (destruct fuel as [|fuel]; [lia|]); cbn [load_zero c_start c_la].
  { unfold PGSIZE in Hm. rewrite (proj2 (Z.ltb_ge la end_)) by lia. exists s. split_and!; try done. constructor; try done.
    - intros a Ha. lia. - cbn. set_solver. }
  destruct fs as [|f fs]; [simpl in Hfs; lia|]. unfold USERTOP in *. assert (Hlt : la < end_) by (unfold PGSIZE in *; lia). rewrite (proj2 (Z.ltb_lt la end_)) by done.
  destruct (alloc_layout s f fs la perm Hly Hal) as (s1 & Ha & Hly1 & Hpg1 & Hxs1 & Hnm1 & Htk1 & Hv1); [apply Hnew; lia|]. rewrite Ha. cbn [mbind res_bind].
  rewrite piece_ok by (unfold PGSIZE in *; lia). rewrite Z.sub_diag. set (stop := Z.min (la + PGSIZE) end_). assert (Hst : 0 < stop - la <= PGSIZE) by (unfold stop, PGSIZE in *; lia).
  destruct (memset_view s1 fs la f perm 0 (stop - la)) as [Hvw Hkm]; try done; [by rewrite Hpg1, lookup_insert_eq|lia..|].
  set (s2 := set_kram (memset (kram s1) (f + 0) 0 (stop - la)) s1) in *.
  rewrite !u32_small by (unfold PGSIZE in *; lia). replace (la + (stop - la)) with stop by lia.
  assert (Hly2 : layout s2 fs) by (by eapply layout_same).
  assert (Hrd2 : reader s2 k) by (apply reader_ram; destruct Hrd; constructor; by rewrite Hxs1).
  assert (Hkm1 : kmem_kept [f] s s2). { intros x Hx. rewrite Hkm by done. unfold kram. by rewrite Hxs1. }
  assert (Hz1 : zero_at s2 la stop). { intros a Hr. by rewrite Hvw, decide_True by lia. }
  assert (Hvo : view_outside s s2 la (la + PGSIZE)). { intros a Hr. rewrite Hvw, decide_False by (unfold stop in *; lia). apply Hv1. unfold within. lia. }
  assert (Hpo : pages_outside s s2 la (la + PGSIZE)). { intros a Hr. unfold s2. simpl. rewrite Hpg1, lookup_insert_ne; [done|]. unfold PGSIZE in *. lia. }
  destruct (decide (end_ <= la + PGSIZE)) as [Hlast|Hmore].
  - assert (m = 0%nat) as -> by (unfold PGSIZE in *; lia). replace stop with end_ in * by (unfold stop; lia). destruct fuel as [|fuel]; [lia|]. cbn [load_zero c_start].
    rewrite Z.ltb_irrefl. exists s2. replace (la + Z.of_nat 1 * PGSIZE) with (la + PGSIZE) by lia. split_and!; try done. constructor; try done.
    unfold s2. simpl. rewrite Htk1. set_solver.
  - replace stop with (la + PGSIZE) in * by (unfold stop; lia).
    assert (Hal' : (la + PGSIZE) mod PGSIZE = 0) by (unfold PGSIZE in *; rewrite <- Z.add_mod_idemp_l by lia; by rewrite Hal).
    destruct (IH s2 fs (la + PGSIZE) end_ perm k f fuel) as (s3 & He3 & Hly3 & Hrd3 & [D1 D2 D3 D4 D5 D6]); try done; try (unfold PGSIZE in *; lia); [|simpl in Hfs; lia|].
    { intros x Hx. rewrite Hpo by (unfold PGSIZE in *; lia). apply Hnew. unfold PGSIZE in *. lia. }
    exists s3. replace (la + PGSIZE + Z.of_nat m * PGSIZE) with (la + Z.of_nat (S m) * PGSIZE) in * by lia. split_and!; try done. constructor.
    + intros a Hr. destruct (decide (a < la + PGSIZE)); [rewrite D2 by lia; apply Hz1; lia|apply D1; lia].
    + intros a Hr. rewrite D2 by (unfold PGSIZE in *; lia). apply Hvo. unfold PGSIZE in *. lia.
    + intros a Hr. rewrite D3 by (unfold PGSIZE in *; lia). apply Hpo. unfold PGSIZE in *. lia.
    + rewrite D4. done.
    + rewrite D5. unfold s2. simpl. rewrite Htk1. set_solver.
    + eapply kmem_kept_sub; [eapply kmem_kept_trans; [exact Hkm1|exact D6]|]. cbn. intros x Hx. set_solver.
Qed.

Lemma load_tail_ok s fs k endf la pg perm end_ :
  layout s fs -> reader s k -> la mod PGSIZE = 0 -> PGSIZE <= la -> la - PGSIZE < endf <= la -> pages s !! (la - PGSIZE) = Some (pg, perm) ->
  endf <= end_ -> end_ <= USERTOP -> la <= USERTOP + PGSIZE ->
  exists o s', load_tail end_ (Cur endf la pg) s = Ok (o, s') /\ layout s' fs /\ reader s' k /\ zero_at s' endf (Z.min la end_) /\
    view_outside s s' endf la /\ pages s' = pages s /\ nmm s' = nmm s /\ taken s' = taken s /\ kmem_kept [pg] s s' /\
    match o with None => end_ = endf | Some c => c = Cur (Z.min la end_) la pg end.
Proof.
  intros Hly Hrd Hal Hla Hef Hpg He Hend Hlt. unfold load_tail, USERTOP, PGSIZE in *. cbn [c_start c_la c_page].
  destruct (Z.ltb_spec endf la) as [Hin|Hout].
  2: { exists (Some (Cur endf la pg)), s. replace (Z.min la end_) with endf by lia. split_and!; try done. intros a Ha. lia. }
  destruct (Z.eqb_spec endf end_) as [->|Hne].
  { exists None, s. split_and!; try done. intros a Ha. lia. }
  set (size := Z.min la end_ - endf). replace (if end_ <? la then _ else _) with size; cycle 1.
  { rewrite (u32_small (endf + 4096 - la)) by lia. rewrite (u32_small (4096 - _)) by lia. destruct (Z.ltb_spec end_ la); [rewrite u32_small; unfold size; lia|unfold size; lia]. }
  rewrite (u32_small (endf + 4096 - la)), (u32_small (endf + size)) by (unfold size; lia). rewrite kassert_true; cycle 1.
  { destruct (Z.ltb_spec end_ la), (Z.leb_spec la end_); simpl; rewrite ?orb_false_r; try apply Z.eqb_eq; unfold size; lia. }
  cbn [mbind res_bind].
  destruct (memset_view s fs (la - 4096) pg perm (endf + 4096 - la) size) as [Hvw Hkm]; try done; [lia|unfold size; lia|unfold size, PGSIZE; lia|].
  eexists _, _. split; [done|]. split_and!; try done.
  - by eapply layout_same.
  - by apply reader_ram.
  - intros a Ha. by rewrite Hvw, decide_True by (unfold size; lia).
  - intros a Ha. by rewrite Hvw, decide_False by (unfold size; lia).
  - f_equal. unfold size. lia.
Qed.

(** ** The areas and the segments *)
Definition seg_lo (ph : proghdr) : Z := ROUNDDOWN (p_va ph) PGSIZE.
Definition seg_hi (ph : proghdr) : Z := ROUNDUP (p_va ph + p_memsz ph) PGSIZE.
Definition seg_pages (ph : proghdr) : nat := Z.to_nat ((seg_hi ph - seg_lo ph) / PGSIZE).

Record seg_ok (ph : proghdr) : Prop := {
  sg_lo : USERBASE <= seg_lo ph;
  sg_hi : p_va ph + p_memsz ph <= USTACKTOP - USTACKSIZE;
  sg_size : 0 < p_filesz ph <= p_memsz ph;
  sg_file : 0 <= p_offset ph /\ p_offset ph + p_filesz ph <= Z.of_nat (length b)
}.

(** The image of the segment is in memory. *)
Definition seg_loaded s (ph : proghdr) : Prop :=
  file_at s (p_va ph) (p_va ph + p_filesz ph) (p_offset ph) /\ zero_at s (p_va ph + p_filesz ph) (p_va ph + p_memsz ph).

Lemma rounds_ok ph : seg_ok ph ->
  seg_lo ph mod PGSIZE = 0 /\ seg_lo ph <= p_va ph < seg_lo ph + PGSIZE /\ seg_hi ph mod PGSIZE = 0 /\
  seg_hi ph - PGSIZE < p_va ph + p_memsz ph <= seg_hi ph /\ seg_hi ph <= USTACKTOP - USTACKSIZE /\
  ROUNDUP (u32 (p_va ph + p_memsz ph)) PGSIZE = seg_hi ph /\ Z.of_nat (seg_pages ph) * PGSIZE = seg_hi ph - seg_lo ph.
Proof.
  intros []. unfold seg_pages, seg_lo, seg_hi, ROUNDUP, ROUNDDOWN, USTACKTOP, USTACKSIZE, USERBASE, USERTOP, PGSIZE in *. set (e := p_va ph + p_memsz ph) in *. set (v := p_va ph) in *.
  pose proof (Z.mod_pos_bound v 4096 ltac:(lia)). assert (0 <= v) by lia. rewrite (u32_small e) by lia.
  rewrite (u32_small (e + 4096)) by lia. rewrite (u32_small (e + 4096 - 1)) by lia. replace (e + 4096 - 1) with (e + 4095) by lia.
  pose proof (Z.mod_pos_bound (e + 4095) 4096 ltac:(lia)). pose proof (Z.div_mod v 4096 ltac:(lia)). pose proof (Z.div_mod (e + 4095) 4096 ltac:(lia)).
  replace (v - v mod 4096) with (v / 4096 * 4096) by lia. replace (e + 4095 - (e + 4095) mod 4096) with ((e + 4095) / 4096 * 4096) by lia.
  rewrite !Z.mod_mul by lia. rewrite <- Z.mul_sub_distr_r, Z.div_mul by lia.
  assert (v / 4096 <= (e + 4095) / 4096) by (apply Z.div_le_mono; lia).
  assert ((e + 4095) / 4096 * 4096 <= 2952790016 - 256 * 4096) by lia. split_and!; try done; lia.
Qed.

Lemma reader_less s k k' : reader s k -> (k' <= k)%nat -> reader s k'.
Proof.
  intros [] Hk. constructor; try done. destruct rr_supply0 as (rest & ->). exists (replicate (k - k') (Some kb) ++ rest).
  rewrite app_assoc, <- replicate_add. do 2 f_equal. lia.
Qed.

Record seg_done s s' (fs : list Z) (l l' : list (Z * vma_struct)) (ph : proghdr) : Prop := {
  sd_rep : rep (nmm s') l';
  sd_cover : forall x, cover l'.*2 x = if (seg_lo ph <=? x) && (x <? seg_hi ph) then Some (seg_flags ph) else cover l.*2 x;
  sd_pool : pool (nmm s') = tail (pool (nmm s)) /\ mm_count (mm (nmm s')) = mm_count (mm (nmm s));
  sd_image : seg_loaded s' ph;
  sd_view : view_outside s s' (seg_lo ph) (seg_hi ph);
  sd_pages : pages_outside s s' (seg_lo ph) (seg_hi ph);
  sd_taken : taken s' = list_to_set (take (seg_pages ph) fs) ∪ taken s;
  sd_kmem : kmem_kept (kb :: take (seg_pages ph) fs) s s'
}.

Lemma load_seg_ok s fs k l ph :
  layout s fs -> reader s k -> rep (nmm s) l -> pool (nmm s) <> [] -> seg_ok ph ->
  (forall x, seg_lo ph <= x < seg_hi ph -> cover l.*2 x = None) -> pages_new s (seg_lo ph) (seg_hi ph) ->
  (seg_pages ph <= length fs)%nat -> (seg_pages ph <= k)%nat ->
  exists s' l', load_seg n ph s = Ok (0, s') /\ layout s' (drop (seg_pages ph) fs) /\ reader s' (k - seg_pages ph) /\ seg_done s s' fs l l' ph.
Proof.
  intros Hly Hrd Hrep Hpool Hok Hfree Hnew Hfs Hk. destruct (rounds_ok ph Hok) as (R1 & R2 & R3 & R4 & R5 & R6 & R7). destruct Hok as [S1 S2 S3 S4].
  unfold USERBASE, USTACKTOP, USTACKSIZE in *. change USERTOP with 0xB0000000 in *. assert (HP : PGSIZE = 4096) by done.
  set (np := seg_pages ph) in *. set (lo := seg_lo ph) in *. set (hi := seg_hi ph) in *. set (va := p_va ph) in *.
  set (endf := va + p_filesz ph). assert (Hendf : endf = va + p_filesz ph) by done. set (endm := va + p_memsz ph) in *. assert (Hendm : endm = va + p_memsz ph) by done.
  unfold load_seg. fold va. destruct (mm_map_ok (nmm s) l va (p_memsz ph) (seg_flags ph)) as (o & m & l' & Hmm & Hr' & Hcov & Hpl & Hmc); try done.
  { fold endm. rewrite R6. change (ROUNDDOWN va PGSIZE) with lo. unfold USER_ACCESS, USERBASE, USERTOP. rewrite !andb_true_iff, !Z.leb_le, Z.ltb_lt. lia. }
  { fold endm. rewrite R6. done. }
  fold endm in Hcov. rewrite R6 in Hcov. rewrite Hmm. cbn [mbind res_bind]. change (negb (0 =? 0)) with false. cbv iota. fold endf endm. change (ROUNDDOWN va PGSIZE) with lo in *.
  rewrite !u32_small by lia. set (s0 := set_nmm m s). assert (Hly0 : layout s0 fs) by (by eapply layout_same). assert (Hrd0 : reader s0 k) by (destruct Hrd; by constructor).
  set (m1 := Z.to_nat ((endf - lo - 1) / PGSIZE)). assert (Hm1 : Z.of_nat m1 * PGSIZE < endf - lo <= Z.of_nat (S m1) * PGSIZE).
  { unfold m1. rewrite !HP. pose proof (Z.div_mod (endf - lo - 1) 4096 ltac:(lia)). pose proof (Z.mod_pos_bound (endf - lo - 1) 4096 ltac:(lia)).
    pose proof (Z.div_pos (endf - lo - 1) 4096 ltac:(lia) ltac:(lia)). lia. }
  assert (Hm1p : (S m1 <= np)%nat) by (unfold PGSIZE in *; lia).
  destruct (load_file_ok m1 s0 fs va lo endf (p_offset ph) (seg_perm ph) k 0 (rounds lo endf)) as (c & s1 & He1 & Hly1 & Hrd1 & F); try done; try (unfold PGSIZE in *; lia).
  { change USERTOP with 0xB0000000. unfold PGSIZE in *. lia. } { intros x Hx. apply Hnew. lia. }
  { unfold rounds. assert (Z.of_nat m1 <= (endf - lo) / PGSIZE) by (apply Z.div_le_lower_bound; unfold PGSIZE in *; lia). lia. }
  rewrite He1. cbn [mbind res_bind]. change (negb (0 =? 0)) with false. cbv iota. destruct F as [F1 [F2 [F2' F2'']] F3 F3' F4 F5 F6 F7 F8 F9 F10].
  destruct c as [cs la pg]. cbn [c_start c_la c_page] in *. subst cs. rewrite length_take in F7. assert (Hla : la = lo + Z.of_nat (S m1) * PGSIZE) by (unfold PGSIZE in *; lia).
  destruct (load_tail_ok s1 (drop (S m1) fs) (k - S m1) endf la pg (seg_perm ph) endm) as (o2 & s2 & He2 & Hly2 & Hrd2 & Hz2 & Hv2 & Hp2 & Hn2 & Ht2 & Hk2 & Ho2);
    try done; try (change USERTOP with 0xB0000000; unfold PGSIZE in *; lia).
  rewrite He2. cbn [mbind res_bind].

  assert (Hz3 : exists s3, match o2 with None => Ok (0, s2) | Some c => load_zero (rounds (c_la c) endm) endm (seg_perm ph) c s2 end = Ok (0, s3) /\
    layout s3 (drop np fs) /\ reader s3 (k - S m1) /\ zero_done s2 s3 la endm hi (take (np - S m1) (drop (S m1) fs))).
  { destruct (decide (endm <= la)) as [Hle|Hgt].
    - assert (np = S m1) as Enp by (unfold PGSIZE in *; lia). exists s2. rewrite Enp, Nat.sub_diag. split; [|split_and!; try done; constructor; try done].
      + destruct o2 as [c|]; [|done]. subst c. replace (Z.min la endm) with endm by lia. cbn [load_zero rounds c_start c_la]. by rewrite Z.ltb_irrefl.
      + intros a Ha. lia. + cbn. set_solver.
    - destruct o2 as [c|]; [|lia]. subst c. replace (Z.min la endm) with la by lia. cbn [c_la].
      destruct (load_zero_ok (np - S m1) s2 (drop (S m1) fs) la endm (seg_perm ph) (k - S m1) pg (rounds la endm)) as (s3 & He3 & Hly3 & Hrd3 & Z3); try done;
        try (change USERTOP with 0xB0000000; rewrite ?length_drop; unfold PGSIZE in *; lia).
      { intros x Hx. rewrite Hp2, F6 by lia. apply Hnew. unfold PGSIZE in *. lia. }
      { unfold rounds. assert (Z.of_nat (np - S m1) - 1 <= (endm - la) / PGSIZE) by (apply Z.div_le_lower_bound; unfold PGSIZE in *; lia). lia. }
      exists s3. split; [done|]. rewrite drop_drop in Hly3. replace (S m1 + (np - S m1))%nat with np in Hly3 by lia. split; [done|]. split; [done|].
      replace hi with (la + Z.of_nat (np - S m1) * PGSIZE); [done|]. unfold PGSIZE in *. lia. }
  destruct Hz3 as (s3 & He3 & Hly3 & Hrd3 & [Z1 Z2 Z3 Z4 Z5 Z6]). exists s3, l'. split; [done|]. split; [done|]. split; [by eapply reader_less; [exact Hrd3|lia]|].
  assert (Hsplit : take np fs = take (S m1) fs ++ take (np - S m1) (drop (S m1) fs)).
  { rewrite take_take_drop. f_equal. lia. }
  assert (Hlahi : la <= hi) by (unfold PGSIZE in *; lia).
  constructor; fold np lo hi.
  - by rewrite Z4, Hn2, F8.
  - done.
  - rewrite Z4, Hn2, F8. done.
  - fold va endf endm. unfold seg_loaded. fold va endf endm. split.
    + intros a Ha. rewrite Z2 by lia. rewrite Hv2 by lia. by apply F4.
    + intros a Ha. destruct (decide (a < la)); [rewrite Z2 by lia; apply Hz2; lia|apply Z1; lia].
  - intros a Ha. rewrite Z2 by lia. rewrite Hv2 by lia. rewrite F5 by lia. done.
  - intros a Ha. rewrite Z3 by lia. rewrite Hp2, F6 by lia. done.
  - rewrite Z5, Ht2, F9, Hsplit. change (taken s0) with (taken s). rewrite list_to_set_app_L. clear. set_solver.
  - rewrite Hsplit. eapply kmem_kept_sub; [eapply kmem_kept_trans; [eapply kmem_kept_trans; [exact F10|exact Hk2]|exact Z6]|].
    intros x Hx. rewrite !elem_of_app, ?elem_of_cons in Hx. rewrite elem_of_cons, elem_of_app. rewrite elem_of_nil in Hx.
    destruct Hx as [[[->|Hx]|[->|[]]]|Hx]; auto.
Qed.

(** ** The program headers *)
Variable phoff : Z.
Definition ph_of (i : Z) : proghdr := ph_dec (part b (phoff + PROGHDR_SIZE * i) PROGHDR_SIZE).
Definition loadable (ph : proghdr) : bool := (p_type ph =? ELF_PT_LOAD) && negb (p_filesz ph =? 0).

(** The segments to load among [k] headers from [i] on. *)
Fixpoint segs (k : nat) (i : Z) : list proghdr :=
  match k with O => [] | S k => if loadable (ph_of i) then ph_of i :: segs k (i + 1) else segs k (i + 1) end.
Definition all_pages (l : list proghdr) : nat := sum_list_with seg_pages l.

Definition in_seg (ph : proghdr) (x : Z) : Prop := seg_lo ph <= x < seg_hi ph.
Fixpoint segs_apart (l : list proghdr) : Prop :=
  match l with [] => True | ph :: l => Forall (fun q => forall x, in_seg ph x -> ~ in_seg q x) l /\ segs_apart l end.

(** Nothing is mapped there yet. *)
Definition seg_free s (l : list (Z * vma_struct)) (ph : proghdr) : Prop :=
  (forall x, in_seg ph x -> cover l.*2 x = None) /\ pages_new s (seg_lo ph) (seg_hi ph).

Record phs_done s s' (fs : list Z) (l l' : list (Z * vma_struct)) (sg : list proghdr) : Prop := {
  pd_rep : rep (nmm s') l';
  pd_flags : Forall (fun ph => forall x, in_seg ph x -> cover l'.*2 x = Some (seg_flags ph)) sg;
  pd_image : Forall (seg_loaded s') sg;
  pd_outside : forall x, (forall ph, ph ∈ sg -> ~ in_seg ph x) -> cover l'.*2 x = cover l.*2 x /\ view s' x = view s x /\ pages s' !! x = pages s !! x;
  pd_pool : pool (nmm s') = drop (length sg) (pool (nmm s)) /\ mm_count (mm (nmm s')) = mm_count (mm (nmm s));
  pd_taken : taken s' = list_to_set (take (all_pages sg) fs) ∪ taken s;
  pd_kmem : kmem_kept (kb :: lp :: take (all_pages sg) fs) s s'
}.

Lemma seg_loaded_kept s s' ph : seg_ok ph -> seg_loaded s ph -> (forall x, in_seg ph x -> view s' x = view s x) -> seg_loaded s' ph.
Proof.
  intros Hok [Hf Hz] Hv. destruct (rounds_ok ph Hok) as (_ & R2 & _ & R4 & _). destruct Hok as [_ _ S3 _].
  split; intros a Ha; rewrite Hv by (unfold in_seg; lia); [by apply Hf|by apply Hz].
Qed.

Lemma phs_skip s s1 s' fs l l' sg :
  phs_done s1 s' fs l l' sg -> nmm s1 = nmm s -> (forall x, view s1 x = view s x) -> pages s1 = pages s -> taken s1 = taken s ->
  kmem_kept [kb; lp] s s1 -> phs_done s s' fs l l' sg.
Proof.
  intros [P1 P2 P3 P4 P5 P6 P7] Hn Hv Hp Ht Hk. rewrite Hn in P5. rewrite Ht in P6. constructor; try done.
  - intros x Hx. destruct (P4 x Hx) as (? & ? & ?). by rewrite <- Hp, <- Hv.
  - eapply kmem_kept_sub; [eapply kmem_kept_trans; [exact Hk|exact P7]|]. intros x Hx. rewrite elem_of_app, !elem_of_cons, elem_of_nil in Hx.
    rewrite !elem_of_cons. naive_solver.
Qed.

Lemma phs_cons s s1 s' fs l l1 l' ph sg :
  seg_ok ph -> (seg_pages ph <= length fs)%nat -> Forall (fun q => forall x, in_seg ph x -> ~ in_seg q x) sg ->
  seg_done s s1 fs l l1 ph -> phs_done s1 s' (drop (seg_pages ph) fs) l1 l' sg -> phs_done s s' fs l l' (ph :: sg).
Proof.
  intros Hok Hfs Hap [S1 S2 S3 S4 S5 S6 S7 S8] [P1 P2 P3 P4 P5 P6 P7]. rewrite Forall_forall in Hap.
  assert (Hout : forall x, in_seg ph x -> forall q, q ∈ sg -> ~ in_seg q x) by (intros x Hx q Hq; by apply (Hap q Hq)).
  assert (Htk : take (all_pages (ph :: sg)) fs = take (seg_pages ph) fs ++ take (all_pages sg) (drop (seg_pages ph) fs)) by (by rewrite take_take_drop).
  constructor.
  - done.
  - constructor; [|done]. intros x Hx. destruct (P4 x (Hout x Hx)) as (-> & _). rewrite S2. unfold in_seg in Hx.
    by rewrite (proj2 (Z.leb_le _ _)), (proj2 (Z.ltb_lt _ _)) by lia.
  - constructor; [|done]. apply (seg_loaded_kept s1 s'); [done|done|]. intros x Hx. by destruct (P4 x (Hout x Hx)) as (_ & ? & _).
  - intros x Hx. destruct (P4 x) as (-> & -> & ->); [intros q Hq; apply Hx; by right|]. assert (Hn : ~ in_seg ph x) by (apply Hx; by left).
    rewrite S2, S5, S6 by done. unfold in_seg in Hn. destruct (Z.leb_spec (seg_lo ph) x), (Z.ltb_spec x (seg_hi ph)); simpl; try done; lia.
  - destruct P5 as [-> ->], S3 as [-> ->]. destruct (pool (nmm s)); simpl; by rewrite ?drop_nil.
  - rewrite P6, S7, Htk, list_to_set_app_L. clear. set_solver.
  - rewrite Htk. eapply kmem_kept_sub; [eapply kmem_kept_trans; [exact S8|exact P7]|]. intros x Hx. rewrite elem_of_app, !elem_of_cons in Hx.
    rewrite !elem_of_cons, elem_of_app. naive_solver.
Qed.

Definition phs_fine (k : nat) (i : Z) : Prop :=
  forall j, i <= j < i + Z.of_nat k -> p_type (ph_of j) = ELF_PT_LOAD ->
    p_filesz (ph_of j) <= p_memsz (ph_of j) /\ (p_filesz (ph_of j) <> 0 -> seg_ok (ph_of j)).

Lemma segs_ok k : forall i, phs_fine k i -> Forall seg_ok (segs k i).
Proof.
  induction k as [|k IH]; intros i Hf; cbn [segs]; [constructor|].
  assert (Hr : Forall seg_ok (segs k (i + 1))) by (apply IH; intros j Hj; apply Hf; lia).
  destruct (loadable (ph_of i)) eqn:E; [|done]. constructor; [|done]. unfold loadable in E. apply andb_true_iff in E as [E1 E2].
  apply Z.eqb_eq in E1. apply negb_true_iff, Z.eqb_neq in E2. apply (Hf i); [lia|done..].
Qed.

Lemma seg_free_kept s s1 l l1 ph q :
  seg_free s l q -> (forall x, in_seg ph x -> ~ in_seg q x) -> (forall x, ~ in_seg ph x -> cover l1.*2 x = cover l.*2 x) ->
  (forall x, ~ in_seg ph x -> pages s1 !! x = pages s !! x) -> seg_free s1 l1 q.
Proof.
  intros [F1 F2] Hap Hc Hp. split.
  - intros x Hx. rewrite Hc by (intros Hin; by apply (Hap x)). by apply F1.
  - intros x Hx. rewrite Hp by (intros Hin; by apply (Hap x)). by apply F2.
Qed.

(** The header of index [i] is read into the kernel's own structure. *)
Lemma read_header s fs loc i rd :
  layout s fs -> reader s (S rd) -> lp <= loc -> loc + PROGHDR_SIZE <= lp + PGSIZE -> 0 <= phoff -> 0 <= i ->
  phoff + PROGHDR_SIZE * (i + 1) <= Z.of_nat (length b) ->
  exists s', load_icode_read n loc PROGHDR_SIZE (u32 (phoff + PROGHDR_SIZE * i)) s = Ok (0, s') /\ layout s' fs /\ reader s' rd /\
    ph_at (kram s') loc = ph_of i /\ nmm s' = nmm s /\ (forall x, view s' x = view s x) /\ pages s' = pages s /\ taken s' = taken s /\ kmem_kept [kb; lp] s s'.
Proof.
  intros Hly Hrd Hl1 Hl2 Hph Hi Hb. pose proof limit_range. pose proof (cap_limit _ _ _ _ (rr_file _ _ Hrd)). unfold PROGHDR_SIZE in *.
  pose proof lp_page as (L1 & L2 & L3). pose proof kb_page as (K1 & K2 & K3). rewrite u32_small by lia.
  destruct (icode_read_ok s rd loc 32 (phoff + 32 * i)) as (s1 & He & Hrd1 & Hp1 & Hf1 & Hn1 & Ht1 & Hl & Hm); try done; try (unfold PGSIZE in *; lia).
  { destruct (decide (kb < lp)); [right|left]; [|assert (lp < kb) by lia]; unfold PGSIZE in *;
      pose proof (Z.div_mod lp 4096 ltac:(lia)); pose proof (Z.div_mod kb 4096 ltac:(lia)); lia. }
  assert (Hm' : forall x, ~ within kb x -> ~ within lp x -> kram s1 x = kram s x). { intros x Hx1 Hx2. apply Hm; [|done]. unfold within in *. lia. }
  exists s1. split_and!; try done.
  - by eapply layout_same.
  - unfold ph_of, PROGHDR_SIZE. apply ph_load. done.
  - by eapply view_kept.
  - intros x Hx. apply Hm'; apply Hx; [by left|right; by left].
Qed.

Lemma all_pages_cons ph l : all_pages (ph :: l) = (seg_pages ph + all_pages l)%nat.
Proof. done. Qed.

Lemma load_phs_skip s s1 loc i k :
  load_icode_read n loc PROGHDR_SIZE (u32 (phoff + PROGHDR_SIZE * i)) s = Ok (0, s1) -> ph_at (kram s1) loc = ph_of i ->
  loadable (ph_of i) = false -> (p_type (ph_of i) = ELF_PT_LOAD -> p_filesz (ph_of i) <= p_memsz (ph_of i)) ->
  load_phs (S k) n loc phoff i s = load_phs k n loc phoff (i + 1) s1.
Proof.
  intros He Hph El Hsz. cbn [load_phs]. rewrite He. cbn [mbind res_bind]. change (negb (0 =? 0)) with false. cbv iota. rewrite Hph. unfold loadable in El.
  destruct (Z.eqb_spec (p_type (ph_of i)) ELF_PT_LOAD) as [E|E]; cbn [negb andb] in *; [|done].
  rewrite (proj2 (Z.ltb_ge _ _)) by auto. apply negb_false_iff in El. by rewrite El.
Qed.

Lemma load_phs_load s s1 s2 loc i k :
  load_icode_read n loc PROGHDR_SIZE (u32 (phoff + PROGHDR_SIZE * i)) s = Ok (0, s1) -> ph_at (kram s1) loc = ph_of i ->
  loadable (ph_of i) = true -> p_filesz (ph_of i) <= p_memsz (ph_of i) -> load_seg n (ph_of i) s1 = Ok (0, s2) ->
  load_phs (S k) n loc phoff i s = load_phs k n loc phoff (i + 1) s2.
Proof.
  intros He Hph El Hsz Hl. cbn [load_phs]. rewrite He. cbn [mbind res_bind]. change (negb (0 =? 0)) with false. cbv iota. rewrite Hph. unfold loadable in El.
  apply andb_true_iff in El as [-> E2]. apply negb_true_iff in E2. cbn [negb]. rewrite (proj2 (Z.ltb_ge _ _)), E2, Hl by done. done.
Qed.

Lemma load_phs_ok k : forall s fs loc i l rd,
  layout s fs -> reader s rd -> rep (nmm s) l -> lp <= loc -> loc + PROGHDR_SIZE <= lp + PGSIZE -> 0 <= phoff -> 0 <= i ->
  phoff + PROGHDR_SIZE * (i + Z.of_nat k) <= Z.of_nat (length b) -> phs_fine k i ->
  segs_apart (segs k i) -> Forall (seg_free s l) (segs k i) -> (length (segs k i) <= length (pool (nmm s)))%nat ->
  (all_pages (segs k i) <= length fs)%nat -> (k + all_pages (segs k i) <= rd)%nat ->
  exists s' l', load_phs k n loc phoff i s = Ok (0, s') /\ layout s' (drop (all_pages (segs k i)) fs) /\
    reader s' (rd - (k + all_pages (segs k i))) /\ phs_done s s' fs l l' (segs k i).
Proof.
  induction k as [|k IH]; intros s fs loc i l rd Hly Hrd Hrep Hl1 Hl2 Hph Hi Hb Hfine Hap Hfree Hpool Hfs Hrdk.
  { exists s, l. cbn. rewrite Nat.sub_0_r, drop_0. split_and!; try done. constructor; try done. cbn. set_solver. }
  destruct rd as [|rd]; [lia|]. destruct (read_header s fs loc i rd) as (s1 & He1 & Hly1 & Hrd1 & Hph1 & Hn1 & Hv1 & Hp1 & Ht1 & Hk1); try done; [unfold PROGHDR_SIZE in *; lia|].
  assert (Hfine' : phs_fine k (i + 1)) by (intros j Hj; apply Hfine; lia). assert (Hrep1 : rep (nmm s1) l) by (by rewrite Hn1).
  assert (Hfr1 : forall q, seg_free s l q -> seg_free s1 l q). { intros q [? Hq]. split; [done|]. intros x Hx. rewrite Hp1. by apply Hq. }
  rewrite <- Hn1 in Hpool. pose proof (Hfine i ltac:(lia)) as Hfi. cbn [segs] in *. destruct (loadable (ph_of i)) eqn:El.
  2: { rewrite (load_phs_skip s s1) by (done || naive_solver).
       destruct (IH s1 fs loc (i + 1) l rd) as (s2 & l2 & He2 & Hly2 & Hrd2 & Hd2); try done; try lia; try (unfold PROGHDR_SIZE in *; lia).
       { eapply Forall_impl; [exact Hfree|apply Hfr1]. }
       exists s2, l2. split; [done|]. split; [done|]. split; [done|]. by apply (phs_skip s s1). }
  pose proof El as (E1 & E2)%andb_true_iff. apply Z.eqb_eq in E1. apply negb_true_iff, Z.eqb_neq in E2. destruct (Hfi E1) as [Hsz Hok]. specialize (Hok E2).
  destruct Hap as [Hap1 Hap]. apply Forall_cons in Hfree as [Hfree1 Hfree]. destruct (Hfr1 _ Hfree1) as [Hc1 Hpn1].
  rewrite all_pages_cons in *. cbn [length] in Hpool.
  destruct (load_seg_ok s1 fs rd l (ph_of i)) as (s2 & l2 & He2 & Hly2 & Hrd2 & Hd2); try done; try lia; [intros E; rewrite E in Hpool; simpl in Hpool; lia|].
  rewrite (load_phs_load s s1 s2) by done. pose proof Hd2 as [D1 D2 D3 D4 D5 D6 D7 D8].
  destruct (IH s2 (drop (seg_pages (ph_of i)) fs) loc (i + 1) l2 (rd - seg_pages (ph_of i))%nat) as (s3 & l3 & He3 & Hly3 & Hrd3 & Hd3);
    try done; try lia; try (unfold PROGHDR_SIZE in *; lia).
  { rewrite Forall_forall in Hfree, Hap1 |- *. intros q Hq. apply (seg_free_kept s1 s2 l l2 (ph_of i)); [by apply Hfr1, Hfree|by apply Hap1| |].
    - intros x Hx. rewrite D2. unfold in_seg in Hx. destruct (Z.leb_spec (seg_lo (ph_of i)) x), (Z.ltb_spec x (seg_hi (ph_of i))); simpl; done || lia.
    - intros x Hx. by apply D6. }
  { destruct D3 as [-> _]. destruct (pool (nmm s1)); cbn [length tail] in Hpool |- *; lia. }
  { rewrite length_drop. lia. }
  exists s3, l3. split; [done|]. rewrite drop_drop in Hly3. split; [done|]. split; [by eapply reader_less; [exact Hrd3|lia]|].
  apply (phs_skip s s1); try done. apply (phs_cons s1 s2 s3 fs l l2 l3); try done. lia.
Qed.

(** ** The stack *)
Definition mapped s (a : Z) : Prop := is_Some (pages s !! (a - a mod PGSIZE)).

(** Memory that belongs to no page of the process is as before. *)
Definition rest_kept s s' : Prop := forall x, (forall la y, pages s !! la = Some y -> ~ within y.1 x) -> kram s' x = kram s x.

(** Stores to the process that change nothing but its bytes. *)
Record poked s s' : Prop := {
  pk_pages : pages s' = pages s;
  pk_frames : frames s' = frames s;
  pk_nmm : nmm s' = nmm s;
  pk_taken : taken s' = taken s;
  pk_rest : rest_kept s s';
  pk_xs : xs s' = set_ram (ram (xs s')) (xs s)
}.

Lemma poked_refl s : poked s s.
Proof. constructor; try done. by destruct s as [[] ? ? ? ?]. Qed.
Lemma poked_trans s1 s2 s3 : poked s1 s2 -> poked s2 s3 -> poked s1 s3.
Proof.
  intros [P1 P2 P3 P4 P5 P6] [Q1 Q2 Q3 Q4 Q5 Q6]. constructor; try congruence.
  - intros x Hx. rewrite Q5 by (by rewrite P1). by apply P5.
  - rewrite Q6, P6. done.
Qed.

Lemma poked_layout s s' fs : layout s fs -> poked s s' -> layout s' fs.
Proof. intros Hly []. by eapply layout_same. Qed.
Lemma poked_mapped s s' a : poked s s' -> mapped s a -> mapped s' a.
Proof. intros [P1 _ _ _ _ _]. unfold mapped. by rewrite P1. Qed.

Lemma upoke_ok s fs a v :
  layout s fs -> mapped s a -> exists s', upoke a v s = Ok s' /\ poked s s' /\ (forall x, view s' x = if decide (x = a) then Some v else view s x).
Proof.
  intros Hly [[k perm] Hk]. unfold upoke. rewrite Hk. eexists. split; [done|]. destruct (page_of a) as [Hp1 Hp2]. set (pa := a - a mod PGSIZE) in *.
  assert (Ho : a mod PGSIZE = a - pa) by lia. rewrite Ho. split.
  - constructor; try done. intros x Hx. unfold kram, upd. simpl. destruct (Z.eqb_spec x (k + (a - pa))) as [->|]; [|done].
    destruct (Hx _ _ Hk). unfold within. simpl. lia.
  - intros x. rewrite (view_write s _ fs pa k perm (a - pa) 1); try done; [|unfold PGSIZE in *; lia..|].
    + destruct (decide (pa + (a - pa) <= x < pa + (a - pa) + 1)), (decide (x = a)); try lia; [|done]. subst x. f_equal. unfold kram, upd. simpl. by rewrite Z.eqb_refl.
    + intros y Hy _ _. unfold kram, upd. simpl. destruct (Z.eqb_spec y (k + (a - pa))); [lia|done].
Qed.

Lemma upokes_ok l : forall s fs a,
  layout s fs -> (forall x, a <= x < a + Z.of_nat (length l) -> mapped s x) ->
  exists s', upokes a l s = Ok s' /\ poked s s' /\
    (forall x, view s' x = if decide (a <= x < a + Z.of_nat (length l)) then l !! Z.to_nat (x - a) else view s x).
Proof.
  induction l as [|v l IH]; intros s fs a Hly Hm; cbn [upokes length].
  { exists s. split; [done|]. split; [apply poked_refl|]. intros x. rewrite decide_False by lia. done. }
  destruct (upoke_ok s fs a v Hly) as (s1 & He1 & Hp1 & Hv1); [apply Hm; simpl; lia|]. rewrite He1. cbn [mbind res_bind].
  destruct (IH s1 fs (a + 1)) as (s2 & He2 & Hp2 & Hv2); [by eapply poked_layout|intros x Hx; eapply poked_mapped; [done|]; apply Hm; simpl; lia|].
  exists s2. split; [done|]. split; [by eapply poked_trans|]. intros x. rewrite Hv2, Hv1.
  destruct (decide (a + 1 <= x < a + 1 + Z.of_nat (length l))) as [H1|H1].
  - rewrite decide_True by lia. replace (Z.to_nat (x - a)) with (S (Z.to_nat (x - (a + 1)))) by lia. done.
  - destruct (decide (x = a)) as [->|Hne]; [rewrite decide_True by lia; by rewrite Z.sub_diag|]. by rewrite decide_False by lia.
Qed.

(** The bytes [l] at [a] of the process. *)
Definition bytes_view s (a : Z) (l : list Z) : Prop := forall x, a <= x < a + Z.of_nat (length l) -> view s x = l !! Z.to_nat (x - a).

Lemma bytes_view_kept s s' a l : bytes_view s a l -> (forall x, a <= x < a + Z.of_nat (length l) -> view s' x = view s x) -> bytes_view s' a l.
Proof. intros Hb Hv x Hx. rewrite Hv by done. by apply Hb. Qed.

(** The strings from [a] on, and the pointers to them from [uargv] on. *)
Fixpoint args_at s (args : list (list Z)) (uargv a : Z) : Prop :=
  match args with
  | [] => True
  | arg :: args =>
      bytes_view s a (arg ++ [0]) /\ bytes_view s uargv (le32_bytes a) /\ args_at s args (uargv + 4) (a + (Z.of_nat (length arg) + 1))
  end.
Definition args_size (args : list (list Z)) : Z := foldr (fun arg z => Z.of_nat (length arg) + 1 + z) 0 args.

Lemma args_size_nonneg args : 0 <= args_size args.
Proof. induction args as [|arg args IH]; simpl; lia. Qed.

Lemma cstring_ext k : forall m m' a, (forall x, a <= x < a + Z.of_nat k -> m x = m' x) -> cstring k m a = cstring k m' a.
Proof.
  induction k as [|k IH]; intros m m' a Hx; [done|]. cbn [cstring]. rewrite (Hx a) by lia. destruct (m' a =? 0); [done|]. f_equal. apply IH. intros x ?. apply Hx. lia.
Qed.

(** The copies of the arguments are not part of the process. *)
Lemma arg_kept s s' fs k : layout s fs -> kpage k -> k ∈ kargv -> rest_kept s s' -> arg_at k s' = arg_at k s.
Proof.
  intros Hly Hk Hin Hr. unfold arg_at. apply cstring_ext. intros x Hx. apply Hr. intros la y Hy Hw.
  destruct (ly_used _ _ Hly _ _ Hy) as (_ & Hk' & _ & _ & _ & Hn). apply Hn. replace y.1 with k; [done|]. by eapply kpage_apart.
Qed.
Hypothesis kargv_pages : forall k, k ∈ kargv -> kpage k /\ k <> kb /\ k <> lp.

Lemma arg_at_unfold k s : arg_at k s = cstring (Z.to_nat (EXEC_MAX_ARG_LEN + 1)) (kram s) k.
Proof. done. Qed.

#[local] Opaque arg_at.

Lemma le32_bytes_length z : length (le32_bytes z) = 4%nat.
Proof. done. Qed.

(** Between [lo] and [hi] every page of the process is there. *)
Definition all_mapped s (lo hi : Z) : Prop := forall x, lo <= x < hi -> mapped s x.

Lemma put_args_ok kl : forall s fs uargv a sz,
  layout s fs -> (forall k, k ∈ kl -> k ∈ kargv) -> 0 <= sz -> all_mapped s uargv (a + sz + args_size ((fun k => arg_at k s) <$> kl)) ->
  uargv + 4 * Z.of_nat (length kl) <= a -> sz + args_size ((fun k => arg_at k s) <$> kl) < 2 ^ 32 ->
  let args := (fun k => arg_at k s) <$> kl in
  exists s', put_args kl uargv a sz s = Ok s' /\ poked s s' /\ args_at s' args uargv (a + sz) /\
    (forall x, ~ (uargv <= x < uargv + 4 * Z.of_nat (length kl)) -> ~ (a + sz <= x < a + sz + args_size args) -> view s' x = view s x).
Proof.
  induction kl as [|k kl IH]; intros s fs uargv a sz Hly Hsafe Hsz Hmap Hlo Hfit; cbn [put_args fmap list_fmap args_at args_size foldr length] in *.
  { exists s. split; [done|]. split; [apply poked_refl|]. split; [done|]. intros x _ _. done. }
  fold (args_size ((fun k => arg_at k s) <$> kl)) in *. pose proof (args_size_nonneg ((fun k => arg_at k s) <$> kl)) as Hnn. set (arg := arg_at k s) in *.
  destruct (upokes_ok (arg ++ [0]) s fs (a + sz) Hly) as (s1 & He1 & Hp1 & Hv1).
  { intros x Hx. rewrite length_app in Hx. simpl in Hx. apply Hmap. lia. }
  rewrite He1. cbn [mbind res_bind]. assert (Hly1 : layout s1 fs) by (by eapply poked_layout).
  destruct (upokes_ok (le32_bytes (a + sz)) s1 fs uargv Hly1) as (s2 & He2 & Hp2 & Hv2).
  { intros x Hx. rewrite le32_bytes_length in Hx. eapply poked_mapped; [done|]. apply Hmap. lia. }
  rewrite He2. cbn [mbind res_bind]. assert (Hly2 : layout s2 fs) by (by eapply poked_layout).
  assert (Hp12 : poked s s2) by (by eapply poked_trans).
  assert (Heq : (fun k => arg_at k s2) <$> kl = (fun k => arg_at k s) <$> kl).
  { apply list_fmap_ext. intros i x Hx. assert (x ∈ kargv) by (apply Hsafe; right; by eapply list_elem_of_lookup_2).
    eapply arg_kept; [done|by apply kargv_pages|done|apply Hp12]. }
  destruct (IH s2 fs (uargv + 4) a (sz + (Z.of_nat (length arg) + 1))) as (s3 & He3 & Hp3 & Ha3 & Hv3); rewrite ?Heq in *; try done; try lia.
  { intros q Hq. apply Hsafe. by right. }
  { intros x Hx. eapply poked_mapped; [done|]. apply Hmap. lia. }
  rewrite length_app in Hv1. rewrite le32_bytes_length in Hv2. cbn [length] in Hv1.
  exists s3. rewrite u32_small by lia. split; [done|]. split; [by eapply poked_trans|]. split; [split; [|split]|].
  - intros x Hx. rewrite length_app in Hx. cbn [length] in Hx. rewrite Hv3, Hv2, decide_False, Hv1, decide_True by lia. done.
  - intros x Hx. rewrite le32_bytes_length in Hx. by rewrite Hv3, Hv2, decide_True by lia.
  - by replace (a + sz + (Z.of_nat (length arg) + 1)) with (a + (sz + (Z.of_nat (length arg) + 1))) by lia.
  - intros x Hx1 Hx2. rewrite Hv3, Hv2, decide_False, Hv1, decide_False by lia. done.
Qed.

Lemma arg_size_from kl s : forall z, 0 <= z -> z + args_size ((fun k => arg_at k s) <$> kl) < 2 ^ 32 ->
  foldl (fun z k => u32 (z + (Z.of_nat (length (arg_at k s)) + 1))) z kl = z + args_size ((fun k => arg_at k s) <$> kl).
Proof.
  induction kl as [|k kl IH]; intros z Hz Hl; cbn [foldl fmap list_fmap args_size foldr] in *; [by rewrite Z.add_0_r|].
  fold (args_size ((fun k => arg_at k s) <$> kl)) in *. pose proof (args_size_nonneg ((fun k => arg_at k s) <$> kl)) as Hnn.
  rewrite u32_small by lia. rewrite IH by lia. lia.
Qed.
Lemma arg_size_ok kl s : args_size ((fun k => arg_at k s) <$> kl) < 2 ^ 32 -> arg_size kl s = args_size ((fun k => arg_at k s) <$> kl).
Proof. intros Hl. unfold arg_size. rewrite arg_size_from by lia. lia. Qed.

Lemma setup_args_ok s fs :
  let args := (fun k => arg_at k s) <$> kargv in let argc := Z.of_nat (length kargv) in
  layout s fs -> all_mapped s (USTACKTOP - 4 * PGSIZE) USTACKTOP -> args_size args + 4 * argc + 8 <= 4 * PGSIZE ->
  exists esp s', setup_args kargv s = Ok (esp, s') /\ poked s s' /\ (USTACKTOP - 4 * PGSIZE <= esp /\ esp + 4 + 4 * argc + args_size args <= USTACKTOP) /\
    bytes_view s' esp (le32_bytes argc) /\ args_at s' args (esp + 4) (esp + 4 + 4 * argc) /\
    (forall x, x < USTACKTOP - 4 * PGSIZE -> view s' x = view s x).
Proof.
  intros args argc Hly Hmap Hfit. pose proof (args_size_nonneg args) as Hnn. assert (Hargc : 0 <= argc) by (unfold argc; lia). unfold setup_args. fold argc. rewrite arg_size_ok by (fold args; unfold PGSIZE in *; lia). fold args.
  set (top := USTACKTOP - (args_size args / 4 + 1) * 4). assert (Htop : USTACKTOP - args_size args - 4 <= top <= USTACKTOP - args_size args).
  { unfold top. pose proof (Z.div_mod (args_size args) 4 ltac:(lia)). pose proof (Z.mod_pos_bound (args_size args) 4 ltac:(lia)). lia. }
  unfold USTACKTOP, USERTOP, PGSIZE in *. rewrite (u32_small top) by lia. rewrite (u32_small (top - argc * 4)) by lia.
  destruct (put_args_ok kargv s fs (top - argc * 4) top 0) as (s1 & He1 & Hp1 & Ha1 & Hv1);
    [done|done|lia|fold args; intros x Hx; apply Hmap; lia|fold argc; lia|fold args; lia|].
  fold args in Ha1, Hv1. fold argc in Hv1. rewrite He1. cbn [mbind res_bind]. rewrite u32_small by lia.
  destruct (upokes_ok (le32_bytes argc) s1 fs (top - argc * 4 - 4)) as (s2 & He2 & Hp2 & Hv2); [by eapply poked_layout| |].
  { intros x Hx. rewrite le32_bytes_length in Hx. eapply poked_mapped; [done|]. apply Hmap. lia. }
  rewrite He2. cbn [mbind res_bind]. rewrite le32_bytes_length in Hv2. exists (top - argc * 4 - 4), s2. split; [done|]. split; [by eapply poked_trans|]. split; [lia|].
  split; [|split].
  - intros x Hx. rewrite le32_bytes_length in Hx. by rewrite Hv2, decide_True.
  - replace (top - argc * 4 - 4 + 4) with (top - argc * 4) by lia. replace (top - argc * 4 + 4 * argc) with (top + 0) by lia.
    assert (Hsame : forall x, top - argc * 4 <= x -> view s2 x = view s1 x) by (intros x Hx; rewrite Hv2, decide_False by lia; done).
    assert (Hge : top - argc * 4 <= top + 0) by lia. clear -Ha1 Hsame Hge. revert Ha1 Hsame Hge. generalize (top - argc * 4) as u, (top + 0) as v.
    intros u v Ha Hsame Hge. assert (Hb : forall w z, u <= w -> u <= z -> args_at s1 args w z -> args_at s2 args w z); [|by apply Hb].
    clear -Hsame. induction args as [|arg args IH]; intros w z Hw Hz; [done|]. cbn [args_at]. intros (B1 & B2 & B3).
    split; [|split]; [eapply bytes_view_kept; [done|intros x Hx; apply Hsame; lia]..|]. apply IH; [lia|lia|done].
  - intros x Hx. rewrite Hv2, decide_False by lia. apply Hv1; lia.
Qed.

(** The directory of the new address space. *)
Lemma alloc_dir s dir fs :
  layout s (dir :: fs) -> exists s', setup_pgdir s = Ok (Some dir, s') /\ layout s' fs /\ pages s' = pages s /\ xs s' = xs s /\ nmm s' = nmm s /\ taken s' = {[dir]} ∪ taken s.
Proof.
  intros [[rest Hf] (i & rt & Htn & Hti & Htp) Htd Hnd Hnew Hus Hinj]. apply NoDup_cons in Hnd as [Hk Hnd]. unfold setup_pgdir, alloc_page. rewrite Hf. simpl. eexists. split; [done|]. simpl. split_and!; try done.
  constructor; simpl; [by eexists|exists i, rt; split_and!; try done; simpl in Hti; lia|done|done|intros; by apply Hnew; right| |done].
  intros la x Hx. destruct (Hus _ _ Hx) as (? & ? & ? & ? & Hn & ?). split_and!; try done. intros ?. apply Hn. by right.
Qed.

Lemma stack_page_ok s f fs k :
  layout s (f :: fs) -> pages s !! (USTACKTOP - k * PGSIZE) = None ->
  exists s', pgdir_alloc_page (USTACKTOP - k * PGSIZE) PTE_USER s = Ok (Some f, s') /\ layout s' fs /\ pages s' = <[USTACKTOP - k * PGSIZE := (f, PTE_USER)]> (pages s) /\
    xs s' = xs s /\ nmm s' = nmm s /\ taken s' = {[f]} ∪ taken s /\ (forall x, ~ within (USTACKTOP - k * PGSIZE) x -> view s' x = view s x).
Proof.
  intros Hly Hno. apply (alloc_layout s f fs _ PTE_USER Hly); [|done]. unfold USTACKTOP, USERTOP, PGSIZE.
  replace (2952790016 - k * 4096) with ((720896 - k + 1 - 1) * 4096) by lia. apply Z.mod_mul. lia.
Qed.

Lemma stack_pages_ok s fs :
  layout s fs -> (4 <= length fs)%nat -> (forall la, USTACKTOP - 4 * PGSIZE <= la < USTACKTOP -> pages s !! la = None) ->
  exists s', stack_pages s = Ok s' /\ layout s' (drop 4 fs) /\ xs s' = xs s /\ nmm s' = nmm s /\ all_mapped s' (USTACKTOP - 4 * PGSIZE) USTACKTOP /\
    taken s' = list_to_set (take 4 fs) ∪ taken s /\ (forall x, x < USTACKTOP - 4 * PGSIZE -> view s' x = view s x) /\
    (forall la, ~ (USTACKTOP - 4 * PGSIZE <= la < USTACKTOP) -> pages s' !! la = pages s !! la).
Proof.
  intros Hly Hlen Hno. do 4 (destruct fs as [|? fs]; [simpl in Hlen; lia|]). unfold stack_pages. assert (HP : PGSIZE = 4096) by done.
  destruct (stack_page_ok s z _ 1 Hly) as (s1 & -> & Hly1 & Hp1 & Hx1 & Hn1 & Ht1 & Hv1); [apply Hno; lia|]. cbn [mbind res_bind].
  destruct (stack_page_ok s1 z0 _ 2 Hly1) as (s2 & -> & Hly2 & Hp2 & Hx2 & Hn2 & Ht2 & Hv2); [rewrite Hp1, lookup_insert_ne by lia; apply Hno; lia|]. cbn [mbind res_bind].
  destruct (stack_page_ok s2 z1 _ 3 Hly2) as (s3 & -> & Hly3 & Hp3 & Hx3 & Hn3 & Ht3 & Hv3); [rewrite Hp2, Hp1, !lookup_insert_ne by lia; apply Hno; lia|]. cbn [mbind res_bind].
  destruct (stack_page_ok s3 z2 _ 4 Hly3) as (s4 & -> & Hly4 & Hp4 & Hx4 & Hn4 & Ht4 & Hv4); [rewrite Hp3, Hp2, Hp1, !lookup_insert_ne by lia; apply Hno; lia|].
  exists s4. split; [done|]. split; [by rewrite <- (drop_0 fs)|]. split_and!; try congruence.
  - intros x Hx. unfold mapped. rewrite Hp4, Hp3, Hp2, Hp1.
    assert (Hk : exists k, (k = 1 \/ k = 2 \/ k = 3 \/ k = 4) /\ x - x mod PGSIZE = USTACKTOP - k * PGSIZE).
    { exists ((USTACKTOP - 1 - x) / PGSIZE + 1). unfold USTACKTOP, USERTOP, PGSIZE in *. pose proof (Z.div_mod (2952790016 - 1 - x) 4096 ltac:(lia)).
      pose proof (Z.mod_pos_bound (2952790016 - 1 - x) 4096 ltac:(lia)). pose proof (Z.div_mod x 4096 ltac:(lia)). pose proof (Z.mod_pos_bound x 4096 ltac:(lia)). lia. }
    destruct Hk as (k & Hk & ->). destruct Hk as [->|[->|[->| ->]]]; repeat (rewrite lookup_insert_eq || rewrite lookup_insert_ne by lia); done.
  - rewrite Ht4, Ht3, Ht2, Ht1. cbn. set_solver.
  - intros x Hx. rewrite Hv4, Hv3, Hv2, Hv1; [done|unfold within; lia..].
  - intros x Hx. rewrite Hp4, Hp3, Hp2, Hp1, !lookup_insert_ne by lia. done.
Qed.

Lemma live_inode_ok v r o : inode_at v nd = Inode r o -> nd <> 0 -> 0 <= o <= r -> r < MAX_INODE_COUNT -> inode_check nd v = Ok tt.
Proof.
  intros Hi Hn Ho Hr. unfold inode_check. rewrite Hi. cbn [ref_count open_count]. rewrite (proj2 (Z.eqb_neq nd 0)) by done. cbn [negb kassert mbind res_bind].
  rewrite (kassert_true ((o <=? r) && (0 <=? o))) by (rewrite andb_true_iff, !Z.leb_le; lia). cbn [mbind res_bind].
  apply kassert_true. rewrite andb_true_iff, !Z.ltb_lt. lia.
Qed.

Lemma inode_check_inv v : inode_check nd v = Ok tt -> nd <> 0 /\ open_count (inode_at v nd) <= ref_count (inode_at v nd) < MAX_INODE_COUNT.
Proof.
  unfold inode_check. destruct (Z.eqb_spec nd 0); [done|]. cbn [negb kassert mbind res_bind]. unfold kassert.
  destruct (Z.leb_spec (open_count (inode_at v nd)) (ref_count (inode_at v nd))); [|done]. destruct (_ <=? _); [|done]. cbn [andb mbind res_bind].
  destruct (Z.ltb_spec (ref_count (inode_at v nd)) MAX_INODE_COUNT); [|done]. done.
Qed.

Lemma close_live_ok v : inode_check nd v = Ok tt -> 0 < open_count (inode_at v nd) -> exists v', vfs_close nd v = Ok v'.
Proof.
  intros (Hn & Hr)%inode_check_inv Ho. set (r := ref_count (inode_at v nd)) in *. set (o := open_count (inode_at v nd)) in *.
  assert (Hd : forall v, inode_at v nd = Inode r (o - 1) -> exists v', inode_ref_dec nd v = Ok v').
  { intros v1 Hv. unfold inode_ref_dec. rewrite Hv. cbn [ref_count open_count]. rewrite kassert_true by (apply Z.ltb_lt; lia). cbn [mbind res_bind].
    destruct (Z.eqb_spec (r - 1) 0); [|by eexists]. rewrite (live_inode_ok _ (r - 1) (o - 1)) by (rewrite ?inode_at_set, ?Z.eqb_refl; done || lia). by eexists. }
  unfold vfs_close, inode_open_dec. rewrite kassert_true by (by apply Z.ltb_lt). cbn [mbind res_bind]. fold r o. destruct (Z.eqb_spec (o - 1) 0); cbn [mbind res_bind].
  - rewrite (live_inode_ok _ r (o - 1)) by (rewrite ?inode_at_set, ?Z.eqb_refl; done || lia). cbn [mbind res_bind]. apply Hd. unfold call, inode_at. simpl. by rewrite lookup_insert_eq.
  - apply Hd. by rewrite inode_at_set, Z.eqb_refl.
Qed.

Lemma close_ok f p : opened f n nd p true wr -> 0 < open_count (inode_at (fv f) nd) -> exists f', file_close n f = Ok (0, f').
Proof.
  intros [Hrange Htab Hfiles (c & Hc & He) Hnode] Hoc. unfold file_close, fd2file, get_fd_array. rewrite Hrange, kassert_true by (by apply Z.ltb_lt).
  cbn [mbind res_bind]. rewrite He. unfold is_status. cbn [status fd]. rewrite bool_decide_true, Z.eqb_refl by done. cbn [andb mbind res_bind].
  unfold fd_array_close. rewrite He. unfold is_status. cbn [status fcount]. rewrite bool_decide_true by done. cbn [kassert mbind res_bind].
  rewrite kassert_true by (apply Z.ltb_lt; lia). cbn [mbind res_bind]. unfold fopen_count_dec, set_status, set_fcount. cbn [status readable writable fd pos node fcount].
  set (f1 := set_ent _ _ _). assert (Hf1 : ent f1 n = File FD_CLOSED true wr n p nd (c - 1)) by (unfold f1; by rewrite ent_set_ent). rewrite Hf1. cbn [fcount].
  destruct (Z.eqb_spec (c - 1) 0) as [Hz|Hz]; [|by eexists]. unfold fd_array_free. rewrite Hf1. unfold is_status. cbn [status fcount node].
  rewrite (bool_decide_true (FD_CLOSED = FD_CLOSED)) by done. rewrite orb_true_r. cbn [kassert mbind res_bind]. rewrite Hz. cbn [Z.eqb kassert mbind res_bind]. change (kassert (0 =? 0)) with (Ok tt). cbn [mbind res_bind].
  change (fv f1) with (fv f). destruct (close_live_ok (fv f) Hnode Hoc) as (v & ->). cbn [mbind res_bind]. by eexists.
Qed.

(** ** The whole program *)

(** The strings from [a] on and the pointers to them, in the memory [m]. *)
Fixpoint args_in (m : mem) (args : list (list Z)) (uargv a : Z) : Prop :=
  match args with
  | [] => True
  | arg :: args =>
      load m a (Z.of_nat (length arg) + 1) = arg ++ [0] /\ load m uargv 4 = le32_bytes a /\ args_in m args (uargv + 4) (a + (Z.of_nat (length arg) + 1))
  end.

Lemma run_bytes s m a l : bytes_view s a l -> a + Z.of_nat (length l) <= KERNBASE -> load (ram (xs (run_with m s))) a (Z.of_nat (length l)) = l.
Proof.
  intros Hb Ha. apply list_eq_same_length with (length l); [done|pose proof (length_load (ram (xs (run_with m s))) a (Z.of_nat (length l))); lia|].
  intros i x y Hi Hx Hy. rewrite lookup_load in Hx by lia. simplify_eq. cbn [run_with set_nmm xs set_xs set_user ram].
  rewrite (proj2 (Z.ltb_lt _ _)) by lia. rewrite Hb by lia. replace (Z.to_nat (a + Z.of_nat i - a)) with i by lia. by rewrite Hy.
Qed.

Lemma run_args s m args : forall uargv a, args_at s args uargv a -> uargv + 4 * Z.of_nat (length args) <= KERNBASE -> a + args_size args <= KERNBASE ->
  args_in (ram (xs (run_with m s))) args uargv a.
Proof.
  induction args as [|arg args IH]; intros u a; [done|]. cbn [args_at args_in args_size foldr length]. fold (args_size args). pose proof (args_size_nonneg args).
  intros (H1 & H2 & H3) Hu Ha. split; [|split].
  - pose proof (run_bytes s m a (arg ++ [0]) H1) as Hr. rewrite length_app in Hr. cbn [length] in Hr.
    replace (Z.of_nat (length arg) + 1) with (Z.of_nat (length arg + 1)) by lia. apply Hr. lia.
  - pose proof (run_bytes s m u (le32_bytes a) H2) as Hr. rewrite le32_bytes_length in Hr. apply Hr. lia.
  - apply IH; [done|lia|lia].
Qed.

(** The segment as the process sees it. *)
Definition seg_in (m : mem) (ph : proghdr) : Prop :=
  (forall a, p_va ph <= a < p_va ph + p_filesz ph -> Some (m a) = b !! Z.to_nat (p_offset ph + (a - p_va ph))) /\
  (forall a, p_va ph + p_filesz ph <= a < p_va ph + p_memsz ph -> m a = 0).

Lemma run_seg s m ph : seg_ok ph -> seg_loaded s ph -> seg_in (ram (xs (run_with m s))) ph.
Proof.
  intros Hok [Hf Hz]. pose proof (sg_hi _ Hok). pose proof (sg_size _ Hok). destruct (rounds_ok ph Hok) as (_ & R2 & _). pose proof (sg_lo _ Hok). pose proof (sg_file _ Hok).
  unfold USTACKTOP, USTACKSIZE, USERTOP, USERBASE, PGSIZE in *. split; intros a Ha; cbn [run_with set_nmm xs set_xs set_user ram]; rewrite (proj2 (Z.ltb_lt _ _)) by (unfold KERNBASE; lia).
  - rewrite Hf by lia. destruct (lookup_lt_is_Some_2 b (Z.to_nat (p_offset ph + (a - p_va ph)))) as [x Hx]; [lia|]. by rewrite Hx.
  - by rewrite Hz by lia.
Qed.

Lemma rep_count_add d m l : rep m l -> rep (mm_count_add d m) l.
Proof. intros []. by constructor. Qed.

(** What a load needs: an executable whose segments lie in the user part
    below the stack, in pages of their own; [m] the new address space, [dir]
    and [fs] the frames to come, which are not among those for tables, [rd] kernel buffers, the arguments small
    enough for the four stack pages. *)
Record program s (m : vmst) (locs : Z * Z) (dir : Z) (fs : list Z) (rd : nat) (elf : elfhdr) : Prop := {
  pr_reader : reader s rd;
  pr_layout : layout (new_space m s) (dir :: fs);
  pr_mm : rep m [] /\ mm_count (mm m) = 0;
  pr_locs : lp <= locs.1 /\ locs.1 + ELFHDR_SIZE <= lp + PGSIZE /\ lp <= locs.2 /\ locs.2 + PROGHDR_SIZE <= lp + PGSIZE;
  pr_elf : elf = elf_dec (part b 0 ELFHDR_SIZE) /\ e_magic elf = ELF_MAGIC /\ e_phoff elf = phoff /\ 0 <= phoff /\ 0 <= e_phnum elf;
  pr_file : ELFHDR_SIZE <= Z.of_nat (length b) /\ phoff + PROGHDR_SIZE * e_phnum elf <= Z.of_nat (length b);
  pr_fine : phs_fine (Z.to_nat (e_phnum elf)) 0;
  pr_apart : segs_apart (segs (Z.to_nat (e_phnum elf)) 0);
  pr_pool : (length (segs (Z.to_nat (e_phnum elf)) 0) < length (pool m))%nat;
  pr_tables : NoDup ts /\ (forall t, t ∈ ts -> t ∉ dir :: fs);
  pr_frames : (all_pages (segs (Z.to_nat (e_phnum elf)) 0) + 4 <= length fs)%nat;
  pr_bufs : (1 + Z.to_nat (e_phnum elf) + all_pages (segs (Z.to_nat (e_phnum elf)) 0) <= rd)%nat;
  pr_argc : Z.of_nat (length kargv) <= EXEC_MAX_ARG_NUM;
  pr_args : args_size ((fun k => arg_at k s) <$> kargv) + 4 * Z.of_nat (length kargv) + 8 <= 4 * PGSIZE
}.

Lemma read_elf s fs loc rd :
  layout s fs -> reader s (S rd) -> lp <= loc -> loc + ELFHDR_SIZE <= lp + PGSIZE -> ELFHDR_SIZE <= Z.of_nat (length b) ->
  exists s', load_icode_read n loc ELFHDR_SIZE 0 s = Ok (0, s') /\ layout s' fs /\ reader s' rd /\
    elf_at (kram s') loc = elf_dec (part b 0 ELFHDR_SIZE) /\ nmm s' = nmm s /\ pages s' = pages s /\ taken s' = taken s /\ kmem_kept [kb; lp] s s'.
Proof.
  intros Hly Hrd Hl1 Hl2 Hb. unfold ELFHDR_SIZE in *. pose proof lp_page as (L1 & L2 & L3). pose proof kb_page as (K1 & K2 & K3).
  destruct (icode_read_ok s rd loc 52 0) as (s1 & He & Hrd1 & Hp1 & Hf1 & Hn1 & Ht1 & Hl & Hm); try done; try (unfold PGSIZE in *; lia).
  { destruct (decide (kb < lp)); [right|left]; [|assert (lp < kb) by lia]; unfold PGSIZE in *;
      pose proof (Z.div_mod lp 4096 ltac:(lia)); pose proof (Z.div_mod kb 4096 ltac:(lia)); lia. }
  exists s1. split_and!; try done; [by eapply layout_same|by apply elf_load|].
  intros x Hx. apply Hm; [|apply Hx; by left]. intros Hr. apply (Hx lp); [right; by left|]. unfold within. lia.
Qed.

(** Bytes outside the pages that a load writes keep the arguments. *)
Lemma args_kept s s' F : kmem_kept F s s' -> (forall k, k ∈ F -> kpage k /\ k ∉ kargv) -> (fun k => arg_at k s') <$> kargv = (fun k => arg_at k s) <$> kargv.
Proof.
  intros Hk HF. apply list_fmap_ext. intros i k Hi. assert (Hin : k ∈ kargv) by (by eapply list_elem_of_lookup_2). destruct (kargv_pages k Hin) as (Hp & _).
  rewrite !arg_at_unfold. apply cstring_ext. intros x Hx. apply Hk. intros q Hq Hw. destruct (HF q Hq) as [Hqp Hqn]. apply Hqn. replace q with k; [done|].
  eapply kpage_apart; try done.
Qed.

Lemma load_program s m locs dir fs rd elf :
  program s m locs dir fs rd elf ->
  let sg := segs (Z.to_nat (e_phnum elf)) 0 in
  exists s2 l2, (exists s0 s1, setup_pgdir (new_space m s) = Ok (Some dir, s0) /\ load_icode_read n locs.1 ELFHDR_SIZE 0 s0 = Ok (0, s1) /\
      elf_at (kram s1) locs.1 = elf /\ load_phs (Z.to_nat (e_phnum elf)) n locs.2 phoff 0 s1 = Ok (0, s2)) /\
    layout s2 (drop (all_pages sg) fs) /\ reader s2 0 /\ rep (nmm s2) l2 /\ pool (nmm s2) <> [] /\ mm_count (mm (nmm s2)) = 0 /\
    Forall (seg_loaded s2) sg /\ Forall (fun ph => forall x, in_seg ph x -> cover l2.*2 x = Some (seg_flags ph)) sg /\
    (forall x, (forall ph, ph ∈ sg -> ~ in_seg ph x) -> cover l2.*2 x = None /\ pages s2 !! x = None) /\
    (fun k => arg_at k s2) <$> kargv = (fun k => arg_at k s) <$> kargv /\ taken s2 = {[dir]} ∪ list_to_set (take (all_pages sg) fs) ∪ taken s.
Proof.
  intros [Hrd Hly (Hm & Hmc) (Hl1 & Hl2 & Hl3 & Hl4) (He & Hmag & Hph & Hph0 & Hpn) (Hf1 & Hf2) Hfine Hap Hpl Htts Hfr Hrdk Hac Har] sg.
  destruct (alloc_dir _ _ _ Hly) as (s0 & Hd0 & Hly0 & Hp0 & Hx0 & Hn0 & Ht0). destruct rd as [|rd]; [lia|].
  assert (Hrd0 : reader s0 (S rd)) by (destruct Hrd; constructor; by rewrite Hx0).
  destruct (read_elf s0 fs locs.1 rd) as (s1 & He1 & Hly1 & Hrd1 & Helf1 & Hn1 & Hp1 & Ht1 & Hk1); try done.
  assert (Hp10 : pages s1 = ∅) by (by rewrite Hp1, Hp0). assert (Hn10 : nmm s1 = m) by (by rewrite Hn1, Hn0).
  assert (Hl0 : length (segs (Z.to_nat (e_phnum elf)) 0) = length sg) by done.
  destruct (load_phs_ok (Z.to_nat (e_phnum elf)) s1 fs locs.2 0 [] rd) as (s2 & l2 & He2 & Hly2 & Hrd2 & [P1 P2 P3 P4 P5 P6 P7]); try done; try lia.
  { by rewrite Hn10. } { unfold PROGHDR_SIZE in *. lia. } { apply Forall_forall. intros q _. split; [done|]. intros x _. by rewrite Hp10. } { rewrite Hn10. lia. }
  exists s2, l2. split; [exists s0, s1; split_and!; done || congruence|]. rewrite Hn10 in P5. destruct P5 as [P5 P5']. split_and!; try done.
  - eapply reader_less; [exact Hrd2|lia].
  - rewrite P5. intros E. apply (f_equal length) in E. rewrite length_drop in E. fold sg in E. simpl in E. lia.
  - by rewrite P5'.
  - intros x Hx. destruct (P4 x Hx) as (-> & _ & ->). by rewrite Hp10.
  - transitivity ((fun k => arg_at k s0) <$> kargv); [|apply list_fmap_ext; intros; rewrite !arg_at_unfold; unfold kram; by rewrite Hx0].
    eapply args_kept; [eapply kmem_kept_trans; [exact Hk1|exact P7]|]. intros k Hk. rewrite elem_of_app, !elem_of_cons, elem_of_nil in Hk.
    assert (Hkb : kpage kb /\ kb ∉ kargv) by (split; [done|intros Hin; by destruct (kargv_pages kb Hin) as (_ & ? & _)]).
    assert (Hlp : kpage lp /\ lp ∉ kargv) by (split; [done|intros Hin; by destruct (kargv_pages lp Hin) as (_ & _ & ?)]).
    assert (Hfs : forall k, k ∈ take (all_pages sg) fs -> kpage k /\ k ∉ kargv).
    { intros q Hq. destruct (ly_new _ _ Hly q) as (? & _ & _ & ?); [right; rewrite <- (take_drop (all_pages sg) fs); apply elem_of_app; by left|done]. }
    destruct Hk as [[->|[->|[]]]|[->|[->|Hk]]]; auto.
  - rewrite P6, Ht1, Ht0. simpl. clear. set_solver.
Qed.

Lemma segs_below_stack k x : phs_fine k 0 -> USTACKTOP - USTACKSIZE <= x -> forall ph, ph ∈ segs k 0 -> ~ in_seg ph x.
Proof.
  intros Hf Hx ph Hin. pose proof (segs_ok k 0 Hf) as Hok. rewrite Forall_forall in Hok. destruct (rounds_ok ph (Hok ph Hin)) as (_ & _ & _ & _ & R5 & _). unfold in_seg. lia.
Qed.

(** The stack: four pages, the arguments. *)
Lemma load_stack s fs :
  layout s fs -> (4 <= length fs)%nat -> (forall x, USTACKTOP - 4 * PGSIZE <= x < USTACKTOP -> pages s !! x = None) ->
  args_size ((fun k => arg_at k s) <$> kargv) + 4 * Z.of_nat (length kargv) + 8 <= 4 * PGSIZE ->
  exists s1 esp s2, stack_pages s = Ok s1 /\ setup_args kargv s1 = Ok (esp, s2) /\
    esp + 4 + 4 * Z.of_nat (length kargv) + args_size ((fun k => arg_at k s) <$> kargv) <= USTACKTOP /\ nmm s2 = nmm s /\
    bytes_view s2 esp (le32_bytes (Z.of_nat (length kargv))) /\
    args_at s2 ((fun k => arg_at k s) <$> kargv) (esp + 4) (esp + 4 + 4 * Z.of_nat (length kargv)) /\
    taken s2 = list_to_set (take 4 fs) ∪ taken s /\ (forall x, x < USTACKTOP - 4 * PGSIZE -> view s2 x = view s x) /\
    layout s2 (drop 4 fs) /\
    forall la, la mod PGSIZE = 0 -> is_Some (pages s2 !! la) <-> is_Some (pages s !! la) \/ USTACKTOP - 4 * PGSIZE <= la < USTACKTOP.
Proof.
  intros Hly Hfs Hno Har. destruct (stack_pages_ok s fs Hly Hfs Hno) as (s1 & He1 & Hly1 & Hx1 & Hn1 & Hm1 & Ht1 & Hv1 & Hpo1).
  assert (Heq : (fun k => arg_at k s1) <$> kargv = (fun k => arg_at k s) <$> kargv).
  { apply list_fmap_ext. intros i k _. rewrite !arg_at_unfold. unfold kram. by rewrite Hx1. }
  destruct (setup_args_ok s1 (drop 4 fs)) as (esp & s2 & He2 & Hp2 & [_ Hesp] & Hb2 & Ha2 & Hv2); try done; [by rewrite Heq|].
  rewrite Heq in Ha2, Hesp. pose proof (poked_layout _ _ _ Hly1 Hp2) as Hly2. destruct Hp2. exists s1, esp, s2. split_and!; try done; try congruence.
  - intros x Hx. rewrite Hv2, Hv1 by done. done.
  - intros la Hal. rewrite pk_pages0. destruct (decide (USTACKTOP - 4 * PGSIZE <= la < USTACKTOP)) as [Hin|Hout].
    + split; [by right|]. intros _. specialize (Hm1 la Hin). unfold mapped in Hm1. by rewrite Hal, Z.sub_0_r in Hm1.
    + rewrite Hpo1 by done. tauto.
Qed.

(** The pages of a loaded segment are there. *)
Lemma seg_mapped s ph la : seg_ok ph -> seg_loaded s ph -> la mod PGSIZE = 0 -> in_seg ph la -> is_Some (pages s !! la).
Proof.
  intros Hok [Hf Hz] Hal [H1 H2]. destruct (rounds_ok ph Hok) as (R1 & R2 & R3 & R4 & _). destruct Hok as [_ _ Hs Hfl].
  assert (Hlast : la <= seg_hi ph - PGSIZE).
  { unfold PGSIZE in *. pose proof (Z.div_mod la 4096 ltac:(lia)). pose proof (Z.div_mod (seg_hi ph) 4096 ltac:(lia)). lia. }
  assert (Hfirst : seg_lo ph <= la) by done. set (a := Z.max la (p_va ph)).
  destruct (page_unique la a Hal) as [Hpa _]; [unfold a; lia|].
  assert (Hv : is_Some (view s a)).
  { destruct (decide (a < p_va ph + p_filesz ph)) as [Ha|Ha].
    - rewrite Hf by (unfold a in *; lia). apply lookup_lt_is_Some_2. unfold a in *. lia.
    - rewrite Hz by (unfold a in *; lia). by eexists. }
  unfold view in Hv. rewrite Hpa in Hv. destruct (pages s !! la); [by eexists|by destruct Hv].
Qed.

(** What [exec] leaves behind: the registers, the memory of the process, its
    areas, the frames it holds. *)
Record loaded s s' (elf : elfhdr) (tf : trapframe) (sg : list proghdr) (used : gset Z) : Prop := {
  ld_regs : tf_eip tf = e_entry elf /\ tf_eflags tf = FL_IF /\ tf_cs tf = 0x1B /\ tf_ds tf = 0x23 /\ tf_es tf = 0x23 /\ tf_ss tf = 0x23;
  ld_image : Forall (seg_in (ram (xs s'))) sg;
  ld_argc : load (ram (xs s')) (tf_esp tf) 4 = le32_bytes (Z.of_nat (length kargv));
  ld_args : args_in (ram (xs s')) ((fun k => arg_at k s) <$> kargv) (tf_esp tf + 4) (tf_esp tf + 4 + 4 * Z.of_nat (length kargv));
  ld_areas : exists m l, um (xs s') = Some m /\ rep m l /\ mm_count (mm m) = 1 /\
    Forall (fun ph => forall x, in_seg ph x -> cover l.*2 x = Some (seg_flags ph)) sg /\
    (forall x, USTACKTOP - USTACKSIZE <= x < USTACKTOP -> cover l.*2 x = Some (Z.lor VM_READ (Z.lor VM_WRITE VM_STACK))) /\
    (forall x, x < USTACKTOP - USTACKSIZE \/ USTACKTOP <= x -> (forall ph, ph ∈ sg -> ~ in_seg ph x) -> cover l.*2 x = None);
  ld_pages : forall la, la mod PGSIZE = 0 ->
    is_Some (pages s' !! la) <-> (exists ph, ph ∈ sg /\ in_seg ph la) \/ USTACKTOP - 4 * PGSIZE <= la < USTACKTOP;
  ld_taken : taken s' = used ∪ taken s;
  ld_tables : forall d, is_Some (tables (frames s') !! d) <-> exists la, is_Some (pages s' !! la) /\ PDX la = d;
  ld_tframes : exists i, (map_to_list (tables (frames s'))).*2 ≡ₚ take i ts
}.

Lemma load_icode_ok s m locs dir fs rd elf :
  program s m locs dir fs rd elf ->
  let sg := segs (Z.to_nat (e_phnum elf)) 0 in
  exists tf s', load_icode (Some m) locs n kargv s = Ok (0, Some tf, s') /\
    loaded s s' elf tf sg (list_to_set (dir :: take (all_pages sg + 4) fs)).
Proof.
  intros Hpr sg. destruct (load_program s m locs dir fs rd elf Hpr) as (s2 & l2 & (s0 & s1 & Hd & He1 & Helf & He2) & Hly2 & Hrd2 & Hr2 & Hp2 & Hmc2 & Him & Hfl & Hout & Har2 & Htk2).
  destruct Hpr as [Hrd Hly Hm Hl (He & Hmag & Hph & Hph0 & Hpn) Hf Hfine Hap Hpl Htts Hfr Hrdk Hac Har]. fold sg in Him, Hfl, Hout, Hly2, Htk2, Hfr.
  unfold load_icode. rewrite (kassert_true (Z.of_nat (length kargv) <=? EXEC_MAX_ARG_NUM)) by (by apply Z.leb_le). cbn [mbind res_bind]. rewrite (rr_user _ _ Hrd). cbn [kassert mbind res_bind]. rewrite Hd. cbn [mbind res_bind]. rewrite He1.
  cbn [mbind res_bind]. change (negb (0 =? 0)) with false. cbv iota. rewrite Helf, Hmag, Z.eqb_refl. cbn [negb]. rewrite Hph, He2. cbn [mbind res_bind].
  change (negb (0 =? 0)) with false. cbv iota. destruct (rr_open _ _ Hrd2) as (p & Hop & Hoc). destruct (close_ok _ p Hop Hoc) as (f' & Hcl).
  unfold sysfile_close. rewrite Hcl. cbn [mbind res_bind].
  assert (Hst : forall x, USTACKTOP - USTACKSIZE <= x -> cover l2.*2 x = None /\ pages s2 !! x = None).
  { intros x Hx. apply Hout. by apply segs_below_stack. }
  assert (HP : PGSIZE = 4096) by done. assert (HU : USTACKTOP = 0xB0000000) by done. assert (HS : USTACKSIZE = 0x100000) by done.
  destruct (mm_map_ok (nmm s2) l2 (USTACKTOP - USTACKSIZE) USTACKSIZE (Z.lor VM_READ (Z.lor VM_WRITE VM_STACK))) as (o & m' & l' & Hmm & Hr' & Hcov & _ & Hmc'); try done.
  { intros x Hx. apply Hst. change (ROUNDDOWN (USTACKTOP - USTACKSIZE) PGSIZE) with (USTACKTOP - USTACKSIZE) in Hx. lia. }
  change (ROUNDDOWN (USTACKTOP - USTACKSIZE) PGSIZE) with (USTACKTOP - USTACKSIZE) in Hcov. change (ROUNDUP (u32 (USTACKTOP - USTACKSIZE + USTACKSIZE)) PGSIZE) with USTACKTOP in Hcov.
  rewrite Hmm. cbn [mbind res_bind]. change (negb (0 =? 0)) with false. cbv iota. set (s3 := set_nmm m' (set_xs (set_ft f' (xs s2)) s2)).
  assert (Har3 : (fun k => arg_at k s3) <$> kargv = (fun k => arg_at k s) <$> kargv) by (rewrite <- Har2; apply list_fmap_ext; intros; by rewrite !arg_at_unfold).
  destruct (load_stack s3 (drop (all_pages sg) fs)) as (s4 & esp & s5 & He4 & He5 & Hesp & Hn5 & Hb5 & Ha5 & Ht5 & Hv5 & Hly5 & Hpg5);
    [by eapply layout_same|rewrite length_drop; lia|intros x Hx; apply Hst; lia|by rewrite Har3|].
  rewrite Har3 in Ha5. rewrite He4. cbn [mbind res_bind]. rewrite He5. cbn [mbind res_bind]. eexists _, _. split; [done|].
  pose proof (args_size_nonneg ((fun k => arg_at k s) <$> kargv)) as Hnn.
  constructor; cbn [tf_eip tf_eflags tf_esp].
  - done.
  - pose proof (segs_ok _ _ Hfine) as Hok. fold sg in Hok. rewrite Forall_forall in Him, Hok |- *. intros ph Hin. apply run_seg; [by apply Hok|].
    apply (seg_loaded_kept s2); [by apply Hok|by apply Him|]. intros x Hx. rewrite Hv5; [done|]. destruct (rounds_ok ph (Hok ph Hin)) as (_ & _ & _ & _ & R5 & _). unfold in_seg in Hx. lia.
  - apply (run_bytes s5 _ esp (le32_bytes (Z.of_nat (length kargv))) Hb5). rewrite le32_bytes_length. rewrite Har3 in Hesp. unfold KERNBASE. lia.
  - rewrite Har3 in Hesp. apply run_args; [done|rewrite length_fmap; unfold KERNBASE; lia|unfold KERNBASE; lia].
  - exists (mm_count_add 1 (nmm s5)), l'. split; [done|]. rewrite Hn5. split; [by apply rep_count_add|]. split; [simpl; lia|].
    assert (Hc2 : forall x, USTACKTOP - USTACKSIZE <= x < USTACKTOP \/ cover l'.*2 x = cover l2.*2 x).
    { intros x. rewrite Hcov. destruct (Z.leb_spec (USTACKTOP - USTACKSIZE) x), (Z.ltb_spec x USTACKTOP); simpl; auto. }
    split; [|split].
    + rewrite Forall_forall in Hfl |- *. intros ph Hin x Hx. destruct (Hc2 x) as [Hs|Hs]; [|rewrite Hs; by apply Hfl].
      destruct (segs_below_stack _ x Hfine ltac:(lia) ph Hin Hx).
    + intros x Hx. rewrite Hcov. by rewrite (proj2 (Z.leb_le _ _)), (proj2 (Z.ltb_lt _ _)) by lia.
    + intros x Hx Hno. destruct (Hc2 x) as [Hs|Hs]; [lia|]. rewrite Hs. by apply Hout.
  - intros la Hal. cbn [run_with set_nmm set_xs pages]. rewrite Hpg5 by done. change (pages s3) with (pages s2).
    pose proof (segs_ok _ _ Hfine) as Hok. fold sg in Hok. rewrite Forall_forall in Him, Hok. split; (intros [Hla|Hla]; [left|by right]).
    + destruct (decide (Exists (fun ph => in_seg ph la) sg)) as [He0|He0]; [by apply Exists_exists in He0|].
      destruct (Hout la) as [_ E]; [|rewrite E in Hla; by destruct Hla]. intros ph Hin Hx. apply He0, Exists_exists. eauto.
    + destruct Hla as (ph & Hin & Hx). apply (seg_mapped s2 ph); auto.
  - cbn [run_with set_nmm set_xs taken]. rewrite Ht5. change (taken s3) with (taken s2). rewrite Htk2, <- take_take_drop.
    change (dir :: take (all_pages sg) fs ++ _) with ((dir :: take (all_pages sg) fs) ++ take 4 (drop (all_pages sg) fs)). rewrite list_to_set_app_L. cbn. clear. set_solver.
  - apply (ly_dirs _ _ Hly5).
  - destruct (ly_tables _ _ Hly5) as (i & _ & _ & _ & Hp). by exists i.
Qed.

End loading.

(** A segment with [p_va + p_memsz] beyond 2^32: the end of the segment lies
    below the end of its file part, and the zeros to store are 2^32 - 17 bytes. *)
Lemma load_tail_wraps {D : Type} (s : est D) :
  load_tail (u32 (0x400010 + 0xFFFFFFFF)) (Cur 0x400020 0x401000 0xC2000000) s =
    Ok (Some (Cur 0x40000F 0x401000 0xC2000000), set_kram (memset (kram s) (0xC2000000 + 0x20) 0 (2 ^ 32 - 17)) s).
Proof. reflexivity. Qed.
