(* ===== verification/SfsFile.v ===== *)
(** * kern/fs/sfs/sfs_inode.c: the blocks and the contents of a file

    The inode of a file in memory with the map from block indices to disk
    blocks (twelve direct entries and one indirect block on disk), reading,
    writing and resizing.  The functions take the inode and the file system
    and return both. *)
From S2P Require Import Prelude IoBuf Bitmap SfsDisk.

Definition SFS_TYPE_FILE : Z := 1.
Definition SFS_TYPE_DIR : Z := 2.
Definition E_INVAL : Z := 3.

Record sfs_disk_inode := Din {
  size : Z; type : Z; nlinks : Z; dblocks : Z; direct : list Z; indirect : Z
}.
Record sfs_inode := Sin { din : sfs_disk_inode; ino : Z; dirty : bool }.

Definition set_din (f : sfs_disk_inode -> sfs_disk_inode) (x : sfs_inode) : sfs_inode := Sin (f (din x)) (ino x) (dirty x).
Definition set_dirty (d : bool) (x : sfs_inode) : sfs_inode := Sin (din x) (ino x) d.
Definition set_size (n : Z) (d : sfs_disk_inode) : sfs_disk_inode :=
  Din n (type d) (nlinks d) (dblocks d) (direct d) (indirect d).
Definition set_nlinks (n : Z) (d : sfs_disk_inode) : sfs_disk_inode :=
  Din (size d) (type d) n (dblocks d) (direct d) (indirect d).
Definition set_dblocks (n : Z) (d : sfs_disk_inode) : sfs_disk_inode :=
  Din (size d) (type d) (nlinks d) n (direct d) (indirect d).
Definition set_direct (i b : Z) (d : sfs_disk_inode) : sfs_disk_inode :=
  Din (size d) (type d) (nlinks d) (dblocks d) (<[Z.to_nat i := b]> (direct d)) (indirect d).
Definition set_indirect (b : Z) (d : sfs_disk_inode) : sfs_disk_inode :=
  Din (size d) (type d) (nlinks d) (dblocks d) (direct d) b.
Definition direct_at (d : sfs_disk_inode) (i : Z) : Z := default 0 (direct d !! Z.to_nat i).

(** ** The block map *)

(** [failed_cleanup] of [sfs_bmap_get_sub_nolock]. *)
Definition bmap_cleanup (r entp ent : Z) (s : sfs) : res (Z * Z * Z * sfs) :=
  s ← (if negb (ent =? entp) then sfs_block_free ent s else Ok s); Ok (r, entp, 0, s).

(** The indirect block [ent] is there or has just been allocated: a block for
    the entry. *)
Definition bmap_fill (entp ent offset : Z) (s : sfs) : res (Z * Z * Z * sfs) :=
  '(r, b, s) ← sfs_block_alloc s;
  if negb (r =? 0) then bmap_cleanup r entp ent s
  else
    '(r, s) ← sfs_wbuf (to_le32 b) ent offset s;
    if negb (r =? 0) then s ← sfs_block_free b s; bmap_cleanup r entp ent s
    else Ok (0, ent, b, s).

(** The result, the indirect block and the entry. *)
Definition sfs_bmap_get_sub_nolock (entp index : Z) (create : bool) (s : sfs) : res (Z * Z * Z * sfs) :=
  _ ← kassert (index <? SFS_BLK_NENTRY);
  let offset := index * 4 in
  if negb (entp =? 0) then
    '(r, l, s) ← sfs_rbuf 4 entp offset s;
    if negb (r =? 0) then Ok (r, entp, 0, s)
    else if negb (le32 l =? 0) || negb create then Ok (0, entp, le32 l, s)
    else bmap_fill entp entp offset s
  else if negb create then Ok (0, entp, 0, s)
  else
    '(r, ent, s) ← sfs_block_alloc s;
    if negb (r =? 0) then Ok (r, entp, 0, s) else bmap_fill entp ent offset s.

Definition bmap_out (b : Z) (x : sfs_inode) (s : sfs) : res (Z * Z * sfs_inode * sfs) :=
  _ ← (if b =? 0 then Ok tt else assert_inuse s b); Ok (0, b, x, s).

Definition sfs_bmap_get_nolock (x : sfs_inode) (index : Z) (create : bool) (s : sfs) : res (Z * Z * sfs_inode * sfs) :=
  if index <? SFS_NDIRECT then
    let b := direct_at (din x) index in
    if (b =? 0) && create then
      '(r, b, s) ← sfs_block_alloc s;
      if negb (r =? 0) then Ok (r, 0, x, s)
      else bmap_out b (set_dirty true (set_din (set_direct index b) x)) s
    else bmap_out b x s
  else
    let index := index - SFS_NDIRECT in
    if index <? SFS_BLK_NENTRY then
      '(r, ent, b, s) ← sfs_bmap_get_sub_nolock (indirect (din x)) index create s;
      if negb (r =? 0) then Ok (r, 0, x, s)
      else if negb (ent =? indirect (din x)) then
        _ ← kassert (indirect (din x) =? 0);
        bmap_out b (set_dirty true (set_din (set_indirect ent) x)) s
      else bmap_out b x s
    else Panic.

Definition sfs_bmap_free_sub_nolock (ent index : Z) (s : sfs) : res (Z * sfs) :=
  _ ← assert_inuse s ent;
  _ ← kassert (index <? SFS_BLK_NENTRY);
  '(r, l, s) ← sfs_rbuf 4 ent (index * 4) s;
  if negb (r =? 0) then Ok (r, s)
  else if negb (le32 l =? 0) then
    '(r, s) ← sfs_wbuf (to_le32 0) ent (index * 4) s;
    if negb (r =? 0) then Ok (r, s) else s ← sfs_block_free (le32 l) s; Ok (0, s)
  else Ok (0, s).

Definition sfs_bmap_free_nolock (x : sfs_inode) (index : Z) (s : sfs) : res (Z * sfs_inode * sfs) :=
  if index <? SFS_NDIRECT then
    let b := direct_at (din x) index in
    if negb (b =? 0) then
      s ← sfs_block_free b s; Ok (0, set_dirty true (set_din (set_direct index 0) x), s)
    else Ok (0, x, s)
  else
    let index := index - SFS_NDIRECT in
    if index <? SFS_BLK_NENTRY then
      if negb (indirect (din x) =? 0) then
        '(r, s) ← sfs_bmap_free_sub_nolock (indirect (din x)) index s; Ok (r, x, s)
      else Ok (0, x, s)
    else Ok (0, x, s).

Definition sfs_bmap_load_nolock (x : sfs_inode) (index : Z) (s : sfs) : res (Z * Z * sfs_inode * sfs) :=
  _ ← kassert (index <=? dblocks (din x));
  let create := index =? dblocks (din x) in
  '(r, b, x, s) ← sfs_bmap_get_nolock x index create s;
  if negb (r =? 0) then Ok (r, 0, x, s)
  else
    _ ← assert_inuse s b;
    let x := if create then set_din (set_dblocks (dblocks (din x) + 1)) x else x in
    Ok (0, b, x, s).

Definition sfs_bmap_truncate_nolock (x : sfs_inode) (s : sfs) : res (Z * sfs_inode * sfs) :=
  _ ← kassert (negb (dblocks (din x) =? 0));
  '(r, x, s) ← sfs_bmap_free_nolock x (dblocks (din x) - 1) s;
  if negb (r =? 0) then Ok (r, x, s)
  else Ok (0, set_dirty true (set_din (set_dblocks (dblocks (din x) - 1)) x), s).

(** ** Contents *)

(** Where a transfer of [len] bytes from [offset] ends: a result, or [endpos]. *)
Definition io_end (d : sfs_disk_inode) (offset len : Z) (write : bool) : Z + Z :=
  let endpos := i32 (offset + len) in
  if (offset <? 0) || (SFS_MAX_FILE_SIZE <=? offset) || (endpos <? offset) then inl (- E_INVAL)
  else if offset =? endpos then inl 0
  else
    let endpos := if SFS_MAX_FILE_SIZE <? endpos then SFS_MAX_FILE_SIZE else endpos in
    if write then inr endpos
    else if size d <=? offset then inl 0
    else inr (if size d <? endpos then size d else endpos).

(** After the transfer of [alen] bytes. *)
Definition io_out (offset alen : Z) (x : sfs_inode) : sfs_inode :=
  if size (din x) <? offset + alen then set_dirty true (set_din (set_size (offset + alen)) x) else x.

(** One piece of a block: the bytes read, or the bytes written. *)
Definition io_piece (write : bool) (data : list Z) (size blkno blkoff : Z) (x : sfs_inode) (s : sfs)
    : res (Z * list Z * sfs_inode * sfs) :=
  '(r, b, x, s) ← sfs_bmap_load_nolock x blkno s;
  if negb (r =? 0) then Ok (r, [], x, s)
  else if write then '(r, s) ← sfs_wbuf (take (Z.to_nat size) data) b blkoff s; Ok (r, [], x, s)
  else '(r, l, s) ← sfs_rbuf size b blkoff s; Ok (r, l, x, s).

(** A whole block. *)
Definition io_block (write : bool) (data : list Z) (blkno : Z) (x : sfs_inode) (s : sfs)
    : res (Z * list Z * sfs_inode * sfs) :=
  '(r, b, x, s) ← sfs_bmap_load_nolock x blkno s;
  if negb (r =? 0) then Ok (r, [], x, s)
  else if write then
    '(r, s) ← sfs_wblock [patch 0 (take (Z.to_nat SFS_BLKSIZE) data) ∅] b s; Ok (r, [], x, s)
  else
    '(r, bs, s) ← sfs_rblock 1 b s; Ok (r, match bs with c :: _ => slice c 0 SFS_BLKSIZE | [] => [] end, x, s).

(** The whole blocks, then the rest of [last] bytes. *)
Fixpoint io_blocks (write : bool) (nblks : nat) (data : list Z) (blkno last : Z) (x : sfs_inode) (s : sfs)
    : res (Z * Z * list Z * sfs_inode * sfs) :=
  match nblks with
  | O =>
      if negb (last =? 0) then
        '(r, l, x, s) ← io_piece write data last blkno 0 x s;
        if negb (r =? 0) then Ok (r, 0, [], x, s) else Ok (0, last, l, x, s)
      else Ok (0, 0, [], x, s)
  | S n =>
      '(r, l, x, s) ← io_block write data blkno x s;
      if negb (r =? 0) then Ok (r, 0, [], x, s)
      else
        '(r, alen, l', x, s) ← io_blocks write n (drop (Z.to_nat SFS_BLKSIZE) data) (blkno + 1) last x s;
        Ok (r, SFS_BLKSIZE + alen, l ++ l', x, s)
  end.

(** The result, the number of bytes, the bytes read. *)
Definition sfs_io_nolock (write : bool) (data : list Z) (offset len : Z) (x : sfs_inode) (s : sfs)
    : res (Z * Z * list Z * sfs_inode * sfs) :=
  _ ← kassert (negb (type (din x) =? SFS_TYPE_DIR));
  match io_end (din x) offset len write with
  | inl r => Ok (r, 0, [], x, s)
  | inr endpos =>
      let blkno := offset / SFS_BLKSIZE in
      let nblks := endpos / SFS_BLKSIZE - blkno in
      let blkoff := offset mod SFS_BLKSIZE in
      let out '(r, alen, l, x, s) := Ok (r, alen, l, io_out offset alen x, s) in
      if negb (blkoff =? 0) then
        let size := if negb (nblks =? 0) then SFS_BLKSIZE - blkoff else endpos - offset in
        '(r, l, x, s) ← io_piece write data size blkno blkoff x s;
        if negb (r =? 0) then out (r, 0, [], x, s)
        else if nblks =? 0 then out (0, size, l, x, s)
        else
          '(r, alen, l', x, s) ← io_blocks write (Z.to_nat (nblks - 1)) (drop (Z.to_nat size) data) (blkno + 1) (endpos mod SFS_BLKSIZE) x s;
          out (r, size + alen, l ++ l', x, s)
      else
        q ← io_blocks write (Z.to_nat nblks) data blkno (endpos mod SFS_BLKSIZE) x s; out q
  end.

(** ** Size *)
Fixpoint grow (n : nat) (nblks : Z) (x : sfs_inode) (s : sfs) : res (Z * sfs_inode * sfs) :=
  match n with
  | O => Ok (0, x, s)
  | S n =>
      '(r, _, x, s) ← sfs_bmap_load_nolock x nblks s;
      if negb (r =? 0) then Ok (r, x, s) else grow n (nblks + 1) x s
  end.
Fixpoint shrink (n : nat) (x : sfs_inode) (s : sfs) : res (Z * sfs_inode * sfs) :=
  match n with
  | O => Ok (0, x, s)
  | S n =>
      '(r, x, s) ← sfs_bmap_truncate_nolock x s;
      if negb (r =? 0) then Ok (r, x, s) else shrink n x s
  end.

Definition sfs_truncfile (len : Z) (x : sfs_inode) (s : sfs) : res (Z * sfs_inode * sfs) :=
  if (len <? 0) || (SFS_MAX_FILE_SIZE <? len) then Ok (- E_INVAL, x, s)
  else
    let tblks := (len + SFS_BLKSIZE - 1) / SFS_BLKSIZE in
    if size (din x) =? len then _ ← kassert (tblks =? dblocks (din x)); Ok (0, x, s)
    else
      let nblks := dblocks (din x) in
      '(r, x, s) ← (if nblks <? tblks then grow (Z.to_nat (tblks - nblks)) nblks x s
                    else shrink (Z.to_nat (nblks - tblks)) x s);
      if negb (r =? 0) then Ok (r, x, s)
      else
        _ ← kassert (dblocks (din x) =? tblks);
        Ok (0, set_dirty true (set_din (set_size len) x), s).

Definition sfs_tryseek (pos : Z) (x : sfs_inode) (s : sfs) : res (Z * sfs_inode * sfs) :=
  if (pos <? 0) || (SFS_MAX_FILE_SIZE <=? pos) then Ok (- E_INVAL, x, s)
  else if size (din x) <? pos then sfs_truncfile pos x s else Ok (0, x, s).

(** The memory of the buffer is read by a write and written by a read. *)
Definition sfs_io (write : bool) (iob : iobuf) (x : sfs_inode) (s : sfs) : res (Z * iobuf * sfs_inode * sfs) :=
  '(r, alen, l, x, s) ← sfs_io_nolock write (if write then peek (io_resid iob) iob else []) (io_offset iob) (io_resid iob) x s;
  let iob := if write then iob else poke l iob in
  iob ← (if negb (alen =? 0) then iobuf_skip alen iob else Ok iob);
  Ok (r, iob, x, s).
Definition sfs_read := sfs_io false.
Definition sfs_write := sfs_io true.

Definition S_IFREG : Z := 4096.
Definition S_IFDIR : Z := 8192.

Definition sfs_gettype (x : sfs_inode) : res Z :=
  if type (din x) =? SFS_TYPE_DIR then Ok S_IFDIR
  else if type (din x) =? SFS_TYPE_FILE then Ok S_IFREG
  else Panic.

(** The fields of [struct stat]. *)
Definition sfs_fstat (x : sfs_inode) : res (Z * Z * Z * Z) :=
  st_mode ← sfs_gettype x; Ok (st_mode, nlinks (din x), dblocks (din x), size (din x)).

Definition din_bytes (d : sfs_disk_inode) : list Z :=
  to_le32 (size d) ++ [type d mod 256; type d / 256 mod 256; nlinks d mod 256; nlinks d / 256 mod 256] ++
  to_le32 (dblocks d) ++ mjoin (to_le32 <$> direct d) ++ to_le32 (indirect d).

Definition sfs_fsync (x : sfs_inode) (s : sfs) : res (Z * sfs_inode * sfs) :=
  if dirty x then
    '(r, s) ← sfs_wbuf (din_bytes (din x)) (ino x) 0 s;
    Ok (if r =? 0 then (0, set_dirty false x, s) else (r, set_dirty true x, s))
  else Ok (0, x, s).

(** ** Well-formed files *)
#[local] Arguments SFS_BLKSIZE : simpl never.
#[local] Arguments SFS_NDIRECT : simpl never.
#[local] Arguments SFS_BLK_NENTRY : simpl never.

(** The entry of index [i]. *)
Definition fblk (s : sfs) (d : sfs_disk_inode) (i : Z) : Z :=
  if i <? 12 then direct_at d i
  else if indirect d =? 0 then 0 else le32 (slice (block s (indirect d)) ((i - 12) * 4) 4).

Definition own (x : sfs_inode) (bl : list Z) : list Z :=
  ino x :: (if indirect (din x) =? 0 then [] else [indirect (din x)]) ++ bl.

(** [bl]: the data blocks in order.  Entries beyond them are 0; the inode's
    block, the indirect block and the data blocks are distinct blocks in use. *)
Record map_ok (s : sfs) (x : sfs_inode) (bl : list Z) : Prop := {
  fk_len : Z.of_nat (length bl) = dblocks (din x);
  fk_max : Z.of_nat (length bl) <= 1036;
  fk_map : forall i, 0 <= i < 1036 -> fblk s (din x) i = default 0 (bl !! Z.to_nat i);
  fk_dir : length (direct (din x)) = 12%nat;
  fk_ind : 12 < Z.of_nat (length bl) -> indirect (din x) <> 0;
  fk_used : forall b, b ∈ own x bl -> used s b;
  fk_area : forall b, b ∈ own x bl -> b <> ino x -> first_data s <= b;
  fk_nodup : NoDup (own x bl)
}.
Definition file_ok (s : sfs) (x : sfs_inode) (bl : list Z) : Prop :=
  map_ok s x bl /\ 0 <= size (din x) <= 4096 * Z.of_nat (length bl) /\ type (din x) <> SFS_TYPE_DIR.

(** The byte at position [p]; 0 beyond the blocks. *)
Definition fbyte (s : sfs) (bl : list Z) (p : Z) : Z :=
  match bl !! Z.to_nat (p / 4096) with Some b => byte (block s b) (p mod 4096) | None => 0 end.

(** What an operation on the file may change: no block is lost, new blocks
    were free, and the blocks in use that are not the file's keep their
    contents. *)
Record changes (s : sfs) (x : sfs_inode) (bl : list Z) (s' : sfs) (x' : sfs_inode) (bl' : list Z) : Prop := {
  ex_fs : fs_ok s';
  ex_map : map_ok s' x' bl';
  ex_blocks : blocks s' = blocks s;
  ex_ino : ino x' = ino x;
  ex_size : size (din x') = size (din x);
  ex_type : type (din x') = type (din x);
  ex_links : nlinks (din x') = nlinks (din x);
  ex_acct : nfree s' + Z.of_nat (length (own x' bl')) = nfree s + Z.of_nat (length (own x bl));
  ex_frame : forall c, used s c -> c ∉ own x bl -> used s' c /\ c ∉ own x' bl' /\ block s' c = block s c
}.

Lemma own_length x bl : Z.of_nat (length (own x bl)) = Z.of_nat (length bl) + if indirect (din x) =? 0 then 1 else 2.
Proof. unfold own. zcase; simpl; lia. Qed.

Lemma own_elem x bl b : b ∈ own x bl <-> b = ino x \/ (indirect (din x) <> 0 /\ b = indirect (din x)) \/ b ∈ bl.
Proof.
  unfold own. rewrite elem_of_cons, elem_of_app. zcase.
  - split; [intros [?|[?%elem_of_nil|?]]; tauto|intros [?|[[? ?]|?]]; tauto].
  - rewrite list_elem_of_singleton. tauto.
Qed.

Lemma data_not_indirect s x bl b : map_ok s x bl -> b ∈ bl -> indirect (din x) <> 0 -> b <> indirect (din x).
Proof.
  intros H Hb E ->. pose proof (fk_nodup _ _ _ H) as Hn. unfold own in Hn. rewrite (proj2 (Z.eqb_neq _ 0)) in Hn by done.
  apply NoDup_cons in Hn as [_ Hn]. simpl in Hn. apply NoDup_cons in Hn as [Hn _]. done.
Qed.

Lemma data_used s x bl b : map_ok s x bl -> b ∈ bl -> used s b.
Proof. intros H Hb. apply (fk_used _ _ _ H), own_elem. tauto. Qed.

Lemma data_area s x bl b : map_ok s x bl -> b ∈ bl -> first_data s <= b.
Proof.
  intros H Hb. apply (fk_area _ _ _ H); [apply own_elem; tauto|]. intros ->. pose proof (fk_nodup _ _ _ H) as Hn. unfold own in Hn.
  apply NoDup_cons in Hn as [Hn _]. apply Hn, elem_of_app. by right.
Qed.

Lemma data_nodup s x bl : map_ok s x bl -> NoDup bl.
Proof. intros H. pose proof (fk_nodup _ _ _ H) as Hn. unfold own in Hn. apply NoDup_cons in Hn as [_ Hn]. by apply NoDup_app in Hn as (_ & _ & ?). Qed.

Lemma used_ne0 s b : fs_ok s -> used s b -> b <> 0.
Proof. intros H Hu. pose proof (used_pos _ _ H Hu). lia. Qed.

Lemma indirect_used s x bl : map_ok s x bl -> indirect (din x) <> 0 -> used s (indirect (din x)).
Proof. intros Hf Hne. apply (fk_used _ _ _ Hf), own_elem. tauto. Qed.

Lemma changes_refl s x bl : fs_ok s -> map_ok s x bl -> changes s x bl s x bl.
Proof. by constructor. Qed.

Lemma changes_trans s x bl s1 x1 bl1 s2 x2 bl2 :
  changes s x bl s1 x1 bl1 -> changes s1 x1 bl1 s2 x2 bl2 -> changes s x bl s2 x2 bl2.
Proof.
  intros [] []. constructor; try done; try congruence.
  - intros c Hc Hn. destruct (ex_frame0 c Hc Hn) as (? & ? & <-). by apply ex_frame1.
Qed.

(** Runs the binds whose left part is a result. *)
Ltac rok := repeat (progress (rewrite ?res_bind_ok, ?Z.eqb_refl; cbv beta iota delta [negb orb andb])).

(** ** Loading an entry *)
Lemma bmap_out_ok s b x : fs_ok s -> used s b -> bmap_out b x s = Ok (0, b, x, s).
Proof. intros H Hu. unfold bmap_out. rewrite (proj2 (Z.eqb_neq b 0)) by (by eapply used_ne0). by rewrite assert_inuse_ok. Qed.

(** An entry that is there. *)
Lemma bmap_get_old s x bl i b :
  fs_ok s -> map_ok s x bl -> 0 <= i -> bl !! Z.to_nat i = Some b ->
  sfs_bmap_get_nolock x i false s = Ok (0, b, x, s).
Proof.
  intros H Hf Hi Hb. pose proof (lookup_lt_Some _ _ _ Hb) as Hlt. pose proof (fk_len _ _ _ Hf) as Hlen. pose proof (fk_max _ _ _ Hf).
  assert (used s b) as Hu by (eapply data_used; [done|by eapply list_elem_of_lookup_2]).
  pose proof (used_ne0 _ _ H Hu) as Hb0.
  pose proof (fk_map _ _ _ Hf i ltac:(lia)) as Hm. rewrite Hb in Hm. simpl in Hm. unfold fblk in Hm. unfold sfs_bmap_get_nolock.
  change SFS_NDIRECT with 12. destruct (Z.ltb_spec i 12) as [Hd|Hd].
  - rewrite Hm, (proj2 (Z.eqb_neq b 0)) by done. cbn [andb]. by rewrite bmap_out_ok.
  - change SFS_BLK_NENTRY with 1024. rewrite (proj2 (Z.ltb_lt (i - 12) 1024)) by lia. unfold sfs_bmap_get_sub_nolock.
    change SFS_BLK_NENTRY with 1024. rewrite (kassert_true (i - 12 <? 1024)) by (apply Z.ltb_lt; lia). rok.
    destruct (Z.eqb_spec (indirect (din x)) 0) as [E|E]; [lia|]. cbn [negb].
    pose proof (used_pos _ _ H (indirect_used _ _ _ Hf E)).
    rewrite rbuf_ok by (apply H || (change SFS_BLKSIZE with 4096; lia)). rok.
    rewrite Hm, (proj2 (Z.eqb_neq b 0)) by done. rok. by rewrite bmap_out_ok.
Qed.

Lemma bmap_load_old s x bl i b :
  fs_ok s -> map_ok s x bl -> 0 <= i -> bl !! Z.to_nat i = Some b ->
  sfs_bmap_load_nolock x i s = Ok (0, b, x, s).
Proof.
  intros H Hf Hi Hb. pose proof (lookup_lt_Some _ _ _ Hb) as Hlt. pose proof (fk_len _ _ _ Hf) as Hlen.
  unfold sfs_bmap_load_nolock. rewrite kassert_true by (apply Z.leb_le; lia). rok.
  rewrite (proj2 (Z.eqb_neq i (dblocks (din x)))) by lia. rewrite (bmap_get_old s x bl i b) by done. rok.
  rewrite assert_inuse_ok; [done|done|]. eapply data_used; [done|by eapply list_elem_of_lookup_2].
Qed.

Lemma entry_patch c k j b :
  0 <= b < 2 ^ 32 -> 0 <= k -> 0 <= j ->
  le32 (slice (patch (k * 4) (to_le32 b) c) (j * 4) 4) = if j =? k then b else le32 (slice c (j * 4) 4).
Proof.
  intros Hb Hk Hj. zcase.
  - subst j. change 4 with (Z.of_nat (length (to_le32 b))) at 2. rewrite slice_patch. by apply le32_to_le32.
  - f_equal. apply slice_ext. intros i Hi. rewrite patch_byte, decide_False; [done|]. simpl. lia.
Qed.

(** Blocks [new] were allocated and nothing of another file was written. *)
Lemma changes_intro s x bl s' x' bl' new :
  fs_ok s -> map_ok s x bl -> fs_ok s' -> blocks s' = blocks s ->
  ino x' = ino x -> own x' bl' ≡ₚ new ++ own x bl -> NoDup new ->
  (forall c, c ∈ new -> free_bit (freemap s) c = true /\ used s' c) ->
  (forall c, 0 <= c -> c ∉ new -> free_bit (freemap s') c = free_bit (freemap s) c) ->
  nfree s = nfree s' + Z.of_nat (length new) ->
  (forall c, used s c -> c ∉ own x bl -> block s' c = block s c) ->
  (forall b, b ∈ own x' bl' -> used s' b) /\ NoDup (own x' bl') /\
  nfree s' + Z.of_nat (length (own x' bl')) = nfree s + Z.of_nat (length (own x bl)) /\
  (forall c, used s c -> c ∉ own x bl -> used s' c /\ c ∉ own x' bl' /\ block s' c = block s c) /\
  (forall b, b ∈ own x' bl' -> b <> ino x' -> first_data s' <= b).
Proof.
  intros H Hf H' Hbk Hino Hown Hnd Hnew Hold Hn Hfr.
  assert (Hfd : first_data s' = first_data s) by (by apply first_data_blocks).
  assert (Huse : forall c, used s c -> c ∉ new /\ used s' c).
  { intros c Hc. pose proof (used_pos _ _ H Hc). destruct Hc as [Hc1 Hc2].
    assert (c ∉ new) as Hcn by (intros Hcn; apply Hnew in Hcn as [Hcn _]; congruence).
    split; [done|]. split; [rewrite Hfd, Hbk; lia|]. rewrite Hold by (done || lia). done. }
  split_and!.
  - intros b Hb. rewrite Hown in Hb. apply elem_of_app in Hb as [Hb|Hb]; [by apply Hnew|]. apply Huse. by apply Hf.
  - rewrite Hown. apply NoDup_app. split_and!; [done| |apply Hf].
    intros b Hb Ho. apply (fk_used _ _ _ Hf) in Ho. by apply Huse in Ho as [? _].
  - rewrite Hown, length_app. lia.
  - intros c Hc Hno. destruct (Huse c Hc) as [Hcn Hc']. split; [done|]. split; [|by apply Hfr].
    rewrite Hown. rewrite elem_of_app. tauto.
  - intros b Hb Hne. rewrite Hown in Hb. rewrite Hfd. apply elem_of_app in Hb as [Hb|Hb]; [|rewrite Hino in Hne; by apply (fk_area _ _ _ Hf)].
    apply Hnew in Hb as [Hfb Hu]. pose proof (used_pos _ _ H' Hu). apply (fo_free _ H); [lia|done].
Qed.

Lemma lookup_snoc_ne (l : list Z) (b : Z) i : i <> length l -> (l ++ [b]) !! i = l !! i.
Proof.
  intros Hi. destruct (decide (i < length l)%nat); [by rewrite lookup_app_l|].
  rewrite lookup_app_r, !lookup_ge_None_2; [done|lia|simpl; lia|lia].
Qed.

Lemma fbyte_snoc s bl s' b p :
  (forall c, c ∈ bl -> block s' c = block s c) -> block s' b = ∅ -> 0 <= p ->
  fbyte s' (bl ++ [b]) p = fbyte s bl p.
Proof.
  intros Hs Hb Hp. unfold fbyte. destruct (bl !! Z.to_nat (p / 4096)) as [c|] eqn:E.
  - rewrite (lookup_app_l_Some _ _ _ _ E). by rewrite Hs by (by eapply list_elem_of_lookup_2).
  - rewrite lookup_app_r by (by apply lookup_ge_None). destruct (Z.to_nat (p / 4096) - length bl)%nat eqn:E2; simpl; [|done].
    rewrite Hb. unfold byte. by rewrite lookup_empty.
Qed.

(** The inode after an entry for index [length bl] has been set up. *)
Definition bmap_new (s : sfs) (x : sfs_inode) (bl : list Z) (r : res (Z * Z * sfs_inode * sfs)) : Prop :=
  exists b x' s', r = Ok (0, b, x', s') /\ changes s x bl s' x' (bl ++ [b]) /\
    forall p, 0 <= p -> fbyte s' (bl ++ [b]) p = fbyte s bl p.

Lemma bmap_load_direct s x bl :
  fs_ok s -> map_ok s x bl -> Z.of_nat (length bl) < 12 -> 1 <= nfree s ->
  bmap_new s x bl (sfs_bmap_load_nolock x (Z.of_nat (length bl)) s).
Proof.
  intros H Hf Hi Hn. pose proof (fk_len _ _ _ Hf) as Hlen.
  pose proof (fk_map _ _ _ Hf (Z.of_nat (length bl)) ltac:(lia)) as Hm. rewrite Nat2Z.id, lookup_ge_None_2 in Hm by lia. simpl in Hm.
  unfold fblk in Hm. rewrite (proj2 (Z.ltb_lt _ 12)) in Hm by lia.
  unfold sfs_bmap_load_nolock. rewrite kassert_true by (apply Z.leb_le; lia). rok.
  rewrite (proj2 (Z.eqb_eq _ (dblocks (din x)))) by lia. unfold sfs_bmap_get_nolock.
  change SFS_NDIRECT with 12. rewrite (proj2 (Z.ltb_lt _ 12)) by lia. rewrite Hm. rok.
  destruct (sfs_block_alloc_ok s H) as [[? _]|(b & s' & -> & H' & Hbk & Hb & Hfb & Hu & Hnf & Hbits & Hz & Hsame)]; [lia|]. rok.
  rewrite bmap_out_ok by done. rok. rewrite assert_inuse_ok by done. rok.
  set (x' := set_din _ _). eexists b, x', s'. split; [done|].
  assert (Hsb : forall c, used s c -> block s' c = block s c).
  { intros c Hc. apply Hsame; [apply Hc|]. rewrite list_elem_of_singleton. intros ->. destruct Hc. congruence. }
  split.
  2: { intros p Hp. apply fbyte_snoc; [|done|done]. intros c Hc. apply Hsb. by eapply data_used. }
  destruct (changes_intro s x bl s' x' (bl ++ [b]) [b] H Hf H' Hbk) as (E1 & E2 & E3 & E4 & E5).
  - done.
  - unfold own. simpl. zcase; simpl; solve_Permutation.
  - apply NoDup_singleton.
  - intros c ->%list_elem_of_singleton. done.
  - intros c Hc Hcn. rewrite Hbits by done. rewrite decide_False; [done|]. intros ->. apply Hcn. by left.
  - simpl. lia.
  - intros c Hc _. by apply Hsb.
  - constructor; try done.
    constructor; try done; simpl; rewrite ?length_app, ?length_insert; simpl; try (apply Hf || lia).
    intros i Hi2. unfold fblk. simpl. unfold direct_at. simpl. rewrite Hlen.
    pose proof (fk_map _ _ _ Hf i Hi2) as Hmi. unfold fblk in Hmi. destruct (Z.ltb_spec i 12).
    + destruct (decide (i = dblocks (din x))) as [->|Hne].
      * rewrite list_lookup_insert_eq by (rewrite (fk_dir _ _ _ Hf); lia). rewrite lookup_app_r by lia.
        replace (Z.to_nat (dblocks (din x)) - length bl)%nat with 0%nat by lia. done.
      * rewrite list_lookup_insert_ne by lia. unfold direct_at in Hmi. rewrite Hmi. by rewrite lookup_snoc_ne by lia.
    + rewrite lookup_snoc_ne by lia. rewrite <- Hmi. destruct (Z.eqb_spec (indirect (din x)) 0); [done|].
      by rewrite Hsb by (by eapply indirect_used).
Qed.

(** A block for an entry of the indirect block [ent]. *)
Lemma bmap_fill_ok s entp ent k :
  fs_ok s -> used s ent -> 0 <= k < 1024 -> 1 <= nfree s ->
  exists b s', bmap_fill entp ent (k * 4) s = Ok (0, ent, b, s') /\ fs_ok s' /\ blocks s' = blocks s /\
    free_bit (freemap s) b = true /\ used s' b /\ nfree s = nfree s' + 1 /\
    (forall i, 0 <= i -> free_bit (freemap s') i = if decide (i = b) then false else free_bit (freemap s) i) /\
    block s' b = ∅ /\ (forall c, used s c -> c <> ent -> block s' c = block s c) /\
    (forall j, 0 <= j -> le32 (slice (block s' ent) (j * 4) 4) = if j =? k then b else le32 (slice (block s ent) (j * 4) 4)).
Proof.
  intros H He Hk Hn. unfold bmap_fill.
  destruct (sfs_block_alloc_ok s H) as [[? _]|(b & s' & -> & H' & Hbk & Hb & Hfb & Hu & Hnf & Hbits & Hz & Hsame)]; [lia|]. rok.
  pose proof (used_pos _ _ H He) as Hep. pose proof (used_pos _ _ H' Hu) as Hbp. pose proof (fo_bits _ H') as Hb32.
  assert (ent <> b) by (intros ->; destruct He; congruence).
  rewrite wbuf_ok by (apply H' || (change SFS_BLKSIZE with 4096; simpl; lia)). rok.
  eexists b, _. split; [done|]. split; [by apply fs_ok_set_block|]. do 3 (split; [done|]). split; [done|]. split; [done|].
  assert (Hsb : forall c, used s c -> block s' c = block s c).
  { intros c Hc. apply Hsame; [apply Hc|]. rewrite list_elem_of_singleton. intros ->. destruct Hc. congruence. }
  split; [|split].
  - rewrite block_set. zcase; [congruence|done].
  - intros c Hc Hne. rewrite block_set. zcase; [done|]. by apply Hsb.
  - intros j Hj. rewrite block_set, Z.eqb_refl, Hsb by done. apply entry_patch; lia.
Qed.

Lemma fblk_dir s d i : i < 12 -> fblk s d i = direct_at d i.
Proof. intros Hi. unfold fblk. by rewrite (proj2 (Z.ltb_lt _ _)). Qed.
Lemma fblk_ind s d i : 12 <= i -> indirect d <> 0 -> fblk s d i = le32 (slice (block s (indirect d)) ((i - 12) * 4) 4).
Proof. intros Hi Hd. unfold fblk. rewrite (proj2 (Z.ltb_ge _ _)) by done. by rewrite (proj2 (Z.eqb_neq _ _)). Qed.

Lemma bmap_load_indirect s x bl :
  fs_ok s -> map_ok s x bl -> 12 <= Z.of_nat (length bl) < 1036 -> indirect (din x) <> 0 -> 1 <= nfree s ->
  bmap_new s x bl (sfs_bmap_load_nolock x (Z.of_nat (length bl)) s).
Proof.
  intros H Hf Hi Hind Hn. pose proof (fk_len _ _ _ Hf) as Hlen. pose proof (indirect_used _ _ _ Hf Hind) as Hiu.
  pose proof (used_pos _ _ H Hiu) as Hip.
  pose proof (fk_map _ _ _ Hf (Z.of_nat (length bl)) ltac:(lia)) as Hm. rewrite Nat2Z.id, lookup_ge_None_2 in Hm by lia. simpl in Hm.
  rewrite fblk_ind in Hm by (done || lia).
  unfold sfs_bmap_load_nolock. rewrite kassert_true by (apply Z.leb_le; lia). rok.
  rewrite (proj2 (Z.eqb_eq _ (dblocks (din x)))) by lia. unfold sfs_bmap_get_nolock.
  change SFS_NDIRECT with 12. change SFS_BLK_NENTRY with 1024. rewrite (proj2 (Z.ltb_ge _ 12)), (proj2 (Z.ltb_lt _ 1024)) by lia.
  unfold sfs_bmap_get_sub_nolock. change SFS_BLK_NENTRY with 1024. rewrite (kassert_true (Z.of_nat (length bl) - 12 <? 1024)) by (apply Z.ltb_lt; lia). rok.
  rewrite (proj2 (Z.eqb_neq (indirect (din x)) 0)) by done. cbn [negb].
  rewrite rbuf_ok by (apply H || (change SFS_BLKSIZE with 4096; lia)). rok. rewrite Hm. rok.
  destruct (bmap_fill_ok s (indirect (din x)) (indirect (din x)) (Z.of_nat (length bl) - 12) H Hiu)
    as (b & s' & -> & H' & Hbk & Hfb & Hu & Hnf & Hbits & Hz & Hsb & Hent); [lia|done|]. rok.
  rewrite bmap_out_ok by done. rok. rewrite assert_inuse_ok by done. rok.
  set (x' := set_din _ _). eexists b, x', s'. split; [done|]. split.
  2: { intros p Hp. apply fbyte_snoc; [|done|done]. intros c Hc. apply Hsb; [by eapply data_used|by eapply data_not_indirect]. }
  destruct (changes_intro s x bl s' x' (bl ++ [b]) [b] H Hf H' Hbk) as (E1 & E2 & E3 & E4 & E5).
  - done.
  - unfold own. simpl. zcase; simpl; solve_Permutation.
  - apply NoDup_singleton.
  - intros c ->%list_elem_of_singleton. done.
  - intros c Hc Hcn. rewrite Hbits by done. rewrite decide_False; [done|]. intros ->. apply Hcn. by left.
  - simpl. lia.
  - intros c Hc Hno. apply Hsb; [done|]. intros ->. apply Hno, own_elem. tauto.
  - constructor; try done.
    constructor; try done; simpl; rewrite ?length_app; simpl; try (apply Hf || lia).
    intros i Hi2. pose proof (fk_map _ _ _ Hf i Hi2) as Hmi. destruct (Z.ltb_spec i 12).
    + rewrite fblk_dir in Hmi |- * by done. rewrite lookup_snoc_ne by lia. done.
    + rewrite fblk_ind in Hmi |- * by done. change (indirect (din x')) with (indirect (din x)). rewrite Hent by lia. zcase.
      * rewrite lookup_app_r by lia. replace (Z.to_nat i - length bl)%nat with 0%nat by lia. done.
      * rewrite lookup_snoc_ne by lia. done.
Qed.

(** The thirteenth block: the indirect block is allocated with it. *)
Lemma bmap_load_first_indirect s x bl :
  fs_ok s -> map_ok s x bl -> 12 <= Z.of_nat (length bl) < 1036 -> indirect (din x) = 0 -> 2 <= nfree s ->
  bmap_new s x bl (sfs_bmap_load_nolock x (Z.of_nat (length bl)) s).
Proof.
  intros H Hf Hi Hind Hn. pose proof (fk_len _ _ _ Hf) as Hlen. 
  assert (Z.of_nat (length bl) = 12) as H12 by (destruct (decide (12 < Z.of_nat (length bl))) as [Hlt|]; [by apply (fk_ind _ _ _ Hf) in Hlt|lia]).
  unfold sfs_bmap_load_nolock. rewrite kassert_true by (apply Z.leb_le; lia). rok.
  rewrite (proj2 (Z.eqb_eq _ (dblocks (din x)))) by lia. unfold sfs_bmap_get_nolock.
  change SFS_NDIRECT with 12. change SFS_BLK_NENTRY with 1024. rewrite (proj2 (Z.ltb_ge _ 12)), (proj2 (Z.ltb_lt _ 1024)) by lia.
  unfold sfs_bmap_get_sub_nolock. change SFS_BLK_NENTRY with 1024. rewrite (kassert_true (Z.of_nat (length bl) - 12 <? 1024)) by (apply Z.ltb_lt; lia). rok.
  rewrite Hind. rok.
  destruct (sfs_block_alloc_ok s H) as [[? _]|(ent & s1 & -> & H1 & Hbk1 & He & Hfe & Hue & Hnf1 & Hbits1 & Hz1 & Hsame1)]; [lia|]. rok.
  destruct (bmap_fill_ok s1 0 ent (Z.of_nat (length bl) - 12) H1 Hue)
    as (b & s' & -> & H' & Hbk & Hfb & Hu & Hnf & Hbits & Hz & Hsb & Hent); [lia|lia|]. rok.
  pose proof (used_ne0 _ _ H1 Hue) as He0. rewrite (proj2 (Z.eqb_neq ent 0)) by done. cbn [negb]. rok.
  rewrite (kassert_true true) by done. rok. rewrite bmap_out_ok by done. rok. rewrite assert_inuse_ok by done. rok.
  assert (Hbe : b <> ent) by (intros ->; rewrite Hbits1, decide_True in Hfb by (done || pose proof (used_pos _ _ H1 Hue); lia); done).
  assert (Hb0 : 0 <= b) by (pose proof (used_pos _ _ H' Hu); lia).
  assert (Hsb' : forall c, used s c -> block s' c = block s c).
  { intros c Hc. pose proof (used_pos _ _ H Hc).
    assert (c <> ent) as Hce by (intros ->; destruct Hc; congruence).
    rewrite Hsb; [|split; [|rewrite Hbits1, decide_False by (done || lia); apply Hc]|done].
    - apply Hsame1; [apply Hc|]. by rewrite list_elem_of_singleton.
    - rewrite (first_data_blocks _ _ Hbk1), Hbk1. apply Hc. }
  set (x' := set_din _ (set_dirty _ _)). eexists b, x', s'. split; [done|]. split.
  2: { intros p Hp. apply fbyte_snoc; [|done|done]. intros c Hc. apply Hsb'. by eapply data_used. }
  destruct (changes_intro s x bl s' x' (bl ++ [b]) [ent; b] H Hf H') as (E1 & E2 & E3 & E4 & E5).
  - by rewrite Hbk.
  - done.
  - unfold own. simpl. rewrite Hind, (proj2 (Z.eqb_neq ent 0)) by done. simpl. solve_Permutation.
  - apply NoDup_cons. split; [by rewrite list_elem_of_singleton|apply NoDup_singleton].
  - intros c Hc. apply elem_of_cons in Hc as [->|Hc]; [|apply list_elem_of_singleton in Hc as ->].
    + split; [done|]. pose proof (used_pos _ _ H1 Hue). split; [rewrite (first_data_blocks _ _ Hbk), Hbk; apply Hue|].
      rewrite Hbits, decide_False by (done || lia). apply Hue.
    + split; [|done]. rewrite Hbits1, decide_False in Hfb by done. done.
  - intros c Hc Hcn. apply not_elem_of_cons in Hcn as [Hc1 Hc2]. apply not_elem_of_cons in Hc2. rewrite Hbits, decide_False by tauto. by rewrite Hbits1, decide_False.
  - simpl. lia.
  - intros c Hc _. by apply Hsb'.
  - constructor; try done; [|by rewrite Hbk].
    constructor; try done; simpl; rewrite ?length_app; simpl; try (apply Hf || lia).
    intros i Hi2. pose proof (fk_map _ _ _ Hf i Hi2) as Hmi. destruct (Z.ltb_spec i 12).
    + rewrite fblk_dir in Hmi |- * by done. rewrite lookup_snoc_ne by lia. done.
    + rewrite fblk_ind by done. change (indirect (din x')) with ent. rewrite Hent by lia. zcase.
      * rewrite lookup_app_r by lia. replace (Z.to_nat i - length bl)%nat with 0%nat by lia. done.
      * rewrite lookup_snoc_ne by lia. rewrite lookup_ge_None_2 by lia. rewrite Hz1. apply slice4_zero.
        intros. unfold byte. by rewrite lookup_empty.
Qed.

Lemma bmap_load_ok s x bl i :
  fs_ok s -> map_ok s x bl -> 0 <= i <= Z.of_nat (length bl) -> i < 1036 -> i + 3 <= nfree s + Z.of_nat (length (own x bl)) ->
  exists b x' s' bl', sfs_bmap_load_nolock x i s = Ok (0, b, x', s') /\ changes s x bl s' x' bl' /\ bl' !! Z.to_nat i = Some b /\
    Z.of_nat (length bl') = Z.max (Z.of_nat (length bl)) (i + 1) /\ forall p, 0 <= p -> fbyte s' bl' p = fbyte s bl p.
Proof.
  intros H Hf Hi Hm Hn. rewrite own_length in Hn. destruct (decide (i = Z.of_nat (length bl))) as [->|Hne].
  - assert (bmap_new s x bl (sfs_bmap_load_nolock x (Z.of_nat (length bl)) s)) as (b & x' & s' & -> & He & Hp).
    { destruct (decide (Z.of_nat (length bl) < 12)); [apply bmap_load_direct; (done || zcase_in Hn; lia)|].
      destruct (Z.eqb_spec (indirect (din x)) 0); [apply bmap_load_first_indirect|apply bmap_load_indirect]; (done || lia). }
    exists b, x', s', (bl ++ [b]). split_and!; try done.
    + by rewrite Nat2Z.id, list_lookup_middle.
    + rewrite length_app. simpl. lia.
  - destruct (lookup_lt_is_Some_2 bl (Z.to_nat i)) as [b Hb]; [lia|].
    exists b, x, s, bl. split_and!; try done; [by apply bmap_load_old with bl; (done || lia)|lia].
Qed.

(** ** Writing *)
Definition wrote (s : sfs) (bl : list Z) (s' : sfs) (bl' : list Z) (off : Z) (data : list Z) : Prop :=
  forall p, 0 <= p -> fbyte s' bl' p =
    if decide (off <= p < off + Z.of_nat (length data)) then default 0 (data !! Z.to_nat (p - off)) else fbyte s bl p.

Lemma wrote_nil s bl s' bl' off : wrote s bl s' bl' off [] <-> forall p, 0 <= p -> fbyte s' bl' p = fbyte s bl p.
Proof.
  unfold wrote. simpl. split; intros H p Hp; specialize (H p Hp); [rewrite decide_False in H by lia|rewrite decide_False by lia]; done.
Qed.

Lemma wrote_app s bl s1 bl1 s2 bl2 off d1 d2 :
  wrote s bl s1 bl1 off d1 -> wrote s1 bl1 s2 bl2 (off + Z.of_nat (length d1)) d2 -> wrote s bl s2 bl2 off (d1 ++ d2).
Proof.
  intros H1 H2 p Hp. rewrite (H2 p Hp), length_app. destruct (decide (_ <= p < off + Z.of_nat (length d1) + _)).
  - rewrite decide_True by lia. rewrite lookup_app_r by lia. do 2 f_equal. lia.
  - rewrite (H1 p Hp). destruct (decide (off <= p < off + Z.of_nat (length d1))).
    + rewrite decide_True by lia. by rewrite lookup_app_l by lia.
    + by rewrite decide_False by lia.
Qed.

Lemma changes_set s x bl b c : fs_ok s -> map_ok s x bl -> b ∈ bl -> changes s x bl (set_block b c s) x bl.
Proof.
  intros H Hf Hb. constructor; try done; [by apply fs_ok_set_block| |].
  - constructor; try apply Hf. intros i Hi. rewrite <- (fk_map _ _ _ Hf i Hi). unfold fblk. zcase; [done|]. zcase; [done|].
    rewrite block_set. zcase; [|done]. by eapply data_not_indirect in Hb.
  - intros a Ha Hno. split; [done|]. split; [done|]. rewrite block_set. zcase; [|done]. subst. exfalso. apply Hno, own_elem. tauto.
Qed.

Lemma fbyte_set s x bl i b c p :
  map_ok s x bl -> bl !! Z.to_nat i = Some b -> 0 <= i -> 0 <= p ->
  fbyte (set_block b c s) bl p = if p / 4096 =? i then byte c (p mod 4096) else fbyte s bl p.
Proof.
  intros Hf Hb Hi Hp. unfold fbyte. destruct (Z.eqb_spec (p / 4096) i) as [e|].
  - rewrite e, Hb. by rewrite block_set, Z.eqb_refl.
  - destruct (bl !! Z.to_nat (p / 4096)) as [a|] eqn:Ea; [|done]. rewrite block_set. zcase; [|done]. subst a.
    pose proof (NoDup_lookup bl _ _ _ (data_nodup _ _ _ Hf) Ea Hb). lia.
Qed.

(** Bytes [data] at [o] of block [i]. *)
Lemma wrote_patch s x bl i b o data c :
  map_ok s x bl -> bl !! Z.to_nat i = Some b -> 0 <= i -> 0 <= o -> o + Z.of_nat (length data) <= 4096 ->
  (forall k, 0 <= k < 4096 -> byte c k = byte (patch o data (block s b)) k) ->
  wrote s bl (set_block b c s) bl (4096 * i + o) data.
Proof.
  intros Hf Hb Hi Ho Hl Hc p Hp. rewrite (fbyte_set s x bl i) by done. destruct (Z.eqb_spec (p / 4096) i) as [e|].
  - rewrite Hc by lia. rewrite patch_byte. destruct (decide (o <= p mod 4096 < _)).
    + rewrite decide_True by lia. do 2 f_equal. lia.
    + rewrite decide_False by lia. unfold fbyte. by rewrite e, Hb.
  - rewrite decide_False; [done|]. intros Hr. assert (p / 4096 = i) by (symmetry; apply Z.div_unique with (p - 4096 * i); lia). done.
Qed.

Definition wrote_to (s : sfs) (x : sfs_inode) (bl : list Z) (off : Z) (data : list Z) (s' : sfs) (x' : sfs_inode) (bl' : list Z) : Prop :=
  changes s x bl s' x' bl' /\ wrote s bl s' bl' off data /\
  Z.of_nat (length bl') = Z.max (Z.of_nat (length bl)) ((off + Z.of_nat (length data) + 4095) / 4096).

Lemma wrote_to_trans s x bl s1 x1 bl1 s2 x2 bl2 off d1 d2 :
  0 <= off -> wrote_to s x bl off d1 s1 x1 bl1 -> wrote_to s1 x1 bl1 (off + Z.of_nat (length d1)) d2 s2 x2 bl2 ->
  wrote_to s x bl off (d1 ++ d2) s2 x2 bl2.
Proof.
  intros Ho (E1 & W1 & L1) (E2 & W2 & L2). split; [by eapply changes_trans|]. split; [by eapply wrote_app|].
  rewrite L2, L1, length_app.
  pose proof (Z.div_le_mono (off + Z.of_nat (length d1) + 4095) (off + Z.of_nat (length d1) + Z.of_nat (length d2) + 4095) 4096).
  rewrite Nat2Z.inj_add, Z.add_assoc. lia.
Qed.

(** Loading the entry of block [i] and overwriting part of the block. *)
Lemma load_then_patch s x bl i o data :
  fs_ok s -> map_ok s x bl -> 0 <= i <= Z.of_nat (length bl) -> i < 1036 -> i + 3 <= nfree s + Z.of_nat (length (own x bl)) ->
  0 <= o -> o + Z.of_nat (length data) <= 4096 -> data <> [] ->
  exists b x' s1 bl', sfs_bmap_load_nolock x i s = Ok (0, b, x', s1) /\ fs_ok s1 /\ used s1 b /\
    (forall c, (forall k, 0 <= k < 4096 -> byte c k = byte (patch o data (block s1 b)) k) ->
      wrote_to s x bl (4096 * i + o) data (set_block b c s1) x' bl').
Proof.
  intros H Hf Hi Hm Hn Ho Hl Hd. destruct (bmap_load_ok s x bl i) as (b & x' & s1 & bl' & Hload & He & Hb & Hlen & Hby); try done.
  pose proof (ex_map _ _ _ _ _ _ He) as Hf1. assert (b ∈ bl') as Hin by (by eapply list_elem_of_lookup_2).
  exists b, x', s1, bl'. split; [done|]. split; [apply He|]. split; [by eapply data_used|]. intros c Hc. split; [|split].
  - eapply changes_trans; [done|]. by apply changes_set; [apply He| |].
  - apply (wrote_app s bl s1 bl' _ _ _ [] data); [by apply wrote_nil|]. simpl. rewrite Z.add_0_r.
    apply wrote_patch with x'; (done || lia).
  - rewrite Hlen. f_equal. destruct data; [done|]. simpl length in *. 
    apply Z.div_unique with (o + Z.of_nat (S (length data)) - 1); lia.
Qed.

Lemma io_piece_write s x bl i o data :
  fs_ok s -> map_ok s x bl -> 0 <= i <= Z.of_nat (length bl) -> i < 1036 -> i + 3 <= nfree s + Z.of_nat (length (own x bl)) ->
  0 <= o -> o + Z.of_nat (length data) <= 4096 -> data <> [] -> forall rest,
  exists x' s' bl', io_piece true (data ++ rest) (Z.of_nat (length data)) i o x s = Ok (0, [], x', s') /\
    wrote_to s x bl (4096 * i + o) data s' x' bl'.
Proof.
  intros H Hf Hi Hm Hn Ho Hl Hd rest.
  destruct (load_then_patch s x bl i o data) as (b & x' & s1 & bl' & Hload & H1 & Hu & Hw); try done.
  unfold io_piece. rewrite Hload. rok. rewrite Nat2Z.id, take_app_length. pose proof (used_pos _ _ H1 Hu).
  assert (0 < length data)%nat by (destruct data; [done|simpl; lia]).
  rewrite wbuf_ok by (apply H1 || (change SFS_BLKSIZE with 4096; lia)). rok.
  eexists x', _, bl'. split; [done|]. by apply Hw.
Qed.

Lemma io_block_write s x bl i data :
  fs_ok s -> map_ok s x bl -> 0 <= i <= Z.of_nat (length bl) -> i < 1036 -> i + 3 <= nfree s + Z.of_nat (length (own x bl)) ->
  Z.of_nat (length data) = 4096 -> forall rest,
  exists x' s' bl', io_block true (data ++ rest) i x s = Ok (0, [], x', s') /\ wrote_to s x bl (4096 * i) data s' x' bl'.
Proof.
  intros H Hf Hi Hm Hn Hl rest.
  destruct (load_then_patch s x bl i 0 data) as (b & x' & s1 & bl' & Hload & H1 & Hu & Hw); try (done || lia); [by intros ->|].
  unfold io_block. rewrite Hload. rok. replace (Z.to_nat SFS_BLKSIZE) with (length data) by (unfold SFS_BLKSIZE; lia). rewrite take_app_length.
  pose proof (used_pos _ _ H1 Hu). cbn [sfs_wblock]. rewrite rw_write by (apply H1 || lia). rok.
  eexists x', _, bl'. split; [done|]. rewrite Z.add_0_r in Hw. apply Hw. intros k Hk. rewrite !patch_byte, !decide_True by lia. done.
Qed.

Lemma io_blocks_write n : forall s x bl i data last,
  fs_ok s -> map_ok s x bl -> 0 <= i <= Z.of_nat (length bl) -> 0 <= last < 4096 ->
  Z.of_nat (length data) = 4096 * Z.of_nat n + last ->
  i + (Z.of_nat (length data) + 4095) / 4096 <= 1036 ->
  i + (Z.of_nat (length data) + 4095) / 4096 + 2 <= nfree s + Z.of_nat (length (own x bl)) ->
  exists x' s' bl', io_blocks true n data i last x s = Ok (0, Z.of_nat (length data), [], x', s') /\
    wrote_to s x bl (4096 * i) data s' x' bl'.
Proof.
  induction n as [|n IH]; intros s x bl i data last H Hf Hi Hla Hlen Hmax Hn; cbn [io_blocks].
  - destruct (Z.eqb_spec last 0) as [->|Hne].
    + destruct data; [|simpl in *; lia]. exists x, s, bl. split; [done|]. split; [by apply changes_refl|].
      split; [by apply wrote_nil|]. simpl. lia.
    + destruct (io_piece_write s x bl i 0 data) with (rest := @nil Z) as (x' & s' & bl' & Hio & Hw); try (done || lia).
      { intros ->. simpl in *. lia. }
      rewrite app_nil_r in Hio. replace last with (Z.of_nat (length data)) by lia. rewrite Hio.
      rok. exists x', s', bl'. rewrite Z.add_0_r in Hw. done.
  - assert (exists d1 d2, data = d1 ++ d2 /\ Z.of_nat (length d1) = 4096) as (d1 & d2 & -> & Hd1).
    { exists (take 4096 data), (drop 4096 data). split; [by rewrite take_drop|]. rewrite length_take. lia. }
    rewrite length_app in *.
    destruct (io_block_write s x bl i d1) with (rest := d2) as (x1 & s1 & bl1 & -> & Hw); try (done || lia). rok.
    replace (Z.to_nat SFS_BLKSIZE) with (length d1) by (unfold SFS_BLKSIZE; lia). rewrite drop_app_length.
    destruct Hw as (E1 & W1 & L1). pose proof (ex_acct _ _ _ _ _ _ E1).
    destruct (IH s1 x1 bl1 (i + 1) d2 last) as (x2 & s2 & bl2 & -> & Hw2); try (apply E1 || lia).
    rok. exists x2, s2, bl2. split; [repeat f_equal; change SFS_BLKSIZE with 4096; lia|].
    eapply wrote_to_trans; [lia|by split|]. rewrite Hd1. replace (4096 * i + 4096) with (4096 * (i + 1)) by lia. done.
Qed.

Lemma map_ok_same s x x' bl :
  map_ok s x bl -> dblocks (din x') = dblocks (din x) -> direct (din x') = direct (din x) -> indirect (din x') = indirect (din x) ->
  ino x' = ino x -> map_ok s x' bl.
Proof.
  intros [] Hd Hr Hi Hn. assert (own x' bl = own x bl) as Ho by (unfold own; by rewrite Hi, Hn).
  constructor; rewrite ?Hd, ?Hr, ?Hi, ?Ho, ?Hn; try done.
  intros i Hlt. rewrite <- fk_map0 by done. unfold fblk, direct_at. by rewrite Hr, Hi.
Qed.

Lemma io_out_map s off n x bl : map_ok s x bl -> map_ok s (io_out off n x) bl.
Proof. intros H. unfold io_out. zcase; [|done]. by eapply map_ok_same. Qed.

Lemma io_out_size off n x : size (din (io_out off n x)) = Z.max (size (din x)) (off + n).
Proof. unfold io_out. zcase; simpl; lia. Qed.

(** The transfer of a nonempty write, before the size is set. *)
Lemma io_write_blocks s x bl off data :
  fs_ok s -> map_ok s x bl -> type (din x) <> SFS_TYPE_DIR -> data <> [] ->
  0 <= off <= 4096 * Z.of_nat (length bl) -> off + Z.of_nat (length data) <= 1036 * 4096 ->
  (off + Z.of_nat (length data) + 4095) / 4096 + 2 <= nfree s + Z.of_nat (length (own x bl)) ->
  exists x' s' bl', sfs_io_nolock true data off (Z.of_nat (length data)) x s = Ok (0, Z.of_nat (length data), [], io_out off (Z.of_nat (length data)) x', s') /\
    wrote_to s x bl off data s' x' bl'.
Proof.
  intros H Hf Ht Hd Ho Hmax Hn. assert (0 < Z.of_nat (length data)) as Hpos by (destruct data; [done|simpl; lia]).
  unfold sfs_io_nolock. rewrite kassert_true by (by rewrite (proj2 (Z.eqb_neq _ _))). rok. unfold io_end. change SFS_MAX_FILE_SIZE with 134217728.
  rewrite (i32_small (off + Z.of_nat (length data))) by lia.
  rewrite (proj2 (Z.ltb_ge off 0)), (proj2 (Z.leb_gt 134217728 off)), (proj2 (Z.ltb_ge _ off)), (proj2 (Z.eqb_neq off _)), (proj2 (Z.ltb_ge 134217728 _)) by lia.
  cbn [orb]. change SFS_BLKSIZE with 4096. set (e := off + Z.of_nat (length data)) in *.
  assert (He : e = off + Z.of_nat (length data)) by done. clearbody e.
  destruct (Z.eqb_spec (off mod 4096) 0) as [E0|E0]; cbn [negb].
  - destruct (io_blocks_write (Z.to_nat (e / 4096 - off / 4096)) s x bl (off / 4096) data (e mod 4096)) as (x' & s' & bl' & -> & Hw); try (done || lia).
    rok. exists x', s', bl'. split; [done|]. replace (4096 * (off / 4096)) with off in Hw by lia. done.
  - destruct (Z.eqb_spec (e / 4096 - off / 4096) 0) as [E1|E1]; cbn [negb].
    + destruct (io_piece_write s x bl (off / 4096) (off mod 4096) data) with (rest := @nil Z) as (x' & s' & bl' & Hio & Hw); try (done || lia).
      rewrite app_nil_r in Hio. replace (e - off) with (Z.of_nat (length data)) by lia. rewrite Hio. rok.
      exists x', s', bl'. split; [done|]. replace (4096 * (off / 4096) + off mod 4096) with off in Hw by lia. done.
    + assert (exists d1 d2, data = d1 ++ d2 /\ Z.of_nat (length d1) = 4096 - off mod 4096) as (d1 & d2 & -> & Hd1).
      { exists (take (Z.to_nat (4096 - off mod 4096)) data), (drop (Z.to_nat (4096 - off mod 4096)) data). split; [by rewrite take_drop|]. rewrite length_take. lia. }
      rewrite length_app in *. rewrite <- Hd1.
      destruct (io_piece_write s x bl (off / 4096) (off mod 4096) d1) with (rest := d2) as (x1 & s1 & bl1 & -> & Hw1); try (done || lia).
      { intros ->. simpl in *. lia. }
      rok. rewrite Nat2Z.id, drop_app_length. replace (4096 * (off / 4096) + off mod 4096) with off in Hw1 by lia.
      pose proof Hw1 as (E & _ & L1). pose proof (ex_acct _ _ _ _ _ _ E).
      destruct (io_blocks_write (Z.to_nat (e / 4096 - off / 4096 - 1)) s1 x1 bl1 (off / 4096 + 1) d2 (e mod 4096)) as (x' & s' & bl' & -> & Hw2);
        try (apply E || lia). 
      rok. replace (Z.of_nat (length d1) + Z.of_nat (length d2)) with (Z.of_nat (length d1 + length d2)) by lia.
      exists x', s', bl'. split; [done|]. eapply wrote_to_trans; [lia|done|].
      replace (off + Z.of_nat (length d1)) with (4096 * (off / 4096 + 1)) by lia. done.
Qed.

(** ** Reading *)
Definition fbytes (s : sfs) (bl : list Z) (off n : Z) : list Z := (fun k => fbyte s bl (off + k)) <$> seqZ 0 n.

Lemma fbytes_app s bl off a b : 0 <= a -> 0 <= b -> fbytes s bl off a ++ fbytes s bl (off + a) b = fbytes s bl off (a + b).
Proof.
  intros Ha Hb. unfold fbytes. rewrite (seqZ_app 0 a b) by done. rewrite fmap_app. f_equal.
  rewrite <- (Z.add_0_r (0 + a)), <- fmap_add_seqZ, <- list_fmap_compose. apply list_fmap_ext. intros i k _. simpl. f_equal. lia.
Qed.

Lemma slice_fbytes s bl i b o n : bl !! Z.to_nat i = Some b -> 0 <= o -> o + n <= 4096 -> slice (block s b) o n = fbytes s bl (4096 * i + o) n.
Proof.
  intros Hb Ho Hn. apply list_fmap_ext. intros j k Hk. apply lookup_seqZ in Hk as [-> Hk]. unfold fbyte.
  replace ((4096 * i + o + (0 + Z.of_nat j)) / 4096) with i by lia. rewrite Hb. f_equal. lia.
Qed.

Lemma io_piece_read s x bl i o n :
  fs_ok s -> map_ok s x bl -> 0 <= i < Z.of_nat (length bl) -> 0 <= o < 4096 -> 0 <= n -> o + n <= 4096 ->
  io_piece false [] n i o x s = Ok (0, fbytes s bl (4096 * i + o) n, x, s).
Proof.
  intros H Hf Hi Ho Hn Hl. destruct (lookup_lt_is_Some_2 bl (Z.to_nat i)) as [b Hb]; [lia|].
  unfold io_piece. rewrite (bmap_load_old s x bl i b) by (done || lia). rok.
  pose proof (used_pos _ _ H (data_used _ _ _ _ Hf (list_elem_of_lookup_2 _ _ _ Hb))).
  rewrite rbuf_ok by (apply H || (change SFS_BLKSIZE with 4096; lia)). rok. rewrite (slice_fbytes s bl i) by (done || lia). done.
Qed.

Lemma io_block_read s x bl i :
  fs_ok s -> map_ok s x bl -> 0 <= i < Z.of_nat (length bl) -> io_block false [] i x s = Ok (0, fbytes s bl (4096 * i) 4096, x, s).
Proof.
  intros H Hf Hi. destruct (lookup_lt_is_Some_2 bl (Z.to_nat i)) as [b Hb]; [lia|].
  unfold io_block. rewrite (bmap_load_old s x bl i b) by (done || lia). rok.
  pose proof (used_pos _ _ H (data_used _ _ _ _ Hf (list_elem_of_lookup_2 _ _ _ Hb))).
  cbn [sfs_rblock]. rewrite rw_read by (apply H || lia). rok. change SFS_BLKSIZE with 4096.
  rewrite (slice_fbytes s bl i) by (done || lia). by rewrite Z.add_0_r.
Qed.

Lemma io_blocks_read n : forall s x bl i last,
  fs_ok s -> map_ok s x bl -> 0 <= i -> 0 <= last < 4096 -> 4096 * (i + Z.of_nat n) + last <= 4096 * Z.of_nat (length bl) ->
  io_blocks false n [] i last x s = Ok (0, 4096 * Z.of_nat n + last, fbytes s bl (4096 * i) (4096 * Z.of_nat n + last), x, s).
Proof.
  induction n as [|n IH]; intros s x bl i last H Hf Hi Hla Hl; cbn [io_blocks].
  - destruct (Z.eqb_spec last 0) as [->|]; [done|]. rewrite (io_piece_read s x bl) by (done || lia). rok. by rewrite !Z.add_0_r.
  - rewrite (io_block_read s x bl) by (done || lia). rok. rewrite drop_nil, (IH s x bl) by (done || lia). rok.
    change SFS_BLKSIZE with 4096. replace (4096 * (i + 1)) with (4096 * i + 4096) by lia. rewrite fbytes_app by lia.
    replace (4096 + (4096 * Z.of_nat n + last)) with (4096 * Z.of_nat (S n) + last) by lia. done.
Qed.

Lemma io_out_inside off n x : off + n <= size (din x) -> io_out off n x = x.
Proof. intros Hn. unfold io_out. by rewrite (proj2 (Z.ltb_ge _ _)). Qed.

Lemma io_read s x bl off len :
  fs_ok s -> file_ok s x bl -> 0 <= off < SFS_MAX_FILE_SIZE -> 0 <= len -> off + len < 2 ^ 31 ->
  let n := Z.max 0 (Z.min len (size (din x) - off)) in
  sfs_io_nolock false [] off len x s = Ok (0, n, fbytes s bl off n, x, s).
Proof.
  intros H (Hf & Hsz & Ht) Ho Hl Hov n. pose proof (fk_max _ _ _ Hf).
  unfold sfs_io_nolock. rewrite kassert_true by (by rewrite (proj2 (Z.eqb_neq _ _))). rok. unfold io_end.
  rewrite (i32_small (off + len)) by lia. change SFS_MAX_FILE_SIZE with 134217728 in *.
  rewrite (proj2 (Z.ltb_ge off 0)), (proj2 (Z.leb_gt 134217728 off)), (proj2 (Z.ltb_ge _ off)) by lia. cbn [orb].
  destruct (Z.eqb_spec off (off + len)); [by replace n with 0 by lia|].
  destruct (Z.leb_spec (size (din x)) off); [by replace n with 0 by lia|].
  set (e := if size (din x) <? _ then _ else _). assert (e = off + n) as He.
  { unfold e, n. destruct (Z.ltb_spec 134217728 (off + len));
    [destruct (Z.ltb_spec (size (din x)) 134217728)|destruct (Z.ltb_spec (size (din x)) (off + len))]; lia. }
  clearbody e.
  assert (0 < n <= size (din x) - off) as Hn by lia. clearbody n. change SFS_BLKSIZE with 4096.
  destruct (Z.eqb_spec (off mod 4096) 0) as [E0|E0]; cbn [negb].
  - rewrite (io_blocks_read _ s x bl) by (done || lia). rok.
    replace (4096 * Z.of_nat (Z.to_nat (e / 4096 - off / 4096)) + e mod 4096) with n by lia. replace (4096 * (off / 4096)) with off by lia.
    by rewrite io_out_inside by lia.
  - destruct (Z.eqb_spec (e / 4096 - off / 4096) 0) as [E1|E1]; cbn [negb].
    + rewrite (io_piece_read s x bl) by (done || lia). rok. replace (e - off) with n by lia. replace (4096 * (off / 4096) + off mod 4096) with off by lia.
      by rewrite io_out_inside by lia.
    + rewrite (io_piece_read s x bl) by (done || lia). rok. rewrite drop_nil, (io_blocks_read _ s x bl) by (done || lia). rok.
      replace (4096 * (off / 4096) + off mod 4096) with off by lia.
      replace (4096 * (off / 4096 + 1)) with (off + (4096 - off mod 4096)) by lia. rewrite fbytes_app by lia.
      replace (4096 - off mod 4096 + (4096 * Z.of_nat (Z.to_nat (e / 4096 - off / 4096 - 1)) + e mod 4096)) with n by lia.
      by rewrite io_out_inside by lia.
Qed.

(** ** Shrinking *)
Lemma changes_free s x bl b s' x' :
  fs_ok s -> map_ok s x (bl ++ [b]) -> fs_ok s' -> blocks s' = blocks s -> nfree s' = nfree s + 1 ->
  (forall i, 0 <= i -> free_bit (freemap s') i = if decide (i = b) then true else free_bit (freemap s) i) ->
  (forall c, used s c -> c <> indirect (din x) -> block s' c = block s c) ->
  din x' = set_dblocks (Z.of_nat (length bl)) (if Z.of_nat (length bl) <? 12 then set_direct (Z.of_nat (length bl)) 0 (din x) else din x) ->
  ino x' = ino x ->
  (forall i, 12 <= i < 1036 -> indirect (din x) <> 0 ->
    le32 (slice (block s' (indirect (din x))) ((i - 12) * 4) 4) = if i =? Z.of_nat (length bl) then 0 else fblk s (din x) i) ->
  changes s x (bl ++ [b]) s' x' bl /\ forall p, 0 <= p -> fbyte s' bl p = fbyte s bl p.
Proof.
  intros H Hf H' Hbk Hn Hbits Hsb Hx Hino Hent.
  assert (Hind : indirect (din x') = indirect (din x)) by (rewrite Hx; zcase; done).
  assert (Hbu : used s b) by (eapply data_used; [done|apply elem_of_app; right; by left]).
  assert (Hown : own x (bl ++ [b]) ≡ₚ b :: own x' bl) by (unfold own; rewrite Hind, Hino; zcase; simpl; solve_Permutation).
  pose proof (fk_nodup _ _ _ Hf) as Hnd. rewrite Hown in Hnd. apply NoDup_cons in Hnd as [Hbn Hnd].
  pose proof (fk_len _ _ _ Hf) as Hlen. pose proof (fk_max _ _ _ Hf) as Hmax. rewrite length_app in Hlen, Hmax. simpl in Hlen, Hmax.
  assert (Hkeep : forall c, used s c -> c <> b -> used s' c).
  { intros c Hc Hne. pose proof (used_pos _ _ H Hc). split; [rewrite (first_data_blocks _ _ Hbk), Hbk; apply Hc|].
    rewrite Hbits, decide_False by (done || lia). apply Hc. }
  split.
  2: { intros p Hp. unfold fbyte. destruct (bl !! _) as [c|] eqn:Hc; [|done]. apply list_elem_of_lookup_2 in Hc.
       destruct (decide (indirect (din x) = 0)) as [E|E].
       - rewrite Hsb; [done| |]; [eapply data_used; [done|apply elem_of_app; by left]|rewrite E; apply (used_ne0 s); [done|eapply data_used; [done|apply elem_of_app; by left]]].
       - rewrite Hsb; [done| |]; [eapply data_used; [done|apply elem_of_app; by left]|]. eapply data_not_indirect; [done|apply elem_of_app; by left|done]. }
  constructor; try done; try (rewrite Hx; zcase; done).
  - constructor; try done.
    + by rewrite Hx.
    + lia.
    + intros i Hi. pose proof (fk_map _ _ _ Hf i Hi) as Hm. destruct (Z.ltb_spec i 12) as [Hd|Hd].
      * rewrite fblk_dir in Hm |- * by done. rewrite Hx. destruct (decide (i = Z.of_nat (length bl))) as [->|Hne].
        -- rewrite (proj2 (Z.ltb_lt _ _)) by done. unfold direct_at. simpl. rewrite list_lookup_insert_eq by (rewrite (fk_dir _ _ _ Hf); lia).
           by rewrite lookup_ge_None_2 by lia.
        -- rewrite lookup_snoc_ne in Hm by lia. rewrite <- Hm. zcase; [|done]. unfold direct_at. simpl. by rewrite list_lookup_insert_ne by lia.
      * destruct (decide (indirect (din x) = 0)) as [E|E].
        { unfold fblk in Hm |- *. rewrite (proj2 (Z.ltb_ge _ _)) in Hm |- * by done. rewrite Hind, E in *. simpl in *.
          assert (~ 12 < Z.of_nat (length (bl ++ [b]))) as Hle by (intros Hlt; by apply (fk_ind _ _ _ Hf) in Hlt).
          rewrite length_app in Hle. simpl in Hle. by rewrite lookup_ge_None_2 by lia. }
        rewrite fblk_ind by (done || congruence). rewrite Hind, Hent, Hm by (done || lia). zcase.
        -- by rewrite lookup_ge_None_2 by lia.
        -- by rewrite lookup_snoc_ne by lia.
    + rewrite Hx. zcase; simpl; rewrite ?length_insert; apply Hf.
    + intros Hlt. rewrite Hind. apply (fk_ind _ _ _ Hf). rewrite length_app. simpl. lia.
    + intros c Hc. apply Hkeep; [|intros ->; done]. apply (fk_used _ _ _ Hf). rewrite Hown. by right.
    + intros c Hc Hne. rewrite (first_data_blocks _ _ Hbk). rewrite Hino in Hne. apply (fk_area _ _ _ Hf); [rewrite Hown; by right|done].
  - rewrite Hown. simpl. lia.
  - intros c Hc Hno. rewrite Hown in Hno. apply not_elem_of_cons in Hno as [Hne Hno]. split; [by apply Hkeep|]. split; [done|].
    apply Hsb; [done|]. intros ->. apply Hno, own_elem. right. left. rewrite Hind. split; [|done]. by apply (used_ne0 s).
Qed.

Definition truncated (s : sfs) (x : sfs_inode) (bl : list Z) (b : Z) (r : res (Z * sfs_inode * sfs)) : Prop :=
  exists x' s', r = Ok (0, x', s') /\ changes s x (bl ++ [b]) s' x' bl /\ forall p, 0 <= p -> fbyte s' bl p = fbyte s bl p.

Lemma truncate_direct s x bl b :
  fs_ok s -> map_ok s x (bl ++ [b]) -> Z.of_nat (length bl) < 12 -> truncated s x bl b (sfs_bmap_truncate_nolock x s).
Proof.
  intros H Hf Hi. pose proof (fk_len _ _ _ Hf) as Hlen. rewrite length_app in Hlen. simpl in Hlen.
  assert (used s b) as Hu by (eapply data_used; [done|apply elem_of_app; right; by left]). pose proof (used_ne0 _ _ H Hu).
  pose proof (fk_map _ _ _ Hf (Z.of_nat (length bl)) ltac:(lia)) as Hm. rewrite Nat2Z.id, list_lookup_middle, fblk_dir in Hm by done. simpl in Hm.
  unfold sfs_bmap_truncate_nolock. rewrite kassert_true by (rewrite (proj2 (Z.eqb_neq _ _)); [done|lia]). rok.
  replace (dblocks (din x) - 1) with (Z.of_nat (length bl)) by lia. unfold sfs_bmap_free_nolock. change SFS_NDIRECT with 12.
  rewrite (proj2 (Z.ltb_lt _ 12)) by done. rewrite Hm, (proj2 (Z.eqb_neq b 0)) by done. cbn [negb].
  destruct (sfs_block_free_ok s b H Hu (data_area _ _ _ _ Hf ltac:(apply elem_of_app; right; by left))) as (s' & -> & H' & Hbk & Hn & Hbits & Hsame). rok. eexists _, s'. split; [done|].
  apply changes_free; try done.
  - intros c Hc _. apply Hsame; [apply Hc|apply not_elem_of_nil].
  - rewrite (proj2 (Z.ltb_lt _ 12)) by done. simpl. f_equal. lia.
  - intros i Hir Hne. pose proof (indirect_used _ _ _ Hf Hne) as Hiu. rewrite Hsame by (apply Hiu || apply not_elem_of_nil).
    rewrite fblk_ind by (done || lia). zcase; [lia|done].
Qed.

Lemma truncate_indirect s x bl b :
  fs_ok s -> map_ok s x (bl ++ [b]) -> 12 <= Z.of_nat (length bl) -> truncated s x bl b (sfs_bmap_truncate_nolock x s).
Proof.
  intros H Hf Hi. pose proof (fk_len _ _ _ Hf) as Hlen. pose proof (fk_max _ _ _ Hf) as Hmax. rewrite length_app in Hlen, Hmax. simpl in Hlen, Hmax.
  assert (b ∈ bl ++ [b]) as Hin by (apply elem_of_app; right; by left). pose proof (data_used _ _ _ _ Hf Hin) as Hu. pose proof (used_ne0 _ _ H Hu).
  assert (indirect (din x) <> 0) as Hne by (apply (fk_ind _ _ _ Hf); rewrite length_app; simpl; lia).
  pose proof (indirect_used _ _ _ Hf Hne) as Hiu. pose proof (used_pos _ _ H Hiu) as Hip. pose proof (data_not_indirect _ _ _ _ Hf Hin Hne) as Hbi.
  pose proof (fk_map _ _ _ Hf (Z.of_nat (length bl)) ltac:(lia)) as Hm. rewrite Nat2Z.id, list_lookup_middle, fblk_ind in Hm by done. change (default 0 (Some b)) with b in Hm.
  unfold sfs_bmap_truncate_nolock. rewrite kassert_true by (rewrite (proj2 (Z.eqb_neq _ _)); [done|lia]). rok.
  replace (dblocks (din x) - 1) with (Z.of_nat (length bl)) by lia. unfold sfs_bmap_free_nolock. change SFS_NDIRECT with 12. change SFS_BLK_NENTRY with 1024.
  rewrite (proj2 (Z.ltb_ge _ 12)), (proj2 (Z.ltb_lt _ 1024)), (proj2 (Z.eqb_neq (indirect (din x)) 0)) by (done || lia). cbn [negb].
  unfold sfs_bmap_free_sub_nolock. rewrite assert_inuse_ok by done. rok. change SFS_BLK_NENTRY with 1024.
  rewrite (kassert_true (Z.of_nat (length bl) - 12 <? 1024)) by (apply Z.ltb_lt; lia). rok.
  rewrite rbuf_ok by (apply H || (change SFS_BLKSIZE with 4096; lia)). rok. rewrite Hm, (proj2 (Z.eqb_neq b 0)) by done. cbn [negb].
  rewrite wbuf_ok by (apply H || (change SFS_BLKSIZE with 4096; simpl; lia)). rok. set (s1 := set_block _ _ s).
  destruct (sfs_block_free_ok s1 b) as (s' & -> & H' & Hbk & Hn & Hbits & Hsame); [by apply fs_ok_set_block|done|exact (data_area _ _ _ _ Hf Hin)|]. rok. eexists _, s'. split; [done|].
  apply changes_free; try done.
  - intros c Hc Hci. rewrite Hsame by (apply Hc || apply not_elem_of_nil). unfold s1. rewrite block_set. zcase; done.
  - rewrite (proj2 (Z.ltb_ge _ 12)) by done. simpl. f_equal. lia.
  - intros i Hir _. rewrite Hsame by (apply Hiu || apply not_elem_of_nil). unfold s1. rewrite block_set, Z.eqb_refl.
    rewrite entry_patch, fblk_ind by (done || lia). repeat zcase; (done || lia).
Qed.

Lemma truncate_ok s x bl b : fs_ok s -> map_ok s x (bl ++ [b]) -> truncated s x bl b (sfs_bmap_truncate_nolock x s).
Proof.
  intros H Hf. destruct (decide (Z.of_nat (length bl) < 12)); [by apply truncate_direct|apply truncate_indirect; (done || lia)].
Qed.

Lemma fbyte_short s bl b p : 0 <= p < 4096 * Z.of_nat (length bl) -> fbyte s (bl ++ [b]) p = fbyte s bl p.
Proof. intros Hp. unfold fbyte. rewrite lookup_snoc_ne; [done|]. assert (p / 4096 < Z.of_nat (length bl)) by (apply Z.div_lt_upper_bound; lia). lia. Qed.

(** What resizing to [n] blocks gives. *)
Definition resized (s : sfs) (x : sfs_inode) (bl : list Z) (n : Z) (r : res (Z * sfs_inode * sfs)) : Prop :=
  exists x' s' bl', r = Ok (0, x', s') /\ changes s x bl s' x' bl' /\ Z.of_nat (length bl') = n /\
    forall p, 0 <= p < 4096 * n -> fbyte s' bl' p = fbyte s bl p.

Lemma shrink_ok n : forall s x bl, fs_ok s -> map_ok s x bl -> (n <= length bl)%nat ->
  resized s x bl (Z.of_nat (length bl) - Z.of_nat n) (shrink n x s).
Proof.
  induction n as [|n IH]; intros s x bl H Hf Hn; cbn [shrink].
  { exists x, s, bl. split; [done|]. split; [by apply changes_refl|]. split; [lia|done]. }
  destruct bl as [|b bl _] using rev_ind; [simpl in Hn; lia|]. rewrite length_app in *. simpl in Hn.
  destruct (truncate_ok s x bl b H Hf) as (x1 & s1 & -> & He & Hp). rok.
  destruct (IH s1 x1 bl) as (x' & s' & bl' & -> & He' & Hl & Hp'); [apply He|apply He|lia|].
  exists x', s', bl'. split; [done|]. split; [by eapply changes_trans|]. split; [rewrite Hl; simpl; lia|].
  intros p Hr. simpl in Hr. rewrite Hp', Hp by lia. by rewrite fbyte_short by lia.
Qed.

Lemma grow_ok n : forall s x bl, fs_ok s -> map_ok s x bl -> Z.of_nat (length bl) + Z.of_nat n <= 1036 ->
  Z.of_nat (length bl) + Z.of_nat n + 2 <= nfree s + Z.of_nat (length (own x bl)) ->
  resized s x bl (Z.of_nat (length bl) + Z.of_nat n) (grow n (Z.of_nat (length bl)) x s).
Proof.
  induction n as [|n IH]; intros s x bl H Hf Hm Hn; cbn [grow].
  { exists x, s, bl. split; [done|]. split; [by apply changes_refl|]. split; [lia|done]. }
  destruct (bmap_load_ok s x bl (Z.of_nat (length bl))) as (b & x1 & s1 & bl1 & -> & He & _ & Hl & Hp); try (done || lia). rok.
  replace (Z.of_nat (length bl) + 1) with (Z.of_nat (length bl1)) by lia. pose proof (ex_acct _ _ _ _ _ _ He).
  destruct (IH s1 x1 bl1) as (x' & s' & bl' & -> & He' & Hl' & Hp'); try (apply He || lia).
  exists x', s', bl'. split; [done|]. split; [by eapply changes_trans|]. split; [lia|]. intros p Hr. rewrite Hp', Hp by lia. done.
Qed.

(** Other files keep their blocks and their bytes. *)
Definition others_kept (s : sfs) (x : sfs_inode) (bl : list Z) (s' : sfs) : Prop :=
  forall y cl, map_ok s y cl -> (forall c, c ∈ own y cl -> c ∉ own x bl) ->
    map_ok s' y cl /\ forall p, 0 <= p -> fbyte s' cl p = fbyte s cl p.

Lemma map_kept s s' y cl :
  blocks s' = blocks s -> map_ok s y cl -> (forall c, c ∈ own y cl -> used s' c /\ block s' c = block s c) ->
  map_ok s' y cl /\ forall p, 0 <= p -> fbyte s' cl p = fbyte s cl p.
Proof.
  intros Hbk Hy Hk. split.
  - constructor; try apply Hy; [|intros c Hc; by apply Hk|rewrite (first_data_blocks _ _ Hbk); apply Hy].
    intros i Hi. rewrite <- (fk_map _ _ _ Hy i Hi). unfold fblk. zcase; [done|]. destruct (Z.eqb_spec (indirect (din y)) 0) as [|E]; [done|].
    destruct (Hk (indirect (din y))) as [_ ->]; [|done]. apply own_elem. tauto.
  - intros p Hp. unfold fbyte. destruct (cl !! _) as [c|] eqn:Hc; [|done].
    destruct (Hk c) as [_ ->]; [|done]. apply own_elem. right. right. by eapply list_elem_of_lookup_2.
Qed.

Lemma changes_kept s x bl s' x' bl' : fs_ok s -> changes s x bl s' x' bl' -> others_kept s x bl s'.
Proof.
  intros H He. intros y cl Hy Hdis. apply map_kept; [apply He|done|]. intros c Hc.
  by destruct (ex_frame _ _ _ _ _ _ He c ltac:(by apply Hy) (Hdis c Hc)) as (? & _ & ?).
Qed.

Lemma write_spec s x bl iob :
  let n := io_resid iob in let off := io_offset iob in
  fs_ok s -> file_ok s x bl -> iob_ok iob -> 0 < n ->
  0 <= off <= 4096 * Z.of_nat (length bl) -> off + n <= 1036 * 4096 ->
  (off + n + 4095) / 4096 - Z.of_nat (length bl) + 1 <= nfree s ->
  exists x' s' bl', sfs_write iob x s = Ok (0, moved n iob, x', s') /\
    fs_ok s' /\ file_ok s' x' bl' /\ size (din x') = Z.max (size (din x)) (off + n) /\
    wrote s bl s' bl' off (peek n iob) /\
    nfree s' + Z.of_nat (length (own x' bl')) = nfree s + Z.of_nat (length (own x bl)) /\ others_kept s x bl s'.
Proof.
  intros n off H (Hf & Hsz & Ht) Hio Hp Ho Hmax Hn. pose proof (own_length x bl) as Hol.
  pose proof (peek_length n iob Hio ltac:(destruct Hio; unfold n; lia)) as Hl. set (data := peek n iob) in *.
  destruct (io_write_blocks s x bl off data) as (x' & s' & bl' & Hx & He & Hw & Hlen); try (done || lia).
  { intros E. rewrite E in Hl. simpl in Hl. lia. }
  { rewrite Hl. zcase_in Hol; lia. }
  rewrite Hl in *. unfold sfs_write, sfs_io. fold n off data. rewrite Hx. rok. rewrite (proj2 (Z.eqb_neq n 0)) by lia. cbn [negb].
  rewrite iobuf_skip_ok by (unfold n; unfold iob_ok in Hio; lia). rok. eexists _, s', bl'. split; [done|]. split; [apply He|].
  assert (own (io_out off n x') bl' = own x' bl') as -> by (unfold io_out; by zcase).
  rewrite io_out_size, (ex_size _ _ _ _ _ _ He). split; [|split; [done|split; [done|split; [apply He|by eapply changes_kept]]]].
  split; [apply io_out_map, He|]. rewrite io_out_size, (ex_size _ _ _ _ _ _ He). split; [lia|].
  assert (type (din (io_out off n x')) = type (din x')) as -> by (unfold io_out; by zcase). by rewrite (ex_type _ _ _ _ _ _ He).
Qed.

Lemma fbytes_length s bl off n : 0 <= n -> Z.of_nat (length (fbytes s bl off n)) = n.
Proof. intros Hn. unfold fbytes. rewrite length_fmap, length_seqZ. lia. Qed.

Lemma read_spec s x bl iob :
  let off := io_offset iob in let n := Z.max 0 (Z.min (io_resid iob) (size (din x) - off)) in
  fs_ok s -> file_ok s x bl -> iob_ok iob -> 0 <= off < SFS_MAX_FILE_SIZE -> off + io_resid iob < 2 ^ 31 ->
  sfs_read iob x s = Ok (0, moved n (poke (fbytes s bl off n) iob), x, s).
Proof.
  intros off n H Hf Hio Ho Hov. unfold sfs_read, sfs_io. fold off. rewrite (io_read s x bl) by (done || (unfold iob_ok in Hio; lia)). fold n. rok.
  assert (Hr : 0 <= n <= io_resid iob) by (unfold iob_ok in Hio; unfold n; lia). clearbody n.
  destruct (Z.eqb_spec n 0) as [->|E]; cbn [negb]; [|by rewrite iobuf_skip_ok by (simpl; lia)].
  unfold SFS_MAX_FILE_SIZE in Ho. rok. unfold moved. simpl. fold off. rewrite !Z.add_0_r, Z.sub_0_r, i32_small by lia. done.
Qed.

Lemma fbytes_wrote s bl s' bl' off data n :
  wrote s bl s' bl' off data -> 0 <= off -> n = Z.of_nat (length data) -> fbytes s' bl' off n = data.
Proof.
  intros Hw Ho ->. apply list_eq_same_length with (length data); [done|pose proof (fbytes_length s' bl' off (Z.of_nat (length data))); lia|].
  intros i a b Hi Ha Hb. unfold fbytes in Ha. rewrite list_lookup_fmap, lookup_seqZ_lt in Ha by lia. simplify_eq/=.
  rewrite Hw, decide_True by lia. match goal with |- context [data !! ?k] => replace k with i by lia end. by rewrite Hb.
Qed.

(** The freed indirect block of a failed allocation leaves no trace. *)
Lemma bmap_full_spec s x bl :
  fs_ok s -> map_ok s x bl -> Z.of_nat (length bl) < 1036 ->
  nfree s = 0 \/ (nfree s = 1 /\ 12 <= Z.of_nat (length bl) /\ indirect (din x) = 0) ->
  exists s', sfs_bmap_load_nolock x (Z.of_nat (length bl)) s = Ok (- E_NO_MEM, 0, x, s') /\ fs_ok s' /\ nfree s' = nfree s /\
    forall c, used s c -> used s' c /\ block s' c = block s c.
Proof.
  intros H Hf Hm Hn. pose proof (fk_len _ _ _ Hf) as Hlen.
  pose proof (fk_map _ _ _ Hf (Z.of_nat (length bl)) ltac:(lia)) as Hmm. rewrite Nat2Z.id, lookup_ge_None_2 in Hmm by lia. change (default 0 None) with 0 in Hmm.
  unfold sfs_bmap_load_nolock. rewrite kassert_true by (apply Z.leb_le; lia). rok.
  rewrite (proj2 (Z.eqb_eq _ (dblocks (din x)))) by lia. unfold sfs_bmap_get_nolock. change SFS_NDIRECT with 12. change SFS_BLK_NENTRY with 1024.
  assert (Hno : forall t, fs_ok t -> nfree t = 0 -> sfs_block_alloc t = Ok (- E_NO_MEM, 0, t)).
  { intros t Ht Hz. destruct (sfs_block_alloc_ok t Ht) as [[_ ?]|(b & t' & _ & _ & _ & _ & _ & _ & Hnf & _)]; [done|]. unfold nfree in *. lia. }
  destruct (Z.ltb_spec (Z.of_nat (length bl)) 12) as [Hd|Hd].
  { rewrite fblk_dir in Hmm by done. rewrite Hmm. rok. rewrite Hno by (done || lia). rok. by exists s. }
  rewrite (proj2 (Z.ltb_lt _ 1024)) by lia. unfold sfs_bmap_get_sub_nolock. change SFS_BLK_NENTRY with 1024.
  rewrite (kassert_true (Z.of_nat (length bl) - 12 <? 1024)) by (apply Z.ltb_lt; lia). rok.
  destruct (Z.eqb_spec (indirect (din x)) 0) as [E|E]; cbn [negb].
  2: { rewrite fblk_ind in Hmm by done. pose proof (used_pos _ _ H (indirect_used _ _ _ Hf E)).
       rewrite rbuf_ok by (apply H || (change SFS_BLKSIZE with 4096; lia)). rok. rewrite Hmm. rok.
       unfold bmap_fill. rewrite Hno by (done || lia). rok. unfold bmap_cleanup. rok. by exists s. }
  destruct (sfs_block_alloc_ok s H) as [[Hz ->]|(ent & s1 & -> & H1 & Hbk1 & He & Hfe & Hue & Hnf1 & Hbits1 & Hz1 & Hsame1)]; rok.
  { by exists s. }
  unfold bmap_fill. rewrite Hno by (done || unfold nfree in *; lia). rok. unfold bmap_cleanup.
  rewrite E, (proj2 (Z.eqb_neq ent 0)) by (by eapply used_ne0). cbn [negb].
  destruct (sfs_block_free_ok s1 ent H1 Hue ltac:(rewrite (first_data_blocks _ _ Hbk1); lia)) as (s2 & -> & H2 & Hbk2 & Hnf2 & Hbits2 & Hsame2). rok. exists s2. split; [done|]. split; [done|]. split; [lia|].
  intros c Hc. pose proof (used_pos _ _ H Hc). assert (c <> ent) by (intros ->; destruct Hc; congruence).
  pose proof (first_data_blocks _ _ Hbk1). pose proof (first_data_blocks _ _ Hbk2). destruct Hc as [Hc1 Hc2]. split.
  - split; [rewrite Hbk2, Hbk1; lia|]. by rewrite Hbits2, decide_False, Hbits1, decide_False by (done || lia).
  - rewrite Hsame2 by (lia || apply not_elem_of_nil). apply Hsame1; [lia|by rewrite list_elem_of_singleton].
Qed.

Lemma truncfile_spec s x bl len :
  fs_ok s -> file_ok s x bl -> dblocks (din x) = (size (din x) + 4095) / 4096 -> 0 <= len <= 1036 * 4096 ->
  (len + 4095) / 4096 <= Z.of_nat (length bl) \/ (len + 4095) / 4096 - Z.of_nat (length bl) + 1 <= nfree s ->
  exists x' s' bl', sfs_truncfile len x s = Ok (0, x', s') /\ fs_ok s' /\ file_ok s' x' bl' /\
    size (din x') = len /\ dblocks (din x') = (len + 4095) / 4096 /\
    (forall p, 0 <= p < 4096 * dblocks (din x') -> fbyte s' bl' p = fbyte s bl p) /\
    nfree s' + Z.of_nat (length (own x' bl')) = nfree s + Z.of_nat (length (own x bl)) /\ others_kept s x bl s' /\
    (forall c, used s c -> c ∉ own x bl -> c ∉ own x' bl') /\
    ino x' = ino x /\ nlinks (din x') = nlinks (din x) /\ blocks s' = blocks s.
Proof.
  intros H (Hf & Hsz & Ht) Htight Hl Hn. pose proof (fk_len _ _ _ Hf) as Hlen. pose proof (own_length x bl) as Hol.
  unfold sfs_truncfile. change SFS_MAX_FILE_SIZE with 134217728. rewrite (proj2 (Z.ltb_ge len 0)), (proj2 (Z.ltb_ge 134217728 len)) by lia. cbn [orb].
  change SFS_BLKSIZE with 4096. replace (len + 4096 - 1) with (len + 4095) by lia. set (t := (len + 4095) / 4096) in *.
  destruct (Z.eqb_spec (size (din x)) len) as [E|E].
  { rewrite kassert_true by (apply Z.eqb_eq; subst; unfold t; lia). rok. exists x, s, bl. split; [done|]. split; [done|].
    split; [done|]. split; [done|]. split; [subst; unfold t; lia|]. split; [done|]. split; [done|]. split; [by eapply changes_kept, changes_refl|done]. }
  assert (resized s x bl t (if dblocks (din x) <? t then grow (Z.to_nat (t - dblocks (din x))) (dblocks (din x)) x s
                            else shrink (Z.to_nat (dblocks (din x) - t)) x s)) as (x' & s' & bl' & -> & He & Hl' & Hp).
  { rewrite <- Hlen. destruct (Z.ltb_spec (Z.of_nat (length bl)) t).
    - pose proof (grow_ok (Z.to_nat (t - Z.of_nat (length bl))) s x bl H Hf) as Hg.
      replace (Z.of_nat (length bl) + Z.of_nat (Z.to_nat (t - Z.of_nat (length bl)))) with t in Hg by lia. apply Hg; [unfold t; lia|zcase_in Hol; lia].
    - pose proof (shrink_ok (Z.to_nat (Z.of_nat (length bl) - t)) s x bl H Hf) as Hg. assert (0 <= t) by (unfold t; lia).
      replace (Z.of_nat (length bl) - Z.of_nat (Z.to_nat (Z.of_nat (length bl) - t))) with t in Hg by lia. apply Hg. lia. }
  rok. pose proof (ex_map _ _ _ _ _ _ He) as Hf'. pose proof (fk_len _ _ _ Hf') as Hd'.
  rewrite kassert_true by (apply Z.eqb_eq; lia). rok. eexists _, s', bl'. split; [done|]. split; [apply He|].
  split; [split; [by eapply map_ok_same|split; [simpl; rewrite Hl'; unfold t; lia|simpl; by rewrite (ex_type _ _ _ _ _ _ He)]]|].
  split; [done|]. split; [simpl; lia|]. split; [simpl; rewrite <- Hd', Hl'; done|]. split; [apply He|]. split; [by eapply changes_kept|].
  split; [intros c Hc Hno; by destruct (ex_frame _ _ _ _ _ _ He c Hc Hno) as (_ & ? & _)|]. split; [apply He|]. split; apply He.
Qed.

(** ** Claims *)

(** C3: a write that fits in the block map and the free blocks stores exactly
    the bytes of its buffer at its offset, keeps every other byte of the file,
    grows the size to cover them, loses no block, and leaves every other file
    alone. *)
Theorem sfs_write_correct s x bl iob :
  let n := io_resid iob in let off := io_offset iob in
  fs_ok s -> file_ok s x bl -> iob_ok iob -> 0 < n ->
  0 <= off <= 4096 * Z.of_nat (length bl) -> off + n <= 1036 * 4096 ->
  (off + n + 4095) / 4096 - Z.of_nat (length bl) + 1 <= nfree s ->
  exists x' s' bl', sfs_write iob x s = Ok (0, moved n iob, x', s') /\
    fs_ok s' /\ file_ok s' x' bl' /\ size (din x') = Z.max (size (din x)) (off + n) /\
    wrote s bl s' bl' off (peek n iob) /\
    nfree s' + Z.of_nat (length (own x' bl')) = nfree s + Z.of_nat (length (own x bl)) /\ others_kept s x bl s'.
Proof. apply write_spec. Qed.

(** what a write stored is what a read at the same offset brings back, and
    the read changes neither the inode nor the file system. *)
Theorem sfs_write_read_roundtrip s x bl iob buf :
  let n := io_resid iob in let off := io_offset iob in
  fs_ok s -> file_ok s x bl -> iob_ok iob -> 0 < n ->
  0 <= off <= 4096 * Z.of_nat (length bl) -> off + n <= 1036 * 4096 ->
  (off + n + 4095) / 4096 - Z.of_nat (length bl) + 1 <= nfree s -> Z.of_nat (length buf) = n ->
  exists x' s' iob', sfs_write iob x s = Ok (0, moved n iob, x', s') /\
    sfs_read (iobuf_init buf n off) x' s' = Ok (0, iob', x', s') /\ io_buf iob' = peek n iob /\ io_resid iob' = 0.
Proof.
  intros n off H Hf Hio Hp Ho Hmax Hn Hb. destruct (write_spec s x bl iob) as (x' & s' & bl' & Hw & H' & Hf' & Hsz' & Hby & _); try done.
  fold n off in Hw, Hsz', Hby. exists x', s', (moved n (poke (peek n iob) (iobuf_init buf n off))). split; [done|].
  pose proof (peek_length n iob Hio ltac:(unfold iob_ok in Hio; unfold n; lia)) as Hpl.
  rewrite (read_spec s' x' bl'); [|done|done|unfold iob_ok in *; simpl; lia|unfold SFS_MAX_FILE_SIZE; simpl; lia|simpl; lia].
  cbn [iobuf_init io_resid io_offset]. replace (Z.max 0 (Z.min n (size (din x') - off))) with n by lia.
  rewrite (fbytes_wrote s bl s' bl' off (peek n iob) n) by (done || lia). split; [done|].
  unfold poke. simpl. rewrite drop_ge, app_nil_r by lia. split; [done|]. lia.
Qed.

(** a read brings the bytes of the file from its offset up to the room of
    the buffer or the end of the file into the buffer and changes nothing else. *)
Theorem sfs_read_correct s x bl iob :
  let off := io_offset iob in let n := Z.max 0 (Z.min (io_resid iob) (size (din x) - off)) in
  fs_ok s -> file_ok s x bl -> iob_ok iob -> 0 <= off < SFS_MAX_FILE_SIZE -> off + io_resid iob < 2 ^ 31 ->
  sfs_read iob x s = Ok (0, moved n (poke (fbytes s bl off n) iob), x, s).
Proof. apply read_spec. Qed.

(** C14: resizing sets the size and the number of blocks, keeps the bytes below
    both sizes, fills with zero bytes whole blocks that are new, gives the
    blocks it drops back and leaves every other file alone. *)
Theorem sfs_truncfile_correct s x bl len :
  fs_ok s -> file_ok s x bl -> dblocks (din x) = (size (din x) + 4095) / 4096 -> 0 <= len <= 1036 * 4096 ->
  (len + 4095) / 4096 <= Z.of_nat (length bl) \/ (len + 4095) / 4096 - Z.of_nat (length bl) + 1 <= nfree s ->
  exists x' s' bl', sfs_truncfile len x s = Ok (0, x', s') /\ fs_ok s' /\ file_ok s' x' bl' /\
    size (din x') = len /\ dblocks (din x') = (len + 4095) / 4096 /\
    (forall p, 0 <= p < 4096 * dblocks (din x') -> fbyte s' bl' p = fbyte s bl p) /\
    nfree s' + Z.of_nat (length (own x' bl')) = nfree s + Z.of_nat (length (own x bl)) /\ others_kept s x bl s' /\
    (forall c, used s c -> c ∉ own x bl -> c ∉ own x' bl') /\
    ino x' = ino x /\ nlinks (din x') = nlinks (din x) /\ blocks s' = blocks s.
Proof. apply truncfile_spec. Qed.

(** with no block for a new entry, the block map reports -E_NO_MEM, keeps
    the inode, gives an indirect block it took back and leaves every block in
    use alone. *)
Theorem sfs_bmap_full s x bl :
  fs_ok s -> map_ok s x bl -> Z.of_nat (length bl) < 1036 ->
  nfree s = 0 \/ (nfree s = 1 /\ 12 <= Z.of_nat (length bl) /\ indirect (din x) = 0) ->
  exists s', sfs_bmap_load_nolock x (Z.of_nat (length bl)) s = Ok (- E_NO_MEM, 0, x, s') /\ fs_ok s' /\ nfree s' = nfree s /\
    forall c, used s c -> used s' c /\ block s' c = block s c.
Proof. apply bmap_full_spec. Qed.

(** The size limit of sfs.h is far above the 1036 blocks the map can hold:
    a write at the end of a full map passes the checks and panics. *)
Theorem sfs_write_past_map_panics s x bl iob :
  fs_ok s -> file_ok s x bl -> length bl = 1036%nat -> io_offset iob = 4096 * 1036 -> 0 < io_resid iob < 2 ^ 20 ->
  sfs_write iob x s = Panic.
Proof.
  intros H (Hf & Hsz & Ht) Hl Hoff Hd. pose proof (fk_len _ _ _ Hf) as Hlen.
  assert (Hload : sfs_bmap_load_nolock x 1036 s = Panic).
  { unfold sfs_bmap_load_nolock. rewrite kassert_true by (apply Z.leb_le; lia). rok. unfold sfs_bmap_get_nolock.
    change (1036 <? SFS_NDIRECT) with false. change (1036 - SFS_NDIRECT <? SFS_BLK_NENTRY) with false. done. }
  unfold sfs_write, sfs_io. rewrite Hoff. set (n := io_resid iob) in *. set (d := peek n iob). clearbody n d.
  unfold sfs_io_nolock. rewrite kassert_true by (by rewrite (proj2 (Z.eqb_neq _ _))). rok. unfold io_end.
  rewrite (i32_small (4096 * 1036 + n)) by lia. change SFS_MAX_FILE_SIZE with 134217728.
  rewrite (proj2 (Z.ltb_ge (4096 * 1036) 0)), (proj2 (Z.leb_gt 134217728 _)), (proj2 (Z.ltb_ge _ (4096 * 1036))), (proj2 (Z.eqb_neq (4096 * 1036) _)), (proj2 (Z.ltb_ge 134217728 _)) by lia.
  cbn [orb]. change (4096 * 1036 mod SFS_BLKSIZE =? 0) with true. cbn [negb]. change (4096 * 1036 / SFS_BLKSIZE) with 1036.
  change SFS_BLKSIZE with 4096. set (e := 4096 * 1036 + n). assert (e = 4096 * 1036 + n) as He by done. clearbody e.
  destruct (Z.to_nat (e / 4096 - 1036)) as [|k] eqn:Ek; cbn [io_blocks].
  - rewrite (proj2 (Z.eqb_neq (e mod 4096) 0)) by lia. cbn [negb]. unfold io_piece. by rewrite Hload.
  - unfold io_block. by rewrite Hload.
Qed.

(** ** Examples: a disk of 64 blocks with one file of one block *)
Definition disk64 : sfs := Sfs 64 59 [] false (Bitmap 64 2 [0xFFFFFFE0; 0xFFFFFFFF]) {[ 4 := {[ 4094 := 7; 4095 := 9 ]} ]} [].
Definition file1 : sfs_inode := Sin (Din 4096 SFS_TYPE_FILE 1 1 (4 :: replicate 11 0) 0) 3 false.
Definition disk_full : sfs := Sfs 64 0 [] false (Bitmap 64 2 [0; 0]) ∅ [].

Lemma below_check (P : Z -> bool) n i : forallb P (seqZ 0 n) = true -> 0 <= i < n -> P i = true.
Proof. intros H Hi. rewrite forallb_forall in H. apply H, list_elem_of_In, elem_of_seqZ. lia. Qed.

Lemma free_above (m : bitmap) i : Z.of_nat (length (map m)) * 32 <= i -> free_bit m i = false.
Proof.
  intros Hi. unfold free_bit, word. rewrite lookup_ge_None_2; [apply Z.bits_0|].
  pose proof (Z.div_le_lower_bound i 32 (Z.of_nat (length (map m))) ltac:(lia) ltac:(lia)). lia.
Qed.

Lemma disk_ok w0 w1 n d :
  0 <= w0 < 2 ^ 32 -> 0 <= w1 < 2 ^ 32 ->
  forallb (fun i => implb (free_bit (Bitmap 64 2 [w0; w1]) i) (3 <=? i)) (seqZ 0 64) = true ->
  n = Z.of_nat (length (free_list_of (Bitmap 64 2 [w0; w1]))) -> fs_ok (Sfs 64 n [] false (Bitmap 64 2 [w0; w1]) d []).
Proof.
  intros H0 H1 Hc Hn. constructor; simpl; try done.
  - constructor; simpl; [done|lia|constructor; [done|constructor; [done|constructor]]|]. intros i Hi. by apply free_above.
  - intros i Hi Hf. change (first_data _) with 3. destruct (decide (i < 64)).
    + pose proof (below_check _ _ i Hc ltac:(lia)) as Hb. simpl in Hb. rewrite Hf in Hb. simpl in Hb. apply Z.leb_le in Hb. lia.
    + rewrite free_above in Hf by (simpl; lia). done.
Defined.

Lemma disk64_ok : fs_ok disk64.
Proof. by apply disk_ok. Defined.
Lemma disk_full_ok : fs_ok disk_full.
Proof. by apply disk_ok. Defined.

Lemma file1_ok : file_ok disk64 file1 [4].
Proof.
  split; [|split; [simpl; lia|done]]. constructor; try done.
  - intros i Hi. unfold fblk. simpl. destruct (Z.ltb_spec i 12).
    + apply Z.eqb_eq, (below_check (fun i => direct_at (din file1) i =? default 0 ([4] !! Z.to_nat i)) 12 i); [done|lia].
    + by rewrite lookup_ge_None_2 by (simpl; lia).
  - intros b Hb. change (own file1 [4]) with [3; 4] in Hb. apply elem_of_cons in Hb as [->|Hb]; [by split; [split; [right|]|]|].
    apply list_elem_of_singleton in Hb as ->. by split; [split; [right|]|].
  - intros b Hb Hne. change (own file1 [4]) with [3; 4] in Hb. apply elem_of_cons in Hb as [->|Hb]; [done|].
    by apply list_elem_of_singleton in Hb as ->.
  - change (own file1 [4]) with [3; 4]. apply NoDup_cons. split; [by rewrite list_elem_of_singleton|apply NoDup_singleton].
Defined.

Lemma full_file_ok : map_ok disk_full (Sin (Din 0 SFS_TYPE_FILE 1 0 (replicate 12 0) 0) 3 false) [].
Proof.
  constructor; try done.
  - intros i Hi. unfold fblk. simpl. destruct (Z.ltb_spec i 12) as [Hlt|]; [|done].
    apply Z.eqb_eq, (below_check (fun i => default 0 (replicate 12 0 !! Z.to_nat i) =? 0) 12 i); [done|lia].
  - intros b Hb. apply list_elem_of_singleton in Hb as ->. by split; [split; [right|]|].
  - intros b Hb Hne. by apply list_elem_of_singleton in Hb as ->.
  - apply NoDup_singleton.
Defined.

Definition five : iobuf := iobuf_init [1; 2; 3; 4; 5] 5 4094.

Lemma sfs_write_correct_witness :
  exists x' s' bl', sfs_write five file1 disk64 = Ok (0, moved 5 five, x', s') /\
    fs_ok s' /\ file_ok s' x' bl' /\ size (din x') = 4099 /\ wrote disk64 [4] s' bl' 4094 [1; 2; 3; 4; 5] /\
    nfree s' + Z.of_nat (length (own x' bl')) = 61 /\ others_kept disk64 file1 [4] s'.
Proof.
  apply (sfs_write_correct disk64 file1 [4] five); [exact disk64_ok|exact file1_ok|unfold iob_ok; simpl; lia|simpl; lia|simpl; lia|simpl; lia|].
  vm_compute. discriminate.
Defined.

Lemma sfs_write_read_roundtrip_witness :
  exists x' s' iob', sfs_write five file1 disk64 = Ok (0, moved 5 five, x', s') /\
    sfs_read (iobuf_init [0; 0; 0; 0; 0] 5 4094) x' s' = Ok (0, iob', x', s') /\ io_buf iob' = [1; 2; 3; 4; 5] /\ io_resid iob' = 0.
Proof.
  apply (sfs_write_read_roundtrip disk64 file1 [4] five [0; 0; 0; 0; 0]);
    [exact disk64_ok|exact file1_ok|unfold iob_ok; simpl; lia|simpl; lia|simpl; lia|simpl; lia|vm_compute; discriminate|simpl; lia].
Defined.

Lemma sfs_read_correct_witness :
  sfs_read (iobuf_init (replicate 5 1) 5 4093) file1 disk64 = Ok (0, Iobuf [0; 7; 9; 1; 1] 3 4096 5 2, file1, disk64).
Proof.
  apply (sfs_read_correct disk64 file1 [4] (iobuf_init (replicate 5 1) 5 4093) disk64_ok file1_ok);
    [unfold iob_ok; simpl; lia|unfold SFS_MAX_FILE_SIZE; simpl; lia|simpl; lia].
Defined.

Lemma sfs_truncfile_correct_witness :
  exists x' s' bl', sfs_truncfile 60000 file1 disk64 = Ok (0, x', s') /\ fs_ok s' /\ file_ok s' x' bl' /\
    size (din x') = 60000 /\ dblocks (din x') = 15 /\
    (forall p, 0 <= p < 4096 * dblocks (din x') -> fbyte s' bl' p = fbyte disk64 [4] p) /\
    nfree s' + Z.of_nat (length (own x' bl')) = 61 /\ others_kept disk64 file1 [4] s' /\
    (forall c, used disk64 c -> c ∉ own file1 [4] -> c ∉ own x' bl') /\
    ino x' = 3 /\ nlinks (din x') = 1 /\ blocks s' = 64.
Proof.
  apply (sfs_truncfile_correct disk64 file1 [4] 60000); [exact disk64_ok|exact file1_ok|reflexivity|lia|right; vm_compute; discriminate].
Defined.

Lemma sfs_bmap_full_witness :
  exists s', sfs_bmap_load_nolock (Sin (Din 0 SFS_TYPE_FILE 1 0 (replicate 12 0) 0) 3 false) 0 disk_full =
      Ok (- E_NO_MEM, 0, Sin (Din 0 SFS_TYPE_FILE 1 0 (replicate 12 0) 0) 3 false, s') /\ fs_ok s' /\ nfree s' = 0 /\
    forall c, used disk_full c -> used s' c /\ block s' c = block disk_full c.
Proof. apply (sfs_bmap_full disk_full _ []); [exact disk_full_ok|exact full_file_ok|simpl; lia|left; reflexivity]. Defined.
