(* ===== verification/SysSfs.v ===== *)
(** * Files of SFS behind the system calls

    The regular files of SfsFile satisfy the contract of Sysfile, so its
    theorems hold of them.  The inodes in memory are indexed by the inode the
    file table points to; [answers] is what an open meets. *)
From S2P Require Import Prelude Libs Vmm IoBuf FileTable Vfs Sysfile SfsDisk SfsFile.

Record sfs_files := SfsFiles { vol : sfs; sins : gmap Z sfs_inode }.

Section sfs.
Variable answers : list Z -> sfs_files -> open_env.

(** Run an operation on the inode [n]. *)
Definition on_sin {A} (n : Z) (op : sfs_inode -> sfs -> res (A * sfs_inode * sfs)) (d : sfs_files) : res (A * sfs_files) :=
  match sins d !! n with
  | None => Panic
  | Some x => '(a, x, s) ← op x (vol d); Ok (a, SfsFiles s (<[n := x]> (sins d)))
  end.

(** [sfs_node_fileops]; a regular file has no [vop_getdirentry], and the
    macro that calls it asserts that there is one. *)
#[global] Instance sfs_node_fileops : InodeOps sfs_files := {|
  vop_read := fun n iob d => '(a, d) ← on_sin n (fun x s => '(r, iob, x, s) ← sfs_read iob x s; Ok ((r, iob), x, s)) d; Ok (a.1, a.2, d);
  vop_write := fun n iob d => '(a, d) ← on_sin n (fun x s => '(r, iob, x, s) ← sfs_write iob x s; Ok ((r, iob), x, s)) d; Ok (a.1, a.2, d);
  vop_fstat := fun n d =>
    match sins d !! n with
    | None => Panic
    | Some x => '(m, k, b, z) ← sfs_fstat x; Ok (0, [m; k; b; z])
    end;
  vop_fsync := fun n => on_sin n sfs_fsync;
  vop_tryseek := fun n p => on_sin n (sfs_tryseek p);
  vop_getdirentry := fun _ _ _ => Panic;
  open_answers := answers
|}.

(** The file [x] with data blocks [bl] can grow to [cap] bytes. *)
Definition sfs_holds (d : sfs_files) (n : Z) (b : list Z) (cap : Z) : Prop :=
  exists x bl, sins d !! n = Some x /\ fs_ok (vol d) /\ file_ok (vol d) x bl /\ b = fbytes (vol d) bl 0 (size (din x)) /\
    size (din x) <= cap <= 1036 * 4096 /\ (cap + 4095) / 4096 + 3 <= nfree (vol d) + Z.of_nat (length (own x bl)).

Lemma lookup_fbytes s bl off k i : 0 <= Z.of_nat i < k -> fbytes s bl off k !! i = Some (fbyte s bl (off + Z.of_nat i)).
Proof. intros Hi. unfold fbytes. rewrite list_lookup_fmap, lookup_seqZ_lt by lia. done. Qed.

Lemma fbytes_part s bl z off k : 0 <= z -> 0 <= off -> 0 <= k -> k <= z - off \/ k = 0 ->
  fbytes s bl off k = take (Z.to_nat k) (drop (Z.to_nat off) (fbytes s bl 0 z)).
Proof.
  intros Hz0 Ho Hk Hz. apply list_eq_same_length with (Z.to_nat k).
  - rewrite length_take, length_drop. pose proof (fbytes_length s bl 0 z Hz0). lia.
  - pose proof (fbytes_length s bl off k Hk). lia.
  - intros i a c Hi Ha Hc. rewrite lookup_take_lt, lookup_drop, lookup_fbytes in Hc by lia. rewrite lookup_fbytes in Ha by lia. simplify_eq. f_equal. lia.
Qed.

(** The bytes of a file after a write. *)
Lemma fbytes_splice s bl s' bl' z off data :
  0 <= off <= z -> wrote s bl s' bl' off data ->
  fbytes s' bl' 0 (Z.max z (off + Z.of_nat (length data))) =
    take (Z.to_nat off) (fbytes s bl 0 z) ++ data ++ drop (Z.to_nat (off + Z.of_nat (length data))) (fbytes s bl 0 z).
Proof.
  intros Ho Hw. pose proof (fbytes_length s bl 0 z ltac:(lia)) as Hl. apply list_eq_same_length with (Z.to_nat (Z.max z (off + Z.of_nat (length data)))).
  - rewrite !length_app, length_take, length_drop. lia.
  - pose proof (fbytes_length s' bl' 0 (Z.max z (off + Z.of_nat (length data))) ltac:(lia)). lia.
  - intros i a c Hi Ha Hc. rewrite lookup_fbytes in Ha by lia. injection Ha as <-. rewrite Hw by lia. rewrite Z.add_0_l.
    destruct (decide (Z.of_nat i < off)) as [H1|H1].
    { rewrite decide_False by lia. rewrite lookup_app_l, lookup_take_lt, lookup_fbytes in Hc by (rewrite ?length_take; lia). by simplify_eq. }
    rewrite lookup_app_r, length_take in Hc by (rewrite length_take; lia). replace (i - Z.to_nat off `min` length (fbytes s bl 0 z))%nat with (Z.to_nat (Z.of_nat i - off)) in Hc by lia.
    destruct (decide (off <= Z.of_nat i < off + Z.of_nat (length data))) as [H2|H2].
    { rewrite lookup_app_l in Hc by lia. by rewrite Hc. }
    rewrite lookup_app_r, lookup_drop, lookup_fbytes in Hc by lia. simplify_eq. f_equal. lia.
Qed.

#[global] Program Instance sfs_files_laws : InodeLaws sfs_files := {|
  holds := sfs_holds;
  limit := SFS_MAX_FILE_SIZE
|}.
Next Obligation. done. Qed.
Next Obligation.
  intros d n b cap iob (x & bl & Hx & Hfs & Hf & -> & Hc & Hcap) Hio Hp Ho Hl. pose proof Hf as (_ & Hsz & _). unfold SFS_MAX_FILE_SIZE in Hl.
  pose proof (fbytes_length (vol d) bl 0 (size (din x)) ltac:(lia)) as Hfl. cbn [vop_read sfs_node_fileops]. unfold on_sin. rewrite Hx.
  rewrite (read_spec (vol d) x bl iob) by (unfold SFS_MAX_FILE_SIZE; done || lia). cbn [mbind res_bind fst snd].
  replace (Z.of_nat (length (fbytes (vol d) bl 0 (size (din x))))) with (size (din x)) by lia.
  rewrite (fbytes_part (vol d) bl (size (din x))) by lia. do 2 f_equal. rewrite insert_id by done. by destruct d.
Qed.
Next Obligation.
  intros d n b cap iob (x & bl & Hx & Hfs & Hf & -> & Hc & Hcap) Hio Hp Ho Hl. pose proof Hf as (_ & Hsz & _).
  pose proof (fbytes_length (vol d) bl 0 (size (din x)) ltac:(lia)) as Hfl. pose proof (peek_length (io_resid iob) iob Hio ltac:(unfold iob_ok in Hio; lia)) as Hpl.
  assert (Hown : Z.of_nat (length (own x bl)) <= Z.of_nat (length bl) + 2).
  { unfold own. destruct (indirect (din x) =? 0); simpl; lia. }
  destruct (write_spec (vol d) x bl iob) as (x' & s' & bl' & Hw & Hfs' & Hf' & Hsz' & Hby & Hn & _); try done; [lia..| |].
  { pose proof (Z.div_le_mono (io_offset iob + io_resid iob + 4095) (cap + 4095) 4096). lia. }
  eexists. split.
  { cbn [vop_write sfs_node_fileops]. unfold on_sin. rewrite Hx, Hw. done. }
  exists x', bl'. cbn [vol sins]. split_and!; try done; try lia.
  - apply lookup_insert_eq.
  - rewrite Hsz'. replace (io_offset iob + io_resid iob) with (io_offset iob + Z.of_nat (length (peek (io_resid iob) iob))) at 2 by lia.
    rewrite (fbytes_splice (vol d) bl s' bl' (size (din x))) by (done || lia). by rewrite Hpl.
Qed.
Next Obligation.
  intros d n b cap p (x & bl & Hx & Hfs & Hf & -> & Hc & Hcap) Hp. pose proof Hf as (_ & Hsz & _).
  pose proof (fbytes_length (vol d) bl 0 (size (din x)) ltac:(lia)) as Hfl. cbn [vop_tryseek sfs_node_fileops]. unfold on_sin. rewrite Hx.
  unfold sfs_tryseek, SFS_MAX_FILE_SIZE. destruct (Z.ltb_spec p 0); [lia|]. destruct (Z.leb_spec (1024 * 1024 * 128) p); [lia|]. cbn [orb].
  destruct (Z.ltb_spec (size (din x)) p); [lia|]. cbn [mbind res_bind]. rewrite insert_id by done. by destruct d.
Qed.
Next Obligation.
  intros d n b cap (x & bl & Hx & Hfs & Hf & -> & Hc & Hcap). pose proof Hf as (_ & Hsz & _).
  pose proof (fbytes_length (vol d) bl 0 (size (din x)) ltac:(lia)) as Hfl. unfold SFS_MAX_FILE_SIZE. lia.
Qed.
End sfs.

(** ** A process with one open file *)
Definition answers0 (path : list Z) (d : sfs_files) : open_env := OpenEnv (- E_NOENT) (- E_NOENT) 0 0 0 0 0 0 0.
Definition one_file : sfs_files := SfsFiles disk64 {[ 77 := file1 ]}.
Definition table1 (p : Z) : fstate := FState (FileTable.Vfs {[ 77 := Inode 1 1 ]} []) [File FD_OPENED true true 0 p 77 1] 1.
Definition process1 (p : Z) : sys sfs_files :=
  Sys (table1 p) [] 0 0 (Some Vmm.demo) (fun a => a mod 256) one_file [Some 0xC1000000; Some 0xC1002000] [].
Definition file1_bytes : list Z := fbytes disk64 [4] 0 4096.
#[local] Instance fops : InodeOps sfs_files := sfs_node_fileops answers0.

Lemma process1_ready p : ready (IL := sfs_files_laws answers0) (process1 p) 0 77 p file1_bytes 200000 0xC1000000 true true.
Proof.
  constructor; try done.
  - constructor; try done; [simpl; lia|]. exists 1. done.
  - exists file1, [4]. split_and!; try done; try (simpl; lia); [exact disk64_ok|exact file1_ok].
  - by eexists.
  - apply not_elem_of_nil.
Defined.

Lemma demo_range base len write : 0x400000 <= base -> base + len <= 0x403000 -> access (Some Vmm.demo) Vmm.demo_areas base len write.
Proof.
  intros H1 H2. split; [exact Vmm.demo_rep|]. constructor; [by repeat constructor|unfold USERBASE, USERTOP; lia|].
  intros a Ha. exists (Vma 64 0x400000 0x403000 3). split; [apply list_elem_of_fmap; eexists (100, _); split; [done|by left]|].
  split_and!; [apply contains_spec; simpl; lia|by destruct write|done].
Defined.

Lemma sysfile_read_correct_witness :
  exists s', sysfile_read 0 0x400000 100 (process1 4090) = Ok (6, s') /\ load (ram s') 0x400000 6 = [0; 0; 0; 0; 7; 9].
Proof.
  destruct (sysfile_read_correct (IL := sfs_files_laws answers0) (process1 4090) Vmm.demo_areas 0 77 4090 file1_bytes 200000 0xC1000000 0x400000 100 true)
    as (s' & He & _ & _ & _ & _ & Hb & _); [apply process1_ready|apply demo_range; lia|left; done|lia|lia|done|].
  change (avail file1_bytes 4090 100) with 6 in *. exists s'. split; [exact He|]. rewrite Hb. vm_compute. reflexivity.
Defined.

Lemma sysfile_write_read_roundtrip_witness :
  exists s1 s3, sysfile_write 0 0x400000 5000 (process1 4094) = Ok (5000, s1) /\
    sysfile_seek 0 4094 LSEEK_SET s1 = Ok (0, set_ft (table1 4094) s1) /\
    sysfile_read 0 0x401800 5000 (set_ft (table1 4094) s1) = Ok (5000, s3) /\
    load (ram s3) 0x401800 5000 = load (fun a => a mod 256) 0x400000 5000.
Proof.
  destruct (sysfile_write_read_roundtrip (IL := sfs_files_laws answers0) (process1 4094) Vmm.demo_areas 0 77 4094 file1_bytes 200000
      0xC1000000 0xC1002000 [] 0x400000 0x401800 5000)
    as (s1 & s3 & Hw & _ & Hsk & Hr & Hb & _); [apply process1_ready|done|done|apply not_elem_of_nil|apply demo_range; lia|apply demo_range; lia|left; done|left; done|lia|
      |lia|].
  { change (length file1_bytes) with (Z.to_nat 4096). lia. }
  exists s1, s3. split_and!; [exact Hw|exact Hsk|exact Hr|exact Hb].
Defined.

Lemma sysfile_no_leak_witness : no_leak (sysfile_link 0x400000 0x400100) (process1 0).
Proof.
  apply (sysfile_no_leak (process1 0) 0 0 0 0x400000 0x400100 0). split; [|apply (bool_decide_unpack _); by vm_compute].
  apply (bool_decide_unpack _). by vm_compute.
Defined.

Lemma sysfile_read_bad_buffer_witness :
  exists s', sysfile_read 0 0x500000 100 (process1 4090) = Ok (- E_INVAL, s') /\ ft s' = table1 4096.
Proof.
  destruct (sysfile_read_bad_buffer (IL := sfs_files_laws answers0) (process1 4090) Vmm.demo Vmm.demo_areas 0 77 4090 file1_bytes 200000 0xC1000000 0x500000 100 true)
    as (s' & He & Hf & _); [apply process1_ready|done|exact Vmm.demo_rep|by repeat constructor|lia|lia| | |done|].
  { intros v Hv (Hc & Ha & _). apply contains_spec in Hc. apply list_elem_of_fmap in Hv as ([x y] & -> & Hin).
    apply elem_of_cons in Hin as [E|Hin]; [simplify_eq/=; lia|]. apply list_elem_of_singleton in Hin. by simplify_eq/=. }
  { change (length file1_bytes) with (Z.to_nat 4096). lia. }
  exists s'. split; [exact He|]. rewrite Hf. reflexivity.
Defined.

(** Listing a descriptor that is open on a regular file stops the kernel. *)
Lemma getdirentry_file_panics : sysfile_getdirentry 0 0x400000 (process1 0) = Panic.
Proof. vm_compute. reflexivity. Qed.
