(* ===== verification/ExecSfs.v ===== *)
(** * An executable on a disk

    A concrete file system with one executable file, and the state of a
    process that is about to run it: the theorems of Exec apply. *)
From S2P Require Import Prelude Libs Bitmap Vmm IoBuf FileTable Vfs Sysfile Exec SfsDisk SfsFile SysSfs.

(** One segment: six bytes at 0x800054, 5000 bytes in memory. *)
Definition elf_bytes : list Z :=
  le32_bytes ELF_MAGIC ++ replicate 20 0 ++ le32_bytes 0x800054 ++ le32_bytes 52 ++ replicate 12 0 ++ [1; 0] ++ replicate 6 0 ++
  le32_bytes 1 ++ le32_bytes 84 ++ le32_bytes 0x800054 ++ le32_bytes 0 ++ le32_bytes 6 ++ le32_bytes 5000 ++ le32_bytes 5 ++ le32_bytes 4096 ++
  [144; 144; 195; 1; 2; 3].

Definition elf_disk : sfs :=
  Sfs 64 59 [] false (Bitmap 64 2 [0xFFFFFFE0; 0xFFFFFFFF]) {[ 4 := list_to_map (zip (seqZ 0 90) elf_bytes) ]} [].

Definition elf_fs : sfs_files := SfsFiles elf_disk {[ 77 := file1 ]}.
Definition elf_file : list Z := fbytes elf_disk [4] 0 4096.
#[local] Instance elf_ops : InodeOps sfs_files := sfs_node_fileops answers0.
#[local] Instance elf_laws : InodeLaws sfs_files := sfs_files_laws answers0.

Definition elf_frames : list Z := (fun i => 0xC2000000 + 4096 * i) <$> seqZ 1 6.
Definition elf_tframes : list Z := (fun i => 0xC2000000 + 4096 * i) <$> seqZ 7 7.
Definition elf_supplies : supplies := Supplies (Some <$> (0xC2000000 :: elf_frames)) (Some <$> elf_tframes) ∅ true.

(** The kernel's copy of the argument "ls" is at 0xC3000000. *)
Definition elf_process : sys sfs_files :=
  Sys (table1 0) [] 0 0 None (fun a => if a =? 0xC3000000 then 108 else if a =? 0xC3000001 then 115 else 0) elf_fs (replicate 4 (Some 0xC1000000)) [].
Definition elf_state : est sfs_files := Est elf_process (mm_create 64 ∅ []) ∅ elf_supplies ∅.
Definition elf_mm : vmst := mm_create 64 ∅ [300; 400].
Definition elf_ph : proghdr := Proghdr 1 84 0x800054 6 5000 5.

Lemma elf_disk_ok : fs_ok elf_disk.
Proof. by apply disk_ok. Defined.

Lemma elf_file_ok : file_ok elf_disk file1 [4].
Proof.
  split; [|split; [simpl; lia|done]]. constructor; try done.
  - intros i Hi. unfold fblk. simpl. destruct (Z.ltb_spec i 12).
    + apply Z.eqb_eq, (below_check (fun i => direct_at (din file1) i =? default 0 ([4] !! Z.to_nat i)) 12 i); [done|lia].
    + by rewrite lookup_ge_None_2 by (simpl; lia).
  - intros x Hb. change (own file1 [4]) with [3; 4] in Hb. apply elem_of_cons in Hb as [->|Hb]; [by split; [split; [right|]|]|].
    apply list_elem_of_singleton in Hb as ->. by split; [split; [right|]|].
  - intros x Hb Hne. change (own file1 [4]) with [3; 4] in Hb. apply elem_of_cons in Hb as [->|Hb]; [done|].
    by apply list_elem_of_singleton in Hb as ->.
  - change (own file1 [4]) with [3; 4]. apply NoDup_cons. split; [by rewrite list_elem_of_singleton|apply NoDup_singleton].
Defined.

Lemma kpage_check k : (k mod PGSIZE =? 0) && (KERNBASE <=? k) && (k + PGSIZE <=? KERNTOP) = true -> kpage k.
Proof. intros [[H1%Z.eqb_eq H2%Z.leb_le]%andb_true_iff H3%Z.leb_le]%andb_true_iff. done. Qed.

Lemma elf_layout : layout 0xC1000000 0xC4000000 [0xC3000000] elf_tframes (new_space elf_mm elf_state) (0xC2000000 :: elf_frames).
Proof.
  constructor.
  - exists []. by rewrite app_nil_r.
  - exists 0%nat, []. split; [by rewrite app_nil_r|]. split; [vm_compute; lia|]. done.
  - intros d. cbn [pages frames tables new_space set_tables]. rewrite lookup_empty. split; [by intros [? ?]|].
    intros (la & Hla & _). rewrite lookup_empty in Hla. by destruct Hla.
  - apply (bool_decide_unpack _). by vm_compute.
  - assert (Hall : forallb (fun k => (k mod PGSIZE =? 0) && (KERNBASE <=? k) && (k + PGSIZE <=? KERNTOP) && negb (k =? 0xC1000000) && negb (k =? 0xC4000000) && negb (k =? 0xC3000000))
      (0xC2000000 :: elf_frames) = true) by (by vm_compute).
    intros k Hk. rewrite forallb_forall in Hall. specialize (Hall k (proj1 (list_elem_of_In _ _) Hk)). apply andb_true_iff in Hall as [Hall H3]. apply andb_true_iff in Hall as [Hall H2].
    apply andb_true_iff in Hall as [Hall H1]. apply negb_true_iff, Z.eqb_neq in H1, H2, H3. split_and!; try done; [by apply kpage_check|]. by rewrite list_elem_of_singleton.
  - intros la x Hx. cbn [pages new_space set_tables] in Hx. by rewrite lookup_empty in Hx.
  - intros la la' x x' Hx. cbn [pages new_space set_tables] in Hx. by rewrite lookup_empty in Hx.
Defined.

Lemma elf_reader : reader (IL := elf_laws) 0 77 elf_file 200000 true 0xC1000000 elf_state 4.
Proof.
  constructor.
  - exists 0. split; [|reflexivity]. constructor; [reflexivity|cbn; lia|reflexivity|exists 1; split; [lia|reflexivity]|reflexivity].
  - reflexivity.
  - exists file1, [4]. split; [reflexivity|]. split; [exact elf_disk_ok|]. split; [exact elf_file_ok|]. split; [reflexivity|]. split; [cbn; lia|]. vm_compute. discriminate.
  - exists []. by rewrite app_nil_r.
  - apply not_elem_of_nil.
Defined.

Lemma elf_mm_rep : rep elf_mm [] /\ mm_count (mm elf_mm) = 0.
Proof. split; [exact Vmm.demo_empty_rep|reflexivity]. Defined.

Lemma elf_length : length elf_file = Z.to_nat 4096.
Proof. reflexivity. Qed.

Lemma elf_ph_of : ph_of elf_file 52 0 = elf_ph.
Proof. vm_compute. reflexivity. Qed.

Lemma elf_segs : segs elf_file 52 (Z.to_nat 1) 0 = [elf_ph].
Proof. vm_compute. reflexivity. Qed.

Lemma elf_pages : all_pages [elf_ph] = 2%nat.
Proof. vm_compute. reflexivity. Qed.

Lemma elf_args : args_size ((fun k => arg_at k elf_state) <$> [0xC3000000]) = 3.
Proof. vm_compute. reflexivity. Qed.

Lemma elf_header : Elfhdr ELF_MAGIC 0x800054 52 1 = elf_dec (part elf_file 0 ELFHDR_SIZE).
Proof. vm_compute. reflexivity. Qed.

Lemma elf_byte2 : elf_file !! Z.to_nat (p_offset elf_ph + (0x800056 - p_va elf_ph)) = Some 195.
Proof. vm_compute. reflexivity. Qed.

#[local] Opaque elf_file arg_at.

Lemma elf_program :
  program (IL := elf_laws) 0 77 elf_file 200000 true 0xC1000000 0xC4000000 [0xC3000000] elf_tframes 52 elf_state elf_mm (0xC4000000, 0xC4000100) 0xC2000000 elf_frames 4 (Elfhdr ELF_MAGIC 0x800054 52 1).
Proof.
  constructor; cbn [e_phnum e_phoff e_magic fst snd]; rewrite ?elf_segs, ?elf_pages.
  - exact elf_reader.
  - exact elf_layout.
  - exact elf_mm_rep.
  - unfold ELFHDR_SIZE, PROGHDR_SIZE, PGSIZE. lia.
  - split_and!; [exact elf_header|reflexivity|reflexivity|lia|lia].
  - rewrite elf_length. unfold ELFHDR_SIZE, PROGHDR_SIZE. lia.
  - intros j Hj _. assert (j = 0) as -> by lia. rewrite elf_ph_of. split; [cbn; lia|]. intros _.
    constructor; [by vm_compute|by vm_compute|cbn; lia|]. rewrite elf_length. cbn. lia.
  - split; [constructor|exact I].
  - cbn. lia.
  - split; [apply (bool_decide_unpack _); by vm_compute|]. intros t Ht Hin. apply list_elem_of_In in Ht, Hin.
    assert (Hall : forallb (fun t => forallb (fun k => negb (t =? k)) (0xC2000000 :: elf_frames)) elf_tframes = true) by (by vm_compute).
    rewrite forallb_forall in Hall. specialize (Hall t Ht). rewrite forallb_forall in Hall. specialize (Hall t Hin). by rewrite Z.eqb_refl in Hall.
  - vm_compute. lia.
  - cbn. lia.
  - by vm_compute.
  - rewrite elf_args. by vm_compute.
Defined.

