(* ===== verification/Printfmt.v ===== *)
(** * Formatted output

    libs/printfmt.c: [vprintfmt] interprets a format string and hands every
    character to a [putch] function; [vsnprintf] lets it write into a buffer.

    [m] is the memory that holds the format, the arguments and the strings
    they point to; on this machine a [va_list] is the address of the next
    argument word.  The state [S] and [putch] are those of the caller.  The
    memory a caller's [putch] writes to is apart from [m], as it is for the
    callers in the kernel.

    Every loop over a string runs on fuel: more than the longest string is
    enough ([vprintfmt_total]). *)
From stdpp Require Import strings.
From S2P Require Import Prelude Libs Sysfile.

Definition MAXERROR : Z := 24.

(** The strings of the source, as bytes. *)
Definition bytes (s : string) : list Z := (fun b => Z.of_N (Ascii.N_of_ascii b)) <$> String.list_ascii_of_string s.

(** [error_string]; NULL where the table has no entry. *)
Definition error_string : list (option (list Z)) :=
  [None; Some (bytes "unspecified error"); Some (bytes "bad process"); Some (bytes "invalid parameter"); Some (bytes "out of memory");
   Some (bytes "out of processes"); Some (bytes "segmentation fault"); None; Some (bytes "invalid elf file"); Some (bytes "process is killed");
   Some (bytes "panic failure"); None; None; Some (bytes "no such device"); Some (bytes "device not available"); Some (bytes "device/file is busy");
   Some (bytes "no such file or directory"); Some (bytes "is a directory"); Some (bytes "not a directory"); Some (bytes "cross device link");
   Some (bytes "unimplemented feature"); Some (bytes "illegal seek"); Some (bytes "too many files are open");
   Some (bytes "file or directory already exists"); Some (bytes "directory is not empty")].

Definition i64 (z : Z) : Z := (z + 2 ^ 63) mod 2 ^ 64 - 2 ^ 63.

(** A plain [char] as an [int]. *)
Definition schar (c : Z) : Z := if c <? 128 then c else c - 256.

(** A constant string of the program, at address 0 of a memory of its own. *)
Definition const (l : list Z) : mem := fun a => default 0 (l !! Z.to_nat a).

Definition digit_char (d : Z) : Z := default 0 (bytes "0123456789abcdef" !! Z.to_nat d).

(** The locals of an escape sequence. *)
Record opts := Opts { padc : Z; width : Z; precision : Z; lflag : Z; altflag : bool }.
Definition opts0 : opts := Opts 32 (-1) (-1) 0 false.
Definition set_padc c o : opts := Opts c (width o) (precision o) (lflag o) (altflag o).
Definition set_alt o : opts := Opts (padc o) (width o) (precision o) (lflag o) true.
Definition inc_lflag o : opts := Opts (padc o) (width o) (precision o) (lflag o + 1) (altflag o).
Definition dot o : opts := if width o <? 0 then Opts (padc o) 0 (precision o) (lflag o) (altflag o) else o.
Definition process_precision (p : Z) o : opts :=
  if width o <? 0 then Opts (padc o) p (-1) (lflag o) (altflag o) else Opts (padc o) (width o) p (lflag o) (altflag o).

(** The value and the next argument. *)
Definition getuint (m : mem) (ap lfl : Z) : Z * Z :=
  if 2 <=? lfl then (le32_at m ap + 2 ^ 32 * le32_at m (ap + 4), ap + 8) else (le32_at m ap, ap + 4).
Definition getint (m : mem) (ap lfl : Z) : Z * Z :=
  if 2 <=? lfl then (i64 (le32_at m ap + 2 ^ 32 * le32_at m (ap + 4)), ap + 8) else (i32 (le32_at m ap), ap + 4).

(** [strnlen] with the length as a number. *)
Fixpoint strnlen_z (fuel : nat) (m : mem) (s len cnt : Z) : res Z :=
  match fuel with
  | O => Spin
  | S fuel => if (cnt <? len) && negb (m s =? 0) then strnlen_z fuel m (s + 1) len (cnt + 1) else Ok cnt
  end.

(** The digits of a width field; [fmt] points behind [ch]. *)
Fixpoint number_field (fuel : nat) (m : mem) (p ch fmt : Z) : res (Z * Z) :=
  match fuel with
  | O => Spin
  | S fuel =>
      let p := i32 (p * 10 + ch - 48) in
      let ch := m fmt in
      if (ch <? 48) || (57 <? ch) then Ok (p, fmt) else number_field fuel m p ch (fmt + 1)
  end.

(** Back to the character behind the last '%' before [fmt]. *)
Fixpoint rewind (fuel : nat) (m : mem) (fmt : Z) : res Z :=
  match fuel with O => Spin | S fuel => if m (fmt - 1) =? 37 then Ok fmt else rewind fuel m (fmt - 1) end.

Section putch.
Context {T : Type} (putch : Z -> T -> T).

Fixpoint pads (k : nat) (c : Z) (s : T) : T := match k with O => s | S k => pads k c (putch c s) end.

Fixpoint printnum (fuel : nat) (num base width padc : Z) (s : T) : res T :=
  match fuel with
  | O => Spin
  | S fuel =>
      match do_div num base with
      | None => Panic
      | Some (result, rem) =>
          s ← (if num >=? base then printnum fuel result base (width - 1) padc s
               else Ok (pads (Z.to_nat (width - 1)) padc s));
          Ok (putch (digit_char rem) s)
      end
  end.

(** [number]: at most 64 digits. *)
Definition number (o : opts) (num base : Z) (s : T) : res T := printnum 65 num base (width o) (padc o) s.

Definition signed (o : opts) (num : Z) (s : T) : res T :=
  let num := u64 num in
  if i64 num <? 0 then number o (u64 (- i64 num)) 10 (putch 45 s) else number o num 10 s.

(** The characters of a string; the width that is left. *)
Fixpoint string_loop (fuel : nat) (o : opts) (m : mem) (p prec wid : Z) (s : T) : res (Z * T) :=
  match fuel with
  | O => Spin
  | S fuel =>
      let ch := schar (m p) in
      if negb (ch =? 0) && ((prec <? 0) || (prec - 1 >=? 0)) then
        let s := if altflag o && ((ch <? 32) || (126 <? ch)) then putch 63 s else putch ch s in
        string_loop fuel o m (p + 1) (if prec <? 0 then prec else prec - 1) (wid - 1) s
      else Ok (wid, s)
  end.

Definition string_out (fuel : nat) (o : opts) (m : mem) (p : Z) (s : T) : res T :=
  '(wid, s) ← (if (width o >? 0) && negb (padc o =? 45) then
                 n ← strnlen_z fuel m p (u32 (precision o)) 0;
                 let wid := i32 (width o - n) in
                 Ok (if wid >? 0 then (0, pads (Z.to_nat wid) (padc o) s) else (wid, s))
               else Ok (width o, s));
  '(wid, s) ← string_loop fuel o m p (precision o) wid s;
  Ok (pads (Z.to_nat wid) 32 s).

(** [printfmt(putch, fd, putdat, "error %d", err)] and [printfmt(putch, fd,
    putdat, "%s", p)]; the index wraps as the address of the entry does. *)
Definition error_out (fuel : nat) (err : Z) (s : T) : res T :=
  let err := if err <? 0 then i32 (- err) else err in
  match (if err >? MAXERROR then None else mjoin (error_string !! Z.to_nat (u32 (4 * err) / 4))) with
  | None => s ← string_out fuel opts0 (const (bytes "error ")) 0 s; signed opts0 err s
  | Some p => string_out fuel opts0 (const p) 0 s
  end.

(** From the character behind a '%' to the end of the escape sequence: the
    new [fmt] and [ap]. *)
Fixpoint reswitch (k fuel : nat) (o : opts) (m : mem) (fmt ap : Z) (s : T) : res (Z * Z * T) :=
  match k with
  | O => Spin
  | S k =>
      let ch := m fmt in
      let fmt := fmt + 1 in
      if ch =? 45 then reswitch k fuel (set_padc 45 o) m fmt ap s
      else if ch =? 48 then reswitch k fuel (set_padc 48 o) m fmt ap s
      else if (49 <=? ch) && (ch <=? 57) then
        '(p, fmt) ← number_field fuel m 0 ch fmt; reswitch k fuel (process_precision p o) m fmt ap s
      else if ch =? 42 then reswitch k fuel (process_precision (i32 (le32_at m ap)) o) m fmt (ap + 4) s
      else if ch =? 46 then reswitch k fuel (dot o) m fmt ap s
      else if ch =? 35 then reswitch k fuel (set_alt o) m fmt ap s
      else if ch =? 108 then reswitch k fuel (inc_lflag o) m fmt ap s
      else if ch =? 99 then Ok (fmt, ap + 4, putch (i32 (le32_at m ap)) s)
      else if ch =? 101 then s ← error_out 40 (i32 (le32_at m ap)) s; Ok (fmt, ap + 4, s)
      else if ch =? 115 then
        let p := le32_at m ap in
        s ← (if p =? 0 then string_out 8 o (const (bytes "(null)")) 0 s else string_out fuel o m p s);
        Ok (fmt, ap + 4, s)
      else if ch =? 100 then let '(num, ap) := getint m ap (lflag o) in s ← signed o num s; Ok (fmt, ap, s)
      else if ch =? 117 then let '(num, ap) := getuint m ap (lflag o) in s ← number o num 10 s; Ok (fmt, ap, s)
      else if ch =? 111 then let '(num, ap) := getuint m ap (lflag o) in s ← number o num 8 s; Ok (fmt, ap, s)
      else if ch =? 112 then s ← number o (le32_at m ap) 16 (putch 120 (putch 48 s)); Ok (fmt, ap + 4, s)
      else if ch =? 120 then let '(num, ap) := getuint m ap (lflag o) in s ← number o num 16 s; Ok (fmt, ap, s)
      else if ch =? 37 then Ok (fmt, ap, putch ch s)
      else fmt ← rewind fuel m (fmt - 1); Ok (fmt, ap, putch 37 s)
  end.

(** Up to the next '%', or [None] at the end of the format. *)
Fixpoint literal (fuel : nat) (m : mem) (fmt : Z) (s : T) : res (option Z * T) :=
  match fuel with
  | O => Spin
  | S fuel =>
      let ch := m fmt in
      if negb (ch =? 37) then if ch =? 0 then Ok (None, s) else literal fuel m (fmt + 1) (putch ch s)
      else Ok (Some (fmt + 1), s)
  end.

Fixpoint vprintfmt_loop (k fuel : nat) (m : mem) (fmt ap : Z) (s : T) : res T :=
  match k with
  | O => Spin
  | S k =>
      '(o, s) ← literal fuel m fmt s;
      match o with
      | None => Ok s
      | Some fmt => '(fmt, ap, s) ← reswitch fuel fuel opts0 m fmt ap s; vprintfmt_loop k fuel m fmt ap s
      end
  end.
Definition vprintfmt (fuel : nat) (m : mem) (fmt ap : Z) (s : T) : res T := vprintfmt_loop fuel fuel m fmt ap s.
End putch.

(** ** snprintf *)
Definition E_INVAL : Z := 3.

Record sprintbuf := Sb { sb_mem : mem; buf : Z; ebuf : Z; cnt : Z }.
Definition sprintputch (ch : Z) (b : sprintbuf) : sprintbuf :=
  let b := Sb (sb_mem b) (buf b) (ebuf b) (i32 (cnt b + 1)) in
  if buf b <? ebuf b then Sb (upd (sb_mem b) (buf b) (ch mod 256)) (buf b + 1) (ebuf b) (cnt b) else b.

(** [out]: the memory the buffer is in. *)
Definition vsnprintf (fuel : nat) (m : mem) (str size fmt ap : Z) (out : mem) : res (Z * mem) :=
  let b := Sb out str (u32 (str + size - 1)) 0 in
  if (str =? 0) || (buf b >? ebuf b) then Ok (- E_INVAL, out)
  else
    b ← vprintfmt sprintputch fuel m fmt ap b;
    Ok (cnt b, upd (sb_mem b) (buf b) 0).

(** ** What is printed *)
Definition run {T} (putch : Z -> T -> T) (s : T) (l : list Z) : T := foldl (fun s c => putch c s) s l.

(** The digits of a number, the most significant first. *)
Fixpoint digits (fuel : nat) (base n : Z) : list Z :=
  match fuel with
  | O => []
  | S fuel => if n <? base then [n] else digits fuel base (n / base) ++ [n mod base]
  end.

(** A number in a field: the padding and the digits. *)
Definition numeral (base n w pad : Z) : list Z :=
  let ds := digit_char <$> digits 65 base n in replicate (Z.to_nat (w - Z.of_nat (length ds))) pad ++ ds.
Definition decimal (n w pad : Z) : list Z := if n <? 0 then 45 :: numeral 10 (- n) w pad else numeral 10 n w pad.

(** A string in a field: cut to the precision, padded to the width. *)
Definition shown (alt : bool) (c : Z) : Z := if alt && ((schar c <? 32) || (126 <? schar c)) then 63 else schar c.
Definition cut (prec : Z) (l : list Z) : list Z := if prec <? 0 then l else take (Z.to_nat prec) l.
Definition field (o : opts) (l : list Z) : list Z :=
  let body := shown (altflag o) <$> cut (precision o) l in
  let k := Z.to_nat (width o - Z.of_nat (length body)) in
  if padc o =? 45 then body ++ replicate k 32 else replicate k (padc o) ++ body.

Definition error_text (err : Z) : list Z :=
  default (bytes "error " ++ decimal (i32 (Z.abs err)) (-1) 32)
    (if i32 (Z.abs err) >? MAXERROR then None else mjoin (error_string !! Z.to_nat (u32 (4 * i32 (Z.abs err)) / 4))).

(** ** Output as a sequence of characters *)
Section run.
Context {T : Type} (putch : Z -> T -> T).
Implicit Type s : T.

Lemma run_app s l1 l2 : run putch s (l1 ++ l2) = run putch (run putch s l1) l2.
Proof. apply foldl_app. Qed.

Lemma run_snoc s l c : run putch s (l ++ [c]) = putch c (run putch s l).
Proof. by rewrite run_app. Qed.

Lemma pads_run k c s : pads putch k c s = run putch s (replicate k c).
Proof. revert s. induction k as [|k IH]; intros s; [done|]. cbn. by rewrite IH. Qed.
End run.

(** [do_div] is the division of unsigned 64-bit numbers. *)
Lemma do_div_spec n base : 0 <= n < 2 ^ 64 -> 0 < base < 2 ^ 32 -> do_div n base = Some (n / base, n mod base).
Proof.
  intros Hn Hb. unfold do_div. assert (Hs : Z.shiftr n 32 = n / 2 ^ 32) by (apply Z.shiftr_div_pow2; lia).
  pose proof (Z.div_mod n (2 ^ 32) ltac:(lia)) as Hdm. fold (u32 n) in Hdm. pose proof (u32_range n) as Hl.
  rewrite Hs. set (h := n / 2 ^ 32) in *. set (low := u32 n) in *. clearbody h low. assert (Hh : 0 <= h < 2 ^ 32) by lia.
  replace (if negb (h =? 0) then (h mod base, h / base) else (h, h)) with (h mod base, h / base)
    by (destruct (Z.eqb_spec h 0) as [->|]; cbn [negb]; [by rewrite Z.mod_0_l, Z.div_0_l by lia|done]).
  pose proof (Z.div_mod h base ltac:(lia)) as Hb1. pose proof (Z.mod_pos_bound h base ltac:(lia)) as Hb2.
  assert (Hq : (h mod base * 2 ^ 32 + low) / base < 2 ^ 32) by (apply Z.div_lt_upper_bound; nia).
  rewrite (proj2 (Z.eqb_neq base 0)), Z.geb_leb, (proj2 (Z.leb_gt _ _)) by lia. cbn [orb].
  assert (E : n = (h mod base * 2 ^ 32 + low) + (h / base * 2 ^ 32) * base) by nia.
  rewrite E, Z.div_add, Z.mod_add by lia. do 2 f_equal. lia.
Qed.

Lemma printnum_run {T} (putch : Z -> T -> T) base pad fuel : forall num w s, 2 <= base <= 16 -> 0 <= num < 2 ^ 64 -> (0 < fuel)%nat -> num < base ^ Z.of_nat fuel ->
  let ds := digit_char <$> digits fuel base num in
  printnum putch fuel num base w pad s = Ok (run putch s (replicate (Z.to_nat (w - Z.of_nat (length ds))) pad ++ ds)).
Proof.
  induction fuel as [|fuel IH]; intros num w s Hb Hn H0 Hf; [lia|]. cbn [printnum digits]. rewrite do_div_spec, Z.geb_leb by lia.
  destruct (Z.ltb_spec num base) as [Hlt|Hge].
  - rewrite (proj2 (Z.leb_gt _ _)) by lia. cbn [mbind res_bind fmap list_fmap length].
    rewrite pads_run, <- run_snoc, Z.mod_small by lia. done.
  - rewrite (proj2 (Z.leb_le _ _)) by lia. rewrite Nat2Z.inj_succ, Z.pow_succ_r in Hf by lia.
    assert (num / base < base ^ Z.of_nat fuel) by (apply Z.div_lt_upper_bound; lia).
    destruct fuel as [|f]; [change (base ^ Z.of_nat 0) with 1 in Hf; lia|]. set (fuel := S f) in *.
    assert (0 <= num / base < 2 ^ 64) by (split; [apply Z.div_pos; lia|apply Z.div_lt_upper_bound; lia]).
    rewrite IH by (unfold fuel in *; lia). cbn [mbind res_bind]. rewrite <- run_snoc, fmap_app, length_app. cbn [fmap list_fmap length].
    rewrite app_assoc. do 4 f_equal. f_equal. lia.
Qed.

Lemma number_run {T} (putch : Z -> T -> T) o num base s : 2 <= base <= 16 -> 0 <= num < 2 ^ 64 ->
  number putch o num base s = Ok (run putch s (numeral base num (width o) (padc o))).
Proof.
  intros Hb Hn. unfold number. apply printnum_run; [lia..|]. apply Z.lt_le_trans with (2 ^ 64); [lia|].
  change (Z.of_nat 65) with 65. transitivity (2 ^ 65); [lia|]. apply Z.pow_le_mono_l. lia.
Qed.

Lemma i64_u64 z : - 2 ^ 63 <= z < 2 ^ 63 -> i64 (u64 z) = z.
Proof. intros H. unfold i64, u64. rewrite Zplus_mod_idemp_l, Z.mod_small by lia. lia. Qed.

Lemma signed_run {T} (putch : Z -> T -> T) o num s : - 2 ^ 63 <= num < 2 ^ 63 ->
  signed putch o num s = Ok (run putch s (decimal num (width o) (padc o))).
Proof.
  intros Hn. unfold signed, decimal. rewrite i64_u64 by lia. destruct (Z.ltb_spec num 0).
  - rewrite number_run by (unfold u64; try lia; apply Z.mod_pos_bound; lia). unfold u64. rewrite Z.mod_small by lia. done.
  - rewrite number_run by (unfold u64; try lia; apply Z.mod_pos_bound; lia). unfold u64. by rewrite Z.mod_small by lia.
Qed.

(** ** Strings *)
Lemma strnlen_z_spec m len l : forall p cnt fuel, cstr m p l -> (length l < fuel)%nat -> cnt <= len ->
  strnlen_z fuel m p len cnt = Ok (Z.min (cnt + Z.of_nat (length l)) len).
Proof.
  induction l as [|c l IH]; intros p cnt fuel Hm Hf Hc; (destruct fuel as [|fuel]; [simpl in Hf; lia|]); cbn [strnlen_z].
  - apply cstr_nil in Hm as ->. rewrite Z.eqb_refl, andb_false_r. f_equal. cbn. lia.
  - apply cstr_cons in Hm as (-> & Hr & Hm). rewrite (proj2 (Z.eqb_neq c 0)) by lia. cbn [negb]. rewrite andb_true_r.
    destruct (Z.ltb_spec cnt len); [|f_equal; cbn; lia]. rewrite IH by (simpl in Hf; done || lia). f_equal. cbn. lia.
Qed.

Lemma schar_zero c : 0 < c < 256 -> (schar c =? 0) = false.
Proof. intros H. unfold schar. apply Z.eqb_neq. destruct (Z.ltb_spec c 128); lia. Qed.

Lemma string_loop_run {T} (putch : Z -> T -> T) o m l : forall p prec wid s fuel, cstr m p l -> (length l < fuel)%nat ->
  let body := shown (altflag o) <$> cut prec l in
  string_loop putch fuel o m p prec wid s = Ok (wid - Z.of_nat (length body), run putch s body).
Proof.
  induction l as [|c l IH]; intros p prec wid s fuel Hm Hf; (destruct fuel as [|fuel]; [simpl in Hf; lia|]); cbn [string_loop].
  - apply cstr_nil in Hm as ->. change (schar 0 =? 0) with true. cbn [negb andb].
    unfold cut. replace (if prec <? 0 then [] else take (Z.to_nat prec) []) with (@nil Z) by (destruct (prec <? 0); by rewrite ?take_nil).
    cbn. do 2 f_equal. lia.
  - apply cstr_cons in Hm as (-> & Hr & Hm). rewrite schar_zero by done. cbn [negb andb].
    replace (if altflag o && ((schar c <? 32) || (126 <? schar c)) then putch 63 s else putch (schar c) s) with (putch (shown (altflag o) c) s)
      by (unfold shown; by destruct (altflag o && _)).
    rewrite Z.geb_leb. unfold cut in *. destruct (Z.ltb_spec prec 0) as [Hp|Hp]; cbn [orb].
    + rewrite IH by (simpl in Hf; done || lia). rewrite (proj2 (Z.ltb_lt prec 0)) by lia. cbn [fmap list_fmap length]. do 2 f_equal. lia.
    + destruct (Z.leb_spec 0 (prec - 1)).
      * rewrite IH by (simpl in Hf; done || lia). rewrite (proj2 (Z.ltb_ge (prec - 1) 0)) by lia.
        replace (Z.to_nat prec) with (S (Z.to_nat (prec - 1))) by lia. cbn [take fmap list_fmap length]. do 2 f_equal. lia.
      * replace (Z.to_nat prec) with O by lia. cbn. do 2 f_equal. lia.
Qed.

Lemma cut_length prec (l : list Z) : -2 ^ 31 <= prec < 2 ^ 31 -> Z.of_nat (length l) < 2 ^ 31 ->
  Z.min (0 + Z.of_nat (length l)) (u32 prec) = Z.of_nat (length (cut prec l)).
Proof.
  intros Hp Hl. unfold cut. destruct (Z.ltb_spec prec 0).
  - replace (u32 prec) with (prec + 2 ^ 32); [lia|]. unfold u32. replace prec with (prec + 2 ^ 32 + (-1) * 2 ^ 32) at 2 by lia.
    rewrite Z.mod_add, Z.mod_small by lia. done.
  - rewrite length_take, u32_small by lia. lia.
Qed.

Definition opts_ok (o : opts) : Prop := -2 ^ 31 <= width o < 2 ^ 31 /\ -2 ^ 31 <= precision o < 2 ^ 31.

Lemma string_out_run {T} (putch : Z -> T -> T) o m p l s fuel : cstr m p l -> (length l < fuel)%nat -> opts_ok o -> Z.of_nat (length l) < 2 ^ 31 ->
  string_out putch fuel o m p s = Ok (run putch s (field o l)).
Proof.
  intros Hm Hf [Hw Hp] Hl. unfold string_out, field. rewrite (strnlen_z_spec m (u32 (precision o)) l) by (done || apply u32_range). rewrite cut_length by lia.
  assert (Hc : (length (cut (precision o) l) <= length l)%nat) by (unfold cut; case_match; rewrite ?length_take; lia).
  rewrite length_fmap. set (n := Z.of_nat (length (cut (precision o) l))) in *. rewrite Z.gtb_ltb. destruct (Z.eqb_spec (padc o) 45) as [E|E]; cbn [negb]; rewrite ?andb_false_r, ?andb_true_r.
  - cbn [mbind res_bind]. rewrite (string_loop_run putch o m l) by done. cbn [mbind res_bind]. by rewrite length_fmap, pads_run, run_app.
  - destruct (Z.ltb_spec 0 (width o)); cbn [mbind res_bind].
    + rewrite i32_small, Z.gtb_ltb by lia. destruct (Z.ltb_spec 0 (width o - n)); cbn [mbind res_bind];
        rewrite (string_loop_run putch o m l) by done; cbn [mbind res_bind]; rewrite length_fmap, !pads_run, ?run_app; fold n.
      * by replace (Z.to_nat (0 - n)) with O by lia.
      * replace (Z.to_nat (width o - n)) with O by lia. by replace (Z.to_nat (width o - n - n)) with O by lia.
    + rewrite (string_loop_run putch o m l) by done. cbn [mbind res_bind]. rewrite length_fmap, pads_run. fold n. by replace (Z.to_nat (width o - n)) with O by lia.
Qed.

(** Constant strings. *)
Lemma const_cstr l : Forall (fun c => 0 < c < 256) l -> cstr (const l) 0 l.
Proof.
  intros Hl. split; [|done]. intros i c Hi. unfold const. rewrite Z.add_0_l, Nat2Z.id.
  apply lookup_app_Some in Hi as [Hi|[Hge Hi]]; [by rewrite Hi|]. apply list_lookup_singleton_Some in Hi as [_ <-]. by rewrite lookup_ge_None_2.
Qed.

Lemma const_ok l : forallb (fun c => (0 <? c) && (c <? 256)) l = true -> Forall (fun c => 0 < c < 256) l.
Proof. intros H. apply Forall_forall. intros c Hc%list_elem_of_In. rewrite forallb_forall in H. specialize (H c Hc). lia. Qed.

Definition bytesb (l : list Z) : bool := forallb (fun c => (0 <? c) && (c <? 256)) l && (length l <? 40)%nat.
Lemma bytesb_spec l : bytesb l = true -> cstr (const l) 0 l /\ (length l < 40)%nat.
Proof.
  intros [H1 H2%Nat.ltb_lt]%andb_true_iff. split; [|done]. by apply const_cstr, const_ok.
Qed.

Lemma error_bytes p : Some p ∈ error_string -> bytesb p = true.
Proof.
  assert (H : forallb (fun o => match o with Some l => bytesb l | None => true end) error_string = true) by (by vm_compute).
  intros Hp%list_elem_of_In. rewrite forallb_forall in H. apply (H (Some p)); done.
Qed.

Lemma field0 l : field opts0 l = schar <$> l.
Proof. unfold field. cbn [padc width precision altflag opts0]. change (32 =? 45) with false. cbn [cut]. replace (Z.to_nat _) with O by lia. done. Qed.

Lemma opts0_ok : opts_ok opts0.
Proof. by split. Qed.

Lemma schar_bytes l : Forall (fun c => c < 128) l -> schar <$> l = l.
Proof. induction 1 as [|c l Hc Hl IH]; [done|]. cbn. rewrite IH. unfold schar. by rewrite (proj2 (Z.ltb_lt _ _)). Qed.

Lemma error_plain p : Some p ∈ error_string -> schar <$> p = p.
Proof.
  assert (H : forallb (fun o => match o with Some l => forallb (fun c => c <? 128) l | None => true end) error_string = true) by (by vm_compute).
  intros Hp%list_elem_of_In. rewrite forallb_forall in H. specialize (H (Some p) Hp). apply schar_bytes, Forall_forall. intros c Hc%list_elem_of_In.
  rewrite forallb_forall in H. specialize (H c Hc). lia.
Qed.

Lemma error_out_run {T} (putch : Z -> T -> T) err s : -2 ^ 31 <= err < 2 ^ 31 -> error_out putch 40 err s = Ok (run putch s (error_text err)).
Proof.
  intros He. unfold error_out, error_text. replace (if err <? 0 then i32 (- err) else err) with (i32 (Z.abs err)).
  2: { destruct (Z.ltb_spec err 0); [by rewrite Z.abs_neq by lia|]. rewrite Z.abs_eq by lia. by apply i32_small. }
  set (e := i32 (Z.abs err)). assert (Her : -2 ^ 31 <= e < 2 ^ 31) by apply i32_range.
  destruct (if e >? MAXERROR then None else _) as [p|] eqn:E; cbn [default].
  - assert (Hp : Some p ∈ error_string).
    { destruct (e >? MAXERROR); [done|]. unfold mjoin, option_join in E. destruct (error_string !! _) as [[q|]|] eqn:El; [|done..].
      injection E as ->. by eapply list_elem_of_lookup_2. }
    destruct (bytesb_spec p (error_bytes p Hp)) as [Hc Hl]. rewrite (string_out_run putch opts0 (const p) 0 p) by (done || apply opts0_ok || lia).
    by rewrite field0, error_plain.
  - destruct (bytesb_spec (bytes "error ") eq_refl) as [Hc Hl]. rewrite (string_out_run putch opts0 _ 0 (bytes "error ")) by (done || apply opts0_ok || lia).
    cbn [mbind res_bind]. rewrite signed_run by lia. cbn [width padc opts0]. rewrite run_app, field0. done.
Qed.

(** ** Formats as sequences of items

    An item is what a format asks for, with the value it is given. *)
Inductive conv := Dec | Uns | Oct | Hex.
Inductive item :=
  | Lit (c : Z)                                        (* any character but '%' *)
  | Pct                                                (* %% *)
  | Chr (v : Z)                                        (* %c *)
  | Num (zero : bool) (wid : list Z) (long : bool) (k : conv) (v : Z) (* %[0][width][ll]d, u, o, x *)
  | Ptr (v : Z)                                        (* %p *)
  | Str (left : bool) (wid prec : list Z) (p : Z) (l : list Z) (* %[-][width][.precision]s *)
  | Nul (left : bool) (wid prec : list Z)              (* the same with NULL *)
  | Err (v : Z).                                       (* %e *)

Definition conv_char (k : conv) : Z := match k with Dec => 100 | Uns => 117 | Oct => 111 | Hex => 120 end.
Definition conv_base (k : conv) : Z := match k with Oct => 8 | Hex => 16 | _ => 10 end.

(** The number a width or precision field spells, -1 without one. *)
Definition field_value (ds : list Z) : Z := if bool_decide (ds = []) then -1 else value_from 10 0 ((fun c => c - 48) <$> ds).
Definition prec_chars (prec : list Z) : list Z := if bool_decide (prec = []) then [] else 46 :: prec.
Definition str_opts (left : bool) (wid prec : list Z) : opts :=
  Opts (if left then 45 else 32) (if bool_decide (prec = []) then field_value wid else Z.max 0 (field_value wid)) (field_value prec) 0 false.

(** How an item is written, the words it takes from the arguments, and the
    characters it stands for. *)
Definition spelled (i : item) : list Z :=
  match i with
  | Lit c => [c]
  | Pct => [37; 37]
  | Chr _ => [37; 99]
  | Num z w ll k _ => [37] ++ (if z then [48] else []) ++ w ++ (if ll then [108; 108] else []) ++ [conv_char k]
  | Ptr _ => [37; 112]
  | Str lf w pr _ _ | Nul lf w pr => [37] ++ (if lf then [45] else []) ++ w ++ prec_chars pr ++ [115]
  | Err _ => [37; 101]
  end.
Definition arg_words (i : item) : list Z :=
  match i with
  | Lit _ | Pct => []
  | Chr v | Ptr v | Err v => [u32 v]
  | Num _ _ ll _ v => if ll then [u32 v; u32 (Z.shiftr v 32)] else [u32 v]
  | Str _ _ _ p _ => [p]
  | Nul _ _ _ => [0]
  end.
Definition printed (i : item) : list Z :=
  match i with
  | Lit c => [c]
  | Pct => [37]
  | Chr v => [v]
  | Num z w _ k v => let pad := if z then 48 else 32 in
      if k is Dec then decimal v (field_value w) pad else numeral (conv_base k) v (field_value w) pad
  | Ptr v => [48; 120] ++ numeral 16 v (-1) 32
  | Str lf w pr _ l => field (str_opts lf w pr) l
  | Nul lf w pr => field (str_opts lf w pr) (bytes "(null)")
  | Err v => error_text v
  end.

(** A number without leading zero that fits an [int], or nothing. *)
Definition field_ok (ds : list Z) : Prop :=
  match ds with [] => True | c :: _ => 49 <= c end /\ Forall (fun c => 48 <= c <= 57) ds /\ field_value ds < 2 ^ 31.
Definition int_ok (v : Z) : Prop := -2 ^ 31 <= v < 2 ^ 31.

Definition item_ok (m : mem) (fuel : nat) (i : item) : Prop :=
  match i with
  | Lit c => c <> 37
  | Pct => True
  | Chr v | Err v => int_ok v
  | Num _ w ll k v => field_ok w /\ (length w < fuel)%nat /\
      match k, ll with Dec, false => int_ok v | Dec, true => -2 ^ 63 <= v < 2 ^ 63 | _, false => 0 <= v < 2 ^ 32 | _, true => 0 <= v < 2 ^ 64 end
  | Ptr v => 0 <= v < 2 ^ 32
  | Str _ w pr p l => field_ok w /\ field_ok pr /\ (length w + length pr < fuel)%nat /\
      0 < p /\ cstr m p l /\ (length l < fuel)%nat /\ Z.of_nat (length l) < 2 ^ 31
  | Nul _ w pr => field_ok w /\ field_ok pr /\ (length w + length pr < fuel)%nat
  end.

(** The argument words lie at [ap]. *)
Fixpoint words_at (m : mem) (ap : Z) (ws : list Z) : Prop :=
  match ws with [] => True | w :: ws => le32_at m ap = w /\ words_at m (ap + 4) ws end.

(** ** Escape sequences *)
#[local] Arguments number : simpl never.
#[local] Arguments signed : simpl never.
#[local] Arguments string_out : simpl never.
#[local] Arguments error_out : simpl never.
#[local] Arguments bytes : simpl never.

(** Comparisons of literals. *)
Ltac zlit :=
  repeat match goal with
  | |- context [Z.eqb ?a ?b] => let r := eval vm_compute in (Z.eqb a b) in match r with true => idtac | false => idtac end; change (Z.eqb a b) with r
  | |- context [Z.leb ?a ?b] => let r := eval vm_compute in (Z.leb a b) in match r with true => idtac | false => idtac end; change (Z.leb a b) with r
  end; cbn [andb orb negb].

(** The character at [fmt] is known. *)
Ltac on_char H := cbn [reswitch]; rewrite H; zlit.

Lemma value_from_nonneg ds : forall v, Forall (fun d => 0 <= d) ds -> 0 <= v -> 0 <= value_from 10 v ds.
Proof. unfold value_from. induction ds as [|d ds IH]; intros v Hd Hv; [done|]. apply Forall_cons in Hd as [? Hd]. cbn. apply IH; [done|lia]. Qed.

Lemma number_field_spec m stop ds : forall c v fmt fuel, Forall (fun c => 48 <= c <= 57) (c :: ds) -> bytes_at m fmt (ds ++ [stop]) ->
  ~ (48 <= stop <= 57) -> (length ds < fuel)%nat ->
  number_field fuel m (i32 v) c fmt = Ok (i32 (value_from 10 v ((fun c => c - 48) <$> c :: ds)), fmt + Z.of_nat (length ds)).
Proof.
  induction ds as [|d ds IH]; intros c v fmt fuel Hds Hm Hst Hf; (destruct fuel as [|fuel]; [simpl in Hf; lia|]); cbn [number_field];
    replace (i32 v * 10 + c - 48) with (i32 v * 10 + (c - 48)) by lia; rewrite i32_step; apply Forall_cons in Hds as [Hc Hds].
  - apply bytes_at_cons in Hm as [-> _]. replace ((stop <? 48) || (57 <? stop)) with true by lia. cbn. do 2 f_equal. lia.
  - cbn [app] in Hm. apply bytes_at_cons in Hm as [-> Hm]. pose proof (Forall_inv Hds) as Hd. cbv beta in Hd.
    replace ((d <? 48) || (57 <? d)) with false by lia. rewrite IH by (simpl in Hf; done || lia). cbn [length]. do 2 f_equal. lia.
Qed.

Lemma field_value_int ds : field_ok ds -> int_ok (field_value ds).
Proof.
  intros (_ & Hf & Hv). split; [|done]. unfold field_value. case_bool_decide; [lia|].
  pose proof (value_from_nonneg ((fun c => c - 48) <$> ds) 0). rewrite Forall_fmap in H0. transitivity 0; [lia|]. apply H0; [|lia].
  eapply Forall_impl; [exact Hf|]. cbn. lia.
Qed.

Lemma field_ok_nil : field_ok [].
Proof. split; [exact I|]. split; [constructor|by vm_compute]. Qed.

Section escapes.
Context {T : Type} (putch : Z -> T -> T).

(** More rounds do no harm. *)
Lemma reswitch_more m fuel k : forall o fmt ap s r, reswitch putch k fuel o m fmt ap s = Ok r -> reswitch putch (S k) fuel o m fmt ap s = Ok r.
Proof.
  induction k as [|k IH]; [done|]. intros o fmt ap s r H. remember (S k) as k' eqn:E. cbn [reswitch]. subst k'. cbn [reswitch] in H.
  destruct (m fmt =? 45); [by apply IH|]. destruct (m fmt =? 48); [by apply IH|].
  destruct ((49 <=? m fmt) && (m fmt <=? 57)). { destruct (number_field _ _ _ _ _) as [[p f]| |]; [|done..]. by apply IH. }
  destruct (m fmt =? 42); [by apply IH|]. destruct (m fmt =? 46); [by apply IH|]. destruct (m fmt =? 35); [by apply IH|].
  destruct (m fmt =? 108); [by apply IH|]. exact H.
Qed.

Lemma reswitch_enough m fuel k k' o fmt ap s r : reswitch putch k fuel o m fmt ap s = Ok r -> (k <= k')%nat -> reswitch putch k' fuel o m fmt ap s = Ok r.
Proof. intros H Hle. induction Hle as [|k' Hle IH]; [done|]. by apply reswitch_more. Qed.

(** A width or precision field, which may be missing. *)
Lemma reswitch_field k fuel o m fmt ap s ds stop rest r :
  field_ok ds -> bytes_at m fmt (ds ++ stop :: rest) -> ~ (48 <= stop <= 57) -> (length ds < fuel)%nat ->
  reswitch putch k fuel (if bool_decide (ds = []) then o else process_precision (field_value ds) o) m (fmt + Z.of_nat (length ds)) ap s = Ok r ->
  reswitch putch (S k) fuel o m fmt ap s = Ok r.
Proof.
  intros Hok Hm Hst Hf H. destruct ds as [|c ds].
  { cbn in H. rewrite Z.add_0_r in H. by apply reswitch_more. }
  pose proof (field_value_int _ Hok) as Hint. destruct Hok as (Hc & Hds & Hv). pose proof (Forall_inv Hds) as Hc2. cbv beta in Hc2.
  rewrite (cons_middle stop), app_assoc in Hm. apply bytes_at_app in Hm as [Hm _]. cbn [app] in Hm. apply bytes_at_cons in Hm as [Hch Hm].
  cbn [reswitch]. rewrite Hch, !(proj2 (Z.eqb_neq c _)) by lia. replace ((49 <=? c) && (c <=? 57)) with true by lia.
  pose proof (number_field_spec m stop ds c 0 (fmt + 1) fuel Hds Hm Hst ltac:(simpl in Hf; lia)) as Hn. change (i32 0) with 0 in Hn. rewrite Hn.
  cbn [mbind res_bind]. change (value_from 10 0 ((fun c => c - 48) <$> c :: ds)) with (field_value (c :: ds)). rewrite i32_small by exact Hint.
  rewrite bool_decide_false in H by done. rewrite <- H. f_equal. cbn [length]. lia.
Qed.

(** The flag in front of a field. *)
Lemma reswitch_flag (b : bool) c k fuel o m fmt ap s rest r :
  c = 45 \/ c = 48 -> bytes_at m fmt ((if b then [c] else []) ++ rest) ->
  (bytes_at m (fmt + (if b then 1 else 0)) rest ->
   reswitch putch k fuel (if b then set_padc c o else o) m (fmt + (if b then 1 else 0)) ap s = Ok r) ->
  reswitch putch (S k) fuel o m fmt ap s = Ok r.
Proof.
  intros Hc Hm H. destruct b; cbn [app] in Hm; [|rewrite Z.add_0_r in H; by apply reswitch_more, H].
  apply bytes_at_cons in Hm as [Hch Hm]. destruct Hc as [-> | ->]; on_char Hch; by apply H.
Qed.

Lemma reswitch_long (b : bool) k fuel o m fmt ap s rest r :
  bytes_at m fmt ((if b then [108; 108] else []) ++ rest) ->
  (bytes_at m (fmt + (if b then 2 else 0)) rest ->
   reswitch putch k fuel (if b then inc_lflag (inc_lflag o) else o) m (fmt + (if b then 2 else 0)) ap s = Ok r) ->
  reswitch putch (S (S k)) fuel o m fmt ap s = Ok r.
Proof.
  intros Hm H. destruct b; cbn [app] in Hm; [|rewrite Z.add_0_r in H; by apply reswitch_more, reswitch_more, H].
  apply bytes_at_cons in Hm as [Hc1 Hm]. apply bytes_at_cons in Hm as [Hc2 Hm].
  replace (fmt + 2) with (fmt + 1 + 1) in H by lia. on_char Hc1. on_char Hc2. by apply H.
Qed.

(** The precision of a string. *)
Lemma reswitch_prec k fuel o m fmt ap s prec stop rest r :
  field_ok prec -> bytes_at m fmt (prec_chars prec ++ stop :: rest) -> ~ (48 <= stop <= 57) -> (length prec < fuel)%nat -> precision o = -1 ->
  (bytes_at m (fmt + Z.of_nat (length (prec_chars prec))) (stop :: rest) ->
   reswitch putch k fuel (Opts (padc o) (if bool_decide (prec = []) then width o else Z.max 0 (width o)) (field_value prec) (lflag o) (altflag o))
     m (fmt + Z.of_nat (length (prec_chars prec))) ap s = Ok r) ->
  reswitch putch (S (S k)) fuel o m fmt ap s = Ok r.
Proof.
  intros Hok Hm Hst Hf Hp H. pose proof (bytes_at_app _ _ _ _ Hm) as [_ Hr]. specialize (H Hr). unfold prec_chars in *. case_bool_decide as E.
  - subst prec. cbn [length] in H. rewrite Z.add_0_r in H. apply reswitch_more, reswitch_more. rewrite <- H. f_equal. destruct o as [pc w p lf al]. cbn [precision] in Hp. by subst p.
  - cbn [app] in Hm. apply bytes_at_cons in Hm as [Hc Hm]. remember (S k) as k'. on_char Hc. subst k'. eapply (reswitch_field k fuel (dot o)); [done..|].
    rewrite bool_decide_false by done. rewrite <- H. destruct o as [pc w p lf al]. unfold dot. cbn [width padc precision lflag altflag length]. f_equal; [|lia].
    destruct (Z.ltb_spec w 0); unfold process_precision; cbn [width padc lflag altflag].
    + by rewrite Z.max_l by lia.
    + rewrite (proj2 (Z.ltb_ge w 0)), Z.max_r by lia. done.
Qed.

(** The last character of a sequence. *)
Lemma reswitch_num k fuel o m fmt ap s c v ll :
  m fmt = conv_char c -> words_at m ap (arg_words (Num false [] ll c v)) -> lflag o = (if ll then 2 else 0) ->
  match c, ll with Dec, false => int_ok v | Dec, true => -2 ^ 63 <= v < 2 ^ 63 | _, false => 0 <= v < 2 ^ 32 | _, true => 0 <= v < 2 ^ 64 end ->
  reswitch putch (S k) fuel o m fmt ap s =
    Ok (fmt + 1, ap + (if ll then 8 else 4), run putch s (if c is Dec then decimal v (width o) (padc o) else numeral (conv_base c) v (width o) (padc o))).
Proof.
  intros Hc Hw Hl Hv.
  assert (Hu : getuint m ap (lflag o) = (if ll then u64 v else u32 v, ap + (if ll then 8 else 4))).
  { unfold getuint. rewrite Hl. destruct ll; cbn in Hw; zlit; [|by destruct Hw as [-> _]]. destruct Hw as (-> & -> & _). f_equal.
    rewrite Z.shiftr_div_pow2 by lia. unfold u64, u32. change (2 ^ 64) with (2 ^ 32 * 2 ^ 32). by rewrite Z.rem_mul_r by lia. }
  assert (Hi : getint m ap (lflag o) = (if ll then i64 (u64 v) else i32 (u32 v), ap + (if ll then 8 else 4))).
  { unfold getint, getuint in *. rewrite Hl in *. destruct ll; revert Hu; zlit; intros [= ->]; done. }
  destruct c; cbn [conv_char] in Hc; on_char Hc; rewrite ?Hu, ?Hi.
  - rewrite signed_run by (destruct ll; [rewrite i64_u64 by lia; lia|pose proof (i32_range (u32 v)); lia]). cbn [mbind res_bind]. do 4 f_equal.
    destruct ll; [by apply i64_u64|]. rewrite i32_u32. by apply i32_small.
  - rewrite number_run by (destruct ll; unfold u64, u32; rewrite ?Z.mod_small by lia; lia). destruct ll; unfold u64, u32; by rewrite Z.mod_small by lia.
  - rewrite number_run by (destruct ll; unfold u64, u32; rewrite ?Z.mod_small by lia; lia). destruct ll; unfold u64, u32; by rewrite Z.mod_small by lia.
  - rewrite number_run by (destruct ll; unfold u64, u32; rewrite ?Z.mod_small by lia; lia). destruct ll; unfold u64, u32; by rewrite Z.mod_small by lia.
Qed.

Lemma reswitch_str k fuel o m fmt ap s p l :
  m fmt = 115 -> le32_at m ap = p -> opts_ok o -> Z.of_nat (length l) < 2 ^ 31 ->
  (if p =? 0 then l = bytes "(null)" else cstr m p l /\ (length l < fuel)%nat) ->
  reswitch putch (S k) fuel o m fmt ap s = Ok (fmt + 1, ap + 4, run putch s (field o l)).
Proof.
  intros Hc Hp Ho Hl Hs. on_char Hc. rewrite Hp. destruct (p =? 0).
  - subst l. rewrite (string_out_run putch o _ 0 (bytes "(null)")) by (done || (apply bytesb_spec; by vm_compute) || (vm_compute; lia)). done.
  - destruct Hs as [Hs Hf]. by rewrite (string_out_run putch o m p l).
Qed.

Lemma ok3 {A B C} (a a' : A) (b b' : B) (c c' : C) : a = a' -> b = b' -> c = c' -> Ok (a, b, c) = Ok (a', b', c').
Proof. by intros -> -> ->. Qed.

(** A number, from behind its '%'. *)
Lemma num_item z w ll k v m fmt ap s fuel :
  item_ok m fuel (Num z w ll k v) -> bytes_at m fmt ((if z then [48] else []) ++ w ++ (if ll then [108; 108] else []) ++ [conv_char k]) ->
  words_at m ap (arg_words (Num z w ll k v)) ->
  reswitch putch 5 fuel opts0 m fmt ap s =
    Ok (fmt + Z.of_nat (length ((if z then [48] else []) ++ w ++ (if ll then [108; 108] else []) ++ [conv_char k])),
        ap + (if ll then 8 else 4), run putch s (printed (Num z w ll k v))).
Proof.
  intros (Hwd & Hlw & Hv) Hm Hw. eapply (reswitch_flag z 48); [by right|exact Hm|]. intros Hm1.
  assert (Hst : exists stop rest, (if ll then [108; 108] else []) ++ [conv_char k] = stop :: rest /\ ~ (48 <= stop <= 57)).
  { destruct ll; [exists 108, [108; conv_char k]|exists (conv_char k), []]; (split; [done|]); [lia|]. destruct k; cbn; lia. }
  destruct Hst as (stop & rest & Est & Hst). rewrite Est in Hm1. eapply reswitch_field; [exact Hwd|exact Hm1|exact Hst|exact Hlw|].
  rewrite <- Est in Hm1. apply bytes_at_app in Hm1 as [_ Hm1]. set (o := if z then set_padc 48 opts0 else opts0).
  assert (Ho : (if bool_decide (w = []) then o else process_precision (field_value w) o) = Opts (if z then 48 else 32) (field_value w) (-1) 0 false).
  { unfold field_value, o. case_bool_decide; by destruct z. }
  rewrite Ho. eapply reswitch_long; [exact Hm1|]. intros Hm2. apply bytes_at_cons in Hm2 as [Hc _].
  rewrite (reswitch_num 0 fuel _ m _ ap s k v ll) by (done || by destruct ll). rewrite !length_app.
  apply ok3; [destruct z, ll; cbn [length]; lia|done|]. by destruct ll.
Qed.

(** A string, from behind its '%'. *)
Lemma str_item (lf : bool) w pr p l m fmt ap s fuel :
  field_ok w -> field_ok pr -> (length w + length pr < fuel)%nat -> le32_at m ap = p -> Z.of_nat (length l) < 2 ^ 31 ->
  (if p =? 0 then l = bytes "(null)" else cstr m p l /\ (length l < fuel)%nat) ->
  bytes_at m fmt ((if lf then [45] else []) ++ w ++ prec_chars pr ++ [115]) ->
  reswitch putch 5 fuel opts0 m fmt ap s =
    Ok (fmt + Z.of_nat (length ((if lf then [45] else []) ++ w ++ prec_chars pr ++ [115])), ap + 4, run putch s (field (str_opts lf w pr) l)).
Proof.
  intros Hwd Hpr Hln Hp Hl Hs Hm. eapply (reswitch_flag lf 45); [by left|exact Hm|]. intros Hm1.
  assert (Hst : exists stop rest, prec_chars pr ++ [115] = stop :: rest /\ ~ (48 <= stop <= 57)).
  { unfold prec_chars. case_bool_decide; [exists 115, []|exists 46, (pr ++ [115])]; (split; [done|lia]). }
  destruct Hst as (stop & rest & Est & Hst). rewrite Est in Hm1. eapply reswitch_field; [exact Hwd|exact Hm1|exact Hst|lia|].
  rewrite <- Est in Hm1. apply bytes_at_app in Hm1 as [_ Hm1]. set (o := if lf then set_padc 45 opts0 else opts0).
  assert (Ho : (if bool_decide (w = []) then o else process_precision (field_value w) o) = Opts (if lf then 45 else 32) (field_value w) (-1) 0 false).
  { unfold field_value, o. case_bool_decide; by destruct lf. }
  rewrite Ho. eapply reswitch_prec; [exact Hpr|exact Hm1|lia|lia|done|]. cbn [padc width lflag altflag]. intros Hm2. apply bytes_at_cons in Hm2 as [Hc _].
  assert (Hok : opts_ok (str_opts lf w pr)).
  { pose proof (field_value_int w Hwd). pose proof (field_value_int pr Hpr). split; [|done]. cbn [width str_opts]. unfold int_ok in *. destruct (bool_decide (pr = [])); lia. }
  fold (str_opts lf w pr). rewrite (reswitch_str 0 fuel _ m _ ap s p l) by done. rewrite !length_app. apply ok3; [destruct lf; cbn [length]; lia|done..].
Qed.

(** One item: the '%' and from behind it to the end. *)
Lemma item_run i m fmt ap s fuel :
  (forall c, i <> Lit c) -> item_ok m fuel i -> bytes_at m fmt (spelled i) -> words_at m ap (arg_words i) -> (8 <= fuel)%nat ->
  m fmt = 37 /\ reswitch putch fuel fuel opts0 m (fmt + 1) ap s =
    Ok (fmt + Z.of_nat (length (spelled i)), ap + 4 * Z.of_nat (length (arg_words i)), run putch s (printed i)).
Proof.
  intros Hi Hok Hm Hw Hf. assert (Hh : exists l, spelled i = 37 :: l) by (destruct i as [c| | | | | | |]; [by destruct (Hi c)|by eexists..]).
  destruct Hh as [l Hl]. rewrite Hl in *. apply bytes_at_cons in Hm as [Hc Hm]. split; [done|].
  destruct i as [c| |v|z w ll k v|v|lf w pr p t|lf w pr|v]; [by destruct (Hi c)|..]; cbn [spelled app] in Hl; injection Hl as <-.
  - apply (reswitch_enough m fuel 1); [|lia]. apply bytes_at_cons in Hm as [Hc2 _]. on_char Hc2. apply ok3; [cbn; lia|cbn; lia|done].
  - apply (reswitch_enough m fuel 1); [|lia]. apply bytes_at_cons in Hm as [Hc2 _]. on_char Hc2. destruct Hw as [-> _]. rewrite i32_u32, i32_small by exact Hok. apply ok3; [cbn; lia|cbn; lia|done].
  - apply (reswitch_enough m fuel 5); [|lia]. rewrite (num_item z w ll k v) by done. apply ok3; [cbn [length]; lia|by destruct ll|done].
  - apply (reswitch_enough m fuel 1); [|lia]. apply bytes_at_cons in Hm as [Hc2 _]. on_char Hc2. destruct Hw as [-> _]. cbn [item_ok] in Hok. rewrite u32_small, number_run by lia.
    cbn [mbind res_bind]. apply ok3; [cbn; lia|cbn; lia|done].
  - apply (reswitch_enough m fuel 5); [|lia]. destruct Hok as (Hwd & Hpr & Hln & Hp & Hs & Hl1 & Hl2). destruct Hw as [Hw _]. rewrite (str_item lf w pr p t) by (done || by rewrite (proj2 (Z.eqb_neq p 0)) by lia).
    apply ok3; [cbn [length]; lia|done|done].
  - apply (reswitch_enough m fuel 5); [|lia]. destruct Hok as (Hwd & Hpr & Hln). destruct Hw as [Hw _]. rewrite (str_item lf w pr 0 (bytes "(null)")) by (done || by vm_compute). apply ok3; [cbn [length]; lia|done|done].
  - apply (reswitch_enough m fuel 1); [|lia]. apply bytes_at_cons in Hm as [Hc2 _]. on_char Hc2. destruct Hw as [-> _]. rewrite i32_u32, i32_small, error_out_run by exact Hok.
    cbn [mbind res_bind]. apply ok3; [cbn; lia|cbn; lia|done].
Qed.
End escapes.

(** ** Whole formats *)
Lemma words_at_app m ws1 : forall ap ws2, words_at m ap (ws1 ++ ws2) -> words_at m ap ws1 /\ words_at m (ap + 4 * Z.of_nat (length ws1)) ws2.
Proof.
  induction ws1 as [|w ws1 IH]; intros ap ws2; cbn [app words_at length]; [by rewrite Z.add_0_r|]. intros [Hw H]. apply IH in H as [H1 H2].
  split; [done|]. by replace (ap + 4 * Z.of_nat (S (length ws1))) with (ap + 4 + 4 * Z.of_nat (length ws1)) by lia.
Qed.

Definition format (its : list item) : list Z := concat (spelled <$> its).
Definition arguments (its : list item) : list Z := concat (arg_words <$> its).
Definition output (its : list item) : list Z := concat (printed <$> its).

(** [f]: the rounds left for literal characters. *)
Lemma items_run {T} (putch : Z -> T -> T) m fuel its : forall f k fmt ap s,
  Forall (item_ok m fuel) its -> cstr m fmt (format its) -> words_at m ap (arguments its) -> (8 <= fuel)%nat ->
  (length its < f)%nat -> (length its <= k)%nat -> (length its < fuel)%nat ->
  ('(o, s) ← literal putch f m fmt s;
   match o with None => Ok s | Some fmt => '(fmt, ap, s) ← reswitch putch fuel fuel opts0 m fmt ap s; vprintfmt_loop putch k fuel m fmt ap s end) =
    Ok (run putch s (output its)).
Proof.
  induction its as [|i its IH]; intros f k fmt ap s Hok Hm Hw H8 Hf Hk Hfu; (destruct f as [|f]; [simpl in Hf; lia|]); cbn [literal].
  { apply cstr_nil in Hm as ->. done. }
  apply Forall_cons in Hok as [Hi Hok]. destruct Hm as [Hm Hb]. unfold format, arguments in Hm, Hb, Hw. cbn [fmap list_fmap concat] in Hm, Hb, Hw. rewrite <- app_assoc in Hm.
  apply Forall_app in Hb as [Hbi Hb]. apply bytes_at_app in Hm as [Hmi Hm]. apply words_at_app in Hw as [Hwi Hw]. cbn [length] in *.
  unfold output. cbn [fmap list_fmap concat]. rewrite run_app.
  assert (Hd : (exists c, i = Lit c) \/ (forall c, i <> Lit c)) by (destruct i; [left; by eexists|by right..]).
  destruct Hd as [[c ->]|Hn].
  - cbn [spelled arg_words length printed] in *. rewrite Z.add_0_r in Hw. apply bytes_at_cons in Hmi as [Hc _]. apply Forall_inv in Hbi. cbv beta in Hbi.
    rewrite Hc, !(proj2 (Z.eqb_neq c _)) by (cbn in Hi; lia). cbn [negb]. apply (IH f k); try done; lia.
  - destruct (item_run putch i m fmt ap s fuel) as [Hc Hr]; try done. rewrite Hc. zlit. cbn [mbind res_bind]. rewrite Hr. cbn [mbind res_bind]. destruct k as [|k]; [lia|]. cbn [vprintfmt_loop]. apply IH; try done; lia.
Qed.

Lemma vprintfmt_items {T} (putch : Z -> T -> T) m fuel its fmt ap s :
  Forall (item_ok m fuel) its -> cstr m fmt (format its) -> words_at m ap (arguments its) -> (8 <= fuel)%nat -> (length its < fuel)%nat ->
  vprintfmt putch fuel m fmt ap s = Ok (run putch s (output its)).
Proof. intros. destruct fuel as [|fuel]; [lia|]. apply items_run; [done..|lia|done]. Qed.

(** The formats that the comment at the head of printfmt.c describes: a flag
    and a width only for numbers. *)
Definition documented (i : item) : Prop :=
  match i with Str lf w _ _ _ | Nul lf w _ => lf = false /\ w = [] | _ => True end.

(** C17: [vprintfmt] interprets the formats it documents: for a format that is
    a sequence of items (literal characters; %%, %c, %p, %e; %d, %u, %o and %x
    with an optional zero flag, width and ll, a minus sign coming before the
    padding; %s with an optional precision and
    neither flag nor width, also of NULL) and the argument words the items ask
    for, the characters handed to [putch] are, in order, exactly those the items
    stand for, whatever [putch] and its state are. *)
Theorem vprintfmt_correct {T} (putch : Z -> T -> T) (m : mem) (fuel : nat) (its : list item) (fmt ap : Z) (s : T) :
  Forall documented its -> Forall (item_ok m fuel) its -> cstr m fmt (format its) -> words_at m ap (arguments its) ->
  (8 <= fuel)%nat -> (length its < fuel)%nat ->
  vprintfmt putch fuel m fmt ap s = Ok (run putch s (output its)).
Proof. intros _. apply vprintfmt_items. Qed.

(** ** Any format

    The strings at all addresses end, after fewer than [fuel] characters. *)
Definition strings_end (m : mem) (fuel : nat) : Prop :=
  forall p, exists l, cstr m p l /\ (length l < fuel)%nat /\ Z.of_nat (length l) < 2 ^ 31.

Lemma cstr_suffix m l1 : forall p l2, cstr m p (l1 ++ l2) -> cstr m (p + Z.of_nat (length l1)) l2.
Proof.
  induction l1 as [|c l1 IH]; intros p l2; cbn [app length]; [by rewrite Z.add_0_r|]. intros (_ & _ & H)%cstr_cons. apply IH in H.
  by replace (p + Z.of_nat (S (length l1))) with (p + 1 + Z.of_nat (length l1)) by lia.
Qed.

Lemma ends_byte m fuel p : strings_end m fuel -> 0 <= m p < 256.
Proof. intros H. destruct (H p) as ([|c l] & Hc & _); [apply cstr_nil in Hc; lia|]. apply cstr_cons in Hc as (-> & ? & _). lia. Qed.

Lemma ends_word m fuel p : strings_end m fuel -> 0 <= le32_at m p < 2 ^ 32.
Proof.
  intros H. pose proof (ends_byte m fuel p H). pose proof (ends_byte m fuel (p + 1) H). pose proof (ends_byte m fuel (p + 2) H).
  pose proof (ends_byte m fuel (p + 3) H). unfold le32_at. lia.
Qed.

Lemma number_field_total m l : forall v c fmt fuel, cstr m fmt l -> (length l < fuel)%nat ->
  exists p l1 l2, l = l1 ++ l2 /\ int_ok p /\ 37 ∉ l1 /\ number_field fuel m v c fmt = Ok (p, fmt + Z.of_nat (length l1)).
Proof.
  induction l as [|d l IH]; intros v c fmt fuel Hm Hf; (destruct fuel as [|fuel]; [simpl in Hf; lia|]); cbn [number_field].
  - apply cstr_nil in Hm as ->. zlit. exists (i32 (v * 10 + c - 48)), [], []. split_and!; [done|apply i32_range|apply not_elem_of_nil|]. by rewrite Z.add_0_r.
  - apply cstr_cons in Hm as (-> & _ & Hm). destruct ((d <? 48) || (57 <? d)) eqn:Ed.
    + exists (i32 (v * 10 + c - 48)), [], (d :: l). split_and!; [done|apply i32_range|apply not_elem_of_nil|]. by rewrite Z.add_0_r.
    + destruct (IH (i32 (v * 10 + c - 48)) d (fmt + 1) fuel Hm ltac:(simpl in Hf; lia)) as (p & l1 & l2 & -> & Hp & Hn & ->).
      exists p, (d :: l1), l2. split_and!; [done|done|apply not_elem_of_cons; split; [lia|done]|]. do 2 f_equal. cbn [length]. lia.
Qed.

Lemma rewind_spec m fmt0 pre : forall fuel l, cstr m fmt0 (pre ++ l) -> m (fmt0 - 1) = 37 -> 37 ∉ pre -> (length pre < fuel)%nat ->
  rewind fuel m (fmt0 + Z.of_nat (length pre)) = Ok fmt0.
Proof.
  induction pre as [|c pre IH] using rev_ind; intros fuel l Hm H0 Hn Hf; (destruct fuel as [|fuel]; [lia|]); cbn [rewind].
  - cbn [length]. by rewrite Z.add_0_r, H0.
  - rewrite length_app in *. cbn [length] in *. rewrite <- app_assoc in Hm. pose proof (cstr_suffix _ _ _ _ Hm) as Hc. apply cstr_cons in Hc as [Hc _].
    replace (fmt0 + Z.of_nat (length pre + 1) - 1) with (fmt0 + Z.of_nat (length pre)) by lia. rewrite Hc.
    apply not_elem_of_app in Hn as [Hn Hc']. rewrite (proj2 (Z.eqb_neq c 37)) by (intros ->; apply Hc'; by left). apply (IH fuel ([c] ++ l)); [done..|lia].
Qed.

Lemma getint_range m ap lfl : -2 ^ 63 <= (getint m ap lfl).1 < 2 ^ 63.
Proof.
  unfold getint. destruct (2 <=? lfl); cbn [fst]; [|pose proof (i32_range (le32_at m ap)); lia].
  unfold i64. pose proof (Z.mod_pos_bound (le32_at m ap + 2 ^ 32 * le32_at m (ap + 4) + 2 ^ 63) (2 ^ 64) ltac:(lia)). lia.
Qed.

Lemma getuint_range m fuel ap lfl : strings_end m fuel -> 0 <= (getuint m ap lfl).1 < 2 ^ 64.
Proof.
  intros H. pose proof (ends_word m fuel ap H). pose proof (ends_word m fuel (ap + 4) H).
  unfold getuint. destruct (2 <=? lfl); cbn [fst]; lia.
Qed.

Lemma opts_ok_dot o : opts_ok o -> opts_ok (dot o).
Proof. unfold opts_ok, dot. intros [? ?]. destruct (width o <? 0); cbn; lia. Qed.

Lemma opts_ok_prec o p : opts_ok o -> int_ok p -> opts_ok (process_precision p o).
Proof. unfold opts_ok, process_precision, int_ok. intros [? ?] ?. destruct (width o <? 0); cbn; lia. Qed.

(** The conversion character [c] at the end of a sequence: what it prints
    does not depend on [putch]. *)
Lemma conversion_total k fuel o m fmt ap : strings_end m fuel -> opts_ok o ->
  m fmt ∈ [99; 101; 115; 100; 117; 111; 112; 120; 37] ->
  exists ap' out, forall T (putch : Z -> T -> T) s, reswitch putch (S k) fuel o m fmt ap s = Ok (fmt + 1, ap', run putch s out).
Proof.
  intros He Ho Hc. pose proof (getint_range m ap (lflag o)) as Hgi. pose proof (getuint_range m fuel ap (lflag o) He) as Hgu. pose proof (ends_word m fuel ap He) as Hw.
  destruct (getint m ap (lflag o)) as [gi api] eqn:Egi. destruct (getuint m ap (lflag o)) as [gu apu] eqn:Egu. cbn [fst] in *.
  assert (Hnum : forall c b, m fmt = c -> (c = 117 /\ b = 10 \/ c = 111 /\ b = 8 \/ c = 120 /\ b = 16) ->
    exists ap' out, forall T (putch : Z -> T -> T) s, reswitch putch (S k) fuel o m fmt ap s = Ok (fmt + 1, ap', run putch s out)).
  { intros c b Hm Hcb. exists apu, (numeral b gu (width o) (padc o)). intros T putch s.
    destruct Hcb as [[-> ->]|[[-> ->]|[-> ->]]]; on_char Hm; rewrite Egu, number_run by lia; done. }
  repeat (apply elem_of_cons in Hc as [Hm|Hc]); [..|by apply not_elem_of_nil in Hc].
  - exists (ap + 4), [i32 (le32_at m ap)]. intros. by on_char Hm.
  - exists (ap + 4), (error_text (i32 (le32_at m ap))). intros. on_char Hm. by rewrite error_out_run by apply i32_range.
  - destruct (He (le32_at m ap)) as (l & Hl & Hf & Hz).
    exists (ap + 4), (field o (if le32_at m ap =? 0 then bytes "(null)" else l)). intros. eapply reswitch_str; [done|done|done| |].
    + destruct (_ =? 0); [by vm_compute|done].
    + by destruct (_ =? 0).
  - exists api, (decimal gi (width o) (padc o)). intros. on_char Hm. by rewrite Egi, signed_run by lia.
  - eapply Hnum; [exact Hm|by left].
  - eapply Hnum; [exact Hm|by right; left].
  - exists (ap + 4), ([48; 120] ++ numeral 16 (le32_at m ap) (width o) (padc o)). intros. on_char Hm. by rewrite number_run by lia.
  - eapply Hnum; [exact Hm|by right; right].
  - exists ap, [37]. intros. by on_char Hm.
Qed.

(** The characters that only change the options. *)
Definition option_char (c : Z) : bool := (c =? 45) || (c =? 48) || (c =? 42) || (c =? 46) || (c =? 35) || (c =? 108).

Lemma reswitch_option k fuel o m fmt ap c : m fmt = c -> option_char c = true -> opts_ok o ->
  exists o' ap', opts_ok o' /\ forall T (putch : Z -> T -> T) s, reswitch putch (S k) fuel o m fmt ap s = reswitch putch k fuel o' m (fmt + 1) ap' s.
Proof.
  intros Hm Hc Ho. unfold option_char in Hc. rewrite !orb_true_iff, !Z.eqb_eq in Hc. destruct Hc as [[[[[-> | ->]| ->]| ->]| ->]| ->].
  - exists (set_padc 45 o), ap. split; [done|]. intros. by on_char Hm.
  - exists (set_padc 48 o), ap. split; [done|]. intros. by on_char Hm.
  - exists (process_precision (i32 (le32_at m ap)) o), (ap + 4). split; [apply opts_ok_prec; [done|apply i32_range]|]. intros. by on_char Hm.
  - exists (dot o), ap. split; [by apply opts_ok_dot|]. intros. by on_char Hm.
  - exists (set_alt o), ap. split; [done|]. intros. by on_char Hm.
  - exists (inc_lflag o), ap. split; [done|]. intros. by on_char Hm.
Qed.

(** Any other character gives up: the '%' is printed and the format read
    again from behind it. *)
Lemma reswitch_default {T} (putch : Z -> T -> T) k fuel o m fmt ap s c : m fmt = c -> option_char c = false -> (49 <=? c) && (c <=? 57) = false ->
  c ∉ [99; 101; 115; 100; 117; 111; 112; 120; 37] ->
  reswitch putch (S k) fuel o m fmt ap s = (fmt ← rewind fuel m fmt; Ok (fmt, ap, putch 37 s)).
Proof.
  intros Hm Hc Hd Hn. unfold option_char in Hc. rewrite !orb_false_iff, !Z.eqb_neq in Hc. rewrite !not_elem_of_cons in Hn.
  cbn [reswitch]. rewrite Hm, Hd, !(proj2 (Z.eqb_neq c _)) by lia. by replace (fmt + 1 - 1) with fmt by lia.
Qed.

Lemma reswitch_total m fuel fmt0 l0 : strings_end m fuel -> cstr m fmt0 l0 -> (length l0 < fuel)%nat -> m (fmt0 - 1) = 37 ->
  forall k o pre l ap, l0 = pre ++ l -> 37 ∉ pre -> opts_ok o -> (length l < k)%nat ->
  exists pre' l' ap' out, l0 = pre' ++ l' /\ forall T (putch : Z -> T -> T) s,
    reswitch putch k fuel o m (fmt0 + Z.of_nat (length pre)) ap s = Ok (fmt0 + Z.of_nat (length pre'), ap', run putch s out).
Proof.
  intros He Hm0 Hf Hp. induction k as [|k IH]; intros o pre l ap Hl0 Hn Ho Hk; [lia|].
  assert (Hpf : (length pre < fuel)%nat) by (rewrite Hl0, length_app in Hf; lia).
  assert (Hm : cstr m (fmt0 + Z.of_nat (length pre)) l) by (apply cstr_suffix; by rewrite <- Hl0).
  destruct l as [|c l].
  { exists [], l0, ap, [37]. split; [done|]. intros. erewrite reswitch_default; [|by apply cstr_nil|done|done|set_solver].
    rewrite (rewind_spec m fmt0 pre fuel []) by (done || by rewrite <- Hl0). cbn [mbind res_bind length]. by rewrite Z.add_0_r. }
  pose proof (cstr_cons _ _ _ _ Hm) as (Hc & _ & Hm'). assert (Hl1 : l0 = (pre ++ [c]) ++ l) by (by rewrite <- app_assoc).
  assert (Hnext : fmt0 + Z.of_nat (length (pre ++ [c])) = fmt0 + Z.of_nat (length pre) + 1) by (rewrite length_app; cbn [length]; lia).
  destruct (option_char c) eqn:Eo.
  { destruct (reswitch_option k fuel o m _ ap c Hc Eo Ho) as (o' & ap1 & Ho' & Hr).
    assert (37 ∉ pre ++ [c]) by (apply not_elem_of_app; split; [done|]; rewrite list_elem_of_singleton; by intros <-).
    destruct (IH o' (pre ++ [c]) l ap1) as (pre' & l' & ap' & out & Hl' & Hr'); [done..|cbn [length] in Hk; lia|].
    exists pre', l', ap', out. split; [done|]. intros. rewrite Hr, <- Hr', Hnext. done. }
  destruct ((49 <=? c) && (c <=? 57)) eqn:Ed.
  { destruct (number_field_total m l 0 c (fmt0 + Z.of_nat (length pre) + 1) fuel Hm') as (p & l1 & l2 & -> & Hpi & Hn1 & Hnf);
      [rewrite Hl0, length_app in Hf; cbn [length] in Hf; lia|].
    assert (37 ∉ (pre ++ [c]) ++ l1) by (rewrite !not_elem_of_app, list_elem_of_singleton; split_and!; [done|lia|done]).
    destruct (IH (process_precision p o) ((pre ++ [c]) ++ l1) l2 ap) as (pre' & l' & ap' & out & Hl' & Hr'); [by rewrite Hl1, !app_assoc|done|by apply opts_ok_prec|..].
    { cbn [length] in Hk. rewrite length_app in Hk. lia. }
    exists pre', l', ap', out. split; [done|]. intros. rewrite <- Hr'. cbn [reswitch]. unfold option_char in Eo. rewrite !orb_false_iff in Eo.
    destruct Eo as [[[[[E1 E2] E3] E4] E5] E6]. rewrite Hc, E1, E2, Ed, Hnf. cbn [mbind res_bind]. f_equal. rewrite (length_app (pre ++ [c])). lia. }
  destruct (decide (c ∈ [99; 101; 115; 100; 117; 111; 112; 120; 37])) as [Hin|Hin].
  - destruct (conversion_total k fuel o m (fmt0 + Z.of_nat (length pre)) ap He Ho) as (ap' & out & Hr); [by rewrite Hc|].
    exists (pre ++ [c]), l, ap', out. split; [done|]. intros. by rewrite Hr, Hnext.
  - exists [], l0, ap, [37]. split; [done|]. intros. rewrite (reswitch_default _ _ _ _ _ _ _ _ c) by done.
    rewrite (rewind_spec m fmt0 pre fuel (c :: l)) by (done || by rewrite <- Hl0). cbn [mbind res_bind length]. by rewrite Z.add_0_r.
Qed.

Lemma literal_total m l : forall f fmt, cstr m fmt l -> (length l < f)%nat ->
  exists out, (forall T (putch : Z -> T -> T) s, literal putch f m fmt s = Ok (None, run putch s out)) \/
    exists l1 l2, l = l1 ++ 37 :: l2 /\ forall T (putch : Z -> T -> T) s, literal putch f m fmt s = Ok (Some (fmt + Z.of_nat (length l1) + 1), run putch s out).
Proof.
  induction l as [|c l IH]; intros f fmt Hm Hf; (destruct f as [|f]; [simpl in Hf; lia|]).
  - exists []. left. intros. cbn [literal]. by apply cstr_nil in Hm as ->.
  - apply cstr_cons in Hm as (Hc & Hr & Hm). destruct (Z.eq_dec c 37) as [E|E].
    + exists []. right. exists [], l. split; [by rewrite E|]. intros. cbn [literal length]. rewrite Hc, E, Z.add_0_r. done.
    + destruct (IH f (fmt + 1) Hm ltac:(cbn [length] in Hf; lia)) as [out [H|(l1 & l2 & -> & H)]].
      * exists (c :: out). left. intros. cbn [literal]. rewrite Hc, !(proj2 (Z.eqb_neq c _)) by lia. cbn [negb]. by rewrite H.
      * exists (c :: out). right. exists (c :: l1), l2. split; [done|]. intros. cbn [literal]. rewrite Hc, !(proj2 (Z.eqb_neq c _)) by lia. cbn [negb]. rewrite H.
        cbn [length]. do 3 f_equal. lia.
Qed.

(** Every format ends. *)
Lemma vprintfmt_total m fuel : strings_end m fuel -> forall k l fmt ap, cstr m fmt l -> (length l < k)%nat -> (length l < fuel)%nat ->
  exists out, forall T (putch : Z -> T -> T) s, vprintfmt_loop putch k fuel m fmt ap s = Ok (run putch s out).
Proof.
  intros He. induction k as [|k IH]; intros l fmt ap Hm Hk Hf; [lia|].
  destruct (literal_total m l fuel fmt Hm Hf) as [out [H|(l1 & l2 & -> & H)]].
  { exists out. intros. cbn [vprintfmt_loop]. by rewrite H. }
  pose proof (cstr_suffix _ _ _ _ Hm) as Hp. apply cstr_cons in Hp as (Hp & _ & Hm2). rewrite length_app in Hk, Hf. cbn [length] in Hk, Hf.
  destruct (reswitch_total m fuel (fmt + Z.of_nat (length l1) + 1) l2 He Hm2 ltac:(lia) ltac:(by rewrite Z.add_simpl_r) fuel opts0 [] l2 ap)
    as (pre & l' & ap' & out1 & Hl2 & H1); [done|apply not_elem_of_nil|apply opts0_ok|lia|].
  assert (Hlen : (length l' <= length l2)%nat) by (rewrite Hl2, length_app; lia).
  rewrite Hl2 in Hm2. apply cstr_suffix in Hm2. destruct (IH l' _ ap' Hm2) as [out2 H2]; [lia..|].
  exists (out ++ out1 ++ out2). intros. cbn [vprintfmt_loop]. rewrite H. cbn [mbind res_bind]. cbn [length] in H1. rewrite Z.add_0_r in H1. rewrite H1.
  cbn [mbind res_bind]. by rewrite H2, !run_app.
Qed.

(** ** The buffer of [vsnprintf] *)
Lemma i32_add a b : i32 (i32 a + b) = i32 (a + b).
Proof. pose proof (i32_step a 1 b) as H. by rewrite !Z.mul_1_r in H. Qed.

Lemma store_cons m a c l x : store m a (c :: l) x = store (upd m a c) (a + 1) l x.
Proof.
  unfold store, upd. cbn [length]. destruct (Z.eqb_spec x a) as [->|Hne].
  - rewrite Z.leb_refl, (proj2 (Z.ltb_lt a _)), (proj2 (Z.leb_gt (a + 1) a)) by lia. cbn [andb]. by rewrite Z.sub_diag.
  - destruct (Z.leb_spec a x), (Z.ltb_spec x (a + Z.of_nat (S (length l)))), (Z.leb_spec (a + 1) x), (Z.ltb_spec x (a + 1 + Z.of_nat (length l)));
      cbn [andb]; try done; try lia.
    by replace (Z.to_nat (x - a)) with (S (Z.to_nat (x - (a + 1)))) by lia.
Qed.

Lemma store_ext m1 m2 a l x : (forall y, m1 y = m2 y) -> store m1 a l x = store m2 a l x.
Proof. intros H. unfold store. destruct (_ && _); [done|apply H]. Qed.

(** The characters that fit, as bytes. *)
Definition kept (room : Z) (l : list Z) : list Z := (fun c => c mod 256) <$> take (Z.to_nat room) l.

Lemma sprint_run l : forall b, buf b <= ebuf b -> int_ok (cnt b) ->
  let b' := run sprintputch b l in
  (forall x, sb_mem b' x = store (sb_mem b) (buf b) (kept (ebuf b - buf b) l) x) /\
  buf b' = buf b + Z.of_nat (length (kept (ebuf b - buf b) l)) /\ cnt b' = i32 (cnt b + Z.of_nat (length l)).
Proof.
  induction l as [|c l IH]; intros b Hb Hc.
  { unfold kept. rewrite take_nil. cbn [run foldl fmap list_fmap length]. split_and!; [|lia|rewrite Z.add_0_r; symmetry; by apply i32_small].
    intros x. unfold store. cbn [length]. destruct (Z.leb_spec (buf b) x), (Z.ltb_spec x (buf b + Z.of_nat 0)); cbn [andb]; done || lia. }
  change (run sprintputch b (c :: l)) with (run sprintputch (sprintputch c b) l). destruct (Z.ltb_spec (buf b) (ebuf b)) as [Hlt|Hge].
  - assert (Hp : sprintputch c b = Sb (upd (sb_mem b) (buf b) (c mod 256)) (buf b + 1) (ebuf b) (i32 (cnt b + 1)))
      by (unfold sprintputch; cbn [buf ebuf]; by rewrite (proj2 (Z.ltb_lt _ _) Hlt)). rewrite Hp.
    destruct (IH (Sb (upd (sb_mem b) (buf b) (c mod 256)) (buf b + 1) (ebuf b) (i32 (cnt b + 1)))) as (H1 & H2 & H3); [cbn; lia|apply i32_range|].
    cbn [sb_mem buf ebuf cnt] in *. unfold kept in *. replace (Z.to_nat (ebuf b - buf b)) with (S (Z.to_nat (ebuf b - (buf b + 1)))) by lia.
    cbn [take fmap list_fmap length]. split_and!; [|rewrite H2; unfold fmap; lia|rewrite H3, i32_add; f_equal; lia]. intros x. by rewrite H1, store_cons.
  - assert (Hp : sprintputch c b = Sb (sb_mem b) (buf b) (ebuf b) (i32 (cnt b + 1)))
      by (unfold sprintputch; cbn [buf ebuf]; by rewrite (proj2 (Z.ltb_ge _ _) Hge)). rewrite Hp.
    destruct (IH (Sb (sb_mem b) (buf b) (ebuf b) (i32 (cnt b + 1)))) as (H1 & H2 & H3); [done|apply i32_range|].
    cbn [sb_mem buf ebuf cnt] in *. unfold kept in *. replace (Z.to_nat (ebuf b - buf b)) with O in * by lia. cbn [take fmap list_fmap length] in *.
    split_and!; [done|done|]. rewrite H3, i32_add. f_equal. lia.
Qed.

Lemma store_snoc m m' a l c x : (forall y, m' y = store m a l y) -> upd m' (a + Z.of_nat (length l)) c x = store m a (l ++ [c]) x.
Proof.
  intros H. rewrite upd_eq, H. unfold store. rewrite length_app. cbn [length]. destruct (Z.eqb_spec x (a + Z.of_nat (length l))) as [->|Hne].
  - rewrite (proj2 (Z.leb_le a _)), (proj2 (Z.ltb_lt _ _)) by lia. cbn [andb]. rewrite lookup_app_r by lia. by replace (Z.to_nat _ - length l)%nat with 0%nat by lia.
  - destruct (Z.leb_spec a x), (Z.ltb_spec x (a + Z.of_nat (length l))), (Z.ltb_spec x (a + Z.of_nat (length l + 1))); cbn [andb]; try done; try lia.
    by rewrite lookup_app_l by lia.
Qed.

Lemma vsnprintf_run fuel m str size fmt ap out l :
  vprintfmt sprintputch fuel m fmt ap (Sb out str (str + size - 1) 0) = Ok (run sprintputch (Sb out str (str + size - 1) 0) l) ->
  0 < str -> 1 <= size -> str + size <= 2 ^ 32 ->
  exists m', vsnprintf fuel m str size fmt ap out = Ok (i32 (Z.of_nat (length l)), m') /\ (forall x, m' x = store out str (kept (size - 1) l ++ [0]) x).
Proof.
  intros H Hs Hz Hu. unfold vsnprintf. rewrite u32_small by lia. cbn [buf ebuf]. rewrite (proj2 (Z.eqb_neq str 0)), Z.gtb_ltb, (proj2 (Z.ltb_ge _ _)) by lia.
  cbn [orb]. rewrite H. cbn [mbind res_bind]. destruct (sprint_run l (Sb out str (str + size - 1) 0)) as (H1 & H2 & H3); [cbn; lia|done|].
  cbn [sb_mem buf ebuf cnt] in *. replace (str + size - 1 - str) with (size - 1) in * by lia. eexists. rewrite H3. split; [done|]. intros x. rewrite H2. by apply store_snoc.
Qed.

(** C38: [vsnprintf] stays inside its buffer, whatever the format and the
    arguments: when every string ends, it returns, and with a buffer of
    [size] bytes it stores the first [size - 1] characters of the output and
    the terminating NUL and changes no other byte; the result is the length
    of the whole output.  A NULL or empty buffer is reported as -E_INVAL. *)
Theorem vsnprintf_bounded (m out : mem) (fuel : nat) (str size fmt ap : Z) :
  strings_end m fuel -> 0 <= str < 2 ^ 32 -> 0 <= size -> str + size <= 2 ^ 32 ->
  exists l, (forall T (putch : Z -> T -> T) s, vprintfmt putch fuel m fmt ap s = Ok (run putch s l)) /\
  exists r m', vsnprintf fuel m str size fmt ap out = Ok (r, m') /\
    if (str =? 0) || (size =? 0) then r = - E_INVAL /\ m' = out
    else r = i32 (Z.of_nat (length l)) /\ load m' str (Z.of_nat (length (kept (size - 1) l)) + 1) = kept (size - 1) l ++ [0] /\
      Z.of_nat (length (kept (size - 1) l)) <= size - 1 /\ (forall x, x < str \/ str + size <= x -> m' x = out x).
Proof.
  intros He Hs Hz Hu. destruct (He fmt) as (fl & Hf & Hl & _). destruct (vprintfmt_total m fuel He fuel fl fmt ap Hf Hl Hl) as [l Ht].
  exists l. split; [done|]. destruct ((str =? 0) || (size =? 0)) eqn:E.
  - exists (- E_INVAL), out. split; [|done]. unfold vsnprintf. cbn [buf ebuf]. destruct (Z.eqb_spec str 0); [done|]. cbn [orb] in *. apply Z.eqb_eq in E as ->.
    rewrite u32_small, Z.gtb_ltb, (proj2 (Z.ltb_lt _ _)) by lia. done.
  - destruct (vsnprintf_run fuel m str size fmt ap out l) as (m' & Hv & Hm); [apply Ht|lia..|]. eexists _, m'. split; [exact Hv|]. split; [done|].
    assert (Hk : Z.of_nat (length (kept (size - 1) l)) <= size - 1) by (unfold kept; rewrite length_fmap, length_take; lia). split_and!; [|done|].
    + etrans; [|apply (load_store out str)]. rewrite length_app. cbn [length]. rewrite Nat2Z.inj_add.
      apply list_fmap_ext. intros i x _. apply Hm.
    + intros x Hx. rewrite Hm. apply store_other. rewrite length_app. cbn [length]. lia.
Qed.

(** ** Printing and reading numbers *)
Lemma digits_bound base n fuel : forall k, (0 < k)%nat -> 2 <= base -> 0 <= n < base ^ Z.of_nat k -> (length (digits fuel base n) <= k)%nat.
Proof.
  revert n. induction fuel as [|fuel IH]; intros n k Hk Hb Hn; cbn [digits]; [cbn; lia|]. destruct (Z.ltb_spec n base); [cbn; lia|].
  destruct k as [|k]; [lia|]. rewrite Nat2Z.inj_succ, Z.pow_succ_r in Hn by lia. rewrite length_app. cbn [length].
  destruct (decide (k = 0%nat)) as [->|Hk0]; [change (base ^ Z.of_nat 0) with 1 in Hn; lia|].
  pose proof (IH (n / base) k ltac:(lia) Hb ltac:(split; [apply Z.div_pos; lia|apply Z.div_lt_upper_bound; lia])). lia.
Qed.

(** The digits are digits of the base and their value is the number. *)
Lemma digits_value base fuel : forall n, 2 <= base -> 0 <= n < base ^ Z.of_nat fuel -> (0 < fuel)%nat ->
  Forall (fun d => 0 <= d < base) (digits fuel base n) /\ value_from base 0 (digits fuel base n) = n /\ digits fuel base n <> [].
Proof.
  induction fuel as [|fuel IH]; intros n Hb Hn Hf; [lia|]. cbn [digits]. destruct (Z.ltb_spec n base).
  - split; [constructor; [lia|constructor]|]. split; [|done]. unfold value_from. cbn. lia.
  - rewrite Nat2Z.inj_succ, Z.pow_succ_r in Hn by lia. destruct (decide (fuel = 0%nat)) as [->|Hf0]; [change (base ^ Z.of_nat 0) with 1 in Hn; lia|].
    destruct (IH (n / base) Hb) as (H1 & H2 & H3); [split; [apply Z.div_pos; lia|apply Z.div_lt_upper_bound; lia]|lia|].
    split; [|split; [|by intros [_ [=]]%app_nil]].
    + apply Forall_app. split; [done|]. constructor; [apply Z.mod_pos_bound; lia|constructor].
    + unfold value_from in *. rewrite fold_left_app, H2. cbn. pose proof (Z.div_mod n base ltac:(lia)). lia.
Qed.

Lemma digit_chars base ds : 2 <= base <= 16 -> Forall (fun d => 0 <= d < base) ds -> spells base (digit_char <$> ds) ds.
Proof.
  intros Hb. induction 1 as [|d ds Hd Hds IH]; [constructor|]. cbn [fmap list_fmap]. constructor; [|done]. split; [|lia].
  assert (Hall : forallb (fun d => bool_decide (digit (digit_char d) = Some d)) (seqZ 0 16) = true) by (by vm_compute).
  rewrite forallb_forall in Hall. eapply bool_decide_eq_true_1, (Hall d), list_elem_of_In, elem_of_seqZ. lia.
Qed.

Lemma kept_all room l : Z.of_nat (length l) <= room -> Forall (fun c => 0 <= c < 256) l -> kept room l = l.
Proof.
  intros Hr Hl. unfold kept. rewrite take_ge by lia. induction Hl as [|c l Hc Hl IH]; [done|]. cbn [fmap list_fmap]. rewrite Z.mod_small by lia. f_equal. apply IH.
  cbn [length] in Hr. lia.
Qed.

(** The decimal representation as [strtol] takes it apart. *)
Lemma decimal_parts v : int_ok v ->
  exists ds, decimal v (-1) 32 = sign_chars (if v <? 0 then Some true else None) ++ (digit_char <$> ds) /\ spells 10 (digit_char <$> ds) ds /\
    value_from 10 0 ds = Z.abs v /\ ds <> [] /\ (length ds <= 10)%nat.
Proof.
  intros Hv. unfold int_ok in Hv. exists (digits 65 10 (Z.abs v)).
  assert (Hr : 0 <= Z.abs v < 10 ^ Z.of_nat 10) by (change (10 ^ Z.of_nat 10) with 10000000000; lia).
  destruct (digits_value 10 65 (Z.abs v)) as (H1 & H2 & H3); [lia|change (10 ^ Z.of_nat 65) with (10 ^ 65); lia|lia|].
  pose proof (digits_bound 10 (Z.abs v) 65 10 ltac:(lia) ltac:(lia) Hr). split_and!; [|by apply digit_chars|done|done|done].
  unfold decimal, numeral. rewrite length_fmap. destruct (Z.ltb_spec v 0).
  - rewrite Z.abs_neq in * by lia. by replace (Z.to_nat _) with O by lia.
  - rewrite Z.abs_eq in * by lia. by replace (Z.to_nat _) with O by lia.
Qed.

Lemma decimal_bytes v : int_ok v -> Forall (fun c => 0 <= c < 256) (decimal v (-1) 32) /\ (length (decimal v (-1) 32) <= 11)%nat.
Proof.
  intros Hv. destruct (decimal_parts v Hv) as (ds & -> & Hs & _ & _ & Hl). split.
  - apply Forall_app. split; [destruct (v <? 0); repeat constructor; lia|]. clear Hl. induction Hs as [|c d cs ds' [Hd _] _ IH]; constructor; [|done].
    apply digit_ranges in Hd. lia.
  - rewrite length_app, length_fmap. destruct (v <? 0); cbn; lia.
Qed.

(** [strtol] reads back what [snprintf] prints with "%d": for every
    [int] and every buffer of at least 12 bytes the result is the number,
    and all of the string is used. *)
Theorem snprintf_strtol_roundtrip (m out : mem) (fuel fuel' : nat) (str size fmt ap v : Z) :
  cstr m fmt (bytes "%d") -> le32_at m ap = u32 v -> int_ok v -> (8 <= fuel)%nat -> (12 <= fuel')%nat ->
  0 < str -> 12 <= size -> str + size <= 2 ^ 32 ->
  exists n m', vsnprintf fuel m str size fmt ap out = Ok (n, m') /\ 0 < n <= 11 /\ strtol fuel' m' str 10 = Ok (v, str + n).
Proof.
  intros Hf Ha Hv H8 Hfu Hs Hz Hu. destruct (decimal_parts v Hv) as (ds & Hd & Hsp & Hval & Hne & Hl). destruct (decimal_bytes v Hv) as [Hb Hlen].
  destruct (vsnprintf_run fuel m str size fmt ap out (decimal v (-1) 32)) as (m' & He & Hm); [|lia..|].
  { rewrite (vprintfmt_items _ m fuel [Num false [] false Dec v]); [|constructor; [split; [exact field_ok_nil|split; [cbn; lia|exact Hv]]|constructor]|exact Hf|by split|done|cbn; lia].
    unfold output. cbn [fmap list_fmap concat printed]. by rewrite app_nil_r. }
  rewrite kept_all in Hm by (done || lia). assert (Hpos : (0 < length (decimal v (-1) 32))%nat).
  { rewrite Hd, length_app, length_fmap. destruct ds; [done|cbn; lia]. }
  exists (Z.of_nat (length (decimal v (-1) 32))), m'. rewrite He, i32_small by lia. split; [done|]. split; [lia|].
  rewrite (strtol_correct m' str 10 [] (if v <? 0 then Some true else None) (digit_char <$> ds) ds 0); try done.
  - cbn [app]. rewrite Hd, Hval. do 2 f_equal. unfold int_ok in Hv. destruct (Z.ltb_spec v 0); rewrite i32_small by lia; lia.
  - by destruct ds.
  - cbn [app]. rewrite app_assoc, <- Hd. intros i c Hi. rewrite Hm. unfold store. pose proof (lookup_lt_Some _ _ _ Hi).
    rewrite (proj2 (Z.leb_le str _)), (proj2 (Z.ltb_lt _ _)) by lia. cbn [andb]. replace (Z.to_nat _) with i by lia. by rewrite Hi.
  - cbn [length]. rewrite length_fmap. lia.
Qed.

(** ** Examples

    The format at 1, the arguments at 1000, the string "ucore" at 2000;
    zeros elsewhere. *)
Definition lay (f : list Z) (args : list Z) : mem := fun a =>
  if a <? 1000 then default 0 (if a <? 1 then None else f !! Z.to_nat (a - 1)) else
  if a <? 2000 then default 0 (concat (le32_bytes <$> args) !! Z.to_nat (a - 1000)) else default 0 (bytes "ucore" !! Z.to_nat (a - 2000)).

Lemma lay_byte f args a : Forall (fun c => 0 < c < 256) f -> 0 <= lay f args a < 256.
Proof.
  intros Hf. unfold lay. destruct (a <? 1000).
  - destruct (a <? 1); [cbn; lia|]. destruct (f !! _) as [c|] eqn:E; [|cbn; lia]. eapply Forall_lookup_1 in E; [|exact Hf]. cbn in *. lia.
  - destruct (a <? 2000).
    + destruct (_ !! _) as [c|] eqn:E; [|cbn; lia]. cbn. apply list_elem_of_lookup_2, list_elem_of_In, in_concat in E as (l & Hl & Hc).
      apply list_elem_of_In, list_elem_of_fmap in Hl as (w & -> & _). apply list_elem_of_In, list_elem_of_fmap in Hc as (k & -> & _). apply Z.mod_pos_bound. lia.
    + assert (Hu : Forall (fun c => 0 < c < 256) (bytes "ucore")) by (apply (const_ok (bytes "ucore")); by vm_compute).
      destruct (_ !! _) as [c|] eqn:E; [|cbn; lia]. eapply Forall_lookup_1 in E; [|exact Hu]. cbn in *. lia.
Qed.

Lemma strings_end_lay m hi : (forall a, 0 <= m a < 256) -> (forall a, a < 1 \/ hi <= a -> m a = 0) -> 1 <= hi <= 2 ^ 30 -> strings_end m (Z.to_nat hi).
Proof.
  intros Hb Hz Hh. assert (Hn : forall n p, p < 1 \/ hi - p <= Z.of_nat n -> exists l, cstr m p l /\ (length l <= n)%nat).
  { induction n as [|n IH]; intros p Hp.
    - exists []. split; [split; [|constructor]|done]. intros [|i] c; [|done]. intros [= <-]. apply Hz. lia.
    - destruct (Z.eq_dec (m p) 0) as [E|E].
      + exists []. split; [split; [|constructor]|cbn; lia]. intros [|i] c; [|done]. intros [= <-]. by rewrite Z.add_0_r.
      + destruct (IH (p + 1)) as (l & [Hc Hl] & Hln).
        { right. destruct (Z_lt_dec p 1); [|lia]. rewrite (Hz p) in E by lia. lia. }
        exists (m p :: l). split; [split|cbn; lia].
        * intros [|i] c; cbn; [intros [= <-]; f_equal; lia|]. intros Hi. rewrite <- (Hc i c Hi). f_equal. lia.
        * constructor; [pose proof (Hb p); lia|done]. }
  intros p. destruct (Hn (Z.to_nat (hi - 1)) p) as (l & Hc & Hl); [destruct (Z_lt_dec p 1); [by left|right; lia]|]. exists l. split; [done|lia].
Qed.

Lemma lay_ends f args : Forall (fun c => 0 < c < 256) f -> strings_end (lay f args) (Z.to_nat 2005).
Proof.
  intros Hf. apply strings_end_lay; [by intros a; apply lay_byte| |lia]. intros a Ha. unfold lay. destruct (Z.ltb_spec a 1000).
  - by rewrite (proj2 (Z.ltb_lt a 1)) by lia.
  - destruct (Z.ltb_spec a 2000); [lia|]. by rewrite lookup_ge_None_2 by (change (length (bytes "ucore")) with 5%nat; lia).
Qed.

(** "[%08x|%5d|%.3s|%s|%e|%%]" *)
Definition demo_items : list item :=
  [Lit 91; Num true [56] false Hex 48879; Lit 124; Num false [53] false Dec 42; Lit 124; Str false [] [51] 2000 (bytes "ucore"); Lit 124; Nul false [] []; Lit 124;
   Err (-4); Lit 124; Pct; Lit 93].

Lemma bytes_check m p l : forallb (fun i => m (p + Z.of_nat i) =? default 0 (l !! i)) (seq 0 (length l)) = true -> bytes_at m p l.
Proof.
  intros H i c Hi. rewrite forallb_forall in H. specialize (H i). rewrite Hi in H. apply Z.eqb_eq, H, in_seq. apply lookup_lt_Some in Hi. lia.
Qed.

Lemma cstr_check m p l : forallb (fun i => m (p + Z.of_nat i) =? default 0 ((l ++ [0]) !! i)) (seq 0 (length (l ++ [0]))) = true ->
  forallb (fun c => (0 <? c) && (c <? 256)) l = true -> cstr m p l.
Proof. intros H1 H2. split; [by apply bytes_check|by apply const_ok]. Qed.

Lemma vprintfmt_correct_witness :
  vprintfmt (fun c l => l ++ [c]) 40 (lay (bytes "[%08x|%5d|%.3s|%s|%e|%%]") (arguments demo_items)) 1 1000 [] =
    Ok (bytes "[0000beef|   42|uco|(null)|out of memory|%]").
Proof.
  set (m := lay (bytes "[%08x|%5d|%.3s|%s|%e|%%]") (arguments demo_items)).
  rewrite (vprintfmt_correct (fun c l => l ++ [c]) m 40 demo_items 1 1000 []);
    [by vm_compute|by repeat constructor| |apply cstr_check; by vm_compute|by vm_compute|lia|cbn; lia].
  assert (Hs : cstr m 2000 (bytes "ucore")) by (apply cstr_check; by vm_compute).
  assert (H8 : field_ok [56]) by (split; [lia|]; split; [by repeat constructor|by vm_compute]).
  assert (H5 : field_ok [53]) by (split; [lia|]; split; [by repeat constructor|by vm_compute]).
  assert (H3 : field_ok [51]) by (split; [lia|]; split; [by repeat constructor|by vm_compute]).
  pose proof field_ok_nil. unfold demo_items. repeat apply Forall_cons_2; [..|apply Forall_nil_2]; cbn [item_ok]; try done; split_and!; try done; cbn; try lia; vm_compute; lia.
Defined.

(** Other than the comment at its head says, a width pads strings too. *)
Lemma width_pads_strings :
  vprintfmt (fun c l => l ++ [c]) 40 (lay (bytes "%-8s|") [2000]) 1 1000 [] = Ok (bytes "ucore   |").
Proof. by vm_compute. Qed.

Lemma vsnprintf_bounded_witness :
  let m := lay (bytes "%s%d%q") [2000; 7] in
  exists r m', vsnprintf (Z.to_nat 2005) m 5000 6 1 1000 (fun _ => 1) = Ok (r, m') /\ forall x, x < 5000 \/ 5006 <= x -> m' x = 1.
Proof.
  intros m. destruct (vsnprintf_bounded m (fun _ => 1) (Z.to_nat 2005) 5000 6 1 1000) as (l & _ & r & m' & He & _ & _ & _ & Hk);
    [apply lay_ends, const_ok; by vm_compute|lia|lia|lia|]. exists r, m'. split; [exact He|exact Hk].
Defined.

Lemma snprintf_strtol_roundtrip_witness :
  exists n m', vsnprintf 8 (lay (bytes "%d") [-2147483648]) 5000 12 1 1000 (fun _ => 1) = Ok (n, m') /\ 0 < n <= 11 /\ strtol 12 m' 5000 10 = Ok (-2147483648, 5000 + n).
Proof. apply snprintf_strtol_roundtrip; [apply cstr_check; by vm_compute|by vm_compute|by split|lia|lia|lia|lia|lia]. Defined.

(** The minus flag pads numbers on the left, with minus signs; a precision of
    0 is taken for the zero flag. *)
Lemma minus_pads_numbers : vprintfmt (fun c l => l ++ [c]) 20 (lay (bytes "%-5d") [7]) 1 1000 [] = Ok (bytes "----7").
Proof. by vm_compute. Qed.

Lemma zero_precision_ignored : vprintfmt (fun c l => l ++ [c]) 20 (lay (bytes "%.0s") [2000]) 1 1000 [] = Ok (bytes "ucore").
Proof. by vm_compute. Qed.

(** Three error codes have no message. *)
Lemma error_codes_missing : Forall (fun e => error_text e = bytes "error " ++ decimal e (-1) 32) [7; 11; 12].
Proof. repeat constructor. Qed.
