(* ===== verification/Console.v ===== *)
(** * Console, keyboard and line input

    kern/driver/console.c: the characters that arrive at the serial port and
    the keyboard go through a ring of 512 bytes to [cons_getc]; [cons_putc]
    writes to the parallel port, the text screen and the serial port.
    kern/libs/stdio.c and readline.c sit on top of it.

    The devices are their streams: the bytes and scan codes that wait in the
    controllers, and the bytes sent to the ports.  The bounded waits for a
    port to become ready are not modelled, nor is the cursor register. *)
From stdpp Require Import strings.
From S2P Require Import Prelude Libs Sysfile Printfmt.

Definition u8 (z : Z) : Z := z mod 256.
Definition u16 (z : Z) : Z := z mod 65536.

Definition CONSBUFSIZE : Z := 512.
Definition CRT_ROWS : Z := 25.
Definition CRT_COLS : Z := 80.
Definition CRT_SIZE : Z := CRT_ROWS * CRT_COLS.

(** ** Keyboard tables *)
Definition KEY_HOME : Z := 0xE0.
Definition KEY_END : Z := 0xE1.
Definition KEY_UP : Z := 0xE2.
Definition KEY_DN : Z := 0xE3.
Definition KEY_LF : Z := 0xE4.
Definition KEY_RT : Z := 0xE5.
Definition KEY_PGUP : Z := 0xE6.
Definition KEY_PGDN : Z := 0xE7.
Definition KEY_INS : Z := 0xE8.
Definition KEY_DEL : Z := 0xE9.

Definition SHIFT : Z := 1.
Definition CTL : Z := 2.
Definition ALT : Z := 4.
Definition CAPSLOCK : Z := 8.
Definition NUMLOCK : Z := 16.
Definition SCROLLLOCK : Z := 32.
Definition E0ESC : Z := 64.

(** An array of 256 bytes: the first entries, and entries by index. *)
Definition table (first : list Z) (entries : list (Z * Z)) : list Z :=
  foldl (fun l e => <[Z.to_nat e.1 := e.2]> l) (first ++ replicate (256 - length first) 0) entries.

Definition entry (t : list Z) (i : Z) : Z := default 0 (t !! Z.to_nat i).

Definition shiftcode : list Z := table [] [(0x1D, CTL); (0x2A, SHIFT); (0x36, SHIFT); (0x38, ALT); (0x9D, CTL); (0xB8, ALT)].
Definition togglecode : list Z := table [] [(0x3A, CAPSLOCK); (0x45, NUMLOCK); (0x46, SCROLLLOCK)].

Definition normalmap : list Z := table
  [0; 27; 49; 50; 51; 52; 53; 54; 55; 56; 57; 48; 45; 61; 8; 9;
   113; 119; 101; 114; 116; 121; 117; 105; 111; 112; 91; 93; 10; 0; 97; 115;
   100; 102; 103; 104; 106; 107; 108; 59; 39; 96; 0; 92; 122; 120; 99; 118;
   98; 110; 109; 44; 46; 47; 0; 42; 0; 32; 0; 0; 0; 0; 0; 0;
   0; 0; 0; 0; 0; 0; 0; 55; 56; 57; 45; 52; 53; 54; 43; 49;
   50; 51; 48; 46; 0; 0; 0; 0]
  [(0xC7, KEY_HOME); (0x9C, 10); (0xB5, 47); (0xC8, KEY_UP); (0xC9, KEY_PGUP); (0xCB, KEY_LF); (0xCD, KEY_RT); (0xCF, KEY_END); (0xD0, KEY_DN); (0xD1, KEY_PGDN); (0xD2, KEY_INS); (0xD3, KEY_DEL)].

Definition shiftmap : list Z := table
  [0; 27; 33; 64; 35; 36; 37; 94; 38; 42; 40; 41; 95; 43; 8; 9;
   81; 87; 69; 82; 84; 89; 85; 73; 79; 80; 123; 125; 10; 0; 65; 83;
   68; 70; 71; 72; 74; 75; 76; 58; 34; 126; 0; 124; 90; 88; 67; 86;
   66; 78; 77; 60; 62; 63; 0; 42; 0; 32; 0; 0; 0; 0; 0; 0;
   0; 0; 0; 0; 0; 0; 0; 55; 56; 57; 45; 52; 53; 54; 43; 49;
   50; 51; 48; 46; 0; 0; 0; 0]
  [(0xC7, KEY_HOME); (0x9C, 10); (0xB5, 47); (0xC8, KEY_UP); (0xC9, KEY_PGUP); (0xCB, KEY_LF); (0xCD, KEY_RT); (0xCF, KEY_END); (0xD0, KEY_DN); (0xD1, KEY_PGDN); (0xD2, KEY_INS); (0xD3, KEY_DEL)].

Definition ctlmap : list Z := table
  [0; 0; 0; 0; 0; 0; 0; 0; 0; 0; 0; 0; 0; 0; 0; 0;
   17; 23; 5; 18; 20; 25; 21; 9; 15; 16; 0; 0; 13; 0; 1; 19;
   4; 6; 7; 8; 10; 11; 12; 0; 0; 0; 0; 28; 26; 24; 3; 22;
   2; 14; 13; 0; 0; 239; 0; 0]
  [(0x97, KEY_HOME); (0xB5, 239); (0xC8, KEY_UP); (0xC9, KEY_PGUP); (0xCB, KEY_LF); (0xCD, KEY_RT); (0xCF, KEY_END); (0xD0, KEY_DN); (0xD1, KEY_PGDN); (0xD2, KEY_INS); (0xD3, KEY_DEL)].

Definition charcode : list (list Z) := [normalmap; shiftmap; ctlmap; ctlmap].

(** ** State *)
Record con := Con {
  uart_in : list Z; kbd_in : list Z; serial_exists : bool; shift : Z; reboots : Z;
  cbuf : list Z; rpos : Z; wpos : Z;
  crt_buf : mem; crt_pos : Z; lpt_out : list Z; uart_out : list Z
}.
Definition set_uart l s : con := Con l (kbd_in s) (serial_exists s) (shift s) (reboots s) (cbuf s) (rpos s) (wpos s) (crt_buf s) (crt_pos s) (lpt_out s) (uart_out s).
Definition set_kbd l s : con := Con (uart_in s) l (serial_exists s) (shift s) (reboots s) (cbuf s) (rpos s) (wpos s) (crt_buf s) (crt_pos s) (lpt_out s) (uart_out s).
Definition set_shift v s : con := Con (uart_in s) (kbd_in s) (serial_exists s) v (reboots s) (cbuf s) (rpos s) (wpos s) (crt_buf s) (crt_pos s) (lpt_out s) (uart_out s).
Definition set_ring b r w s : con := Con (uart_in s) (kbd_in s) (serial_exists s) (shift s) (reboots s) b r w (crt_buf s) (crt_pos s) (lpt_out s) (uart_out s).
Definition set_crt b p s : con := Con (uart_in s) (kbd_in s) (serial_exists s) (shift s) (reboots s) (cbuf s) (rpos s) (wpos s) b p (lpt_out s) (uart_out s).
Definition out_lpt c s : con := Con (uart_in s) (kbd_in s) (serial_exists s) (shift s) (reboots s) (cbuf s) (rpos s) (wpos s) (crt_buf s) (crt_pos s) (lpt_out s ++ [u8 c]) (uart_out s).
Definition out_uart c s : con := Con (uart_in s) (kbd_in s) (serial_exists s) (shift s) (reboots s) (cbuf s) (rpos s) (wpos s) (crt_buf s) (crt_pos s) (lpt_out s) (uart_out s ++ [u8 c]).

(** ** Output *)
Definition lpt_putc_sub (c : Z) (s : con) : con := out_lpt c s.
Definition lpt_putc (c : Z) (s : con) : con :=
  if negb (c =? 8) then lpt_putc_sub c s else lpt_putc_sub 8 (lpt_putc_sub 32 (lpt_putc_sub 8 s)).

Definition serial_putc_sub (c : Z) (s : con) : con := out_uart c s.
Definition serial_putc (c : Z) (s : con) : con :=
  if negb (c =? 8) then serial_putc_sub c s else serial_putc_sub 8 (serial_putc_sub 32 (serial_putc_sub 8 s)).

(** The screen moves up by one line; the last line becomes blank. *)
Definition scroll (b : mem) : mem := fun i =>
  if (0 <=? i) && (i <? CRT_SIZE - CRT_COLS) then b (i + CRT_COLS)
  else if (CRT_SIZE - CRT_COLS <=? i) && (i <? CRT_SIZE) then Z.lor 0x0700 32 else b i.

Definition cga_putc (c : Z) (s : con) : con :=
  let c := if Z.land c (Z.lnot 0xFF) =? 0 then Z.lor c 0x0700 else c in
  let b := crt_buf s in
  let pos := crt_pos s in
  let '(b, pos) :=
    let ch := Z.land c 0xff in
    if ch =? 8 then
      if pos >? 0 then (upd b (pos - 1) (u16 (Z.lor (Z.land c (Z.lnot 0xff)) 32)), pos - 1) else (b, pos)
    else if ch =? 10 then let pos := u16 (pos + CRT_COLS) in (b, pos - pos mod CRT_COLS)
    else if ch =? 13 then (b, pos - pos mod CRT_COLS)
    else (upd b pos (u16 c), u16 (pos + 1)) in
  if pos >=? CRT_SIZE then set_crt (scroll b) (pos - CRT_COLS) s else set_crt b pos s.

Definition cons_putc (c : Z) (s : con) : con := serial_putc c (cga_putc c (lpt_putc c s)).

(** ** Input *)
Definition cons_put (c : Z) (s : con) : con :=
  let w := wpos s + 1 in
  set_ring (<[Z.to_nat (wpos s) := u8 c]> (cbuf s)) (rpos s) (if w =? CONSBUFSIZE then 0 else w) s.

Fixpoint cons_intr (fuel : nat) (proc : con -> Z * con) (s : con) : res con :=
  match fuel with
  | O => Spin
  | S fuel =>
      let '(c, s) := proc s in
      if negb (c =? -1) then cons_intr fuel proc (if negb (c =? 0) then cons_put c s else s)
      else Ok s
  end.

Definition serial_proc_data (s : con) : Z * con :=
  match uart_in s with
  | [] => (-1, s)
  | c :: r => (if c =? 127 then 8 else c, set_uart r s)
  end.
Definition serial_intr (s : con) : res con :=
  if serial_exists s then cons_intr (S (length (uart_in s))) serial_proc_data s else Ok s.

(** One scan code: the character or 0, the shift state, and whether the keys
    are Ctrl-Alt-Del. *)
Definition kbd_code (data sh : Z) : Z * Z * bool :=
  if data =? 0xE0 then (0, Z.lor sh E0ESC, false)
  else if negb (Z.land data 0x80 =? 0) then
    let data := if negb (Z.land sh E0ESC =? 0) then data else Z.land data 0x7F in
    (0, Z.land sh (Z.lnot (Z.lor (entry shiftcode data) E0ESC)), false)
  else
    let '(data, sh) := if negb (Z.land sh E0ESC =? 0) then (Z.lor data 0x80, Z.land sh (Z.lnot E0ESC)) else (data, sh) in
    let sh := Z.lor sh (entry shiftcode data) in
    let sh := Z.lxor sh (entry togglecode data) in
    let c := entry (default [] (charcode !! Z.to_nat (Z.land sh (Z.lor CTL SHIFT)))) data in
    let c := if negb (Z.land sh CAPSLOCK =? 0) then
               if (97 <=? c) && (c <=? 122) then c + (65 - 97) else if (65 <=? c) && (c <=? 90) then c + (97 - 65) else c
             else c in
    (c, sh, (Z.land (Z.lnot sh) (Z.lor CTL ALT) =? 0) && (c =? KEY_DEL)).

(** The reset line, and "Rebooting!" before it. *)
Definition reset (s : con) : con :=
  Con (uart_in s) (kbd_in s) (serial_exists s) (shift s) (reboots s + 1) (cbuf s) (rpos s) (wpos s) (crt_buf s) (crt_pos s) (lpt_out s) (uart_out s).
Definition reboot (s : con) : con := reset (run cons_putc s (bytes "Rebooting!" ++ [10])).

Definition kbd_proc_data (s : con) : Z * con :=
  match kbd_in s with
  | [] => (-1, s)
  | data :: r =>
      let '(c, sh, del) := kbd_code data (shift s) in
      let s := set_shift sh (set_kbd r s) in
      (c, if del : bool then reboot s else s)
  end.
Definition kbd_intr (s : con) : res con := cons_intr (S (length (kbd_in s))) kbd_proc_data s.

Definition cons_getc (s : con) : res (Z * con) :=
  s ← serial_intr s;
  s ← kbd_intr s;
  if negb (rpos s =? wpos s) then
    let c := entry (cbuf s) (rpos s) in
    let r := rpos s + 1 in
    Ok (c, set_ring (cbuf s) (if r =? CONSBUFSIZE then 0 else r) (wpos s) s)
  else Ok (0, s).

(** ** The input ring *)
Record ring (s : con) (q : list Z) : Prop := {
  rg_buf : length (cbuf s) = 512%nat;
  rg_rpos : 0 <= rpos s < 512;
  rg_len : Z.of_nat (length q) < 512;
  rg_wpos : wpos s = (rpos s + Z.of_nat (length q)) mod 512;
  rg_data : forall i c, q !! i = Some c -> cbuf s !! Z.to_nat ((rpos s + Z.of_nat i) mod 512) = Some c
}.

Definition ring_part (s : con) := (cbuf s, rpos s, wpos s).

Lemma ring_same s s' q : ring_part s' = ring_part s -> ring s q -> ring s' q.
Proof. intros [= H1 H2 H3] []. constructor; by rewrite ?H1, ?H2, ?H3. Qed.

Lemma mod512_inj r i j : 0 <= i < 512 -> 0 <= j < 512 -> (r + i) mod 512 = (r + j) mod 512 -> i = j.
Proof.
  intros Hi Hj H. pose proof (Z.div_mod (r + i) 512 ltac:(lia)). pose proof (Z.div_mod (r + j) 512 ltac:(lia)).
  assert ((r + i) / 512 = (r + j) / 512) by nia. lia.
Qed.

Lemma cons_put_ring s q c : ring s q -> Z.of_nat (length q) < 511 -> ring (cons_put c s) (q ++ [u8 c]).
Proof.
  intros [] Hl. unfold cons_put. pose proof (Z.mod_pos_bound (rpos s + Z.of_nat (length q)) 512 ltac:(lia)) as Hw.
  constructor; cbn [cbuf rpos wpos set_ring].
  - by rewrite length_insert.
  - done.
  - rewrite length_app. cbn. lia.
  - rewrite length_app. cbn [length]. rewrite rg_wpos0. unfold CONSBUFSIZE. replace (rpos s + Z.of_nat (length q + 1)) with (rpos s + Z.of_nat (length q) + 1) by lia.
    rewrite <- (Zplus_mod_idemp_l (_ + _) 1). destruct (Z.eqb_spec ((rpos s + Z.of_nat (length q)) mod 512 + 1) 512) as [->|]; [done|].
    symmetry. apply Z.mod_small. lia.
  - intros i x Hi. apply lookup_app_Some in Hi as [Hi|[Hge Hi]].
    + pose proof (lookup_lt_Some _ _ _ Hi). rewrite list_lookup_insert_ne; [by apply rg_data0|]. rewrite rg_wpos0. intros E.
      pose proof (Z.mod_pos_bound (rpos s + Z.of_nat i) 512 ltac:(lia)). apply Z2Nat.inj in E; [|lia..]. apply mod512_inj in E; lia.
    + apply list_lookup_singleton_Some in Hi as [Hi <-]. replace i with (length q) by lia. rewrite rg_wpos0. apply list_lookup_insert_eq. lia.
Qed.

(** The characters that go into the ring. *)
Definition nonzero (l : list Z) : list Z := u8 <$> filter (fun c => c <> 0) l.
Definition serial_char (c : Z) : Z := if c =? 127 then 8 else c.
Fixpoint kbd_chars (sh : Z) (codes : list Z) : list Z * Z :=
  match codes with
  | [] => ([], sh)
  | d :: r => let '(c, sh, _) := kbd_code d sh in let '(l, sh) := kbd_chars sh r in (c :: l, sh)
  end.

Lemma nonzero_cons c l : nonzero (c :: l) = (if c =? 0 then [] else [u8 c]) ++ nonzero l.
Proof. unfold nonzero. rewrite filter_cons. destruct (Z.eqb_spec c 0); case_decide; done. Qed.

Lemma cons_intr_more fuel proc s c s1 : proc s = (c, s1) -> c <> -1 ->
  cons_intr (S fuel) proc s = cons_intr fuel proc (if negb (c =? 0) then cons_put c s1 else s1).
Proof. intros H Hc. cbn [cons_intr]. by rewrite H, (proj2 (Z.eqb_neq c (-1))). Qed.

(** One character on its way into the ring. *)
Lemma fifo_step s q c cs : ring s q -> Z.of_nat (length (q ++ nonzero (c :: cs))) < 512 ->
  ring (if negb (c =? 0) then cons_put c s else s) (q ++ (if c =? 0 then [] else [u8 c])).
Proof.
  intros Hr Hl. rewrite nonzero_cons, !length_app in Hl. destruct (c =? 0); cbn [negb length] in *; [by rewrite app_nil_r|]. apply cons_put_ring; [done|lia].
Qed.

Lemma serial_intr_ring l : forall s q, uart_in s = l -> Forall (fun c => 0 <= c < 256) l -> ring s q ->
  Z.of_nat (length (q ++ nonzero (serial_char <$> l))) < 512 ->
  exists s', cons_intr (S (length l)) serial_proc_data s = Ok s' /\ ring s' (q ++ nonzero (serial_char <$> l)) /\
    uart_in s' = [] /\ kbd_in s' = kbd_in s /\ shift s' = shift s /\ serial_exists s' = serial_exists s.
Proof.
  induction l as [|c l IH]; intros s q Hu Hb Hr Hl.
  { exists s. cbn [cons_intr length]. unfold serial_proc_data. rewrite Hu. cbn. by rewrite app_nil_r. }
  apply Forall_cons in Hb as [Hc Hb]. cbn [fmap list_fmap length] in *. set (d := serial_char c) in *.
  assert (Hd : d <> -1) by (unfold d, serial_char; destruct (c =? 127); lia).
  erewrite cons_intr_more; [|unfold serial_proc_data; rewrite Hu; done|exact Hd]. fold d.
  pose proof (fifo_step (set_uart l s) q d (serial_char <$> l) (ring_same s (set_uart l s) q eq_refl Hr) Hl) as Hs.
  rewrite nonzero_cons, app_assoc in Hl |- *.
  destruct (IH (if negb (d =? 0) then cons_put d (set_uart l s) else set_uart l s) _ ltac:(by destruct (d =? 0)) Hb Hs Hl) as (s' & H1 & H2 & H3 & H4 & H5 & H6).
  exists s'. split; [exact H1|]. split; [exact H2|]. rewrite H3, H4, H5, H6. by destruct (d =? 0).
Qed.

(** Every character a key stands for is a byte. *)
Lemma charcode_byte i j : 0 <= entry (default [] (charcode !! i)) j < 256.
Proof.
  assert (H : forallb (forallb (fun c => (0 <=? c) && (c <? 256))) charcode = true) by (by vm_compute). rewrite forallb_forall in H.
  destruct (charcode !! i) as [t|] eqn:E; [|unfold entry; cbn [default]; rewrite lookup_nil; cbn; lia]. apply list_elem_of_lookup_2, list_elem_of_In in E.
  specialize (H t E). rewrite forallb_forall in H. unfold entry. change (default [] (Some t)) with t. destruct (t !! Z.to_nat j) as [c|] eqn:Ec; [|cbn; lia].
  apply list_elem_of_lookup_2, list_elem_of_In in Ec. specialize (H c Ec). cbn. lia.
Qed.

Lemma caps_byte c : 0 <= c < 256 -> 0 <= (if (97 <=? c) && (c <=? 122) then c + (65 - 97) else if (65 <=? c) && (c <=? 90) then c + (97 - 65) else c) < 256.
Proof. intros Hc. destruct (Z.leb_spec 97 c), (Z.leb_spec c 122), (Z.leb_spec 65 c), (Z.leb_spec c 90); cbn [andb]; lia. Qed.

Lemma kbd_code_byte d sh : 0 <= (kbd_code d sh).1.1 < 256.
Proof.
  unfold kbd_code. destruct (d =? 0xE0); [cbn [fst]; lia|]. destruct (negb (Z.land d 0x80 =? 0)); [cbn [fst]; lia|]. destruct (if negb (Z.land sh E0ESC =? 0) then _ else _) as [d' sh'].
  cbv zeta. cbn [fst]. destruct (negb _); [apply caps_byte|]; apply charcode_byte.
Qed.

Lemma puts_keeps l : forall s, (ring_part (run cons_putc s l) = ring_part s /\ kbd_in (run cons_putc s l) = kbd_in s /\ uart_in (run cons_putc s l) = uart_in s /\
  shift (run cons_putc s l) = shift s /\ serial_exists (run cons_putc s l) = serial_exists s).
Proof.
  induction l as [|c l IH]; intros s; [done|]. change (run cons_putc s (c :: l)) with (run cons_putc (cons_putc c s) l). destruct (IH (cons_putc c s)) as (-> & -> & -> & -> & ->).
  unfold cons_putc, serial_putc, lpt_putc, cga_putc. cbv zeta. destruct (c =? 8); cbn [negb]; destruct (if Z.land _ 0xff =? 8 then _ else _) as [b pos]; by destruct (pos >=? CRT_SIZE).
Qed.

Lemma reboot_keeps s : ring_part (reboot s) = ring_part s /\ kbd_in (reboot s) = kbd_in s /\ uart_in (reboot s) = uart_in s /\ shift (reboot s) = shift s /\
  serial_exists (reboot s) = serial_exists s.
Proof.
  assert (H : forall x, ring_part (reset x) = ring_part x /\ kbd_in (reset x) = kbd_in x /\ uart_in (reset x) = uart_in x /\ shift (reset x) = shift x /\
    serial_exists (reset x) = serial_exists x) by done.
  unfold reboot. destruct (H (run cons_putc s (bytes "Rebooting!" ++ [10]))) as (-> & -> & -> & -> & ->). apply puts_keeps.
Qed.

Lemma kbd_intr_ring l : forall s q, kbd_in s = l -> ring s q ->
  Z.of_nat (length (q ++ nonzero (kbd_chars (shift s) l).1)) < 512 ->
  exists s', cons_intr (S (length l)) kbd_proc_data s = Ok s' /\ ring s' (q ++ nonzero (kbd_chars (shift s) l).1) /\
    kbd_in s' = [] /\ uart_in s' = uart_in s /\ shift s' = (kbd_chars (shift s) l).2 /\ serial_exists s' = serial_exists s.
Proof.
  induction l as [|d l IH]; intros s q Hk Hr Hl.
  { exists s. cbn [cons_intr length]. unfold kbd_proc_data. rewrite Hk. cbn. by rewrite app_nil_r. }
  cbn [kbd_chars length] in *. pose proof (kbd_code_byte d (shift s)) as Hb. destruct (kbd_code d (shift s)) as [[c sh] del] eqn:E. cbn [fst] in Hb.
  destruct (kbd_chars sh l) as [cs sh'] eqn:E'. cbn [fst snd] in *.
  set (s1 := let s0 := set_shift sh (set_kbd l s) in if del then reboot s0 else s0).
  assert (Hs1 : ring_part s1 = ring_part s /\ kbd_in s1 = l /\ uart_in s1 = uart_in s /\ shift s1 = sh /\ serial_exists s1 = serial_exists s).
  { unfold s1. cbv zeta. destruct del; [|done]. by destruct (reboot_keeps (set_shift sh (set_kbd l s))) as (-> & -> & -> & -> & ->). }
  destruct Hs1 as (P1 & P2 & P3 & P4 & P5). erewrite cons_intr_more; [|unfold kbd_proc_data; rewrite Hk, E; reflexivity|lia]. fold s1.
  pose proof (fifo_step s1 q c cs (ring_same s s1 q P1 Hr) Hl) as Hs. rewrite nonzero_cons, app_assoc in Hl |- *.
  destruct (IH (if negb (c =? 0) then cons_put c s1 else s1) (q ++ (if c =? 0 then [] else [u8 c]))) as (s' & H1 & H2 & H3 & H4 & H5 & H6);
    [by destruct (c =? 0)|exact Hs|destruct (c =? 0); cbn [negb shift cons_put set_ring]; by rewrite P4, E'|].
  assert (Hsh : shift (if negb (c =? 0) then cons_put c s1 else s1) = sh) by (by destruct (c =? 0)). rewrite Hsh, E' in *. cbn [fst snd] in *.
  exists s'. split; [exact H1|]. split; [exact H2|]. split; [exact H3|]. split; [rewrite H4; by destruct (c =? 0)|]. split; [done|]. rewrite H6. by destruct (c =? 0).
Qed.

(** What waits in the controllers. *)
Definition arriving (s : con) : list Z :=
  nonzero (if serial_exists s then serial_char <$> uart_in s else []) ++ nonzero (kbd_chars (shift s) (kbd_in s)).1.

Lemma ring_pop s c q : ring s (c :: q) -> rpos s <> wpos s /\ entry (cbuf s) (rpos s) = c /\
  ring (set_ring (cbuf s) (if rpos s + 1 =? CONSBUFSIZE then 0 else rpos s + 1) (wpos s) s) q.
Proof.
  intros []. cbn [length] in *. assert (Hw : rpos s mod 512 = rpos s) by (apply Z.mod_small; lia). split_and!.
  - rewrite rg_wpos0. intros E. rewrite <- Hw in E at 1. rewrite <- (Z.add_0_r (rpos s)) in E at 1. apply mod512_inj in E; lia.
  - unfold entry. specialize (rg_data0 0%nat c eq_refl). rewrite Z.add_0_r, Hw in rg_data0. by rewrite rg_data0.
  - unfold CONSBUFSIZE. assert (Hn : forall z, ((if rpos s + 1 =? 512 then 0 else rpos s + 1) + z) mod 512 = (rpos s + (1 + z)) mod 512).
    { intros z. destruct (Z.eqb_spec (rpos s + 1) 512) as [E|E]; [|f_equal; lia]. replace (rpos s + (1 + z)) with (0 + z + 1 * 512) by lia. by rewrite Z.mod_add by lia. }
    constructor; cbn [cbuf rpos wpos set_ring]; [done| |lia| |].
    + destruct (Z.eqb_spec (rpos s + 1) 512); lia.
    + rewrite Hn, rg_wpos0. f_equal. lia.
    + intros i x Hi. rewrite Hn. rewrite <- (rg_data0 (S i) x Hi). do 3 f_equal. lia.
Qed.

Lemma ring_none s : ring s [] -> rpos s = wpos s.
Proof. intros []. cbn [length] in *. rewrite rg_wpos0, Z.add_0_r. symmetry. by apply Z.mod_small. Qed.

(** Everything is in the ring. *)
Definition drained (s : con) : Prop := kbd_in s = [] /\ (serial_exists s = true -> uart_in s = []).

Lemma cons_getc_spec (s : con) (q : list Z) :
  ring s q -> Forall (fun c => 0 <= c < 256) (uart_in s) -> Z.of_nat (length (q ++ arriving s)) < 512 ->
  exists s', cons_getc s = Ok (default 0 (head (q ++ arriving s)), s') /\ ring s' (tail (q ++ arriving s)) /\
    drained s' /\ shift s' = (kbd_chars (shift s) (kbd_in s)).2 /\ Forall (fun c => 0 <= c < 256) (uart_in s').
Proof.
  intros Hr Hb Hl. unfold cons_getc. unfold arriving in *. rewrite app_assoc in Hl |- *. rewrite length_app in Hl.
  assert (Hs : exists s1, serial_intr s = Ok s1 /\ ring s1 (q ++ nonzero (if serial_exists s then serial_char <$> uart_in s else [])) /\
    (serial_exists s1 = true -> uart_in s1 = []) /\ kbd_in s1 = kbd_in s /\ shift s1 = shift s /\ Forall (fun c => 0 <= c < 256) (uart_in s1)).
  { unfold serial_intr. destruct (serial_exists s) eqn:Ee.
    - destruct (serial_intr_ring (uart_in s) s q eq_refl Hb Hr ltac:(lia)) as (s1 & H1 & H2 & H3 & H4 & H5 & H6). exists s1. rewrite H3. by split_and!.
    - exists s. split; [done|]. split; [by rewrite app_nil_r|]. rewrite Ee. by split_and!. }
  destruct Hs as (s1 & -> & Hr1 & Hu1 & Hk1 & Hs1 & Hb1). cbn [mbind res_bind]. set (q1 := q ++ nonzero _) in *. rewrite <- Hs1 in Hl |- *. rewrite <- Hk1 in Hl |- *.
  destruct (kbd_intr_ring (kbd_in s1) s1 q1 eq_refl Hr1) as (s2 & H1 & H2 & H3 & H4 & H5 & H6); [rewrite length_app; lia|].
  unfold kbd_intr. rewrite H1. cbn [mbind res_bind]. destruct (q1 ++ _) as [|c q2].
  - rewrite (ring_none s2 H2), Z.eqb_refl. cbn [negb]. exists s2. split; [done|]. split; [done|]. unfold drained. rewrite H4, H6. by split_and!.
  - destruct (ring_pop s2 c q2 H2) as (Hne & Hc & Hr2). rewrite (proj2 (Z.eqb_neq _ _) Hne), Hc. cbn [negb]. eexists. split; [done|]. split; [exact Hr2|].
    unfold drained. cbn [uart_in kbd_in shift serial_exists set_ring]. rewrite H4, H6. by split_and!.
Qed.

(** C32: the console input is a queue: while fewer than 512 characters are
    waiting, [cons_getc] takes all that has arrived at the serial port and
    the keyboard behind what is in the ring, in order and without the keys
    that stand for no character, and returns the oldest one, or 0 when there
    is none. *)
Theorem cons_getc_fifo (s : con) (q : list Z) :
  ring s q -> Forall (fun c => 0 <= c < 256) (uart_in s) -> Z.of_nat (length (q ++ arriving s)) < 512 ->
  exists s', cons_getc s = Ok (default 0 (head (q ++ arriving s)), s') /\ ring s' (tail (q ++ arriving s)) /\
    drained s' /\ shift s' = (kbd_chars (shift s) (kbd_in s)).2.
Proof. intros Hr Hb Hl. destruct (cons_getc_spec s q Hr Hb Hl) as (s' & H1 & H2 & H3 & H4 & _). by exists s'. Qed.

(** ** The screen as a window on an endless page

    [tape] is the page, line after line; the window shows the 25 lines from
    line [top] on, and [cur] is where the next character goes. *)
Record page := Page { tape : mem; cur : Z; top : Z }.

Definition blank : Z := Z.lor 0x0700 32.
Definition cell (c : Z) : Z := if Z.land c (Z.lnot 0xFF) =? 0 then Z.lor c 0x0700 else c.

Definition page_putc (c : Z) (p : page) : page :=
  let ch := Z.land (cell c) 0xff in
  let '(t, x) :=
    if ch =? 8 then
      if cur p >? top p * CRT_COLS then (upd (tape p) (cur p - 1) (u16 (Z.lor (Z.land (cell c) (Z.lnot 0xff)) 32)), cur p - 1) else (tape p, cur p)
    else if ch =? 10 then (tape p, cur p + CRT_COLS - cur p mod CRT_COLS)
    else if ch =? 13 then (tape p, cur p - cur p mod CRT_COLS)
    else (upd (tape p) (cur p) (u16 (cell c)), cur p + 1) in
  Page t x (if x >=? (top p + CRT_ROWS) * CRT_COLS then top p + 1 else top p).

Record shows (p : page) (s : con) : Prop := {
  sh_pos : 0 <= crt_pos s < CRT_SIZE;
  sh_cur : cur p = top p * CRT_COLS + crt_pos s;
  sh_cells : forall i, 0 <= i < CRT_SIZE -> crt_buf s i = tape p (top p * CRT_COLS + i);
  sh_below : forall x, (top p + CRT_ROWS) * CRT_COLS <= x -> tape p x = blank
}.

(** The window after the cursor has moved to [x] on the page [t]. *)
Lemma window_moves (t b : mem) (x pos k : Z) s :
  (forall i, 0 <= i < CRT_SIZE -> b i = t (k * CRT_COLS + i)) -> (forall y, (k + CRT_ROWS) * CRT_COLS <= y -> t y = blank) ->
  x = k * CRT_COLS + pos -> 0 <= pos < CRT_SIZE + CRT_COLS ->
  shows (Page t x (if x >=? (k + CRT_ROWS) * CRT_COLS then k + 1 else k)) (if pos >=? CRT_SIZE then set_crt (scroll b) (pos - CRT_COLS) s else set_crt b pos s).
Proof.
  intros Hb Ht Hx Hp. unfold CRT_SIZE, CRT_ROWS, CRT_COLS in *. rewrite !Z.geb_leb.
  destruct (Z.leb_spec (25 * 80) pos).
  - rewrite (proj2 (Z.leb_le _ _)) by lia. constructor; cbn [crt_pos crt_buf set_crt tape cur top]; unfold CRT_SIZE, CRT_ROWS, CRT_COLS.
    + lia.
    + lia.
    + intros i Hi. unfold scroll, CRT_SIZE, CRT_ROWS, CRT_COLS. rewrite (proj2 (Z.leb_le 0 i)) by lia. cbn [andb]. destruct (Z.ltb_spec i (25 * 80 - 80)).
      * rewrite Hb by lia. f_equal. lia.
      * rewrite (proj2 (Z.leb_le _ i)), (proj2 (Z.ltb_lt i _)) by lia. cbn [andb]. symmetry. apply Ht. lia.
    + intros y Hy. apply Ht. lia.
  - rewrite (proj2 (Z.leb_gt _ _)) by lia. constructor; cbn [crt_pos crt_buf set_crt tape cur top]; unfold CRT_SIZE, CRT_ROWS, CRT_COLS; [lia|lia|exact Hb|exact Ht].
Qed.

(** A character written at the cursor, inside the window. *)
Lemma window_write (t b : mem) (k pos v : Z) :
  (forall i, 0 <= i < CRT_SIZE -> b i = t (k * CRT_COLS + i)) -> 0 <= pos < CRT_SIZE ->
  (forall i, 0 <= i < CRT_SIZE -> upd b pos v i = upd t (k * CRT_COLS + pos) v (k * CRT_COLS + i)).
Proof. unfold CRT_COLS. intros Hb Hp i Hi. rewrite !upd_eq. destruct (Z.eqb_spec i pos), (Z.eqb_spec (k * 80 + i) (k * 80 + pos)); [done|lia..|by apply Hb]. Qed.

Lemma below_write (t : mem) (k x v : Z) : (forall y, (k + CRT_ROWS) * CRT_COLS <= y -> t y = blank) -> x < (k + CRT_ROWS) * CRT_COLS ->
  (forall y, (k + CRT_ROWS) * CRT_COLS <= y -> upd t x v y = blank).
Proof. intros Ht Hx y Hy. rewrite upd_eq, (proj2 (Z.eqb_neq y x)) by lia. by apply Ht. Qed.

Lemma cga_putc_shows c p s : shows p s -> shows (page_putc c p) (cga_putc c s).
Proof.
  intros [Hp Hc Hb Ht]. unfold cga_putc, page_putc. cbv zeta. fold (cell c). set (ch := Z.land (cell c) 0xff).
  assert (Hmod : cur p mod CRT_COLS = crt_pos s mod CRT_COLS) by (rewrite Hc, Z.add_comm; apply Z.mod_add; by unfold CRT_COLS).
  pose proof (Z.mod_pos_bound (crt_pos s) CRT_COLS ltac:(by unfold CRT_COLS)) as Hm. pose proof (Z.mod_le (crt_pos s) CRT_COLS ltac:(lia) ltac:(by unfold CRT_COLS)) as Hle.
  assert (Hnl : (crt_pos s + CRT_COLS) mod CRT_COLS = crt_pos s mod CRT_COLS) by (rewrite <- (Z.mul_1_l CRT_COLS) at 1; apply Z.mod_add; by unfold CRT_COLS).
  destruct (ch =? 8).
  - rewrite !Z.gtb_ltb. destruct (Z.ltb_spec 0 (crt_pos s)).
    + rewrite (proj2 (Z.ltb_lt _ _)) by lia. apply window_moves; unfold CRT_SIZE, CRT_ROWS, CRT_COLS in *; [|apply below_write; [done|unfold CRT_ROWS, CRT_COLS; lia]|lia|lia].
      replace (cur p - 1) with (top p * 80 + (crt_pos s - 1)) by lia. apply window_write; unfold CRT_SIZE, CRT_ROWS, CRT_COLS; [done|lia].
    + rewrite (proj2 (Z.ltb_ge _ _)) by lia. apply window_moves; unfold CRT_SIZE, CRT_ROWS, CRT_COLS in *; [done|done|lia|lia].
  - destruct (ch =? 10).
    + assert (Hu : u16 (crt_pos s + CRT_COLS) = crt_pos s + CRT_COLS) by (unfold u16; apply Z.mod_small; unfold CRT_SIZE, CRT_ROWS, CRT_COLS in *; lia).
      rewrite Hu, Hmod, Hnl.
      apply window_moves; unfold CRT_SIZE, CRT_ROWS, CRT_COLS in *; [done|done|lia|lia].
    + destruct (ch =? 13).
      * rewrite Hmod. apply window_moves; unfold CRT_SIZE, CRT_ROWS, CRT_COLS in *; [done|done|lia|lia].
      * assert (Hu : u16 (crt_pos s + 1) = crt_pos s + 1) by (unfold u16; apply Z.mod_small; unfold CRT_SIZE, CRT_ROWS, CRT_COLS in *; lia). rewrite Hu.
        apply window_moves; unfold CRT_SIZE, CRT_ROWS, CRT_COLS in *; [|apply below_write; [done|unfold CRT_ROWS, CRT_COLS; lia]|lia|lia].
        rewrite Hc. by apply window_write.
Qed.

Lemma cga_putc_inside c s i : 0 <= crt_pos s < CRT_SIZE -> i < 0 \/ CRT_SIZE <= i -> crt_buf (cga_putc c s) i = crt_buf s i.
Proof.
  intros Hp Hi. unfold cga_putc. cbv zeta.
  assert (Hw : forall b pos, b i = crt_buf s i -> crt_buf (if pos >=? CRT_SIZE then set_crt (scroll b) (pos - CRT_COLS) s else set_crt b pos s) i = crt_buf s i).
  { intros b pos Hb. destruct (pos >=? CRT_SIZE); cbn [crt_buf set_crt]; [|done]. unfold scroll, CRT_SIZE, CRT_ROWS, CRT_COLS in *.
    destruct (Z.leb_spec 0 i), (Z.ltb_spec i (25 * 80 - 80)), (Z.leb_spec (25 * 80 - 80) i), (Z.ltb_spec i (25 * 80)); cbn [andb]; done || lia. }
  destruct (_ =? 8); [destruct (Z.gtb_spec (crt_pos s) 0)|destruct (_ =? 10); [|destruct (_ =? 13)]]; apply Hw; rewrite ?upd_eq; try done; by rewrite (proj2 (Z.eqb_neq i _)) by lia.
Qed.

(** the text screen shows an endless page through a window of 25 lines:
    every character, newline, carriage return and backspace changes the
    screen as it changes the page, scrolling included; the cursor stays on
    the screen and no cell outside the screen is written. *)
Theorem cga_putc_correct (l : list Z) (p : page) (s : con) :
  shows p s ->
  shows (run page_putc p l) (run cga_putc s l) /\
  (forall i, i < 0 \/ CRT_SIZE <= i -> crt_buf (run cga_putc s l) i = crt_buf s i).
Proof.
  revert p s. induction l as [|c l IH]; intros p s H; [done|]. cbn [run foldl]. destruct (IH _ _ (cga_putc_shows c p s H)) as [H1 H2].
  split; [exact H1|]. intros i Hi. rewrite H2 by done. apply cga_putc_inside; [apply H|done].
Qed.

(** ** Typing *)
Definition index_of (c : Z) (t : list Z) : option Z := Z.of_nat ∘ fst <$> list_find (fun x => x = c) (take 88 t).

(** Press and release the key of a character, under the shift key when the
    plain key gives another one. *)
Definition key_codes (c : Z) : list Z :=
  match index_of c normalmap with
  | Some i => [i; i + 0x80]
  | None => match index_of c shiftmap with Some i => [0x2A; i; i + 0x80; 0xAA] | None => [] end
  end.

Definition typeable (c : Z) : bool := ((32 <=? c) && (c <=? 126)) || (c =? 10) || (c =? 9) || (c =? 8).

Lemma kbd_chars_app l1 : forall sh l2, kbd_chars sh (l1 ++ l2) = let '(c1, sh1) := kbd_chars sh l1 in let '(c2, sh2) := kbd_chars sh1 l2 in (c1 ++ c2, sh2).
Proof.
  induction l1 as [|d l1 IH]; intros sh l2; cbn [app kbd_chars]; [by destruct (kbd_chars sh l2)|]. destruct (kbd_code d sh) as [[c sh1] del].
  rewrite IH. destruct (kbd_chars sh1 l1) as [c1 sh2]. by destruct (kbd_chars sh2 l2).
Qed.

Lemma nonzero_app l1 l2 : nonzero (l1 ++ l2) = nonzero l1 ++ nonzero l2.
Proof. unfold nonzero. by rewrite filter_app, fmap_app. Qed.

Lemma key_codes_ok c : typeable c = true -> nonzero (kbd_chars 0 (key_codes c)).1 = [c] /\ (kbd_chars 0 (key_codes c)).2 = 0.
Proof.
  assert (H : forallb (fun c => negb (typeable c) || bool_decide (nonzero (kbd_chars 0 (key_codes c)).1 = [c]) && ((kbd_chars 0 (key_codes c)).2 =? 0)) (seqZ 0 128) = true)
    by (by vm_compute).
  intros Ht. rewrite forallb_forall in H. specialize (H c). rewrite Ht in H. cbn [negb orb] in H. apply andb_true_iff in H as [H1 H2]; [split; [by apply bool_decide_eq_true_1 in H1|by apply Z.eqb_eq]|].
  apply list_elem_of_In, elem_of_seqZ. unfold typeable in Ht. rewrite !orb_true_iff, andb_true_iff in Ht. lia.
Qed.

(** every text of printable characters, tabs, newlines and backspaces can
    be typed: pressing and releasing the keys of its characters one after the
    other puts exactly the text into the input and leaves no modifier set. *)
Theorem kbd_types_text (l : list Z) :
  Forall (fun c => typeable c = true) l ->
  nonzero (kbd_chars 0 (concat (key_codes <$> l))).1 = l /\ (kbd_chars 0 (concat (key_codes <$> l))).2 = 0.
Proof.
  induction 1 as [|c l Hc Hl [IH1 IH2]]; [done|]. cbn [fmap list_fmap concat]. rewrite kbd_chars_app. destruct (key_codes_ok c Hc) as [H1 H2].
  destruct (kbd_chars 0 (key_codes c)) as [c1 sh1]. cbn [fst snd] in *. subst sh1. change (concat (list_fmap Z (list Z) key_codes l)) with (concat (key_codes <$> l)).
  destruct (kbd_chars 0 (concat (key_codes <$> l))) as [c2 sh2]. cbn [fst snd] in *. by rewrite nonzero_app, H1, IH1.
Qed.

(** ** stdio.c *)
Definition cputch (c : Z) (x : con * Z) : con * Z := (cons_putc c x.1, i32 (x.2 + 1)).
Definition vcprintf (fuel : nat) (m : mem) (fmt ap : Z) (s : con) : res (Z * con) :=
  '(s, cnt) ← vprintfmt cputch fuel m fmt ap (s, 0); Ok (cnt, s).
Definition cputchar (c : Z) (s : con) : con := cons_putc c s.

Fixpoint cputs_loop (fuel : nat) (m : mem) (str : Z) (x : con * Z) : res (con * Z) :=
  match fuel with
  | O => Spin
  | S fuel => let c := schar (m str) in if negb (c =? 0) then cputs_loop fuel m (str + 1) (cputch c x) else Ok x
  end.
Definition cputs (fuel : nat) (m : mem) (str : Z) (s : con) : res (Z * con) :=
  x ← cputs_loop fuel m str (s, 0); let '(s, cnt) := cputch 10 x in Ok (cnt, s).

(** [fuel]: how often it looks. *)
Fixpoint getchar (fuel : nat) (s : con) : res (Z * con) :=
  match fuel with
  | O => Spin
  | S fuel => '(c, s) ← cons_getc s; if c =? 0 then getchar fuel s else Ok (c, s)
  end.

(** ** readline.c

    Where the characters come from and go to, as an interface: [pending g l]
    when [g] will deliver [l]. *)
Class Terminal (G : Type) := {
  getc : G -> res (Z * G);
  putc : Z -> G -> G;
  pending : G -> list Z -> Prop;
  getc_pending : forall g c l, pending g (c :: l) -> exists g', getc g = Ok (c, g') /\ pending g' l;
  putc_pending : forall g c l, pending g l -> pending (putc c g) l
}.

Definition BUFSIZE : Z := 1024.

Section readline.
Context {G : Type} `{TM : Terminal G}.

Fixpoint readline_loop (fuel : nat) (i : Z) (buf : list Z) (g : G) : res (option (list Z) * G) :=
  match fuel with
  | O => Spin
  | S fuel =>
      '(c, g) ← getc g;
      if c <? 0 then Ok (None, g)
      else if (32 <=? c) && (i <? BUFSIZE - 1) then readline_loop fuel (i + 1) (<[Z.to_nat i := u8 c]> buf) (putc c g)
      else if (c =? 8) && (i >? 0) then readline_loop fuel (i - 1) buf (putc c g)
      else if (c =? 10) || (c =? 13) then Ok (Some (<[Z.to_nat i := 0]> buf), putc c g)
      else readline_loop fuel i buf g
  end.

(** [prompt]: the characters of the prompt, [None] for NULL. *)
Definition readline (fuel : nat) (prompt : option (list Z)) (buf : list Z) (g : G) : res (option (list Z) * G) :=
  readline_loop fuel 0 buf (run putc g (default [] prompt)).

(** The line after the characters typed so far. *)
Definition edit (line : list Z) (c : Z) : list Z :=
  if (32 <=? c) && (Z.of_nat (length line) <? BUFSIZE - 1) then line ++ [c]
  else if c =? 8 then removelast line else line.

Lemma readline_loop_spec cs nl rest : forall fuel line buf g,
  pending g (cs ++ nl :: rest) -> nl = 10 \/ nl = 13 -> Forall (fun c => 0 <= c < 256 /\ c <> 10 /\ c <> 13) cs -> (length cs < fuel)%nat ->
  length buf = Z.to_nat BUFSIZE -> (length line < Z.to_nat BUFSIZE)%nat -> take (length line) buf = line ->
  exists buf' g', readline_loop fuel (Z.of_nat (length line)) buf g = Ok (Some buf', g') /\ pending g' rest /\
    length buf' = Z.to_nat BUFSIZE /\ (length (foldl edit line cs) < Z.to_nat BUFSIZE)%nat /\
    take (length (foldl edit line cs) + 1) buf' = foldl edit line cs ++ [0].
Proof.
  unfold BUFSIZE. induction cs as [|c cs IH]; intros fuel line buf g Hp Hn Hc Hf Hb Hl Ht; (destruct fuel as [|fuel]; [cbn in Hf; lia|]); cbn [readline_loop app foldl] in *.
  - destruct (getc_pending g nl rest Hp) as (g1 & -> & Hp1). cbn [mbind res_bind]. rewrite (proj2 (Z.ltb_ge nl 0)), (proj2 (Z.leb_gt 32 nl)), (proj2 (Z.eqb_neq nl 8)) by lia. cbn [andb].
    replace ((nl =? 10) || (nl =? 13)) with true by lia. eexists _, _. split; [done|]. split; [by apply putc_pending|]. rewrite length_insert. split; [done|]. split; [lia|].
    rewrite Nat2Z.id, Nat.add_1_r. rewrite (take_S_r _ _ 0) by (apply list_lookup_insert_eq; lia). by rewrite take_insert_ge, Ht by lia.
  - destruct (getc_pending g c _ Hp) as (g1 & -> & Hp1). cbn [mbind res_bind]. apply Forall_cons in Hc as [(Hc1 & Hc2 & Hc3) Hc]. cbn [length] in Hf.
    rewrite (proj2 (Z.ltb_ge c 0)) by lia. unfold edit at 2 4 6. unfold BUFSIZE. destruct ((32 <=? c) && (Z.of_nat (length line) <? 1024 - 1)) eqn:E1.
    + assert (He : Z.of_nat (length line) + 1 = Z.of_nat (length (line ++ [c]))) by (rewrite length_app; cbn; lia). rewrite He. unfold u8. rewrite Z.mod_small by lia.
      apply (IH fuel (line ++ [c])); [by apply putc_pending|done|done|lia|by rewrite length_insert|rewrite length_app; cbn; lia|].
      rewrite length_app, Nat2Z.id, Nat.add_1_r. rewrite (take_S_r _ _ c) by (apply list_lookup_insert_eq; lia). by rewrite take_insert_ge, Ht by lia.
    + rewrite Z.gtb_ltb. destruct (Z.eqb_spec c 8) as [->|H8]; cbn [andb].
      * destruct (decide (line = [])) as [->|Hne]; [|destruct (exists_last Hne) as (l' & x & ->)].
        -- cbn [length]. change (0 <? Z.of_nat 0) with false. cbn [orb]. zlit. apply (IH fuel []); try done. lia.
        -- rewrite removelast_snoc. rewrite length_app in *. cbn [length] in *. rewrite (proj2 (Z.ltb_lt _ _)) by lia. replace (Z.of_nat (length l' + 1) - 1) with (Z.of_nat (length l')) by lia.
           apply (IH fuel l'); [by apply putc_pending|done|done|lia|done|lia|]. apply (f_equal (take (length l'))) in Ht. rewrite take_take in Ht.
           replace (length l' `min` (length l' + 1))%nat with (length l') in Ht by lia. by rewrite take_app_length in Ht.
      * replace ((c =? 10) || (c =? 13)) with false by lia. apply (IH fuel line); try done. lia.
Qed.
End readline.

(** The console as a terminal: what is in the ring and in the controllers. *)
Definition waiting (s : con) (l : list Z) : Prop :=
  exists q, ring s q /\ l = q ++ arriving s /\ Forall (fun c => c <> 0) l /\ Forall (fun c => 0 <= c < 256) (uart_in s) /\ Z.of_nat (length l) < 512.

Lemma drained_arriving s : drained s -> arriving s = [].
Proof. intros [Hk Hu]. unfold arriving. rewrite Hk. destruct (serial_exists s); [by rewrite Hu|done]. Qed.

Lemma getchar_waiting s c l : waiting s (c :: l) -> exists s', getchar 1 s = Ok (c, s') /\ waiting s' l.
Proof.
  intros (q & Hr & Hl & Hz & Hu & Hn). destruct (cons_getc_spec s q Hr Hu) as (s' & H1 & H2 & H3 & _ & H5); [by rewrite <- Hl|].
  cbn [getchar]. rewrite H1, <- Hl. cbn [mbind res_bind head]. change (default 0 (Some c)) with c.
  apply Forall_cons in Hz as [Hc Hz]. rewrite (proj2 (Z.eqb_neq c 0) Hc). exists s'. split; [done|]. exists l. rewrite <- Hl in H2. cbn [tail] in H2.
  rewrite (drained_arriving s' H3), app_nil_r. split_and!; try done. cbn [length] in Hn. lia.
Qed.

Lemma putc_waiting s c l : waiting s l -> waiting (cputchar c s) l.
Proof.
  intros (q & Hr & Hl & Hz & Hu & Hn). destruct (puts_keeps [c] s) as (P1 & P2 & P3 & P4 & P5). change (run cons_putc s [c]) with (cputchar c s) in *.
  assert (Ha : arriving (cputchar c s) = arriving s) by (unfold arriving; by rewrite P2, P3, P4, P5).
  exists q. rewrite Ha, P3. split; [by apply (ring_same s)|]. done.
Qed.

#[global] Instance console_terminal : Terminal con :=
  { getc := getchar 1; putc := cputchar; pending := waiting; getc_pending := getchar_waiting; putc_pending := putc_waiting }.

(** [readline] returns the line as it was edited: of the characters
    before the newline, printable ones are appended while there is room for
    them and a backspace takes the last one away; the line and its NUL fit
    the buffer of 1024 bytes, and what was typed behind the newline stays in
    the input. *)
Theorem readline_correct {G} `{Terminal G} (g : G) (prompt : option (list Z)) (buf cs : list Z) (nl : Z) (rest : list Z) (fuel : nat) :
  pending g (cs ++ nl :: rest) -> nl = 10 \/ nl = 13 -> Forall (fun c => 0 <= c < 256 /\ c <> 10 /\ c <> 13) cs ->
  (length cs < fuel)%nat -> length buf = Z.to_nat BUFSIZE ->
  exists buf' g', readline fuel prompt buf g = Ok (Some buf', g') /\ pending g' rest /\ length buf' = Z.to_nat BUFSIZE /\
    Z.of_nat (length (foldl edit [] cs)) < BUFSIZE /\ take (length (foldl edit [] cs) + 1) buf' = foldl edit [] cs ++ [0].
Proof.
  intros Hp Hn Hc Hf Hb. assert (Hp' : pending (run putc g (default [] prompt)) (cs ++ nl :: rest)).
  { revert g Hp. induction (default [] prompt) as [|c l IH]; intros g Hp; [done|]. cbn [run foldl]. by apply IH, putc_pending. }
  destruct (readline_loop_spec cs nl rest fuel [] buf _ Hp' Hn Hc Hf Hb) as (buf' & g' & H1 & H2 & H3 & H4 & H5); [by vm_compute; lia|done|].
  exists buf', g'. split_and!; try done. unfold BUFSIZE in *. lia.
Qed.

(** ** Examples *)
Definition con0 (uart kbd : list Z) : con := Con uart kbd true 0 0 (replicate 512 0) 0 0 (fun _ => blank) 0 [] [].

Lemma con0_ring uart kbd : ring (con0 uart kbd) [].
Proof. constructor; try done. Qed.

Lemma cons_getc_fifo_witness :
  exists s', cons_getc (con0 [104; 127] [0x2A; 0x1E; 0x9E; 0xAA]) = Ok (104, s') /\ ring s' [8; 65].
Proof.
  destruct (cons_getc_fifo (con0 [104; 127] [0x2A; 0x1E; 0x9E; 0xAA]) []) as (s' & H1 & H2 & _); [apply con0_ring|by repeat constructor|by vm_compute|].
  exists s'. split; [exact H1|exact H2].
Defined.

Lemma cga_putc_correct_witness :
  shows (run page_putc (Page (fun _ => blank) 0 0) (bytes "a" ++ replicate 25 10 ++ [98])) (run cga_putc (con0 [] []) (bytes "a" ++ replicate 25 10 ++ [98])) /\
  (forall i, i < 0 \/ CRT_SIZE <= i -> crt_buf (run cga_putc (con0 [] []) (bytes "a" ++ replicate 25 10 ++ [98])) i = blank).
Proof. apply (cga_putc_correct (bytes "a" ++ replicate 25 10 ++ [98]) (Page (fun _ => blank) 0 0) (con0 [] [])). constructor; try done. Defined.

Lemma kbd_types_text_witness : nonzero (kbd_chars 0 (concat (key_codes <$> bytes "Hello, uCore!"))).1 = bytes "Hello, uCore!".
Proof. apply (kbd_types_text (bytes "Hello, uCore!")). apply (bool_decide_unpack _). by vm_compute. Defined.

(** "ls", a typing error and its correction, then the newline. *)
Lemma readline_correct_witness :
  exists buf' s', readline (TM := console_terminal) 10 (Some (bytes "$ ")) (replicate (Z.to_nat 1024) 0) (con0 (bytes "lx" ++ [127] ++ bytes "s" ++ [13]) []) = Ok (Some buf', s') /\
    take 3 buf' = bytes "ls" ++ [0].
Proof.
  destruct (readline_correct (H := console_terminal) (con0 (bytes "lx" ++ [127] ++ bytes "s" ++ [13]) []) (Some (bytes "$ ")) (replicate (Z.to_nat 1024) 0)
    (bytes "lx" ++ [8] ++ bytes "s") 13 [] 10) as (buf' & s' & H1 & _ & _ & _ & H5);
    [|by right|apply (bool_decide_unpack _); by vm_compute|by vm_compute; lia|by rewrite length_replicate|exists buf', s'; split; [exact H1|exact H5]].
  exists []. split; [apply con0_ring|]. split; [by vm_compute|]. split; [apply (bool_decide_unpack _); by vm_compute|]. split; [apply (bool_decide_unpack _); by vm_compute|by vm_compute].
Defined.

(** 512 characters that arrive before the next [cons_getc] make the ring look
    empty: all are lost. *)
Lemma cons_overflow_loses : match cons_getc (con0 (replicate 512 97) []) with Ok (c, s') => c = 0 /\ rpos s' = wpos s' /\ uart_in s' = [] | _ => False end.
Proof. vm_compute. done. Qed.

(** Ctrl-Home stands for no character: the table of the control keys has the
    entry for Home at 0x97 instead of 0xC7. *)
Lemma ctl_home_missing : (kbd_chars 0 [0x1D; 0xE0; 0x47]).1 = [0; 0; 0] /\ (kbd_chars 0 [0xE0; 0x47]).1 = [0; KEY_HOME].
Proof. by vm_compute. Qed.
