(* ===== verification/Monitor.v ===== *)
(** * Condition variables and the dining philosophers

    kern/sync/monitor.c and the monitor half of kern/sync/check_sync.c.

    Five threads run [phi_take_forks_condvar] and [phi_put_forks_condvar] in
    turn.  The kernel does not preempt its own threads, so that a thread runs
    from one [down] to the next; a [pc] is the [down] a thread has come to,
    and a step is one thread passing its [down], or being queued by it.
    Semaphores hand over directly, in order of arrival, as Sync proves. *)
From S2P Require Import Prelude.

Definition N : Z := 5.
Definition LEFT (i : Z) : Z := (i - 1 + N) mod N.
Definition RIGHT (i : Z) : Z := (i + 1) mod N.

Inductive phil := THINKING | HUNGRY | EATING.
#[global] Instance phil_eq_dec : EqDecision phil.
Proof. solve_decision. Defined.

(** The [down] a thread is at: on [mutex] in take and put, on [next] in the
    three calls of [cond_signal], on its own condition in [cond_wait]. *)
Inductive pc := AtTake | TakeSig | TakeWait | AtPut | PutSigL | PutSigR.
#[global] Instance pc_eq_dec : EqDecision pc.
Proof. solve_decision. Defined.

(** About to call [down], queued by it, or woken by an [up]. *)
Inductive status := Ready | Blocked | Granted.
#[global] Instance status_eq_dec : EqDecision status.
Proof. solve_decision. Defined.

Record sem := Sem { val : Z; wq : list Z }.
Record mon := Mon {
  mutex : sem; next : sem; next_count : Z; count : Z -> Z; csem : Z -> sem;
  state_condvar : Z -> phil; at_pc : Z -> pc; stat : Z -> status
}.

Definition fupd {A} (f : Z -> A) (i : Z) (x : A) : Z -> A := fun j => if j =? i then x else f j.

Definition set_mutex x s : mon := Mon x (next s) (next_count s) (count s) (csem s) (state_condvar s) (at_pc s) (stat s).
Definition set_next x s : mon := Mon (mutex s) x (next_count s) (count s) (csem s) (state_condvar s) (at_pc s) (stat s).
Definition set_next_count n s : mon := Mon (mutex s) (next s) n (count s) (csem s) (state_condvar s) (at_pc s) (stat s).
Definition set_count i n s : mon := Mon (mutex s) (next s) (next_count s) (fupd (count s) i n) (csem s) (state_condvar s) (at_pc s) (stat s).
Definition set_csem i x s : mon := Mon (mutex s) (next s) (next_count s) (count s) (fupd (csem s) i x) (state_condvar s) (at_pc s) (stat s).
Definition set_phil i x s : mon := Mon (mutex s) (next s) (next_count s) (count s) (csem s) (fupd (state_condvar s) i x) (at_pc s) (stat s).
Definition set_pc i x s : mon := Mon (mutex s) (next s) (next_count s) (count s) (csem s) (state_condvar s) (fupd (at_pc s) i x) (stat s).
Definition set_stat i x s : mon := Mon (mutex s) (next s) (next_count s) (count s) (csem s) (state_condvar s) (at_pc s) (fupd (stat s) i x).

(** The semaphores of the monitor. *)
Inductive sid := Mutex | Next | Cv (i : Z).
Definition sem_of (x : sid) s : sem := match x with Mutex => mutex s | Next => next s | Cv i => csem s i end.
Definition set_sem (x : sid) v s : mon := match x with Mutex => set_mutex v s | Next => set_next v s | Cv i => set_csem i v s end.

Definition up (x : sid) s : mon :=
  match wq (sem_of x s) with
  | [] => set_sem x (Sem (val (sem_of x s) + 1) []) s
  | w :: r => set_stat w Granted (set_sem x (Sem (val (sem_of x s)) r) s)
  end.

(** ** monitor.c *)
(** The static data before [monitor_init] and threads that have not run. *)
Definition boot : mon :=
  Mon (Sem 0 []) (Sem 0 []) 0 (fun _ => 0) (fun _ => Sem 0 []) (fun _ => THINKING) (fun _ => AtTake) (fun _ => Ready).

Definition below {A} (n : Z) (x : A) (f : Z -> A) : Z -> A := fun i => if (0 <=? i) && (i <? n) then x else f i.

(** [cv]: whether [kmalloc] returns the array; both assertions panic. *)
Definition monitor_init (n : Z) (cv : bool) s : option mon :=
  if (n >? 0) && cv
  then Some (Mon (Sem 1 []) (Sem 0 []) 0 (below n 0 (count s)) (below n (Sem 0 []) (csem s)) (state_condvar s) (at_pc s) (stat s))
  else None.

(** Up to the [down] on [next], when there is one to come to. *)
Definition cond_signal (i : Z) s : mon * bool :=
  if count s i >? 0 then (up (Cv i) (set_next_count (next_count s + 1) s), true) else (s, false).
(** From the [down] on. *)
Definition cond_signal_end s : mon := set_next_count (next_count s - 1) s.

Definition leave s : mon := if next_count s >? 0 then up Next s else up Mutex s.

(** Up to and from the [down] on the condition. *)
Definition cond_wait (i : Z) s : mon := leave (set_count i (count s i + 1) s).
Definition cond_wait_end (i : Z) s : mon := set_count i (count s i - 1) s.

(** ** check_sync.c *)
Definition is_phil (x : phil) s (i : Z) : bool := bool_decide (state_condvar s i = x).

Definition phi_test_condvar (i : Z) s : mon * bool :=
  if is_phil HUNGRY s i && negb (is_phil EATING s (LEFT i)) && negb (is_phil EATING s (RIGHT i))
  then cond_signal i (set_phil i EATING s)
  else (s, false).

(** What thread [i] does behind each [down], up to the next one. *)
Definition take_rest (i : Z) s : mon :=
  if negb (is_phil EATING s i) then set_pc i TakeWait (cond_wait i s) else set_pc i AtPut (leave s).
Definition phi_take_forks_condvar (i : Z) s : mon :=
  let s := set_phil i HUNGRY s in
  let '(s, down) := phi_test_condvar i s in
  if down : bool then set_pc i TakeSig s else take_rest i s.

Definition put_rest (i : Z) s : mon :=
  let '(s, down) := phi_test_condvar (RIGHT i) s in
  if down : bool then set_pc i PutSigR s else set_pc i AtTake (leave s).
Definition phi_put_forks_condvar (i : Z) s : mon :=
  let s := set_phil i THINKING s in
  let '(s, down) := phi_test_condvar (LEFT i) s in
  if down : bool then set_pc i PutSigL s else put_rest i s.

Definition resume (i : Z) s : mon :=
  match at_pc s i with
  | AtTake => phi_take_forks_condvar i s
  | TakeSig => take_rest i (cond_signal_end s)
  | TakeWait => set_pc i AtPut (leave (cond_wait_end i s))
  | AtPut => phi_put_forks_condvar i s
  | PutSigL => put_rest i (cond_signal_end s)
  | PutSigR => set_pc i AtTake (leave (cond_signal_end s))
  end.

Definition sem_at (i : Z) (x : pc) : sid :=
  match x with AtTake | AtPut => Mutex | TakeWait => Cv i | TakeSig | PutSigL | PutSigR => Next end.

(** One step of thread [i]; [None] when it is blocked. *)
Definition thread_step (i : Z) s : option mon :=
  let x := sem_at i (at_pc s i) in
  match stat s i with
  | Blocked => None
  | Granted => Some (resume i (set_stat i Ready s))
  | Ready =>
      if val (sem_of x s) >? 0 then Some (resume i (set_sem x (Sem (val (sem_of x s) - 1) (wq (sem_of x s))) s))
      else Some (set_stat i Blocked (set_sem x (Sem (val (sem_of x s)) (wq (sem_of x s) ++ [i])) s))
  end.

Inductive reachable : mon -> Prop :=
  | reach_init s : monitor_init N true boot = Some s -> reachable s
  | reach_step s i s' : reachable s -> 0 <= i < N -> thread_step i s = Some s' -> reachable s'.

(** ** The table *)
Definition seat (i : Z) : Prop := 0 <= i < N.

Ltac seats i :=
  let H := fresh in assert (H : i = 0 \/ i = 1 \/ i = 2 \/ i = 3 \/ i = 4) by (unfold seat, N in *; lia);
  destruct H as [H|[H|[H|[H|H]]]]; subst i.

Lemma left_seat i : seat (LEFT i).
Proof. apply Z.mod_pos_bound. done. Qed.
Lemma right_seat i : seat (RIGHT i).
Proof. apply Z.mod_pos_bound. done. Qed.
Lemma left_right i : seat i -> LEFT (RIGHT i) = i.
Proof. intros H. by seats i. Qed.
Lemma right_left i : seat i -> RIGHT (LEFT i) = i.
Proof. intros H. by seats i. Qed.
Lemma right_ne i : seat i -> RIGHT i <> i.
Proof. intros H. by seats i. Qed.
Lemma left_ne i : seat i -> LEFT i <> i.
Proof. intros H. by seats i. Qed.
Lemma left_ne_right i : seat i -> LEFT i <> RIGHT i.
Proof. intros H. by seats i. Qed.
#[local] Hint Resolve left_seat right_seat right_ne left_ne left_ne_right : core.

Lemma fupd_eq {A} (f : Z -> A) i x : fupd f i x i = x.
Proof. unfold fupd. by rewrite Z.eqb_refl. Qed.
Lemma fupd_ne {A} (f : Z -> A) i j x : j <> i -> fupd f i x j = f j.
Proof. intros H. unfold fupd. by rewrite (proj2 (Z.eqb_neq j i) H). Qed.
Lemma fupd_cases {A} (f : Z -> A) i j x : (j = i /\ fupd f i x j = x) \/ (j <> i /\ fupd f i x j = f j).
Proof. destruct (Z.eq_dec j i) as [->|H]; [left; by rewrite fupd_eq|right; by rewrite fupd_ne]. Qed.

(** ** Semaphores: there is one token *)
#[global] Instance sid_eq_dec : EqDecision sid.
Proof. solve_decision. Defined.
Inductive place := In (x : sid) | Held (i : Z).
#[global] Instance place_eq_dec : EqDecision place.
Proof. solve_decision. Defined.

Definition sid_ok (x : sid) : Prop := match x with Cv i => seat i | _ => True end.

(** Where the token is: in a semaphore, with a thread that was woken, or
    ([None]) with the thread that runs. *)
Record semi (s : mon) (p : option place) : Prop := {
  se_val : forall x, sid_ok x -> val (sem_of x s) = if decide (p = Some (In x)) then 1 else 0;
  se_stat : forall j, seat j -> stat s j = Granted <-> p = Some (Held j);
  se_nodup : forall x, sid_ok x -> NoDup (wq (sem_of x s));
  se_queue : forall x w, sid_ok x -> w ∈ wq (sem_of x s) <-> seat w /\ stat s w = Blocked /\ sem_at w (at_pc s w) = x;
  se_free : forall x, sid_ok x -> p = Some (In x) -> wq (sem_of x s) = []
}.

Definition data_part (s : mon) := (next_count s, count s, state_condvar s, at_pc s).

Lemma sem_of_set x y v s : sem_of y (set_sem x v s) = if decide (y = x) then v else sem_of y s.
Proof.
  destruct (decide (y = x)) as [->|E]; [destruct x; cbn; [done..|by rewrite fupd_eq]|].
  destruct x, y; cbn; try congruence. rewrite fupd_ne; [done|]. by intros ->.
Qed.

Lemma set_sem_stat x v s : stat (set_sem x v s) = stat s /\ at_pc (set_sem x v s) = at_pc s /\ data_part (set_sem x v s) = data_part s.
Proof. by destruct x. Qed.

Lemma sem_of_stat y i v s : sem_of y (set_stat i v s) = sem_of y s.
Proof. by destruct y. Qed.

Lemma semi_up s x : semi s None -> sid_ok x ->
  exists p, semi (up x s) (Some p) /\ data_part (up x s) = data_part s /\ (p = In x \/ exists w, p = Held w /\ seat w /\ stat s w = Blocked /\ sem_at w (at_pc s w) = x).
Proof.
  intros [Hv Hs Hn Hq Hf] Hx. unfold up. destruct (wq (sem_of x s)) as [|w r] eqn:E.
  - exists (In x). destruct (set_sem_stat x (Sem (val (sem_of x s) + 1) []) s) as (S1 & S2 & S3). split; [|split; [exact S3|by left]].
    constructor; intros; rewrite ?sem_of_set, ?S1, ?S2.
    + destruct (decide (x0 = x)) as [->|E1]; cbn [val]; rewrite Hv by done.
      * by rewrite decide_False, decide_True by done.
      * by rewrite !decide_False by congruence.
    + rewrite Hs by done. split; [done|]. intros [=].
    + destruct (decide _) as [->|]; [constructor|by apply Hn].
    + destruct (decide _) as [->|]; [|by apply Hq]. cbn. rewrite <- Hq, E by done. done.
    + injection H0 as ->. by rewrite decide_True.
  - assert (Hw : seat w /\ stat s w = Blocked /\ sem_at w (at_pc s w) = x) by (apply Hq; [done|rewrite E; by left]). destruct Hw as (W1 & W2 & W3).
    pose proof (Hn x Hx) as Hnx. rewrite E in Hnx. apply NoDup_cons in Hnx as [Hwr Hnr].
    exists (Held w). destruct (set_sem_stat x (Sem (val (sem_of x s)) r) s) as (S1 & S2 & S3). split; [|split; [exact S3|right; by exists w]].
    constructor; intros; cbn [stat at_pc set_stat]; rewrite ?sem_of_stat, ?sem_of_set, ?S1, ?S2.
    + destruct (decide (x0 = x)) as [->|E1]; cbn [val]; rewrite Hv by done; by rewrite !decide_False by done.
    + destruct (fupd_cases (stat s) w j Granted) as [[-> ->]|[Hne ->]]; [done|]. rewrite Hs by done. split; [done|]. by intros [= ->].
    + destruct (decide _) as [->|]; [done|by apply Hn].
    + destruct (fupd_cases (stat s) w w0 Granted) as [[-> ->]|[Hne ->]].
      * split; [|by intros (_ & ? & _)]. destruct (decide (x0 = x)) as [->|E1]; [done|]. intros Hin. apply Hq in Hin as (_ & _ & ?); [congruence|done].
      * rewrite <- (Hq x0 w0) by done. destruct (decide (x0 = x)) as [->|E1]; [|done]. cbn. rewrite E, elem_of_cons. naive_solver.
    + done.
Qed.

Lemma sem_at_ok i x : seat i -> sid_ok (sem_at i x).
Proof. by destruct x. Qed.

(** A thread passes its [down] on a semaphore that is free. *)
Lemma semi_pass s p i : semi s p -> seat i -> val (sem_of (sem_at i (at_pc s i)) s) >? 0 = true ->
  let x := sem_at i (at_pc s i) in p = Some (In x) /\ semi (set_sem x (Sem (val (sem_of x s) - 1) (wq (sem_of x s))) s) None.
Proof.
  intros [Hv Hs Hn Hq Hf] Hi Hval. cbv zeta. set (x := sem_at i (at_pc s i)) in *. assert (Hx : sid_ok x) by (by apply sem_at_ok).
  rewrite Hv in Hval by done. destruct (decide (p = Some (In x))) as [Ep|]; [|done]. split; [done|].
  destruct (set_sem_stat x (Sem (val (sem_of x s) - 1) (wq (sem_of x s))) s) as (S1 & S2 & _).
  constructor; intros; rewrite ?sem_of_set, ?S1, ?S2.
  - destruct (decide (x0 = x)) as [->|E1]; cbn [val]; rewrite Hv by done; [by rewrite decide_True|]. rewrite decide_False by congruence. done.
  - rewrite Hs, Ep by done. done.
  - destruct (decide _) as [->|]; by apply Hn.
  - destruct (decide _) as [->|]; by apply Hq.
  - done.
Qed.

Lemma semi_grant s i : semi s (Some (Held i)) -> seat i -> semi (set_stat i Ready s) None.
Proof.
  intros [Hv Hs Hn Hq Hf] Hi. assert (Hg : stat s i = Granted) by (by apply Hs).
  constructor; intros; rewrite ?sem_of_stat; cbn [stat at_pc set_stat].
  - rewrite Hv by done. by rewrite !decide_False by done.
  - destruct (fupd_cases (stat s) i j Ready) as [[-> ->]|[Hne ->]]; [done|]. rewrite Hs by done. split; [by intros [= ->]|done].
  - by apply Hn.
  - rewrite Hq by done. destruct (fupd_cases (stat s) i w Ready) as [[-> ->]|[Hne ->]]; [|done]. rewrite Hg. naive_solver.
  - done.
Qed.

(** A thread is queued by its [down]. *)
Lemma semi_block s p i : semi s p -> seat i -> stat s i = Ready -> val (sem_of (sem_at i (at_pc s i)) s) >? 0 = false ->
  let x := sem_at i (at_pc s i) in semi (set_stat i Blocked (set_sem x (Sem (val (sem_of x s)) (wq (sem_of x s) ++ [i])) s)) p.
Proof.
  intros [Hv Hs Hn Hq Hf] Hi Hr Hval. cbv zeta. set (x := sem_at i (at_pc s i)) in *. assert (Hx : sid_ok x) by (by apply sem_at_ok).
  assert (Ep : p <> Some (In x)) by (intros ->; rewrite Hv, decide_True in Hval by done; done).
  destruct (set_sem_stat x (Sem (val (sem_of x s)) (wq (sem_of x s) ++ [i])) s) as (S1 & S2 & _).
  assert (Hni : i ∉ wq (sem_of x s)) by (rewrite Hq by done; intros (_ & ? & _); congruence).
  constructor; intros; rewrite ?sem_of_stat, ?sem_of_set; cbn [stat at_pc set_stat]; rewrite ?S1, ?S2.
  - destruct (decide (x0 = x)) as [->|E1]; cbn [val]; by rewrite Hv.
  - destruct (fupd_cases (stat s) i j Blocked) as [[-> ->]|[Hne ->]]; [|by apply Hs]. rewrite <- Hs, Hr by done. done.
  - destruct (decide _) as [->|]; [|by apply Hn]. cbn. apply NoDup_app. split; [by apply Hn|]. split; [|apply NoDup_singleton].
    intros y Hy ->%list_elem_of_singleton. done.
  - destruct (fupd_cases (stat s) i w Blocked) as [[-> ->]|[Hne ->]].
    + destruct (decide (x0 = x)) as [->|E1].
      * cbn. rewrite elem_of_app, list_elem_of_singleton. naive_solver.
      * rewrite Hq by done. rewrite Hr. naive_solver.
    + rewrite <- Hq by done. destruct (decide (x0 = x)) as [->|E1]; [|done]. cbn. rewrite elem_of_app, list_elem_of_singleton. naive_solver.
  - rewrite decide_False by congruence. by apply Hf.
Qed.

(** The running thread changes the data of the monitor. *)
Lemma semi_data s s' p : semi s p -> (forall x, sem_of x s' = sem_of x s) -> stat s' = stat s ->
  (forall j, seat j -> stat s j = Blocked -> at_pc s' j = at_pc s j) -> semi s' p.
Proof.
  intros [Hv Hs Hn Hq Hf] Hx Hst Hpc. constructor; intros; rewrite ?Hx, ?Hst; [by apply Hv|by apply Hs|by apply Hn| |by apply Hf].
  rewrite Hq by done. split; intros (H1 & H2 & H3); split_and!; try done; [by rewrite Hpc|by rewrite <- Hpc].
Qed.

Lemma semi_not_blocked s i : semi s None -> seat i -> stat s i <> Blocked -> forall x, semi (set_pc i x s) None.
Proof.
  intros H Hi Hb x. eapply semi_data; [exact H|by intros []|done|]. intros j Hj Hjb. cbn. rewrite fupd_ne; [done|]. by intros ->.
Qed.

(** ** The data of the monitor *)
Definition eats (s : mon) (i : Z) : Prop := state_condvar s i = EATING.
Definition neighbour_eats (s : mon) (i : Z) : Prop := eats s (LEFT i) \/ eats s (RIGHT i).

Definition signals (x : pc) : bool := bool_decide (x = PutSigL \/ x = PutSigR).

(** A thread at rest: its place in the program, its flag and its count. *)
Definition rest_ok (x : pc) (f : phil) (n : Z) : Prop :=
  match x with
  | AtTake | PutSigL | PutSigR => f = THINKING /\ n = 0
  | TakeWait => (f = HUNGRY \/ f = EATING) /\ n = 1
  | AtPut => f = EATING /\ n = 0
  | TakeSig => False
  end.

Definition sig_count (g : option Z) : Z := match g with Some _ => 1 | None => 0 end.

(** [i] runs in the monitor; [g]: the thread that waits in [cond_signal];
    the philosophers in [E] may be hungry without a neighbour who eats. *)
Record active (s : mon) (i : Z) (g : option Z) (E : list Z) : Prop := {
  ac_rest : forall j, seat j -> j <> i -> rest_ok (at_pc s j) (state_condvar s j) (count s j) /\ (at_pc s j = TakeWait -> state_condvar s j = HUNGRY);
  ac_sig : forall j, seat j -> j <> i -> signals (at_pc s j) = true <-> g = Some j;
  ac_next : next_count s = (sig_count g) /\ (forall k, g = Some k -> seat k /\ k <> i);
  ac_safe : forall j, seat j -> eats s j -> ~ eats s (RIGHT j);
  ac_hungry : forall j, seat j -> state_condvar s j = HUNGRY -> j ∈ E \/ neighbour_eats s j \/ exists k, g = Some k /\ at_pc s k = PutSigL /\ j = RIGHT k
}.

(** Between two steps. *)
Definition place_ok (s : mon) (p : place) (g : option Z) : Prop :=
  match p with
  | In Mutex => g = None
  | In Next => g <> None
  | In (Cv i) => seat i /\ at_pc s i = TakeWait /\ g <> None
  | Held i => seat i /\ match at_pc s i with AtTake | AtPut => g = None | TakeWait => g <> None | _ => True end
  end.

Record between (s : mon) (p : place) (g : option Z) : Prop := {
  bt_rest : forall j, seat j -> rest_ok (at_pc s j) (state_condvar s j) (count s j);
  bt_wait : forall j, seat j -> at_pc s j = TakeWait -> state_condvar s j = EATING <-> p = In (Cv j) \/ p = Held j;
  bt_sig : forall j, seat j -> signals (at_pc s j) = true <-> g = Some j;
  bt_next : next_count s = (sig_count g) /\ (forall k, g = Some k -> seat k);
  bt_place : place_ok s p g;
  bt_safe : forall j, seat j -> eats s j -> ~ eats s (RIGHT j);
  bt_hungry : forall j, seat j -> state_condvar s j = HUNGRY -> neighbour_eats s j \/ exists k, g = Some k /\ at_pc s k = PutSigL /\ j = RIGHT k
}.

Lemma data_parts s s' : data_part s' = data_part s ->
  next_count s' = next_count s /\ count s' = count s /\ state_condvar s' = state_condvar s /\ at_pc s' = at_pc s.
Proof. unfold data_part. by intros [= -> -> -> ->]. Qed.

(** Two hungry or eating neighbours: only a thread in [cond_wait] is hungry. *)
Lemma rest_hungry x n : rest_ok x HUNGRY n -> x = TakeWait /\ n = 1.
Proof. destruct x; cbn; naive_solver. Qed.

Lemma up_blocked x s j : stat (up x s) j = Blocked -> stat s j = Blocked.
Proof.
  unfold up. destruct (wq (sem_of x s)) as [|w r]; cbn [stat set_stat]; [by destruct x|].
  destruct (fupd_cases (stat (set_sem x (Sem (val (sem_of x s)) r) s)) w j Granted) as [[-> ->]|[_ ->]]; [done|by destruct x].
Qed.

Lemma set_pc_semi s i x y p : semi (up y s) p -> stat s i = Ready -> semi (set_pc i x (up y s)) p.
Proof.
  intros H Hi. eapply semi_data; [exact H|by intros []|done|]. intros j _ Hj%up_blocked. cbn. apply fupd_ne. intros ->. congruence.
Qed.

Lemma set_pc_at s i x j : at_pc (set_pc i x s) j = if decide (j = i) then x else at_pc s j.
Proof. cbn. destruct (decide (j = i)) as [->|]; [by rewrite fupd_eq|by rewrite fupd_ne]. Qed.

(** The running thread gives the monitor away and comes to its next [down]. *)
Lemma leave_between s i g x : semi s None -> active s i g [] -> seat i -> stat s i = Ready ->
  rest_ok x (state_condvar s i) (count s i) -> signals x = false -> (x = TakeWait -> state_condvar s i = HUNGRY) ->
  exists p, semi (set_pc i x (leave s)) (Some p) /\ between (set_pc i x (leave s)) p g.
Proof.
  intros Hse [Hr Hsg [Hn Hk] Hsf Hh] Hi Hst Hx Hnx Hxw.
  set (y := match g with Some _ => Next | None => Mutex end).
  assert (Hl : leave s = up y s) by (unfold leave, y; rewrite Hn; by destruct g). rewrite Hl.
  destruct (semi_up s y Hse ltac:(unfold y; by destruct g)) as (p & Hse' & Hd & Hp). apply data_parts in Hd as (D1 & D2 & D3 & D4).
  assert (Hw : forall w, p = Held w -> seat w /\ w <> i /\ match at_pc s w with AtTake | AtPut => g = None | PutSigL | PutSigR => g <> None | _ => False end).
  { intros w ->. destruct Hp as [|(w' & [= <-] & Hws & Hwb & Hwx)]; [done|]. assert (Hwi : w <> i) by congruence. split_and!; [done..|].
    destruct (Hr w Hws Hwi) as [Hrw _]. unfold y in Hwx. destruct (at_pc s w); cbn in Hwx, Hrw; destruct g; done. }
  assert (Hpi : forall j, p <> In (Cv j)) by (intros j ->; unfold y in Hp; destruct Hp as [Hp|(? & ? & _)]; [by destruct g|done]).
  exists p. split.
  { by apply (set_pc_semi s). }
  assert (Hpc : forall j, at_pc (set_pc i x (up y s)) j = if decide (j = i) then x else at_pc s j).
  { intros j. by rewrite set_pc_at, D4. }
  assert (He : forall j, eats (set_pc i x (up y s)) j <-> eats s j) by (intros j; unfold eats; cbn; by rewrite D3).
  constructor.
  - intros j Hj. rewrite Hpc. cbn [state_condvar count set_pc]. rewrite D2, D3. destruct (decide (j = i)) as [->|Hji]; [done|]. by apply Hr.
  - intros j Hj. rewrite Hpc. cbn [state_condvar set_pc]. rewrite D3. intros Hjw.
    assert (Hjh : state_condvar s j = HUNGRY) by (destruct (decide (j = i)) as [->|Hji]; [by apply Hxw|by apply (Hr j)]). rewrite Hjh. split; [done|].
    intros [->|Hpj]; [by destruct (Hpi j)|]. destruct (Hw j Hpj) as (_ & Hji & Hm). rewrite decide_False in Hjw by done. by rewrite Hjw in Hm.
  - intros j Hj. rewrite Hpc. destruct (decide (j = i)) as [->|Hji]; [|by apply Hsg]. rewrite Hnx. split; [done|]. intros Hg. by destruct (Hk i Hg).
  - cbn. rewrite D1. split; [done|]. intros k Hg. by apply Hk.
  - unfold place_ok. destruct p as [[| |j]|w]; [| |by destruct (Hpi j)|].
    + destruct Hp as [[= Hy]|(? & ? & _)]; [|done]. unfold y in Hy. by destruct g.
    + destruct Hp as [[= Hy]|(? & ? & _)]; [|done]. unfold y in Hy. by destruct g.
    + destruct (Hw w eq_refl) as (Hws & Hwi & Hm). split; [done|]. rewrite Hpc, decide_False by done. by destruct (at_pc s w).
  - intros j Hj. rewrite !He. by apply Hsf.
  - intros j Hj. cbn [state_condvar set_pc]. rewrite D3. intros Hjh. unfold neighbour_eats. rewrite !He.
    destruct (Hh j Hj Hjh) as [Hin|[Hne|(k & Hg & Hpk & ->)]]; [by apply elem_of_nil in Hin|by left|]. right. exists k. split_and!; [done| |done].
    rewrite Hpc, decide_False; [done|]. by apply Hk.
Qed.

(** The running thread [i] wakes [r], who may eat now, and waits for it. *)
Lemma signal_between s i r x E : semi s None -> active s i None E -> seat i -> seat r -> r <> i -> stat s i = Ready ->
  state_condvar s i = THINKING -> count s i = 0 -> state_condvar s r = HUNGRY -> ~ neighbour_eats s r -> x = PutSigL \/ x = PutSigR ->
  (forall j, j ∈ E -> j = r \/ (x = PutSigL /\ j = RIGHT i)) ->
  exists s' p, phi_test_condvar r s = (s', true) /\ semi (set_pc i x s') (Some p) /\ between (set_pc i x s') p (Some i).
Proof.
  intros Hse [Hr Hsg [Hn _] Hsf Hh] Hi Hrs Hri Hst Hit Hic Hrh Hne Hx HE.
  destruct (Hr r Hrs Hri) as [Hrr _]. rewrite Hrh in Hrr. apply rest_hungry in Hrr as [Hrp Hrc]. cbn [sig_count] in Hn.
  set (s1 := set_next_count (next_count s + 1) (set_phil r EATING s)).
  assert (Ht : phi_test_condvar r s = (up (Cv r) s1, true)).
  { unfold phi_test_condvar, is_phil. rewrite bool_decide_true by done. unfold neighbour_eats, eats in Hne. rewrite !bool_decide_false by tauto. cbn [negb andb].
    unfold cond_signal. cbn [count set_phil]. by rewrite Hrc. }
  assert (Hse1 : semi s1 None) by (by apply (semi_data s)).
  destruct (semi_up s1 (Cv r) Hse1 Hrs) as (p & Hse' & Hd & Hp). apply data_parts in Hd as (D1 & D2 & D3 & D4). exists (up (Cv r) s1), p. split; [done|].
  split; [by apply set_pc_semi|].
  assert (Hpr : p = In (Cv r) \/ p = Held r).
  { destruct Hp as [->|(w & -> & Hws & _ & Hwx)]; [by left|]. cbn in Hwx. destruct (at_pc s w); cbn in Hwx; try done. injection Hwx as ->. by right. }
  assert (He : forall j, eats (set_pc i x (up (Cv r) s1)) j <-> j = r \/ eats s j).
  { intros j. unfold eats. cbn [state_condvar set_pc]. rewrite D3. cbn. destruct (fupd_cases (state_condvar s) r j EATING) as [[-> ->]|[? ->]]; tauto. }
  assert (Hst' : forall j, state_condvar (set_pc i x (up (Cv r) s1)) j = if decide (j = r) then EATING else state_condvar s j).
  { intros j. cbn [state_condvar set_pc]. rewrite D3. cbn. destruct (decide (j = r)) as [->|]; [by rewrite fupd_eq|by rewrite fupd_ne]. }
  constructor.
  - intros j Hj. rewrite set_pc_at, Hst', D4. cbn [count set_pc]. rewrite D2. cbn [count at_pc s1 set_next_count set_phil]. destruct (decide (j = i)) as [->|Hji].
    + rewrite decide_False by done. rewrite Hit, Hic. by destruct Hx as [-> | ->].
    + destruct (decide (j = r)) as [->|Hjr]; [rewrite Hrp, Hrc; cbn; tauto|by apply Hr].
  - intros j Hj. rewrite set_pc_at, Hst', D4. cbn [at_pc s1 set_next_count set_phil]. intros Hjw. destruct (decide (j = r)) as [->|Hjr]; [tauto|].
    destruct (decide (j = i)) as [->|Hji]; [by destruct Hx as [-> | ->]|]. destruct (Hr j Hj Hji) as [_ Hjh]. rewrite (Hjh Hjw). split; [done|].
    intros [-> | ->]; destruct Hpr; congruence.
  - intros j Hj. rewrite set_pc_at, D4. cbn [at_pc s1 set_next_count set_phil]. destruct (decide (j = i)) as [->|Hji]; [by destruct Hx as [-> | ->]|].
    rewrite Hsg by done. split; [done|]. by intros [= ->].
  - cbn. rewrite D1. cbn. rewrite Hn. split; [done|]. by intros k [= <-].
  - unfold place_ok. destruct Hpr as [-> | ->]; rewrite set_pc_at, D4; cbn [at_pc s1 set_next_count set_phil]; rewrite decide_False, Hrp by done; by split_and!.
  - intros j Hj. rewrite !He. intros [->|Hj1] [Hj2|Hj2].
    + by destruct (right_ne r Hrs).
    + apply Hne. by right.
    + apply Hne. left. rewrite <- Hj2. by rewrite left_right.
    + by apply (Hsf j).
  - intros j Hj. rewrite Hst'. destruct (decide (j = r)) as [->|Hjr]; [done|]. intros Hjh. unfold neighbour_eats. rewrite !He.
    destruct (Hh j Hj Hjh) as [Hin|[[?|?]|(k & ? & _)]]; [|tauto|tauto|done]. destruct (HE j Hin) as [->|[-> ->]]; [done|]. right. exists i. split_and!; [done| |done].
    by rewrite set_pc_at, decide_True.
Qed.

(** A test that gives nothing away: [r] is not hungry, or a neighbour eats. *)
Lemma test_cases s r : (state_condvar s r = HUNGRY /\ ~ neighbour_eats s r) \/
  (phi_test_condvar r s = (s, false) /\ (state_condvar s r = HUNGRY -> neighbour_eats s r)).
Proof.
  unfold phi_test_condvar, is_phil, neighbour_eats, eats. destruct (decide (state_condvar s r = HUNGRY)) as [H|H].
  - destruct (decide (state_condvar s (LEFT r) = EATING)), (decide (state_condvar s (RIGHT r) = EATING)); [right|right|right|left; tauto];
      (split; [|tauto]); rewrite (bool_decide_true (_ = HUNGRY)) by done;
      first [rewrite (bool_decide_true (state_condvar s (LEFT r) = EATING)) by done; by rewrite andb_false_r
            |rewrite (bool_decide_true (state_condvar s (RIGHT r) = EATING)) by done; by rewrite andb_false_r].
  - right. by rewrite bool_decide_false.
Qed.

Lemma active_relax s i g E E' : active s i g E -> (forall j, seat j -> j ∈ E -> state_condvar s j = HUNGRY -> j ∈ E' \/ neighbour_eats s j) -> active s i g E'.
Proof.
  intros [H1 H2 H3 H4 H5] HE. constructor; try done. intros j Hj Hh. destruct (H5 j Hj Hh) as [Hin|H]; [|by right]. destruct (HE j Hj Hin Hh); tauto.
Qed.

(** The running thread changes its own flag. *)
Lemma active_set s i g E E' f : active s i g E -> seat i -> (f = EATING -> ~ neighbour_eats s i) ->
  (forall j, j ∈ E -> j ∈ E' \/ (j = i /\ f <> HUNGRY)) -> (f = HUNGRY -> i ∈ E') -> (eats s i -> LEFT i ∈ E' /\ RIGHT i ∈ E') -> active (set_phil i f s) i g E'.
Proof.
  intros [H1 H2 H3 H4 H5] Hi Hf HE HfE HeE.
  assert (He : forall j, eats (set_phil i f s) j <-> (j = i /\ f = EATING) \/ (j <> i /\ eats s j)).
  { intros j. unfold eats. cbn. destruct (fupd_cases (state_condvar s) i j f) as [[-> ->]|[? ->]]; tauto. }
  constructor; cbn [at_pc count next_count set_phil]; try done.
  - intros j Hj Hji. cbn [state_condvar set_phil]. rewrite fupd_ne by done. by apply H1.
  - intros j Hj. rewrite !He. intros [[-> Ef]|[Hji Hj1]] [[Er Ef']|[Hri Hj2]].
    + by destruct (right_ne i Hi).
    + apply (Hf Ef). by right.
    + apply (Hf Ef'). left. rewrite <- Er. by rewrite left_right.
    + by apply (H4 j).
  - intros j Hj. cbn [state_condvar set_phil]. unfold neighbour_eats. rewrite !He. destruct (fupd_cases (state_condvar s) i j f) as [[-> ->]|[Hji ->]]; [intros ->; left; by apply HfE|].
    intros Hjh. destruct (H5 j Hj Hjh) as [Hin|[[Hl|Hr]|Hk]]; [|..|tauto].
    + destruct (HE j Hin) as [?|[? _]]; [by left|done].
    + destruct (Z.eq_dec (LEFT j) i) as [El|]; [|tauto]. left. rewrite <- (right_left j Hj), El. apply HeE. by rewrite <- El.
    + destruct (Z.eq_dec (RIGHT j) i) as [Er|]; [|tauto]. left. rewrite <- (left_right j Hj), Er. apply HeE. by rewrite <- Er.
Qed.

Lemma put_rest_ok s i : semi s None -> active s i None [RIGHT i] -> seat i -> stat s i = Ready -> state_condvar s i = THINKING -> count s i = 0 ->
  exists p g, semi (put_rest i s) (Some p) /\ between (put_rest i s) p g.
Proof.
  intros Hse Ha Hi Hst Hit Hic. unfold put_rest. destruct (test_cases s (RIGHT i)) as [[Hh Hn]|[-> Hh]].
  - destruct (signal_between s i (RIGHT i) PutSigR [RIGHT i]) as (s' & p & -> & H1 & H2); try done; auto; [intros j ->%list_elem_of_singleton; by left|].
    by exists p, (Some i).
  - assert (Ha' : active s i None []) by (eapply active_relax; [exact Ha|]; intros j _ ->%list_elem_of_singleton Hj; right; by apply Hh).
    destruct (leave_between s i None AtTake) as (p & H1 & H2); try done. by exists p, None.
Qed.

Lemma put_ok s i : semi s None -> active s i None [] -> seat i -> stat s i = Ready -> count s i = 0 ->
  exists p g, semi (phi_put_forks_condvar i s) (Some p) /\ between (phi_put_forks_condvar i s) p g.
Proof.
  intros Hse Ha Hi Hst Hic. unfold phi_put_forks_condvar. set (s1 := set_phil i THINKING s).
  assert (Ha1 : active s1 i None [LEFT i; RIGHT i]).
  { apply (active_set s i None []); try done; [by intros j ?%elem_of_nil|]. intros _. split; [by left|right; by left]. }
  assert (Hse1 : semi s1 None) by (by apply (semi_data s)). assert (Hit : state_condvar s1 i = THINKING) by (cbn; by rewrite fupd_eq).
  destruct (test_cases s1 (LEFT i)) as [[Hh Hn]|[-> Hh]].
  - destruct (signal_between s1 i (LEFT i) PutSigL [LEFT i; RIGHT i]) as (s' & p & -> & H1 & H2); try done; auto; [|by exists p, (Some i)].
    intros j Hj. apply elem_of_cons in Hj as [-> | ->%list_elem_of_singleton]; [by left|by right].
  - apply put_rest_ok; try done. eapply active_relax; [exact Ha1|]. intros j _ Hj Hjh. apply elem_of_cons in Hj as [-> | ->%list_elem_of_singleton]; [right; by apply Hh|left; by left].
Qed.

Lemma take_ok s i : semi s None -> active s i None [] -> seat i -> stat s i = Ready -> state_condvar s i = THINKING -> count s i = 0 ->
  exists p g, semi (phi_take_forks_condvar i s) (Some p) /\ between (phi_take_forks_condvar i s) p g.
Proof.
  intros Hse Ha Hi Hst Hit Hic. unfold phi_take_forks_condvar. set (s1 := set_phil i HUNGRY s).
  assert (Ha1 : active s1 i None [i]).
  { apply (active_set s i None []); try done; [by intros j ?%elem_of_nil|by intros _; left|]. unfold eats. by rewrite Hit. }
  assert (Hse1 : semi s1 None) by (by apply (semi_data s)). assert (Hih : state_condvar s1 i = HUNGRY) by (cbn; by rewrite fupd_eq).
  destruct (test_cases s1 i) as [[_ Hn]|[-> Hh]].
  - set (s2 := set_phil i EATING s1).
    assert (Ht : phi_test_condvar i s1 = (s2, false)).
    { unfold phi_test_condvar, is_phil. rewrite bool_decide_true by done. unfold neighbour_eats, eats in Hn. rewrite !bool_decide_false by tauto. cbn [negb andb].
      unfold cond_signal. cbn [count set_phil s1]. by rewrite Hic. }
    rewrite Ht. assert (Hie : state_condvar s2 i = EATING) by (cbn; by rewrite fupd_eq). unfold take_rest, is_phil. rewrite bool_decide_true by done. cbn [negb].
    assert (Ha2 : active s2 i None []).
    { apply (active_set s1 i None [i]); try done; [intros j ->%list_elem_of_singleton; by right|]. unfold eats. by rewrite Hih. }
    destruct (leave_between s2 i None AtPut) as (p & H1 & H2); try done; [by apply (semi_data s)|]. by exists p, None.
  - unfold take_rest, is_phil. rewrite bool_decide_false by (by rewrite Hih). cbn [negb]. unfold cond_wait. set (s2 := set_count i (count s1 i + 1) s1).
    assert (Hc2 : count s2 i = 1) by (cbn; by rewrite fupd_eq, Hic).
    assert (Ha2 : active s2 i None []).
    { assert (Ha' : active s1 i None []) by (eapply active_relax; [exact Ha1|]; intros j _ ->%list_elem_of_singleton Hj; right; by apply Hh).
      destruct Ha' as [H1 H2 H3 H4 H5]. constructor; try done. intros j Hj Hji. cbn [count s2 set_count]. rewrite fupd_ne by done. by apply H1. }
    destruct (leave_between s2 i None TakeWait) as (p & H1 & H2); try done; [by apply (semi_data s)|rewrite Hc2; cbn [state_condvar s2 set_count]; rewrite Hih; cbn; tauto|].
    by exists p, None.
Qed.

(** ** Every step *)
Definition good (s : mon) : Prop := exists p g, semi s (Some p) /\ between s p g.

Lemma between_data s s' p g : data_part s' = data_part s -> between s p g -> between s' p g.
Proof.
  intros (D1 & D2 & D3 & D4)%data_parts [H1 H2 H3 H4 H5 H6 H7]. unfold neighbour_eats, eats in *. constructor; unfold neighbour_eats, eats; rewrite ?D1, ?D2, ?D3, ?D4; try done.
  unfold place_ok in *. by rewrite D4.
Qed.

Lemma between_pass s i g : seat i -> between s (In (sem_at i (at_pc s i))) g -> between s (Held i) g.
Proof.
  intros Hi [H1 H2 H3 H4 H5 H6 H7]. constructor; try done.
  - intros j Hj Hw. rewrite H2 by done. destruct (Z.eq_dec j i) as [->|Hji]; [rewrite Hw; cbn; tauto|].
    split; [|intros [?|?]; congruence]. destruct (at_pc s i); cbn; intros [?|?]; congruence.
  - split; [done|]. destruct (at_pc s i); cbn in H5; tauto.
Qed.

Lemma between_active s i g : between s (Held i) g -> seat i -> signals (at_pc s i) = false -> active s i g [].
Proof.
  intros [H1 H2 H3 H4 H5 H6 H7] Hi Hs. constructor; try done.
  - intros j Hj Hji. split; [by apply H1|]. intros Hw. destruct (state_condvar s j) eqn:E; [|done|].
    + pose proof (H1 j Hj) as Hr. rewrite Hw, E in Hr. cbn in Hr. naive_solver.
    + apply H2 in E as [?|?]; congruence.
  - intros j Hj _. by apply H3.
  - split; [apply H4|]. intros k Hk. split; [by apply H4|]. intros ->. apply H3 in Hk; [|done]. congruence.
  - intros j Hj Hh. right. by apply H7.
Qed.

(** The thread that waited in [cond_signal] goes on. *)
Lemma between_signalled s i g : between s (Held i) g -> seat i -> signals (at_pc s i) = true ->
  active (cond_signal_end s) i None (if decide (at_pc s i = PutSigL) then [RIGHT i] else []).
Proof.
  intros [H1 H2 H3 H4 H5 H6 H7] Hi Hs. assert (Hg : g = Some i) by (by apply H3). subst g. constructor; cbn [at_pc count next_count state_condvar cond_signal_end set_next_count]; try done.
  - intros j Hj Hji. split; [by apply H1|]. intros Hw. destruct (state_condvar s j) eqn:E; [|done|].
    + pose proof (H1 j Hj) as Hr. rewrite Hw, E in Hr. cbn in Hr. naive_solver.
    + apply H2 in E as [?|?]; congruence.
  - intros j Hj Hji. rewrite H3 by done. split; [|done]. intros [= ->]. done.
  - split; [|done]. destruct H4 as [-> _]. done.
  - intros j Hj Hh. destruct (H7 j Hj Hh) as [?|(k & [= <-] & Hp & ->)]; [tauto|]. left. rewrite decide_True by done. by left.
Qed.

Lemma resume_ok s i g : semi s None -> between s (Held i) g -> seat i -> stat s i = Ready -> good (resume i s).
Proof.
  intros Hse Hb Hi Hst. pose proof (bt_rest _ _ _ Hb i Hi) as Hr. pose proof (bt_place _ _ _ Hb) as [_ Hp]. pose proof (bt_wait _ _ _ Hb i Hi) as Hw.
  pose proof (between_active s i g Hb Hi) as Ha. pose proof (between_signalled s i g Hb Hi) as Hs. unfold resume. destruct (at_pc s i); cbn in Hr.
  - subst g. apply take_ok; [done|by apply Ha|done|done|apply Hr|apply Hr].
  - done.
  - specialize (Ha eq_refl). assert (He : state_condvar s i = EATING) by (apply Hw; tauto). destruct Hr as [_ Hc].
    set (s1 := cond_wait_end i s). assert (Hc1 : count s1 i = 0) by (cbn; rewrite fupd_eq; lia).
    assert (Ha1 : active s1 i g []).
    { destruct Ha as [H1 H2 H3 H4 H5]. constructor; try done. intros j Hj Hji. cbn [count s1 cond_wait_end set_count]. rewrite fupd_ne by done. by apply H1. }
    destruct (leave_between s1 i g AtPut) as (p & H1 & H2); try done; [by apply (semi_data s)|]. by exists p, g.
  - subst g. apply put_ok; [done|by apply Ha|done|done|apply Hr].
  - apply put_rest_ok; [by apply (semi_data s)|by apply Hs|done|done|apply Hr|apply Hr].
  - destruct (leave_between (cond_signal_end s) i None AtTake) as (p & H1 & H2); try done; [by apply (semi_data s)|by apply Hs|]. by exists p, None.
Qed.

Lemma step_good s i s' : good s -> seat i -> thread_step i s = Some s' -> good s'.
Proof.
  intros (p & g & Hse & Hb) Hi. unfold thread_step. set (x := sem_at i (at_pc s i)). destruct (stat s i) eqn:Hst; [|done|].
  - destruct (val (sem_of x s) >? 0) eqn:Hv; intros [= <-].
    + destruct (semi_pass s (Some p) i Hse Hi Hv) as [[= ->] Hse']. destruct (set_sem_stat x (Sem (val (sem_of x s) - 1) (wq (sem_of x s))) s) as (S1 & S2 & S3).
      eapply resume_ok; [exact Hse'|eapply between_data; [exact S3|by apply between_pass]|done|by rewrite S1].
    + exists p, g. split; [by apply semi_block|]. eapply between_data; [|exact Hb]. by destruct x.
  - intros [= <-]. assert (Some p = Some (Held i)) as [= ->] by (by apply (se_stat _ _ Hse)).
    eapply resume_ok; [by apply semi_grant|eapply between_data; [|exact Hb]; done|done|]. cbn. by rewrite fupd_eq.
Qed.

Lemma init_good s : monitor_init N true boot = Some s -> good s.
Proof.
  intros [= <-]. exists (In Mutex), None. unfold below. split.
  - constructor.
    + intros [| |i] Hi; cbn; [done..|]. by destruct (_ && _).
    + by intros j _.
    + intros [| |i] _; cbn; [apply NoDup_nil_2..|]. destruct (_ && _); apply NoDup_nil_2.
    + intros x w _. split; [destruct x as [| |i]; cbn; [..|destruct (_ && _)]; by intros ?%elem_of_nil|]. by intros (_ & ? & _).
    + by intros [].
  - constructor; try done. intros j Hj. cbn. split; [done|]. by destruct (_ && _).
Qed.

Lemma reachable_good s : reachable s -> good s.
Proof. induction 1; [by apply init_good|by eapply step_good]. Qed.

(** C16: in every state the five threads can reach no two neighbours eat, at
    most one thread is between the semaphores of the monitor (there is one
    token in all of them), and a philosopher who is hungry while the monitor
    is free has a neighbour who eats. *)
Theorem philosophers_safe (s : mon) :
  reachable s ->
  (forall i, seat i -> eats s i -> ~ eats s (RIGHT i) /\ ~ eats s (LEFT i)) /\
  (forall i j, seat i -> seat j -> stat s i = Granted -> stat s j = Granted -> i = j) /\
  (val (mutex s) = 1 -> forall i, seat i -> stat s i <> Granted /\ (state_condvar s i = HUNGRY -> neighbour_eats s i)).
Proof.
  intros (p & g & Hse & Hb)%reachable_good. split_and!.
  - intros i Hi He. split; [by apply (bt_safe _ _ _ Hb)|]. intros Hl. apply (bt_safe _ _ _ Hb (LEFT i)); [done|done|]. by rewrite right_left.
  - intros i j Hi Hj [= ->]%(se_stat _ _ Hse) [= ->]%(se_stat _ _ Hse); done.
  - intros Hm i Hi. pose proof (se_val _ _ Hse Mutex I) as Hv. change (sem_of Mutex s) with (mutex s) in Hv. rewrite Hm in Hv. destruct (decide _) as [[= ->]|]; [|done].
    pose proof (bt_place _ _ _ Hb) as Hg. cbn in Hg. subst g. split; [by intros ?%(se_stat _ _ Hse)|]. intros Hh. destruct (bt_hungry _ _ _ Hb i Hi Hh) as [?|(k & ? & _)]; done.
Qed.

(** A thread that has finished a round and not begun the next. *)
Definition idle (s : mon) (i : Z) : Prop := at_pc s i = AtTake /\ stat s i = Ready.
(** A thread that can pass its [down]. *)
Definition can_pass (s : mon) (i : Z) : Prop := stat s i = Granted \/ (stat s i = Ready /\ val (sem_of (sem_at i (at_pc s i)) s) = 1).

Lemma free_passes s x i : semi s (Some (In x)) -> seat i -> sem_at i (at_pc s i) = x -> can_pass s i.
Proof.
  intros Hse Hi Hx. assert (Hok : sid_ok x) by (rewrite <- Hx; by apply sem_at_ok). right. split.
  - destruct (stat s i) eqn:E; [done| |by apply (se_stat _ _ Hse) in E]. assert (Hin : i ∈ wq (sem_of x s)) by (by apply (se_queue _ _ Hse)).
    rewrite (se_free _ _ Hse x Hok eq_refl) in Hin. by apply elem_of_nil in Hin.
  - rewrite Hx, (se_val _ _ Hse x Hok). by rewrite decide_True.
Qed.

(** C7: the philosophers never deadlock: in every reachable state in which
    some thread is in the middle of a round there is a thread in the middle
    of a round that can pass its [down], so that the rounds that were begun
    do not depend on threads that have finished. *)
Theorem philosophers_progress (s : mon) (i : Z) :
  reachable s -> seat i -> ~ idle s i -> exists j, seat j /\ ~ idle s j /\ can_pass s j.
Proof.
  intros (p & g & Hse & Hb)%reachable_good Hi Hn. pose proof (bt_place _ _ _ Hb) as Hp. unfold idle in *. destruct p as [[| |j]|j].
  - assert (Hput : forall j, seat j -> at_pc s j = AtPut -> exists k, seat k /\ ~ (at_pc s k = AtTake /\ stat s k = Ready) /\ can_pass s k).
    { intros j Hj Hpc. exists j. split_and!; [done|by rewrite Hpc; intros [? _]|]. apply (free_passes s Mutex); [done..|by rewrite Hpc]. }
    cbn in Hp. subst g. assert (Heat : forall j, seat j -> eats s j -> at_pc s j = AtPut).
    { intros j Hj He. pose proof (bt_rest _ _ _ Hb j Hj) as Hr. unfold eats in He. destruct (at_pc s j) eqn:E; cbn in Hr; try (destruct Hr; congruence).
      apply (bt_wait _ _ _ Hb j Hj E) in He as [?|?]; done. }
    destruct (at_pc s i) eqn:Epc.
    + destruct (free_passes s Mutex i Hse Hi ltac:(by rewrite Epc)) as [Hg|[Hr _]]; [by apply (se_stat _ _ Hse) in Hg|]. by destruct Hn.
    + pose proof (bt_rest _ _ _ Hb i Hi) as Hr. by rewrite Epc in Hr.
    + pose proof (bt_rest _ _ _ Hb i Hi) as Hr. rewrite Epc in Hr. destruct Hr as [[Hh|He] _].
      * destruct (bt_hungry _ _ _ Hb i Hi Hh) as [[He|He]|(k & ? & _)]; [by apply (Hput (LEFT i)); auto|by apply (Hput (RIGHT i)); auto|done].
      * apply Heat in He; [congruence|done].
    + by apply (Hput i).
    + assert (@None Z = Some i) by (apply (bt_sig _ _ _ Hb i Hi); by rewrite Epc). done.
    + assert (@None Z = Some i) by (apply (bt_sig _ _ _ Hb i Hi); by rewrite Epc). done.
  - destruct g as [k|]; [|done]. assert (Hk : seat k) by (by apply (bt_next _ _ _ Hb)). assert (Hs : signals (at_pc s k) = true) by (by apply (bt_sig _ _ _ Hb k Hk)).
    exists k. split_and!; [done|intros [E _]; by rewrite E in Hs|]. apply (free_passes s Next); [done..|]. destruct (at_pc s k); done.
  - destruct Hp as (Hj & Hpc & _). exists j. split_and!; [done|by rewrite Hpc; intros [? _]|]. apply (free_passes s (Cv j)); [done..|by rewrite Hpc].
  - destruct Hp as [Hj _]. assert (Hg : stat s j = Granted) by (by apply (se_stat _ _ Hse)). exists j. split_and!; [done|by rewrite Hg; intros [_ ?]|by left].
Qed.

(** A run: philosophers 0 and 1 want to eat, 0 gets the forks; when it puts
    them down it wakes 1, waits in [cond_signal] and is woken in turn. *)
Fixpoint schedule (l : list Z) (s : mon) : option mon :=
  match l with [] => Some s | i :: l => s' ← thread_step i s; schedule l s' end.

Lemma schedule_reachable l : forall s s', reachable s -> forallb (fun i => (0 <=? i) && (i <? N)) l = true -> schedule l s = Some s' -> reachable s'.
Proof.
  induction l as [|i l IH]; intros s s' Hr Hl; cbn [schedule forallb] in *; [by intros [= <-]|]. apply andb_true_iff in Hl as [Hi Hl].
  destruct (thread_step i s) as [s1|] eqn:E; [|done]. cbn. apply IH; [|done]. eapply reach_step; [exact Hr| |exact E]. lia.
Qed.

Definition demo_run : mon := default boot (s ← monitor_init N true boot; schedule [0; 1; 1; 0] s).

Lemma demo_reachable : reachable demo_run.
Proof. eapply (schedule_reachable [0; 1; 1; 0]); [apply reach_init; reflexivity|done|by vm_compute]. Defined.

Lemma philosophers_safe_witness : at_pc demo_run 0 = PutSigR /\ ~ eats demo_run 0.
Proof. split; [by vm_compute|]. destruct (philosophers_safe demo_run demo_reachable) as [H _]. apply (H 1); [done|by vm_compute]. Defined.

Lemma philosophers_progress_witness : exists j, seat j /\ ~ idle demo_run j /\ can_pass demo_run j.
Proof. apply (philosophers_progress demo_run 0); [exact demo_reachable|done|]. intros [H _]. by vm_compute in H. Defined.

(** * The philosophers with semaphores

    One semaphore per philosopher; a thread holds [mutex] only between two of
    its steps' ends, so [mutex] is always free when a thread comes to it. *)
Module Sema.
Inductive spc := TakeForks | WaitSelf | PutForks.

Record tbl := Tbl { smutex : sem; self : Z -> sem; state_sema : Z -> phil; s_pc : Z -> spc; s_stat : Z -> status }.
Definition set_smutex x t : tbl := Tbl x (self t) (state_sema t) (s_pc t) (s_stat t).
Definition set_self i x t : tbl := Tbl (smutex t) (fupd (self t) i x) (state_sema t) (s_pc t) (s_stat t).
Definition set_state i x t : tbl := Tbl (smutex t) (self t) (fupd (state_sema t) i x) (s_pc t) (s_stat t).
Definition set_spc i x t : tbl := Tbl (smutex t) (self t) (state_sema t) (fupd (s_pc t) i x) (s_stat t).
Definition set_sstat i x t : tbl := Tbl (smutex t) (self t) (state_sema t) (s_pc t) (fupd (s_stat t) i x).

Definition up_self (i : Z) t : tbl :=
  match wq (self t i) with
  | [] => set_self i (Sem (val (self t i) + 1) []) t
  | w :: r => set_sstat w Granted (set_self i (Sem (val (self t i)) r) t)
  end.
Definition up_smutex t : tbl :=
  match wq (smutex t) with
  | [] => set_smutex (Sem (val (smutex t) + 1) []) t
  | w :: r => set_sstat w Granted (set_smutex (Sem (val (smutex t)) r) t)
  end.

Definition flag (x : phil) t (i : Z) : bool := bool_decide (state_sema t i = x).

Definition phi_test_sema (i : Z) t : tbl :=
  if flag HUNGRY t i && negb (flag EATING t (LEFT i)) && negb (flag EATING t (RIGHT i)) then up_self i (set_state i EATING t) else t.

(** From the [down] on [mutex] to the one on the own semaphore, and to the end. *)
Definition phi_take_forks_sema (i : Z) t : tbl := set_spc i WaitSelf (up_smutex (phi_test_sema i (set_state i HUNGRY t))).
Definition phi_put_forks_sema (i : Z) t : tbl :=
  set_spc i TakeForks (up_smutex (phi_test_sema (RIGHT i) (phi_test_sema (LEFT i) (set_state i THINKING t)))).

Definition go_on (i : Z) t : tbl :=
  match s_pc t i with
  | TakeForks => phi_take_forks_sema i t
  | WaitSelf => set_spc i PutForks t
  | PutForks => phi_put_forks_sema i t
  end.

Definition sema_step (i : Z) t : option tbl :=
  match s_stat t i with
  | Blocked => None
  | Granted => Some (go_on i (set_sstat i Ready t))
  | Ready =>
      match s_pc t i with
      | WaitSelf =>
          if val (self t i) >? 0 then Some (go_on i (set_self i (Sem (val (self t i) - 1) (wq (self t i))) t))
          else Some (set_sstat i Blocked (set_self i (Sem (val (self t i)) (wq (self t i) ++ [i])) t))
      | _ =>
          if val (smutex t) >? 0 then Some (go_on i (set_smutex (Sem (val (smutex t) - 1) (wq (smutex t))) t))
          else Some (set_sstat i Blocked (set_smutex (Sem (val (smutex t)) (wq (smutex t) ++ [i])) t))
      end
  end.

Definition tbl_init : tbl := Tbl (Sem 1 []) (fun _ => Sem 0 []) (fun _ => THINKING) (fun _ => TakeForks) (fun _ => Ready).

Inductive sreachable : tbl -> Prop :=
  | sreach_init : sreachable tbl_init
  | sreach_step t i t' : sreachable t -> 0 <= i < N -> sema_step i t = Some t' -> sreachable t'.

(** One thread: place, flag, own semaphore and status. *)
Definition thread_ok (i : Z) (x : spc) (f : phil) (m : sem) (st : status) : Prop :=
  match x with
  | TakeForks => f = THINKING /\ m = Sem 0 [] /\ st = Ready
  | PutForks => f = EATING /\ m = Sem 0 [] /\ st = Ready
  | WaitSelf => (f = HUNGRY /\ (m = Sem 0 [] /\ st = Ready \/ m = Sem 0 [i] /\ st = Blocked)) \/
                (f = EATING /\ (m = Sem 1 [] /\ st = Ready \/ m = Sem 0 [] /\ st = Granted))
  end.

Definition neighbour (t : tbl) (i : Z) : Prop := state_sema t (LEFT i) = EATING \/ state_sema t (RIGHT i) = EATING.

(** [m]: the value of [mutex]; [pcs]: where the threads are; [E]: who may be
    hungry without a reason. *)
Record tgood (t : tbl) (m : Z) (pcs : Z -> spc) (E : list Z) : Prop := {
  tg_mutex : smutex t = Sem m [];
  tg_thread : forall j, seat j -> thread_ok j (pcs j) (state_sema t j) (self t j) (s_stat t j);
  tg_safe : forall j, seat j -> state_sema t j = EATING -> state_sema t (RIGHT j) <> EATING;
  tg_hungry : forall j, seat j -> state_sema t j = HUNGRY -> j ∈ E \/ neighbour t j
}.

Lemma up_self_at j t : thread_ok j WaitSelf HUNGRY (self t j) (s_stat t j) ->
  smutex (up_self j t) = smutex t /\ state_sema (up_self j t) = state_sema t /\ s_pc (up_self j t) = s_pc t /\
  thread_ok j WaitSelf EATING (self (up_self j t) j) (s_stat (up_self j t) j) /\
  (forall k, k <> j -> self (up_self j t) k = self t k /\ s_stat (up_self j t) k = s_stat t k).
Proof.
  intros [[_ [[Hs Hst]|[Hs Hst]]]|[? _]]; [..|done]; unfold up_self; rewrite Hs; cbn; split_and!; try done.
  - rewrite fupd_eq, Hst. tauto.
  - intros k Hk. by rewrite fupd_ne.
  - rewrite !fupd_eq. tauto.
  - intros k Hk. by rewrite !fupd_ne.
Qed.

Lemma test_good t m pcs E E' j : tgood t m pcs E -> seat j -> (forall k, k ∈ E -> k = j \/ k ∈ E') ->
  tgood (phi_test_sema j t) m pcs E' /\ s_pc (phi_test_sema j t) = s_pc t.
Proof.
  intros [Hm Ht Hs Hh] Hj HE. unfold phi_test_sema, flag.
  destruct (decide (state_sema t j = HUNGRY /\ ~ neighbour t j)) as [[Hjh Hn]|Hno].
  - unfold neighbour in Hn. rewrite bool_decide_true, !bool_decide_false by tauto. cbn [negb andb].
    assert (Hok : thread_ok j WaitSelf HUNGRY (self t j) (s_stat t j)).
    { pose proof (Ht j Hj) as Hj1. rewrite Hjh in Hj1. destruct (pcs j) eqn:Ep; cbn in Hj1; [naive_solver|done|naive_solver]. }
    assert (Hpj : pcs j = WaitSelf) by (pose proof (Ht j Hj) as Hj1; rewrite Hjh in Hj1; destruct (pcs j); cbn in Hj1; naive_solver).
    destruct (up_self_at j (set_state j EATING t) Hok) as (P1 & P2 & P3 & P4 & P5). split; [|done].
    assert (He : forall k, state_sema (up_self j (set_state j EATING t)) k = if decide (k = j) then EATING else state_sema t k).
    { intros k. rewrite P2. cbn. destruct (decide (k = j)) as [->|]; [by rewrite fupd_eq|by rewrite fupd_ne]. }
    constructor; unfold neighbour in *.
    + by rewrite P1.
    + intros k Hk. rewrite He. destruct (decide (k = j)) as [->|Hkj]; [by rewrite Hpj|]. destruct (P5 k Hkj) as [-> ->]. by apply Ht.
    + intros k Hk. rewrite !He. destruct (decide (k = j)) as [->|Hkj].
      * rewrite decide_False by (by apply right_ne). intros _ ?. tauto.
      * destruct (decide (RIGHT k = j)) as [E1|]; [|by apply Hs]. intros Hke. exfalso. apply Hn. left. by rewrite <- E1, left_right.
    + intros k Hk. rewrite !He. destruct (decide (k = j)) as [|Hkj]; [done|]. intros Hkh. destruct (Hh k Hk Hkh) as [Hin|Hne].
      * destruct (HE k Hin); [done|by left].
      * right. destruct Hne; [left|right]; by destruct (decide _).
  - assert (Ht' : (if bool_decide (state_sema t j = HUNGRY) && negb (bool_decide (state_sema t (LEFT j) = EATING)) && negb (bool_decide (state_sema t (RIGHT j) = EATING))
                   then up_self j (set_state j EATING t) else t) = t).
    { unfold neighbour in Hno. repeat case_bool_decide; try done; exfalso; tauto. }
    rewrite Ht'. split; [|done]. constructor; try done. intros k Hk Hkh. destruct (Hh k Hk Hkh) as [Hin|Hne]; [|tauto].
    destruct (HE k Hin) as [->|]; [|tauto]. right. unfold neighbour in *.
    destruct (decide (state_sema t (LEFT j) = EATING)), (decide (state_sema t (RIGHT j) = EATING)); tauto.
Qed.

(** A thread changes its own flag, holding [mutex]. *)
Lemma own_flag t pcs i x f : tgood t 0 pcs [] -> seat i -> thread_ok i x f (self t i) (s_stat t i) -> f <> EATING ->
  tgood (set_state i f t) 0 (fupd pcs i x) (if decide (f = HUNGRY) then [i] else [LEFT i; RIGHT i]) \/ state_sema t i = EATING /\ f = HUNGRY.
Proof.
  intros [Hm Ht Hs Hh] Hi Hok Hf. destruct (decide (state_sema t i = EATING /\ f = HUNGRY)) as [|Hc]; [by right|]. left.
  assert (He : forall k, state_sema (set_state i f t) k = if decide (k = i) then f else state_sema t k).
  { intros k. cbn. destruct (decide (k = i)) as [->|]; [by rewrite fupd_eq|by rewrite fupd_ne]. }
  constructor; unfold neighbour; try done.
  - intros j Hj. rewrite He. cbn [self s_stat set_state]. destruct (decide (j = i)) as [->|Hji]; [by rewrite fupd_eq|rewrite fupd_ne by done; by apply Ht].
  - intros j Hj. rewrite !He. destruct (decide (j = i)); [done|]. destruct (decide (RIGHT j = i)); [done|by apply Hs].
  - intros j Hj. rewrite !He. destruct (decide (j = i)) as [->|Hji]; [intros ->; rewrite decide_True by done; left; by left|].
    intros Hjh. destruct (Hh j Hj Hjh) as [Hin|Hne]; [by apply elem_of_nil in Hin|]. unfold neighbour in Hne.
    destruct (decide (f = HUNGRY)) as [->|Hnh].
    + right. destruct (decide (LEFT j = i)) as [El|], (decide (RIGHT j = i)) as [Er|]; rewrite ?El, ?Er in Hne; tauto.
    + destruct (decide (LEFT j = i)) as [El|].
      { left. apply elem_of_cons. right. apply list_elem_of_singleton. by rewrite <- El, right_left. }
      destruct (decide (RIGHT j = i)) as [Er|]; [|tauto]. left. apply elem_of_cons. left. by rewrite <- Er, left_right.
Qed.

Lemma up_smutex_good t pcs E : tgood t 0 pcs E -> tgood (up_smutex t) 1 pcs E /\ s_pc (up_smutex t) = s_pc t.
Proof. intros [Hm Ht Hs Hh]. unfold up_smutex. rewrite Hm. split; [|done]. by constructor. Qed.

Definition settled (t : tbl) : Prop := tgood t 1 (s_pc t) [].

Lemma settle t i x pcs : tgood t 1 (fupd pcs i x) [] -> s_pc t = pcs -> settled (set_spc i x t).
Proof. intros [H1 H2 H3 H4] Hp. unfold settled. constructor; try done. cbn. by rewrite Hp. Qed.

Lemma take_settled t i : tgood t 0 (s_pc t) [] -> seat i -> s_pc t i = TakeForks -> settled (phi_take_forks_sema i t).
Proof.
  intros Hg Hi Hp. pose proof (tg_thread _ _ _ _ Hg i Hi) as Hth. rewrite Hp in Hth. destruct Hth as (Hf & Hs & Hst).
  destruct (own_flag t (s_pc t) i WaitSelf HUNGRY Hg Hi) as [H1|[? _]]; [rewrite Hs, Hst; cbn; tauto|done| |congruence]. rewrite decide_True in H1 by done.
  destruct (test_good _ _ _ _ [] i H1 Hi) as [H2 P2]; [intros k ->%list_elem_of_singleton; by left|]. destruct (up_smutex_good _ _ _ H2) as [H3 P3].
  eapply settle; [exact H3|]. by rewrite P3, P2.
Qed.

Lemma put_settled t i : tgood t 0 (s_pc t) [] -> seat i -> s_pc t i = PutForks -> settled (phi_put_forks_sema i t).
Proof.
  intros Hg Hi Hp. pose proof (tg_thread _ _ _ _ Hg i Hi) as Hth. rewrite Hp in Hth. destruct Hth as (Hf & Hs & Hst).
  destruct (own_flag t (s_pc t) i TakeForks THINKING Hg Hi) as [H1|[_ ?]]; [by rewrite Hs, Hst|done| |done]. rewrite decide_False in H1 by done.
  destruct (test_good _ _ _ _ [RIGHT i] (LEFT i) H1 (left_seat i)) as [H2 P2]; [intros k; rewrite elem_of_cons; tauto|].
  destruct (test_good _ _ _ _ [] (RIGHT i) H2 (right_seat i)) as [H3 P3]; [intros k ->%list_elem_of_singleton; by left|].
  destruct (up_smutex_good _ _ _ H3) as [H4 P4]. eapply settle; [exact H4|]. by rewrite P4, P3, P2.
Qed.

(** A thread waits on, or passes, its own semaphore. *)
Lemma self_settled t i x m st : settled t -> seat i -> s_pc t i = WaitSelf -> thread_ok i x (state_sema t i) m st ->
  settled (set_spc i x (set_sstat i st (set_self i m t))).
Proof.
  intros [H1 H2 H3 H4] Hi Hp Hok. constructor; try done. cbn. intros j Hj.
  destruct (Z.eq_dec j i) as [->|Hji]; [by rewrite !fupd_eq|]. rewrite !fupd_ne by done. by apply H2.
Qed.

Lemma settled_ext t t' : settled t -> smutex t' = smutex t -> (forall j, seat j -> self t' j = self t j /\ state_sema t' j = state_sema t j /\ s_pc t' j = s_pc t j /\ s_stat t' j = s_stat t j) -> settled t'.
Proof.
  intros [H1 H2 H3 H4] Hm He. constructor; [by rewrite Hm|..]; unfold neighbour; intros j Hj; destruct (He j Hj) as (E1 & E2 & E3 & E4).
  - rewrite E1, E2, E3, E4. by apply H2.
  - rewrite E2. destruct (He (RIGHT j) (right_seat j)) as (_ & -> & _). by apply H3.
  - rewrite E2. destruct (He (RIGHT j) (right_seat j)) as (_ & -> & _). destruct (He (LEFT j) (left_seat j)) as (_ & -> & _). by apply H4.
Qed.

Lemma step_settled t i t' : settled t -> seat i -> sema_step i t = Some t' -> settled t'.
Proof.
  intros Hg Hi. pose proof (tg_thread _ _ _ _ Hg i Hi) as Hth. unfold sema_step. destruct (s_pc t i) eqn:Hp.
  - destruct Hth as (Hf & Hs & ->). rewrite (tg_mutex _ _ _ _ Hg). cbn. intros [= <-]. unfold go_on. cbn. rewrite Hp.
    apply take_settled; [|done|done]. destruct Hg. by constructor.
  - pose proof (fun x m st => self_settled t i x m st Hg Hi Hp) as Hset. destruct Hth as [[Hf [[Hs Hst]|[Hs Hst]]]|[Hf [[Hs Hst]|[Hs Hst]]]]; rewrite Hst, ?Hs; cbn; [|done|..]; intros [= <-].
    + eapply settled_ext; [apply (Hset WaitSelf (Sem 0 [i]) Blocked); rewrite Hf; cbn; tauto|done|]. intros j _. cbn. split_and!; try done.
      destruct (fupd_cases (s_pc t) i j WaitSelf) as [[-> ->]|[_ ->]]; by rewrite ?Hp.
    + unfold go_on. cbn. rewrite Hp. eapply settled_ext; [apply (Hset PutForks (Sem 0 []) Ready); by rewrite Hf|done|]. intros j _. cbn. split_and!; try done.
      destruct (fupd_cases (s_stat t) i j Ready) as [[-> ->]|[_ ->]]; done.
    + unfold go_on. cbn. rewrite Hp. eapply settled_ext; [apply (Hset PutForks (Sem 0 []) Ready); by rewrite Hf|done|]. intros j _. cbn. split_and!; try done.
      destruct (fupd_cases (self t) i j (Sem 0 [])) as [[-> ->]|[_ ->]]; done.
  - destruct Hth as (Hf & Hs & ->). rewrite (tg_mutex _ _ _ _ Hg). cbn. intros [= <-]. unfold go_on. cbn. rewrite Hp.
    apply put_settled; [|done|done]. destruct Hg. by constructor.
Qed.

(** the solution with semaphores keeps neighbours from eating together,
    never makes a thread wait for the critical section, and lets a
    philosopher wait only while a neighbour eats. *)
Theorem sema_philosophers_safe (t : tbl) :
  sreachable t ->
  (forall i, seat i -> state_sema t i = EATING -> state_sema t (RIGHT i) <> EATING) /\
  smutex t = Sem 1 [] /\
  (forall i, seat i -> s_stat t i = Blocked -> state_sema t i = HUNGRY /\ neighbour t i).
Proof.
  intros Hr. assert (Hg : settled t).
  { induction Hr as [|t i t' Hr IH Hi Hs]; [|by eapply step_settled]. by constructor. }
  split_and!; [apply Hg..|]. intros i Hi Hb. pose proof (tg_thread _ _ _ _ Hg i Hi) as Hth. rewrite Hb in Hth.
  assert (Hh : state_sema t i = HUNGRY) by (destruct (s_pc t i); cbn in Hth; naive_solver). split; [done|].
  destruct (tg_hungry _ _ _ _ Hg i Hi Hh) as [?%elem_of_nil|]; done.
Qed.

Fixpoint sschedule (l : list Z) (t : tbl) : option tbl :=
  match l with [] => Some t | i :: l => t' ← sema_step i t; sschedule l t' end.

Lemma sschedule_reachable l : forall t t', sreachable t -> forallb (fun i => (0 <=? i) && (i <? N)) l = true -> sschedule l t = Some t' -> sreachable t'.
Proof.
  induction l as [|i l IH]; intros t t' Hr Hl; cbn [sschedule forallb] in *; [by intros [= <-]|]. apply andb_true_iff in Hl as [Hi Hl].
  destruct (sema_step i t) as [t1|] eqn:E; [|done]. cbn. apply IH; [|done]. eapply sreach_step; [exact Hr| |exact E]. lia.
Qed.

Definition sdemo : tbl := default tbl_init (sschedule [0; 0; 1; 1] tbl_init).

Lemma sema_philosophers_safe_witness : s_stat sdemo 1 = Blocked /\ neighbour sdemo 1.
Proof.
  split; [by vm_compute|]. destruct (sema_philosophers_safe sdemo) as (_ & _ & H); [|apply (H 1); [done|by vm_compute]].
  apply (sschedule_reachable [0; 0; 1; 1] tbl_init); [constructor|done|by vm_compute].
Defined.
End Sema.
