(* ===== verification/Kdebug.v ===== *)
(** * Debugging information

    kern/debug/kdebug.c: the search in a table of stabs and the lookup of an
    instruction address.  The table is read from memory, entry by entry. *)
From S2P Require Import Prelude Libs Vmm Sysfile Exec.

Definition N_FUN : Z := 0x24.
Definition N_SLINE : Z := 0x44.
Definition N_SO : Z := 0x64.
Definition N_SOL : Z := 0x84.
Definition N_PSYM : Z := 0xa0.
Definition USTAB : Z := USERBASE.

Record stab := Stab { n_strx : Z; n_type : Z; n_other : Z; n_desc : Z; n_value : Z }.
Definition STAB_SIZE : Z := 12.

Definition stab_at (m : mem) (stabs i : Z) : stab :=
  let a := stabs + STAB_SIZE * i in
  Stab (le32_at m a) (m (a + 4)) (m (a + 5)) (le16_at m (a + 6)) (le32_at m (a + 8)).

(** ** stab_binsearch *)
Section search.
Variable stabs : Z -> stab.

(** [while (m >= l && stabs[m].n_type != type) m --], for at most [n] rounds. *)
Fixpoint scan_down (n : nat) (m l type : Z) : Z :=
  match n with
  | O => m
  | S n => if (m >=? l) && negb (n_type (stabs m) =? type) then scan_down n (m - 1) l type else m
  end.
Definition earliest (m l type : Z) : Z := scan_down (Z.to_nat (m - l + 1)) m l type.

(** The loop; the results are [*region_left], [*region_right], [any_matches]. *)
Fixpoint search_loop (fuel : nat) (type l r left right : Z) (any_matches : bool) (addr : Z) : res (Z * Z * bool) :=
  match fuel with
  | O => Spin
  | S fuel =>
      if l <=? r then
        let true_m := (l + r) / 2 in
        let m := earliest true_m l type in
        if m <? l then search_loop fuel type (true_m + 1) r left right any_matches addr
        else if n_value (stabs m) <? addr then search_loop fuel type (true_m + 1) r m right true addr
        else if n_value (stabs m) >? addr then search_loop fuel type l (m - 1) left (m - 1) true addr
        else search_loop fuel type m r m right true (u32 (addr + 1))
      else Ok (left, right, any_matches)
  end.

Definition stab_binsearch (left right type addr : Z) : res (Z * Z) :=
  '(l, r, any_matches) ← search_loop (S (Z.to_nat (2 * (right - left + 1)))) type left right left right false addr;
  if negb any_matches then Ok (l, l - 1)
  else Ok (scan_down (Z.to_nat (r - l)) r (l + 1) type, r).

(** ** Correctness *)
Lemma scan_down_spec n type : forall m l, Z.of_nat n = Z.max 0 (m - l + 1) ->
  let k := scan_down n m l type in
  k <= m /\ (forall j, k < j <= m -> n_type (stabs j) <> type) /\ (l <= k -> n_type (stabs k) = type) /\ (k < l -> k = Z.min m (l - 1)).
Proof.
  induction n as [|n IH]; intros m l Hn; cbn [scan_down].
  - split_and!; intros; try lia.
  - destruct (Z.geb_spec m l); cbn [andb].
    + destruct (Z.eqb_spec (n_type (stabs m)) type) as [E|E]; cbn [negb].
      * split_and!; intros; try lia; done.
      * destruct (IH (m - 1) l) as (H1 & H2 & H3 & H4); [lia|]. split_and!; [lia| |exact H3|intros; lia].
        intros j Hj. destruct (Z.eq_dec j m) as [->|]; [done|]. apply H2. lia.
    + split_and!; intros; lia.
Qed.

Lemma earliest_spec m l type : l <= m ->
  let k := earliest m l type in
  l - 1 <= k <= m /\ (forall j, k < j <= m -> n_type (stabs j) <> type) /\ (l <= k -> n_type (stabs k) = type).
Proof.
  intros H k. destruct (scan_down_spec (Z.to_nat (m - l + 1)) type m l) as (H1 & H2 & H3 & H4); [lia|].
  fold (earliest m l type) in *. fold k in H1, H2, H3, H4 |- *. split_and!; try done. destruct (Z.lt_ge_cases k l); lia.
Qed.

(** ** Termination, for any table *)
Section terminates.
Variable type : Z.

(** The stabs of the type in a range that can still stop the search. *)
Definition open_stab (addr k : Z) : bool := (n_type (stabs k) =? type) && (addr <=? n_value (stabs k)).
Fixpoint count (n : nat) (l addr : Z) : nat :=
  match n with O => 0 | S n => (if open_stab addr l then 1 else 0) + count n (l + 1) addr end%nat.
Definition opens (l r addr : Z) : nat := count (Z.to_nat (r - l + 1)) l addr.

Lemma count_le n : forall l addr, (count n l addr <= n)%nat.
Proof. induction n as [|n IH]; intros l addr; cbn; [lia|]. specialize (IH (l + 1) addr). destruct (open_stab _ _); lia. Qed.

Lemma count_app n1 n2 : forall l addr, count (n1 + n2) l addr = (count n1 l addr + count n2 (l + Z.of_nat n1) addr)%nat.
Proof.
  induction n1 as [|n1 IH]; intros l addr; cbn; [by rewrite Z.add_0_r|]. rewrite IH. replace (l + 1 + Z.of_nat n1) with (l + Z.of_nat (S n1)) by lia. lia.
Qed.

Lemma count_addr n : forall l a b, a <= b -> (count n l b <= count n l a)%nat.
Proof.
  induction n as [|n IH]; intros l a b H; cbn; [lia|]. specialize (IH (l + 1) a b H). unfold open_stab.
  destruct (n_type (stabs l) =? type); cbn [andb]; [|lia]. destruct (Z.leb_spec b (n_value (stabs l))), (Z.leb_spec a (n_value (stabs l))); lia.
Qed.

Lemma opens_split l m r addr : l <= m <= r + 1 -> opens l r addr = (opens l (m - 1) addr + opens m r addr)%nat.
Proof.
  intros H. unfold opens. replace (Z.to_nat (r - l + 1)) with (Z.to_nat (m - 1 - l + 1) + Z.to_nat (r - m + 1))%nat by lia.
  rewrite count_app. by replace (l + Z.of_nat (Z.to_nat (m - 1 - l + 1))) with m by lia.
Qed.

Lemma opens_exact m r addr : m <= r -> n_type (stabs m) = type -> n_value (stabs m) = addr -> (opens m r (addr + 1) < opens m r addr)%nat.
Proof.
  intros Hr Ht Hv. unfold opens. replace (Z.to_nat (r - m + 1)) with (S (Z.to_nat (r - m))) by lia. cbn [count]. unfold open_stab. rewrite Ht, Hv, Z.eqb_refl.
  replace (addr <=? addr) with true by lia. replace (addr + 1 <=? addr) with false by lia. cbn [andb].
  pose proof (count_addr (Z.to_nat (r - m)) (m + 1) addr (addr + 1)). lia.
Qed.

Lemma search_terminates fuel : forall l r left right any addr,
  (Z.to_nat (r - l + 1) + opens l r addr < fuel)%nat -> 0 <= addr -> addr + Z.of_nat (opens l r addr) < 2 ^ 32 ->
  exists x, search_loop fuel type l r left right any addr = Ok x.
Proof.
  induction fuel as [|fuel IH]; intros l r left right any addr Hf H0 Hw; [lia|]. cbn [search_loop].
  destruct (Z.leb_spec l r) as [Hlr|]; [|by eexists]. cbv zeta. set (t := (l + r) / 2). assert (Ht : l <= t <= r) by (subst t; split; [apply Z.div_le_lower_bound|apply Z.div_le_upper_bound]; lia).
  destruct (earliest_spec t l type) as (Hm & _ & Hty); [lia|]. set (m := earliest t l type) in *.
  pose proof (opens_split l (t + 1) r addr ltac:(lia)) as Hs1.
  destruct (Z.ltb_spec m l); [apply IH; lia|].
  destruct (Z.ltb_spec (n_value (stabs m)) addr); [apply IH; lia|].
  pose proof (opens_split l m r addr ltac:(lia)) as Hs2.
  destruct (Z.gtb_spec (n_value (stabs m)) addr); [apply IH; lia|].
  pose proof (opens_exact m r addr ltac:(lia) ltac:(auto) ltac:(lia)) as Hs3.
  rewrite u32_small by lia. apply IH; lia.
Qed.
End terminates.

(** C39: the search ends on every table, sorted or not, for every type and
    address (below the top of memory by as many bytes as there are stabs,
    since the address is counted up), after at most two rounds per stab. *)
Theorem stab_binsearch_terminates (left right type addr : Z) :
  0 <= addr -> addr + Z.max 0 (right - left + 1) < 2 ^ 32 -> exists x, stab_binsearch left right type addr = Ok x.
Proof.
  intros H0 Hw. unfold stab_binsearch. pose proof (count_le type (Z.to_nat (right - left + 1)) left addr) as Hc. fold (opens type left right addr) in Hc.
  destruct (search_terminates type (S (Z.to_nat (2 * (right - left + 1)))) left right left right false addr) as [[[l r] any] ->]; [lia..|].
  rewrite res_bind_ok. destruct any; cbn [negb]; by eexists.
Qed.

(** ** The result on a sorted table *)
Section sorted.
Variables (L R type A : Z).

Definition is_type (k : Z) : Prop := n_type (stabs k) = type.
Definition value (k : Z) : Z := n_value (stabs k).

(** The stabs of the type are in order of their values, and no two of them
    are at [A] and at [A + 1]. *)
Record table_ok : Prop := {
  tb_sorted : forall j k, L <= j -> j <= k -> k <= R -> is_type j -> is_type k -> value j <= value k;
  tb_apart : forall j k, L <= j <= R -> L <= k <= R -> is_type j -> is_type k -> value j = A -> value k <> A + 1
}.

(** Between two rounds. *)
Record inv (l r left : Z) (any : bool) (addr : Z) : Prop := {
  iv_range : L <= l /\ r <= R /\ l <= r + 1;
  iv_low : forall k, L <= k < l -> is_type k -> value k <= A;
  iv_high : forall k, r < k <= R -> is_type k -> A < value k;
  iv_edge : r = R \/ (is_type (r + 1) /\ any = true);
  iv_left : left = L \/ (L <= left <= r /\ is_type left /\ value left <= A /\ any = true);
  iv_any : any = false -> forall k, (L <= k < l \/ r < k <= R) -> ~ is_type k;
  iv_any' : any = true -> exists k, L <= k <= R /\ is_type k;
  iv_addr : addr = A \/ (addr = A + 1 /\ exists k, L <= k <= R /\ is_type k /\ value k = A)
}.

Lemma search_inv fuel : table_ok -> 0 <= A -> A + 1 < 2 ^ 32 -> forall l r left any addr left' right' any',
  inv l r left any addr -> search_loop fuel type l r left r any addr = Ok (left', right', any') ->
  exists l' addr', inv l' right' left' any' addr' /\ right' < l'.
Proof.
  intros Htb H0 Hw. induction fuel as [|fuel IH]; intros l r left any addr left' right' any' Hi; cbn [search_loop]; [done|].
  destruct (Z.leb_spec l r) as [Hlr|]; [|intros [= <- <- <-]; by exists l, addr].
  cbv zeta. set (t := (l + r) / 2). assert (Ht : l <= t <= r) by (subst t; split; [apply Z.div_le_lower_bound|apply Z.div_le_upper_bound]; lia).
  destruct (earliest_spec t l type) as (Hm & Hno & Hty); [lia|]. set (m := earliest t l type) in *. destruct Hi as [Hr Hlo Hhi Hed Hle Han Han' Had]. fold (value m).
  assert (Hup : forall k, m < k <= t -> ~ is_type k) by exact Hno.
  destruct (Z.ltb_spec m l) as [Hml|Hml].
  { apply IH. split; try done; [lia| |].
    - intros k Hk. destruct (Z.lt_ge_cases k l); [apply Hlo; lia|]. intros Hkt. destruct (Hup k); [lia|done].
    - intros Ha k Hk. destruct (Z.lt_ge_cases k l); [apply Han; [done|lia]|]. destruct Hk; [apply Hup; lia|apply Han; [done|lia]]. }
  assert (Hmt : is_type m) by (apply Hty; lia). assert (HmR : L <= m <= R) by lia.
  assert (Hlow : forall k, value m <= A -> L <= k < t + 1 -> is_type k -> value k <= A).
  { intros k Hv Hk Hkt. destruct (Z.lt_ge_cases m k); [by destruct (Hup k); [lia|]|]. pose proof (tb_sorted Htb k m ltac:(lia) ltac:(lia) ltac:(lia) Hkt Hmt). lia. }
  destruct (Z.ltb_spec (value m) addr) as [Hv|Hv].
  { assert (HvA : value m <= A) by (destruct Had as [->|[-> _]]; lia). apply IH. split; try done; [lia|auto| | |by exists m].
    - destruct Hed as [?|[? _]]; [by left|by right].
    - right. split_and!; try done; lia. }
  destruct (Z.gtb_spec (value m) addr) as [Hv'|Hv'].
  { assert (HvA : A < value m) by (destruct Had as [->|[-> _]]; lia). apply IH. split; try done; [lia| | | |by exists m].
    - intros k Hk Hkt. destruct (Z.lt_ge_cases k m); [lia|]. pose proof (tb_sorted Htb m k ltac:(lia) ltac:(lia) ltac:(lia) Hmt Hkt). lia.
    - right. split; [|done]. by replace (m - 1 + 1) with m by lia.
    - destruct Hle as [->|(H1 & H2 & H3 & H4)]; [by left|right]. split_and!; try done; [lia|].
      destruct (Z.lt_ge_cases left m); [lia|]. pose proof (tb_sorted Htb m left ltac:(lia) ltac:(lia) ltac:(lia) Hmt H2). lia. }
  assert (Hva : value m = A /\ addr = A).
  { destruct Had as [->|[-> (k & Hk1 & Hk2 & Hk3)]]; [split; [lia|done]|]. pose proof (tb_apart Htb k m Hk1 HmR Hk2 Hmt Hk3). lia. }
  destruct Hva as [HvA ->]. rewrite u32_small by lia. apply IH. split; try done; [lia| | | |by exists m|].
  - intros k Hk. apply Hlow; lia.
  - destruct Hed as [?|[? _]]; [by left|by right].
  - right. split_and!; try done; lia.
  - right. split; [done|]. by exists m.
Qed.

(** The three answers of the search. *)
Inductive answer : Z -> Z -> Prop :=
  | Found k r : L <= k <= r -> r <= R -> is_type k -> value k <= A ->
      (forall j, k < j <= r -> ~ is_type j) -> (r = R \/ (is_type (r + 1) /\ A < value (r + 1))) -> answer k r
  | NoStab : (forall j, L <= j <= R -> ~ is_type j) -> answer L (L - 1)
  | AllAbove r : r < R -> (forall j, L <= j <= r -> ~ is_type j) -> is_type (r + 1) -> A < value (r + 1) -> L <= r + 1 -> answer (Z.min L r) r.

Lemma binsearch_answer left right : table_ok -> 0 <= A -> A + Z.max 1 (R - L + 1) < 2 ^ 32 -> L <= R + 1 ->
  stab_binsearch L R type A = Ok (left, right) -> answer left right.
Proof.
  intros Htb H0 Hw HLR. unfold stab_binsearch.
  assert (Hi : inv L R L false A) by (split; [lia|intros k Hk; lia|intros k Hk; lia|by left|by left|intros _ k Hk; lia|done|by left]).
  destruct (search_loop _ _ _ _ _ _ _ _) as [[[l' r'] any]| |] eqn:E; [|done..]. rewrite res_bind_ok.
  destruct (search_inv _ Htb H0 ltac:(lia) _ _ _ _ _ _ _ _ Hi E) as (l & addr & [Hr Hlo Hhi Hed Hle Han Han' _] & Hlt). clear E Hi.
  assert (Hel : l = r' + 1) by lia. subst l. destruct any; cbn [negb]; intros [= <- <-].
  - set (k := scan_down _ _ _ _).
    assert (Hk : k <= r' /\ (forall j, k < j <= r' -> ~ is_type j) /\ (l' < k -> is_type k) /\ (k <= l' -> k = Z.min r' l')).
    { destruct (scan_down_spec (Z.to_nat (r' - l')) type r' (l' + 1)) as (H1 & H2 & H3 & H4); [lia|]. fold k in H1, H2, H3, H4.
      split_and!; try done; [intros; apply H3; lia|intros; rewrite H4 by lia; f_equal; lia]. }
    destruct Hk as (Hk1 & Hk2 & Hk3 & Hk4). clearbody k.
    assert (Hedge : r' = R \/ (is_type (r' + 1) /\ A < value (r' + 1))).
    { destruct Hed as [?|[Ht _]]; [by left|]. destruct (Z.eq_dec r' R); [by left|right]. split; [done|]. apply Hhi; [lia|done]. }
    destruct (Z.lt_ge_cases l' k) as [Hlk|Hlk].
    + assert (L <= l') by (destruct Hle as [->|(? & _)]; lia). apply Found; [lia|lia|auto|apply Hlo; [lia|auto]|done|done].
    + pose proof (Hk4 Hlk) as Hkm. destruct Hle as [->|(Hle & Hlt' & Hlv & _)].
      * destruct (decide (L <= r' /\ is_type L)) as [[HL HLt]|HL].
        { assert (k = L) as -> by lia. apply Found; [lia|lia|done|apply Hlo; [lia|done]|done|done]. }
        rewrite Hkm, Z.min_comm. assert (Hnone : forall j, L <= j <= r' -> ~ is_type j).
        { intros j Hj Hjt. destruct (Z.eq_dec j L) as [->|]; [apply HL; split; [lia|done]|]. apply (Hk2 j); [lia|done]. }
        destruct Hedge as [->|[He1 He2]]; [|apply AllAbove; try done; [|lia]; destruct Hed as [->|?]; [|]].
        -- destruct (Han' eq_refl) as (j & Hj & Hjt). by destruct (Hnone j).
        -- destruct (Z.eq_dec R R); [|done]. destruct (Han' eq_refl) as (j & Hj & Hjt). by destruct (Hnone j).
        -- destruct (Z.lt_ge_cases r' R); [done|]. destruct (Han' eq_refl) as (j & Hj & Hjt). destruct (Hnone j); [lia|done].
      * assert (k = l') as -> by lia. apply Found; [lia|lia|done|done|done|done].
  - destruct Hed as [->|[_ ?]]; [|done]. destruct Hle as [->|(_ & _ & _ & ?)]; [|done]. apply NoStab. intros j Hj. apply Han; [done|lia].
Qed.
End sorted.

Lemma binsearch_ok L R type A : table_ok L R type A -> 0 <= A -> A + Z.max 1 (R - L + 1) < 2 ^ 32 -> L <= R + 1 ->
  exists left right, stab_binsearch L R type A = Ok (left, right) /\ answer L R type A left right.
Proof.
  intros Htb H0 Hw HLR. pose proof (count_le type (Z.to_nat (R - L + 1)) L A) as Hc. fold (opens type L R A) in Hc.
  destruct (stab_binsearch L R type A) as [[left right]| |] eqn:E; [exists left, right; split; [done|by apply binsearch_answer]|exfalso..];
    unfold stab_binsearch in E;
    destruct (search_terminates type (S (Z.to_nat (2 * (R - L + 1)))) L R L R false A) as [[[l r] any] He]; try lia;
    rewrite He, res_bind_ok in E; by destruct any.
Qed.
End search.

(** What the comment of [stab_binsearch] promises: the left end is the last
    stab of the type that is not above the address and the right end is just
    before the next one of the type; or the range is empty and there is no stab
    of the type. *)
Definition brackets (stabs : Z -> stab) (L R type A left right : Z) : Prop :=
  (L <= left <= right /\ right <= R /\ is_type stabs type left /\ value stabs left <= A /\
   (forall j, left < j <= R -> is_type stabs type j -> A < value stabs j /\ right < j) /\
   (right = R \/ is_type stabs type (right + 1))) \/
  (right < left /\ forall j, L <= j <= R -> ~ is_type stabs type j).

(** C30: in a table whose stabs of the searched type are in order of their
    addresses, with no two of them at the address and right behind it, and
    which either has a stab of the type that is not above the address or has
    none of the type at all, the search returns the range that its comment
    promises: from the last stab of the type not above the address to just
    before the next one, and an empty range when there is none.  The address is
    so far from [2 ^ 32] that counting it up does not wrap.  (The two tables
    left out are where the code departs from the comment: see
    [neighbours_confused] and [all_above_not_empty].) *)
Theorem stab_binsearch_correct (stabs : Z -> stab) (L R type A : Z) :
  table_ok stabs L R type A -> 0 <= A -> A + Z.max 1 (R - L + 1) < 2 ^ 32 -> L <= R + 1 ->
  (exists k, L <= k <= R /\ is_type stabs type k /\ value stabs k <= A) \/ (forall k, L <= k <= R -> ~ is_type stabs type k) ->
  exists left right, stab_binsearch stabs L R type A = Ok (left, right) /\ brackets stabs L R type A left right.
Proof.
  intros Htb H0 Hw HLR Hsome. destruct (binsearch_ok stabs L R type A Htb H0 Hw HLR) as (left & right & E & Ha).
  exists left, right. split; [done|]. destruct Ha as [k r Hk Hr Ht Hv Hno Hedge|Hno|r Hr Hno Ht Hv HL].
  - left. split_and!; [lia|lia|lia|done|done| |tauto]. intros j Hj Hjt. assert (Hrj : r < j) by (destruct (Z.lt_ge_cases r j); [done|]; by destruct (Hno j); [lia|]).
    split; [|done]. destruct Hedge as [->|[Het Hev]]; [lia|]. pose proof (tb_sorted _ _ _ _ _ Htb (r + 1) j ltac:(lia) ltac:(lia) ltac:(lia) Het Hjt). lia.
  - right. split; [lia|done].
  - exfalso. destruct Hsome as [(k & Hk & Hkt & Hkv)|Hn]; [|by apply (Hn (r + 1)); [lia|]].
    destruct (Z.lt_ge_cases r k); [|by apply (Hno k); [lia|]]. pose proof (tb_sorted _ _ _ _ _ Htb (r + 1) k ltac:(lia) ltac:(lia) ltac:(lia) Ht Hkt). lia.
Qed.

(** ** debuginfo_eip *)
Record eipdebuginfo := Info { eip_file : Z; eip_line : Z; eip_fn_name : Z; eip_fn_namelen : Z; eip_fn_addr : Z; eip_fn_narg : Z }.

(** The table and its end, the strings and their end. *)
Record tables := Tables { t_stabs : Z; t_end : Z; t_str : Z; t_strend : Z }.

(** [umm]: [current->mm], [None] also without a current process. *)
Definition find_tables (m : mem) (ktab : tables) (umm : option vmst) (addr : Z) : res (option tables * option vmst) :=
  if addr >=? KERNBASE then Ok (Some ktab, umm)
  else
    match umm with
    | None => Ok (None, umm)
    | Some _ =>
        '(ok, umm) ← user_mem_check umm USTAB 16 false;
        if negb ok then Ok (None, umm)
        else
          let t := Tables (le32_at m USTAB) (le32_at m (USTAB + 4)) (le32_at m (USTAB + 8)) (le32_at m (USTAB + 12)) in
          '(ok, umm) ← user_mem_check umm (t_stabs t) (u32 (t_end t - t_stabs t)) false;
          if negb ok then Ok (None, umm)
          else
            '(ok, umm) ← user_mem_check umm (t_str t) (u32 (t_strend t - t_str t)) false;
            Ok (if negb ok then None else Some t, umm)
    end.

(** [while (lline >= lfile && ...) lline --] *)
Fixpoint find_source (stabs : Z -> stab) (n : nat) (lline lfile : Z) : Z :=
  match n with
  | O => lline
  | S n =>
      if (lline >=? lfile) && negb (n_type (stabs lline) =? N_SOL) && (negb (n_type (stabs lline) =? N_SO) || (n_value (stabs lline) =? 0))
      then find_source stabs n (lline - 1) lfile else lline
  end.

(** The stabs of parameters behind the one of the function. *)
Fixpoint count_params (stabs : Z -> stab) (n : nat) (lline rfun : Z) : Z :=
  match n with
  | O => 0
  | S n => if (lline <? rfun) && (n_type (stabs lline) =? N_PSYM) then 1 + count_params stabs n (lline + 1) rfun else 0
  end.

Definition search_eip (fuel : nat) (m : mem) (unknown addr : Z) (t : tables) : res (Z * eipdebuginfo) :=
  let info := Info unknown 0 unknown 9 addr 0 in
  if (t_strend t <=? t_str t) || negb (m (t_strend t - 1) =? 0) then Ok (-1, info)
  else
    let stabs := stab_at m (t_stabs t) in
    '(lfile, rfile) ← stab_binsearch stabs 0 ((t_end t - t_stabs t) / STAB_SIZE - 1) N_SO addr;
    if lfile =? 0 then Ok (-1, info)
    else
      '(lfun, rfun) ← stab_binsearch stabs lfile rfile N_FUN addr;
      let name := if n_strx (stabs lfun) <? t_strend t - t_str t then t_str t + n_strx (stabs lfun) else unknown in
      let '(name, fn_addr, addr, lline, rline) :=
        if lfun <=? rfun then (name, n_value (stabs lfun), u32 (addr - n_value (stabs lfun)), lfun, rfun)
        else (unknown, addr, addr, lfile, rfile) in
      e ← strfind fuel m name 58;
      let info := Info unknown 0 name (e - name) fn_addr 0 in
      '(lline, rline) ← stab_binsearch stabs lline rline N_SLINE addr;
      if lline <=? rline then
        let line := n_desc (stabs rline) in
        let lline := find_source stabs (Z.to_nat (lline - lfile + 1)) lline lfile in
        let file := if (lline >=? lfile) && (n_strx (stabs lline) <? t_strend t - t_str t) then t_str t + n_strx (stabs lline) else unknown in
        let narg := if lfun <? rfun then count_params stabs (Z.to_nat (rfun - lfun)) (lfun + 1) rfun else 0 in
        Ok (0, Info file line name (e - name) fn_addr narg)
      else Ok (-1, info).

Definition debuginfo_eip (fuel : nat) (m : mem) (unknown : Z) (ktab : tables) (umm : option vmst) (addr : Z) : res (Z * eipdebuginfo * option vmst) :=
  '(t, umm) ← find_tables m ktab umm addr;
  match t with
  | None => Ok (-1, Info unknown 0 unknown 9 addr 0, umm)
  | Some t => '(ret, info) ← search_eip fuel m unknown addr t; Ok (ret, info, umm)
  end.

(** [k] is the last stab of the type at or below [A], [r] the end of its range. *)
Definition found (stabs : Z -> stab) (L R type A k r : Z) : Prop :=
  L <= k <= r /\ r <= R /\ is_type stabs type k /\ value stabs k <= A /\ (forall j, k < j <= r -> ~ is_type stabs type j) /\
  (r = R \/ (is_type stabs type (r + 1) /\ A < value stabs (r + 1))).

Lemma found_answer stabs L R type A k r x y : table_ok stabs L R type A -> found stabs L R type A k r -> answer stabs L R type A x y -> x = k /\ y = r.
Proof.
  intros Htb (H1 & H2 & H3 & H4 & H5 & H6) [k' r' G1 G2 G3 G4 G5 G6|Hno|r' G1 G2 G3 G4 G5].
  - assert (r' = r) as ->.
    { destruct (Z.lt_trichotomy r r') as [Hlt|[->|Hlt]]; [|done|].
      - destruct H6 as [->|[Ht Hv]]; [lia|]. exfalso. assert (k' = r + 1 \/ r + 1 < k') as [->|Hk]; [|lia|].
        + destruct (Z.lt_trichotomy k' (r + 1)) as [Hk|[->|Hk]]; [|by left|by right]. destruct (G5 (r + 1)); [lia|done].
        + pose proof (tb_sorted _ _ _ _ _ Htb (r + 1) k' ltac:(lia) ltac:(lia) ltac:(lia) Ht G3). lia.
      - destruct G6 as [->|[Ht Hv]]; [lia|]. exfalso. assert (k = r' + 1 \/ r' + 1 < k) as [->|Hk]; [|lia|].
        + destruct (Z.lt_trichotomy k (r' + 1)) as [Hk|[->|Hk]]; [|by left|by right]. destruct (H5 (r' + 1)); [lia|done].
        + pose proof (tb_sorted _ _ _ _ _ Htb (r' + 1) k ltac:(lia) ltac:(lia) ltac:(lia) Ht H3). lia. }
    split; [|done]. destruct (Z.lt_trichotomy k k') as [Hlt|[->|Hlt]]; [|done|]; exfalso; [apply (H5 k')|apply (G5 k)]; try done; lia.
  - by destruct (Hno k); [lia|].
  - exfalso. destruct (Z.lt_ge_cases r' k) as [Hk|Hk]; [|by destruct (G2 k); [lia|]].
    pose proof (tb_sorted _ _ _ _ _ Htb (r' + 1) k ltac:(lia) ltac:(lia) ltac:(lia) G3 H3). lia.
Qed.

Lemma binsearch_found stabs L R type A k r : table_ok stabs L R type A -> 0 <= A -> A + Z.max 1 (R - L + 1) < 2 ^ 32 -> L <= R + 1 ->
  found stabs L R type A k r -> stab_binsearch stabs L R type A = Ok (k, r).
Proof.
  intros Htb H0 Hw HLR Hf. destruct (binsearch_ok stabs L R type A Htb H0 Hw HLR) as (x & y & -> & Ha).
  by destruct (found_answer _ _ _ _ _ _ _ _ _ Htb Hf Ha) as [-> ->].
Qed.

(** for an address of the kernel, [debuginfo_eip] finds the function whose
    stab is the last one of its source file that is not above the address,
    with its address, the start of its name, the length of the name up to
    the colon, and the number of its parameters; the line it reports is the
    description of the last stab before the next line stab, [stabs[rl]],
    which is the stab of the line only when nothing lies between. *)
Theorem debuginfo_eip_correct (fuel : nat) (m : mem) (unknown addr : Z) (t : tables) (umm : option vmst) (lfile rfile lfun rfun ll rl e : Z) :
  let stabs := stab_at m (t_stabs t) in
  let n := (t_end t - t_stabs t) / STAB_SIZE in
  let name := t_str t + n_strx (stabs lfun) in
  let rel := addr - n_value (stabs lfun) in
  KERNBASE <= addr -> addr + Z.max 1 n < 2 ^ 32 -> t_str t < t_strend t -> m (t_strend t - 1) = 0 ->
  table_ok stabs 0 (n - 1) N_SO addr -> found stabs 0 (n - 1) N_SO addr lfile rfile -> lfile <> 0 ->
  table_ok stabs lfile rfile N_FUN addr -> found stabs lfile rfile N_FUN addr lfun rfun ->
  n_strx (stabs lfun) < t_strend t - t_str t -> 0 <= n_value (stabs lfun) -> strfind fuel m name 58 = Ok e ->
  table_ok stabs lfun rfun N_SLINE rel -> found stabs lfun rfun N_SLINE rel ll rl ->
  exists file, debuginfo_eip fuel m unknown t umm addr =
    Ok (0, Info file (n_desc (stabs rl)) name (e - name) (n_value (stabs lfun))
             (if lfun <? rfun then count_params stabs (Z.to_nat (rfun - lfun)) (lfun + 1) rfun else 0), umm).
Proof.
  intros stabs n name rel Ha Hw Hs Hz T1 F1 Hl T2 F2 Hx Hv He T3 F3.
  pose proof F1 as (? & ? & _). pose proof F2 as (? & ? & _ & Hva & _). pose proof F3 as (? & ? & _). unfold value in Hva.
  unfold debuginfo_eip, find_tables. destruct (Z.geb_spec addr KERNBASE); [|lia]. rewrite res_bind_ok.
  unfold search_eip. replace (t_strend t <=? t_str t) with false by lia. rewrite Hz. change (negb (0 =? 0)) with false. cbn [orb]. fold stabs. fold n.
  assert (0 <= addr) by (unfold KERNBASE in *; lia). rewrite (binsearch_found stabs 0 (n - 1) N_SO addr lfile rfile) by (done || lia). rewrite res_bind_ok.
  destruct (Z.eqb_spec lfile 0); [done|]. rewrite (binsearch_found stabs lfile rfile N_FUN addr lfun rfun) by (done || lia). rewrite res_bind_ok.
  replace (lfun <=? rfun) with true by lia. replace (n_strx (stabs lfun) <? t_strend t - t_str t) with true by lia. fold name. rewrite He, res_bind_ok.
  rewrite u32_small by lia. fold rel. rewrite (binsearch_found stabs lfun rfun N_SLINE rel ll rl) by (done || (subst rel; lia)). rewrite !res_bind_ok.
  replace (ll <=? rl) with true by lia. by eexists.
Qed.

(** ** Tables that can be checked *)
Section check.
Variables (stabs : Z -> stab) (L R type A : Z).
Let ty (k : Z) : bool := n_type (stabs k) =? type.
Let all (p : Z -> bool) (l r : Z) : bool := forallb p (seqZ l (r - l + 1)).

Lemma all_spec p l r : all p l r = true -> forall k, l <= k <= r -> p k = true.
Proof. intros H k Hk. apply (proj1 (forallb_forall _ _) H). apply list_elem_of_In, elem_of_seqZ. lia. Qed.

Definition table_check : bool :=
  all (fun j => all (fun k => implb (ty j && ty k) (implb (j <=? k) (value stabs j <=? value stabs k) && implb (value stabs j =? A) (negb (value stabs k =? A + 1)))) L R) L R.
Definition found_check (k r : Z) : bool :=
  (L <=? k) && (k <=? r) && (r <=? R) && ty k && (value stabs k <=? A) && all (fun j => negb (ty j)) (k + 1) r &&
  ((r =? R) || (ty (r + 1) && (A <? value stabs (r + 1)))).

Lemma table_check_ok : table_check = true -> table_ok stabs L R type A.
Proof.
  intros H. assert (Hall : forall j k, L <= j <= R -> L <= k <= R -> is_type stabs type j -> is_type stabs type k ->
    (j <= k -> value stabs j <= value stabs k) /\ (value stabs j = A -> value stabs k <> A + 1)).
  { intros j k Hj Hk Hjt Hkt. pose proof (all_spec _ _ _ (all_spec _ _ _ H j Hj) k Hk) as Hp. cbv beta in Hp. unfold ty in Hp.
    rewrite (proj2 (Z.eqb_eq _ _) Hjt), (proj2 (Z.eqb_eq _ _) Hkt) in Hp. cbn [andb implb] in Hp. apply andb_true_iff in Hp as [H1 H2]. split.
    - intros Hle. rewrite (proj2 (Z.leb_le j k) Hle) in H1. cbn [implb] in H1. lia.
    - intros Hv. rewrite Hv, Z.eqb_refl in H2. cbn [implb] in H2. lia. }
  split; [intros j k H1 H2 H3 H4 H5; apply Hall; (lia || done)|intros j k H1 H2 H3 H4 H5; by apply (Hall j k)].
Qed.

Lemma found_check_ok k r : found_check k r = true -> found stabs L R type A k r.
Proof.
  unfold found_check. intros [[[[[[H1 H2]%andb_true_iff H3]%andb_true_iff H4]%andb_true_iff H5]%andb_true_iff H6]%andb_true_iff H7]%andb_true_iff.
  unfold ty in *. split_and!; [lia|lia|lia|by apply Z.eqb_eq|lia| |].
  - intros j Hj Ht. pose proof (all_spec _ _ _ H6 j ltac:(lia)) as Hp. cbv beta in Hp. unfold ty in Hp. by rewrite (proj2 (Z.eqb_eq _ _) Ht) in Hp.
  - apply orb_true_iff in H7 as [H7|[H7 H8]%andb_true_iff]; [left; lia|right]. split; [by apply Z.eqb_eq|lia].
Qed.
End check.

(** A source file with one function, of one parameter, and three lines; the
    second line is followed by the stab of a block. *)
Definition stab_bytes (x : stab) : list Z := le32_bytes (n_strx x) ++ [n_type x; n_other x] ++ take 2 (le32_bytes (n_desc x)) ++ le32_bytes (n_value x).
Definition demo_stabs : list stab :=
  [Stab 0 0 0 0 0; Stab 1 N_SO 0 0 KERNBASE; Stab 6 N_FUN 0 0 (KERNBASE + 16); Stab 0 N_PSYM 0 0 8; Stab 0 N_SLINE 0 7 0;
   Stab 0 N_SLINE 0 8 4; Stab 0 0xc0 0 0 4; Stab 0 N_SLINE 0 9 9].
(* "\0a.c\0" ":" and "f:F" *)
Definition demo_str : list Z := [0; 97; 46; 99; 0; 0; 102; 58; 70; 0].
Definition demo_mem : mem := mem_of (mjoin (stab_bytes <$> demo_stabs) ++ demo_str).
Definition demo_tab : tables := Tables 0 96 96 106.

Lemma stab_binsearch_terminates_witness : exists x, stab_binsearch (stab_at demo_mem 0) 0 7 N_FUN 5 = Ok x.
Proof. apply (stab_binsearch_terminates (stab_at demo_mem 0) 0 7 N_FUN 5); lia. Defined.

Lemma stab_binsearch_correct_witness :
  exists left right, stab_binsearch (stab_at demo_mem 0) 2 7 N_SLINE 6 = Ok (left, right) /\ brackets (stab_at demo_mem 0) 2 7 N_SLINE 6 left right.
Proof.
  apply (stab_binsearch_correct (stab_at demo_mem 0) 2 7 N_SLINE 6); [apply table_check_ok; by vm_compute|lia..|].
  left. exists 4. split_and!; [lia|lia|by vm_compute|by vm_compute].
Defined.

Lemma debuginfo_eip_correct_witness :
  exists file, debuginfo_eip 10 demo_mem 200 demo_tab None (KERNBASE + 22) = Ok (0, Info file 0 102 1 (KERNBASE + 16) 1, None).
Proof.
  apply (debuginfo_eip_correct 10 demo_mem 200 (KERNBASE + 22) demo_tab None 1 7 2 7 5 6 103);
    try first [done|by vm_compute|apply table_check_ok; by vm_compute|apply found_check_ok; by vm_compute].
Defined.

(** The line of that address is 8: the lookup reports the description of the
    block that follows. *)
Lemma wrong_line_reported : n_desc (stab_at demo_mem 0 5) = 8 /\ n_desc (stab_at demo_mem 0 6) = 0.
Proof. by vm_compute. Qed.

(** Two stabs at neighbouring addresses: the search for the first finds the
    second, because the exact match counts the address up. *)
Lemma neighbours_confused : stab_binsearch (fun k => Stab 0 N_SLINE 0 k (10 + k)) 0 1 N_SLINE 10 = Ok (1, 1).
Proof. by vm_compute. Qed.

(** All stabs of the type above the address: the range is not empty, although
    no stab contains the address. *)
Lemma all_above_not_empty :
  stab_binsearch (fun k => Stab 0 (if k =? 2 then N_SLINE else N_SOL) 0 k 10) 0 2 N_SLINE 5 = Ok (0, 1).
Proof. by vm_compute. Qed.
