(* ===== verification/Syscall.v ===== *)
(** * Traps and system calls

    kern/trap/trap.c and kern/syscall/syscall.c.

    A handler is an interaction tree.  Its events are the calls it makes of
    the rest of the kernel ([kE], which the other files model), and its reads
    and writes of the trap frames and of [current->tf] ([machE]), which
    [run] interprets on a store of frames.  [do_execve] also writes to the
    frame of the caller; that is part of Exec and not seen here. *)
From S2P Require Import Prelude.
From ITree Require Import ITree ITreeFacts Events.State Events.StateFacts Props.HasPost.

(** The library's notation for [bind] has a level stdpp uses otherwise. *)
Declare Scope trap_scope.
Delimit Scope trap_scope with trap.
Notation "x <- t ;; k" := (ITree.bind t (fun x => k)) (at level 100, t at next level, right associativity) : trap_scope.
Notation "t ;; k" := (ITree.bind t (fun _ => k)) (at level 100, right associativity) : trap_scope.
Infix "~~" := (eutt eq) (at level 70) : trap_scope.
Open Scope trap_scope.

(** ** Numbers *)
Definition T_PGFLT : Z := 14.
Definition T_SYSCALL : Z := 0x80.
Definition IRQ_OFFSET : Z := 32.
Definition IRQ_TIMER : Z := 0.
Definition IRQ_KBD : Z := 1.
Definition IRQ_COM1 : Z := 4.
Definition IRQ_IDE1 : Z := 14.
Definition IRQ_IDE2 : Z := 15.
Definition T_SWITCH_TOU : Z := 120.
Definition T_SWITCH_TOK : Z := 121.
Definition KERNEL_CS : Z := Z.lor (Z.shiftl 1 3) 0.
Definition USER_CS : Z := Z.lor (Z.shiftl 3 3) 3.
Definition E_KILLED : Z := 9.
Definition PF_EXITING : Z := 1.

Definition SYS_exit : Z := 1.
Definition SYS_fork : Z := 2.
Definition SYS_wait : Z := 3.
Definition SYS_exec : Z := 4.
Definition SYS_clone : Z := 5.
Definition SYS_yield : Z := 10.
Definition SYS_sleep : Z := 11.
Definition SYS_kill : Z := 12.
Definition SYS_gettime : Z := 17.
Definition SYS_getpid : Z := 18.
Definition SYS_brk : Z := 19.
Definition SYS_shmem : Z := 22.
Definition SYS_putc : Z := 30.
Definition SYS_pgdir : Z := 31.
Definition SYS_open : Z := 100.
Definition SYS_close : Z := 101.
Definition SYS_read : Z := 102.
Definition SYS_write : Z := 103.
Definition SYS_seek : Z := 104.
Definition SYS_fstat : Z := 110.
Definition SYS_fsync : Z := 111.
Definition SYS_chdir : Z := 120.
Definition SYS_getcwd : Z := 121.
Definition SYS_mkdir : Z := 122.
Definition SYS_link : Z := 123.
Definition SYS_rename : Z := 124.
Definition SYS_unlink : Z := 127.
Definition SYS_getdirentry : Z := 128.
Definition SYS_dup : Z := 130.
Definition SYS_get_pdb : Z := 436.
Definition SYS_sem : Z := 437.
Definition SYS_nice : Z := 438.
Definition SYS_check_alloc_page : Z := 451.
Definition SYS_check_swap : Z := 452.
Definition SYS_fifo_check_swap : Z := 453.

(** ** State and events *)
Record pushregs := Regs { reg_edi : Z; reg_esi : Z; reg_ebx : Z; reg_edx : Z; reg_ecx : Z; reg_eax : Z }.
Record trapframe := Frame { tf_regs : pushregs; tf_trapno : Z; tf_err : Z; tf_cs : Z; tf_esp : Z }.

Definition set_eax (v : Z) (f : trapframe) : trapframe :=
  Frame (Regs (reg_edi (tf_regs f)) (reg_esi (tf_regs f)) (reg_ebx (tf_regs f)) (reg_edx (tf_regs f)) (reg_ecx (tf_regs f)) v)
    (tf_trapno f) (tf_err f) (tf_cs f) (tf_esp f).

(** The frames by address, [current->tf]; [current] is 0 before there are
    processes. *)
Record mach := Mach { current : Z; cur_tf : Z; frames : gmap Z trapframe }.

Variant machE : Type -> Type :=
  | GetCurrent : machE Z
  | GetTf : machE Z
  | SetTf (p : Z) : machE unit
  | LoadFrame (p : Z) : machE (option trapframe)
  | StoreEax (p v : Z) : machE unit.

(** Calls of other parts of the kernel and accesses to shared data, pointers
    as numbers. [Junk]: what a function without [return] leaves in eax. *)
Variant kE : Type -> Type :=
  | Panic : kE void
  | PrintTrapframe (p : Z) : kE unit
  | PrintPgfault (p : Z) : kE unit
  | Junk : kE Z
  | CheckMmStruct : kE Z
  | Idleproc : kE Z
  | CurrentMm : kE Z
  | CurrentPid : kE Z
  | CurrentFlags : kE Z
  | NeedResched : kE bool
  | Schedule : kE unit
  | Rcr2 : kE Z
  | DoPgfault (mm error_code addr : Z) : kE Z
  | KillAllThread : kE unit
  | IncTicks : kE unit
  | GetTicks : kE Z
  | RunTimerList : kE unit
  | ConsGetc : kE Z
  | DevStdinWrite (c : Z) : kE unit
  | IsAncestralThread : kE bool
  | CurrentHaveKid : kE bool
  | DoExit (error_code : Z) : kE Z
  | DoFork (clone_flags stack tf : Z) : kE Z
  | DoWait (pid store : Z) : kE Z
  | DoExecve (name argc argv : Z) : kE Z
  | DoYield : kE Z
  | DoKillAllThread (pid : Z) : kE Z
  | DoSleep (time : Z) : kE Z
  | DoClone (fn arg exit : Z) : kE Z
  | DoBrk (store : Z) : kE Z
  | GetPdb (base : Z) : kE Z
  | Cputchar (c : Z) : kE unit
  | PrintPgdir : kE unit
  | LoadInt (p : Z) : kE Z
  | StoreInt (p v : Z) : kE unit
  | SemInit (sem value : Z) : kE unit
  | SemUp (sem : Z) : kE unit
  | SemDown (sem : Z) : kE unit
  | SemValue (sem : Z) : kE Z
  | FindProc (pid : Z) : kE Z
  | SetPriors (proc prior : Z) : kE unit
  | KmallocInit : kE unit
  | CheckSwap : kE unit
  | FifoCheckSwap : kE Z
  | SysfileOpen (path open_flags : Z) : kE Z
  | SysfileClose (fd : Z) : kE Z
  | SysfileRead (fd base len : Z) : kE Z
  | SysfileWrite (fd base len : Z) : kE Z
  | SysfileSeek (fd pos whence : Z) : kE Z
  | SysfileFstat (fd stat : Z) : kE Z
  | SysfileFsync (fd : Z) : kE Z
  | SysfileGetcwd (buf len : Z) : kE Z
  | SysfileMkdir (path : Z) : kE Z
  | SysfileChdir (path : Z) : kE Z
  | SysfileLink (old_path new_path : Z) : kE Z
  | SysfileRename (old_path new_path : Z) : kE Z
  | SysfileUnlink (path : Z) : kE Z
  | SysfileGetdirentry (fd direntp : Z) : kE Z
  | SysfileDup (fd1 fd2 : Z) : kE Z.

Abbreviation handler := (itree (machE +' kE)).

Definition call {A} (e : kE A) : handler A := ITree.trigger (inr1 e).
Definition mch {A} (e : machE A) : handler A := ITree.trigger (inl1 e).
Definition panic {A} : handler A := v <- call Panic;; match v : void with end.

(** [*p] of a trap frame; a pointer to no frame is a fault of the kernel. *)
Definition frame (p : Z) : handler trapframe :=
  f <- mch (LoadFrame p);; match f with Some f => Ret f | None => panic end.

(** ** syscall.c *)
Definition wait_for_kids (store : Z) : handler unit :=
  ITree.iter (fun _ : unit =>
    b <- call CurrentHaveKid;;
    if b : bool then call (DoWait 0 store);; Ret (inl tt) else Ret (inr tt)) tt.

Section handlers.
Variables a0 a1 a2 a3 : Z.           (* arg[0] .. arg[3] *)

Definition sys_exit : handler Z :=
  let error_code := i32 a0 in
  b <- call IsAncestralThread;;
  (if b : bool then wait_for_kids 0 else Ret tt);;
  call (DoExit error_code).

Definition sys_fork : handler Z :=
  tf <- mch GetTf;; f <- frame tf;;
  let stack := tf_esp f in
  call (DoFork 0 stack tf).

Definition sys_wait : handler Z :=
  let pid := i32 a0 in
  let store := a1 in
  (if pid =? -1 then wait_for_kids store else Ret tt);;
  call (DoWait pid store).

Definition sys_exec : handler Z := call (DoExecve a0 (i32 a1) a2).
Definition sys_yield : handler Z := call DoYield.
Definition sys_kill : handler Z := call (DoKillAllThread (i32 a0)).
Definition sys_getpid : handler Z := call CurrentPid.
Definition sys_putc : handler Z := call (Cputchar (i32 a0));; Ret 0.
Definition sys_pgdir : handler Z := call PrintPgdir;; Ret 0.
Definition sys_gettime : handler Z := t <- call GetTicks;; Ret (u32 (i32 t)).
Definition sys_sleep : handler Z := call (DoSleep a0).
Definition sys_open : handler Z := call (SysfileOpen a0 a1).
Definition sys_close : handler Z := call (SysfileClose (i32 a0)).
Definition sys_read : handler Z := call (SysfileRead (i32 a0) a1 a2).
Definition sys_write : handler Z := call (SysfileWrite (i32 a0) a1 a2).
Definition sys_seek : handler Z := call (SysfileSeek (i32 a0) (i32 a1) (i32 a2)).
Definition sys_fstat : handler Z := call (SysfileFstat (i32 a0) a1).
Definition sys_fsync : handler Z := call (SysfileFsync (i32 a0)).
Definition sys_getcwd : handler Z := call (SysfileGetcwd a0 a1).
Definition sys_mkdir : handler Z := call (SysfileMkdir a0).
Definition sys_chdir : handler Z := call (SysfileChdir a0).
Definition sys_link : handler Z := call (SysfileLink a0 a1).
Definition sys_rename : handler Z := call (SysfileRename a0 a1).
Definition sys_unlink : handler Z := call (SysfileUnlink a0).
Definition sys_getdirentry : handler Z := call (SysfileGetdirentry (i32 a0) a1).
Definition sys_dup : handler Z := call (SysfileDup (i32 a0) (i32 a1)).
Definition sys_get_pdb : handler Z := call (GetPdb a0).

Definition sys_clone : handler Z :=
  let thread_id := a0 in
  r <- call (DoClone a1 a2 a3);;
  call (StoreInt thread_id r);;
  v <- call (LoadInt thread_id);;
  Ret (if v >? 0 then 0 else -1).

Definition sys_sem : handler Z :=
  let sem := a0 in
  let value := a1 in
  let type := i32 a2 in
  if type =? 0 then v <- call (LoadInt value);; call (SemInit sem v);; Ret 0
  else if type =? 1 then call (SemUp sem);; Ret 0
  else if type =? 2 then call (SemDown sem);; Ret 0
  else if type =? 3 then v <- call (SemValue sem);; call (StoreInt value v);; Ret 0
  else Ret (-1).

Definition sys_nice : handler Z :=
  let pid := i32 a0 in
  let prior := i32 a1 in
  proc <- call (FindProc pid);;
  if proc =? 0 then Ret (-1) else call (SetPriors proc (u32 prior));; Ret 0.

Definition sys_brk : handler Z := call (DoBrk a0).
Definition sys_shmem : handler Z := call Junk.
Definition sys_check_alloc_page : handler Z := call KmallocInit;; call Junk.
Definition sys_check_swap : handler Z := call CheckSwap;; call Junk.
Definition sys_fifo_check_swap : handler Z := call FifoCheckSwap.

(** The table [syscalls]; the last index decides [NUM_SYSCALLS]. *)
Definition syscalls : list (Z * handler Z) :=
  [(SYS_exit, sys_exit); (SYS_fork, sys_fork); (SYS_clone, sys_clone); (SYS_wait, sys_wait); (SYS_exec, sys_exec);
   (SYS_yield, sys_yield); (SYS_kill, sys_kill); (SYS_getpid, sys_getpid); (SYS_putc, sys_putc); (SYS_pgdir, sys_pgdir);
   (SYS_gettime, sys_gettime); (SYS_sleep, sys_sleep); (SYS_open, sys_open); (SYS_close, sys_close); (SYS_read, sys_read);
   (SYS_write, sys_write); (SYS_seek, sys_seek); (SYS_fstat, sys_fstat); (SYS_fsync, sys_fsync); (SYS_getcwd, sys_getcwd);
   (SYS_chdir, sys_chdir); (SYS_mkdir, sys_mkdir); (SYS_link, sys_link); (SYS_unlink, sys_unlink);
   (SYS_getdirentry, sys_getdirentry); (SYS_dup, sys_dup); (SYS_get_pdb, sys_get_pdb); (SYS_sem, sys_sem);
   (SYS_nice, sys_nice); (SYS_brk, sys_brk); (SYS_shmem, sys_shmem); (SYS_check_alloc_page, sys_check_alloc_page);
   (SYS_check_swap, sys_check_swap); (SYS_fifo_check_swap, sys_fifo_check_swap)].
End handlers.

Definition NUM_SYSCALLS : Z := SYS_fifo_check_swap + 1.

(** [syscalls[num]]: NULL where the table has no initialiser. *)
Fixpoint entry {A} (num : Z) (l : list (Z * A)) : option A :=
  match l with [] => None | (n, h) :: l => if num =? n then Some h else entry num l end.

Definition syscall : handler unit :=
  tf <- mch GetTf;; f <- frame tf;;
  let r := tf_regs f in
  let num := i32 (reg_eax r) in
  match (if (num >=? 0) && (num <? NUM_SYSCALLS) then entry num (syscalls (reg_edx r) (reg_ecx r) (reg_ebx r) (reg_edi r)) else None) with
  | Some h => ret <- h;; mch (StoreEax tf (u32 ret))
  | None => call (PrintTrapframe tf);; _ <- call CurrentPid;; panic
  end.

(** ** trap.c *)
Definition i8 (z : Z) : Z := (z + 2 ^ 7) mod 2 ^ 8 - 2 ^ 7.

Definition trap_in_kernel (f : trapframe) : bool := tf_cs f =? KERNEL_CS.

Definition pgfault_handler (tf : Z) : handler Z :=
  check <- call CheckMmStruct;;
  (if check =? 0 then Ret tt else call (PrintPgfault tf));;
  cur <- mch GetCurrent;;
  mm <- (if negb (check =? 0) then idle <- call Idleproc;; if cur =? idle then Ret check else panic
         else if cur =? 0 then call (PrintTrapframe tf);; call (PrintPgfault tf);; panic else call CurrentMm);;
  f <- frame tf;; addr <- call Rcr2;;
  call (DoPgfault mm (tf_err f) addr).

Definition trap_dispatch (tf : Z) : handler unit :=
  f <- frame tf;;
  let no := tf_trapno f in
  if no =? T_PGFLT then
    ret <- pgfault_handler tf;;
    if negb (ret =? 0) then
      call (PrintTrapframe tf);;
      cur <- mch GetCurrent;;
      if cur =? 0 then panic
      else f <- frame tf;; if trap_in_kernel f then panic else call KillAllThread
    else Ret tt
  else if no =? T_SYSCALL then syscall
  else if no =? IRQ_OFFSET + IRQ_TIMER then
    call IncTicks;;
    cur <- mch GetCurrent;;
    if cur =? 0 then panic else call RunTimerList
  else if (no =? IRQ_OFFSET + IRQ_COM1) || (no =? IRQ_OFFSET + IRQ_KBD) then c <- call ConsGetc;; call (DevStdinWrite (i8 c))
  else if (no =? T_SWITCH_TOU) || (no =? T_SWITCH_TOK) then panic
  else if (no =? IRQ_OFFSET + IRQ_IDE1) || (no =? IRQ_OFFSET + IRQ_IDE2) then Ret tt
  else
    call (PrintTrapframe tf);;
    cur <- mch GetCurrent;;
    (if negb (cur =? 0) then call (DoExit (- E_KILLED));; Ret tt else Ret tt);;
    panic.

Definition trap (tf : Z) : handler unit :=
  cur <- mch GetCurrent;;
  if cur =? 0 then trap_dispatch tf
  else
    otf <- mch GetTf;;
    mch (SetTf tf);;
    f <- frame tf;;
    let in_kernel := trap_in_kernel f in
    trap_dispatch tf;;
    mch (SetTf otf);;
    if negb in_kernel then
      flags <- call CurrentFlags;;
      (if negb (Z.land flags PF_EXITING =? 0) then call (DoExit (- E_KILLED));; Ret tt else Ret tt);;
      resched <- call NeedResched;;
      if resched : bool then call Schedule else Ret tt
    else Ret tt.

(** ** The store of frames *)
Definition h_mach : machE ~> Monads.stateT mach (itree kE) := fun _ e m =>
  match e with
  | GetCurrent => Ret (m, current m)
  | GetTf => Ret (m, cur_tf m)
  | SetTf p => Ret (Mach (current m) p (frames m), tt)
  | LoadFrame p => Ret (m, frames m !! p)
  | StoreEax p v => Ret (Mach (current m) (cur_tf m) (alter (set_eax v) p (frames m)), tt)
  end.

Definition h_all : (machE +' kE) ~> Monads.stateT mach (itree kE) := fun _ e m =>
  match e with inl1 e => h_mach _ e m | inr1 e => r <- ITree.trigger e;; Ret (m, r) end.

Definition run {A} (t : handler A) (m : mach) : itree kE (mach * A) := interp_state h_all t m.

(** ** Running handlers *)
Lemma run_ret {A} (x : A) m : run (Ret x) m ~~ Ret (m, x).
Proof. unfold run. by rewrite interp_state_ret. Qed.

Lemma run_bind {A B} (t : handler A) (k : A -> handler B) m :
  run (ITree.bind t k) m ~~ (x <- run t m;; run (k x.2) x.1).
Proof. unfold run. by rewrite interp_state_bind. Qed.

Lemma run_call {A} (e : kE A) m : run (call e) m ~~ (r <- ITree.trigger e;; Ret (m, r)).
Proof. unfold run, call. by rewrite interp_state_trigger. Qed.

Lemma run_mch {A} (e : machE A) m : run (mch e) m ~~ h_mach A e m.
Proof. unfold run, mch. by rewrite interp_state_trigger. Qed.

Lemma run_frame p f m : frames m !! p = Some f -> run (frame p) m ~~ Ret (m, f).
Proof. intros H. unfold frame. rewrite run_bind, run_mch. cbn. rewrite bind_ret_l. cbn. rewrite H. apply run_ret. Qed.

#[global] Instance run_proper {A} : Proper (eutt eq ==> eq ==> eutt eq) (@run A).
Proof. intros t u H m _ <-. unfold run. by rewrite H. Qed.

#[global] Arguments run : simpl never.

(** A call, and what runs behind it. *)
Lemma run_call_bind {A B} (e : kE A) (k : A -> handler B) m : run (ITree.bind (call e) k) m ~~ (r <- ITree.trigger e;; run (k r) m).
Proof. rewrite run_bind, run_call, bind_bind. apply eutt_clo_bind with (UU := eq); [done|]. intros r _ <-. by rewrite bind_ret_l. Qed.

Lemma run_mch_bind {A B} (e : machE A) (k : A -> handler B) m m' x :
  h_mach A e m = Ret (m', x) -> run (ITree.bind (mch e) k) m ~~ run (k x) m'.
Proof. intros H. by rewrite run_bind, run_mch, H, bind_ret_l. Qed.

Lemma run_frame_bind {B} p f (k : trapframe -> handler B) m : frames m !! p = Some f -> run (ITree.bind (frame p) k) m ~~ run (k f) m.
Proof. intros H. by rewrite run_bind, (run_frame p f), bind_ret_l by done. Qed.

(** What [trap] does on its way back to user mode. *)
Definition back_to_user : itree kE unit :=
  flags <- ITree.trigger CurrentFlags;;
  (if negb (Z.land flags PF_EXITING =? 0) then ITree.trigger (DoExit (- E_KILLED));; Ret tt else Ret tt);;
  resched <- ITree.trigger NeedResched;;
  if resched : bool then ITree.trigger Schedule else Ret tt.

Ltac under_bind := apply eutt_clo_bind with (UU := eq); [reflexivity|]; let x := fresh "x" in intros x _ <-.

(** A trap from user mode: the frame is [current->tf] while it is served,
    the old one is back afterwards. *)
Lemma trap_user p f m : frames m !! p = Some f -> current m <> 0 -> tf_cs f = USER_CS ->
  run (trap p) m ~~
  (x <- run (trap_dispatch p) (Mach (current m) p (frames m));;
   back_to_user;; Ret (Mach (current x.1) (cur_tf m) (frames x.1), tt)).
Proof.
  intros Hf Hc Hcs. unfold trap. rewrite (run_mch_bind _ _ _ m (current m)) by done. destruct (Z.eqb_spec (current m) 0); [done|].
  rewrite (run_mch_bind _ _ _ m (cur_tf m)) by done. rewrite (run_mch_bind _ _ _ (Mach (current m) p (frames m)) tt) by done.
  rewrite (run_frame_bind p f) by done. rewrite run_bind. under_bind. rewrite (run_mch_bind _ _ _ (Mach (current x.1) (cur_tf m) (frames x.1)) tt) by done.
  unfold trap_in_kernel. rewrite Hcs. change (USER_CS =? KERNEL_CS) with false. cbn [negb].
  unfold back_to_user. rewrite run_call_bind, bind_bind. under_bind. rewrite run_bind, bind_bind.
  destruct (negb _).
  - rewrite run_call_bind, !bind_bind. under_bind. rewrite run_ret, !bind_ret_l, run_call_bind, bind_bind. under_bind.
    destruct x2; [by rewrite run_call; under_bind; destruct x2|by rewrite run_ret, bind_ret_l].
  - rewrite run_ret, !bind_ret_l, run_call_bind, bind_bind. under_bind.
    destruct x1; [by rewrite run_call; under_bind; destruct x1|by rewrite run_ret, bind_ret_l].
Qed.

(** The table is entered with the registers in the order of the arguments. *)
Lemma dispatch_syscall p f h m : frames m !! p = Some f -> cur_tf m = p -> tf_trapno f = T_SYSCALL ->
  let r := tf_regs f in let num := i32 (reg_eax r) in
  0 <= num < NUM_SYSCALLS -> entry num (syscalls (reg_edx r) (reg_ecx r) (reg_ebx r) (reg_edi r)) = Some h ->
  run (trap_dispatch p) m ~~
  (x <- run h m;; Ret (Mach (current x.1) (cur_tf x.1) (alter (set_eax (u32 x.2)) p (frames x.1)), tt)).
Proof.
  intros Hf Hp Hno r num Hr Hh. unfold trap_dispatch. rewrite (run_frame_bind p f) by done. rewrite Hno.
  change (T_SYSCALL =? T_PGFLT) with false. change (T_SYSCALL =? T_SYSCALL) with true. cbn match.
  unfold syscall. rewrite (run_mch_bind _ _ _ m p) by (cbn; by rewrite Hp). rewrite (run_frame_bind p f) by done. fold r. fold num.
  replace ((num >=? 0) && (num <? NUM_SYSCALLS)) with true by lia. rewrite Hh, run_bind. under_bind. by rewrite run_mch.
Qed.

Lemma dispatch_undefined p f m : frames m !! p = Some f -> cur_tf m = p -> tf_trapno f = T_SYSCALL ->
  let r := tf_regs f in let num := i32 (reg_eax r) in
  num < 0 \/ entry num (syscalls (reg_edx r) (reg_ecx r) (reg_ebx r) (reg_edi r)) = None ->
  run (trap_dispatch p) m ~~ (ITree.trigger (PrintTrapframe p);; ITree.trigger CurrentPid;; v <- ITree.trigger Panic;; match v : void with end).
Proof.
  intros Hf Hp Hno r num Hr. unfold trap_dispatch. rewrite (run_frame_bind p f) by done. rewrite Hno.
  change (T_SYSCALL =? T_PGFLT) with false. change (T_SYSCALL =? T_SYSCALL) with true. cbn match.
  unfold syscall. rewrite (run_mch_bind _ _ _ m p) by (cbn; by rewrite Hp). rewrite (run_frame_bind p f) by done. fold r. fold num.
  assert (E : (if (num >=? 0) && (num <? NUM_SYSCALLS) then entry num (syscalls (reg_edx r) (reg_ecx r) (reg_ebx r) (reg_edi r)) else None) = None).
  { destruct Hr as [Hr|Hr]; [|by rewrite Hr; destruct (_ && _)]. by replace (num >=? 0) with false by lia. }
  rewrite E, run_call_bind. under_bind. rewrite run_call_bind. under_bind. unfold panic. rewrite run_call_bind. under_bind. by destruct x1.
Qed.

(** ** The chain of trap frames *)
Definition same_tf (m : mach) {A} (x : mach * A) : Prop := cur_tf x.1 = cur_tf m /\ current x.1 = current m /\ dom (frames x.1) = dom (frames m).
Definition keeps {A} (t : handler A) : Prop := forall m, has_post (run t m) (same_tf m).

Lemma keeps_ret {A} (x : A) : keeps (Ret x).
Proof. intros m. rewrite run_ret. by apply eutt_Ret. Qed.

Lemma keeps_bind {A B} (t : handler A) (k : A -> handler B) : keeps t -> (forall x, keeps (k x)) -> keeps (ITree.bind t k).
Proof.
  intros Ht Hk m. rewrite run_bind. apply (has_post_bind _ (S := same_tf m)); [apply Ht|]. intros [m' x] (H1 & H2 & H3).
  eapply has_post_weaken; [apply Hk|]. intros y (H4 & H5 & H6). cbn in *. unfold same_tf. by rewrite H4, H5, H6.
Qed.

Lemma keeps_call {A} (e : kE A) : keeps (call e).
Proof. intros m. rewrite run_call. apply has_post_bind_weak. intros x. by apply eutt_Ret. Qed.

Lemma keeps_read {A} (e : machE A) : (forall m, exists x, h_mach A e m = Ret (m, x)) -> keeps (mch e).
Proof. intros H m. rewrite run_mch. destruct (H m) as [x ->]. by apply eutt_Ret. Qed.

Lemma keeps_store p v : keeps (mch (StoreEax p v)).
Proof. intros m. rewrite run_mch. apply eutt_Ret. split_and!; [done..|]. cbn. apply dom_alter_L. Qed.

Lemma keeps_panic {A} : keeps (A := A) panic.
Proof. apply keeps_bind; [apply keeps_call|]. by intros []. Qed.

Lemma keeps_iter {A I} (body : I -> handler (I + A)) i : (forall i, keeps (body i)) -> keeps (ITree.iter body i).
Proof.
  intros H m. unfold run. rewrite eutt_eq_interp_state_iter. cbn.
  apply (has_post_iter_strong _ _ (Inv := same_tf m)); [|done]. intros [m1 j] (H1 & H2 & H3). cbn.
  apply (has_post_bind _ (S := same_tf m1)); [apply H|]. intros [m2 [j'|x]] (H4 & H5 & H6); apply eutt_Ret; cbn in *; unfold same_tf; cbn;
    by rewrite H4, H5, H6.
Qed.

Create HintDb keeps.
#[export] Hint Resolve keeps_ret keeps_bind keeps_call keeps_store keeps_panic keeps_iter : keeps.

Lemma keeps_cur : keeps (mch GetCurrent).
Proof. apply keeps_read. by eexists. Qed.
Lemma keeps_tf : keeps (mch GetTf).
Proof. apply keeps_read. by eexists. Qed.
Lemma keeps_frame p : keeps (frame p).
Proof. apply keeps_bind; [apply keeps_read; by eexists|]. intros []; auto with keeps. Qed.
#[export] Hint Resolve keeps_cur keeps_tf keeps_frame : keeps.

Ltac keeps :=
  repeat first
    [ progress intros | apply keeps_ret | apply keeps_call | apply keeps_store | apply keeps_panic | apply keeps_cur | apply keeps_tf | apply keeps_frame
    | apply keeps_bind | apply keeps_iter | match goal with |- keeps (if ?b then _ else _) => destruct b | |- keeps (match ?x with _ => _ end) => destruct x eqn:? end ].

Lemma keeps_entry num a0 a1 a2 a3 h : entry num (syscalls a0 a1 a2 a3) = Some h -> keeps h.
Proof.
  assert (H : Forall (fun x => keeps x.2) (syscalls a0 a1 a2 a3)).
  { unfold syscalls. repeat apply Forall_cons_2; [..|apply Forall_nil_2]; cbn [snd];
      unfold sys_exit, sys_wait, sys_fork, sys_exec, sys_yield, sys_kill, sys_getpid, sys_putc, sys_pgdir, sys_gettime, sys_sleep, sys_open, sys_close, sys_read,
        sys_write, sys_seek, sys_fstat, sys_fsync, sys_getcwd, sys_mkdir, sys_chdir, sys_link, sys_unlink, sys_getdirentry, sys_dup, sys_get_pdb, sys_clone,
        sys_sem, sys_nice, sys_brk, sys_shmem, sys_check_alloc_page, sys_check_swap, sys_fifo_check_swap, wait_for_kids; keeps. }
  induction H as [|[n g] l Hg _ IH]; cbn; [done|]. destruct (num =? n); [by intros [= <-]|done].
Qed.

Lemma keeps_dispatch p : keeps (trap_dispatch p).
Proof.
  unfold trap_dispatch, pgfault_handler, syscall. keeps.
  match goal with H : (if ?b then _ else _) = Some _ |- _ => destruct b; [by eapply keeps_entry|done] end.
Qed.

(** a trap, from user mode or nested in the kernel, leaves [current->tf]
    as it was, whatever it was and whatever the calls it makes return, and
    neither adds nor removes a frame. *)
Theorem trap_restores_frame (p : Z) (m : mach) :
  has_post (run (trap p) m) (fun x => cur_tf x.1 = cur_tf m /\ current x.1 = current m /\ dom (frames x.1) = dom (frames m)).
Proof.
  unfold trap. rewrite (run_mch_bind _ _ _ m (current m)) by done. destruct (_ =? 0); [apply keeps_dispatch|].
  rewrite (run_mch_bind _ _ _ m (cur_tf m)) by done. rewrite (run_mch_bind _ _ _ (Mach (current m) p (frames m)) tt) by done.
  rewrite run_bind. apply (has_post_bind _ (S := same_tf (Mach (current m) p (frames m)))); [apply keeps_frame|]. intros [m1 f] (H1 & H2 & H3).
  cbn [fst snd]. rewrite run_bind. apply (has_post_bind _ (S := same_tf m1)); [apply keeps_dispatch|]. intros [m2 []] (H4 & H5 & H6). cbn [fst snd] in *.
  rewrite (run_mch_bind _ _ _ (Mach (current m2) (cur_tf m) (frames m2)) tt) by done. cbn in *.
  match goal with |- has_post (run ?t _) _ => assert (Hk : keeps t) by keeps end.
  eapply has_post_weaken; [apply Hk|]. intros x (H7 & H8 & H9). cbn in *. split_and!; congruence.
Qed.
