(* ===== verification/UserLib.v ===== *)
(** * The user library

    user/libs: syscall.c, ulib.c, file.c, dir.c, proc.c, pthread.c,
    semaphore.c and [initfd] of umain.c.  A user program is an interaction
    tree over software interrupts and accesses to its memory; [enter] runs
    it against [trap] of the kernel. *)
From ITree Require Import ITree ITreeFacts Events.State Events.StateFacts.
From S2P Require Import Prelude Syscall.

(** [Int n r]: the instruction [int n] with registers [r]; the answer is the
    eax of the frame the kernel returns from. *)
Variant intE : Type -> Type :=
  | Int (n : Z) (r : pushregs) : intE Z
  | LoadU (p : Z) : intE Z
  | StoreU (p v : Z) : intE unit.
Abbreviation user := (itree intE).

Definition O_RDONLY : Z := 0.
Definition S_IFMT : Z := 0x7000.
Definition S_IFDIR : Z := 0x2000.
Definition S_ISDIR (mode : Z) : bool := Z.land mode S_IFMT =? S_IFDIR.

Section stubs.
(** [junk]: what [va_arg] finds behind the arguments that were passed. *)
Variable junk : nat -> Z.

Definition arg (l : list Z) (i : nat) : Z := u32 (nth i l (junk i)).

Definition syscall (num : Z) (l : list Z) : user Z :=
  ret <- ITree.trigger (Int T_SYSCALL (Regs (arg l 3) (arg l 4) (arg l 2) (arg l 0) (arg l 1) (u32 num)));;
  Ret (i32 ret).

(** ** syscall.c *)
Definition sys_exit (error_code : Z) : user Z := syscall SYS_exit [error_code].
Definition sys_fork : user Z := syscall SYS_fork [].
Definition sys_wait (pid store : Z) : user Z := syscall SYS_wait [pid; store].
Definition sys_yield : user Z := syscall SYS_yield [].
Definition sys_kill (pid : Z) : user Z := syscall SYS_kill [pid].
Definition sys_getpid : user Z := syscall SYS_getpid [].
Definition sys_putc (c : Z) : user Z := syscall SYS_putc [c].
Definition sys_pgdir : user Z := syscall SYS_pgdir [].
Definition sys_sleep (time : Z) : user Z := syscall SYS_sleep [time].
Definition sys_gettime : user Z := ret <- syscall SYS_gettime [];; Ret (u32 ret).
Definition sys_exec (name argc argv : Z) : user Z := syscall SYS_exec [name; argc; argv].
Definition sys_open (path open_flags : Z) : user Z := syscall SYS_open [path; open_flags].
Definition sys_close (fd : Z) : user Z := syscall SYS_close [fd].
Definition sys_read (fd base len : Z) : user Z := syscall SYS_read [fd; base; len].
Definition sys_write (fd base len : Z) : user Z := syscall SYS_write [fd; base; len].
Definition sys_seek (fd pos whence : Z) : user Z := syscall SYS_seek [fd; pos; whence].
Definition sys_fstat (fd stat : Z) : user Z := syscall SYS_fstat [fd; stat].
Definition sys_fsync (fd : Z) : user Z := syscall SYS_fsync [fd].
Definition sys_getcwd (buffer len : Z) : user Z := syscall SYS_getcwd [buffer; len].
Definition sys_mkdir (path : Z) : user Z := syscall SYS_mkdir [path].
Definition sys_chdir (path : Z) : user Z := syscall SYS_chdir [path].
Definition sys_link (old_path new_path : Z) : user Z := syscall SYS_link [old_path; new_path].
Definition sys_rename (old_path new_path : Z) : user Z := syscall SYS_rename [old_path; new_path].
Definition sys_unlink (path : Z) : user Z := syscall SYS_unlink [path].
Definition sys_getdirentry (fd dirent : Z) : user Z := syscall SYS_getdirentry [fd; dirent].
Definition sys_dup (fd1 fd2 : Z) : user Z := syscall SYS_dup [fd1; fd2].
Definition sys_get_pdb (base : Z) : user Z := syscall SYS_get_pdb [base].
Definition sys_clone (thread_id fn arg exit : Z) : user Z := syscall SYS_clone [thread_id; fn; arg; exit].
Definition sys_sem (sem value type : Z) : user Z := syscall SYS_sem [sem; value; type].
Definition sys_nice (pid prior : Z) : user Z := syscall SYS_nice [pid; prior].
Definition sys_shmem (addr_store len mmap_flags : Z) : user Z := syscall SYS_shmem [addr_store; len; mmap_flags].
Definition sys_brk (brk_store : Z) : user Z := syscall SYS_brk [brk_store].
Definition sys_check_alloc_page : user unit := syscall SYS_check_alloc_page [];; Ret tt.
Definition sys_check_swap : user unit := syscall SYS_check_swap [];; Ret tt.
Definition sys_fifo_check_swap : user Z := syscall SYS_fifo_check_swap [].

(** ** ulib.c, file.c, proc.c *)
Definition exit (error_code : Z) : user void := sys_exit error_code;; ITree.spin.
Definition fork : user Z := sys_fork.
Definition wait : user Z := sys_wait 0 0.
Definition waitpid (pid store : Z) : user Z := sys_wait pid store.
Definition yield : user unit := sys_yield;; Ret tt.
Definition kill (pid : Z) : user Z := sys_kill pid.
Definition getpid : user Z := sys_getpid.
Definition sleep (time : Z) : user Z := sys_sleep time.
Definition gettime_msec : user Z := sys_gettime.
Definition open (path open_flags : Z) : user Z := sys_open path open_flags.
Definition close (fd : Z) : user Z := sys_close fd.
Definition read (fd base len : Z) : user Z := sys_read fd base len.
Definition write (fd base len : Z) : user Z := sys_write fd base len.
Definition seek (fd pos whence : Z) : user Z := sys_seek fd pos whence.
Definition fstat (fd stat : Z) : user Z := sys_fstat fd stat.
Definition fsync (fd : Z) : user Z := sys_fsync fd.
Definition dup2 (fd1 fd2 : Z) : user Z := sys_dup fd1 fd2.
Definition get_pdb (base : Z) : user Z := sys_get_pdb base.
Definition nice (pid prior : Z) : user Z := sys_nice pid prior.

(** The loop over [argv] stops at the first NULL. *)
Definition count_args (argv : Z) : user Z :=
  ITree.iter (fun argc => p <- ITree.trigger (LoadU (u32 (argv + 4 * argc)));; Ret (if negb (p =? 0) then inl (i32 (argc + 1)) else inr argc)) 0.
Definition __exec (name argv : Z) : user Z := argc <- count_args argv;; sys_exec name argc argv.

(** ** dir.c: [dirp] points to [fd], the offset and the name of an entry *)
Definition opendir (dirp stat path : Z) : user Z :=
  fd <- open path O_RDONLY;;
  ITree.trigger (StoreU dirp fd);;
  if fd <? 0 then Ret 0
  else
    ret <- fstat fd stat;;
    if negb (ret =? 0) then Ret 0
    else
      mode <- ITree.trigger (LoadU stat);;
      if negb (S_ISDIR mode) then Ret 0
      else ITree.trigger (StoreU (dirp + 4) 0);; Ret dirp.

Definition readdir (dirp : Z) : user Z :=
  fd <- ITree.trigger (LoadU dirp);;
  ret <- sys_getdirentry fd (dirp + 4);;
  Ret (if ret =? 0 then dirp + 4 else 0).

Definition closedir (dirp : Z) : user unit := fd <- ITree.trigger (LoadU dirp);; close fd;; Ret tt.
Definition getcwd (buffer len : Z) : user Z := sys_getcwd buffer len.
Definition mkdir (path : Z) : user Z := sys_mkdir path.
Definition chdir (path : Z) : user Z := sys_chdir path.
Definition link (old_path new_path : Z) : user Z := sys_link old_path new_path.
Definition unlink (path : Z) : user Z := sys_unlink path.

(** ** pthread.c, semaphore.c; [exitp]: the address of [pthread_exit] *)
Definition pthread_create (exitp newthread fn arg : Z) : user Z := sys_clone newthread fn arg exitp.
Definition pthread_join (newthread : Z) : user unit := t <- ITree.trigger (LoadU newthread);; waitpid t 0;; Ret tt.
Definition pthread_exit (error_code : Z) : user void := exit error_code.
Definition phtread_daemon : user unit := waitpid (-1) 0;; Ret tt.
Definition sem_init (local sem value : Z) : user Z := ITree.trigger (StoreU local value);; sys_sem sem local 0.
Definition sem_post (sem : Z) : user Z := sys_sem sem 0 1.
Definition sem_wait (sem : Z) : user Z := sys_sem sem 0 2.
Definition sem_getvalue (sem value : Z) : user Z := sys_sem sem value 3.

(** ** umain.c *)
Definition initfd (stat fd2 path open_flags : Z) : user Z :=
  ret <- fstat fd2 stat;;
  if negb (ret =? 0) then
    fd1 <- open path open_flags;;
    if fd1 <? 0 then Ret fd1
    else if negb (fd1 =? fd2) then close fd2;; ret <- dup2 fd1 fd2;; close fd1;; Ret ret
    else Ret ret
  else Ret 0.
End stubs.

(** ** Into the kernel and back *)
Section enter.
(** The place of the frame on the kernel stack, and the user stack. *)
Variables tfp esp : Z.

Definition h_int : intE ~> Monads.stateT mach (itree kE) := fun _ e m =>
  match e with
  | Int n r =>
      x <- run (trap tfp) (Mach (current m) (cur_tf m) (<[tfp := Frame r n 0 USER_CS esp]> (frames m)));;
      Ret (Mach (current x.1) (cur_tf x.1) (delete tfp (frames x.1)), from_option (fun f => reg_eax (tf_regs f)) 0 (frames x.1 !! tfp))
  | LoadU p => v <- ITree.trigger (LoadInt p);; Ret (m, v)
  | StoreU p v => ITree.trigger (StoreInt p v);; Ret (m, tt)
  end.

Definition enter {A} (t : user A) (m : mach) : itree kE (mach * A) := interp_state h_int t m.
End enter.
#[global] Arguments enter : simpl never.

(** ** Where the stubs arrive *)
Section reach.
Variables (junk : nat -> Z) (tfp esp : Z).
Local Abbreviation ent := (enter tfp esp).

Definition running (m : mach) : Prop := current m <> 0 /\ frames m !! tfp = None.

(** A user program behaves as the calls [q] of the kernel, each followed by
    what [trap] does before it returns. *)
Definition reaches (t : user Z) (q : itree kE Z) : Prop :=
  forall m, running m -> ent t m ~~ (r <- q;; back_to_user;; Ret (m, i32 r)).

Lemma enter_ret {A} (x : A) m : ent (Ret x) m ~~ Ret (m, x).
Proof. unfold enter. by rewrite interp_state_ret. Qed.

Lemma enter_bind {A B} (t : user A) (k : A -> user B) m : ent (ITree.bind t k) m ~~ (x <- ent t m;; ent (k x.2) x.1).
Proof. unfold enter. by rewrite interp_state_bind. Qed.

(** The handler of call [num] runs with the arguments, its result comes back. *)
Lemma enter_syscall num l h (q : itree kE Z) m : running m -> 0 <= num < NUM_SYSCALLS ->
  entry num (syscalls (arg junk l 0) (arg junk l 1) (arg junk l 2) (arg junk l 3)) = Some h ->
  (forall m1, cur_tf m1 = tfp -> (exists f, frames m1 !! tfp = Some f /\ tf_esp f = esp) -> run h m1 ~~ (r <- q;; Ret (m1, r))) ->
  ent (syscall junk num l) m ~~ (r <- q;; back_to_user;; Ret (m, i32 r)).
Proof.
  intros [Hc Hf] Hn Hh Hq. unfold syscall. rewrite enter_bind. unfold enter at 1. rewrite interp_state_trigger. cbn [h_int].
  set (f := Frame _ _ _ _ _). set (m1 := Mach _ _ (<[tfp := f]> (frames m))).
  rewrite (trap_user tfp f m1) by (subst m1; cbn; rewrite ?lookup_insert_eq; done). rewrite !bind_bind.
  assert (Hnum : i32 (reg_eax (tf_regs f)) = num) by (subst f; cbn; rewrite i32_u32, i32_small; [done|unfold NUM_SYSCALLS, SYS_fifo_check_swap in *; lia]).
  rewrite (dispatch_syscall tfp f h); [|subst m1; cbn; by rewrite lookup_insert_eq|done|done|by rewrite Hnum|by rewrite Hnum].
  rewrite (Hq (Mach (current m1) tfp (frames m1))); [|done|exists f; subst m1; cbn; by rewrite lookup_insert_eq].
  rewrite !bind_bind. under_bind. rewrite !bind_ret_l. cbn [fst snd]. rewrite bind_bind. under_bind. rewrite !bind_ret_l. cbn [fst snd].
  rewrite enter_ret. subst m1. cbn. rewrite lookup_alter_eq, lookup_insert_eq. cbn. rewrite i32_u32.
  rewrite delete_alter_eq, delete_insert_eq, delete_id by done. by destruct m.
Qed.

(** ** The services, as the documentation of the calls names them *)
Definition trig {A} (e : kE A) : itree kE A := ITree.trigger e.
Definition wait_kids (store : Z) : itree kE unit :=
  ITree.iter (fun _ : unit =>
    b <- trig CurrentHaveKid;;
    if b : bool then trig (DoWait 0 store);; Ret (inl tt) else Ret (inr tt)) tt.

Definition exit_service (error_code : Z) : itree kE Z :=
  b <- trig IsAncestralThread;;
  (if b : bool then wait_kids 0 else Ret tt);;
  trig (DoExit error_code).
Definition wait_service (pid store : Z) : itree kE Z :=
  (if pid =? -1 then wait_kids store else Ret tt);; trig (DoWait pid store).
Definition clone_service (thread_id fn arg exit : Z) : itree kE Z :=
  r <- trig (DoClone fn arg exit);; trig (StoreInt thread_id r);; v <- trig (LoadInt thread_id);; Ret (if v >? 0 then 0 else -1).
Definition sem_service (sem value type : Z) : itree kE Z :=
  if type =? 0 then v <- trig (LoadInt value);; trig (SemInit sem v);; Ret 0
  else if type =? 1 then trig (SemUp sem);; Ret 0
  else if type =? 2 then trig (SemDown sem);; Ret 0
  else if type =? 3 then v <- trig (SemValue sem);; trig (StoreInt value v);; Ret 0
  else Ret (-1).
Definition nice_service (pid prior : Z) : itree kE Z :=
  proc <- trig (FindProc pid);; if proc =? 0 then Ret (-1) else trig (SetPriors proc (u32 prior));; Ret 0.

(** A handler that makes the calls [q] and leaves the frames alone. *)
Definition makes {A} (h : handler A) (q : itree kE A) : Prop := forall m, run h m ~~ (r <- q;; Ret (m, r)).

Lemma makes_ret {A} (x : A) : makes (Ret x) (Ret x).
Proof. intros m. by rewrite run_ret, bind_ret_l. Qed.
Lemma makes_call {A} (e : kE A) : makes (call e) (trig e).
Proof. intros m. apply run_call. Qed.
Lemma makes_bind {A B} (h : handler A) (k : A -> handler B) q (k' : A -> itree kE B) :
  makes h q -> (forall x, makes (k x) (k' x)) -> makes (ITree.bind h k) (ITree.bind q k').
Proof. intros Hh Hk m. rewrite run_bind, (Hh m), !bind_bind. under_bind. rewrite bind_ret_l. apply Hk. Qed.

Lemma makes_iter {A I} (body : I -> handler (I + A)) (body' : I -> itree kE (I + A)) i :
  (forall i, makes (body i) (body' i)) -> makes (ITree.iter body i) (ITree.iter body' i).
Proof.
  intros H m. unfold run. rewrite eutt_eq_interp_state_iter. cbn.
  unfold Basics.iter, Basics.MonadIter_stateT0, Basics.iter, MonadIter_itree.
  rewrite <- (bind_ret_r (ITree.iter _ (m, i))).
  apply eutt_clo_bind with (UU := fun x y => x = (m, y)); [|by intros x y ->; reflexivity].
  apply eutt_iter' with (RI := fun x y => x = (m, y)); [|done]. intros x j ->. cbn.
  fold (run (body j) m). rewrite (H j m), bind_bind. rewrite <- (bind_ret_r (body' j)) at 2. under_bind. rewrite bind_ret_l. cbn.
  destruct x; apply eutt_Ret; by constructor.
Qed.

Ltac makes :=
  repeat first
    [ progress intros | apply makes_ret | apply makes_call | apply makes_bind | apply makes_iter
    | match goal with |- makes (if ?b then _ else _) _ => destruct b end ].

Lemma reach_makes {num l} h q : 0 <= num < NUM_SYSCALLS ->
  entry num (syscalls (arg junk l 0) (arg junk l 1) (arg junk l 2) (arg junk l 3)) = Some h -> makes h q ->
  reaches (syscall junk num l) q.
Proof. intros Hn He Hq m Hm. eapply enter_syscall; [done|done|exact He|]. intros m1 _ _. apply Hq. Qed.

Definition is_int (z : Z) : Prop := - 2 ^ 31 <= z < 2 ^ 31.
Definition is_u32 (z : Z) : Prop := 0 <= z < 2 ^ 32.

Lemma arg_int z : is_int z -> i32 (u32 z) = z.
Proof. intros H. by rewrite i32_u32, i32_small. Qed.

Lemma arg_u32 z : is_u32 z -> u32 z = z.
Proof. apply u32_small. Qed.

Ltac reach :=
  eapply reach_makes; [done|reflexivity|]; unfold arg; cbn [nth];
  unfold Syscall.sys_exit, Syscall.sys_wait, Syscall.sys_exec, Syscall.sys_yield, Syscall.sys_kill, Syscall.sys_getpid, Syscall.sys_sleep, Syscall.sys_clone,
    Syscall.sys_brk, Syscall.sys_get_pdb, Syscall.sys_sem, Syscall.sys_nice, Syscall.sys_putc, Syscall.sys_pgdir, Syscall.sys_open, Syscall.sys_close,
    Syscall.sys_read, Syscall.sys_write, Syscall.sys_seek, Syscall.sys_fstat, Syscall.sys_fsync, Syscall.sys_getcwd, Syscall.sys_mkdir, Syscall.sys_chdir,
    Syscall.sys_link, Syscall.sys_unlink, Syscall.sys_getdirentry, Syscall.sys_dup, Syscall.sys_gettime, Syscall.sys_shmem, Syscall.sys_check_alloc_page,
    Syscall.sys_check_swap, Syscall.sys_fifo_check_swap;
  unfold exit_service, wait_service, clone_service, sem_service, nice_service, wait_for_kids, wait_kids;
  cbv zeta; rewrite ?arg_int by assumption; rewrite ?arg_u32 by assumption; makes.

Lemma reach_fork : reaches (sys_fork junk) (trig (DoFork 0 esp tfp)).
Proof.
  intros m Hm. eapply enter_syscall; [done|done|reflexivity|]. intros m1 Ht (f & Hf & He). unfold Syscall.sys_fork.
  rewrite (run_mch_bind _ _ _ m1 tfp) by (cbn; by rewrite Ht). rewrite (run_frame_bind tfp f) by done. cbn. rewrite He. apply run_call.
Qed.

Lemma reach_open a b : is_u32 a -> is_u32 b -> reaches (sys_open junk a b) (trig (SysfileOpen a b)).
Proof. intros. reach. Qed.
Lemma reach_fstat i a : is_int i -> is_u32 a -> reaches (sys_fstat junk i a) (trig (SysfileFstat i a)).
Proof. intros. reach. Qed.
Lemma reach_read i a b : is_int i -> is_u32 a -> is_u32 b -> reaches (sys_read junk i a b) (trig (SysfileRead i a b)).
Proof. intros. reach. Qed.
Lemma reach_write i a b : is_int i -> is_u32 a -> is_u32 b -> reaches (sys_write junk i a b) (trig (SysfileWrite i a b)).
Proof. intros. reach. Qed.
Lemma reach_seek i j k : is_int i -> is_int j -> is_int k -> reaches (sys_seek junk i j k) (trig (SysfileSeek i j k)).
Proof. intros. reach. Qed.

Lemma entry_none {A} num (l : list (Z * A)) : num ∉ l.*1 -> entry num l = None.
Proof.
  induction l as [|[n h] l IH]; cbn; [done|]. intros H%not_elem_of_cons. destruct H as [H1 H2].
  destruct (Z.eqb_spec num n); [done|by apply IH].
Qed.

Definition panics (p : Z) {A} : itree kE A := trig (PrintTrapframe p);; trig CurrentPid;; v <- trig Panic;; match v : void with end.

Lemma undefined_spec (num : Z) (l : list Z) (m : mach) :
  is_int num -> running m -> num < 0 \/ num ∉ (syscalls 0 0 0 0).*1 ->
  enter tfp esp (syscall junk num l) m ~~ panics tfp.
Proof.
  intros Hn [Hc Hf] Hu. unfold syscall. rewrite enter_bind. unfold enter at 1. rewrite interp_state_trigger. cbn [h_int].
  set (f := Frame _ _ _ _ _). set (m1 := Mach _ _ (<[tfp := f]> (frames m))).
  rewrite (trap_user tfp f m1) by (subst m1; cbn; rewrite ?lookup_insert_eq; done). rewrite !bind_bind.
  rewrite (dispatch_undefined tfp f); [|subst m1; cbn; by rewrite lookup_insert_eq|done|done|].
  - rewrite bind_bind. under_bind. rewrite bind_bind. under_bind. rewrite bind_bind. under_bind. by destruct x1.
  - cbn [f tf_regs reg_eax]. rewrite i32_u32, i32_small by done. destruct Hu as [Hu|Hu]; [by left|right]. by apply entry_none.
Qed.

(** C40: a software interrupt with a number that is not in the table of system
    calls, from any process, stops the kernel: there is no error return.  The
    library's own [sys_rename] is such a call. *)
Theorem undefined_call_panics (num : Z) (l : list Z) (m : mach) :
  is_int num -> running m -> num < 0 \/ num ∉ (syscalls 0 0 0 0).*1 ->
  enter tfp esp (syscall junk num l) m ~~ panics tfp.
Proof. apply undefined_spec. Qed.

(** ** All stubs *)

(** The call arrives at the service [q]; the caller is known to go on, with
    the result, when it satisfies [P]. *)
Definition arrives (t : user Z) (q : itree kE Z) (P : Z -> Prop) : Prop :=
  forall m, running m -> exists K, ent t m ~~ (r <- q;; K r) /\ forall r, P r -> K r ~~ (back_to_user;; Ret (m, i32 r)).

Lemma arrives_reaches t q P : reaches t q -> arrives t q P.
Proof. intros H m Hm. exists (fun r => back_to_user;; Ret (m, i32 r)). split; [by apply H|done]. Qed.

(** A stub that returns [g] of the result. *)
Definition returns {A} (t : user A) (q : itree kE Z) (g : Z -> A) : Prop :=
  forall m, running m -> ent t m ~~ (r <- q;; back_to_user;; Ret (m, g r)).

Lemma returns_bind {A} t q (g : Z -> A) : reaches t q -> returns (r <- t;; Ret (g r)) q (fun r => g (i32 r)).
Proof.
  intros H m Hm. rewrite enter_bind, (H m Hm), bind_bind. under_bind. rewrite bind_bind. under_bind. rewrite bind_ret_l. cbn [fst snd]. apply enter_ret.
Qed.

Lemma reach_gettime : returns (sys_gettime junk) (trig GetTicks) u32.
Proof.
  intros m Hm. unfold sys_gettime.
  assert (Hr : reaches (syscall junk SYS_gettime []) (t <- trig GetTicks;; Ret (u32 (i32 t)))) by (unfold Syscall.sys_gettime in *; reach).
  rewrite (returns_bind _ _ u32 Hr m Hm), bind_bind. under_bind. rewrite bind_ret_l. under_bind. by rewrite !u32_i32, u32_small by (apply u32_range).
Qed.

(** C11: every stub of the user library, called with arguments of its C types,
    arrives at the kernel function of the same name with the same arguments
    in the same places, through [int 0x80], the trap frame, [trap] and the
    table of system calls, and returns its result (of [sys_fork], to the
    parent); whatever lies behind the arguments on the user stack has no
    effect, and the kernel is left as it was entered.  Exceptions: of
    [sys_exec] only an error returns to the caller, since a success replaces
    the program; [sys_exit] is not claimed to return; [sys_shmem] and the two
    check calls return whatever their handlers, which have no return statement,
    leave in eax; and [sys_rename], which has no handler, stops the kernel. *)
Theorem user_calls_reach (i j k : Z) (a b c d : Z) :
  is_int i -> is_int j -> is_int k -> is_u32 a -> is_u32 b -> is_u32 c -> is_u32 d ->
  (reaches (sys_fork junk) (trig (DoFork 0 esp tfp)) /\ arrives (sys_exit junk i) (exit_service i) (fun _ => False) /\
   reaches (sys_wait junk i a) (wait_service i a) /\ arrives (sys_exec junk a i b) (trig (DoExecve a i b)) (fun r => r <> 0) /\
   reaches (sys_yield junk) (trig DoYield) /\ reaches (sys_kill junk i) (trig (DoKillAllThread i)) /\ reaches (sys_getpid junk) (trig CurrentPid) /\
   reaches (sys_sleep junk a) (trig (DoSleep a)) /\ returns (sys_gettime junk) (trig GetTicks) u32 /\
   reaches (sys_clone junk a b c d) (clone_service a b c d) /\
   reaches (sys_brk junk a) (trig (DoBrk a)) /\ reaches (sys_shmem junk a b c) (trig Junk) /\ reaches (sys_get_pdb junk a) (trig (GetPdb a)) /\
   reaches (sys_sem junk a b i) (sem_service a b i) /\ reaches (sys_nice junk i j) (nice_service i j) /\
   reaches (sys_putc junk i) (trig (Cputchar i);; Ret 0) /\ reaches (sys_pgdir junk) (trig PrintPgdir;; Ret 0)) /\
  (reaches (sys_open junk a b) (trig (SysfileOpen a b)) /\ reaches (sys_close junk i) (trig (SysfileClose i)) /\
   reaches (sys_read junk i a b) (trig (SysfileRead i a b)) /\ reaches (sys_write junk i a b) (trig (SysfileWrite i a b)) /\
   reaches (sys_seek junk i j k) (trig (SysfileSeek i j k)) /\ reaches (sys_fstat junk i a) (trig (SysfileFstat i a)) /\
   reaches (sys_fsync junk i) (trig (SysfileFsync i)) /\ reaches (sys_getcwd junk a b) (trig (SysfileGetcwd a b)) /\
   reaches (sys_mkdir junk a) (trig (SysfileMkdir a)) /\ reaches (sys_chdir junk a) (trig (SysfileChdir a)) /\
   reaches (sys_link junk a b) (trig (SysfileLink a b)) /\ reaches (sys_unlink junk a) (trig (SysfileUnlink a)) /\
   reaches (sys_getdirentry junk i a) (trig (SysfileGetdirentry i a)) /\ reaches (sys_dup junk i j) (trig (SysfileDup i j)) /\
   (forall m, running m -> ent (sys_rename junk a b) m ~~ panics tfp)) /\
  (returns (sys_check_alloc_page junk) (trig KmallocInit;; trig Junk) (fun _ => tt) /\
   returns (sys_check_swap junk) (trig CheckSwap;; trig Junk) (fun _ => tt) /\ reaches (sys_fifo_check_swap junk) (trig FifoCheckSwap)).
Proof.
  intros. split_and!; try apply reach_fork; try (apply arrives_reaches; reach); try reach.
  - apply reach_gettime.
  - intros m Hm. apply undefined_spec; [done|done|]. right. apply (bool_decide_unpack _). by vm_compute.
  - apply (returns_bind _ _ (fun _ => tt)). reach.
  - apply (returns_bind _ _ (fun _ => tt)). reach.
Qed.
End reach.

(** ** Kernels that answer: no event is left *)
Section answers.
Variables (ans : kE ~> itree void1) (junk : nat -> Z) (tfp esp : Z).

Definition answered {A} (t : itree kE A) : itree void1 A := interp ans t.

Lemma answered_bind {A B} (t : itree kE A) (k : A -> itree kE B) : answered (ITree.bind t k) ~~ ITree.bind (answered t) (fun x => answered (k x)).
Proof. unfold answered. by rewrite interp_bind. Qed.
Lemma answered_ret {A} (x : A) : answered (Ret x) ~~ Ret x.
Proof. unfold answered. by rewrite interp_ret. Qed.
Lemma answered_trig {A} (e : kE A) : answered (trig e) ~~ ans A e.
Proof. unfold answered, trig. by rewrite interp_trigger. Qed.
#[global] Instance answered_proper {A} : Proper (eutt eq ==> eutt eq) (@answered A).
Proof. intros t u H. unfold answered. by rewrite H. Qed.

(** The process is not to exit and not to give up the CPU. *)
Definition quiet : Prop := ans _ CurrentFlags = Ret 0 /\ ans _ NeedResched = Ret false.

Lemma answered_back : quiet -> answered back_to_user ~~ Ret tt.
Proof.
  intros [Hq Hr]. unfold back_to_user. fold (trig CurrentFlags) (trig NeedResched) (trig Schedule). rewrite answered_bind, answered_trig, Hq, bind_ret_l.
  change (negb (Z.land 0 PF_EXITING =? 0)) with false. cbn match. rewrite answered_bind, answered_ret, bind_ret_l, answered_bind, answered_trig, Hr, bind_ret_l.
  apply answered_ret.
Qed.

(** One call of a user program, and the rest of it. *)
Lemma answered_call {B} (t : user Z) (e : kE Z) r (k : Z -> user B) m :
  quiet -> reaches tfp esp t (trig e) -> running tfp m -> ans _ e = Ret r ->
  answered (enter tfp esp (ITree.bind t k) m) ~~ answered (enter tfp esp (k (i32 r)) m).
Proof.
  intros Hq Ht Hm He. rewrite enter_bind, (Ht m Hm), !answered_bind, answered_trig, He, bind_ret_l, answered_bind, answered_back, bind_ret_l by done.
  by rewrite answered_ret, bind_ret_l.
Qed.

(** at the start of a program whose descriptor [fd2] is closed, [initfd]
    opens it (the open returns the lowest free descriptor, [fd2] itself), and
    still returns the error of the [fstat] before, so that the program warns
    that it could not open its input. *)
Theorem initfd_reports_error (stat fd2 path flags e : Z) (m : mach) :
  quiet -> running tfp m -> 0 <= fd2 < 2 ^ 31 -> is_u32 stat -> is_u32 path -> is_u32 flags -> is_int e -> e <> 0 ->
  ans _ (SysfileFstat fd2 stat) = Ret e -> ans _ (SysfileOpen path flags) = Ret fd2 ->
  answered (enter tfp esp (initfd junk stat fd2 path flags) m) ~~ Ret (m, e).
Proof.
  intros Hq Hm Hf Hs Hp Hfl He Hn Ha1 Ha2. assert (Hi : is_int fd2) by (unfold is_int; lia). unfold initfd.
  rewrite (answered_call _ _ _ _ _ Hq (reach_fstat junk tfp esp fd2 stat Hi Hs) Hm Ha1), i32_small by done. destruct (Z.eqb_spec e 0); [done|]. cbn [negb].
  rewrite (answered_call _ _ _ _ _ Hq (reach_open junk tfp esp path flags Hp Hfl) Hm Ha2), i32_small by done.
  destruct (Z.ltb_spec fd2 0); [lia|]. rewrite Z.eqb_refl. cbn [negb].
  by rewrite enter_ret, answered_ret.
Qed.
End answers.

(** ** Witnesses *)
Definition mach0 : mach := Mach 1 0 ∅.
Definition no_junk (_ : nat) : Z := 0xDEAD.

Lemma user_calls_reach_witness : reaches 0xC8 0x80 (sys_seek no_junk 3 (-4) 1) (trig (SysfileSeek 3 (-4) 1)).
Proof. by apply (user_calls_reach no_junk 0xC8 0x80 3 (-4) 1 0 0 0 0). Defined.

Lemma undefined_call_panics_witness : enter 0xC8 0x80 (sys_rename no_junk 10 20) mach0 ~~ panics 0xC8.
Proof. apply (undefined_call_panics no_junk 0xC8 0x80 SYS_rename [10; 20] mach0); [done|done|]. right. apply (bool_decide_unpack _). by vm_compute. Defined.

(** A kernel whose descriptor 0 is closed. *)
Definition ans0 : kE ~> itree void1 := fun A e =>
  match e with
  | CurrentFlags => Ret 0
  | NeedResched => Ret false
  | SysfileFstat _ _ => Ret (-3)
  | SysfileOpen _ _ => Ret 0
  | _ => ITree.spin
  end.

Lemma initfd_reports_error_witness : answered ans0 (enter 0xC8 0x80 (initfd no_junk 0x500 0 0x600 0) mach0) ~~ Ret (mach0, -3).
Proof. apply (initfd_reports_error ans0 no_junk 0xC8 0x80 0x500 0 0x600 0 (-3) mach0); done. Defined.
