(* ===== verification/UserFiles.v ===== *)
(** * User programs on files

    The calls of the user library (UserLib), through the trap handler
    (Syscall), on the file calls of the kernel (Sysfile): the file events are
    run on the state of the kernel, all others stay events. *)
From ITree Require Import ITree ITreeFacts Events.State Events.StateFacts.
From S2P Require Import Prelude Syscall UserLib Vmm FileTable Vfs Sysfile SysSfs.

Section files.
Context {D : Type} `{IO : InodeOps D} `{FO : FsOps}.
Variable local : Z.      (* the kernel's own struct stat *)

(** A call that panics or never returns stops the kernel. *)
Definition lift (f : sys D -> res (Z * sys D)) (s : sys D) : itree kE (sys D * Z) :=
  match f s with
  | Ok (r, s') => Ret (s', r)
  | _ => v <- ITree.trigger Panic;; match v : void with end
  end.

Definition h_files : kE ~> Monads.stateT (sys D) (itree kE) := fun A e =>
  match e in kE B return sys D -> itree kE (sys D * B) with
  | SysfileOpen path flags => lift (sysfile_open path flags)
  | SysfileClose fd => lift (sysfile_close fd)
  | SysfileRead fd base len => lift (sysfile_read fd base len)
  | SysfileWrite fd base len => lift (sysfile_write fd base len)
  | SysfileSeek fd pos whence => lift (sysfile_seek fd pos whence)
  | SysfileFstat fd stat => lift (sysfile_fstat local fd stat)
  | SysfileFsync fd => lift (sysfile_fsync fd)
  | SysfileGetcwd buf len => lift (sysfile_getcwd buf len)
  | SysfileMkdir path => lift (sysfile_mkdir path)
  | SysfileChdir path => lift (sysfile_chdir path)
  | SysfileLink old new => lift (sysfile_link old new)
  | SysfileRename old new => lift (sysfile_rename old new)
  | SysfileUnlink path => lift (sysfile_unlink path)
  | SysfileGetdirentry fd p => lift (sysfile_getdirentry fd p)
  | SysfileDup fd1 fd2 => lift (sysfile_dup fd1 fd2)
  | e => fun s => r <- ITree.trigger e;; Ret (s, r)
  end.

Definition kernel {A} (t : itree kE A) (s : sys D) : itree kE (sys D * A) := interp_state h_files t s.
End files.
#[global] Arguments kernel : simpl never.

Section roundtrip.
Context {D : Type} `{IL : InodeLaws D} `{FO : FsOps}.
Variables (local : Z) (junk : nat -> Z) (tfp esp : Z).
Local Abbreviation kern := (kernel (D := D) local).

Lemma kernel_ret {A} (x : A) s : kern (Ret x) s ~~ Ret (s, x).
Proof. unfold kernel. by rewrite interp_state_ret. Qed.
Lemma kernel_bind {A B} (t : itree kE A) (k : A -> itree kE B) s : kern (ITree.bind t k) s ~~ (x <- kern t s;; kern (k x.2) x.1).
Proof. unfold kernel. by rewrite interp_state_bind. Qed.
Lemma kernel_trig {A} (e : kE A) s : kern (ITree.trigger e) s ~~ h_files local A e s.
Proof. unfold kernel. by rewrite interp_state_trigger. Qed.
#[global] Instance kernel_proper {A} : Proper (eutt eq ==> eq ==> eutt eq) (@kernel D _ _ local A).
Proof. intros t u Htu s _ <-. unfold kernel. by rewrite Htu. Qed.

(** Calls that are not on files do not see the state of the files. *)
Definition apart_from_files {A} (t : itree kE A) : Prop := forall s, kern t s ~~ (x <- t;; Ret (s, x)).

Lemma apart_ret {A} (x : A) : apart_from_files (Ret x).
Proof. intros s. by rewrite kernel_ret, bind_ret_l. Qed.
Lemma apart_bind {A B} (t : itree kE A) (k : A -> itree kE B) :
  apart_from_files t -> (forall x, apart_from_files (k x)) -> apart_from_files (ITree.bind t k).
Proof. intros Ht Hk s. rewrite kernel_bind, (Ht s), !bind_bind. under_bind. rewrite bind_ret_l. apply Hk. Qed.
Lemma apart_trig {A} (e : kE A) : (forall s, h_files (D := D) local A e s = (x <- ITree.trigger e;; Ret (s, x))) -> apart_from_files (ITree.trigger e).
Proof. intros He s. by rewrite kernel_trig, He. Qed.

Lemma back_apart : apart_from_files back_to_user.
Proof.
  unfold back_to_user. apply apart_bind; [by apply apart_trig|]. intros f. apply apart_bind.
  - destruct (negb _); [|apply apart_ret]. apply apart_bind; [by apply apart_trig|]. intros. apply apart_ret.
  - intros _. apply apart_bind; [by apply apart_trig|]. intros []; [by apply apart_trig|apply apart_ret].
Qed.

(** One call on a file, and the rest of the program. *)
Lemma kernel_call {B} (t : user Z) (e : kE Z) (f : sys D -> res (Z * sys D)) (k : Z -> user B) r s s' m :
  reaches tfp esp t (trig e) -> running tfp m -> h_files local Z e = lift f -> f s = Ok (r, s') -> is_int r ->
  kern (enter tfp esp (ITree.bind t k) m) s ~~ (back_to_user;; kern (enter tfp esp (k r) m) s').
Proof.
  intros Ht Hm He Hf Hr. rewrite enter_bind, (Ht m Hm), !bind_bind, kernel_bind. unfold trig. rewrite kernel_trig, He. unfold lift. rewrite Hf.
  rewrite bind_ret_l. cbn [fst snd]. rewrite bind_bind, kernel_bind, (back_apart s'), bind_bind. under_bind. rewrite bind_ret_l. cbn [fst snd].
  rewrite bind_ret_l. cbn [fst snd]. by rewrite i32_small.
Qed.

(** The program [w = write(fd, base, len); q = seek(fd, p, LSEEK_SET); r =
    read(fd, base2, len)]. *)
Definition write_seek_read (i p base base2 len : Z) : user (Z * Z * Z) :=
  w <- write junk i base len;; q <- seek junk i p FileTable.LSEEK_SET;; r <- read junk i base2 len;; Ret (w, q, r).

(** C5: a user program that writes [len] bytes to a file, seeks back and reads
    them into another buffer, through the library, [int 0x80], [trap], the
    table of system calls, the open file table, the copies between user and
    kernel memory and the file system, gets [len], 0 and [len] from its
    calls and finds its bytes in the second buffer; the file holds them, no
    kernel buffer is lost, and the kernel did nothing else but the three
    checks [trap] makes before it returns to user mode. *)
Theorem user_file_roundtrip s l i n p b cap buf buf2 rest base base2 len (m : mach) :
  running tfp m -> ready s i n p b cap buf true true -> supply s = Some buf :: Some buf2 :: rest ->
  KERNBASE <= buf2 /\ buf2 + 4096 <= 2 ^ 32 -> buf2 ∉ bufs s ->
  access (um s) l base len false -> access (um s) l base2 len true -> apart buf base len -> apart buf2 base2 len ->
  is_u32 base -> is_u32 base2 -> 0 < len -> 0 <= p <= Z.of_nat (length b) -> p + len <= cap ->
  exists s3, kern (enter tfp esp (write_seek_read i p base base2 len) m) s ~~
      (back_to_user;; back_to_user;; back_to_user;; Ret (s3, (m, (len, 0, len)))) /\
    load (ram s3) base2 len = load (ram s) base len /\
    holds (dsk s3) n (splice b p (load (ram s) base len)) cap /\ bufs s3 = bufs s.
Proof.
  intros Hm Hrd Hs2 Hk2 Hn2 Hr1 Hr2 Hap1 Hap2 Hb1 Hb2 Hl Hp Hcap. pose proof limit_range as Hlr. pose proof (cap_limit _ _ _ _ (ry_file _ _ _ _ _ _ _ _ _ Hrd)) as Hcl.
  pose proof (op_range _ _ _ _ _ _ (ry_open _ _ _ _ _ _ _ _ _ Hrd)) as Hi. unfold FileTable.testfd in Hi. change FileTable.FILES_STRUCT_NENTRY with 145 in Hi.
  assert (Hii : is_int i) by (unfold is_int; lia).
  assert (Hll : is_u32 len) by (unfold is_u32; lia). assert (Hli : is_int len) by (unfold is_int; lia). assert (Hpi : is_int p) by (unfold is_int; lia).
  destruct (sysfile_write_read_roundtrip s l i n p b cap buf buf2 rest base base2 len) as (s1 & s3 & Hw & Hd & Hsk & Hr & Hld & Hds & Hbf); try done.
  exists s3. rewrite Hld, Hds, Hbf. split_and!; [|done..]. unfold write_seek_read.
  rewrite (kernel_call _ _ _ _ _ _ _ _ (reach_write junk tfp esp i base len Hii Hb1 Hll) Hm eq_refl Hw Hli). under_bind.
  rewrite (kernel_call _ _ _ _ _ _ _ _ (reach_seek junk tfp esp i p FileTable.LSEEK_SET Hii Hpi ltac:(done)) Hm eq_refl Hsk ltac:(done)). under_bind.
  rewrite (kernel_call _ _ _ _ _ _ _ _ (reach_read junk tfp esp i base2 len Hii Hb2 Hll) Hm eq_refl Hr Hli). under_bind.
  by rewrite enter_ret, kernel_ret.
Qed.
End roundtrip.

Lemma user_file_roundtrip_witness :
  exists s3, kernel (IO := sfs_node_fileops answers0) 0xC2000000 (enter 0xC8 0x80 (write_seek_read no_junk 0 4094 0x400000 0x401800 5000) mach0) (process1 4094) ~~
      (back_to_user;; back_to_user;; back_to_user;; Ret (s3, (mach0, (5000, 0, 5000)))) /\
    load (ram s3) 0x401800 5000 = load (fun a => a mod 256) 0x400000 5000.
Proof.
  destruct (user_file_roundtrip (IL := sfs_files_laws answers0) 0xC2000000 no_junk 0xC8 0x80 (process1 4094) Vmm.demo_areas 0 77 4094 file1_bytes 200000
      0xC1000000 0xC1002000 [] 0x400000 0x401800 5000 mach0) as (s3 & H1 & H2 & _);
    [done|apply process1_ready|done|done|apply not_elem_of_nil|apply demo_range; lia|apply demo_range; lia|left; done|left; done|done|done|lia| |lia|].
  { change (length file1_bytes) with (Z.to_nat 4096). lia. }
  exists s3. split; [exact H1|exact H2].
Defined.
