(* ===== verification/SfsDir.v ===== *)
(** * kern/fs/sfs/sfs_inode.c: inodes in memory and directories

    The loaded inodes, found by a handle (the [struct inode *]), in the order
    of [inode_list]; the chain of the hash table an inode number selects is the
    part of that list with the same hash, in the same order, so the first
    inode of the list with the number is the one the chain gives.  [mallocs]
    are the outcomes of the next [kmalloc] calls, in order; when they are used
    up [kmalloc] succeeds.  The lock of an inode is taken and released by the
    directory operations; taking it twice blocks for ever ([Spin]).  Every
    path of the functions below releases the lock of the file system, which is
    not part of the state.  Names and paths are C strings without their
    terminator. *)
From S2P Require Import Prelude IoBuf Bitmap SfsDisk SfsFile.

Definition E_BUSY : Z := 15.
Definition E_NOENT : Z := 16.
Definition E_ISDIR : Z := 17.
Definition E_NOTDIR : Z := 18.
Definition E_EXISTS : Z := 23.
Definition E_NOTEMPTY : Z := 24.
Definition S_IFMT : Z := 28672.

Record node := Node { sin : sfs_inode; locked : bool; reclaim_count : Z; ref_count : Z; open_count : Z }.

Record dst := Dst {
  fs : sfs;
  nodes : gmap nat node;
  next_node : nat;
  inode_list : list nat;
  mallocs : list bool
}.

(** ** Programs over the loaded inodes *)
Definition M (A : Type) : Type := dst -> res (A * dst).
Definition ret {A} (a : A) : M A := fun s => Ok (a, s).
Definition bind {A B} (m : M A) (f : A -> M B) : M B := fun s =>
  match m s with Ok (a, s) => f a s | Panic => Panic | Spin => Spin end.
Declare Scope prog_scope.
Delimit Scope prog_scope with prog.
Notation "x <- m ; k" := (bind m (fun x => k)) (at level 20, m at level 100, k at level 200, right associativity) : prog_scope.
Notation "' x <- m ; k" := (bind m (fun x => k)) (at level 20, x pattern, m at level 100, k at level 200, right associativity) : prog_scope.
#[local] Open Scope prog_scope.

Definition panic {A} : M A := fun _ => Panic.
Definition massert (b : bool) : M unit := if b then ret tt else panic.
Definition set_fs (f : sfs) (s : dst) : dst := Dst f (nodes s) (next_node s) (inode_list s) (mallocs s).
Definition set_nodes (ns : gmap nat node) (s : dst) : dst := Dst (fs s) ns (next_node s) (inode_list s) (mallocs s).
Definition set_inode_list (l : list nat) (s : dst) : dst := Dst (fs s) (nodes s) (next_node s) l (mallocs s).

Definition on_fs {A} (f : sfs -> res (A * sfs)) : M A := fun s => '(a, t) ← f (fs s); Ok (a, set_fs t s).
Definition on_fs_unit (f : sfs -> res sfs) : M unit := fun s => t ← f (fs s); Ok (tt, set_fs t s).
Definition ask_fs {A} (f : sfs -> res A) : M A := fun s => a ← f (fs s); Ok (a, s).
Definition get_node (h : nat) : M node := fun s => match nodes s !! h with Some n => Ok (n, s) | None => Panic end.
Definition put_node (h : nat) (n : node) : M unit := fun s => Ok (tt, set_nodes (<[h := n]> (nodes s)) s).
Definition set_sin (x : sfs_inode) (n : node) : node := Node x (locked n) (reclaim_count n) (ref_count n) (open_count n).
Definition upd_sin (h : nat) (f : sfs_inode -> sfs_inode) : M unit := n <- get_node h; put_node h (set_sin (f (sin n)) n).
(** An operation of the inode's blocks or contents. *)
Definition on_sin {A} (h : nat) (f : sfs_inode -> sfs -> res (A * sfs_inode * sfs)) : M A :=
  fun s => '(n, s) ← get_node h s; '(a, x, t) ← f (sin n) (fs s); '(_, s) ← put_node h (set_sin x n) (set_fs t s); Ok (a, s).
Definition kmalloc : M bool := fun s =>
  match mallocs s with [] => Ok (true, s) | b :: l => Ok (b, Dst (fs s) (nodes s) (next_node s) (inode_list s) l) end.

Definition set_locked (b : bool) (n : node) : node := Node (sin n) b (reclaim_count n) (ref_count n) (open_count n).
Definition lock_sin (h : nat) : M unit := n <- get_node h; if locked n then (fun _ => Spin) else put_node h (set_locked true n).
Definition unlock_sin (h : nat) : M unit := n <- get_node h; put_node h (set_locked false n).
Definition set_counts (rc ref : Z) (n : node) : node := Node (sin n) (locked n) rc ref (open_count n).

(** ** Inodes in memory *)
Definition sfs_set_links (h : nat) : M unit := fun s => Ok (tt, set_inode_list (h :: inode_list s) s).
Definition sfs_remove_links (h : nat) : M unit := fun s => Ok (tt, set_inode_list (filter (fun k => k <> h) (inode_list s)) s).

(** Panics for a type without operations. *)
Definition sfs_get_ops (type : Z) : M unit := massert ((type =? SFS_TYPE_DIR) || (type =? SFS_TYPE_FILE)).

(** [None]: -E_NO_MEM. *)
Definition sfs_create_inode (d : sfs_disk_inode) (no : Z) : M (option nat) :=
  ok <- kmalloc;
  if negb ok then ret None
  else
    _ <- sfs_get_ops (type d);
    fun s => let h := next_node s in
      Ok (Some h, Dst (fs s) (<[h := Node (Sin d no false) false 1 1 0]> (nodes s)) (S h) (inode_list s) (mallocs s)).

(** The first loaded inode with the number. *)
Definition find_node (no : Z) (s : dst) : option nat :=
  list_find (fun h => match nodes s !! h with Some n => ino (sin n) =? no | None => false end = true) (inode_list s) ≫= fun p => Some (snd p).

Definition lookup_sfs_nolock (no : Z) : M (option nat) := fun s =>
  match find_node no s with
  | None => Ok (None, s)
  | Some h =>
      '(n, s) ← get_node h s;
      let ref := ref_count n + 1 in
      '(_, s) ← put_node h (set_counts (if ref =? 1 then reclaim_count n + 1 else reclaim_count n) ref n) s;
      Ok (Some h, s)
  end.

Definition le16 (l : list Z) : Z := match l with [a; b] => a + 256 * b | _ => 0 end.
Definition din_of_bytes (l : list Z) : sfs_disk_inode :=
  Din (le32 (take 4 l)) (le16 (take 2 (drop 4 l))) (le16 (take 2 (drop 6 l))) (le32 (take 4 (drop 8 l)))
    ((fun i => le32 (take 4 (drop (12 + 4 * i) l))) <$> seq 0 12) (le32 (take 4 (drop 60 l))).

(** The result and the inode. *)
Definition sfs_load_inode (no : Z) : M (Z * option nat) :=
  o <- lookup_sfs_nolock no;
  match o with
  | Some h => ret (0, Some h)
  | None =>
      ok <- kmalloc;
      if negb ok then ret (- E_NO_MEM, None)
      else
        _ <- ask_fs (fun f => assert_inuse f no);
        '(r, l) <- on_fs (fun f => sfs_rbuf 64 no 0 f);
        if negb (r =? 0) then ret (r, None)
        else
          let d := din_of_bytes l in
          _ <- massert (negb (nlinks d =? 0));
          o <- sfs_create_inode d no;
          match o with
          | None => ret (- E_NO_MEM, None)
          | Some h => _ <- sfs_set_links h; ret (0, Some h)
          end
  end.

(** ** Reference counts *)
Definition vop_ref_inc (h : nat) : M Z :=
  n <- get_node h; _ <- put_node h (set_counts (reclaim_count n) (ref_count n + 1) n); ret (ref_count n + 1).

(** A directory has no [vop_truncate]. *)
Definition vop_truncate (h : nat) (len : Z) : M Z :=
  n <- get_node h;
  _ <- massert (negb (type (din (sin n)) =? SFS_TYPE_DIR));
  on_sin h (sfs_truncfile len).

Definition reclaim_blocks (x : sfs_inode) : M unit :=
  if nlinks (din x) =? 0 then
    _ <- on_fs_unit (sfs_block_free (ino x));
    if negb (indirect (din x) =? 0) then on_fs_unit (sfs_block_free (indirect (din x))) else ret tt
  else ret tt.

Definition sfs_reclaim (h : nat) : M Z :=
  n <- get_node h;
  _ <- massert (reclaim_count n >? 0);
  let rc := reclaim_count n - 1 in
  _ <- put_node h (set_counts rc (ref_count n) n);
  if negb (rc =? 0) || negb (ref_count n =? 0) then ret (- E_BUSY)
  else
    r <- (if nlinks (din (sin n)) =? 0 then vop_truncate h 0 else ret 0);
    if negb (r =? 0) then ret r
    else
      n <- get_node h;
      r <- (if dirty (sin n) then on_sin h sfs_fsync else ret 0);
      if negb (r =? 0) then ret r
      else
        _ <- sfs_remove_links h;
        n <- get_node h;
        _ <- reclaim_blocks (sin n);
        _ <- massert ((ref_count n =? 0) && (open_count n =? 0));
        fun s => Ok (0, set_nodes (delete h (nodes s)) s).

Definition vop_ref_dec (h : nat) : M Z :=
  n <- get_node h;
  _ <- massert (ref_count n >? 0);
  _ <- put_node h (set_counts (reclaim_count n) (ref_count n - 1) n);
  if ref_count n - 1 =? 0 then _ <- sfs_reclaim h; ret (ref_count n - 1) else ret (ref_count n - 1).

(** ** Directory entries *)
Fixpoint cstr (l : list Z) : list Z := match l with [] => [] | c :: l => if c =? 0 then [] else c :: cstr l end.

(** An entry on disk: the inode number and 256 bytes of name, the last of
    them set to 0. *)
Definition entry_of (l : list Z) : Z * list Z := (le32 (take 4 l), take 255 (drop 4 l) ++ [0]).
Definition entry_bytes (no : Z) (name : list Z) : list Z :=
  to_le32 no ++ take 255 name ++ replicate (256 - length (take 255 name)) 0.

(** The result and the entry. *)
Definition sfs_dirent_read_nolock (h : nat) (slot : Z) : M (Z * (Z * list Z)) :=
  n <- get_node h;
  _ <- massert ((type (din (sin n)) =? SFS_TYPE_DIR) && ((slot >=? 0) && (slot <? dblocks (din (sin n)))));
  '(r, b) <- on_sin h (fun x f => sfs_bmap_load_nolock x slot f);
  if negb (r =? 0) then ret (r, (0, []))
  else
    _ <- ask_fs (fun f => assert_inuse f b);
    '(r, l) <- on_fs (fun f => sfs_rbuf 260 b 0 f);
    if negb (r =? 0) then ret (r, (0, [])) else ret (0, entry_of l).

Definition sfs_dirent_link_nolock (h : nat) (slot : Z) (lnk : nat) (name : list Z) : M Z :=
  '(r, b) <- on_sin h (fun x f => sfs_bmap_load_nolock x slot f);
  if negb (r =? 0) then ret r
  else
    _ <- ask_fs (fun f => assert_inuse f b);
    r <- on_fs (fun f => sfs_clear_block b 1 f);
    if negb (r =? 0) then ret r
    else
      ok <- kmalloc;
      if negb ok then ret (- E_NO_MEM)
      else
        ln <- get_node lnk;
        r <- on_fs (fun f => sfs_wbuf (entry_bytes (ino (sin ln)) name) b 0 f);
        if negb (r =? 0) then ret r
        else
          _ <- upd_sin h (set_din (fun d => set_size (u32 (size d + (SFS_MAX_FNAME_LEN + 1))) d));
          _ <- upd_sin lnk (fun x => set_dirty true (set_din (fun d => set_nlinks ((nlinks d + 1) mod 65536) d) x));
          _ <- upd_sin h (set_dirty true);
          ret 0.

Definition S_ISDIR (mode : Z) : bool := Z.land mode S_IFMT =? S_IFDIR.

(** 46 is '.'. *)
Definition sfs_dirent_unlink_nolock (h : nat) (slot : Z) (lnk : nat) : M Z :=
  '(r, b) <- on_sin h (fun x f => sfs_bmap_get_nolock x slot false f);
  if negb (r =? 0) then ret r
  else
    ok <- kmalloc;
    if negb ok then ret (- E_NO_MEM)
    else
      '(r, l) <- on_fs (fun f => sfs_rbuf 260 b 0 f);
      if negb (r =? 0) then ret r
      else
        let '(no, name) := entry_of l in
        if bool_decide (cstr name = [46; 46]) || bool_decide (cstr name = [46]) then ret (- E_NOTEMPTY)
        else
          ln <- get_node lnk;
          if negb (no =? ino (sin ln)) then ret 0
          else
            r <- on_fs (fun f => sfs_clear_block b 1 f);
            if negb (r =? 0) then ret r
            else
              _ <- upd_sin h (set_din (fun d => set_size (u32 (size d - (SFS_MAX_FNAME_LEN + 1))) d));
              _ <- upd_sin lnk (set_din (fun d => set_nlinks ((nlinks d - 1) mod 65536) d));
              ln <- get_node lnk;
              _ <- (if S_ISDIR (type (din (sin ln))) then upd_sin h (set_din (fun d => set_nlinks ((nlinks d - 1) mod 65536) d)) else ret tt);
              _ <- upd_sin lnk (set_dirty true);
              _ <- upd_sin h (set_dirty true);
              ret 0.

(** Slots [i] on; [n] slots are left.  The result, the inode number and the
    slot found, and the free slot seen last. *)
Fixpoint search_from (n : nat) (h : nat) (name : list Z) (i empty : Z) : M (Z * (Z * Z * Z)) :=
  match n with
  | O => ret (- E_NOENT, (0, 0, empty))
  | S n =>
      '(r, e) <- sfs_dirent_read_nolock h i;
      if negb (r =? 0) then ret (r, (0, 0, empty))
      else if fst e =? 0 then search_from n h name (i + 1) i
      else if bool_decide (name = cstr (snd e)) then ret (0, (fst e, i, empty))
      else search_from n h name (i + 1) empty
  end.

Definition sfs_dirent_search_nolock (h : nat) (name : list Z) : M (Z * (Z * Z * Z)) :=
  _ <- massert (Z.of_nat (length name) <=? SFS_MAX_FNAME_LEN);
  ok <- kmalloc;
  if negb ok then ret (- E_NO_MEM, (0, 0, 0))
  else n <- get_node h; search_from (Z.to_nat (dblocks (din (sin n)))) h name 0 (dblocks (din (sin n))).

Fixpoint findino_from (n : nat) (h : nat) (no i : Z) : M (Z * list Z) :=
  match n with
  | O => ret (- E_NOENT, [])
  | S n =>
      '(r, e) <- sfs_dirent_read_nolock h i;
      if negb (r =? 0) then ret (r, [])
      else if fst e =? no then ret (0, snd e)
      else findino_from n h no (i + 1)
  end.

Definition sfs_dirent_findino_nolock (h : nat) (no : Z) : M (Z * list Z) :=
  n <- get_node h; findino_from (Z.to_nat (dblocks (din (sin n)))) h no 0.

(** ** Operations of directories *)
Definition sfs_lookup_once (h : nat) (name : list Z) : M (Z * option nat) :=
  _ <- lock_sin h;
  '(r, (no, _, _)) <- sfs_dirent_search_nolock h name;
  _ <- unlock_sin h;
  if r =? 0 then sfs_load_inode no else ret (r, None).

Definition sfs_opendir (open_flags : Z) : Z :=
  if negb (Z.land open_flags 3 =? 0) then - E_ISDIR
  else if negb (Z.land open_flags 32 =? 0) then - E_ISDIR else 0.

Definition sfs_openfile (open_flags : Z) : Z := 0.

Definition sfs_close (h : nat) : M Z := on_sin h sfs_fsync.

Definition sfs_link (h : nat) (name : list Z) (lnk : nat) : M Z :=
  _ <- lock_sin h;
  '(r, (_, _, empty)) <- sfs_dirent_search_nolock h name;
  if negb (r =? - E_NOENT) then _ <- unlock_sin h; ret (if r =? 0 then - E_EXISTS else r)
  else
    r <- sfs_dirent_link_nolock h empty lnk name;
    _ <- unlock_sin h;
    ret (if negb (r =? 0) then r else 0).

Definition sfs_unlink (h : nat) (name : list Z) : M Z :=
  _ <- lock_sin h;
  '(r, (no, slot, _)) <- sfs_dirent_search_nolock h name;
  if negb (r =? 0) then _ <- unlock_sin h; ret r
  else
    '(r, o) <- sfs_load_inode no;
    match o with
    | None => _ <- unlock_sin h; ret r
    | Some lnk =>
        r <- sfs_dirent_unlink_nolock h slot lnk;
        _ <- unlock_sin h;
        ret (if negb (r =? 0) then r else 0)
    end.

(** ** Paths *)

(** The first component and the rest; 47 is the separator. *)
Fixpoint split_slash (path : list Z) : list Z * option (list Z) :=
  match path with
  | [] => ([], None)
  | c :: path => if c =? 47 then ([], Some path) else let '(a, r) := split_slash path in (c :: a, r)
  end.
Definition sfs_lookup_subpath (path : list Z) : list Z * option (list Z) :=
  let '(a, r) := split_slash path in (a, match r with Some [] => None | _ => r end).

Definition path_check (path : list Z) : M unit := massert (match path with [] => false | c :: _ => negb (c =? 47) end).

(** One component per round; every round shortens the path, so a path of
    length [n] needs at most [n + 1] rounds. *)
Fixpoint lookup_from (n : nat) (h : nat) (path : list Z) : M (Z * option nat) :=
  match n with
  | O => fun _ => Spin
  | S n =>
      nd <- get_node h;
      if negb (type (din (sin nd)) =? SFS_TYPE_DIR) then _ <- vop_ref_dec h; ret (- E_NOTDIR, None)
      else
        let '(name, rest) := sfs_lookup_subpath path in
        '(r, o) <- sfs_lookup_once h name;
        _ <- vop_ref_dec h;
        match o with
        | None => ret (r, None)
        | Some sub => match rest with None => ret (0, Some sub) | Some rest => lookup_from n sub rest end
        end
  end.
Definition sfs_lookup (h : nat) (path : list Z) : M (Z * option nat) :=
  _ <- path_check path; _ <- vop_ref_inc h; lookup_from (S (length path)) h path.

(** The directory and the last component. *)
Fixpoint lookup_parent_from (n : nat) (h : nat) (path : list Z) : M (Z * option (nat * list Z)) :=
  match n with
  | O => fun _ => Spin
  | S n =>
      nd <- get_node h;
      if negb (type (din (sin nd)) =? SFS_TYPE_DIR) then _ <- vop_ref_dec h; ret (- E_NOTDIR, None)
      else
        let '(name, rest) := sfs_lookup_subpath path in
        match rest with
        | None => ret (0, Some (h, name))
        | Some rest =>
            '(r, o) <- sfs_lookup_once h name;
            _ <- vop_ref_dec h;
            match o with None => ret (r, None) | Some sub => lookup_parent_from n sub rest end
        end
  end.
Definition sfs_lookup_parent (h : nat) (path : list Z) : M (Z * option (nat * list Z)) :=
  _ <- path_check path; _ <- vop_ref_inc h; lookup_parent_from (S (length path)) h path.

(** ** Creation *)
Definition sfs_create_sub_nolock (no type : Z) : M (Z * option nat) :=
  ok <- kmalloc;
  if negb ok then ret (- E_NO_MEM, None)
  else
    '(r, l) <- on_fs (fun f => sfs_rbuf 64 no 0 f);
    if negb (r =? 0) then ret (r, None)
    else
      let d := din_of_bytes l in
      o <- sfs_create_inode (Din 0 type 0 0 (direct d) (indirect d)) no;
      match o with
      | None => ret (- E_NO_MEM, None)
      | Some h => _ <- upd_sin h (set_dirty true); _ <- sfs_set_links h; ret (0, Some h)
      end.

(** [junk]: what the variable [ino] holds when the search failed without
    setting it. *)
Definition sfs_create (junk : Z) (h : nat) (name : list Z) (excl : bool) : M (Z * option nat) :=
  _ <- lock_sin h;
  '(r, (no, _, empty)) <- sfs_dirent_search_nolock h name;
  if negb (r =? - E_NOENT) then
    if excl then _ <- unlock_sin h; ret (- E_EXISTS, None)
    else q <- sfs_load_inode (if r =? 0 then no else junk); _ <- unlock_sin h; ret q
  else
    '(r, no) <- on_fs sfs_block_alloc;
    if negb (r =? 0) then _ <- unlock_sin h; ret (r, None)
    else
      _ <- ask_fs (fun f => assert_inuse f no);
      '(r, o) <- sfs_create_sub_nolock no SFS_TYPE_FILE;
      match o with
      | None => _ <- unlock_sin h; ret (r, None)
      | Some new =>
          r <- sfs_dirent_link_nolock h empty new name;
          if negb (r =? 0) then _ <- on_fs_unit (sfs_block_free no); _ <- unlock_sin h; ret (r, None)
          else _ <- unlock_sin h; ret (0, Some new)
      end.

Definition sfs_mkdir (h : nat) (name : list Z) : M Z :=
  _ <- lock_sin h;
  '(r, (_, _, empty)) <- sfs_dirent_search_nolock h name;
  if negb (r =? - E_NOENT) then ret (- E_EXISTS)
  else
    '(r, no) <- on_fs sfs_block_alloc;
    if negb (r =? 0) then _ <- unlock_sin h; ret r
    else
      '(r, o) <- sfs_create_sub_nolock no SFS_TYPE_DIR;
      match o with
      | None => _ <- on_fs_unit (sfs_block_free no); _ <- unlock_sin h; ret r
      | Some new =>
          r <- sfs_dirent_link_nolock h empty new name;
          if negb (r =? 0) then _ <- on_fs_unit (sfs_block_free no); _ <- unlock_sin h; ret r
          else
            _ <- sfs_dirent_link_nolock new 0 new [46];
            _ <- sfs_dirent_link_nolock new 1 h [46; 46];
            _ <- unlock_sin h;
            ret 0
      end.

(** ** Listing and naming *)
Fixpoint getdirentry_from (n : nat) (h : nat) (slot i : Z) : M (Z * list Z) :=
  match n with
  | O => ret (- E_NOENT, [])
  | S n =>
      '(r, e) <- sfs_dirent_read_nolock h i;
      if negb (r =? 0) then ret (r, [])
      else if negb (fst e =? 0) then
        if slot =? 0 then ret (0, snd e) else getdirentry_from n h (slot - 1) (i + 1)
      else getdirentry_from n h slot (i + 1)
  end.
Definition sfs_getdirentry_sub_nolock (h : nat) (slot : Z) : M (Z * list Z) :=
  n <- get_node h; getdirentry_from (Z.to_nat (dblocks (din (sin n)))) h slot 0.

Definition sfs_dentry_size : Z := 256.

Definition sfs_getdirentry (h : nat) (iob : iobuf) : M (Z * iobuf) :=
  ok <- kmalloc;
  if negb ok then ret (- E_NO_MEM, iob)
  else
    let offset := io_offset iob in
    if (offset <? 0) || negb (offset mod sfs_dentry_size =? 0) then ret (- E_INVAL, iob)
    else
      n <- get_node h;
      if offset / sfs_dentry_size >? dblocks (din (sin n)) then ret (- E_NOENT, iob)
      else
        _ <- lock_sin h;
        '(r, name) <- sfs_getdirentry_sub_nolock h (offset / sfs_dentry_size);
        _ <- unlock_sin h;
        if negb (r =? 0) then ret (r, iob)
        else '(r, _, _, iob) <- (fun s => q ← iobuf_move name sfs_dentry_size true iob; Ok (q, s)); ret (r, iob).

Definition poke_at (pos : Z) (l mem : list Z) : list Z :=
  take (Z.to_nat pos) mem ++ l ++ drop (Z.to_nat pos + length l) mem.

(** One directory up per round; [n] rounds.  The result, what is left of the
    room, where the path starts and the memory of the buffer. *)
Fixpoint namefile_up (n : nat) (h : nat) (resid ptr : Z) (mem : list Z) : M (Z * Z * Z * list Z) :=
  match n with
  | O => fun _ => Spin
  | S n =>
      '(r, o) <- sfs_lookup_once h [46; 46];
      match o with
      | None => _ <- vop_ref_dec h; ret (r, resid, ptr, mem)
      | Some parent =>
          nd <- get_node h;
          _ <- vop_ref_dec h;
          if (h =? parent)%nat then _ <- vop_ref_dec h; ret (0, resid, ptr, mem)
          else
            p <- get_node parent;
            _ <- massert (negb (ino (sin nd) =? ino (sin p)) && (type (din (sin p)) =? SFS_TYPE_DIR));
            _ <- lock_sin parent;
            '(r, name) <- sfs_dirent_findino_nolock parent (ino (sin nd));
            _ <- unlock_sin parent;
            if negb (r =? 0) then _ <- vop_ref_dec parent; ret (r, resid, ptr, mem)
            else
              let alen := Z.of_nat (length (cstr name)) + 1 in
              if alen >? resid then _ <- vop_ref_dec parent; ret (- E_NO_MEM, resid, ptr, mem)
              else namefile_up n parent (resid - alen) (ptr - alen) (poke_at (ptr - alen) (cstr name ++ [47]) mem)
      end
  end.

Definition sfs_namefile (n : nat) (h : nat) (iob : iobuf) : M (Z * iobuf) :=
  if io_resid iob <=? 2 then ret (- E_NO_MEM, iob)
  else
    ok <- kmalloc;
    if negb ok then ret (- E_NO_MEM, iob)
    else
      _ <- vop_ref_inc h;
      '(r, resid, ptr, mem) <- namefile_up n h (io_resid iob - 2) (io_base iob + io_resid iob) (io_buf iob);
      let iob' m := Iobuf m (io_base iob) (io_offset iob) (io_len iob) (io_resid iob) in
      if negb (r =? 0) then ret (r, iob' mem)
      else
        let alen := io_resid iob - resid - 2 in
        let path := take (Z.to_nat alen) (drop (Z.to_nat ptr) mem) in
        let mem := poke_at (io_base iob) ([47] ++ path ++ [0]) mem in
        fun s => iob ← iobuf_skip alen (iob' mem); Ok ((0, iob), s).

(** ** Running programs *)
Lemma bind_Ok {A B} (m : M A) (f : A -> M B) s a s' : m s = Ok (a, s') -> bind m f s = f a s'.
Proof. intros H. unfold bind. by rewrite H. Qed.

Lemma get_node_ok h n s : nodes s !! h = Some n -> get_node h s = Ok (n, s).
Proof. intros H. unfold get_node. by rewrite H. Qed.

Lemma kmalloc_ok s : mallocs s = [] -> kmalloc s = Ok (true, s).
Proof. intros H. unfold kmalloc. by rewrite H. Qed.

Lemma set_fs_id s : set_fs (fs s) s = s.
Proof. by destruct s. Qed.
Lemma set_sin_id n : set_sin (sin n) n = n.
Proof. by destruct n. Qed.

Lemma on_sin_ok {A} h n (f : sfs_inode -> sfs -> res (A * sfs_inode * sfs)) s a x t :
  nodes s !! h = Some n -> f (sin n) (fs s) = Ok (a, x, t) ->
  on_sin h f s = Ok (a, set_nodes (<[h := set_sin x n]> (nodes s)) (set_fs t s)).
Proof. intros Hn Hf. unfold on_sin. rewrite (get_node_ok h n) by done. simpl. by rewrite Hf. Qed.

Lemma on_sin_same {A} h n (f : sfs_inode -> sfs -> res (A * sfs_inode * sfs)) s a :
  nodes s !! h = Some n -> f (sin n) (fs s) = Ok (a, sin n, fs s) -> on_sin h f s = Ok (a, s).
Proof.
  intros Hn Hf. rewrite (on_sin_ok h n f s a (sin n) (fs s)) by done. rewrite set_sin_id, set_fs_id, insert_id by done. by destruct s.
Qed.

Lemma on_fs_ok {A} (f : sfs -> res (A * sfs)) s a t : f (fs s) = Ok (a, t) -> on_fs f s = Ok (a, set_fs t s).
Proof. intros Hf. unfold on_fs. by rewrite Hf. Qed.

Lemma ask_fs_ok {A} (f : sfs -> res A) s a : f (fs s) = Ok a -> ask_fs f s = Ok (a, s).
Proof. intros Hf. unfold ask_fs. by rewrite Hf. Qed.

(** Runs the next step of a program with the equation [H] of that step. *)
Ltac step H := rewrite (bind_Ok _ _ _ _ _ H); cbv beta iota; cbn [negb fst snd].

(** ** Directories *)
Record dir_at (s : dst) (h : nat) (n : node) (bl : list Z) : Prop := {
  da_node : nodes s !! h = Some n;
  da_map : map_ok (fs s) (sin n) bl;
  da_type : type (din (sin n)) = SFS_TYPE_DIR
}.

(** The entries, one per block. *)
Definition entry_at (f : sfs) (bl : list Z) (j : Z) : Z * list Z := entry_of (fbytes f bl (4096 * j) 260).
Definition has (f : sfs) (bl : list Z) (j : Z) (name : list Z) (no : Z) : Prop :=
  0 <= j < Z.of_nat (length bl) /\ fst (entry_at f bl j) = no /\ no <> 0 /\ cstr (snd (entry_at f bl j)) = name.

Lemma dirent_read_ok s h n bl i :
  fs_ok (fs s) -> dir_at s h n bl -> 0 <= i < Z.of_nat (length bl) ->
  sfs_dirent_read_nolock h i s = Ok ((0, entry_at (fs s) bl i), s).
Proof.
  intros H [Hn Hf Ht] Hi. destruct (lookup_lt_is_Some_2 bl (Z.to_nat i)) as [b Hb]; [lia|].
  pose proof (fk_len _ _ _ Hf) as Hlen. pose proof (data_used _ _ _ _ Hf (list_elem_of_lookup_2 _ _ _ Hb)) as Hu. pose proof (used_pos _ _ H Hu).
  unfold sfs_dirent_read_nolock. step (get_node_ok h n s Hn). rewrite Ht, (proj2 (Z.ltb_lt i _)), Z.geb_leb, (proj2 (Z.leb_le 0 i)) by lia.
  cbn [andb]. change (SFS_TYPE_DIR =? SFS_TYPE_DIR) with true. cbn [andb massert]. rewrite (bind_Ok _ _ _ tt s) by done.
  assert (E1 : on_sin h (fun x f => sfs_bmap_load_nolock x i f) s = Ok ((0, b), s)).
  { apply on_sin_same with n; [done|]. apply bmap_load_old with bl; (done || lia). }
  step E1. change (0 =? 0) with true. cbn [negb]. step (ask_fs_ok (fun f => assert_inuse f b) s tt (assert_inuse_ok _ _ H Hu)).
  assert (E2 : on_fs (fun f => sfs_rbuf 260 b 0 f) s = Ok ((0, slice (block (fs s) b) 0 260), s)).
  { rewrite (on_fs_ok _ s (0, slice (block (fs s) b) 0 260) (fs s)), set_fs_id; [done|]. rewrite rbuf_ok; [done|apply H|done|unfold SFS_BLKSIZE; lia..]. }
  step E2. change (0 =? 0) with true. cbn [negb]. unfold ret, entry_at. rewrite (slice_fbytes (fs s) bl i) by (done || lia).
  by rewrite Z.add_0_r.
Qed.

(** What a scan from slot [i] on finds. *)
Lemma search_from_spec n : forall s h nd bl name i e,
  fs_ok (fs s) -> dir_at s h nd bl -> 0 <= i -> i + Z.of_nat n = Z.of_nat (length bl) ->
  exists r no slot empty, search_from n h name i e s = Ok ((r, (no, slot, empty)), s) /\
    ((r = 0 /\ i <= slot /\ has (fs s) bl slot name no) \/
     (r = - E_NOENT /\ (forall j no', i <= j -> ~ has (fs s) bl j name no') /\
       (empty = e \/ i <= empty < Z.of_nat (length bl) /\ fst (entry_at (fs s) bl empty) = 0))).
Proof.
  induction n as [|n IH]; intros s h nd bl name i e H Hd Hi Hn; cbn [search_from].
  { exists (- E_NOENT), 0, 0, e. split; [done|]. right. split; [done|]. split; [|by left].
    intros j no' Hj (Hr & _). lia. }
  step (dirent_read_ok s h nd bl i H Hd ltac:(lia)). change (0 =? 0) with true. cbn [negb].
  destruct (Z.eqb_spec (fst (entry_at (fs s) bl i)) 0) as [E|E].
  - destruct (IH s h nd bl name (i + 1) i) as (r & no & slot & em & -> & Hs); [done|done|lia|lia|].
    exists r, no, slot, em. split; [done|]. destruct Hs as [(? & ? & ?)|(? & Hno & Hem)]; [left; split_and!; (done || lia)|]. right. split; [done|].
    split; [|right; destruct Hem as [->|[? ?]]; split; (done || lia)]. intros j no' Hj Hh. destruct (decide (j = i)) as [->|].
    + destruct Hh as (_ & Hh1 & Hh2 & _). congruence.
    + apply (Hno j no'); [lia|done].
  - destruct (bool_decide_reflect (name = cstr (snd (entry_at (fs s) bl i)))) as [En|En].
    + exists 0, (fst (entry_at (fs s) bl i)), i, e. split; [done|]. left. split; [done|]. split; [lia|]. split; [lia|done].
    + destruct (IH s h nd bl name (i + 1) e) as (r & no & slot & em & -> & Hs); [done|done|lia|lia|].
      exists r, no, slot, em. split; [done|]. destruct Hs as [(? & ? & ?)|(? & Hno & Hem)]; [left; split_and!; (done || lia)|]. right. split; [done|].
      split; [|destruct Hem as [->|[? ?]]; [by left|right; split; (done || lia)]]. intros j no' Hj Hh. destruct (decide (j = i)) as [->|].
      * destruct Hh as (_ & _ & _ & Hh). congruence.
      * apply (Hno j no'); [lia|done].
Qed.

Lemma dirent_search_spec s h nd bl name :
  fs_ok (fs s) -> dir_at s h nd bl -> mallocs s = [] -> Z.of_nat (length name) <= 255 ->
  exists r no slot empty, sfs_dirent_search_nolock h name s = Ok ((r, (no, slot, empty)), s) /\
    ((r = 0 /\ has (fs s) bl slot name no) \/
     (r = - E_NOENT /\ (forall j no', ~ has (fs s) bl j name no') /\ 0 <= empty <= Z.of_nat (length bl) /\
       (empty < Z.of_nat (length bl) -> fst (entry_at (fs s) bl empty) = 0))).
Proof.
  intros H Hd Hm Hl. pose proof (fk_len _ _ _ (da_map _ _ _ _ Hd)) as Hlen. unfold sfs_dirent_search_nolock.
  rewrite (bind_Ok _ _ s tt s) by (unfold massert, SFS_MAX_FNAME_LEN; by rewrite (proj2 (Z.leb_le _ 255))).
  step (kmalloc_ok s Hm). step (get_node_ok h nd s (da_node _ _ _ _ Hd)).
  destruct (search_from_spec (Z.to_nat (dblocks (din (sin nd)))) s h nd bl name 0 (dblocks (din (sin nd)))) as (r & no & slot & em & -> & Hs); [done|done|lia|lia|].
  exists r, no, slot, em. split; [done|]. destruct Hs as [(? & ? & ?)|(? & Hno & Hem)]; [by left|]. right. split; [done|].
  split; [intros j no' Hh; apply (Hno j no'); [destruct Hh; lia|done]|]. destruct Hem as [->|[? ?]]; [lia|]. split; [lia|done].
Qed.

(** ** Writing an entry *)
Lemma entry_bytes_length no name : length (entry_bytes no name) = 260%nat.
Proof. unfold entry_bytes. rewrite !length_app, length_replicate, length_take. change (length (to_le32 no)) with 4%nat. lia. Qed.

Lemma cstr_app name l : Forall (fun c => c <> 0) name -> cstr (name ++ 0 :: l) = name.
Proof. induction 1 as [|c name Hc _ IH]; simpl; [done|]. rewrite (proj2 (Z.eqb_neq c 0)) by done. by rewrite IH. Qed.

(** C strings that fit in an entry. *)
Definition name_ok (name : list Z) : Prop := Forall (fun c => c <> 0) name /\ Z.of_nat (length name) <= 255.

Lemma entry_roundtrip no name : 0 <= no < 2 ^ 32 -> name_ok name ->
  fst (entry_of (entry_bytes no name)) = no /\ cstr (snd (entry_of (entry_bytes no name))) = name.
Proof.
  intros Hno [Hnz Hl]. unfold entry_of, entry_bytes. split.
  - rewrite take_app_le by done. by apply le32_to_le32.
  - cbn [snd]. change (drop 4 (to_le32 no ++ ?l)) with l. rewrite (take_ge name) by lia.
    destruct (decide (length name = 255%nat)) as [E|E].
    + rewrite take_app_le by lia. rewrite take_ge by lia. by apply cstr_app.
    + destruct (256 - length name)%nat as [|[|k]] eqn:Ek; [lia|lia|]. cbn [replicate].
      rewrite take_app_ge by lia. destruct (255 - length name)%nat as [|k'] eqn:Ek'; [lia|]. cbn [take]. rewrite <- app_assoc. by apply cstr_app.
Qed.

Lemma set_block_twice f b c d : set_block b d (set_block b c f) = set_block b d f.
Proof. unfold set_block. simpl. by rewrite insert_insert_eq. Qed.

(** The block of an entry: its bytes, then zeros. *)
Definition entry_block (l : list Z) : list Z := l ++ replicate (4096 - length l) 0.

Lemma entry_block_length l : (length l <= 4096)%nat -> Z.of_nat (length (entry_block l)) = 4096.
Proof. intros Hl. unfold entry_block. rewrite length_app, length_replicate. lia. Qed.

Lemma entry_block_byte l k : 0 <= k < 4096 -> (length l <= 4096)%nat -> byte (patch 0 l ∅) k = default 0 (entry_block l !! Z.to_nat k).
Proof.
  intros Hk Hl. rewrite patch_byte. unfold entry_block. case_decide.
  - rewrite lookup_app_l by lia. by rewrite Z.sub_0_r.
  - rewrite lookup_app_r by lia. rewrite lookup_replicate_2 by lia. simpl. unfold byte. by rewrite lookup_empty.
Qed.

(** The entries after block [i] of the directory has been rewritten. *)
Lemma entry_after f bl f' bl' i l j :
  wrote f bl f' bl' (4096 * i) (entry_block l) -> length l = 260%nat -> 0 <= i -> 0 <= j ->
  entry_at f' bl' j = if j =? i then entry_of l else entry_at f bl j.
Proof.
  intros Hw Hl Hi Hj. unfold entry_at.
  assert (Hlen : Z.of_nat (length (entry_block l)) = 4096) by (apply entry_block_length; lia).
  destruct (Z.eqb_spec j i) as [->|Hne]; f_equal.
  - apply list_eq_same_length with 260%nat; [done|pose proof (fbytes_length f' bl' (4096 * i) 260); lia|].
    intros k a b Hk Ha Hb. unfold fbytes in Ha. rewrite list_lookup_fmap, lookup_seqZ_lt in Ha by lia. simplify_eq/=.
    rewrite Hw, decide_True by lia. match goal with |- context [entry_block l !! ?z] => replace z with k by lia end.
    unfold entry_block. rewrite lookup_app_l by lia. by rewrite Hb.
  - apply list_fmap_ext. intros k z Hz. apply lookup_seqZ in Hz as [-> Hz]. rewrite Hw by lia. by rewrite decide_False by lia.
Qed.

Definition linked (x : sfs_inode) : sfs_inode := set_dirty true (set_din (fun d => set_nlinks ((nlinks d + 1) mod 65536) d) x).
Definition grown (x : sfs_inode) : sfs_inode := set_dirty true (set_din (fun d => set_size (u32 (size d + 256)) d) x).

Lemma upd_sin_ok h n f s : nodes s !! h = Some n -> upd_sin h f s = Ok (tt, set_nodes (<[h := set_sin (f (sin n)) n]> (nodes s)) s).
Proof. intros Hn. unfold upd_sin. by step (get_node_ok h n s Hn). Qed.

Lemma dirent_link_ok s h n bl slot lnk ln name :
  fs_ok (fs s) -> dir_at s h n bl -> mallocs s = [] -> nodes s !! lnk = Some ln -> lnk <> h ->
  0 <= slot <= Z.of_nat (length bl) -> slot < 1036 -> slot + 3 <= nfree (fs s) + Z.of_nat (length (own (sin n) bl)) ->
  exists x f bl', sfs_dirent_link_nolock h slot lnk name s =
      Ok (0, Dst f (<[h := set_sin (grown x) n]> (<[lnk := set_sin (linked (sin ln)) ln]> (nodes s))) (next_node s) (inode_list s) []) /\
    wrote_to (fs s) (sin n) bl (4096 * slot) (entry_block (entry_bytes (ino (sin ln)) name)) f x bl'.
Proof.
  intros H [Hn Hf Ht] Hm Hln Hne Hs Hmax Hfree. set (l := entry_bytes _ _).
  assert (Hl : length l = 260%nat) by apply entry_bytes_length.
  assert (Hlen : Z.of_nat (length (entry_block l)) = 4096) by (apply entry_block_length; lia).
  destruct (load_then_patch (fs s) (sin n) bl slot 0 (entry_block l)) as (b & x & f1 & bl' & Hload & H1 & Hu & Hw); try (done || lia).
  pose proof (used_pos _ _ H1 Hu) as Hb. unfold sfs_dirent_link_nolock.
  step (on_sin_ok h n (fun x f => sfs_bmap_load_nolock x slot f) s (0, b) x f1 Hn Hload). change (0 =? 0) with true. cbn [negb].
  set (s1 := set_nodes _ _). step (ask_fs_ok (fun f => assert_inuse f b) s1 tt (assert_inuse_ok f1 b H1 Hu)).
  assert (E1 : on_fs (fun f => sfs_clear_block b 1 f) s1 = Ok (0, set_fs (set_block b ∅ f1) s1)).
  { apply on_fs_ok. unfold sfs_clear_block. cbn [replicate sfs_wblock]. unfold s1. cbn [fs set_nodes set_fs]. rewrite rw_write by (apply H1 || lia). done. }
  step E1. change (0 =? 0) with true. cbn [negb]. set (s2 := set_fs _ s1). step (kmalloc_ok s2 Hm).
  assert (Hln2 : nodes s2 !! lnk = Some ln) by (simpl; by rewrite lookup_insert_ne).
  step (get_node_ok lnk ln s2 Hln2). fold l.
  assert (E2 : on_fs (fun f => sfs_wbuf l b 0 f) s2 = Ok (0, set_fs (set_block b (patch 0 l ∅) f1) s2)).
  { apply on_fs_ok. unfold s2. cbn [fs set_fs]. rewrite wbuf_ok; [|apply H1|done|unfold SFS_BLKSIZE; lia|unfold SFS_BLKSIZE; lia].
    by rewrite block_set, Z.eqb_refl, set_block_twice. }
  step E2. change (0 =? 0) with true. cbn [negb]. set (s3 := set_fs _ s2).
  assert (Hn3 : nodes s3 !! h = Some (set_sin x n)) by (simpl; by rewrite lookup_insert_eq).
  step (upd_sin_ok h _ (set_din (fun d => set_size (u32 (size d + (SFS_MAX_FNAME_LEN + 1))) d)) s3 Hn3). set (s4 := set_nodes _ s3).
  assert (Hln4 : nodes s4 !! lnk = Some ln) by (simpl; by rewrite !lookup_insert_ne).
  step (upd_sin_ok lnk _ (fun x => set_dirty true (set_din (fun d => set_nlinks ((nlinks d + 1) mod 65536) d) x)) s4 Hln4). set (s5 := set_nodes _ s4).
  assert (Hn5 : nodes s5 !! h = Some (set_sin (set_din (fun d => set_size (u32 (size d + (SFS_MAX_FNAME_LEN + 1))) d) x) n))
    by (simpl; rewrite lookup_insert_ne by done; by rewrite lookup_insert_eq).
  step (upd_sin_ok h _ (set_dirty true) s5 Hn5).
  exists x, (set_block b (patch 0 l ∅) f1), bl'. split.
  - unfold ret. do 2 f_equal. unfold set_nodes, s5, s4, s3, s2, s1, set_nodes, set_fs. simpl. rewrite Hm. f_equal.
    rewrite insert_insert_eq. rewrite (insert_insert_ne _ lnk h) by done. by rewrite insert_insert_eq.
  - rewrite Z.add_0_r in Hw. apply Hw. intros k Hk. rewrite entry_block_byte by lia. rewrite patch_byte, decide_True by lia. by rewrite Z.sub_0_r.
Qed.

Lemma lock_ok h n s : nodes s !! h = Some n -> locked n = false -> lock_sin h s = Ok (tt, set_nodes (<[h := set_locked true n]> (nodes s)) s).
Proof. intros Hn Hl. unfold lock_sin. step (get_node_ok h n s Hn). by rewrite Hl. Qed.

Lemma unlock_ok h n s : nodes s !! h = Some n -> unlock_sin h s = Ok (tt, set_nodes (<[h := set_locked false n]> (nodes s)) s).
Proof. intros Hn. unfold unlock_sin. by step (get_node_ok h n s Hn). Qed.

Lemma unlock_locked h n s :
  nodes s !! h = Some n -> locked n = false ->
  unlock_sin h (set_nodes (<[h := set_locked true n]> (nodes s)) s) = Ok (tt, s).
Proof.
  intros Hn Hl. rewrite (unlock_ok h (set_locked true n)) by (simpl; by rewrite lookup_insert_eq). simpl. do 2 f_equal.
  unfold set_nodes. simpl. rewrite insert_insert_eq. rewrite insert_id; [by destruct s|]. rewrite Hn. f_equal. destruct n; simpl in *; by rewrite Hl.
Qed.

Lemma dir_at_locked s h n bl b : dir_at s h n bl -> dir_at (set_nodes (<[h := set_locked b n]> (nodes s)) s) h (set_locked b n) bl.
Proof. intros []. constructor; simpl; [by rewrite lookup_insert_eq|done|done]. Qed.

(** One more entry, in a free slot. *)
Lemma has_after f bl f' bl' slot name no :
  wrote f bl f' bl' (4096 * slot) (entry_block (entry_bytes no name)) -> 0 <= slot <= Z.of_nat (length bl) ->
  Z.of_nat (length bl') = Z.max (Z.of_nat (length bl)) (slot + 1) -> 0 < no < 2 ^ 32 -> name_ok name ->
  (slot < Z.of_nat (length bl) -> fst (entry_at f bl slot) = 0) ->
  forall j nm no', has f' bl' j nm no' <-> (j = slot /\ nm = name /\ no' = no) \/ has f bl j nm no'.
Proof.
  intros Hw Hs Hl Hno Hname Hfree j nm no'. destruct (entry_roundtrip no name) as [E1 E2]; [lia|done|].
  pose proof (entry_bytes_length no name) as Hel. unfold has. destruct (decide (0 <= j)) as [Hj|Hj]; [|split; [lia|intros [(-> & _)|?]; lia]].
  rewrite (entry_after f bl f' bl' slot _ j Hw Hel) by (done || lia). destruct (Z.eqb_spec j slot) as [->|Hne].
  - rewrite E1, E2. split; [intros (_ & <- & _ & <-); by left|]. intros [(_ & -> & ->)|(Hr & H1 & H2 & _)]; [split_and!; (done || lia)|].
    rewrite Hfree in H1 by lia. congruence.
  - split; [intros (Hr & H1 & H2 & H3); right; split_and!; try done; lia|]. intros [(? & _)|(Hr & H1 & H2 & H3)]; [done|]. split_and!; (done || lia).
Qed.

Lemma link_spec s h n bl lnk ln name :
  fs_ok (fs s) -> dir_at s h n bl -> locked n = false -> mallocs s = [] -> nodes s !! lnk = Some ln -> lnk <> h ->
  name_ok name -> 0 < ino (sin ln) < 2 ^ 32 -> Z.of_nat (length bl) < 1036 -> 2 <= nfree (fs s) ->
  ((exists j no, has (fs s) bl j name no) /\ sfs_link h name lnk s = Ok (- E_EXISTS, s)) \/
  ((forall j no, ~ has (fs s) bl j name no) /\ exists n' f bl' slot,
    let s' := Dst f (<[h := n']> (<[lnk := set_sin (linked (sin ln)) ln]> (nodes s))) (next_node s) (inode_list s) [] in
    sfs_link h name lnk s = Ok (0, s') /\ fs_ok f /\ dir_at s' h n' bl' /\ locked n' = false /\ ino (sin n') = ino (sin n) /\
    size (din (sin n')) = u32 (size (din (sin n)) + 256) /\
    (forall j nm no, has f bl' j nm no <-> (j = slot /\ nm = name /\ no = ino (sin ln)) \/ has (fs s) bl j nm no) /\
    others_kept (fs s) (sin n) bl f).
Proof.
  intros H Hd Hlk Hm Hln Hne Hname Hino Hmax Hfree. pose proof (da_node _ _ _ _ Hd) as Hn. unfold sfs_link. step (lock_ok h n s Hn Hlk).
  set (s1 := set_nodes _ s). pose proof (dir_at_locked s h n bl true Hd) as Hd1. fold s1 in Hd1.
  destruct (dirent_search_spec s1 h _ bl name H Hd1 Hm ltac:(apply Hname)) as (r & no & slot & em & E & Hr). step E. cbn [fst snd].
  destruct Hr as [(-> & Hh)|(-> & Hno & Hem & Hz)].
  - left. split; [by exists slot, no|]. change (negb (0 =? - E_NOENT)) with true. cbv iota. step (unlock_locked h n s Hn Hlk). done.
  - right. split; [exact Hno|]. rewrite Z.eqb_refl. cbn [negb]. pose proof (own_length (sin n) bl) as Hol.
    destruct (dirent_link_ok s1 h (set_locked true n) bl em lnk ln name) as (x & f & bl' & E1 & (Hch & Hw & Hl)); try done; [simpl; by rewrite lookup_insert_ne|lia| |].
    { change (fs s1) with (fs s). cbn [sin set_locked]. zcase_in Hol; lia. }
    step E1. set (s2 := Dst f _ _ _ _). assert (Hn2 : nodes s2 !! h = Some (set_sin (grown x) (set_locked true n))) by (simpl; by rewrite lookup_insert_eq).
    step (unlock_ok h _ s2 Hn2). change (0 =? 0) with true. cbn [negb]. cbn [sin set_locked] in *. change (fs s1) with (fs s) in *.
    exists (set_sin (grown x) n), f, bl', em. cbv zeta. split; [|split; [apply Hch|split; [|split; [done|split; [apply Hch|split; [|split]]]]]].
    + unfold ret. do 2 f_equal. unfold set_nodes, s2. simpl. f_equal. rewrite insert_insert_eq.
      rewrite (insert_insert_ne _ lnk h), insert_insert_eq by done. f_equal. destruct n; simpl in *; by rewrite Hlk.
    + constructor; [simpl; by rewrite lookup_insert_eq| |].
      * simpl. eapply map_ok_same; [apply Hch|done..].
      * simpl. rewrite (ex_type _ _ _ _ _ _ Hch). apply (da_type _ _ _ _ Hd).
    + simpl. by rewrite (ex_size _ _ _ _ _ _ Hch).
    + apply has_after; try done. rewrite Hl. f_equal.
      assert (Z.of_nat (length (entry_block (entry_bytes (ino (sin ln)) name))) = 4096) as -> by (apply entry_block_length; rewrite entry_bytes_length; lia). lia.
    + by eapply changes_kept.
Qed.

(** ** Removing an entry *)
Lemma find_node_same no s s' :
  inode_list s' = inode_list s -> (forall h, (ino ∘ sin) <$> nodes s' !! h = (ino ∘ sin) <$> nodes s !! h) -> find_node no s' = find_node no s.
Proof.
  intros Hl Hn. unfold find_node. rewrite Hl. f_equal. apply list_find_ext. intros h.
  specialize (Hn h). destruct (nodes s' !! h), (nodes s !! h); simpl in *; [|done..]. injection Hn as Hn. by rewrite Hn.
Qed.

Lemma find_node_Some no s h : find_node no s = Some h -> exists n, nodes s !! h = Some n /\ ino (sin n) = no.
Proof.
  unfold find_node. destruct (list_find _ _) as [[i k]|] eqn:E; [|done]. intros Hk. simplify_eq/=.
  apply list_find_Some in E as (_ & E & _). destruct (nodes s !! h) as [n|]; [|done]. exists n. split; [done|]. by apply Z.eqb_eq.
Qed.

(** The inode with one more reference. *)
Definition referenced (n : node) : node := set_counts (if ref_count n + 1 =? 1 then reclaim_count n + 1 else reclaim_count n) (ref_count n + 1) n.

Lemma load_found no s h n : find_node no s = Some h -> nodes s !! h = Some n ->
  sfs_load_inode no s = Ok ((0, Some h), set_nodes (<[h := referenced n]> (nodes s)) s).
Proof.
  intros Hf Hn. unfold sfs_load_inode.
  assert (E : lookup_sfs_nolock no s = Ok (Some h, set_nodes (<[h := referenced n]> (nodes s)) s)).
  { unfold lookup_sfs_nolock. rewrite Hf, (get_node_ok h n) by done. done. }
  by step E.
Qed.

Definition unlinked (x : sfs_inode) : sfs_inode := set_dirty true (set_din (fun d => set_nlinks ((nlinks d - 1) mod 65536) d) x).
Definition shrunk (x : sfs_inode) : sfs_inode := set_dirty true (set_din (fun d => set_size (u32 (size d - 256)) d) x).

Lemma zeros_block k : 0 <= k < 4096 -> default 0 (entry_block (replicate 260 0) !! Z.to_nat k) = 0.
Proof.
  intros Hk. destruct (entry_block (replicate 260 0) !! Z.to_nat k) as [z|] eqn:E; [|done]. apply list_elem_of_lookup_2 in E.
  unfold entry_block in E. apply elem_of_app in E as [E|E]; by apply elem_of_replicate in E as [-> _].
Qed.

(** The file type numbers of sfs never look like the mode of a directory. *)
Lemma type_not_mode t : t = SFS_TYPE_DIR \/ t = SFS_TYPE_FILE -> S_ISDIR t = false.
Proof. by intros [-> | ->]. Qed.

Lemma dirent_unlink_ok s h n bl slot lnk ln name no :
  fs_ok (fs s) -> dir_at s h n bl -> mallocs s = [] -> nodes s !! lnk = Some ln -> lnk <> h ->
  type (din (sin ln)) = SFS_TYPE_DIR \/ type (din (sin ln)) = SFS_TYPE_FILE ->
  has (fs s) bl slot name no -> ino (sin ln) = no -> name <> [46] -> name <> [46; 46] ->
  exists f, sfs_dirent_unlink_nolock h slot lnk s =
      Ok (0, Dst f (<[h := set_sin (shrunk (sin n)) n]> (<[lnk := set_sin (unlinked (sin ln)) ln]> (nodes s))) (next_node s) (inode_list s) []) /\
    changes (fs s) (sin n) bl f (sin n) bl /\ wrote (fs s) bl f bl (4096 * slot) (entry_block (replicate 260 0)).
Proof.
  intros H [Hn Hf Ht] Hm Hln Hne Hty (Hs & Hno & Hno0 & Hnm) Hino Hd1 Hd2.
  destruct (lookup_lt_is_Some_2 bl (Z.to_nat slot)) as [b Hb]; [lia|].
  pose proof (list_elem_of_lookup_2 _ _ _ Hb) as Hin. pose proof (data_used _ _ _ _ Hf Hin) as Hu. pose proof (used_pos _ _ H Hu).
  unfold sfs_dirent_unlink_nolock.
  assert (E0 : on_sin h (fun x f => sfs_bmap_get_nolock x slot false f) s = Ok ((0, b), s)).
  { apply on_sin_same with n; [done|]. apply bmap_get_old with bl; (done || lia). }
  step E0. change (0 =? 0) with true. cbn [negb]. step (kmalloc_ok s Hm).
  assert (E2 : on_fs (fun f => sfs_rbuf 260 b 0 f) s = Ok ((0, slice (block (fs s) b) 0 260), s)).
  { rewrite (on_fs_ok _ s (0, slice (block (fs s) b) 0 260) (fs s)), set_fs_id; [done|]. rewrite rbuf_ok; [done|apply H|done|unfold SFS_BLKSIZE; lia..]. }
  step E2. change (0 =? 0) with true. cbn [negb]. rewrite (slice_fbytes (fs s) bl slot), Z.add_0_r by (done || lia).
  change (entry_of (fbytes (fs s) bl (4096 * slot) 260)) with (entry_at (fs s) bl slot).
  destruct (entry_at (fs s) bl slot) as [no1 nm1]. cbn [fst snd] in *. subst no1. rewrite Hnm, !bool_decide_eq_false_2 by done.
  cbn [orb]. step (get_node_ok lnk ln s Hln). rewrite (proj2 (Z.eqb_eq no _)) by done. cbn [negb].
  assert (E1 : on_fs (fun f => sfs_clear_block b 1 f) s = Ok (0, set_fs (set_block b ∅ (fs s)) s)).
  { apply on_fs_ok. unfold sfs_clear_block. cbn [replicate sfs_wblock]. rewrite rw_write by (apply H || lia). done. }
  step E1. change (0 =? 0) with true. cbn [negb]. set (s1 := set_fs _ s).
  step (upd_sin_ok h n (set_din (fun d => set_size (u32 (size d - (SFS_MAX_FNAME_LEN + 1))) d)) s1 Hn). set (s2 := set_nodes _ s1).
  assert (Hl2 : nodes s2 !! lnk = Some ln) by (simpl; by rewrite lookup_insert_ne).
  step (upd_sin_ok lnk ln (set_din (fun d => set_nlinks ((nlinks d - 1) mod 65536) d)) s2 Hl2). set (s3 := set_nodes _ s2).
  set (ln3 := set_sin (set_din (fun d => set_nlinks ((nlinks d - 1) mod 65536) d) (sin ln)) ln).
  assert (Hl3 : nodes s3 !! lnk = Some ln3) by (simpl; by rewrite lookup_insert_eq).
  step (get_node_ok lnk ln3 s3 Hl3). change (type (din (sin ln3))) with (type (din (sin ln))). rewrite type_not_mode by done.
  rewrite (bind_Ok _ _ s3 tt s3) by done. step (upd_sin_ok lnk ln3 (set_dirty true) s3 Hl3). set (s4 := set_nodes _ s3).
  set (n4 := set_sin (set_din (fun d => set_size (u32 (size d - (SFS_MAX_FNAME_LEN + 1))) d) (sin n)) n).
  assert (Hn4 : nodes s4 !! h = Some n4) by (simpl; rewrite !lookup_insert_ne by done; by rewrite lookup_insert_eq).
  step (upd_sin_ok h n4 (set_dirty true) s4 Hn4). exists (set_block b ∅ (fs s)). split; [|split].
  - unfold ret. do 2 f_equal. unfold set_nodes, s4, s3, s2, s1, set_nodes, set_fs. simpl. rewrite Hm. f_equal.
    rewrite insert_insert_eq, (insert_insert_ne _ lnk h), insert_insert_eq by done. done.
  - by apply changes_set.
  - rewrite <- (Z.add_0_r (4096 * slot)). pose proof (entry_block_length (replicate 260 0)) as Hz. rewrite length_replicate in Hz.
    apply wrote_patch with (sin n); [done|done|lia|lia|lia|].
    intros k Hk. rewrite patch_byte, decide_True by lia. rewrite Z.sub_0_r, zeros_block by done. unfold byte. by rewrite lookup_empty.
Qed.

(** No two entries have the same name. *)
Definition uniq (f : sfs) (bl : list Z) : Prop := forall i j name no no', has f bl i name no -> has f bl j name no' -> i = j.

Lemma has_fun f bl j name name' no no' : has f bl j name no -> has f bl j name' no' -> name = name' /\ no = no'.
Proof. intros (_ & <- & _ & <-) (_ & <- & _ & <-). done. Qed.

Lemma entry_zero : fst (entry_of (replicate 260 0)) = 0.
Proof. reflexivity. Qed.

Lemma has_removed f bl f' slot :
  wrote f bl f' bl (4096 * slot) (entry_block (replicate 260 0)) -> 0 <= slot ->
  forall j nm no, has f' bl j nm no <-> has f bl j nm no /\ j <> slot.
Proof.
  intros Hw Hs j nm no. unfold has. destruct (decide (0 <= j)) as [Hj|Hj]; [|lia].
  rewrite (entry_after f bl f' bl slot _ j Hw) by (apply length_replicate || done). destruct (Z.eqb_spec j slot) as [->|Hne]; [|tauto].
  rewrite entry_zero. split; [intros (_ & <- & ? & _)|intros [_ ?]]; done.
Qed.

Lemma unlink_spec s h n bl name slot no lnk ln :
  fs_ok (fs s) -> dir_at s h n bl -> locked n = false -> mallocs s = [] -> uniq (fs s) bl ->
  has (fs s) bl slot name no -> Z.of_nat (length name) <= 255 -> name <> [46] -> name <> [46; 46] ->
  find_node no s = Some lnk -> nodes s !! lnk = Some ln -> lnk <> h ->
  type (din (sin ln)) = SFS_TYPE_DIR \/ type (din (sin ln)) = SFS_TYPE_FILE ->
  exists f, let s' := Dst f (<[h := set_sin (shrunk (sin n)) n]> (<[lnk := set_sin (unlinked (sin ln)) (referenced ln)]> (nodes s))) (next_node s) (inode_list s) [] in
    sfs_unlink h name s = Ok (0, s') /\ fs_ok f /\ dir_at s' h (set_sin (shrunk (sin n)) n) bl /\ uniq f bl /\
    (forall j nm no', has f bl j nm no' <-> has (fs s) bl j nm no' /\ nm <> name) /\ others_kept (fs s) (sin n) bl f.
Proof.
  intros H Hd Hlk Hm Huq Hh Hlen Hd1 Hd2 Hfind Hln Hne Hty. pose proof (da_node _ _ _ _ Hd) as Hn. unfold sfs_unlink. step (lock_ok h n s Hn Hlk).
  set (s1 := set_nodes _ s). pose proof (dir_at_locked s h n bl true Hd) as Hd'. fold s1 in Hd'.
  destruct (dirent_search_spec s1 h _ bl name H Hd' Hm Hlen) as (r & no1 & slot1 & em & E & Hr). step E. cbn [fst snd]. change (fs s1) with (fs s) in Hr.
  destruct Hr as [(-> & Hh1)|(-> & Hno & _)]; [|by apply Hno in Hh].
  assert (slot1 = slot) as -> by (exact (Huq _ _ _ _ _ Hh1 Hh)). destruct (has_fun _ _ _ _ _ _ _ Hh Hh1) as [_ <-]. change (0 =? 0) with true. cbn [negb].
  assert (Hfind1 : find_node no s1 = Some lnk).
  { rewrite <- Hfind. apply find_node_same; [done|]. intros k. simpl. destruct (decide (k = h)) as [->|]; [by rewrite lookup_insert_eq, Hn|by rewrite lookup_insert_ne]. }
  assert (Hln1 : nodes s1 !! lnk = Some ln) by (simpl; by rewrite lookup_insert_ne).
  step (load_found no s1 lnk ln Hfind1 Hln1). set (s2 := set_nodes _ s1).
  assert (Hd2' : dir_at s2 h (set_locked true n) bl) by (constructor; [simpl; rewrite lookup_insert_ne, lookup_insert_eq by done; done|apply Hd|apply Hd]).
  assert (Hln2 : nodes s2 !! lnk = Some (referenced ln)) by (simpl; by rewrite lookup_insert_eq).
  pose proof (find_node_Some _ _ _ Hfind) as (ln' & Hln' & Hino). rewrite Hln in Hln'. injection Hln' as <-.
  destruct (dirent_unlink_ok s2 h _ bl slot lnk _ name no H Hd2' Hm Hln2 Hne Hty Hh Hino Hd1 Hd2) as (f & E3 & Hch & Hw).
  step E3. set (s3 := Dst f _ _ _ _). assert (Hn3 : nodes s3 !! h = Some (set_sin (shrunk (sin n)) (set_locked true n))) by (simpl; by rewrite lookup_insert_eq).
  step (unlock_ok h _ s3 Hn3). change (0 =? 0) with true. cbn [negb]. pose proof (has_removed (fs s) bl f slot Hw ltac:(destruct Hh; lia)) as Hrem.
  assert (Hiff : forall j nm no', has f bl j nm no' <-> has (fs s) bl j nm no' /\ nm <> name).
  { intros j nm no'. rewrite Hrem. split; intros [Ha Hb]; (split; [done|]).
    - intros ->. apply Hb. exact (Huq _ _ _ _ _ Ha Hh).
    - intros ->. apply Hb. exact (proj1 (has_fun _ _ _ _ _ _ _ Ha Hh)). }
  exists f. cbv zeta. split; [|split; [apply Hch|split; [|split; [|split; [done|by eapply changes_kept]]]]].
  - unfold ret. do 2 f_equal. unfold set_nodes, s3. simpl. f_equal. rewrite insert_insert_eq. unfold s2, s1, set_nodes. simpl.
    rewrite insert_insert_eq. rewrite (insert_insert_ne _ lnk h), insert_insert_eq by done. f_equal. destruct n; simpl in *; by rewrite Hlk.
  - constructor; [simpl; by rewrite lookup_insert_eq| |apply Hd]. simpl. eapply map_ok_same; [apply Hch|done..].
  - intros i j nm n1 n2 Hi Hj. apply Hiff in Hi as [Hi _], Hj as [Hj _]. exact (Huq _ _ _ _ _ Hi Hj).
Qed.

Lemma unlink_absent s h n bl name :
  fs_ok (fs s) -> dir_at s h n bl -> locked n = false -> mallocs s = [] -> Z.of_nat (length name) <= 255 ->
  (forall j no, ~ has (fs s) bl j name no) -> sfs_unlink h name s = Ok (- E_NOENT, s).
Proof.
  intros H Hd Hlk Hm Hlen Hno. pose proof (da_node _ _ _ _ Hd) as Hn. unfold sfs_unlink. step (lock_ok h n s Hn Hlk).
  set (s1 := set_nodes _ s). pose proof (dir_at_locked s h n bl true Hd) as Hd'. fold s1 in Hd'.
  destruct (dirent_search_spec s1 h _ bl name H Hd' Hm Hlen) as (r & no1 & slot1 & em & E & Hr). step E. cbn [fst snd].
  destruct Hr as [(-> & Hh1)|(-> & _)]; [by apply Hno in Hh1|]. change (negb (- E_NOENT =? 0)) with true. cbv iota.
  step (unlock_locked h n s Hn Hlk). done.
Qed.

(** ** Creating a file *)
Lemma alloc_keeps f b f' y cl :
  fs_ok f -> sfs_block_alloc f = Ok (0, b, f') -> map_ok f y cl ->
  fs_ok f' /\ blocks f' = blocks f /\ nfree f = nfree f' + 1 /\ used f' b /\ first_data f' <= b /\ b ∉ own y cl /\ block f' b = ∅ /\
  map_ok f' y cl /\ (forall p, 0 <= p -> fbyte f' cl p = fbyte f cl p).
Proof.
  intros H Ha Hy. destruct (sfs_block_alloc_ok f H) as [[_ E]|(b' & f1 & E & H1 & Hbk & Hb & Hfb & Hu & Hnf & Hbits & Hz & Hsame)]; rewrite Ha in E; simplify_eq.
  assert (Hk : forall c, used f c -> used f1 c /\ block f1 c = block f c).
  { intros c Hc. pose proof (used_pos _ _ H Hc). assert (c <> b') by (intros ->; destruct Hc; congruence).
    split; [split; [rewrite (first_data_blocks _ _ Hbk), Hbk; apply Hc|rewrite Hbits, decide_False by (done || lia); apply Hc]|].
    apply Hsame; [apply Hc|by rewrite list_elem_of_singleton]. }
  destruct (map_kept f f1 y cl Hbk Hy) as [Hm Hp]; [intros c Hc; apply Hk; by apply Hy|].
  split_and!; try done; [rewrite (first_data_blocks _ _ Hbk); lia|]. intros Hin. apply (fk_used _ _ _ Hy) in Hin. destruct Hin. congruence.
Qed.

Lemma has_same f f' bl : (forall p, 0 <= p -> fbyte f' bl p = fbyte f bl p) -> forall j nm no, has f' bl j nm no <-> has f bl j nm no.
Proof.
  intros Hp j nm no. unfold has. destruct (decide (0 <= j)); [|lia]. assert (entry_at f' bl j = entry_at f bl j) as ->; [|done].
  unfold entry_at. f_equal. apply list_fmap_ext. intros k z Hz. apply lookup_seqZ in Hz as [-> Hz]. apply Hp. lia.
Qed.

Definition zero_din (t : Z) : sfs_disk_inode := Din 0 t 0 0 (replicate 12 0) 0.

Lemma empty_map_ok f no t links d sz : used f no -> map_ok f (Sin (Din sz t links 0 (replicate 12 0) 0) no d) [].
Proof.
  intros Hu. constructor; try done.
  - intros i Hi. unfold fblk. cbn [din indirect]. destruct (Z.ltb_spec i 12) as [Hlt|]; [|done]. unfold direct_at. cbn [direct].
    rewrite lookup_replicate_2 by lia. done.
  - intros b Hb. by apply list_elem_of_singleton in Hb as ->.
  - intros b Hb Hne. by apply list_elem_of_singleton in Hb as ->.
  - apply NoDup_singleton.
Qed.

Lemma create_sub_ok s no t :
  fs_ok (fs s) -> used (fs s) no -> block (fs s) no = ∅ -> mallocs s = [] -> t = SFS_TYPE_DIR \/ t = SFS_TYPE_FILE ->
  sfs_create_sub_nolock no t s =
    Ok ((0, Some (next_node s)), Dst (fs s) (<[next_node s := Node (Sin (zero_din t) no true) false 1 1 0]> (nodes s)) (S (next_node s)) (next_node s :: inode_list s) []).
Proof.
  intros H Hu Hz Hm Ht. pose proof (used_pos _ _ H Hu). unfold sfs_create_sub_nolock. step (kmalloc_ok s Hm).
  assert (E : on_fs (fun f => sfs_rbuf 64 no 0 f) s = Ok ((0, slice ∅ 0 64), s)).
  { rewrite (on_fs_ok _ s (0, slice ∅ 0 64) (fs s)), set_fs_id; [done|]. rewrite rbuf_ok; [by rewrite Hz|apply H|done|unfold SFS_BLKSIZE; lia..]. }
  step E. change (0 =? 0) with true. cbn [negb]. change (direct (din_of_bytes (slice ∅ 0 64))) with (replicate 12 0).
  change (indirect (din_of_bytes (slice ∅ 0 64))) with 0. fold (zero_din t).
  assert (E2 : sfs_create_inode (zero_din t) no s =
    Ok (Some (next_node s), Dst (fs s) (<[next_node s := Node (Sin (zero_din t) no false) false 1 1 0]> (nodes s)) (S (next_node s)) (inode_list s) (mallocs s))).
  { unfold sfs_create_inode. step (kmalloc_ok s Hm). rewrite (bind_Ok _ _ s tt s) by (by destruct Ht as [-> | ->]). done. }
  step E2. set (s1 := Dst _ _ _ _ _). assert (Hn : nodes s1 !! next_node s = Some (Node (Sin (zero_din t) no false) false 1 1 0)) by (simpl; by rewrite lookup_insert_eq).
  step (upd_sin_ok (next_node s) _ (set_dirty true) s1 Hn). unfold sfs_set_links, bind, ret, set_inode_list, set_nodes, s1. simpl. by rewrite insert_insert_eq, Hm.
Qed.

Definition new_file (no : Z) : sfs_inode := Sin (Din 0 SFS_TYPE_FILE 1 0 (replicate 12 0) 0) no true.

Lemma create_file_spec junk s h n bl name excl :
  fs_ok (fs s) -> dir_at s h n bl -> locked n = false -> mallocs s = [] -> nodes s !! next_node s = None ->
  name_ok name -> Z.of_nat (length bl) < 1036 -> 3 <= nfree (fs s) -> (forall j no, ~ has (fs s) bl j name no) ->
  exists n' f bl' slot no, let new := next_node s in
    let s' := Dst f (<[h := n']> (<[new := Node (new_file no) false 1 1 0]> (nodes s))) (S new) (new :: inode_list s) [] in
    sfs_create junk h name excl s = Ok ((0, Some new), s') /\ fs_ok f /\ dir_at s' h n' bl' /\ locked n' = false /\
    file_ok f (new_file no) [] /\ free_bit (freemap (fs s)) no = true /\
    (forall j nm k, has f bl' j nm k <-> (j = slot /\ nm = name /\ k = no) \/ has (fs s) bl j nm k) /\
    others_kept (fs s) (sin n) bl f.
Proof.
  intros H Hd Hlk Hm Hfresh Hname Hmax Hfree Hno. pose proof (da_node _ _ _ _ Hd) as Hn. unfold sfs_create. step (lock_ok h n s Hn Hlk).
  assert (Hnh : next_node s <> h) by congruence.
  set (s1 := set_nodes _ s). pose proof (dir_at_locked s h n bl true Hd) as Hd1. fold s1 in Hd1.
  destruct (dirent_search_spec s1 h _ bl name H Hd1 Hm ltac:(apply Hname)) as (r & no0 & slot & em & E & Hr). step E. cbn [fst snd].
  destruct Hr as [(_ & Hh)|(-> & _ & Hem & Hz)]; [by apply Hno in Hh|]. rewrite Z.eqb_refl. cbn [negb].
  destruct (sfs_block_alloc_ok (fs s) H) as [[? _]|(no & f1 & Ea & H1 & _ & Hb1 & Hfb & _)]; [lia|].
  destruct (alloc_keeps (fs s) no f1 (sin n) bl H Ea (da_map _ _ _ _ Hd)) as (_ & Hbk & Hnf & Hu & Harea & Hnotin & Hzero & Hmap1 & Hp1).
  step (on_fs_ok sfs_block_alloc s1 (0, no) f1 Ea). change (0 =? 0) with true. cbn [negb]. set (s2 := set_fs f1 s1).
  step (ask_fs_ok (fun f => assert_inuse f no) s2 tt (assert_inuse_ok _ _ H1 Hu)).
  step (create_sub_ok s2 no SFS_TYPE_FILE H1 Hu Hzero Hm ltac:(by right)). set (new := next_node s2). set (s3 := Dst _ _ _ _ _).
  assert (Hd3 : dir_at s3 h (set_locked true n) bl).
  { constructor; [simpl; rewrite lookup_insert_ne, lookup_insert_eq by done; done|exact Hmap1|apply Hd]. }
  assert (Hln : nodes s3 !! new = Some (Node (Sin (zero_din SFS_TYPE_FILE) no true) false 1 1 0)) by (simpl; by rewrite lookup_insert_eq).
  pose proof (used_pos _ _ H1 Hu) as Hnp. pose proof (fo_bits _ H1) as Hbits. pose proof (own_length (sin n) bl) as Hol.
  destruct (dirent_link_ok s3 h _ bl em new _ name H1 Hd3 eq_refl Hln Hnh Hem ltac:(lia)) as (x & f & bl' & E4 & (Hch & Hw & Hl)).
  { cbn [sin set_locked fs s3 s2 set_fs]. zcase_in Hol; lia. }
  step E4. change (0 =? 0) with true. cbn [negb]. set (s4 := Dst f _ _ _ _). cbn [sin set_locked ino] in *. change (fs s3) with f1 in *.
  assert (Hn4 : nodes s4 !! h = Some (set_sin (grown x) (set_locked true n))) by (simpl; by rewrite lookup_insert_eq).
  step (unlock_ok h _ s4 Hn4). exists (set_sin (grown x) n), f, bl', em, no. cbv zeta.
  split; [|split; [apply Hch|split; [|split; [done|split; [|split; [done|split]]]]]].
  - unfold ret. do 2 f_equal. unfold set_nodes, s4, s3. simpl. f_equal. rewrite insert_insert_eq.
    rewrite insert_insert_eq, (insert_insert_ne _ _ h), insert_insert_eq by done. f_equal. destruct n; simpl in *; by rewrite Hlk.
  - constructor; [simpl; by rewrite lookup_insert_eq| |].
    + simpl. eapply map_ok_same; [apply Hch|done..].
    + simpl. rewrite (ex_type _ _ _ _ _ _ Hch). apply (da_type _ _ _ _ Hd).
  - split; [|split; [simpl; lia|done]]. apply empty_map_ok. by destruct (ex_frame _ _ _ _ _ _ Hch no Hu Hnotin) as (? & _ & _).
  - intros j nm k. rewrite (has_after f1 bl f bl' em name no); [by rewrite (has_same (fs s) f1 bl Hp1)|done|done| |lia|done|].
    + rewrite Hl. f_equal. rewrite entry_block_length by (rewrite entry_bytes_length; lia). lia.
    + intros Hlt. specialize (Hz Hlt). rewrite <- Hz. f_equal. unfold entry_at. f_equal. apply list_fmap_ext. intros k' z Hz'. apply lookup_seqZ in Hz' as [-> Hz']. apply Hp1. lia.
  - intros y cl Hy Hdis. destruct (alloc_keeps (fs s) no f1 y cl H Ea Hy) as (_ & _ & _ & _ & _ & _ & _ & Hy1 & Hpy).
    destruct (changes_kept _ _ _ _ _ _ H1 Hch y cl Hy1 Hdis) as [Hy2 Hpy2]. split; [done|]. intros p Hp. by rewrite Hpy2, Hpy.
Qed.

(** ** A name that is already there *)
Lemma mkdir_exists s h n bl name slot no :
  fs_ok (fs s) -> dir_at s h n bl -> locked n = false -> mallocs s = [] -> Z.of_nat (length name) <= 255 -> has (fs s) bl slot name no ->
  sfs_mkdir h name s = Ok (- E_EXISTS, set_nodes (<[h := set_locked true n]> (nodes s)) s).
Proof.
  intros H Hd Hlk Hm Hlen Hh. pose proof (da_node _ _ _ _ Hd) as Hn. unfold sfs_mkdir. step (lock_ok h n s Hn Hlk).
  set (s1 := set_nodes _ s). pose proof (dir_at_locked s h n bl true Hd) as Hd1. fold s1 in Hd1.
  destruct (dirent_search_spec s1 h _ bl name H Hd1 Hm Hlen) as (r & no0 & slot0 & em & E & Hr). step E. cbn [fst snd].
  destruct Hr as [(-> & _)|(_ & Hno & _)]; [done|by apply Hno in Hh].
Qed.

Lemma locked_blocks s h n : nodes s !! h = Some n -> locked n = true ->
  (forall name, sfs_lookup_once h name s = Spin) /\ (forall name, sfs_mkdir h name s = Spin) /\
  (forall name lnk, sfs_link h name lnk s = Spin) /\ (forall name, sfs_unlink h name s = Spin) /\
  (forall junk name excl, sfs_create junk h name excl s = Spin).
Proof.
  intros Hn Hl. assert (E : forall B (k : unit -> M B), bind (lock_sin h) k s = Spin).
  { intros B k. unfold bind, lock_sin. rewrite (bind_Ok _ _ _ _ _ (get_node_ok h n s Hn)), Hl. done. }
  split_and!; intros; apply E.
Qed.

(** ** Path lookup *)
Definition add_ref (h : nat) (k : Z) (s : dst) : dst :=
  set_nodes (alter (fun n => set_counts (reclaim_count n) (ref_count n + k) n) h (nodes s)) s.

(** Every loaded inode is referenced and unlocked. *)
Definition held (s : dst) : Prop := forall h n, nodes s !! h = Some n -> 1 <= ref_count n /\ locked n = false.

Lemma counts_id n : set_counts (reclaim_count n) (ref_count n + 0) n = n.
Proof. destruct n. unfold set_counts. simpl. by rewrite Z.add_0_r. Qed.

Lemma set_nodes_eq s m : m = nodes s -> set_nodes m s = s.
Proof. intros ->. by destruct s. Qed.

Lemma add_ref_lookup h k s j :
  nodes (add_ref h k s) !! j =
    if decide (j = h) then (fun n => set_counts (reclaim_count n) (ref_count n + k) n) <$> nodes s !! j else nodes s !! j.
Proof. unfold add_ref. simpl. destruct (decide (j = h)) as [->|]; [by rewrite lookup_alter_eq|by rewrite lookup_alter_ne]. Qed.

(** A reference taken on [b] while one is given back on [a]. *)
Lemma add_ref_move a b s : add_ref a (-1) (add_ref b 1 (add_ref a 1 s)) = add_ref b 1 s.
Proof.
  assert (E : nodes (add_ref a (-1) (add_ref b 1 (add_ref a 1 s))) = nodes (add_ref b 1 s)).
  { apply map_eq. intros j. rewrite !add_ref_lookup.
    destruct (nodes s !! j) as [nd|]; [|by destruct (decide (j = a)), (decide (j = b))].
    destruct (decide (j = a)), (decide (j = b)); simpl; try done; f_equal; destruct nd; unfold set_counts; simpl; f_equal; lia. }
  unfold add_ref in *. simpl in E. unfold set_nodes. simpl. by rewrite E.
Qed.

Lemma ref_dec_ok h n s : nodes s !! h = Some n -> 2 <= ref_count n -> vop_ref_dec h s = Ok (ref_count n - 1, add_ref h (-1) s).
Proof.
  intros Hn Hr. unfold vop_ref_dec. step (get_node_ok h n s Hn).
  rewrite (bind_Ok _ _ s tt s) by (unfold massert; rewrite Z.gtb_ltb, (proj2 (Z.ltb_lt _ _)); [done|lia]).
  rewrite (bind_Ok (put_node h _) _ s tt _ eq_refl). cbv beta. rewrite (proj2 (Z.eqb_neq _ _)) by lia. unfold ret. do 2 f_equal.
  unfold add_ref, set_nodes. f_equal. apply map_eq. intros j. destruct (decide (j = h)) as [->|].
  - by rewrite lookup_insert_eq, lookup_alter_eq, Hn.
  - by rewrite lookup_insert_ne, lookup_alter_ne.
Qed.

Lemma ref_inc_ok h n s : nodes s !! h = Some n -> vop_ref_inc h s = Ok (ref_count n + 1, add_ref h 1 s).
Proof.
  intros Hn. unfold vop_ref_inc. step (get_node_ok h n s Hn). rewrite (bind_Ok (put_node h _) _ s tt _ eq_refl). unfold ret. do 2 f_equal.
  unfold add_ref, set_nodes. f_equal. apply map_eq. intros j. destruct (decide (j = h)) as [->|].
  - by rewrite lookup_insert_eq, lookup_alter_eq, Hn.
  - by rewrite lookup_insert_ne, lookup_alter_ne.
Qed.

Lemma referenced_add h n s : nodes s !! h = Some n -> 1 <= ref_count n -> set_nodes (<[h := referenced n]> (nodes s)) s = add_ref h 1 s.
Proof.
  intros Hn Hr. unfold add_ref, set_nodes. f_equal. apply map_eq. intros j. destruct (decide (j = h)) as [->|].
  - rewrite lookup_insert_eq, lookup_alter_eq, Hn. simpl. unfold referenced. by rewrite (proj2 (Z.eqb_neq _ _)) by lia.
  - by rewrite lookup_insert_ne, lookup_alter_ne.
Qed.

(** One step of a path: entry [name] of directory [h] is inode [h']. *)
Definition child (s : dst) (h : nat) (name : list Z) (h' : nat) : Prop :=
  exists n bl slot no, dir_at s h n bl /\ uniq (fs s) bl /\ has (fs s) bl slot name no /\ find_node no s = Some h' /\
    Z.of_nat (length name) <= 255 /\ 47 ∉ name /\ name <> [].

Lemma lookup_once_ok s h name h' : fs_ok (fs s) -> mallocs s = [] -> held s -> child s h name h' ->
  sfs_lookup_once h name s = Ok ((0, Some h'), add_ref h' 1 s).
Proof.
  intros H Hm Hheld (n & bl & slot & no & Hd & Huq & Hh & Hfind & Hlen & _). pose proof (da_node _ _ _ _ Hd) as Hn.
  destruct (Hheld h n Hn) as [_ Hlk]. unfold sfs_lookup_once. step (lock_ok h n s Hn Hlk).
  set (s1 := set_nodes _ s). pose proof (dir_at_locked s h n bl true Hd) as Hd1. fold s1 in Hd1.
  destruct (dirent_search_spec s1 h _ bl name H Hd1 Hm Hlen) as (r & no0 & slot0 & em & E & Hr). step E. cbn [fst snd].
  destruct Hr as [(-> & Hh0)|(_ & Hno & _)]; [|by apply Hno in Hh].
  assert (slot0 = slot) as -> by (exact (Huq _ _ _ _ _ Hh0 Hh)). destruct (has_fun _ _ _ _ _ _ _ Hh Hh0) as [_ <-].
  step (unlock_locked h n s Hn Hlk). change (0 =? 0) with true. cbv iota.
  destruct (find_node_Some _ _ _ Hfind) as (n' & Hn' & _). rewrite (load_found no s h' n' Hfind Hn').
  rewrite referenced_add; [done|done|]. by destruct (Hheld h' n' Hn').
Qed.

Lemma add_ref_held h s : held s -> held (add_ref h 1 s).
Proof.
  intros Hheld j n Hj. rewrite add_ref_lookup in Hj. destruct (decide (j = h)) as [->|]; [|exact (Hheld j n Hj)].
  destruct (nodes s !! h) as [m|] eqn:E; [|done]. simplify_eq/=. destruct (Hheld h m E). split; [lia|done].
Qed.

Lemma child_add_ref s a h name h' : child s h name h' -> child (add_ref a 1 s) h name h'.
Proof.
  intros (n & bl & slot & no & [Hn Hf Ht] & Huq & Hh & Hfind & Hrest).
  exists (if decide (h = a) then set_counts (reclaim_count n) (ref_count n + 1) n else n), bl, slot, no.
  split; [constructor; [rewrite add_ref_lookup, Hn; by destruct (decide _)|by destruct (decide _)|by destruct (decide _)]|].
  split; [done|]. split; [done|]. split; [|done]. rewrite <- Hfind. apply find_node_same; [done|].
  intros j. rewrite add_ref_lookup. destruct (decide (j = a)); [|done]. by destruct (nodes s !! j).
Qed.

(** [names], separated by slashes, with a slash after the last one when [tail]. *)
Fixpoint path_of (names : list (list Z)) (tail : bool) : list Z :=
  match names with
  | [] => []
  | [a] => a ++ (if tail then [47] else [])
  | a :: rest => a ++ 47 :: path_of rest tail
  end.

Inductive walk (s : dst) : nat -> list (list Z) -> nat -> Prop :=
| walk_one h a h' : child s h a h' -> walk s h [a] h'
| walk_more h a h1 names h' : child s h a h1 -> walk s h1 names h' -> walk s h (a :: names) h'.

Lemma split_slash_app a rest : 47 ∉ a -> split_slash (a ++ 47 :: rest) = (a, Some rest).
Proof.
  induction a as [|c a IH]; intros Ha; simpl; [done|]. apply not_elem_of_cons in Ha as [Hc Ha].
  rewrite (proj2 (Z.eqb_neq c 47)) by congruence. by rewrite IH.
Qed.
Lemma split_slash_none a : 47 ∉ a -> split_slash a = (a, None).
Proof.
  induction a as [|c a IH]; intros Ha; simpl; [done|]. apply not_elem_of_cons in Ha as [Hc Ha].
  rewrite (proj2 (Z.eqb_neq c 47)) by congruence. by rewrite IH.
Qed.

Lemma walk_names s h names h' : walk s h names h' -> names <> [] /\ Forall (fun a => a <> [] /\ 47 ∉ a) names.
Proof.
  assert (Hc : forall a b c, child s a b c -> b <> [] /\ 47 ∉ b) by (intros a b c (? & ? & ? & ? & _ & _ & _ & _ & _ & ? & ?); done).
  induction 1 as [h a h' H|h a h1 names h' H _ [_ IH]]; (split; [done|]); constructor; eauto.
Qed.

Lemma path_head names tail : names <> [] -> Forall (fun a => a <> [] /\ 47 ∉ a) names -> exists c l, path_of names tail = c :: l /\ c <> 47.
Proof.
  intros Hne Hf. destruct names as [|a rest]; [done|]. inversion Hf as [|? ? [Ha Ha47] _]; subst. destruct a as [|c a]; [done|].
  apply not_elem_of_cons in Ha47 as [Hc _]. destruct rest; simpl; eexists c, _; (split; [done|congruence]).
Qed.

(** What a round of the path loop sees. *)
Lemma subpath_of a rest tail : 47 ∉ a -> Forall (fun a => a <> [] /\ 47 ∉ a) rest ->
  sfs_lookup_subpath (path_of (a :: rest) tail) = (a, match rest with [] => None | _ => Some (path_of rest tail) end).
Proof.
  intros Ha Hr. unfold sfs_lookup_subpath. destruct rest as [|b rest].
  - cbn [path_of]. destruct tail; [by rewrite split_slash_app|]. by rewrite app_nil_r, split_slash_none.
  - change (path_of (a :: b :: rest) tail) with (a ++ 47 :: path_of (b :: rest) tail). rewrite split_slash_app by done.
    destruct (path_head (b :: rest) tail) as (c & l & -> & _); done.
Qed.

Lemma path_length names tail : Forall (fun a => a <> [] /\ 47 ∉ a) names -> (length names <= length (path_of names tail))%nat.
Proof.
  induction 1 as [|a names [Ha _] _ IH]; [done|]. destruct a as [|c a]; [done|]. destruct names as [|b names]; [simpl; lia|].
  change (path_of ((c :: a) :: b :: names) tail) with ((c :: a) ++ 47 :: path_of (b :: names) tail). rewrite length_app. cbn [length] in *. lia.
Qed.

Lemma child_node s h name h' : child s h name h' -> exists n, nodes s !! h = Some n /\ type (din (sin n)) = SFS_TYPE_DIR.
Proof. intros (n & bl & slot & no & [Hn _ Ht] & _). by exists n. Qed.

Lemma child_name s h name h' : child s h name h' -> 47 ∉ name.
Proof. by intros (? & ? & ? & ? & _ & _ & _ & _ & _ & ? & _). Qed.

(** A round: the child is referenced and the directory given back. *)
Lemma round_ok s h a h' : fs_ok (fs s) -> mallocs s = [] -> held s -> child s h a h' ->
  sfs_lookup_once h a (add_ref h 1 s) = Ok ((0, Some h'), add_ref h' 1 (add_ref h 1 s)) /\
  exists k, vop_ref_dec h (add_ref h' 1 (add_ref h 1 s)) = Ok (k, add_ref h' 1 s).
Proof.
  intros H Hm Hheld Hc. split; [apply lookup_once_ok; [done|done|by apply add_ref_held|by apply child_add_ref]|].
  destruct (child_node _ _ _ _ Hc) as (n & Hn & _). destruct (Hheld h n Hn) as [Hr _].
  assert (exists m, nodes (add_ref h' 1 (add_ref h 1 s)) !! h = Some m /\ 2 <= ref_count m) as (m & Hm' & Hr').
  { rewrite !add_ref_lookup, Hn, (decide_True (P := h = h)) by done. destruct (decide (h = h')); simpl; eexists; (split; [done|simpl; lia]). }
  exists (ref_count m - 1). rewrite (ref_dec_ok h m) by done. by rewrite add_ref_move.
Qed.

Lemma lookup_from_ok s h names h' tail : walk s h names h' -> fs_ok (fs s) -> mallocs s = [] -> held s ->
  forall n, (length names <= n)%nat -> lookup_from n h (path_of names tail) (add_ref h 1 s) = Ok ((0, Some h'), add_ref h' 1 s).
Proof.
  intros Hw H Hm Hheld. induction Hw as [h a h' Hc|h a h1 names h' Hc Hw IH]; intros [|n] Hn; try (simpl in Hn; lia); cbn [lookup_from].
  - destruct (child_node _ _ _ _ (child_add_ref s h h a h' Hc)) as (nd & Hnd & Ht). step (get_node_ok h nd _ Hnd). rewrite Ht.
    change (SFS_TYPE_DIR =? SFS_TYPE_DIR) with true. cbn [negb]. rewrite subpath_of by (constructor || by eapply child_name). cbv iota.
    destruct (round_ok s h a h' H Hm Hheld Hc) as [E1 [k E2]]. step E1. step E2. done.
  - destruct (child_node _ _ _ _ (child_add_ref s h h a h1 Hc)) as (nd & Hnd & Ht). step (get_node_ok h nd _ Hnd). rewrite Ht.
    change (SFS_TYPE_DIR =? SFS_TYPE_DIR) with true. cbn [negb]. destruct (walk_names _ _ _ _ Hw) as [Hne Hf].
    rewrite subpath_of by (done || by eapply child_name). cbv iota.
    destruct (round_ok s h a h1 H Hm Hheld Hc) as [E1 [k E2]]. step E1. step E2. destruct names as [|b names]; [done|]. apply IH. simpl in *. lia.
Qed.

Lemma path_check_ok s h names h' tail : walk s h names h' -> path_check (path_of names tail) s = Ok (tt, s).
Proof.
  intros Hw. destruct (walk_names _ _ _ _ Hw) as [Hne Hf]. destruct (path_head names tail Hne Hf) as (c & l & -> & Hc).
  unfold path_check. rewrite (proj2 (Z.eqb_neq c 47)) by done. done.
Qed.

(** ** Claims *)

(** looking up a path whose components are entries of the directories on
    the way returns the inode it names, whatever directories it passes, and
    takes exactly one reference, on that inode; a slash at the end is ignored. *)
Theorem sfs_lookup_correct s h names h' tail :
  walk s h names h' -> fs_ok (fs s) -> mallocs s = [] -> held s ->
  sfs_lookup h (path_of names tail) s = Ok ((0, Some h'), add_ref h' 1 s).
Proof.
  intros Hw H Hm Hheld. unfold sfs_lookup. step (path_check_ok s h names h' tail Hw).
  assert (exists n, nodes s !! h = Some n) as (n & Hn) by (destruct Hw as [? ? ? Hc|? ? ? ? ? Hc _]; destruct (child_node _ _ _ _ Hc) as (n & ? & _); by exists n).
  step (ref_inc_ok h n s Hn). destruct (walk_names _ _ _ _ Hw) as [_ Hf].
  apply lookup_from_ok; try done. pose proof (path_length names tail Hf). lia.
Qed.

(** C15: a directory behaves as a finite map from names to inode numbers:
    linking a name that is there reports -E_EXISTS and changes nothing,
    linking another one adds exactly that name, counts the link in the inode
    and leaves every other entry and every other file alone. *)
Theorem sfs_link_correct s h n bl lnk ln name :
  fs_ok (fs s) -> dir_at s h n bl -> locked n = false -> mallocs s = [] -> nodes s !! lnk = Some ln -> lnk <> h ->
  name_ok name -> 0 < ino (sin ln) < 2 ^ 32 -> Z.of_nat (length bl) < 1036 -> 2 <= nfree (fs s) ->
  ((exists j no, has (fs s) bl j name no) /\ sfs_link h name lnk s = Ok (- E_EXISTS, s)) \/
  ((forall j no, ~ has (fs s) bl j name no) /\ exists n' f bl' slot,
    let s' := Dst f (<[h := n']> (<[lnk := set_sin (linked (sin ln)) ln]> (nodes s))) (next_node s) (inode_list s) [] in
    sfs_link h name lnk s = Ok (0, s') /\ fs_ok f /\ dir_at s' h n' bl' /\ locked n' = false /\ ino (sin n') = ino (sin n) /\
    size (din (sin n')) = u32 (size (din (sin n)) + 256) /\
    (forall j nm no, has f bl' j nm no <-> (j = slot /\ nm = name /\ no = ino (sin ln)) \/ has (fs s) bl j nm no) /\
    others_kept (fs s) (sin n) bl f).
Proof. apply link_spec. Qed.

(** C9: unlinking the name of a regular file removes exactly that name from
    the directory, takes one link off the file's inode, marks both inodes dirty
    and leaves every other entry, every other loaded inode and every other file
    alone; a name that is not there is reported with -E_NOENT and nothing
    changes.  The file is loaded and the name is not [.] or [..].  Nothing is
    said here of directories, where the parent's link count should go down and
    does not, nor of the reference to the file, which the code keeps. *)
Theorem sfs_unlink_correct s h n bl name :
  fs_ok (fs s) -> dir_at s h n bl -> locked n = false -> mallocs s = [] -> Z.of_nat (length name) <= 255 ->
  ((forall j no, ~ has (fs s) bl j name no) -> sfs_unlink h name s = Ok (- E_NOENT, s)) /\
  (forall slot no lnk ln, uniq (fs s) bl -> has (fs s) bl slot name no -> name <> [46] -> name <> [46; 46] ->
   find_node no s = Some lnk -> nodes s !! lnk = Some ln -> lnk <> h -> type (din (sin ln)) = SFS_TYPE_FILE ->
   exists s' ln', sfs_unlink h name s = Ok (0, s') /\ fs_ok (fs s') /\ dir_at s' h (set_sin (shrunk (sin n)) n) bl /\ uniq (fs s') bl /\
     (forall j nm no', has (fs s') bl j nm no' <-> has (fs s) bl j nm no' /\ nm <> name) /\
     nodes s' !! lnk = Some ln' /\ sin ln' = unlinked (sin ln) /\
     (forall k, k <> h -> k <> lnk -> nodes s' !! k = nodes s !! k) /\ inode_list s' = inode_list s /\
     others_kept (fs s) (sin n) bl (fs s')).
Proof.
  intros H Hd Hlk Hm Hlen. split; [by eapply unlink_absent|]. intros slot no lnk ln Huq Hh Hd1 Hd2 Hf Hln Hne Hty.
  destruct (unlink_spec s h n bl name slot no lnk ln) as (f & E & H1 & H2 & H3 & H4 & H5); try done; [by right|].
  eexists _, _. split; [exact E|]. cbn [fs nodes inode_list]. split_and!; try done.
  - rewrite lookup_insert_ne by done. apply lookup_insert_eq.
  - done.
  - intros k Hk1 Hk2. by rewrite !lookup_insert_ne.
Qed.

(** C24: creating a file under a new name makes an empty file with one link on
    a block that was free, adds exactly that name to the directory and leaves
    every other file alone. *)
Theorem sfs_create_correct junk s h n bl name excl :
  fs_ok (fs s) -> dir_at s h n bl -> locked n = false -> mallocs s = [] -> nodes s !! next_node s = None ->
  name_ok name -> Z.of_nat (length bl) < 1036 -> 3 <= nfree (fs s) -> (forall j no, ~ has (fs s) bl j name no) ->
  exists n' f bl' slot no, let new := next_node s in
    let s' := Dst f (<[h := n']> (<[new := Node (new_file no) false 1 1 0]> (nodes s))) (S new) (new :: inode_list s) [] in
    sfs_create junk h name excl s = Ok ((0, Some new), s') /\ fs_ok f /\ dir_at s' h n' bl' /\ locked n' = false /\
    file_ok f (new_file no) [] /\ free_bit (freemap (fs s)) no = true /\
    (forall j nm k, has f bl' j nm k <-> (j = slot /\ nm = name /\ k = no) \/ has (fs s) bl j nm k) /\
    others_kept (fs s) (sin n) bl f.
Proof. apply create_file_spec. Qed.

(** making a directory under a name that is there reports -E_EXISTS but
    keeps the lock of the parent, after which every lookup, link, unlink,
    creation and further mkdir in that directory blocks for ever. *)
Theorem sfs_mkdir_exists_deadlock s h n bl name slot no :
  fs_ok (fs s) -> dir_at s h n bl -> locked n = false -> mallocs s = [] -> Z.of_nat (length name) <= 255 -> has (fs s) bl slot name no ->
  exists s', sfs_mkdir h name s = Ok (- E_EXISTS, s') /\
    (forall nm, sfs_lookup_once h nm s' = Spin) /\ (forall nm, sfs_mkdir h nm s' = Spin) /\
    (forall nm lnk, sfs_link h nm lnk s' = Spin) /\ (forall nm, sfs_unlink h nm s' = Spin) /\
    (forall junk nm excl, sfs_create junk h nm excl s' = Spin).
Proof.
  intros H Hd Hlk Hm Hlen Hh. eexists. split; [by eapply mkdir_exists|]. apply locked_blocks with (set_locked true n); [|done].
  simpl. by rewrite lookup_insert_eq.
Qed.

(** ** Examples: a root directory with one file, "a" *)
Definition root_fs : sfs :=
  Sfs 64 58 [] false (Bitmap 64 2 [0xFFFFFFC0; 0xFFFFFFFF]) {[ 4 := patch 0 (entry_bytes 5 [97]) ∅ ]} [].
Definition root_node : node := Node (Sin (Din 256 SFS_TYPE_DIR 2 1 (4 :: replicate 11 0) 0) 1 false) false 1 1 0.
Definition file_node : node := Node (Sin (Din 0 SFS_TYPE_FILE 1 0 (replicate 12 0) 0) 5 false) false 1 1 0.
Definition root_st : dst := Dst root_fs {[ 0%nat := root_node; 1%nat := file_node ]} 2 [1%nat; 0%nat] [].

Lemma root_fs_ok : fs_ok root_fs.
Proof. apply disk_ok; [lia|lia|vm_compute; reflexivity|vm_compute; reflexivity]. Defined.

Lemma root_dir : dir_at root_st 0%nat root_node [4].
Proof.
  constructor; [reflexivity| |reflexivity]. constructor; try done.
  - intros i Hi. unfold fblk. cbn [root_node sin din indirect]. destruct (Z.ltb_spec i 12).
    + apply Z.eqb_eq, (below_check (fun i => direct_at (din (sin root_node)) i =? default 0 ([4] !! Z.to_nat i)) 12 i); [done|lia].
    + by rewrite lookup_ge_None_2 by (simpl; lia).
  - intros b Hb. change (own (sin root_node) [4]) with [1; 4] in Hb. apply elem_of_cons in Hb as [->|Hb]; [by split; [split; [left|]|]|].
    apply list_elem_of_singleton in Hb as ->. by split; [split; [right|]|].
  - intros b Hb Hne. change (own (sin root_node) [4]) with [1; 4] in Hb. apply elem_of_cons in Hb as [->|Hb]; [done|].
    by apply list_elem_of_singleton in Hb as ->.
  - change (own (sin root_node) [4]) with [1; 4]. apply NoDup_cons. split; [by rewrite list_elem_of_singleton|apply NoDup_singleton].
Defined.

Lemma root_entry : fst (entry_at root_fs [4] 0) = 5 /\ cstr (snd (entry_at root_fs [4] 0)) = [97].
Proof. vm_compute. split; reflexivity. Defined.

Lemma root_slots j nm no : has root_fs [4] j nm no -> j = 0 /\ nm = [97] /\ no = 5.
Proof.
  intros (Hj & Hf & _ & Hn). simpl in Hj. assert (j = 0) as -> by lia. destruct root_entry as [E1 E2].
  split; [done|]. split; [by rewrite <- Hn, E2|by rewrite <- Hf, E1].
Defined.

Lemma root_has : has root_fs [4] 0 [97] 5.
Proof. destruct root_entry as [E1 E2]. split; [simpl; lia|]. split; [done|]. split; [lia|done]. Defined.

Lemma root_uniq : uniq root_fs [4].
Proof. intros i j nm n1 n2 Hi Hj. apply root_slots in Hi as [-> _], Hj as [-> _]. reflexivity. Defined.

Lemma root_held : held root_st.
Proof.
  intros h n Hn. unfold root_st in Hn. cbn [nodes] in Hn.
  apply lookup_insert_Some in Hn as [[_ <-]|[_ Hn]]; [split; [simpl; lia|done]|]. apply lookup_singleton_Some in Hn as [_ <-]. split; [simpl; lia|done].
Defined.

Lemma sfs_lookup_correct_witness : sfs_lookup 0 [97; 47] root_st = Ok ((0, Some 1%nat), add_ref 1 1 root_st).
Proof.
  apply (sfs_lookup_correct root_st 0 [[97]] 1 true); [|exact root_fs_ok|reflexivity|exact root_held].
  apply walk_one. exists root_node, [4], 0, 5. split; [exact root_dir|]. split; [exact root_uniq|]. split; [exact root_has|].
  split; [vm_compute; reflexivity|]. split; [simpl; lia|]. split; [|discriminate]. rewrite list_elem_of_singleton. discriminate.
Defined.

Lemma name_b_ok : name_ok [98].
Proof. split; [constructor; [discriminate|constructor]|simpl; lia]. Defined.

Lemma sfs_link_correct_witness :
  exists n' f bl' slot,
    let s' := Dst f (<[0%nat := n']> (<[1%nat := set_sin (linked (sin file_node)) file_node]> (nodes root_st))) 2 [1%nat; 0%nat] [] in
    sfs_link 0 [98] 1 root_st = Ok (0, s') /\ fs_ok f /\ dir_at s' 0 n' bl' /\
    (forall j nm no, has f bl' j nm no <-> (j = slot /\ nm = [98] /\ no = 5) \/ has root_fs [4] j nm no).
Proof.
  destruct (sfs_link_correct root_st 0 root_node [4] 1 file_node [98]) as [[(j & no & Hh) _]|(_ & n' & f & bl' & slot & E & H1 & H2 & _ & _ & _ & H3 & _)];
    [exact root_fs_ok|exact root_dir|reflexivity|reflexivity|reflexivity|discriminate|exact name_b_ok|simpl; lia|simpl; lia|vm_compute; discriminate| |].
  - exfalso. apply root_slots in Hh as (_ & Hh & _). discriminate.
  - exists n', f, bl', slot. split; [exact E|]. split; [exact H1|]. split; [exact H2|exact H3].
Defined.

Lemma sfs_unlink_correct_witness :
  sfs_unlink 0 [98] root_st = Ok (- E_NOENT, root_st) /\
  exists s' ln', sfs_unlink 0 [97] root_st = Ok (0, s') /\ nodes s' !! 1%nat = Some ln' /\ sin ln' = unlinked (sin file_node) /\
    (forall j nm no', has (fs s') [4] j nm no' <-> has root_fs [4] j nm no' /\ nm <> [97]).
Proof.
  split.
  - apply (sfs_unlink_correct root_st 0 root_node [4] [98]); [exact root_fs_ok|exact root_dir|reflexivity|reflexivity|simpl; lia|].
    intros j no Hh. apply root_slots in Hh as (_ & Hh & _). discriminate.
  - destruct (sfs_unlink_correct root_st 0 root_node [4] [97]) as [_ Hu]; [exact root_fs_ok|exact root_dir|reflexivity|reflexivity|simpl; lia|].
    destruct (Hu 0 5 1%nat file_node) as (s' & ln' & E & _ & _ & _ & H1 & H2 & H3 & _);
      [exact root_uniq|exact root_has|discriminate|discriminate|vm_compute; reflexivity|reflexivity|discriminate|reflexivity|].
    exists s', ln'. split; [exact E|]. split; [exact H2|]. split; [exact H3|exact H1].
Defined.

Lemma sfs_create_correct_witness :
  exists n' f bl' slot no,
    let s' := Dst f (<[0%nat := n']> (<[2%nat := Node (new_file no) false 1 1 0]> (nodes root_st))) 3 [2%nat; 1%nat; 0%nat] [] in
    sfs_create 0 0 [98] true root_st = Ok ((0, Some 2%nat), s') /\ fs_ok f /\ dir_at s' 0 n' bl' /\ locked n' = false /\
    file_ok f (new_file no) [] /\ free_bit (freemap root_fs) no = true /\
    (forall j nm k, has f bl' j nm k <-> (j = slot /\ nm = [98] /\ k = no) \/ has root_fs [4] j nm k) /\
    others_kept root_fs (sin root_node) [4] f.
Proof.
  apply (sfs_create_correct 0 root_st 0 root_node [4] [98] true);
    [exact root_fs_ok|exact root_dir|reflexivity|reflexivity|reflexivity|exact name_b_ok|simpl; lia|vm_compute; discriminate|].
  intros j no Hh. apply root_slots in Hh as (_ & Hh & _). discriminate.
Defined.

Lemma sfs_mkdir_exists_deadlock_witness :
  exists s', sfs_mkdir 0 [97] root_st = Ok (- E_EXISTS, s') /\
    (forall nm, sfs_lookup_once 0 nm s' = Spin) /\ (forall nm, sfs_mkdir 0 nm s' = Spin) /\
    (forall nm lnk, sfs_link 0 nm lnk s' = Spin) /\ (forall nm, sfs_unlink 0 nm s' = Spin) /\
    (forall junk nm excl, sfs_create junk 0 nm excl s' = Spin).
Proof.
  apply (sfs_mkdir_exists_deadlock root_st 0 root_node [4] [97] 0 5);
    [exact root_fs_ok|exact root_dir|reflexivity|reflexivity|simpl; lia|exact root_has].
Defined.

(** ** Reclaiming an inode *)
Lemma din_bytes_length d : length (direct d) = 12%nat -> length (din_bytes d) = 64%nat.
Proof.
  intros Hd. assert (forall l : list Z, length (mjoin (to_le32 <$> l)) = 4 * length l)%nat as Hj
    
    by (intros l; induction l as [|z l IH]; [done|]; change (mjoin (to_le32 <$> (z :: l))) with (to_le32 z ++ mjoin (to_le32 <$> l)); rewrite length_app, IH; simpl; lia).
  unfold din_bytes. rewrite !length_app, Hj, Hd. reflexivity.
Qed.

Lemma fsync_ok f x bl : fs_ok f -> map_ok f x bl -> dirty x = true ->
  exists c, sfs_fsync x f = Ok (0, set_dirty false x, set_block (ino x) c f).
Proof.
  intros H Hm Hd. unfold sfs_fsync. rewrite Hd. assert (used f (ino x)) as Hu by (apply Hm, own_elem; by left). pose proof (used_pos _ _ H Hu).
  rewrite wbuf_ok; [|apply H|done|unfold SFS_BLKSIZE; lia|rewrite din_bytes_length by apply Hm; unfold SFS_BLKSIZE; lia]. by eexists.
Qed.

Lemma free_keeps f b f' : fs_ok f -> used f b -> first_data f <= b -> sfs_block_free b f = Ok f' ->
  fs_ok f' /\ blocks f' = blocks f /\ nfree f' = nfree f + 1 /\ forall c, used f c -> c <> b -> used f' c /\ block f' c = block f c.
Proof.
  intros H Hu Ha E. destruct (sfs_block_free_ok f b H Hu Ha) as (f1 & E1 & H1 & Hbk & Hn & Hbits & Hsame). rewrite E in E1. injection E1 as <-.
  split_and!; try done. intros c Hc Hne. pose proof (used_pos _ _ H Hc). split.
  - split; [rewrite (first_data_blocks _ _ Hbk), Hbk; apply Hc|]. rewrite Hbits, decide_False by (done || lia). apply Hc.
  - apply Hsame; [apply Hc|apply not_elem_of_nil].
Qed.

Lemma reclaim_blocks_ok s x :
  fs_ok (fs s) -> map_ok (fs s) x [] -> first_data (fs s) <= ino x -> nlinks (din x) = 0 ->
  exists f, reclaim_blocks x s = Ok (tt, set_fs f s) /\ fs_ok f /\ blocks f = blocks (fs s) /\
    nfree f = nfree (fs s) + Z.of_nat (length (own x [])) /\
    (forall c, used (fs s) c -> c ∉ own x [] -> used f c /\ block f c = block (fs s) c).
Proof.
  intros H Hm Ha Hl. assert (used (fs s) (ino x)) as Hu by (apply Hm, own_elem; by left). unfold reclaim_blocks. rewrite Hl. change (0 =? 0) with true. cbv iota.
  destruct (sfs_block_free_ok (fs s) (ino x) H Hu Ha) as (f & E & _). destruct (free_keeps _ _ _ H Hu Ha E) as (H1 & Hbk & Hn & Hk).
  assert (E1 : on_fs_unit (sfs_block_free (ino x)) s = Ok (tt, set_fs f s)) by (unfold on_fs_unit; by rewrite E).
  step E1. destruct (Z.eqb_spec (indirect (din x)) 0) as [E0|E0]; cbn [negb].
  - exists f. split; [done|]. split; [done|]. split; [done|]. rewrite own_length, E0. split; [simpl; lia|]. intros c Hc Hno. apply Hk; [done|]. intros ->. apply Hno, own_elem. by left.
  - pose proof (fk_nodup _ _ _ Hm) as Hnd. unfold own in Hnd. rewrite (proj2 (Z.eqb_neq _ 0)) in Hnd by done. apply NoDup_cons in Hnd as [Hne _].
    simpl in Hne. rewrite list_elem_of_singleton in Hne.
    destruct (Hk (indirect (din x))) as [Hui _]; [by eapply indirect_used|congruence|].
    assert (first_data f <= indirect (din x)) as Hai by (rewrite (first_data_blocks _ _ Hbk); apply (fk_area _ _ _ Hm); [apply own_elem; tauto|congruence]).
    destruct (sfs_block_free_ok f _ H1 Hui Hai) as (f2 & E2 & _). destruct (free_keeps _ _ _ H1 Hui Hai E2) as (H2 & Hbk2 & Hn2 & Hk2).
    exists f2. split; [unfold on_fs_unit; cbn [fs set_fs]; by rewrite E2|]. split; [done|]. split; [congruence|]. rewrite own_length, (proj2 (Z.eqb_neq _ 0)) by done.
    split; [simpl; lia|]. intros c Hc Hno. assert (c <> ino x) by (intros ->; apply Hno, own_elem; by left).
    assert (c <> indirect (din x)) by (intros ->; apply Hno, own_elem; tauto). destruct (Hk c Hc) as [Hc1 <-]; [done|]. by apply Hk2.
Qed.

Lemma map_ok_ino f x bl c : map_ok f x bl -> map_ok (set_block (ino x) c f) x bl.
Proof.
  intros Hm. constructor; try apply Hm. intros i Hi. rewrite <- (fk_map _ _ _ Hm i Hi). unfold fblk. zcase; [done|]. zcase; [done|].
  rewrite block_set. zcase; [|done]. pose proof (fk_nodup _ _ _ Hm) as Hnd. unfold own in Hnd. rewrite (proj2 (Z.eqb_neq _ 0)) in Hnd by done.
  apply NoDup_cons in Hnd as [Hne _]. exfalso. apply Hne, elem_of_app. left. apply list_elem_of_singleton. congruence.
Qed.

(** Writing the inode back when it is dirty. *)
Lemma fsync_step s h n :
  nodes s !! h = Some n -> fs_ok (fs s) -> map_ok (fs s) (sin n) [] ->
  exists f x', (if dirty (sin n) then on_sin h sfs_fsync else ret 0) s = Ok (0, set_nodes (<[h := set_sin x' n]> (nodes s)) (set_fs f s)) /\
    fs_ok f /\ map_ok f x' [] /\ din x' = din (sin n) /\ ino x' = ino (sin n) /\ blocks f = blocks (fs s) /\ nfree f = nfree (fs s) /\
    (forall c, used (fs s) c -> c ∉ own (sin n) [] -> used f c /\ block f c = block (fs s) c).
Proof.
  intros Hn H Hm. destruct (dirty (sin n)) eqn:Hd.
  - destruct (fsync_ok (fs s) (sin n) [] H Hm Hd) as (c & E). exists (set_block (ino (sin n)) c (fs s)), (set_dirty false (sin n)).
    split; [by apply on_sin_ok|]. split; [by apply fs_ok_set_block|]. split; [apply map_ok_same with (sin n); try done; by apply map_ok_ino|].
    split_and!; try done. intros b Hb Hno. split; [done|]. rewrite block_set. zcase; [|done]. subst. exfalso. apply Hno, own_elem. by left.
  - exists (fs s), (sin n). split; [|done]. unfold ret. do 2 f_equal. rewrite set_sin_id, set_fs_id, insert_id by done. by destruct s.
Qed.

Lemma reclaim_spec s h n bl :
  nodes s !! h = Some n -> fs_ok (fs s) -> file_ok (fs s) (sin n) bl -> first_data (fs s) <= ino (sin n) ->
  dblocks (din (sin n)) = (size (din (sin n)) + 4095) / 4096 -> 
  nlinks (din (sin n)) = 0 -> ref_count n = 0 -> reclaim_count n = 1 -> open_count n = 0 -> 
  exists f, sfs_reclaim h s = Ok (0, Dst f (delete h (nodes s)) (next_node s) (filter (fun k => k <> h) (inode_list s)) (mallocs s)) /\ fs_ok f /\
    nfree f = nfree (fs s) + Z.of_nat (length (own (sin n) bl)) /\ others_kept (fs s) (sin n) bl f.
Proof.
  intros Hn H Hf Hfd Ht Hl Hr Hrc Ho. pose proof Hf as (Hmap & Hsz & Hty).
  destruct (truncfile_spec (fs s) (sin n) bl 0) as (x & f & bl' & E & H1 & Hf1 & _ & Hd & _ & Hacct & Hoth & Hfr & Hino & Hnl & Hbk); [done|done|done|lia|left; lia|].
  assert (bl' = []) as ->. { destruct Hf1 as (Hm1 & _). pose proof (fk_len _ _ _ Hm1) as Hlen. destruct bl'; [done|]. simpl in Hlen. lia. }
  unfold sfs_reclaim. step (get_node_ok h n s Hn). rewrite Hrc. rewrite (bind_Ok _ _ s tt s) by done.
  rewrite (bind_Ok (put_node h _) _ s tt _ eq_refl). cbv beta zeta. change (1 - 1 =? 0) with true. rewrite Hr.
  change (0 =? 0) with true. cbn [negb orb]. rewrite Hl. change (0 =? 0) with true. cbv iota. set (n1 := set_counts _ _ n). set (s1 := set_nodes _ s).
  assert (Hn1 : nodes s1 !! h = Some n1) by (simpl; by rewrite lookup_insert_eq).
  assert (Et : vop_truncate h 0 s1 = Ok (0, set_nodes (<[h := set_sin x n1]> (nodes s1)) (set_fs f s1))).
  { unfold vop_truncate. step (get_node_ok h n1 s1 Hn1). rewrite (bind_Ok _ _ s1 tt s1) by (unfold massert; by rewrite (proj2 (Z.eqb_neq _ _))). by apply on_sin_ok. }
  step Et. change (0 =? 0) with true. cbn [negb]. set (s2 := set_nodes _ (set_fs f s1)).
  assert (Hn2 : nodes s2 !! h = Some (set_sin x n1)) by (simpl; by rewrite lookup_insert_eq). step (get_node_ok h _ s2 Hn2).
  destruct (fsync_step s2 h _ Hn2 H1 (proj1 Hf1)) as (f3 & x3 & E3 & H3 & Hm3 & Hd3 & Hi3 & Hbk3 & Hn3 & Hk3). cbn [sin set_sin] in *. step E3.
  change (0 =? 0) with true. cbn [negb]. set (s3 := set_nodes _ (set_fs f3 s2)).
  rewrite (bind_Ok (sfs_remove_links h) _ s3 tt _ eq_refl). cbv beta. set (s4 := set_inode_list _ s3).
  assert (Hn4 : nodes s4 !! h = Some (set_sin x3 (set_sin x n1))) by (simpl; by rewrite lookup_insert_eq). step (get_node_ok h _ s4 Hn4). cbn [sin set_sin].
  destruct (reclaim_blocks_ok s4 x3 H3 Hm3) as (f5 & E5 & H5 & Hbk5 & Hn5 & Hk5); [|by rewrite Hd3, Hnl|].
  { change (fs s4) with f3. rewrite (first_data_blocks (fs s) f3), Hi3, Hino by (rewrite Hbk3; exact Hbk). done. }
  step E5. rewrite (bind_Ok _ _ (set_fs f5 s4) tt (set_fs f5 s4)) by (simpl; by rewrite Ho).
  exists f5. split; [|split; [done|split]].
  - unfold set_nodes, set_fs, s4, set_inode_list, s3, s2, s1. simpl. by rewrite !insert_insert_eq, delete_insert_eq.
  - assert (own x3 [] = own x []) as Ho3 by (unfold own; by rewrite Hd3, Hi3). rewrite Hn5, Ho3. change (fs s4) with f3. rewrite Hn3. change (fs s2) with f. lia.
  - intros y cl Hy Hdis. destruct (Hoth y cl Hy Hdis) as [Hy1 Hp1].
    destruct (map_kept f f5 y cl) as [Hy5 Hp5]; [rewrite Hbk5; exact Hbk3|done| |split; [done|intros p Hp; by rewrite Hp5, Hp1]].
    intros c Hc. assert (c ∉ own x []) as Hcx by (apply Hfr; [by apply Hy|by apply Hdis]). assert (used f c) as Hu by (by apply Hy1).
    destruct (Hk3 c Hu Hcx) as [Hu3 Hb3]. change (fs s2) with f in Hb3. rewrite <- Hb3. apply Hk5; [done|]. unfold own in *. by rewrite Hd3, Hi3.
Qed.

(** C27: reclaiming a file that nothing links to and nobody references gives
    every block of it back - its data blocks, its indirect block and the block
    of the inode -, drops the inode and leaves every other file alone. *)
Theorem sfs_reclaim_frees s h n bl :
  nodes s !! h = Some n -> fs_ok (fs s) -> file_ok (fs s) (sin n) bl -> first_data (fs s) <= ino (sin n) ->
  dblocks (din (sin n)) = (size (din (sin n)) + 4095) / 4096 -> 
  nlinks (din (sin n)) = 0 -> ref_count n = 0 -> reclaim_count n = 1 -> open_count n = 0 -> 
  exists f, sfs_reclaim h s = Ok (0, Dst f (delete h (nodes s)) (next_node s) (filter (fun k => k <> h) (inode_list s)) (mallocs s)) /\ fs_ok f /\
    nfree f = nfree (fs s) + Z.of_nat (length (own (sin n) bl)) /\ others_kept (fs s) (sin n) bl f.
Proof. apply reclaim_spec. Qed.

Definition dead_node : node := Node (Sin (Din 4096 SFS_TYPE_FILE 0 1 (4 :: replicate 11 0) 0) 3 true) false 1 0 0.

Definition dead_st : dst := Dst disk64 {[ 0%nat := dead_node ]} 1 [0%nat] [].

Lemma sfs_reclaim_frees_witness :
  exists f, sfs_reclaim 0 dead_st = Ok (0, Dst f (delete 0%nat (nodes dead_st)) 1 [] []) /\ fs_ok f /\
    nfree f = nfree disk64 + 2 /\ others_kept disk64 (sin dead_node) [4] f.
Proof.
  destruct (sfs_reclaim_frees dead_st 0 dead_node [4]) as (f & E & H1 & H2 & H3);
    [reflexivity|exact disk64_ok| |vm_compute; discriminate|reflexivity|reflexivity|reflexivity|reflexivity|reflexivity|].
  - destruct file1_ok as (Hm & Hsz & _). split; [|split; [exact Hsz|discriminate]]. exact (map_ok_same disk64 file1 (sin dead_node) [4] Hm eq_refl eq_refl eq_refl eq_refl).
  - exists f. split; [exact E|]. split; [exact H1|]. split; [exact H2|exact H3].
Defined.
