(* ===== verification/SfsMount.v ===== *)
(** * kern/fs/sfs/sfs_fs.c: mounting, syncing and unmounting

    The block device of the file system: its number of blocks, its block size,
    its contents and the results of its next operations (when they are used up
    the device works).  [mallocs] are the outcomes of the next allocations, in
    order; when they are used up they succeed. *)
From S2P Require Import Prelude IoBuf Bitmap SfsDisk SfsFile SfsDir.

Definition E_NA_DEV : Z := 14.

Record device := Dev { d_blocks : Z; d_blocksize : Z; d_disk : gmap Z blk; d_results : list Z; d_mallocs : list bool }.

Definition alloc (d : device) : bool * device :=
  match d_mallocs d with [] => (true, d) | b :: l => (b, Dev (d_blocks d) (d_blocksize d) (d_disk d) (d_results d) l) end.

(** The result and the block read. *)
Definition sfs_init_read (blkno : Z) (d : device) : Z * blk * device :=
  match d_results d with
  | [] => (0, default ∅ (d_disk d !! blkno), d)
  | r :: l =>
      let d := Dev (d_blocks d) (d_blocksize d) (d_disk d) l (d_mallocs d) in
      (r, if r =? 0 then default ∅ (d_disk d !! blkno) else ∅, d)
  end.

(** The words of a block of the free map. *)
Definition block_words (b : blk) : list Z := (fun k => le32 (slice b (4 * Z.of_nat k) 4)) <$> seq 0 1024.

(** The words of the blocks read before a failure, and the result. *)
Fixpoint read_words (nblks : nat) (blkno : Z) (d : device) : Z * list Z * device :=
  match nblks with
  | O => (0, [], d)
  | S n =>
      let '(r, b, d) := sfs_init_read blkno d in
      if negb (r =? 0) then (r, [], d)
      else let '(r, ws, d) := read_words n (blkno + 1) d in (r, block_words b ++ ws, d)
  end.

Definition sfs_init_freemap (m : bitmap) (blkno nblks : Z) (d : device) : res (Z * bitmap * device) :=
  let '(data, len) := bitmap_getdata m in
  _ ← kassert (len =? u32 (nblks * SFS_BLKSIZE));
  let '(r, ws, d) := read_words (Z.to_nat nblks) blkno d in
  Ok (r, Bitmap (nbits m) (nwords m) (ws ++ drop (length ws) data), d).

(** [for (i = 0; i < freemap_size_nbits; i ++)], from [i] with [n] rounds. *)
Fixpoint count_free (n : nat) (i : Z) (m : bitmap) (unused : Z) : res Z :=
  match n with
  | O => Ok unused
  | S n => t ← bitmap_test m i; count_free n (i + 1) m (if negb (t =? 0) then u32 (unused + 1) else unused)
  end.

Definition sfs_freemap_bits (blocks : Z) : Z := ROUNDUP_DIV blocks SFS_BLKBITS * SFS_BLKBITS.

(** The checks of the superblock: its number of blocks, of unused blocks and
    its text. *)
Definition super_of (b : blk) : Z * Z * Z * list Z :=
  (le32 (slice b 0 4), le32 (slice b 4 4), le32 (slice b 8 4), slice b 12 31 ++ [0]).

(** The result, the file system mounted and the device. *)
Definition sfs_do_mount (d : device) : res (Z * option sfs * device) :=
  if negb (d_blocksize d =? SFS_BLKSIZE) then Ok (- E_NA_DEV, None, d)
  else
    let '(ok, d) := alloc d in
    if negb ok then Ok (- E_NO_MEM, None, d)
    else
    let '(ok, d) := alloc d in
    if negb ok then Ok (- E_NO_MEM, None, d)
    else
    let '(r, b, d) := sfs_init_read SFS_BLKN_SUPER d in
    if negb (r =? 0) then Ok (r, None, d)
    else
    let '(magic, nblocks, unused, text) := super_of b in
    if negb (magic =? SFS_MAGIC) then Ok (- E_INVAL, None, d)
    else if nblocks >? d_blocks d then Ok (- E_INVAL, None, d)
    else
    let '(ok, d) := alloc d in
    if negb ok then Ok (- E_NO_MEM, None, d)
    else
    let '(ok1, d) := alloc d in
    let '(ok2, d) := (if ok1 then alloc d else (false, d)) in
    o ← bitmap_create ok1 ok2 (sfs_freemap_bits nblocks);
    match o with
    | None => Ok (- E_NO_MEM, None, d)
    | Some m =>
        '(r, m, d) ← sfs_init_freemap m SFS_BLKN_FREEMAP (ROUNDUP_DIV nblocks SFS_BLKBITS) d;
        if negb (r =? 0) then Ok (r, None, d)
        else
          n ← count_free (Z.to_nat (sfs_freemap_bits nblocks)) 0 m 0;
          _ ← kassert (n =? unused);
          Ok (0, Some (Sfs nblocks unused text false m (d_disk d) (d_results d)), d)
    end.

(** ** The file system as a whole *)
Fixpoint sync_inodes (l : list nat) : M unit :=
  match l with
  | [] => ret tt
  | h :: l => bind (on_sin h sfs_fsync) (fun _ => sync_inodes l)
  end.

Definition sync_super (f : sfs) : res (Z * sfs) :=
  if super_dirty f then
    '(r, f) ← sfs_sync_super (set_super_dirty false f);
    if negb (r =? 0) then Ok (r, set_super_dirty true f)
    else
      '(r, f) ← sfs_sync_freemap f;
      if negb (r =? 0) then Ok (r, set_super_dirty true f) else Ok (0, f)
  else Ok (0, f).

Definition sfs_sync : M Z := fun s => bind (sync_inodes (inode_list s)) (fun _ => on_fs sync_super) s.

Definition sfs_get_root : M (option nat) :=
  bind (sfs_load_inode SFS_BLKN_ROOT) (fun '(r, o) => if negb (r =? 0) then panic else ret o).

Definition sfs_unmount (s : dst) : res Z :=
  match inode_list s with
  | _ :: _ => Ok (- E_BUSY)
  | [] => _ ← kassert (negb (super_dirty (fs s))); Ok 0
  end.

(** At most 32 tries. *)
Fixpoint cleanup_tries (n : nat) (r : Z) : M Z :=
  match n with
  | O => ret r
  | S n => bind sfs_sync (fun r => if r =? 0 then ret r else cleanup_tries n r)
  end.
Definition sfs_cleanup : M Z := cleanup_tries 32 0.

(** ** Bytes and words *)
Lemma slice_patch_mid l1 l2 l3 b n : n = Z.of_nat (length l2) -> slice (patch 0 (l1 ++ l2 ++ l3) b) (Z.of_nat (length l1)) n = l2.
Proof.
  intros ->. apply list_eq_same_length with (length l2); [done|by rewrite slice_length, Nat2Z.id|].
  intros i x y Hi Hx Hy. rewrite slice_lookup in Hx by lia. injection Hx as <-.
  rewrite patch_byte, decide_True by (rewrite !length_app; lia). replace (Z.to_nat (Z.of_nat (length l1) + Z.of_nat i - 0)) with (length l1 + i)%nat by lia.
  rewrite lookup_app_r by lia. replace (length l1 + i - length l1)%nat with i by lia. rewrite lookup_app_l by lia. by rewrite Hy.
Qed.

Lemma words_bytes_length ws : length (mjoin (to_le32 <$> ws)) = (4 * length ws)%nat.
Proof. induction ws as [|w ws IH]; [done|]. change (mjoin (to_le32 <$> (w :: ws))) with (to_le32 w ++ mjoin (to_le32 <$> ws)). rewrite length_app, IH. simpl. lia. Qed.

Lemma block_words_bytes ws : length ws = 1024%nat -> Forall (fun w => 0 <= w < 2 ^ 32) ws ->
  block_words (patch 0 (mjoin (to_le32 <$> ws)) ∅) = ws.
Proof.
  intros Hl Hf. apply list_eq_same_length with 1024%nat; [done|unfold block_words; by rewrite length_fmap, length_seq|].
  intros i x y Hi Hx Hy. unfold block_words in Hx. rewrite list_lookup_fmap, lookup_seq_lt in Hx by done. apply (inj Some) in Hx as <-.
  pose proof (take_drop_middle ws i y Hy) as Hmid. rewrite <- Hmid at 1. rewrite fmap_app, join_app, fmap_cons.
  change (mjoin (to_le32 y :: ?l)) with (to_le32 y ++ mjoin l).
  assert (Hli : length (take i ws) = i) by (rewrite length_take; lia).
  replace (4 * Z.of_nat (0 + i)) with (Z.of_nat (length (mjoin (to_le32 <$> take i ws)))) by (rewrite words_bytes_length, Hli; lia).
  rewrite slice_patch_mid by done. apply le32_to_le32. rewrite Forall_forall in Hf. apply Hf. by eapply list_elem_of_lookup_2.
Qed.

Lemma super_of_bytes s : 0 <= blocks s < 2 ^ 32 -> 0 <= unused_blocks s < 2 ^ 32 -> length (info s) = 32%nat -> info s !! 31%nat = Some 0 ->
  super_of (patch 0 (super_bytes s) ∅) = (SFS_MAGIC, blocks s, unused_blocks s, info s).
Proof.
  intros Hb Hu Hl Hz. unfold super_of, super_bytes.
  pose proof (slice_patch_mid [] (to_le32 SFS_MAGIC) (to_le32 (blocks s) ++ to_le32 (unused_blocks s) ++ info s) ∅ 4 eq_refl) as E1.
  pose proof (slice_patch_mid (to_le32 SFS_MAGIC) (to_le32 (blocks s)) (to_le32 (unused_blocks s) ++ info s) ∅ 4 eq_refl) as E2.
  pose proof (slice_patch_mid (to_le32 SFS_MAGIC ++ to_le32 (blocks s)) (to_le32 (unused_blocks s)) (info s) ∅ 4 eq_refl) as E3.
  assert (Hi : info s = take 31 (info s) ++ [0]).
  { rewrite <- (take_drop_middle _ _ _ Hz) at 1. by rewrite drop_ge by lia. }
  pose proof (slice_patch_mid (to_le32 SFS_MAGIC ++ to_le32 (blocks s) ++ to_le32 (unused_blocks s)) (take 31 (info s)) [0] ∅ 31) as E4.
  rewrite length_take in E4. specialize (E4 ltac:(lia)). rewrite <- Hi in E4. rewrite <- !app_assoc in E3. rewrite <- !app_assoc in E4. rewrite <- ?app_assoc in E4.
  simpl length in E1, E2, E3, E4. change (Z.of_nat 0) with 0 in E1. change (Z.of_nat 4) with 4 in E2. change (Z.of_nat 8) with 8 in E3. change (Z.of_nat 12) with 12 in E4.
  cbn [app] in E1. rewrite E1, E2, E3, E4, !le32_to_le32 by (done || unfold SFS_MAGIC; lia). by rewrite <- Hi.
Qed.

(** ** Reading the free map *)
Lemma read_words_ok n : forall d j ws,
  d_results d = [] -> 0 <= j -> Forall (fun w => 0 <= w < 2 ^ 32) ws -> Z.of_nat (length ws) = 1024 * (j + Z.of_nat n) ->
  (forall i, j <= i < j + Z.of_nat n -> d_disk d !! (2 + i) = Some (freemap_block ws i)) ->
  read_words n (2 + j) d = (0, drop (Z.to_nat (1024 * j)) ws, d).
Proof.
  induction n as [|n IH]; intros d j ws Hr Hj Hf Hl Hd; cbn [read_words].
  { by rewrite drop_ge by lia. }
  unfold sfs_init_read. rewrite Hr, Hd by lia. change (0 =? 0) with true. cbn [negb default from_option id].
  replace (2 + j + 1) with (2 + (j + 1)) by lia. rewrite (IH d (j + 1) ws) by (done || lia || (intros; apply Hd; lia)).
  unfold freemap_block. rewrite block_words_bytes; [|rewrite length_take, length_drop; lia|by apply Forall_take, Forall_drop].
  do 2 f_equal. rewrite <- (take_drop 1024 (drop (Z.to_nat (1024 * j)) ws)) at 2. f_equal. rewrite drop_drop. f_equal. lia.
Qed.

Lemma count_free_ok m n : bm_wf m -> forall i u, 0 <= i -> 0 <= u -> i + Z.of_nat n <= nbits m -> u + Z.of_nat n < 2 ^ 32 ->
  count_free n i m u = Ok (u + Z.of_nat (length (filter (fun i => free_bit m i = true) (seqZ i (Z.of_nat n))))).
Proof.
  intros Hwf. induction n as [|n IH]; intros i u Hi Hu Hn Hb; cbn [count_free].
  { simpl. f_equal. lia. }
  destruct (bitmap_test_spec m i Hwf) as (v & -> & Hv); [lia|]. rewrite res_bind_ok, Hv, negb_involutive.
  rewrite seqZ_cons by lia. replace (Z.pred (Z.of_nat (S n))) with (Z.of_nat n) by lia. rewrite filter_cons.
  destruct (free_bit m i) eqn:E.
  - rewrite decide_True by done. rewrite u32_small by lia. rewrite IH by lia. f_equal. replace (Z.succ i) with (i + 1) by lia. cbn [length]. lia.
  - rewrite decide_False by done. rewrite IH by lia. by replace (Z.succ i) with (i + 1) by lia.
Qed.

(** ** Syncing *)
Lemma sync_super_ok s :
  results s = [] -> 2 <= first_data s <= blocks s -> super_dirty s = true ->
  exists s', sync_super s = Ok (0, s') /\ blocks s' = blocks s /\ unused_blocks s' = unused_blocks s /\ info s' = info s /\
    freemap s' = freemap s /\ results s' = [] /\ super_dirty s' = false /\
    disk s' !! 0 = Some (patch 0 (super_bytes s) ∅) /\
    (forall i, 0 <= i < sfs_freemap_blocks s -> disk s' !! (2 + i) = Some (freemap_block (map (freemap s)) i)) /\
    (forall b, b = 1 \/ first_data s <= b -> block s' b = block s b).
Proof.
  intros Hr Hd Hdirty. unfold sync_super. rewrite Hdirty. unfold sfs_sync_super.
  rewrite rw_write by (done || simpl; unfold SFS_BLKN_SUPER; lia). rok. unfold sfs_sync_freemap. set (s1 := set_block _ _ _).
  set (bufs := freemap_block (bitmap_getdata (freemap s1)).1 <$> seqZ 0 (sfs_freemap_blocks s1)).
  assert (Hlen : Z.of_nat (length bufs) = sfs_freemap_blocks s).
  { unfold bufs. rewrite length_fmap, length_seqZ. change (sfs_freemap_blocks s1) with (sfs_freemap_blocks s). unfold first_data, SFS_BLKN_FREEMAP in Hd. lia. }
  unfold first_data, SFS_BLKN_FREEMAP in Hd.
  destruct (wblocks_disk bufs s1 SFS_BLKN_FREEMAP) as (s' & -> & Hout & H1 & H2 & H3 & H4 & H5 & H6 & Hin);
    [done|unfold SFS_BLKN_FREEMAP; lia|rewrite Hlen; unfold SFS_BLKN_FREEMAP; simpl; lia|].
  rok. exists s'. split; [done|]. split_and!; try done.
  - rewrite Hout by (unfold SFS_BLKN_FREEMAP; lia). unfold s1. simpl. by rewrite lookup_insert_eq.
  - intros i Hi. replace (2 + i) with (SFS_BLKN_FREEMAP + Z.of_nat (Z.to_nat i)) by (unfold SFS_BLKN_FREEMAP; lia).
    rewrite (Hin (freemap_block (map (freemap s)) i)); [done|]. unfold bufs. rewrite list_lookup_fmap, lookup_seqZ_lt by (change (sfs_freemap_blocks s1) with (sfs_freemap_blocks s); lia).
    simpl. do 2 f_equal. lia.
  - intros b Hb. unfold block. rewrite Hout by (rewrite Hlen; unfold first_data, SFS_BLKN_FREEMAP in *; lia).
    unfold s1. simpl. rewrite lookup_insert_ne; [done|]. unfold SFS_BLKN_SUPER, first_data, SFS_BLKN_FREEMAP in *. lia.
Qed.

Lemma create_nwords a b nb m : bitmap_create a b nb = Ok (Some m) -> nwords m = ROUNDUP_DIV nb WORD_BITS.
Proof.
  unfold bitmap_create. intros H. apply res_bind_inv in H as (_ & _ & H). destruct a; [|discriminate H]. destruct b; [|discriminate H].
  change (negb true) with false in H. cbv iota zeta in H.
  destruct (nb =? _); change (negb true) with false in H; change (negb false) with true in H; cbv iota in H; [by injection H as <-|].
  apply res_bind_inv in H as (_ & _ & H). apply res_bind_inv in H as (_ & _ & H).
  symmetry. exact (f_equal (fun r => match r with Ok (Some m) => nwords m | _ => 0 end) H).
Qed.

(** The free map read back. *)
Lemma init_freemap_ok m0 m d :
  bm_wf m -> nwords m * 32 = nbits m -> nbits m < 2 ^ 32 - 32 -> nbits m0 = nbits m -> nwords m0 = nwords m -> bm_wf m0 ->
  d_results d = [] -> forall q, nbits m = q * 32768 ->
  (forall i, 0 <= i < q -> d_disk d !! (2 + i) = Some (freemap_block (map m) i)) ->
  sfs_init_freemap m0 SFS_BLKN_FREEMAP q d = Ok (0, m, d).
Proof.
  intros Hm Hw Hb Hn0 Hw0 Hwf0 Hr q Hq Hd. pose proof (wf_len _ Hm). pose proof (wf_len _ Hwf0). pose proof (wf_nbits _ Hm).
  unfold sfs_init_freemap, bitmap_getdata. rewrite kassert_true by (apply Z.eqb_eq; unfold SFS_BLKSIZE; f_equal; lia). rok.
  change SFS_BLKN_FREEMAP with (2 + 0). rewrite (read_words_ok (Z.to_nat q) d 0 (map m)); [|done|lia|apply Hm|lia|intros; apply Hd; lia].
  change (Z.to_nat (1024 * 0)) with 0%nat. rewrite drop_0, drop_ge, app_nil_r by lia. rewrite Hn0, Hw0. by destruct m.
Qed.

(** A disk with a superblock and a free map that agree is mounted. *)
Lemma mount_disk nb D b n unused text m :
  D !! 0 = Some b -> super_of b = (SFS_MAGIC, n, unused, text) -> n <= nb -> bm_wf m -> nbits m = sfs_freemap_bits n -> nwords m * 32 = nbits m ->
  nbits m < 2 ^ 32 - 32 -> (forall i, 0 <= i < ROUNDUP_DIV n SFS_BLKBITS -> D !! (2 + i) = Some (freemap_block (map m) i)) ->
  unused = Z.of_nat (length (free_list_of m)) ->
  sfs_do_mount (Dev nb SFS_BLKSIZE D [] []) = Ok (0, Some (Sfs n unused text false m D []), Dev nb SFS_BLKSIZE D [] []).
Proof.
  intros Hsup Hso Hnb Hwf Hbits Hw Hbnd Hmap Hun.
  unfold sfs_do_mount. cbn [d_blocksize]. rewrite Z.eqb_refl. cbn [negb alloc d_mallocs]. unfold sfs_init_read at 1. cbn [d_results d_disk].
  change SFS_BLKN_SUPER with 0. rewrite Hsup. cbn [default from_option id]. change (0 =? 0) with true. cbn [negb].
  rewrite Hso, Z.eqb_refl. cbn [negb d_blocks]. rewrite Z.gtb_ltb, (proj2 (Z.ltb_ge nb _)) by lia.
  cbn [alloc d_mallocs negb]. rewrite <- Hbits. pose proof (wf_nbits _ Hwf).
  destruct (Bitmap.create_spec (nbits m)) as (m0 & Em & Hm & Hmb & _); [lia|].
  pose proof (create_nwords _ _ _ _ Em) as Hnw. rewrite Em. rok.
  rewrite (init_freemap_ok m0 m); [|done|done|done|done| |done|done|exact Hbits|exact Hmap].
  2: { rewrite Hnw. unfold ROUNDUP_DIV, WORD_BITS. rewrite u32_small by lia. lia. }
  rok. rewrite count_free_ok by (done || lia). rok. rewrite kassert_true.
  2: { apply Z.eqb_eq. rewrite Hun. unfold free_list_of. rewrite Z2Nat.id by lia. done. }
  rok. done.
Qed.

Lemma mount_spec s nb :
  fs_ok s -> super_dirty s = true -> nbits (freemap s) = sfs_freemap_bits (blocks s) -> nwords (freemap s) * 32 = nbits (freemap s) ->
  nbits (freemap s) < 2 ^ 32 - 32 -> length (info s) = 32%nat -> info s !! 31%nat = Some 0 -> blocks s <= nb ->
  exists s', sync_super s = Ok (0, s') /\ blocks s' = blocks s /\ freemap s' = freemap s /\ info s' = info s /\
    unused_blocks s' = unused_blocks s /\ super_dirty s' = false /\ (forall b, b = 1 \/ first_data s <= b -> block s' b = block s b) /\
    forall ws, ws = Dev nb SFS_BLKSIZE (disk s') [] [] -> sfs_do_mount ws = Ok (0, Some s', ws).
Proof.
  intros H Hdirty Hbits Hw Hbnd Hil Hi0 Hnb. pose proof (fo_data _ H) as Hfd. pose proof (fo_map _ H) as Hwf. pose proof (fo_bits _ H) as Hb.
  destruct (sync_super_ok s (fo_works _ H) Hfd Hdirty) as (s' & E & H1 & H2 & H3 & H4 & H5 & H6 & Hsup & Hmap & Hdata).
  exists s'. split_and!; try done. intros ws ->.
  assert (Hu : 0 <= unused_blocks s <= nbits (freemap s)).
  { rewrite (fo_unused _ H). unfold nfree, free_list_of.
    pose proof (length_filter (fun i => free_bit (freemap s) i = true) (seqZ 0 (nbits (freemap s)))) as Hlf. rewrite length_seqZ in Hlf. pose proof (wf_nbits _ Hwf). lia. }
  rewrite (mount_disk nb (disk s') _ (blocks s) (unused_blocks s) (info s) (freemap s) Hsup); try done;
    [|apply super_of_bytes; done || lia|apply (fo_unused _ H)].
  do 3 f_equal. destruct s'; simpl in *; by subst.
Qed.

Lemma din_roundtrip d : 0 <= size d < 2 ^ 32 -> 0 <= type d < 65536 -> 0 <= nlinks d < 65536 -> 0 <= dblocks d < 2 ^ 32 ->
  length (direct d) = 12%nat -> Forall (fun b => 0 <= b < 2 ^ 32) (direct d) -> 0 <= indirect d < 2 ^ 32 -> din_of_bytes (din_bytes d) = d.
Proof.
  destruct d as [sz ty nl db dir ind]. cbn [size type nlinks dblocks direct indirect]. intros Hsz Hty Hnl Hdb Hl Hd Hi.
  do 12 (destruct dir as [|? dir]; [done|]). destruct dir; [|done]. rewrite !Forall_cons in Hd. destruct_and! Hd.
  unfold din_of_bytes, din_bytes. cbn [size type nlinks dblocks direct indirect].
  assert (Hd16 : forall x, 0 <= x < 65536 -> le16 [x mod 256; x / 256 mod 256] = x) by (intros x Hx; cbn [le16]; lia).
  f_equal; [exact (le32_to_le32 sz Hsz)|exact (Hd16 ty Hty)|exact (Hd16 nl Hnl)|exact (le32_to_le32 db Hdb)| |exact (le32_to_le32 ind Hi)].
  cbn [seq fmap list_fmap].
  repeat match goal with |- _ :: _ = ?z :: _ => refine (f_equal2 cons (le32_to_le32 z _) _); [lia|] end. done.
Qed.

(** ** Writing the loaded inodes back *)

(** What block [ino x] holds is the inode [x]. *)
Definition stored (f : sfs) (x : sfs_inode) : Prop := din_of_bytes (slice (block f (ino x)) 0 64) = din x.

Record din_ok (d : sfs_disk_inode) : Prop := {
  do_size : 0 <= size d < 2 ^ 32; do_type : 0 <= type d < 65536; do_nlinks : 0 <= nlinks d < 65536; do_dblocks : 0 <= dblocks d < 2 ^ 32;
  do_len : length (direct d) = 12%nat; do_direct : Forall (fun b => 0 <= b < 2 ^ 32) (direct d); do_indirect : 0 <= indirect d < 2 ^ 32
}.

(** The inodes [L] in memory: each has a block of its own, in use, which holds
    it unless it is dirty. *)
Record loaded (L : list nat) (s : dst) : Prop := {
  lo_fs : fs_ok (fs s);
  lo_node : forall h, h ∈ L -> exists n, nodes s !! h = Some n /\ used (fs s) (ino (sin n)) /\ din_ok (din (sin n)) /\
    (dirty (sin n) = false -> stored (fs s) (sin n));
  lo_inj : forall h k n m, h ∈ L -> k ∈ L -> nodes s !! h = Some n -> nodes s !! k = Some m -> ino (sin n) = ino (sin m) -> h = k
}.

Definition node_data (n : node) : sfs_disk_inode * Z := (din (sin n), ino (sin n)).

(** Nothing but the blocks of the inodes [L] and their dirty marks has changed. *)
Record written (L : list nat) (s s' : dst) : Prop := {
  wr_super : blocks (fs s') = blocks (fs s) /\ freemap (fs s') = freemap (fs s) /\ info (fs s') = info (fs s) /\
    unused_blocks (fs s') = unused_blocks (fs s) /\ super_dirty (fs s') = super_dirty (fs s);
  wr_list : inode_list s' = inode_list s;
  wr_nodes : forall h, node_data <$> nodes s' !! h = node_data <$> nodes s !! h;
  wr_clean : forall h n n', nodes s !! h = Some n -> nodes s' !! h = Some n' -> dirty (sin n) = false -> dirty (sin n') = false;
  wr_blocks : forall b, (forall h n, h ∈ L -> nodes s !! h = Some n -> ino (sin n) <> b) -> block (fs s') b = block (fs s) b
}.

Lemma written_refl L s : written L s s.
Proof. constructor; try done. intros h n n' H1 H2. congruence. Qed.

Lemma written_node L s s' h n : written L s s' -> nodes s' !! h = Some n -> exists m, nodes s !! h = Some m /\ node_data m = node_data n.
Proof. intros W H. pose proof (wr_nodes _ _ _ W h) as E. rewrite H in E. destruct (nodes s !! h) as [m|]; [|done]. exists m. split; [done|]. by apply (inj Some). Qed.

Lemma written_trans L s1 s2 s3 : written L s1 s2 -> written L s2 s3 -> written L s1 s3.
Proof.
  intros W [(H1 & H2 & H3 & H4 & H5) Hl Hn Hc Hb]. pose proof W as [(G1 & G2 & G3 & G4 & G5) Gl Gn Gc Gb].
  constructor; [split_and!; congruence|congruence|intros h; by rewrite Hn| |].
  { intros h n n' En En' Hd. pose proof (Hn h) as E. rewrite En' in E. destruct (nodes s2 !! h) as [m|] eqn:Em; [|done].
    by eapply Hc, Gc. }
  intros b Hno. rewrite Hb; [by apply Gb|]. intros h n Hh Hn2. destruct (written_node _ _ _ _ _ W Hn2) as (m & Hm & E).
  injection E as _ E. rewrite <- E. by apply (Hno h).
Qed.

Lemma sync_inode_ok L s h : h ∈ L -> loaded L s ->
  exists r s', on_sin h sfs_fsync s = Ok (r, s') /\ loaded L s' /\ written L s s' /\ forall n, nodes s' !! h = Some n -> dirty (sin n) = false.
Proof.
  intros Hh Hs. pose proof Hs as [Hfs Hno Hinj]. destruct (Hno h Hh) as (n & Hn & Hu & Hd & Hst). pose proof (used_pos _ _ Hfs Hu) as Hpos.
  destruct (dirty (sin n)) eqn:Hdirty.
  2: { exists 0, s. split; [|split_and!; [done|by apply written_refl|intros m Hm; congruence]].
       rewrite (on_sin_ok h n sfs_fsync s 0 (sin n) (fs s) Hn) by (unfold sfs_fsync; by rewrite Hdirty).
       do 2 f_equal. rewrite set_sin_id, set_fs_id, insert_id by done. by destruct s. }
  assert (Hlen : length (din_bytes (din (sin n))) = 64%nat) by (apply din_bytes_length, Hd).
  set (c := patch 0 (din_bytes (din (sin n))) (block (fs s) (ino (sin n)))).
  assert (E : sfs_fsync (sin n) (fs s) = Ok (0, set_dirty false (sin n), set_block (ino (sin n)) c (fs s))).
  { unfold sfs_fsync. rewrite Hdirty. rewrite wbuf_ok; [done|apply Hfs|done|unfold SFS_BLKSIZE; lia|rewrite Hlen; unfold SFS_BLKSIZE; lia]. }
  exists 0. eexists. split; [by apply on_sin_ok|].
  assert (Hne : forall k m, k ∈ L -> nodes s !! k = Some m -> k <> h -> ino (sin m) <> ino (sin n)).
  { intros k m Hk Hm Hkh Ei. by apply Hkh, (Hinj k h m n). }
  split_and!.
  - constructor; cbn [fs nodes set_fs set_nodes].
    + by apply fs_ok_set_block.
    + intros k Hk. destruct (decide (k = h)) as [->|Hkh].
      * rewrite lookup_insert_eq. eexists. split; [done|]. cbn [sin set_sin]. split_and!; [done|done|]. intros _.
        unfold stored. change (ino (set_dirty false (sin n))) with (ino (sin n)). change (din (set_dirty false (sin n))) with (din (sin n)).
        rewrite block_set, Z.eqb_refl. unfold c. change 64 with (Z.of_nat 64). rewrite <- Hlen, slice_patch. apply din_roundtrip; apply Hd.
      * rewrite lookup_insert_ne by done. destruct (Hno k Hk) as (m & Hm & Hum & Hdm & Hsm). exists m. split_and!; try done.
        intros Hcl. unfold stored. rewrite block_set, (proj2 (Z.eqb_neq _ _)) by (by apply (Hne k)). by apply Hsm.
    + assert (Hino : forall k m, k ∈ L -> <[h := set_sin (set_dirty false (sin n)) n]> (nodes s) !! k = Some m ->
        exists m', nodes s !! k = Some m' /\ ino (sin m') = ino (sin m)).
      { intros k m Hk. destruct (decide (k = h)) as [->|Hkh]; [rewrite lookup_insert_eq|rewrite lookup_insert_ne by done]; [intros [= <-]|]; eauto. }
      intros j k a b Hj Hk Ha Hb Ei. destruct (Hino j a Hj Ha) as (a' & Ha' & Ea). destruct (Hino k b Hk Hb) as (b' & Hb' & Eb).
      apply (Hinj j k a' b'); congruence || done.
  - constructor; cbn [fs nodes inode_list set_fs set_nodes]; try done.
    + intros k. destruct (decide (k = h)) as [->|Hkh]; [by rewrite lookup_insert_eq, Hn|by rewrite lookup_insert_ne].
    + intros k m m' Em. destruct (decide (k = h)) as [->|Hkh]; [rewrite lookup_insert_eq|rewrite lookup_insert_ne by done]; [by intros [= <-]|congruence].
    + intros b Hb. rewrite block_set. zcase; [|done]. subst b. by destruct (Hb h n Hh Hn).
  - cbn [nodes set_fs set_nodes]. rewrite lookup_insert_eq. intros m [= <-]. done.
Qed.

Lemma sync_inodes_ok L l : forall s, (forall h, h ∈ l -> h ∈ L) -> loaded L s ->
  exists s', sync_inodes l s = Ok (tt, s') /\ loaded L s' /\ written L s s' /\
    forall h n, h ∈ l -> nodes s' !! h = Some n -> dirty (sin n) = false.
Proof.
  induction l as [|h l IH]; intros s Hl Hs; cbn [sync_inodes].
  { exists s. split_and!; [done|done|apply written_refl|]. by intros h n ?%elem_of_nil. }
  assert (Hh : h ∈ L) by (apply Hl, elem_of_cons; by left).
  destruct (sync_inode_ok L s h Hh Hs) as (r & s1 & E1 & H1 & W1 & Hc1). rewrite (bind_Ok _ _ _ _ _ E1).
  destruct (IH s1) as (s2 & -> & H2 & W2 & Hst); [intros k Hk; apply Hl, elem_of_cons; by right|done|].
  exists s2. split_and!; [done|done|by eapply written_trans|].
  intros k n Hk Hn. apply elem_of_cons in Hk as [->|Hk]; [|by apply (Hst k)].
  destruct (written_node _ _ _ _ _ W2 Hn) as (m & Hm & _). by apply (wr_clean _ _ _ W2 h m n Hm Hn), Hc1.
Qed.

(** The superblock as [mksfs] and [mount] leave it: a map of whole blocks, and
    a text that ends with a zero byte. *)
Record super_ok (f : sfs) : Prop := {
  so_bits : nbits (freemap f) = sfs_freemap_bits (blocks f);
  so_words : nwords (freemap f) * 32 = nbits (freemap f);
  so_bound : nbits (freemap f) < 2 ^ 32 - 32;
  so_text : length (info f) = 32%nat /\ info f !! 31%nat = Some 0
}.

(** C18: A file system that [sfs_sync] writes back and that is mounted again is
    the file system it was.  The mount succeeds (the count of free blocks passes
    its check) and gives the same superblock and the same free map, with nothing
    dirty; the block of every loaded inode then holds exactly the inode as it
    was in memory, dirty or not; and every other block (data, directories,
    indirect blocks and the inodes that are not loaded) is as it was.  Assumed:
    the superblock is marked dirty, the device works, and the loaded inodes have
    blocks of their own. *)
Theorem sfs_sync_mount_roundtrip s nb :
  loaded (inode_list s) s -> super_ok (fs s) -> super_dirty (fs s) = true -> blocks (fs s) <= nb ->
  exists s', sfs_sync s = Ok (0, s') /\
    (let d := Dev nb SFS_BLKSIZE (disk (fs s')) [] [] in sfs_do_mount d = Ok (0, Some (fs s'), d)) /\
    blocks (fs s') = blocks (fs s) /\ freemap (fs s') = freemap (fs s) /\ info (fs s') = info (fs s) /\
    unused_blocks (fs s') = unused_blocks (fs s) /\ super_dirty (fs s') = false /\
    (forall h n, h ∈ inode_list s -> nodes s !! h = Some n -> din_of_bytes (slice (block (fs s') (ino (sin n))) 0 64) = din (sin n)) /\
    (forall b, b = 1 \/ first_data (fs s) <= b -> (forall h n, h ∈ inode_list s -> nodes s !! h = Some n -> ino (sin n) <> b) ->
       block (fs s') b = block (fs s) b).
Proof.
  intros Hld [Hbits Hw Hbnd [Hil Hi0]] Hdirty Hnb.
  destruct (sync_inodes_ok (inode_list s) (inode_list s) s ltac:(done) Hld) as (s1 & E1 & H1 & W1 & Hst).
  pose proof W1 as [(G1 & G2 & G3 & G4 & G5) _ _ _ Gb]. unfold sfs_sync. rewrite (bind_Ok _ _ _ _ _ E1).
  destruct (mount_spec (fs s1) nb) as (f & E & F1 & F2 & F3 & F4 & F5 & Fd & Fm); rewrite ?G1, ?G2, ?G3; try (done || congruence); [apply H1|].
  unfold on_fs. rewrite E. cbn [mbind res_bind]. eexists. split; [done|]. cbn [fs set_fs].
  split_and!; try congruence; [by apply Fm|..].
  - intros h n Hh Hn. pose proof (wr_nodes _ _ _ W1 h) as En. rewrite Hn in En.
    destruct (lo_node _ _ H1 h Hh) as (m & Hm & Hu & _ & Hcl). rewrite Hm in En. injection En as Ed Ei.
    rewrite <- Ei, Fd, <- Ed; [by apply Hcl, (Hst h)|]. destruct Hu as [[? _] _]. rewrite (first_data_blocks (fs s) (fs s1)) in * by done. done.
  - intros b Hb Hno. rewrite Fd by (by rewrite (first_data_blocks (fs s) (fs s1))). by apply Gb.
Qed.

(** ** Example: 64 blocks, three of them in use *)
Definition real_fs : sfs :=
  Sfs 64 61 (replicate 32 0) true (Bitmap 32768 1024 ([0xFFFFFFF8; 0xFFFFFFFF] ++ replicate 1022 0)) ∅ [].

Lemma free_list_prefix m k : 0 <= k <= nbits m -> (forall i, k <= i -> free_bit m i = false) ->
  free_list_of m = filter (fun i => free_bit m i = true) (seqZ 0 k).
Proof.
  intros Hk Hf. unfold free_list_of. replace (nbits m) with (k + (nbits m - k)) by lia. rewrite seqZ_app, filter_app by lia.
  assert (filter (fun i => free_bit m i = true) (seqZ (0 + k) (nbits m - k)) = []) as ->; [|by rewrite app_nil_r].
  destruct (filter _ _) as [|i l] eqn:E; [done|]. assert (i ∈ i :: l) as Hi by (by left). rewrite <- E in Hi.
  apply list_elem_of_filter in Hi as [Hi1 Hi2]. apply elem_of_seqZ in Hi2. rewrite Hf in Hi1 by lia. done.
Qed.

Lemma real_free_above i : 64 <= i -> free_bit (freemap real_fs) i = false.
Proof.
  intros Hi. unfold free_bit, word. cbn [freemap real_fs map].
  assert (2 <= i / 32) by (apply Z.div_le_lower_bound; lia). rewrite lookup_app_r by (simpl; lia).
  destruct (replicate 1022 0 !! _) eqn:El; [|apply Z.bits_0]. apply list_elem_of_lookup_2, elem_of_replicate in El as [-> _]. apply Z.bits_0.
Qed.

Lemma real_fs_ok : fs_ok real_fs.
Proof.
  assert (Hlen : length ([0xFFFFFFF8; 0xFFFFFFFF] ++ replicate 1022 0) = 1024%nat) by (rewrite length_app, length_replicate; reflexivity).
  constructor; cbn [real_fs blocks unused_blocks results].
  - change (freemap real_fs) with (Bitmap 32768 1024 ([0xFFFFFFF8; 0xFFFFFFFF] ++ replicate 1022 0)). constructor; cbn [nbits nwords map].
    + rewrite Hlen. lia.
    + lia.
    + apply Forall_app. split; [constructor; [lia|constructor; [lia|constructor]]|apply Forall_replicate; lia].
    + intros i Hi. apply free_above. cbn [map]. rewrite Hlen. lia.
  - vm_compute. split; [discriminate|reflexivity].
  - intros i Hi Hf. change (first_data _) with 3. destruct (decide (i < 64)).
    + pose proof (below_check (fun i => implb (free_bit (freemap real_fs) i) (3 <=? i)) 64 i ltac:(vm_compute; reflexivity) ltac:(lia)) as Hb.
      cbn beta in Hb. rewrite Hf in Hb. cbn [implb] in Hb. apply Z.leb_le in Hb. lia.
    + exfalso. change (free_bit (freemap real_fs) i = true) in Hf. rewrite real_free_above in Hf by lia. discriminate.
  - unfold nfree. rewrite (free_list_prefix _ 64) by (cbn; lia || exact real_free_above). vm_compute. reflexivity.
  - split; vm_compute; discriminate.
  - reflexivity.
Defined.

(** The root directory is loaded and has been changed. *)
Definition real_root : node := Node (Sin (Din 512 2 3 2 ([7; 9] ++ replicate 10 0) 0) 1 true) false 1 1 0.
Definition real_state : dst := Dst real_fs {[ 0%nat := real_root ]} 1 [0%nat] [].

Lemma real_loaded : loaded (inode_list real_state) real_state.
Proof.
  constructor; [exact real_fs_ok|..].
  - intros h ->%list_elem_of_singleton. exists real_root. split_and!; [reflexivity| | |discriminate].
    + split; [split; [by left|reflexivity]|vm_compute; reflexivity].
    + constructor; cbn [real_root sin din size type nlinks dblocks direct indirect]; try lia; [reflexivity|].
      apply Forall_app. split; [repeat constructor; lia|apply Forall_replicate; lia].
  - intros h k n m ->%list_elem_of_singleton ->%list_elem_of_singleton _ _ _. reflexivity.
Defined.

Lemma sfs_sync_mount_roundtrip_witness :
  exists s', sfs_sync real_state = Ok (0, s') /\
    (let d := Dev 100 SFS_BLKSIZE (disk (fs s')) [] [] in sfs_do_mount d = Ok (0, Some (fs s'), d)) /\
    din_of_bytes (slice (block (fs s') 1) 0 64) = Din 512 2 3 2 ([7; 9] ++ replicate 10 0) 0.
Proof.
  destruct (sfs_sync_mount_roundtrip real_state 100) as (s' & E & Hm & _ & _ & _ & _ & _ & Hi & _).
  - exact real_loaded.
  - constructor; [reflexivity|reflexivity|vm_compute; reflexivity|split; reflexivity].
  - reflexivity.
  - vm_compute. discriminate.
  - exists s'. split; [exact E|]. split; [exact Hm|]. apply (Hi 0%nat real_root); [by apply list_elem_of_singleton|reflexivity].
Defined.
