(* ===== verification/Mksfs.v ===== *)
(** * tools/mksfs.c: making the image of a file system

    The tool that writes a directory of the host into an SFS image.  Host
    calls that end the tool when they fail (memory, [open], [fchdir], [lstat],
    [opendir], [pwrite]) take their outcomes from [oks] in order; when it is
    used up they succeed.  A tree of the host gives the inode number of every
    file, the results of the [read] calls up to the end of the file ([None]:
    the call fails) and of [readlink].  Cached inodes and blocks live at
    addresses; the hash tables hold chains of addresses. *)
From S2P Require Import Prelude Libs Bitmap SfsDisk SfsFile.

Definition HASH_SHIFT : Z := 10.
Definition HASH_LIST_SIZE : Z := Z.shiftl 1 HASH_SHIFT.
Definition SFS_MAX_NBLKS : Z := 1024 * 512.
Definition SFS_MAX_INFO_LEN : Z := 31.
Definition SFS_TYPE_LINK : Z := 3.
Definition SFS_L0_NBLKS : Z := SFS_NDIRECT.
Definition SFS_L1_NBLKS : Z := SFS_BLK_NENTRY + SFS_L0_NBLKS.
Definition SFS_L2_NBLKS : Z := SFS_BLK_NENTRY * SFS_BLK_NENTRY + SFS_L1_NBLKS.
Definition SFS_LN_NBLKS : Z := SFS_MAX_FILE_SIZE / SFS_BLKSIZE.

Definition hash32 (val : Z) : Z := Libs.hash32 val HASH_SHIFT.
Definition hash64 (val : Z) : Z := Libs.hash32 (u32 val) HASH_SHIFT.

(** ** Data *)

(** [cache] as its 1024 words. *)
Record cache_block := CB { cb_ino : Z; cache : list Z }.

(** [inode] is [ci_din] and [db_indirect]; [l1], [l2] are addresses. *)
Record cache_inode := CI {
  ci_din : sfs_disk_inode; db_indirect : Z; real : Z; ci_ino : Z; nblks : Z; l1 : option nat; l2 : option nat
}.

(** [cis], [cbs]: the heap; [next_h]: the next address; [inodes],
    [blks]: the hash tables; [sub]: the names between [sp_root] and
    [sp_end]; [ename]: the name in the static entry of [add_entry]. *)
Record sfs_fs := Mk {
  unused : Z; sinfo : list Z; sub : list (list Z); img : gmap Z blk; ninos : Z; next_ino : Z;
  cis : gmap nat cache_inode; cbs : gmap nat cache_block; next_h : nat;
  inodes : gmap Z (list nat); blks : gmap Z (list nat); ename : list Z; oks : list bool
}.

#[local] Set Warnings "-register-all".
(** Files of the host. *)
Inductive host :=
| HFile (r : Z) (reads : list (option (list Z)))
| HDir (r : Z) (entries : list (list Z * host))
| HLink (r : Z) (target : option (list Z))
| HOther.

(** [Exit]: [bug], the tool reports an error and ends.  [Abort]: an [assert]
    failed. *)
Inductive out (A : Type) : Type := Done (a : A) | Exit | Abort.
Arguments Done {A} a.
Arguments Exit {A}.
Arguments Abort {A}.

Definition T (A : Type) : Type := sfs_fs -> out (A * sfs_fs).
Definition tret {A} (a : A) : T A := fun s => Done (a, s).
Definition tbind {A B} (m : T A) (f : A -> T B) : T B := fun s =>
  match m s with Done (a, s) => f a s | Exit => Exit | Abort => Abort end.
Declare Scope tool_scope.
Delimit Scope tool_scope with tool.
Notation "x <- m ; k" := (tbind m (fun x => k)) (at level 20, m at level 100, k at level 200, right associativity) : tool_scope.
Notation "' x <- m ; k" := (tbind m (fun x => k)) (at level 20, x pattern, m at level 100, k at level 200, right associativity) : tool_scope.
#[local] Open Scope tool_scope.

Definition bug {A} : T A := fun _ => Exit.
Definition tassert (b : bool) : T unit := if b then tret tt else fun _ => Abort.

(** A host call that the tool cannot do without. *)
Definition hostcall : T unit := fun s =>
  match oks s with
  | [] => Done (tt, s)
  | ok :: l =>
      if ok then Done (tt, Mk (unused s) (sinfo s) (sub s) (img s) (ninos s) (next_ino s) (cis s) (cbs s) (next_h s) (inodes s) (blks s) (ename s) l)
      else Exit
  end.
Definition set_sub (l : list (list Z)) (s : sfs_fs) : sfs_fs :=
  Mk (unused s) (sinfo s) l (img s) (ninos s) (next_ino s) (cis s) (cbs s) (next_h s) (inodes s) (blks s) (ename s) (oks s).
Definition set_img (m : gmap Z blk) (s : sfs_fs) : sfs_fs :=
  Mk (unused s) (sinfo s) (sub s) m (ninos s) (next_ino s) (cis s) (cbs s) (next_h s) (inodes s) (blks s) (ename s) (oks s).
Definition set_cis (m : gmap nat cache_inode) (s : sfs_fs) : sfs_fs :=
  Mk (unused s) (sinfo s) (sub s) (img s) (ninos s) (next_ino s) m (cbs s) (next_h s) (inodes s) (blks s) (ename s) (oks s).
Definition set_cbs (m : gmap nat cache_block) (s : sfs_fs) : sfs_fs :=
  Mk (unused s) (sinfo s) (sub s) (img s) (ninos s) (next_ino s) (cis s) m (next_h s) (inodes s) (blks s) (ename s) (oks s).
Definition set_ename (l : list Z) (s : sfs_fs) : sfs_fs :=
  Mk (unused s) (sinfo s) (sub s) (img s) (ninos s) (next_ino s) (cis s) (cbs s) (next_h s) (inodes s) (blks s) l (oks s).
Definition get_ci (h : nat) : T cache_inode := fun s => match cis s !! h with Some c => Done (c, s) | None => Abort end.
Definition put_ci (h : nat) (c : cache_inode) : T unit := fun s => Done (tt, set_cis (<[h := c]> (cis s)) s).
Definition get_cb (h : nat) : T cache_block := fun s => match cbs s !! h with Some c => Done (c, s) | None => Abort end.
Definition put_cb (h : nat) (c : cache_block) : T unit := fun s => Done (tt, set_cbs (<[h := c]> (cbs s)) s).

(** ** Blocks and the caches *)
Definition sfs_alloc_ino : T Z := fun s =>
  if next_ino s <? ninos s then
    Done (next_ino s, Mk (u32 (unused s - 1)) (sinfo s) (sub s) (img s) (ninos s) (next_ino s + 1) (cis s) (cbs s) (next_h s) (inodes s) (blks s) (ename s) (oks s))
  else Exit.

Definition chain (m : gmap Z (list nat)) (i : Z) : list nat := default [] (m !! i).

(** The new block goes to the chain of the argument [ino]. *)
Definition alloc_cache_block (ino : Z) : T nat :=
  _ <- hostcall;
  n <- (if negb (ino =? 0) then tret ino else sfs_alloc_ino);
  _ <- hostcall;
  fun s => let h := next_h s in let head := hash32 ino in
    Done (h, Mk (unused s) (sinfo s) (sub s) (img s) (ninos s) (next_ino s) (cis s) (<[h := CB n (replicate 1024 0)]> (cbs s)) (S h)
               (inodes s) (<[head := h :: chain (blks s) head]> (blks s)) (ename s) (oks s)).

Definition search_cache_block (ino : Z) : T (option nat) := fun s =>
  Done (snd <$> list_find (fun h => match cbs s !! h with Some c => cb_ino c =? ino | None => false end = true) (chain (blks s) (hash32 ino)), s).

Definition alloc_cache_inode (r ino type : Z) : T nat :=
  _ <- hostcall;
  n <- (if negb (ino =? 0) then tret ino else sfs_alloc_ino);
  fun s => let h := next_h s in let head := hash64 r in
    Done (h, Mk (unused s) (sinfo s) (sub s) (img s) (ninos s) (next_ino s)
               (<[h := CI (Din 0 type 0 0 (replicate 12 0) 0) 0 r n 0 None None]> (cis s)) (cbs s) (S h)
               (<[head := h :: chain (inodes s) head]> (inodes s)) (blks s) (ename s) (oks s)).

Definition search_cache_inode (r : Z) : T (option nat) := fun s =>
  Done (snd <$> list_find (fun h => match cis s !! h with Some c => real c =? r | None => false end = true) (chain (inodes s) (hash64 r)), s).

(** [st_size]: of the image; [junk]: the bytes behind the text, which are not
    initialised. *)
Definition info_text : list Z := [115; 105; 109; 112; 108; 101; 32; 102; 105; 108; 101; 32; 115; 121; 115; 116; 101; 109; 0].
Definition create_sfs (st_size : Z) (image : gmap Z blk) (junk : list Z) (ok : list bool) : out (nat * sfs_fs) :=
  let n := u32 (st_size / SFS_BLKSIZE) in
  let n := if n >? SFS_MAX_NBLKS then SFS_MAX_NBLKS else n in
  let next := SFS_BLKN_FREEMAP + (n + SFS_BLKBITS - 1) / SFS_BLKBITS in
  let s := Mk (n - next) (info_text ++ junk) [] image n next ∅ ∅ 0 ∅ ∅ (replicate 256 0) ok in
  (_ <- hostcall;
   if next >=? n then bug
   else
     _ <- hostcall;
     alloc_cache_inode 0 SFS_BLKN_ROOT SFS_TYPE_DIR) s.

Definition subpath_push (name : list Z) : T unit :=
  _ <- hostcall; _ <- hostcall; fun s => Done (tt, set_sub (sub s ++ [name]) s).
Definition subpath_pop : T unit := fun s =>
  (_ <- tassert (negb (match sub s with [] => true | _ => false end));
   fun s => Done (tt, set_sub (take (length (sub s) - 1) (sub s)) s)) s.

(** [len] as the [size_t] it is passed as; a shorter block is filled up with
    zero bytes. *)
Definition write_block (data : list Z) (len ino : Z) : T unit := fun s =>
  (_ <- tassert ((len <=? SFS_BLKSIZE) && (ino <? ninos s));
   _ <- hostcall;
   fun s => Done (tt, set_img (<[ino := patch 0 (take (Z.to_nat len) data) ∅]> (img s)) s)) s.

Definition word_bytes (l : list Z) : list Z := mjoin (to_le32 <$> l).
Definition inode_bytes (c : cache_inode) : list Z := din_bytes (ci_din c) ++ to_le32 (db_indirect c).

Definition flush_cache_block (h : nat) : T unit := c <- get_cb h; write_block (word_bytes (cache c)) SFS_BLKSIZE (cb_ino c).
Definition flush_cache_inode (h : nat) : T unit := c <- get_ci h; write_block (inode_bytes c) 68 (ci_ino c).

(** ** Closing the image *)

(** [for (j = start; j < end; j ++) data[j / bits] |= (1 << (j % bits))] *)
Fixpoint set_bits (n : nat) (j : Z) (data : list Z) : list Z :=
  match n with
  | O => data
  | S n =>
      let ix := Z.to_nat (j / 32) in
      set_bits n (j + 1) (<[ix := Z.lor (default 0 (data !! ix)) (u32 (Z.shiftl 1 (j mod 32)))]> data)
  end.

(** The words of the block of the free map that begins with block [i]. *)
Definition map_words (i nino next : Z) : list Z :=
  if i + SFS_BLKBITS >? next then
    let start := if i <? next then next - i else 0 in
    let fin := if i + SFS_BLKBITS >? nino then nino - i else SFS_BLKBITS in
    set_bits (Z.to_nat (fin - start)) start (replicate 1024 0)
  else replicate 1024 0.

Fixpoint iter_tool {A} (f : A -> T unit) (l : list A) : T unit :=
  match l with [] => tret tt | x :: l => _ <- f x; iter_tool f l end.

Definition flush_chain (i : Z) : T unit := fun s =>
  (_ <- iter_tool flush_cache_block (chain (blks s) i); iter_tool flush_cache_inode (chain (inodes s) i)) s.

(** [for (i = 0; i < ninos; ino ++, i += SFS_BLKBITS)]: round [k] of them. *)
Definition write_map (k : Z) : T unit := fun s =>
  write_block (word_bytes (map_words (k * SFS_BLKBITS) (ninos s) (next_ino s))) SFS_BLKSIZE (SFS_BLKN_FREEMAP + k) s.

Definition mk_super_bytes (s : sfs_fs) : list Z := to_le32 SFS_MAGIC ++ to_le32 (ninos s) ++ to_le32 (unused s) ++ sinfo s.

Definition close_sfs : T unit := fun s =>
  (_ <- iter_tool write_map (seqZ 0 ((ninos s + SFS_BLKBITS - 1) / SFS_BLKBITS));
   _ <- write_block (mk_super_bytes s) 44 SFS_BLKN_SUPER;
   iter_tool flush_chain (seqZ 0 HASH_LIST_SIZE)) s.

(** ** Appending blocks *)

(** The new values of [*cbp] and [*inop]. *)
Definition update_cache (cbp : option nat) (inop : Z) : T (nat * Z) :=
  if inop =? 0 then
    h <- alloc_cache_block 0;
    c <- get_cb h;
    tret (h, cb_ino c)
  else
    o <- (match cbp with Some h => c <- get_cb h; tret (if cb_ino c =? inop then Some h else None) | None => tret None end);
    match o with
    | Some h => tret (h, inop)
    | None =>
        o <- search_cache_block inop;
        match o with
        | None => fun _ => Abort
        | Some h => c <- get_cb h; _ <- tassert (cb_ino c =? inop); tret (h, inop)
        end
    end.

Definition set_ci_din (f : sfs_disk_inode -> sfs_disk_inode) (c : cache_inode) : cache_inode :=
  CI (f (ci_din c)) (db_indirect c) (real c) (ci_ino c) (nblks c) (l1 c) (l2 c).
(** [data[i] = v] in a cached block. *)
Definition put_word (h : nat) (i v : Z) : T unit := c <- get_cb h; put_cb h (CB (cb_ino c) (<[Z.to_nat i := v]> (cache c))).

(** The entry of the map for block [file->nblks]. *)
Definition append_entry (h : nat) (ino : Z) : T unit :=
  c <- get_ci h;
  let n := nblks c in
  if n <? SFS_L0_NBLKS then put_ci h (set_ci_din (set_direct n ino) c)
  else if n <? SFS_L1_NBLKS then
    let n := n - SFS_L0_NBLKS in
    '(b1, ind) <- update_cache (l1 c) (indirect (ci_din c));
    _ <- put_ci h (CI (set_indirect ind (ci_din c)) (db_indirect c) (real c) (ci_ino c) (nblks c) (Some b1) (l2 c));
    put_word b1 n ino
  else if n <? SFS_L2_NBLKS then
    let n := n - SFS_L1_NBLKS in
    '(b2, db) <- update_cache (l2 c) (db_indirect c);
    _ <- put_ci h (CI (ci_din c) db (real c) (ci_ino c) (nblks c) (l1 c) (Some b2));
    d2 <- get_cb b2;
    '(b1, ind) <- update_cache (l1 c) (default 0 (cache d2 !! Z.to_nat (n / SFS_BLK_NENTRY)));
    _ <- put_ci h (CI (ci_din c) db (real c) (ci_ino c) (nblks c) (Some b1) (Some b2));
    _ <- put_word b2 (n / SFS_BLK_NENTRY) ind;
    put_word b1 (n mod SFS_BLK_NENTRY) ino
  else tret tt.

Definition append_block (h : nat) (len ino : Z) : T unit :=
  _ <- tassert (len <=? SFS_BLKSIZE);
  c <- get_ci h;
  if nblks c >=? SFS_LN_NBLKS then bug
  else
    _ <- append_entry h ino;
    c <- get_ci h;
    let d := ci_din c in
    put_ci h (CI (set_dblocks (u32 (dblocks d + 1)) (set_size (u32 (size d + len)) d)) (db_indirect c) (real c) (ci_ino c) (u32 (nblks c + 1)) (l1 c) (l2 c)).

(** ** Directories and files *)
Definition mk_entry_bytes (ino : Z) (name : list Z) : list Z := to_le32 ino ++ name.

(** [strcpy] into the static entry leaves the bytes behind the end of the
    string as they were. *)
Definition add_entry (cur file : nat) (name : list Z) : T unit :=
  c <- get_ci cur;
  _ <- tassert ((type (ci_din c) =? SFS_TYPE_DIR) && (Z.of_nat (length name) <=? SFS_MAX_FNAME_LEN));
  f <- get_ci file;
  _ <- (fun s => Done (tt, set_ename (name ++ 0 :: drop (S (length name)) (ename s)) s));
  e <- sfs_alloc_ino;
  _ <- (fun s => write_block (mk_entry_bytes (ci_ino f) (ename s)) 260 e s);
  _ <- append_block cur 256 e;
  f <- get_ci file;
  put_ci file (set_ci_din (fun d => set_nlinks ((nlinks d + 1) mod 65536) d) f).

(** The results of [read] up to the end of the file; [last] is the last of
    them.  A failed call is passed on as a length. *)
Fixpoint open_file (file : nat) (last : Z) (reads : list (option (list Z))) : T unit :=
  match reads with
  | [] => tret tt
  | r :: reads =>
      let ret := match r with Some l => Z.of_nat (length l) | None => -1 end in
      _ <- tassert (last =? SFS_BLKSIZE);
      ino <- sfs_alloc_ino;
      _ <- write_block (default [] r) (u64 ret) ino;
      _ <- append_block file (u64 ret) ino;
      open_file file ret reads
  end.

(** At most [SFS_BLKSIZE] bytes of the target. *)
Definition open_link (file : nat) (target : option (list Z)) : T unit :=
  ino <- sfs_alloc_ino;
  match target with
  | None => bug
  | Some l =>
      let ret := Z.min (Z.of_nat (length l)) SFS_BLKSIZE in
      if ret =? SFS_BLKSIZE then bug
      else _ <- write_block l ret ino; append_block file ret ino
  end.

Definition add_file (cur : nat) (name : list Z) (r : Z) (reads : list (option (list Z))) : T unit :=
  o <- search_cache_inode r;
  file <- (match o with
           | Some h => tret h
           | None => h <- alloc_cache_inode r 0 SFS_TYPE_FILE; _ <- open_file h SFS_BLKSIZE reads; tret h
           end);
  add_entry cur file name.

Definition add_link (cur : nat) (name : list Z) (r : Z) (target : option (list Z)) : T unit :=
  file <- alloc_cache_inode r 0 SFS_TYPE_LINK;
  _ <- open_link file target;
  add_entry cur file name.

(** [opendir] is the open directory [current] of the host. *)
Definition add_dir (open_dir : nat -> nat -> T unit) (parent : nat) (name : list Z) (r : Z) : T unit :=
  o <- search_cache_inode r;
  _ <- tassert (match o with None => true | Some _ => false end);
  cur <- alloc_cache_inode r 0 SFS_TYPE_DIR;
  _ <- hostcall;
  _ <- subpath_push name;
  _ <- open_dir cur parent;
  _ <- hostcall;
  _ <- subpath_pop;
  add_entry parent cur name.

(** Names that begin with a dot, "." and ".." among them, are skipped. *)
Definition hidden (name : list Z) : bool := match name with 46 :: _ => true | _ => false end.

(** One entry of the host directory. *)
Definition open_entry (open_dir : nat -> nat -> T unit) (cur : nat) (name : list Z) (t : host) : T unit :=
  if hidden name then tret tt
  else if Z.of_nat (length name) >? SFS_MAX_FNAME_LEN then bug
  else
    _ <- hostcall;
    match t with
    | HLink r target => add_link cur name r target
    | HFile r reads => _ <- hostcall; add_file cur name r reads
    | HDir r _ => _ <- hostcall; add_dir open_dir cur name r
    | HOther => hostcall
    end.

(** The directory [t] of the host into the inode [cur]. *)
Fixpoint open_dir (t : host) (cur parent : nat) : T unit :=
  match t with
  | HDir _ entries =>
      _ <- hostcall;
      _ <- add_entry cur cur [46];
      _ <- add_entry cur parent [46; 46];
      (fix loop (l : list (list Z * host)) : T unit :=
         match l with
         | [] => tret tt
         | (name, t) :: l => _ <- open_entry (open_dir t) cur name t; loop l
         end) entries
  | _ => bug
  end.

Definition create_img (home : host) (root : nat) : T unit :=
  _ <- hostcall;
  _ <- hostcall;
  _ <- hostcall;
  _ <- open_dir home root root;
  _ <- hostcall;
  close_sfs.

(** [image] is what the file holds before. *)
Definition open_img (name : list Z) (st_size : Z) (image : gmap Z blk) (junk : list Z) (ok : list bool) : out (nat * sfs_fs) :=
  let n := length name in
  if (n <=? 4)%nat || negb (bool_decide (drop (n - 4) name = [46; 105; 109; 103])) then Exit
  else match ok with
       | [] => create_sfs st_size image junk []
       | b :: ok => if b then create_sfs st_size image junk ok else Exit
       end.

Definition mksfs (name : list Z) (st_size : Z) (image : gmap Z blk) (junk : list Z) (ok : list bool) (home : host) : out (gmap Z blk) :=
  match open_img name st_size image junk ok with
  | Done (root, s) => match create_img home root s with Done (_, s) => Done (img s) | Exit => Exit | Abort => Abort end
  | Exit => Exit
  | Abort => Abort
  end.

(** ** Running the tool *)
Lemma tbind_Done {A B} (m : T A) (f : A -> T B) s a s' : m s = Done (a, s') -> tbind m f s = f a s'.
Proof. intros H. unfold tbind. by rewrite H. Qed.
Ltac tstep H := rewrite (tbind_Done _ _ _ _ _ H); cbv beta iota; cbn [negb fst snd].

Lemma hostcall_ok s : oks s = [] -> hostcall s = Done (tt, s).
Proof. intros H. unfold hostcall. by rewrite H. Qed.
Lemma tassert_ok (b : bool) s : b = true -> tassert b s = Done (tt, s).
Proof. by intros ->. Qed.
Lemma get_ci_ok h c s : cis s !! h = Some c -> get_ci h s = Done (c, s).
Proof. intros H. unfold get_ci. by rewrite H. Qed.
Lemma get_cb_ok h c s : cbs s !! h = Some c -> get_cb h s = Done (c, s).
Proof. intros H. unfold get_cb. by rewrite H. Qed.

(** ** Well-formed states *)

(** The first block behind the free map. *)
Definition first (s : sfs_fs) : Z := SFS_BLKN_FREEMAP + (ninos s + SFS_BLKBITS - 1) / SFS_BLKBITS.

(** The block that a cached inode or a cached block is going to be written to. *)
Definition owner (s : sfs_fs) (o : nat + nat) : option Z :=
  match o with inl h => ci_ino <$> cis s !! h | inr h => cb_ino <$> cbs s !! h end.

Lemma first_eq s : first s = 2 + (ninos s + 32767) / 32768.
Proof. unfold first. change SFS_BLKBITS with 32768. change SFS_BLKN_FREEMAP with 2. do 2 f_equal. lia. Qed.

Record base (s : sfs_fs) : Prop := {
  ba_oks : oks s = [];
  ba_next : first s <= next_ino s <= ninos s;
  ba_max : ninos s <= SFS_MAX_NBLKS;
  ba_unused : unused s = ninos s - next_ino s;
  ba_ename : length (ename s) = 256%nat;
  ba_ci : forall h c, cis s !! h = Some c ->
    (h < next_h s)%nat /\ 0 <= nlinks (ci_din c) <= next_ino s - first s /\ h ∈ chain (inodes s) (hash64 (real c)) /\
    (forall j, l1 c = Some j -> is_Some (cbs s !! j));
  ba_cb : forall h b, cbs s !! h = Some b -> (h < next_h s)%nat /\ h ∈ chain (blks s) 0;
  ba_chain : forall i h, h ∈ chain (inodes s) i -> is_Some (cis s !! h);
  ba_bchain : forall i h, h ∈ chain (blks s) i -> is_Some (cbs s !! h);
  ba_area : forall o n, owner s o = Some n -> o <> inl 0%nat -> first s <= n < next_ino s;
  ba_root : ci_ino <$> cis s !! 0%nat = Some 1;
  ba_inj : forall o o' n, owner s o = Some n -> owner s o' = Some n -> o = o';
  ba_l1 : forall h c h' c' j, cis s !! h = Some c -> cis s !! h' = Some c' -> l1 c = Some j -> l1 c' = Some j -> h = h'
}.

(** [c'] is [c] with more links. *)
Definition more_links (c c' : cache_inode) : Prop :=
  exists n, nlinks (ci_din c) <= n /\ c' = set_ci_din (set_nlinks n) c.

(** From [s] to [s'] nothing but the inodes of [X] and their indirect blocks
    changes, apart from link counts; blocks in use keep their contents. *)
Record ext (X : gset nat) (s s' : sfs_fs) : Prop := {
  ex_ninos : ninos s' = ninos s;
  ex_info : sinfo s' = sinfo s;
  ex_next : next_ino s <= next_ino s';
  ex_h : (next_h s <= next_h s')%nat;
  ex_ci : forall k c, cis s !! k = Some c -> exists c', cis s' !! k = Some c' /\
    ci_ino c' = ci_ino c /\ real c' = real c /\ type (ci_din c') = type (ci_din c) /\ nlinks (ci_din c) <= nlinks (ci_din c') /\
    (forall j, l1 c' = Some j -> l1 c = Some j \/ (next_h s <= j)%nat) /\ (k ∉ X -> more_links c c');
  ex_cb : forall j b, cbs s !! j = Some b -> exists b', cbs s' !! j = Some b' /\ cb_ino b' = cb_ino b /\
    ((forall k c, k ∈ X -> cis s !! k = Some c -> l1 c <> Some j) -> b' = b);
  ex_img : forall b, b < next_ino s -> img s' !! b = img s !! b;
  ex_new : forall o n, owner s' o = Some n -> owner s o = Some n \/ next_ino s <= n;
  ex_fresh : forall k c', cis s' !! k = Some c' -> cis s !! k = None ->
    (next_h s <= k)%nat /\ forall j, l1 c' = Some j -> (next_h s <= j)%nat
}.

Lemma more_links_refl c : more_links c c.
Proof. exists (nlinks (ci_din c)). split; [lia|]. by destruct c as [[]]. Qed.
Lemma more_links_trans a b c : more_links a b -> more_links b c -> more_links a c.
Proof. intros (n & Hn & ->) (m & Hm & ->). exists m. split; [simpl in *; lia|by destruct a as [[]]]. Qed.

Lemma ext_refl X s : ext X s s.
Proof.
  constructor; try done.
  - intros k c H. exists c. split_and!; try done; [by left|intros; apply more_links_refl].
  - intros j b H. by exists b.
  - by left.
  - congruence.
Qed.

Lemma ext_trans X Y s s' s'' : base s -> ext X s s' -> ext Y s' s'' -> ext (X ∪ Y) s s''.
Proof.
  intros B E E'. constructor.
  - by rewrite (ex_ninos _ _ _ E'), (ex_ninos _ _ _ E).
  - by rewrite (ex_info _ _ _ E'), (ex_info _ _ _ E).
  - pose proof (ex_next _ _ _ E). pose proof (ex_next _ _ _ E'). lia.
  - pose proof (ex_h _ _ _ E). pose proof (ex_h _ _ _ E'). lia.
  - intros k c Hk. destruct (ex_ci _ _ _ E k c Hk) as (c1 & H1 & Hi & Hr & Ht & Hn & Hl & Hm).
    destruct (ex_ci _ _ _ E' k c1 H1) as (c2 & H2 & Hi' & Hr' & Ht' & Hn' & Hl' & Hm'). exists c2. split; [done|].
    split_and!; try congruence; [lia| |intros HX; apply more_links_trans with c1; [apply Hm|apply Hm']; set_solver].
    intros j Hj. destruct (Hl' j Hj) as [Hj1|Hj1]; [by apply Hl|right; pose proof (ex_h _ _ _ E); lia].
  - intros j b Hj. destruct (ex_cb _ _ _ E j b Hj) as (b1 & H1 & Hi & He). destruct (ex_cb _ _ _ E' j b1 H1) as (b2 & H2 & Hi' & He').
    exists b2. split; [done|]. split; [congruence|]. intros Hno. rewrite <- (He (fun k c HX => Hno k c ltac:(set_solver))). apply He'.
    intros k c1 HY Hk Hl. destruct (cis s !! k) as [c|] eqn:Ek.
    + destruct (ex_ci _ _ _ E k c Ek) as (c1' & H1' & _ & _ & _ & _ & Hl1 & _). assert (c1' = c1) as -> by congruence.
      destruct (Hl1 j Hl) as [Hc|Hc]; [by apply (Hno k c ltac:(set_solver) Ek)|].
      destruct (ba_cb _ B j b Hj). lia.
    + destruct (ex_fresh _ _ _ E k c1 Hk Ek) as [_ Hf]. specialize (Hf j Hl). destruct (ba_cb _ B j b Hj). lia.
  - intros b Hb. rewrite (ex_img _ _ _ E'), (ex_img _ _ _ E); [done|done|pose proof (ex_next _ _ _ E); lia].
  - intros o n Ho. destruct (ex_new _ _ _ E' o n Ho) as [Ho1|Ho1]; [by apply (ex_new _ _ _ E)|right; pose proof (ex_next _ _ _ E); lia].
  - intros k c' Hk Hn. pose proof (ex_h _ _ _ E). destruct (cis s' !! k) as [c1|] eqn:E1.
    + destruct (ex_fresh _ _ _ E k c1 E1 Hn) as [Hh Hf]. split; [done|]. intros j Hj.
      destruct (ex_ci _ _ _ E' k c1 E1) as (c2 & H2 & _ & _ & _ & _ & Hl & _). assert (c2 = c') as -> by congruence.
      destruct (Hl j Hj) as [Hc|Hc]; [by apply Hf|lia].
    + destruct (ex_fresh _ _ _ E' k c' Hk E1) as [Hh Hf]. split; [lia|]. intros j Hj. specialize (Hf j Hj). lia.
Qed.

(** Inodes that are new need not be mentioned. *)
Lemma ext_shrink X Y s s' : ext X s s' -> (forall k, k ∈ X -> k ∈ Y \/ cis s !! k = None) -> ext Y s s'.
Proof.
  intros E HX. destruct E as [? ? ? ? Eci Ecb ? ? ?]. constructor; try done.
  - intros k c Hk. destruct (Eci k c Hk) as (c' & H1 & H2 & H3 & H4 & H5 & H6 & H7). exists c'. split_and!; try done.
    intros HY. apply H7. intros Hin. destruct (HX k Hin) as [?|Hn]; [done|congruence].
  - intros j b Hj. destruct (Ecb j b Hj) as (b' & H1 & H2 & H3). exists b'. split_and!; try done. intros Hno. apply H3.
    intros k c Hk Hc. destruct (HX k Hk) as [?|Hn]; [by apply (Hno k)|congruence].
Qed.

Lemma ext_seq X s s' s'' : base s -> ext X s s' -> ext X s' s'' -> ext X s s''.
Proof. intros B E E'. replace X with (X ∪ X) by set_solver. by apply ext_trans with s'. Qed.
Lemma ext_first X s s' : ext X s s' -> first s' = first s.
Proof. intros E. unfold first. by rewrite (ex_ninos _ _ _ E). Qed.

(** ** Blocks of a file *)
Definition maps (s : sfs_fs) (c : cache_inode) (bl : list Z) : Prop :=
  direct (ci_din c) = take 12 bl ++ replicate (12 - length bl) 0 /\
  ((length bl <= 12)%nat -> l1 c = None /\ indirect (ci_din c) = 0) /\
  ((12 < length bl)%nat -> exists j b, l1 c = Some j /\ cbs s !! j = Some b /\ cb_ino b = indirect (ci_din c) /\
    cache b = drop 12 bl ++ replicate (1036 - length bl) 0).

Record holds (s : sfs_fs) (h : nat) (c : cache_inode) (bl : list Z) : Prop := {
  ho_ci : cis s !! h = Some c;
  ho_n : nblks c = Z.of_nat (length bl);
  ho_blocks : dblocks (ci_din c) = Z.of_nat (length bl);
  ho_max : (length bl <= 1036)%nat;
  ho_size : 0 <= size (ci_din c) <= 4096 * Z.of_nat (length bl);
  ho_maps : maps s c bl;
  ho_free : forall b, b ∈ bl -> first s <= b < next_ino s /\ forall o, owner s o <> Some b;
  ho_nodup : NoDup bl
}.

(** Files that are not changed keep their blocks. *)
Lemma holds_ext X s s' h c bl : base s -> ext X s s' -> h ∉ X -> holds s h c bl -> exists c', holds s' h c' bl /\ more_links c c'.
Proof.
  intros B E HX H. destruct (ex_ci _ _ _ E h c (ho_ci _ _ _ _ H)) as (c' & H' & _ & _ & _ & _ & _ & Hm).
  specialize (Hm HX) as (n & Hn & ->). eexists. split; [|by exists n]. destruct H as [Hci ? ? ? ? (? & ? & Hind) Hfree ?]. constructor; try done.
  - split_and!; try done. intros Hl. destruct (Hind Hl) as (j & b & H1 & H2 & H3 & H4). exists j. destruct (ex_cb _ _ _ E j b H2) as (b' & Hb' & Hi & He).
    exists b'. rewrite He in * by (intros k c1 Hk Hk1 Hl1; apply HX; rewrite (ba_l1 _ B h c k c1 j Hci Hk1 H1 Hl1); done). done.
  - intros b Hb. destruct (Hfree b Hb) as [Hr Ho]. rewrite (ext_first _ _ _ E). pose proof (ex_next _ _ _ E). split; [lia|].
    intros o Hoo. destruct (ex_new _ _ _ E o b Hoo) as [?|?]; [by apply (Ho o)|lia].
Qed.

(** ** The steps of the tool *)
Lemma alloc_ino_ok s : base s -> next_ino s < ninos s ->
  exists s', sfs_alloc_ino s = Done (next_ino s, s') /\ base s' /\ ext ∅ s s' /\ next_ino s' = next_ino s + 1 /\
    cis s' = cis s /\ cbs s' = cbs s /\ img s' = img s /\ ename s' = ename s /\ next_h s' = next_h s.
Proof.
  intros B Hn. unfold sfs_alloc_ino. rewrite (proj2 (Z.ltb_lt _ _)) by done. eexists. split; [done|]. split_and!; try done.
  - destruct B as [? Hnx Hmx Hu ? Hci ? ? ? Har ? ? ?]. constructor; simpl; try done.
    + unfold first in *. simpl. lia.
    + unfold SFS_MAX_NBLKS in *. rewrite first_eq in Hnx. rewrite u32_small; lia.
    + intros h c Hc. destruct (Hci h c Hc) as (? & ? & ? & ?). unfold first in *. simpl. split_and!; try done; lia.
    + intros o n Ho Hne. specialize (Har o n Ho Hne). unfold first in *. simpl. lia.
  - constructor; simpl; try done; try lia.
    + intros k c Hk. exists c. split_and!; try done; [by left|intros; apply more_links_refl].
    + intros j b Hj. by exists b.
    + by left.
    + congruence.
Qed.

Lemma base_img s m : base s -> base (set_img m s).
Proof. intros []. by constructor. Qed.
Lemma ext_img X s s1 n b : ext X s s1 -> next_ino s <= n -> ext X s (set_img (<[n := b]> (img s1)) s1).
Proof. intros [] Hn. constructor; try done. intros b0 Hb. simpl. rewrite lookup_insert_ne by lia. auto. Qed.
Lemma base_ename s l : base s -> length l = 256%nat -> base (set_ename l s).
Proof. intros [] Hl. by constructor. Qed.
Lemma ext_ename s l : ext ∅ s (set_ename l s).
Proof. pose proof (ext_refl ∅ s) as []. by constructor. Qed.

Lemma write_block_ok s data len n : base s -> len <= 4096 -> n < ninos s ->
  write_block data len n s = Done (tt, set_img (<[n := patch 0 (take (Z.to_nat len) data) ∅]> (img s)) s).
Proof.
  intros B Hl Hn. unfold write_block. rewrite (tbind_Done _ _ _ tt s).
  2: { apply tassert_ok. change SFS_BLKSIZE with 4096. rewrite (proj2 (Z.leb_le _ _)), (proj2 (Z.ltb_lt _ _)) by lia. done. }
  rewrite (tbind_Done _ _ _ tt s) by (apply hostcall_ok, B). done.
Qed.

(** Changing an inode in place. *)
Lemma owner_put s h c c' o : cis s !! h = Some c -> ci_ino c' = ci_ino c -> owner (set_cis (<[h := c']> (cis s)) s) o = owner s o.
Proof.
  intros Hc Hi. destruct o as [k|k]; [|done]. simpl. destruct (decide (k = h)) as [->|].
  - rewrite lookup_insert_eq, Hc. simpl. by rewrite Hi.
  - by rewrite lookup_insert_ne.
Qed.

Lemma base_put s h c c' : base s -> cis s !! h = Some c -> ci_ino c' = ci_ino c -> real c' = real c ->
  0 <= nlinks (ci_din c') <= next_ino s - first s ->
  (forall j, l1 c' = Some j -> is_Some (cbs s !! j) /\ forall k ck, cis s !! k = Some ck -> l1 ck = Some j -> k = h) ->
  base (set_cis (<[h := c']> (cis s)) s).
Proof.
  intros B Hc Hi Hr Hn Hl. pose proof (fun o => owner_put s h c c' o Hc Hi) as Ho.
  destruct B as [? ? ? ? ? Hci ? Hch ? Har Hrt Hinj Hl1]. constructor; try done.
  - intros k ck. simpl. intros Hk. destruct (decide (k = h)) as [->|].
    + rewrite lookup_insert_eq in Hk. injection Hk as <-. destruct (Hci h c Hc) as (? & _ & ? & _). rewrite Hr. split; [done|]. split; [exact Hn|]. split; [done|]. intros j Hj. by apply Hl.
    + rewrite lookup_insert_ne in Hk by done. by apply Hci.
  - intros i k Hk. simpl. destruct (decide (k = h)) as [->|]; [by rewrite lookup_insert_eq|]. rewrite lookup_insert_ne by done. by apply (Hch i).
  - intros o n. rewrite Ho. apply Har.
  - specialize (Ho (inl 0%nat)). cbn [owner] in Ho. by rewrite Ho.
  - intros o o' n. rewrite !Ho. apply Hinj.
  - intros a ca b cb j. simpl. intros Ha Hb Hja Hjb. destruct (decide (a = h)) as [->|], (decide (b = h)) as [->|]; [done| | |].
    + rewrite lookup_insert_eq in Ha. injection Ha as <-. rewrite lookup_insert_ne in Hb by done. symmetry. by apply (Hl j Hja) with cb.
    + rewrite lookup_insert_eq in Hb. injection Hb as <-. rewrite lookup_insert_ne in Ha by done. by apply (Hl j Hjb) with ca.
    + rewrite lookup_insert_ne in Ha, Hb by done. by apply (Hl1 a ca b cb j).
Qed.

Lemma ext_put (X : gset nat) s h c c' : cis s !! h = Some c -> ci_ino c' = ci_ino c -> real c' = real c ->
  type (ci_din c') = type (ci_din c) -> nlinks (ci_din c) <= nlinks (ci_din c') -> (forall j, l1 c' = Some j -> l1 c = Some j \/ (next_h s <= j)%nat) ->
  (h ∉ X -> more_links c c') -> ext X s (set_cis (<[h := c']> (cis s)) s).
Proof.
  intros Hc Hi Hr Ht Hn Hl Hm. pose proof (fun o => owner_put s h c c' o Hc Hi) as Ho. constructor; simpl; try done.
  - intros k ck Hk. destruct (decide (k = h)) as [->|].
    + rewrite lookup_insert_eq. assert (ck = c) as -> by congruence. by exists c'.
    + rewrite lookup_insert_ne by done. exists ck. split_and!; try done; [by left|intros; apply more_links_refl].
  - intros j b Hj. by exists b.
  - intros o n. rewrite Ho. by left.
  - intros k ck Hk Hk'. destruct (decide (k = h)) as [->|]; [congruence|]. rewrite lookup_insert_ne in Hk by done. congruence.
Qed.

(** A new cached block. *)
Lemma alloc_cb_ok s : base s -> next_ino s < ninos s ->
  exists s', alloc_cache_block 0 s = Done (next_h s, s') /\ base s' /\ ext ∅ s s' /\ next_ino s' = next_ino s + 1 /\
    cis s' = cis s /\ cbs s' = <[next_h s := CB (next_ino s) (replicate 1024 0)]> (cbs s) /\ img s' = img s /\ ename s' = ename s.
Proof.
  intros B Hn. destruct (alloc_ino_ok s B Hn) as (s1 & E1 & B1 & X1 & Hn1 & Hci & Hcb & Him & Hen & Hnh).
  unfold alloc_cache_block. tstep (hostcall_ok s (ba_oks _ B)). tstep E1. tstep (hostcall_ok s1 (ba_oks _ B1)).
  eexists. rewrite Hnh. split; [done|]. split_and!; simpl; try done; [| |by rewrite Hcb].
  - assert (Hfr : cbs s1 !! next_h s1 = None) by (apply eq_None_not_Some; intros [b Hb]; destruct (ba_cb _ B1 _ _ Hb); lia).
    pose proof (ba_next _ B) as Hnx. pose proof (ext_first _ _ _ X1) as Hf.
    assert (Hold : forall o, owner s1 o <> Some (next_ino s)).
    { intros o Ho. assert (Ho' : owner s o = Some (next_ino s)) by (destruct o; simpl in *; congruence).
      destruct (decide (o = inl 0%nat)) as [->|Hne]; [|pose proof (ba_area _ B o _ Ho' Hne); lia].
      simpl in Ho'. rewrite (ba_root _ B) in Ho'. rewrite first_eq in Hnx. injection Ho' as Ho'. lia. }
    assert (Hown : forall o n, owner (Mk (unused s1) (sinfo s1) (sub s1) (img s1) (ninos s1) (next_ino s1) (cis s1) (<[next_h s := CB (next_ino s) (replicate 1024 0)]> (cbs s1)) (S (next_h s))
      (inodes s1) (<[hash32 0 := next_h s :: chain (blks s1) (hash32 0)]> (blks s1)) (ename s1) (oks s1)) o = Some n -> (o = inr (next_h s) /\ n = next_ino s) \/ owner s1 o = Some n).
    { intros [k|k] n; simpl; [by right|]. destruct (decide (k = next_h s)) as [->|]; [rewrite lookup_insert_eq; simpl; intros [= <-]; by left|].
      rewrite lookup_insert_ne by done. by right. }
    rewrite <- Hnh in *. set (s2 := Mk _ _ _ _ _ _ _ _ _ _ _ _ _) in *.
    assert (Hch : forall i k, k ∈ chain (blks s2) i <-> (i = 0 /\ k = next_h s1) \/ k ∈ chain (blks s1) i).
    { intros i k. unfold chain, s2. cbn [blks]. change (hash32 0) with 0. destruct (decide (i = 0)) as [->|].
      - rewrite lookup_insert_eq. cbn [default from_option id]. fold (chain (blks s1) 0). rewrite elem_of_cons. naive_solver.
      - rewrite lookup_insert_ne by done. naive_solver. }
    destruct B1 as [? ? ? ? ? Bci Bcb ? Bch Bar Brt Binj ?]. constructor; try done.
    + intros h c Hc. destruct (Bci h c Hc) as (? & ? & ? & Hl). split; [cbn; lia|]. split; [done|]. split; [done|]. intros j Hj. cbn. destruct (decide (j = next_h s1)) as [->|].
      * by rewrite lookup_insert_eq.
      * rewrite lookup_insert_ne by done. by apply Hl.
    + intros h b. cbn. intros Hb. destruct (decide (h = next_h s1)) as [->|].
      * split; [lia|]. apply Hch. by left.
      * rewrite lookup_insert_ne in Hb by done. destruct (Bcb h b Hb) as [? Hc]. split; [lia|]. apply Hch. by right.
    + intros i h Hh. cbn. apply Hch in Hh as [[_ ->]|Hh]; [by rewrite lookup_insert_eq|].
      destruct (decide (h = next_h s1)) as [->|]; [by rewrite lookup_insert_eq|]. rewrite lookup_insert_ne by done. by apply (Bch i).
    + intros o n Ho Hne. destruct (Hown o n Ho) as [[-> ->]|Ho']; [|by apply (Bar o)]. change (first s2) with (first s1). change (next_ino s2) with (next_ino s1). lia.
    + intros o o' n Ho Ho'. destruct (Hown o n Ho) as [[Eo En]|H1], (Hown o' n Ho') as [[Eo' En']|H2];
        [congruence|rewrite En in H2; by apply Hold in H2|rewrite En' in H1; by apply Hold in H1|by apply (Binj o o' n)].
  - constructor; simpl; try apply X1; try lia; try done.
    + intros j b Hj. exists b. rewrite Hcb, lookup_insert_ne; [done|]. destruct (ba_cb _ B _ _ Hj). lia.
    + intros [k|k] n; simpl; rewrite ?Hci, ?Hcb; [by left|]. destruct (decide (k = next_h s)) as [->|]; [rewrite lookup_insert_eq; simpl; intros [= <-]; by right|].
      rewrite lookup_insert_ne by done. by left.
Qed.

(** Changing the indirect block of a file in place. *)
Lemma put_word_ok s h c j b i v : base s -> cis s !! h = Some c -> l1 c = Some j -> cbs s !! j = Some b ->
  exists s', put_word j i v s = Done (tt, s') /\ base s' /\ ext {[h]} s s' /\ next_ino s' = next_ino s /\ cis s' = cis s /\
    cbs s' !! j = Some (CB (cb_ino b) (<[Z.to_nat i := v]> (cache b))) /\ img s' = img s.
Proof.
  intros B Hc Hl Hb. unfold put_word. tstep (get_cb_ok j b s Hb). eexists. split; [done|].
  set (s2 := set_cbs _ s). set (b' := CB (cb_ino b) _) in *.
  assert (Ho : forall o, owner s2 o = owner s o).
  { intros [k|k]; [done|]. simpl. destruct (decide (k = j)) as [->|]; [by rewrite lookup_insert_eq, Hb|by rewrite lookup_insert_ne]. }
  assert (Hs : forall k, is_Some (cbs s !! k) -> is_Some (cbs s2 !! k)).
  { intros k Hk. simpl. destruct (decide (k = j)) as [->|]; [by rewrite lookup_insert_eq|by rewrite lookup_insert_ne]. }
  split_and!; try done; [| |simpl; by rewrite lookup_insert_eq].
  - destruct B as [? ? ? ? ? Bci Bcb ? Bch Bar Brt Binj ?]. constructor; try done.
    + intros k ck Hk. destruct (Bci k ck Hk) as (? & ? & ? & Hl1). split; [done|]. split; [done|]. split; [done|]. intros i0 Hi0. by apply Hs, Hl1.
    + intros k bk. simpl. intros Hk. destruct (decide (k = j)) as [->|]; [by apply (Bcb j b)|]. rewrite lookup_insert_ne in Hk by done. by apply (Bcb k bk).
    + intros i0 k Hk. by apply Hs, (Bch i0).
    + intros o n. rewrite Ho. apply Bar.
    + intros o o' n. rewrite !Ho. apply Binj.
  - constructor; try done.
    + intros k ck Hk. exists ck. split_and!; try done; [by left|intros; apply more_links_refl].
    + intros k bk Hk. simpl. destruct (decide (k = j)) as [->|].
      * assert (bk = b) as -> by congruence. exists b'. rewrite lookup_insert_eq. split_and!; try done. intros Hno. exfalso. apply (Hno h c); [set_solver|done|done].
      * rewrite lookup_insert_ne by done. by exists bk.
    + intros o n. rewrite Ho. by left.
    + simpl. congruence.
Qed.

Lemma ext_put_after (X : gset nat) s s1 h c c' : ext X s s1 -> cis s1 !! h = Some c -> h ∈ X -> ci_ino c' = ci_ino c -> real c' = real c ->
  type (ci_din c') = type (ci_din c) -> nlinks (ci_din c) <= nlinks (ci_din c') -> (forall j, l1 c' = Some j -> l1 c = Some j \/ (next_h s <= j)%nat) ->
  ext X s (set_cis (<[h := c']> (cis s1)) s1).
Proof.
  intros E Hc HX Hi Hr Ht Hn Hl. pose proof (fun o => owner_put s1 h c c' o Hc Hi) as Ho. destruct E as [? ? ? ? Eci ? ? Enew Efr]. constructor; try done.
  - intros k ck Hk. destruct (Eci k ck Hk) as (c1 & Hc1 & H1 & H2 & H3 & H4 & H5 & H6). simpl. destruct (decide (k = h)) as [->|].
    + assert (c1 = c) as -> by congruence. exists c'. rewrite lookup_insert_eq. split_and!; try done; try congruence; [lia|].
      intros j Hj. destruct (Hl j Hj) as [?|?]; [by apply H5|by right].
    + rewrite lookup_insert_ne by done. by exists c1.
  - intros o n. rewrite Ho. apply Enew.
  - intros k ck. simpl. intros Hk Hnone. destruct (decide (k = h)) as [->|].
    + rewrite lookup_insert_eq in Hk. injection Hk as <-. destruct (Efr h c Hc Hnone) as [? Hf]. split; [done|]. intros j Hj. destruct (Hl j Hj); [by apply Hf|done].
    + rewrite lookup_insert_ne in Hk by done. by apply (Efr k ck).
Qed.

(** ** Appending a block *)
Lemma insert_pad (l : list Z) e k : <[length l := e]> (l ++ replicate (S k) 0) = (l ++ [e]) ++ replicate k 0.
Proof. rewrite insert_app_r_alt by lia. rewrite Nat.sub_diag. simpl. by rewrite <- app_assoc. Qed.

(** The fields that [append_entry] leaves alone. *)
Definition same_head (c c' : cache_inode) : Prop :=
  ci_ino c' = ci_ino c /\ real c' = real c /\ nblks c' = nblks c /\ size (ci_din c') = size (ci_din c) /\ type (ci_din c') = type (ci_din c) /\
  nlinks (ci_din c') = nlinks (ci_din c) /\ dblocks (ci_din c') = dblocks (ci_din c).

Definition appended (s : sfs_fs) (h : nat) (c : cache_inode) (bl : list Z) (e : Z) (r : out (unit * sfs_fs)) : Prop :=
  exists s' c', r = Done (tt, s') /\ base s' /\ ext {[h]} s s' /\ cis s' !! h = Some c' /\ same_head c c' /\ maps s' c' (bl ++ [e]) /\
    next_ino s' = next_ino s + (if (length bl =? 12)%nat then 1 else 0) /\ img s' = img s /\ (forall k, k <> h -> cis s' !! k = cis s !! k).

Lemma append_direct s h c bl e : base s -> cis s !! h = Some c -> nblks c = Z.of_nat (length bl) -> maps s c bl -> (length bl < 12)%nat ->
  appended s h c bl e (append_entry h e s).
Proof.
  intros B Hc Hn (Hd & Hnone & _) Hl. unfold append_entry. tstep (get_ci_ok h c s Hc). change SFS_L0_NBLKS with 12.
  rewrite Hn, (proj2 (Z.ltb_lt _ _)) by lia. destruct (ba_ci _ B h c Hc) as (_ & Hlk & _ & Hl1).
  eexists _, _. split; [done|]. split_and!.
  - apply base_put with c; try done. intros j Hj. split; [by apply Hl1|]. intros k ck Hk Hjk. by apply (ba_l1 _ B k ck h c j).
  - apply ext_put with c; try done; [by left|set_solver].
  - simpl. by rewrite lookup_insert_eq.
  - done.
  - rewrite take_ge in Hd by lia. destruct (12 - length bl)%nat as [|k] eqn:Ek; [lia|].
    split_and!; [|intros; apply Hnone; lia|rewrite length_app; simpl; lia].
    cbn [ci_din set_ci_din direct set_direct]. rewrite Hd, Nat2Z.id, insert_pad, take_ge by (rewrite length_app; simpl; lia).
    f_equal. f_equal. rewrite length_app. simpl. lia.
  - rewrite (proj2 (Nat.eqb_neq _ _)) by lia. simpl. lia.
  - done.
  - intros k Hk. simpl. by rewrite lookup_insert_ne.
Qed.

(** [data[n] = ino] in the indirect block [j] of the file, which is in place. *)
Lemma append_word s0 s h c0 c j b bl e : base s0 -> base s -> ext {[h]} s0 s -> img s = img s0 ->
  cis s !! h = Some c -> same_head c0 c -> direct (ci_din c) = take 12 bl -> (12 <= length bl < 1036)%nat ->
  l1 c = Some j -> cbs s !! j = Some b -> cb_ino b = indirect (ci_din c) -> cache b = drop 12 bl ++ replicate (1036 - length bl) 0 ->
  next_ino s = next_ino s0 + (if (length bl =? 12)%nat then 1 else 0) -> (forall k, k <> h -> cis s !! k = cis s0 !! k) ->
  appended s0 h c0 bl e (put_word j (Z.of_nat (length bl) - 12) e s).
Proof.
  intros B0 B X Him Hc Hsame Hd Hl Hj Hb Hi Hcache Hnx Hoth.
  destruct (put_word_ok s h c j b (Z.of_nat (length bl) - 12) e B Hc Hj Hb) as (s' & E & B' & X' & Hn & Hci & Hcb & Hi').
  exists s', c. split; [done|]. split; [done|]. split; [by apply ext_seq with s|]. rewrite Hci. split; [done|]. split; [done|].
  split; [|split; [by rewrite Hn|split; [by rewrite Hi'|done]]]. split_and!.
  - rewrite Hd, take_app_le by lia. rewrite length_app. simpl. replace (12 - (length bl + 1))%nat with 0%nat by lia. by rewrite app_nil_r.
  - rewrite length_app. simpl. lia.
  - intros _. exists j, (CB (cb_ino b) (<[Z.to_nat (Z.of_nat (length bl) - 12) := e]> (cache b))). split_and!; try done. simpl. rewrite Hcache.
    destruct (1036 - length bl)%nat as [|k] eqn:Ek; [lia|].
    replace (Z.to_nat (Z.of_nat (length bl) - 12)) with (length (drop 12 bl)) by (rewrite length_drop; lia).
    rewrite insert_pad, drop_app_le by lia. do 2 f_equal. rewrite length_app. simpl. lia.
Qed.

Lemma append_entry_ok s h c bl e : base s -> cis s !! h = Some c -> nblks c = Z.of_nat (length bl) -> maps s c bl -> (length bl < 1036)%nat ->
  (length bl = 12%nat -> next_ino s < ninos s) -> appended s h c bl e (append_entry h e s).
Proof.
  intros B Hc Hn Hm Hl Hsp. destruct (decide (length bl < 12)%nat) as [Hlt|Hge]; [by apply append_direct|].
  destruct Hm as (Hd & Hnone & Hind). unfold append_entry. tstep (get_ci_ok h c s Hc). change SFS_L0_NBLKS with 12. change SFS_L1_NBLKS with 1036.
  rewrite Hn, (proj2 (Z.ltb_ge _ _)), (proj2 (Z.ltb_lt _ _)) by lia. destruct (ba_ci _ B h c Hc) as (Hh & Hlk & _ & Hl1).
  replace (12 - length bl)%nat with 0%nat in Hd by lia. rewrite app_nil_r in Hd.
  destruct (decide (length bl = 12)%nat) as [Heq|Hne].
  - destruct (Hnone ltac:(lia)) as [Hl0 Hi0]. destruct (alloc_cb_ok s B (Hsp Heq)) as (s1 & E1 & B1 & X1 & Hn1 & Hci & Hcb & Him & _).
    assert (Eu : update_cache (l1 c) (indirect (ci_din c)) s = Done ((next_h s, next_ino s), s1)).
    { unfold update_cache. rewrite Hi0. change (0 =? 0) with true. cbv iota. tstep E1. rewrite (tbind_Done _ _ _ (CB (next_ino s) (replicate 1024 0)) s1); [done|].
      apply get_cb_ok. by rewrite Hcb, lookup_insert_eq. }
    tstep Eu. unfold put_ci at 1. erewrite tbind_Done by reflexivity. cbv beta.
    assert (Hc1 : cis s1 !! h = Some c) by (by rewrite Hci).
    set (c' := CI _ _ _ _ _ _ _).
    eapply (append_word s (set_cis (<[h := c']> (cis s1)) s1) h c c' (next_h s) (CB (next_ino s) (replicate 1024 0))); try done.
    + pose proof (ext_first _ _ _ X1). apply base_put with c; try done; [cbn; lia|].
      intros j [= <-]. split; [by rewrite Hcb, lookup_insert_eq|]. intros k ck Hk Hjk. rewrite Hci in Hk.
      destruct (ba_ci _ B k ck Hk) as (_ & _ & _ & Hck). destruct (Hck _ Hjk) as [b Hb]. destruct (ba_cb _ B _ _ Hb). lia.
    + apply ext_put_after with c; try done; [by apply (ext_shrink ∅)|set_solver|]. intros j [= <-]. by right.
    + simpl. by rewrite lookup_insert_eq.
    + lia.
    + cbn [set_cis cbs]. by rewrite Hcb, lookup_insert_eq.
    + simpl. rewrite drop_ge by lia. by rewrite Heq.
    + simpl. by rewrite Hn1, Heq.
    + intros k Hk. simpl. rewrite lookup_insert_ne by done. by rewrite Hci.
  - destruct (Hind ltac:(lia)) as (j & b & Hj & Hb & Hi & Hca). pose proof (ba_area _ B (inr j) (cb_ino b)) as Har. cbn in Har. rewrite Hb in Har. specialize (Har eq_refl ltac:(done)).
    rewrite first_eq in Har. pose proof (ba_next _ B) as Hnx. rewrite first_eq in Hnx.
    assert (Eu : update_cache (l1 c) (indirect (ci_din c)) s = Done ((j, indirect (ci_din c)), s)).
    { unfold update_cache. rewrite (proj2 (Z.eqb_neq _ _)) by lia. rewrite Hj. cbv iota.
      rewrite (tbind_Done _ _ _ (Some j) s); [done|]. rewrite (tbind_Done _ _ _ b s) by (by apply get_cb_ok). by rewrite Hi, Z.eqb_refl. }
    tstep Eu. unfold put_ci at 1. erewrite tbind_Done by reflexivity. cbv beta.
    assert (CI (set_indirect (indirect (ci_din c)) (ci_din c)) (db_indirect c) (real c) (ci_ino c) (Z.of_nat (length bl)) (Some j) (l2 c) = c) as ->.
    { rewrite <- Hj, <- Hn. by destruct c as [[]]. }
    assert (set_cis (<[h := c]> (cis s)) s = s) as -> by (unfold set_cis; rewrite insert_id by done; by destruct s).
    apply append_word with c b; try done; [apply ext_refl|lia|]. rewrite (proj2 (Nat.eqb_neq _ _)) by lia. lia.
Qed.

(** A block [e] that nobody uses yet becomes the next block of the file. *)
Lemma append_block_ok s h c bl e len : base s -> holds s h c bl -> (length bl < 1036)%nat -> 0 <= len <= 4096 ->
  first s <= e < next_ino s -> (forall o, owner s o <> Some e) -> e ∉ bl -> (length bl = 12%nat -> next_ino s < ninos s) ->
  exists s' c', append_block h len e s = Done (tt, s') /\ base s' /\ ext {[h]} s s' /\ holds s' h c' (bl ++ [e]) /\
    ci_ino c' = ci_ino c /\ real c' = real c /\ size (ci_din c') = size (ci_din c) + len /\ type (ci_din c') = type (ci_din c) /\
    nlinks (ci_din c') = nlinks (ci_din c) /\ next_ino s' = next_ino s + (if (length bl =? 12)%nat then 1 else 0) /\ img s' = img s /\ (forall k, k <> h -> cis s' !! k = cis s !! k).
Proof.
  intros B H Hl Hlen He Hno Hnew Hsp. destruct H as [Hc Hn Hb Hmax Hsz Hm Hfr Hnd]. unfold append_block.
  rewrite (tbind_Done _ _ _ tt s) by (apply tassert_ok; change SFS_BLKSIZE with 4096; apply Z.leb_le; lia).
  tstep (get_ci_ok h c s Hc). rewrite Hn, Z.geb_leb, (proj2 (Z.leb_gt _ _)) by (change SFS_LN_NBLKS with 32768; lia).
  destruct (append_entry_ok s h c bl e B Hc Hn Hm Hl Hsp) as (s1 & c1 & E1 & B1 & X1 & Hc1 & (H1 & H2 & H3 & H4 & H5 & H6 & H7) & Hm1 & Hn1 & Hi1 & Ho1).
  tstep E1. tstep (get_ci_ok h c1 s1 Hc1). 
  pose (c' := CI (set_dblocks (Z.of_nat (length bl) + 1) (set_size (size (ci_din c) + len) (ci_din c1))) (db_indirect c1) (real c1) (ci_ino c1) (Z.of_nat (length bl) + 1) (l1 c1) (l2 c1)).
  exists (set_cis (<[h := c']> (cis s1)) s1), c'. split.
  { unfold put_ci, c'. rewrite H3, H4, H7, Hn, Hb. by rewrite !u32_small by lia. }
  destruct (ba_ci _ B1 h c1 Hc1) as (_ & Hlk & _ & Hl1).
  split_and!; try done; try (cbn; lia).
  - apply base_put with c1; try done. intros j Hj. split; [by apply Hl1|]. intros k ck Hk Hjk. by apply (ba_l1 _ B1 k ck h c1 j).
  - apply ext_put_after with c1; try done; [set_solver|by left].
  - pose proof (ext_first _ _ _ X1) as Hf. constructor; cbn -[first].
    + by rewrite lookup_insert_eq.
    + rewrite length_app. simpl. lia.
    + rewrite length_app. simpl. lia.
    + rewrite length_app. simpl. lia.
    + rewrite length_app. simpl. lia.
    + exact Hm1.
    + intros b Hbl. change (first (set_cis _ s1)) with (first s1). rewrite Hf. pose proof (ex_next _ _ _ X1).
      assert (Hb' : first s <= b < next_ino s /\ forall o, owner s o <> Some b).
      { apply elem_of_app in Hbl as [Hbl|Hbl]; [by apply Hfr|]. apply list_elem_of_singleton in Hbl as ->. done. }
      split; [lia|]. intros o. rewrite (owner_put s1 h c1) by done. intros Ho. destruct (ex_new _ _ _ X1 o b Ho) as [Ho'|Ho']; [by apply (proj2 Hb' o)|lia].
    + apply NoDup_app. split; [done|]. split; [|apply NoDup_singleton]. intros x Hx Hx'. apply list_elem_of_singleton in Hx' as ->. done.
  - intros k Hk. simpl. rewrite lookup_insert_ne by done. by apply Ho1.
Qed.

(** ** Entries *)

(** Block [e] is the entry [name] for inode [no]; behind the name the bytes
    are arbitrary. *)
Definition entry_in (s : sfs_fs) (e no : Z) (name : list Z) : Prop :=
  exists rest, length (name ++ 0 :: rest) = 256%nat /\ img s !! e = Some (patch 0 (mk_entry_bytes no (name ++ 0 :: rest)) ∅).

Definition links (n : Z) (c : cache_inode) : cache_inode := set_ci_din (set_nlinks n) c.

Lemma holds_links s h c bl k f n : holds s h c bl -> cis s !! k = Some f ->
  holds (set_cis (<[k := links n f]> (cis s)) s) h (if decide (h = k) then links n c else c) bl.
Proof.
  intros [Hc H1 H2 H3 H4 H5 H6 H7] Hk. constructor; try (destruct (decide (h = k)); done).
  - simpl. destruct (decide (h = k)) as [->|]; [rewrite lookup_insert_eq; congruence|by rewrite lookup_insert_ne].
  - intros b Hb. destruct (H6 b Hb) as [Hr Ho]. split; [exact Hr|]. intros o. by rewrite (owner_put s k f).
Qed.

Lemma owner_next s o : base s -> owner s o <> Some (next_ino s).
Proof.
  intros B Ho. pose proof (ba_next _ B) as Hnx. destruct (decide (o = inl 0%nat)) as [->|Hne]; [|pose proof (ba_area _ B o _ Ho Hne); lia].
  simpl in Ho. rewrite (ba_root _ B) in Ho. rewrite first_eq in Hnx. injection Ho as Ho. lia.
Qed.

(** Writing a new block and appending it to a file. *)
Lemma new_block_ok {A} (k : T A) s h c bl data wlen len : base s -> holds s h c bl -> (length bl < 1036)%nat -> 0 <= len <= 4096 -> wlen <= 4096 ->
  next_ino s + (if (length bl =? 12)%nat then 2 else 1) <= ninos s ->
  exists s' c', (e <- sfs_alloc_ino; _ <- (fun s => write_block (data s) wlen e s); _ <- append_block h len e; k) s = k s' /\
    base s' /\ ext {[h]} s s' /\ holds s' h c' (bl ++ [next_ino s]) /\
    ci_ino c' = ci_ino c /\ real c' = real c /\ size (ci_din c') = size (ci_din c) + len /\ type (ci_din c') = type (ci_din c) /\
    nlinks (ci_din c') = nlinks (ci_din c) /\ next_ino s' = next_ino s + (if (length bl =? 12)%nat then 2 else 1) /\
    (forall k, k <> h -> cis s' !! k = cis s !! k) /\ exists s1, ename s1 = ename s /\ img s' !! next_ino s = Some (patch 0 (take (Z.to_nat wlen) (data s1)) ∅).
Proof.
  intros B H Hl Hlen Hwl Hsp. destruct (alloc_ino_ok s B) as (s1 & E1 & B1 & X1 & Hn1 & Hci & Hcb & Him & Hen & Hnh); [destruct (_ =? _)%nat; lia|].
  tstep E1. pose proof (ex_ninos _ _ _ X1) as Hno. pose proof (ext_first _ _ _ X1) as Hf. pose proof (ba_next _ B) as Hnx.
  assert (next_ino s < ninos s1) by (destruct (_ =? _)%nat; lia).
  erewrite tbind_Done by (apply write_block_ok; [done|lia|done]). set (s2 := set_img _ s1).
  assert (X2 : ext ∅ s s2) by (apply ext_img; [done|lia]).
  destruct (holds_ext ∅ s s2 h c bl B X2 ltac:(set_solver) H) as (c2 & H2 & _).
  assert (c2 = c) as -> by (pose proof (ho_ci _ _ _ _ H2) as E2; pose proof (ho_ci _ _ _ _ H); simpl in E2; rewrite Hci in E2; congruence).
  assert (Hfresh : next_ino s ∉ bl) by (intros Hin; destruct (ho_free _ _ _ _ H _ Hin); lia).
  destruct (append_block_ok s2 h c bl (next_ino s) len (base_img _ _ B1) H2 Hl Hlen) as (s3 & c3 & E3 & B3 & X3 & H3 & G1 & G2 & G3 & G4 & G5 & G6 & G7 & G8); try done.
  - change (first s2) with (first s1). change (next_ino s2) with (next_ino s1). lia.
  - intros o Ho. assert (owner s o = Some (next_ino s)) by (destruct o; simpl in *; congruence). by apply (owner_next s o B).
  - intros E. rewrite E in Hsp. cbn in Hsp. cbn. lia.
  - exists s3, c3. rewrite (tbind_Done _ _ _ _ _ E3). split_and!; try done.
    + apply ext_seq with s2; [done|by apply (ext_shrink ∅)|done].
    + rewrite G6. cbn. rewrite Hn1. destruct (_ =? _)%nat; lia.
    + intros k0 Hk0. rewrite G8 by done. simpl. by rewrite Hci.
    + exists s1. split; [done|]. rewrite G7. simpl. by rewrite lookup_insert_eq.
Qed.

Definition grown_dir (s : sfs_fs) (cur : nat) (c : cache_inode) (bl : list Z) (file : nat) (f : cache_inode) (name : list Z) (s' : sfs_fs) : Prop :=
  exists c', base s' /\ ext {[cur]} s s' /\ holds s' cur c' (bl ++ [next_ino s]) /\ size (ci_din c') = size (ci_din c) + 256 /\
    ci_ino c' = ci_ino c /\ type (ci_din c') = type (ci_din c) /\ entry_in s' (next_ino s) (ci_ino f) name /\
    (exists f', cis s' !! file = Some f' /\ 1 <= nlinks (ci_din f')) /\ (forall k, is_Some (cis s' !! k) -> is_Some (cis s !! k)) /\ next_ino s' = next_ino s + (if (length bl =? 12)%nat then 2 else 1).

Lemma add_entry_ok s cur c bl file f name : base s -> holds s cur c bl -> type (ci_din c) = SFS_TYPE_DIR -> cis s !! file = Some f ->
  (length bl < 1036)%nat -> (length name <= 255)%nat -> next_ino s + (if (length bl =? 12)%nat then 2 else 1) <= ninos s ->
  next_ino s - first s < 65535 ->
  exists s', add_entry cur file name s = Done (tt, s') /\ grown_dir s cur c bl file f name s'.
Proof.
  intros B H Ht Hf Hl Hnm Hsp Hlk. unfold add_entry. tstep (get_ci_ok cur c s (ho_ci _ _ _ _ H)).
  rewrite (tbind_Done _ _ _ tt s) by (apply tassert_ok; rewrite Ht; change SFS_MAX_FNAME_LEN with 255; apply andb_true_intro; split; [done|apply Z.leb_le; lia]).
  tstep (get_ci_ok file f s Hf). erewrite tbind_Done by reflexivity. set (nm := name ++ 0 :: _). set (s1 := set_ename nm s).
  assert (Hnml : length nm = 256%nat) by (unfold nm; rewrite length_app; cbn [length]; rewrite length_drop, (ba_ename _ B); lia).
  assert (X1 : ext ∅ s s1) by apply ext_ename. assert (B1 : base s1) by (by apply base_ename).
  destruct (holds_ext ∅ s s1 cur c bl B X1 ltac:(set_solver) H) as (c1 & H1 & _).
  assert (c1 = c) as -> by (pose proof (ho_ci _ _ _ _ H1) as E1; pose proof (ho_ci _ _ _ _ H); simpl in E1; congruence).
  edestruct (new_block_ok (A := unit)) as (s2 & c2 & E2 & B2 & X2 & H2 & G1 & G2 & G3 & G4 & G5 & G6 & G8 & s3 & Hen & G7);
    [exact B1|exact H1|exact Hl| | |exact Hsp|]; [| |rewrite E2; clear E2]; [lia|lia|]. change (next_ino s1) with (next_ino s) in *.
  assert (X02 : ext {[cur]} s s2) by (apply ext_seq with s1; [done|by apply (ext_shrink ∅)|done]).
  assert (Hf2 : exists f2, cis s2 !! file = Some f2 /\ nlinks (ci_din f2) = nlinks (ci_din f)).
  { destruct (decide (file = cur)) as [->|Hne]; [|exists f; by rewrite G8]. exists c2. split; [apply H2|]. rewrite G5. pose proof (ho_ci _ _ _ _ H). congruence. }
  destruct Hf2 as (f2 & Hf2 & Hfn). tstep (get_ci_ok file f2 s2 Hf2). pose proof (ext_first _ _ _ X02) as Hfst.
  destruct (ba_ci _ B2 file f2 Hf2) as (_ & Hlk2 & _ & Hl1). destruct (ba_ci _ B file f Hf) as (_ & Hlk0 & _).
  change (set_ci_din _ f2) with (links ((nlinks (ci_din f2) + 1) mod 65536) f2). rewrite Z.mod_small by lia.
  eexists. split; [reflexivity|]. exists (if decide (cur = file) then links (nlinks (ci_din f2) + 1) c2 else c2). split_and!.
  - apply base_put with f2; try done; [cbn; destruct (_ =? _)%nat; lia|]. intros j Hj. split; [by apply Hl1|]. intros k ck Hk Hjk. by apply (ba_l1 _ B2 k ck file f2 j).
  - apply ext_seq with s2; [done|done|]. apply ext_put with f2; try done; [cbn; lia|by left|]. intros _. exists (nlinks (ci_din f2) + 1). split; [lia|done].
  - by apply holds_links.
  - by destruct (decide _).
  - by destruct (decide _).
  - by destruct (decide _).
  - exists (drop (S (length name)) (ename s)). split; [exact Hnml|]. cbn [set_cis img]. rewrite G7, Hen. f_equal. f_equal.
    rewrite take_ge; [done|]. unfold mk_entry_bytes. rewrite length_app. change (ename s1) with nm. rewrite Hnml. simpl. lia.
  - eexists. split; [simpl; by rewrite lookup_insert_eq|]. simpl. lia.
  - intros k. simpl. destruct (decide (k = file)) as [->|]; [by rewrite Hf|]. rewrite lookup_insert_ne by done.
    destruct (decide (k = cur)) as [->|]; [by rewrite (ho_ci _ _ _ _ H)|by rewrite G8].
  - exact G6.
Qed.

(** ** Files *)
Lemma alloc_ci_ok s r t : base s -> next_ino s < ninos s ->
  exists s', alloc_cache_inode r 0 t s = Done (next_h s, s') /\ base s' /\ ext ∅ s s' /\ next_ino s' = next_ino s + 1 /\
    cis s' = <[next_h s := CI (Din 0 t 0 0 (replicate 12 0) 0) 0 r (next_ino s) 0 None None]> (cis s).
Proof.
  intros B Hn. destruct (alloc_ino_ok s B Hn) as (s1 & E1 & B1 & X1 & Hn1 & Hci & Hcb & Him & Hen & Hnh).
  unfold alloc_cache_inode. tstep (hostcall_ok s (ba_oks _ B)). change (0 =? 0) with true. cbn [negb]. tstep E1.
  eexists. rewrite Hnh. split; [done|]. set (c := CI _ _ _ _ _ _ _). pose proof (ba_next _ B) as Hnx. pose proof (ext_first _ _ _ X1) as Hf.
  assert (Hold : forall o, owner s1 o <> Some (next_ino s)).
  { intros o Ho. apply (owner_next s o B). destruct o; simpl in *; congruence. }
  assert (Hfr : cis s1 !! next_h s = None) by (rewrite <- Hnh; apply eq_None_not_Some; intros [b Hb]; destruct (ba_ci _ B1 _ _ Hb); lia).
  split_and!; try done; [| |simpl; by rewrite Hci].
  - set (s2 := Mk _ _ _ _ _ _ _ _ _ _ _ _ _).
    assert (Hown : forall o n, owner s2 o = Some n -> (o = inl (next_h s) /\ n = next_ino s) \/ owner s1 o = Some n).
    { intros [k|k] n; simpl; [|by right]. destruct (decide (k = next_h s)) as [->|]; [rewrite lookup_insert_eq; simpl; intros [= <-]; by left|].
      rewrite lookup_insert_ne by done. by right. }
    assert (Hch : forall i k, k ∈ chain (inodes s2) i <-> (i = hash64 r /\ k = next_h s) \/ k ∈ chain (inodes s1) i).
    { intros i k. unfold chain, s2. cbn [inodes]. destruct (decide (i = hash64 r)) as [->|].
      - rewrite lookup_insert_eq. cbn [default from_option id]. fold (chain (inodes s1) (hash64 r)). rewrite elem_of_cons. split; [intros [->|?]; auto|intros [[_ ->]|?]; auto].
      - rewrite lookup_insert_ne by congruence. split; [auto|intros [[? _]|?]; congruence || auto]. }
    assert (Hnz : next_h s <> 0%nat).
    { pose proof (ba_root _ B) as Hrt. destruct (cis s !! 0%nat) as [c0|] eqn:E0; [|done]. destruct (ba_ci _ B _ _ E0). lia. }
    destruct B1 as [? ? ? ? ? Bci Bcb Bch ? Bar Brt Binj Bl1]. constructor; try done.
    + intros h ch. cbn [s2 cis]. intros Hh. destruct (decide (h = next_h s)) as [->|].
      * rewrite lookup_insert_eq in Hh. injection Hh as <-. cbn. split; [lia|]. change (first s2) with (first s1). split; [lia|]. split; [apply Hch; by left|done].
      * rewrite lookup_insert_ne in Hh by done. destruct (Bci h ch Hh) as (? & ? & Hc' & ?). split; [cbn; lia|]. split; [done|]. split; [|done]. apply Hch. by right.
    + intros h b Hb. destruct (Bcb h b Hb) as [? ?]. split; [cbn; lia|done].
    + intros i h Hh. cbn [s2 cis]. apply Hch in Hh as [[_ ->]|Hh]; [by rewrite lookup_insert_eq|].
      destruct (decide (h = next_h s)) as [->|]; [by rewrite lookup_insert_eq|]. rewrite lookup_insert_ne by done. by apply (Bch i).
    + intros o n Ho Hne. destruct (Hown o n Ho) as [[-> ->]|Ho']; [|by apply (Bar o)]. change (first s2) with (first s1). change (next_ino s2) with (next_ino s1). lia.
    + cbn [s2 cis]. by rewrite lookup_insert_ne.
    + intros o o' n Ho Ho'. destruct (Hown o n Ho) as [[Eo En]|H1], (Hown o' n Ho') as [[Eo' En']|H2];
        [congruence|rewrite En in H2; by apply Hold in H2|rewrite En' in H1; by apply Hold in H1|by apply (Binj o o' n)].
    + intros a ca b cb j. cbn [s2 cis]. intros Ha Hb Hja Hjb.
      destruct (decide (a = next_h s)) as [->|]; [rewrite lookup_insert_eq in Ha; by simplify_eq|].
      destruct (decide (b = next_h s)) as [->|]; [rewrite lookup_insert_eq in Hb; by simplify_eq|].
      rewrite lookup_insert_ne in Ha, Hb by done. by apply (Bl1 a ca b cb j).
  - constructor; cbn [ninos sinfo next_ino next_h cis cbs img]; try apply X1; try lia.
    + intros k ck Hk. exists ck. rewrite lookup_insert_ne, Hci by (intros <-; congruence). split_and!; try done; [by left|intros; apply more_links_refl].
    + intros [k|k] n; simpl; rewrite ?Hci, ?Hcb; [|by left]. destruct (decide (k = next_h s)) as [->|]; [rewrite lookup_insert_eq; simpl; intros [= <-]; by right|].
      rewrite lookup_insert_ne by done. by left.
    + intros k ck Hk Hnone. destruct (decide (k = next_h s)) as [->|]; [rewrite lookup_insert_eq in Hk; by simplify_eq|].
      rewrite lookup_insert_ne in Hk by done. congruence.
Qed.

(** A new inode has no blocks. *)
Lemma holds_new s h d t r n : cis s !! h = Some (CI (Din 0 t 0 0 (replicate 12 0) 0) d r n 0 None None) -> holds s h (CI (Din 0 t 0 0 (replicate 12 0) 0) d r n 0 None None) [].
Proof. intros H. constructor; try done; simpl; try lia; [|set_solver|constructor]. split_and!; [done|done|simpl; lia]. Qed.

Lemma search_ci_spec s r : base s ->
  exists o, search_cache_inode r s = Done (o, s) /\
    match o with Some h => exists c, cis s !! h = Some c /\ real c = r | None => forall h c, cis s !! h = Some c -> real c <> r end.
Proof.
  intros B. eexists. split; [done|]. destruct (list_find _ _) as [[i h]|] eqn:E; simpl.
  - apply list_find_Some in E as (_ & Hp & _). destruct (cis s !! h) as [c|]; [|done]. exists c. split; [done|]. by apply Z.eqb_eq.
  - intros h c Hc Hr. apply list_find_None in E. rewrite Forall_forall in E. destruct (ba_ci _ B h c Hc) as (_ & _ & Hch & _). rewrite Hr in Hch.
    apply (E h Hch). rewrite Hc. by apply Z.eqb_eq.
Qed.

(** Blocks that hold the pieces [cs] of a file. *)
Definition content (s : sfs_fs) (bl : list Z) (cs : list (list Z)) : Prop := Forall2 (fun b l => img s !! b = Some (patch 0 l ∅)) bl cs.
Definition total (cs : list (list Z)) : Z := Z.of_nat (length (mjoin cs)).

(** The pieces that [read] gives: all full but the last. *)
Fixpoint full_chunks (cs : list (list Z)) : Prop :=
  match cs with
  | [] => True
  | [l] => (0 < length l <= 4096)%nat
  | l :: cs => length l = 4096%nat /\ full_chunks cs
  end.

Lemma content_ext X s s' bl cs : ext X s s' -> (forall b, b ∈ bl -> b < next_ino s) -> content s bl cs -> content s' bl cs.
Proof.
  intros E Hb Hc. revert Hb. induction Hc as [|b l bl cs H _ IH]; intros Hb; constructor.
  - by rewrite (ex_img _ _ _ E) by (apply Hb; by left).
  - apply IH. intros b' Hb'. apply Hb. by right.
Qed.

(** The blocks for [n] blocks of contents, with the indirect block. *)
Definition need (n : nat) : Z := Z.of_nat n + (if (12 <? n)%nat then 1 else 0).
Lemma need_S n : need (S n) = need n + (if (n =? 12)%nat then 2 else 1).
Proof. unfold need. destruct (Nat.ltb_spec 12 n), (Nat.ltb_spec 12 (S n)), (Nat.eqb_spec n 12); lia. Qed.
Lemma need_mono n m : (n <= m)%nat -> need n <= need m.
Proof. intros H. unfold need. destruct (Nat.ltb_spec 12 n), (Nat.ltb_spec 12 m); lia. Qed.

Lemma open_file_ok cs : forall s h c bl last, base s -> holds s h c bl -> full_chunks cs -> (length bl + length cs <= 1036)%nat ->
  (cs <> [] -> last = 4096) -> next_ino s + need (length bl + length cs) - need (length bl) <= ninos s ->
  exists s' c' bl', open_file h last (Some <$> cs) s = Done (tt, s') /\ base s' /\ ext {[h]} s s' /\ holds s' h c' (bl ++ bl') /\ content s' bl' cs /\
    size (ci_din c') = size (ci_din c) + total cs /\ type (ci_din c') = type (ci_din c) /\ real c' = real c /\ ci_ino c' = ci_ino c /\
    next_ino s' = next_ino s + need (length bl + length cs) - need (length bl) /\ (forall j, j <> h -> cis s' !! j = cis s !! j).
Proof.
  induction cs as [|l cs IH]; intros s h c bl last B H Hfull Hl Hlast Hsp.
  { exists s, c, []. rewrite app_nil_r. cbn in *. split_and!; try done; [apply ext_refl|constructor|unfold total; simpl; lia|]. replace (length bl + 0)%nat with (length bl) by lia. lia. }
  cbn [fmap list_fmap open_file] in *. cbn [length] in *. rewrite (Hlast ltac:(done)).
  assert (Hll : (0 < length l <= 4096)%nat /\ full_chunks cs /\ (cs <> [] -> length l = 4096%nat)) by (destruct cs; simpl in *; [split_and!; try done; lia|destruct Hfull; split_and!; try done; lia]).
  destruct Hll as (Hll & Hfull' & Hl4). rewrite (tbind_Done _ _ _ tt s) by (by apply tassert_ok).
  assert (u64 (Z.of_nat (length l)) = Z.of_nat (length l)) as Hu by (apply Z.mod_small; lia). rewrite Hu.
  pose proof (need_S (length bl)) as HS. pose proof (need_mono (S (length bl)) (length bl + S (length cs)) ltac:(lia)).
  edestruct (new_block_ok (A := unit) (open_file h (Z.of_nat (length l)) (Some <$> cs)) s h c bl (fun _ => l) (Z.of_nat (length l)) (Z.of_nat (length l))) as (s1 & c1 & E1 & B1 & X1 & H1 & G1 & G2 & G3 & G4 & G5 & G6 & G8 & s2 & _ & G7);
    [done|done|lia|lia|lia|lia|].
  change (default [] (Some l)) with l. match goal with |- context [tbind sfs_alloc_ino ?k s] => replace (tbind sfs_alloc_ino k s) with (open_file h (Z.of_nat (length l)) (Some <$> cs) s1) by (symmetry; exact E1) end. clear E1. rewrite Nat2Z.id, take_ge in G7 by lia.
  assert (Hlb : length (bl ++ [next_ino s]) = S (length bl)) by (rewrite length_app; simpl; lia).
  destruct (IH s1 h c1 (bl ++ [next_ino s]) (Z.of_nat (length l)) B1 H1 Hfull') as (s' & c' & bl' & E & B' & X' & H' & Hc' & F1 & F2 & F3 & F4 & F5 & F6).
  - rewrite Hlb. lia.
  - intros Hne. rewrite (Hl4 Hne). done.
  - rewrite Hlb, (ex_ninos _ _ _ X1). replace (S (length bl) + length cs)%nat with (length bl + S (length cs))%nat by lia. lia.
  - exists s', c', (next_ino s :: bl'). rewrite E. split; [done|]. split; [done|]. split; [by apply ext_seq with s1|].
    rewrite <- app_assoc in H'. split; [exact H'|]. split.
    { constructor; [|done]. rewrite (ex_img _ _ _ X'); [done|]. rewrite G6. destruct (_ =? _)%nat; lia. }
    split_and!; try congruence.
    + rewrite F1, G3. unfold total. change (mjoin (l :: cs)) with (l ++ mjoin cs). rewrite length_app. lia.
    + rewrite F5, Hlb. replace (S (length bl) + length cs)%nat with (length bl + S (length cs))%nat by lia. rewrite HS, G6. lia.
    + intros j Hj. rewrite F6, G8 by done. done.
Qed.
