(* ===== verification/MksfsTree.v ===== *)
(** * tools/mksfs.c: the tree that an image holds

    What the inodes and blocks in the cache of the tool and the blocks
    written so far say about a tree of the host ([rep]), and that [open_dir]
    brings a tree into the image when there is room for it. *)
From S2P Require Import Prelude Libs Bitmap SfsDisk SfsFile Mksfs.
#[local] Open Scope tool_scope.
#[local] Set Warnings "-register-all".

(** ** Trees of the host *)
Lemma host_ind' (P : host -> Prop) :
  (forall r l, P (HFile r l)) -> (forall r es, Forall (fun e => P e.2) es -> P (HDir r es)) -> (forall r l, P (HLink r l)) -> P HOther -> forall t, P t.
Proof.
  intros Hf Hd Hl Ho. fix IH 1. intros [r l|r es|r l|]; [apply Hf| |apply Hl|apply Ho]. apply Hd.
  induction es as [|[n t] es IHes]; constructor; [apply IH|exact IHes].
Qed.

(** The entries that go into the image. *)
Definition shown (e : list Z * host) : bool := negb (hidden e.1) && match e.2 with HOther => false | _ => true end.
Definition visible (es : list (list Z * host)) : list (list Z * host) := filter (fun e => shown e = true) es.

(** The blocks of a file of the host: its inode and its contents, for a
    directory with everything below it. *)
Fixpoint inner (t : host) : Z :=
  match t with
  | HFile _ reads => 1 + need (length reads)
  | HLink _ _ => 2
  | HOther => 0
  | HDir _ es =>
      1 + need (2 + length (visible es)) +
      (fix sum (l : list (list Z * host)) : Z := match l with [] => 0 | (name, t) :: l => (if shown (name, t) then inner t else 0) + sum l end) es
  end.
Definition inner_all (l : list (list Z * host)) : Z := foldr (fun e n => inner e.2 + n) 0 l.
(** The blocks of the contents of a directory with the entries [es]. *)
Definition body (es : list (list Z * host)) : Z := need (2 + length (visible es)) + inner_all (visible es).

(** The inode numbers of the directories and links of a tree. *)
Fixpoint others (t : host) : list Z :=
  match t with
  | HFile _ _ | HOther => []
  | HLink r _ => [r]
  | HDir r es =>
      r :: (fix all (l : list (list Z * host)) : list Z := match l with [] => [] | (name, t) :: l => (if shown (name, t) then others t else []) ++ all l end) es
  end.
Definition others_all (l : list (list Z * host)) : list Z := mjoin ((fun e => others e.2) <$> l).

Lemma visible_cons e es : visible (e :: es) = if shown e then e :: visible es else visible es.
Proof. unfold visible. rewrite filter_cons. by destruct (shown e). Qed.
Lemma inner_dir r es : inner (HDir r es) = 1 + body es.
Proof.
  unfold body. cbn [inner]. rewrite <- Z.add_assoc. f_equal. f_equal. induction es as [|[n t] es IH]; [done|]. rewrite IH, visible_cons.
  destruct (shown (n, t)); [|lia]. done.
Qed.
Lemma others_dir r es : others (HDir r es) = r :: others_all (visible es).
Proof.
  cbn [others]. f_equal. induction es as [|[n t] es IH]; [done|]. rewrite IH, visible_cons. by destruct (shown (n, t)).
Qed.
Lemma inner_pos t : 0 <= inner t.
Proof.
  induction t as [r l|r es IH|r l|] using host_ind'; [cbn [inner]; unfold need; destruct (_ <? _)%nat; lia| |cbn; lia|cbn; lia].
  rewrite inner_dir. unfold body. assert (0 <= inner_all (visible es)); [|unfold need; destruct (_ <? _)%nat; lia].
  induction IH as [|e es He _ IHes]; [done|]. rewrite visible_cons. destruct (shown e); [|done]. simpl. lia.
Qed.

Lemma inner_all_pos l : 0 <= inner_all l.
Proof. induction l as [|e l IH]; [done|]. simpl. pose proof (inner_pos e.2). lia. Qed.
Lemma body_pos es : 0 <= body es.
Proof. unfold body, need. pose proof (inner_all_pos (visible es)). destruct (_ <? _)%nat; lia. Qed.

Definition fname (l : list Z) : Prop := Forall (fun c => c <> 0) l /\ (length l <= 255)%nat.

(** ** What the image holds of a tree *)
Definition shows_data (s : sfs_fs) (h : nat) (ty : Z) (cs : list (list Z)) : Prop :=
  exists c bl, holds s h c bl /\ type (ci_din c) = ty /\ content s bl cs /\ size (ci_din c) = total cs.

(** The inode number of a file on the host. *)
Definition host_ino (t : host) : Z := match t with HFile r _ | HDir r _ | HLink r _ => r | HOther => 0 end.
Definition is_dir (t : host) : bool := match t with HDir _ _ => true | _ => false end.

(** The entries of a directory: itself, its parent, and the names of [es]
    with the inodes [ns]. *)
Definition entries_of (self parent : Z) (es : list (list Z * host)) (ns : list (nat * Z)) : list (Z * list Z) :=
  (self, [46]) :: (parent, [46; 46]) :: zip_with (fun e n => (n.2, e.1)) es ns.

(** Inode [h] with parent [p] holds the file [t]. *)
Inductive rep (s : sfs_fs) : nat -> nat -> host -> Prop :=
| rep_file h p r cs : full_chunks cs -> shows_data s h SFS_TYPE_FILE cs -> rep s h p (HFile r (Some <$> cs))
| rep_link h p r l : (length l < 4096)%nat -> shows_data s h SFS_TYPE_LINK [l] -> rep s h p (HLink r (Some l))
| rep_dir h p r es ks c pc bl :
    holds s h c bl -> type (ci_din c) = SFS_TYPE_DIR -> size (ci_din c) = 256 * Z.of_nat (length bl) -> cis s !! p = Some pc ->
    Forall2 (fun b e => entry_in s b e.1 e.2) bl (entries_of (ci_ino c) (ci_ino pc) (visible es) ks) ->
    Forall2 (fun e k => (exists ck, cis s !! k.1 = Some ck /\ ci_ino ck = k.2 /\ real ck = host_ino e.2 /\ 1 <= nlinks (ci_din ck)) /\
                        (is_dir e.2 = true -> (h < k.1)%nat) /\ rep s k.1 h e.2) (visible es) ks ->
    rep s h p (HDir r es).

Lemma entry_in_ext X s s' e no name : ext X s s' -> e < next_ino s -> entry_in s e no name -> entry_in s' e no name.
Proof. intros E He (rest & Hl & Hi). exists rest. by rewrite (ex_img _ _ _ E). Qed.
Lemma holds_below s h c bl b : holds s h c bl -> b ∈ bl -> b < next_ino s.
Proof. intros H Hb. destruct (ho_free _ _ _ _ H b Hb). lia. Qed.
Lemma entries_ext X s s' bl es : ext X s s' -> (forall b, b ∈ bl -> b < next_ino s) ->
  Forall2 (fun b e => entry_in s b e.1 e.2) bl es -> Forall2 (fun b e => entry_in s' b e.1 e.2) bl es.
Proof.
  intros E Hb H. revert Hb. induction H as [|b e bl es H _ IH]; intros Hb; constructor.
  - apply entry_in_ext with X s; [done| |done]. apply Hb. by left.
  - apply IH. intros b' Hb'. apply Hb. by right.
Qed.

Lemma data_ext X s s' h ty cs : base s -> ext X s s' -> h ∉ X -> shows_data s h ty cs -> shows_data s' h ty cs.
Proof.
  intros B E HX (c & bl & H & Ht & Hc & Hs). destruct (holds_ext X s s' h c bl B E HX H) as (c' & H' & (n & _ & ->)).
  exists (set_ci_din (set_nlinks n) c), bl. split_and!; try done. apply content_ext with X s; [done| |done]. intros b. by apply (holds_below s h c).
Qed.

Lemma kid_ext X s s' k n r : ext X s s' -> (exists ck, cis s !! k = Some ck /\ ci_ino ck = n /\ real ck = r /\ 1 <= nlinks (ci_din ck)) ->
  exists ck, cis s' !! k = Some ck /\ ci_ino ck = n /\ real ck = r /\ 1 <= nlinks (ci_din ck).
Proof. intros E (ck & H1 & H2 & Hr & H3). destruct (ex_ci _ _ _ E k ck H1) as (c' & H' & Hi & Hr' & _ & Hn & _). exists c'. split_and!; [done|congruence|congruence|lia]. Qed.

(** A tree stays in the image while directories outside it are filled. *)
Definition away (X : gset nat) (s : sfs_fs) (k : nat) (t : host) : Prop :=
  forall x, x ∈ X -> (exists c, cis s !! x = Some c /\ type (ci_din c) = SFS_TYPE_DIR) /\ (is_dir t = true -> (x < k)%nat).

Lemma tree_ext X s s' t : base s -> ext X s s' -> forall k p, away X s k t -> rep s k p t -> rep s' k p t.
Proof.
  intros B E. induction t as [r l|r es IH|r l|] using host_ind'; intros k p Haw Hrep; inversion Hrep; subst.
  - constructor; [done|]. apply data_ext with X s; try done. intros Hx. destruct (Haw k Hx) as [(c & Hc & Ht) _].
    match goal with H : shows_data _ _ _ _ |- _ => destruct H as (c' & bl & Hh & Ht' & _) end. pose proof (ho_ci _ _ _ _ Hh). assert (c' = c) as -> by congruence. unfold SFS_TYPE_DIR, SFS_TYPE_FILE in *. congruence.
  - match goal with H : holds _ _ _ _ |- _ => rename H into Hh end.
    assert (HX : k ∉ X) by (intros Hx; destruct (Haw k Hx) as [_ Hlt]; specialize (Hlt eq_refl); lia).
    destruct (holds_ext X s s' k c bl B E HX Hh) as (c' & Hh' & (n & _ & ->)).
    match goal with H : cis s !! p = Some pc |- _ => destruct (ex_ci _ _ _ E p pc H) as (pc' & Hp' & Hpi & _) end.
    apply (rep_dir s' k p r es ks (set_ci_din (set_nlinks n) c) pc' bl); try done.
    + rewrite Hpi. apply entries_ext with X s; [done|intros b; by apply (holds_below s k c)|done].
    + match goal with H : Forall2 _ (visible es) ks |- _ => rename H into Hk end. clear - Hk IH E Haw B.
      assert (IH' : Forall (fun e => forall k p, away X s k e.2 -> rep s k p e.2 -> rep s' k p e.2) (visible es)).
      { rewrite Forall_forall in *. intros e He. apply IH. unfold visible in He. by apply list_elem_of_filter in He as [_ He]. }
      clear IH. induction Hk as [|e ke es' ks' (H1 & H2 & H3) _ IHk]; constructor; inversion IH' as [|? ? I1 I2]; subst; [|by apply IHk].
      split; [by apply kid_ext with X s|]. split; [done|]. apply I1; [|done]. intros x Hx. destruct (Haw x Hx) as [? Hlt]. split; [done|].
      intros Hd. specialize (H2 Hd). specialize (Hlt eq_refl). lia.
  - constructor; [done|]. apply data_ext with X s; try done. intros Hx. destruct (Haw k Hx) as [(c & Hc & Ht) _].
    match goal with H : shows_data _ _ _ _ |- _ => destruct H as (c' & bl & Hh & Ht' & _) end. pose proof (ho_ci _ _ _ _ Hh). assert (c' = c) as -> by congruence. unfold SFS_TYPE_DIR, SFS_TYPE_LINK in *. congruence.
Qed.

(** ** The names on the way down *)
Definition keeps_sub {A} (m : T A) : Prop := forall s a s', m s = Done (a, s') -> sub s' = sub s.
Lemma keeps_sub_bind {A B} (m : T A) (f : A -> T B) : keeps_sub m -> (forall a, keeps_sub (f a)) -> keeps_sub (tbind m f).
Proof. intros Hm Hf s b s' H. unfold tbind in H. destruct (m s) as [[a s1]| |] eqn:E; [|done|done]. rewrite (Hf a _ _ _ H). by apply (Hm s a). Qed.
Lemma keeps_sub_at {A} (m : sfs_fs -> T A) : (forall s, keeps_sub (m s)) -> keeps_sub (fun s => m s s).
Proof. intros H s a s'. apply H. Qed.
Lemma keeps_sub_ret {A} (a : A) : keeps_sub (tret a).
Proof. by intros s b s' [= <- <-]. Qed.
Lemma keeps_sub_bug {A} : keeps_sub (@bug A).
Proof. done. Qed.
Lemma keeps_sub_abort {A} : keeps_sub ((fun _ => Abort) : T A).
Proof. done. Qed.
Lemma keeps_sub_assert b : keeps_sub (tassert b).
Proof. destruct b; [apply keeps_sub_ret|done]. Qed.
Lemma keeps_sub_host : keeps_sub hostcall.
Proof. intros s a s' H. unfold hostcall in H. destruct (oks s) as [|[] l]; by simplify_eq/=. Qed.
Lemma keeps_sub_fun {A} (f : sfs_fs -> A * sfs_fs) : (forall s, sub (f s).2 = sub s) -> keeps_sub (fun s => Done (f s)).
Proof. intros H s a s' E. specialize (H s). assert (f s = (a, s')) as E' by congruence. by rewrite E' in H. Qed.
Lemma keeps_sub_upd (f : sfs_fs -> sfs_fs) : (forall s, sub (f s) = sub s) -> keeps_sub (fun s => Done (tt, f s)).
Proof. intros H s a s' E. injection E as <- <-. apply H. Qed.
Lemma keeps_sub_get_ci h : keeps_sub (get_ci h).
Proof. intros s a s' H. unfold get_ci in H. destruct (cis s !! h); by simplify_eq. Qed.
Lemma keeps_sub_get_cb h : keeps_sub (get_cb h).
Proof. intros s a s' H. unfold get_cb in H. destruct (cbs s !! h); by simplify_eq. Qed.
Lemma keeps_sub_put_ci h c : keeps_sub (put_ci h c).
Proof. by apply keeps_sub_upd. Qed.
Lemma keeps_sub_put_cb h c : keeps_sub (put_cb h c).
Proof. by apply keeps_sub_upd. Qed.
Lemma keeps_sub_ino : keeps_sub sfs_alloc_ino.
Proof. intros s a s' H. unfold sfs_alloc_ino in H. destruct (_ <? _); by simplify_eq/=. Qed.
Lemma keeps_sub_search_cb n : keeps_sub (search_cache_block n).
Proof. by intros s a s' [= <- <-]. Qed.
Lemma keeps_sub_search_ci n : keeps_sub (search_cache_inode n).
Proof. by intros s a s' [= <- <-]. Qed.

Create HintDb tool.
#[export] Hint Resolve keeps_sub_bind keeps_sub_ret keeps_sub_bug keeps_sub_abort keeps_sub_assert keeps_sub_host keeps_sub_get_ci keeps_sub_get_cb keeps_sub_put_ci keeps_sub_put_cb
  keeps_sub_ino keeps_sub_search_cb keeps_sub_search_ci : tool.
(** Follows the structure of a program of the tool. *)
Ltac keep := repeat match goal with
  | |- forall _, _ => intros
  | |- keeps_sub (tbind _ _) => apply keeps_sub_bind
  | |- keeps_sub (match ?x with _ => _ end) => destruct x
  | |- keeps_sub (let '(_, _) := ?x in _) => destruct x
  | |- keeps_sub _ => solve [auto with tool]
  end.

Lemma keeps_sub_write d l n : keeps_sub (write_block d l n).
Proof. apply (keeps_sub_at (fun s => tbind (tassert ((l <=? SFS_BLKSIZE) && (n <? ninos s))) _)). keep. by apply keeps_sub_upd. Qed.
Lemma keeps_sub_new_cb n : keeps_sub (alloc_cache_block n).
Proof. unfold alloc_cache_block. keep; by apply (keeps_sub_fun (fun s => (next_h s, Mk _ _ _ _ _ _ _ _ _ _ _ _ _))). Qed.
Lemma keeps_sub_new_ci r n t : keeps_sub (alloc_cache_inode r n t).
Proof. unfold alloc_cache_inode. keep; by apply (keeps_sub_fun (fun s => (next_h s, Mk _ _ _ _ _ _ _ _ _ _ _ _ _))). Qed.
#[export] Hint Resolve keeps_sub_write keeps_sub_new_cb keeps_sub_new_ci : tool.
Lemma keeps_sub_update c n : keeps_sub (update_cache c n).
Proof. unfold update_cache. keep. Qed.
Lemma keeps_sub_word h i v : keeps_sub (put_word h i v).
Proof. unfold put_word. keep. Qed.
#[export] Hint Resolve keeps_sub_update keeps_sub_word : tool.
Lemma keeps_sub_append h l n : keeps_sub (append_block h l n).
Proof. unfold append_block, append_entry. cbv zeta. keep. Qed.
#[export] Hint Resolve keeps_sub_append : tool.
Lemma keeps_sub_entry c f n : keeps_sub (add_entry c f n).
Proof.
  unfold add_entry. keep; [by apply keeps_sub_upd|]. apply (keeps_sub_at (fun s => write_block (mk_entry_bytes (ci_ino _) (ename s)) 260 _)). keep.
Qed.
#[export] Hint Resolve keeps_sub_entry : tool.
Lemma keeps_sub_file f l : forall last, keeps_sub (open_file f last l).
Proof. induction l as [|r l IH]; intros last; cbn [open_file]; keep. Qed.
Lemma keeps_sub_link f l : keeps_sub (open_link f l).
Proof. unfold open_link. keep. Qed.
#[export] Hint Resolve keeps_sub_file keeps_sub_link : tool.

(** What is pushed is popped. *)
Lemma keeps_sub_add_dir f p name r : (forall a b, keeps_sub (f a b)) -> keeps_sub (add_dir f p name r).
Proof.
  intros Hf. unfold add_dir. do 4 (apply keeps_sub_bind; [solve [auto with tool]|intros ?]). intros s ? s' H. unfold tbind, subpath_push in H. unfold tbind in H.
  destruct (hostcall s) as [[u1 s1]| |] eqn:E1; [|done|done]. destruct (hostcall s1) as [[u2 s2]| |] eqn:E2; [|done|done].
  destruct (f _ _ _) as [[u3 s3]| |] eqn:E3; [|done|done]. destruct (hostcall s3) as [[u4 s4]| |] eqn:E4; [|done|done].
  destruct (subpath_pop s4) as [[u5 s5]| |] eqn:E5; [|done|done]. apply keeps_sub_entry in H. rewrite H. clear H.
  apply keeps_sub_host in E1, E2, E4. apply Hf in E3. unfold subpath_pop, tbind in E5. destruct (tassert _ s4) as [[u6 s6]| |] eqn:E6; [|done|done].
  apply keeps_sub_assert in E6. injection E5 as _ <-. cbn [set_sub sub] in *. rewrite E6, E4, E3, E2, E1.
  rewrite length_app. cbn [length]. rewrite take_app_le by lia. apply take_ge. lia.
Qed.

Lemma keeps_sub_open_dir t : forall c p, keeps_sub (open_dir t c p).
Proof.
  induction t as [r l|r es IH|r l|] using host_ind'; intros c p; cbn [open_dir]; [done| |done|done]. keep.
  induction IH as [|[n t] es Ht _ IHes]; [apply keeps_sub_ret|]. apply keeps_sub_bind; [|intros; apply IHes].
  unfold open_entry. keep; unfold add_link, add_file; keep. by apply keeps_sub_add_dir.
Qed.

(** ** Filling directories

    [F] gives the contents of the regular files by inode number, so that
    entries with one number are one file. *)
Section Tree.
Context (F : Z -> option (list (list Z))).

Inductive host_ok : host -> Prop :=
| ok_file r cs : F r = Some cs -> full_chunks cs -> (length cs <= 1036)%nat -> host_ok (HFile r (Some <$> cs))
| ok_link r l : F r = None -> (length l < 4096)%nat -> host_ok (HLink r (Some l))
| ok_dir r es : F r = None -> (length (visible es) <= 1034)%nat -> NoDup (visible es).*1 ->
    Forall (fun e => hidden e.1 = false -> fname e.1) es -> Forall (fun e => host_ok e.2) (visible es) -> host_ok (HDir r es).

(** The files in the cache are complete, and each file of the host has one inode. *)
Definition one_each (s : sfs_fs) : Prop := forall k k' c c', cis s !! k = Some c -> cis s !! k' = Some c' -> real c = real c' -> k = k'.
Definition files (s : sfs_fs) : Prop :=
  (forall k c cs, cis s !! k = Some c -> F (real c) = Some cs -> shows_data s k SFS_TYPE_FILE cs) /\ one_each s.
(** The inodes of [s'] that are not in [s] are files or have a number in [L]. *)
Definition new_reals (L : list Z) (s s' : sfs_fs) : Prop :=
  forall k c', cis s' !! k = Some c' -> (exists c, cis s !! k = Some c /\ real c = real c') \/ F (real c') <> None \/ real c' ∈ L.
Definition unseen (L : list Z) (s : sfs_fs) : Prop := forall k c, cis s !! k = Some c -> real c ∉ L.
Definition room (s : sfs_fs) (n : Z) : Prop := next_ino s + n <= ninos s /\ next_ino s + n <= first s + 65535.

(** Directory [h] after the entries [es]. *)
Definition upto (s : sfs_fs) (h p : nat) (es : list (list Z * host)) (bl : list Z) : Prop :=
  exists ks c pc, holds s h c bl /\ type (ci_din c) = SFS_TYPE_DIR /\ size (ci_din c) = 256 * Z.of_nat (length bl) /\ F (real c) = None /\ cis s !! p = Some pc /\
    Forall2 (fun b e => entry_in s b e.1 e.2) bl (entries_of (ci_ino c) (ci_ino pc) es ks) /\
    Forall2 (fun e k => (exists ck, cis s !! k.1 = Some ck /\ ci_ino ck = k.2 /\ real ck = host_ino e.2 /\ 1 <= nlinks (ci_din ck)) /\
                        (is_dir e.2 = true -> (h < k.1)%nat) /\ rep s k.1 h e.2) es ks.

(** [k] of [s'] holds the file [t], which is to be entered in [h]. *)
Definition ready (s : sfs_fs) (h : nat) (t : host) (s' : sfs_fs) (k : nat) : Prop :=
  base s' /\ ext ∅ s s' /\ files s' /\ (exists c, cis s' !! k = Some c /\ real c = host_ino t) /\ (is_dir t = true -> (h < k)%nat) /\ rep s' k h t /\
  next_ino s' <= next_ino s + inner t /\ new_reals (others t) s s'.

Lemma new_reals_trans L L' s s1 s2 : new_reals L s s1 -> new_reals L' s1 s2 -> new_reals (L ++ L') s s2.
Proof.
  intros H H' k c' Hk. destruct (H' k c' Hk) as [(c1 & H1 & E1)|[?|?]]; [|auto|right; right; apply elem_of_app; auto].
  destruct (H k c1 H1) as [(c & Hc & E)|[?|?]]; rewrite <- E1; [left; exists c; split; [done|congruence]|auto|right; right; apply elem_of_app; auto].
Qed.
Lemma new_reals_same X L s s' : ext X s s' -> (forall k, is_Some (cis s' !! k) -> is_Some (cis s !! k)) -> new_reals L s s'.
Proof.
  intros E Hd k c' Hk. destruct (Hd k) as [c Hc]; [by rewrite Hk|]. left. exists c. split; [done|].
  destruct (ex_ci _ _ _ E k c Hc) as (c1 & H1 & _ & Hr & _). congruence.
Qed.
Lemma new_reals_sub L L' s s' : (forall r, r ∈ L -> r ∈ L') -> new_reals L s s' -> new_reals L' s s'.
Proof. intros HL H k c' Hk. destruct (H k c' Hk) as [?|[?|?]]; auto. Qed.

Lemma one_each_same X s s' : ext X s s' -> (forall k, is_Some (cis s' !! k) -> is_Some (cis s !! k)) -> one_each s -> one_each s'.
Proof.
  intros E Hd Ho. assert (Hold : forall k c', cis s' !! k = Some c' -> exists c, cis s !! k = Some c /\ real c = real c').
  { intros k c' Hk. destruct (Hd k) as [c Hc]; [by rewrite Hk|]. destruct (ex_ci _ _ _ E k c Hc) as (c1 & H1 & _ & Hr & _). exists c. split; [done|congruence]. }
  intros k k' c c' Hk Hk' Hr. destruct (Hold k c Hk) as (d & Hd1 & E1), (Hold k' c' Hk') as (d' & Hd2 & E2). apply (Ho k k' d d'); congruence.
Qed.

Lemma files_same X s s' : base s -> files s -> ext X s s' -> (forall k, is_Some (cis s' !! k) -> is_Some (cis s !! k)) ->
  (forall x c, x ∈ X -> cis s !! x = Some c -> F (real c) = None) -> files s'.
Proof.
  intros B [Hf Ho] E Hd HX. split; [|by apply (one_each_same X s)]. intros k c' cs Hk HF. destruct (Hd k) as [c Hc]; [by rewrite Hk|]. destruct (ex_ci _ _ _ E k c Hc) as (c1 & H1 & _ & Hr & _).
  assert (c1 = c') as -> by congruence. rewrite Hr in HF. apply (data_ext X s); [done|done| |by apply (Hf k c)].
  intros Hx. rewrite (HX k c Hx Hc) in HF. done.
Qed.

Lemma others_none t : host_ok t -> forall r, r ∈ others t -> F r = None.
Proof.
  induction t as [r l|r es IH|r l|] using host_ind'; intros Hok x Hx; inversion Hok; subst; [by apply not_elem_of_nil in Hx| |by apply list_elem_of_singleton in Hx as ->].
  rewrite others_dir in Hx. apply elem_of_cons in Hx as [->|Hx]; [done|]. apply list_elem_of_join in Hx as (l & Hx & Hl).
  apply list_elem_of_fmap in Hl as (e & -> & He). match goal with H : Forall (fun e => host_ok e.2) _ |- _ => rewrite Forall_forall in H; pose proof (H e He) as Hoe end.
  rewrite Forall_forall in IH. apply (IH e); [|done|done]. unfold visible in He. by apply list_elem_of_filter in He as [_ He].
Qed.

(** The entry for a file that is ready. *)
Lemma upto_step s h p es bl t name s1 k : base s -> upto s h p es bl -> ready s h t s1 k -> (length bl < 1036)%nat -> fname name ->
  room s (inner t + (need (S (length bl)) - need (length bl))) ->
  exists s2 b, add_entry h k name s1 = Done (tt, s2) /\ base s2 /\ files s2 /\ ext {[h]} s s2 /\ upto s2 h p (es ++ [(name, t)]) (bl ++ [b]) /\
    next_ino s2 <= next_ino s + inner t + (need (S (length bl)) - need (length bl)) /\ new_reals (others t) s s2.
Proof.
  intros B (ks & c & pc & Hh & Ht & Hsz & HF & Hp & Hent & Hkids) (B1 & X1 & Hf1 & (ck & Hck & Hreal) & Hlt & Hrep & Hnx & Hnr) Hl [_ Hnm] [Hr1 Hr2].
  destruct (holds_ext ∅ s s1 h c bl B X1 ltac:(set_solver) Hh) as (c1 & Hh1 & (n1 & _ & ->)). pose proof (need_S (length bl)) as HS.
  pose proof (ext_first _ _ _ X1) as Hfst. pose proof (ex_ninos _ _ _ X1) as Hno.
  destruct (add_entry_ok s1 h _ bl k ck name B1 Hh1 Ht Hck Hl Hnm) as (s2 & E2 & c2 & B2 & X2 & Hh2 & Hsz2 & Hi2 & Ht2 & Hen2 & Hk2 & Hdom & Hn2).
  { rewrite Hno. lia. } { rewrite Hfst. destruct (_ =? _)%nat in HS; lia. }
  assert (X02 : ext {[h]} s s2) by (apply ext_seq with s1; [done|by apply (ext_shrink ∅)|done]).
  exists s2, (next_ino s1). split; [done|]. split; [done|]. split_and!; try done.
  - apply (files_same {[h]} s1); try done. intros x c' Hx Hc'. apply elem_of_singleton in Hx as ->. pose proof (ho_ci _ _ _ _ Hh1). assert (c' = set_ci_din (set_nlinks n1) c) as -> by congruence. done.
  - destruct (ex_ci _ _ _ X02 p pc Hp) as (pc' & Hp' & Hpi & _). exists (ks ++ [(k, ci_ino ck)]), c2, pc'. split; [done|].
    destruct (ex_ci _ _ _ X02 h c (ho_ci _ _ _ _ Hh)) as (c' & Hc' & Hi & Hre & _). assert (c' = c2) as -> by (pose proof (ho_ci _ _ _ _ Hh2); congruence).
    assert (Hd : cis s1 !! h = Some (set_ci_din (set_nlinks n1) c)) by apply Hh1.
    split_and!; [by rewrite Ht2|rewrite Hsz2, length_app; cbn [set_ci_din ci_din set_nlinks size length]; lia|by rewrite Hre|done| |].
    + rewrite Hi, Hpi. unfold entries_of. rewrite zip_with_app by (by apply Forall2_length in Hkids). rewrite !app_comm_cons. apply Forall2_app.
      * apply (entries_ext {[h]} s); [done|intros b; by apply (holds_below s h c)|done].
      * constructor; [|constructor]. exact Hen2.
    + apply Forall2_app.
      * eapply Forall2_impl; [exact Hkids|]. intros e ke (H1 & H2 & H3). split; [by apply (kid_ext {[h]} s)|]. split; [done|].
        apply (tree_ext {[h]} s); [done|done| |done]. intros x Hx. apply elem_of_singleton in Hx as ->. split; [|done]. exists c. split; [apply Hh|done].
      * constructor; [|constructor]. cbn [fst snd]. split; [|split; [done|]].
        -- destruct Hk2 as (f' & Hf' & Hl'). exists f'. destruct (ex_ci _ _ _ X2 k ck Hck) as (c3 & Hc3 & Hci3 & Hre3 & _). split_and!; [done|congruence|congruence|done].
        -- apply (tree_ext {[h]} s1); [done|done| |done]. intros x Hx. apply elem_of_singleton in Hx as ->. split; [|done]. eexists. split; [exact Hd|done].
  - lia.
  - rewrite <- (app_nil_r (others t)). apply new_reals_trans with s1; [done|]. by apply (new_reals_same {[h]}).
Qed.

Lemma new_reals_alloc s s1 c : cis s1 = <[next_h s := c]> (cis s) -> forall L, (F (real c) <> None \/ real c ∈ L) -> new_reals L s s1.
Proof.
  intros Hci L HL k c' Hk. rewrite Hci in Hk. destruct (decide (k = next_h s)) as [->|]; [rewrite lookup_insert_eq in Hk; injection Hk as <-; by right|].
  rewrite lookup_insert_ne in Hk by done. left. by exists c'.
Qed.
(** The files of [s] stay complete when nothing but inode [k] is new. *)
Lemma files_alloc s s' k : base s -> files s -> ext ∅ s s' -> cis s !! k = None -> (forall j, j <> k -> is_Some (cis s' !! j) -> is_Some (cis s !! j)) ->
  (forall c cs, cis s' !! k = Some c -> F (real c) = Some cs -> shows_data s' k SFS_TYPE_FILE cs) ->
  (forall c j cj, cis s' !! k = Some c -> cis s !! j = Some cj -> real cj <> real c) -> files s'.
Proof.
  intros B [Hf Ho] E Hk Hd Hnew Hfresh. split.
  2: { assert (Hold : forall j c', j <> k -> cis s' !! j = Some c' -> exists c, cis s !! j = Some c /\ real c = real c').
       { intros j c' Hj Hc'. destruct (Hd j Hj) as [c Hc]; [by rewrite Hc'|]. destruct (ex_ci _ _ _ E j c Hc) as (c1 & H1 & _ & Hr & _). exists c. split; [done|congruence]. }
       intros j j' c c' Hj Hj' Hr. destruct (decide (j = k)) as [->|Hjk], (decide (j' = k)) as [->|Hjk']; [done|..].
       - destruct (Hold j' c' Hjk' Hj') as (d & Hd' & Er). destruct (Hfresh c j' d Hj Hd'). congruence.
       - destruct (Hold j c Hjk Hj) as (d & Hd' & Er). destruct (Hfresh c' j d Hj' Hd'). congruence.
       - destruct (Hold j c Hjk Hj) as (d & Hd1 & Er), (Hold j' c' Hjk' Hj') as (d' & Hd2 & Er'). apply (Ho j j' d d'); congruence. }
  intros j c' cs Hj HF. destruct (decide (j = k)) as [->|Hne]; [by apply (Hnew c')|].
  destruct (Hd j Hne) as [c Hc]; [by rewrite Hj|]. destruct (ex_ci _ _ _ E j c Hc) as (c1 & H1 & _ & Hr & _). assert (c1 = c') as -> by congruence.
  apply (data_ext ∅ s); [done|done|set_solver|]. apply (Hf j c); [done|congruence].
Qed.
Lemma fresh_handle s : base s -> cis s !! next_h s = None.
Proof. intros B. apply eq_None_not_Some. intros [c Hc]. destruct (ba_ci _ B _ _ Hc). lia. Qed.

(** The part of [add_file] before the entry. *)
Lemma ready_file s h r cs : base s -> files s -> F r = Some cs -> full_chunks cs -> (length cs <= 1036)%nat -> room s (inner (HFile r (Some <$> cs))) ->
  forall name, exists s1 k, add_file h name r (Some <$> cs) s = add_entry h k name s1 /\ ready s h (HFile r (Some <$> cs)) s1 k.
Proof.
  intros B Hf HF Hfull Hl Hroom name. destruct (search_ci_spec s r B) as (o & Eo & Ho). unfold add_file. tstep Eo. destruct o as [k|].
  - destruct Ho as (c & Hc & Hr). exists s, k. rewrite (tbind_Done _ _ _ k s) by done. split; [done|]. split_and!; try done.
    + apply ext_refl.
    + by exists c.
    + constructor; [done|]. apply (proj1 Hf k c); [done|congruence].
    + pose proof (inner_pos (HFile r (Some <$> cs))). lia.
    + apply (new_reals_same ∅); [apply ext_refl|done].
  - destruct Hroom as [Hsp _]. cbn [inner] in *. rewrite length_fmap in Hsp. pose proof (need_mono 0 (length cs) ltac:(lia)) as Hn0. change (need 0) with 0 in Hn0.
    destruct (alloc_ci_ok s r SFS_TYPE_FILE B ltac:(lia)) as (s1 & E1 & B1 & X1 & Hn1 & Hci1).
    set (c := CI _ _ _ _ _ _ _) in Hci1. assert (H1 : holds s1 (next_h s) c []) by (apply holds_new; by rewrite Hci1, lookup_insert_eq).
    destruct (open_file_ok cs s1 (next_h s) c [] SFS_BLKSIZE B1 H1 Hfull Hl ltac:(done)) as (s2 & c2 & bl & E2 & B2 & X2 & H2 & Hct & G1 & G2 & G3 & G4 & G5 & G6).
    { rewrite (ex_ninos _ _ _ X1). cbn [length Nat.add]. change (need 0) with 0. lia. }
    exists s2, (next_h s). rewrite (tbind_Done _ _ _ (next_h s) s2).
    2: { tstep E1. by tstep E2. }
    pose proof (fresh_handle s B) as Hfr.
    assert (X02 : ext ∅ s s2).
    { apply (ext_shrink ({[next_h s]})); [|intros k Hk; apply elem_of_singleton in Hk as ->; by right].
      apply ext_seq with s1; [done|by apply (ext_shrink ∅)|done]. }
    assert (Hdata : shows_data s2 (next_h s) SFS_TYPE_FILE cs) by (exists c2, bl; done).
    split; [done|]. split_and!; try done.
    + apply (files_alloc s s2 (next_h s)); try done.
      * intros j Hj. rewrite G6 by done. rewrite Hci1, lookup_insert_ne by done. done.
      * intros c3 cs3 Hc3 HF3. assert (c3 = c2) as -> by (pose proof (ho_ci _ _ _ _ H2); congruence). rewrite G3 in HF3. cbn in HF3. congruence.
      * intros c3 j cj Hc3 Hcj. assert (c3 = c2) as -> by (pose proof (ho_ci _ _ _ _ H2); congruence). rewrite G3. by apply (Ho j cj).
    + exists c2. split; [apply (ho_ci _ _ _ _ H2)|by rewrite G3].
    + by constructor.
    + cbn [inner]. rewrite length_fmap, G5, Hn1. cbn [length Nat.add]. change (need 0) with 0. lia.
    + rewrite <- (app_nil_r (others _)). apply new_reals_trans with s1; [apply (new_reals_alloc s s1 c Hci1); left; cbn; congruence|].
      apply (new_reals_same {[next_h s]}); [done|]. intros k. destruct (decide (k = next_h s)) as [->|]; [by rewrite (ho_ci _ _ _ _ H1)|]. by rewrite G6.
Qed.

Lemma tbind_tret (m : T unit) s : tbind m (fun _ => tret tt) s = m s.
Proof. unfold tbind. by destruct (m s) as [[[] ?]| |]. Qed.

(** The part of [add_link] before the entry. *)
Lemma ready_link s h r l : base s -> files s -> F r = None -> (length l < 4096)%nat -> unseen [r] s -> room s 2 ->
  forall name, exists s1 k, add_link h name r (Some l) s = add_entry h k name s1 /\ ready s h (HLink r (Some l)) s1 k.
Proof.
  intros B Hf HF Hl Hun [Hsp _] name. destruct (alloc_ci_ok s r SFS_TYPE_LINK B ltac:(lia)) as (s1 & E1 & B1 & X1 & Hn1 & Hci1). unfold add_link. tstep E1.
  set (c := CI _ _ _ _ _ _ _) in Hci1. assert (H1 : holds s1 (next_h s) c []) by (apply holds_new; by rewrite Hci1, lookup_insert_eq).
  edestruct (new_block_ok (tret tt) s1 (next_h s) c [] (fun _ => l) (Z.of_nat (length l)) (Z.of_nat (length l))) as (s2 & c2 & E2 & B2 & X2 & H2 & G1 & G2 & G3 & G4 & G5 & G6 & G8 & s3 & _ & G7);
    [done|done|simpl; lia|lia|lia|rewrite (ex_ninos _ _ _ X1); simpl; lia|].
  assert (E2' : open_link (next_h s) (Some l) s1 = Done (tt, s2)).
  { unfold open_link. rewrite <- tbind_tret. rewrite Z.min_l by (unfold SFS_BLKSIZE; lia). rewrite (proj2 (Z.eqb_neq _ _)) by (unfold SFS_BLKSIZE; lia).
    rewrite <- E2 at 1. unfold tbind. destruct (sfs_alloc_ino s1) as [[e s4]| |]; [|done|done]. destruct (write_block _ _ _ _) as [[[] s5]| |]; done. }
  tstep E2'. exists s2, (next_h s). split; [done|]. pose proof (fresh_handle s B) as Hfr. cbn [length app] in *. rewrite Nat2Z.id, take_ge in G7 by lia.
  assert (X02 : ext ∅ s s2).
  { apply (ext_shrink ({[next_h s]})); [|intros k Hk; apply elem_of_singleton in Hk as ->; by right].
    apply ext_seq with s1; [done|by apply (ext_shrink ∅)|done]. }
  split_and!; try done.
  - apply (files_alloc s s2 (next_h s)); try done.
    + intros j Hj. rewrite G8 by done. rewrite Hci1, lookup_insert_ne by done. done.
    + intros c3 cs3 Hc3 HF3. assert (c3 = c2) as -> by (pose proof (ho_ci _ _ _ _ H2); congruence). rewrite G2 in HF3. cbn in HF3. congruence.
    + intros c3 j cj Hc3 Hcj Er. assert (c3 = c2) as -> by (pose proof (ho_ci _ _ _ _ H2); congruence). apply (Hun j cj Hcj). rewrite Er, G2. by left.
  - exists c2. split; [apply (ho_ci _ _ _ _ H2)|by rewrite G2].
  - constructor; [done|]. exists c2, [next_ino s1]. split; [done|]. split; [by rewrite G4|]. split; [by constructor|]. rewrite G3. unfold total. simpl. rewrite app_nil_r. lia.
  - rewrite G6, Hn1. simpl. lia.
  - rewrite <- (app_nil_r (others _)). apply new_reals_trans with s1; [apply (new_reals_alloc s s1 c Hci1); right; set_solver|].
    apply (new_reals_same {[next_h s]}); [done|]. intros k. destruct (decide (k = next_h s)) as [->|]; [by rewrite (ho_ci _ _ _ _ H1)|]. by rewrite G8.
Qed.

(** [open_dir] on a new inode. *)
Definition fills (t : host) : Prop :=
  match t with
  | HDir r es => forall s h p c pc, base s -> files s -> holds s h c [] -> type (ci_din c) = SFS_TYPE_DIR -> size (ci_din c) = 0 -> F (real c) = None ->
      cis s !! p = Some pc -> unseen (others_all (visible es)) s -> NoDup (others_all (visible es)) -> room s (body es) ->
      exists s', open_dir t h p s = Done (tt, s') /\ base s' /\ files s' /\ ext {[h]} s s' /\ rep s' h p t /\
        next_ino s' <= next_ino s + body es /\ new_reals (others_all (visible es)) s s' /\ (exists c', cis s' !! h = Some c' /\ 1 <= nlinks (ci_din c'))
  | _ => True
  end.

Lemma base_sub s l : base s -> base (set_sub l s).
Proof. intros []. by constructor. Qed.
Lemma ext_sub s l : ext ∅ s (set_sub l s).
Proof. pose proof (ext_refl ∅ s) as []. by constructor. Qed.

(** The part of [add_dir] before the entry. *)
Lemma ready_dir s h r es ch : base s -> files s -> fills (HDir r es) -> F r = None -> cis s !! h = Some ch ->
  unseen (others (HDir r es)) s -> NoDup (others (HDir r es)) -> room s (inner (HDir r es)) ->
  forall name, exists s1 k, add_dir (open_dir (HDir r es)) h name r s = add_entry h k name s1 /\ ready s h (HDir r es) s1 k.
Proof.
  intros B Hf Hfill HF Hh Hun Hnd Hroom name. rewrite inner_dir in Hroom. rewrite others_dir in *. apply NoDup_cons in Hnd as [Hrn Hnd].
  unfold add_dir. destruct (search_ci_spec s r B) as (o & Eo & Ho). tstep Eo.
  destruct o as [k|]; [destruct Ho as (c & Hc & Hr); exfalso; apply (Hun k c Hc); rewrite Hr; by left|].
  rewrite (tbind_Done _ _ _ tt s) by done. destruct Hroom as [Hr1 Hr2].
  pose proof (body_pos es) as Hbp.
  destruct (alloc_ci_ok s r SFS_TYPE_DIR B ltac:(lia)) as (s1 & E1 & B1 & X1 & Hn1 & Hci1). tstep E1. tstep (hostcall_ok s1 (ba_oks _ B1)).
  set (c := CI _ _ _ _ _ _ _) in Hci1. set (k := next_h s) in *.
  assert (E2 : subpath_push name s1 = Done (tt, set_sub (sub s1 ++ [name]) s1)).
  { unfold subpath_push. tstep (hostcall_ok s1 (ba_oks _ B1)). tstep (hostcall_ok s1 (ba_oks _ B1)). done. }
  tstep E2. set (s2 := set_sub _ s1). pose proof (ext_sub s1 (sub s1 ++ [name])) as X2. fold s2 in X2.
  assert (H2 : holds s2 k c []) by (apply holds_new; cbn [s2 set_sub cis]; by rewrite Hci1, lookup_insert_eq).
  pose proof (fresh_handle s B) as Hfr. fold k in Hfr.
  assert (Hhk : (h < k)%nat) by (destruct (ba_ci _ B h ch Hh); done).
  assert (X02 : ext ∅ s s2) by (apply ext_seq with s1; done).
  assert (Hf2 : files s2).
  { apply (files_alloc s s2 k); try done.
    - intros j Hj. cbn [s2 set_sub cis]. by rewrite Hci1, lookup_insert_ne.
    - intros c3 cs3 Hc3 HF3. assert (c3 = c) as -> by (pose proof (ho_ci _ _ _ _ H2); congruence). cbn in HF3. congruence.
    - intros c3 j cj Hc3 Hcj Er. assert (c3 = c) as -> by (pose proof (ho_ci _ _ _ _ H2); congruence). apply (Hun j cj Hcj). rewrite Er. by left. }
  destruct (ex_ci _ _ _ X02 h ch Hh) as (ch' & Hh' & _). pose proof (ext_first _ _ _ X1) as Hfst.
  destruct (Hfill s2 k h c ch') as (s3 & E3 & B3 & Hf3 & X3 & Hrep & Hn3 & Hnr & _); try done.
  - by apply base_sub.
  - intros j cj Hj Hin. cbn [s2 set_sub cis] in Hj. rewrite Hci1 in Hj. destruct (decide (j = k)) as [->|].
    + rewrite lookup_insert_eq in Hj. by injection Hj as <-.
    + rewrite lookup_insert_ne in Hj by done. apply (Hun j cj Hj). by right.
  - split; [change (ninos s2) with (ninos s1); rewrite (ex_ninos _ _ _ X1)|change (first s2) with (first s1); rewrite Hfst]; change (next_ino s2) with (next_ino s1); lia.
  - tstep E3. tstep (hostcall_ok s3 (ba_oks _ B3)). pose proof (keeps_sub_open_dir _ _ _ _ _ _ E3) as Hsub. cbn [s2 set_sub sub] in Hsub.
    assert (E4 : subpath_pop s3 = Done (tt, set_sub (take (length (sub s3) - 1) (sub s3)) s3)).
    { unfold subpath_pop. rewrite (tbind_Done _ _ _ tt s3); [done|]. apply tassert_ok. rewrite Hsub. by destruct (sub s1). }
    tstep E4. set (s4 := set_sub _ s3). pose proof (ext_sub s3 (take (length (sub s3) - 1) (sub s3))) as X4. fold s4 in X4.
    assert (X04 : ext ∅ s s4).
    { apply (ext_shrink {[k]}); [|intros j Hj; apply elem_of_singleton in Hj as ->; by right].
      apply ext_seq with s2; [done|by apply (ext_shrink ∅)|]. apply ext_seq with s3; [by apply base_sub|done|by apply (ext_shrink ∅)]. }
    exists s4, k. split; [done|]. unfold ready. rewrite others_dir, inner_dir. split_and!; try done.
    + by apply base_sub.
    + by apply (files_same ∅ s3).
    + destruct (ex_ci _ _ _ X3 k c (ho_ci _ _ _ _ H2)) as (c3 & Hc3 & _ & Hr3 & _). cbn [s4 set_sub cis]. exists c3. split; [done|by rewrite Hr3].
    + by apply (tree_ext ∅ s3).
    + cbn [s4 set_sub next_ino]. change (next_ino s2) with (next_ino s1) in Hn3. lia.
    + apply (new_reals_trans [r] _ s s2); [|exact Hnr]. apply (new_reals_alloc s s2 c); [done|]. right. by left.
Qed.

(** The loop over the entries. *)
Definition dir_loop (cur : nat) : list (list Z * host) -> T unit :=
  fix loop l := match l with [] => tret tt | (name, t) :: l => _ <- open_entry (open_dir t) cur name t; loop l end.

Lemma host_kind t : host_ok t -> match t with HFile r l => exists cs, l = Some <$> cs /\ F r = Some cs /\ full_chunks cs /\ (length cs <= 1036)%nat
  | HLink r l => exists x, l = Some x /\ F r = None /\ (length x < 4096)%nat | HDir r es => F r = None | HOther => False end.
Proof. by destruct 1; eauto 10. Qed.

(** One entry that goes into the image. *)
Lemma open_entry_ok s h p es bl name t : base s -> files s -> upto s h p es bl -> host_ok t -> fills t -> hidden name = false -> fname name ->
  unseen (others t) s -> NoDup (others t) -> (length bl < 1036)%nat -> room s (inner t + (need (S (length bl)) - need (length bl))) ->
  exists s2 b, open_entry (open_dir t) h name t s = Done (tt, s2) /\ base s2 /\ files s2 /\ ext {[h]} s s2 /\ upto s2 h p (es ++ [(name, t)]) (bl ++ [b]) /\
    next_ino s2 <= next_ino s + inner t + (need (S (length bl)) - need (length bl)) /\ new_reals (others t) s s2.
Proof.
  intros B Hf Hup Hok Hfill Hhid Hnm Hun Hnd Hl Hroom. pose proof (host_kind t Hok) as Hkind.
  assert (Hrm : room s (inner t)) by (destruct Hroom; pose proof (need_mono (length bl) (S (length bl)) ltac:(lia)); split; lia).
  assert (Hready : exists s1 k, open_entry (open_dir t) h name t s = add_entry h k name s1 /\ ready s h t s1 k).
  { unfold open_entry. rewrite Hhid. destruct Hnm as [_ Hnm]. rewrite Z.gtb_ltb, (proj2 (Z.ltb_ge _ _)) by (change SFS_MAX_FNAME_LEN with 255; lia).
    tstep (hostcall_ok s (ba_oks _ B)). destruct t as [r l|r es'|r l|]; [| | |done].
    - tstep (hostcall_ok s (ba_oks _ B)). destruct Hkind as (cs & -> & H1 & H2 & H3). by apply ready_file.
    - tstep (hostcall_ok s (ba_oks _ B)). destruct Hup as (ks & c & pc & Hh & _). by apply ready_dir with c; [..|apply Hh| | |].
    - destruct Hkind as (x & -> & H1 & H2). by apply ready_link. }
  destruct Hready as (s1 & k & -> & Hrd). by apply upto_step.
Qed.

Lemma dir_loop_ok h p l : forall s es bl, base s -> files s -> upto s h p es bl ->
  Forall (fun e => hidden e.1 = false -> fname e.1) l -> Forall (fun e => host_ok e.2) (visible l) -> Forall (fun e => fills e.2) (visible l) ->
  unseen (others_all (visible l)) s -> NoDup (others_all (visible l)) -> (length bl + length (visible l) <= 1036)%nat ->
  room s (inner_all (visible l) + (need (length bl + length (visible l)) - need (length bl))) ->
  exists s' bl', dir_loop h l s = Done (tt, s') /\ base s' /\ files s' /\ ext {[h]} s s' /\ upto s' h p (es ++ visible l) bl' /\
    next_ino s' <= next_ino s + inner_all (visible l) + (need (length bl + length (visible l)) - need (length bl)) /\ new_reals (others_all (visible l)) s s'.
Proof.
  induction l as [|[name t] l IH]; intros s es bl B Hf Hup Hnames Hok Hfill Hun Hnd Hl Hroom.
  { exists s, bl. cbn in *. rewrite app_nil_r. split_and!; try done; [apply ext_refl| |apply (new_reals_same ∅); [apply ext_refl|done]].
    replace (length bl + 0)%nat with (length bl) by lia. lia. }
  apply Forall_cons in Hnames as [Hnm Hnames]. cbn [fst] in Hnm. cbn [dir_loop]. rewrite visible_cons in *. destruct (shown (name, t)) eqn:Hsh.
  - unfold shown in Hsh. cbn [fst snd] in Hsh. apply andb_prop in Hsh as [Hhid _]. apply negb_true_iff in Hhid.
    apply Forall_cons in Hok as [Hok1 Hok]. apply Forall_cons in Hfill as [Hfl1 Hfill]. cbn [snd] in *.
    change (others_all ((name, t) :: visible l)) with (others t ++ others_all (visible l)) in *. apply NoDup_app in Hnd as (Hnd1 & Hdis & Hnd2).
    cbn [length] in Hl, Hroom. change (inner_all ((name, t) :: visible l)) with (inner t + inner_all (visible l)) in *.
    pose proof (need_mono (S (length bl)) (length bl + S (length (visible l))) ltac:(lia)) as Hm. pose proof (inner_all_pos (visible l)) as Hip.
    destruct (open_entry_ok s h p es bl name t B Hf Hup Hok1 Hfl1 Hhid (Hnm Hhid)) as (s1 & b & E1 & B1 & Hf1 & X1 & Hup1 & Hn1 & Hnr1); try done.
    + intros k c Hk Hin. apply (Hun k c Hk), elem_of_app. by left.
    + lia.
    + destruct Hroom. split; lia.
    + tstep E1. assert (Hlb : length (bl ++ [b]) = S (length bl)) by (rewrite length_app; simpl; lia).
      replace (length bl + S (length (visible l)))%nat with (S (length bl) + length (visible l))%nat in * by lia.
      destruct (IH s1 (es ++ [(name, t)]) (bl ++ [b]) B1 Hf1 Hup1 Hnames Hok Hfill) as (s2 & bl2 & E2 & B2 & Hf2 & X2 & Hup2 & Hn2 & Hnr2); try done.
      * intros k c' Hk Hin. destruct (Hnr1 k c' Hk) as [(c & Hc & Hr)|[HF|Hin']].
        -- apply (Hun k c Hc). rewrite Hr. apply elem_of_app. by right.
        -- apply HF. apply list_elem_of_join in Hin as (x & Hx & Hxl). apply list_elem_of_fmap in Hxl as (e & -> & He).
           rewrite Forall_forall in Hok. by apply (others_none e.2 (Hok e He)).
        -- by apply (Hdis (real c')).
      * rewrite Hlb. lia.
      * rewrite Hlb. pose proof (ext_first _ _ _ X1). pose proof (ex_ninos _ _ _ X1). destruct Hroom. split; lia.
      * exists s2, bl2. split; [exact E2|]. split; [done|]. split; [done|]. split; [by apply ext_seq with s1|]. split; [by rewrite <- app_assoc in Hup2|].
        split; [rewrite Hlb in Hn2; cbn [length]; replace (length bl + S (length (visible l)))%nat with (S (length bl) + length (visible l))%nat by lia; lia|by apply new_reals_trans with s1].
  - assert (E : open_entry (open_dir t) h name t s = Done (tt, s)).
    { unfold open_entry. destruct (hidden name) eqn:Hhid; [done|]. destruct (Hnm eq_refl) as [_ Hlen].
      rewrite Z.gtb_ltb, (proj2 (Z.ltb_ge _ _)) by (change SFS_MAX_FNAME_LEN with 255; lia). tstep (hostcall_ok s (ba_oks _ B)).
      unfold shown in Hsh. cbn [fst snd] in Hsh. rewrite Hhid in Hsh. destruct t; try done. apply hostcall_ok, B. }
    tstep E. by apply IH.
Qed.

Lemma open_dir_ok t : host_ok t -> fills t.
Proof.
  induction t as [r l|r es IH|r l|] using host_ind'; [done| |done|done]. intros Hok s h p c pc B Hf Hh Ht Hsz HF Hp Hun Hnd [Hr1 Hr2].
  inversion Hok as [| |? ? _ Hmax _ Hnames Hoks]; subst. unfold body in *. pose proof (inner_all_pos (visible es)) as Hip.
  pose proof (need_mono 2 (2 + length (visible es)) ltac:(lia)) as Hm. change (need 2) with 2 in Hm.
  cbn [open_dir]. fold (dir_loop h). tstep (hostcall_ok s (ba_oks _ B)).
  destruct (add_entry_ok s h c [] h c [46] B Hh Ht (ho_ci _ _ _ _ Hh)) as (s1 & E1 & c1 & B1 & X1 & Hh1 & Hsz1 & Hi1 & Ht1 & Hen1 & (cl & Hcl & Hlk1) & Hd1 & Hn1); [simpl; lia..|].
  tstep E1. cbn [app length] in *. change ((0 =? 12)%nat) with false in Hn1. cbv iota in Hn1.
  destruct (ex_ci _ _ _ X1 p pc Hp) as (pc1 & Hp1 & Hpi1 & _). pose proof (ext_first _ _ _ X1) as Hf1. pose proof (ex_ninos _ _ _ X1) as Hno1.
  destruct (add_entry_ok s1 h c1 [next_ino s] p pc1 [46; 46] B1 Hh1 ltac:(congruence) Hp1) as (s2 & E2 & c2 & B2 & X2 & Hh2 & Hsz2 & Hi2 & Ht2 & Hen2 & _ & Hd2 & Hn2);
    [simpl; lia|simpl; lia|simpl; lia|lia|].
  tstep E2. cbn [app length] in *. change ((1 =? 12)%nat) with false in Hn2. cbv iota in Hn2.
  destruct (ex_ci _ _ _ X2 p pc1 Hp1) as (pc2 & Hp2 & Hpi2 & _). assert (X02 : ext {[h]} s s2) by (by apply ext_seq with s1).
  assert (Hre : real c2 = real c).
  { destruct (ex_ci _ _ _ X02 h c (ho_ci _ _ _ _ Hh)) as (c' & Hc' & _ & Hr & _). pose proof (ho_ci _ _ _ _ Hh2). congruence. }
  assert (Hup : upto s2 h p [] [next_ino s; next_ino s1]).
  { exists [], c2, pc2. split; [done|]. split; [congruence|]. split; [simpl length; lia|]. split; [congruence|]. split; [done|]. split; [|constructor].
    rewrite Hi2, Hi1, Hpi2, Hpi1. constructor; [|constructor; [|constructor]]; cbn [fst snd].
    - apply (entry_in_ext {[h]} s1); [done|lia|done].
    - by rewrite Hpi1 in Hen2. }
  destruct (dir_loop_ok h p es s2 [] [next_ino s; next_ino s1] B2) as (s3 & bl3 & E3 & B3 & Hf3 & X3 & Hup3 & Hn3 & Hnr3); try done.
  - apply (files_same {[h]} s); try done; [by auto|]. intros x cx Hx Hcx. apply elem_of_singleton in Hx as ->. pose proof (ho_ci _ _ _ _ Hh). congruence.
  - rewrite Forall_forall in *. intros e He. apply IH; [|by apply Hoks]. unfold visible in He. by apply list_elem_of_filter in He as [_ He].
  - intros k ck Hk. destruct (Hd1 k) as [c0 Hc0]; [apply Hd2; by rewrite Hk|]. destruct (ex_ci _ _ _ X02 k c0 Hc0) as (c' & Hc' & _ & Hr & _).
    assert (c' = ck) as -> by congruence. rewrite Hr. by apply (Hun k c0).
  - simpl length. lia.
  - pose proof (ext_first _ _ _ X02). pose proof (ex_ninos _ _ _ X02). cbn [length]. change (need 2) with 2. split; cbn [Nat.add] in *; lia.
  - exists s3. split; [exact E3|]. split; [done|]. split; [done|]. split; [by apply ext_seq with s2|]. split; [|split; [|split]].
    + destruct Hup3 as (ks & c3 & pc3 & G1 & G2 & G3 & _ & G4 & G5 & G6). by apply (rep_dir s3 h p r es ks c3 pc3 bl3).
    + cbn [length Nat.add] in Hn3. change (need 2) with 2 in Hn3. cbn [Nat.add] in *. lia.
    + change (others_all (visible es)) with ([] ++ others_all (visible es)). apply new_reals_trans with s2; [|done]. apply (new_reals_same {[h]}); [done|auto].
    + assert (X13 : ext {[h]} s1 s3) by (by apply ext_seq with s2). destruct (ex_ci _ _ _ X13 h cl Hcl) as (c' & Hc' & _ & _ & _ & Hl & _). exists c'. split; [done|lia].
Qed.
End Tree.
