(* ===== verification/MksfsImage.v ===== *)
(** * tools/mksfs.c and kern/fs/sfs: the image in the kernel

    Closing the image writes the free map, the superblock, the inodes and the
    indirect blocks; the kernel mounts the result and finds in it the tree of
    the host. *)
From S2P Require Import Prelude Libs IoBuf Bitmap SfsDisk SfsFile SfsDir SfsMount Mksfs MksfsTree.
#[local] Open Scope tool_scope.
#[local] Set Warnings "-register-all".

(** ** The bits of the free map *)
Definition lbit (l : list Z) (i : Z) : bool := Z.testbit (default 0 (l !! Z.to_nat (i / 32))) (i mod 32).
Definition words_ok (l : list Z) : Prop := Forall (fun w => 0 <= w < 2 ^ 32) l.

Lemma lor_bounded a b : 0 <= a < 2 ^ 32 -> 0 <= b < 2 ^ 32 -> 0 <= Z.lor a b < 2 ^ 32.
Proof.
  intros Ha Hb. split; [apply Z.lor_nonneg; lia|]. destruct (decide (Z.lor a b = 0)) as [->|Hne]; [lia|].
  assert (0 <= Z.lor a b) by (apply Z.lor_nonneg; lia). apply Z.log2_lt_pow2; [lia|]. rewrite Z.log2_lor by lia.
  assert (forall x, 0 <= x < 2 ^ 32 -> Z.log2 x < 32) as Hx by (intros x Hx; destruct (decide (x = 0)) as [->|]; [done|apply Z.log2_lt_pow2; lia]).
  pose proof (Hx a Ha). pose proof (Hx b Hb). lia.
Qed.

Lemma set_bits_ok n : forall j l, 0 <= j -> j + Z.of_nat n <= 32 * Z.of_nat (length l) -> words_ok l ->
  length (set_bits n j l) = length l /\ words_ok (set_bits n j l) /\
  forall i, 0 <= i -> lbit (set_bits n j l) i = lbit l i || ((j <=? i) && (i <? j + Z.of_nat n)).
Proof.
  induction n as [|n IH]; intros j l Hj Hl Hw; cbn [set_bits].
  { split; [done|]. split; [done|]. intros i Hi. rewrite (proj2 (andb_false_iff _ _)), orb_false_r; [done|]. destruct (Z.leb_spec j i); [right; apply Z.ltb_ge; lia|by left]. }
  set (ix := Z.to_nat (j / 32)). set (w := default 0 (l !! ix)). fold (mask_of (j mod 32)).
  assert (Hix : (ix < length l)%nat) by (unfold ix; assert (j / 32 < Z.of_nat (length l)) by (apply Z.div_lt_upper_bound; lia); lia).
  assert (Hwr : 0 <= w < 2 ^ 32).
  { unfold w. destruct (lookup_lt_is_Some_2 l ix Hix) as [x Hx]. rewrite Hx. cbn. unfold words_ok in Hw. rewrite Forall_forall in Hw. apply Hw. by eapply list_elem_of_lookup_2. }
  assert (Hmr : 0 <= mask_of (j mod 32) < 2 ^ 32) by apply u32_range.
  destruct (IH (j + 1) (<[ix := Z.lor w (mask_of (j mod 32))]> l)) as (H1 & H2 & H3); [lia|rewrite length_insert; lia| |].
  { apply Forall_insert; [done|]. by apply lor_bounded. }
  rewrite length_insert in H1. split; [done|]. split; [done|]. intros i Hi. rewrite H3 by done. clear IH H1 H2 H3.
  assert (Hb : lbit (<[ix := Z.lor w (mask_of (j mod 32))]> l) i = lbit l i || (j =? i)).
  { unfold lbit. destruct (decide (Z.to_nat (i / 32) = ix)) as [E|E].
    - rewrite E, list_lookup_insert_eq by done. cbn [default from_option id]. rewrite Z.lor_spec, mask_bit by lia. f_equal.
      assert (i / 32 = j / 32) by (unfold ix in E; lia). destruct (Z.eqb_spec (j mod 32) (i mod 32)), (Z.eqb_spec j i); lia || done.
    - rewrite list_lookup_insert_ne by done. rewrite (proj2 (Z.eqb_neq j i)), orb_false_r; [done|]. intros ->. by apply E. }
  rewrite Hb, <- orb_assoc. f_equal. destruct (Z.eqb_spec j i), (Z.leb_spec (j + 1) i), (Z.leb_spec j i), (Z.ltb_spec i (j + 1 + Z.of_nat n)), (Z.ltb_spec i (j + Z.of_nat (S n))); lia || done.
Qed.

Lemma lbit_zero n i : lbit (replicate n 0) i = false.
Proof.
  unfold lbit. destruct (replicate n 0 !! _) as [x|] eqn:E; [|apply Z.bits_0]. apply list_elem_of_lookup_2, elem_of_replicate in E as [-> _]. apply Z.bits_0.
Qed.

(** Block [k] of the free map has the bits of the blocks from [next] to [n]. *)
Lemma map_words_ok k n next : 0 <= k -> 0 <= next <= n -> k * 32768 < n ->
  length (map_words (k * SFS_BLKBITS) n next) = 1024%nat /\ words_ok (map_words (k * SFS_BLKBITS) n next) /\
  forall i, 0 <= i < 32768 -> lbit (map_words (k * SFS_BLKBITS) n next) i = (next <=? k * 32768 + i) && (k * 32768 + i <? n).
Proof.
  intros Hk Hnext Hn. unfold map_words. change SFS_BLKBITS with 32768. assert (Hz : words_ok (replicate 1024 0)) by (apply Forall_replicate; lia).
  destruct (Z.gtb_spec (k * 32768 + 32768) next) as [Hgt|Hle].
  - set (start := if _ <? next then _ else _). set (fin := if _ >? n then _ else _).
    assert (Hst : start = Z.max 0 (next - k * 32768)) by (unfold start; destruct (Z.ltb_spec (k * 32768) next); lia).
    assert (Hfin : fin = Z.min 32768 (n - k * 32768)) by (unfold fin; destruct (Z.gtb_spec (k * 32768 + 32768) n); lia). clearbody start fin.
    destruct (set_bits_ok (Z.to_nat (fin - start)) start (replicate 1024 0)) as (H1 & H2 & H3); [lia|rewrite length_replicate; lia|done|].
    rewrite length_replicate in H1. split; [done|]. split; [done|]. intros i Hi. rewrite H3 by lia. rewrite lbit_zero. cbn [orb].
    destruct (Z.leb_spec start i), (Z.leb_spec next (k * 32768 + i)), (Z.ltb_spec i (start + Z.of_nat (Z.to_nat (fin - start)))), (Z.ltb_spec (k * 32768 + i) n); lia || done.
  - split; [done|]. split; [done|]. intros i Hi. rewrite lbit_zero. symmetry. apply andb_false_iff. left. apply Z.leb_gt. lia.
Qed.

(** The free map as the kernel has it in memory. *)
Definition image_map (n next : Z) : bitmap :=
  let q := (n + 32767) / 32768 in
  Bitmap (q * 32768) (q * 1024) (mjoin ((fun k => map_words (k * SFS_BLKBITS) n next) <$> seqZ 0 q)).

Lemma join_length {A} (w : nat) (L : list (list A)) : Forall (fun l => length l = w) L -> length (mjoin L) = (length L * w)%nat.
Proof. induction 1 as [|l L Hl _ IH]; [done|]. change (mjoin (l :: L)) with (l ++ mjoin L). rewrite length_app, IH, Hl. simpl. lia. Qed.

Lemma join_split {A} (f : Z -> list A) (w : nat) q k : (forall k, 0 <= k < q -> length (f k) = w) -> 0 <= k < q ->
  exists l1 l2, mjoin (f <$> seqZ 0 q) = l1 ++ f k ++ l2 /\ length l1 = (Z.to_nat k * w)%nat.
Proof.
  intros Hf Hk. replace q with (k + (q - k)) by lia. rewrite seqZ_app, fmap_app, join_app by lia. rewrite (seqZ_cons (0 + k)) by lia.
  exists (mjoin (f <$> seqZ 0 k)), (mjoin (f <$> seqZ (Z.succ (0 + k)) (Z.pred (q - k)))). split; [done|]. rewrite (join_length w), length_fmap, length_seqZ; [done|].
  apply Forall_fmap, Forall_forall. intros x Hx. apply elem_of_seqZ in Hx. apply Hf. lia.
Qed.

Section FreeMap.
Context (n next : Z) (Hnx : 0 <= next <= n) (Hn : 0 < n <= 524288).
#[local] Abbreviation q := ((n + 32767) / 32768).

Lemma map_at k : 0 <= k < q -> exists l1 l2, map (image_map n next) = l1 ++ map_words (k * SFS_BLKBITS) n next ++ l2 /\ length l1 = (Z.to_nat k * 1024)%nat.
Proof. intros Hk. apply (join_split (fun k => map_words (k * SFS_BLKBITS) n next) 1024); [|done]. intros j Hj. apply map_words_ok; lia. Qed.

Lemma image_map_length : Z.of_nat (length (map (image_map n next))) = q * 1024.
Proof.
  unfold image_map. cbn [map]. rewrite (join_length 1024), length_fmap, length_seqZ; [lia|].
  apply Forall_fmap, Forall_forall. intros x Hx. apply elem_of_seqZ in Hx. apply map_words_ok; lia.
Qed.

Lemma image_map_block k : 0 <= k < q -> freemap_block (map (image_map n next)) k = patch 0 (word_bytes (map_words (k * SFS_BLKBITS) n next)) ∅.
Proof.
  intros Hk. destruct (map_at k Hk) as (l1 & l2 & E & Hl). destruct (map_words_ok k n next) as (Hlw & _); [lia..|].
  unfold freemap_block, word_bytes. rewrite E. rewrite drop_app_length' by lia. by rewrite take_app_length' by lia.
Qed.

Lemma image_free_bit i : 0 <= i -> free_bit (image_map n next) i = (next <=? i) && (i <? n).
Proof.
  intros Hi. destruct (decide (i < q * 32768)) as [Hlt|Hge].
  - set (k := i / 32768). assert (Hk : 0 <= k < q) by (unfold k; lia). destruct (map_at k Hk) as (l1 & l2 & E & Hl).
    destruct (map_words_ok k n next) as (Hlw & _ & Hb); [lia..|]. specialize (Hb (i mod 32768) ltac:(lia)).
    replace (k * 32768 + i mod 32768) with i in Hb by (unfold k; lia). rewrite <- Hb. unfold free_bit, word, lbit. rewrite E.
    assert (Hi32 : Z.to_nat (i / 32) = (length l1 + Z.to_nat (i mod 32768 / 32))%nat) by (rewrite Hl; unfold k; lia).
    rewrite Hi32, lookup_app_r by lia. rewrite Nat.add_comm, Nat.add_sub. rewrite lookup_app_l by (rewrite Hlw; lia). f_equal. lia.
  - rewrite (proj2 (Z.ltb_ge i n)) by lia. rewrite andb_false_r. apply free_above. pose proof image_map_length. lia.
Qed.

Lemma image_map_wf : bm_wf (image_map n next).
Proof.
  constructor.
  - exact image_map_length.
  - cbn. lia.
  - unfold image_map. cbn [map]. apply Forall_join, Forall_fmap, Forall_forall. intros x Hx. apply elem_of_seqZ in Hx. apply (map_words_ok x n next); lia.
  - intros i Hi. rewrite image_free_bit by (cbn in Hi; lia). cbn in Hi. apply andb_false_iff. right. apply Z.ltb_ge. lia.
Qed.

Lemma filter_none (P : Z -> bool) (l : list Z) : (forall x, x ∈ l -> P x = false) -> filter (fun i => P i = true) l = [].
Proof. induction l as [|x l IH]; intros H; [done|]. rewrite filter_cons, decide_False by (rewrite H by (by left); done). apply IH. intros y Hy. apply H. by right. Qed.
Lemma filter_all (P : Z -> bool) (l : list Z) : (forall x, x ∈ l -> P x = true) -> filter (fun i => P i = true) l = l.
Proof. induction l as [|x l IH]; intros H; [done|]. rewrite filter_cons, decide_True by (apply H; by left). f_equal. apply IH. intros y Hy. apply H. by right. Qed.

Lemma image_map_free : Z.of_nat (length (free_list_of (image_map n next))) = n - next.
Proof.
  unfold free_list_of. cbn [nbits image_map]. replace (q * 32768) with (next + ((n - next) + (q * 32768 - n))) by lia.
  rewrite seqZ_app, (seqZ_app (0 + next)) by lia. rewrite !filter_app.
  rewrite (filter_none _ (seqZ 0 next)), (filter_all _ (seqZ (0 + next) (n - next))), (filter_none _ (seqZ (0 + next + (n - next)) _)).
  - rewrite app_nil_r, app_nil_l, length_seqZ. lia.
  - intros x Hx. apply elem_of_seqZ in Hx. rewrite image_free_bit by lia. apply andb_false_iff. right. apply Z.ltb_ge. lia.
  - intros x Hx. apply elem_of_seqZ in Hx. rewrite image_free_bit by lia. apply andb_true_intro. split; [apply Z.leb_le|apply Z.ltb_lt]; lia.
  - intros x Hx. apply elem_of_seqZ in Hx. rewrite image_free_bit by lia. apply andb_false_iff. left. apply Z.leb_gt. lia.
Qed.
End FreeMap.

(** ** Closing *)

(** A sequence of writes to [tgt] of [dat]. *)
Definition writes {A} (tgt : A -> Z) (dat : A -> blk) (l : list A) (m : gmap Z blk) : gmap Z blk := foldl (fun m x => <[tgt x := dat x]> m) m l.

Lemma writes_out {A} (tgt : A -> Z) dat l m b : (forall x, x ∈ l -> tgt x <> b) -> writes tgt dat l m !! b = m !! b.
Proof.
  revert m. induction l as [|x l IH]; intros m H; [done|]. cbn. unfold writes in IH. rewrite IH by (intros y Hy; apply H; by right).
  by rewrite lookup_insert_ne by (apply H; by left).
Qed.
Lemma writes_in {A} (tgt : A -> Z) dat l m n d : n ∈ tgt <$> l -> (forall y, y ∈ l -> tgt y = n -> dat y = d) -> writes tgt dat l m !! n = Some d.
Proof.
  revert m. induction l as [|y l IH]; intros m Hx H; [by apply not_elem_of_nil in Hx|]. cbn. fold (writes tgt dat l (<[tgt y := dat y]> m)).
  destruct (decide (n ∈ tgt <$> l)) as [Hin|Hno].
  - apply IH; [done|]. intros u Hu. apply H. by right.
  - rewrite writes_out by (intros z Hz Ez; apply Hno; apply list_elem_of_fmap; by exists z).
    apply elem_of_cons in Hx as [->|Hx]; [|done]. rewrite lookup_insert_eq. f_equal. apply H; [by left|done].
Qed.

Lemma iter_writes {A} (f : A -> T unit) tgt dat l s :
  (forall x m, x ∈ l -> f x (set_img m s) = Done (tt, set_img (<[tgt x := dat x]> m) s)) ->
  forall m, iter_tool f l (set_img m s) = Done (tt, set_img (writes tgt dat l m) s).
Proof.
  intros Hf. induction l as [|x l IH]; intros m; [done|]. cbn [iter_tool]. rewrite (tbind_Done _ _ _ tt _ (Hf x m ltac:(by left))).
  rewrite IH by (intros y m' Hy; apply Hf; by right). done.
Qed.

Lemma write_img s m data len n : base s -> len <= 4096 -> n < ninos s ->
  write_block data len n (set_img m s) = Done (tt, set_img (<[n := patch 0 (take (Z.to_nat len) data) ∅]> m) s).
Proof. intros B Hl Hn. by rewrite (write_block_ok (set_img m s)) by (done || by apply base_img). Qed.

(** The block of a cached inode or block. *)
Definition obj_block (s : sfs_fs) (o : nat + nat) : blk :=
  match o with
  | inl h => match cis s !! h with Some c => patch 0 (take 68 (inode_bytes c)) ∅ | None => ∅ end
  | inr h => match cbs s !! h with Some b => patch 0 (take 4096 (word_bytes (cache b))) ∅ | None => ∅ end
  end.
Definition obj_ino (s : sfs_fs) (o : nat + nat) : Z := default 0 (owner s o).
Definition objects (s : sfs_fs) (i : Z) : list (nat + nat) := (inr <$> chain (blks s) i) ++ (inl <$> chain (inodes s) i).

Lemma flush_obj s o n m : base s -> owner s o = Some n ->
  (match o with inl h => flush_cache_inode h | inr h => flush_cache_block h end) (set_img m s) = Done (tt, set_img (<[obj_ino s o := obj_block s o]> m) s).
Proof.
  intros B Ho. pose proof (ba_next _ B) as Hnx. rewrite first_eq in Hnx.
  assert (Hlt : n < ninos s).
  { destruct (decide (o = inl 0%nat)) as [->|Hne]; [|pose proof (ba_area _ B o n Ho Hne); lia]. simpl in Ho. rewrite (ba_root _ B) in Ho. injection Ho as <-. lia. }
  unfold obj_ino, obj_block. rewrite Ho. destruct o as [h|h]; simpl in Ho.
  - destruct (cis s !! h) as [c|] eqn:Hc; [|done]. injection Ho as <-. unfold flush_cache_inode. rewrite (tbind_Done _ _ _ c (set_img m s)) by (by apply get_ci_ok).
    by rewrite write_img.
  - destruct (cbs s !! h) as [c|] eqn:Hc; [|done]. injection Ho as <-. unfold flush_cache_block. rewrite (tbind_Done _ _ _ c (set_img m s)) by (by apply get_cb_ok).
    by rewrite write_img.
Qed.

Lemma iter_app {A} (f : A -> T unit) l1 l2 s : iter_tool f (l1 ++ l2) s = (_ <- iter_tool f l1; iter_tool f l2) s.
Proof.
  revert s. induction l1 as [|x l1 IH]; intros s; [done|]. cbn [iter_tool app]. unfold tbind. destruct (f x s) as [[[] s1]| |]; [|done|done]. apply IH.
Qed.
Lemma iter_fmap {A B} (g : A -> B) (f : B -> T unit) l s : iter_tool f (g <$> l) s = iter_tool (fun x => f (g x)) l s.
Proof. revert s. induction l as [|x l IH]; intros s; [done|]. cbn. unfold tbind. destruct (f (g x) s) as [[[] s1]| |]; [apply IH|done|done]. Qed.

Definition flush_one (o : nat + nat) : T unit := match o with inl h => flush_cache_inode h | inr h => flush_cache_block h end.

Lemma objects_owned s i o : base s -> o ∈ objects s i -> is_Some (owner s o).
Proof.
  intros B Ho. apply elem_of_app in Ho as [Ho|Ho]; apply list_elem_of_fmap in Ho as (h & -> & Hh).
  - destruct (ba_bchain _ B i h Hh) as [b Hb]. simpl. rewrite Hb. by eexists.
  - destruct (ba_chain _ B i h Hh) as [c Hc]. simpl. rewrite Hc. by eexists.
Qed.

Lemma flush_chain_ok s i m : base s -> flush_chain i (set_img m s) = Done (tt, set_img (writes (obj_ino s) (obj_block s) (objects s i) m) s).
Proof.
  intros B. assert (E : flush_chain i (set_img m s) = iter_tool flush_one (objects s i) (set_img m s)).
  { unfold flush_chain, objects. cbn [blks inodes set_img]. rewrite iter_app. unfold tbind. rewrite iter_fmap. cbn [flush_one].
    destruct (iter_tool _ (chain (blks s) i) _) as [[[] s1]| |]; [|done|done]. by rewrite iter_fmap. }
  rewrite E. apply iter_writes. intros o m' Ho. destruct (objects_owned s i o B Ho) as [n Hn]. by apply (flush_obj s o n m').
Qed.

Definition all_objects (s : sfs_fs) : list (nat + nat) := mjoin (objects s <$> seqZ 0 HASH_LIST_SIZE).

Lemma writes_app {A} (tgt : A -> Z) dat l1 l2 m : writes tgt dat (l1 ++ l2) m = writes tgt dat l2 (writes tgt dat l1 m).
Proof. apply foldl_app. Qed.

Lemma flush_all s l : base s -> forall m, iter_tool flush_chain l (set_img m s) = Done (tt, set_img (writes (obj_ino s) (obj_block s) (mjoin (objects s <$> l)) m) s).
Proof.
  intros B. induction l as [|i l IH]; intros m; [done|]. cbn [iter_tool]. rewrite (tbind_Done _ _ _ tt _ (flush_chain_ok s i m B)). rewrite IH.
  change (mjoin (objects s <$> (i :: l))) with (objects s i ++ mjoin (objects s <$> l)). by rewrite writes_app.
Qed.

(** The image after closing. *)
Definition final (s : sfs_fs) : gmap Z blk :=
  writes (obj_ino s) (obj_block s) (all_objects s)
    (<[0 := patch 0 (take 44 (mk_super_bytes s)) ∅]>
       (writes (fun k => 2 + k) (fun k => patch 0 (word_bytes (map_words (k * SFS_BLKBITS) (ninos s) (next_ino s))) ∅) (seqZ 0 ((ninos s + 32767) / 32768)) (img s))).

Lemma set_img_id s : set_img (img s) s = s.
Proof. by destruct s. Qed.

Lemma close_sfs_ok s : base s -> close_sfs s = Done (tt, set_img (final s) s).
Proof.
  intros B. pose proof (ba_next _ B) as Hnx. pose proof (first_eq s) as Hf. unfold close_sfs. change SFS_BLKBITS with 32768 at 1 2. replace (ninos s + 32768 - 1) with (ninos s + 32767) by lia.
  rewrite <- (set_img_id s) at 2. erewrite tbind_Done.
  2: { apply (iter_writes write_map (fun k => 2 + k) (fun k => patch 0 (word_bytes (map_words (k * SFS_BLKBITS) (ninos s) (next_ino s))) ∅)).
       intros k m Hk. apply elem_of_seqZ in Hk. unfold write_map. cbn [ninos next_ino set_img]. change SFS_BLKN_FREEMAP with 2.
       rewrite write_img by (done || (change SFS_BLKSIZE with 4096; lia)). do 4 f_equal. f_equal. apply take_ge.
       unfold word_bytes. rewrite words_bytes_length, (proj1 (map_words_ok k (ninos s) (next_ino s) ltac:(lia) ltac:(lia) ltac:(lia))). done. }
  erewrite tbind_Done by (apply write_img; [done|lia|change SFS_BLKN_SUPER with 0; lia]). by rewrite flush_all.
Qed.

Lemma hash64_range r : 0 <= hash64 r < 1024.
Proof.
  unfold hash64, Libs.hash32. change (32 - HASH_SHIFT) with 22. rewrite Z.shiftr_div_pow2 by lia. pose proof (u32_range (u32 r * GOLDEN_RATIO_PRIME_32)) as H.
  change (2 ^ 22) with 4194304. lia.
Qed.

Lemma all_objects_owned s o : base s -> o ∈ all_objects s -> is_Some (owner s o).
Proof.
  intros B Ho. apply list_elem_of_join in Ho as (l & Ho & Hl). apply list_elem_of_fmap in Hl as (i & -> & _). by apply (objects_owned s i).
Qed.
Lemma all_objects_in s o n : base s -> owner s o = Some n -> o ∈ all_objects s.
Proof.
  intros B Ho. unfold all_objects. change HASH_LIST_SIZE with 1024.
  assert (Hi : exists i, 0 <= i < 1024 /\ o ∈ objects s i).
  { destruct o as [h|h]; simpl in Ho.
    - destruct (cis s !! h) as [c|] eqn:Hc; [|done]. exists (hash64 (real c)). split; [apply hash64_range|]. apply elem_of_app. right. apply list_elem_of_fmap. exists h. split; [done|]. by apply (ba_ci _ B h c).
    - destruct (cbs s !! h) as [c|] eqn:Hc; [|done]. exists 0. split; [lia|]. apply elem_of_app. left. apply list_elem_of_fmap. exists h. split; [done|]. by apply (ba_cb _ B h c). }
  destruct Hi as (i & Hi & Hin). apply list_elem_of_join. exists (objects s i). split; [done|]. apply list_elem_of_fmap. exists i. split; [done|]. apply elem_of_seqZ. lia.
Qed.

Lemma final_obj s o n : base s -> owner s o = Some n -> final s !! n = Some (obj_block s o).
Proof.
  intros B Ho. apply writes_in.
  - apply list_elem_of_fmap. exists o. split; [unfold obj_ino; by rewrite Ho|]. by apply (all_objects_in s o n).
  - intros y Hy Hn. destruct (all_objects_owned s y B Hy) as [n' Hn']. unfold obj_ino in Hn. rewrite Hn' in Hn. cbn in Hn. subst n'. by rewrite (ba_inj _ B y o n).
Qed.
Lemma final_free s b : base s -> (forall o, owner s o <> Some b) -> final s !! b =
  (<[0 := patch 0 (take 44 (mk_super_bytes s)) ∅]>
     (writes (fun k => 2 + k) (fun k => patch 0 (word_bytes (map_words (k * SFS_BLKBITS) (ninos s) (next_ino s))) ∅) (seqZ 0 ((ninos s + 32767) / 32768)) (img s))) !! b.
Proof.
  intros B Ho. apply writes_out. intros x Hx Hb. destruct (all_objects_owned s x B Hx) as [n Hn]. unfold obj_ino in Hb. rewrite Hn in Hb. cbn in Hb. subst n. by apply (Ho x).
Qed.
Lemma owner_range s o n : base s -> owner s o = Some n -> n = 1 \/ first s <= n < next_ino s.
Proof.
  intros B Ho. destruct (decide (o = inl 0%nat)) as [->|Hne]; [|right; by apply (ba_area _ B o)]. left. simpl in Ho. rewrite (ba_root _ B) in Ho. by injection Ho.
Qed.
Lemma final_data s b : base s -> first s <= b -> (forall o, owner s o <> Some b) -> final s !! b = img s !! b.
Proof.
  intros B Hb Ho. pose proof (ba_next _ B) as Hnx. pose proof (first_eq s) as Hf. rewrite final_free by done. rewrite lookup_insert_ne by lia. apply writes_out.
  intros x Hx. apply elem_of_seqZ in Hx. lia.
Qed.
Lemma final_super s : base s -> final s !! 0 = Some (patch 0 (take 44 (mk_super_bytes s)) ∅).
Proof.
  intros B. pose proof (ba_next _ B) as Hnx. pose proof (first_eq s) as Hf. rewrite final_free; [by rewrite lookup_insert_eq|done|]. intros o Ho. destruct (owner_range s o 0 B Ho); lia.
Qed.
Lemma final_map s k : base s -> 0 <= k < (ninos s + 32767) / 32768 ->
  final s !! (2 + k) = Some (patch 0 (word_bytes (map_words (k * SFS_BLKBITS) (ninos s) (next_ino s))) ∅).
Proof.
  intros B Hk. pose proof (ba_next _ B) as Hnx. pose proof (first_eq s) as Hf. rewrite final_free; [|done|intros o Ho; destruct (owner_range s o _ B Ho); lia].
  rewrite lookup_insert_ne by lia. apply writes_in.
  - apply list_elem_of_fmap. exists k. split; [done|]. apply elem_of_seqZ. lia.
  - intros y _ Hy. by replace y with k by lia.
Qed.

(** ** Mounting *)
Lemma super_of_image n u inf : 0 <= n < 2 ^ 32 -> 0 <= u < 2 ^ 32 -> length inf = 32%nat ->
  super_of (patch 0 (to_le32 SFS_MAGIC ++ to_le32 n ++ to_le32 u ++ inf) ∅) = (SFS_MAGIC, n, u, take 31 inf ++ [0]).
Proof.
  intros Hn Hu Hl. unfold super_of.
  pose proof (slice_patch_mid [] (to_le32 SFS_MAGIC) (to_le32 n ++ to_le32 u ++ inf) ∅ 4 eq_refl) as E1.
  pose proof (slice_patch_mid (to_le32 SFS_MAGIC) (to_le32 n) (to_le32 u ++ inf) ∅ 4 eq_refl) as E2.
  pose proof (slice_patch_mid (to_le32 SFS_MAGIC ++ to_le32 n) (to_le32 u) inf ∅ 4 eq_refl) as E3.
  pose proof (slice_patch_mid (to_le32 SFS_MAGIC ++ to_le32 n ++ to_le32 u) (take 31 inf) (drop 31 inf) ∅ 31) as E4.
  rewrite length_take in E4. specialize (E4 ltac:(lia)). rewrite take_drop in E4. rewrite <- !app_assoc in E3. rewrite <- !app_assoc in E4.
  simpl length in E1, E2, E3, E4. change (Z.of_nat 0) with 0 in E1. change (Z.of_nat 4) with 4 in E2. change (Z.of_nat 8) with 8 in E3. change (Z.of_nat 12) with 12 in E4.
  cbn [app] in E1. rewrite E1, E2, E3, E4, !le32_to_le32 by (done || unfold SFS_MAGIC; lia). done.
Qed.

(** The file system that the kernel has after mounting. *)
Definition image_fs (s : sfs_fs) : sfs :=
  Sfs (ninos s) (unused s) (take 31 (sinfo s) ++ [0]) false (image_map (ninos s) (next_ino s)) (final s) [].

Lemma freemap_div s : base s -> ROUNDUP_DIV (ninos s) SFS_BLKBITS = (ninos s + 32767) / 32768.
Proof.
  intros B. pose proof (ba_next _ B) as Hnx. rewrite first_eq in Hnx. pose proof (ba_max _ B) as Hm. unfold SFS_MAX_NBLKS in Hm.
  unfold ROUNDUP_DIV. change SFS_BLKBITS with 32768. rewrite u32_small by lia. f_equal. lia.
Qed.

Lemma image_mounts s nb : base s -> length (sinfo s) = 32%nat -> ninos s <= nb ->
  sfs_do_mount (Dev nb SFS_BLKSIZE (final s) [] []) = Ok (0, Some (image_fs s), Dev nb SFS_BLKSIZE (final s) [] []) /\ fs_ok (image_fs s).
Proof.
  intros B Hl Hnb. pose proof (ba_next _ B) as Hnx. pose proof (first_eq s) as Hf. pose proof (ba_max _ B) as Hm. unfold SFS_MAX_NBLKS in Hm.
  pose proof (freemap_div s B) as Hq. pose proof (ba_unused _ B) as Hu.
  assert (Hwf : bm_wf (image_map (ninos s) (next_ino s))) by (apply image_map_wf; lia).
  assert (Hfree : Z.of_nat (length (free_list_of (image_map (ninos s) (next_ino s)))) = unused s) by (rewrite image_map_free; lia).
  split.
  - apply (mount_disk nb (final s) (patch 0 (mk_super_bytes s) ∅)); try done.
    + rewrite final_super by done. do 2 f_equal. apply take_ge. unfold mk_super_bytes. rewrite !length_app, Hl. done.
    + apply super_of_image; [lia|lia|done].
    + cbn [image_map nbits]. unfold sfs_freemap_bits. by rewrite Hq.
    + cbn [image_map nbits nwords]. lia.
    + cbn [image_map nbits]. lia.
    + intros i Hi. rewrite Hq in Hi. rewrite final_map, image_map_block by (done || lia). done.
  - assert (Hfd : first_data (image_fs s) = first s) by (unfold first_data, sfs_freemap_blocks; cbn [blocks image_fs]; rewrite Hq, Hf; done).
    constructor; rewrite ?Hfd; cbn [image_fs freemap blocks unused_blocks results]; try done.
    + cbn [image_map nbits]. lia.
    + intros i Hi. rewrite image_free_bit by lia. intros Hb. apply andb_prop in Hb as [H1 H2]. apply Z.leb_le in H1. apply Z.ltb_lt in H2. lia.
    + lia.
Qed.

(** ** The tree in the kernel *)

(** The inode that the kernel reads from block [no]. *)
Definition inode_at (f : sfs) (no : Z) (d : sfs_disk_inode) : Prop := din_of_bytes (slice (block f no) 0 64) = d /\ nlinks d <> 0.

(** Inode [no] of the file system is the file [t] in directory [p].  A file of
    the host with inode number [r] is inode [to_img r] of the image, and
    [to_host] takes that number back: names with one inode on the host have
    one inode in the image (hard links), all others have inodes of their own. *)
Inductive shows (f : sfs) (to_img to_host : Z -> Z) : Z -> Z -> host -> Prop :=
| shows_file no p r cs d bl : inode_at f no d -> type d = SFS_TYPE_FILE -> file_ok f (Sin d no false) bl ->
    size d = Z.of_nat (length (mjoin cs)) -> fbytes f bl 0 (size d) = mjoin cs -> shows f to_img to_host no p (HFile r (Some <$> cs))
| shows_link no p r l d bl : inode_at f no d -> type d = SFS_TYPE_LINK -> file_ok f (Sin d no false) bl ->
    size d = Z.of_nat (length l) -> fbytes f bl 0 (size d) = l -> shows f to_img to_host no p (HLink r (Some l))
| shows_dir no p r es d bl : inode_at f no d -> type d = SFS_TYPE_DIR -> map_ok f (Sin d no false) bl -> size d = 256 * Z.of_nat (length bl) ->
    length bl = (2 + length (visible es))%nat -> uniq f bl -> has f bl 0 [46] no -> has f bl 1 [46; 46] p ->
    (forall (j : nat) e, visible es !! j = Some e -> exists n, has f bl (2 + Z.of_nat j) e.1 n /\ n <> 1 /\ n <> no /\
       n = to_img (host_ino e.2) /\ to_host n = host_ino e.2 /\ shows f to_img to_host n no e.2) -> shows f to_img to_host no p (HDir r es).

Section Shows.
Context (s : sfs_fs) (B : base s) (Hlinks : next_ino s - first s <= 65535).
#[local] Abbreviation f := (image_fs s).

Lemma first_data_image : first_data f = first s.
Proof. unfold first_data, sfs_freemap_blocks. cbn [blocks image_fs]. rewrite (freemap_div s B), first_eq. done. Qed.

Lemma used_image b : b = 1 \/ first s <= b < next_ino s -> used f b.
Proof.
  intros Hb. pose proof (ba_next _ B) as Hnx. pose proof (first_eq s) as Hf. pose proof (ba_max _ B) as Hm. unfold SFS_MAX_NBLKS in Hm.
  unfold used. rewrite first_data_image. cbn [image_fs blocks freemap]. split; [lia|].
  rewrite image_free_bit by lia. apply andb_false_iff. left. apply Z.leb_gt. lia.
Qed.

Lemma block_data b l : first s <= b -> (forall o, owner s o <> Some b) -> img s !! b = Some (patch 0 l ∅) -> block f b = patch 0 l ∅.
Proof. intros Hb Ho Hi. unfold block. cbn [image_fs disk]. by rewrite final_data, Hi. Qed.
Lemma block_obj o n : owner s o = Some n -> block f n = obj_block s o.
Proof. intros Ho. unfold block. cbn [image_fs disk]. by rewrite (final_obj s o n B Ho). Qed.

Lemma slice_patch_take l n : (Z.to_nat n <= length l)%nat -> 0 <= n -> slice (patch 0 l ∅) 0 n = take (Z.to_nat n) l.
Proof.
  intros Hl Hn. pose proof (slice_patch_mid [] (take (Z.to_nat n) l) (drop (Z.to_nat n) l) ∅ n) as E. rewrite length_take in E. specialize (E ltac:(lia)).
  cbn [app length] in E. by rewrite take_drop in E.
Qed.

(** The inode of a file whose blocks are known. *)
Lemma holds_ranges h c bl : holds s h c bl -> 0 <= type (ci_din c) < 65536 ->
  length (direct (ci_din c)) = 12%nat /\ 0 <= indirect (ci_din c) < 2 ^ 32 /\ din_of_bytes (din_bytes (ci_din c)) = ci_din c.
Proof.
  intros H Ht. pose proof (ba_next _ B) as Hnx. pose proof (first_eq s) as Hf. pose proof (ba_max _ B) as Hm. unfold SFS_MAX_NBLKS in Hm.
  destruct (ba_ci _ B h c (ho_ci _ _ _ _ H)) as (_ & Hlk & _). pose proof (ho_max _ _ _ _ H). pose proof (ho_size _ _ _ _ H). pose proof (ho_blocks _ _ _ _ H).
  destruct (ho_maps _ _ _ _ H) as (Hd & Hnone & Hind).
  assert (Hl : length (direct (ci_din c)) = 12%nat) by (rewrite Hd, length_app, length_take, length_replicate; lia).
  assert (Hi : 0 <= indirect (ci_din c) < 2 ^ 32).
  { destruct (decide (length bl <= 12)%nat) as [Hle|Hgt]; [by rewrite (proj2 (Hnone Hle))|].
    destruct (Hind ltac:(lia)) as (j & b & _ & Hb & <- & _). destruct (owner_range s (inr j) (cb_ino b) B) as [?|?]; [simpl; by rewrite Hb|lia|lia]. }
  split; [done|]. split; [done|]. apply din_roundtrip; try done; [lia..|]. rewrite Hd. apply Forall_app. split; [|apply Forall_replicate; lia].
  apply Forall_take, Forall_forall. intros b Hb. destruct (ho_free _ _ _ _ H b Hb). lia.
Qed.

Lemma inode_image h c bl : holds s h c bl -> 0 <= type (ci_din c) < 65536 -> 1 <= nlinks (ci_din c) -> inode_at f (ci_ino c) (ci_din c).
Proof.
  intros H Ht Hn. destruct (holds_ranges h c bl H Ht) as (Hl & _ & Hrt). split; [|lia]. rewrite (block_obj (inl h)) by (simpl; by rewrite (ho_ci _ _ _ _ H)).
  cbn [obj_block]. rewrite (ho_ci _ _ _ _ H). unfold inode_bytes. pose proof (din_bytes_length _ Hl) as Hbl.
  rewrite (take_ge _ 68) by (rewrite length_app, Hbl; simpl; lia). rewrite slice_patch_take by (rewrite ?length_app, ?Hbl; simpl; lia).
  change (Z.to_nat 64) with 64%nat. by rewrite take_app_length' by done.
Qed.

(** The map of its blocks. *)
Lemma map_image h c bl : holds s h c bl -> map_ok f (Sin (ci_din c) (ci_ino c) false) bl.
Proof.
  intros H. pose proof (ba_next _ B) as Hnx. pose proof (first_eq s) as Hf. pose proof (ba_max _ B) as Hm. unfold SFS_MAX_NBLKS in Hm.
  destruct H as [Hc Hn Hb Hmax Hsz (Hd & Hnone & Hind) Hfree Hnd].
  assert (Hci : owner s (inl h) = Some (ci_ino c)) by (simpl; by rewrite Hc).
  assert (Hi : indirect (ci_din c) = 0 /\ (length bl <= 12)%nat \/ (12 < length bl)%nat /\ exists j b, cbs s !! j = Some b /\ cb_ino b = indirect (ci_din c) /\
    cache b = drop 12 bl ++ replicate (1036 - length bl) 0 /\ first s <= indirect (ci_din c) < next_ino s).
  { destruct (decide (length bl <= 12)%nat) as [Hle|Hgt]; [left; split; [by apply Hnone|done]|]. right. split; [lia|].
    destruct (Hind ltac:(lia)) as (j & b & _ & Hbb & Hbi & Hca). exists j, b. split_and!; try done; rewrite <- Hbi; apply (ba_area _ B (inr j)); try done; simpl; by rewrite Hbb. }
  assert (Hown : forall b, b ∈ own (Sin (ci_din c) (ci_ino c) false) bl -> b = ci_ino c \/ first s <= b < next_ino s).
  { intros b Hbo. unfold own in Hbo. cbn [ino din] in Hbo. apply elem_of_cons in Hbo as [->|Hbo]; [by left|]. right.
    apply elem_of_app in Hbo as [Hbo|Hbo]; [|by apply Hfree]. destruct Hi as [[Hz _]|(_ & j & b' & _ & _ & _ & Hr)]; [rewrite Hz in Hbo; by apply not_elem_of_nil in Hbo|].
    rewrite (proj2 (Z.eqb_neq _ _)) in Hbo by lia. by apply list_elem_of_singleton in Hbo as ->. }
  constructor; cbn [din ino].
  - by rewrite Hb.
  - lia.
  - intros i Hir. unfold fblk. destruct (Z.ltb_spec i 12) as [Hlt|Hge].
    + unfold direct_at. rewrite Hd. destruct (decide (i < Z.of_nat (length bl))) as [Hin|Hout].
      * rewrite lookup_app_l by (rewrite length_take; lia). by rewrite lookup_take_lt by lia.
      * rewrite lookup_app_r by (rewrite length_take; lia). rewrite (lookup_ge_None_2 bl) by lia.
        destruct (replicate _ 0 !! _) as [z|] eqn:E; [|done]. by apply list_elem_of_lookup_2, elem_of_replicate in E as [-> _].
    + destruct Hi as [[-> Hle]|(Hgt & j & b & Hbb & Hbi & Hca & Hr)].
      * cbn. by rewrite (lookup_ge_None_2 bl) by lia.
      * rewrite (proj2 (Z.eqb_neq _ _)) by lia. rewrite (block_obj (inr j)) by (simpl; rewrite Hbb; simpl; congruence). cbn [obj_block]. rewrite Hbb.
        assert (Hcl : length (cache b) = 1024%nat) by (rewrite Hca, length_app, length_drop, length_replicate; lia).
        rewrite (take_ge (word_bytes _)) by (unfold word_bytes; rewrite words_bytes_length, Hcl; lia).
        assert (Hw : Forall (fun w => 0 <= w < 2 ^ 32) (cache b)).
        { rewrite Hca. apply Forall_app. split; [|apply Forall_replicate; lia]. apply Forall_drop, Forall_forall. intros x Hx. destruct (Hfree x Hx). lia. }
        pose proof (block_words_bytes (cache b) Hcl Hw) as Hbw. assert (Hat : block_words (patch 0 (word_bytes (cache b)) ∅) !! Z.to_nat (i - 12) = cache b !! Z.to_nat (i - 12)) by (f_equal; exact Hbw).
        unfold block_words in Hat. rewrite list_lookup_fmap, lookup_seq_lt in Hat by lia. cbn in Hat. replace (4 * Z.of_nat (Z.to_nat (i - 12))) with ((i - 12) * 4) in Hat by lia.
        assert (Hdef : le32 (slice (patch 0 (word_bytes (cache b)) ∅) ((i - 12) * 4) 4) = default 0 (cache b !! Z.to_nat (i - 12))) by (rewrite <- Hat; done). rewrite Hdef, Hca.
        destruct (decide (i < Z.of_nat (length bl))) as [Hin|Hout].
        -- rewrite lookup_app_l by (rewrite length_drop; lia). rewrite lookup_drop. do 2 f_equal. lia.
        -- rewrite lookup_app_r by (rewrite length_drop; lia). rewrite (lookup_ge_None_2 bl) by lia.
           destruct (replicate _ 0 !! _) as [z|] eqn:E; [|done]. by apply list_elem_of_lookup_2, elem_of_replicate in E as [-> _].
  - rewrite Hd, length_app, length_take, length_replicate. lia.
  - intros Hgt. destruct Hi as [[_ Hle]|(_ & j & b & _ & _ & _ & Hr)]; lia.
  - intros b Hbo. apply used_image. destruct (Hown b Hbo) as [->|?]; [by apply (owner_range s (inl h))|by right].
  - intros b Hbo Hne. rewrite first_data_image. destruct (Hown b Hbo); [done|lia].
  - unfold own. cbn [ino din]. assert (Hcb : ci_ino c ∉ bl) by (intros Hin; by apply (proj2 (Hfree _ Hin) (inl h))).
    destruct Hi as [[-> _]|(_ & j & b & Hbb & Hbi & _ & Hr)]; [cbn; by constructor|]. rewrite (proj2 (Z.eqb_neq _ _)) by lia. cbn [app].
    assert (Hcj : owner s (inr j) = Some (indirect (ci_din c))) by (simpl; rewrite Hbb; simpl; congruence).
    constructor; [|constructor; [|done]].
    + intros Hin. apply elem_of_cons in Hin as [Heq|Hin]; [|done]. rewrite <- Heq in Hcj. by pose proof (ba_inj _ B _ _ _ Hci Hcj).
    + intros Hin. by apply (proj2 (Hfree _ Hin) (inr j)).
Qed.

(** The bytes of a file. *)
Lemma fbytes_shift b bl n : 0 <= n -> fbytes f (b :: bl) 4096 n = fbytes f bl 0 n.
Proof.
  intros Hn. unfold fbytes. apply list_fmap_ext. intros i x Hx. apply lookup_seqZ in Hx as [-> Hx]. unfold fbyte.
  replace (Z.to_nat ((4096 + (0 + Z.of_nat i)) / 4096)) with (S (Z.to_nat ((0 + (0 + Z.of_nat i)) / 4096))) by lia. cbn [lookup list_lookup].
  replace ((4096 + (0 + Z.of_nat i)) mod 4096) with ((0 + (0 + Z.of_nat i)) mod 4096) by lia. done.
Qed.

Lemma fbytes_one b bl l : (length l <= 4096)%nat -> img s !! b = Some (patch 0 l ∅) -> first s <= b -> (forall o, owner s o <> Some b) ->
  fbytes f (b :: bl) 0 (Z.of_nat (length l)) = l.
Proof.
  intros Hl Hb Hr Ho. pose proof (block_data b l Hr Ho Hb) as Hblk.
  pose proof (slice_fbytes f (b :: bl) 0 b 0 (Z.of_nat (length l)) eq_refl ltac:(lia) ltac:(lia)) as E. change (4096 * 0 + 0) with 0 in E. rewrite <- E, Hblk. apply slice_patch.
Qed.

Lemma fbytes_content cs : forall bl, full_chunks cs -> content s bl cs -> (forall b, b ∈ bl -> first s <= b < next_ino s /\ forall o, owner s o <> Some b) ->
  fbytes f bl 0 (total cs) = mjoin cs.
Proof.
  induction cs as [|l cs IH]; intros bl Hfull Hct Hfree; [done|]. inversion Hct as [|b ? bl' ? Hb Hct']; subst.
  destruct (Hfree b ltac:(by left)) as [Hr Ho].
  assert (Hfree' : forall x, x ∈ bl' -> first s <= x < next_ino s /\ forall o, owner s o <> Some x) by (intros x Hx; apply Hfree; by right).
  change (mjoin (l :: cs)) with (l ++ mjoin cs). destruct cs as [|l' cs].
  - simpl in Hfull. unfold total. change (mjoin [l]) with (l ++ []). rewrite app_nil_r. rewrite fbytes_one by (done || lia). by rewrite app_nil_r.
  - destruct Hfull as [Hl Hfull]. assert (Ht : total (l :: l' :: cs) = Z.of_nat (length l) + total (l' :: cs)).
    { unfold total. change (mjoin (l :: l' :: cs)) with (l ++ mjoin (l' :: cs)). rewrite length_app. lia. }
    rewrite Ht, <- fbytes_app by (unfold total; lia). rewrite fbytes_one by (done || lia). rewrite Hl. change (0 + Z.of_nat 4096) with 4096. rewrite fbytes_shift by (unfold total; lia). by rewrite IH.
Qed.

(** The entries of a directory. *)
Lemma has_entry bl (j : nat) b no name : bl !! j = Some b -> first s <= b -> (forall o, owner s o <> Some b) -> entry_in s b no name ->
  0 <= no < 2 ^ 32 -> no <> 0 -> fname name -> has f bl (Z.of_nat j) name no.
Proof.
  intros Hj Hb Ho (rest & Hlen & Hi) Hno Hnz [Hnm Hnl]. pose proof (lookup_lt_Some _ _ _ Hj). pose proof (block_data b _ Hb Ho Hi) as Hblk.
  assert (E : entry_at f bl (Z.of_nat j) = entry_of (mk_entry_bytes no (name ++ 0 :: rest))).
  { unfold entry_at. f_equal. pose proof (slice_fbytes f bl (Z.of_nat j) b 0 260) as Es. rewrite Nat2Z.id in Es. specialize (Es Hj ltac:(lia) ltac:(lia)).
    rewrite Z.add_0_r in Es. rewrite <- Es, Hblk. replace 260 with (Z.of_nat (length (mk_entry_bytes no (name ++ 0 :: rest)))); [apply slice_patch|].
    unfold mk_entry_bytes. rewrite length_app, Hlen. done. }
  unfold has. rewrite E. unfold entry_of, mk_entry_bytes. cbn [fst snd]. rewrite take_app_length' by done. rewrite le32_to_le32 by done.
  split; [lia|]. split; [done|]. split; [done|]. change (drop 4 (to_le32 no ++ ?l)) with l. destruct (decide (length name = 255%nat)) as [El|El].
  - rewrite take_app_length' by done. by apply cstr_app.
  - rewrite take_app_ge by lia. destruct (255 - length name)%nat as [|k] eqn:Ek; [lia|]. cbn [take]. rewrite <- app_assoc. by apply cstr_app.
Qed.

Lemma ino_range h c : cis s !! h = Some c -> 0 <= ci_ino c < 2 ^ 32 /\ ci_ino c <> 0.
Proof.
  intros Hc. pose proof (ba_next _ B) as Hnx. pose proof (first_eq s) as Hf. pose proof (ba_max _ B) as Hm. unfold SFS_MAX_NBLKS in Hm.
  destruct (owner_range s (inl h) (ci_ino c) B); [simpl; by rewrite Hc|lia|lia].
Qed.

(** The entries of a directory, all of them. *)
Lemma dir_entries h c bl ents : holds s h c bl -> Forall2 (fun b e => entry_in s b e.1 e.2) bl ents ->
  Forall (fun e => 0 <= e.1 < 2 ^ 32 /\ e.1 <> 0 /\ fname e.2) ents -> NoDup ents.*2 ->
  (forall (j : nat) e, ents !! j = Some e -> has f bl (Z.of_nat j) e.2 e.1) /\ uniq f bl.
Proof.
  intros H Hent Hok Hnd. assert (Hhas : forall (j : nat) e, ents !! j = Some e -> has f bl (Z.of_nat j) e.2 e.1).
  { intros j e Hj. destruct (Forall2_lookup_r _ _ _ _ _ Hent Hj) as (b & Hb & Hin). rewrite Forall_forall in Hok.
    destruct (Hok e) as (H1 & H2 & H3); [by eapply list_elem_of_lookup_2|]. destruct (ho_free _ _ _ _ H b) as [Hr Ho]; [by eapply list_elem_of_lookup_2|].
    apply has_entry with b; (done || lia). }
  split; [done|]. intros i j name no no' Hi Hj. pose proof (Forall2_length _ _ _ Hent) as Hlen.
  assert (Hof : forall i no, has f bl i name no -> exists k e, i = Z.of_nat k /\ ents !! k = Some e /\ e.2 = name).
  { intros i' no'' Hh. destruct (proj1 Hh) as [H0 Hlt]. destruct (lookup_lt_is_Some_2 ents (Z.to_nat i')) as [e He]; [lia|]. exists (Z.to_nat i'), e.
    split; [lia|]. split; [done|]. pose proof (Hhas _ _ He) as Hh'. rewrite Z2Nat.id in Hh' by lia. destruct Hh as (_ & _ & _ & E), Hh' as (_ & _ & _ & E'). congruence. }
  destruct (Hof i no Hi) as (k & e & -> & He & En), (Hof j no' Hj) as (k' & e' & -> & He' & En'). f_equal.
  apply (NoDup_lookup ents.*2 k k' name Hnd); rewrite list_lookup_fmap; [rewrite He|rewrite He']; simpl; congruence.
Qed.

(** An inode below directory [h] is neither the root nor [h]. *)
Lemma kid_differs h k c ck c0 t : cis s !! h = Some c -> type (ci_din c) = SFS_TYPE_DIR -> cis s !! k = Some ck ->
  cis s !! 0%nat = Some c0 -> type (ci_din c0) = SFS_TYPE_DIR -> (is_dir t = true -> (h < k)%nat) -> rep s k h t -> ci_ino ck <> 1 /\ ci_ino ck <> ci_ino c.
Proof.
  intros Hc Ht Hck Hc0 Ht0 Hlt Hr.
  assert (Hne : k <> 0%nat /\ k <> h).
  { assert (Hdata : forall ty cs, shows_data s k ty cs -> ty <> SFS_TYPE_DIR -> k <> 0%nat /\ k <> h).
    { intros ty cs (c' & bl & Hh & Hty & _) Hn. pose proof (ho_ci _ _ _ _ Hh). split; intros ->; congruence. }
    inversion Hr; subst; [by eapply Hdata|by eapply Hdata|]. specialize (Hlt eq_refl). lia. }
  assert (Ho : forall x cx, cis s !! x = Some cx -> owner s (inl x) = Some (ci_ino cx)) by (intros x cx Hx; simpl; by rewrite Hx).
  pose proof (Ho k ck Hck) as Hok. pose proof (Ho h c Hc) as Hoh. pose proof (ba_root _ B) as Hroot. split; intros E; destruct Hne as [Hn0 Hnh].
  - rewrite E in Hok. apply Hn0. assert (inl k = inl 0%nat :> nat + nat) as Ei by (by apply (ba_inj _ B (inl k) (inl 0%nat) 1)). by injection Ei.
  - rewrite E in Hok. apply Hnh. assert (inl k = inl h :> nat + nat) as Ei by (by apply (ba_inj _ B (inl k) (inl h) (ci_ino c))). by injection Ei.
Qed.

Lemma visible_shown es e : e ∈ visible es -> e ∈ es /\ hidden e.1 = false.
Proof.
  intros He. unfold visible in He. apply list_elem_of_filter in He as [Hs He]. split; [done|]. unfold shown in Hs. apply andb_prop in Hs as [Hs _]. by apply negb_true_iff.
Qed.

Lemma zip_names (es : list (list Z * host)) (ks : list (nat * Z)) : length es = length ks -> (zip_with (fun e n => (n.2, e.1)) es ks).*2 = es.*1.
Proof. revert ks. induction es as [|e es IH]; intros [|k ks] Hl; try done. cbn. f_equal. apply IH. by injection Hl. Qed.

(** The inode of the image for a number of the host, and back. *)
Definition to_img (r : Z) : Z := match list_find (fun kc => real kc.2 = r) (map_to_list (cis s)) with Some (_, (_, c)) => ci_ino c | None => 0 end.
Definition to_host (n : Z) : Z := match list_find (fun kc => ci_ino kc.2 = n) (map_to_list (cis s)) with Some (_, (_, c)) => real c | None => 0 end.

Lemma to_img_ok k c : one_each s -> cis s !! k = Some c -> to_img (real c) = ci_ino c.
Proof.
  intros Ho Hk. unfold to_img. destruct (list_find _ _) as [[i [k' c']]|] eqn:E.
  - apply list_find_Some in E as (Hi & Hr & _). apply list_elem_of_lookup_2, elem_of_map_to_list in Hi. cbn in Hr.
    assert (k' = k) as -> by (by apply (Ho k' k c' c)). congruence.
  - apply list_find_None in E. rewrite Forall_forall in E. destruct (E (k, c)); [by apply elem_of_map_to_list|done].
Qed.
Lemma to_host_ok k c : cis s !! k = Some c -> to_host (ci_ino c) = real c.
Proof.
  intros Hk. unfold to_host. destruct (list_find _ _) as [[i [k' c']]|] eqn:E.
  - apply list_find_Some in E as (Hi & Hr & _). apply list_elem_of_lookup_2, elem_of_map_to_list in Hi. cbn in Hr.
    assert (inl k' = inl k :> nat + nat) as Ei by (apply (ba_inj _ B (inl k') (inl k) (ci_ino c)); cbn; rewrite ?Hi, ?Hk; cbn; congruence).
    injection Ei as ->. congruence.
  - apply list_find_None in E. rewrite Forall_forall in E. destruct (E (k, c)); [by apply elem_of_map_to_list|done].
Qed.

Lemma rep_shows F t : one_each s -> (exists c0, cis s !! 0%nat = Some c0 /\ type (ci_din c0) = SFS_TYPE_DIR) -> host_ok F t -> forall h p c pc, rep s h p t -> cis s !! h = Some c -> 1 <= nlinks (ci_din c) -> cis s !! p = Some pc ->
  shows f to_img to_host (ci_ino c) (ci_ino pc) t.
Proof.
  intros Hone (c0 & Hc0 & Ht0). induction t as [r l|r es IH|r l|] using host_ind'; intros Hok h p c pc Hrep Hc Hlk Hp; inversion Hrep; subst.
  - match goal with H : shows_data _ _ _ _ |- _ => destruct H as (c' & bl & Hh & Ht & Hct & Hsz) end. assert (c' = c) as -> by (pose proof (ho_ci _ _ _ _ Hh); congruence).
    apply (shows_file f _ _ _ _ r cs (ci_din c) bl); try done.
    + apply (inode_image h c bl Hh); [by rewrite Ht|done].
    + split; [by apply (map_image h)|]. split; [apply Hh|]. cbn. by rewrite Ht.
    + rewrite Hsz. apply fbytes_content; try done. apply Hh.
  - match goal with H : holds _ _ _ _ |- _ => rename H into Hh end.
    assert (c1 = c) as -> by (pose proof (ho_ci _ _ _ _ Hh); congruence). assert (pc0 = pc) as -> by congruence.
    match goal with H : Forall2 _ bl _ |- _ => rename H into Hent end. match goal with H : Forall2 _ (visible es) ks |- _ => rename H into Hkids end.
    match goal with H : type _ = SFS_TYPE_DIR |- _ => rename H into Ht end. match goal with H : size _ = _ |- _ => rename H into Hsz end.
    inversion Hok as [| |? ? _ _ Hndn Hnames Hoks]; subst. pose proof (Forall2_length _ _ _ Hkids) as Hkl. pose proof (Forall2_length _ _ _ Hent) as Hel.
    unfold entries_of in Hel. cbn [length] in Hel. rewrite length_zip_with_l_eq in Hel by done.
    destruct (dir_entries h c bl _ Hh Hent) as [Hhas Huq].
    + assert (Hd1 : fname [46]) by (split; [repeat constructor; lia|simpl; lia]). assert (Hd2 : fname [46; 46]) by (split; [repeat constructor; lia|simpl; lia]).
      destruct (ino_range h c Hc), (ino_range p pc Hp). apply Forall_cons. split; [done|]. apply Forall_cons. split; [done|].
      apply Forall_lookup. intros j x Hx. apply lookup_zip_with_Some in Hx as (e & k & -> & He & Hk). cbn [fst snd].
      destruct (Forall2_lookup_lr _ _ _ _ _ _ Hkids He Hk) as ((ck & Hck & Hki & _) & _). rewrite <- Hki. destruct (ino_range k.1 ck Hck). split; [done|]. split; [done|].
      rewrite Forall_forall in Hnames. destruct (visible_shown es e) as [H1' H2']; [by eapply list_elem_of_lookup_2|]. by apply Hnames.
    + unfold entries_of. cbn [fmap list_fmap snd]. change (list_fmap (Z * list Z)%type (list Z) snd) with (@fmap list _ (Z * list Z)%type (list Z) snd). rewrite zip_names by done.
      assert (Hdot : forall n, n ∈ (visible es).*1 -> hidden n = false).
      { intros n Hn. apply list_elem_of_fmap in Hn as (e & -> & He). by apply (visible_shown es). }
      constructor; [|constructor; [|done]].
      * intros Hin. apply elem_of_cons in Hin as [?|Hin]; [done|]. by apply Hdot in Hin.
      * intros Hin. by apply Hdot in Hin.
    + apply (shows_dir f _ _ _ _ r es (ci_din c) bl); try done.
      * apply (inode_image h c bl Hh); [by rewrite Ht|done].
      * by apply (map_image h).
      * apply (Hhas 0%nat (ci_ino c, [46]) eq_refl).
      * apply (Hhas 1%nat (ci_ino pc, [46; 46]) eq_refl).
      * intros j e He. destruct (lookup_lt_is_Some_2 ks j) as [k Hk]; [apply lookup_lt_Some in He; lia|].
        destruct (Forall2_lookup_lr _ _ _ _ _ _ Hkids He Hk) as ((ck & Hck & Hki & Hkr & Hkl') & Hlt & Hr). exists k.2.
        destruct (kid_differs h k.1 c ck c0 e.2 Hc Ht Hck Hc0 Ht0 Hlt Hr) as [Hd1 Hd2]. rewrite Hki in Hd1, Hd2.
        split; [|split; [done|split; [done|split; [rewrite <- Hkr, (to_img_ok k.1); done|split; [rewrite <- Hkr, <- Hki; by apply (to_host_ok k.1)|]]]]].
        -- specialize (Hhas (S (S j)) (k.2, e.1)). replace (2 + Z.of_nat j) with (Z.of_nat (S (S j))) by lia. apply Hhas. cbn. apply lookup_zip_with_Some. by exists e, k.
        -- rewrite <- Hki. rewrite Forall_forall in IH. rewrite Forall_forall in Hoks. assert (He' : e ∈ visible es) by (by eapply list_elem_of_lookup_2).
           apply (IH e) with k.1 h; try done; [by apply visible_shown in He' as [? _]|by apply Hoks].
  - match goal with H : shows_data _ _ _ _ |- _ => destruct H as (c' & bl & Hh & Ht & Hct & Hsz) end. assert (c' = c) as -> by (pose proof (ho_ci _ _ _ _ Hh); congruence).
    inversion Hct as [|b ? bl' ? Hb Hnil]; subst. inversion Hnil; subst. unfold total in Hsz. change (mjoin [?x]) with (x ++ []) in Hsz. rewrite app_nil_r in Hsz.
    destruct (ho_free _ _ _ _ Hh b ltac:(by left)) as [Hr Ho]. eapply (shows_link f _ _ _ _ r _ (ci_din c) [b]); try done.
    + apply (inode_image h c [b] Hh); [by rewrite Ht|done].
    + split; [by apply (map_image h)|]. split; [apply Hh|]. cbn. by rewrite Ht.
    + rewrite Hsz. apply fbytes_one; (done || lia).
Qed.
End Shows.

(** ** The whole tool *)
Lemma create_sfs_ok st_size image junk n : n = Z.min (u32 (st_size / 4096)) 524288 -> 2 + (n + 32767) / 32768 < n -> length junk = 13%nat ->
  exists s, create_sfs st_size image junk [] = Done (0%nat, s) /\ base s /\ length (sinfo s) = 32%nat /\ ninos s = n /\ next_ino s = first s /\
    cis s = {[0%nat := CI (Din 0 SFS_TYPE_DIR 0 0 (replicate 12 0) 0) 0 0 1 0 None None]}.
Proof.
  intros En Hn Hj. unfold create_sfs. change SFS_BLKSIZE with 4096. change SFS_MAX_NBLKS with 524288. set (u := u32 (st_size / 4096)) in *.
  assert ((if u >? 524288 then 524288 else u) = n) as -> by (destruct (Z.gtb_spec u 524288); lia). change SFS_BLKBITS with 32768. change SFS_BLKN_FREEMAP with 2.
  replace (n + 32768 - 1) with (n + 32767) by lia. set (s0 := Mk _ _ _ _ _ _ _ _ _ _ _ _ _). rewrite (tbind_Done _ _ _ tt s0) by done.
  rewrite Z.geb_leb, (proj2 (Z.leb_gt _ _)) by lia. rewrite (tbind_Done _ _ _ tt s0) by done. unfold alloc_cache_inode. rewrite (tbind_Done _ _ _ tt s0) by done.
  change (negb (SFS_BLKN_ROOT =? 0)) with true. cbv iota. rewrite (tbind_Done _ _ _ SFS_BLKN_ROOT s0) by done. cbv beta zeta.
  eexists. split; [reflexivity|]. cbn [s0 cis next_h]. set (s := Mk _ _ _ _ _ _ _ _ _ _ _ _ _).
  assert (Hf : first s = 2 + (n + 32767) / 32768) by apply first_eq.
  assert (Hc : forall k c, cis s !! k = Some c -> k = 0%nat /\ c = CI (Din 0 SFS_TYPE_DIR 0 0 (replicate 12 0) 0) 0 0 1 0 None None).
  { intros k c. intros H. change (cis s) with (<[0%nat := CI (Din 0 SFS_TYPE_DIR 0 0 (replicate 12 0) 0) 0 0 1 0 None None]> (∅ : gmap nat cache_inode)) in H. apply lookup_insert_Some in H as [[<- <-]|[_ H]]; [done|]. by rewrite lookup_empty in H. }
  assert (Ho : forall o x, owner s o = Some x -> o = inl 0%nat).
  { intros [k|k] x Hx; cbn [owner] in Hx; [|change (cbs s) with (∅ : gmap nat cache_block) in Hx; by rewrite lookup_empty in Hx]. destruct (cis s !! k) as [c|] eqn:E; [|done]. by destruct (Hc k c E) as [-> _]. }
  split; [|split; [change (sinfo s) with (info_text ++ junk); rewrite length_app, Hj; done|split; [done|split; [by rewrite Hf|done]]]].
  constructor; try done.
  - rewrite Hf. change (next_ino s) with (2 + (n + 32767) / 32768). change (ninos s) with n. lia.
  - change (ninos s) with n. unfold SFS_MAX_NBLKS. lia.
  - intros h c H. destruct (Hc h c H) as [-> ->]. split; [cbn; lia|]. split; [rewrite Hf; change (next_ino s) with (2 + (n + 32767) / 32768); cbn [nlinks ci_din]; lia|]. split; [|done]. change (real _) with 0. unfold chain. cbn [s inodes].
    change (hash64 0) with 0. rewrite lookup_insert_eq. by left.
  - intros i h. unfold chain. cbn [s inodes]. change (hash64 0) with 0. destruct (decide (i = 0)) as [->|Hne].
    + rewrite lookup_insert_eq. change (inodes s0) with (∅ : gmap Z (list nat)). cbn [default from_option id]. intros Hh. apply elem_of_cons in Hh as [->|Hh]; [|unfold chain in Hh; rewrite lookup_empty in Hh; by apply not_elem_of_nil in Hh].
      cbn [s cis]. by rewrite lookup_insert_eq.
    + rewrite lookup_insert_ne by done. change (inodes s0) with (∅ : gmap Z (list nat)). rewrite lookup_empty. intros Hh. by apply not_elem_of_nil in Hh.
  - intros i h. unfold chain. change (blks s) with (∅ : gmap Z (list nat)). rewrite lookup_empty. intros Hh. by apply not_elem_of_nil in Hh.
  - intros o x Hx Hne. by apply Ho in Hx.
  - intros o o' x Hx Hx'. by rewrite (Ho o x Hx), (Ho o' x Hx').
  - intros h c h' c' j H H' _ _. destruct (Hc h c H) as [-> _], (Hc h' c' H') as [-> _]. done.
Qed.

Lemma mksfs_spec F name st_size image junk r es n nb :
  let first := 2 + (n + 32767) / 32768 in
  n = Z.min (u32 (st_size / 4096)) 524288 -> (4 < length name)%nat -> drop (length name - 4) name = [46; 105; 109; 103] -> length junk = 13%nat ->
  host_ok F (HDir r es) -> F 0 = None -> NoDup (0 :: others_all (visible es)) -> first + body es <= n -> body es <= 65535 -> n <= nb ->
  exists m f to_img to_host, mksfs name st_size image junk [] (HDir r es) = Done m /\
    sfs_do_mount (Dev nb SFS_BLKSIZE m [] []) = Ok (0, Some f, Dev nb SFS_BLKSIZE m [] []) /\
    fs_ok f /\ blocks f = n /\ n - (first + body es) <= unused_blocks f <= n - first /\ shows f to_img to_host 1 1 (HDir r es).
Proof.
  intros first0 En Hnl Hext Hj Hok HF0 Hnd Hfit Hlk Hnb. assert (Hb2 : 2 <= body es).
  { unfold body. pose proof (inner_all_pos (visible es)). pose proof (need_mono 2 (2 + length (visible es)) ltac:(lia)) as Hm. change (need 2) with 2 in Hm. lia. }
  destruct (create_sfs_ok st_size image junk n En ltac:(lia) Hj) as (s & Es & B & Hsi & Hn & Hnx & Hci).
  assert (Hfst : first s = first0) by (rewrite first_eq, Hn; done). apply NoDup_cons in Hnd as [H0 Hnd].
  set (c := CI (Din 0 SFS_TYPE_DIR 0 0 (replicate 12 0) 0) 0 0 1 0 None None) in *.
  assert (Hroot : cis s !! 0%nat = Some c) by (rewrite Hci; apply lookup_singleton_eq).
  assert (Hone : forall k ck, cis s !! k = Some ck -> ck = c) by (intros k ck Hk; rewrite Hci in Hk; apply lookup_singleton_Some in Hk as [_ <-]; done).
  destruct (open_dir_ok F (HDir r es) Hok s 0%nat 0%nat c c B) as (s1 & E1 & B1 & [_ Hone1] & X1 & Hrep & Hn1 & _ & (cr & Hcr & Hlr)); try done.
  { split; [intros k ck cs Hk HF; rewrite (Hone k ck Hk) in HF; cbn in HF; congruence|].
    intros k k' ck ck' Hk Hk' _. rewrite Hci in Hk, Hk'. apply lookup_singleton_Some in Hk as [<- _], Hk' as [<- _]. done. }
  { by apply holds_new. }
  { intros k ck Hk. by rewrite (Hone k ck Hk). }
  { split; lia. }
  destruct (image_mounts s1 nb B1) as [Hm Hfs]; [by rewrite (ex_info _ _ _ X1)|rewrite (ex_ninos _ _ _ X1); lia|].
  exists (final s1), (image_fs s1), (to_img s1), (to_host s1). split.
  { unfold mksfs, open_img. rewrite Hext, bool_decide_eq_true_2 by done. rewrite (proj2 (Nat.leb_gt _ _)) by lia. cbn [orb negb]. rewrite Es. unfold create_img.
    do 3 tstep (hostcall_ok s (ba_oks _ B)). tstep E1. tstep (hostcall_ok s1 (ba_oks _ B1)). by rewrite (close_sfs_ok s1 B1). }
  split; [done|]. split; [done|]. split; [cbn [image_fs blocks]; by rewrite (ex_ninos _ _ _ X1)|].
  pose proof (ex_next _ _ _ X1). pose proof (ext_first _ _ _ X1) as Hf1.
  split; [cbn [image_fs unused_blocks]; rewrite (ba_unused _ B1), (ex_ninos _ _ _ X1); lia|].
  destruct (ex_ci _ _ _ X1 0%nat c Hroot) as (c1 & Hc1 & Hi1 & _ & Ht1 & _). replace 1 with (ci_ino c1) by (by rewrite Hi1).
  apply (rep_shows s1 B1 ltac:(lia) F (HDir r es)) with 0%nat 0%nat; try done; [by exists c1|congruence].
Qed.

(** C10: a tree of the host that fits into an image (with a bound of 65535
    blocks, which keeps the link counts in their 16 bits) is written by the
    tool without an error; the kernel mounts the image, all checks passing,
    and finds the tree in it: every directory with exactly the entries that
    are not hidden, in order and with unique names, every regular file with
    its size and its bytes, and every inode linked.  Names that are one inode
    on the host (hard links) are one inode of the image, and names of different
    inodes are different inodes: the inode of an entry is [to_img] of its
    number on the host, and [to_host] takes it back. *)
Theorem mksfs_mounts F name st_size image junk r es n nb :
  let first := 2 + (n + 32767) / 32768 in
  n = Z.min (u32 (st_size / 4096)) 524288 -> (4 < length name)%nat -> drop (length name - 4) name = [46; 105; 109; 103] -> length junk = 13%nat ->
  host_ok F (HDir r es) -> F 0 = None -> NoDup (0 :: others_all (visible es)) -> first + body es <= n -> body es <= 65535 -> n <= nb ->
  exists m f to_img to_host, mksfs name st_size image junk [] (HDir r es) = Done m /\
    sfs_do_mount (Dev nb SFS_BLKSIZE m [] []) = Ok (0, Some f, Dev nb SFS_BLKSIZE m [] []) /\
    fs_ok f /\ blocks f = n /\ n - (first + body es) <= unused_blocks f <= n - first /\ shows f to_img to_host 1 1 (HDir r es).
Proof. apply mksfs_spec. Qed.

(** ** Example: a file with two names and a directory *)
Definition home_files (r : Z) : option (list (list Z)) := if r =? 8 then Some [[1; 2; 3]] else if r =? 10 then Some [] else None.
Definition home : list (list Z * host) :=
  [([46], HOther); ([97; 98], HFile 8 [Some [1; 2; 3]]); ([100], HDir 9 [([97], HFile 8 [Some [1; 2; 3]]); ([99], HFile 10 [])])].

Lemma home_ok : host_ok home_files (HDir 7 home).
Proof.
  assert (H8 : host_ok home_files (HFile 8 [Some [1; 2; 3]])) by (apply (ok_file home_files 8 [[1; 2; 3]]); [done|simpl; lia|simpl; lia]).
  assert (H10 : host_ok home_files (HFile 10 [])) by (apply (ok_file home_files 10 []); [done|done|simpl; lia]).
  constructor; [done|simpl; lia| | |].
  - change (NoDup [[97; 98]; [100]]). refine (proj1 (bool_decide_eq_true _) _). by vm_compute.
  - repeat (apply Forall_cons; split; [intros _; split; [repeat constructor; done|simpl; lia]|]). constructor.
  - change (visible home) with [([97; 98], HFile 8 [Some [1; 2; 3]]); ([100], HDir 9 [([97], HFile 8 [Some [1; 2; 3]]); ([99], HFile 10 [])])].
    apply Forall_cons. split; [done|]. apply Forall_cons. split; [|constructor]. cbn [snd]. constructor; [done|simpl; lia| | |].
    + change (NoDup [[97]; [99]]). refine (proj1 (bool_decide_eq_true _) _). by vm_compute.
    + repeat (apply Forall_cons; split; [intros _; split; [repeat constructor; done|simpl; lia]|]). constructor.
    + change (visible _) with [([97], HFile 8 [Some [1; 2; 3]]); ([99], HFile 10 [])]. apply Forall_cons. split; [done|]. apply Forall_cons. split; [done|constructor].
Defined.

Lemma mksfs_mounts_witness :
  exists m f to_img to_host, mksfs [97; 46; 105; 109; 103] 163840 ∅ (replicate 13 5) [] (HDir 7 home) = Done m /\
    sfs_do_mount (Dev 40 SFS_BLKSIZE m [] []) = Ok (0, Some f, Dev 40 SFS_BLKSIZE m [] []) /\
    fs_ok f /\ blocks f = 40 /\ 40 - (3 + body home) <= unused_blocks f <= 40 - 3 /\ shows f to_img to_host 1 1 (HDir 7 home).
Proof.
  apply (mksfs_mounts home_files [97; 46; 105; 109; 103] 163840 ∅ (replicate 13 5) 7 home 40 40);
    [reflexivity|simpl; lia|reflexivity|reflexivity|exact home_ok|reflexivity| | | |lia].
  - refine (proj1 (bool_decide_eq_true _) _). vm_compute. reflexivity.
  - vm_compute. discriminate.
  - vm_compute. discriminate.
Defined.
