(* ===== verification/MksfsPaths.v ===== *)
(** * From the image to the files: paths in a file system made by mksfs

    The kernel mounts an image, loads the root inode, looks a path up and
    reads the file.  No inode but the root is loaded before; the directories
    on the way are loaded and given back. *)
From S2P Require Import Prelude Libs IoBuf Bitmap SfsDisk SfsFile SfsDir SfsMount Mksfs MksfsTree MksfsImage.
#[local] Open Scope prog_scope.

(** The pieces of the regular file at the path [names] of the host. *)
Fixpoint find_at (names : list (list Z)) (t : host) : option (list (option (list Z))) :=
  match names, t with
  | [], HFile _ reads => Some reads
  | a :: names, HDir _ es =>
      match list_find (fun e => bool_decide (e.1 = a) = true) (visible es) with Some (_, e) => find_at names e.2 | None => None end
  | _, _ => None
  end.

(** ** Loading inodes *)
Definition loaded (no : Z) (d : sfs_disk_inode) : node := Node (Sin d no false) false 1 1 0.
Definition after_load (no : Z) (d : sfs_disk_inode) (s : dst) : dst :=
  Dst (fs s) (<[next_node s := loaded no d]> (nodes s)) (S (next_node s)) (next_node s :: inode_list s) (mallocs s).

Lemma load_new no d s : fs_ok (fs s) -> mallocs s = [] -> find_node no s = None -> used (fs s) no -> inode_at (fs s) no d ->
  type d = SFS_TYPE_DIR \/ type d = SFS_TYPE_FILE -> sfs_load_inode no s = Ok ((0, Some (next_node s)), after_load no d s).
Proof.
  intros H Hm Hf Hu [Hd Hl] Ht. unfold sfs_load_inode.
  assert (E : lookup_sfs_nolock no s = Ok (None, s)) by (unfold lookup_sfs_nolock; by rewrite Hf). step E.
  assert (Ek : kmalloc s = Ok (true, s)) by (unfold kmalloc; by rewrite Hm). step Ek.
  step (ask_fs_ok (fun f => assert_inuse f no) s tt (assert_inuse_ok _ _ H Hu)). pose proof (used_pos _ _ H Hu).
  assert (E2 : on_fs (fun f => sfs_rbuf 64 no 0 f) s = Ok ((0, slice (block (fs s) no) 0 64), s)).
  { rewrite (on_fs_ok _ s (0, slice (block (fs s) no) 0 64) (fs s)), set_fs_id; [done|]. rewrite rbuf_ok; [done|apply H|done|unfold SFS_BLKSIZE; lia..]. }
  step E2. change (0 =? 0) with true. cbn [negb]. rewrite Hd. rewrite (bind_Ok _ _ s tt s) by (unfold massert; by rewrite (proj2 (Z.eqb_neq _ _))).
  assert (E3 : sfs_create_inode d no s = Ok (Some (next_node s), Dst (fs s) (<[next_node s := loaded no d]> (nodes s)) (S (next_node s)) (inode_list s) (mallocs s))).
  { unfold sfs_create_inode. step Ek. rewrite (bind_Ok _ _ s tt s); [done|]. unfold sfs_get_ops. destruct Ht as [-> | ->]; done. }
  step E3. done.
Qed.

(** An inode that is linked and not dirty is dropped with its last reference. *)
Lemma drop_clean h no d s : nodes s !! h = Some (loaded no d) -> nlinks d <> 0 ->
  vop_ref_dec h s = Ok (0, Dst (fs s) (delete h (nodes s)) (next_node s) (filter (fun k => k <> h) (inode_list s)) (mallocs s)).
Proof.
  intros Hn Hl. unfold vop_ref_dec. step (get_node_ok h _ s Hn). rewrite (bind_Ok _ _ s tt s) by done. unfold put_node at 1. erewrite bind_Ok by reflexivity.
  change (ref_count (loaded no d) - 1 =? 0) with true. cbv iota. set (n0 := set_counts _ _ _). set (s1 := set_nodes (<[h := n0]> (nodes s)) s).
  assert (Hn1 : nodes s1 !! h = Some n0) by (cbn; by rewrite lookup_insert_eq).
  assert (E : sfs_reclaim h s1 = Ok (0, Dst (fs s) (delete h (nodes s)) (next_node s) (filter (fun k => k <> h) (inode_list s)) (mallocs s))); [|by step E].
  unfold sfs_reclaim. step (get_node_ok h _ s1 Hn1). rewrite (bind_Ok _ _ s1 tt s1) by done. unfold put_node at 1. erewrite bind_Ok by reflexivity.
  set (n1 := set_counts (reclaim_count n0 - 1) (ref_count n0) n0). set (s2 := set_nodes (<[h := n1]> (nodes s1)) s1).
  change (negb (reclaim_count n0 - 1 =? 0) || negb (ref_count n0 =? 0)) with false. cbv iota. change (nlinks (din (sin n0))) with (nlinks d).
  rewrite (proj2 (Z.eqb_neq _ _)) by done. rewrite (bind_Ok _ _ s2 0 s2) by done. change (0 =? 0) with true. cbn [negb].
  assert (Hn2 : nodes s2 !! h = Some n1) by (cbn; by rewrite lookup_insert_eq). step (get_node_ok h _ s2 Hn2). change (dirty (sin n1)) with false. cbv iota.
  rewrite (bind_Ok _ _ s2 0 s2) by done. change (0 =? 0) with true. cbn [negb]. unfold sfs_remove_links at 1. erewrite bind_Ok by reflexivity.
  set (s3 := set_inode_list _ s2). assert (Hn3 : nodes s3 !! h = Some n1) by done. step (get_node_ok h _ s3 Hn3).
  assert (E4 : reclaim_blocks (sin n1) s3 = Ok (tt, s3)) by (unfold reclaim_blocks; change (nlinks (din (sin n1))) with (nlinks d); by rewrite (proj2 (Z.eqb_neq _ _))). step E4.
  rewrite (bind_Ok _ _ s3 tt s3) by done. cbn. do 2 f_equal. unfold set_nodes. cbn. f_equal. by rewrite !delete_insert_eq.
Qed.

(** Looking a name up in a directory goes on to load the inode behind it. *)
Lemma lookup_name s h nd no d bl name slot n : fs_ok (fs s) -> mallocs s = [] -> nodes s !! h = Some nd -> locked nd = false -> sin nd = Sin d no false ->
  map_ok (fs s) (Sin d no false) bl -> type d = SFS_TYPE_DIR -> uniq (fs s) bl -> has (fs s) bl slot name n -> Z.of_nat (length name) <= 255 ->
  sfs_lookup_once h name s = sfs_load_inode n s.
Proof.
  intros H Hm Hnd Hlk Hsin Hmap Ht Huq Hhas Hlen. unfold sfs_lookup_once. step (lock_ok h nd s Hnd Hlk).
  assert (Hd : dir_at s h nd bl) by (constructor; [done|by rewrite Hsin|by rewrite Hsin]). pose proof (dir_at_locked s h nd bl true Hd) as Hd1. set (s1 := set_nodes _ s) in *.
  destruct (dirent_search_spec s1 h _ bl name H Hd1 Hm Hlen) as (r0 & no0 & slot0 & em & E & Hr). step E. cbn [fst snd].
  destruct Hr as [(-> & Hh0)|(_ & Hno & _)]; [|by apply Hno in Hhas]. assert (slot0 = slot) as -> by (exact (Huq _ _ _ _ _ Hh0 Hhas)).
  destruct (has_fun _ _ _ _ _ _ _ Hhas Hh0) as [_ <-]. step (unlock_locked h nd s Hnd Hlk). done.
Qed.

Lemma find_node_none no s : (forall k nd, k ∈ inode_list s -> nodes s !! k = Some nd -> ino (sin nd) <> no) -> find_node no s = None.
Proof.
  intros H. unfold find_node. destruct (list_find _ _) as [[i k]|] eqn:E; [|done]. exfalso. apply list_find_Some in E as (Hk & Hp & _).
  destruct (nodes s !! k) as [nd|] eqn:En; [|done]. apply Z.eqb_eq in Hp. apply (H k nd); [by eapply list_elem_of_lookup_2|done|done].
Qed.

(** ** Walking down *)
Section Walk.
Context (f : sfs) (Hf : fs_ok f) (d1 : sfs_disk_inode) (ti th : Z -> Z).

(** The root and inode [h] are loaded. *)
Definition conf (h : nat) (no : Z) (d : sfs_disk_inode) : dst := Dst f (<[h := loaded no d]> {[0%nat := loaded 1 d1]}) (S h) [h; 0%nat] [].

(** The inode of a shown file or directory. *)
Definition known (no : Z) (d : sfs_disk_inode) (t : host) : Prop :=
  inode_at f no d /\ match t with
    | HFile _ reads => type d = SFS_TYPE_FILE /\ exists cs bl, reads = Some <$> cs /\ file_ok f (Sin d no false) bl /\
        size d = Z.of_nat (length (mjoin cs)) /\ fbytes f bl 0 (size d) = mjoin cs
    | HDir _ es => type d = SFS_TYPE_DIR /\ exists bl, map_ok f (Sin d no false) bl /\ uniq f bl /\
        forall (j : nat) e, visible es !! j = Some e -> exists n, has f bl (2 + Z.of_nat j) e.1 n /\ n <> 1 /\ n <> no /\ shows f ti th n no e.2
    | _ => False
    end.

Lemma shows_known no p t : shows f ti th no p t -> match t with HLink _ _ | HOther => False | _ => True end -> exists d, known no d t.
Proof.
  intros Hs Ht. inversion Hs; subst; [| |]; try done.
  - eexists. split; [done|]. split; [done|]. by eexists _, _.
  - eexists. split; [done|]. split; [done|]. eexists. split; [done|]. split; [done|]. intros j e He.
    match goal with H : forall j e, visible _ !! j = Some e -> _ |- _ => destruct (H j e He) as (n & ? & ? & ? & _ & _ & ?) end. by exists n.
Qed.

Lemma known_used no d t : known no d t -> used f no /\ (type d = SFS_TYPE_DIR \/ type d = SFS_TYPE_FILE).
Proof.
  intros [_ Hk]. destruct t as [r l|r es|r l|]; try done.
  - destruct Hk as (Ht & cs & bl & _ & [Hm _] & _). split; [apply Hm; by left|by right].
  - destruct Hk as (Ht & bl & Hm & _). split; [apply Hm; by left|by left].
Qed.

(** A state at directory [h] from which the walk can go on: giving [h] back
    after loading a child leaves the root and the child. *)
Record here (s : dst) (h : nat) (no : Z) (d : sfs_disk_inode) : Prop := {
  he_fs : fs s = f;
  he_mallocs : mallocs s = [];
  he_next : next_node s <> 0%nat;
  he_node : exists nd, nodes s !! h = Some nd /\ locked nd = false /\ sin nd = Sin d no false;
  he_inos : forall k nd, k ∈ inode_list s -> nodes s !! k = Some nd -> ino (sin nd) = 1 \/ ino (sin nd) = no;
  he_drop : forall n dn, exists r, vop_ref_dec h (after_load n dn s) = Ok (r, conf (next_node s) n dn)
}.

Lemma here_conf h no d : h <> 0%nat -> nlinks d <> 0 -> here (conf h no d) h no d.
Proof.
  intros Hh Hl. constructor; try done.
  - exists (loaded no d). split; [cbn; by rewrite lookup_insert_eq|done].
  - intros k nd Hk Hn. cbn in Hk, Hn. destruct (decide (k = h)) as [->|]; [rewrite lookup_insert_eq in Hn; injection Hn as <-; by right|].
    rewrite lookup_insert_ne in Hn by done. apply lookup_singleton_Some in Hn as [_ <-]. by left.
  - intros n dn. eexists. rewrite (drop_clean h no d).
    + unfold conf, after_load. cbn [fs nodes next_node inode_list mallocs]. do 2 f_equal. f_equal.
      * apply map_eq. intros k. destruct (decide (k = h)) as [->|]; [rewrite lookup_delete_eq, lookup_insert_ne, lookup_singleton_ne by lia; done|].
        rewrite lookup_delete_ne by done. destruct (decide (k = S h)) as [->|]; [by rewrite !lookup_insert_eq|]. rewrite !lookup_insert_ne by done. done.
      * rewrite !filter_cons, decide_True, decide_False, decide_True by lia. done.
    + cbn. rewrite lookup_insert_ne, lookup_insert_eq by lia. done.
    + done.
Qed.

Definition root2 : dst := Dst f {[0%nat := set_counts 1 2 (loaded 1 d1)]} 1 [0%nat] [].
Lemma here_root : here root2 0%nat 1 d1.
Proof.
  constructor; try done.
  - exists (set_counts 1 2 (loaded 1 d1)). split; [apply lookup_singleton_eq|done].
  - intros k nd _ Hn. cbn [root2 nodes] in Hn. apply lookup_singleton_Some in Hn as [_ <-]. by left.
  - intros n dn. exists 1. unfold vop_ref_dec.
    assert (Hn : nodes (after_load n dn root2) !! 0%nat = Some (set_counts 1 2 (loaded 1 d1))) by (cbn; by rewrite lookup_insert_ne, lookup_singleton_eq by lia).
    step (get_node_ok 0%nat _ _ Hn). rewrite (bind_Ok _ _ _ tt (after_load n dn root2)) by done. cbn. unfold ret, conf, set_nodes. by cbn.
Qed.

Lemma path_down names : forall s h no d r es reads tail fuel, here s h no d -> known no d (HDir r es) -> nlinks d <> 0 ->
  find_at names (HDir r es) = Some reads -> Forall (fun a => a <> [] /\ 47 ∉ a /\ Z.of_nat (length a) <= 255) names -> (length names <= fuel)%nat ->
  exists k n dn rr, lookup_from fuel h (path_of names tail) s = Ok ((0, Some k), conf k n dn) /\ known n dn (HFile rr reads).
Proof.
  induction names as [|a names IH]; intros s h no d r es reads tail fuel Hh Hk Hl Hfind Hnames Hfuel; [done|].
  destruct fuel as [|fuel]; [simpl in Hfuel; lia|]. apply Forall_cons in Hnames as [(Ha & Ha47 & Hlen) Hnames]. cbn [find_at] in Hfind.
  destruct (list_find _ _) as [[j e]|] eqn:Ef; [|done]. apply list_find_Some in Ef as (Hj & He & _). apply bool_decide_eq_true_1 in He. subst a.
  destruct Hk as (Hino & Ht & bl & Hmap & Huq & Hkids). destruct (Hkids j e Hj) as (n & Hhas & Hn1 & Hnn & Hsh).
  assert (Hkind : match e.2 with HLink _ _ | HOther => False | _ => True end) by (destruct names as [|? ?], (e.2); done).
  destruct (shows_known n no e.2 Hsh Hkind) as (dn & Hkn). destruct (known_used n dn e.2 Hkn) as [Hu Htn]. destruct Hh as [Hfs Hm Hnx (nd & Hnd & Hlk & Hsin) Hinos Hdrop].
  assert (Hload : sfs_load_inode n s = Ok ((0, Some (next_node s)), after_load n dn s)).
  { apply load_new; rewrite ?Hfs; try done; [|apply Hkn]. apply find_node_none. intros k nk Hk Hnk. destruct (Hinos k nk Hk Hnk) as [-> | ->]; congruence. }
  assert (Honce : sfs_lookup_once h e.1 s = Ok ((0, Some (next_node s)), after_load n dn s)).
  { rewrite (lookup_name s h nd no d bl e.1 (2 + Z.of_nat j) n); rewrite ?Hfs; done. }
  cbn [lookup_from]. step (get_node_ok h nd s Hnd). rewrite Hsin. cbn [din]. rewrite Ht. change (SFS_TYPE_DIR =? SFS_TYPE_DIR) with true. cbn [negb].
  assert (Hfa : Forall (fun a => a <> [] /\ 47 ∉ a) names) by (eapply Forall_impl; [exact Hnames|]; naive_solver).
  rewrite subpath_of by done. cbv iota. step Honce. destruct (Hdrop n dn) as [rr Hdr]. step Hdr. destruct names as [|b names].
  - destruct (e.2) as [r2 l2| | |] eqn:E2; try done. cbn in Hfind. injection Hfind as ->. exists (next_node s), n, dn, r2. split; [done|exact Hkn].
  - destruct (e.2) as [|r2 es2| |] eqn:E2; try done. apply (IH (conf (next_node s) n dn) (next_node s) n dn r2 es2); try done.
    + apply here_conf; [done|apply Hkn].
    + apply Hkn.
    + simpl in *. lia.
Qed.
End Walk.

(** The kernel reads a file of the tree. *)
Lemma shown_read f ti th p r es names tail cs : fs_ok f -> shows f ti th 1 p (HDir r es) -> find_at names (HDir r es) = Some (Some <$> cs) ->
  names <> [] -> Forall (fun a => a <> [] /\ 47 ∉ a /\ Z.of_nat (length a) <= 255) names ->
  exists s0 s1 k no d, sfs_get_root (Dst f ∅ 0 [] []) = Ok (Some 0%nat, s0) /\ sfs_lookup 0 (path_of names tail) s0 = Ok ((0, Some k), s1) /\
    fs s1 = f /\ nodes s1 !! k = Some (loaded no d) /\ size d = Z.of_nat (length (mjoin cs)) /\
    forall iob, iob_ok iob -> io_offset iob = 0 -> size d <= io_resid iob < 2 ^ 31 ->
      sfs_read iob (Sin d no false) f = Ok (0, moved (size d) (poke (mjoin cs) iob), Sin d no false, f).
Proof.
  intros Hf Hs Hfind Hne Hnames. destruct (shows_known f ti th 1 p _ Hs I) as (d1 & Hk1). destruct (known_used f ti th 1 d1 _ Hk1) as [Hu1 Ht1].
  assert (Eroot : sfs_get_root (Dst f ∅ 0 [] []) = Ok (Some 0%nat, after_load 1 d1 (Dst f ∅ 0 [] []))).
  { unfold sfs_get_root. change SFS_BLKN_ROOT with 1. by erewrite bind_Ok by (apply load_new; try done; apply Hk1). }
  set (s0 := after_load 1 d1 (Dst f ∅ 0 [] [])) in *.
  destruct (path_down f Hf d1 ti th names (root2 f d1) 0%nat 1 d1 r es (Some <$> cs) tail (S (length (path_of names tail))) (here_root f d1 ti th) Hk1) as (k & no & d & rr & E & Hk); try done.
  { apply Hk1. }
  { pose proof (path_length names tail) as Hpl. assert (Forall (fun a => a <> [] /\ 47 ∉ a) names) as Hfa by (eapply Forall_impl; [exact Hnames|]; naive_solver). specialize (Hpl Hfa). lia. }
  destruct Hk as (Hino & Ht & cs' & bl & Hcs & Hfile & Hsz & Hbytes). assert (cs' = cs) as -> by (by apply (inj (fmap Some)) in Hcs).
  exists s0, (conf f d1 k no d), k, no, d. split; [done|]. split.
  { unfold sfs_lookup. destruct (path_head names tail Hne) as (ch & pl & Hp & Hch); [eapply Forall_impl; [exact Hnames|]; naive_solver|].
    rewrite (bind_Ok _ _ s0 tt s0) by (unfold path_check; rewrite Hp; unfold massert; by rewrite (proj2 (Z.eqb_neq _ _))).
    assert (Einc : vop_ref_inc 0 s0 = Ok (2, root2 f d1)).
    { unfold vop_ref_inc. assert (Hn0 : nodes s0 !! 0%nat = Some (loaded 1 d1)) by (cbn; by rewrite lookup_insert_eq). step (get_node_ok 0%nat _ s0 Hn0). done. }
    step Einc. exact E. }
  split; [done|]. split; [cbn; by rewrite lookup_insert_eq|]. split; [done|]. intros iob Hio Hoff Hres.
  pose proof (read_spec f (Sin d no false) bl iob Hf Hfile Hio) as Hr. cbv zeta in Hr. rewrite Hoff in Hr. cbn [din] in Hr. rewrite Z.sub_0_r in Hr.
  assert (0 <= size d) by apply Hfile. rewrite Z.min_r, Z.max_r in Hr by lia. rewrite Hr by (unfold SFS_MAX_FILE_SIZE; lia). by rewrite Hbytes.
Qed.

(** C2: end to end: every regular file below the home directory of the host
    that went into the image is found by the kernel under its path in the
    mounted image, and reading it gives exactly its bytes. *)
Theorem mksfs_files_readable F name st_size image junk r es n nb names tail cs :
  let first := 2 + (n + 32767) / 32768 in
  n = Z.min (u32 (st_size / 4096)) 524288 -> (4 < length name)%nat -> drop (length name - 4) name = [46; 105; 109; 103] -> length junk = 13%nat ->
  host_ok F (HDir r es) -> F 0 = None -> NoDup (0 :: others_all (visible es)) -> first + body es <= n -> body es <= 65535 -> n <= nb ->
  find_at names (HDir r es) = Some (Some <$> cs) -> Forall (fun a => a <> [] /\ 47 ∉ a /\ Z.of_nat (length a) <= 255) names ->
  exists m f s0 s1 k no d, mksfs name st_size image junk [] (HDir r es) = Done m /\
    sfs_do_mount (Dev nb SFS_BLKSIZE m [] []) = Ok (0, Some f, Dev nb SFS_BLKSIZE m [] []) /\
    sfs_get_root (Dst f ∅ 0 [] []) = Ok (Some 0%nat, s0) /\ sfs_lookup 0 (path_of names tail) s0 = Ok ((0, Some k), s1) /\
    fs s1 = f /\ nodes s1 !! k = Some (loaded no d) /\ size d = Z.of_nat (length (mjoin cs)) /\
    forall iob, iob_ok iob -> io_offset iob = 0 -> size d <= io_resid iob < 2 ^ 31 ->
      sfs_read iob (Sin d no false) f = Ok (0, moved (size d) (poke (mjoin cs) iob), Sin d no false, f).
Proof.
  intros first En Hn1 Hn2 Hj Hok HF Hnd Hfit Hb Hnb Hfind Hnames. assert (Hne : names <> []) by (by destruct names).
  destruct (mksfs_spec F name st_size image junk r es n nb En Hn1 Hn2 Hj Hok HF Hnd Hfit Hb Hnb) as (m & f & ti & th & E1 & E2 & Hf & _ & _ & Hs).
  destruct (shown_read f ti th 1 r es names tail cs Hf Hs Hfind Hne Hnames) as (s0 & s1 & k & no & d & H). by exists m, f, s0, s1, k, no, d.
Qed.

(** The file "d/a" of the example. *)
Lemma mksfs_files_readable_witness :
  exists m f s0 s1 k no d, mksfs [97; 46; 105; 109; 103] 163840 ∅ (replicate 13 5) [] (HDir 7 home) = Done m /\
    sfs_do_mount (Dev 40 SFS_BLKSIZE m [] []) = Ok (0, Some f, Dev 40 SFS_BLKSIZE m [] []) /\
    sfs_get_root (Dst f ∅ 0 [] []) = Ok (Some 0%nat, s0) /\ sfs_lookup 0 (path_of [[100]; [97]] false) s0 = Ok ((0, Some k), s1) /\
    fs s1 = f /\ nodes s1 !! k = Some (loaded no d) /\ size d = 3 /\
    forall iob, iob_ok iob -> io_offset iob = 0 -> size d <= io_resid iob < 2 ^ 31 ->
      sfs_read iob (Sin d no false) f = Ok (0, moved (size d) (poke [1; 2; 3] iob), Sin d no false, f).
Proof.
  apply (mksfs_files_readable home_files [97; 46; 105; 109; 103] 163840 ∅ (replicate 13 5) 7 home 40 40 [[100]; [97]] false [[1; 2; 3]]);
    [reflexivity|simpl; lia|reflexivity|reflexivity|exact home_ok|reflexivity| | | |lia|reflexivity|].
  - refine (proj1 (bool_decide_eq_true _) _). vm_compute. reflexivity.
  - vm_compute. discriminate.
  - vm_compute. discriminate.
  - refine (proj1 (bool_decide_eq_true _) _). vm_compute. reflexivity.
Defined.

(** A symbolic link of the host becomes an inode that the kernel cannot load. *)
Lemma link_panics no d s : fs_ok (fs s) -> mallocs s = [] -> find_node no s = None -> used (fs s) no -> inode_at (fs s) no d -> type d = SFS_TYPE_LINK ->
  sfs_load_inode no s = Panic.
Proof.
  intros H Hm Hf Hu [Hd Hl] Ht. unfold sfs_load_inode.
  assert (E : lookup_sfs_nolock no s = Ok (None, s)) by (unfold lookup_sfs_nolock; by rewrite Hf). step E.
  assert (Ek : kmalloc s = Ok (true, s)) by (unfold kmalloc; by rewrite Hm). step Ek.
  step (ask_fs_ok (fun f => assert_inuse f no) s tt (assert_inuse_ok _ _ H Hu)). pose proof (used_pos _ _ H Hu).
  assert (E2 : on_fs (fun f => sfs_rbuf 64 no 0 f) s = Ok ((0, slice (block (fs s) no) 0 64), s)).
  { rewrite (on_fs_ok _ s (0, slice (block (fs s) no) 0 64) (fs s)), set_fs_id; [done|]. rewrite rbuf_ok; [done|apply H|done|unfold SFS_BLKSIZE; lia..]. }
  step E2. change (0 =? 0) with true. cbn [negb]. rewrite Hd. rewrite (bind_Ok _ _ s tt s) by (unfold massert; by rewrite (proj2 (Z.eqb_neq _ _))).
  unfold bind at 1, sfs_create_inode. unfold bind at 1. rewrite Ek. cbn [negb]. unfold sfs_get_ops. by rewrite Ht.
Qed.
