(* ===== verification/Shell.v ===== *)
(** * user/sh.c: the shell

    Tokens of a command line, reading of lines and the commands they start.
    System calls are recorded in [calls] with the strings their arguments
    point to; their results come from [answers] in order (0 when used up).
    A string is the bytes up to the first zero byte; the memory of the line
    is changed in place, as the code does.  What is printed is not modelled,
    apart from the echo of [readline]. *)
From S2P Require Import Prelude.

Definition WHITESPACE : list Z := [32; 9; 13; 10].
Definition SYMBOLS : list Z := [60; 124; 62; 38; 59].
Definition EXEC_MAX_ARG_NUM : Z := 32.
Definition BUFSIZE : Z := 4096.
Definition O_RDONLY : Z := 0.
Definition O_RDWR : Z := 2.
Definition O_CREAT : Z := 4.
Definition O_TRUNC : Z := 16.
Definition E_NOENT : Z := 16.

(** [strchr(s, c) != NULL] *)
Definition in_set (s : list Z) (c : Z) : bool := existsb (fun x => x =? c) s.

(** The string at position [i]. *)
Fixpoint cstr (l : list Z) : list Z := match l with [] => [] | c :: l => if c =? 0 then [] else c :: cstr l end.
Definition str_at (mem : list Z) (i : nat) : list Z := cstr (drop i mem).

(** ** Tokens *)

(** [while (strchr(WHITESPACE, *s) != NULL) *s ++ = '\0'] *)
Fixpoint blank (l : list Z) : list Z * list Z :=
  match l with
  | c :: l' => if in_set WHITESPACE c then let '(z, r) := blank l' in (0 :: z, r) else ([], l)
  | [] => ([], [])
  end.

(** The loop over a word; a quote becomes a blank and turns [flag]. *)
Fixpoint word (flag : bool) (l : list Z) : list Z * list Z :=
  match l with
  | c :: l' =>
      if negb (c =? 0) && (flag || negb (in_set (WHITESPACE ++ SYMBOLS) c)) then
        let '(w, r) := if c =? 34 then word (negb flag) l' else word flag l' in ((if c =? 34 then 32 else c) :: w, r)
      else ([], l)
  | [] => ([], [])
  end.

(** [*p1 = ( *s != '\0' ? s : NULL)] *)
Definition go_on (s : nat) (r : list Z) : option nat := match r with [] => None | c :: _ => if c =? 0 then None else Some s end.

(** The token, the new [*p2] when it is set, the new [*p1] and the memory. *)
Definition gettoken (p1 : option nat) (mem : list Z) : Z * option nat * option nat * list Z :=
  match p1 with
  | None => (0, None, None, mem)
  | Some i =>
      let '(z, r) := blank (drop i mem) in
      let s := (i + length z)%nat in
      let pre := take i mem ++ z in
      match r with
      | [] => (0, None, Some i, pre ++ r)
      | c :: r' =>
          if c =? 0 then (0, None, Some i, pre ++ r)
          else if in_set SYMBOLS c then (c, Some s, go_on (S s) r', pre ++ 0 :: r')
          else let '(w, r'') := word false r in (119, Some s, go_on (s + length w) r'', pre ++ w ++ r'')
      end
  end.

(** ** Reading a line: what the calls of [read] give ([RChar c]: the value of
    the [char], which is signed) *)
Inductive rd := RErr | REof | RChar (c : Z).

(** [buffer], kept between calls, and [i]; whether a line was read, the
    buffer, the echo and what is left of the input.  [Spin]: the input is used
    up and the call waits. *)
Fixpoint readline_loop (buffer : list Z) (i : nat) (input : list rd) : res (bool * list Z * list Z * list rd) :=
  match input with
  | [] => Spin
  | RErr :: input => Ok (false, buffer, [], input)
  | REof :: input => Ok (if (0 <? i)%nat then (true, <[i := 0]> buffer, [], input) else (false, buffer, [], input))
  | RChar c :: input =>
      if c =? 3 then Ok (false, buffer, [], input)
      else if (32 <=? c) && (Z.of_nat i <? BUFSIZE - 1) then
        '(r, buffer, echo, rest) ← readline_loop (<[i := c]> buffer) (S i) input; Ok (r, buffer, c :: echo, rest)
      else if (c =? 8) && (0 <? i)%nat then
        '(r, buffer, echo, rest) ← readline_loop buffer (i - 1) input; Ok (r, buffer, c :: echo, rest)
      else if (c =? 10) || (c =? 13) then Ok (true, <[i := 0]> buffer, [c], input)
      else readline_loop buffer i input
  end.
Definition readline (buffer : list Z) (input : list rd) := readline_loop buffer 0 input.

(** ** System calls *)
Inductive call :=
| COpen (path : list Z) (flags : Z) | CClose (fd : Z) | CDup2 (fd1 fd2 : Z) | CFork | CWait (pid : Z)
| CExec (path : list Z) (argv : list (list Z)) | CChdir (path : list Z) | CGetcwd | CExit (code : Z).
Record shst := Sh { answers : list Z; calls : list call }.
Definition P (A : Type) : Type := shst -> res (A * shst).
Definition pret {A} (a : A) : P A := fun s => Ok (a, s).
Definition pbind {A B} (m : P A) (f : A -> P B) : P B := fun s => '(a, s) ← m s; f a s.
Declare Scope sh_scope.
Delimit Scope sh_scope with sh.
Notation "x <- m ; k" := (pbind m (fun x => k)) (at level 20, m at level 100, k at level 200, right associativity) : sh_scope.
Notation "' p <- m ; k" := (pbind m (fun x => let p := x in k)) (at level 20, p pattern, m at level 100, k at level 200, right associativity) : sh_scope.
#[local] Open Scope sh_scope.
Definition ask (c : call) : P Z := fun s =>
  match answers s with [] => Ok (0, Sh [] (calls s ++ [c])) | a :: l => Ok (a, Sh l (calls s ++ [c])) end.

Definition reopen (fd2 : Z) (filename : list Z) (open_flags : Z) : P Z :=
  _ <- ask (CClose fd2);
  ret <- ask (COpen filename open_flags);
  ret <- (if (0 <=? ret) && negb (ret =? fd2) then
            _ <- ask (CClose fd2); r <- ask (CDup2 ret fd2); _ <- ask (CClose ret); pret r
          else pret ret);
  pret (if ret <? 0 then ret else 0).

Definition testfile (name : list Z) : P Z :=
  ret <- ask (COpen name O_RDONLY);
  if ret <? 0 then pret ret else _ <- ask (CClose ret); pret 0.

Definition cd_name : list Z := [99; 100].

(** The label [runit]. *)
Definition runit (argv : list nat) (mem : list Z) : P Z :=
  match argv with
  | [] => pret 0
  | a0 :: rest =>
      if bool_decide (str_at mem a0 = cd_name) then pret (if (length argv =? 2)%nat then 0 else -1)
      else
        ret <- testfile (str_at mem a0);
        if negb (ret =? 0) && negb (ret =? - E_NOENT) then pret ret
        else
          let name := if ret =? 0 then str_at mem a0 else take 4095 (47 :: str_at mem a0) in
          ask (CExec name (name :: (str_at mem <$> rest)))
  end.

(** The loop of [runcmd]; [p0], [p1]: the pipe [p], which the code never makes,
    so that its two numbers are arbitrary. *)
Fixpoint runcmd_loop (p0 p1 : Z) (fuel : nat) (argv : list nat) (cmd : option nat) (mem : list Z) : P Z :=
  match fuel with
  | O => fun _ => Spin
  | S fuel =>
      let '(token, t, cmd, mem) := gettoken cmd mem in
      if token =? 119 then
        if Z.of_nat (length argv) =? EXEC_MAX_ARG_NUM then pret (-1)
        else runcmd_loop p0 p1 fuel (argv ++ option_list t) cmd mem
      else if (token =? 60) || (token =? 62) then
        let '(token2, t, cmd, mem) := gettoken cmd mem in
        if negb (token2 =? 119) then pret (-1)
        else
          let name := match t with Some t => str_at mem t | None => [] end in
          ret <- (if token =? 60 then reopen 0 name O_RDONLY else reopen 1 name (Z.lor (Z.lor O_RDWR O_TRUNC) O_CREAT));
          if negb (ret =? 0) then pret ret else runcmd_loop p0 p1 fuel argv cmd mem
      else if token =? 124 then
        ret <- ask CFork;
        if ret =? 0 then
          _ <- ask (CClose 0);
          ret <- ask (CDup2 p0 0);
          if ret <? 0 then pret ret
          else _ <- ask (CClose p0); _ <- ask (CClose p1); runcmd_loop p0 p1 fuel [] cmd mem
        else if ret <? 0 then pret ret
        else
          _ <- ask (CClose 1);
          ret <- ask (CDup2 p1 1);
          if ret <? 0 then pret ret
          else _ <- ask (CClose p0); _ <- ask (CClose p1); runit argv mem
      else if token =? 0 then runit argv mem
      else if token =? 59 then
        ret <- ask CFork;
        if ret =? 0 then runit argv mem
        else if ret <? 0 then pret ret
        else _ <- ask (CWait ret); runcmd_loop p0 p1 fuel [] cmd mem
      else pret (-1)
  end.
(** Each round of the loop takes at least one byte of the string. *)
Definition runcmd (p0 p1 : Z) (cmd : list Z) : P Z := runcmd_loop p0 p1 (S (length cmd)) [] (Some 0%nat) cmd.

(** The scan of [in_backgroud] down from position [i] (its zero byte, for the
    first round): the position of the ampersand it stops at. *)
Fixpoint background_scan (buffer : list Z) (i : nat) : option nat :=
  let c := nth i buffer 0 in
  if c =? 38 then Some i else if c =? 32 then None else match i with O => None | S i => background_scan buffer i end.
(** Whether the line is to run in the background, and the buffer. *)
Definition in_backgroud (buffer : list Z) : bool * list Z :=
  match background_scan buffer (length (str_at buffer 0)) with Some i => (true, <[i := 0]> buffer) | None => (false, buffer) end.

(** One line of the loop of [main]; [None]: go on with the next line. *)
Definition sh_line (p0 p1 : Z) (buffer : list Z) : P (option Z) :=
  let '(bg, buffer) := in_backgroud buffer in
  if nth 0 buffer 0 =? 0 then pret None
  else if (nth 0 buffer 0 =? 99) && (nth 1 buffer 0 =? 100) then
    _ <- ask (CChdir (str_at buffer 3));
    ret <- ask CGetcwd;
    pret (if negb (ret =? 0) then Some ret else None)
  else
    pid <- ask CFork;
    if pid =? 0 then ret <- runcmd p0 p1 buffer; _ <- ask (CExit ret); pret (Some ret)
    else
      _ <- (fun s => _ ← kassert (0 <=? pid); Ok (tt, s));
      if bg then pret None else _ <- ask (CWait pid); pret None.

(** The loop of [main]; each round takes at least one entry of the input. *)
Fixpoint sh_loop (p0 p1 : Z) (fuel : nat) (buffer : list Z) (input : list rd) : P Z :=
  match fuel with
  | O => fun _ => Spin
  | S fuel =>
      '(more, buffer, _, input) <- (fun s => r ← readline buffer input; Ok (r, s));
      if negb more then pret 0
      else
        r <- sh_line p0 p1 buffer;
        match r with Some ret => pret ret | None => sh_loop p0 p1 fuel (in_backgroud buffer).2 input end
  end.

(** [main], with the arguments after the program's name; the static buffer
    starts with zero bytes. *)
Definition sh_main (p0 p1 : Z) (args : list (list Z)) (input : list rd) : P Z :=
  if (1 <? length args)%nat then pret (-1)
  else
    ret <- match args with a :: _ => reopen 0 a O_RDONLY | [] => pret 0 end;
    if negb (ret =? 0) then pret ret
    else
      ret <- ask CGetcwd;
      if negb (ret =? 0) then pret ret else sh_loop p0 p1 (length input) (replicate (Z.to_nat BUFSIZE) 0) input.

(** * The shell and its tokens *)

(** ** Specification: tokens of a line, read character by character *)
Inductive tok := TWord (w : list Z) | TSym (c : Z).
Definition flush (w : list Z) : list tok := match w with [] => [] | _ => [TWord w] end.
Fixpoint lex (w l : list Z) : list tok :=
  match l with
  | [] => flush w
  | c :: l =>
      if in_set WHITESPACE c then flush w ++ lex [] l
      else if in_set SYMBOLS c then flush w ++ TSym c :: lex [] l
      else lex (w ++ [c]) l
  end.

(** ** Specification: what a list of tokens does, call by call *)

(** The program is tried under its own name and, if there is no such file,
    in the root directory. *)
Definition run_words (ws : list (list Z)) : P Z :=
  match ws with
  | [] => pret 0
  | w :: rest =>
      if bool_decide (w = cd_name) then pret (if (length ws =? 2)%nat then 0 else -1)
      else
        fd <- ask (COpen w 0);
        if 0 <=? fd then _ <- ask (CClose fd); ask (CExec w (w :: rest))
        else if fd =? - E_NOENT then let path := take 4095 (47 :: w) in ask (CExec path (path :: rest))
        else pret fd
  end.

(** [fd] becomes the file [name]; [k] follows when it does. *)
Definition redirect (fd : Z) (name : list Z) (flags : Z) (k : P Z) : P Z :=
  _ <- ask (CClose fd);
  n <- ask (COpen name flags);
  if n <? 0 then pret n
  else if n =? fd then k
  else
    _ <- ask (CClose fd);
    m <- ask (CDup2 n fd);
    _ <- ask (CClose n);
    if m <? 0 then pret m else k.

Fixpoint run_toks (ws : list (list Z)) (ts : list tok) : P Z :=
  match ts with
  | [] => run_words ws
  | TWord w :: ts => if Z.of_nat (length ws) =? EXEC_MAX_ARG_NUM then pret (-1) else run_toks (ws ++ [w]) ts
  | TSym c :: ts =>
      if c =? 60 then match ts with TWord name :: ts => redirect 0 name 0 (run_toks ws ts) | _ => pret (-1) end
      else if c =? 62 then match ts with TWord name :: ts => redirect 1 name (2 + 16 + 4) (run_toks ws ts) | _ => pret (-1) end
      else if c =? 59 then
        pid <- ask CFork;
        if pid =? 0 then run_words ws
        else if pid <? 0 then pret pid
        else _ <- ask (CWait pid); run_toks [] ts
      else pret (-1)
  end.

(** No bar (the shell makes no pipe for it), and a redirection only at the
    end of the line, without a blank after it ([trim]): the name is not yet
    terminated when [reopen] reads it. *)
Fixpoint redir_last (trim : bool) (ts : list tok) : bool :=
  match ts with
  | [] => true
  | TWord _ :: ts => redir_last trim ts
  | TSym c :: ts =>
      if (c =? 60) || (c =? 62) then match ts with TWord _ :: ts => trim && match ts with [] => true | _ => false end | _ => true end
      else negb (c =? 124) && redir_last trim ts
  end.
Definition trimmed (l : list Z) : bool := match last l with Some c => negb (in_set WHITESPACE c) | None => true end.

Definition blankc (c : Z) : Prop := in_set WHITESPACE c = true.
Definition plainc (c : Z) : Prop := in_set (WHITESPACE ++ SYMBOLS) c = false.
Definition clean (l : list Z) : Prop := Forall (fun c => c <> 0 /\ c <> 34) l.
(** [l] is at its end or at a byte that ends a word. *)
Definition at_sep (l : list Z) : Prop := match l with [] => True | c :: _ => in_set (WHITESPACE ++ SYMBOLS) c = true end.

Lemma in_set_app a b c : in_set (a ++ b) c = in_set a c || in_set b c.
Proof. apply existsb_app. Qed.

(** ** One token *)
Lemma blank_spec l post : exists b r, l = b ++ r /\ Forall blankc b /\ match r with [] => True | c :: _ => ~ blankc c end /\
  blank (l ++ 0 :: post) = (replicate (length b) 0, r ++ 0 :: post).
Proof.
  induction l as [|c l (b & r & -> & Hb & Hr & IH)].
  - by exists [], [].
  - destruct (in_set WHITESPACE c) eqn:Hc.
    + exists (c :: b), r. split_and!; [done|by constructor|done|]. simpl app. cbn [blank]. by rewrite Hc, IH.
    + exists [], (c :: b ++ r). split_and!; [done|done|by unfold blankc; rewrite Hc|]. simpl app. cbn [blank]. by rewrite Hc.
Qed.

Lemma word_spec l post : clean l -> exists w r, l = w ++ r /\ Forall plainc w /\ at_sep r /\
  word false (l ++ 0 :: post) = (w, r ++ 0 :: post).
Proof.
  induction 1 as [|c l [H0 Hq] _ (w & r & -> & Hw & Hr & IH)].
  - by exists [], [].
  - destruct (in_set (WHITESPACE ++ SYMBOLS) c) eqn:Hc.
    + exists [], (c :: w ++ r). split_and!; [done|done|done|]. simpl app. cbn [word]. by rewrite Hc, Bool.andb_false_r.
    + exists (c :: w), r. split_and!; [done|by constructor|done|]. simpl app. cbn [word].
      rewrite Hc, (proj2 (Z.eqb_neq _ _) H0), (proj2 (Z.eqb_neq _ _) Hq), IH. done.
Qed.

Lemma lex_blanks b l : Forall blankc b -> lex [] (b ++ l) = lex [] l.
Proof. induction 1 as [|c b Hc _ IH]; [done|]. simpl app. cbn [lex flush]. by rewrite Hc. Qed.
Lemma lex_word w l : Forall plainc w -> at_sep l -> forall cur, cur ++ w <> [] -> lex cur (w ++ l) = TWord (cur ++ w) :: lex [] l.
Proof.
  intros Hw Hl; induction Hw as [|c w Hc Hw IH]; intros cur Hne.
  - rewrite app_nil_r in Hne |- *. destruct cur as [|x cur]; [done|]. simpl app. destruct l as [|c l]; [done|]. cbn [lex flush].
    cbn [at_sep] in Hl. rewrite in_set_app in Hl.
    destruct (in_set WHITESPACE c); [done|]. rewrite Bool.orb_false_l in Hl. by rewrite Hl.
  - simpl app. cbn [lex]. unfold plainc in Hc. rewrite in_set_app in Hc. apply Bool.orb_false_iff in Hc as [-> ->].
    rewrite IH; [by rewrite <- app_assoc|by destruct cur].
Qed.

(** The result of [gettoken] on [l], with [pre] before it: nothing is left, or
    a symbol, or a word. *)
Inductive token_at (pre l post : list Z) : Z * option nat * option nat * list Z -> Prop :=
| token_end z : lex [] l = [] -> Forall (eq 0) z -> token_at pre l post (0, None, Some (length pre), (pre ++ z) ++ 0 :: post)
| token_sym b c l' t n : l = b ++ c :: l' -> Forall (fun x => x = 0) t -> length t = length b -> lex [] l = TSym c :: lex [] l' ->
    c <> 0 -> c <> 119 -> n = match l' with [] => None | _ => Some (length (pre ++ t ++ [0])) end ->
    token_at pre l post (c, Some (length (pre ++ t)), n, (pre ++ t ++ [0]) ++ l' ++ 0 :: post)
| token_word b w l' t n : l = b ++ w ++ l' -> Forall (fun x => x = 0) t -> length t = length b -> lex [] l = TWord w :: lex [] l' ->
    w <> [] -> Forall plainc w -> at_sep l' -> n = match l' with [] => None | _ => Some (length (pre ++ t ++ w)) end ->
    token_at pre l post (119, Some (length (pre ++ t)), n, (pre ++ t ++ w) ++ l' ++ 0 :: post).

Lemma go_on_spec n l post : clean l -> go_on n (l ++ 0 :: post) = match l with [] => None | _ => Some n end.
Proof. destruct 1 as [|c l [H0 _] _]; [done|]. simpl. by rewrite (proj2 (Z.eqb_neq _ _) H0). Qed.

Lemma gettoken_spec pre l post : clean l -> token_at pre l post (gettoken (Some (length pre)) (pre ++ l ++ 0 :: post)).
Proof.
  intros Hl. unfold gettoken. rewrite drop_app_length, take_app_length.
  destruct (blank_spec l post) as (b & r & -> & Hb & Hr & ->). apply Forall_app in Hl as [_ Hl].
  assert (Hz : Forall (fun x => x = 0) (replicate (length b) 0)) by (apply Forall_replicate; done).
  rewrite length_replicate.
  assert (Ex : lex [] (b ++ r) = lex [] r) by (by apply lex_blanks).
  destruct r as [|c r].
  { simpl. apply token_end; [by rewrite Ex|]. by eapply Forall_impl; [apply Hz|]. }
  pose proof Hl as Hl'. apply Forall_cons in Hl' as [[H0 Hq] Hcl]. simpl app. cbv iota. rewrite (proj2 (Z.eqb_neq _ _) H0).
  unfold blankc in Hr. apply Bool.not_true_is_false in Hr.
  destruct (in_set SYMBOLS c) eqn:Hs.
  - rewrite go_on_spec by done. rewrite <- app_assoc.
    assert (H119 : c <> 119) by (intros ->; done).
    replace (pre ++ replicate (length b) 0 ++ 0 :: r ++ 0 :: post) with ((pre ++ replicate (length b) 0 ++ [0]) ++ r ++ 0 :: post)
      by (by rewrite <- !app_assoc).
    replace (length pre + length b)%nat with (length (pre ++ replicate (length b) 0)) by (rewrite length_app, length_replicate; done).
    eapply token_sym with (b := b); try done; [by rewrite length_replicate| |].
    + rewrite Ex. cbn [lex flush app]. by rewrite Hr, Hs.
    + rewrite app_assoc, (length_app _ [0]), Nat.add_1_r. done.
  - destruct (word_spec (c :: r) post Hl) as (w & r' & E & Hw & Hsep & Ew). change (c :: r ++ 0 :: post) with ((c :: r) ++ 0 :: post).
    rewrite Ew. rewrite E in Hl, Ex |- *. apply Forall_app in Hl as [_ Hl]. rewrite go_on_spec by done.
    assert (Hne : w <> []).
    { intros ->. simpl in E. subst r'. cbn [at_sep] in Hsep. by rewrite in_set_app, Hr, Hs in Hsep. }
    replace ((pre ++ replicate (length b) 0) ++ w ++ r' ++ 0 :: post) with ((pre ++ replicate (length b) 0 ++ w) ++ r' ++ 0 :: post)
      by (by rewrite <- !app_assoc).
    replace (length pre + length b)%nat with (length (pre ++ replicate (length b) 0)) by (rewrite length_app, length_replicate; done).
    eapply token_word with (b := b); try done; [by rewrite length_replicate| |].
    + rewrite Ex. by apply (lex_word w r' Hw Hsep []).
    + by rewrite app_assoc, (length_app _ w).
Qed.

(** ** The words a command holds *)

(** The word at [a] lies in [pre] and is terminated there or by the next byte. *)
Definition held (pre : list Z) (a : nat) (w : list Z) : Prop :=
  (a <= length pre)%nat /\ Forall (fun c => c <> 0) w /\ exists k, drop a pre = w ++ k /\ match k with [] => True | c :: _ => c = 0 end.

Lemma cstr_word w k : Forall (fun c => c <> 0) w -> cstr (w ++ 0 :: k) = w.
Proof. induction 1 as [|c w H _ IH]; [done|]. simpl. by rewrite (proj2 (Z.eqb_neq _ _) H), IH. Qed.
Lemma held_str pre a w q : held pre a w -> str_at (pre ++ 0 :: q) a = w.
Proof.
  intros (Ha & Hw & k & E & Hk). unfold str_at. rewrite drop_app_le, E by done. rewrite <- app_assoc.
  destruct k as [|c k]; [by apply cstr_word|]. subst c. by apply cstr_word.
Qed.
Lemma held_more pre a w q : held pre a w -> held (pre ++ 0 :: q) a w.
Proof.
  intros (Ha & Hw & k & E & Hk). split_and!; [rewrite length_app; lia|done|]. rewrite drop_app_le, E by done.
  exists (k ++ 0 :: q). split; [by rewrite <- app_assoc|]. by destruct k.
Qed.
Lemma clean_word b w l : clean (b ++ w ++ l) -> Forall (fun c => c <> 0) w /\ clean l.
Proof.
  intros H. apply Forall_app in H as [_ H]. apply Forall_app in H as [H Hl]. split; [|done].
  by eapply Forall_impl; [apply H|]; intros c [? _].
Qed.
Lemma held_new pre w : Forall (fun c => c <> 0) w -> held (pre ++ w) (length pre) w.
Proof. intros Hw. split_and!; [rewrite length_app; lia|done|]. exists []. by rewrite drop_app_length, app_nil_r. Qed.

Lemma zeros_cons t (q : list Z) : Forall (fun x => x = 0) t -> exists q', t ++ 0 :: q = 0 :: q'.
Proof. destruct 1 as [|x t -> _]; simpl; eauto. Qed.

Lemma ask_eq c s : ask c s = Ok (default 0 (head (answers s)), Sh (tail (answers s)) (calls s ++ [c])).
Proof. unfold ask. by destruct (answers s). Qed.

Lemma reopen_redirect fd name flags (k : P Z) s :
  (ret <- reopen fd name flags; if negb (ret =? 0) then pret ret else k) s = redirect fd name flags k s.
Proof.
  unfold reopen, redirect, pbind. rewrite !ask_eq, !res_bind_ok. cbn [answers calls]. rewrite !ask_eq, !res_bind_ok. cbn [answers calls].
  set (n := default 0 _). destruct (Z.ltb_spec n 0); cbv beta iota.
  { rewrite (proj2 (Z.leb_gt _ _)) by lia. cbn [andb]. unfold pret. rewrite !res_bind_ok. rewrite (proj2 (Z.ltb_lt n 0)) by lia.
    by rewrite (proj2 (Z.eqb_neq n 0)) by lia. }
  rewrite (proj2 (Z.leb_le _ _)) by lia. cbn [andb]. destruct (Z.eqb_spec n fd); cbn [negb]; cbv beta iota.
  { unfold pret. rewrite !res_bind_ok. by rewrite (proj2 (Z.ltb_ge n 0)) by lia. }
  rewrite !ask_eq, !res_bind_ok. cbn [answers calls]. rewrite !ask_eq, !res_bind_ok. cbn [answers calls].
  rewrite !ask_eq, !res_bind_ok. cbn [answers calls]. unfold pret. rewrite !res_bind_ok. set (m := default 0 _).
  destruct (Z.ltb_spec m 0); [|done]. by rewrite (proj2 (Z.eqb_neq m 0)) by lia.
Qed.

Lemma testfile_words w rest s :
  (ret <- testfile w;
   if negb (ret =? 0) && negb (ret =? - E_NOENT) then pret ret
   else let name := if ret =? 0 then w else take 4095 (47 :: w) in ask (CExec name (name :: rest))) s =
  (fd <- ask (COpen w 0);
   if 0 <=? fd then _ <- ask (CClose fd); ask (CExec w (w :: rest))
   else if fd =? - E_NOENT then let path := take 4095 (47 :: w) in ask (CExec path (path :: rest))
   else pret fd) s.
Proof.
  unfold testfile, pbind. rewrite !ask_eq, !res_bind_ok. set (n := default 0 _). cbv beta iota.
  destruct (Z.ltb_spec n 0).
  - rewrite (proj2 (Z.leb_gt _ _)) by lia. unfold pret. rewrite !res_bind_ok. rewrite (proj2 (Z.eqb_neq n 0)) by lia. cbn [negb andb].
    destruct (n =? - E_NOENT); reflexivity.
  - rewrite (proj2 (Z.leb_le _ _)) by lia. rewrite ask_eq, !res_bind_ok. unfold pret. rewrite !res_bind_ok. rewrite Z.eqb_refl. cbn [negb andb]. cbv zeta iota. by rewrite (ask_eq (CClose n)), res_bind_ok.
Qed.

Lemma runit_spec pre q argv ws s : Forall2 (held pre) argv ws -> runit argv (pre ++ 0 :: q) s = run_words ws s.
Proof.
  intros H. assert (E : str_at (pre ++ 0 :: q) <$> argv = ws).
  { induction H as [|a w argv ws Ha _ IH]; [done|]. rewrite fmap_cons, IH. f_equal. by apply held_str. }
  destruct H as [|a w argv ws Ha H]; [done|]. rewrite fmap_cons in E. injection E as E1 E2.
  unfold runit, run_words. rewrite E1, E2. apply Forall2_length in H. cbn [length]. rewrite H.
  destruct (bool_decide _); [done|]. apply testfile_words.
Qed.

Lemma pbind_ext {A B} (m : P A) (f g : A -> P B) s : (forall a s, f a s = g a s) -> pbind m f s = pbind m g s.
Proof. intros E. unfold pbind. by destruct (m s) as [[a s']| |]; simpl. Qed.

Lemma lex_nil l : lex [] l = [] -> Forall blankc l.
Proof.
  induction l as [|c l IH]; [done|]. cbn [lex flush app]. destruct (in_set WHITESPACE c) eqn:Hc; [by constructor; auto|].
  destruct (in_set SYMBOLS c); [done|]. intros H; exfalso. revert H. generalize c. clear. intros c.
  assert (G : forall l w, w <> [] -> lex w l <> []); [|by apply G].
  clear. induction l as [|x l IH]; intros w Hw; cbn [lex]; [by destruct w|].
  destruct (in_set WHITESPACE x); [by destruct w|]. destruct (in_set SYMBOLS x); [by destruct w|]. apply IH. by destruct w.
Qed.
Lemma trimmed_suffix a l : l <> [] -> trimmed (a ++ l) = trimmed l.
Proof. intros H. unfold trimmed. rewrite last_app. destruct (last l) eqn:E; [done|]. by apply last_None in E. Qed.
Lemma trimmed_tail a l : trimmed (a ++ l) = true -> trimmed l = true.
Proof. destruct l; [done|]. by rewrite trimmed_suffix. Qed.
Lemma trimmed_end l : trimmed l = true -> lex [] l = [] -> l = [].
Proof.
  intros Ht Hl. apply lex_nil in Hl. destruct l as [|x l _] using rev_ind; [done|]. apply Forall_app in Hl as [_ Hl].
  apply Forall_cons in Hl as [Hl _]. unfold trimmed in Ht. rewrite last_snoc in Ht. by rewrite Hl in Ht.
Qed.

(** ** [runcmd] is the interpreter of tokens *)

Definition at_cmd (pre l : list Z) (cmd : option nat) : Prop := cmd = Some (length pre) \/ cmd = None /\ l = [].
Lemma at_cmd_next pre l n : n = match l with [] => None | _ => Some (length pre) end -> at_cmd pre l n.
Proof. intros ->. destruct l; [by right|by left]. Qed.

Lemma gettoken_at pre l post cmd : at_cmd pre l cmd -> clean l ->
  (exists z p, l = [] /\ Forall (eq 0) z /\ gettoken cmd (pre ++ l ++ 0 :: post) = (0, None, p, (pre ++ z) ++ 0 :: post)) \/
  token_at pre l post (gettoken cmd (pre ++ l ++ 0 :: post)).
Proof. intros [-> |[-> ->]] Hl; [right; by apply gettoken_spec|left]. exists [], None. by rewrite app_nil_r. Qed.

Lemma held_keep pre argv ws q : Forall2 (held pre) argv ws -> Forall2 (held (pre ++ 0 :: q)) argv ws.
Proof. intros H. eapply Forall2_impl; [apply H|]. intros a w; apply held_more. Qed.
(** Earlier words stay when a word follows: it is not adjacent to them. *)
Lemma held_word pre argv ws b w l t : Forall2 (held pre) argv ws -> argv = [] \/ at_sep (b ++ w ++ l) ->
  Forall plainc w -> w <> [] -> Forall (fun x => x = 0) t -> length t = length b -> Forall2 (held (pre ++ t ++ w)) argv ws.
Proof.
  intros H Hs Hw Hne Ht Hlen. destruct b as [|c b].
  - destruct Hs as [->|Hs]; [by inversion H|]. destruct Hw as [|x w Hx _]; [done|]. change (in_set (WHITESPACE ++ SYMBOLS) x = true) in Hs.
    unfold plainc in Hx. by rewrite Hx in Hs.
  - destruct Ht as [|x t -> _]; [done|]. apply held_keep, H.
Qed.

Lemma redir_spec trim c w l : (c =? 60) || (c =? 62) = true -> redir_last trim (TSym c :: TWord w :: lex [] l) = true ->
  (trim = true -> trimmed l = true) -> l = [].
Proof.
  intros Hc. cbn [redir_last]. rewrite Hc. intros H Ht. apply andb_true_iff in H as [H1 H2]. apply trimmed_end; [auto|].
  by destruct (lex [] l).
Qed.

Section Loop.
Context (p0 p1 : Z) (trim : bool).
(** The loop on a line of at most [n] bytes is the interpreter. *)
Definition loop_ok (n : nat) : Prop := forall fuel pre l post argv ws cmd s,
  (length l < fuel)%nat -> (length l <= n)%nat -> clean l -> Forall2 (held pre) argv ws -> argv = [] \/ at_sep l -> at_cmd pre l cmd ->
  redir_last trim (lex [] l) = true -> (trim = true -> trimmed l = true) ->
  runcmd_loop p0 p1 fuel argv cmd (pre ++ l ++ 0 :: post) s = run_toks ws (lex [] l) s.

Lemma loop_redir n c fuel p q l post argv ws cmd s (pre := p ++ 0 :: q) : loop_ok n -> (length l <= n)%nat -> (length l < fuel)%nat -> clean l ->
  Forall2 (held p) argv ws -> at_cmd pre l cmd -> (c =? 60) || (c =? 62) = true -> redir_last trim (TSym c :: lex [] l) = true -> (trim = true -> trimmed l = true) ->
  (let '(token2, t, cmd, mem) := gettoken cmd (pre ++ l ++ 0 :: post) in
   if negb (token2 =? 119) then pret (-1)
   else
     let name := match t with Some t => str_at mem t | None => [] end in
     ret <- (if c =? 60 then reopen 0 name O_RDONLY else reopen 1 name (Z.lor (Z.lor O_RDWR O_TRUNC) O_CREAT));
     if negb (ret =? 0) then pret ret else runcmd_loop p0 p1 fuel argv cmd mem) s = run_toks ws (TSym c :: lex [] l) s.
Proof.
  intros IH Hn Hf Hl Hh Hc Er Hr Ht.
  assert (E0 : match lex [] l with
    | TWord w :: ts => run_toks ws (TSym c :: lex [] l) s =
        (ret <- (if c =? 60 then reopen 0 w O_RDONLY else reopen 1 w (Z.lor (Z.lor O_RDWR O_TRUNC) O_CREAT));
         if negb (ret =? 0) then pret ret else run_toks ws ts) s
    | _ => run_toks ws (TSym c :: lex [] l) s = pret (-1) s end).
  { cbn [run_toks]. destruct (Z.eqb_spec c 60), (Z.eqb_spec c 62); try done; destruct (lex [] l) as [|[]]; try done; symmetry; apply reopen_redirect. }
  destruct (gettoken_at pre l post cmd Hc Hl) as [(z & n1 & -> & _ & ->)|T]; [by rewrite E0|].
  destruct T as [z E Hz|b c' l' t nx El Ht0 Hlen E Hc0 Hc119 En|b w l' t nx El Ht0 Hlen E Hne Hw Hsep En]; cbn iota; rewrite E in E0.
  - by rewrite E, E0.
  - rewrite E, E0. by rewrite (proj2 (Z.eqb_neq _ _) Hc119).
  - rewrite E in Hr |- *. cbn [negb Z.eqb Pos.eqb]. cbv zeta. rewrite E0.
    assert (El' : l' = []).
    { eapply redir_spec; [done..|]. intros H. specialize (Ht H). rewrite El in Ht. by apply trimmed_tail, trimmed_tail in Ht. }
    subst l'. rewrite El in Hl. destruct (clean_word _ _ _ Hl) as [Hw0 Hl'].
    assert (Es : str_at ((pre ++ t ++ w) ++ [] ++ 0 :: post) (length (pre ++ t)) = w).
    { apply held_str. rewrite app_assoc. by apply held_new. }
    rewrite Es. apply pbind_ext. intros ret s'. destruct (ret =? 0); [|done]. cbn [negb].
    apply IH; [simpl in *; lia|simpl; lia|done| |by right|by apply at_cmd_next|done|done].
    unfold pre. rewrite <- app_assoc. by apply held_keep.
Qed.

Lemma loop_all n : loop_ok n.
Proof.
  induction n as [n IH] using lt_wf_ind; intros fuel pre l post argv ws cmd s Hf Hn Hl Hh Hs Hc Hr Ht.
  destruct fuel as [|fuel]; [lia|]. cbn [runcmd_loop].
  destruct (gettoken_at pre l post cmd Hc Hl) as [(z & n1 & -> & Hz & ->)|T].
  { cbn [Z.eqb Pos.eqb orb]. rewrite <- app_assoc. destruct (zeros_cons z post) as [q ->]; [|by apply runit_spec].
    by eapply Forall_impl; [apply Hz|]. }
  destruct T as [z E Hz|b c l' t nx El Ht0 Hlen E Hc0 Hc119 En|b w l' t nx El Ht0 Hlen E Hne Hw Hsep En]; cbn iota.
  - cbn [Z.eqb Pos.eqb orb]. rewrite E, <- app_assoc. destruct (zeros_cons z post) as [q ->]; [|by apply runit_spec].
    by eapply Forall_impl; [apply Hz|].
  - rewrite E in Hr |- *. rewrite (proj2 (Z.eqb_neq _ _) Hc119), (proj2 (Z.eqb_neq _ _) Hc0).
    destruct (zeros_cons t [] Ht0) as [q Eq]. rewrite Eq in En |- *.
    assert (Hll : (S (length l') <= length l)%nat) by (rewrite El, length_app; simpl; lia).
    assert (Hl' : clean l') by (rewrite El in Hl; apply Forall_app in Hl as [_ Hl]; by apply Forall_cons in Hl as [_ Hl]).
    assert (Ht' : trim = true -> trimmed l' = true).
    { intros H. specialize (Ht H). rewrite El in Ht. apply trimmed_tail in Ht. by apply (trimmed_tail [c]) in Ht. }
    destruct ((c =? 60) || (c =? 62)) eqn:Er.
    { eapply (loop_redir (length l')); try done; [apply IH; lia|lia|by apply at_cmd_next]. }
    cbn [redir_last run_toks] in Hr |- *. rewrite Er in Hr. apply orb_false_iff in Er as [Er1 Er2]. rewrite Er1, Er2.
    apply andb_true_iff in Hr as [Hbar Hr]. destruct (c =? 124); [done|].
    assert (Hgo : forall s, runcmd_loop p0 p1 fuel [] nx ((pre ++ 0 :: q) ++ l' ++ 0 :: post) s = run_toks [] (lex [] l') s).
    { intros s'. eapply (IH (length l')); try done; [lia|lia|by left|by apply at_cmd_next]. }
    assert (Hrun : forall s, runit argv ((pre ++ 0 :: q) ++ l' ++ 0 :: post) s = run_words ws s).
    { intros s'. rewrite <- app_assoc. by apply runit_spec. }
    destruct (c =? 59); [|done]; repeat first [done|apply Hgo|apply Hrun|case_match|apply pbind_ext; intros ??].
  - rewrite E in Hr |- *. cbn [Z.eqb Pos.eqb orb]. cbn [run_toks redir_last] in Hr |- *.
    rewrite (Forall2_length _ _ _ Hh). destruct (_ =? EXEC_MAX_ARG_NUM); [done|]. cbn [option_list].
    rewrite El in Hl. destruct (clean_word _ _ _ Hl) as [Hw0 Hl'].
    assert (Hll : (S (length l') <= length l)%nat) by (rewrite El, !length_app; destruct w; [done|simpl; lia]).
    eapply (IH (length l')); try done; [lia|lia| |by right|by apply at_cmd_next|].
    + apply Forall2_app; [eapply held_word; try done; by rewrite <- El|].
      constructor; [|done]. rewrite app_assoc. by apply held_new.
    + intros H. specialize (Ht H). rewrite El in Ht. by apply trimmed_tail, trimmed_tail in Ht.
Qed.
End Loop.

Lemma runcmd_spec p0 p1 line post s : clean line -> redir_last (trimmed line) (lex [] line) = true ->
  runcmd p0 p1 (line ++ 0 :: post) s = run_toks [] (lex [] line) s.
Proof.
  intros Hl Hr. unfold runcmd. apply (loop_all p0 p1 (trimmed line) (length line) _ [] line post []); try done.
  - rewrite length_app; simpl; lia.
  - by left.
  - by left.
Qed.

(** ** Lines *)

(** What a key does to the line so far. *)
Definition edit (line : list Z) (c : Z) : list Z :=
  if (32 <=? c) && (Z.of_nat (length line) <? BUFSIZE - 1) then line ++ [c]
  else if c =? 8 then take (length line - 1) line else line.

Lemma edit_bound line c : Z.of_nat (length line) <= BUFSIZE - 1 -> Z.of_nat (length (edit line c)) <= BUFSIZE - 1.
Proof.
  intros H. unfold edit. case_match eqn:E; [rewrite length_app; simpl; apply andb_true_iff in E as [_ E]; lia|].
  case_match; [rewrite length_take; lia|done].
Qed.

Lemma readline_typed typed : Forall (fun c => c <> 3 /\ c <> 10 /\ c <> 13) typed -> forall line post rest,
  Z.of_nat (length line + length post) = BUFSIZE -> Z.of_nat (length line) <= BUFSIZE - 1 ->
  exists post' echo, readline_loop (line ++ post) (length line) ((RChar <$> typed) ++ RChar 10 :: rest)
    = Ok (true, foldl edit line typed ++ 0 :: post', echo, rest).
Proof.
  induction 1 as [|c typed (H3 & H10 & H13) _ IH]; intros line post rest Hlen Hb.
  - destruct post as [|x post]; [simpl in *; lia|]. exists post, [10]. cbn [fmap list_fmap app readline_loop foldl Z.eqb Pos.eqb Z.leb Z.compare andb].
    simpl. rewrite insert_app_r_alt, Nat.sub_diag by lia. done.
  - destruct post as [|x post]; [simpl in *; lia|]. simpl in Hlen. rewrite fmap_cons. simpl app. cbn [readline_loop foldl].
    rewrite (proj2 (Z.eqb_neq _ _) H3), (proj2 (Z.eqb_neq _ _) H10), (proj2 (Z.eqb_neq _ _) H13).
    pose proof (edit_bound line c Hb) as Hb'. remember (edit line c) as le eqn:Ee. unfold edit in Ee.
    destruct ((32 <=? c) && (Z.of_nat (length line) <? BUFSIZE - 1)) eqn:E; subst le.
    + destruct (IH (line ++ [c]) post rest) as (p & e & Er); [rewrite length_app; simpl; lia|done|].
      exists p, (c :: e). rewrite insert_app_r_alt, Nat.sub_diag by lia. cbn [insert list_insert].
      rewrite length_app, <- app_assoc, Nat.add_1_r in Er. simpl in Er. by rewrite Er.
    + destruct (Z.eqb_spec c 8) as [->|H8]; rewrite ?E; cbn [andb orb]; [|by apply (IH line (x :: post)); [simpl; lia|]].
      destruct (0 <? length line)%nat eqn:E0.
      * destruct (IH (take (length line - 1) line) (drop (length line - 1) line ++ x :: post) rest) as (p & e & Er);
          [rewrite length_app, length_take, length_drop; simpl; lia|done|].
        exists p, (8 :: e). rewrite app_assoc, take_drop, length_take, Nat.min_l in Er by lia. by rewrite Er.
      * apply Nat.ltb_ge in E0. rewrite take_ge in * by lia. by apply (IH line (x :: post)); [simpl; lia|].
Qed.

Lemma edited_printable typed : forall line, Forall (fun c => 32 <= c) line -> Forall (fun c => 32 <= c) (foldl edit line typed).
Proof.
  induction typed as [|c typed IH]; intros line H; [done|]. apply IH. unfold edit.
  case_match eqn:E; [apply andb_true_iff in E as [E _]; apply Forall_app; split; [done|constructor; [lia|done]]|].
  case_match; [by apply Forall_take|done].
Qed.

Lemma lex_symbol c l : in_set WHITESPACE c = false -> in_set SYMBOLS c = true -> c ∈ l -> forall w, TSym c ∈ lex w l.
Proof.
  intros Hw Hs. induction l as [|x l IH]; intros Hin w; [by apply not_elem_of_nil in Hin|]. cbn [lex].
  apply elem_of_cons in Hin as [<-|Hin].
  - rewrite Hw, Hs. apply elem_of_app; right. apply elem_of_cons; by left.
  - case_match; [apply elem_of_app; right; by apply IH|]. case_match; [|by apply IH].
    apply elem_of_app; right. apply elem_of_cons; right. by apply IH.
Qed.
Lemma words_no_symbol c l (ws : list (list Z)) : in_set WHITESPACE c = false -> in_set SYMBOLS c = true -> lex [] l = TWord <$> ws -> c ∉ l.
Proof.
  intros Hw Hs E Hin. pose proof (lex_symbol c l Hw Hs Hin []) as H. rewrite E in H. apply list_elem_of_fmap in H as (y & Ey & _). done.
Qed.
Lemma redir_words trim (ws : list (list Z)) : redir_last trim (TWord <$> ws) = true.
Proof. induction ws; [done|]. by rewrite fmap_cons. Qed.
Lemma run_toks_words (ws acc : list (list Z)) s : Z.of_nat (length acc + length ws) <= EXEC_MAX_ARG_NUM ->
  run_toks acc (TWord <$> ws) s = run_words (acc ++ ws) s.
Proof.
  revert acc; induction ws as [|w ws IH]; intros acc H; [by rewrite app_nil_r|]. rewrite fmap_cons. cbn [run_toks].
  rewrite (proj2 (Z.eqb_neq _ _)) by (simpl in H; unfold EXEC_MAX_ARG_NUM in *; lia).
  rewrite IH by (rewrite length_app; simpl in *; lia). by rewrite <- app_assoc.
Qed.

Lemma background_none mem i : (forall j, (j <= i)%nat -> nth j mem 0 <> 38) -> background_scan mem i = None.
Proof.
  induction i as [|i IH]; intros H; cbn [background_scan].
  - rewrite (proj2 (Z.eqb_neq _ _) (H 0%nat ltac:(lia))). by case_match.
  - rewrite (proj2 (Z.eqb_neq _ _) (H (S i) ltac:(lia))). case_match; [done|]. apply IH. intros j Hj; apply H; lia.
Qed.
Lemma background_hit mem i : nth i mem 0 = 38 -> background_scan mem i = Some i.
Proof. destruct i; cbn [background_scan]; by intros ->. Qed.
(** The scan stops at an ampersand of the last word, and cuts the line there. *)
Lemma background_some a t q : (forall c, c ∈ t -> c <> 38 /\ c <> 32) ->
  background_scan (a ++ 38 :: t ++ q) (length a + length t) = Some (length a).
Proof.
  intros Ht. induction t as [|x t IH] using rev_ind in q, Ht |- *.
  - simpl. rewrite Nat.add_0_r. apply background_hit. by rewrite app_nth2, Nat.sub_diag by lia.
  - rewrite length_app, Nat.add_assoc. simpl length. rewrite Nat.add_1_r. cbn [background_scan].
    assert (E : nth (S (length a + length t)) (a ++ 38 :: (t ++ [x]) ++ q) 0 = x).
    { rewrite app_nth2 by lia. replace (S (length a + length t) - length a)%nat with (S (length t)) by lia. cbn [nth].
      rewrite <- app_assoc, app_nth2, Nat.sub_diag by lia. done. }
    rewrite E. destruct (Ht x) as [H1 H2]; [apply elem_of_app; right; by apply elem_of_cons; left|].
    rewrite (proj2 (Z.eqb_neq _ _) H1), (proj2 (Z.eqb_neq _ _) H2), <- app_assoc. apply IH.
    intros c Hc; apply Ht. apply elem_of_app; by left.
Qed.
Lemma background_line line post : Forall (fun c => c <> 0) line -> 38 ∉ line -> in_backgroud (line ++ 0 :: post) = (false, line ++ 0 :: post).
Proof.
  intros H0 Hin. unfold in_backgroud, str_at. rewrite drop_0, cstr_word by done. rewrite background_none; [done|].
  intros j Hj E. destruct (decide (j < length line)%nat) as [Hlt|Hge].
  - rewrite app_nth1 in E by done. apply Hin. rewrite <- E. apply list_elem_of_In, nth_In. lia.
  - replace j with (length line) in E by lia. by rewrite app_nth2, Nat.sub_diag in E by lia.
Qed.
Lemma background_cut a t post : Forall (fun c => c <> 0) a -> Forall (fun c => c <> 0) t -> (forall c, c ∈ t -> c <> 38 /\ c <> 32) ->
  in_backgroud ((a ++ 38 :: t) ++ 0 :: post) = (true, a ++ 0 :: t ++ 0 :: post).
Proof.
  intros Ha Ht0 Ht. unfold in_backgroud, str_at.
  rewrite drop_0, cstr_word by (apply Forall_app; split; [done|by constructor]).
  replace (length (a ++ 38 :: t)) with (length a + length (t ++ [0%Z]) )%nat by (rewrite !length_app; simpl; lia).
  replace ((a ++ 38 :: t) ++ 0 :: post) with (a ++ 38 :: (t ++ [0]) ++ post) by (by rewrite <- !app_assoc).
  rewrite background_some; [|intros c Hc; apply elem_of_app in Hc as [Hc|Hc]; [by apply Ht|by apply list_elem_of_singleton in Hc as ->]].
  rewrite insert_app_r_alt, Nat.sub_diag by lia. by rewrite <- app_assoc.
Qed.

Lemma run_words_simple w0 ws fd a r rest cs : w0 <> cd_name -> 0 <= fd ->
  run_words (w0 :: ws) (Sh (fd :: a :: r :: rest) cs) = Ok (r, Sh rest (cs ++ [COpen w0 O_RDONLY; CClose fd; CExec w0 (w0 :: ws)])).
Proof.
  intros Hcd Hfd. unfold run_words. rewrite bool_decide_eq_false_2 by done. unfold ask, pbind, pret. cbn.
  rewrite (proj2 (Z.leb_le _ _) Hfd). cbn. by rewrite <- !app_assoc.
Qed.

(** What the child of one line does. *)
Lemma sh_line_child p0 p1 line post w0 ws fd a r rest cs :
  Forall (fun c => 32 <= c) line -> 34 ∉ line -> lex [] line = TWord <$> w0 :: ws -> take 2 line <> cd_name -> w0 <> cd_name ->
  Z.of_nat (length ws) < EXEC_MAX_ARG_NUM -> 0 <= fd ->
  sh_line p0 p1 (line ++ 0 :: post) (Sh (0 :: fd :: a :: r :: rest) cs)
  = Ok (Some r, Sh (drop 1 rest) (cs ++ [CFork; COpen w0 O_RDONLY; CClose fd; CExec w0 (w0 :: ws); CExit r])).
Proof.
  intros H32 Hq Hlex Hcd Hw0 Hn Hfd.
  assert (H0 : Forall (fun c => c <> 0) line) by (eapply Forall_impl; [apply H32|]; intros c; simpl; lia).
  assert (Hcl : clean line).
  { apply Forall_forall. intros c Hc. split; [by apply (proj1 (Forall_forall _ _) H0)|]. intros ->. done. }
  unfold sh_line. rewrite background_line by (done || by apply (words_no_symbol 38 line (w0 :: ws))).
  destruct line as [|c line]; [done|]. cbn [nth app]. apply Forall_cons in H0 as [Hc0 H0]. rewrite (proj2 (Z.eqb_neq _ _) Hc0).
  assert (Ecd : (c =? 99) && (nth 0 (line ++ 0 :: post) 0 =? 100) = false).
  { destruct (Z.eqb_spec c 99) as [->|]; [|done]. destruct line as [|c2 line]; [done|]. cbn [nth app].
    destruct (Z.eqb_spec c2 100) as [->|]; [done|done]. }
  rewrite Ecd. unfold pbind, ask. cbn [answers calls]. rewrite res_bind_ok. cbv beta iota. rewrite Z.eqb_refl.
  change (c :: line ++ 0 :: post) with ((c :: line) ++ 0 :: post). rewrite runcmd_spec by (done || rewrite Hlex; apply redir_words).
  rewrite Hlex, run_toks_words by (simpl; unfold EXEC_MAX_ARG_NUM in *; lia). cbn [app].
  rewrite run_words_simple by done. cbn. unfold ask, pbind, pret. cbn.
  destruct rest; cbn; by rewrite <- !app_assoc.
Qed.

Lemma readline_line typed rest : Forall (fun c => c <> 3 /\ c <> 10 /\ c <> 13) typed -> exists post echo,
  readline (replicate (Z.to_nat BUFSIZE) 0) ((RChar <$> typed) ++ RChar 10 :: rest) = Ok (true, foldl edit [] typed ++ 0 :: post, echo, rest).
Proof.
  intros H. apply (readline_typed typed H [] (replicate (Z.to_nat BUFSIZE) 0) rest); [|done].
  change (Z.of_nat (length (replicate (Z.to_nat BUFSIZE) 0)) = BUFSIZE). by rewrite length_replicate.
Qed.

Lemma sh_main_start p0 p1 input l cs :
  sh_main p0 p1 [] input (Sh (0 :: l) cs) = sh_loop p0 p1 (length input) (replicate (Z.to_nat BUFSIZE) 0) input (Sh l (cs ++ [CGetcwd])).
Proof. reflexivity. Qed.

(** C37: [runcmd] on a line without quotes and bars, in which a redirection
    comes only at the very end and with no blank behind it, makes exactly the
    calls that the tokens of the line, read character by character, ask for:
    the words are the arguments of the program (tried under its own name, then
    in the root directory), a semicolon runs what is before it in a child and
    waits for it, a redirection puts the named file on descriptor 0 or 1; the
    strings handed to [open] and [exec] are exactly the words, although the
    tokens are cut out of the line in place.  Each call may fail or succeed in
    any way.  (Outside these lines the code goes wrong: see
    [redirect_takes_rest], [quotes_stay] and [pipe_never_made].) *)
Theorem runcmd_correct p0 p1 line post s : clean line -> redir_last (trimmed line) (lex [] line) = true ->
  runcmd p0 p1 (line ++ 0 :: post) s = run_toks [] (lex [] line) s.
Proof. apply runcmd_spec. Qed.

(** [ls -a;cat x>out] *)
Definition ex_line : list Z := [108; 115; 32; 45; 97; 59; 99; 97; 116; 32; 120; 62; 111; 117; 116].
Lemma runcmd_correct_witness :
  runcmd 0 0 (ex_line ++ 0 :: [7; 7]) (Sh [5; 0; 0; 1; 3; 0; 0] []) = run_toks [] (lex [] ex_line) (Sh [5; 0; 0; 1; 3; 0; 0] []) /\
  run_toks [] (lex [] ex_line) (Sh [5; 0; 0; 1; 3; 0; 0] [])
  = Ok (0, Sh [] [CFork; CWait 5; CClose 1; COpen [111; 117; 116] 22; COpen [99; 97; 116] 0; CClose 3; CExec [99; 97; 116] [[99; 97; 116]; [120]]]).
Proof.
  split; [|vm_compute; reflexivity].
  apply (runcmd_correct 0 0 ex_line [7; 7]); [|vm_compute; reflexivity].
  unfold clean, ex_line. repeat constructor; discriminate.
Defined.

(** typing a command of at most 32 words (with any corrections by
    backspace) and return makes the child of the shell open and close the
    program's file, and then execute it with exactly the words of the line as
    they stand after the corrections. *)
Theorem shell_runs_command p0 p1 typed rest w0 ws fd a b r : let line := foldl edit [] typed in
  Forall (fun c => c <> 3 /\ c <> 10 /\ c <> 13) typed -> 34 ∉ line -> lex [] line = TWord <$> w0 :: ws ->
  take 2 line <> cd_name -> w0 <> cd_name -> Z.of_nat (length ws) < EXEC_MAX_ARG_NUM -> 0 <= fd ->
  sh_main p0 p1 [] ((RChar <$> typed) ++ RChar 10 :: rest) (Sh [0; 0; fd; a; r; b] [])
  = Ok (r, Sh [] [CGetcwd; CFork; COpen w0 O_RDONLY; CClose fd; CExec w0 (w0 :: ws); CExit r]).
Proof.
  intros line Ht Hq Hlex Hcd Hw0 Hn Hfd. rewrite sh_main_start.
  rewrite length_app, length_fmap. cbn [length]. rewrite Nat.add_succ_r. cbn [sh_loop]. unfold pbind.
  destruct (readline_line typed rest Ht) as (post & echo & ->). rewrite !res_bind_ok. cbv beta iota. cbn [negb].
  rewrite (sh_line_child p0 p1 _ post w0 ws) by (try done; by apply edited_printable). by rewrite !res_bind_ok.
Qed.
(** Keys: l x backspace s blank a b *)
Definition ex_typed : list Z := [108; 120; 8; 115; 32; 97; 98].
Lemma shell_runs_command_witness :
  sh_main 0 0 [] ((RChar <$> ex_typed) ++ [RChar 10]) (Sh [0; 0; 3; 0; -2; 0] [])
  = Ok (-2, Sh [] [CGetcwd; CFork; COpen [108; 115] 0; CClose 3; CExec [108; 115] [[108; 115]; [97; 98]]; CExit (-2)]).
Proof.
  apply (shell_runs_command 0 0 ex_typed [] [108; 115] [[97; 98]] 3 0 0 (-2)); try (vm_compute; done).
  - unfold ex_typed. repeat constructor; discriminate.
  - refine (proj1 (bool_decide_eq_true _) _); vm_compute; reflexivity.
Defined.

(** ** What the code gets wrong *)

(** [cat < a b]: the name given to [open] is not cut off yet and takes the rest of the line. *)
Lemma redirect_takes_rest :
  runcmd 0 0 [99; 97; 116; 32; 60; 32; 97; 32; 98; 0] (Sh [0; -16] []) = Ok (-16, Sh [] [CClose 0; COpen [97; 32; 98] O_RDONLY]).
Proof. vm_compute. reflexivity. Qed.
(** A quoted word keeps two blanks in place of its quotes. *)
Lemma quotes_stay : gettoken (Some 0%nat) [34; 97; 34; 0] = (119, Some 0%nat, None, [32; 97; 32; 0]).
Proof. vm_compute. reflexivity. Qed.
(** Any command whose name starts with cd is taken for cd: the line cdrom changes to the directory om. *)
Lemma cd_prefix p0 p1 : sh_line p0 p1 [99; 100; 114; 111; 109; 0] (Sh [] []) = Ok (None, Sh [] [CChdir [111; 109]; CGetcwd]).
Proof. vm_compute. reflexivity. Qed.
(** cd alone changes to what is left in the buffer from an earlier, longer line. *)
Lemma cd_alone_stale p0 p1 : sh_line p0 p1 [99; 100; 0; 120; 0] (Sh [] []) = Ok (None, Sh [] [CChdir [120]; CGetcwd]).
Proof. vm_compute. reflexivity. Qed.
(** The two ends of a pipe are the same arbitrary numbers on both sides: no pipe is made before the fork. *)
Lemma pipe_never_made p0 p1 :
  runcmd p0 p1 [97; 124; 98; 0] (Sh [5] []) = Ok (0, Sh [] [CFork; CClose 1; CDup2 p1 1; CClose p0; CClose p1; COpen [97] 0; CClose 0; CExec [97] [[97]]]).
Proof. vm_compute. reflexivity. Qed.
