(* ===== verification/Brk.v ===== *)
(** * The heap of a process: [do_brk] of kern/process/proc.c

    The areas of the process are those of Vmm.v; [brk_start] and [brk] are
    the two further fields of [struct mm_struct], which nothing in the kernel
    sets before [do_brk] reads them; so what is proved is what [mm_brk] does,
    and what becomes of a break that is not page aligned or meets an area.
    [brk_store] points to user memory, a map from addresses to bytes; local
    variables are values. *)
From S2P Require Import Prelude Libs Vmm PageInit Sysfile.

Record heap := Heap { hst : vmst; brk_start : Z; brk : Z }.
Definition HEAP_FLAGS : Z := Z.lor VM_READ VM_WRITE.

(** A word of memory, least byte first. *)
Definition store_word (m : mem) (a v : Z) : mem := fun x =>
  if (a <=? x) && (x <? a + 4) then v / 2 ^ (8 * (x - a)) mod 256 else m x.

(** From the test against [brk_start] to [out_unlock]: the new heap, with
    [brk] as it was where the code gives up. *)
Definition move_brk (h : heap) (new : Z) : res heap :=
  if new <? brk_start h then Ok h
  else
    let newbrk := ROUNDUP new PGSIZE in
    let oldbrk := brk h in
    _ ← kassert (oldbrk mod PGSIZE =? 0);
    if newbrk =? oldbrk then Ok h
    else if newbrk <? oldbrk then
      '(r, st) ← mm_unmap (hst h) newbrk (u32 (oldbrk - newbrk));
      Ok (Heap st (brk_start h) (if r =? 0 then newbrk else oldbrk))
    else
      match find_vma_intersection (hst h) oldbrk (u32 (newbrk + PGSIZE)) with
      | (Some _, st) => Ok (Heap st (brk_start h) oldbrk)
      | (None, st) =>
          '(r, st) ← mm_brk st oldbrk (u32 (newbrk - oldbrk));
          Ok (Heap st (brk_start h) (if r =? 0 then newbrk else oldbrk))
      end.

(** [h]: the heap of [current->mm], or NULL.  The memory after, and the heap. *)
Definition do_brk (ram : mem) (h : option heap) (brk_store : Z) : res (Z * mem * option heap) :=
  match h with
  | None => Panic
  | Some h =>
      if brk_store =? 0 then Ok (i32 (brk_start h), ram, Some h)
      else
        '(ok, st) ← user_mem_check (Some (hst h)) brk_store 4 true;
        let h := Heap (default (hst h) st) (brk_start h) (brk h) in
        if negb ok then Ok (- E_INVAL, ram, Some h)
        else
          h ← move_brk h (le32_at ram brk_store);
          '(ok, st) ← user_mem_check (Some (hst h)) brk_store 4 true;
          Ok (0, if negb ok then ram else store_word ram brk_store (brk h), Some (Heap (default (hst h) st) (brk_start h) (brk h)))
  end.

(** ** Pages *)
Lemma rounddown_id a : a mod PGSIZE = 0 -> ROUNDDOWN a PGSIZE = a.
Proof. intros H. unfold ROUNDDOWN. rewrite H. lia. Qed.
Lemma roundup_id a : 0 <= a -> a + PGSIZE < 2 ^ 32 -> a mod PGSIZE = 0 -> ROUNDUP a PGSIZE = a.
Proof.
  intros H0 H1 H2. destruct (roundup_ge a H0 H1) as (H3 & H4 & H5). apply mult_pages in H2, H4. unfold PGSIZE in *. lia.
Qed.
Lemma whole_pages s e : s mod PGSIZE = 0 -> e mod PGSIZE = 0 -> USER_ACCESS s e = true ->
  ROUNDDOWN s PGSIZE = s /\ ROUNDUP (u32 (s + u32 (e - s))) PGSIZE = e.
Proof.
  intros Hs He Ha. unfold USER_ACCESS, USERBASE, USERTOP in Ha. split; [by apply rounddown_id|].
  rewrite (u32_small (e - s)), u32_small by lia. replace (s + (e - s)) with e by lia. apply roundup_id; unfold PGSIZE in *; lia || done.
Qed.

(** ** Growing *)

(** The heap area may grow over a free range. *)
Lemma rep_extend st l1 l2 a v e : rep st (l1 ++ (a, v) :: l2) -> vm_end v <= e ->
  (forall x, vm_end v <= x < e -> cover (l1 ++ (a, v) :: l2).*2 x = None) ->
  let w := Vma (vm_mm v) (vm_start v) e (vm_flags v) in
  rep (set_vma a w st) (l1 ++ (a, w) :: l2) /\
  forall x, cover (l1 ++ (a, w) :: l2).*2 x = if (vm_end v <=? x) && (x <? e) then Some (vm_flags v) else cover (l1 ++ (a, v) :: l2).*2 x.
Proof.
  intros Hr He Hfree w. pose proof (rep_wf_in _ _ a v Hr ltac:(set_solver)) as Hv.
  destruct (rep_around _ _ _ _ _ Hr) as [Hprev Hafter].
  assert (Hnext : Forall (fun x => e <= vm_start x.2) l2).
  { apply Forall_forall. intros [b u] Hu. assert (Hin : (b, u) ∈ l1 ++ (a, v) :: l2) by set_solver.
    pose proof (rep_wf_in _ _ _ _ Hr Hin) as Hw. pose proof (proj1 (Forall_forall _ _) Hafter _ Hu) as Hb. simpl in Hb |- *.
    destruct (Z.le_gt_cases e (vm_start u)); [done|]. specialize (Hfree (vm_start u) ltac:(lia)).
    rewrite (cover_in _ _ _ _ (vm_start u) Hr Hin) in Hfree; [done|]. apply contains_spec. lia. }
  split; [apply rep_change; done || lia|].
  intros x. rewrite !cover_inserted by done. cbn [vm_flags]. unfold contains. cbn [vm_start vm_end w].
  destruct (Z.leb_spec (vm_end v) x), (Z.ltb_spec x e); cbn [andb];
    destruct (Z.leb_spec (vm_start v) x), (Z.ltb_spec x (vm_end v)); cbn [andb]; try lia; done.
Qed.

Lemma find_none st l s : rep st l -> cover l.*2 s = None -> find_vma st s = (None, st).
Proof.
  intros Hr Hc. pose proof (find_vma_spec st l s Hr) as Hf. destruct (find_vma st s) as [[a|] st1]; [|by destruct Hf as [-> _]].
  destruct Hf as (v & Hin & Hv & _). by rewrite (cover_in _ _ _ _ _ Hr Hin Hv) in Hc.
Qed.

(** A new area over a free range. *)
Lemma insert_free st l s e flags : rep st l -> pool st <> [] -> s < e -> (forall x, s <= x < e -> cover l.*2 x = None) ->
  exists st' l', match vma_create s e flags st with
    | (None, st) => Ok (- E_NO_MEM, st)
    | (Some a, st) => st ← insert_vma_struct st a; Ok (0, st)
    end = Ok (0, st') /\ rep st' l' /\
    forall x, cover l'.*2 x = if (s <=? x) && (x <? e) then Some flags else cover l.*2 x.
Proof.
  intros Hr Hp Hse Hfree. pose proof (vma_create_spec st l s e flags Hr) as Hcr.
  destruct (vma_create s e flags st) as [[a|] st1]; [|by destruct Hcr as [? _]].
  destruct Hcr as (Hr1 & Ha & Hpl & [m Hv] & Hmm & _). pose proof (insert_spec st1 l a _ Hr1 Hv Ha Hpl) as Hi.
  destruct (insert_vma_struct st1 a) as [st2| |]; [| |done].
  - destruct Hi as (_ & l1 & l2 & -> & H1 & H2 & _ & Hr2). rewrite res_bind_ok. eexists _, _. split_and!; [done|exact Hr2|].
    intros x. by rewrite cover_inserted.
  - exfalso. destruct Hi as [Hn|([b u] & Hx & Ho)]; [by unfold nonempty in Hn|]. unfold overlap in Ho. csimpl in Ho.
    pose proof (rep_wf_in _ _ _ _ Hr Hx) as Hw.
    specialize (Hfree (Z.max s (vm_start u)) ltac:(lia)).
    rewrite (cover_in _ _ _ _ (Z.max s (vm_start u)) Hr Hx) in Hfree; [done|]. apply contains_spec. lia.
Qed.

(** [mm_brk] over whole pages of the user part that lie in no area makes exactly
    these readable and writable, in a new area or at the end of the one that
    ends there, and leaves every other address as it was. *)
Theorem mm_brk_correct st l s e : rep st l -> s mod PGSIZE = 0 -> e mod PGSIZE = 0 -> USER_ACCESS s e = true -> pool st <> [] ->
  (forall x, s <= x < e -> cover l.*2 x = None) ->
  exists st' l', mm_brk st s (u32 (e - s)) = Ok (0, st') /\ rep st' l' /\
    forall x, cover l'.*2 x = if (s <=? x) && (x <? e) then Some HEAP_FLAGS else cover l.*2 x.
Proof.
  intros Hr Hs He Hua Hp Hfree. destruct (whole_pages s e Hs He Hua) as [E1 E2].
  assert (Hse : s < e /\ USERBASE <= s) by (unfold USER_ACCESS in Hua; lia).
  unfold mm_brk. rewrite E1, E2, Hua. cbn [negb].
  assert (Eu : mm_unmap st s (u32 (e - s)) = Ok (0, st)).
  { unfold mm_unmap. rewrite E1, E2, Hua. cbn [negb]. by rewrite (find_none st l s Hr) by (apply Hfree; lia). }
  rewrite Eu, res_bind_ok. cbn [Z.eqb negb]. rewrite Z.eqb_refl. cbn [negb].
  pose proof (find_vma_spec st l (u32 (s - 1)) Hr) as Hf. destruct (find_vma st (u32 (s - 1))) as [[a|] st1]; cbn iota.
  - destruct Hf as (v & Hin & Hv & -> & Hr1). rewrite (rep_vma _ _ _ _ Hr1 Hin).
    destruct ((vm_end v =? s) && (vm_flags v =? Z.lor VM_READ VM_WRITE)) eqn:Em.
    + apply andb_true_iff in Em as [Ee Ef]. apply Z.eqb_eq in Ee, Ef. apply list_elem_of_split in Hin as (l1 & l2 & ->).
      destruct (rep_extend _ l1 l2 a v e Hr1) as [Hr2 Hc]; [lia|intros x Hx; apply Hfree; lia|].
      eexists _, _. split_and!; [done|exact Hr2|]. intros x. rewrite Hc, Ee, Ef. done.
    + apply insert_free; done || lia.
  - destruct Hf as [-> _]. apply insert_free; done || lia.
Qed.

(** ** A concrete heap: the first area of the process of Vmm.v, up to 0x403000 *)
Definition demo_heap : heap := Heap demo 0x400000 0x403000.

(** Growing past a later area is not refused: [find_vma] finds only an area
    that holds the old break itself, and the heap is stretched over the area
    behind it, which stays in the list. *)
Lemma brk_overlaps : match move_brk demo_heap 0x600000 with
  | Ok h => vm_end (vma (hst h) 100) = 0x600000 /\ vm_start (vma (hst h) 200) = 0x500000 /\ mmap_list (mm (hst h)) = [100; 200] /\ brk h = 0x600000
  | _ => False
  end.
Proof. vm_compute. done. Qed.
(** A break that is not page aligned, which nothing rules out for a new
    process, stops the kernel. *)
Lemma brk_unaligned_panics : move_brk (Heap demo 0x400000 0x403001) 0x404000 = Panic.
Proof. vm_compute. done. Qed.
